(* ===== verification/_CoqProject ===== *)
-Q . S2P
Prelude.v
CString.v
CSort.v
Version.v
UtHash.v
Pkg.v
Checksum.v
PkgAudit.v
Query.v
Cprintf.v
Printf.v
PkgPrintf.v
QueryPrintf.v
Ucl.v
Manifest.v
ManifestRoundtrip.v
ManifestSafe.v
Universe.v
Upgrade.v
UniverseBuild.v
Schedule.v
Jobs.v
Solve.v
Conflicts.v
Install.v
Installation.v
Deinstall.v
Cudf.v
FileConflicts.v
KeptJobs.v
JobSolve.v
Fetch.v
Apply.v
RepoMeta.v
RepoSign.v
RepoCreate.v
