(* ===== verification/Prelude.v ===== *)
(** * Verification of libpkg, the library of the FreeBSD package manager

    libpkg (libpkg/) holds package objects in memory, reads them from
    archives, manifests and databases, compares their versions, computes what
    to install, and checks installed packages against a list of
    vulnerabilities; pkg (src/) is its command.  This development translates
    the parts that compute, function by function, and proves what they
    promise and where they break the promise.

    ** Files

    - [Prelude]: sign arithmetic of three-way comparisons, tactics, lemmas on
      lists and options that the other files share.
    - [CString]: bytes and C strings (a list of bytes without the NUL) and the
      libc functions the sources call: strcmp, strncmp, strcasecmp, strchr,
      strrchr, strtoul, getline and the ctype tests.  Reading the NUL yields [NUL];
      reading past it is [None] in the functions where it can happen.
    - [CSort]: the merge sort of external/uthash/utlist.h (LL_SORT, DL_SORT):
      it terminates, permutes, sorts and is stable, and a sort of records
      depends on the multiset only when ties are equal.
    - [Version]: libpkg/pkg_version.c.  [pkg_version_cmp] parses and compares
      two names in one loop over the text; the specification parses each name
      into epoch, tokens and revision and compares those.
    - [UtHash]: external/uthash/uthash.h, the intrusive hash tables with
      application order: elements at addresses, with next pointers and a
      chain.  Adding an element that is linked already is expressible, and
      happens.
    - [Pkg]: the package object of libpkg/pkg.c and pkg_attributes.c (struct
      pkg of libpkg/private/pkg.h): attributes, scripts and the uthash lists,
      with every function that adds to, sets, deletes from, iterates over,
      counts or resets them.
    - [Checksum]: libpkg/pkg_checksum.c, the digest of a package, and
      pkg_validate of libpkg/pkg.c.  Uses [CSort], [Pkg].
    - [PkgAudit]: libpkg/pkg_audit.c: the event handlers of the VuXML parser as a
      state machine, the expansion to one entry per name, the sorted array
      with jump indexes and the search.  Uses [Version].
    - [Query]: src/query.c: the translation of evaluation strings to SQL, the
      check of formats, and the printing of a package up to the text libpkg's
      printf makes of the chosen format.  Uses [Pkg].
    - [Cprintf]: what the C library's printf does with the conversions libpkg
      composes (integers with flags, width and precision, strings, the rounding
      of a double to one decimal) and strmode.
    - [Printf]: the parser of libpkg/pkg_printf.c (flags, width, item formats,
      format codes with their trie) and the printers of values (integers, byte
      counts scaled by human_number, modes, booleans, lists in their forms).
    - [PkgPrintf]: the rest of libpkg/pkg_printf.c: the handlers of all format
      codes over the data a caller passes, the item formats of lists and
      pkg_sbuf_vprintf.  Uses [Cprintf], [Printf], [Pkg].
    - [QueryPrintf]: [Query] and [PkgPrintf] composed: the formats print_query
      builds, printed.
    - [Ucl]: the objects of external/libucl/src/ucl_util.c: strings trimmed and
      escaped, insertion under a key (a second object under it is chained to the
      first), iteration, and what JSON text keeps of an object ([wire]).
    - [Manifest]: libpkg/pkg_manifest.c and the YAML conversion of
      libpkg/utils.c: the table of keys and the hash made of it, percent
      encoding, the readers of every key, [parse_manifest] and its callers, and
      [pkg_emit_object] with the functions that write it.  Uses [Ucl], [UtHash],
      [Pkg], [Checksum].
    - [ManifestRoundtrip], [ManifestSafe]: what a manifest keeps of a package,
      and when reading one fails.
    - [Universe]: libpkg/pkg_jobs_universe.c, the packages a job is about
      (struct pkg_jobs_universe and struct pkg_jobs of private/pkg_jobs.h): the
      insertion of a package, pkg_jobs_add_req, the choice among upgrade
      candidates and the priorities.  An item is an index of [u_store], a chain
      of items the list of its indexes.  Uses [UtHash], [Pkg], [Checksum],
      [Version].
    - [Upgrade]: pkg_jobs_need_upgrade of libpkg/pkg_jobs.c: whether a package
      of a repository replaces an installed one.  Uses [Version], [Pkg].
    - [UniverseBuild]: the functions of pkg_jobs_universe.c that complete the
      universe from the databases: what a package brings along (dependencies,
      reverse dependencies, conflicts, providers of libraries).  Uses
      [Universe], [Upgrade].
    - [Schedule]: the order of the jobs in libpkg/pkg_jobs.c
      (pkg_jobs_set_priorities).  Uses [Universe].
    - [Jobs]: what a job asks for, in libpkg/pkg_jobs.c: patterns, the requests of
      a deletion and an autoremove, the automatic flag, the reasons of
      deletions, the candidates of an upgrade.  Uses [UniverseBuild].
    - [Solve]: libpkg/pkg_solve.c: the universe as clauses
      ([pkg_solve_jobs_to_sat]), the call of PicoSAT and the dialogue about
      failed requests ([pkg_solve_sat_problem]), the jobs made of a solution
      ([pkg_solve_sat_to_jobs]), the loop of pkg_jobs_solve around them
      ([solve_again]) and the DIMACS export.  Uses [Universe].
    - [Conflicts]: libpkg/pkg_jobs_conflicts.c, the choice among requests that
      conflict.  Uses [CSort], [Version], [Universe].
    - [Deinstall]: [Jobs], [UniverseBuild], [Solve] and [Schedule] composed: a
      removal from its patterns to the ordered deletions.
    - [Install]: the requests of an install, an upgrade and a download in
      libpkg/pkg_jobs.c (pkg_jobs_process_remote_pkg, pkg_jobs_find_upgrade and
      what calls them), with the change of unique ids of pkg_jobs_universe.c.
      Uses [Jobs], [UniverseBuild], [Upgrade], [Conflicts].
    - [Installation]: [Install], [Solve] and [Schedule] composed: an installation
      from its patterns to the ordered jobs.
    - [Cudf]: libpkg/pkg_cudf.c: a job written as a document for an external
      solver, and the solver's answer read back into jobs.  Uses [CSort],
      [Universe], [Jobs].
    - [FileConflicts]: the check of the files of packages that come, in
      pkg_jobs.c, pkgdb.c (pkgdb_integrity_...) and pkg_jobs_conflicts.c, and the
      conflicts it registers.  Uses [UniverseBuild], [Solve].
    - [KeptJobs]: what is done before the solver leaves the list of jobs alone,
      for every answer of the databases.  Uses [Install], [Jobs], [Conflicts].
    - [JobSolve]: pkg_jobs_solve of pkg_jobs.c, from the patterns to jobs whose
      files do not clash, with the solver of libpkg or an external one, and the
      parser of a SAT solver's answer (pkg_solve.c).  Uses [Installation],
      [Cudf], [FileConflicts], [KeptJobs].
    - [Fetch]: the download of a package into the cache (repo/binary/fetch.c and
      what it uses of fetch.c and utils.c).  Uses [PkgPrintf].
    - [Apply]: pkg_jobs_apply: the packages are fetched, their files checked and
      the jobs executed.  Uses [JobSolve], [Fetch].
    - [RepoMeta]: libpkg/pkg_repo_meta.c, what a repository says of its files.
      Uses [Ucl], [Checksum].
    - [RepoSign]: the signatures of a repository: libpkg/pkg_repo.c, rsa.c, and the
      signing of pkg_repo_create.c.  Uses [UtHash], [Fetch], [RepoMeta].
    - [RepoCreate]: libpkg/pkg_repo_create.c: the processes that read the packages
      of a directory, as an interleaving of their steps, the digests and the
      packing.  Uses [CSort], [Manifest], [Checksum], [RepoMeta], [RepoSign].

    ** What is proved

    - Versions: the loop refines the comparison of parsed names, ends on
      every input, is a total preorder with values -1, 0, 1; components stay
      in range and the parser only moves forward; upgrade, downgrade and
      reinstall are what the comparison says.
    - Package objects: any sequence of operations keeps the lists sound (walks
      end, counts agree, and but for files, directories and reverse dependencies
      no duplicates); set/get round trips; what each pkg_add... does on every
      branch.  The lists are proved sound only for
      the operations that keep them so: pkg_addoption_default and
      pkg_addoption_description do not, and a theorem shows how.
    - Digests: both encodings can be decoded; a generated digest fits, names
      its type and is accepted; it does not depend on the order of the lists;
      pkg_validate stores it.  Two theorems show an overrun the length check
      admits and packages with equal input to the hash.
    - Audit: the parser reads the documents one can write and never
      dereferences NULL on any sequence of events; the indexed search reports
      exactly what a scan of all entries reports, when no name starts with a
      glob character; such a name is never reported.
    - Queries: an accepted evaluation string is a complete expression, every
      string in it a quoted SQL literal, so nothing can be injected; an
      accepted format is printed with data of the kind each directive expects.
    - Printf: a call with data of the kinds its format names never touches
      data of another kind; it comes to an end exactly when every directive is
      known (an unknown one loops for ever); quoted text comes back as it was; a
      list prints its items with separators between; the composed C formats
      fit their buffer; integers can be read back; a byte count is rounded to
      the precision shown; the trie finds each code and only those.  Together
      with the check of formats in [Query]: pkg query prints every accepted
      format.
    - Manifests: the object written for a package in order, read back, gives a
      package with the fields, lists and scripts the manifest carries
      ([reloaded] is that package, [emittable] what a manifest can carry); a
      package with conflicts or provides cannot be written at all; whatever is
      read, the lists of the package stay sound; reading ends without a failed
      assertion for every object whose names are not empty and whose escapes are
      complete; the hash of keys answers as a scan of the table; percent
      encoding can be undone.
    - Universe: an insertion keeps the universe well-formed (every item in
      exactly one chain, under its unique id); of several candidates the
      request for a most recent one is left; the priorities are propagated to
      an end on any graph and only grow.
    - Completion: with a database that answers for finitely many digests the
      functions that complete the universe end, with EPKG_OK or with EPKG_FATAL
      for a missing dependency, in a universe the solver accepts; without the
      error, what was added has its dependencies there.  Of the providers of a
      library those before the last have to be the only versions of their
      packages: an example shows the next one read into a package of the
      universe otherwise.
    - Upgrade decision: a package is replaced exactly when it is not locked, its
      digest differs and the other is newer, or as old, from no other
      repository and built differently; the reason names the first
      difference.
    - Requests: autoremove asks for exactly the unlocked automatic packages that
      nothing else needs, if no automatic packages need each other (then it
      recurses without end); the automatic flags and the reasons of a deletion
      are what the graph of dependencies says.
    - Job order: every restart of pkg_jobs_set_priorities splits an upgrade, so it
      ends; jobs come in an order that respects dependencies and conflicts
      unless an item reached the recursion limit.  For upgrades of packages with
      conflicts the order of dependencies can be wrong, as an example shows.
    - Removal: composed, the packages asked for and not locked are deleted, what
      stays of the universe keeps its dependencies, and dependents go first.  With
      PKG_FLAG_RECURSIVE the universe holds the dependents; with -f alone it need
      not, and an example leaves one without its dependency.
    - Installation: composed, with a user who accepts no renamed package and
      without the force flag, the requests are those of the patterns, or only the
      upgrade of the package manager when that is tested for and there is one;
      each is selected, unless it is passed over for a lock or a newer candidate
      or the user agrees to drop requests; what is selected has its dependencies
      and conflicts with nothing selected; and the jobs lead there, in an order
      that respects dependencies, if no unique id has two selected candidates and
      the conflicts of installed packages are known.  A package
      that is forced in brings none of its dependencies; giving the requests to
      the universe again does nothing; a package whose unique id changes to one
      that is known leaves the rest of its chain under no id.
    - Solver: the clauses mean exactly that a selection of packages is
      consistent, the assumptions that it meets the requests ([step] is a
      small logic for functions that add rules, composed the way the code is);
      with a sound PicoSAT the answer is EPKG_OK exactly when a consistent
      selection meets the requests; the loop ends, a removal is always solved,
      and the jobs lead from what is installed to the selection as long as no
      unique id has two candidates selected.  Such a pair is not excluded by
      the clauses, and is dropped; the DIMACS export never ends.
    - Conflicts: of a chain of conflicting requests one of a pure origin or of
      the lowest version is kept; but no chain is ever found.
    - External solvers: a job written as a CUDF document and an answer that
      names its packages come back without loss when the versions of a unique
      id differ; an answer of a SAT solver in either form gives each variable its
      value.
    - Files: the check finds a clash exactly when there is one; a clash between
      two packages that come is registered such that no selection has both.
    - Solving: pkg_jobs_solve ends each transaction it begins, whatever fails, but
      for the start of an external solver, which leaves the last one open; an
      installation fails or ends with the jobs of a consistent selection, without
      clashes of files.  A clash that makes the job unsolvable is answered with
      EPKG_OK, and so is a solver that cannot be started for it.
    - Downloads: a package that was fetched is in the cache with the size and the
      checksum of the repository, after at most two downloads; after an error
      nothing is left.
    - Execution: one transaction, which ends with its lock in every case, in
      which the first failure is the last action; when nothing fails exactly the
      selection is installed; fetched packages are installed only after a check
      of their files that found no clash.
    - Repositories: metadata that are written are read back, but for the keys;
      the text of the socket is parsed to an end whatever it is, and without
      loss when it is what the process writes (an error can leave a freed element
      in the table, which is not used then); unless signature_type is NONE, a file
      that is kept is signed with the key of the repository or by a certificate
      that is trusted and not revoked, as far as the tables in memory tell; what
      pkg repo signs is accepted.  Two examples show what is left
      behind by a refusal: metadata that were not verified, and fingerprints
      without those that are revoked.
    - Creation of repositories: in whatever order the processes run, the digests
      list each package once, with the places where its manifest and its files
      stand; when each process gets its turns pkg_create_repo returns; what is
      packed with a key is fetched by a client as it was.  A process that dies
      is not noticed, as an example shows.

    ** Conventions

    Integers are [Z] with the range the C type has where it matters
    (strtol clamps, strtoul32 wraps, char is signed); sizes and indexes that
    cannot overflow are [nat].  Assertions that fail and undefined behaviour
    are [None]; error codes are values of [pkg_error_t].  Memory allocation
    does not fail and freed memory is not modelled, but for the double free of
    pkg_vset and the element that pkg_repo_parse_sigkeys frees.  Messages to the user are not modelled.  A table of the database is
    the map of its rows; what a function does to the system, where it is no
    answer, is a list of statements or actions, and what does it answers after
    the ones before it.

    Loops are structural, or have fuel: [cmp_loop] the lengths of both
    versions, [cond_loop] twice the length of the text and two, [hash_walk]
    one more than the elements allocated, [ll_sort] one more than the length,
    [outer_loop] one more than the items, [process_item] one more than the
    digests the databases know, [iter_again] one more than the jobs,
    [pkg_jobs_test_automatic] more than the longest path of reverse
    dependencies, [pkg_jobs_find_deinstall_request] the 129 levels of the code, [update_item_priority] what the
    recursion limit leaves, [solve_again] one more than the requests,
    [pkg_repo_binary_try_fetch] two runs, [parse_loop] the length of the text, a
    schedule of [pkg_create_repo] ten rounds for each package and three for each
    worker,
    [pkg_jobs_solve] the rounds with a solver and the checks of files (a loop
    that the code does not bound),
    [item_loop] and [vprintf_loop] the length of the format, the digits of an
    integer its binary length, [scale_loop] the number of prefixes.  The theorems about them state that
    a result is returned, which is that the fuel is enough.

    Parameters, with the hypotheses used about them: SHA-256 (32 bytes), the
    UCL emitter (any function), qsort (a sorted permutation), fnmatch (literal
    characters match themselves), strftime of a local time, libucl's and libyaml's text
    parsers and emitters (a round trip is asked of the text written), getmode of
    setmode and whether strtol reports missing digits (any function), and PicoSAT
    (a satisfying assignment or a set of assumptions that cannot hold, never
    undecided), the answers of the user, the quoting of SQLite, the reading of an
    archive (pkg_open), the database (class [pkgdb]: its answers carry what was asked
    for, from a finite catalogue of digests), the installed files, the processes of
    external solvers, the outcome of pkg_delete and pkg_add, the network and the file
    system, libarchive, RSA, the validation of a schema and the address of a
    pointer.  Each hypothesis is instantiated by a concrete function in a
    witness.

    ** Not modelled

    The statements of SQL and the schema of the database (pkgdb.c, repo/binary),
    the installation and creation of packages (pkg_add.c, pkg_delete.c,
    pkg_create.c, pkg_ports.c, packing.c, scripts), ELF files, connections,
    configuration, plugins and events, and the commands other than query are
    input and output around what is here: their meaning is that of the file
    system, of SQLite or of the network.  The vendored libraries are parameters
    but for the parts that are named above.  The solver assumes that the libraries
    recorded in [u_provides] belong to items of the universe ([provides_ok]), which
    [UniverseBuild] establishes. *)
From stdpp Require Export base tactics list strings numbers gmap sorting.
From Stdlib Require Export Ascii ZArith Lia.

#[global] Open Scope Z_scope.
#[global] Set Default Goal Selector "!".

(** C's idiom [a == b ? 0 : (a < b ? -1 : 1)] on integers. *)
Definition zcmp (a b : Z) : Z :=
  if a =? b then 0 else if a <? b then -1 else 1.

(** The first comparison that differs decides. *)
Definition then_cmp (r1 r2 : Z) : Z := if r1 =? 0 then r2 else r1.

(** [flags & f] as a condition. *)
Definition flag_set (flags f : Z) : bool := negb (Z.land flags f =? 0).

(** A three-valued result. *)
Definition sign_range (r : Z) : Prop := r = -1 \/ r = 0 \/ r = 1.

(** Brute-force case analysis on a byte. *)
Ltac by_byte c := destruct c as [[] [] [] [] [] [] [] []]; try reflexivity; try discriminate.

(** Splits every boolean comparison of the goal and the hypotheses. *)
Ltac split_cmp :=
  repeat match goal with
  | H : context [?a =? ?b] |- _ => destruct (Z.eqb_spec a b); try lia
  | |- context [?a =? ?b] => destruct (Z.eqb_spec a b); try lia
  | H : context [?a <? ?b] |- _ => destruct (Z.ltb_spec a b); try lia
  | |- context [?a <? ?b] => destruct (Z.ltb_spec a b); try lia
  end.

(** A loop over a list whose body may fail. *)
Fixpoint fold_opt {A B} (f : A -> B -> option A) (l : list B) (a : A) : option A :=
  match l with
  | [] => Some a
  | x :: l => a ← f a x; fold_opt f l a
  end.

Lemma elem_of_map {A B} (f : A -> B) l y : y ∈ map f l <-> exists x, y = f x /\ x ∈ l.
Proof. apply (list_elem_of_fmap f l y). Qed.

Lemma elem_cons_forall {A} (P : A -> Prop) x l : (forall y, y ∈ x :: l -> P y) <-> P x /\ forall y, y ∈ l -> P y.
Proof.
  split; [intros H; split; [apply H; by left|intros y Hy; apply H; by right]|].
  by intros [Hx Hl] y [->|Hy]%elem_of_cons; auto.
Qed.

(** Every turn of the loop succeeds and keeps the invariant. *)
Lemma fold_opt_inv {A B} (I : A -> Prop) (f : A -> B -> option A) (l : list B) a :
  (forall a x, x ∈ l -> I a -> exists a', f a x = Some a' /\ I a') -> I a ->
  exists a', fold_opt f l a = Some a' /\ I a'.
Proof.
  revert a; induction l as [|x l IH]; intros a Hf Ha; [by exists a|]. cbn.
  destruct (Hf a x ltac:(by left) Ha) as (a' & -> & Ha'). cbn. apply IH; [|done].
  intros b y Hy. apply Hf. by right.
Qed.

(** What a loop that succeeds has kept. *)
Lemma fold_opt_keeps {A B} (I : A -> Prop) (f : A -> B -> option A) (l : list B) a a' :
  (forall a x a', x ∈ l -> I a -> f a x = Some a' -> I a') -> I a -> fold_opt f l a = Some a' -> I a'.
Proof.
  revert a; induction l as [|x l IH]; intros a Hf Ha; cbn; [by intros [= <-]|].
  destruct (f a x) as [b|] eqn:E; [|done]. cbn. apply IH.
  - intros c y c' Hy. apply Hf. by right.
  - eapply Hf; [by left|done|done].
Qed.

(** A loop that moves along the preorder [R] and does [Q] to every element, to
    stay. *)
Lemma fold_opt_each {A B} (I : A -> Prop) (R : A -> A -> Prop) (Q : A -> B -> Prop) `{!PreOrder R}
    (f : A -> B -> option A) (l : list B) a a' :
  (forall a x a', x ∈ l -> I a -> f a x = Some a' -> I a' /\ R a a' /\ Q a' x) ->
  (forall a a' x, I a -> I a' -> R a a' -> Q a x -> Q a' x) ->
  I a -> fold_opt f l a = Some a' -> I a' /\ R a a' /\ forall x, x ∈ l -> Q a' x.
Proof.
  intros Hf Hst. revert a Hf; induction l as [|x l IH]; intros a Hf Ha; cbn.
  { intros [= <-]. split_and!; [done|reflexivity|]. intros x Hx. by apply elem_of_nil in Hx. }
  destruct (f a x) as [b|] eqn:E; [|done]. cbn. intros H.
  destruct (Hf a x b ltac:(by left) Ha E) as (Hb & Hab & Hx).
  destruct (IH b) as (Ha' & Hba & Hl); [intros c y c' Hy; apply Hf; by right|done|done|].
  split_and!; [done|by transitivity b|]. intros y [->|Hy]%elem_of_cons; [by apply (Hst b)|by apply Hl].
Qed.

Lemma find_app {A} (f : A -> bool) l l' : find f (l ++ l') = match find f l with Some x => Some x | None => find f l' end.
Proof. induction l as [|x l IH]; [done|]. cbn. by destruct (f x). Qed.

Lemma find_elem {A} (f : A -> bool) l x : find f l = Some x -> x ∈ l /\ f x = true.
Proof. intros [H1 H2]%find_some. split; [by apply list_elem_of_In|done]. Qed.

Lemma fold_opt_app {A B} (f : A -> B -> option A) l1 l2 a :
  fold_opt f (l1 ++ l2) a = a' ← fold_opt f l1 a; fold_opt f l2 a'.
Proof. revert a. induction l1 as [|x l1 IH]; intros a; [done|]. cbn. destruct (f a x); [apply IH|done]. Qed.

Lemma fold_opt_map {A B C} (f : A -> B -> option A) (g : C -> B) l a :
  fold_opt f (map g l) a = fold_opt (fun a x => f a (g x)) l a.
Proof. revert a. induction l as [|x l IH]; intros a; [done|]. cbn. destruct (f a (g x)); [apply IH|done]. Qed.

Lemma zcmp_range a b : sign_range (zcmp a b).
Proof. unfold sign_range, zcmp; split_cmp. Qed.

Lemma zcmp_refl a : zcmp a a = 0.
Proof. unfold zcmp; split_cmp. Qed.

Lemma zcmp_antisym a b : zcmp b a = - zcmp a b.
Proof. unfold zcmp; split_cmp. Qed.

Lemma zcmp_zero a b : zcmp a b = 0 <-> a = b.
Proof. unfold zcmp; split_cmp. Qed.

Lemma zcmp_neg a b : zcmp a b < 0 <-> a < b.
Proof. unfold zcmp; split_cmp. Qed.

Lemma zcmp_trans a b c : zcmp a b <= 0 -> zcmp b c <= 0 -> zcmp a c <= 0.
Proof. unfold zcmp; split_cmp. Qed.

(** ** Three-way comparison functions

    What the sorting routines and the ordered searches ask of a comparison:
    negative, zero or positive, symmetric up to the sign, and transitive. *)
Class Comparison {A : Type} (cmp : A -> A -> Z) : Prop := {
  cmp_antisym : forall a b, cmp b a = - cmp a b;
  cmp_trans : forall a b c, cmp a b <= 0 -> cmp b c <= 0 -> cmp a c <= 0
}.

Section comparison.
Context {A : Type} (cmp : A -> A -> Z) `{!Comparison cmp}.

Lemma cmp_refl a : cmp a a = 0.
Proof. pose proof (cmp_antisym a a). lia. Qed.

Lemma cmp_total a b : cmp a b <= 0 \/ cmp b a <= 0.
Proof. pose proof (cmp_antisym a b). lia. Qed.

Lemma cmp_lt_le a b c : cmp a b < 0 -> cmp b c <= 0 -> cmp a c < 0.
Proof.
  intros H1 H2. pose proof (cmp_antisym a c). pose proof (cmp_antisym a b).
  destruct (Z.lt_ge_cases (cmp a c) 0) as [|Hge]; [done|].
  pose proof (cmp_trans (cmp:=cmp) b c a H2 ltac:(lia)). lia.
Qed.

Lemma cmp_le_lt a b c : cmp a b <= 0 -> cmp b c < 0 -> cmp a c < 0.
Proof.
  intros H1 H2. pose proof (cmp_antisym a c). pose proof (cmp_antisym b c).
  destruct (Z.lt_ge_cases (cmp a c) 0) as [|Hge]; [done|].
  pose proof (cmp_trans (cmp:=cmp) c a b ltac:(lia) H1). lia.
Qed.

Lemma cmp_eq_trans a b c : cmp a b = 0 -> cmp b c = 0 -> cmp a c = 0.
Proof.
  intros H1 H2. pose proof (cmp_antisym a c). pose proof (cmp_antisym a b).
  pose proof (cmp_antisym b c).
  pose proof (cmp_trans (cmp:=cmp) a b c ltac:(lia) ltac:(lia)).
  pose proof (cmp_trans (cmp:=cmp) c b a ltac:(lia) ltac:(lia)). lia.
Qed.
End comparison.

#[export] Instance zcmp_comparison : Comparison zcmp.
Proof. split; [apply zcmp_antisym|apply zcmp_trans]. Qed.

(** Comparing by a key. *)
Lemma key_comparison {A B} (f : A -> B) (cmp : B -> B -> Z) :
  Comparison cmp -> Comparison (fun a b => cmp (f a) (f b)).
Proof. intros [Ha Ht]. split; intros *; [apply Ha|apply Ht]. Qed.

(** Comparing lexicographically. *)
Lemma lex_comparison {A} (c1 c2 : A -> A -> Z) :
  Comparison c1 -> Comparison c2 -> Comparison (fun a b => then_cmp (c1 a b) (c2 a b)).
Proof.
  intros H1 H2. split; intros *; unfold then_cmp.
  - rewrite (cmp_antisym (cmp:=c1) a b), (cmp_antisym (cmp:=c2) a b). split_cmp.
  - destruct (Z.eqb_spec (c1 a b) 0) as [E1|N1], (Z.eqb_spec (c1 b c) 0) as [E2|N2];
      simpl; intros L1 L2; [|enough (c1 a c < 0) by split_cmp ..].
    + rewrite (cmp_eq_trans c1 _ _ _ E1 E2). simpl. eauto using cmp_trans.
    + apply (cmp_le_lt c1 a b c); lia.
    + apply (cmp_lt_le c1 a b c); lia.
    + apply (cmp_lt_le c1 a b c); lia.
Qed.

Lemma then_cmp_range r1 r2 : sign_range r1 -> sign_range r2 -> sign_range (then_cmp r1 r2).
Proof. unfold sign_range, then_cmp. split_cmp. Qed.

Create HintDb pkg.
#[export] Hint Resolve zcmp_range zcmp_refl then_cmp_range : pkg.
#[export] Hint Resolve zcmp_comparison key_comparison lex_comparison : pkg.
