(* ===== verification/CString.v ===== *)
(** * C strings and the libc routines of the sources

    A C string is the list of its bytes before the terminator, so a pointer
    into a string is the suffix that starts there, [*p] is the head of the
    suffix (the terminator on the empty suffix) and two pointers into the same
    string compare as the lengths of their suffixes, the other way round.
    The character classes are those of the C locale (bytes 128-255 belong to
    none).  [unsigned long], [long long] are 64 bits wide (LP64). *)
From S2P Require Import Prelude.

Abbreviation cstring := (list ascii).

(** String literals. *)
Definition str (s : string) : cstring := String.list_ascii_of_string s.

(** The byte as an [unsigned char]. *)
Definition code (c : ascii) : Z := Z.of_N (N_of_ascii c).

Definition NUL : ascii := "000".

(** [*p] and [p[i]]. *)
Definition deref (s : cstring) : ascii := hd NUL s.
Definition at_ (s : cstring) (i : nat) : ascii := nth i s NUL.

(** The string in a buffer: the bytes before its first NUL. *)
Fixpoint c_str (b : cstring) : cstring :=
  match b with
  | c :: r => if Ascii.eqb c NUL then [] else c :: c_str r
  | [] => []
  end.

(** ** <ctype.h> *)
Definition isdigit (c : ascii) : bool := (48 <=? code c) && (code c <=? 57).
Definition isupper (c : ascii) : bool := (65 <=? code c) && (code c <=? 90).
Definition islower (c : ascii) : bool := (97 <=? code c) && (code c <=? 122).
Definition isalpha (c : ascii) : bool := isupper c || islower c.
Definition isspace (c : ascii) : bool :=
  ((9 <=? code c) && (code c <=? 13)) || (code c =? 32).
Definition isxdigit (c : ascii) : bool :=
  isdigit c || ((65 <=? code c) && (code c <=? 70)) || ((97 <=? code c) && (code c <=? 102)).
Definition chr (z : Z) : ascii := ascii_of_N (Z.to_N z).
Definition tolower (c : ascii) : ascii := if isupper c then chr (code c + 32) else c.

(** ** <string.h> *)

(** The pointer to the first [c], if there is one. *)
Fixpoint strchr (s : cstring) (c : ascii) : option cstring :=
  match s with
  | [] => None
  | x :: r => if Ascii.eqb x c then Some s else strchr r c
  end.

(** The pointer to the last [c]. *)
Fixpoint strrchr (s : cstring) (c : ascii) : option cstring :=
  match s with
  | [] => None
  | x :: r =>
      match strrchr r c with
      | Some t => Some t
      | None => if Ascii.eqb x c then Some s else None
      end
  end.

(** [strcmp] as a sign; bytes compare as [unsigned char] and the end of the
    string sorts first. *)
Fixpoint strcmp (a b : cstring) : Z :=
  match a, b with
  | [], [] => 0
  | [], _ :: _ => -1
  | _ :: _, [] => 1
  | x :: a', y :: b' => then_cmp (zcmp (code x) (code y)) (strcmp a' b')
  end.

Definition strncmp (a b : cstring) (n : nat) : Z := strcmp (take n a) (take n b).
Definition strcasecmp (a b : cstring) : Z := strcmp (map tolower a) (map tolower b).
Definition strncasecmp (a b : cstring) (n : nat) : Z := strcasecmp (take n a) (take n b).
Definition streq (a b : cstring) : bool := strcmp a b =? 0.

(** ** <stdlib.h> *)
Definition ULONG_MAX : Z := 2 ^ 64 - 1.
Definition LLONG_MAX : Z := 2 ^ 63 - 1.
Definition LLONG_MIN : Z := - 2 ^ 63.

(** The digits at [s] appended to the value [acc], and what follows them. *)
Fixpoint digits (acc : Z) (s : cstring) : Z * cstring :=
  match s with
  | c :: r => if isdigit c then digits (acc * 10 + (code c - 48)) r else (acc, s)
  | [] => (acc, [])
  end.

Fixpoint drop_space (s : cstring) : cstring :=
  match s with
  | c :: r => if isspace c then drop_space r else s
  | [] => []
  end.

(** The optional sign of [strtol] and [strtoul]: is it ['-'], and the rest. *)
Definition read_sign (s : cstring) : bool * cstring :=
  match s with
  | c :: r => if Ascii.eqb c "-" then (true, r)
              else if Ascii.eqb c "+" then (false, r) else (false, s)
  | [] => (false, [])
  end.

(** [strtoul (s, NULL, 10)]: saturates at [ULONG_MAX]; a leading ['-']
    negates in the unsigned type. *)
Definition strtoul (s : cstring) : Z :=
  let '(neg, s1) := read_sign (drop_space s) in
  let v := (digits 0 s1).1 in
  if ULONG_MAX <? v then ULONG_MAX else if neg then (- v) mod 2 ^ 64 else v.

(** [strtoll (s, &end, 10)] with its end pointer; saturates at both ends. *)
Definition strtoll (s : cstring) : Z * cstring :=
  let '(neg, s1) := read_sign (drop_space s) in
  if isdigit (deref s1) then
    let '(v, rest) := digits 0 s1 in
    let w := if neg then - v else v in
    (Z.max LLONG_MIN (Z.min LLONG_MAX w), rest)
  else (0, s).

(** ** <stdio.h> *)

Definition NL : ascii := "010".

(** The lines of a text as getline gives them, with their ends; [line] is what
    was read of the first, reversed. *)
Fixpoint getlines (line text : cstring) : list cstring :=
  match text with
  | [] => match line with [] => [] | _ => [rev line] end
  | c :: text => if Ascii.eqb c NL then rev (c :: line) :: getlines [] text else getlines (c :: line) text
  end.

(** ** Facts about bytes *)

Lemma isdigit_not_alpha c : isdigit c = true -> isalpha c = false.
Proof. by_byte c. Qed.

Lemma isdigit_not_space c : isdigit c = true -> isspace c = false.
Proof. by_byte c. Qed.

Lemma isalpha_not_digit c : isalpha c = true -> isdigit c = false.
Proof. by_byte c. Qed.

Lemma code_inj a b : code a = code b -> a = b.
Proof.
  unfold code. intros H%N2Z.inj.
  by rewrite <- (ascii_N_embedding a), <- (ascii_N_embedding b), H.
Qed.

Lemma code_range c : 0 <= code c < 256.
Proof. unfold code. pose proof (N_ascii_bounded c). lia. Qed.

Lemma tolower_idem c : tolower (tolower c) = tolower c.
Proof. by_byte c. Qed.

Lemma isalpha_tolower c : isalpha (tolower c) = isalpha c.
Proof. by_byte c. Qed.

Lemma isdigit_tolower c : isdigit (tolower c) = isdigit c.
Proof. by_byte c. Qed.

Lemma code_tolower_digit c : isdigit c = true -> tolower c = c.
Proof. by_byte c. Qed.

Lemma eqb_tolower_nonalpha c d :
  isalpha d = false -> Ascii.eqb (tolower c) d = Ascii.eqb c d.
Proof.
  intros Hd. destruct (Ascii.eqb_spec c d) as [->|Hne].
  - apply Ascii.eqb_eq. by_byte d.
  - apply Ascii.eqb_neq. intros <-. apply Hne.
    rewrite isalpha_tolower in Hd. unfold tolower.
    destruct (isupper c) eqn:E; [|done]. unfold isalpha in Hd. by rewrite E in Hd.
Qed.

Lemma code_chr z : 0 <= z < 256 -> code (chr z) = z.
Proof. intros Hz. unfold code, chr. rewrite N_ascii_embedding; lia. Qed.

Lemma c_str_id s : Forall (fun c => c <> NUL) s -> c_str s = s.
Proof.
  intros Hs. induction Hs as [|c s Hc _ IH]; [done|]. cbn [c_str]. destruct (Ascii.eqb_spec c NUL); [done|]. by rewrite IH.
Qed.

(** ** Lines *)

Lemma getlines_line line v rest : Forall (fun c => c <> NL) v -> getlines line (v ++ NL :: rest) = (rev line ++ v ++ [NL]) :: getlines [] rest.
Proof.
  intros Hv. revert line; induction Hv as [|c v Hc _ IH]; intros line; cbn [app getlines].
  - rewrite Ascii.eqb_refl. done.
  - destruct (Ascii.eqb_spec c NL); [done|]. rewrite IH. cbn [rev]. by rewrite <- app_assoc.
Qed.

(** ** The string order *)

Lemma strcmp_refl a : strcmp a a = 0.
Proof. induction a; simpl; [done|]. by rewrite zcmp_refl. Qed.

Lemma strcmp_zero a b : strcmp a b = 0 <-> a = b.
Proof.
  split; [|intros ->; apply strcmp_refl].
  revert b; induction a as [|x a IH]; intros [|y b]; simpl; try done; unfold then_cmp.
  destruct (Z.eqb_spec (zcmp (code x) (code y)) 0) as [E|]; [|lia].
  rewrite zcmp_zero in E. apply code_inj in E. intros H. by rewrite E, (IH _ H).
Qed.

Lemma strcmp_antisym a b : strcmp b a = - strcmp a b.
Proof.
  revert b; induction a as [|x a IH]; intros [|y b]; simpl; try done.
  unfold then_cmp. rewrite (zcmp_antisym (code x) (code y)), IH. split_cmp.
Qed.

Lemma strcmp_trans a b c : strcmp a b <= 0 -> strcmp b c <= 0 -> strcmp a c <= 0.
Proof.
  revert b c; induction a as [|x a IH]; intros [|y b] [|z c]; simpl; try lia.
  unfold then_cmp, zcmp. intros H1 H2.
  repeat match goal with
  | H : context [if ?b then _ else _] |- _ => destruct b eqn:?; try lia
  | |- context [if ?b then _ else _] => destruct b eqn:?; try lia
  end; eauto.
Qed.

Lemma streq_spec a b : streq a b = bool_decide (a = b).
Proof.
  unfold streq. case_bool_decide as H.
  - by rewrite H, strcmp_refl.
  - apply Z.eqb_neq. by rewrite strcmp_zero.
Qed.

Lemma streq_refl x : streq x x = true.
Proof. rewrite streq_spec. by apply bool_decide_eq_true_2. Qed.

Lemma streq_ne x y : x <> y -> streq x y = false.
Proof. intros H. rewrite streq_spec. by apply bool_decide_eq_false_2. Qed.

Lemma strncasecmp_zero a b n :
  strncasecmp a b n = 0 <-> map tolower (take n a) = map tolower (take n b).
Proof. apply strcmp_zero. Qed.

Lemma strncasecmp_antisym a b n : strncasecmp b a n = - strncasecmp a b n.
Proof. apply strcmp_antisym. Qed.

(** ** Reading digits *)

Lemma digits_length acc s : (length (digits acc s).2 <= length s)%nat.
Proof.
  revert acc; induction s as [|c s IH]; intros acc; simpl; [lia|].
  destruct (isdigit c); simpl; [|lia]. etrans; [apply IH|lia].
Qed.

Lemma strtoul_range s : 0 <= strtoul s <= ULONG_MAX.
Proof.
  unfold strtoul. destruct (read_sign (drop_space s)) as [neg s1].
  assert (forall t acc, 0 <= acc -> 0 <= (digits acc t).1) as Hd.
  { induction t as [|c t IH]; intros acc Ha; simpl; [done|].
    destruct (isdigit c) eqn:E; [|done]. apply IH.
    unfold isdigit in E. apply andb_true_iff in E as [E _]. lia. }
  specialize (Hd s1 0 ltac:(lia)). unfold ULONG_MAX in *.
  destruct (Z.ltb_spec (2 ^ 64 - 1) (digits 0 s1).1); [lia|].
  destruct neg; [|lia]. pose proof (Z.mod_pos_bound (- (digits 0 s1).1) (2^64)). lia.
Qed.

#[export] Instance strcmp_comparison : Comparison strcmp.
Proof. split; [apply strcmp_antisym|apply strcmp_trans]. Qed.

Lemma strcmp_range a b : sign_range (strcmp a b).
Proof.
  revert b; induction a as [|x a IH]; intros [|y b]; simpl; unfold sign_range; auto.
  apply then_cmp_range; [apply zcmp_range|apply IH].
Qed.

#[export] Hint Resolve strcmp_range strcmp_comparison strcmp_refl : pkg.
