(* ===== verification/CSort.v ===== *)
(** * The list sort of the sources (external/uthash/utlist.h)

    [LL_SORT] and [DL_SORT] are the bottom-up merge sort of utlist.h: each
    pass merges adjacent runs of [insize] elements, [insize] doubles, and the
    loop ends after a pass with at most one merge.  A linked list is the list
    of its elements (the [prev] pointers play no part in the order). *)
From S2P Require Import Prelude.
From Stdlib Require Import Sorted.

Section sort.
Context {A : Type} (cmp : A -> A -> Z).

(** The inner while loop: [p] goes first on ties. *)
Fixpoint merge_runs (p : list A) : list A -> list A :=
  fix aux (q : list A) : list A :=
    match p, q with
    | [], _ => q
    | _, [] => p
    | x :: p', y :: q' => if cmp x y <=? 0 then x :: merge_runs p' q else y :: aux q'
    end.

(** One pass: the list and the number of merges. *)
Fixpoint sort_pass (fuel insize : nat) (l : list A) : list A * nat :=
  match fuel, l with
  | S fuel, _ :: _ =>
      let p := take insize l in
      let q := take insize (drop insize l) in
      let '(out, nmerges) := sort_pass fuel insize (drop insize (drop insize l)) in
      (merge_runs p q ++ out, S nmerges)
  | _, _ => ([], O)
  end.

(** The outer loop; [None] when the fuel runs out. *)
Fixpoint sort_loop (fuel insize : nat) (l : list A) : option (list A) :=
  match fuel with
  | O => None
  | S fuel =>
      let '(l', nmerges) := sort_pass (length l) insize l in
      if (nmerges <=? 1)%nat then Some l' else sort_loop fuel (2 * insize) l'
  end.

Definition ll_sort (l : list A) : list A := default [] (sort_loop (S (length l)) 1 l).

(** ** Permutation *)

Lemma merge_runs_perm p q : merge_runs p q ≡ₚ p ++ q.
Proof.
  revert q; induction p as [|x p IHp]; intros q; [by destruct q|].
  induction q as [|y q IHq]; [by rewrite app_nil_r|]. cbn [merge_runs].
  destruct (cmp x y <=? 0); [by rewrite IHp|]. change (y :: merge_runs (x :: p) q ≡ₚ (x :: p) ++ y :: q).
  rewrite IHq. by rewrite Permutation_middle.
Qed.

Lemma sort_pass_perm fuel insize l : (0 < insize)%nat -> (length l <= fuel)%nat ->
  (sort_pass fuel insize l).1 ≡ₚ l.
Proof.
  intros Hi. revert l; induction fuel as [|fuel IH]; intros [|x l] Hl; simpl in Hl; try done; [lia|].
  cbn [sort_pass]. set (rest := drop insize (drop insize (x :: l))).
  specialize (IH rest). destruct (sort_pass fuel insize rest) as [out k] eqn:E. cbn [fst] in *.
  rewrite merge_runs_perm, IH.
  - unfold rest. by rewrite <- app_assoc, !take_drop.
  - unfold rest. rewrite !length_drop. simpl. lia.
Qed.

Lemma sort_pass_merges fuel insize l : (0 < insize)%nat -> (length l <= fuel)%nat ->
  (length l <= (sort_pass fuel insize l).2 * (2 * insize) /\
   (sort_pass fuel insize l).2 * (2 * insize) < length l + 2 * insize)%nat.
Proof.
  intros Hi. revert l; induction fuel as [|fuel IH]; intros l Hl.
  - destruct l; simpl in *; lia.
  - destruct l as [|x l]; [simpl; lia|]. cbn [sort_pass].
    set (rest := drop insize (drop insize (x :: l))).
    assert (length rest = length (x :: l) - insize - insize)%nat as Hr
      by (unfold rest; by rewrite !length_drop).
    cbn [length] in *. assert (length rest <= fuel)%nat as Hf by lia. specialize (IH rest Hf).
    destruct (sort_pass fuel insize rest) as [out k] eqn:E. cbn [snd] in *.
    destruct (decide (length rest = 0)%nat); [|nia]. assert (k = 0)%nat by nia. nia.
Qed.

(** ** Termination: the run length doubles until one run is left *)

Lemma sort_loop_total fuel insize l : (0 < insize)%nat -> (0 < fuel)%nat ->
  (length l <= insize * 2 ^ fuel)%nat ->
  exists l', sort_loop fuel insize l = Some l' /\ l' ≡ₚ l.
Proof.
  revert insize l; induction fuel as [|fuel IH]; intros insize l Hi Hf Hl; [lia|].
  cbn [sort_loop]. pose proof (sort_pass_perm (length l) insize l Hi ltac:(done)) as Hp.
  pose proof (sort_pass_merges (length l) insize l Hi ltac:(done)) as [_ Hm].
  destruct (sort_pass (length l) insize l) as [l' k]. cbn [fst snd] in *.
  destruct (Nat.leb_spec k 1) as [|Hk]; [by exists l'|].
  destruct (IH (2 * insize)%nat l') as (l'' & E & Hp').
  - lia.
  - destruct fuel; [|lia]. simpl in Hl. nia.
  - rewrite Hp. simpl in Hl. nia.
  - exists l''. split; [done|]. by rewrite Hp'.
Qed.

Lemma ll_sort_some l : sort_loop (S (length l)) 1 l = Some (ll_sort l).
Proof.
  unfold ll_sort. destruct (sort_loop_total (S (length l)) 1 l) as (l' & -> & _); [lia..| |done].
  pose proof (Nat.pow_gt_lin_r 2 (S (length l))). lia.
Qed.

Lemma ll_sort_perm l : ll_sort l ≡ₚ l.
Proof.
  destruct (sort_loop_total (S (length l)) 1 l) as (l' & E & Hp); [lia..| |].
  - pose proof (Nat.pow_gt_lin_r 2 (S (length l))). lia.
  - rewrite ll_sort_some in E. by injection E as <-.
Qed.

(** ** Order *)

Context `{!Comparison cmp}.

Definition le_cmp (a b : A) : Prop := cmp a b <= 0.

#[local] Instance le_cmp_trans : Transitive le_cmp.
Proof. intros a b c. apply cmp_trans. Qed.

Abbreviation sorted := (StronglySorted le_cmp).

Lemma merge_runs_sorted p q : sorted p -> sorted q -> sorted (merge_runs p q).
Proof.
  revert q; induction p as [|x p IHp]; intros q Hp Hq; [by destruct q|].
  induction q as [|y q IHq]; [done|].
  pose proof Hp as Hp0. pose proof Hq as Hq0.
  inversion Hp as [|? ? Hp' Hx]; subst. inversion Hq as [|? ? Hq' Hy]; subst.
  cbn [merge_runs]. destruct (Z.leb_spec (cmp x y) 0) as [Hxy|Hxy].
  - constructor; [by apply IHp|]. rewrite merge_runs_perm, Forall_app. split; [done|].
    constructor; [done|]. eapply Forall_impl; [exact Hy|]. intros z. by apply le_cmp_trans.
  - change (sorted (y :: merge_runs (x :: p) q)).
    assert (le_cmp y x) as Hyx.
    { unfold le_cmp. pose proof (cmp_antisym x y). lia. }
    constructor; [by apply IHq|]. rewrite merge_runs_perm, Forall_app. split; [|done].
    constructor; [done|]. eapply Forall_impl; [exact Hx|]. intros z. by apply le_cmp_trans.
Qed.

(** A list made of sorted runs of [n] elements, the last one possibly shorter. *)
Inductive runs (n : nat) : list A -> Prop :=
| runs_last l : (length l <= n)%nat -> sorted l -> runs n l
| runs_more r l : length r = n -> sorted r -> runs n l -> runs n (r ++ l).

Lemma runs_take_drop n l : runs n l -> sorted (take n l) /\ runs n (drop n l).
Proof.
  intros [l' Hl Hs|r l' <- Hs Hr].
  - rewrite take_ge, drop_ge by lia. split; [done|]. constructor; [simpl; lia|constructor].
  - by rewrite take_app_length, drop_app_length.
Qed.

Lemma runs_one l : runs 1 l.
Proof.
  induction l as [|x l IH]; [constructor; [simpl; lia|constructor]|].
  change (x :: l) with ([x] ++ l). constructor 2; [done|repeat constructor|done].
Qed.

Lemma sort_pass_runs fuel n l : (0 < n)%nat -> (length l <= fuel)%nat -> runs n l ->
  runs (2 * n) (sort_pass fuel n l).1.
Proof.
  intros Hn. assert (runs (2 * n) []) as Hnil by (apply runs_last; [simpl; lia|constructor]).
  revert l; induction fuel as [|fuel IH]; intros [|x l] Hl Hr; try exact Hnil.
  cbn [sort_pass]. destruct (runs_take_drop _ _ Hr) as [H1 H2].
  destruct (runs_take_drop _ _ H2) as [H3 H4].
  set (rest := drop n (drop n (x :: l))) in *.
  assert (length rest = length (x :: l) - n - n)%nat as Hlr
    by (unfold rest; by rewrite !length_drop).
  specialize (IH rest ltac:(simpl in *; lia) H4).
  pose proof (sort_pass_perm fuel n rest Hn ltac:(simpl in *; lia)) as Hp.
  destruct (sort_pass fuel n rest) as [out k]. cbn [fst] in *.
  pose proof (merge_runs_sorted _ _ H1 H3) as Hm.
  pose proof (Permutation_length (merge_runs_perm (take n (x :: l)) (take n (drop n (x :: l))))) as Hlm.
  rewrite length_app, !length_take, length_drop in Hlm.
  destruct (decide (length (x :: l) < 2 * n)%nat) as [Hs|Hs].
  - assert (out = []) as ->.
    { apply length_zero_iff_nil. rewrite Hp. lia. }
    rewrite app_nil_r. constructor; [lia|done].
  - constructor 2; [lia|done|done].
Qed.

Lemma runs_short n l : runs n l -> (length l <= n)%nat -> sorted l.
Proof.
  intros H Hl. apply runs_take_drop in H as [H _]. by rewrite take_ge in H by lia.
Qed.

Lemma sort_loop_sorted fuel insize l l' : (0 < insize)%nat -> runs insize l ->
  sort_loop fuel insize l = Some l' -> sorted l'.
Proof.
  revert insize l; induction fuel as [|fuel IH]; intros insize l Hi Hr; [done|].
  cbn [sort_loop]. pose proof (sort_pass_runs (length l) insize l Hi ltac:(done) Hr) as Hr'.
  pose proof (sort_pass_perm (length l) insize l Hi ltac:(done)) as Hp.
  pose proof (sort_pass_merges (length l) insize l Hi ltac:(done)) as [Hm _].
  destruct (sort_pass (length l) insize l) as [l1 k]. cbn [fst snd] in *.
  destruct (Nat.leb_spec k 1) as [Hk|Hk].
  - intros [= <-]. apply (runs_short _ _ Hr'). rewrite Hp. nia.
  - apply IH; [lia|done].
Qed.

Lemma ll_sort_sorted l : sorted (ll_sort l).
Proof. eapply (sort_loop_sorted _ 1); [lia|apply runs_one|apply ll_sort_some]. Qed.

(** When ties are equal elements the result does not depend on the order of
    the input. *)
Lemma sorted_unique l1 l2 : (forall a b, cmp a b = 0 -> a = b) ->
  sorted l1 -> sorted l2 -> l1 ≡ₚ l2 -> l1 = l2.
Proof.
  intros He. revert l2; induction l1 as [|x l1 IH]; intros l2 H1 H2 Hp.
  - by apply Permutation_nil_l in Hp.
  - destruct l2 as [|y l2]; [by apply Permutation_nil_r in Hp|].
    inversion H1 as [|? ? S1 F1]; subst. inversion H2 as [|? ? S2 F2]; subst.
    rewrite Forall_forall in F1, F2.
    assert (x = y) as ->.
    { assert (x ∈ y :: l2) as Hx by (rewrite <- Hp; left).
      assert (y ∈ x :: l1) as Hy by (rewrite Hp; left).
      apply elem_of_cons in Hx as [|Hx]; [done|]. apply elem_of_cons in Hy as [|Hy]; [done|].
      apply He. specialize (F1 _ Hy). specialize (F2 _ Hx). unfold le_cmp in *.
      pose proof (cmp_antisym x y). lia. }
    f_equal. apply IH; [done|done|]. by apply Permutation_cons_inv in Hp.
Qed.

Lemma ll_sort_invariant l1 l2 : (forall a b, cmp a b = 0 -> a = b) ->
  l1 ≡ₚ l2 -> ll_sort l1 = ll_sort l2.
Proof.
  intros He Hp. apply sorted_unique; [done|apply ll_sort_sorted|apply ll_sort_sorted|].
  by rewrite !ll_sort_perm.
Qed.
End sort.

#[export] Hint Resolve ll_sort_perm ll_sort_sorted : pkg.

(** ** Comparisons with effects

    The same sort with a comparison that may fail and changes a state. *)

Section sort_with.
Context {A S : Type} (cmp : A -> A -> S -> option (Z * S)).

Fixpoint merge_with (p : list A) : list A -> S -> option (list A * S) :=
  fix aux (q : list A) (s : S) : option (list A * S) :=
    match p, q with
    | [], _ => Some (q, s)
    | _, [] => Some (p, s)
    | x :: p', y :: q' =>
        '(r, s) ← cmp x y s;
        if r <=? 0 then '(l, s) ← merge_with p' q s; Some (x :: l, s)
        else '(l, s) ← aux q' s; Some (y :: l, s)
    end.

Fixpoint pass_with (fuel insize : nat) (l : list A) (s : S) : option (list A * nat * S) :=
  match fuel, l with
  | Datatypes.S fuel, _ :: _ =>
      '(run, s) ← merge_with (take insize l) (take insize (drop insize l)) s;
      '(out, nmerges, s) ← pass_with fuel insize (drop insize (drop insize l)) s;
      Some (run ++ out, Datatypes.S nmerges, s)
  | _, _ => Some ([], O, s)
  end.

Fixpoint loop_with (fuel insize : nat) (l : list A) (s : S) : option (list A * S) :=
  match fuel with
  | O => None
  | Datatypes.S fuel =>
      '(l, nmerges, s) ← pass_with (length l) insize l s;
      if (nmerges <=? 1)%nat then Some (l, s) else loop_with fuel (2 * insize) l s
  end.

Definition dl_sort (l : list A) (s : S) : option (list A * S) := loop_with (Datatypes.S (length l)) 1 l s.

Lemma merge_with_cons x p y q s : merge_with (x :: p) (y :: q) s =
  ('(r, s) ← cmp x y s;
   if r <=? 0 then '(l, s) ← merge_with p (y :: q) s; Some (x :: l, s)
   else '(l, s) ← merge_with (x :: p) q s; Some (y :: l, s)).
Proof. reflexivity. Qed.

(** When the comparisons agree with [c] and keep an invariant and a preorder of
    states, the list is sorted by [c] and so is the state kept. *)
Context (c : A -> A -> Z) (good : S -> Prop) (R : S -> S -> Prop) `{!Reflexive R, !Transitive R} (dom : A -> Prop).
Context (Hcmp : forall x y s, dom x -> dom y -> x <> y -> good s ->
  exists s', cmp x y s = Some (c x y, s') /\ good s' /\ R s s').

Lemma merge_with_ok p q s : NoDup (p ++ q) -> Forall dom (p ++ q) -> good s ->
  exists s', merge_with p q s = Some (merge_runs c p q, s') /\ good s' /\ R s s'.
Proof.
  revert q s; induction p as [|x p IHp]; intros q s Hn Hd Hs; [by destruct q; exists s|].
  revert s Hs; induction q as [|y q IHq]; intros s Hs; [by exists s|].
  rewrite merge_with_cons. change (merge_runs c (x :: p) (y :: q)) with
    (if c x y <=? 0 then x :: merge_runs c p (y :: q) else y :: merge_runs c (x :: p) q).
  assert (x <> y) as Hxy by (apply NoDup_cons in Hn as [Hx _]; rewrite elem_of_app, elem_of_cons in Hx; tauto).
  pose proof Hd as Hd'. apply Forall_app in Hd' as [[Hdx _]%Forall_cons [Hdy _]%Forall_cons].
  destruct (Hcmp x y s Hdx Hdy Hxy Hs) as (s1 & -> & Hs1 & HR1). cbn [mbind option_bind].
  destruct (c x y <=? 0).
  - destruct (IHp (y :: q) s1) as (s2 & -> & Hs2 & HR2); [by apply NoDup_cons in Hn as []|by inversion Hd|done|].
    cbn [mbind option_bind]. exists s2. split_and!; [done|done|by etrans].
  - assert (NoDup ((x :: p) ++ q)) as Hn' by (rewrite <- Permutation_middle in Hn; by apply NoDup_cons in Hn as []).
    assert (Forall dom ((x :: p) ++ q)) as Hd'' by (rewrite <- Permutation_middle in Hd; by inversion Hd).
    destruct (IHq Hn' Hd'' s1 Hs1) as (s2 & -> & Hs2 & HR2). cbn [mbind option_bind].
    exists s2. split_and!; [done|done|by etrans].
Qed.

Lemma pass_with_ok fuel insize l s : (0 < insize)%nat -> (length l <= fuel)%nat -> NoDup l -> Forall dom l -> good s ->
  exists s', pass_with fuel insize l s = Some ((sort_pass c fuel insize l).1, (sort_pass c fuel insize l).2, s') /\
    good s' /\ R s s'.
Proof.
  intros Hi. revert l s; induction fuel as [|fuel IH]; intros [|x l] s Hl Hn Hd Hs; try (by exists s).
  cbn [pass_with sort_pass]. set (L := x :: l) in *.
  assert (take insize L ++ take insize (drop insize L) ++ drop insize (drop insize L) = L) as Hsplit
    by (by rewrite !take_drop).
  rewrite <- Hsplit in Hn, Hd. rewrite app_assoc in Hn, Hd. apply NoDup_app in Hn as (Hn1 & _ & Hn2).
  apply Forall_app in Hd as [Hd1 Hd2].
  destruct (merge_with_ok _ _ s Hn1 Hd1 Hs) as (s1 & -> & Hs1 & HR1). cbn [mbind option_bind].
  destruct (IH (drop insize (drop insize L)) s1) as (s2 & -> & Hs2 & HR2); [|done..|].
  { rewrite !length_drop. cbn in Hl |- *. lia. }
  cbn [mbind option_bind]. destruct (sort_pass c fuel insize _) as [out k]. cbn [fst snd].
  exists s2. split_and!; [done|done|by etrans].
Qed.

Lemma loop_with_ok fuel insize l s l' : (0 < insize)%nat -> NoDup l -> Forall dom l -> good s ->
  sort_loop c fuel insize l = Some l' ->
  exists s', loop_with fuel insize l s = Some (l', s') /\ good s' /\ R s s'.
Proof.
  revert insize l s; induction fuel as [|fuel IH]; intros insize l s Hi Hn Hd Hs; [done|]. cbn [sort_loop loop_with].
  pose proof (sort_pass_perm c (length l) insize l Hi ltac:(done)) as Hp.
  destruct (pass_with_ok (length l) insize l s Hi ltac:(done) Hn Hd Hs) as (s1 & -> & Hs1 & HR1). cbn [mbind option_bind].
  destruct (sort_pass c (length l) insize l) as [l1 k]. cbn [fst snd] in *.
  destruct (k <=? 1)%nat; [intros [= <-]; by exists s1|]. intros Hl.
  destruct (IH (2 * insize)%nat l1 s1) as (s2 & -> & Hs2 & HR2); [lia|by rewrite Hp|by rewrite Hp|done|done|].
  exists s2. split_and!; [done|done|by etrans].
Qed.

Lemma dl_sort_ok l s : NoDup l -> Forall dom l -> good s ->
  exists s', dl_sort l s = Some (ll_sort c l, s') /\ good s' /\ R s s'.
Proof. intros Hn Hd Hs. apply (loop_with_ok _ 1); [lia|done..|apply ll_sort_some]. Qed.
End sort_with.
