(* ===== verification/Version.v ===== *)
(** * Version comparison (libpkg/pkg_version.c)

    [split_version] cuts [${PORTNAME}-${PORTVERSION}[_${PORTREVISION}][,${PORTEPOCH}]],
    [get_component] reads one (number, letters, patch level) component, and
    [pkg_version_cmp] compares epoch, version text and revision in that order.
    Pointers are suffixes of the string, so [v1 < ve1] is a comparison of
    lengths.  [version_tokens] and [tokens_cmp] are the order the comments of
    the C file describe, with missing components equal to zero;
    [pkg_version_cmp] is proved to decide it. *)
From S2P Require Import Prelude CString.

(** ** The code *)

(** [a < b] on two pointers into the same string. *)
Definition before (p q : cstring) : bool := (length q <? length p)%nat.

(** Returns (versionstr, endname, epoch, revision); [None] is the NULL
    returned for a NULL name. *)
Definition split_version (pkgname : option cstring)
  : option (cstring * cstring * Z * Z) :=
  match pkgname with
  | None => None
  | Some pkgname =>
      let versionstr :=
        match strrchr pkgname "-" with Some ch => drop 1 ch | None => pkgname end in
      let ch := strrchr versionstr "_" in
      let revision := match ch with Some ch => strtoul (drop 1 ch) | None => 0 end in
      let endversionstr := ch in
      let ch := strrchr (match endversionstr with
                         | Some e => drop 1 e
                         | None => versionstr
                         end) "," in
      let epoch := match ch with Some ch => strtoul (drop 1 ch) | None => 0 end in
      let endversionstr :=
        match ch, endversionstr with Some c, None => Some c | _, e => e end in
      Some (versionstr, default [] endversionstr, epoch, revision)
  end.

Record version_component := mk_vc { vc_n : Z; vc_pl : Z; vc_a : Z }.

Definition stage : list (cstring * nat * Z) :=
  [ (str "pl", 2%nat, 0);
    (str "alpha", 5%nat, code "a" - code "a" + 1);
    (str "beta", 4%nat, code "b" - code "a" + 1);
    (str "pre", 3%nat, code "p" - code "a" + 1);
    (str "rc", 2%nat, code "r" - code "a" + 1) ].

(** Skips to the next ['+'] or the end. *)
Fixpoint to_plus (pos : cstring) : cstring :=
  match pos with
  | c :: r => if Ascii.eqb c "+" then pos else to_plus r
  | [] => []
  end.

(** Skips the letters at [pos]. *)
Fixpoint drop_alpha (pos : cstring) : cstring :=
  match pos with
  | c :: r => if isalpha c then drop_alpha r else pos
  | [] => []
  end.

(** A character that belongs to a component. *)
Definition component_char (c : ascii) : bool :=
  isdigit c || isalpha c || Ascii.eqb c "+" || Ascii.eqb c "*".

(** The loop over the trailing separators. *)
Fixpoint drop_separators (pos : cstring) : cstring :=
  match pos with
  | c :: r => if component_char c then pos else drop_separators r
  | [] => []
  end.

(** "handle version number": (n, hasstage, pos). *)
Definition get_number (pos : cstring) : Z * bool * cstring :=
  if isdigit (deref pos) then
    let '(n, endptr) := strtoll pos in (n, false, endptr)
  else if Ascii.eqb (deref pos) "*" then (-2, false, to_plus (drop 1 pos))
  else (-1, true, pos).

(** The entry of [stage] found at [pos], if any. *)
Definition find_stage (pos : cstring) : option (cstring * nat * Z) :=
  find (fun e => (strncasecmp pos e.1.1 e.1.2 =? 0) && negb (isalpha (at_ pos e.1.2))) stage.

(** "handle letter": (a, haspatchlevel, pos). *)
Definition get_letter (hasstage : bool) (pos : cstring) : Z * bool * cstring :=
  if isalpha (deref pos) then
    let c := tolower (deref pos) in
    match (if isalpha (at_ pos 1) then find_stage pos else None) with
    | Some (_, namelen, value) =>
        if hasstage then (value, true, drop namelen pos) else (0, false, pos)
    | None => (code c - code "a" + 1, true, drop_alpha (drop 1 pos))
    end
  else (0, false, pos).

(** "handle patch number": (pl, pos). *)
Definition get_patch (haspatchlevel : bool) (pos : cstring) : Z * cstring :=
  if haspatchlevel then
    if isdigit (deref pos) then strtoll pos else (-1, pos)
  else (0, pos).

Definition get_component (position : cstring) : version_component * cstring :=
  let '(n, hasstage, pos) := get_number position in
  let '(a, haspatchlevel, pos) := get_letter hasstage pos in
  let '(pl, pos) := get_patch haspatchlevel pos in
  (mk_vc n pl a, drop_separators pos).

Definition vc_zero : version_component := mk_vc 0 0 0.

(** The comparison of [vc1] and [vc2] in the loop: n, then a, then pl. *)
Definition component_cmp (c1 c2 : version_component) : Z :=
  then_cmp (zcmp (vc_n c1) (vc_n c2))
    (then_cmp (zcmp (vc_a c1) (vc_a c2)) (zcmp (vc_pl c1) (vc_pl c2))).

(** The while loop over the components; [None] when the fuel runs out. *)
Fixpoint cmp_loop (fuel : nat) (v1 ve1 v2 ve2 : cstring) : option Z :=
  if before v1 ve1 || before v2 ve2 then
    match fuel with
    | O => None
    | S fuel =>
        let '(block_v1, vc1, v1) :=
          if before v1 ve1 && negb (Ascii.eqb (deref v1) "+")
          then let '(c, p) := get_component v1 in (false, c, p)
          else (true, vc_zero, v1) in
        let '(block_v2, vc2, v2) :=
          if before v2 ve2 && negb (Ascii.eqb (deref v2) "+")
          then let '(c, p) := get_component v2 in (false, c, p)
          else (true, vc_zero, v2) in
        if block_v1 && block_v2 then
          cmp_loop fuel (if before v1 ve1 then drop 1 v1 else v1) ve1
                        (if before v2 ve2 then drop 1 v2 else v2) ve2
        else
          let result := component_cmp vc1 vc2 in
          if result =? 0 then cmp_loop fuel v1 ve1 v2 ve2 else Some result
    end
  else Some 0.

(** [None] is the failed assertion on a NULL name (or, for the loop, fuel
    that does not suffice, which [pkg_version_cmp_order] excludes). *)
Definition pkg_version_cmp (pkg1 pkg2 : option cstring) : option Z :=
  match split_version pkg1, split_version pkg2 with
  | Some (v1, ve1, e1, r1), Some (v2, ve2, e2, r2) =>
      let result := if e1 =? e2 then 0 else if e1 <? e2 then -1 else 1 in
      let len1 := (length v1 - length ve1)%nat in
      let len2 := (length v2 - length ve2)%nat in
      result ←
        (if (result =? 0) && (negb (len1 =? len2)%nat || negb (strncasecmp v1 v2 len1 =? 0))
         then cmp_loop (length v1 + length v2) v1 ve1 v2 ve2
         else Some result);
      Some (if (result =? 0) && negb (r1 =? r2) then if r1 <? r2 then -1 else 1 else result)
  | _, _ => None
  end.

Inductive pkg_change_t := PKG_DOWNGRADE | PKG_REINSTALL | PKG_UPGRADE.

(** The switch both [pkg_version_change] functions end with. *)
Definition change_of_cmp (r : Z) : pkg_change_t :=
  if r =? -1 then PKG_UPGRADE else if r =? 1 then PKG_DOWNGRADE else PKG_REINSTALL.

(** [version] and [oldversion] are the PKG_VERSION and PKG_OLD_VERSION of
    the package. *)
Definition pkg_version_change (version oldversion : option cstring) : option pkg_change_t :=
  match oldversion with
  | None => Some PKG_REINSTALL
  | Some _ => r ← pkg_version_cmp oldversion version; Some (change_of_cmp r)
  end.

(** [version1] is the PKG_VERSION of [pkg1]; [pkg2] is [None] for NULL and
    otherwise carries its PKG_VERSION. *)
Definition pkg_version_change_between (version1 : option cstring)
    (pkg2 : option (option cstring)) : option pkg_change_t :=
  match pkg2 with
  | None => Some PKG_REINSTALL
  | Some oldversion => r ← pkg_version_cmp oldversion version1; Some (change_of_cmp r)
  end.

(** ** The order that is meant *)

(** The version text as tokens: components, and the ['+'] between blocks of
    components.  Every step consumes a byte, so the length is enough fuel. *)
Inductive token := Comp (c : version_component) | Plus.

Fixpoint version_tokens (fuel : nat) (text : cstring) : list token :=
  match fuel, text with
  | S fuel, c :: r =>
      if Ascii.eqb c "+" then Plus :: version_tokens fuel r
      else let '(vc, rest) := get_component text in Comp vc :: version_tokens fuel rest
  | _, _ => []
  end.

Definition tokens (text : cstring) : list token := version_tokens (length text) text.

(** Block by block and component by component; a block that has run out of
    components goes on with zero components. *)
Fixpoint tokens_cmp (l1 : list token) : list token -> Z :=
  fix aux (l2 : list token) : Z :=
    match l1, l2 with
    | [], [] => 0
    | Comp c1 :: r1, Comp c2 :: r2 => then_cmp (component_cmp c1 c2) (tokens_cmp r1 r2)
    | Comp c1 :: r1, _ => then_cmp (component_cmp c1 vc_zero) (tokens_cmp r1 l2)
    | _, Comp c2 :: r2 => then_cmp (component_cmp vc_zero c2) (aux r2)
    | Plus :: r1, Plus :: r2 => tokens_cmp r1 r2
    | Plus :: r1, [] => tokens_cmp r1 []
    | [], Plus :: r2 => aux r2
    end.

(** What a package name says about its version: epoch, version text,
    revision. *)
Record version_key := mk_key { key_epoch : Z; key_tokens : list token; key_revision : Z }.

Definition version_key_of (pkgname : cstring) : version_key :=
  match split_version (Some pkgname) with
  | Some (v, ve, e, r) => mk_key e (tokens (take (length v - length ve) v)) r
  | None => mk_key 0 [] 0
  end.

(** PORTEPOCH supersedes PORTVERSION supersedes PORTREVISION. *)
Definition key_cmp (k1 k2 : version_key) : Z :=
  then_cmp (zcmp (key_epoch k1) (key_epoch k2))
    (then_cmp (tokens_cmp (key_tokens k1) (key_tokens k2))
       (zcmp (key_revision k1) (key_revision k2))).

(** The comparison as a function of two names. *)
Definition vercmp (a b : cstring) : Z := default 0 (pkg_version_cmp (Some a) (Some b)).

(** ** Components do not look past the end of the version text *)

(** What can follow the version text: nothing, ['_'] or [',']. *)
Definition is_sep (e : cstring) : Prop :=
  e = [] \/ deref e = "_"%char \/ deref e = ","%char.

Section truncation.
Context (e : cstring) (He : is_sep e).

Lemma sep_class f : f NUL = false -> f "_"%char = false -> f ","%char = false -> f (deref e) = false.
Proof. destruct He as [->|[->| ->]]; auto. Qed.

Lemma deref_app p : p <> [] -> deref (p ++ e) = deref p.
Proof. by destruct p. Qed.

Lemma digits_app p acc : digits acc (p ++ e) = ((digits acc p).1, (digits acc p).2 ++ e).
Proof.
  revert acc; induction p as [|c p IH]; intros acc; simpl.
  - pose proof (sep_class isdigit eq_refl eq_refl eq_refl) as H.
    destruct e as [|c r]; [done|]. simpl in *. by rewrite H.
  - destruct (isdigit c); [apply IH|done].
Qed.

Lemma drop_alpha_app p : drop_alpha (p ++ e) = drop_alpha p ++ e.
Proof.
  induction p as [|c p IH]; simpl.
  - pose proof (sep_class isalpha eq_refl eq_refl eq_refl) as H.
    destruct e as [|c r]; [done|]. simpl in *. by rewrite H.
  - by destruct (isalpha c).
Qed.
End truncation.

Lemma strtoll_digit s : isdigit (deref s) = true ->
  strtoll s = (Z.max LLONG_MIN (Z.min LLONG_MAX (digits 0 s).1), (digits 0 s).2).
Proof.
  destruct s as [|c r]; [done|]. cbn [deref hd]. intros Hd. unfold strtoll, read_sign.
  cbn [drop_space]. rewrite (isdigit_not_space _ Hd).
  assert (Ascii.eqb c "-" = false) as -> by (destruct (Ascii.eqb_spec c "-"); by subst).
  assert (Ascii.eqb c "+" = false) as -> by (destruct (Ascii.eqb_spec c "+"); by subst).
  cbn [deref hd]. rewrite Hd. by destruct (digits 0 (c :: r)).
Qed.

(** The two pointers stand for the same place of the text, or both are past
    its end. *)
Definition same_place (e p q : cstring) : Prop :=
  q = p ++ e \/ (p = [] /\ (length q <= length e)%nat).

Lemma same_place_before e p q : same_place e p q -> before q e = negb (bool_decide (p = [])).
Proof.
  unfold before. intros [->|[-> H]]; case_bool_decide as Hp; subst; simpl;
    try (apply Nat.ltb_ge; simpl; lia); try done.
  apply Nat.ltb_lt. rewrite length_app. destruct p; simpl; [done|lia].
Qed.

Lemma to_plus_length s : (length (to_plus s) <= length s)%nat.
Proof. induction s as [|c s IH]; simpl; [lia|]. destruct (Ascii.eqb c "+"); simpl; lia. Qed.

Lemma to_plus_not_alpha s : isalpha (deref (to_plus s)) = false.
Proof.
  induction s as [|c s IH]; simpl; [done|].
  by destruct (Ascii.eqb_spec c "+") as [->|].
Qed.

Lemma to_plus_app e p : same_place e (to_plus p) (to_plus (p ++ e)).
Proof.
  induction p as [|c p IH]; simpl; [right; split; [done|apply to_plus_length]|].
  destruct (Ascii.eqb c "+"); [by left|done].
Qed.

Lemma drop_separators_length s : (length (drop_separators s) <= length s)%nat.
Proof. induction s as [|c s IH]; simpl; [lia|]. destruct (component_char c); simpl; lia. Qed.

Lemma drop_separators_app e p q :
  same_place e p q -> same_place e (drop_separators p) (drop_separators q).
Proof.
  intros [->|[-> H]].
  - induction p as [|c p IH]; simpl.
    + right. split; [done|apply drop_separators_length].
    + destruct (component_char c); [by left|done].
  - right. split; [done|]. etrans; [apply drop_separators_length|done].
Qed.

Definition all_alpha (name : cstring) : bool := forallb isalpha name.

Lemma stage_wf : Forall (fun en => length en.1.1 = en.1.2 /\ all_alpha en.1.1 = true) stage.
Proof. repeat constructor. Qed.

Lemma map_tolower_alpha a b :
  map tolower a = map tolower b -> forallb isalpha a = forallb isalpha b.
Proof.
  revert b; induction a as [|x a IH]; intros [|y b]; simpl; try done.
  intros [= H1 H2]. rewrite (IH _ H2), <- (isalpha_tolower x), H1. by rewrite isalpha_tolower.
Qed.

Lemma at_app_lt (p e : cstring) n : (n < length p)%nat -> at_ (p ++ e) n = at_ p n.
Proof. intros H. unfold at_. by rewrite app_nth1. Qed.

Lemma at_app_end (p e : cstring) : at_ (p ++ e) (length p) = deref e.
Proof. unfold at_. rewrite app_nth2, Nat.sub_diag by lia. by destruct e. Qed.

Lemma at_end (p : cstring) n : (length p <= n)%nat -> at_ p n = NUL.
Proof. intros. by apply nth_overflow. Qed.

(** A name of letters does not match where the text has too few letters. *)
Lemma short_no_match name p e : is_sep e -> all_alpha name = true ->
  (length p < length name)%nat -> (strncasecmp (p ++ e) name (length name) =? 0) = false.
Proof.
  intros He Ha Hl. apply Z.eqb_neq. rewrite strncasecmp_zero. intros H.
  rewrite (take_ge name) in H by lia.
  pose proof (f_equal length H) as Hlen.
  rewrite !length_map, length_take, length_app in Hlen.
  apply map_tolower_alpha in H. unfold all_alpha in Ha. rewrite Ha in H.
  rewrite forallb_forall in H.
  assert (isalpha (deref e) = false) as Hne by (by apply sep_class).
  destruct e as [|c r]; [simpl in Hlen; lia|]. simpl in Hne.
  rewrite H in Hne; [done|]. rewrite take_app_ge by lia. apply in_or_app. right.
  destruct (length name - length p)%nat eqn:E; [lia|]. by left.
Qed.

Lemma stage_test_app e p (en : cstring * nat * Z) : is_sep e -> length en.1.1 = en.1.2 -> all_alpha en.1.1 = true ->
  (strncasecmp (p ++ e) en.1.1 en.1.2 =? 0) && negb (isalpha (at_ (p ++ e) en.1.2))
  = (strncasecmp p en.1.1 en.1.2 =? 0) && negb (isalpha (at_ p en.1.2)).
Proof.
  intros He <- Ha. set (name := en.1.1) in *.
  destruct (Nat.lt_ge_cases (length p) (length name)) as [Hlt|Hge].
  - rewrite (short_no_match name p e) by done. rewrite <- (app_nil_r p) at 2.
    rewrite (short_no_match name p []); [done|by left|done|done].
  - unfold strncasecmp. rewrite take_app_le by done. f_equal. f_equal.
    destruct (Nat.eq_dec (length name) (length p)) as [->|].
    + rewrite at_app_end, (at_end p) by lia. by apply sep_class.
    + by rewrite at_app_lt by lia.
Qed.

Lemma find_stage_app e p : is_sep e -> find_stage (p ++ e) = find_stage p.
Proof.
  intros He. unfold find_stage. pose proof stage_wf as Hw. revert Hw.
  generalize stage as l. induction l as [|en l IH]; intros Hw; [done|].
  inversion Hw as [|? ? [Hlen Ha] Hw']; subst. cbn [find].
  rewrite stage_test_app by done. destruct (_ && _); [done|by apply IH].
Qed.

Lemma get_number_app e p : is_sep e ->
  (get_number (p ++ e)).1 = (get_number p).1 /\
  same_place e (get_number p).2 (get_number (p ++ e)).2 /\
  (isalpha (deref (get_number (p ++ e)).2) = isalpha (deref (get_number p).2)) /\
  ((get_number p).2 <> [] -> (get_number (p ++ e)).2 = (get_number p).2 ++ e).
Proof.
  intros He. unfold get_number. destruct p as [|c r].
  - cbn [app deref hd]. rewrite (sep_class e He isdigit) by done.
    destruct (Ascii.eqb_spec (deref e) "*") as [E|_].
    { destruct He as [->|[H|H]]; [done|congruence|congruence]. }
    split_and!; [done|by left|by apply sep_class|done].
  - cbn [app deref hd]. destruct (isdigit c) eqn:Hd.
    + rewrite !strtoll_digit by done. change (c :: r ++ e) with ((c :: r) ++ e).
      rewrite digits_app by done. cbn [fst snd].
      split_and!; [done|by left| |done].
      destruct (digits 0 (c :: r)).2; [by apply sep_class|done].
    + destruct (Ascii.eqb_spec c "*") as [->|_].
      * cbn [skipn fst snd]. rewrite !to_plus_not_alpha.
        split_and!; [done|apply to_plus_app|done|].
        destruct (to_plus_app e r) as [H|[H _]]; [done|intros Hn; by destruct Hn].
      * split_and!; [done|by left|done|done].
Qed.

Lemma get_letter_app e hs p q : is_sep e -> same_place e p q ->
  isalpha (deref q) = isalpha (deref p) -> (p <> [] -> q = p ++ e) ->
  (get_letter hs q).1 = (get_letter hs p).1 /\
  same_place e (get_letter hs p).2 (get_letter hs q).2 /\
  ((get_letter hs p).1.2 = true -> (get_letter hs q).2 = (get_letter hs p).2 ++ e).
Proof.
  intros He Hs Ha Hq. unfold get_letter. rewrite Ha.
  destruct (isalpha (deref p)) eqn:E; [|split_and!; done].
  destruct p as [|c r]; [done|]. rewrite Hq by done. clear Hq Hs Ha q.
  rewrite find_stage_app, deref_app by done.
  assert (isalpha (at_ ((c :: r) ++ e) 1) = isalpha (at_ (c :: r) 1)) as ->.
  { destruct r as [|d r]; [|done]. change ((c :: []) ++ e) with (c :: e).
    transitivity (isalpha (deref e)); [by destruct e|]. by apply sep_class. }
  destruct (if isalpha (at_ (c :: r) 1) then find_stage (c :: r) else None)
    as [[[name len] v]|] eqn:Es; cbn [fst snd].
  - destruct hs; cbn [fst snd]; (split; [done|]); [|split; [by left|done]].
    assert (len <= length (c :: r))%nat as Hl.
    { destruct (isalpha (at_ (c :: r) 1)); [|done].
      apply find_some in Es as [Hin Ht]. apply andb_true_iff in Ht as [Ht _].
      pose proof stage_wf as Hw. rewrite Forall_forall in Hw.
      apply list_elem_of_In in Hin. destruct (Hw _ Hin) as [Hn Hal]. cbn [fst snd] in *.
      destruct (Nat.le_gt_cases len (length (c :: r))) as [|Hgt]; [done|].
      rewrite <- Hn in Ht, Hgt. rewrite <- (app_nil_r (c :: r)) in Ht.
      rewrite (short_no_match name (c :: r) []) in Ht; [done|by left|done|done]. }
    rewrite drop_app_le by done. split; [by left|done].
  - cbn [skipn app]. rewrite !drop_0, drop_alpha_app by done. split; [done|]. split; [by left|done].
Qed.

Lemma get_patch_app e hp p q : is_sep e -> same_place e p q ->
  (hp = true -> q = p ++ e) ->
  (get_patch hp q).1 = (get_patch hp p).1 /\ same_place e (get_patch hp p).2 (get_patch hp q).2.
Proof.
  intros He Hs Hq. unfold get_patch. destruct hp; [|done]. rewrite Hq by done.
  destruct p as [|c r].
  - cbn [app]. rewrite (sep_class e He isdigit) by done. split; [done|by left].
  - rewrite deref_app by done. destruct (isdigit (deref (c :: r))) eqn:Hd.
    + rewrite !strtoll_digit by done. rewrite digits_app by done. split; [done|by left].
    + split; [done|by left].
Qed.

Lemma get_component_app e p : is_sep e ->
  (get_component (p ++ e)).1 = (get_component p).1 /\
  same_place e (get_component p).2 (get_component (p ++ e)).2.
Proof.
  intros He. unfold get_component.
  destruct (get_number_app e p He) as (H1 & H2 & H3 & H4).
  destruct (get_number (p ++ e)) as [[n1 h1] q1], (get_number p) as [[n0 h0] p1].
  cbn [fst snd] in *. injection H1 as -> ->.
  destruct (get_letter_app e h0 p1 q1 He H2 H3 H4) as (L1 & L2 & L3).
  destruct (get_letter h0 q1) as [[a1 hp1] q2], (get_letter h0 p1) as [[a0 hp0] p2].
  cbn [fst snd] in *. injection L1 as -> ->.
  destruct (get_patch_app e hp0 p2 q2 He L2 L3) as [P1 P2].
  destruct (get_patch hp0 q2) as [pl1 q3], (get_patch hp0 p2) as [pl0 p3].
  cbn [fst snd] in *. subst pl1. split; [done|]. by apply drop_separators_app.
Qed.

(** ** Every component consumes input *)

Lemma drop_alpha_length s : (length (drop_alpha s) <= length s)%nat.
Proof. induction s as [|c s IH]; simpl; [lia|]. destruct (isalpha c); simpl; lia. Qed.

Lemma stage_len_pos p name len v : find_stage p = Some (name, len, v) -> (0 < len)%nat.
Proof.
  intros [Hin _]%find_some. revert Hin.
  assert (Forall (fun e : cstring * nat * Z => (0 < e.1.2)%nat) stage) as Hf
    by (repeat constructor).
  rewrite Forall_forall in Hf. intros Hin%list_elem_of_In. by specialize (Hf _ Hin).
Qed.

Lemma get_number_length p :
  (length (get_number p).2 <= length p)%nat /\
  ((get_number p).1.2 = false -> p <> [] -> (length (get_number p).2 < length p)%nat) /\
  ((get_number p).1.2 = true ->
    (get_number p).2 = p /\ isdigit (deref p) = false /\ deref p <> "*"%char).
Proof.
  unfold get_number. destruct (isdigit (deref p)) eqn:Hd.
  - rewrite strtoll_digit by done. cbn [fst snd]. destruct p as [|c r]; [done|].
    cbn [deref hd digits] in *. rewrite Hd.
    pose proof (digits_length (0 * 10 + (code c - 48)) r). simpl.
    split_and!; [lia|lia|done].
  - destruct (Ascii.eqb_spec (deref p) "*") as [E|E]; cbn [fst snd]; [|by split_and!].
    destruct p as [|c r]; [done|]. cbn [skipn]. rewrite drop_0.
    pose proof (to_plus_length r). simpl. split_and!; [lia|lia|done].
Qed.

Lemma get_letter_length hs p :
  (length (get_letter hs p).2 <= length p)%nat /\
  (hs = true -> isalpha (deref p) = true -> (length (get_letter hs p).2 < length p)%nat) /\
  (isalpha (deref p) = false -> (get_letter hs p) = (0, false, p)).
Proof.
  unfold get_letter. destruct (isalpha (deref p)) eqn:E; [|by split_and!].
  destruct p as [|c r]; [done|].
  destruct (if isalpha (at_ (c :: r) 1) then find_stage (c :: r) else None)
    as [[[name len] v]|] eqn:Es; cbn [fst snd].
  - assert (0 < len)%nat.
    { destruct (isalpha (at_ (c :: r) 1)); [|done]. by eapply stage_len_pos. }
    destruct hs; cbn [fst snd]; [rewrite length_drop|]; simpl; split_and!; lia || done.
  - cbn [skipn]. rewrite drop_0. pose proof (drop_alpha_length r). simpl.
    split_and!; lia || done.
Qed.

Lemma get_patch_length hp p : (length (get_patch hp p).2 <= length p)%nat.
Proof.
  unfold get_patch. destruct hp; [|done]. destruct (isdigit (deref p)) eqn:E; [|done].
  rewrite strtoll_digit by done. apply digits_length.
Qed.

Lemma drop_separators_skip c r :
  component_char c = false -> (length (drop_separators (c :: r)) < length (c :: r))%nat.
Proof. intros H. simpl. rewrite H. pose proof (drop_separators_length r). lia. Qed.

Lemma get_component_progress c r : c <> "+"%char ->
  (length (get_component (c :: r)).2 < length (c :: r))%nat.
Proof.
  intros Hc. unfold get_component.
  destruct (get_number_length (c :: r)) as (N1 & N2 & N3).
  destruct (get_number (c :: r)) as [[n hs] p1]. cbn [fst snd] in *.
  destruct (get_letter_length hs p1) as (L1 & L2 & L3).
  destruct (get_letter hs p1) as [[a hp] p2] eqn:El. cbn [fst snd] in *.
  pose proof (get_patch_length hp p2) as P1.
  destruct (get_patch hp p2) as [pl p3] eqn:Ep. cbn [fst snd] in *.
  pose proof (drop_separators_length p3) as D1.
  destruct hs; [|specialize (N2 eq_refl ltac:(done)); lia].
  destruct (N3 eq_refl) as (-> & Hd & Hs). cbn [deref hd] in *.
  destruct (isalpha c) eqn:Ha; [specialize (L2 eq_refl eq_refl); lia|].
  specialize (L3 eq_refl). injection L3 as -> -> ->. injection Ep as <- <-.
  apply drop_separators_skip. unfold component_char. rewrite Hd, Ha.
  destruct (Ascii.eqb_spec c "+"); [done|]. by destruct (Ascii.eqb_spec c "*").
Qed.

Lemma tokens_fuel f g t : (length t <= f)%nat -> (length t <= g)%nat ->
  version_tokens f t = version_tokens g t.
Proof.
  revert g t; induction f as [|f IH]; intros [|g] [|c r] Hf Hg; simpl in *; try lia; try done.
  destruct (Ascii.eqb_spec c "+") as [->|Hc].
  - f_equal. apply IH; lia.
  - pose proof (get_component_progress c r Hc) as Hp.
    destruct (get_component (c :: r)) as [vc p]. simpl in Hp. f_equal. apply IH; lia.
Qed.

Lemma tokens_nil : tokens [] = [].
Proof. done. Qed.

Lemma tokens_plus r : tokens ("+"%char :: r) = Plus :: tokens r.
Proof. done. Qed.

Lemma tokens_comp c r : c <> "+"%char ->
  tokens (c :: r) = Comp (get_component (c :: r)).1 :: tokens (get_component (c :: r)).2.
Proof.
  intros Hc. unfold tokens. cbn [length version_tokens].
  destruct (Ascii.eqb_spec c "+"); [done|].
  pose proof (get_component_progress c r Hc) as Hp.
  destruct (get_component (c :: r)) as [vc p]. simpl in *. f_equal. apply tokens_fuel; lia.
Qed.

(** ** The loop decides the order on tokens *)

Lemma tokens_cmp_stop_r l1 c r1 l2 : l1 = Comp c :: r1 ->
  match l2 with Comp _ :: _ => False | _ => True end ->
  tokens_cmp l1 l2 = then_cmp (component_cmp c vc_zero) (tokens_cmp r1 l2).
Proof. intros -> H. by destruct l2 as [|[] ?]. Qed.

Lemma tokens_cmp_stop_l l1 c r2 l2 : l2 = Comp c :: r2 ->
  match l1 with Comp _ :: _ => False | _ => True end ->
  tokens_cmp l1 l2 = then_cmp (component_cmp vc_zero c) (tokens_cmp l1 r2).
Proof. intros -> H. by destruct l1 as [|[] ?]. Qed.

(** What one side of the loop does at a place of its text. *)
Definition side (v ve : cstring) : bool * version_component * cstring :=
  if before v ve && negb (Ascii.eqb (deref v) "+")
  then let '(c, p) := get_component v in (false, c, p)
  else (true, vc_zero, v).

Lemma side_spec e p q : is_sep e -> same_place e p q ->
  match p with
  | [] => side q e = (true, vc_zero, q) /\ before q e = false
  | c :: r =>
      if Ascii.eqb c "+"
      then side q e = (true, vc_zero, q) /\ before q e = true /\ same_place e r (drop 1 q)
      else exists q', side q e = (false, (get_component p).1, q') /\ before q e = true /\
             same_place e (get_component p).2 q'
  end.
Proof.
  intros He Hs. unfold side. rewrite (same_place_before _ _ _ Hs).
  destruct p as [|c r]; [done|]. rewrite bool_decide_eq_false_2 by done. simpl negb.
  destruct Hs as [->|[H _]]; [|done]. cbn [deref hd app].
  destruct (Ascii.eqb_spec c "+") as [->|Hc]; cbn [andb negb].
  - split_and!; [done|done|by left].
  - destruct (get_component_app e (c :: r) He) as [H1 H2]. cbn [app] in *.
    destruct (get_component (c :: r ++ e)) as [vc q']. cbn [fst snd] in *. subst vc.
    by exists q'.
Qed.

Lemma cmp_loop_S fuel v1 ve1 v2 ve2 :
  cmp_loop (S fuel) v1 ve1 v2 ve2 =
  if before v1 ve1 || before v2 ve2 then
    let '(block_v1, vc1, w1) := side v1 ve1 in
    let '(block_v2, vc2, w2) := side v2 ve2 in
    if block_v1 && block_v2 then
      cmp_loop fuel (if before v1 ve1 then drop 1 w1 else w1) ve1
                    (if before v2 ve2 then drop 1 w2 else w2) ve2
    else if component_cmp vc1 vc2 =? 0 then cmp_loop fuel w1 ve1 w2 ve2
         else Some (component_cmp vc1 vc2)
  else Some 0.
Proof.
  unfold side. cbn [cmp_loop].
  destruct (before v1 ve1) eqn:B1, (before v2 ve2) eqn:B2,
    (Ascii.eqb (deref v1) "+"), (Ascii.eqb (deref v2) "+"); cbn [andb orb negb];
    try destruct (get_component v1); try destruct (get_component v2);
    cbn [andb]; rewrite ?B1, ?B2; done.
Qed.

Lemma then_cmp_if r o : (if r =? 0 then Some o else Some r) = Some (then_cmp r o).
Proof. unfold then_cmp. by destruct (r =? 0). Qed.

Lemma cmp_loop_tokens e1 e2 : is_sep e1 -> is_sep e2 -> forall fuel p1 p2 q1 q2,
  same_place e1 p1 q1 -> same_place e2 p2 q2 -> (length p1 + length p2 <= fuel)%nat ->
  cmp_loop fuel q1 e1 q2 e2 = Some (tokens_cmp (tokens p1) (tokens p2)).
Proof.
  intros He1 He2. induction fuel as [|fuel IH]; intros p1 p2 q1 q2 S1 S2 Hf.
  - destruct p1, p2; simpl in Hf; try lia. simpl.
    by rewrite (same_place_before _ _ _ S1), (same_place_before _ _ _ S2).
  - rewrite cmp_loop_S.
    pose proof (side_spec e1 p1 q1 He1 S1) as T1. pose proof (side_spec e2 p2 q2 He2 S2) as T2.
    destruct p1 as [|c1 r1], p2 as [|c2 r2].
    + destruct T1 as [-> ->], T2 as [-> ->]. done.
    + destruct T1 as [-> ->]. destruct (Ascii.eqb_spec c2 "+") as [->|Hc2].
      * destruct T2 as (-> & -> & S2'). cbn [andb orb]. rewrite tokens_plus.
        rewrite (IH [] r2) by (done || simpl in *; lia). done.
      * destruct T2 as (q2' & -> & -> & S2'). cbn [andb orb].
        pose proof (get_component_progress c2 r2 Hc2). rewrite (tokens_comp c2) by done.
        rewrite (IH [] (get_component (c2 :: r2)).2) by (done || simpl in *; lia).
        rewrite then_cmp_if. done.
    + destruct T2 as [-> ->]. destruct (Ascii.eqb_spec c1 "+") as [->|Hc1].
      * destruct T1 as (-> & -> & S1'). cbn [andb orb]. rewrite tokens_plus.
        rewrite (IH r1 []) by (done || simpl in *; lia). done.
      * destruct T1 as (q1' & -> & -> & S1'). cbn [andb orb].
        pose proof (get_component_progress c1 r1 Hc1). rewrite (tokens_comp c1) by done.
        rewrite (IH (get_component (c1 :: r1)).2 []) by (done || simpl in *; lia).
        rewrite then_cmp_if. done.
    + destruct (Ascii.eqb_spec c1 "+") as [->|Hc1], (Ascii.eqb_spec c2 "+") as [->|Hc2].
      * destruct T1 as (-> & -> & S1'), T2 as (-> & -> & S2'). cbn [andb orb].
        rewrite !tokens_plus, (IH r1 r2) by (done || simpl in *; lia). done.
      * destruct T1 as (-> & -> & S1'), T2 as (q2' & -> & -> & S2'). cbn [andb orb].
        pose proof (get_component_progress c2 r2 Hc2). rewrite (tokens_comp c2) by done.
        rewrite (IH ("+"%char :: r1) (get_component (c2 :: r2)).2)
          by (done || simpl in *; lia).
        by rewrite then_cmp_if.
      * destruct T1 as (q1' & -> & -> & S1'), T2 as (-> & -> & S2'). cbn [andb orb].
        pose proof (get_component_progress c1 r1 Hc1). rewrite (tokens_comp c1) by done.
        rewrite (IH (get_component (c1 :: r1)).2 ("+"%char :: r2))
          by (done || simpl in *; lia).
        by rewrite then_cmp_if.
      * destruct T1 as (q1' & -> & -> & S1'), T2 as (q2' & -> & -> & S2'). cbn [andb orb].
        pose proof (get_component_progress c1 r1 Hc1).
        pose proof (get_component_progress c2 r2 Hc2).
        rewrite (tokens_comp c1), (tokens_comp c2) by done.
        rewrite (IH (get_component (c1 :: r1)).2 (get_component (c2 :: r2)).2)
          by (done || simpl in *; lia).
        by rewrite then_cmp_if.
Qed.

(** ** Case does not matter *)

Lemma deref_lower p : deref (map tolower p) = tolower (deref p).
Proof. by destruct p. Qed.

Lemma digits_lower p acc :
  digits acc (map tolower p) = ((digits acc p).1, map tolower (digits acc p).2).
Proof.
  revert acc; induction p as [|c p IH]; intros acc; simpl; [done|].
  rewrite isdigit_tolower. destruct (isdigit c) eqn:E; [|done].
  by rewrite (code_tolower_digit _ E), IH.
Qed.

Lemma to_plus_lower p : to_plus (map tolower p) = map tolower (to_plus p).
Proof.
  induction p as [|c p IH]; simpl; [done|].
  rewrite eqb_tolower_nonalpha by done. by destruct (Ascii.eqb c "+").
Qed.

Lemma drop_alpha_lower p : drop_alpha (map tolower p) = map tolower (drop_alpha p).
Proof.
  induction p as [|c p IH]; simpl; [done|].
  rewrite isalpha_tolower. by destruct (isalpha c).
Qed.

Lemma drop_separators_lower p :
  drop_separators (map tolower p) = map tolower (drop_separators p).
Proof.
  induction p as [|c p IH]; simpl; [done|].
  assert (component_char (tolower c) = component_char c) as -> by by_byte c.
  by destruct (component_char c).
Qed.

Lemma at_lower p n : at_ (map tolower p) n = tolower (at_ p n).
Proof. unfold at_. change NUL with (tolower NUL) at 1. apply map_nth. Qed.

Lemma map_tolower_idem p : map tolower (map tolower p) = map tolower p.
Proof. rewrite List.map_map. apply map_ext, tolower_idem. Qed.

Lemma find_stage_lower p : find_stage (map tolower p) = find_stage p.
Proof.
  unfold find_stage. generalize stage as l.
  induction l as [|en l IH]; [done|]. cbn [find]. rewrite IH.
  rewrite at_lower, isalpha_tolower. unfold strncasecmp, strcasecmp.
  by rewrite (firstn_map tolower), map_tolower_idem.
Qed.

Lemma get_component_lower p :
  get_component (map tolower p) = ((get_component p).1, map tolower (get_component p).2).
Proof.
  unfold get_component.
  assert (get_number (map tolower p) = ((get_number p).1, map tolower (get_number p).2)) as ->.
  { unfold get_number. rewrite deref_lower, isdigit_tolower, eqb_tolower_nonalpha by done.
    destruct (isdigit (deref p)) eqn:E.
    - rewrite !strtoll_digit by (rewrite ?deref_lower, ?isdigit_tolower; done).
      by rewrite digits_lower.
    - destruct (Ascii.eqb (deref p) "*"); [|done].
      by rewrite skipn_map, to_plus_lower. }
  destruct (get_number p) as [[n hs] p1]. cbn [fst snd].
  assert (get_letter hs (map tolower p1) =
    ((get_letter hs p1).1, map tolower (get_letter hs p1).2)) as ->.
  { unfold get_letter. rewrite deref_lower, isalpha_tolower, at_lower, isalpha_tolower.
    rewrite find_stage_lower, tolower_idem. destruct (isalpha (deref p1)); [|done].
    destruct (if isalpha (at_ p1 1) then find_stage p1 else None) as [[[? ?] ?]|].
    - destruct hs; [by rewrite skipn_map|done].
    - by rewrite skipn_map, drop_alpha_lower. }
  destruct (get_letter hs p1) as [[a hp] p2]. cbn [fst snd].
  assert (get_patch hp (map tolower p2) =
    ((get_patch hp p2).1, map tolower (get_patch hp p2).2)) as ->.
  { unfold get_patch. destruct hp; [|done]. rewrite deref_lower, isdigit_tolower.
    destruct (isdigit (deref p2)) eqn:E; [|done].
    rewrite !strtoll_digit by (rewrite ?deref_lower, ?isdigit_tolower; done).
    by rewrite digits_lower. }
  destruct (get_patch hp p2) as [pl p3]. cbn [fst snd]. by rewrite drop_separators_lower.
Qed.

Lemma tokens_lower p : tokens (map tolower p) = tokens p.
Proof.
  induction p as [p IH] using (well_founded_ind (well_founded_ltof _ (@length ascii))).
  unfold ltof in IH.
  destruct p as [|c r]; [done|].
  destruct (Ascii.eqb_spec c "+") as [->|Hc].
  - cbn [map]. change (tolower "+") with "+"%char. rewrite !tokens_plus. f_equal.
    apply IH. simpl. lia.
  - assert (tolower c <> "+"%char) by (by_byte c; done).
    cbn [map]. rewrite !tokens_comp by done.
    change (tolower c :: map tolower r) with (map tolower (c :: r)).
    rewrite get_component_lower. cbn [fst snd]. f_equal. apply IH.
    by apply get_component_progress.
Qed.

(** ** The order on tokens is total *)

Lemma component_comparison : Comparison component_cmp.
Proof.
  unfold component_cmp.
  apply (lex_comparison (fun c1 c2 => zcmp (vc_n c1) (vc_n c2))); [by apply key_comparison, _|].
  apply (lex_comparison (fun c1 c2 => zcmp (vc_a c1) (vc_a c2))); by apply key_comparison, _.
Qed.
#[export] Existing Instance component_comparison.

Lemma component_cmp_range c1 c2 : sign_range (component_cmp c1 c2).
Proof. unfold component_cmp. auto using then_cmp_range, zcmp_range. Qed.

Lemma tokens_cmp_range l1 l2 : sign_range (tokens_cmp l1 l2).
Proof.
  revert l2; induction l1 as [|[c1|] r1 IH1]; intros l2; induction l2 as [|[c2|] r2 IH2];
    simpl; auto using then_cmp_range, component_cmp_range. unfold sign_range; auto.
Qed.

Lemma then_cmp_opp r1 r2 : then_cmp (- r1) (- r2) = - then_cmp r1 r2.
Proof. unfold then_cmp. split_cmp. Qed.

Lemma tokens_cmp_antisym l1 l2 : tokens_cmp l2 l1 = - tokens_cmp l1 l2.
Proof.
  revert l2; induction l1 as [|[c1|] r1 IH1]; intros l2.
  - induction l2 as [|[c2|] r2 IH2]; [done| |done].
    simpl in *. by rewrite IH2, (cmp_antisym vc_zero c2), then_cmp_opp.
  - destruct l2 as [|[c2|] r2]; simpl.
    + specialize (IH1 []). destruct r1; simpl in *;
        rewrite IH1; by rewrite (cmp_antisym c1 vc_zero), then_cmp_opp.
    + by rewrite IH1, (cmp_antisym c1 c2), then_cmp_opp.
    + specialize (IH1 (Plus :: r2)). simpl in IH1.
      rewrite <- then_cmp_opp, <- (cmp_antisym c1 vc_zero). f_equal. done.
  - induction l2 as [|[c2|] r2 IH2]; simpl.
    + apply (IH1 []).
    + rewrite IH2. by rewrite (cmp_antisym vc_zero c2), then_cmp_opp.
    + apply IH1.
Qed.

(** The step of the comparison: the head is the component that is compared,
    zero when the side is at a block end or exhausted, and the rest is what
    remains when the other side still has a component. *)
Definition head_comp (l : list token) : version_component :=
  match l with Comp c :: _ => c | _ => vc_zero end.
Definition stopped (l : list token) : bool :=
  match l with Comp _ :: _ => false | _ => true end.
Definition advance (l : list token) : list token :=
  match l with Comp _ :: r => r | _ => l end.

Lemma tokens_cmp_next l1 l2 : stopped l1 = true -> stopped l2 = true ->
  tokens_cmp l1 l2 = tokens_cmp (tail l1) (tail l2).
Proof. by destruct l1 as [|[] ?], l2 as [|[] ?]. Qed.

(** It holds for two stopped sides too: nothing moves. *)
Lemma tokens_cmp_step l1 l2 :
  tokens_cmp l1 l2 =
  then_cmp (component_cmp (head_comp l1) (head_comp l2)) (tokens_cmp (advance l1) (advance l2)).
Proof. by destruct l1 as [|[] ?], l2 as [|[] ?]. Qed.

Lemma advance_length l : stopped l = false -> (length (advance l) < length l)%nat.
Proof. destruct l as [|[] ?]; simpl; [done|lia|done]. Qed.

Lemma advance_length_le l : (length (advance l) <= length l)%nat.
Proof. destruct l as [|[] ?]; simpl; lia. Qed.

Lemma tail_length_le {A} (l : list A) : (length (tail l) <= length l)%nat.
Proof. destruct l; simpl; lia. Qed.

Lemma lex_trans_step (h1 h2 h3 : version_component) (r12 r23 r13 : Z) :
  (r12 <= 0 -> r23 <= 0 -> r13 <= 0) ->
  then_cmp (component_cmp h1 h2) r12 <= 0 -> then_cmp (component_cmp h2 h3) r23 <= 0 ->
  then_cmp (component_cmp h1 h3) r13 <= 0.
Proof.
  intros Hr. unfold then_cmp.
  pose proof (cmp_trans (cmp:=component_cmp) h1 h2 h3).
  pose proof (cmp_lt_le component_cmp h1 h2 h3). pose proof (cmp_le_lt component_cmp h1 h2 h3).
  pose proof (cmp_eq_trans component_cmp h1 h2 h3). split_cmp.
Qed.

Lemma tokens_cmp_trans l1 l2 l3 :
  tokens_cmp l1 l2 <= 0 -> tokens_cmp l2 l3 <= 0 -> tokens_cmp l1 l3 <= 0.
Proof.
  remember (length l1 + length l2 + length l3)%nat as n eqn:Hn.
  revert l1 l2 l3 Hn. induction n as [n IH] using lt_wf_ind. intros l1 l2 l3 ->.
  destruct (stopped l1 && stopped l2 && stopped l3) eqn:E.
  - apply andb_true_iff in E as [[E1 E2]%andb_true_iff E3].
    rewrite (tokens_cmp_next l1 l2), (tokens_cmp_next l2 l3), (tokens_cmp_next l1 l3) by done.
    destruct l1 as [|? r1], l2 as [|? r2], l3 as [|? r3]; cbn [tail]; try done;
      (eapply IH; [|reflexivity]); simpl; lia.
  - rewrite (tokens_cmp_step l1 l2), (tokens_cmp_step l2 l3), (tokens_cmp_step l1 l3).
    apply lex_trans_step. eapply IH; [|reflexivity].
    pose proof (advance_length_le l1). pose proof (advance_length_le l2).
    pose proof (advance_length_le l3).
    destruct (stopped l1) eqn:S1; [|apply advance_length in S1; lia].
    destruct (stopped l2) eqn:S2; [|apply advance_length in S2; lia].
    destruct (stopped l3) eqn:S3; [done|apply advance_length in S3; lia].
Qed.

#[export] Instance tokens_comparison : Comparison tokens_cmp.
Proof. split; [apply tokens_cmp_antisym|apply tokens_cmp_trans]. Qed.

#[export] Instance key_cmp_comparison : Comparison key_cmp.
Proof.
  unfold key_cmp.
  apply (lex_comparison (fun a b => zcmp (key_epoch a) (key_epoch b)));
    [by apply key_comparison, _|].
  apply (lex_comparison (fun a b => tokens_cmp (key_tokens a) (key_tokens b)));
    by apply key_comparison, _.
Qed.

Lemma key_cmp_range k1 k2 : sign_range (key_cmp k1 k2).
Proof. unfold key_cmp. auto using then_cmp_range, zcmp_range, tokens_cmp_range. Qed.

(** ** The parts of a name *)

Lemma strrchr_suffix s c t : strrchr s c = Some t -> exists p, s = p ++ t /\ deref t = c.
Proof.
  induction s as [|x s IH]; simpl; [done|].
  destruct (strrchr s c) as [u|] eqn:E.
  - intros [= <-]. destruct (IH eq_refl) as (p & -> & Hd). by exists (x :: p).
  - destruct (Ascii.eqb_spec x c) as [->|]; [|done]. intros [= <-]. by exists [].
Qed.

(** The version text ends at the string's end, at a ['_'] or at a [',']. *)
Lemma split_version_text s v ve e r : split_version (Some s) = Some (v, ve, e, r) ->
  v = take (length v - length ve) v ++ ve /\ is_sep ve.
Proof.
  intros [= <- <- <- <-].
  set (w := match strrchr s "-" with Some ch => drop 1 ch | None => s end).
  assert (forall p t, w = p ++ t -> w = take (length w - length t) w ++ t) as Hs.
  { intros p t ->. rewrite length_app, take_app_le, take_ge by lia. done. }
  destruct (strrchr w "_") as [u|] eqn:Eu; cbn [default].
  - destruct (strrchr_suffix _ _ _ Eu) as (p & Hw & Hd).
    split; [|by right; left; destruct (strrchr (drop 1 u) ",")].
    destruct (strrchr (drop 1 u) ","); by apply (Hs p).
  - destruct (strrchr w ",") as [u|] eqn:Ec; cbn [default].
    + destruct (strrchr_suffix _ _ _ Ec) as (p & Hw & Hd).
      split; [by apply (Hs p)|by right; right].
    + split; [apply (Hs w); by rewrite app_nil_r|by left].
Qed.

Lemma prefix_length (v ve : cstring) (p : cstring) :
  v = p ++ ve -> (length v - length ve)%nat = length p.
Proof. intros ->. rewrite length_app. lia. Qed.

(** The shortcut of [pkg_version_cmp] is sound: equal texts, letter case
    ignored, have the same components. *)
Lemma shortcut_tokens v1 v2 ve1 ve2 t1 t2 : v1 = t1 ++ ve1 -> v2 = t2 ++ ve2 ->
  length t1 = length t2 -> strncasecmp v1 v2 (length t1) = 0 -> tokens t1 = tokens t2.
Proof.
  intros -> -> Hl. rewrite strncasecmp_zero, take_app_length, Hl, take_app_length.
  intros H. by rewrite <- (tokens_lower t1), H, tokens_lower.
Qed.

Lemma zcmp_code a b : (if a =? b then 0 else if a <? b then -1 else 1) = zcmp a b.
Proof. done. Qed.

Lemma revision_code res r1 r2 :
  (if (res =? 0) && negb (r1 =? r2) then if r1 <? r2 then -1 else 1 else res)
  = then_cmp res (zcmp r1 r2).
Proof. unfold then_cmp, zcmp. split_cmp; simpl; lia. Qed.

Lemma pkg_version_cmp_key a b :
  pkg_version_cmp (Some a) (Some b) = Some (key_cmp (version_key_of a) (version_key_of b)).
Proof.
  unfold pkg_version_cmp, version_key_of.
  destruct (split_version (Some a)) as [[[[v1 ve1] e1] r1]|] eqn:S1; [|done].
  destruct (split_version (Some b)) as [[[[v2 ve2] e2] r2]|] eqn:S2; [|done].
  apply split_version_text in S1 as [T1 P1], S2 as [T2 P2].
  set (n1 := (length v1 - length ve1)%nat) in *. set (n2 := (length v2 - length ve2)%nat) in *.
  assert (n1 = length (take n1 v1)) as Hn1 by (by apply prefix_length).
  assert (n2 = length (take n2 v2)) as Hn2 by (by apply prefix_length).
  rewrite zcmp_code. unfold key_cmp. cbn [key_epoch key_tokens key_revision].
  unfold then_cmp at 1. destruct (Z.eqb_spec (zcmp e1 e2) 0) as [E|E]; cbn [andb negb].
  2:{ cbn. destruct (Z.eqb_spec (zcmp e1 e2) 0); [done|]. done. }
  rewrite E. clear E.
  destruct (_ || _) eqn:Eb.
  - rewrite (cmp_loop_tokens ve1 ve2 P1 P2 _ (take n1 v1) (take n2 v2)); [|by left|by left|].
    + cbn [mbind option_bind]. by rewrite revision_code.
    + rewrite !length_take. lia.
  - apply orb_false_iff in Eb as [H1%negb_false_iff H2%negb_false_iff].
    apply Nat.eqb_eq in H1. apply Z.eqb_eq in H2. rewrite Hn1 in H2.
    rewrite (shortcut_tokens v1 v2 ve1 ve2 (take n1 v1) (take n2 v2)) by (done || congruence).
    cbn [mbind option_bind]. rewrite revision_code.
    by rewrite (cmp_refl tokens_cmp).
Qed.

Lemma vercmp_key a b : vercmp a b = key_cmp (version_key_of a) (version_key_of b).
Proof. unfold vercmp. by rewrite pkg_version_cmp_key. Qed.

#[export] Instance vercmp_comparison : Comparison vercmp.
Proof.
  destruct (key_comparison version_key_of key_cmp _) as [Ha Ht].
  split; intros *; rewrite !vercmp_key; [apply Ha|apply Ht].
Qed.

Lemma vercmp_range a b : sign_range (vercmp a b).
Proof. rewrite vercmp_key. apply key_cmp_range. Qed.

Lemma pkg_version_cmp_vercmp a b : pkg_version_cmp (Some a) (Some b) = Some (vercmp a b).
Proof. by rewrite vercmp_key, pkg_version_cmp_key. Qed.

#[export] Hint Resolve vercmp_range vercmp_comparison tokens_cmp_range : pkg.

(** ** Properties *)

(** C6: [pkg_version_cmp] on two names always returns, and returns the sign of
    the documented order: epoch, then the version text component by component
    (missing components are zero, ['+'] separates blocks, letter case is
    ignored, and bytes past the version text do not matter), then revision.
    In particular the shortcut and the read-ahead of [get_component] are
    harmless. *)
Theorem pkg_version_cmp_refines (a b : cstring) :
  pkg_version_cmp (Some a) (Some b) = Some (key_cmp (version_key_of a) (version_key_of b)).
Proof. apply pkg_version_cmp_key. Qed.

(** C7: the comparison is a total preorder on names with results -1, 0, 1:
    symmetric up to the sign, reflexive and transitive. *)
Theorem pkg_version_cmp_order (a b c : cstring) :
  exists rab rbc rac,
    pkg_version_cmp (Some a) (Some b) = Some rab /\
    pkg_version_cmp (Some b) (Some a) = Some (- rab) /\
    pkg_version_cmp (Some a) (Some a) = Some 0 /\
    pkg_version_cmp (Some b) (Some c) = Some rbc /\
    pkg_version_cmp (Some a) (Some c) = Some rac /\
    (rab = -1 \/ rab = 0 \/ rab = 1) /\
    (rab <= 0 -> rbc <= 0 -> rac <= 0) /\ (rab < 0 -> rbc <= 0 -> rac < 0) /\
    (rab <= 0 -> rbc < 0 -> rac < 0).
Proof.
  exists (vercmp a b), (vercmp b c), (vercmp a c).
  rewrite !pkg_version_cmp_vercmp, (cmp_refl vercmp), (cmp_antisym (cmp:=vercmp) a b).
  split_and!; try done; [apply vercmp_range|apply cmp_trans|apply (cmp_lt_le vercmp)|
    apply (cmp_le_lt vercmp)].
Qed.

Lemma digits_nonneg s acc : 0 <= acc -> 0 <= (digits acc s).1.
Proof.
  revert acc; induction s as [|c s IH]; intros acc Ha; simpl; [done|].
  destruct (isdigit c) eqn:E; [|done]. apply IH.
  unfold isdigit in E. apply andb_true_iff in E as [E _]. lia.
Qed.

Lemma strtoll_digit_range s : isdigit (deref s) = true -> 0 <= (strtoll s).1 <= LLONG_MAX.
Proof.
  intros H. rewrite strtoll_digit by done. cbn [fst].
  pose proof (digits_nonneg s 0 ltac:(lia)). unfold LLONG_MAX, LLONG_MIN. lia.
Qed.

Lemma letter_value_range c : isalpha c = true -> 1 <= code (tolower c) - code "a" + 1 <= 26.
Proof. intros H. revert H. destruct c as [[] [] [] [] [] [] [] []]; vm_compute; intuition congruence. Qed.

Lemma stage_value_range p name len v : find_stage p = Some (name, len, v) -> 0 <= v <= 26.
Proof.
  intros [Hin _]%find_some. apply list_elem_of_In in Hin. revert Hin.
  assert (Forall (fun e : cstring * nat * Z => 0 <= e.2 <= 26) stage) as Hf.
  { repeat constructor; vm_compute; congruence. }
  rewrite Forall_forall in Hf. intros Hin. by specialize (Hf _ Hin).
Qed.

Lemma get_letter_range hs p : 0 <= (get_letter hs p).1.1 <= 26.
Proof.
  unfold get_letter. destruct (isalpha (deref p)) eqn:E; [|simpl; lia].
  destruct (if isalpha (at_ p 1) then find_stage p else None) as [[[? ?] v]|] eqn:Es.
  - destruct (isalpha (at_ p 1)); [|done]. destruct hs; [|simpl; lia].
    by eapply stage_value_range.
  - cbn [fst snd]. pose proof (letter_value_range _ E). lia.
Qed.

Lemma get_patch_range hp p : -1 <= (get_patch hp p).1 <= LLONG_MAX.
Proof.
  unfold get_patch. destruct hp; [|cbn; unfold LLONG_MAX; lia].
  destruct (isdigit (deref p)) eqn:E; [|cbn; unfold LLONG_MAX; lia].
  pose proof (strtoll_digit_range _ E). lia.
Qed.

(** the numbers of a component stay in the ranges the comments rely on:
    the version number is -2 exactly for ['*'], -1 exactly when the component
    starts with neither a digit nor ['*'], and otherwise a non-negative
    [long long] (numbers that do not fit are clamped, never wrapped); the
    letter is 0..26 and the patch level at least -1. So ['*'] is smaller than
    every other component. *)
Theorem get_component_range (p q : cstring) :
  let c := (get_component p).1 in
  -2 <= vc_n c <= LLONG_MAX /\ 0 <= vc_a c <= 26 /\ -1 <= vc_pl c <= LLONG_MAX /\
  (vc_n c = -2 <-> deref p = "*"%char) /\
  (vc_n c = -1 <-> isdigit (deref p) = false /\ deref p <> "*"%char) /\
  (deref p = "*"%char -> deref q <> "*"%char -> component_cmp c (get_component q).1 = -1).
Proof.
  assert (forall s, -2 <= vc_n (get_component s).1 <= LLONG_MAX /\
     0 <= vc_a (get_component s).1 <= 26 /\ -1 <= vc_pl (get_component s).1 <= LLONG_MAX /\
     (vc_n (get_component s).1 = -2 <-> deref s = "*"%char) /\
     (vc_n (get_component s).1 = -1 <-> isdigit (deref s) = false /\ deref s <> "*"%char)) as H.
  { intros s. unfold get_component.
    assert ((-2 <= (get_number s).1.1 <= LLONG_MAX) /\
      ((get_number s).1.1 = -2 <-> deref s = "*"%char) /\
      ((get_number s).1.1 = -1 <-> isdigit (deref s) = false /\ deref s <> "*"%char)) as Hn.
    { unfold get_number. destruct (isdigit (deref s)) eqn:E.
      - pose proof (strtoll_digit_range _ E). destruct (strtoll s) as [n r]. cbn [fst snd] in *.
        assert (deref s <> "*"%char) by (by intros Hs; rewrite Hs in E).
        split_and!; [lia|lia| |split; [lia|by intros []]]. split; [lia|done].
      - destruct (Ascii.eqb_spec (deref s) "*") as [Es|Es]; cbn [fst snd]; unfold LLONG_MAX;
          split_and!; try lia; split; try lia; try done; tauto. }
    destruct (get_number s) as [[n hs] p1]. pose proof (get_letter_range hs p1).
    destruct (get_letter hs p1) as [[a hp] p2]. pose proof (get_patch_range hp p2).
    destruct (get_patch hp p2) as [pl p3]. cbn [fst snd vc_n vc_a vc_pl] in *. tauto. }
  pose proof (H p) as (H1 & H2 & H3 & H4 & H5). pose proof (H q) as (Q1 & _ & _ & Q4 & _).
  cbn zeta. split_and!; try tauto; try lia. intros E1 E2. apply H4 in E1.
  assert (vc_n (get_component q).1 <> -2) by tauto. unfold component_cmp.
  assert (zcmp (vc_n (get_component p).1) (vc_n (get_component q).1) = -1) as -> by
    (unfold zcmp; split_cmp).
  done.
Qed.

(** [pkg_version_change] says upgrade, reinstall or downgrade exactly as
    the old version compares to the new one, a package without an old version
    is a reinstall, and swapping the two packages of
    [pkg_version_change_between] swaps upgrade and downgrade. *)
Theorem pkg_version_change_cases (v o : cstring) :
  pkg_version_change (Some v) None = Some PKG_REINSTALL /\
  pkg_version_change (Some v) (Some o) =
    Some (if vercmp o v <? 0 then PKG_UPGRADE
          else if 0 <? vercmp o v then PKG_DOWNGRADE else PKG_REINSTALL) /\
  (pkg_version_change_between (Some v) (Some (Some o)) = Some PKG_UPGRADE <->
   pkg_version_change_between (Some o) (Some (Some v)) = Some PKG_DOWNGRADE).
Proof.
  unfold pkg_version_change, pkg_version_change_between. rewrite !pkg_version_cmp_vercmp.
  cbn [mbind option_bind]. rewrite (cmp_antisym (cmp:=vercmp) o v).
  destruct (vercmp_range o v) as [-> |[-> | ->]]; split_and!; done.
Qed.
