(* ===== verification/UtHash.v ===== *)
(** * Hash tables with application order (external/uthash/uthash.h)

    A uthash table is intrusive: the elements carry the links.  [entries] is
    the memory the elements live in (an address is an index), with the [next]
    pointer and the key of each element's handle; [t_head], [t_tail] and
    [num_items] are the head pointer and the table header.  Linking an element
    writes its handle in place, so linking one that is linked already is
    expressible, with its consequences.

    The buckets are abstracted to one chain, newest first: a look-up returns
    the newest linked element whose current key is the one searched for.
    (A bucket expansion may reorder elements with equal keys; no theorem
    depends on the choice between duplicates.) *)
From S2P Require Import Prelude CString.

Record entry (V : Type) := mk_entry { e_val : V; e_key : cstring; e_next : option nat }.
Arguments mk_entry {V}.
Arguments e_val {V}.
Arguments e_key {V}.
Arguments e_next {V}.

Record table (V : Type) := mk_table {
  entries : list (entry V);
  t_head : option nat;
  t_tail : nat;
  num_items : nat;
  chain : list nat }.
Arguments mk_table {V}.
Arguments entries {V}.
Arguments t_head {V}.
Arguments t_tail {V}.
Arguments num_items {V}.
Arguments chain {V}.

Section uthash.
Context {V : Type}.
Implicit Types (t : table V) (e : entry V).

Definition table_empty : table V := mk_table [] None 0 0 [].

Definition set_next (n : option nat) e : entry V := mk_entry (e_val e) (e_key e) n.

(** HASH_ADD_KEYPTR on the element at address [i]. *)
Definition hash_link t (i : nat) (key : cstring) : table V :=
  let es := alter (fun e => mk_entry (e_val e) key None) i (entries t) in
  match t_head t with
  | None => mk_table es (Some i) i 1 [i]
  | Some h =>
      mk_table (alter (set_next (Some i)) (t_tail t) es) (Some h) i
        (S (num_items t)) (i :: chain t)
  end.

(** HASH_ADD of a newly allocated element. *)
Definition hash_add t (key : cstring) (v : V) : table V :=
  hash_link (mk_table (entries t ++ [mk_entry v key None]) (t_head t) (t_tail t)
               (num_items t) (chain t)) (length (entries t)) key.

(** A write through the pointer to the element at address [i]. *)
Definition hash_update t (i : nat) (v : V) : table V :=
  mk_table (alter (fun e => mk_entry v (e_key e) (e_next e)) i (entries t))
    (t_head t) (t_tail t) (num_items t) (chain t).

Definition has_key t (key : cstring) (i : nat) : bool :=
  match entries t !! i with Some e => bool_decide (e_key e = key) | None => false end.

(** HASH_FIND: the address of the element, NULL ([None]) when there is none. *)
Definition hash_find t (key : cstring) : option nat :=
  match t_head t with
  | None => None
  | Some _ => find (has_key t key) (chain t)
  end.

(** The element a pointer points to. *)
Definition hash_get t (i : nat) : option V := e_val <$> entries t !! i.

Definition hash_lookup t (key : cstring) : option V := hash_find t key ≫= hash_get t.

(** HASH_NEXT, with NULL to start: the next element, [None] for EPKG_END. *)
Definition hash_next t (data : option nat) : option nat :=
  match data with
  | None => t_head t
  | Some i => entries t !! i ≫= e_next
  end.

(** [while (HASH_NEXT(...) == EPKG_OK)]: the elements from [data] on; [None]
    when the fuel does not reach the end. *)
Fixpoint hash_walk (fuel : nat) t (data : option nat) : option (list V) :=
  match fuel with
  | O => None
  | S fuel =>
      match hash_next t data with
      | None => Some []
      | Some i => v ← hash_get t i; l ← hash_walk fuel t (Some i); Some (v :: l)
      end
  end.

(** No element is passed twice on a walk that ends, so this much fuel is
    enough for every walk that ends. *)
Definition hash_iter t : option (list V) := hash_walk (S (length (entries t))) t None.

Definition hash_count t : nat := num_items t.

(** ** Tables whose elements were each linked once *)

Record wf_table t : Prop := mk_wf {
  wf_head : t_head t = match entries t with [] => None | _ => Some 0%nat end;
  wf_tail : entries t <> [] -> t_tail t = pred (length (entries t));
  wf_items : num_items t = length (entries t);
  wf_chain : chain t = rev (seq 0 (length (entries t)));
  wf_next : forall i e, entries t !! i = Some e ->
    e_next e = if (S i <? length (entries t))%nat then Some (S i) else None }.

(** What a well-formed table holds, in order. *)
Definition elements t : list (cstring * V) := map (fun e => (e_key e, e_val e)) (entries t).
Definition values t : list V := map e_val (entries t).
Definition keys t : list cstring := map e_key (entries t).

Lemma wf_empty : wf_table table_empty.
Proof. by split. Qed.

Lemma alter_app_last (f : entry V -> entry V) l e :
  alter f (length l) (l ++ [e]) = l ++ [f e].
Proof. by rewrite alter_app_r_alt, Nat.sub_diag by lia. Qed.

Lemma hash_add_entries t k v : wf_table t ->
  entries (hash_add t k v) =
  alter (set_next (Some (length (entries t)))) (pred (length (entries t))) (entries t)
    ++ [mk_entry v k None].
Proof.
  intros [Hh Ht _ _ _]. unfold hash_add, hash_link. simpl. rewrite alter_app_last, Hh.
  destruct (entries t) as [|e es] eqn:E; [done|]. rewrite <- E in *. cbn [entries].
  assert (entries t <> []) as Hne by (by rewrite E).
  rewrite Ht by done. rewrite alter_app_l; [done|]. destruct (entries t); simpl; [done|lia].
Qed.

Lemma map_alter {A} (f : entry V -> A) g i l : (forall e, f (g e) = f e) ->
  map f (alter g i l) = map f l.
Proof.
  intros Hf. revert i; induction l as [|e l IH]; intros [|i]; simpl; try done.
  - by rewrite Hf.
  - f_equal. apply IH.
Qed.

Lemma elements_add t k v : wf_table t -> elements (hash_add t k v) = elements t ++ [(k, v)].
Proof.
  intros Hw. unfold elements. rewrite hash_add_entries, map_app, map_alter by done. done.
Qed.

Lemma values_elements t : values t = map snd (elements t).
Proof. unfold values, elements. by rewrite map_map. Qed.

Lemma keys_elements t : keys t = map fst (elements t).
Proof. unfold keys, elements. by rewrite map_map. Qed.

Lemma values_add t k v : wf_table t -> values (hash_add t k v) = values t ++ [v].
Proof. intros Hw. by rewrite !values_elements, elements_add, map_app. Qed.

Lemma keys_add t k v : wf_table t -> keys (hash_add t k v) = keys t ++ [k].
Proof. intros Hw. by rewrite !keys_elements, elements_add, map_app. Qed.

Lemma wf_add t k v : wf_table t -> wf_table (hash_add t k v).
Proof.
  intros Hw. pose proof (hash_add_entries t k v Hw) as He.
  assert (length (entries (hash_add t k v)) = S (length (entries t))) as Hl
    by (rewrite He, length_app, length_alter; simpl; lia).
  destruct Hw as [Hh Ht Hi Hc Hn]. split.
  - unfold hash_add, hash_link. simpl. rewrite alter_app_last, Hh. by destruct (entries t), (t_tail t).
  - intros _. rewrite Hl. unfold hash_add, hash_link. simpl. rewrite Hh. by destruct (entries t).
  - rewrite Hl. unfold hash_add, hash_link. simpl. rewrite Hh, Hi. by destruct (entries t).
  - rewrite Hl, seq_S, rev_app_distr. simpl. rewrite <- Hc.
    unfold hash_add, hash_link. simpl. rewrite Hh, Hc. by destruct (entries t).
  - intros i e. rewrite Hl, He. rewrite lookup_app_Some, length_alter.
    intros [H|[Hge H]].
    + destruct (decide (i = pred (length (entries t)))) as [->|Hne].
      * rewrite list_lookup_alter_eq in H. destruct (entries t !! _) as [e0|] eqn:E; [|done].
        injection H as <-. apply lookup_lt_Some in E. simpl.
        destruct (Nat.ltb_spec (S (pred (length (entries t)))) (S (length (entries t)))); [|lia].
        f_equal. lia.
      * rewrite list_lookup_alter_ne in H by done. pose proof (Hn _ _ H) as ->.
        apply lookup_lt_Some in H.
        destruct (Nat.ltb_spec (S i) (length (entries t))), (Nat.ltb_spec (S i) (S (length (entries t)))); (lia || done).
    + apply list_lookup_singleton_Some in H as [H <-]. simpl.
      destruct (Nat.ltb_spec (S i) (S (length (entries t)))); [lia|done].
Qed.

Lemma elements_update t i v : keys (hash_update t i v) = keys t.
Proof. unfold keys. simpl. by apply map_alter. Qed.

Lemma wf_update t i v : wf_table t -> wf_table (hash_update t i v).
Proof.
  intros [Hh Ht Hi Hc Hn]. split; simpl; rewrite ?length_alter; try done.
  - rewrite Hh. destruct (entries t); [by destruct i|by destruct i].
  - intros H. apply Ht. intros E. apply H. by rewrite E.
  - intros j e. destruct (decide (i = j)) as [->|]; [rewrite list_lookup_alter_eq|rewrite list_lookup_alter_ne by done; apply Hn].
    destruct (entries t !! j) as [e0|] eqn:E; [|done]. intros [= <-]. exact (Hn _ _ E).
Qed.

Lemma hash_walk_wf t : wf_table t -> forall fuel i, (i < length (entries t))%nat ->
  (length (entries t) <= i + fuel)%nat ->
  hash_walk fuel t (Some i) = Some (map e_val (drop (S i) (entries t))).
Proof.
  intros Hw. induction fuel as [|fuel IH]; intros i Hi Hf; [lia|].
  cbn [hash_walk]. unfold hash_next.
  destruct (lookup_lt_is_Some_2 (entries t) i Hi) as [e He]. rewrite He. simpl.
  rewrite (wf_next _ Hw _ _ He).
  destruct (Nat.ltb_spec (S i) (length (entries t))) as [Hlt|Hge].
  - destruct (lookup_lt_is_Some_2 (entries t) (S i) Hlt) as [e' He'].
    unfold hash_get. rewrite He'. simpl. rewrite IH by lia. simpl.
    by rewrite (drop_S _ _ _ He').
  - by rewrite drop_ge by lia.
Qed.

(** The walk over a well-formed table visits every element, in order. *)
Lemma hash_iter_wf t : wf_table t -> hash_iter t = Some (values t).
Proof.
  intros Hw. unfold hash_iter, values. cbn [hash_walk]. unfold hash_next. rewrite (wf_head _ Hw).
  destruct (entries t) as [|e es] eqn:E; [done|]. unfold hash_get. rewrite E. simpl.
  pose proof (hash_walk_wf t Hw (S (length es)) 0) as H. rewrite E in H. simpl in H.
  rewrite H by lia. by rewrite drop_0.
Qed.

Lemma find_rev_seq (P : nat -> bool) n :
  match find P (rev (seq 0 n)) with
  | Some i => (i < n)%nat /\ P i = true
  | None => forall i, (i < n)%nat -> P i = false
  end.
Proof.
  destruct (find P (rev (seq 0 n))) as [i|] eqn:E.
  - apply find_some in E as [H1 H2]. rewrite <- in_rev in H1. apply in_seq in H1. split; [lia|done].
  - intros i Hi. apply (find_none _ _ E). rewrite <- in_rev. apply in_seq. lia.
Qed.

Lemma hash_find_some t k i : wf_table t -> hash_find t k = Some i ->
  exists e, entries t !! i = Some e /\ e_key e = k.
Proof.
  intros Hw. unfold hash_find. destruct (t_head t); [|done]. rewrite (wf_chain _ Hw).
  pose proof (find_rev_seq (has_key t k) (length (entries t))) as H.
  intros E. rewrite E in H. destruct H as [_ H]. unfold has_key in H.
  destruct (entries t !! i) as [e|]; [|done]. exists e. by case_bool_decide.
Qed.

Lemma hash_find_none t k : wf_table t -> hash_find t k = None <-> k ∉ keys t.
Proof.
  intros Hw. unfold hash_find. rewrite (wf_head _ Hw).
  assert (entries t = [] -> k ∉ keys t) as Hnil.
  { unfold keys. intros ->. simpl. by intros ?%elem_of_nil. }
  destruct (entries t) as [|e0 es] eqn:E; [tauto|]. clear Hnil. rewrite (wf_chain _ Hw).
  pose proof (find_rev_seq (has_key t k) (length (entries t))) as H.
  destruct (find (has_key t k) (rev (seq 0 (length (entries t))))) as [i|] eqn:Ef.
  - split; [done|]. intros Hk. destruct Hk. destruct H as [_ H]. unfold has_key in H.
    destruct (entries t !! i) as [e|] eqn:Ei; [|done]. case_bool_decide; [|done]. subst k.
    unfold keys. apply list_elem_of_fmap. exists e. split; [done|]. by eapply list_elem_of_lookup_2.
  - split; [|done]. intros _ Hk. unfold keys in Hk. apply list_elem_of_fmap in Hk as (e & -> & He).
    apply list_elem_of_lookup_1 in He as [i Hi]. pose proof (lookup_lt_Some _ _ _ Hi) as Hl.
    specialize (H i Hl). unfold has_key in H. rewrite Hi in H. by rewrite bool_decide_eq_false in H.
Qed.

Lemma hash_find_cases t k : wf_table t ->
  (hash_find t k = None /\ k ∉ keys t) \/
  (exists i e, hash_find t k = Some i /\ entries t !! i = Some e /\ e_key e = k /\ k ∈ keys t).
Proof.
  intros Hw. destruct (hash_find t k) as [i|] eqn:E.
  - right. destruct (hash_find_some t k i Hw E) as (e & He & Hk). exists i, e. split_and!; try done.
    unfold keys. apply list_elem_of_fmap. exists e. split; [done|]. by eapply list_elem_of_lookup_2.
  - left. split; [done|]. by apply hash_find_none.
Qed.

Lemma elements_lookup t i k v :
  elements t !! i = Some (k, v) <-> keys t !! i = Some k /\ values t !! i = Some v.
Proof.
  unfold elements, keys, values. rewrite !list_lookup_fmap. destruct (entries t !! i) as [e|]; simpl;
    [|by split; [|intros [? ?]]]. split; [by intros [= <- <-]|]. by intros [[= <-] [= <-]].
Qed.

Lemma hash_get_values t i : hash_get t i = values t !! i.
Proof. unfold hash_get, values. by rewrite list_lookup_fmap. Qed.

Lemma hash_find_elements t k i : wf_table t -> hash_find t k = Some i ->
  exists v, elements t !! i = Some (k, v) /\ hash_lookup t k = Some v.
Proof.
  intros Hw Hf. destruct (hash_find_some t k i Hw Hf) as (e & He & <-). exists (e_val e). split.
  - unfold elements. rewrite list_lookup_fmap. by rewrite He.
  - unfold hash_lookup. rewrite Hf. simpl. unfold hash_get. by rewrite He.
Qed.

(** Where no two elements have the same key, a look-up finds the element. *)
Lemma hash_lookup_elements t k v : wf_table t -> NoDup (keys t) ->
  hash_lookup t k = Some v <-> (k, v) ∈ elements t.
Proof.
  intros Hw Hn. split.
  - unfold hash_lookup. destruct (hash_find t k) as [i|] eqn:E; [|done]. intros H.
    destruct (hash_find_elements t k i Hw E) as (v' & Hv & Hl). unfold hash_lookup in Hl. rewrite E in Hl.
    rewrite H in Hl. injection Hl as <-. by eapply list_elem_of_lookup_2.
  - intros [j Hj]%list_elem_of_lookup_1. apply elements_lookup in Hj as [Hk Hv].
    destruct (hash_find_cases t k Hw) as [[_ Hno]|(i & e & Hf & He & Hek & _)].
    + destruct Hno. by eapply list_elem_of_lookup_2.
    + destruct (hash_find_elements t k i Hw Hf) as (v' & Hv' & Hl). rewrite Hl.
      apply elements_lookup in Hv' as [Hk' Hv']. rewrite (NoDup_lookup _ _ _ _ Hn Hk' Hk) in Hv'. congruence.
Qed.

Lemma hash_lookup_none t k : wf_table t -> hash_lookup t k = None <-> k ∉ keys t.
Proof.
  intros Hw. rewrite <- (hash_find_none t k Hw). unfold hash_lookup.
  destruct (hash_find t k) as [i|] eqn:E; [|done]. destruct (hash_find_elements t k i Hw E) as (v & _ & Hl).
  unfold hash_lookup in Hl. rewrite E in Hl. by rewrite Hl.
Qed.

Lemma values_update t i v : values (hash_update t i v) = <[i:=v]> (values t).
Proof.
  unfold values. cbn [hash_update entries]. generalize (entries t). intros l. revert i.
  induction l as [|e l IH]; intros [|i]; try done. cbn. f_equal. apply IH.
Qed.

Lemma hash_find_update t i v k : hash_find (hash_update t i v) k = hash_find t k.
Proof.
  unfold hash_find. cbn [hash_update t_head chain]. destruct (t_head t); [|done].
  generalize (chain t). intros l. induction l as [|j l IH]; [done|]. cbn [find].
  assert (has_key (hash_update t i v) k j = has_key t k j) as ->.
  { unfold has_key. cbn [hash_update entries]. destruct (decide (i = j)) as [->|Hne].
    - rewrite list_lookup_alter_eq. by destruct (entries t !! j).
    - by rewrite list_lookup_alter_ne. }
  by destruct (has_key t k j).
Qed.

(** Writing to the element found under a key changes the look-up of that key. *)
Lemma hash_lookup_update t i v k k' : wf_table t -> hash_find t k = Some i ->
  hash_lookup (hash_update t i v) k' = if bool_decide (k' = k) then Some v else hash_lookup t k'.
Proof.
  intros Hw Hf. unfold hash_lookup. rewrite hash_find_update.
  destruct (hash_find_some t k i Hw Hf) as (e & He & Hk). case_bool_decide as Hkk.
  - subst k'. rewrite Hf. cbn. unfold hash_get. cbn. rewrite list_lookup_alter_eq, He. done.
  - destruct (hash_find t k') as [j|] eqn:Ej; [|done]. cbn. unfold hash_get. cbn.
    rewrite list_lookup_alter_ne; [done|]. intros ->. apply Hkk.
    destruct (hash_find_some t k' j Hw Ej) as (e' & He' & Hk'). congruence.
Qed.

(** Looking up the element that was just added. *)
Lemma hash_lookup_add t k v : wf_table t -> hash_lookup (hash_add t k v) k = Some v.
Proof.
  intros Hw. unfold hash_lookup, hash_find.
  assert (t_head (hash_add t k v) <> None) as Hh.
  { rewrite (wf_head _ (wf_add t k v Hw)), hash_add_entries by done. by destruct (alter _ _ _). }
  destruct (t_head (hash_add t k v)); [|done].
  rewrite (wf_chain _ (wf_add t k v Hw)), hash_add_entries, length_app, length_alter by done.
  rewrite Nat.add_comm. simpl Nat.add. rewrite seq_S, rev_app_distr. simpl.
  assert (entries (hash_add t k v) !! length (entries t) = Some (mk_entry v k None)) as He.
  { rewrite hash_add_entries by done. rewrite lookup_app_r; rewrite length_alter; [|lia].
    by rewrite Nat.sub_diag. }
  unfold has_key at 1. rewrite He. simpl. rewrite bool_decide_eq_true_2 by done.
  simpl. unfold hash_get. by rewrite He.
Qed.

(** Other keys keep their element. *)
Lemma hash_lookup_add_ne t k k' v : wf_table t -> k <> k' ->
  hash_lookup (hash_add t k v) k' = hash_lookup t k'.
Proof.
  intros Hw Hne.
  assert (forall i, (i < length (entries t))%nat ->
            (fun e => (e_key e, e_val e)) <$> entries (hash_add t k v) !! i =
            (fun e => (e_key e, e_val e)) <$> entries t !! i) as Hent.
  { intros i Hi. rewrite hash_add_entries by done. rewrite lookup_app_l by (by rewrite length_alter).
    destruct (decide (i = pred (length (entries t)))) as [->|];
      [rewrite list_lookup_alter_eq|by rewrite list_lookup_alter_ne by done].
    by destruct (entries t !! _). }
  assert (forall i, (i < length (entries t))%nat -> has_key (hash_add t k v) k' i = has_key t k' i) as Hkey.
  { intros i Hi. specialize (Hent i Hi). unfold has_key.
    revert Hent. generalize (entries (hash_add t k v) !! i). intros o.
    by destruct o, (entries t !! i); intros Hent; inversion Hent. }
  unfold hash_lookup, hash_find. rewrite (wf_head _ (wf_add t k v Hw)), (wf_head _ Hw).
  rewrite (wf_chain _ (wf_add t k v Hw)), (wf_chain _ Hw).
  assert (length (entries (hash_add t k v)) = S (length (entries t))) as Hl
    by (rewrite hash_add_entries, length_app, length_alter by done; simpl; lia).
  rewrite Hl, seq_S, rev_app_distr. simpl.
  assert (has_key (hash_add t k v) k' (length (entries t)) = false) as ->.
  { unfold has_key. rewrite hash_add_entries by done.
    rewrite lookup_app_r by (rewrite length_alter; lia). rewrite length_alter, Nat.sub_diag. simpl.
    by rewrite bool_decide_eq_false_2. }
  destruct (entries (hash_add t k v)) as [|ea esa] eqn:Ea; [simpl in Hl; lia|].
  assert (find (has_key (hash_add t k v) k') (rev (seq 0 (length (entries t)))) =
          find (has_key t k') (rev (seq 0 (length (entries t))))) as ->.
  { assert (forall l, (forall i, In i l -> (i < length (entries t))%nat) ->
      find (has_key (hash_add t k v) k') l = find (has_key t k') l) as Hf.
    { induction l as [|i l IH]; intros Hin; simpl; [done|].
      rewrite Hkey by (apply Hin; by left). rewrite IH by (intros; apply Hin; by right). done. }
    apply Hf. intros i. rewrite <- in_rev. intros ?%in_seq. lia. }
  destruct (entries t) as [|e0 es0] eqn:E0; [done|]. rewrite <- E0 in *.
  pose proof (find_rev_seq (has_key t k') (length (entries t))) as Hf.
  destruct (find (has_key t k') (rev (seq 0 (length (entries t))))) as [i|]; [|done].
  destruct Hf as [Hi _]. cbn [mbind option_bind]. specialize (Hent i Hi). unfold hash_get.
  rewrite Ea. revert Hent. generalize ((ea :: esa) !! i). intros o.
  destruct o, (entries t !! i); intros Hent; inversion Hent; simpl; congruence.
Qed.

(** ** Linking an element a second time *)

(** The last element linked again points to itself, and no walk that reaches
    it ends. *)
Lemma hash_walk_self t i e fuel : entries t !! i = Some e -> e_next e = Some i ->
  hash_walk fuel t (Some i) = None.
Proof.
  intros He Hn. induction fuel as [|fuel IH]; [done|].
  cbn [hash_walk]. unfold hash_next. rewrite He. simpl. rewrite Hn. simpl.
  unfold hash_get. rewrite He. simpl. by rewrite IH.
Qed.

Lemma hash_link_tail_next t key e : t_head t <> None -> entries t !! t_tail t = Some e ->
  entries (hash_link t (t_tail t) key) !! t_tail t = Some (mk_entry (e_val e) key (Some (t_tail t))).
Proof.
  intros Hh He. unfold hash_link. destruct (t_head t); [|done]. simpl.
  by rewrite list_lookup_alter_eq, list_lookup_alter_eq, He.
Qed.

Lemma hash_walk_cycle t key : wf_table t -> entries t <> [] ->
  forall fuel i, (i < length (entries t))%nat ->
  hash_walk fuel (hash_link t (t_tail t) key) (Some i) = None.
Proof.
  intros Hw Hne. pose proof (wf_tail _ Hw Hne) as Ht.
  assert (t_head t <> None) as Hh by (rewrite (wf_head _ Hw); by destruct (entries t)).
  assert (0 < length (entries t))%nat as Hpos by (destruct (entries t); simpl; [done|lia]).
  induction fuel as [|fuel IH]; intros i Hi; [done|].
  destruct (lookup_lt_is_Some_2 (entries t) i Hi) as [e He].
  destruct (decide (i = t_tail t)) as [->|Hni].
  - eapply hash_walk_self; [by apply hash_link_tail_next|done].
  - cbn [hash_walk]. unfold hash_next, hash_get.
    assert (entries (hash_link t (t_tail t) key) !! i = Some e) as ->.
    { unfold hash_link. destruct (t_head t); [|done]. simpl.
      by rewrite !list_lookup_alter_ne by done. }
    simpl. rewrite (wf_next _ Hw _ _ He).
    destruct (Nat.ltb_spec (S i) (length (entries t))) as [Hlt|]; [|lia].
    destruct (entries (hash_link t (t_tail t) key) !! S i); [|done]. simpl.
    by rewrite IH.
Qed.

Lemma hash_link_tail_loops t key fuel : wf_table t -> entries t <> [] ->
  hash_walk fuel (hash_link t (t_tail t) key) None = None.
Proof.
  intros Hw Hne. destruct fuel as [|fuel]; [done|]. cbn [hash_walk]. unfold hash_next.
  assert (t_head (hash_link t (t_tail t) key) = t_head t) as ->.
  { unfold hash_link. rewrite (wf_head _ Hw). by destruct (entries t). }
  rewrite (wf_head _ Hw). destruct (entries t) as [|e es] eqn:E; [done|]. rewrite <- E in *.
  destruct (hash_get _ _); [|done]. simpl. rewrite hash_walk_cycle; try done. rewrite E. simpl. lia.
Qed.
End uthash.

Arguments table_empty {V}.
#[export] Hint Resolve wf_empty wf_add wf_update : pkg.

(** ** Deletion *)

Section deletion.
Context {V : Type}.
Implicit Types (t : table V) (ord : list nat).

(** The element whose [next] is [i]: where its [prev] points. *)
Definition hash_prev t (i : nat) : option nat :=
  find (fun k => bool_decide ((entries t !! k ≫= e_next) = Some i)) (chain t).

(** HASH_DELETE of the element at address [i]; the last one takes the table
    with it.  The element stays where it is, linked no more. *)
Definition hash_delete t (i : nat) : table V :=
  let prev := hash_prev t i in
  let next := entries t !! i ≫= e_next in
  match prev, next with
  | None, None => mk_table (entries t) None 0 0 []
  | _, _ =>
      mk_table (match prev with Some k => alter (set_next next) k (entries t) | None => entries t end)
        (match prev with Some _ => t_head t | None => next end)
        (if Nat.eqb (t_tail t) i then default 0%nat prev else t_tail t)
        (pred (num_items t)) (List.filter (fun k => negb (Nat.eqb k i)) (chain t))
  end.

(** A table whose linked elements are those at [ord], in that order. *)
Record linked t ord : Prop := mk_linked {
  lk_nodup : NoDup ord;
  lk_head : t_head t = head ord;
  lk_tail : ord <> [] -> last ord = Some (t_tail t);
  lk_items : num_items t = length ord;
  lk_chain : chain t = rev ord;
  lk_next : forall n i, ord !! n = Some i -> exists e, entries t !! i = Some e /\ e_next e = ord !! S n }.

Lemma last_seq n : last (seq 0 (S n)) = Some n.
Proof. by rewrite seq_S, last_snoc. Qed.

Lemma wf_linked t : wf_table t -> linked t (seq 0 (length (entries t))).
Proof.
  intros [Hh Ht Hi Hc Hn]. split.
  - apply NoDup_seq.
  - rewrite Hh. by destruct (entries t).
  - intros Hne. destruct (entries t) as [|e es] eqn:E; [done|]. rewrite Ht by done. cbn [length pred]. by rewrite last_seq.
  - by rewrite length_seq.
  - done.
  - intros n i [-> Hlt]%lookup_seq. destruct (lookup_lt_is_Some_2 (entries t) n Hlt) as [e He].
    exists e. split; [done|]. rewrite (Hn _ _ He). destruct (Nat.ltb_spec (S n) (length (entries t))) as [Hl|Hl].
    + symmetry. apply lookup_seq. lia.
    + symmetry. apply lookup_ge_None. rewrite length_seq. lia.
Qed.

Lemma linked_lt t ord i : linked t ord -> i ∈ ord -> (i < length (entries t))%nat.
Proof. intros Hl [n Hn]%list_elem_of_lookup_1. destruct (lk_next _ _ Hl n i Hn) as (e & He & _). by eapply lookup_lt_Some. Qed.

Lemma hash_walk_linked t ord : linked t ord -> forall fuel n i, ord !! n = Some i -> (length ord <= n + fuel)%nat ->
  exists l, hash_walk fuel t (Some i) = Some l /\ mapM (hash_get t) (drop (S n) ord) = Some l.
Proof.
  intros Hl. induction fuel as [|fuel IH]; intros n i Hn Hf; [apply lookup_lt_Some in Hn; lia|].
  cbn [hash_walk hash_next]. destruct (lk_next _ _ Hl n i Hn) as (e & -> & He). cbn [mbind option_bind]. rewrite He.
  destruct (ord !! S n) as [k|] eqn:Ek.
  - destruct (lk_next _ _ Hl _ _ Ek) as (e' & He' & _). destruct (IH (S n) k Ek ltac:(lia)) as (l & -> & Hm).
    assert (hash_get t k = Some (e_val e')) as Hg by (unfold hash_get; by rewrite He').
    exists (e_val e' :: l). rewrite Hg. split; [done|]. rewrite (drop_S _ _ _ Ek). cbn. rewrite Hg. cbn. by rewrite Hm.
  - exists []. split; [done|]. by rewrite drop_ge by (by apply lookup_ge_None).
Qed.

(** Iteration visits exactly the linked elements, in their order. *)
Lemma hash_iter_linked t ord : linked t ord -> exists l, hash_iter t = Some l /\ mapM (hash_get t) ord = Some l.
Proof.
  intros Hl. unfold hash_iter. cbn [hash_walk hash_next]. rewrite (lk_head _ _ Hl).
  destruct ord as [|i ord]; [by exists []|]. cbn [head].
  destruct (lk_next _ _ Hl 0 i eq_refl) as (e & He & _).
  assert (length (i :: ord) <= length (entries t))%nat as Hle.
  { rewrite <- (length_seq (length (entries t)) 0). apply submseteq_length, NoDup_submseteq; [apply Hl|].
    intros k Hk. apply elem_of_seq. apply (linked_lt t (i :: ord)) in Hk; [lia|done]. }
  destruct (hash_walk_linked t (i :: ord) Hl (length (entries t)) 0 i eq_refl) as (l & -> & Hm); [cbn in *; lia|].
  assert (hash_get t i = Some (e_val e)) as Hg by (unfold hash_get; by rewrite He).
  exists (e_val e :: l). rewrite Hg. split; [done|]. cbn. rewrite Hg. cbn in *. rewrite drop_0 in Hm. by rewrite Hm.
Qed.

Lemma lookup_middle {A} (l1 l2 : list A) i : (l1 ++ i :: l2) !! length l1 = Some i.
Proof. by rewrite lookup_app_r, Nat.sub_diag by lia. Qed.

Lemma lookup_last_app {A} (l1 l2 : list A) k : last l1 = Some k -> exists n, length l1 = S n /\ (l1 ++ l2) !! n = Some k.
Proof.
  intros [l ->]%last_Some. exists (length l). rewrite length_app. split; [cbn; lia|].
  rewrite <- app_assoc. by apply lookup_middle.
Qed.

Lemma linked_next t l1 i l2 : linked t (l1 ++ i :: l2) -> entries t !! i ≫= e_next = head l2.
Proof.
  intros Hl. destruct (lk_next _ _ Hl _ _ (lookup_middle l1 l2 i)) as (e & -> & He). cbn. rewrite He.
  rewrite lookup_app_r by lia. replace (S (length l1) - length l1)%nat with 1%nat by lia. by destruct l2.
Qed.

Lemma linked_prev t l1 i l2 : linked t (l1 ++ i :: l2) -> hash_prev t i = last l1.
Proof.
  intros Hl. unfold hash_prev. rewrite (lk_chain _ _ Hl).
  assert (forall k, k ∈ l1 ++ i :: l2 -> (entries t !! k ≫= e_next) = Some i <-> last l1 = Some k) as Hk.
  { intros k [n Hn]%list_elem_of_lookup_1. destruct (lk_next _ _ Hl n k Hn) as (e & -> & He). cbn. rewrite He. split.
    - intros Hs. assert (S n = length l1) as Hlen by (eapply NoDup_lookup; [apply Hl|exact Hs|by apply lookup_middle]).
      rewrite last_lookup, <- Hlen. cbn. rewrite lookup_app_l in Hn by lia. done.
    - intros Hla. destruct (lookup_last_app l1 (i :: l2) k Hla) as (m & Hm & Hkm).
      assert (n = m) as -> by (eapply NoDup_lookup; [apply Hl|exact Hn|exact Hkm]). rewrite <- Hm. by apply lookup_middle. }
  destruct (find _ _) as [k|] eqn:E.
  - apply find_some in E as [Hin%in_rev%list_elem_of_In Hb%bool_decide_eq_true]. 
    symmetry. by apply Hk.
  - destruct (last l1) as [k|] eqn:El; [|done]. assert (k ∈ l1 ++ i :: l2) as Hin.
    { apply last_Some in El as [l ->]. rewrite !elem_of_app, elem_of_cons. tauto. }
    pose proof (find_none _ _ E k) as Hno. cbn beta in Hno. rewrite bool_decide_eq_false in Hno.
    destruct Hno; [|by apply Hk]. apply in_rev. rewrite rev_involutive. by apply list_elem_of_In.
Qed.

(** Deletion unlinks the element and touches nothing else. *)
Lemma linked_delete t l1 i l2 : linked t (l1 ++ i :: l2) -> linked (hash_delete t i) (l1 ++ l2).
Proof.
  intros Hl. unfold hash_delete. rewrite (linked_prev t l1 i l2 Hl), (linked_next t l1 i l2 Hl).
  pose proof (lk_nodup _ _ Hl) as Hnd. apply NoDup_app in Hnd as (Hn1 & Hdis & Hn2). apply NoDup_cons in Hn2 as [Hi2 Hn2].
  assert (i ∉ l1) as Hi1 by (intros Hin; apply (Hdis i Hin); by left).
  assert (NoDup (l1 ++ l2)) as Hnd by (apply NoDup_app; split_and!; [done| |done]; intros k Hk Hk2; apply (Hdis k Hk); by right).
  assert (List.filter (fun k => negb (Nat.eqb k i)) (rev (l1 ++ i :: l2)) = rev (l1 ++ l2)) as Hch.
  { assert (forall l, i ∉ l -> List.filter (fun k => negb (Nat.eqb k i)) l = l) as Hf.
    { induction l as [|k l IH]; [done|]. rewrite not_elem_of_cons. intros [Hk Hni]. cbn.
      destruct (Nat.eqb_spec k i); [congruence|]. cbn. by rewrite IH. }
    rewrite !rev_app_distr. cbn [rev]. rewrite !List.filter_app. cbn. rewrite Nat.eqb_refl. cbn.
    rewrite !Hf by (intros Hin; apply list_elem_of_In, in_rev, list_elem_of_In in Hin; done). by rewrite app_nil_r. }
  assert (forall n k, (l1 ++ l2) !! n = Some k -> S n <> length l1 ->
    exists e, entries t !! k = Some e /\ e_next e = (l1 ++ l2) !! S n) as Hnext.
  { intros n k Hnk Hn. destruct (decide (n < length l1)%nat) as [Hlt|Hge].
    - rewrite lookup_app_l in Hnk by done. destruct (lk_next _ _ Hl n k) as (e & He & Hx); [by rewrite lookup_app_l|].
      exists e. split; [done|]. rewrite Hx. by rewrite !lookup_app_l by lia.
    - rewrite lookup_app_r in Hnk by lia. destruct (lk_next _ _ Hl (S n) k) as (e & He & Hx).
      { rewrite lookup_app_r by lia. by replace (S n - length l1)%nat with (S (n - length l1)) by lia. }
      exists e. split; [done|]. rewrite Hx, !lookup_app_r by lia.
      by replace (S (S n) - length l1)%nat with (S (S n - length l1)) by lia. }
  destruct (last l1) as [pr|] eqn:Ep.
  - destruct (lookup_last_app l1 l2 pr Ep) as (m & Hm & Hpr).
    assert (pr ∈ l1) as Hin by (apply last_Some in Ep as [l ->]; rewrite elem_of_app, elem_of_cons; tauto).
    assert (l1 ++ l2 <> []) as Hne by (destruct l1; [by apply elem_of_nil in Hin|done]).
    split; cbn [t_head t_tail num_items chain entries].
    + done.
    + rewrite (lk_head _ _ Hl). by destruct l1.
    + intros _. pose proof (lk_tail _ _ Hl ltac:(by destruct l1)) as Ht. destruct l2 as [|k l2].
      * rewrite last_app in Ht. cbn in Ht. injection Ht as Ht. rewrite <- Ht, Nat.eqb_refl, app_nil_r. done.
      * rewrite last_app, last_cons_cons in Ht. rewrite last_app. destruct (Nat.eqb_spec (t_tail t) i) as [He|_].
        -- destruct Hi2. rewrite <- He. destruct (last (k :: l2)) as [x|] eqn:El; [|by apply last_None in El].
           injection Ht as <-. apply last_Some in El as [l El]. rewrite El, elem_of_app, elem_of_cons; tauto.
        -- done.
    + rewrite (lk_items _ _ Hl), !length_app. cbn. lia.
    + by rewrite (lk_chain _ _ Hl).
    + intros n k Hnk. destruct (decide (S n = length l1)) as [Hn|Hn].
      * assert (n = m) as -> by lia. assert (k = pr) as -> by congruence. rewrite list_lookup_alter_eq.
        destruct (lk_next _ _ Hl m pr) as (e & -> & _); [rewrite lookup_app_l in Hpr by lia; by rewrite lookup_app_l by lia|].
        exists (set_next (head l2) e). split; [done|]. cbn. rewrite Hn, lookup_app_r, Nat.sub_diag by lia. by destruct l2.
      * rewrite list_lookup_alter_ne; [by apply Hnext|]. intros ->.
        assert (n = m); [|lia]. by eapply NoDup_lookup.
  - apply last_None in Ep as ->. cbn [app] in *.
    destruct l2 as [|k l2]; [by split|].
    split; cbn [t_head t_tail num_items chain entries head].
    + done.
    + done.
    + intros _. pose proof (lk_tail _ _ Hl ltac:(done)) as Ht. rewrite last_cons_cons in Ht.
      destruct (Nat.eqb_spec (t_tail t) i) as [He|_]; [|done]. destruct Hi2. rewrite <- He.
      apply last_Some in Ht as [l Ht]. rewrite Ht, elem_of_app, elem_of_cons. tauto.
    + rewrite (lk_items _ _ Hl). done.
    + by rewrite (lk_chain _ _ Hl).
    + intros n x Hx. by apply Hnext.
Qed.

Lemma hash_delete_get t i k : hash_get (hash_delete t i) k = hash_get t k.
Proof.
  unfold hash_get, hash_delete. destruct (hash_prev t i) as [pr|]; [|by destruct (entries t !! i ≫= e_next)].
  cbn [entries]. destruct (decide (k = pr)) as [->|Hne]; [|by rewrite list_lookup_alter_ne].
  rewrite list_lookup_alter_eq. by destruct (entries t !! pr).
Qed.

Lemma hash_delete_key t i k x : has_key (hash_delete t i) k x = has_key t k x.
Proof.
  unfold has_key, hash_delete. destruct (hash_prev t i) as [pr|]; [|by destruct (entries t !! i ≫= e_next)].
  cbn [entries]. destruct (decide (x = pr)) as [->|Hne]; [|by rewrite list_lookup_alter_ne].
  rewrite list_lookup_alter_eq. by destruct (entries t !! pr).
Qed.

Lemma hash_find_linked t ord k : linked t ord -> hash_find t k = find (has_key t k) (rev ord).
Proof. intros Hl. unfold hash_find. rewrite (lk_head _ _ Hl), (lk_chain _ _ Hl). by destruct ord. Qed.

Lemma find_skip {A} (f : A -> bool) l1 x l2 : f x = false -> find f (l1 ++ x :: l2) = find f (l1 ++ l2).
Proof. intros Hx. induction l1 as [|y l1 IH]; cbn; [by rewrite Hx|]. by rewrite IH. Qed.

Lemma find_ext_in {A} (f g : A -> bool) l : (forall x, f x = g x) -> find f l = find g l.
Proof. intros H. induction l as [|x l IH]; [done|]. cbn. by rewrite H, IH. Qed.

(** Other keys are found where they were; the key of the element is not, when
    no other element has it. *)
Lemma hash_lookup_delete t l1 i l2 k : linked t (l1 ++ i :: l2) ->
  (forall x, x ∈ l1 ++ l2 -> has_key t k i = true -> has_key t k x = false) ->
  hash_lookup (hash_delete t i) k = if has_key t k i then None else hash_lookup t k.
Proof.
  intros Hl Hu. unfold hash_lookup. rewrite (hash_find_linked _ _ k (linked_delete t l1 i l2 Hl)), (hash_find_linked _ _ k Hl).
  rewrite (find_ext_in _ (has_key t k)) by apply hash_delete_key.
  destruct (has_key t k i) eqn:E.
  - destruct (find (has_key t k) (rev (l1 ++ l2))) as [x|] eqn:Ef; [|done].
    apply find_some in Ef as [Hx%in_rev%list_elem_of_In Hk]. rewrite (Hu x Hx eq_refl) in Hk. done.
  - rewrite !rev_app_distr. cbn [rev]. rewrite <- app_assoc. cbn [app]. rewrite find_skip by done.
    destruct (find _ _) as [x|]; [|done]. cbn. by rewrite hash_delete_get.
Qed.

Lemma linked_add t ord k v : linked t ord -> linked (hash_add t k v) (ord ++ [length (entries t)]).
Proof.
  intros Hl. pose proof (fun i => linked_lt t ord i Hl) as Hlt.
  assert (t_head t = None <-> ord = []) as Hnil by (rewrite (lk_head _ _ Hl); by destruct ord).
  unfold hash_add, hash_link. cbn [entries t_head t_tail num_items chain]. rewrite alter_app_last.
  destruct (t_head t) as [h|] eqn:Eh.
  - assert (ord <> []) as Hne by (intros H; apply Hnil in H; done).
    pose proof (lk_tail _ _ Hl Hne) as Ht. apply last_Some in Ht as [l Hord].
    assert (t_tail t ∈ ord) as Hin by (rewrite Hord, elem_of_app, elem_of_cons; tauto). apply Hlt in Hin as Htl.
    split; cbn [t_head t_tail num_items chain entries].
    + apply NoDup_app. split_and!; [apply Hl| |apply NoDup_singleton]. intros x Hx ->%list_elem_of_singleton.
      specialize (Hlt _ Hx). lia.
    + rewrite <- Eh, (lk_head _ _ Hl). by destruct ord.
    + intros _. by rewrite last_app.
    + rewrite (lk_items _ _ Hl), length_app. cbn. lia.
    + by rewrite (lk_chain _ _ Hl), rev_app_distr.
    + intros n x Hx. rewrite alter_app_l by done. destruct (decide (n < length ord)%nat) as [Hn|Hn].
      * rewrite lookup_app_l in Hx by done. destruct (lk_next _ _ Hl n x Hx) as (e & He & Hxe).
        assert (x < length (entries t))%nat as Hxl by (by eapply lookup_lt_Some).
        rewrite lookup_app_l by (by rewrite length_alter).
        destruct (decide (x = t_tail t)) as [->|Hxt].
        -- rewrite list_lookup_alter_eq, He. exists (set_next (Some (length (entries t))) e). split; [done|]. cbn.
           assert (n = length l) as -> by (eapply NoDup_lookup; [apply Hl|exact Hx|rewrite Hord; apply lookup_middle]).
           rewrite Hord, <- app_assoc. rewrite lookup_app_r by lia. by replace (S (length l) - length l)%nat with 1%nat by lia.
        -- rewrite list_lookup_alter_ne, He by done. exists e. split; [done|]. rewrite Hxe.
           destruct (decide (S n < length ord)%nat); [by rewrite lookup_app_l|].
           destruct Hxt. rewrite Hord in Hx. rewrite Hord, length_app in Hn. cbn in Hn.
           assert (n = length l) as -> by (rewrite Hord, length_app in n0; cbn in n0; lia).
           rewrite lookup_middle in Hx. by injection Hx.
      * rewrite lookup_app_r in Hx by lia. apply list_lookup_singleton_Some in Hx as [Hn0 <-].
        assert (n = length ord) as -> by lia. exists (mk_entry v k None). split.
        -- rewrite lookup_app_r by (by rewrite length_alter). by rewrite length_alter, Nat.sub_diag.
        -- cbn. symmetry. apply lookup_ge_None. rewrite length_app. cbn. lia.
  - rewrite (proj1 Hnil eq_refl). split; cbn [t_head t_tail num_items chain entries]; try done.
    + apply NoDup_singleton.
    + intros [|n] x Hx; [|done]. injection Hx as <-. exists (mk_entry v k None). split; [|done].
      by rewrite lookup_app_r, Nat.sub_diag by lia.
Qed.

(** What a table holds at an address, but for the link. *)
Definition contents t (x : nat) : option (V * cstring) := (fun e => (e_val e, e_key e)) <$> entries t !! x.

Lemma hash_add_contents t ord k v x : linked t ord -> (x <= length (entries t))%nat ->
  contents (hash_add t k v) x = if decide (x = length (entries t)) then Some (v, k) else contents t x.
Proof.
  intros Hl Hx. unfold contents, hash_add, hash_link. cbn [entries t_head t_tail]. rewrite alter_app_last.
  assert ((fun e => (e_val e, e_key e)) <$> (entries t ++ [mk_entry v k None]) !! x =
    if decide (x = length (entries t)) then Some (v, k) else (fun e => (e_val e, e_key e)) <$> entries t !! x) as H.
  { case_decide as He; [subst x; by rewrite lookup_middle|by rewrite lookup_app_l by lia]. }
  destruct (t_head t) as [h|]; cbn [entries]; [|exact H]. rewrite <- H.
  destruct (decide (x = t_tail t)) as [->|Hne]; [|by rewrite list_lookup_alter_ne].
  rewrite list_lookup_alter_eq. cbn [e_val e_key]. by destruct ((entries t ++ [mk_entry v k None]) !! t_tail t).
Qed.

Lemma has_key_contents t k x : has_key t k x = match contents t x with Some (_, k') => bool_decide (k' = k) | None => false end.
Proof. unfold has_key, contents. by destruct (entries t !! x). Qed.

Lemma hash_get_contents t x : hash_get t x = fst <$> contents t x.
Proof. unfold hash_get, contents. by destruct (entries t !! x). Qed.

(** After an insertion the key is found with the new value, other keys as before. *)
Lemma hash_lookup_add_linked t ord k v k' : linked t ord ->
  hash_lookup (hash_add t k v) k' = if bool_decide (k' = k) then Some v else hash_lookup t k'.
Proof.
  intros Hl. unfold hash_lookup. rewrite (hash_find_linked _ _ k' (linked_add t ord k v Hl)), (hash_find_linked _ _ k' Hl).
  rewrite rev_app_distr. cbn [rev app find].
  rewrite has_key_contents, (hash_add_contents t ord) by done. rewrite decide_True by done.
  case_bool_decide as Hk.
  - subst. rewrite bool_decide_eq_true_2 by done. cbn. rewrite hash_get_contents, (hash_add_contents t ord) by done.
    by rewrite decide_True.
  - rewrite bool_decide_eq_false_2 by done.
    assert (forall l, (forall x, x ∈ l -> x ∈ ord) ->
      find (has_key (hash_add t k v) k') l ≫= hash_get (hash_add t k v) = find (has_key t k') l ≫= hash_get t) as H.
    { induction l as [|x l IH]; intros Hin; [done|]. pose proof (linked_lt t ord x Hl (Hin x ltac:(by left))) as Hlt.
      assert (contents (hash_add t k v) x = contents t x) as Hc by (rewrite (hash_add_contents t ord) by (done || lia); by rewrite decide_False by lia).
      cbn [find]. rewrite !has_key_contents, Hc. rewrite <- has_key_contents. destruct (has_key t k' x).
      - cbn. by rewrite !hash_get_contents, Hc.
      - apply IH. intros y Hy. apply Hin. by right. }
    apply H. intros x Hx. by apply list_elem_of_In, in_rev, list_elem_of_In.
Qed.
End deletion.
