(* ===== verification/Pkg.v ===== *)
(** * The package object (libpkg/pkg.c, libpkg/pkg_attributes.c, private/pkg.h)

    A [pkg] has a UCL object of scalar attributes ([fields], keyed by the
    names of [pkg_keys]), the scripts, and one uthash table per kind of list
    attribute.  The operations are the [pkg_add...], [pkg_set], [pkg_get],
    [pkg_list_...] and [pkg_reset] functions.  They return [None] where the C
    code fails an assertion or has undefined behaviour (a NULL dereference, a
    double free), and the error code with the new object otherwise; memory
    allocation does not fail.  [dev] is the DEVELOPER_MODE setting. *)
From S2P Require Import Prelude CString UtHash.

(** ** Data *)

Inductive pkg_error_t :=
  | EPKG_OK | EPKG_END | EPKG_WARN | EPKG_FATAL | EPKG_REQUIRED | EPKG_INSTALLED
  | EPKG_DEPENDENCY | EPKG_LOCKED | EPKG_ENODB | EPKG_UPTODATE | EPKG_UNKNOWN
  | EPKG_REPOSCHEMA | EPKG_ENOACCESS | EPKG_INSECURE | EPKG_CONFLICT | EPKG_AGAIN.

#[export] Instance pkg_error_eq_dec : EqDecision pkg_error_t.
Proof. solve_decision. Defined.

Inductive pkg_t := PKG_NONE | PKG_FILE | PKG_STREAM | PKG_REMOTE | PKG_INSTALLED | PKG_OLD_FILE.

#[export] Instance pkg_t_eq_dec : EqDecision pkg_t.
Proof. solve_decision. Defined.

(** UCL objects.  A number with a fraction and a time are doubles, [m * 2 ^ e].
    The elements of an object are in the order of their insertion; more than
    one under the same key are the implicit array of that key. *)
#[warnings="-register-all"]
Inductive ucl :=
  | UString (s : cstring) | UInt (z : Z) | UBool (b : bool)
  | UArray (l : list ucl) | UObject (l : list (cstring * ucl))
  | UFloat (m e : Z) | UTime (m e : Z) | UNull.

Inductive ucl_type := UCL_OBJECT | UCL_ARRAY | UCL_INT | UCL_STRING | UCL_BOOLEAN.

(** Attribute codes. *)
Definition PKG_ORIGIN : nat := 1.
Definition PKG_NAME : nat := 2.
Definition PKG_VERSION : nat := 3.
Definition PKG_COMMENT : nat := 4.
Definition PKG_DESC : nat := 5.
Definition PKG_MTREE : nat := 6.
Definition PKG_MESSAGE : nat := 7.
Definition PKG_ARCH : nat := 8.
Definition PKG_MAINTAINER : nat := 9.
Definition PKG_WWW : nat := 10.
Definition PKG_PREFIX : nat := 11.
Definition PKG_REPOPATH : nat := 12.
Definition PKG_CKSUM : nat := 13.
Definition PKG_OLD_VERSION : nat := 14.
Definition PKG_REPONAME : nat := 15.
Definition PKG_REPOURL : nat := 16.
Definition PKG_DIGEST : nat := 17.
Definition PKG_REASON : nat := 18.
Definition PKG_FLATSIZE : nat := 19.
Definition PKG_OLD_FLATSIZE : nat := 20.
Definition PKG_PKGSIZE : nat := 21.
Definition PKG_LICENSE_LOGIC : nat := 22.
Definition PKG_AUTOMATIC : nat := 23.
Definition PKG_LOCKED : nat := 24.
Definition PKG_ROWID : nat := 25.
Definition PKG_TIME : nat := 26.
Definition PKG_ANNOTATIONS : nat := 27.
Definition PKG_LICENSES : nat := 28.
Definition PKG_CATEGORIES : nat := 29.
Definition PKG_UNIQUEID : nat := 30.
Definition PKG_OLD_DIGEST : nat := 31.
Definition PKG_NUM_FIELDS : nat := 32.

(** Indexed by attribute code; code 0 is not an attribute. *)
Definition pkg_keys : list (cstring * ucl_type) :=
  [ (str "", UCL_OBJECT);
    (str "origin", UCL_STRING); (str "name", UCL_STRING); (str "version", UCL_STRING);
    (str "comment", UCL_STRING); (str "desc", UCL_STRING); (str "mtree", UCL_STRING);
    (str "message", UCL_STRING); (str "arch", UCL_STRING); (str "maintainer", UCL_STRING);
    (str "www", UCL_STRING); (str "prefix", UCL_STRING); (str "repopath", UCL_STRING);
    (str "sum", UCL_STRING); (str "oldversion", UCL_STRING); (str "reponame", UCL_STRING);
    (str "repourl", UCL_STRING); (str "digest", UCL_STRING); (str "reason", UCL_STRING);
    (str "flatsize", UCL_INT); (str "oldflatsize", UCL_INT); (str "pkgsize", UCL_INT);
    (str "licenselogic", UCL_INT); (str "automatic", UCL_BOOLEAN); (str "locked", UCL_BOOLEAN);
    (str "rowid", UCL_INT); (str "time", UCL_INT); (str "annotations", UCL_OBJECT);
    (str "licenses", UCL_ARRAY); (str "categories", UCL_ARRAY); (str "uniqueid", UCL_STRING);
    (str "olddigest", UCL_STRING) ].

Record pkg_dep := mk_dep {
  dep_origin : cstring; dep_name : cstring; dep_version : cstring;
  dep_uid : cstring; dep_locked : bool }.

Record pkg_file := mk_file {
  f_path : cstring; f_sum : cstring; f_uname : cstring; f_gname : cstring; f_perm : Z }.

Record pkg_dir := mk_dir {
  d_path : cstring; d_uname : cstring; d_gname : cstring; d_perm : Z; d_try : bool }.

(** An absent string buffer is [None]. *)
Record pkg_option := mk_option {
  o_key : option cstring; o_value : option cstring;
  o_default_value : option cstring; o_description : option cstring }.

Record pkg_user := mk_user { u_name : cstring; u_uidstr : cstring }.
Record pkg_group := mk_group { g_name : cstring; g_gidstr : cstring }.

Inductive pkg_script :=
  | PKG_SCRIPT_PRE_INSTALL | PKG_SCRIPT_POST_INSTALL | PKG_SCRIPT_PRE_DEINSTALL
  | PKG_SCRIPT_POST_DEINSTALL | PKG_SCRIPT_PRE_UPGRADE | PKG_SCRIPT_POST_UPGRADE
  | PKG_SCRIPT_INSTALL | PKG_SCRIPT_DEINSTALL | PKG_SCRIPT_UPGRADE | PKG_SCRIPT_UNKNOWN.

#[export] Instance pkg_script_eq_dec : EqDecision pkg_script.
Proof. solve_decision. Defined.

Definition script_index (s : pkg_script) : nat :=
  match s with
  | PKG_SCRIPT_PRE_INSTALL => 0 | PKG_SCRIPT_POST_INSTALL => 1
  | PKG_SCRIPT_PRE_DEINSTALL => 2 | PKG_SCRIPT_POST_DEINSTALL => 3
  | PKG_SCRIPT_PRE_UPGRADE => 4 | PKG_SCRIPT_POST_UPGRADE => 5
  | PKG_SCRIPT_INSTALL => 6 | PKG_SCRIPT_DEINSTALL => 7
  | PKG_SCRIPT_UPGRADE => 8 | PKG_SCRIPT_UNKNOWN => 9
  end%nat.

Definition PKG_NUM_SCRIPTS : nat := 9.

Inductive pkg_conflict_type :=
  | PKG_CONFLICT_ALL | PKG_CONFLICT_REMOTE_LOCAL | PKG_CONFLICT_REMOTE_REMOTE | PKG_CONFLICT_LOCAL_LOCAL.

#[export] Instance pkg_conflict_type_eq_dec : EqDecision pkg_conflict_type.
Proof. solve_decision. Defined.

Record pkg_conflict := mk_conflict { c_uniqueid : cstring; c_type : pkg_conflict_type }.

(** Shared libraries and provides are their names. *)
Record pkg := mk_pkg {
  fields : gmap cstring ucl;
  scripts : list (option cstring);
  deps : table pkg_dep;
  rdeps : table pkg_dep;
  files : table pkg_file;
  dirs : table pkg_dir;
  options : table pkg_option;
  users : table pkg_user;
  groups : table pkg_group;
  shlibs_required : table cstring;
  shlibs_provided : table cstring;
  conflicts : table pkg_conflict;
  provides : table cstring;
  flags : Z;
  rootfd : Z;
  type : pkg_t }.

Definition set_fields (p : pkg) x := mk_pkg x (scripts p) (deps p) (rdeps p) (files p) (dirs p)
  (options p) (users p) (groups p) (shlibs_required p) (shlibs_provided p) (conflicts p)
  (provides p) (flags p) (rootfd p) (type p).
Definition set_scripts (p : pkg) x := mk_pkg (fields p) x (deps p) (rdeps p) (files p) (dirs p)
  (options p) (users p) (groups p) (shlibs_required p) (shlibs_provided p) (conflicts p)
  (provides p) (flags p) (rootfd p) (type p).
Definition set_deps (p : pkg) x := mk_pkg (fields p) (scripts p) x (rdeps p) (files p) (dirs p)
  (options p) (users p) (groups p) (shlibs_required p) (shlibs_provided p) (conflicts p)
  (provides p) (flags p) (rootfd p) (type p).
Definition set_rdeps (p : pkg) x := mk_pkg (fields p) (scripts p) (deps p) x (files p) (dirs p)
  (options p) (users p) (groups p) (shlibs_required p) (shlibs_provided p) (conflicts p)
  (provides p) (flags p) (rootfd p) (type p).
Definition set_files (p : pkg) x := mk_pkg (fields p) (scripts p) (deps p) (rdeps p) x (dirs p)
  (options p) (users p) (groups p) (shlibs_required p) (shlibs_provided p) (conflicts p)
  (provides p) (flags p) (rootfd p) (type p).
Definition set_dirs (p : pkg) x := mk_pkg (fields p) (scripts p) (deps p) (rdeps p) (files p) x
  (options p) (users p) (groups p) (shlibs_required p) (shlibs_provided p) (conflicts p)
  (provides p) (flags p) (rootfd p) (type p).
Definition set_options (p : pkg) x := mk_pkg (fields p) (scripts p) (deps p) (rdeps p) (files p)
  (dirs p) x (users p) (groups p) (shlibs_required p) (shlibs_provided p) (conflicts p)
  (provides p) (flags p) (rootfd p) (type p).
Definition set_users (p : pkg) x := mk_pkg (fields p) (scripts p) (deps p) (rdeps p) (files p)
  (dirs p) (options p) x (groups p) (shlibs_required p) (shlibs_provided p) (conflicts p)
  (provides p) (flags p) (rootfd p) (type p).
Definition set_groups (p : pkg) x := mk_pkg (fields p) (scripts p) (deps p) (rdeps p) (files p)
  (dirs p) (options p) (users p) x (shlibs_required p) (shlibs_provided p) (conflicts p)
  (provides p) (flags p) (rootfd p) (type p).
Definition set_shlibs_required (p : pkg) x := mk_pkg (fields p) (scripts p) (deps p) (rdeps p)
  (files p) (dirs p) (options p) (users p) (groups p) x (shlibs_provided p) (conflicts p)
  (provides p) (flags p) (rootfd p) (type p).
Definition set_shlibs_provided (p : pkg) x := mk_pkg (fields p) (scripts p) (deps p) (rdeps p)
  (files p) (dirs p) (options p) (users p) (groups p) (shlibs_required p) x (conflicts p)
  (provides p) (flags p) (rootfd p) (type p).
Definition set_conflicts (p : pkg) x := mk_pkg (fields p) (scripts p) (deps p) (rdeps p) (files p)
  (dirs p) (options p) (users p) (groups p) (shlibs_required p) (shlibs_provided p) x
  (provides p) (flags p) (rootfd p) (type p).
Definition set_provides (p : pkg) x := mk_pkg (fields p) (scripts p) (deps p) (rdeps p) (files p)
  (dirs p) (options p) (users p) (groups p) (shlibs_required p) (shlibs_provided p)
  (conflicts p) x (flags p) (rootfd p) (type p).
Definition set_flags (p : pkg) x := mk_pkg (fields p) (scripts p) (deps p) (rdeps p) (files p)
  (dirs p) (options p) (users p) (groups p) (shlibs_required p) (shlibs_provided p)
  (conflicts p) (provides p) x (rootfd p) (type p).
Definition set_rootfd (p : pkg) x := mk_pkg (fields p) (scripts p) (deps p) (rdeps p) (files p)
  (dirs p) (options p) (users p) (groups p) (shlibs_required p) (shlibs_provided p)
  (conflicts p) (provides p) (flags p) x (type p).
Definition set_type (p : pkg) x := mk_pkg (fields p) (scripts p) (deps p) (rdeps p) (files p)
  (dirs p) (options p) (users p) (groups p) (shlibs_required p) (shlibs_provided p)
  (conflicts p) (provides p) (flags p) (rootfd p) x.

(** ** Strings *)

(** [s != NULL && s[0] != '\0'] on a string that is not NULL. *)
Definition nonempty (s : cstring) : bool := negb (Nat.eqb (length s) 0).

(** strlcpy into a buffer of [size] bytes. *)
Definition strlcpy (s : cstring) (size : nat) : cstring := take (pred size) s.

Definition MAXLOGNAME : nat := 33.
Definition MAXPATHLEN : nat := 1024.
Definition SUM_SIZE : nat := 65.
Definition IDSTR_SIZE : nat := Z.to_nat 8192.

(** lic_t *)
Definition LICENSE_OR : Z := 124.
Definition LICENSE_AND : Z := 38.
Definition LICENSE_SINGLE : Z := 1.

Definition sbuf_get (b : option cstring) : cstring := default [] b.

(** sbuf_set: a NULL string allocates the buffer and leaves its text. *)
Definition sbuf_set (b : option cstring) (s : option cstring) : option cstring :=
  match s with
  | Some s => Some s
  | None => Some (default [] b)
  end.

(** sbuf_reset *)
Definition sbuf_reset (b : option cstring) : option cstring := (fun _ => []) <$> b.

(** The answer to a duplicate entry. *)
Definition duplicate (dev : bool) : pkg_error_t := if dev then EPKG_FATAL else EPKG_OK.

(** ** Creation, reset *)

Definition PKG_LOAD_BASIC : Z := 0.
Definition PKG_LOAD_DEPS : Z := 2 ^ 0.
Definition PKG_LOAD_RDEPS : Z := 2 ^ 1.
Definition PKG_LOAD_FILES : Z := 2 ^ 2.
Definition PKG_LOAD_OPTIONS : Z := 2 ^ 4.
Definition PKG_LOAD_DIRS : Z := 2 ^ 6.
Definition PKG_LOAD_CATEGORIES : Z := 2 ^ 7.
Definition PKG_LOAD_LICENSES : Z := 2 ^ 8.
Definition PKG_LOAD_USERS : Z := 2 ^ 9.
Definition PKG_LOAD_GROUPS : Z := 2 ^ 10.
Definition PKG_LOAD_SHLIBS_REQUIRED : Z := 2 ^ 11.
Definition PKG_LOAD_SHLIBS_PROVIDED : Z := 2 ^ 12.
Definition PKG_LOAD_ANNOTATIONS : Z := 2 ^ 13.
Definition PKG_LOAD_CONFLICTS : Z := 2 ^ 14.
Definition PKG_LOAD_PROVIDES : Z := 2 ^ 15.

Definition pkg_new (t : pkg_t) : pkg :=
  mk_pkg ∅ (replicate PKG_NUM_SCRIPTS None) table_empty table_empty table_empty table_empty
    table_empty table_empty table_empty table_empty table_empty table_empty table_empty
    0 (-1) t.

Inductive pkg_list :=
  | PKG_DEPS | PKG_RDEPS | PKG_OPTIONS | PKG_FILES | PKG_DIRS | PKG_USERS | PKG_GROUPS
  | PKG_SHLIBS_REQUIRED | PKG_SHLIBS_PROVIDED | PKG_CONFLICTS | PKG_PROVIDES.

#[export] Instance pkg_list_eq_dec : EqDecision pkg_list.
Proof. solve_decision. Defined.

Definition pkg_list_count (p : pkg) (l : pkg_list) : nat :=
  match l with
  | PKG_DEPS => hash_count (deps p)
  | PKG_RDEPS => hash_count (rdeps p)
  | PKG_OPTIONS => hash_count (options p)
  | PKG_FILES => hash_count (files p)
  | PKG_DIRS => hash_count (dirs p)
  | PKG_USERS => hash_count (users p)
  | PKG_GROUPS => hash_count (groups p)
  | PKG_SHLIBS_REQUIRED => hash_count (shlibs_required p)
  | PKG_SHLIBS_PROVIDED => hash_count (shlibs_provided p)
  | PKG_CONFLICTS => hash_count (conflicts p)
  | PKG_PROVIDES => hash_count (provides p)
  end.

(** [pkg->flags &= ~flag] *)
Definition clear_flag (p : pkg) (flag : Z) : pkg := set_flags p (Z.land (flags p) (Z.lnot flag)).

(** HASH_FREE deletes and frees every element and clears the head. *)
Definition pkg_list_free (p : pkg) (l : pkg_list) : pkg :=
  match l with
  | PKG_DEPS => clear_flag (set_deps p table_empty) PKG_LOAD_DEPS
  | PKG_RDEPS => clear_flag (set_rdeps p table_empty) PKG_LOAD_RDEPS
  | PKG_OPTIONS => clear_flag (set_options p table_empty) PKG_LOAD_OPTIONS
  | PKG_FILES => clear_flag (set_files p table_empty) PKG_LOAD_FILES
  | PKG_DIRS => clear_flag (set_dirs p table_empty) PKG_LOAD_DIRS
  | PKG_USERS => clear_flag (set_users p table_empty) PKG_LOAD_USERS
  | PKG_GROUPS => clear_flag (set_groups p table_empty) PKG_LOAD_GROUPS
  | PKG_SHLIBS_REQUIRED => clear_flag (set_shlibs_required p table_empty) PKG_LOAD_SHLIBS_REQUIRED
  | PKG_SHLIBS_PROVIDED => clear_flag (set_shlibs_provided p table_empty) PKG_LOAD_SHLIBS_PROVIDED
  | PKG_CONFLICTS => clear_flag (set_conflicts p table_empty) PKG_LOAD_CONFLICTS
  | PKG_PROVIDES => clear_flag (set_provides p table_empty) PKG_LOAD_PROVIDES
  end.

Definition pkg_reset (p : pkg) (t : pkg_t) : pkg :=
  let p := set_fields p ∅ in
  let p := clear_flag p PKG_LOAD_CATEGORIES in
  let p := clear_flag p PKG_LOAD_LICENSES in
  let p := clear_flag p PKG_LOAD_ANNOTATIONS in
  let p := set_scripts p (map sbuf_reset (scripts p)) in
  let p := fold_left pkg_list_free
    [ PKG_DEPS; PKG_RDEPS; PKG_FILES; PKG_DIRS; PKG_OPTIONS; PKG_USERS; PKG_GROUPS;
      PKG_SHLIBS_REQUIRED; PKG_SHLIBS_PROVIDED; PKG_PROVIDES ] p in
  set_type (set_rootfd p (-1)) t.

(** ** Scalar attributes *)

(** What the varargs of pkg_set carry; a NULL pointer is [None]. *)
Inductive set_arg :=
  | ArgString (s : option cstring) | ArgBool (b : bool) | ArgInt (z : Z) | ArgObject (o : option ucl).

(** What pkg_get stores through its pointer arguments. *)
Inductive get_result :=
  | GotString (s : option cstring) | GotBool (b : bool) | GotInt (z : Z) | GotObject (o : option ucl).

(** ucl_object_toboolean, ucl_object_toint; a double is truncated. *)
Definition ucl_object_toboolean (o : ucl) : bool := match o with UBool b => b | _ => false end.
Definition ucl_object_toint (o : ucl) : Z :=
  match o with
  | UInt z => z
  | UFloat m e | UTime m e => if 0 <=? e then m * 2 ^ e else Z.quot m (2 ^ (- e))
  | _ => 0
  end.

(** ucl_object_tostring: NULL unless the object is a string. *)
Definition ucl_object_tostring (o : ucl) : option cstring :=
  match o with UString s => Some s | _ => None end.

(** The elements ucl_iterate_object visits when it expands values. *)
Definition ucl_elements (o : option ucl) : list ucl :=
  match o with
  | None => []
  | Some (UArray l) => l
  | Some (UObject l) => map snd l
  | Some o => [o]
  end.

(** ucl_object_replace_key; inserting NULL does nothing. *)
Definition ucl_object_replace_key (top : gmap cstring ucl) (o : option ucl) (key : cstring)
  : gmap cstring ucl :=
  match o with Some o => <[key := o]> top | None => top end.

Definition MTREE_MARK : cstring := str "#mtree".

(** [STARTS_WITH(str, "#mtree")] *)
Definition starts_with_mtree (s : cstring) : bool :=
  strncmp s MTREE_MARK (length MTREE_MARK) =? 0.

(** One attribute of pkg_vset.  [buf] says whether the local [buf] is set: it
    is freed after every string attribute and never cleared, so a second
    string attribute frees it again. *)
Definition vset_one (buf : bool) (p : pkg) (attr : nat) (a : set_arg) : option (bool * pkg) :=
  '(name, ty) ← pkg_keys !! attr;
  match ty, a with
  | UCL_STRING, ArgString s =>
      match (if Nat.eqb attr PKG_MTREE then
               match s with
               | None => None
               | Some s =>
                   Some (if starts_with_mtree s then (false, Some s)
                         else (true, Some (str "#mtree" ++ [chr 10] ++ s)))
               end
             else Some (false, s)) with
      | None => None
      | Some (printed, data) =>
          let p := set_fields p
            match data with
            | None => delete name (fields p)
            | Some data => ucl_object_replace_key (fields p) (Some (UString data)) name
            end in
          if buf && negb printed then None else Some (buf || printed, p)
      end
  | UCL_BOOLEAN, ArgBool b =>
      Some (buf, set_fields p (ucl_object_replace_key (fields p) (Some (UBool b)) name))
  | UCL_INT, ArgInt z =>
      Some (buf, set_fields p (ucl_object_replace_key (fields p) (Some (UInt z)) name))
  | UCL_OBJECT, ArgObject o | UCL_ARRAY, ArgObject o =>
      Some (buf, set_fields p (ucl_object_replace_key (fields p) o name))
  | _, _ => None
  end.

Fixpoint vset_loop (buf : bool) (p : pkg) (ap : list (nat * set_arg)) : option (pkg_error_t * pkg) :=
  match ap with
  | [] => Some (EPKG_OK, p)
  | (attr, a) :: ap =>
      if Nat.eqb attr 0 then Some (EPKG_OK, p)
      else if (PKG_NUM_FIELDS <=? attr)%nat then Some (EPKG_FATAL, p)
      else '(buf, p) ← vset_one buf p attr a; vset_loop buf p ap
  end.

Definition pkg_vset (p : pkg) (ap : list (nat * set_arg)) : option (pkg_error_t * pkg) :=
  vset_loop false p ap.

(** pkg_set of one attribute. *)
Definition pkg_set (p : pkg) (attr : nat) (a : set_arg) : option (pkg_error_t * pkg) :=
  pkg_vset p [(attr, a)].

Definition pkg_set_mtree (p : pkg) (mtree : option cstring) : option (pkg_error_t * pkg) :=
  pkg_set p PKG_MTREE (ArgString mtree).

(** Drops the newlines at the end of the buffer; reading before the start of
    an empty buffer is undefined ([None]). *)
Fixpoint trim_newlines (rev_buf : cstring) : option cstring :=
  match rev_buf with
  | [] => None
  | c :: r => if Ascii.eqb c (chr 10) then trim_newlines r else Some (rev rev_buf)
  end.

(** pkg_set_from_file and pkg_set_from_fileat; [buf] is what
    file_to_buffer(at) answers. *)
Definition pkg_set_from_file (p : pkg) (attr : nat) (buf : pkg_error_t + cstring) (trimcr : bool)
  : option (pkg_error_t * pkg) :=
  match buf with
  | inl ret => Some (ret, p)
  | inr buf =>
      buf ← (if trimcr then trim_newlines (rev buf) else Some buf);
      pkg_set p attr (ArgString (Some buf))
  end.

Section get.
(** libucl's text of an object that is not a string. *)
Context (emit_single_json : ucl -> cstring).

Definition ucl_object_tostring_forced (o : ucl) : cstring :=
  match o with UString s => s | _ => emit_single_json o end.

Definition pkg_object_string (o : ucl) : option cstring :=
  match ucl_object_tostring_forced o with [] => None | s => Some s end.

Definition vget_one (p : pkg) (attr : nat) : option get_result :=
  '(name, ty) ← pkg_keys !! attr;
  let obj := fields p !! name in
  Some match ty with
  | UCL_STRING => GotString (ucl_object_tostring_forced <$> obj)
  | UCL_BOOLEAN => GotBool (match obj with None => false | Some o => ucl_object_toboolean o end)
  | UCL_INT => GotInt (match obj with None => 0 | Some o => ucl_object_toint o end)
  | UCL_OBJECT | UCL_ARRAY => GotObject obj
  end.

Fixpoint pkg_vget (p : pkg) (ap : list nat) : pkg_error_t * list get_result :=
  match ap with
  | [] => (EPKG_OK, [])
  | attr :: ap =>
      if Nat.eqb attr 0 then (EPKG_OK, [])
      else match (if (PKG_NUM_FIELDS <=? attr)%nat then None else vget_one p attr) with
           | None => (EPKG_FATAL, [])
           | Some r => let '(ret, rs) := pkg_vget p ap in (ret, r :: rs)
           end
  end.

(** pkg_get of one string attribute. *)
Definition pkg_get_string (p : pkg) (attr : nat) : option cstring :=
  match pkg_vget p [attr] with (_, [GotString s]) => s | _ => None end.

Definition pkg_get_bool (p : pkg) (attr : nat) : bool :=
  match pkg_vget p [attr] with (_, [GotBool b]) => b | _ => false end.

Definition pkg_get_int (p : pkg) (attr : nat) : Z :=
  match pkg_vget p [attr] with (_, [GotInt z]) => z | _ => 0 end.

Definition pkg_get_object (p : pkg) (attr : nat) : option ucl :=
  match pkg_vget p [attr] with (_, [GotObject o]) => o | _ => None end.

Definition pkg_is_locked (p : pkg) : bool := pkg_get_bool p PKG_LOCKED.

(** The search for a duplicate in pkg_addlicense and pkg_addcategory; [None]
    is the strcmp of a NULL string. *)
Fixpoint listed (name : cstring) (l : list ucl) : option bool :=
  match l with
  | [] => Some false
  | o :: l =>
      match pkg_object_string o with
      | None => None
      | Some s => if strcmp s name =? 0 then Some true else listed name l
      end
  end.

(** ucl_array_append; the array is the object found at the key of [attr]. *)
Definition array_append (p : pkg) (attr : nat) (name : cstring) : option (pkg_error_t * pkg) :=
  '(key, _) ← pkg_keys !! attr;
  match fields p !! key with
  | Some (UArray l) => Some (EPKG_OK, set_fields p (<[key := UArray (l ++ [UString name])]> (fields p)))
  | _ => None
  end.

Definition pkg_addlicense (dev : bool) (p : pkg) (name : cstring) : option (pkg_error_t * pkg) :=
  if negb (nonempty name) then None else
  found ← listed name (ucl_elements (pkg_get_object p PKG_LICENSES));
  if (found : bool) then Some (duplicate dev, p)
  else match pkg_get_object p PKG_LICENSES with
       | None =>
           '(_, p) ← pkg_set p PKG_LICENSES (ArgObject (Some (UArray [])));
           array_append p PKG_LICENSES name
       | Some _ => array_append p PKG_LICENSES name
       end.

Definition pkg_addcategory (dev : bool) (p : pkg) (name : cstring) : option (pkg_error_t * pkg) :=
  if negb (nonempty name) then None else
  found ← listed name (ucl_elements (pkg_get_object p PKG_CATEGORIES));
  if (found : bool) then Some (duplicate dev, p)
  else match pkg_get_object p PKG_CATEGORIES with
       | None =>
           '(_, p) ← pkg_set p PKG_CATEGORIES (ArgObject (Some (UArray [])));
           array_append p PKG_CATEGORIES name
       | Some _ => array_append p PKG_CATEGORIES name
       end.
End get.

(** ucl_object_find_key, ucl_object_insert_key and ucl_object_pop_keyl on the
    annotations object. *)
Definition object_find (tag : cstring) (l : list (cstring * ucl)) : option ucl :=
  snd <$> find (fun kv => bool_decide (kv.1 = tag)) l.

Definition pkg_object_find (o : option ucl) (key : cstring) : option ucl :=
  match o with Some (UObject l) => object_find key l | _ => None end.

Definition object_delete (tag : cstring) (l : list (cstring * ucl)) : list (cstring * ucl) :=
  List.filter (fun kv => negb (bool_decide (kv.1 = tag))) l.

Definition annotations (p : pkg) : option (list (cstring * ucl)) :=
  match fields p !! str "annotations" with Some (UObject l) => Some l | _ => None end.

Definition pkg_addannotation (dev : bool) (p : pkg) (tag value : cstring) : pkg_error_t * pkg :=
  match annotations p ≫= object_find tag with
  | Some _ => (if dev then EPKG_OK else EPKG_OK, p)
  | None =>
      let l := default [] (annotations p) in
      (EPKG_OK, set_fields p (<[str "annotations" := UObject (l ++ [(tag, UString value)])]> (fields p)))
  end.

Definition pkg_delannotation (p : pkg) (tag : cstring) : pkg_error_t * pkg :=
  match annotations p with
  | None => (EPKG_WARN, p)
  | Some l =>
      match object_find tag l with
      | Some _ => (EPKG_OK, set_fields p (<[str "annotations" := UObject (object_delete tag l)]> (fields p)))
      | None => (EPKG_WARN, p)
      end
  end.

(** ** Lists *)

Definition found {V} (t : table V) (key : cstring) : bool :=
  match hash_find t key with Some _ => true | None => false end.

Definition pkg_adduid (dev : bool) (p : pkg) (name : cstring) (uidstr : option cstring)
  : option (pkg_error_t * pkg) :=
  if negb (nonempty name) then None
  else if found (users p) name then Some (duplicate dev, p)
  else
    let u := mk_user (strlcpy name MAXLOGNAME)
               (match uidstr with Some s => strlcpy s IDSTR_SIZE | None => [] end) in
    Some (EPKG_OK, set_users p (hash_add (users p) (u_name u) u)).

Definition pkg_adduser (dev : bool) (p : pkg) (name : cstring) := pkg_adduid dev p name None.

Definition pkg_addgid (dev : bool) (p : pkg) (name : cstring) (gidstr : option cstring)
  : option (pkg_error_t * pkg) :=
  if negb (nonempty name) then None
  else if found (groups p) name then Some (duplicate dev, p)
  else
    let g := mk_group (strlcpy name MAXLOGNAME)
               (match gidstr with Some s => strlcpy s IDSTR_SIZE | None => [] end) in
    Some (EPKG_OK, set_groups p (hash_add (groups p) (g_name g) g)).

Definition pkg_addgroup (dev : bool) (p : pkg) (name : cstring) := pkg_addgid dev p name None.

Definition new_dep (name origin version : cstring) (locked : bool) : pkg_dep :=
  mk_dep origin name version (name ++ str "~" ++ origin) locked.

Definition pkg_adddep (dev : bool) (p : pkg) (name origin version : cstring) (locked : bool)
  : option (pkg_error_t * pkg) :=
  if negb (nonempty name && nonempty origin && nonempty version) then None
  else if found (deps p) origin then Some (duplicate dev, p)
  else
    let d := new_dep name origin version locked in
    Some (EPKG_OK, set_deps p (hash_add (deps p) (dep_origin d) d)).

Definition pkg_addrdep (p : pkg) (name origin version : cstring) (locked : bool)
  : option (pkg_error_t * pkg) :=
  if negb (nonempty name && nonempty origin && nonempty version) then None
  else
    let d := new_dep name origin version locked in
    Some (EPKG_OK, set_rdeps p (hash_add (rdeps p) (dep_origin d) d)).

Definition pkg_addfile_attr (dev : bool) (p : pkg) (path : cstring)
    (sha256 uname gname : option cstring) (perm : Z) (check_duplicates : bool)
  : option (pkg_error_t * pkg) :=
  if negb (nonempty path) then None
  else if check_duplicates && found (files p) path then Some (duplicate dev, p)
  else
    let opt s size := match s with Some s => strlcpy s size | None => [] end in
    let f := mk_file (strlcpy path MAXPATHLEN) (opt sha256 SUM_SIZE) (opt uname MAXLOGNAME)
               (opt gname MAXLOGNAME) (if perm =? 0 then 0 else perm) in
    Some (EPKG_OK, set_files p (hash_add (files p) (f_path f) f)).

Definition pkg_addfile (dev : bool) (p : pkg) (path : cstring) (sha256 : option cstring)
    (check_duplicates : bool) := pkg_addfile_attr dev p path sha256 None None 0 check_duplicates.

Definition pkg_adddir_attr (dev : bool) (p : pkg) (path : cstring) (uname gname : option cstring)
    (perm : Z) (try check_duplicates : bool) : option (pkg_error_t * pkg) :=
  if negb (nonempty path) then None
  else if check_duplicates && found (dirs p) path then Some (duplicate dev, p)
  else
    let opt s size := match s with Some s => strlcpy s size | None => [] end in
    let d := mk_dir (strlcpy path MAXPATHLEN) (opt uname MAXLOGNAME) (opt gname MAXLOGNAME)
               (if perm =? 0 then 0 else perm) try in
    Some (EPKG_OK, set_dirs p (hash_add (dirs p) (d_path d) d)).

Definition pkg_adddir (dev : bool) (p : pkg) (path : cstring) (try check_duplicates : bool) :=
  pkg_adddir_attr dev p path None None 0 try check_duplicates.

(** *** Scripts *)

(** The slot of [PKG_SCRIPT_UNKNOWN] is past the end of the array. *)
Definition pkg_addscript (p : pkg) (data : option cstring) (type : pkg_script)
  : option (pkg_error_t * pkg) :=
  if (script_index type <? PKG_NUM_SCRIPTS)%nat
  then Some (EPKG_OK, set_scripts p (alter (fun b => sbuf_set b data) (script_index type) (scripts p)))
  else None.

Definition pkg_script_get (p : pkg) (i : pkg_script) : option cstring :=
  match scripts p !! script_index i with Some b => b | None => None end.

(** The comparisons of pkg_addscript_file(at), in order. *)
Definition script_names : list (cstring * cstring * pkg_script) :=
  [ (str "pkg-pre-install", str "+PRE_INSTALL", PKG_SCRIPT_PRE_INSTALL);
    (str "pkg-post-install", str "+POST_INSTALL", PKG_SCRIPT_POST_INSTALL);
    (str "pkg-install", str "+INSTALL", PKG_SCRIPT_INSTALL);
    (str "pkg-pre-deinstall", str "+PRE_DEINSTALL", PKG_SCRIPT_PRE_DEINSTALL);
    (str "pkg-post-deinstall", str "+POST_DEINSTALL", PKG_SCRIPT_POST_DEINSTALL);
    (str "pkg-deinstall", str "+DEINSTALL", PKG_SCRIPT_DEINSTALL);
    (str "pkg-pre-upgrade", str "+PRE_UPGRADE", PKG_SCRIPT_PRE_UPGRADE);
    (str "pkg-post-upgrade", str "+POST_UPGRADE", PKG_SCRIPT_POST_UPGRADE);
    (str "pkg-upgrade", str "+UPGRADE", PKG_SCRIPT_UPGRADE) ].

Definition script_type (filename : cstring) : option pkg_script :=
  snd <$> find (fun e => streq filename e.1.1 || streq filename e.1.2) script_names.

(** [data] is what file_to_buffer(at) answers. *)
Definition pkg_addscript_fileat (p : pkg) (filename : cstring) (data : pkg_error_t + cstring)
  : option (pkg_error_t * pkg) :=
  match data with
  | inl ret => Some (ret, p)
  | inr data =>
      match script_type filename with
      | Some type => pkg_addscript p (Some data) type
      | None => Some (EPKG_FATAL, p)
      end
  end.

Definition pkg_addscript_file (p : pkg) (path : cstring) (data : pkg_error_t + cstring)
  : option (pkg_error_t * pkg) :=
  match data with
  | inl ret => Some (ret, p)
  | inr data =>
      filename ← strrchr path "/";
      match script_type (drop 1 filename) with
      | Some type => pkg_addscript p (Some data) type
      | None => Some (EPKG_FATAL, p)
      end
  end.

Definition pkg_appendscript (p : pkg) (cmd : cstring) (type : pkg_script)
  : option (pkg_error_t * pkg) :=
  if negb (nonempty cmd) then None
  else if negb (script_index type <? PKG_NUM_SCRIPTS)%nat then None
  else match pkg_script_get p type with
       | None => pkg_addscript p (Some cmd) type
       | Some s => Some (EPKG_OK, set_scripts p (<[script_index type := Some (s ++ cmd)]> (scripts p)))
       end.

(** *** Options *)

Definition pkg_option_opt (o : pkg_option) : cstring := sbuf_get (o_key o).
Definition pkg_option_value (o : pkg_option) : cstring := sbuf_get (o_value o).
Definition pkg_option_default_value (o : pkg_option) : cstring := sbuf_get (o_default_value o).
Definition pkg_option_description (o : pkg_option) : cstring := sbuf_get (o_description o).

Definition option_new (key : cstring) : pkg_option := mk_option (Some key) None None None.

(** The part the three pkg_addoption functions have in common: the option
    under [key], or a new one with [isset] answering whether the field is set
    already, [set] setting it and [get] the text the option is hashed by. *)
Definition addoption_with (dev : bool) (p : pkg) (key v : cstring)
    (isset : pkg_option -> option cstring) (set : pkg_option -> pkg_option)
    (get : pkg_option -> cstring) : option (pkg_error_t * pkg) :=
  if negb (nonempty key && nonempty v) then None
  else match hash_find (options p) key with
       | None =>
           let o := set (option_new key) in
           Some (EPKG_OK, set_options p (hash_add (options p) (get o) o))
       | Some i =>
           o ← hash_get (options p) i;
           match isset o with
           | Some _ => Some (duplicate dev, p)
           | None =>
               let o := set o in
               Some (EPKG_OK, set_options p (hash_link (hash_update (options p) i o) i (get o)))
           end
       end.

Definition pkg_addoption (dev : bool) (p : pkg) (key value : cstring) :=
  addoption_with dev p key value o_value
    (fun o => mk_option (o_key o) (Some value) (o_default_value o) (o_description o))
    pkg_option_opt.

Definition pkg_addoption_default (dev : bool) (p : pkg) (key default_value : cstring) :=
  addoption_with dev p key default_value o_default_value
    (fun o => mk_option (o_key o) (o_value o) (Some default_value) (o_description o))
    pkg_option_default_value.

Definition pkg_addoption_description (dev : bool) (p : pkg) (key description : cstring) :=
  addoption_with dev p key description o_description
    (fun o => mk_option (o_key o) (o_value o) (o_default_value o) (Some description))
    pkg_option_description.

(** *** Shared libraries, conflicts, provides: duplicates are ignored *)

Definition pkg_addshlib_required (p : pkg) (name : cstring) : option (pkg_error_t * pkg) :=
  if negb (nonempty name) then None
  else if found (shlibs_required p) name then Some (EPKG_OK, p)
  else Some (EPKG_OK, set_shlibs_required p (hash_add (shlibs_required p) name name)).

Definition pkg_addshlib_provided (p : pkg) (name : cstring) : option (pkg_error_t * pkg) :=
  if negb (nonempty name) then None
  else if found (shlibs_provided p) name then Some (EPKG_OK, p)
  else Some (EPKG_OK, set_shlibs_provided p (hash_add (shlibs_provided p) name name)).

Definition pkg_addconflict (p : pkg) (uniqueid : cstring) : option (pkg_error_t * pkg) :=
  if negb (nonempty uniqueid) then None
  else if found (conflicts p) uniqueid then Some (EPKG_OK, p)
  else Some (EPKG_OK, set_conflicts p (hash_add (conflicts p) uniqueid (mk_conflict uniqueid PKG_CONFLICT_ALL))).

Definition pkg_addprovide (p : pkg) (name : cstring) : option (pkg_error_t * pkg) :=
  if negb (nonempty name) then None
  else if found (provides p) name then Some (EPKG_OK, p)
  else Some (EPKG_OK, set_provides p (hash_add (provides p) name name)).

(** *** Iteration: the whole list, [None] when the iteration never ends *)

Definition pkg_users (p : pkg) := hash_iter (users p).
Definition pkg_groups (p : pkg) := hash_iter (groups p).
Definition pkg_deps (p : pkg) := hash_iter (deps p).
Definition pkg_rdeps (p : pkg) := hash_iter (rdeps p).
Definition pkg_files (p : pkg) := hash_iter (files p).
Definition pkg_dirs (p : pkg) := hash_iter (dirs p).
Definition pkg_options (p : pkg) := hash_iter (options p).
Definition pkg_shlibs_required (p : pkg) := hash_iter (shlibs_required p).
Definition pkg_shlibs_provided (p : pkg) := hash_iter (shlibs_provided p).
Definition pkg_conflicts (p : pkg) := hash_iter (conflicts p).
Definition pkg_provides (p : pkg) := hash_iter (provides p).

Definition pkg_dep_lookup (p : pkg) (origin : cstring) : option pkg_dep :=
  hash_lookup (deps p) origin.

(** ** Invariants *)

(** Every element is stored under its own key. *)
Definition keyed {V} (key_of : V -> cstring) (t : table V) : Prop :=
  wf_table t /\ keys t = map key_of (values t).

(** ... and no two under the same one. *)
Definition unique {V} (key_of : V -> cstring) (t : table V) : Prop :=
  keyed key_of t /\ NoDup (keys t).

Section tables.
Context {V : Type} (key_of : V -> cstring).

Lemma keyed_empty : keyed key_of table_empty.
Proof. split; [apply wf_empty|done]. Qed.

Lemma unique_empty : unique key_of table_empty.
Proof. split; [apply keyed_empty|constructor]. Qed.

Lemma keyed_add t v : keyed key_of t -> keyed key_of (hash_add t (key_of v) v).
Proof.
  intros [Hw Hk]. split; [by apply wf_add|]. by rewrite keys_add, values_add, map_app, Hk.
Qed.

Lemma unique_add t v : unique key_of t -> found t (key_of v) = false ->
  unique key_of (hash_add t (key_of v) v).
Proof.
  intros [Hk Hn] Hf. split; [by apply keyed_add|]. destruct Hk as [Hw _].
  rewrite keys_add by done. apply NoDup_app. split_and!; [done| |apply NoDup_singleton].
  intros k Hin ->%list_elem_of_singleton. revert Hin. apply hash_find_none; [done|].
  unfold found in Hf. by destruct (hash_find t (key_of v)).
Qed.

Lemma keyed_iter t : keyed key_of t -> hash_iter t = Some (values t) /\ hash_count t = length (values t).
Proof.
  intros [Hw _]. split; [by apply hash_iter_wf|]. unfold hash_count, values.
  by rewrite (wf_items _ Hw), length_map.
Qed.

Lemma found_spec (t : table V) k : wf_table t -> found t k = bool_decide (k ∈ keys t).
Proof.
  intros Hw. unfold found. destruct (hash_find_cases t k Hw) as [[-> H]|(i & e & -> & _ & _ & H)].
  - by rewrite bool_decide_eq_false_2.
  - by rewrite bool_decide_eq_true_2.
Qed.
End tables.

#[export] Hint Resolve keyed_empty unique_empty keyed_add unique_add : pkg.

(** The tables of a package that only the functions above built, the options
    without defaults or descriptions. *)
Record wf_pkg (p : pkg) : Prop := mk_wf_pkg {
  wf_scripts : length (scripts p) = PKG_NUM_SCRIPTS;
  wf_deps : unique dep_origin (deps p);
  wf_rdeps : keyed dep_origin (rdeps p);
  wf_files : keyed f_path (files p);
  wf_dirs : keyed d_path (dirs p);
  wf_options : unique pkg_option_opt (options p);
  wf_option_values : Forall (fun o => is_Some (o_value o)) (values (options p));
  wf_users : unique u_name (users p);
  wf_groups : unique g_name (groups p);
  wf_shlibs_required : unique id (shlibs_required p);
  wf_shlibs_provided : unique id (shlibs_provided p);
  wf_conflicts : unique c_uniqueid (conflicts p);
  wf_provides : unique id (provides p) }.

(** Calls of the functions above. *)
Inductive pkg_op :=
  | OpSet (ap : list (nat * set_arg))
  | OpUser (name : cstring) (uidstr : option cstring)
  | OpGroup (name : cstring) (gidstr : option cstring)
  | OpDep (name origin version : cstring) (locked : bool)
  | OpRdep (name origin version : cstring) (locked : bool)
  | OpFile (path : cstring) (sum uname gname : option cstring) (perm : Z) (check : bool)
  | OpDir (path : cstring) (uname gname : option cstring) (perm : Z) (try check : bool)
  | OpScript (data : option cstring) (type : pkg_script)
  | OpAppendScript (cmd : cstring) (type : pkg_script)
  | OpOption (key value : cstring)
  | OpShlibRequired (name : cstring) | OpShlibProvided (name : cstring)
  | OpConflict (uniqueid : cstring) | OpProvide (name : cstring)
  | OpAnnotation (tag value : cstring) | OpDelAnnotation (tag : cstring)
  | OpFree (l : pkg_list)
  | OpReset (t : pkg_t).

Definition apply_op (dev : bool) (p : pkg) (op : pkg_op) : option (pkg_error_t * pkg) :=
  match op with
  | OpSet ap => pkg_vset p ap
  | OpUser n u => pkg_adduid dev p n u
  | OpGroup n g => pkg_addgid dev p n g
  | OpDep n o v l => pkg_adddep dev p n o v l
  | OpRdep n o v l => pkg_addrdep p n o v l
  | OpFile f s u g m c => pkg_addfile_attr dev p f s u g m c
  | OpDir d u g m t c => pkg_adddir_attr dev p d u g m t c
  | OpScript d t => pkg_addscript p d t
  | OpAppendScript c t => pkg_appendscript p c t
  | OpOption k v => pkg_addoption dev p k v
  | OpShlibRequired n => pkg_addshlib_required p n
  | OpShlibProvided n => pkg_addshlib_provided p n
  | OpConflict u => pkg_addconflict p u
  | OpProvide n => pkg_addprovide p n
  | OpAnnotation t v => Some (pkg_addannotation dev p t v)
  | OpDelAnnotation t => Some (pkg_delannotation p t)
  | OpFree l => Some (EPKG_OK, pkg_list_free p l)
  | OpReset t => Some (EPKG_OK, pkg_reset p t)
  end.

(** User and group names that fit the buffers. *)
Definition op_fits (op : pkg_op) : bool :=
  match op with
  | OpUser n _ | OpGroup n _ => (length n <? MAXLOGNAME)%nat
  | _ => true
  end.

(** The calls in order, ignoring the error codes as the callers do. *)
Definition run_ops (dev : bool) (ops : list pkg_op) (p : pkg) : option pkg :=
  foldl (fun acc op => p ← acc; snd <$> apply_op dev p op) (Some p) ops.

Lemma strlcpy_fits s size : (length s < size)%nat -> strlcpy s size = s.
Proof. intros H. unfold strlcpy. apply take_ge. lia. Qed.

Lemma wf_pkg_new t : wf_pkg (pkg_new t).
Proof. split; simpl; auto with pkg. Qed.

Lemma wf_set_fields p x : wf_pkg p -> wf_pkg (set_fields p x).
Proof. by intros []. Qed.

Lemma wf_list_free p l : wf_pkg p -> wf_pkg (pkg_list_free p l).
Proof. intros []. destruct l; split; simpl; auto with pkg. Qed.

Lemma wf_set_scripts p x : length x = length (scripts p) -> wf_pkg p -> wf_pkg (set_scripts p x).
Proof. intros Hl []. split; simpl; congruence. Qed.

#[export] Hint Resolve wf_set_fields wf_list_free : pkg.

Lemma wf_clear_flag p f : wf_pkg p -> wf_pkg (clear_flag p f).
Proof. by intros []. Qed.

Lemma wf_set_end p fd t : wf_pkg p -> wf_pkg (set_type (set_rootfd p fd) t).
Proof. by intros []. Qed.

Lemma wf_list_frees ls p : wf_pkg p -> wf_pkg (fold_left pkg_list_free ls p).
Proof. revert p; induction ls as [|l ls IH]; intros p Hw; [done|]. by apply IH, wf_list_free. Qed.

Lemma wf_reset p t : wf_pkg p -> wf_pkg (pkg_reset p t).
Proof.
  intros Hw. apply wf_set_end, wf_list_frees, wf_set_scripts; [by rewrite length_map|].
  do 3 apply wf_clear_flag. by apply wf_set_fields.
Qed.

Lemma wf_vset buf p ap r p' : wf_pkg p -> vset_loop buf p ap = Some (r, p') -> wf_pkg p'.
Proof.
  revert buf p; induction ap as [|[attr a] ap IH]; intros buf p Hw; cbn [vset_loop].
  - by intros [= _ <-].
  - destruct (Nat.eqb attr 0); [by intros [= _ <-]|].
    destruct (PKG_NUM_FIELDS <=? attr)%nat; [by intros [= _ <-]|].
    destruct (vset_one buf p attr a) as [[buf' p1]|] eqn:E; [|done]. simpl. apply IH.
    unfold vset_one in E. destruct (pkg_keys !! attr) as [[name ty]|]; [|done]. simpl in E.
    repeat (case_match; simplify_eq; auto with pkg).
Qed.

Lemma wf_apply dev p op r p' : wf_pkg p -> op_fits op = true ->
  apply_op dev p op = Some (r, p') -> wf_pkg p'.
Proof.
  intros Hw Hf H.
  assert (forall e (q : pkg), Some (e, q) = Some (r, p') -> wf_pkg q -> wf_pkg p') as Hd
    by (intros ? ? [= _ <-]; done).
  destruct op; cbn [apply_op] in H; cbn [op_fits] in Hf.
  all: repeat match type of H with
       | context [pkg_adduid] => unfold pkg_adduid in H
       | context [pkg_addgid] => unfold pkg_addgid in H
       end.
  - by eapply wf_vset.
  - destruct (negb (nonempty name)); [done|]. destruct (found (users p) name) eqn:E; [by eapply Hd|].
    apply Nat.ltb_lt in Hf. rewrite strlcpy_fits in H by done. eapply Hd; [exact H|].
    destruct Hw. split; simpl; try done. by apply (unique_add u_name _ (mk_user name _)).
  - destruct (negb (nonempty name)); [done|]. destruct (found (groups p) name) eqn:E; [by eapply Hd|].
    apply Nat.ltb_lt in Hf. rewrite strlcpy_fits in H by done. eapply Hd; [exact H|].
    destruct Hw. split; simpl; try done. by apply (unique_add g_name _ (mk_group name _)).
  - unfold pkg_adddep in H. destruct (negb _); [done|].
    destruct (found (deps p) origin) eqn:E; [by eapply Hd|]. eapply Hd; [exact H|].
    destruct Hw. split; simpl; try done. by apply (unique_add dep_origin _ (new_dep name origin version locked)).
  - unfold pkg_addrdep in H. destruct (negb _); [done|]. eapply Hd; [exact H|].
    destruct Hw. split; simpl; try done. by apply (keyed_add dep_origin _ (new_dep name origin version locked)).
  - unfold pkg_addfile_attr in H. destruct (negb _); [done|].
    destruct (check && found (files p) path); [by eapply Hd|]. eapply Hd; [exact H|].
    destruct Hw. split; simpl; try done. by apply (keyed_add f_path).
  - unfold pkg_adddir_attr in H. destruct (negb _); [done|].
    destruct (check && found (dirs p) path); [by eapply Hd|]. eapply Hd; [exact H|].
    destruct Hw. split; simpl; try done. by apply (keyed_add d_path).
  - unfold pkg_addscript in H. destruct (_ <? _)%nat; [|done]. eapply Hd; [exact H|].
    apply wf_set_scripts; [by rewrite length_alter|done].
  - unfold pkg_appendscript, pkg_addscript in H. destruct (negb _); [done|].
    destruct (_ <? _)%nat; [|done]. simpl in H. destruct (pkg_script_get p type0) as [s|].
    + eapply Hd; [exact H|]. apply wf_set_scripts; [by rewrite length_insert|done].
    + eapply Hd; [exact H|]. apply wf_set_scripts; [by rewrite length_alter|done].
  - unfold pkg_addoption, addoption_with in H. destruct (negb _); [done|]. destruct Hw.
    destruct (hash_find (options p) key) as [i|] eqn:E.
    + destruct (hash_get (options p) i) as [o|] eqn:Ei; [|done]. simpl in H.
      rewrite Forall_forall in wf_option_values0. destruct (wf_option_values0 o) as [v Hv].
      { unfold hash_get in Ei. apply fmap_Some in Ei as (en & Hen & ->).
        apply list_elem_of_fmap. exists en. split; [done|]. by eapply list_elem_of_lookup_2. }
      rewrite Hv in H. eapply Hd; [exact H|]. split; try done. by apply Forall_forall.
    + eapply Hd; [exact H|]. split; simpl; try done.
      * apply (unique_add pkg_option_opt _ (mk_option (Some key) (Some value) None None)); [done|].
        change (found (options p) key = false). unfold found. by rewrite E.
      * rewrite values_add by apply wf_options0. apply Forall_app. split; [done|].
        apply Forall_singleton. by exists value.
  - unfold pkg_addshlib_required in H. destruct (negb _); [done|].
    destruct (found (shlibs_required p) name) eqn:E; [by eapply Hd|]. eapply Hd; [exact H|].
    destruct Hw. split; simpl; try done. by apply (unique_add id).
  - unfold pkg_addshlib_provided in H. destruct (negb _); [done|].
    destruct (found (shlibs_provided p) name) eqn:E; [by eapply Hd|]. eapply Hd; [exact H|].
    destruct Hw. split; simpl; try done. by apply (unique_add id).
  - unfold pkg_addconflict in H. destruct (negb _); [done|].
    destruct (found (conflicts p) uniqueid) eqn:E; [by eapply Hd|]. eapply Hd; [exact H|].
    destruct Hw. split; simpl; try done. by apply (unique_add c_uniqueid _ (mk_conflict uniqueid PKG_CONFLICT_ALL)).
  - unfold pkg_addprovide in H. destruct (negb _); [done|].
    destruct (found (provides p) name) eqn:E; [by eapply Hd|]. eapply Hd; [exact H|].
    destruct Hw. split; simpl; try done. by apply (unique_add id).
  - unfold pkg_addannotation in H. destruct (_ ≫= _); [destruct dev|]; eapply Hd; try exact H; auto with pkg.
  - unfold pkg_delannotation in H. repeat (case_match; try (eapply Hd; [exact H|]; by auto with pkg)).
  - eapply Hd; [exact H|]. by apply wf_list_free.
  - eapply Hd; [exact H|]. by apply wf_reset.
Qed.

Lemma wf_run dev ops p p' : wf_pkg p -> Forall (fun op => op_fits op = true) ops ->
  run_ops dev ops p = Some p' -> wf_pkg p'.
Proof.
  unfold run_ops. revert p. induction ops as [|op ops IH]; intros p Hw Hf; cbn [foldl].
  - by intros [= <-].
  - apply Forall_cons in Hf as [Hop Hf]. simpl.
    destruct (apply_op dev p op) as [[r q]|] eqn:E; simpl.
    + apply IH; [|done]. by eapply wf_apply.
    + clear. intros H. exfalso. revert H. induction ops as [|op' ops IH]; simpl; [done|exact IH].
Qed.

(** The iteration over a list ends, visits as many elements as
    pkg_list_count says, and these are stored under distinct keys. *)
Definition list_sound (p : pkg) (l : pkg_list) : Prop :=
  match l with
  | PKG_DEPS => exists ds, pkg_deps p = Some ds /\ length ds = pkg_list_count p l /\ NoDup (map dep_origin ds)
  | PKG_RDEPS => exists ds, pkg_rdeps p = Some ds /\ length ds = pkg_list_count p l
  | PKG_OPTIONS => exists os, pkg_options p = Some os /\ length os = pkg_list_count p l /\ NoDup (map pkg_option_opt os)
  | PKG_FILES => exists fs, pkg_files p = Some fs /\ length fs = pkg_list_count p l
  | PKG_DIRS => exists ds, pkg_dirs p = Some ds /\ length ds = pkg_list_count p l
  | PKG_USERS => exists us, pkg_users p = Some us /\ length us = pkg_list_count p l /\ NoDup (map u_name us)
  | PKG_GROUPS => exists gs, pkg_groups p = Some gs /\ length gs = pkg_list_count p l /\ NoDup (map g_name gs)
  | PKG_SHLIBS_REQUIRED => exists ss, pkg_shlibs_required p = Some ss /\ length ss = pkg_list_count p l /\ NoDup ss
  | PKG_SHLIBS_PROVIDED => exists ss, pkg_shlibs_provided p = Some ss /\ length ss = pkg_list_count p l /\ NoDup ss
  | PKG_CONFLICTS => exists cs, pkg_conflicts p = Some cs /\ length cs = pkg_list_count p l /\ NoDup (map c_uniqueid cs)
  | PKG_PROVIDES => exists ps, pkg_provides p = Some ps /\ length ps = pkg_list_count p l /\ NoDup ps
  end.

Lemma unique_sound {V} (key_of : V -> cstring) t : unique key_of t ->
  exists vs, hash_iter t = Some vs /\ length vs = hash_count t /\ NoDup (map key_of vs).
Proof.
  intros [Hk Hn]. pose proof (keyed_iter _ _ Hk) as [H1 H2]. exists (values t).
  split_and!; [done|done|]. destruct Hk as [_ Hk]. by rewrite <- Hk.
Qed.

Lemma keyed_sound {V} (key_of : V -> cstring) t : keyed key_of t ->
  exists vs, hash_iter t = Some vs /\ length vs = hash_count t.
Proof. intros Hk. pose proof (keyed_iter _ _ Hk) as [H1 H2]. by exists (values t). Qed.

Lemma wf_list_sound p l : wf_pkg p -> list_sound p l.
Proof.
  assert (forall s : list cstring, map id s = s) as Hid by apply map_id.
  intros []. destruct l; simpl; try (by eapply keyed_sound); try (by eapply unique_sound).
  all: unfold pkg_shlibs_required, pkg_shlibs_provided, pkg_provides.
  all: match goal with H : unique id ?t |- context [hash_iter ?t] => pose proof (unique_sound _ _ H) as (vs & H1 & H2 & H3) end.
  all: exists vs; rewrite Hid in H3; done.
Qed.

(** C36: From a new package, any sequence of calls of the set, add, delete,
    free and reset functions (options being added by pkg_addoption only, user
    and group names fitting their buffers) that does not abort leaves every
    list sound: the iterator functions reach the end, the number of elements
    is pkg_list_count, and users, groups, dependencies, options, shared
    libraries, conflicts and provides are each listed once. *)
Theorem pkg_ops_sound (dev : bool) (t : pkg_t) (ops : list pkg_op) (p : pkg) (l : pkg_list)
  (Hfits : Forall (fun op => op_fits op = true) ops)
  (Hrun : run_ops dev ops (pkg_new t) = Some p) : list_sound p l.
Proof. apply wf_list_sound. eapply wf_run; [apply wf_pkg_new|done|done]. Qed.

Lemma pkg_ops_sound_witness :
  exists p, run_ops false [OpDep (str "a") (str "x/a") (str "1") false; OpDep (str "b") (str "x/b") (str "2") true;
                     OpDep (str "a") (str "x/a") (str "3") false; OpOption (str "DOCS") (str "on")] (pkg_new PKG_FILE) = Some p
    /\ list_sound p PKG_DEPS /\ pkg_list_count p PKG_DEPS = 2%nat.
Proof.
  eexists. split_and!; [reflexivity| |reflexivity].
  apply (pkg_ops_sound false PKG_FILE
    [OpDep (str "a") (str "x/a") (str "1") false; OpDep (str "b") (str "x/b") (str "2") true;
     OpDep (str "a") (str "x/a") (str "3") false; OpOption (str "DOCS") (str "on")]);
    [repeat constructor|reflexivity].
Defined.

(** ** Behaviour of the operations *)

(** pkg_adddep aborts exactly when a string is empty; a second dependency
    on an origin is refused (fatal in developer mode, ignored otherwise) and
    changes nothing; otherwise the dependency is appended, pkg_dep_lookup
    finds it under its origin and finds what it found before under any other,
    and nothing else of the package changes. *)
Theorem pkg_adddep_spec (dev : bool) (p : pkg) (name origin version : cstring) (locked : bool)
  (Hw : wf_pkg p) :
  let d := new_dep name origin version locked in
  (pkg_adddep dev p name origin version locked = None <-> name = [] \/ origin = [] \/ version = []) /\
  (name <> [] -> origin <> [] -> version <> [] ->
   (forall d', pkg_dep_lookup p origin = Some d' ->
      pkg_adddep dev p name origin version locked = Some (if dev then EPKG_FATAL else EPKG_OK, p)) /\
   (pkg_dep_lookup p origin = None ->
      exists t, pkg_adddep dev p name origin version locked = Some (EPKG_OK, set_deps p t) /\
        hash_iter t = Some (values (deps p) ++ [d]) /\
        pkg_dep_lookup (set_deps p t) origin = Some d /\
        forall o, o <> origin -> pkg_dep_lookup (set_deps p t) o = pkg_dep_lookup p o)).
Proof.
  intros d. unfold pkg_adddep.
  assert (forall s, nonempty s = false <-> s = []) as Hne by (intros [|]; unfold nonempty; simpl; split; done).
  destruct (wf_deps _ Hw) as [[Ht Hk] Hn]. split.
  - destruct (nonempty name) eqn:E1; [|split; [intros _; left; by apply Hne|done]].
    destruct (nonempty origin) eqn:E2; [|split; [intros _; right; left; by apply Hne|done]].
    destruct (nonempty version) eqn:E3; [|split; [intros _; do 2 right; by apply Hne|done]].
    simpl. split; [by destruct (found (deps p) origin)|].
    intros [-> | [-> | ->]]; done.
  - intros H1 H2 H3. assert (nonempty name && nonempty origin && nonempty version = true) as ->
      by (destruct name, origin, version; done).
    simpl. unfold pkg_dep_lookup, found, hash_lookup.
    destruct (hash_find_cases (deps p) origin Ht) as [[-> Hf]|(i & e & -> & He & Hek & Hin)].
    + split; [done|]. intros _. exists (hash_add (deps p) origin d). split_and!.
      * done.
      * rewrite hash_iter_wf by auto with pkg. by rewrite values_add.
      * by apply (hash_lookup_add (deps p) origin d).
      * intros o Ho. by apply (hash_lookup_add_ne (deps p) origin o d).
    + unfold hash_get. simpl. rewrite He. done.
Qed.

Lemma pkg_adddep_spec_witness :
  (pkg_adddep false (pkg_new PKG_FILE) (str "a") (str "x/a") [] false = None <->
   str "a" = [] \/ str "x/a" = [] \/ ([] : cstring) = []) /\
  exists t, pkg_adddep false (pkg_new PKG_FILE) (str "a") (str "x/a") (str "1") false = Some (EPKG_OK, set_deps (pkg_new PKG_FILE) t).
Proof.
  split; [apply (pkg_adddep_spec false (pkg_new PKG_FILE) (str "a") (str "x/a") [] false (wf_pkg_new PKG_FILE))|].
  edestruct (pkg_adddep_spec false (pkg_new PKG_FILE) (str "a") (str "x/a") (str "1") false (wf_pkg_new PKG_FILE))
    as [_ H]. destruct (H ltac:(discriminate) ltac:(discriminate) ltac:(discriminate)) as [_ H'].
  destruct (H' eq_refl) as (t & Ht & _). exists t. exact Ht.
Defined.

Lemma pkg_keys_distinct : NoDup (map fst pkg_keys).
Proof. vm_compute. repeat constructor; rewrite ?list_elem_of_In; cbn [In]; intuition discriminate. Qed.

Lemma pkg_keys_inj a b ka kb ta tb : pkg_keys !! a = Some (ka, ta) -> pkg_keys !! b = Some (kb, tb) ->
  a <> b -> ka <> kb.
Proof.
  intros Ha Hb Hn ->. apply Hn. eapply (NoDup_lookup _ _ _ kb pkg_keys_distinct).
  - by rewrite list_lookup_fmap, Ha.
  - by rewrite list_lookup_fmap, Hb.
Qed.

(** What a value stored by pkg_set reads back as. *)
Definition read_back (attr : nat) (a : set_arg) (old : get_result) : get_result :=
  match a with
  | ArgString None => GotString None
  | ArgString (Some s) =>
      GotString (Some (if Nat.eqb attr PKG_MTREE && negb (starts_with_mtree s)
                       then str "#mtree" ++ [chr 10] ++ s else s))
  | ArgBool b => GotBool b
  | ArgInt z => GotInt z
  | ArgObject None => old
  | ArgObject (Some o) => GotObject (Some o)
  end.

Lemma vget_set_fields_ne emit p x attr key ty : pkg_keys !! attr = Some (key, ty) ->
  x !! key = fields p !! key -> vget_one emit (set_fields p x) attr = vget_one emit p attr.
Proof. intros Hk Hx. unfold vget_one. rewrite Hk. simpl. by rewrite Hx. Qed.

(** One branch of [vset_one]: the value is there, the other keys are not
    touched. *)
Ltac vset_case :=
  match goal with Hset : _ = Some (?r, ?p'), Hold : _ = Some ?old |- _ =>
    cbn in Hset; injection Hset as <- <-; eexists; split_and!;
    [reflexivity|reflexivity|reflexivity
    |cbn; rewrite ?lookup_insert_eq, ?lookup_delete_eq; first [reflexivity|exact Hold]
    |intros k' Hk'; cbn; rewrite ?lookup_insert_ne, ?lookup_delete_ne by done; done]
  end.

(** A successful pkg_set of one attribute is read back by pkg_get: the
    string, boolean, integer or object that was stored (an mtree gets its
    "#mtree" line when it lacks one, NULL deletes a string and leaves an
    object), and every other attribute reads as before. *)
Theorem pkg_set_get (emit : ucl -> cstring) (p p' : pkg) (attr : nat) (a : set_arg) (r : pkg_error_t)
  (old : get_result) (Hattr : (0 < attr < PKG_NUM_FIELDS)%nat) (Hset : pkg_set p attr a = Some (r, p'))
  (Hold : vget_one emit p attr = Some old) :
  r = EPKG_OK /\
  pkg_vget emit p' [attr] = (EPKG_OK, [read_back attr a old]) /\
  forall other, other <> attr -> pkg_vget emit p' [other] = pkg_vget emit p [other].
Proof.
  assert (exists key ty o, pkg_keys !! attr = Some (key, ty) /\ p' = set_fields p o /\ r = EPKG_OK /\
    vget_one emit p' attr = Some (read_back attr a old) /\
    forall k', k' <> key -> o !! k' = fields p !! k') as (key & ty & o & Hk & Hp & Hr & Hg & Ho).
  { unfold pkg_set, pkg_vset in Hset. cbn [vset_loop] in Hset.
    destruct (Nat.eqb_spec attr 0); [lia|]. destruct (Nat.leb_spec PKG_NUM_FIELDS attr); [lia|].
    unfold vset_one in Hset. destruct (pkg_keys !! attr) as [[key ty]|] eqn:Hk; [|done].
    unfold vget_one in *. rewrite Hk in *. cbn [mbind option_bind] in *.
    exists key, ty.
    destruct ty, a as [[s|]|b|z|[ob|]]; try discriminate Hset; unfold read_back;
      try (destruct (Nat.eqb attr PKG_MTREE); [try destruct (starts_with_mtree s)|]);
      try discriminate Hset; vset_case. }
  split; [done|]. split.
  - cbn [pkg_vget]. destruct (Nat.eqb_spec attr 0); [lia|].
    destruct (Nat.leb_spec PKG_NUM_FIELDS attr); [lia|]. by rewrite Hg.
  - intros other Hne. cbn [pkg_vget]. destruct (Nat.eqb other 0); [done|].
    destruct (PKG_NUM_FIELDS <=? other)%nat; [done|].
    destruct (pkg_keys !! other) as [[k' ty']|] eqn:Hk'; [|unfold vget_one; by rewrite Hk'].
    subst p'. erewrite vget_set_fields_ne; [done|done|]. apply Ho.
    by eapply pkg_keys_inj.
Qed.

Lemma pkg_set_get_witness :
  exists p', pkg_set (pkg_new PKG_FILE) PKG_MTREE (ArgString (Some (str "x"))) = Some (EPKG_OK, p') /\
    pkg_vget (fun _ => []) p' [PKG_MTREE] = (EPKG_OK, [GotString (Some (str "#mtree" ++ [chr 10] ++ str "x"))]).
Proof.
  eexists. split; [reflexivity|].
  refine (proj1 (proj2 (pkg_set_get (fun _ => []) (pkg_new PKG_FILE) _ PKG_MTREE (ArgString (Some (str "x")))
    EPKG_OK (GotString None) _ _ _))); [unfold PKG_MTREE, PKG_NUM_FIELDS; lia|reflexivity|reflexivity].
Defined.

(** *** Licenses and categories *)

(** The licenses of a package as pkg_addlicense builds them. *)
Definition string_array (p : pkg) (key : cstring) (l : list cstring) : Prop :=
  match fields p !! key with
  | None => l = []
  | Some o => o = UArray (map UString l)
  end /\ Forall (fun s => s <> []) l.

Lemma listed_strings emit name l : Forall (fun s => s <> []) l ->
  listed emit name (map UString l) = Some (bool_decide (name ∈ l)).
Proof.
  induction 1 as [|s l Hs _ IH]; [done|]. cbn [map listed]. unfold pkg_object_string.
  cbn [ucl_object_tostring_forced]. destruct s as [|c s]; [done|].
  destruct (Z.eqb_spec (strcmp (c :: s) name) 0) as [Hz|Hz].
  - apply strcmp_zero in Hz as <-. by rewrite bool_decide_eq_true_2 by left.
  - rewrite IH. f_equal. apply bool_decide_ext. rewrite elem_of_cons.
    split; [by right|]. intros [-> | ]; [|done]. destruct Hz. by apply strcmp_refl.
Qed.

Lemma array_append_licenses p name :
  array_append p PKG_LICENSES name =
  match fields p !! str "licenses" with
  | Some (UArray l) =>
      Some (EPKG_OK, set_fields p (<[str "licenses" := UArray (l ++ [UString name])]> (fields p)))
  | _ => None
  end.
Proof. done. Qed.

Lemma pkg_set_licenses p o :
  pkg_set p PKG_LICENSES (ArgObject (Some o)) =
  Some (EPKG_OK, set_fields p (<[str "licenses" := o]> (fields p))).
Proof. done. Qed.

(** pkg_addlicense aborts on an empty name only; it refuses a license that
    is listed (fatal in developer mode, ignored otherwise) without a change
    and appends any other, creating the array for the first. *)
Theorem pkg_addlicense_spec (emit : ucl -> cstring) (dev : bool) (p : pkg) (name : cstring)
  (l : list cstring) (Hl : string_array p (str "licenses") l) :
  pkg_addlicense emit dev p name =
    (if negb (nonempty name) then None
     else if bool_decide (name ∈ l) then Some (if dev then EPKG_FATAL else EPKG_OK, p)
     else Some (EPKG_OK, set_fields p (<[str "licenses" := UArray (map UString (l ++ [name]))]> (fields p)))) /\
  forall r p', pkg_addlicense emit dev p name = Some (r, p') -> r = EPKG_OK -> NoDup l ->
    exists l', string_array p' (str "licenses") l' /\ NoDup l' /\ name ∈ l'.
Proof.
  assert (pkg_addlicense emit dev p name =
    (if negb (nonempty name) then None
     else if bool_decide (name ∈ l) then Some (if dev then EPKG_FATAL else EPKG_OK, p)
     else Some (EPKG_OK, set_fields p (<[str "licenses" := UArray (map UString (l ++ [name]))]> (fields p))))) as Hr.
  { destruct Hl as [Hl Hne]. unfold pkg_addlicense. destruct (negb (nonempty name)); [done|].
    change (pkg_get_object emit p PKG_LICENSES) with (fields p !! str "licenses").
    destruct (fields p !! str "licenses") as [o|] eqn:E.
    - subst o. cbn [ucl_elements]. rewrite listed_strings by done. simpl.
      case_bool_decide; [done|]. rewrite array_append_licenses, E. by rewrite map_app.
    - subst l. cbn [ucl_elements listed]. rewrite pkg_set_licenses. cbn [mbind option_bind].
      rewrite array_append_licenses. cbn [fields set_fields].
      rewrite lookup_insert_eq. by rewrite insert_insert_eq. }
  split; [done|]. rewrite Hr. intros r p'. destruct Hl as [Hl Hne].
  destruct (nonempty name) eqn:En; [|done]. simpl.
  case_bool_decide as Hin; [by intros [= _ <-] _ Hnd; exists l|].
  intros [= _ <-] _ Hnd. exists (l ++ [name]). split_and!.
  - split; [unfold string_array; simpl; by rewrite lookup_insert_eq|].
    apply Forall_app. split; [done|]. apply Forall_singleton. by intros ->.
  - apply NoDup_app. split_and!; [done| |apply NoDup_singleton].
    by intros x Hx ->%list_elem_of_singleton.
  - apply elem_of_app. right. by apply list_elem_of_singleton.
Qed.

Lemma pkg_addlicense_spec_witness : string_array (pkg_new PKG_FILE) (str "licenses") [] /\
  pkg_addlicense (fun _ => []) true (pkg_new PKG_FILE) [] = None.
Proof.
  split; [split; [reflexivity|constructor]|].
  exact (proj1 (pkg_addlicense_spec (fun _ => []) true (pkg_new PKG_FILE) [] []
    (conj eq_refl (List.Forall_nil _)))).
Defined.

(** *** Scripts *)

(** pkg_addscript_file stores what pkg_addscript_fileat stores for the part
    of the path after the last slash; the text is stored in the slot the name
    stands for ("pkg-..." and "+..." spellings alike), no other script
    changes, an unknown name is EPKG_FATAL without a change, and
    pkg_appendscript then appends to the stored text. *)
Theorem pkg_addscript_spec (p : pkg) (path data cmd : cstring) (filename : cstring)
  (Hp : strrchr path "/" = Some ("/"%char :: filename))
  (Hlen : length (scripts p) = PKG_NUM_SCRIPTS) (Hcmd : cmd <> []) :
  pkg_addscript_file p path (inr data) = pkg_addscript_fileat p filename (inr data) /\
  match script_type filename with
  | None => pkg_addscript_file p path (inr data) = Some (EPKG_FATAL, p)
  | Some ty =>
      exists p1 p2, pkg_addscript_file p path (inr data) = Some (EPKG_OK, p1) /\
        pkg_script_get p1 ty = Some data /\
        (forall ty', ty' <> ty -> pkg_script_get p1 ty' = pkg_script_get p ty') /\
        pkg_appendscript p1 cmd ty = Some (EPKG_OK, p2) /\
        pkg_script_get p2 ty = Some (data ++ cmd)
  end.
Proof.
  unfold pkg_addscript_file, pkg_addscript_fileat. rewrite Hp. cbn [mbind option_bind]. change (drop 1 ("/"%char :: filename)) with filename. split; [done|].
  destruct (script_type filename) as [ty|] eqn:E; [|done].
  assert (script_index ty < PKG_NUM_SCRIPTS)%nat as Hi.
  { unfold script_type in E. apply fmap_Some in E as (e & He & ->).
    apply find_some in He as [He _]. unfold script_names in He. simpl in He.
    repeat (destruct He as [<-|He]; [simpl; unfold PKG_NUM_SCRIPTS; lia|]). done. }
  assert (forall ty', ty' <> ty -> script_index ty' <> script_index ty) as Hinj
    by (intros ty' Hne; destruct ty, ty'; simpl; done).
  unfold pkg_appendscript, pkg_addscript. destruct (Nat.ltb_spec (script_index ty) PKG_NUM_SCRIPTS); [|lia].
  destruct (lookup_lt_is_Some_2 (scripts p) (script_index ty)) as [b Hb]; [lia|].
  eexists. eexists. split_and!; [done|..].
  - unfold pkg_script_get. simpl. by rewrite list_lookup_alter_eq, Hb.
  - intros ty' Hne. unfold pkg_script_get. simpl. rewrite list_lookup_alter_ne; [done|].
    intros Heq. by apply (Hinj ty').
  - assert (nonempty cmd = true) as -> by (by destruct cmd). simpl.
    unfold pkg_script_get. simpl. by rewrite list_lookup_alter_eq, Hb.
  - unfold pkg_script_get. simpl. rewrite list_lookup_insert_eq; [done|]. rewrite length_alter. lia.
Qed.

Lemma pkg_addscript_spec_witness :
  pkg_addscript_file (pkg_new PKG_FILE) (str "/tmp/pkg-install") (inr (str "true")) =
  pkg_addscript_fileat (pkg_new PKG_FILE) (str "pkg-install") (inr (str "true")).
Proof.
  exact (proj1 (pkg_addscript_spec (pkg_new PKG_FILE) (str "/tmp/pkg-install") (str "true") (str "x")
    (str "pkg-install") eq_refl eq_refl ltac:(discriminate))).
Defined.

(** *** Reset *)

Lemma count_empty {V} : hash_count (@table_empty V) = 0%nat.
Proof. done. Qed.

(** Pkg_reset empties the attributes and every list except the conflicts,
    which stay, and sets the type; the texts of the scripts are emptied. *)
Theorem pkg_reset_spec (p : pkg) (t : pkg_t) :
  (forall l, l <> PKG_CONFLICTS -> pkg_list_count (pkg_reset p t) l = 0%nat) /\
  pkg_list_count (pkg_reset p t) PKG_CONFLICTS = pkg_list_count p PKG_CONFLICTS /\
  fields (pkg_reset p t) = ∅ /\ type (pkg_reset p t) = t /\ rootfd (pkg_reset p t) = -1 /\
  forall s, pkg_script_get (pkg_reset p t) s = (fun _ => []) <$> pkg_script_get p s.
Proof.
  split_and!; try reflexivity.
  - by intros [].
  - intros s. unfold pkg_script_get. change (scripts (pkg_reset p t)) with (map sbuf_reset (scripts p)).
    rewrite list_lookup_fmap. by destruct (scripts p !! script_index s) as [[|]|].
Qed.

(** *** Three ways to break a package *)

(** Setting the default of the option that was added last makes the
    option list a cycle: no walk over the options with pkg_options ends. *)
Theorem pkg_addoption_default_loops (dev : bool) (p p' : pkg) (key value dflt : cstring) (r : pkg_error_t)
  (Hw : wf_pkg p) (Hnew : hash_find (options p) key = None) (Hd : dflt <> [])
  (Hadd : pkg_addoption dev p key value = Some (r, p')) :
  exists p'', pkg_addoption_default dev p' key dflt = Some (EPKG_OK, p'') /\
    forall fuel, hash_walk fuel (options p'') None = None.
Proof.
  unfold pkg_addoption, addoption_with in Hadd. rewrite Hnew in Hadd.
  destruct (nonempty key && nonempty value) eqn:Ekv; [|done]. simpl in Hadd.
  injection Hadd as <- <-. apply andb_true_iff in Ekv as [Ek _].
  destruct (wf_options _ Hw) as [[Ht _] _].
  set (o := mk_option (Some key) (Some value) None None).
  set (t := hash_add (options p) (pkg_option_opt o) o).
  assert (wf_table t) as Ht' by (by apply wf_add).
  assert (hash_lookup t key = Some o) as Hlk by (by apply hash_lookup_add).
  assert (hash_find t key = Some (t_tail t)) as Hfi.
  { unfold hash_lookup in Hlk. destruct (hash_find_cases t key Ht') as [[E _]|(i & e & E & He & Hek & _)];
      [by rewrite E in Hlk|]. rewrite E. f_equal.
    assert (keys t = keys (options p) ++ [key]) as Hkeys by (by unfold t; rewrite keys_add).
    apply hash_find_none in Hnew; [|done].
    assert (keys t !! i = Some key) as Hki by (unfold keys; by rewrite list_lookup_fmap, He, <- Hek).
    rewrite Hkeys in Hki. apply lookup_app_Some in Hki as [Hki|[Hge Hki]].
    - destruct Hnew. by eapply list_elem_of_lookup_2.
    - apply list_lookup_singleton_Some in Hki as [Hi _].
      assert (length (entries t) = S (length (keys (options p)))) as Hlen.
      { transitivity (length (keys t)); [unfold keys; by rewrite length_map|].
        rewrite Hkeys, length_app. simpl. lia. }
      rewrite (wf_tail _ Ht') by (by destruct (entries t)). lia. }
  unfold pkg_addoption_default, addoption_with. cbn [options set_options].
  change (hash_add (options p) _ _) with t.
  assert (nonempty dflt = true) as -> by (by destruct dflt). rewrite Ek. cbn [andb negb].
  rewrite Hfi. unfold hash_lookup in Hlk. rewrite Hfi in Hlk. cbn [mbind option_bind] in *.
  rewrite Hlk. cbn. eexists. split; [reflexivity|]. cbn [options set_options].
  intros fuel. set (t2 := hash_update t (t_tail t) _).
  change (t_tail t) with (t_tail t2). apply hash_link_tail_loops; [by apply wf_update|].
  unfold t2. simpl. destruct (entries t) as [|e es] eqn:E; [|by destruct (t_tail t)].
  unfold hash_find in Hfi. rewrite (wf_head _ Ht'), E in Hfi. done.
Qed.

Lemma pkg_addoption_default_loops_witness :
  exists p p', pkg_addoption false (pkg_new PKG_FILE) (str "DOCS") (str "on") = Some (EPKG_OK, p) /\
    pkg_addoption_default false p (str "DOCS") (str "off") = Some (EPKG_OK, p').
Proof.
  eexists. destruct (pkg_addoption_default_loops false (pkg_new PKG_FILE) _ (str "DOCS") (str "on") (str "off")
    EPKG_OK (wf_pkg_new PKG_FILE) eq_refl ltac:(discriminate) eq_refl) as (p'' & H & _).
  exists p''. split; [reflexivity|exact H].
Defined.

(** The look-up of a user uses the whole name and the stored key the
    truncated one, so a name that does not fit its buffer is never found
    listed: every call adds one more user of the same (truncated) name. *)
Theorem pkg_adduid_long_name (dev : bool) (p : pkg) (name : cstring) (uid : option cstring)
  (Hw : wf_table (users p)) (Hk : keys (users p) = map u_name (values (users p)))
  (Hshort : Forall (fun u => (length (u_name u) < MAXLOGNAME)%nat) (values (users p)))
  (Hlong : (MAXLOGNAME <= length name)%nat) :
  exists u t, pkg_adduid dev p name uid = Some (EPKG_OK, set_users p t) /\
    u_name u = take (pred MAXLOGNAME) name /\ hash_iter t = Some (values (users p) ++ [u]) /\
    wf_table t /\ keys t = map u_name (values t) /\
    Forall (fun u => (length (u_name u) < MAXLOGNAME)%nat) (values t).
Proof.
  unfold pkg_adduid. unfold MAXLOGNAME in *. assert (nonempty name = true) as ->.
  { destruct name; [simpl in Hlong; lia|done]. }
  rewrite found_spec by done. simpl negb. cbv iota.
  rewrite bool_decide_eq_false_2.
  2:{ rewrite Hk. intros Hin. apply list_elem_of_fmap in Hin as (u & -> & Hu).
      rewrite Forall_forall in Hshort. apply Hshort in Hu. lia. }
  set (u := mk_user (strlcpy name 33) (match uid with Some s => strlcpy s IDSTR_SIZE | None => [] end)).
  exists u, (hash_add (users p) (u_name u) u). split_and!; [reflexivity|reflexivity|..].
  - rewrite hash_iter_wf by auto with pkg. by rewrite values_add.
  - auto with pkg.
  - rewrite keys_add, values_add, map_app, Hk by done. done.
  - rewrite values_add by done. apply Forall_app. split; [done|]. apply Forall_singleton.
    simpl. unfold strlcpy. rewrite length_take. lia.
Qed.

Lemma pkg_adduid_long_name_witness :
  exists u t, pkg_adduid true (pkg_new PKG_FILE) (replicate 40 "a"%char) None =
    Some (EPKG_OK, set_users (pkg_new PKG_FILE) t) /\ u_name u = replicate 32 "a"%char.
Proof.
  edestruct (pkg_adduid_long_name true (pkg_new PKG_FILE) (replicate 40 "a"%char) None) as (u & t & H1 & H2 & _);
    [apply wf_empty|reflexivity|constructor|simpl; unfold MAXLOGNAME; lia|].
  exists u, t. split; [exact H1|exact H2].
Defined.

(** After an mtree that lacks its "#mtree" line, a second string attribute
    in the same pkg_set frees the temporary buffer a second time. *)
Theorem pkg_vset_double_free (p : pkg) (s : cstring) (attr : nat) (d : option cstring)
  (key : cstring) (rest : list (nat * set_arg)) (Hs : starts_with_mtree s = false)
  (Hattr : pkg_keys !! attr = Some (key, UCL_STRING)) (Hne : attr <> PKG_MTREE) :
  pkg_vset p ((PKG_MTREE, ArgString (Some s)) :: (attr, ArgString d) :: rest) = None.
Proof.
  unfold pkg_vset. cbn [vset_loop]. change (Nat.eqb PKG_MTREE 0) with false.
  change ((PKG_NUM_FIELDS <=? PKG_MTREE)%nat) with false. cbv iota.
  assert (exists q, vset_one false p PKG_MTREE (ArgString (Some s)) = Some (true, q)) as [q ->].
  { unfold vset_one. change (pkg_keys !! PKG_MTREE) with (Some (str "mtree", UCL_STRING)).
    cbn [mbind option_bind]. change (Nat.eqb PKG_MTREE PKG_MTREE) with true. cbv beta iota.
    rewrite Hs. by eexists. }
  cbn [mbind option_bind].
  destruct (Nat.eqb_spec attr 0) as [->|]; [done|].
  pose proof (lookup_lt_Some _ _ _ Hattr) as Hl. change (length pkg_keys) with PKG_NUM_FIELDS in Hl.
  destruct (Nat.leb_spec PKG_NUM_FIELDS attr); [lia|]. unfold vset_one. rewrite Hattr.
  cbn [mbind option_bind]. by destruct (Nat.eqb_spec attr PKG_MTREE).
Qed.

Lemma pkg_vset_double_free_witness :
  pkg_vset (pkg_new PKG_FILE) [(PKG_MTREE, ArgString (Some (str "x"))); (PKG_NAME, ArgString (Some (str "y")))] = None.
Proof.
  exact (pkg_vset_double_free (pkg_new PKG_FILE) (str "x") PKG_NAME (Some (str "y")) (str "name") []
    eq_refl eq_refl ltac:(discriminate)).
Defined.
