(* ===== verification/Checksum.v ===== *)
(** * Package digests (libpkg/pkg_checksum.c, pkg_validate of libpkg/pkg.c)

    The digest of a package is the SHA256 of its name, origin, version,
    architecture, options, shared libraries, users, groups and dependencies,
    as sorted (field, value) entries, written as
    [version$type$encoded hash].  SHA256 itself is not part of the sources:
    it is the parameter [sha256] of the definitions, of which only the length
    of the result and that it is made of bytes are used. *)
From S2P Require Import Prelude CString CSort UtHash Pkg.

(** ** Types of checksums *)

Inductive pkg_checksum_type_t :=
  | PKG_HASH_TYPE_SHA256_BASE32 | PKG_HASH_TYPE_SHA256_HEX | PKG_HASH_TYPE_UNKNOWN.

#[export] Instance checksum_type_eq_dec : EqDecision pkg_checksum_type_t.
Proof. solve_decision. Defined.

Definition type_code (t : pkg_checksum_type_t) : Z :=
  match t with
  | PKG_HASH_TYPE_SHA256_BASE32 => 0 | PKG_HASH_TYPE_SHA256_HEX => 1 | PKG_HASH_TYPE_UNKNOWN => 2
  end.

Definition type_of_code (z : Z) : pkg_checksum_type_t :=
  if z =? 0 then PKG_HASH_TYPE_SHA256_BASE32
  else if z =? 1 then PKG_HASH_TYPE_SHA256_HEX else PKG_HASH_TYPE_UNKNOWN.

Definition SHA256_DIGEST_LENGTH : nat := 32.
Definition PKG_CHECKSUM_SHA256_LEN : nat := SHA256_DIGEST_LENGTH * 2 + 4 * 2 + 2.
Definition PKG_CHECKSUM_CUR_VERSION : Z := 2.
Definition PKG_CKSUM_SEPARATOR : ascii := "$".

(** ** Encodings *)

Definition b32 : cstring := str "ybndrfg8ejkmcpqxot1uwisza345h769".

(** [b32[x]] *)
Definition b32_char (x : Z) : ascii := at_ b32 (Z.to_nat x).

(** The switch on [i % 5] for the byte [c] with [remain] left over: the
    characters to write and the new [remain]. *)
Definition base32_step (i : nat) (remain : Z) (c : Z) : list ascii * Z :=
  match (i mod 5)%nat with
  | 0%nat => ([b32_char (Z.land c 31)], Z.shiftr c 5)
  | 1%nat =>
      let x := Z.lor remain (Z.shiftl c 3) in
      ([b32_char (Z.land x 31); b32_char (Z.land (Z.shiftr x 5) 31)], Z.shiftr x 10)
  | 2%nat =>
      let x := Z.lor remain (Z.shiftl c 1) in
      ([b32_char (Z.land x 31)], Z.shiftr x 5)
  | 3%nat =>
      let x := Z.lor remain (Z.shiftl c 4) in
      ([b32_char (Z.land x 31); b32_char (Z.land (Z.shiftr x 5) 31)], Z.land (Z.shiftr x 10) 3)
  | _ =>
      let x := Z.lor remain (Z.shiftl c 2) in
      ([b32_char (Z.land x 31); b32_char (Z.land (Z.shiftr x 5) 31)], -1)
  end.

Fixpoint base32_loop (i : nat) (remain : Z) (input : list Z) : cstring :=
  match input with
  | [] => if 0 <=? remain then [b32_char remain] else []
  | c :: rest => let '(out, remain) := base32_step i remain c in out ++ base32_loop (S i) remain rest
  end.

(** [None]: the buffer is refused and nothing is written. *)
Definition pkg_checksum_encode_base32 (input : list Z) (outlen : nat) : option cstring :=
  if (outlen <? length input * 8 / 5)%nat then None else Some (base32_loop 0 (-1) input).

Definition hex_digit (z : Z) : ascii := at_ (str "0123456789abcdef") (Z.to_nat z).

(** ["%02x"] of a byte *)
Definition hex_byte (c : Z) : cstring := [hex_digit (c / 16); hex_digit (c mod 16)].

Definition pkg_checksum_encode_hex (input : list Z) (outlen : nat) : option cstring :=
  if (outlen <? length input * 2)%nat then None else Some (flat_map hex_byte input).

(** ** Entries *)

(** A NULL value is [None]. *)
Definition checksum_entry : Type := cstring * option cstring.

Definition pkg_checksum_add_entry (key : cstring) (value : option cstring)
    (entries : list checksum_entry) : list checksum_entry := entries ++ [(key, value)].

(** On entries whose values are not NULL. *)
Definition pkg_checksum_entry_cmp (e1 e2 : cstring * cstring) : Z :=
  let r := strcmp e1.1 e2.1 in
  if r =? 0 then strcmp e1.2 e2.2 else r.

(** Dereferences the values; a NULL one is undefined behaviour. *)
Definition entry_values (l : list checksum_entry) : option (list (cstring * cstring)) :=
  mapM (fun e => v ← snd e; Some (fst e, v)) l.

(** What is hashed: every field followed by its value. *)
Definition hash_input (l : list (cstring * cstring)) : cstring :=
  flat_map (fun e => e.1 ++ e.2) l.

Definition recopies : list nat := [PKG_NAME; PKG_ORIGIN; PKG_VERSION; PKG_ARCH].

Definition add_field (p : pkg) (entries : list checksum_entry) (attr : nat) : list checksum_entry :=
  match pkg_keys !! attr with
  | Some (key, _) =>
      match fields p !! key with
      | Some o => pkg_checksum_add_entry key (ucl_object_tostring o) entries
      | None => entries
      end
  | None => entries
  end.

(** The while loop over one list of the package. *)
Definition add_list {V} (f : V -> checksum_entry) (l : list V) (entries : list checksum_entry)
  : list checksum_entry :=
  fold_left (fun es v => pkg_checksum_add_entry (f v).1 (f v).2 es) l entries.

(** The entries before sorting; [None] when an iteration does not end. *)
Definition checksum_entries (p : pkg) : option (list checksum_entry) :=
  let entries := fold_left (add_field p) recopies [] in
  opts ← pkg_options p;
  let entries := add_list (fun o => (pkg_option_opt o, Some (pkg_option_value o))) opts entries in
  req ← pkg_shlibs_required p;
  let entries := add_list (fun s => (str "required_shlib", Some s)) req entries in
  prov ← pkg_shlibs_provided p;
  let entries := add_list (fun s => (str "provided_shlib", Some s)) prov entries in
  us ← pkg_users p;
  let entries := add_list (fun u => (str "user", Some (u_name u))) us entries in
  gs ← pkg_groups p;
  let entries := add_list (fun g => (str "group", Some (g_name g))) gs entries in
  ds ← pkg_deps p;
  Some (add_list (fun d => (str "depend", Some (dep_uid d))) ds entries).

Section generate.
Context (sha256 : cstring -> list Z).

(** The hash of the sorted entries. *)
Definition pkg_checksum_hash_sha256 (entries : list (cstring * cstring)) : list Z :=
  sha256 (hash_input entries).

Definition checksum_size (t : pkg_checksum_type_t) : option nat :=
  match t with
  | PKG_HASH_TYPE_SHA256_BASE32 | PKG_HASH_TYPE_SHA256_HEX => Some PKG_CHECKSUM_SHA256_LEN
  | PKG_HASH_TYPE_UNKNOWN => None
  end.

(** [hfunc] and [encfunc] of the type. *)
Definition checksum_encode (t : pkg_checksum_type_t) : list Z -> nat -> option cstring :=
  match t with
  | PKG_HASH_TYPE_SHA256_BASE32 => pkg_checksum_encode_base32
  | _ => pkg_checksum_encode_hex
  end.

Definition decimal_digit (z : Z) : ascii := chr (code "0" + z).

(** [snprintf("%d%c%d%c")] *)
Definition checksum_prefix (t : pkg_checksum_type_t) : cstring :=
  [decimal_digit PKG_CHECKSUM_CUR_VERSION; PKG_CKSUM_SEPARATOR;
   decimal_digit (type_code t); PKG_CKSUM_SEPARATOR].

(** The error code and the text of [dest].  An encoder that refuses the
    buffer leaves the prefix. *)
Definition pkg_checksum_generate (p : pkg) (destlen : nat) (t : pkg_checksum_type_t)
  : option (pkg_error_t * option cstring) :=
  match checksum_size t with
  | None => Some (EPKG_FATAL, None)
  | Some hlen =>
      if (destlen <? hlen)%nat then Some (EPKG_FATAL, None)
      else
        entries ← checksum_entries p ≫= entry_values;
        let bdigest := pkg_checksum_hash_sha256 (ll_sort pkg_checksum_entry_cmp entries) in
        if Nat.eqb (length bdigest) 0 then Some (EPKG_FATAL, None)
        else
          let prefix := checksum_prefix t in
          Some (EPKG_OK, Some (prefix ++ default [] (checksum_encode t bdigest (destlen - length prefix))))
  end.

(** [unsigned int value = strtoul(...)] *)
Definition strtoul32 (s : cstring) : Z := strtoul s mod 2 ^ 32.

Definition pkg_checksum_is_valid (cksum : cstring) (clen : nat) : bool :=
  if (clen <? 4)%nat then false
  else match strchr cksum PKG_CKSUM_SEPARATOR with
       | None => false
       | Some sep =>
           if negb (strtoul32 cksum =? PKG_CHECKSUM_CUR_VERSION) then false
           else
             let cksum := drop 1 sep in
             match strchr cksum PKG_CKSUM_SEPARATOR with
             | None => false
             | Some _ => strtoul32 cksum <? type_code PKG_HASH_TYPE_UNKNOWN
             end
       end.

Definition pkg_checksum_get_type (cksum : cstring) : pkg_checksum_type_t :=
  match strchr cksum PKG_CKSUM_SEPARATOR with
  | None => PKG_HASH_TYPE_UNKNOWN
  | Some sep =>
      let value := strtoul32 (drop 1 sep) in
      if value <? type_code PKG_HASH_TYPE_UNKNOWN then type_of_code value else PKG_HASH_TYPE_UNKNOWN
  end.

(** The name column of checksum_types. *)
Definition pkg_checksum_type_to_string (t : pkg_checksum_type_t) : option cstring :=
  match t with
  | PKG_HASH_TYPE_SHA256_BASE32 => Some (str "sha256_base32")
  | PKG_HASH_TYPE_SHA256_HEX => Some (str "sha256_hex")
  | PKG_HASH_TYPE_UNKNOWN => None
  end.

Definition pkg_checksum_type_from_string (name : cstring) : pkg_checksum_type_t :=
  default PKG_HASH_TYPE_UNKNOWN
    (find (fun t => match pkg_checksum_type_to_string t with
                    | Some n => strcasecmp name n =? 0
                    | None => false
                    end) [PKG_HASH_TYPE_SHA256_BASE32; PKG_HASH_TYPE_SHA256_HEX]).

Context (emit : ucl -> cstring).
(** pkg_repo_find and the digest_format of the repository's meta file. *)
Context (repo_digest_format : cstring -> option pkg_checksum_type_t).

(** [db] tells whether a database is given; the last component is the digest
    handed to pkgdb_set_pkg_digest. *)
Definition pkg_checksum_calculate (p : pkg) (db : bool)
  : option (pkg_error_t * pkg * option cstring) :=
  let t :=
    match pkg_get_string emit p PKG_REPONAME with
    | Some reponame => default PKG_HASH_TYPE_SHA256_BASE32 (repo_digest_format reponame)
    | None => PKG_HASH_TYPE_SHA256_BASE32
    end in
  match checksum_size t with
  | None => Some (EPKG_FATAL, p, None)
  | Some size =>
      '(ret, digest) ← pkg_checksum_generate p size t;
      match ret, digest with
      | EPKG_OK, Some digest =>
          '(_, p) ← pkg_set p PKG_DIGEST (ArgString (Some digest));
          Some (EPKG_OK, p, if db then Some digest else None)
      | _, _ => Some (EPKG_FATAL, p, None)
      end
  end.

(** pkg_validate (libpkg/pkg.c) *)
Definition pkg_validate (p : pkg) : option (pkg_error_t * pkg) :=
  let md := pkg_get_string emit p PKG_DIGEST in
  match (match pkg_get_string emit p PKG_UNIQUEID with
         | Some _ => Some (EPKG_OK, p)
         | None =>
             match pkg_get_string emit p PKG_NAME, pkg_get_string emit p PKG_ORIGIN with
             | Some name, Some origin =>
                 pkg_set p PKG_UNIQUEID (ArgString (Some (name ++ str "~" ++ origin)))
             | _, _ => Some (EPKG_FATAL, p)
             end
         end) with
  | Some (EPKG_OK, p) =>
      if match md with None => true | Some md => negb (pkg_checksum_is_valid md (length md)) end
      then '(ret, p, _) ← pkg_checksum_calculate p false; Some (ret, p)
      else Some (EPKG_OK, p)
  | r => r
  end.
End generate.

(** ** Base-32 text as a number

    The encoder writes the bytes as one little-endian number, five bits at a
    time, least significant first. *)

Definition le_value (base : Z) (l : list Z) : Z := fold_right (fun d acc => d + base * acc) 0 l.

Fixpoint le_digits (base : Z) (k : nat) (n : Z) : list Z :=
  match k with
  | O => []
  | S k => n mod base :: le_digits base k (n / base)
  end.

Definition byte_list (l : list Z) : Prop := Forall (fun c => 0 <= c < 256) l.

(** The position of a character in [b32]. *)
Definition b32_value (c : ascii) : Z :=
  match list_find (fun d => Ascii.eqb c d = true) b32 with Some (i, _) => Z.of_nat i | None => -1 end.

(** Reads [n] bytes back. *)
Definition decode_base32 (n : nat) (s : cstring) : list Z :=
  le_digits 256 n (le_value 32 (map b32_value s)).

Definition hex_value (c : ascii) : Z :=
  if isdigit c then code c - 48 else code c - 87.

Fixpoint decode_hex (s : cstring) : list Z :=
  match s with
  | a :: b :: r => (hex_value a * 16 + hex_value b) :: decode_hex r
  | _ => []
  end.

Lemma le_digits_length base k n : length (le_digits base k n) = k.
Proof. revert n; induction k as [|k IH]; intros n; simpl; [done|]. by rewrite IH. Qed.

Lemma le_value_range base l : 0 < base -> Forall (fun d => 0 <= d < base) l ->
  0 <= le_value base l < base ^ Z.of_nat (length l).
Proof.
  intros Hb. induction 1 as [|d l Hd _ IH]; [simpl; lia|].
  cbn [length le_value fold_right]. fold (le_value base l). rewrite Nat2Z.inj_succ, Z.pow_succ_r by lia. nia.
Qed.

(** Reading digits back. *)
Lemma le_digits_value base l k : 0 < base -> Forall (fun d => 0 <= d < base) l -> k = length l ->
  le_digits base k (le_value base l) = l.
Proof.
  intros Hb Hl ->. induction Hl as [|d l Hd Hl IH]; [done|].
  cbn [length le_digits le_value fold_right]. fold (le_value base l).
  rewrite (Z.mul_comm base), Z.mod_add, Z.mod_small, Z.div_add, Z.div_small by lia.
  by rewrite Z.add_0_l, IH.
Qed.

Lemma le_value_digits base k n : 0 < base -> 0 <= n < base ^ Z.of_nat k ->
  le_value base (le_digits base k n) = n.
Proof.
  intros Hb. revert n; induction k as [|k IH]; intros n Hn; [simpl in *; lia|].
  rewrite Nat2Z.inj_succ, Z.pow_succ_r in Hn by lia.
  cbn [le_digits le_value fold_right]. fold (le_value base (le_digits base k (n / base))).
  rewrite IH.
  - pose proof (Z.div_mod n base). lia.
  - split; [apply Z.div_pos; lia|]. apply Z.div_lt_upper_bound; lia.
Qed.

Lemma le_digits_range base k n : 0 < base -> Forall (fun d => 0 <= d < base) (le_digits base k n).
Proof.
  intros Hb. revert n; induction k as [|k IH]; intros n; constructor; [|apply IH].
  by apply Z.mod_pos_bound.
Qed.

(** The bits that are left over before the byte number [i]. *)
Definition left_bits (i : nat) : Z :=
  match (i mod 5)%nat with 0%nat => 0 | 1%nat => 3 | 2%nat => 1 | 3%nat => 4 | _ => 2 end.

(** What [remain] holds then. *)
Definition left_over (i : nat) (remain : Z) : Prop :=
  if Nat.eqb (i mod 5) 0 then remain = -1 else 0 <= remain < 2 ^ left_bits i.

Lemma lor_shift r c k : 0 <= k -> 0 <= r < 2 ^ k -> Z.lor r (Z.shiftl c k) = r + c * 2 ^ k.
Proof.
  intros Hk Hr. rewrite Z.shiftl_mul_pow2 by done.
  assert (Z.land r (c * 2 ^ k) = 0) as Hland.
  { apply Z.bits_inj'. intros n Hn. rewrite Z.land_spec, Z.bits_0, Z.mul_pow2_bits by done.
    destruct (Z.ltb_spec n k); [rewrite (Z.testbit_neg_r c) by lia; apply andb_false_r|].
    destruct (Z.eqb_spec r 0) as [->|]; [by rewrite Z.bits_0|].
    rewrite (Z.bits_above_log2 r n); [done|lia|]. apply Z.log2_lt_pow2; [lia|].
    apply (Z.lt_le_trans _ (2 ^ k)); [lia|]. apply Z.pow_le_mono_r; lia. }
  by rewrite Z.add_nocarry_lxor, Z.lxor_lor.
Qed.

Lemma land31 x : Z.land x 31 = x mod 32.
Proof. change 31 with (Z.ones 5). by rewrite Z.land_ones. Qed.

Lemma mod5_S i : (S i mod 5)%nat = (if Nat.eqb (i mod 5) 4 then 0 else S (i mod 5))%nat.
Proof.
  pose proof (Nat.mod_upper_bound i 5). rewrite <- (Nat.add_1_r i), Nat.Div0.add_mod. simpl (1 mod 5)%nat.
  destruct (Nat.eqb_spec (i mod 5) 4) as [->|]; [done|]. rewrite Nat.mod_small by lia. lia.
Qed.

(** One five-bit digit. *)
Lemma le_digits_S k v d rest : 0 <= d < 32 -> v = d + 32 * rest ->
  le_digits 32 (S k) v = d :: le_digits 32 k rest.
Proof.
  intros Hd ->. cbn [le_digits]. rewrite (Z.mul_comm 32), Z.mod_add, Z.mod_small, Z.div_add, Z.div_small by lia.
  by rewrite Z.add_0_l.
Qed.

Ltac zdiv := Z.to_euclidean_division_equations; lia.

(** The loop writes the number made of the bits left over and of the bytes to
    come. *)
Lemma base32_loop_spec input : byte_list input -> forall i r k,
  left_over i r -> 5 * Z.of_nat k - 5 < left_bits i + 8 * Z.of_nat (length input) <= 5 * Z.of_nat k ->
  base32_loop i r input =
  map b32_char (le_digits 32 k (Z.max 0 r + 2 ^ left_bits i * le_value 256 input)).
Proof.
  induction 1 as [|c input Hc Hin IH]; intros i r k Hr Hk.
  - pose proof (Nat.mod_upper_bound i 5 ltac:(done)) as Hi. cbn [base32_loop le_value fold_right length] in *.
    unfold left_over, left_bits in *.
    destruct (i mod 5)%nat as [|[|[|[|[|]]]]]; simpl in Hr; try lia.
    { subst r. assert (k = 0)%nat as -> by lia. done. }
    all: assert (k = 1)%nat as -> by lia; destruct (Z.leb_spec 0 r); [|lia].
    all: cbn [le_digits map]; rewrite Z.mod_small by lia; repeat f_equal; lia.
  - pose proof (Nat.mod_upper_bound i 5 ltac:(done)) as Hi.
    pose proof (mod5_S i) as Hs. specialize (IH (S i)). unfold left_over, left_bits in *.
    cbn [base32_loop le_value fold_right]. fold (le_value 256 input). unfold base32_step.
    rewrite Hs in IH. cbn [length] in Hk. rewrite Nat2Z.inj_succ in Hk.
    set (V := le_value 256 input) in *.
    destruct (i mod 5)%nat as [|[|[|[|[|]]]]] eqn:E; cbn in IH, Hr, Hk; try lia.
    + subst r. rewrite land31, Z.shiftr_div_pow2 by lia. change (2 ^ 5) with 32.
      destruct k as [|k]; [lia|]. rewrite (IH _ k) by zdiv.
      erewrite (le_digits_S k _ (c mod 32)); [reflexivity|zdiv|]. zdiv.
    + rewrite lor_shift, !land31, !Z.shiftr_div_pow2 by lia.
      change (2 ^ 3) with 8. change (2 ^ 5) with 32. change (2 ^ 10) with 1024.
      destruct k as [|[|k]]; [lia..|]. rewrite (IH _ k) by zdiv.
      erewrite (le_digits_S (S k)), (le_digits_S k); [reflexivity|zdiv|reflexivity|zdiv|].
      zdiv.
    + rewrite lor_shift, !land31, !Z.shiftr_div_pow2 by lia.
      change (2 ^ 1) with 2. change (2 ^ 5) with 32.
      destruct k as [|k]; [lia..|]. rewrite (IH _ k) by zdiv.
      erewrite (le_digits_S k); [reflexivity|zdiv|].
      zdiv.
    + rewrite lor_shift, !land31, !Z.shiftr_div_pow2 by lia.
      assert (Z.land ((r + c * 2 ^ 4) / 2 ^ 10) 3 = (r + c * 2 ^ 4) / 2 ^ 10) as ->.
      { change 3 with (Z.ones 2). rewrite Z.land_ones by lia. apply Z.mod_small. zdiv. }
      change (2 ^ 4) with 16. change (2 ^ 5) with 32. change (2 ^ 10) with 1024.
      destruct k as [|[|k]]; [lia..|]. rewrite (IH _ k) by zdiv.
      erewrite (le_digits_S (S k)), (le_digits_S k); [reflexivity|zdiv|reflexivity|zdiv|].
      zdiv.
    + rewrite lor_shift, !land31, !Z.shiftr_div_pow2 by lia.
      change (2 ^ 2) with 4. change (2 ^ 5) with 32.
      destruct k as [|[|k]]; [lia..|]. rewrite (IH _ k) by zdiv.
      erewrite (le_digits_S (S k)), (le_digits_S k); [reflexivity|zdiv|reflexivity|zdiv|].
      zdiv.
Qed.

Lemma b32_roundtrip x : 0 <= x < 32 -> b32_value (b32_char x) = x.
Proof.
  intros Hx. assert (forallb (fun n => b32_value (b32_char (Z.of_nat n)) =? Z.of_nat n) (seq 0 32) = true) as H
    by reflexivity.
  rewrite forallb_forall in H. specialize (H (Z.to_nat x)). rewrite in_seq, Z2Nat.id in H by lia.
  apply Z.eqb_eq, H. lia.
Qed.

Lemma map_b32_value l : Forall (fun d => 0 <= d < 32) l -> map b32_value (map b32_char l) = l.
Proof. induction 1 as [|d l Hd _ IH]; [done|]. simpl. by rewrite b32_roundtrip, IH. Qed.

Lemma le_value_byte_range input : byte_list input ->
  0 <= le_value 256 input < 2 ^ (8 * Z.of_nat (length input)).
Proof.
  intros H. rewrite Z.pow_mul_r by lia. by apply le_value_range.
Qed.

(** The number of characters for [n] bytes. *)
Definition base32_length (n : nat) : nat := ((8 * n + 4) / 5)%nat.

Lemma base32_length_spec n :
  5 * Z.of_nat (base32_length n) - 5 < 8 * Z.of_nat n <= 5 * Z.of_nat (base32_length n).
Proof.
  unfold base32_length. rewrite Nat2Z.inj_div, Nat2Z.inj_add, Nat2Z.inj_mul. zdiv.
Qed.

Lemma base32_text input : byte_list input ->
  base32_loop 0 (-1) input = map b32_char (le_digits 32 (base32_length (length input)) (le_value 256 input)).
Proof.
  intros Hb. rewrite (base32_loop_spec input Hb 0 (-1) (base32_length (length input))).
  - do 2 f_equal. cbn. lia.
  - done.
  - pose proof (base32_length_spec (length input)). change (left_bits 0) with 0. lia.
Qed.

Lemma base32_decode input : byte_list input ->
  decode_base32 (length input) (base32_loop 0 (-1) input) = input.
Proof.
  intros Hb. unfold decode_base32. rewrite base32_text by done.
  rewrite map_b32_value by (apply le_digits_range; lia).
  rewrite le_value_digits; [|lia|].
  - by apply le_digits_value.
  - pose proof (le_value_byte_range input Hb). pose proof (base32_length_spec (length input)).
    split; [lia|]. change 32 with (2 ^ 5). rewrite <- Z.pow_mul_r by lia.
    apply (Z.lt_le_trans _ (2 ^ (8 * Z.of_nat (length input)))); [lia|]. apply Z.pow_le_mono_r; lia.
Qed.

Lemma hex_digit_value x : 0 <= x < 16 -> hex_value (hex_digit x) = x.
Proof.
  intros Hx. assert (forallb (fun n => hex_value (hex_digit (Z.of_nat n)) =? Z.of_nat n) (seq 0 16) = true) as H
    by reflexivity.
  rewrite forallb_forall in H. specialize (H (Z.to_nat x)). rewrite in_seq, Z2Nat.id in H by lia.
  apply Z.eqb_eq, H. lia.
Qed.

Lemma hex_decode input : byte_list input -> decode_hex (flat_map hex_byte input) = input.
Proof.
  induction 1 as [|c l Hc _ IH]; [done|]. cbn [flat_map hex_byte app decode_hex].
  rewrite IH, !hex_digit_value by zdiv. f_equal. zdiv.
Qed.

Lemma hex_length input : length (flat_map hex_byte input) = (2 * length input)%nat.
Proof. induction input as [|c l IH]; [done|]. cbn [flat_map hex_byte app length]. rewrite IH. lia. Qed.

Lemma base32_text_length input : byte_list input ->
  length (base32_loop 0 (-1) input) = base32_length (length input).
Proof. intros Hb. by rewrite base32_text, length_map, le_digits_length. Qed.

(** Encoding is injective and reads back: whatever base-32 or hexadecimal
    text the encoders write for a sequence of bytes decodes to these bytes;
    the base-32 text is the little-endian number of the bytes in digits of
    five bits, in exactly (8n+4)/5 characters of the alphabet. *)
Theorem pkg_checksum_encode_roundtrip (input : list Z) (outlen : nat) (Hb : byte_list input) :
  (forall s, pkg_checksum_encode_base32 input outlen = Some s ->
     length s = base32_length (length input) /\
     s = map b32_char (le_digits 32 (base32_length (length input)) (le_value 256 input)) /\
     decode_base32 (length input) s = input) /\
  (forall s, pkg_checksum_encode_hex input outlen = Some s ->
     length s = (2 * length input)%nat /\ decode_hex s = input).
Proof.
  split; intros s; [unfold pkg_checksum_encode_base32|unfold pkg_checksum_encode_hex];
    destruct (_ <? _)%nat; try done; intros [= <-].
  - split_and!; [by apply base32_text_length|by apply base32_text|by apply base32_decode].
  - split; [apply hex_length|by apply hex_decode].
Qed.

Lemma pkg_checksum_encode_roundtrip_witness :
  byte_list [255; 1; 16] /\ exists s, pkg_checksum_encode_base32 [255; 1; 16] 5 = Some s /\
    decode_base32 3 s = [255; 1; 16].
Proof.
  assert (byte_list [255; 1; 16]) as Hb by (repeat constructor; lia).
  split; [exact Hb|]. eexists. split; [reflexivity|].
  destruct (pkg_checksum_encode_roundtrip [255; 1; 16] 5 Hb) as [H _].
  exact (proj2 (proj2 (H _ eq_refl))).
Defined.

(** The length tests of the encoders let a buffer through that is too
    small: with the smallest [outlen] they accept for n > 0 bytes, the
    characters and the final NUL do not fit. *)
Theorem pkg_checksum_encode_overrun (input : list Z) (Hb : byte_list input) (Hne : input <> []) :
  (exists s, pkg_checksum_encode_base32 input (length input * 8 / 5) = Some s /\
     (length input * 8 / 5 < length s + 1)%nat) /\
  (exists s, pkg_checksum_encode_hex input (length input * 2) = Some s /\
     (length input * 2 < length s + 1)%nat).
Proof.
  unfold pkg_checksum_encode_base32, pkg_checksum_encode_hex. rewrite !Nat.ltb_irrefl. split.
  - eexists. split; [done|]. rewrite base32_text_length by done. unfold base32_length.
    pose proof (Nat.Div0.div_le_mono (length input * 8) (8 * length input + 4) 5). lia.
  - eexists. split; [done|]. rewrite hex_length. lia.
Qed.

Lemma pkg_checksum_encode_overrun_witness :
  exists s, pkg_checksum_encode_base32 (repeat 255 32) 51 = Some s /\ (51 < length s + 1)%nat.
Proof.
  apply (pkg_checksum_encode_overrun (repeat 255 32)); [repeat constructor; lia|discriminate].
Defined.

(** ** The digest of a package *)

(** What the sources rely on about SHA256. *)
Definition sha256_ok (sha256 : cstring -> list Z) : Prop :=
  forall s, length (sha256 s) = SHA256_DIGEST_LENGTH /\ byte_list (sha256 s).

(** The hash that a digest text stands for. *)
Definition decode_digest (t : pkg_checksum_type_t) (text : cstring) : list Z :=
  match t with
  | PKG_HASH_TYPE_SHA256_BASE32 => decode_base32 SHA256_DIGEST_LENGTH (drop 4 text)
  | _ => decode_hex (drop 4 text)
  end.

Lemma prefix_valid t rest : t <> PKG_HASH_TYPE_UNKNOWN ->
  pkg_checksum_is_valid (checksum_prefix t ++ rest) (length (checksum_prefix t ++ rest)) = true /\
  pkg_checksum_get_type (checksum_prefix t ++ rest) = t /\
  drop 4 (checksum_prefix t ++ rest) = rest.
Proof. by destruct t. Qed.

Lemma checksum_encode_some t digest outlen : t <> PKG_HASH_TYPE_UNKNOWN ->
  length digest = SHA256_DIGEST_LENGTH -> byte_list digest -> (70 <= outlen)%nat ->
  exists s, checksum_encode t digest outlen = Some s /\ (length s <= 64)%nat /\
    decode_digest t (checksum_prefix t ++ s) = digest.
Proof.
  intros Ht Hl Hb Ho. unfold decode_digest. destruct t; [| |done]; cbn [checksum_encode].
  - unfold pkg_checksum_encode_base32. rewrite Hl. change (SHA256_DIGEST_LENGTH * 8 / 5)%nat with 51%nat.
    destruct (Nat.ltb_spec outlen 51); [lia|]. eexists. split_and!; [done| |].
    + rewrite base32_text_length, Hl by done. unfold base32_length, SHA256_DIGEST_LENGTH. apply Nat.leb_le. done.
    + change (drop 4 (checksum_prefix _ ++ ?x)) with x. rewrite <- Hl. by apply base32_decode.
  - unfold pkg_checksum_encode_hex. rewrite Hl. change (SHA256_DIGEST_LENGTH * 2)%nat with 64%nat.
    destruct (Nat.ltb_spec outlen 64); [lia|]. eexists. split_and!; [done| |].
    + rewrite hex_length, Hl. done.
    + change (drop 4 (checksum_prefix _ ++ ?x)) with x. by apply hex_decode.
Qed.

Lemma generate_text sha256 p destlen t entries : sha256_ok sha256 -> t <> PKG_HASH_TYPE_UNKNOWN ->
  (PKG_CHECKSUM_SHA256_LEN <= destlen)%nat -> checksum_entries p ≫= entry_values = Some entries ->
  exists text, pkg_checksum_generate sha256 p destlen t = Some (EPKG_OK, Some text) /\
    (length text < destlen)%nat /\
    pkg_checksum_is_valid text (length text) = true /\ pkg_checksum_get_type text = t /\
    decode_digest t text = sha256 (hash_input (ll_sort pkg_checksum_entry_cmp entries)).
Proof.
  intros Hs Ht Hd He. unfold pkg_checksum_generate.
  assert (checksum_size t = Some PKG_CHECKSUM_SHA256_LEN) as -> by (by destruct t).
  destruct (Nat.ltb_spec destlen PKG_CHECKSUM_SHA256_LEN); [lia|]. rewrite He. cbn [mbind option_bind].
  unfold pkg_checksum_hash_sha256. set (digest := sha256 _). destruct (Hs (hash_input (ll_sort pkg_checksum_entry_cmp entries))) as [Hl Hb].
  fold digest in Hl, Hb. rewrite Hl. change (Nat.eqb SHA256_DIGEST_LENGTH 0) with false. cbv iota.
  change (length (checksum_prefix t)) with 4%nat. change PKG_CHECKSUM_SHA256_LEN with 74%nat in *.
  destruct (checksum_encode_some t digest (destlen - 4) Ht Hl Hb) as (s & -> & Hs1 & Hs2); [lia|].
  cbn [default]. exists (checksum_prefix t ++ s). destruct (prefix_valid t s Ht) as (H1 & H2 & _).
  split_and!; [done| |done..]. rewrite length_app. change (length (checksum_prefix t)) with 4%nat. lia.
Qed.

(** C35: pkg_checksum_generate fails on an unknown type and on a buffer shorter
    than pkg_checksum_type_size; for any other it succeeds whenever the lists
    of the package can be walked and no field lacks its text, the result fits
    the buffer, is accepted by pkg_checksum_is_valid, has the type asked for,
    and decodes to the hash of the sorted entries. *)
Theorem pkg_checksum_generate_spec (sha256 : cstring -> list Z) (p : pkg) (destlen : nat)
  (t : pkg_checksum_type_t) (Hs : sha256_ok sha256) :
  (t = PKG_HASH_TYPE_UNKNOWN \/ (destlen < PKG_CHECKSUM_SHA256_LEN)%nat ->
   pkg_checksum_generate sha256 p destlen t = Some (EPKG_FATAL, None)) /\
  (forall entries, t <> PKG_HASH_TYPE_UNKNOWN -> (PKG_CHECKSUM_SHA256_LEN <= destlen)%nat ->
   checksum_entries p ≫= entry_values = Some entries ->
   exists text, pkg_checksum_generate sha256 p destlen t = Some (EPKG_OK, Some text) /\
     (length text < destlen)%nat /\
     pkg_checksum_is_valid text (length text) = true /\ pkg_checksum_get_type text = t /\
     decode_digest t text = sha256 (hash_input (ll_sort pkg_checksum_entry_cmp entries))).
Proof.
  split; [|intros entries; by apply generate_text].
  intros H. unfold pkg_checksum_generate.
  destruct t; cbn [checksum_size]; [| |done]; destruct H as [H|H]; try done;
    by destruct (Nat.ltb_spec destlen PKG_CHECKSUM_SHA256_LEN); [|lia].
Qed.

Lemma pkg_checksum_generate_spec_witness :
  sha256_ok (fun _ => repeat 7 32) /\
  pkg_checksum_generate (fun _ => repeat 7 32) (pkg_new PKG_FILE) 10 PKG_HASH_TYPE_SHA256_HEX = Some (EPKG_FATAL, None) /\
  exists text, pkg_checksum_generate (fun _ => repeat 7 32) (pkg_new PKG_FILE) 74 PKG_HASH_TYPE_SHA256_HEX = Some (EPKG_OK, Some text)
    /\ decode_digest PKG_HASH_TYPE_SHA256_HEX text = repeat 7 32.
Proof.
  assert (sha256_ok (fun _ => repeat 7 32)) as Hs by (split; [reflexivity|repeat constructor; lia]).
  split; [exact Hs|]. split.
  - apply (pkg_checksum_generate_spec (fun _ => repeat 7 32) (pkg_new PKG_FILE) 10 PKG_HASH_TYPE_SHA256_HEX Hs).
    right. apply Nat.ltb_lt. reflexivity.
  - edestruct (pkg_checksum_generate_spec (fun _ => repeat 7 32) (pkg_new PKG_FILE) 74 PKG_HASH_TYPE_SHA256_HEX Hs)
      as [_ H]. destruct (H [] ltac:(discriminate) ltac:(unfold PKG_CHECKSUM_SHA256_LEN; simpl; lia) eq_refl) as (text & H1 & _ & _ & _ & H2).
    exists text. split; [exact H1|exact H2].
Defined.

(** *** The order of the lists does not matter *)

#[export] Instance entry_cmp_comparison : Comparison pkg_checksum_entry_cmp.
Proof.
  apply (lex_comparison (fun a b => strcmp a.1 b.1) (fun a b => strcmp a.2 b.2)).
  - apply (key_comparison (fst : cstring * cstring -> cstring) strcmp), strcmp_comparison.
  - apply (key_comparison (snd : cstring * cstring -> cstring) strcmp), strcmp_comparison.
Qed.

Lemma entry_cmp_zero a b : pkg_checksum_entry_cmp a b = 0 -> a = b.
Proof.
  unfold pkg_checksum_entry_cmp. destruct a as [a1 a2], b as [b1 b2]. simpl.
  destruct (Z.eqb_spec (strcmp a1 b1) 0) as [H|H]; [|done].
  apply strcmp_zero in H as ->. by intros ->%strcmp_zero.
Qed.

(** Both walks fail, or both end and visit the same elements. *)
Definition same_list {V} (l1 l2 : option (list V)) : Prop :=
  match l1, l2 with
  | Some l1, Some l2 => l1 ≡ₚ l2
  | None, None => True
  | _, _ => False
  end.

(** Packages that differ in the order of their lists only, as far as the
    digest is concerned. *)
Record same_contents (p1 p2 : pkg) : Prop := mk_same {
  same_fields : forall attr key ty, attr ∈ recopies -> pkg_keys !! attr = Some (key, ty) ->
    fields p1 !! key = fields p2 !! key;
  same_options : same_list (pkg_options p1) (pkg_options p2);
  same_required : same_list (pkg_shlibs_required p1) (pkg_shlibs_required p2);
  same_provided : same_list (pkg_shlibs_provided p1) (pkg_shlibs_provided p2);
  same_users : same_list (pkg_users p1) (pkg_users p2);
  same_groups : same_list (pkg_groups p1) (pkg_groups p2);
  same_deps : same_list (pkg_deps p1) (pkg_deps p2) }.

Lemma add_list_app {V} (f : V -> checksum_entry) l es : add_list f l es = es ++ map f l.
Proof.
  unfold add_list. revert es; induction l as [|v l IH]; intros es; simpl; [by rewrite app_nil_r|].
  rewrite IH. unfold pkg_checksum_add_entry. rewrite <- app_assoc. simpl. by destruct (f v).
Qed.

Lemma add_list_perm {V} (f : V -> checksum_entry) l1 l2 es1 es2 : l1 ≡ₚ l2 -> es1 ≡ₚ es2 ->
  add_list f l1 es1 ≡ₚ add_list f l2 es2.
Proof. intros H1 H2. rewrite !add_list_app. by rewrite H1, H2. Qed.

Lemma entry_values_perm l1 l2 : l1 ≡ₚ l2 -> same_list (entry_values l1) (entry_values l2).
Proof.
  unfold entry_values. induction 1 as [|[k [v|]] l1 l2 _ IH|[k1 [v1|]] [k2 [v2|]] l|l1 l2 l3 _ IH1 _ IH2]; simpl; try done.
  - by destruct (mapM _ l1), (mapM _ l2); simpl in *; try done; constructor.
  - by destruct (mapM _ l); simpl; try done; constructor.
  - destruct (mapM _ l1), (mapM _ l2), (mapM _ l3); simpl in *; try done. by rewrite IH1.
Qed.

Lemma checksum_entries_same p1 p2 : same_contents p1 p2 ->
  same_list (checksum_entries p1) (checksum_entries p2).
Proof.
  intros [Hf Ho Hr Hp Hu Hg Hd]. unfold checksum_entries.
  assert (fold_left (add_field p1) recopies [] = fold_left (add_field p2) recopies []) as ->.
  { generalize (@nil checksum_entry). assert (forall attr, attr ∈ recopies -> attr ∈ recopies) as Hin by done.
    revert Hin. generalize recopies at 1 3 4. induction l as [|a l IH]; intros Hin es; [done|]. simpl.
    assert (add_field p1 es a = add_field p2 es a) as ->.
    { unfold add_field. destruct (pkg_keys !! a) as [[key ty]|] eqn:E; [|done].
      by rewrite (Hf a key ty (Hin a ltac:(left)) E). }
    apply IH. intros attr Ha. apply Hin. by right. }
  destruct (pkg_options p1), (pkg_options p2); simpl in Ho; try done. simpl.
  destruct (pkg_shlibs_required p1), (pkg_shlibs_required p2); simpl in Hr; try done. simpl.
  destruct (pkg_shlibs_provided p1), (pkg_shlibs_provided p2); simpl in Hp; try done. simpl.
  destruct (pkg_users p1), (pkg_users p2); simpl in Hu; try done. simpl.
  destruct (pkg_groups p1), (pkg_groups p2); simpl in Hg; try done. simpl.
  destruct (pkg_deps p1), (pkg_deps p2); simpl in Hd; try done. simpl.
  by repeat apply add_list_perm.
Qed.

(** The digest depends on what a package contains and not on the order in
    which its options, shared libraries, users, groups and dependencies were
    added. *)
Theorem pkg_checksum_generate_order (sha256 : cstring -> list Z) (p1 p2 : pkg) (destlen : nat)
  (t : pkg_checksum_type_t) (Hsame : same_contents p1 p2) :
  pkg_checksum_generate sha256 p1 destlen t = pkg_checksum_generate sha256 p2 destlen t.
Proof.
  unfold pkg_checksum_generate. destruct (checksum_size t); [|done]. destruct (_ <? _)%nat; [done|].
  pose proof (checksum_entries_same p1 p2 Hsame) as He.
  destruct (checksum_entries p1) as [e1|], (checksum_entries p2) as [e2|]; simpl in He; try done.
  simpl. pose proof (entry_values_perm e1 e2 He) as Hv.
  destruct (entry_values e1) as [v1|], (entry_values e2) as [v2|]; simpl in Hv; try done. simpl.
  by rewrite (ll_sort_invariant pkg_checksum_entry_cmp v1 v2 entry_cmp_zero Hv).
Qed.

Definition two_shlibs (a b : string) : pkg :=
  default (pkg_new PKG_FILE) (run_ops false [OpShlibRequired (str a); OpShlibRequired (str b)] (pkg_new PKG_FILE)).

Lemma pkg_checksum_generate_order_witness :
  pkg_checksum_generate (fun _ => repeat 7 32) (two_shlibs "liba" "libb") 80 PKG_HASH_TYPE_SHA256_HEX =
  pkg_checksum_generate (fun _ => repeat 7 32) (two_shlibs "libb" "liba") 80 PKG_HASH_TYPE_SHA256_HEX.
Proof.
  apply (pkg_checksum_generate_order (fun _ => repeat 7 32) (two_shlibs "liba" "libb") (two_shlibs "libb" "liba")).
  split; [intros; reflexivity|..]; try exact (Permutation_refl []).
  exact (perm_swap (str "libb") (str "liba") []).
Defined.

(** *** Fields run together *)

Definition one_option (key value : string) : pkg :=
  match pkg_addoption false (pkg_new PKG_FILE) (str key) (str value) with
  | Some (_, p) => p
  | None => pkg_new PKG_FILE
  end.

(** Fields and values are hashed without separators: packages with the
    different options A=BC and AB=C have the same digest, whatever the hash. *)
Theorem pkg_checksum_ambiguous (sha256 : cstring -> list Z) (destlen : nat) (t : pkg_checksum_type_t) :
  pkg_options (one_option "A" "BC") <> pkg_options (one_option "AB" "C") /\
  pkg_checksum_generate sha256 (one_option "A" "BC") destlen t =
  pkg_checksum_generate sha256 (one_option "AB" "C") destlen t.
Proof.
  split; [discriminate|]. unfold pkg_checksum_generate.
  assert (checksum_entries (one_option "A" "BC") ≫= entry_values = Some [(str "A", str "BC")]) as -> by reflexivity.
  assert (checksum_entries (one_option "AB" "C") ≫= entry_values = Some [(str "AB", str "C")]) as -> by reflexivity.
  reflexivity.
Qed.

(** *** Validation *)

Lemma get_string_uid emit p : pkg_get_string emit p PKG_UNIQUEID =
  ucl_object_tostring_forced emit <$> fields p !! str "uniqueid".
Proof. done. Qed.

Lemma get_string_digest emit p : pkg_get_string emit p PKG_DIGEST =
  ucl_object_tostring_forced emit <$> fields p !! str "digest".
Proof. done. Qed.

Lemma set_string_uid p s : pkg_set p PKG_UNIQUEID (ArgString (Some s)) =
  Some (EPKG_OK, set_fields p (<[str "uniqueid" := UString s]> (fields p))).
Proof. done. Qed.

Lemma set_string_digest p s : pkg_set p PKG_DIGEST (ArgString (Some s)) =
  Some (EPKG_OK, set_fields p (<[str "digest" := UString s]> (fields p))).
Proof. done. Qed.

Lemma uid_set_digest emit p x o :
  pkg_get_string emit (set_fields (set_fields p x) (<[str "digest" := o]> x)) PKG_UNIQUEID =
  pkg_get_string emit (set_fields p x) PKG_UNIQUEID.
Proof. rewrite !get_string_uid. cbn [fields set_fields]. by rewrite lookup_insert_ne. Qed.

Lemma calculate_ok sha256 emit repo p db p' d : sha256_ok sha256 ->
  pkg_checksum_calculate sha256 emit repo p db = Some (EPKG_OK, p', d) ->
  exists text, p' = set_fields p (<[str "digest" := UString text]> (fields p)) /\
    pkg_checksum_is_valid text (length text) = true.
Proof.
  intros Hs. unfold pkg_checksum_calculate. cbv zeta. set (t := match pkg_get_string _ _ _ with Some _ => _ | None => _ end).
  destruct (decide (t = PKG_HASH_TYPE_UNKNOWN)) as [->|Ht]; [done|].
  assert (checksum_size t = Some PKG_CHECKSUM_SHA256_LEN) as -> by (by destruct t).
  destruct (checksum_entries p ≫= entry_values) as [entries|] eqn:He.
  - destruct (generate_text sha256 p PKG_CHECKSUM_SHA256_LEN t entries Hs Ht ltac:(done) He) as (text & -> & _ & Hv & _).
    cbn [mbind option_bind]. rewrite set_string_digest. cbn [mbind option_bind]. intros [= <- _].
    by exists text.
  - unfold pkg_checksum_generate.
    assert (checksum_size t = Some PKG_CHECKSUM_SHA256_LEN) as -> by (by destruct t).
    rewrite Nat.ltb_irrefl, He. done.
Qed.

(** When pkg_validate succeeds, the package has a unique id (the one it
    had, or name~origin) and a digest that pkg_checksum_is_valid accepts (the
    one it had, if that was valid), and nothing but these two attributes has
    changed.  It fails without a change on a package that lacks the unique id
    and the name or the origin. *)
Theorem pkg_validate_spec (sha256 : cstring -> list Z) (emit : ucl -> cstring)
  (repo : cstring -> option pkg_checksum_type_t) (p : pkg) (Hs : sha256_ok sha256) :
  (pkg_get_string emit p PKG_UNIQUEID = None ->
   pkg_get_string emit p PKG_NAME = None \/ pkg_get_string emit p PKG_ORIGIN = None ->
   pkg_validate sha256 emit repo p = Some (EPKG_FATAL, p)) /\
  forall p', pkg_validate sha256 emit repo p = Some (EPKG_OK, p') ->
    (exists x, p' = set_fields p x /\
       forall k, k <> str "uniqueid" -> k <> str "digest" -> x !! k = fields p !! k) /\
    (match pkg_get_string emit p PKG_UNIQUEID with
     | Some uid => pkg_get_string emit p' PKG_UNIQUEID = Some uid
     | None => exists name origin, pkg_get_string emit p PKG_NAME = Some name /\
         pkg_get_string emit p PKG_ORIGIN = Some origin /\
         pkg_get_string emit p' PKG_UNIQUEID = Some (name ++ str "~" ++ origin)
     end) /\
    exists md, pkg_get_string emit p' PKG_DIGEST = Some md /\
      pkg_checksum_is_valid md (length md) = true /\
      (forall md0, pkg_get_string emit p PKG_DIGEST = Some md0 ->
         pkg_checksum_is_valid md0 (length md0) = true -> md = md0).
Proof.
  split.
  - intros H1 H2. unfold pkg_validate. rewrite H1. destruct H2 as [-> | ->]; [done|].
    by destruct (pkg_get_string emit p PKG_NAME).
  - intros p'. unfold pkg_validate.
    set (step := match pkg_get_string emit p PKG_UNIQUEID with Some _ => Some (EPKG_OK, p) | None => _ end).
    assert (forall q, step = Some (EPKG_OK, q) ->
      exists x, q = set_fields p x /\ (forall k, k <> str "uniqueid" -> x !! k = fields p !! k) /\
      match pkg_get_string emit p PKG_UNIQUEID with
      | Some uid => pkg_get_string emit q PKG_UNIQUEID = Some uid
      | None => exists name origin, pkg_get_string emit p PKG_NAME = Some name /\
         pkg_get_string emit p PKG_ORIGIN = Some origin /\
         pkg_get_string emit q PKG_UNIQUEID = Some (name ++ str "~" ++ origin)
      end) as Hstep.
    { intros q. unfold step. destruct (pkg_get_string emit p PKG_UNIQUEID) as [uid|] eqn:Eu.
      - intros [= <-]. exists (fields p). split_and!; [by destruct p|done|done].
      - destruct (pkg_get_string emit p PKG_NAME) as [name|], (pkg_get_string emit p PKG_ORIGIN) as [origin|]; try done.
        rewrite set_string_uid. intros [= <-]. eexists. split_and!; [done| |].
        + intros k Hk. by rewrite lookup_insert_ne.
        + exists name, origin. split_and!; [done|done|]. rewrite get_string_uid. cbn [fields set_fields].
          by rewrite lookup_insert_eq. }
    destruct step as [[[] q]|]; try done. destruct (Hstep q eq_refl) as (x & -> & Hx & Hu). clear Hstep.
    rewrite (get_string_digest emit p). destruct (fields p !! str "digest") as [o|] eqn:Ed; cbn [fmap option_fmap option_map].
    1: destruct (pkg_checksum_is_valid _ _) eqn:Ev; cbn [negb].
    + intros [= <-]. split; [exists x; split; [done|intros k H1 H2; by apply Hx]|]. split; [done|].
      rewrite get_string_digest. cbn [fields set_fields]. rewrite Hx, Ed by discriminate.
      eexists. split_and!; [reflexivity|done|]. by intros md0 [= <-].
    + destruct (pkg_checksum_calculate _ _ _ _ _) as [[[r q] d]|] eqn:Ec; [|done]. cbn [mbind option_bind]. intros [= -> <-].
      destruct (calculate_ok _ _ _ _ _ _ _ Hs Ec) as (text & -> & Hv).
      change (fields (set_fields p x)) with x. split_and!.
      * eexists. split; [reflexivity|]. intros k H1 H2. rewrite lookup_insert_ne by done. by apply Hx.
      * rewrite <- (uid_set_digest emit p x (UString text)) in Hu. exact Hu.
      * exists text. rewrite get_string_digest. cbn [fields set_fields]. rewrite lookup_insert_eq.
        split_and!; [done|done|]. intros md0 [= <-] Hv'. by rewrite Hv' in Ev.
    + destruct (pkg_checksum_calculate _ _ _ _ _) as [[[r q] d]|] eqn:Ec; [|done]. cbn [mbind option_bind]. intros [= -> <-].
      destruct (calculate_ok _ _ _ _ _ _ _ Hs Ec) as (text & -> & Hv).
      change (fields (set_fields p x)) with x. split_and!.
      * eexists. split; [reflexivity|]. intros k H1 H2. rewrite lookup_insert_ne by done. by apply Hx.
      * rewrite <- (uid_set_digest emit p x (UString text)) in Hu. exact Hu.
      * exists text. rewrite get_string_digest. cbn [fields set_fields]. rewrite lookup_insert_eq.
        split_and!; done.
Qed.

Lemma pkg_validate_spec_witness :
  pkg_validate (fun _ => repeat 7 32) (fun _ => []) (fun _ => None) (pkg_new PKG_FILE) = Some (EPKG_FATAL, pkg_new PKG_FILE).
Proof.
  refine (proj1 (pkg_validate_spec (fun _ => repeat 7 32) (fun _ => []) (fun _ => None) (pkg_new PKG_FILE) _) eq_refl (or_introl eq_refl)).
  split; [reflexivity|repeat constructor; lia].
Defined.
