(* ===== verification/PkgAudit.v ===== *)
(** * Vulnerability audit (libpkg/pkg_audit.c)

    [vulnxml_start_element], [vulnxml_end_element] and [vulnxml_handle_data]
    turn the SAX events of the VuXML file into audit entries;
    [pkg_audit_preprocess] sorts the entries by their prefix without globbing
    characters and computes the jump tables; [pkg_audit_is_vulnerable]
    searches the sorted items for the entries that match a package.

    The XML parser (expat) is the list of events it delivers; [fnmatch] and
    [qsort] are parameters.  A step that dereferences NULL or reads outside an
    array is [None]. *)
From S2P Require Import Prelude CString CSort Version Pkg.

(** ** Data *)

Inductive version_type := VT_NONE | EQ | LT | LTE | GT | GTE.

#[export] Instance version_type_eq_dec : EqDecision version_type.
Proof. solve_decision. Defined.

Definition vop_names (t : version_type) : cstring :=
  match t with
  | VT_NONE => str "" | EQ => str "=" | LT => str "<" | LTE => str "<=" | GT => str ">" | GTE => str ">="
  end.

Record audit_version := mk_av { av_version : option cstring; av_type : version_type }.
Record versions_range := mk_range { v1 : audit_version; v2 : audit_version }.

Definition no_version : audit_version := mk_av None VT_NONE.

(** [names] of a package: a name is NULL until its text arrives. *)
Record audit_package := mk_apkg { ap_names : list (option cstring); ap_versions : list versions_range }.

Record audit_entry := mk_entry {
  ae_pkgname : option cstring;
  ae_packages : list audit_package;
  ae_versions : list versions_range;
  ae_cve : list cstring;
  ae_url : option cstring;
  ae_desc : option cstring;
  ae_id : option cstring;
  ae_ref : bool }.

Definition entry_new : audit_entry := mk_entry None [] [] [] None None None false.

(** ** The VuXML parser *)

Inductive parse_state :=
  | PARSE_INIT | PARSE_VULN | PARSE_TOPIC | PARSE_PACKAGE | PARSE_PACKAGE_NAME | PARSE_RANGE
  | PARSE_RANGE_GT | PARSE_RANGE_GE | PARSE_RANGE_LT | PARSE_RANGE_LE | PARSE_RANGE_EQ | PARSE_CVE.

#[export] Instance parse_state_eq_dec : EqDecision parse_state.
Proof. solve_decision. Defined.

(** [ud_entries] is [audit->entries]. *)
Record userdata := mk_ud {
  cur_entry : option audit_entry;
  ud_entries : list audit_entry;
  ud_state : parse_state;
  range_num : nat }.

Inductive xml_event :=
  | StartElement (element : cstring) (attributes : list (cstring * cstring))
  | EndElement (element : cstring)
  | CharacterData (content : cstring).

Definition is_elt (element : cstring) (name : string) : bool := strcasecmp element (str name) =? 0.

Definition set_state (ud : userdata) (s : parse_state) : userdata :=
  mk_ud (cur_entry ud) (ud_entries ud) s (range_num ud).

Definition set_cur (ud : userdata) (e : audit_entry) : userdata :=
  mk_ud (Some e) (ud_entries ud) (ud_state ud) (range_num ud).

Definition set_packages (e : audit_entry) (ps : list audit_package) : audit_entry :=
  mk_entry (ae_pkgname e) ps (ae_versions e) (ae_cve e) (ae_url e) (ae_desc e) (ae_id e) (ae_ref e).
Definition set_desc (e : audit_entry) (d : cstring) : audit_entry :=
  mk_entry (ae_pkgname e) (ae_packages e) (ae_versions e) (ae_cve e) (ae_url e) (Some d) (ae_id e) (ae_ref e).
Definition set_cve (e : audit_entry) (c : list cstring) : audit_entry :=
  mk_entry (ae_pkgname e) (ae_packages e) (ae_versions e) c (ae_url e) (ae_desc e) (ae_id e) (ae_ref e).

(** Applies [f] to [cur_entry->packages], the head package; [None] when there
    is no entry or no package. *)
Definition upd_package (ud : userdata) (f : audit_package -> option audit_package) : option userdata :=
  e ← cur_entry ud;
  match ae_packages e with
  | [] => None
  | p :: ps => p ← f p; Some (set_cur ud (set_packages e (p :: ps)))
  end.

(** The "vid" attribute. *)
Definition find_vid (attributes : list (cstring * cstring)) : option cstring :=
  snd <$> find (fun a => strcasecmp a.1 (str "vid") =? 0) attributes.

Definition vulnxml_start_element (ud : userdata) (element : cstring)
    (attributes : list (cstring * cstring)) : option userdata :=
  match ud_state ud with
  | PARSE_INIT =>
      if is_elt element "vuln" then
        Some (mk_ud (Some (mk_entry None [] [] [] None None (find_vid attributes) false))
                (ud_entries ud) PARSE_VULN (range_num ud))
      else Some ud
  | PARSE_VULN =>
      if is_elt element "topic" then Some (set_state ud PARSE_TOPIC)
      else if is_elt element "package" then
        e ← cur_entry ud;
        Some (set_state (set_cur ud (set_packages e (mk_apkg [] [] :: ae_packages e))) PARSE_PACKAGE)
      else if is_elt element "cvename" then Some (set_state ud PARSE_CVE)
      else Some ud
  | PARSE_PACKAGE =>
      if is_elt element "name" then
        ud ← upd_package ud (fun p => Some (mk_apkg (None :: ap_names p) (ap_versions p)));
        Some (set_state ud PARSE_PACKAGE_NAME)
      else if is_elt element "range" then
        ud ← upd_package ud (fun p => Some (mk_apkg (ap_names p) (mk_range no_version no_version :: ap_versions p)));
        Some (mk_ud (cur_entry ud) (ud_entries ud) PARSE_RANGE 0)
      else Some ud
  | PARSE_RANGE =>
      let next s := Some (mk_ud (cur_entry ud) (ud_entries ud) s (S (range_num ud))) in
      if is_elt element "gt" then next PARSE_RANGE_GT
      else if is_elt element "ge" then next PARSE_RANGE_GE
      else if is_elt element "lt" then next PARSE_RANGE_LT
      else if is_elt element "le" then next PARSE_RANGE_LE
      else if is_elt element "eq" then next PARSE_RANGE_EQ
      else Some ud
  | _ => Some ud
  end.

(** One entry per name of every package, then the entry itself, each put in
    front; an entry without a named package is dropped. *)
Definition ref_entry (entry : audit_entry) (p : audit_package) (name : option cstring) : audit_entry :=
  mk_entry name [] (ap_versions p) (ae_cve entry) (ae_url entry) (ae_desc entry) (ae_id entry) true.

Definition pkg_audit_expand_entry (entry : audit_entry) (head : list audit_entry) : list audit_entry :=
  match ae_packages entry with
  | [] => head
  | p :: _ =>
      match ap_names p with
      | [] => head
      | _ :: _ =>
          entry ::
          fold_left (fun h p => fold_left (fun h n => ref_entry entry p n :: h) (ap_names p) h)
            (ae_packages entry) head
      end
  end.

Definition vulnxml_end_element (ud : userdata) (element : cstring) : option userdata :=
  let goto name s := Some (if is_elt element name then set_state ud s else ud) in
  match ud_state ud with
  | PARSE_INIT => Some ud
  | PARSE_VULN =>
      if is_elt element "vuln" then
        e ← cur_entry ud;
        Some (mk_ud (cur_entry ud) (pkg_audit_expand_entry e (ud_entries ud)) PARSE_INIT (range_num ud))
      else Some ud
  | PARSE_TOPIC => goto "topic"%string PARSE_VULN
  | PARSE_CVE => goto "cvename"%string PARSE_VULN
  | PARSE_PACKAGE => goto "package"%string PARSE_VULN
  | PARSE_PACKAGE_NAME => goto "name"%string PARSE_PACKAGE
  | PARSE_RANGE => goto "range"%string PARSE_PACKAGE
  | PARSE_RANGE_GT => goto "gt"%string PARSE_RANGE
  | PARSE_RANGE_GE => goto "ge"%string PARSE_RANGE
  | PARSE_RANGE_LT => goto "lt"%string PARSE_RANGE
  | PARSE_RANGE_LE => goto "le"%string PARSE_RANGE
  | PARSE_RANGE_EQ => goto "eq"%string PARSE_RANGE
  end.

(** The text of a bound: [range_num] tells which of the two it is. *)
Definition set_bound (ud : userdata) (t : version_type) (content : cstring) : option userdata :=
  upd_package ud (fun p =>
    match ap_versions p with
    | [] => None
    | vers :: vs =>
        let vers := if Nat.eqb (range_num ud) 1 then mk_range (mk_av (Some content) t) (v2 vers)
                    else if Nat.eqb (range_num ud) 2 then mk_range (v1 vers) (mk_av (Some content) t)
                    else vers in
        Some (mk_apkg (ap_names p) (vers :: vs))
    end).

Definition vulnxml_handle_data (ud : userdata) (content : cstring) : option userdata :=
  match ud_state ud with
  | PARSE_INIT | PARSE_VULN | PARSE_PACKAGE | PARSE_RANGE => Some ud
  | PARSE_TOPIC => e ← cur_entry ud; Some (set_cur ud (set_desc e content))
  | PARSE_PACKAGE_NAME =>
      upd_package ud (fun p =>
        match ap_names p with
        | [] => None
        | _ :: ns => Some (mk_apkg (Some content :: ns) (ap_versions p))
        end)
  | PARSE_RANGE_GT => set_bound ud GT content
  | PARSE_RANGE_GE => set_bound ud GTE content
  | PARSE_RANGE_LT => set_bound ud LT content
  | PARSE_RANGE_LE => set_bound ud LTE content
  | PARSE_RANGE_EQ => set_bound ud EQ content
  | PARSE_CVE => e ← cur_entry ud; Some (set_cur ud (set_cve e (content :: ae_cve e)))
  end.

Definition xml_step (ud : userdata) (ev : xml_event) : option userdata :=
  match ev with
  | StartElement e a => vulnxml_start_element ud e a
  | EndElement e => vulnxml_end_element ud e
  | CharacterData c => vulnxml_handle_data ud c
  end.

Fixpoint xml_run (ud : userdata) (evs : list xml_event) : option userdata :=
  match evs with
  | [] => Some ud
  | ev :: evs => ud ← xml_step ud ev; xml_run ud evs
  end.

(** pkg_audit_parse_vulnxml: [ok] is the status XML_Parse returns after the
    events [evs]. *)
Definition pkg_audit_parse_vulnxml (entries : list audit_entry) (evs : list xml_event) (ok : bool)
  : option (pkg_error_t * list audit_entry) :=
  ud ← xml_run (mk_ud None entries PARSE_INIT 0) evs;
  Some (if ok then EPKG_OK else EPKG_FATAL, ud_entries ud).

(** ** The sorted items *)

Record audit_item := mk_item { it_e : audit_entry; noglob_len : nat; next_pfx_incr : nat }.

(** The name of an item: entries without a name are not made items. *)
Definition it_name (it : audit_item) : cstring := default [] (ae_pkgname (it_e it)).

Definition glob_char (c : ascii) : bool :=
  Ascii.eqb c "*" || Ascii.eqb c "?" || Ascii.eqb c "[" || Ascii.eqb c "{" || Ascii.eqb c "\".

Fixpoint pkg_audit_str_noglob_len (s : cstring) : nat :=
  match s with
  | [] => 0
  | c :: r => if glob_char c then 0 else S (pkg_audit_str_noglob_len r)
  end.

Definition pkg_audit_entry_cmp (e1 e2 : audit_item) : Z :=
  let min_len := if (noglob_len e1 <? noglob_len e2)%nat then noglob_len e1 else noglob_len e2 in
  let result := strncmp (it_name e1) (it_name e2) min_len in
  if result =? 0 then
    if (noglob_len e1 <? noglob_len e2)%nat then -1
    else if (noglob_len e2 <? noglob_len e1)%nat then 1
    else 0
  else result.

Definition set_incr (k : nat) (it : audit_item) : audit_item := mk_item (it_e it) (noglob_len it) k.

(** [for (i = 0; tofill > 1; i++, tofill--) base[i].next_pfx_incr = tofill;]
    with [base] an index. *)
Fixpoint fill_incr (base tofill : nat) (ret : list audit_item) : list audit_item :=
  match tofill with
  | S (S _ as k) => fill_incr (S base) k (alter (set_incr tofill) base ret)
  | _ => ret
  end.

(** The loop over [n], which ends at the terminating item; [k] items are
    left. *)
Fixpoint jump_loop (k n tofill : nat) (ret : list audit_item) : list audit_item :=
  match k with
  | O => ret
  | S k =>
      match ret !! (n - 1)%nat, ret !! n with
      | Some a, Some b =>
          if negb (noglob_len a =? noglob_len b)%nat
          then jump_loop k (S n) 1 (fill_incr (n - tofill) tofill ret)
          else if strcmp (it_name a) (it_name b) =? 0
          then jump_loop k (S n) (S tofill) ret
          else jump_loop k (S n) 1 ret
      | _, _ => ret
      end
  end.

(** [(size_t)pkgname[0]]: char is signed. *)
Definition first_byte (s : cstring) : Z :=
  let c := code (deref s) in if c <? 128 then c else c - 256 + 2 ^ 64.

(** [while (ret[i].e != NULL && (size_t)ret[i].e->pkgname[0] < n) i++;] on the
    items from [i] on: how far [i] moves. *)
Fixpoint skip_below (n : Z) (items : list audit_item) : nat :=
  match items with
  | [] => 0
  | it :: items => if first_byte (it_name it) <? n then S (skip_below n items) else 0
  end.

(** audit_entry_first_byte_idx[n], ..., audit_entry_first_byte_idx[n + k - 1]. *)
Fixpoint first_byte_loop (k : nat) (n : Z) (i : nat) (ret : list audit_item) : list nat :=
  match k with
  | O => []
  | S k => let i := (i + skip_below n (drop i ret))%nat in i :: first_byte_loop k (n + 1) i ret
  end.

Definition make_items (h : list audit_entry) : list audit_item :=
  flat_map (fun e => match ae_pkgname e with
                     | Some name => [mk_item e (pkg_audit_str_noglob_len name) 1]
                     | None => []
                     end) h.

Section preprocess.
(** The libc qsort with pkg_audit_entry_cmp. *)
Context (qsort : list audit_item -> list audit_item).

(** The items (without the terminating one) and the index of the first bytes.
    The array has a slot more than the list has entries; [ret[1]] is read
    always, so the list must not be empty. *)
Definition pkg_audit_preprocess (h : list audit_entry) : option (list audit_item * list nat) :=
  match h with
  | [] => None
  | _ :: _ =>
      let ret := qsort (make_items h) in
      let ret := jump_loop (length ret - 1) 1 0 ret in
      Some (ret, O :: first_byte_loop 255 1 0 ret)
  end.

Record audit := mk_audit {
  au_entries : list audit_entry; au_items : list audit_item; au_first : list nat;
  parsed : bool; loaded : bool }.

Definition pkg_audit_new : audit := mk_audit [] [] (replicate 256 0%nat) false false.

(** [evs], [ok]: the outcome of parsing the loaded file. *)
Definition pkg_audit_process (a : audit) (evs : list xml_event) (ok : bool) : option (pkg_error_t * audit) :=
  if negb (loaded a) then Some (EPKG_FATAL, a)
  else
    '(r, es) ← pkg_audit_parse_vulnxml (au_entries a) evs ok;
    if decide (r = EPKG_FATAL) then Some (EPKG_FATAL, mk_audit es (au_items a) (au_first a) (parsed a) (loaded a))
    else
      '(items, first) ← pkg_audit_preprocess es;
      Some (EPKG_OK, mk_audit es items first true (loaded a)).
End preprocess.

(** ** Matching *)

Definition pkg_audit_version_match (pkgversion : cstring) (v : audit_version) : bool :=
  match av_version v with
  | None => true
  | Some version =>
      let r := vercmp pkgversion version in
      if r =? -1 then bool_decide (av_type v = LT) || bool_decide (av_type v = LTE)
      else if r =? 0 then bool_decide (av_type v = EQ) || bool_decide (av_type v = LTE) || bool_decide (av_type v = GTE)
      else if r =? 1 then bool_decide (av_type v = GT) || bool_decide (av_type v = GTE)
      else false
  end.

Definition NL : cstring := [chr 10].

(** "%s" of a string that may be NULL. *)
Definition fmt_s (s : option cstring) : cstring := default (str "(null)") s.

Definition typed (v : audit_version) : bool := negb (bool_decide (av_type v = VT_NONE)).

Definition pkg_audit_print_versions (e : audit_entry) : cstring :=
  str "Affected versions:" ++ NL ++
  flat_map (fun vers =>
    let one v := vop_names (av_type v) ++ str " " ++ fmt_s (av_version v) in
    if typed (v1 vers) && typed (v2 vers) then one (v1 vers) ++ str " : " ++ one (v2 vers) ++ NL
    else if typed (v1 vers) then one (v1 vers) ++ NL
    else one (v2 vers) ++ NL) (ae_versions e).

(** What is appended to the buffer. *)
Definition pkg_audit_print_entry (e : audit_entry) (pkgname : cstring) (pkgversion : option cstring)
    (quiet : bool) : cstring :=
  if quiet then
    match pkgversion with
    | Some v => pkgname ++ str "-" ++ v ++ NL
    | None => pkgname ++ NL
    end
  else
    match pkgversion with
    | Some v => pkgname ++ str "-" ++ v ++ str " is vulnerable:" ++ NL
    | None => pkgname ++ str " is vulnerable:" ++ NL ++ pkg_audit_print_versions e
    end ++
    fmt_s (ae_desc e) ++ NL ++
    flat_map (fun c => str "CVE: " ++ c ++ NL) (ae_cve e) ++
    match ae_url e, ae_id e with
    | Some url, _ => str "WWW: " ++ url ++ NL ++ NL
    | None, Some id => str "WWW: http://portaudit.FreeBSD.org/" ++ id ++ str ".html" ++ NL ++ NL
    | None, None => []
    end.

Section search.
(** fnmatch(pattern, string, 0) == 0 *)
Context (fnmatch : cstring -> cstring -> bool).

(** The body of the inner loop for the entry of [it]: is the package
    affected, and what is printed. *)
Definition range_match (pkgversion : cstring) (vers : versions_range) : bool :=
  pkg_audit_version_match pkgversion (v1 vers) && pkg_audit_version_match pkgversion (v2 vers).

Definition affected (pkgname : cstring) (pkgversion : option cstring) (e : audit_entry) : bool :=
  fnmatch (default [] (ae_pkgname e)) pkgname &&
  match pkgversion with
  | None => true
  | Some v => existsb (range_match v) (ae_versions e)
  end.

(** The inner loop over the items with one name; the last component tells
    whether it left through [goto out]. *)
Fixpoint inner_loop (items : list audit_item) (pkgname : cstring) (pkgversion : option cstring)
    (quiet res : bool) (sb : cstring) : bool * cstring * bool :=
  match items with
  | [] => (res, sb, false)
  | it :: items =>
      if negb (fnmatch (it_name it) pkgname) then inner_loop items pkgname pkgversion quiet res sb
      else
        let '(res, sb) :=
          if affected pkgname pkgversion (it_e it)
          then (true, sb ++ pkg_audit_print_entry (it_e it) pkgname pkgversion quiet)
          else (res, sb) in
        if res && quiet then (res, sb, true)
        else inner_loop items pkgname pkgversion quiet res sb
  end.

(** The outer loop from the item the pointer [a] is at; [None] when the fuel
    runs out or a jump leaves the array. *)
Fixpoint outer_loop (fuel : nat) (a : list audit_item) (pkgname : cstring)
    (pkgversion : option cstring) (quiet res : bool) (sb : cstring) : option (bool * cstring) :=
  match fuel with
  | O => None
  | S fuel =>
      match a with
      | [] => Some (res, sb)
      | it :: _ =>
          if (length a <? next_pfx_incr it)%nat then None
          else
            let cmp := strncmp pkgname (it_name it) (noglob_len it) in
            if 0 <? cmp then outer_loop fuel (drop (next_pfx_incr it) a) pkgname pkgversion quiet res sb
            else if cmp <? 0 then Some (res, sb)
            else
              let '(res, sb, out) := inner_loop (take (next_pfx_incr it) a) pkgname pkgversion quiet res sb in
              if out then Some (res, sb)
              else outer_loop fuel (drop (next_pfx_incr it) a) pkgname pkgversion quiet res sb
      end
  end.

(** [result] is written only when the package is vulnerable. *)
Definition pkg_audit_is_vulnerable (a : audit) (pkgname : cstring) (pkgversion : option cstring)
    (quiet : bool) : option (bool * option cstring) :=
  if negb (parsed a) then Some (false, None)
  else
    i ← (if first_byte pkgname <? 256 then au_first a !! Z.to_nat (first_byte pkgname) else None);
    '(res, sb) ← outer_loop (S (length (au_items a))) (drop i (au_items a)) pkgname pkgversion quiet false [];
    Some (res, if (res : bool) then Some sb else None).
End search.

(** ** The parser does not dereference NULL *)

(** What the handlers dereference in each state exists. *)
Definition xml_inv (ud : userdata) : Prop :=
  match ud_state ud with
  | PARSE_INIT => True
  | PARSE_VULN | PARSE_TOPIC | PARSE_CVE => exists e, cur_entry ud = Some e
  | PARSE_PACKAGE => exists e p ps, cur_entry ud = Some e /\ ae_packages e = p :: ps
  | PARSE_PACKAGE_NAME =>
      exists e p ps n ns, cur_entry ud = Some e /\ ae_packages e = p :: ps /\ ap_names p = n :: ns
  | _ => exists e p ps v vs, cur_entry ud = Some e /\ ae_packages e = p :: ps /\ ap_versions p = v :: vs
  end.

Lemma xml_step_inv ud ev : xml_inv ud -> exists ud', xml_step ud ev = Some ud' /\ xml_inv ud'.
Proof.
  destruct ud as [cur es st rn]. intros Hi.
  destruct ev as [el attrs|el|content]; cbn [xml_step];
    unfold vulnxml_start_element, vulnxml_end_element, vulnxml_handle_data, set_bound, upd_package;
    cbn [ud_state cur_entry ud_entries range_num]; destruct st; unfold xml_inv in Hi; cbn in Hi; cbv beta zeta;
    repeat match goal with
    | H : exists _, _ |- _ => destruct H as [? H]
    | H : _ /\ _ |- _ => destruct H
    end; subst; cbn;
    repeat match goal with H : ae_packages _ = _ |- _ => rewrite H end; cbn;
    repeat match goal with H : ap_versions _ = _ |- _ => rewrite H | H : ap_names _ = _ |- _ => rewrite H end; cbn;
    repeat match goal with |- context [if is_elt ?a ?b then _ else _] => destruct (is_elt a b); cbn end;
    eexists; (split; [reflexivity|]); unfold xml_inv; cbn; eauto 12.
Qed.

(** Whatever elements and texts the XML parser delivers, in whatever
    order and nesting, the handlers never dereference a NULL entry, package,
    name or version range. *)
Theorem vulnxml_no_null (entries : list audit_entry) (evs : list xml_event) :
  exists ud, xml_run (mk_ud None entries PARSE_INIT 0) evs = Some ud /\ xml_inv ud.
Proof.
  assert (forall ud, xml_inv ud -> exists ud', xml_run ud evs = Some ud' /\ xml_inv ud') as H.
  { induction evs as [|ev evs IH]; intros ud Hi; [by exists ud|]. cbn [xml_run].
    destruct (xml_step_inv ud ev Hi) as (ud1 & -> & Hi1). by apply IH. }
  by apply H.
Qed.

(** ** What a well-formed document means *)

Inductive bound_kind := Bgt | Bge | Blt | Ble | Beq.

Definition bound_element (b : bound_kind) : cstring :=
  str match b with Bgt => "gt" | Bge => "ge" | Blt => "lt" | Ble => "le" | Beq => "eq" end.
Definition bound_type (b : bound_kind) : version_type :=
  match b with Bgt => GT | Bge => GTE | Blt => LT | Ble => LTE | Beq => EQ end.

Record doc_package := mk_dpkg { dp_names : list cstring; dp_ranges : list (list (bound_kind * cstring)) }.
Record doc_vuln := mk_dvuln {
  dv_vid : cstring; dv_topic : cstring; dv_packages : list doc_package; dv_cves : list cstring }.

(** The events of an element that holds one piece of text. *)
Definition text_element (name : cstring) (text : cstring) : list xml_event :=
  [StartElement name []; CharacterData text; EndElement name].

Definition range_events (r : list (bound_kind * cstring)) : list xml_event :=
  StartElement (str "range") [] ::
  flat_map (fun b => text_element (bound_element b.1) b.2) r ++ [EndElement (str "range")].

Definition package_events (p : doc_package) : list xml_event :=
  StartElement (str "package") [] ::
  flat_map (text_element (str "name")) (dp_names p) ++
  flat_map range_events (dp_ranges p) ++ [EndElement (str "package")].

Definition vuln_events (d : doc_vuln) : list xml_event :=
  StartElement (str "vuln") [(str "vid", dv_vid d)] ::
  text_element (str "topic") (dv_topic d) ++
  flat_map package_events (dv_packages d) ++
  flat_map (text_element (str "cvename")) (dv_cves d) ++ [EndElement (str "vuln")].

(** The first two bounds of a range. *)
Definition bound_of (b : option (bound_kind * cstring)) : audit_version :=
  match b with Some (k, v) => mk_av (Some v) (bound_type k) | None => no_version end.
Definition range_of (r : list (bound_kind * cstring)) : versions_range :=
  mk_range (bound_of (r !! 0%nat)) (bound_of (r !! 1%nat)).

Definition package_of (p : doc_package) : audit_package :=
  mk_apkg (rev (map Some (dp_names p))) (rev (map range_of (dp_ranges p))).

Definition entry_of (d : doc_vuln) : audit_entry :=
  mk_entry None (rev (map package_of (dv_packages d))) [] (rev (dv_cves d)) None
    (Some (dv_topic d)) (Some (dv_vid d)) false.

Lemma xml_run_cons ud ev evs : xml_run ud (ev :: evs) = xml_step ud ev ≫= fun ud => xml_run ud evs.
Proof. done. Qed.

Lemma xml_run_nil ud : xml_run ud [] = Some ud.
Proof. done. Qed.

#[local] Arguments xml_run : simpl never.

(** Runs one concrete event. *)
Ltac run_step :=
  match goal with |- context [xml_run _ (_ :: ?l)] =>
    let t := fresh "rest" in let E := fresh in
    remember l as t eqn:E in |- *; rewrite xml_run_cons; cbn;
    repeat match goal with
    | |- context [is_elt ?a ?b] =>
        let r := eval vm_compute in (is_elt a b) in change (is_elt a b) with r; cbv iota
    end; cbn; rewrite E; clear t E
  end.

Lemma xml_run_app ud e1 e2 : xml_run ud (e1 ++ e2) = xml_run ud e1 ≫= fun ud => xml_run ud e2.
Proof.
  revert ud; induction e1 as [|ev e1 IH]; intros ud; [done|].
  rewrite <- app_comm_cons, !xml_run_cons. destruct (xml_step ud ev); simpl; [apply IH|done].
Qed.

(** Goes on after the run that the equation [H] describes. *)
Ltac run_with H :=
  match type of H with ?a = _ =>
    match goal with |- ?b ≫= _ = _ => change b with a | |- ?b = _ => change b with a end end;
  rewrite H; cbn [mbind option_bind].

(** An entry under construction, its packages aside. *)
Definition with_packages (vid topic : cstring) (ps : list audit_package) (cves : list cstring) : audit_entry :=
  mk_entry None ps [] cves None (Some topic) (Some vid) false.

Lemma run_bounds vid topic names rs ps cves es (r : list (bound_kind * cstring)) (done : list (bound_kind * cstring)) :
  exists n, xml_run (mk_ud (Some (with_packages vid topic (mk_apkg names (range_of done :: rs) :: ps) cves)) es PARSE_RANGE (length done))
    (flat_map (fun b => text_element (bound_element b.1) b.2) r) =
  Some (mk_ud (Some (with_packages vid topic (mk_apkg names (range_of (done ++ r) :: rs) :: ps) cves)) es PARSE_RANGE n).
Proof.
  revert done; induction r as [|[k v] r IH]; intros done.
  - exists (length done). by rewrite app_nil_r.
  - destruct (IH (done ++ [(k, v)])) as [n Hn]. exists n. cbn [flat_map text_element app].
    rewrite <- app_assoc in Hn. simpl app in Hn. rewrite <- Hn. rewrite length_app. simpl length.
    rewrite Nat.add_1_r.
    destruct k; do 3 run_step; do 2 f_equal; destruct done as [|a [|b done]]; reflexivity.
Qed.

Lemma run_range vid topic names rs ps cves es rn (r : list (bound_kind * cstring)) :
  exists n, xml_run (mk_ud (Some (with_packages vid topic (mk_apkg names rs :: ps) cves)) es PARSE_PACKAGE rn)
    (range_events r) =
  Some (mk_ud (Some (with_packages vid topic (mk_apkg names (range_of r :: rs) :: ps) cves)) es PARSE_PACKAGE n).
Proof.
  destruct (run_bounds vid topic names rs ps cves es r []) as [n Hn]. exists n.
  unfold range_events. run_step. rewrite xml_run_app. run_with Hn. by run_step.
Qed.

Lemma run_ranges vid topic names rs ps cves es rn (l : list (list (bound_kind * cstring))) :
  exists n, xml_run (mk_ud (Some (with_packages vid topic (mk_apkg names rs :: ps) cves)) es PARSE_PACKAGE rn)
    (flat_map range_events l) =
  Some (mk_ud (Some (with_packages vid topic (mk_apkg names (rev (map range_of l) ++ rs) :: ps) cves)) es PARSE_PACKAGE n).
Proof.
  revert rs rn; induction l as [|r l IH]; intros rs rn; [by exists rn|].
  destruct (run_range vid topic names rs ps cves es rn r) as [k Hk].
  destruct (IH (range_of r :: rs) k) as [n Hn]. exists n.
  cbn [flat_map map rev]. rewrite xml_run_app, Hk. cbn [mbind option_bind]. by rewrite Hn, <- app_assoc.
Qed.

Lemma run_names vid topic names rs ps cves es rn (l : list cstring) :
  xml_run (mk_ud (Some (with_packages vid topic (mk_apkg names rs :: ps) cves)) es PARSE_PACKAGE rn)
    (flat_map (text_element (str "name")) l) =
  Some (mk_ud (Some (with_packages vid topic (mk_apkg (rev (map Some l) ++ names) rs :: ps) cves)) es PARSE_PACKAGE rn).
Proof.
  revert names; induction l as [|s l IH]; intros names; [done|].
  cbn [flat_map text_element app]. do 3 run_step. run_with (IH (Some s :: names)).
  cbn [map rev]. by rewrite <- app_assoc.
Qed.

Lemma run_package vid topic ps cves es rn (p : doc_package) :
  exists n, xml_run (mk_ud (Some (with_packages vid topic ps cves)) es PARSE_VULN rn) (package_events p) =
  Some (mk_ud (Some (with_packages vid topic (package_of p :: ps) cves)) es PARSE_VULN n).
Proof.
  destruct (run_ranges vid topic (rev (map Some (dp_names p))) [] ps cves es rn (dp_ranges p)) as [n Hn].
  exists n. unfold package_events. run_step. rewrite xml_run_app.
  run_with (run_names vid topic [] [] ps cves es rn (dp_names p)).
  rewrite app_nil_r, xml_run_app, Hn. cbn [mbind option_bind]. run_step.
  unfold package_of. by rewrite app_nil_r.
Qed.

Lemma run_packages vid topic ps cves es rn (l : list doc_package) :
  exists n, xml_run (mk_ud (Some (with_packages vid topic ps cves)) es PARSE_VULN rn) (flat_map package_events l) =
  Some (mk_ud (Some (with_packages vid topic (rev (map package_of l) ++ ps) cves)) es PARSE_VULN n).
Proof.
  revert ps rn; induction l as [|p l IH]; intros ps rn; [by exists rn|].
  destruct (run_package vid topic ps cves es rn p) as [k Hk].
  destruct (IH (package_of p :: ps) k) as [n Hn]. exists n.
  cbn [flat_map map rev]. rewrite xml_run_app, Hk. cbn [mbind option_bind]. by rewrite Hn, <- app_assoc.
Qed.

Lemma run_cves vid topic ps cves es rn (l : list cstring) :
  xml_run (mk_ud (Some (with_packages vid topic ps cves)) es PARSE_VULN rn) (flat_map (text_element (str "cvename")) l) =
  Some (mk_ud (Some (with_packages vid topic ps (rev l ++ cves))) es PARSE_VULN rn).
Proof.
  revert cves; induction l as [|c l IH]; intros cves; [done|].
  cbn [flat_map text_element app]. do 3 run_step. run_with (IH (c :: cves)).
  cbn [rev]. by rewrite <- app_assoc.
Qed.

Lemma run_vuln d cur es rn :
  exists n, xml_run (mk_ud cur es PARSE_INIT rn) (vuln_events d) =
  Some (mk_ud (Some (entry_of d)) (pkg_audit_expand_entry (entry_of d) es) PARSE_INIT n).
Proof.
  destruct (run_packages (dv_vid d) (dv_topic d) [] [] es rn (dv_packages d)) as [n Hn]. exists n.
  unfold vuln_events. cbn [text_element app]. do 4 run_step. rewrite xml_run_app. run_with Hn.
  rewrite xml_run_app, run_cves, !app_nil_r. cbn [mbind option_bind]. by run_step.
Qed.

(** A document is read as written: parsing the events of a list of
    vulnerabilities (names, version ranges of up to two bounds, topic, CVE
    names, vid; each text delivered in one piece) adds for each of them, in
    order, the entries pkg_audit_expand_entry makes of it. *)
Theorem vulnxml_parse_document (ds : list doc_vuln) (entries : list audit_entry) (ok : bool) :
  pkg_audit_parse_vulnxml entries (flat_map vuln_events ds) ok =
  Some (if ok then EPKG_OK else EPKG_FATAL,
        fold_left (fun es d => pkg_audit_expand_entry (entry_of d) es) ds entries).
Proof.
  unfold pkg_audit_parse_vulnxml.
  assert (forall cur es rn, exists cur' n, xml_run (mk_ud cur es PARSE_INIT rn) (flat_map vuln_events ds) =
    Some (mk_ud cur' (fold_left (fun es d => pkg_audit_expand_entry (entry_of d) es) ds es) PARSE_INIT n)) as H.
  { induction ds as [|d ds IH]; intros cur es rn; [by exists cur, rn|].
    cbn [flat_map fold_left]. destruct (run_vuln d cur es rn) as [n Hn]. rewrite xml_run_app, Hn. apply IH. }
  destruct (H None entries 0%nat) as (cur & n & ->). done.
Qed.

(** Text that the XML parser delivers in two pieces is cut: only the
    second piece of a package name is kept. *)
Theorem vulnxml_split_text (vid topic a b : cstring) (entries : list audit_entry) (ok : bool) :
  pkg_audit_parse_vulnxml entries
    (StartElement (str "vuln") [(str "vid", vid)] :: text_element (str "topic") topic ++
     [StartElement (str "package") []; StartElement (str "name") []; CharacterData a; CharacterData b;
      EndElement (str "name"); EndElement (str "package"); EndElement (str "vuln")]) ok =
  Some (if ok then EPKG_OK else EPKG_FATAL,
        pkg_audit_expand_entry (entry_of (mk_dvuln vid topic [mk_dpkg [b] []] [])) entries).
Proof. reflexivity. Qed.

(** ** The search finds what a scan of all entries finds *)

(** The prefix without globbing characters. *)
Definition pfx (it : audit_item) : cstring := take (noglob_len it) (it_name it).

(** Items as [make_items] makes them. *)
Definition wf_item (it : audit_item) : Prop := noglob_len it = pkg_audit_str_noglob_len (it_name it).

Lemma noglob_le s : (pkg_audit_str_noglob_len s <= length s)%nat.
Proof. induction s as [|c s IH]; simpl; [done|]. destruct (glob_char c); lia. Qed.

Lemma pfx_length it : wf_item it -> length (pfx it) = noglob_len it.
Proof.
  intros Hw. unfold pfx. rewrite length_take. unfold wf_item in Hw. pose proof (noglob_le (it_name it)). lia.
Qed.

Lemma strcmp_nil_l b : strcmp [] b = match b with [] => 0 | _ => -1 end.
Proof. by destruct b. Qed.

(** A comparison is decided by the first bytes both strings have, then by the
    length. *)
Lemma strcmp_prefix a b :
  strcmp a b = then_cmp (strcmp (take (length a `min` length b) a) (take (length a `min` length b) b))
                 (zcmp (Z.of_nat (length a)) (Z.of_nat (length b))).
Proof.
  revert b; induction a as [|x a IH]; intros [|y b]; try done.
  cbn [strcmp length Nat.min take]. rewrite IH, !Nat2Z.inj_succ.
  assert (forall m n, zcmp (Z.succ m) (Z.succ n) = zcmp m n) as -> by (intros m n; unfold zcmp; split_cmp).
  unfold then_cmp. by destruct (zcmp (code x) (code y) =? 0) eqn:E; rewrite ?E.
Qed.

Lemma entry_cmp_pfx e1 e2 : wf_item e1 -> wf_item e2 ->
  pkg_audit_entry_cmp e1 e2 = strcmp (pfx e1) (pfx e2).
Proof.
  intros H1 H2. rewrite strcmp_prefix, !pfx_length by done. unfold pkg_audit_entry_cmp, strncmp, pfx.
  rewrite !take_take.
  assert ((if (noglob_len e1 <? noglob_len e2)%nat then noglob_len e1 else noglob_len e2) =
          noglob_len e1 `min` noglob_len e2)%nat as -> by (destruct (Nat.ltb_spec (noglob_len e1) (noglob_len e2)); lia).
  replace ((noglob_len e1 `min` noglob_len e2) `min` noglob_len e1)%nat with (noglob_len e1 `min` noglob_len e2)%nat by lia.
  replace ((noglob_len e1 `min` noglob_len e2) `min` noglob_len e2)%nat with (noglob_len e1 `min` noglob_len e2)%nat by lia.
  unfold then_cmp, zcmp.
  destruct (_ =? 0); [|done].
  destruct (Nat.ltb_spec (noglob_len e1) (noglob_len e2)), (Nat.ltb_spec (noglob_len e2) (noglob_len e1)); split_cmp.
Qed.

Lemma strcmp_take_le k s : strcmp (take k s) s <= 0.
Proof.
  revert k; induction s as [|c s IH]; intros [|k]; simpl; try lia.
  rewrite zcmp_refl. apply IH.
Qed.

Lemma strcmp_take_lt s p n : length p = n -> strcmp (take n s) p < 0 -> strcmp s p < 0.
Proof.
  intros <-. revert s; induction p as [|y p IH]; intros [|x s]; simpl; try lia.
  unfold then_cmp. destruct (_ =? 0); [apply IH|done].
Qed.

(** *** The jump table *)

(** Each increment stays in the array and jumps over items of one name. *)
Definition jumps_ok (l : list audit_item) : Prop :=
  forall k it, l !! k = Some it ->
    (1 <= next_pfx_incr it)%nat /\ (k + next_pfx_incr it <= length l)%nat /\
    forall j, (j < next_pfx_incr it)%nat -> it_name <$> l !! (k + j)%nat = Some (it_name it).

(** What the jump table does not touch. *)
Definition contents (l : list audit_item) : list (audit_entry * nat) := map (fun it => (it_e it, noglob_len it)) l.

Lemma alter_incr_name v b (l : list audit_item) (i : nat) : it_name <$> alter (set_incr v) b l !! i = it_name <$> l !! i.
Proof.
  destruct (decide (b = i)) as [->|]; [rewrite list_lookup_alter_eq|by rewrite list_lookup_alter_ne].
  by destruct (l !! i).
Qed.

Lemma alter_incr_contents v b (l : list audit_item) : contents (alter (set_incr v) b l) = contents l.
Proof.
  unfold contents. revert b; induction l as [|it l IH]; intros [|b]; simpl; try done. f_equal. apply IH.
Qed.

(** Items [base], ..., [base + k - 1] have one name. *)
Definition same_names (l : list audit_item) (base k : nat) : Prop :=
  forall i j, (i < k)%nat -> (j < k)%nat -> it_name <$> l !! (base + i)%nat = it_name <$> l !! (base + j)%nat.

Lemma fill_incr_SS base k l :
  fill_incr base (S (S k)) l = fill_incr (S base) (S k) (alter (set_incr (S (S k))) base l).
Proof. done. Qed.

Lemma fill_incr_contents base tofill l : contents (fill_incr base tofill l) = contents l.
Proof.
  revert base l; induction tofill as [|[|k] IH]; intros base l; [done..|].
  rewrite fill_incr_SS. by rewrite IH, alter_incr_contents.
Qed.

Lemma contents_length l1 l2 : contents l1 = contents l2 -> length l1 = length l2.
Proof. intros H. unfold contents in H. by rewrite <- (length_map (fun it => (it_e it, noglob_len it)) l1), H, length_map. Qed.

Lemma fill_incr_ok base tofill l : jumps_ok l -> (base + tofill <= length l)%nat -> same_names l base tofill ->
  jumps_ok (fill_incr base tofill l).
Proof.
  revert base l; induction tofill as [|[|k] IH]; intros base l Hj Hl Hs; [done..|].
  rewrite fill_incr_SS. apply IH.
  - intros i it. destruct (decide (base = i)) as [<-|Hne].
    + rewrite list_lookup_alter_eq. destruct (l !! base) as [it0|] eqn:E; [|done]. intros [= <-].
      rewrite length_alter. cbn [set_incr next_pfx_incr]. split_and!; [lia|lia|].
      intros j Hj'. rewrite alter_incr_name. rewrite (Hs j 0%nat) by lia. by rewrite Nat.add_0_r, E.
    + rewrite list_lookup_alter_ne by done. rewrite length_alter. intros H.
      destruct (Hj i it H) as (H1 & H2 & H3). split_and!; [done|done|].
      intros j Hj'. rewrite alter_incr_name. by apply H3.
  - rewrite length_alter. lia.
  - intros i j Hi Hj'. rewrite !alter_incr_name.
    replace (S base + i)%nat with (base + S i)%nat by lia. replace (S base + j)%nat with (base + S j)%nat by lia.
    apply Hs; lia.
Qed.

Lemma contents_name l1 l2 (i : nat) : contents l1 = contents l2 -> it_name <$> l1 !! i = it_name <$> l2 !! i.
Proof.
  intros H. assert (contents l1 !! i = contents l2 !! i) as Hi by (by rewrite H).
  unfold contents in Hi. rewrite !list_lookup_fmap in Hi.
  destruct (l1 !! i) as [a|], (l2 !! i) as [b|]; simpl in *; try done.
  injection Hi as H1 _. unfold it_name. by rewrite H1.
Qed.

Lemma jump_loop_ok k n tofill l : jumps_ok l -> (1 <= n)%nat -> (n + k = length l)%nat ->
  (tofill <= n)%nat -> same_names l (n - tofill) tofill ->
  jumps_ok (jump_loop k n tofill l) /\ contents (jump_loop k n tofill l) = contents l.
Proof.
  revert n tofill l; induction k as [|k IH]; intros n tofill l Hj Hn Hl Ht Hs; [done|].
  assert (forall l0 m, same_names l0 m 1) as Hone.
  { intros l0 m i j Hi Hj'. by replace i with j by lia. }
  cbn [jump_loop].
  destruct (lookup_lt_is_Some_2 l (n - 1)) as [a Ha]; [lia|]. destruct (lookup_lt_is_Some_2 l n) as [b Hb]; [lia|].
  rewrite Ha, Hb. destruct (noglob_len a =? noglob_len b)%nat; cbn [negb].
  - destruct (Z.eqb_spec (strcmp (it_name a) (it_name b)) 0) as [He|He].
    + apply strcmp_zero in He. apply IH; try done; try lia.
      intros i j Hi Hj'. replace (S n - S tofill)%nat with (n - tofill)%nat by lia.
      destruct (decide (tofill = 0%nat)) as [->|Ht0]; [by replace i with j by lia|].
      assert (forall x, (x < S tofill)%nat -> it_name <$> l !! (n - tofill + x)%nat = Some (it_name a)) as Hall.
      { intros x Hx. destruct (decide (x = tofill)) as [->|].
        - replace (n - tofill + tofill)%nat with n by lia. rewrite Hb. simpl. by rewrite He.
        - rewrite (Hs x (tofill - 1)%nat) by lia. replace (n - tofill + (tofill - 1))%nat with (n - 1)%nat by lia.
          by rewrite Ha. }
      by rewrite !Hall.
    + apply IH; try done; lia.
  - destruct (IH (S n) 1%nat (fill_incr (n - tofill) tofill l)) as [H1 H2]; try done; try lia.
    + apply fill_incr_ok; [done|lia|done].
    + rewrite (contents_length _ l) by apply fill_incr_contents. lia.
    + split; [done|]. by rewrite H2, fill_incr_contents.
Qed.

Lemma jumps_ok_one l : Forall (fun it => next_pfx_incr it = 1%nat) l -> jumps_ok l.
Proof.
  intros Hf k it Hk. rewrite Forall_forall in Hf. rewrite (Hf it) by (by eapply list_elem_of_lookup_2).
  pose proof (lookup_lt_Some _ _ _ Hk). split_and!; [lia|lia|]. intros j Hj.
  replace (k + j)%nat with k by lia. by rewrite Hk.
Qed.

Lemma jumps_ok_drop n l : jumps_ok l -> jumps_ok (drop n l).
Proof.
  intros Hj k it. rewrite lookup_drop. intros H. destruct (Hj _ _ H) as (H1 & H2 & H3).
  pose proof (lookup_lt_Some _ _ _ H). rewrite length_drop. split_and!; [lia|lia|].
  intros j Hj'. rewrite lookup_drop. replace (n + (k + j))%nat with (n + k + j)%nat by lia. by apply H3.
Qed.

(** *** The first-byte table *)

Lemma skip_below_spec n l : Forall (fun it => first_byte (it_name it) < n) (take (skip_below n l) l) /\
  (skip_below n l <= length l)%nat.
Proof.
  induction l as [|it l [IH1 IH2]]; simpl; [by split; [constructor|]|].
  destruct (Z.ltb_spec (first_byte (it_name it)) n); simpl; (split; [|lia]); [by constructor|constructor].
Qed.

Lemma first_byte_loop_spec k n i l j m : Forall (fun it => first_byte (it_name it) < n) (take i l) ->
  first_byte_loop k n i l !! j = Some m ->
  Forall (fun it => first_byte (it_name it) < n + Z.of_nat j) (take m l).
Proof.
  revert n i j; induction k as [|k IH]; intros n i j Hf; [done|]. cbn [first_byte_loop].
  set (i' := (i + skip_below n (drop i l))%nat).
  assert (Forall (fun it => first_byte (it_name it) < n) (take i' l)) as Hf'.
  { unfold i'. rewrite <- (take_drop i l) at 2. destruct (decide (i <= length l)%nat) as [Hi|Hi].
    - rewrite take_app. rewrite length_take_le by done.
      replace (i + skip_below n (drop i l) - i)%nat with (skip_below n (drop i l)) by lia.
      apply Forall_app. split; [|by apply skip_below_spec]. rewrite take_ge by (rewrite length_take; lia). done.
    - rewrite (drop_ge l i), app_nil_r by lia. rewrite take_take.
      replace ((i + skip_below n []) `min` i)%nat with i by lia. done. }
  destruct j as [|j]; simpl.
  - intros [= <-]. by rewrite Z.add_0_r.
  - intros H. eapply (IH (n + 1)) in H.
    + eapply Forall_impl; [exact H|]. intros it Hit. simpl in *. lia.
    + eapply Forall_impl; [exact Hf'|]. intros it Hit. simpl in *. lia.
Qed.

Lemma first_byte_loop_length k n i l : length (first_byte_loop k n i l) = k.
Proof. revert n i; induction k as [|k IH]; intros n i; simpl; [done|]. by rewrite IH. Qed.

(** *** The search *)

Section correct.
Context (fnmatch : cstring -> cstring -> bool).

(** Characters that are not special match themselves. *)
Definition fnmatch_literal : Prop :=
  forall pattern s, fnmatch pattern s = true ->
    take (pkg_audit_str_noglob_len pattern) s = take (pkg_audit_str_noglob_len pattern) pattern.

Context (name : cstring) (version : option cstring) (quiet : bool).

Definition hits (l : list audit_item) : list audit_item :=
  List.filter (fun it => affected fnmatch name version (it_e it)) l.

Definition printed (l : list audit_entry) : cstring :=
  flat_map (fun e => pkg_audit_print_entry e name version quiet) (if quiet then take 1 l else l).

Definition some_hit {A} (l : list A) : bool := match l with [] => false | _ => true end.

Lemma hits_app l1 l2 : hits (l1 ++ l2) = hits l1 ++ hits l2.
Proof. apply List.filter_app. Qed.

Lemma inner_loop_spec l res sb : (quiet = true -> res = false) ->
  inner_loop fnmatch l name version quiet res sb =
  (res || some_hit (hits l), sb ++ printed (map it_e (hits l)), quiet && some_hit (hits l)).
Proof.
  revert res sb; induction l as [|it l IH]; intros res sb Hq.
  - cbn. unfold printed. rewrite orb_false_r, andb_false_r. destruct quiet; cbn; by rewrite app_nil_r.
  - cbn [inner_loop hits List.filter]. fold (hits l).
    destruct (fnmatch (it_name it) name) eqn:Ef; cbn [negb].
    + destruct (affected fnmatch name version (it_e it)) eqn:Ea.
      * destruct quiet eqn:Eq; cbn [andb].
        -- rewrite Hq by done. unfold printed. rewrite Eq. cbn. by rewrite app_nil_r.
        -- rewrite IH by done. unfold printed. rewrite Eq. cbn. by rewrite orb_true_r, <- app_assoc.
      * destruct (res && quiet) eqn:Erq; [|by apply IH].
        apply andb_true_iff in Erq as [-> Hqt]. by specialize (Hq Hqt).
    + rewrite IH by done. unfold affected. unfold it_name in Ef. by rewrite Ef.
Qed.

Hypothesis (Hf : fnmatch_literal).

Lemma affected_prefix it : wf_item it -> affected fnmatch name version (it_e it) = true ->
  take (noglob_len it) name = pfx it.
Proof.
  intros Hw Ha. unfold affected in Ha. apply andb_true_iff in Ha as [Ha _]. apply Hf in Ha.
  unfold pfx. by rewrite Hw.
Qed.

Lemma no_hit it : wf_item it -> strncmp name (it_name it) (noglob_len it) <> 0 ->
  affected fnmatch name version (it_e it) = false.
Proof.
  intros Hw Hn. destruct (affected fnmatch name version (it_e it)) eqn:Ea; [|done].
  apply affected_prefix in Ea; [|done]. destruct Hn. unfold strncmp. fold (pfx it). rewrite Ea.
  apply strcmp_refl.
Qed.

Lemma hits_nil l : Forall (fun it => affected fnmatch name version (it_e it) = false) l -> hits l = [].
Proof. induction 1 as [|it l Hi _ IH]; [done|]. cbn. by rewrite Hi. Qed.

(** No later item matches once the prefix is larger than the name. *)
Lemma break_hits it l : Forall wf_item (it :: l) ->
  StronglySorted (fun p q => strcmp p q <= 0) (map pfx (it :: l)) ->
  strncmp name (it_name it) (noglob_len it) < 0 -> hits (it :: l) = [].
Proof.
  intros Hw Hs Hlt. apply hits_nil. apply Forall_cons in Hw as [Hwi Hw].
  inversion Hs as [|? ? _ Hall]; subst. rewrite Forall_map in Hall.
  assert (strcmp name (pfx it) < 0) as Hname.
  { eapply strcmp_take_lt; [by apply pfx_length|exact Hlt]. }
  constructor; [apply no_hit; [done|lia]|].
  rewrite Forall_forall in Hw, Hall |- *. intros it' Hin.
  destruct (affected fnmatch name version (it_e it')) eqn:Ea; [|done]. exfalso.
  apply affected_prefix in Ea; [|by apply Hw]. specialize (Hall it' Hin). simpl in Hall.
  pose proof (strcmp_take_le (noglob_len it') name) as Hle. rewrite Ea in Hle.
  pose proof (cmp_trans (cmp:=strcmp) _ _ _ Hall Hle).
  pose proof (cmp_antisym (cmp:=strcmp) name (pfx it)). lia.
Qed.

(** The items one jump passes over have the name of the first. *)
Lemma jump_hits it l k : Forall wf_item (it :: l) -> jumps_ok (it :: l) -> k = next_pfx_incr it ->
  strncmp name (it_name it) (noglob_len it) <> 0 -> hits (take k (it :: l)) = [].
Proof.
  intros Hw Hj -> Hn. apply hits_nil. apply Forall_forall. intros it' Hin.
  apply list_elem_of_lookup in Hin as [i Hi]. apply lookup_take_Some in Hi as [Hi Hlt].
  destruct (Hj 0%nat it eq_refl) as (_ & _ & Hsame). specialize (Hsame i Hlt). simpl Nat.add in Hsame.
  rewrite Hi in Hsame. injection Hsame as Hsame.
  assert (wf_item it' /\ wf_item it) as [Hw' Hwi].
  { split; [|by apply Forall_cons in Hw as [? _]]. rewrite Forall_forall in Hw. apply Hw.
    by eapply list_elem_of_lookup_2. }
  apply no_hit; [done|]. rewrite Hsame. by rewrite Hw', Hsame, <- Hwi.
Qed.

Lemma outer_loop_spec fuel l res sb : (length l < fuel)%nat -> Forall wf_item l -> jumps_ok l ->
  StronglySorted (fun p q => strcmp p q <= 0) (map pfx l) -> (quiet = true -> res = false) ->
  outer_loop fnmatch fuel l name version quiet res sb =
  Some (res || some_hit (hits l), sb ++ printed (map it_e (hits l))).
Proof.
  revert l res sb; induction fuel as [|fuel IH]; intros l res sb Hl Hw Hj Hs Hq; [lia|].
  destruct l as [|it l].
  { cbn. unfold printed. rewrite orb_false_r. destruct quiet; cbn; by rewrite app_nil_r. }
  cbn [outer_loop]. destruct (Hj 0%nat it eq_refl) as (H1 & H2 & _).
  destruct (Nat.ltb_spec (length (it :: l)) (next_pfx_incr it)); [simpl in *; lia|].
  set (k := next_pfx_incr it) in *.
  assert (forall res sb, (quiet = true -> res = false) ->
    outer_loop fnmatch fuel (drop k (it :: l)) name version quiet res sb =
    Some (res || some_hit (hits (drop k (it :: l))), sb ++ printed (map it_e (hits (drop k (it :: l)))))) as IHd.
  { intros res' sb' Hq'. apply IH; [rewrite length_drop; simpl in *; lia|by apply Forall_drop|by apply jumps_ok_drop| |done].
    rewrite <- skipn_map. rewrite <- (take_drop k (map pfx (it :: l))) in Hs.
    by apply StronglySorted_app in Hs as (_ & _ & Hs). }
  assert (hits (it :: l) = hits (take k (it :: l)) ++ hits (drop k (it :: l))) as Hsplit
    by (by rewrite <- hits_app, take_drop).
  destruct (Z.ltb_spec 0 (strncmp name (it_name it) (noglob_len it))).
  - rewrite IHd by done. by rewrite Hsplit, (jump_hits it l k Hw Hj eq_refl) by lia.
  - destruct (Z.ltb_spec (strncmp name (it_name it) (noglob_len it)) 0).
    + rewrite break_hits by done. cbn. unfold printed. rewrite orb_false_r. destruct quiet; cbn; by rewrite app_nil_r.
    + rewrite inner_loop_spec by done. rewrite Hsplit.
      destruct (hits (take k (it :: l))) as [|h hs] eqn:Eh.
      * cbn [some_hit map app]. rewrite orb_false_r, andb_false_r. unfold printed at 1.
        replace (if quiet then take 1 [] else []) with (@nil audit_entry) by (by destruct quiet).
        cbn [flat_map]. rewrite app_nil_r. by apply IHd.
      * cbn [some_hit]. rewrite orb_true_r, andb_true_r. destruct quiet eqn:Eq.
        -- unfold printed. cbn. by rewrite Eq, orb_true_r.
        -- rewrite IHd by done. unfold printed. rewrite Eq.
           rewrite map_app, flat_map_app, app_assoc. cbn [orb some_hit app]. by rewrite orb_true_r.
Qed.
End correct.

(** *** The whole of it *)

(** What qsort promises. *)
Definition qsort_ok (qsort : list audit_item -> list audit_item) : Prop :=
  forall l, qsort l ≡ₚ l /\
    (Forall wf_item l -> StronglySorted (fun a b => pkg_audit_entry_cmp a b <= 0) (qsort l)).

Definition has_name (e : audit_entry) : bool := match ae_pkgname e with Some _ => true | None => false end.

Lemma make_items_entries h : map it_e (make_items h) = List.filter has_name h.
Proof.
  unfold make_items. induction h as [|e h IH]; [done|]. cbn [flat_map List.filter]. unfold has_name at 1.
  destruct (ae_pkgname e); cbn; by rewrite ?IH.
Qed.

Lemma make_items_wf h : Forall (fun it => wf_item it /\ next_pfx_incr it = 1%nat) (make_items h).
Proof.
  unfold make_items. induction h as [|e h IH]; [constructor|]. cbn [flat_map].
  destruct (ae_pkgname e) as [n|] eqn:E; [|exact IH]. constructor; [|exact IH].
  split; [|done]. unfold wf_item, it_name. cbn. by rewrite E.
Qed.

Lemma wf_item_contents l1 l2 : contents l1 = contents l2 -> Forall wf_item l1 -> Forall wf_item l2.
Proof.
  intros Hc Hw. apply Forall_forall. intros it Hin. apply list_elem_of_lookup in Hin as [i Hi].
  assert (contents l1 !! i = contents l2 !! i) as H by (by rewrite Hc).
  unfold contents in H. rewrite !list_lookup_fmap, Hi in H. destruct (l1 !! i) as [it1|] eqn:E1; [|done].
  rewrite Forall_forall in Hw. specialize (Hw it1 ltac:(by eapply list_elem_of_lookup_2)).
  injection H as He Hn. unfold wf_item, it_name in *. by rewrite <- He, <- Hn.
Qed.

Lemma map_pfx_contents l1 l2 : contents l1 = contents l2 -> map pfx l1 = map pfx l2.
Proof.
  intros H. assert (forall l, map pfx l = map (fun c => take c.2 (default [] (ae_pkgname c.1))) (contents l)) as Hm.
  { intros l. unfold contents. by rewrite map_map. }
  by rewrite !Hm, H.
Qed.

Lemma map_entries_contents l1 l2 : contents l1 = contents l2 -> map it_e l1 = map it_e l2.
Proof.
  intros H. assert (forall l, map it_e l = map fst (contents l)) as Hm by (intros l; unfold contents; by rewrite map_map).
  by rewrite !Hm, H.
Qed.

Lemma sorted_pfx l : Forall wf_item l -> StronglySorted (fun a b => pkg_audit_entry_cmp a b <= 0) l ->
  StronglySorted (fun p q => strcmp p q <= 0) (map pfx l).
Proof.
  intros Hw Hs. induction Hs as [|it l Hs IH Hall]; [constructor|]. apply Forall_cons in Hw as [Hwi Hw].
  constructor; [by apply IH|]. apply Forall_map. rewrite Forall_forall in Hw, Hall |- *.
  intros it' Hin. simpl. rewrite <- entry_cmp_pfx; [by apply Hall|done|by apply Hw].
Qed.

Lemma filter_map_entries P l : map it_e (List.filter (fun it => P (it_e it)) l) = List.filter P (map it_e l).
Proof. induction l as [|it l IH]; [done|]. cbn. destruct (P (it_e it)); cbn; by rewrite IH. Qed.

Lemma filter_perm {A} (P : A -> bool) l1 l2 : l1 ≡ₚ l2 -> List.filter P l1 ≡ₚ List.filter P l2.
Proof.
  induction 1 as [|x l1 l2 _ IH|x y l|l1 l2 l3 _ IH1 _ IH2]; cbn; try done.
  - destruct (P x); by rewrite IH.
  - destruct (P x), (P y); done || constructor.
  - by rewrite IH1.
Qed.

Lemma first_byte_nonneg s : 0 <= first_byte s.
Proof. unfold first_byte. pose proof (code_range (deref s)). destruct (_ <? _); lia. Qed.

Lemma first_byte_ascii s : code (deref s) < 128 -> first_byte s = code (deref s).
Proof. intros H. unfold first_byte. by destruct (Z.ltb_spec (code (deref s)) 128); [|lia]. Qed.

(** Items below the first byte of the name do not match. *)
Lemma below_no_hits fnmatch name version l : fnmatch_literal fnmatch -> Forall wf_item l ->
  Forall (fun it => (0 < noglob_len it)%nat) l ->
  Forall (fun it => first_byte (it_name it) < first_byte name) l -> hits fnmatch name version l = [].
Proof.
  intros Hf Hw Hg Hb. apply hits_nil. apply Forall_forall. intros it Hin. rewrite Forall_forall in Hw, Hg, Hb.
  specialize (Hw it Hin). specialize (Hg it Hin). specialize (Hb it Hin). simpl in *.
  destruct (affected fnmatch name version (it_e it)) eqn:Ea; [|done]. exfalso.
  apply affected_prefix in Ea; [|done|done]. unfold pfx in Ea.
  assert (deref name = deref (it_name it)) as Hd.
  { destruct (noglob_len it); [lia|]. by destruct name, (it_name it); simpl in *; simplify_eq. }
  unfold first_byte in Hb. rewrite Hd in Hb. lia.
Qed.

Lemma preprocess_ok qsort h : qsort_ok qsort -> h <> [] ->
  exists items fb, pkg_audit_preprocess qsort h = Some (items, O :: fb) /\
    length fb = 255%nat /\
    (forall j i, fb !! j = Some i -> Forall (fun it => first_byte (it_name it) < 1 + Z.of_nat j) (take i items)) /\
    Forall wf_item items /\ jumps_ok items /\ StronglySorted (fun p q => strcmp p q <= 0) (map pfx items) /\
    map it_e items ≡ₚ List.filter has_name h.
Proof.
  intros Hq Hne. destruct (Hq (make_items h)) as [Hp Hs]. pose proof (make_items_wf h) as Hm.
  set (l := qsort (make_items h)) in *.
  assert (Forall (fun it => wf_item it /\ next_pfx_incr it = 1%nat) l) as Hl by (by rewrite Hp).
  apply Forall_and in Hl as [Hw H1]. exists (jump_loop (length l - 1) 1 0 l), (first_byte_loop 255 1 0 (jump_loop (length l - 1) 1 0 l)).
  split; [by destruct h|]. split; [apply first_byte_loop_length|].
  split; [intros j i; apply first_byte_loop_spec; constructor|].
  assert (jumps_ok (jump_loop (length l - 1) 1 0 l) /\ contents (jump_loop (length l - 1) 1 0 l) = contents l) as [Hj Hc].
  { destruct (decide (l = [])) as [->|Hl]; [done|]. assert (0 < length l)%nat by (by destruct l; simpl; [|lia]).
    apply jump_loop_ok; [by apply jumps_ok_one|lia|lia|lia|].
    intros i j Hi. lia. }
  split_and!; [by eapply wf_item_contents|done| |].
  - rewrite (map_pfx_contents _ _ Hc). apply sorted_pfx; [done|]. apply Hs.
    apply Forall_and in Hm. by destruct Hm.
  - rewrite (map_entries_contents _ _ Hc), Hp. by rewrite make_items_entries.
Qed.

(** C18: The optimised search is a linear scan.  For a non-empty list of
    entries none of whose names begins with a globbing character, after
    pkg_audit_preprocess the jumps and the table of first bytes skip no match:
    for a package name that begins with an ASCII character,
    pkg_audit_is_vulnerable says yes exactly when some entry matches by name
    and version, and prints the matching entries (the first one when quiet).
    qsort sorts and permutes; fnmatch matches ordinary characters literally. *)
Theorem pkg_audit_search_complete (qsort : list audit_item -> list audit_item)
  (fnmatch : cstring -> cstring -> bool) (h : list audit_entry)
  (name : cstring) (version : option cstring) (quiet : bool)
  (Hq : qsort_ok qsort) (Hf : fnmatch_literal fnmatch) (Hne : h <> [])
  (Hglob : Forall (fun e => forall n, ae_pkgname e = Some n -> (0 < pkg_audit_str_noglob_len n)%nat) h)
  (Hascii : code (deref name) < 128) :
  exists items first matching,
    pkg_audit_preprocess qsort h = Some (items, first) /\
    matching ≡ₚ List.filter (affected fnmatch name version) (List.filter has_name h) /\
    pkg_audit_is_vulnerable fnmatch (mk_audit h items first true true) name version quiet =
      Some (match matching with
            | [] => (false, None)
            | _ => (true, Some (printed name version quiet matching))
            end).
Proof.
  destruct (preprocess_ok qsort h Hq Hne) as (items & fb & Hpre & Hlen & Hfb & Hw & Hj & Hs & He).
  exists items, (O :: fb), (map it_e (hits fnmatch name version items)).
  split; [done|]. split; [unfold hits; by rewrite filter_map_entries, (filter_perm _ _ _ He)|].
  assert (Forall (fun it => (0 < noglob_len it)%nat) items) as Hg.
  { rewrite Forall_forall in Hw |- *. intros it Hin. rewrite (Hw it Hin).
    assert (it_e it ∈ List.filter has_name h) as Hin'.
    { rewrite <- He. apply list_elem_of_fmap. by exists it. }
    apply list_elem_of_In, List.filter_In in Hin' as [Hh Hn]. rewrite Forall_forall in Hglob.
    apply list_elem_of_In in Hh. specialize (Hglob _ Hh). unfold has_name in Hn. unfold it_name.
    destruct (ae_pkgname (it_e it)) as [n|]; [|done]. by apply Hglob. }
  unfold pkg_audit_is_vulnerable. cbn [parsed au_first au_items negb].
  rewrite first_byte_ascii by done. pose proof (code_range (deref name)) as Hr.
  destruct (Z.ltb_spec (code (deref name)) 256); [|lia].
  set (c := Z.to_nat (code (deref name))).
  assert (exists i, (O :: fb) !! c = Some i /\ hits fnmatch name version (take i items) = []) as (i & -> & Hi).
  { destruct c as [|c'] eqn:Ec; [by exists 0%nat|]. cbn [lookup list_lookup].
    destruct (lookup_lt_is_Some_2 fb c') as [i Hi]; [lia|].
    exists i. split; [exact Hi|]. apply below_no_hits; [done|by apply Forall_take|by apply Forall_take|].
    apply Hfb in Hi. eapply Forall_impl; [exact Hi|]. intros it Hit. simpl in Hit. rewrite (first_byte_ascii name) by done. lia. }
  cbn [mbind option_bind].
  assert (hits fnmatch name version items = hits fnmatch name version (drop i items)) as Hd
    by (by rewrite <- (take_drop i items) at 1; rewrite hits_app, Hi).
  rewrite outer_loop_spec; [|done|rewrite length_drop; lia|by apply Forall_drop|by apply jumps_ok_drop| |done].
  - rewrite Hd. cbn [mbind option_bind orb app]. by destruct (hits fnmatch name version (drop i items)).
  - rewrite <- skipn_map. rewrite <- (take_drop i (map pfx items)) in Hs.
    by apply StronglySorted_app in Hs as (_ & _ & Hs).
Qed.

(** The merge sort of utlist.h by prefix, and a simple matcher. *)
Definition sort_by_prefix : list audit_item -> list audit_item :=
  ll_sort (fun a b => strcmp (pfx a) (pfx b)).
Definition match_prefix (pattern s : cstring) : bool :=
  bool_decide (take (pkg_audit_str_noglob_len pattern) s = take (pkg_audit_str_noglob_len pattern) pattern).

Lemma sort_by_prefix_ok : qsort_ok sort_by_prefix.
Proof.
  intros l. split; [apply ll_sort_perm|]. intros Hw.
  pose proof (key_comparison pfx strcmp strcmp_comparison) as Hc.
  pose proof (ll_sort_sorted (fun a b => strcmp (pfx a) (pfx b)) l) as Hs.
  fold (sort_by_prefix l) in Hs.
  assert (Forall wf_item (sort_by_prefix l)) as Hw' by (unfold sort_by_prefix; by rewrite ll_sort_perm).
  induction Hs as [|it l' Hs IH Hall]; [constructor|]. apply Forall_cons in Hw' as [Hi Hw'].
  constructor; [by apply IH|]. rewrite Forall_forall in Hw', Hall |- *. intros it' Hin.
  rewrite entry_cmp_pfx; [by apply Hall|done|by apply Hw'].
Qed.

Definition named_entry (name : string) : audit_entry := mk_entry (Some (str name)) [] [mk_range no_version no_version] [] None None None true.

Lemma pkg_audit_search_complete_witness :
  exists items first matching,
    pkg_audit_preprocess sort_by_prefix [named_entry "zsh"; named_entry "bash*"] = Some (items, first) /\
    matching ≡ₚ [named_entry "bash*"] /\
    pkg_audit_is_vulnerable match_prefix (mk_audit [named_entry "zsh"; named_entry "bash*"] items first true true)
      (str "bash") (Some (str "1.0")) true =
      Some (match matching with [] => (false, None) | _ => (true, Some (printed (str "bash") (Some (str "1.0")) true matching)) end).
Proof.
  destruct (pkg_audit_search_complete sort_by_prefix match_prefix [named_entry "zsh"; named_entry "bash*"]
    (str "bash") (Some (str "1.0")) true sort_by_prefix_ok) as (items & first & matching & H1 & H2 & H3).
  - intros p s H. apply bool_decide_eq_true in H. exact H.
  - discriminate.
  - repeat constructor; intros n [= <-]; apply Nat.ltb_lt; reflexivity.
  - reflexivity.
  - exists items, first, matching. split; [exact H1|]. split; [exact H2|exact H3].
Defined.

(** An entry whose name begins with a globbing character is missed: with
    the single entry "*", no package whose name begins with a letter is ever
    reported, although the entry matches all versions of it. *)
Theorem pkg_audit_glob_missed (qsort : list audit_item -> list audit_item)
  (fnmatch : cstring -> cstring -> bool) (name : cstring) (version : option cstring) (quiet : bool)
  (Hq : qsort_ok qsort) (Hstar : forall s, fnmatch (str "*") s = true) (Hletter : isalpha (deref name) = true) :
  affected fnmatch name version (named_entry "*") = true /\
  exists items first, pkg_audit_preprocess qsort [named_entry "*"] = Some (items, first) /\
    pkg_audit_is_vulnerable fnmatch (mk_audit [named_entry "*"] items first true true) name version quiet =
      Some (false, None).
Proof.
  split.
  - unfold affected. cbn. rewrite Hstar. by destruct version.
  - assert (qsort (make_items [named_entry "*"]) = [mk_item (named_entry "*") 0 1]) as Hsort.
    { apply Permutation_singleton_r. by destruct (Hq (make_items [named_entry "*"])). }
    unfold pkg_audit_preprocess. rewrite Hsort. eexists. eexists. split; [reflexivity|].
    unfold pkg_audit_is_vulnerable. cbn [parsed au_first au_items negb].
    assert (65 <= code (deref name) < 128) as Hc.
    { revert Hletter. generalize (deref name). intros c. by_byte c; intros _; vm_compute; split; congruence. }
    rewrite first_byte_ascii by lia. destruct (Z.ltb_spec (code (deref name)) 256); [|lia].
    assert (forallb (fun c => match (O :: first_byte_loop 255 1 0 [mk_item (named_entry "*") 0 1]) !! c with
              Some i => Nat.eqb i 1 | None => false end) (seq 65 63) = true) as Hall by (vm_compute; reflexivity).
    rewrite forallb_forall in Hall. specialize (Hall (Z.to_nat (code (deref name)))).
    rewrite in_seq in Hall. specialize (Hall ltac:(lia)).
    change (jump_loop (length [mk_item (named_entry "*") 0 1] - 1) 1 0 [mk_item (named_entry "*") 0 1])
      with [mk_item (named_entry "*") 0 1].
    destruct ((O :: first_byte_loop 255 1 0 [mk_item (named_entry "*") 0 1]) !! Z.to_nat (code (deref name)))
      as [i|]; [|done]. apply Nat.eqb_eq in Hall as ->. reflexivity.
Qed.

Lemma pkg_audit_glob_missed_witness :
  affected (fun _ _ => true) (str "zsh") None (named_entry "*") = true.
Proof.
  apply (pkg_audit_glob_missed sort_by_prefix (fun _ _ => true) (str "zsh") None false sort_by_prefix_ok);
    reflexivity.
Defined.

(** ** Versions *)

(** A bound matches exactly the versions it denotes in the order of
    pkg_version_cmp, and a range exactly the versions both bounds match: a
    range without bounds matches every version, [ge a, lt b] the half-open
    interval from a to b. *)
Theorem pkg_audit_version_match_spec (pv v w : cstring) (t : version_type) :
  (pkg_audit_version_match pv (mk_av (Some v) t) = true <->
   match t with
   | VT_NONE => False
   | EQ => vercmp pv v = 0
   | LT => vercmp pv v < 0
   | LTE => vercmp pv v <= 0
   | GT => 0 < vercmp pv v
   | GTE => 0 <= vercmp pv v
   end) /\
  range_match pv (mk_range no_version no_version) = true /\
  (range_match pv (range_of [(Bge, v); (Blt, w)]) = true <-> vercmp v pv <= 0 /\ vercmp pv w < 0) /\
  (vercmp w v <= 0 -> range_match pv (range_of [(Bge, v); (Blt, w)]) = false).
Proof.
  assert (forall x y u, pkg_audit_version_match x (mk_av (Some y) u) = true <->
    match u with VT_NONE => False | EQ => vercmp x y = 0 | LT => vercmp x y < 0 | LTE => vercmp x y <= 0
    | GT => 0 < vercmp x y | GTE => 0 <= vercmp x y end) as H.
  { intros x y u. unfold pkg_audit_version_match. cbn [av_version av_type].
    destruct (vercmp_range x y) as [-> | [-> | ->]]; destruct u; vm_compute; split; try done; congruence. }
  assert (range_match pv (range_of [(Bge, v); (Blt, w)]) = true <-> vercmp v pv <= 0 /\ vercmp pv w < 0) as Hr.
  { unfold range_match. rewrite andb_true_iff. cbn [range_of v1 v2 bound_of lookup list_lookup bound_type].
    rewrite !H. pose proof (cmp_antisym (cmp:=vercmp) v pv). lia. }
  split; [apply H|]. split; [done|]. split; [done|].
  intros Hwv. apply not_true_iff_false. intros E.
  apply Hr in E as [H1 H2]. pose proof (cmp_trans (cmp:=vercmp) _ _ _ Hwv H1).
  pose proof (cmp_antisym (cmp:=vercmp) pv w). lia.
Qed.

Lemma pkg_audit_version_match_spec_witness :
  range_match (str "1.5") (range_of [(Bge, str "2.0"); (Blt, str "1.0")]) = false.
Proof.
  refine (proj2 (proj2 (proj2 (pkg_audit_version_match_spec (str "1.5") (str "2.0") (str "1.0") EQ))) _).
  apply Z.leb_le. vm_compute. reflexivity.
Defined.
