(* ===== verification/Query.v ===== *)
(** * Queries (src/query.c of the pkg command)

    [format_sql_condition] translates the evaluation string of "pkg query -e"
    to an SQL WHERE clause, one character at a time, as a state machine;
    [analyse_query_string] checks a query format and finds out which list of
    the package it iterates over; [format_str] and [print_query] print a
    package.  The fields are printed by libpkg's pkg_sbuf_printf, of which
    only the text it yields for a format and an object is a parameter here.
    Output goes to a string; reading past the terminating NUL is [None]. *)
From S2P Require Import Prelude CString UtHash Pkg.

(** ** format_sql_condition *)

Inductive state_t :=
  | NONE | NEXT_IS_INT | OPERATOR_INT | INT | NEXT_IS_STRING | OPERATOR_STRING
  | STRING | QUOTEDSTRING | SQUOTEDSTRING | POST_EXPR.

#[export] Instance state_eq_dec : EqDecision state_t.
Proof. solve_decision. Defined.

Definition TAB : ascii := chr 9.

(** The letter after ['%']: the column, the state that follows, and is the
    column in the local database only. *)
Definition column (c : ascii) : option (cstring * state_t * bool) :=
  if Ascii.eqb c "n" then Some (str "name", OPERATOR_STRING, false)
  else if Ascii.eqb c "o" then Some (str "origin", OPERATOR_STRING, false)
  else if Ascii.eqb c "p" then Some (str "prefix", OPERATOR_STRING, false)
  else if Ascii.eqb c "m" then Some (str "maintainer", OPERATOR_STRING, false)
  else if Ascii.eqb c "c" then Some (str "comment", OPERATOR_STRING, false)
  else if Ascii.eqb c "w" then Some (str "www", OPERATOR_STRING, false)
  else if Ascii.eqb c "s" then Some (str "flatsize", OPERATOR_INT, false)
  else if Ascii.eqb c "a" then Some (str "automatic", OPERATOR_INT, true)
  else if Ascii.eqb c "q" then Some (str "arch", OPERATOR_STRING, false)
  else if Ascii.eqb c "k" then Some (str "locked", OPERATOR_INT, true)
  else if Ascii.eqb c "M" then Some (str "message", OPERATOR_STRING, true)
  else if Ascii.eqb c "t" then Some (str "time", OPERATOR_INT, true)
  else if Ascii.eqb c "e" then Some (str "desc", OPERATOR_STRING, false)
  else None.

(** The letter after ["%#"] or ["%?"]: the table and the condition. *)
Definition count_table (c : ascii) : option (string * string * bool) :=
  if Ascii.eqb c "d" then Some ("deps AS d", "d.package_id=p.id", false)%string
  else if Ascii.eqb c "r" then Some ("deps AS d", "d.origin=p.origin", false)%string
  else if Ascii.eqb c "C" then Some ("pkg_categories AS d", "d.package_id=p.id", false)%string
  else if Ascii.eqb c "F" then Some ("files AS d", "d.package_id=p.id", true)%string
  else if Ascii.eqb c "O" then Some ("option JOIN pkg_option USING(option_id) AS d", "d.package_id=p.id", false)%string
  else if Ascii.eqb c "D" then Some ("pkg_directories AS d", "d.package_id=p.id", true)%string
  else if Ascii.eqb c "L" then Some ("pkg_licenses AS d", "d.package_id=p.id", false)%string
  else if Ascii.eqb c "U" then Some ("pkg_users AS d", "d.package_id=p.id", true)%string
  else if Ascii.eqb c "G" then Some ("pkg_groups AS d", "d.package_id=p.id", true)%string
  else if Ascii.eqb c "B" then Some ("pkg_shlibs_required AS d", "d.package_id=p.id", false)%string
  else if Ascii.eqb c "b" then Some ("pkg_shlibs_provided AS d", "d.package_id=p.id", false)%string
  else if Ascii.eqb c "A" then Some ("pkg_annotation AS d", "d.package_id=p.id", false)%string
  else None.

(** The sub-select for the letter [c]: [sqlop] is computed from the letter
    itself, the ['#'] or ['?'] having been passed already. *)
Definition count_column (c : ascii) : option (cstring * bool) :=
  let sqlop := if Ascii.eqb c "#" then "COUNT(*)"%string else "COUNT(*) > 0"%string in
  '(table, cond, local) ← count_table c;
  Some (str "(SELECT " ++ str sqlop ++ str " FROM " ++ str table ++ str " WHERE " ++ str cond ++ str ")", local).

(** The state of the loop: [str] is the rest of the input. *)
Record cond_state := mk_cs { cs_state : state_t; bracket_level : nat; sqlcond : cstring; cs_str : cstring }.

(** What one turn of the loop does: [None] is "return (EPKG_FATAL)". *)
Definition step_none (remote : bool) (level : nat) (out : cstring) (c : ascii) (rest : cstring)
  : option cond_state :=
  if Ascii.eqb c "%" then
    match rest with
    | [] => None
    | d :: rest =>
        if Ascii.eqb d "#" || Ascii.eqb d "?" then
          match rest with
          | [] => None
          | e :: rest =>
              '(sql, local) ← count_column e;
              if remote && local then None
              else Some (mk_cs OPERATOR_INT level (out ++ sql) rest)
          end
        else
          '(col, st, local) ← column d;
          if remote && local then None else Some (mk_cs st level (out ++ col) rest)
    end
  else if Ascii.eqb c "(" then Some (mk_cs NONE (S level) (out ++ [c]) rest)
  else if Ascii.eqb c " " || Ascii.eqb c TAB then Some (mk_cs NONE level out rest)
  else None.

Definition step_post (level : nat) (out : cstring) (c : ascii) (rest : cstring) : option cond_state :=
  if Ascii.eqb c ")" then
    match level with
    | O => None
    | S level => Some (mk_cs POST_EXPR level (out ++ [c]) rest)
    end
  else if Ascii.eqb c " " || Ascii.eqb c TAB then Some (mk_cs POST_EXPR level out rest)
  else if Ascii.eqb c "|" then
    if Ascii.eqb (deref rest) "|" then Some (mk_cs NONE level (out ++ str " OR ") (drop 1 rest)) else None
  else if Ascii.eqb c "&" then
    if Ascii.eqb (deref rest) "&" then Some (mk_cs NONE level (out ++ str " AND ") (drop 1 rest)) else None
  else None.

(** [st] is OPERATOR_STRING or OPERATOR_INT. *)
Definition step_operator (st : state_t) (level : nat) (out : cstring) (c : ascii) (rest : cstring)
  : option cond_state :=
  let is_string := bool_decide (st = OPERATOR_STRING) in
  let next := if is_string then NEXT_IS_STRING else NEXT_IS_INT in
  (* an optional ['='] after the operator *)
  let with_eq st :=
    if Ascii.eqb (deref rest) "="
    then Some (mk_cs st level (out ++ [c] ++ str "=") (drop 1 rest))
    else Some (mk_cs st level (out ++ [c]) rest) in
  if isspace c then Some (mk_cs st level out rest)
  else if Ascii.eqb c "~" then
    if is_string then Some (mk_cs NEXT_IS_STRING level (out ++ str " GLOB ") rest) else None
  else if Ascii.eqb c ">" || Ascii.eqb c "<" then
    if is_string then None else with_eq NEXT_IS_INT
  else if Ascii.eqb c "=" then with_eq next
  else if Ascii.eqb c "!" then
    if Ascii.eqb (deref rest) "=" then Some (mk_cs next level (out ++ [c] ++ str "=") (drop 1 rest)) else None
  else None.

Definition QUOTE : ascii := "'".
Definition DQUOTE : ascii := chr 34.

(** [st] is NEXT_IS_STRING or NEXT_IS_INT; an unquoted string is entered
    without consuming its first character. *)
Definition step_next (st : state_t) (level : nat) (out : cstring) (c : ascii) (rest : cstring)
  : option cond_state :=
  if isspace c then Some (mk_cs st level out rest)
  else if decide (st = NEXT_IS_STRING) then
    if Ascii.eqb c DQUOTE then Some (mk_cs QUOTEDSTRING level (out ++ [QUOTE]) rest)
    else if Ascii.eqb c QUOTE then Some (mk_cs SQUOTEDSTRING level (out ++ [QUOTE]) rest)
    else Some (mk_cs STRING level (out ++ [QUOTE]) (c :: rest))
  else if isdigit c then Some (mk_cs INT level (out ++ [c]) rest)
  else None.

Definition step_int (level : nat) (out : cstring) (c : ascii) (rest : cstring) : option cond_state :=
  if isdigit c then Some (mk_cs INT level (out ++ [c]) rest)
  else Some (mk_cs POST_EXPR level out (c :: rest)).

(** Does [c] end the string of state [st]? *)
Definition ends_string (st : state_t) (c : ascii) : bool :=
  match st with
  | STRING => isspace c
  | QUOTEDSTRING => Ascii.eqb c DQUOTE
  | SQUOTEDSTRING => Ascii.eqb c QUOTE
  | _ => false
  end.

(** A character of a string, with quotes (and the percent sign of a format
    string) doubled. *)
Definition escape_char (remote : bool) (c : ascii) : cstring :=
  if Ascii.eqb c QUOTE then [c; c]
  else if Ascii.eqb c "%" && remote then [c; c]
  else [c].

Definition step_string (remote : bool) (st : state_t) (level : nat) (out : cstring) (c : ascii)
    (rest : cstring) : option cond_state :=
  if ends_string st c then Some (mk_cs POST_EXPR level (out ++ [QUOTE]) rest)
  else Some (mk_cs st level (out ++ escape_char remote c) rest).

(** One turn of the while loop on a string that is not empty. *)
Definition cond_step (remote : bool) (cs : cond_state) : option cond_state :=
  match cs_str cs with
  | [] => Some cs
  | c :: rest =>
      let level := bracket_level cs in
      let out := sqlcond cs in
      match cs_state cs with
      | NONE => step_none remote level out c rest
      | POST_EXPR => step_post level out c rest
      | OPERATOR_STRING | OPERATOR_INT => step_operator (cs_state cs) level out c rest
      | NEXT_IS_STRING | NEXT_IS_INT => step_next (cs_state cs) level out c rest
      | INT => step_int level out c rest
      | STRING | QUOTEDSTRING | SQUOTEDSTRING => step_string remote (cs_state cs) level out c rest
      end
  end.

(** After the loop: the error code and the text. *)
Definition cond_finish (cs : cond_state) : pkg_error_t * cstring :=
  let '(st, out) :=
    if decide (cs_state cs = STRING) then (POST_EXPR, sqlcond cs ++ [QUOTE]) else (cs_state cs, sqlcond cs) in
  if negb (bool_decide (st = POST_EXPR)) && negb (bool_decide (st = INT)) then (EPKG_FATAL, out)
  else if (0 <? bracket_level cs)%nat then (EPKG_FATAL, out)
  else (EPKG_OK, out).

(** The loop; [None] when the fuel runs out.  An error leaves no text worth
    having. *)
Fixpoint cond_loop (fuel : nat) (remote : bool) (cs : cond_state) : option (pkg_error_t * cstring) :=
  match cs_str cs with
  | [] => Some (cond_finish cs)
  | _ :: _ =>
      match fuel with
      | O => None
      | S fuel =>
          match cond_step remote cs with
          | None => Some (EPKG_FATAL, sqlcond cs)
          | Some cs => cond_loop fuel remote cs
          end
      end
  end.

Definition format_sql_condition (text : cstring) (out : cstring) (for_remote : bool)
  : option (pkg_error_t * cstring) :=
  cond_loop (2 * length text + 2) for_remote (mk_cs NONE 0 (out ++ str " WHERE ") text).

(** ** analyse_query_string *)

Record query_flag := mk_qf { qf_flag : ascii; qf_options : cstring; qf_multiline : bool; qf_dbflags : Z }.

Definition accepted_query_flags : list query_flag :=
  [ mk_qf "d" (str "nov") true PKG_LOAD_DEPS;
    mk_qf "r" (str "nov") true PKG_LOAD_RDEPS;
    mk_qf "C" (str "") true PKG_LOAD_CATEGORIES;
    mk_qf "F" (str "ps") true PKG_LOAD_FILES;
    mk_qf "O" (str "kvdD") true PKG_LOAD_OPTIONS;
    mk_qf "D" (str "") true PKG_LOAD_DIRS;
    mk_qf "L" (str "") true PKG_LOAD_LICENSES;
    mk_qf "U" (str "") true PKG_LOAD_USERS;
    mk_qf "G" (str "") true PKG_LOAD_GROUPS;
    mk_qf "B" (str "") true PKG_LOAD_SHLIBS_REQUIRED;
    mk_qf "b" (str "") true PKG_LOAD_SHLIBS_PROVIDED;
    mk_qf "A" (str "tv") true PKG_LOAD_ANNOTATIONS;
    mk_qf "?" (str "drCFODLUGBbA") true PKG_LOAD_BASIC;
    mk_qf "#" (str "drCFODLUGBbA") true PKG_LOAD_BASIC;
    mk_qf "s" (str "hb") false PKG_LOAD_BASIC;
    mk_qf "n" (str "") false PKG_LOAD_BASIC;
    mk_qf "v" (str "") false PKG_LOAD_BASIC;
    mk_qf "o" (str "") false PKG_LOAD_BASIC;
    mk_qf "p" (str "") false PKG_LOAD_BASIC;
    mk_qf "m" (str "") false PKG_LOAD_BASIC;
    mk_qf "c" (str "") false PKG_LOAD_BASIC;
    mk_qf "e" (str "") false PKG_LOAD_BASIC;
    mk_qf "w" (str "") false PKG_LOAD_BASIC;
    mk_qf "l" (str "") false PKG_LOAD_BASIC;
    mk_qf "q" (str "") false PKG_LOAD_BASIC;
    mk_qf "a" (str "") false PKG_LOAD_BASIC;
    mk_qf "k" (str "") false PKG_LOAD_BASIC;
    mk_qf "M" (str "") false PKG_LOAD_BASIC;
    mk_qf "t" (str "") false PKG_LOAD_BASIC;
    mk_qf "R" (str "") false PKG_LOAD_ANNOTATIONS ].

Definition find_flag (flags : list query_flag) (c : ascii) : option query_flag :=
  find (fun q => Ascii.eqb c (qf_flag q)) flags.

Definition contains (s : cstring) (c : ascii) : bool := existsb (Ascii.eqb c) s.

(** The check of one letter (and its option, NUL when it has none) against
    the table entry: the new [multiline] and [flags]; [None] is an error.
    [*multiline] is NUL at first. *)
Definition use_flag (table : list query_flag) (q : query_flag) (opt : ascii) (flags : Z)
    (multiline : ascii) : option (Z * ascii) :=
  if qf_multiline q && negb (Ascii.eqb multiline NUL) && negb (Ascii.eqb multiline (qf_flag q)) then None
  else
    let multiline := if qf_multiline q then qf_flag q else multiline in
    let flags :=
      if Ascii.eqb (qf_flag q) "?" || Ascii.eqb (qf_flag q) "#" then
        match find_flag table opt with Some k => Z.lor flags (qf_dbflags k) | None => flags end
      else Z.lor flags (qf_dbflags q) in
    Some (flags, multiline).

(** The loop; [None] is EPKG_FATAL (the callers stop then), otherwise the
    [flags] and [multiline]. *)
Fixpoint analyse_loop (table : list query_flag) (qstr : cstring) (flags : Z) (multiline : ascii)
  : option (Z * ascii) :=
  match qstr with
  | [] => Some (flags, multiline)
  | c :: rest =>
      if negb (Ascii.eqb c "%") then analyse_loop table rest flags multiline
      else
        match rest with
        | [] => None
        | d :: rest =>
            match find_flag table d with
            | None => None
            | Some q =>
                match qf_options q with
                | [] =>
                    '(flags, multiline) ← use_flag table q NUL flags multiline;
                    analyse_loop table rest flags multiline
                | _ :: _ =>
                    match rest with
                    | [] => None
                    | o :: rest =>
                        if contains (qf_options q) o then
                          '(flags, multiline) ← use_flag table q o flags multiline;
                          analyse_loop table rest flags multiline
                        else None
                    end
                end
            end
        end
  end.

Definition analyse_query_string (qstr : cstring) (table : list query_flag) (flags : Z) (multiline : ascii)
  : pkg_error_t * Z * ascii :=
  match strchr qstr "%" with
  | None => (EPKG_FATAL, flags, multiline)
  | Some _ =>
      match analyse_loop table qstr flags multiline with
      | Some (flags, multiline) => (EPKG_OK, flags, multiline)
      | None => (EPKG_FATAL, flags, multiline)
      end
  end.

(** ** format_str and print_query *)

(** What the [data] pointer of format_str points to. *)
Inductive query_data :=
  | QDep (d : pkg_dep) | QOption (o : pkg_option) | QFile (f : pkg_file) | QDir (d : pkg_dir)
  | QUser (u : pkg_user) | QGroup (g : pkg_group) | QShlib (s : cstring) | QObject (k : cstring) (o : ucl).

Inductive data_kind := KDep | KOption | KFile | KDir | KUser | KGroup | KShlib | KObject.

#[export] Instance data_kind_eq_dec : EqDecision data_kind.
Proof. solve_decision. Defined.

Definition kind_of (d : query_data) : data_kind :=
  match d with
  | QDep _ => KDep | QOption _ => KOption | QFile _ => KFile | QDir _ => KDir
  | QUser _ => KUser | QGroup _ => KGroup | QShlib _ => KShlib | QObject _ _ => KObject
  end.

(** A piece of output: a character, a libpkg format applied to the package or
    to the data, a boolean attribute, the message. *)
Inductive piece :=
  | PChar (c : ascii)
  | PPkg (fmt : string)
  | PData (kind : data_kind) (fmt : string)
  | PBool (attr : nat)
  | PMessage.

(** The letters of the lists, for ["%?x"] and ["%#x"]. *)
Definition list_letters : cstring := str "drCFODLUGBbA".

(** One letter of a directive that has an option. *)
Definition data_piece (kind : data_kind) (table : list (ascii * string)) (c : ascii) : list piece :=
  match find (fun e => Ascii.eqb c e.1) table with Some (_, fmt) => [PData kind fmt] | None => [] end.

Definition pkg_piece (table : list (ascii * string)) (c : ascii) : list piece :=
  match find (fun e => Ascii.eqb c e.1) table with Some (_, fmt) => [PPkg fmt] | None => [] end.

(** [qstr[0]] after the percent sign: the pieces of a one-letter directive,
    or what to do with the letter that follows. *)
Inductive directive := One (ps : list piece) | Two (f : ascii -> list piece).

Definition directive_of (c : ascii) : directive :=
  let isc := Ascii.eqb c in
  if isc "n"%char then One [PPkg "%n"]
  else if isc "v"%char then One [PPkg "%v"]
  else if isc "o"%char then One [PPkg "%o"]
  else if isc "R"%char then One [PPkg "%N"]
  else if isc "p"%char then One [PPkg "%p"]
  else if isc "m"%char then One [PPkg "%m"]
  else if isc "c"%char then One [PPkg "%c"]
  else if isc "w"%char then One [PPkg "%w"]
  else if isc "a"%char then One [PBool PKG_AUTOMATIC]
  else if isc "k"%char then One [PBool PKG_LOCKED]
  else if isc "t"%char then One [PPkg "%t"]
  else if isc "s"%char then Two (pkg_piece [("h"%char, "%?sB"%string); ("b"%char, "%s"%string)])
  else if isc "e"%char then One [PPkg "%e"]
  else if isc "?"%char then Two (fun d => if contains list_letters d then [PPkg (String "%" (String "?" (String d "")))] else [])
  else if isc "#"%char then Two (fun d => if contains list_letters d then [PPkg (String "%" (String "#" (String d "")))] else [])
  else if isc "q"%char then One [PPkg "%q"]
  else if isc "l"%char then One [PPkg "%l"]
  else if isc "d"%char then Two (data_piece KDep [("n"%char, "%dn"%string); ("o"%char, "%do"%string); ("v"%char, "%dv"%string)])
  else if isc "r"%char then Two (data_piece KDep [("n"%char, "%rn"%string); ("o"%char, "%ro"%string); ("v"%char, "%rv"%string)])
  else if isc "C"%char then One [PData KObject "%Cn"]
  else if isc "F"%char then Two (data_piece KFile [("p"%char, "%Fn"%string); ("s"%char, "%Fs"%string)])
  else if isc "O"%char then Two (data_piece KOption [("k"%char, "%On"%string); ("v"%char, "%Ov"%string);
                                                   ("d"%char, "%Od"%string); ("D"%char, "%OD"%string)])
  else if isc "D"%char then One [PData KDir "%Dn"]
  else if isc "L"%char then One [PData KObject "%Ln"]
  else if isc "U"%char then One [PData KUser "%Un"]
  else if isc "G"%char then One [PData KGroup "%Gn"]
  else if isc "B"%char then One [PData KShlib "%Bn"]
  else if isc "b"%char then One [PData KShlib "%bn"]
  else if isc "A"%char then Two (data_piece KObject [("t"%char, "%An"%string); ("v"%char, "%Av"%string)])
  else if isc "M"%char then One [PMessage]
  else if isc "%"%char then One [PChar "%"]
  else One [].

(** The character after a backslash. *)
Definition escape (c : ascii) : list piece :=
  let isc := Ascii.eqb c in
  if isc "n"%char then [PChar (chr 10)]
  else if isc "a"%char then [PChar (chr 7)]
  else if isc "b"%char then [PChar (chr 8)]
  else if isc "f"%char then [PChar (chr 12)]
  else if isc "r"%char then [PChar (chr 13)]
  else if isc "\"%char then [PChar "\"]
  else if isc "t"%char then [PChar (chr 9)]
  else [].

Definition BACKSLASH : ascii := "\".

(** The loop of format_str; [None] when [qstr] is moved past its NUL. *)
Fixpoint format_pieces (qstr : cstring) : option (list piece) :=
  match qstr with
  | [] => Some []
  | c :: r =>
      if Ascii.eqb c "%" then
        match r with
        | [] => None
        | d :: r =>
            match directive_of d with
            | One ps => ps' ← format_pieces r; Some (ps ++ ps')
            | Two f =>
                match r with
                | [] => None
                | e :: r => ps' ← format_pieces r; Some (f e ++ ps')
                end
            end
        end
      else if Ascii.eqb c BACKSLASH then
        match r with
        | [] => None
        | d :: r => ps' ← format_pieces r; Some (escape d ++ ps')
        end
      else ps' ← format_pieces r; Some (PChar c :: ps')
  end.

Section print.
(** pkg_sbuf_printf of a format and the package, or the data. *)
Context (printf_pkg : string -> pkg -> cstring) (printf_data : string -> query_data -> cstring).

(** A piece of output; data of the wrong kind (or NULL) is undefined
    behaviour. *)
Definition render (p : pkg) (data : option query_data) (x : piece) : option cstring :=
  match x with
  | PChar c => Some [c]
  | PPkg fmt => Some (printf_pkg fmt p)
  | PData k fmt =>
      match data with
      | Some d => if decide (kind_of d = k) then Some (printf_data fmt d) else None
      | None => None
      end
  | PBool attr =>
      match vget_one (fun _ => []) p attr with
      | Some (GotBool b) => Some (if b then str "1" else str "0")
      | _ => None
      end
  | PMessage =>
      match fields p !! str "message" with
      | Some _ => Some (printf_pkg "%M" p)
      | None => Some []
      end
  end.

Definition format_str (p : pkg) (qstr : cstring) (data : option query_data) : option cstring :=
  ps ← format_pieces qstr; texts ← mapM (render p data) ps; Some (concat texts).

(** The elements pkg_object_iterate visits in an array or object attribute,
    with their keys. *)
Definition object_elements (p : pkg) (key : string) : list query_data :=
  match fields p !! str key with
  | Some (UArray l) => map (QObject []) l
  | Some (UObject l) => map (fun kv => QObject kv.1 kv.2) l
  | Some o => [QObject [] o]
  | None => []
  end.

(** The iteration that [multiline] selects; [None] when it does not end. *)
Definition query_rows (p : pkg) (multiline : ascii) : option (list (option query_data)) :=
  let isc := Ascii.eqb multiline in
  let rows {A} (f : A -> query_data) (l : option (list A)) := map (fun x => Some (f x)) <$> l in
  if isc "d"%char then rows QDep (pkg_deps p)
  else if isc "r"%char then rows QDep (pkg_rdeps p)
  else if isc "C"%char then Some (map Some (object_elements p "categories"))
  else if isc "O"%char then rows QOption (pkg_options p)
  else if isc "F"%char then rows QFile (pkg_files p)
  else if isc "D"%char then rows QDir (pkg_dirs p)
  else if isc "L"%char then Some (map Some (object_elements p "licenses"))
  else if isc "U"%char then rows QUser (pkg_users p)
  else if isc "G"%char then rows QGroup (pkg_groups p)
  else if isc "B"%char then rows QShlib (pkg_shlibs_required p)
  else if isc "b"%char then rows QShlib (pkg_shlibs_provided p)
  else if isc "A"%char then Some (map Some (object_elements p "annotations"))
  else Some [None].

(** The lines that are printed. *)
Definition print_query (p : pkg) (qstr : cstring) (multiline : ascii) : option (list cstring) :=
  rows ← query_rows p multiline;
  mapM (fun data => text ← format_str p qstr data; Some (text ++ [chr 10])) rows.
End print.

(** ** What format_sql_condition produces *)

(** The SQL text as tokens: a string is an SQL literal with its quotes (and,
    for a format string, its percent signs) doubled. *)
Inductive tok :=
  | TOpen | TClose | TAnd | TOr
  | TCol (c : cstring) | TOp (o : cstring) | TNum (n : cstring) | TStr (s : cstring).

Definition render_tok (remote : bool) (t : tok) : cstring :=
  match t with
  | TOpen => str "(" | TClose => str ")" | TAnd => str " AND " | TOr => str " OR "
  | TCol c => c | TOp o => o | TNum n => n
  | TStr s => [QUOTE] ++ flat_map (escape_char remote) s ++ [QUOTE]
  end.

Definition render_toks (remote : bool) (ts : list tok) : cstring := flat_map (render_tok remote) ts.

Definition is_column (remote : bool) (c : cstring) (is_string : bool) : Prop :=
  (exists d st local, column d = Some (c, st, local) /\ remote && local = false /\
     is_string = bool_decide (st = OPERATOR_STRING)) \/
  (exists d local, count_column d = Some (c, local) /\ remote && local = false /\ is_string = false).

Definition operators (is_string : bool) : list cstring :=
  if is_string then [str " GLOB "; str "="; str "=="; str "!="]
  else [str ">"; str "<"; str ">="; str "<="; str "="; str "=="; str "!="].

(** Where in an expression one is: before a test, after its column, after its
    operator, after it. *)
Inductive gstate := GNone | GOp (is_string : bool) | GNext (is_string : bool) | GPost.

(** Beginnings of expressions [test ::= column operator value],
    [expr ::= test | "(" expr ")" | expr AND expr | expr OR expr], with the
    number of open brackets. *)
Inductive cond_prefix (remote : bool) : gstate -> nat -> list tok -> Prop :=
  | cp_start : cond_prefix remote GNone 0 []
  | cp_open n ts : cond_prefix remote GNone n ts -> cond_prefix remote GNone (S n) (ts ++ [TOpen])
  | cp_col n ts c k : cond_prefix remote GNone n ts -> is_column remote c k ->
      cond_prefix remote (GOp k) n (ts ++ [TCol c])
  | cp_op n ts o k : cond_prefix remote (GOp k) n ts -> o ∈ operators k ->
      cond_prefix remote (GNext k) n (ts ++ [TOp o])
  | cp_num n ts d : cond_prefix remote (GNext false) n ts -> d <> [] -> forallb isdigit d = true ->
      cond_prefix remote GPost n (ts ++ [TNum d])
  | cp_str n ts s : cond_prefix remote (GNext true) n ts -> cond_prefix remote GPost n (ts ++ [TStr s])
  | cp_close n ts : cond_prefix remote GPost (S n) ts -> cond_prefix remote GPost n (ts ++ [TClose])
  | cp_and n ts : cond_prefix remote GPost n ts -> cond_prefix remote GNone n (ts ++ [TAnd])
  | cp_or n ts : cond_prefix remote GPost n ts -> cond_prefix remote GNone n (ts ++ [TOr]).

Create HintDb query.
#[local] Hint Constructors cond_prefix : query.

Section condition.
Context (remote : bool) (out0 : cstring).

(** The text so far is that of a beginning of an expression. *)
Definition text_of (g : gstate) (level : nat) (out : cstring) : Prop :=
  exists ts, cond_prefix remote g level ts /\ out = out0 ++ render_toks remote ts.

Definition cond_inv (cs : cond_state) : Prop :=
  let level := bracket_level cs in
  let out := sqlcond cs in
  match cs_state cs with
  | NONE => text_of GNone level out
  | OPERATOR_STRING => text_of (GOp true) level out
  | OPERATOR_INT => text_of (GOp false) level out
  | NEXT_IS_STRING => text_of (GNext true) level out
  | NEXT_IS_INT => text_of (GNext false) level out
  | INT => exists o d, text_of (GNext false) level o /\ d <> [] /\ forallb isdigit d = true /\ out = o ++ d
  | STRING | QUOTEDSTRING | SQUOTEDSTRING =>
      exists o s, text_of (GNext true) level o /\ out = o ++ [QUOTE] ++ flat_map (escape_char remote) s
  | POST_EXPR => text_of GPost level out
  end.

(** Every token extends the text. *)
Lemma text_snoc g g' n n' out t :
  text_of g n out -> (forall ts, cond_prefix remote g n ts -> cond_prefix remote g' n' (ts ++ [t])) ->
  text_of g' n' (out ++ render_tok remote t).
Proof.
  intros (ts & H & ->) Hs. exists (ts ++ [t]). split; [by apply Hs|].
  unfold render_toks. rewrite flat_map_app. simpl. by rewrite app_nil_r, app_assoc.
Qed.

Lemma inv_none level out c rest cs : text_of GNone level out -> step_none remote level out c rest = Some cs -> cond_inv cs.
Proof.
  intros Ht. unfold step_none.
  destruct (Ascii.eqb c "%").
  - destruct rest as [|d rest]; [done|]. destruct (Ascii.eqb d "#" || Ascii.eqb d "?").
    + destruct rest as [|e rest]; [done|]. destruct (count_column e) as [[sql local]|] eqn:E; [|done].
      cbn. destruct (remote && local) eqn:Er; [done|]. intros [= <-]. cbn.
      apply (text_snoc GNone (GOp false) level level out (TCol sql) Ht).
      intros ts Hts. constructor; [done|]. right. by exists e, local.
    + destruct (column d) as [[[col st] local]|] eqn:E; [|done]. cbn.
      destruct (remote && local) eqn:Er; [done|]. intros [= <-].
      assert (text_of (GOp (bool_decide (st = OPERATOR_STRING))) level (out ++ render_tok remote (TCol col))) as H.
      { apply (text_snoc GNone _ level level out (TCol col) Ht). intros ts Hts.
        constructor; [done|]. left. by exists d, st, local. }
      unfold column in E. repeat (case_match; simplify_eq); exact H.
  - destruct (Ascii.eqb_spec c "("); [|destruct (_ || _); [by intros [= <-]|done]].
    intros [= <-]. subst c. apply (text_snoc GNone GNone level (S level) out TOpen Ht). auto with query.
Qed.

Lemma inv_post level out c rest cs : text_of GPost level out -> step_post level out c rest = Some cs -> cond_inv cs.
Proof.
  intros Ht. unfold step_post. destruct (Ascii.eqb_spec c ")") as [->|_].
  - destruct level as [|level]; [done|]. intros [= <-].
    apply (text_snoc GPost GPost (S level) level out TClose Ht). auto with query.
  - destruct (_ || _); [by intros [= <-]|].
    destruct (Ascii.eqb c "|"); [|destruct (Ascii.eqb c "&"); [|done]].
    + destruct (Ascii.eqb _ _); [|done]. intros [= <-].
      apply (text_snoc GPost GNone level level out TOr Ht). auto with query.
    + destruct (Ascii.eqb _ _); [|done]. intros [= <-].
      apply (text_snoc GPost GNone level level out TAnd Ht). auto with query.
Qed.

Lemma inv_op k level out o : text_of (GOp k) level out -> o ∈ operators k ->
  text_of (GNext k) level (out ++ o).
Proof. intros Ht Ho. apply (text_snoc (GOp k) (GNext k) level level out (TOp o) Ht). auto with query. Qed.

Lemma inv_operator st k level out c rest cs : (st = OPERATOR_STRING /\ k = true \/ st = OPERATOR_INT /\ k = false) ->
  text_of (GOp k) level out -> step_operator st level out c rest = Some cs -> cond_inv cs.
Proof.
  intros Hk Ht. unfold step_operator.
  assert (forall o, o ∈ operators k -> text_of (GNext k) level (out ++ o)) as Hop by (intros; by apply inv_op).
  destruct (isspace c); [destruct Hk as [[-> ->]|[-> ->]]; by intros [= <-]|].
  destruct (Ascii.eqb_spec c "~") as [->|_].
  { destruct Hk as [[-> ->]|[-> ->]]; [|done]. intros [= <-]. apply Hop. cbn. set_solver. }
  destruct (Ascii.eqb_spec c ">") as [->|_]; [|destruct (Ascii.eqb_spec c "<") as [->|_]; [|
    destruct (Ascii.eqb_spec c "=") as [->|_]; [|destruct (Ascii.eqb_spec c "!") as [->|_]; [|done]]]].
  all: cbn [orb]; destruct Hk as [[-> ->]|[-> ->]]; cbn; try done; try (destruct (Ascii.eqb _ _)); try done;
    intros [= <-]; apply Hop; cbn; set_solver.
Qed.

Lemma inv_next st k level out c rest cs : (st = NEXT_IS_STRING /\ k = true \/ st = NEXT_IS_INT /\ k = false) ->
  text_of (GNext k) level out -> step_next st level out c rest = Some cs -> cond_inv cs.
Proof.
  intros Hk Ht. unfold step_next.
  destruct (isspace c); [destruct Hk as [[-> ->]|[-> ->]]; by intros [= <-]|].
  destruct Hk as [[-> ->]|[-> ->]]; cbn [decide state_eq_dec].
  - intros H. assert (exists o s, text_of (GNext true) level o /\ out ++ [QUOTE] = o ++ [QUOTE] ++ flat_map (escape_char remote) s)
      by (by exists out, []).
    repeat case_match; simplify_eq; done.
  - destruct (isdigit c) eqn:E; [|done]. intros [= <-]. exists out, [c]. cbn. by rewrite E.
Qed.

Lemma inv_int level o d c rest cs : text_of (GNext false) level o -> d <> [] -> forallb isdigit d = true ->
  step_int level (o ++ d) c rest = Some cs -> cond_inv cs.
Proof.
  intros Ht Hd Hdig. unfold step_int. destruct (isdigit c) eqn:E; intros [= <-].
  - exists o, (d ++ [c]). split_and!; [done|by destruct d| |by rewrite app_assoc].
    rewrite forallb_app. cbn. by rewrite Hdig, E.
  - apply (text_snoc (GNext false) GPost level level o (TNum d) Ht). auto with query.
Qed.

Lemma inv_string st level o s c rest cs : st = STRING \/ st = QUOTEDSTRING \/ st = SQUOTEDSTRING ->
  text_of (GNext true) level o ->
  step_string remote st level (o ++ [QUOTE] ++ flat_map (escape_char remote) s) c rest = Some cs -> cond_inv cs.
Proof.
  intros Hst Ht. unfold step_string. destruct (ends_string st c); intros [= <-].
  - rewrite <- !app_assoc. apply (text_snoc (GNext true) GPost level level o (TStr s) Ht). auto with query.
  - assert (exists o' s', text_of (GNext true) level o' /\
      (o ++ [QUOTE] ++ flat_map (escape_char remote) s) ++ escape_char remote c =
      o' ++ [QUOTE] ++ flat_map (escape_char remote) s') as H.
    { exists o, (s ++ [c]). split; [done|]. rewrite flat_map_app. cbn [flat_map].
      by rewrite app_nil_r, <- !app_assoc. }
    destruct Hst as [-> | [-> | ->]]; exact H.
Qed.

Lemma cond_step_inv cs cs' : cs_str cs <> [] -> cond_inv cs -> cond_step remote cs = Some cs' -> cond_inv cs'.
Proof.
  destruct cs as [st level out s]. unfold cond_step. cbn [cs_str cs_state bracket_level sqlcond].
  destruct s as [|c rest]; [done|]. intros _ Hi.
  destruct st; cbn in Hi.
  - by apply inv_none.
  - apply (inv_next NEXT_IS_INT false); auto.
  - apply (inv_operator OPERATOR_INT false); auto.
  - destruct Hi as (o & d & H1 & H2 & H3 & ->). by apply inv_int.
  - apply (inv_next NEXT_IS_STRING true); auto.
  - apply (inv_operator OPERATOR_STRING true); auto.
  - destruct Hi as (o & s & H1 & ->). apply inv_string; auto.
  - destruct Hi as (o & s & H1 & ->). apply inv_string; auto.
  - destruct Hi as (o & s & H1 & ->). apply inv_string; auto.
  - by apply inv_post.
Qed.

(** What is accepted. *)
Definition accepted (r : pkg_error_t) (out : cstring) : Prop :=
  r = EPKG_FATAL \/
  (r = EPKG_OK /\ exists ts, cond_prefix remote GPost 0 ts /\ out = out0 ++ render_toks remote ts).

Lemma cond_finish_accepted cs : cond_inv cs -> accepted (cond_finish cs).1 (cond_finish cs).2.
Proof.
  destruct cs as [st level out s]. unfold cond_finish. cbn. intros Hi.
  destruct st; cbn in Hi |- *; try (by left).
  - destruct level as [|level]; [|by left]. right. split; [done|].
    destruct Hi as (o & d & (ts & Hts & ->) & Hd & Hdig & ->). exists (ts ++ [TNum d]).
    split; [by constructor|]. unfold render_toks. rewrite flat_map_app. cbn. by rewrite app_nil_r, app_assoc.
  - destruct level as [|level]; [|by left]. right. split; [done|].
    destruct Hi as (o & s' & (ts & Hts & ->) & ->). exists (ts ++ [TStr s']).
    split; [by constructor|]. unfold render_toks. rewrite flat_map_app. cbn [flat_map render_tok].
    by rewrite app_nil_r, <- !app_assoc.
  - destruct level as [|level]; [|by left]. right. split; [done|]. exact Hi.
Qed.

(** Each turn consumes a character or leaves NEXT_IS_STRING or INT. *)
Definition weight (cs : cond_state) : nat :=
  (2 * length (cs_str cs) + match cs_state cs with NEXT_IS_STRING | INT => 1 | _ => 0 end)%nat.

Lemma drop1_length (s : cstring) : (length (drop 1 s) <= length s)%nat.
Proof. rewrite length_drop. lia. Qed.

Lemma cond_step_weight cs cs' : cs_str cs <> [] -> cond_step remote cs = Some cs' -> (weight cs' < weight cs)%nat.
Proof.
  destruct cs as [st level out s]. unfold cond_step, weight. cbn [cs_str cs_state bracket_level sqlcond].
  destruct s as [|c rest]; [done|]. intros _.
  pose proof (drop1_length rest).
  destruct st; unfold step_none, step_post, step_operator, step_next, step_int, step_string, mbind, option_bind;
    repeat (case_match; simplify_eq/=); intros; simplify_eq/=;
    repeat match goal with H : column _ = Some (_, ?s, _) |- _ => unfold column in H end;
    repeat (case_match; simplify_eq/=); lia.
Qed.

Lemma cond_loop_accepted fuel cs : (weight cs < fuel)%nat -> cond_inv cs ->
  exists r out, cond_loop fuel remote cs = Some (r, out) /\ accepted r out.
Proof.
  revert cs; induction fuel as [|fuel IH]; intros cs Hw Hi; [lia|].
  cbn [cond_loop]. destruct (cs_str cs) as [|c s] eqn:E.
  - exists (cond_finish cs).1, (cond_finish cs).2. split; [by destruct (cond_finish cs)|].
    by apply cond_finish_accepted.
  - assert (cs_str cs <> []) as Hne by (by rewrite E).
    destruct (cond_step remote cs) as [cs'|] eqn:Es.
    + apply IH; [|by eapply cond_step_inv]. pose proof (cond_step_weight _ _ Hne Es). lia.
    + eexists _, _. split; [done|]. by left.
Qed.
End condition.

Lemma format_sql_condition_accepted text out remote :
  exists r out', format_sql_condition text out remote = Some (r, out') /\
    accepted remote (out ++ str " WHERE ") r out'.
Proof.
  apply cond_loop_accepted.
  - unfold weight. cbn. lia.
  - exists []. split; [constructor|]. cbn. by rewrite app_nil_r.
Qed.

(** C21: format_sql_condition ends on every evaluation string, with EPKG_OK or
    EPKG_FATAL; when it accepts, the text it has appended is " WHERE " and the
    text of a complete expression: tests of a known column (with a text
    operator and a string, or a number operator and a number) joined by AND
    and OR, all brackets closed, every string an SQL literal whose quotes are
    doubled. *)
Theorem format_sql_condition_grammar (text out : cstring) (for_remote : bool) :
  exists r out', format_sql_condition text out for_remote = Some (r, out') /\
    (r = EPKG_OK \/ r = EPKG_FATAL) /\
    (r = EPKG_OK -> exists ts, cond_prefix for_remote GPost 0 ts /\
       out' = out ++ str " WHERE " ++ render_toks for_remote ts).
Proof.
  destruct (format_sql_condition_accepted text out for_remote) as (r & out' & H & Ha).
  exists r, out'. split; [done|]. destruct Ha as [-> | (-> & ts & Hts & ->)]; [by split; [right|]|].
  split; [by left|]. intros _. exists ts. split; [done|]. by rewrite <- app_assoc.
Qed.

(** *** No injection *)

(** SQL's reading of a text: the characters outside string literals, and is
    the end inside of one.  A quote switches; a doubled quote switches
    twice. *)
Fixpoint sql_outside (inside : bool) (s : cstring) : cstring * bool :=
  match s with
  | [] => ([], inside)
  | c :: s =>
      if Ascii.eqb c QUOTE then sql_outside (negb inside) s
      else let '(o, e) := sql_outside inside s in (if inside then o else c :: o, e)
  end.

(** Characters of the keywords, columns, operators, numbers and brackets. *)
Definition safe_char (c : ascii) : bool :=
  isalpha c || isdigit c || existsb (Ascii.eqb c) (str " ()*<>=!._").

(** The nesting of brackets from the left; [None] when one closes that was not
    opened. *)
Fixpoint bracket_depth (n : nat) (s : cstring) : option nat :=
  match s with
  | [] => Some n
  | c :: s =>
      if Ascii.eqb c "(" then bracket_depth (S n) s
      else if Ascii.eqb c ")" then match n with O => None | S n => bracket_depth n s end
      else bracket_depth n s
  end.

Lemma sql_outside_app b s1 s2 : sql_outside b (s1 ++ s2) =
  let '(o1, e1) := sql_outside b s1 in let '(o2, e2) := sql_outside e1 s2 in (o1 ++ o2, e2).
Proof.
  revert b; induction s1 as [|c s1 IH]; intros b; cbn [app sql_outside]; [by destruct (sql_outside b s2)|].
  destruct (Ascii.eqb c QUOTE); [apply IH|]. rewrite IH.
  destruct (sql_outside b s1) as [o1 e1]. destruct (sql_outside e1 s2) as [o2 e2]. by destruct b.
Qed.

Lemma sql_outside_escaped remote s : sql_outside true (flat_map (escape_char remote) s) = ([], true).
Proof.
  induction s as [|c s IH]; [done|]. cbn [flat_map]. unfold escape_char at 1.
  destruct (Ascii.eqb c QUOTE) eqn:E; [|destruct (Ascii.eqb c "%" && remote)];
    cbn [app sql_outside]; rewrite !E; cbn [negb]; by rewrite IH.
Qed.

Lemma bracket_depth_app n s1 s2 : bracket_depth n (s1 ++ s2) = bracket_depth n s1 ≫= fun m => bracket_depth m s2.
Proof.
  revert n; induction s1 as [|c s1 IH]; intros n; [done|]. cbn [app bracket_depth].
  destruct (Ascii.eqb c "("); [apply IH|]. destruct (Ascii.eqb c ")"); [|apply IH]. destruct n; [done|apply IH].
Qed.

(** The part of a token outside literals is safe and changes the nesting as it
    should. *)
Definition tok_safe (s : cstring) (from to : nat) : Prop :=
  exists o, sql_outside false s = (o, false) /\ forallb safe_char o = true /\
    forall n, bracket_depth (from + n) o = Some (to + n)%nat.

Lemma tok_safe_text s : forallb safe_char s = true -> existsb (Ascii.eqb QUOTE) s = false ->
  (forall n, bracket_depth n s = Some n) -> tok_safe s 0 0.
Proof.
  intros Hs Hq Hb. exists s. split; [|split; [done|exact Hb]]. clear Hs Hb.
  induction s as [|c s IH]; [done|]. cbn [existsb sql_outside] in *. apply orb_false_iff in Hq as [Hc Hq].
  rewrite (Ascii.eqb_sym c), Hc, IH by done. done.
Qed.

Lemma tok_safe_app s1 s2 a b c : tok_safe s1 a b -> tok_safe s2 b c -> tok_safe (s1 ++ s2) a c.
Proof.
  intros (o1 & H1 & H2 & H3) (o2 & H4 & H5 & H6). exists (o1 ++ o2). split_and!.
  - by rewrite sql_outside_app, H1, H4.
  - by rewrite forallb_app, H2, H5.
  - intros n. rewrite bracket_depth_app, H3. apply H6.
Qed.

Lemma column_safe d c st local : column d = Some (c, st, local) -> tok_safe c 0 0.
Proof.
  unfold column. intros H. repeat (case_match; simplify_eq/=); apply tok_safe_text; try done.
Qed.

Lemma count_column_safe d c local : count_column d = Some (c, local) -> tok_safe c 0 0.
Proof.
  unfold count_column. destruct (Ascii.eqb_spec d "#") as [->|_]; [done|]. unfold count_table.
  intros H. repeat (case_match; simplify_eq/=); apply tok_safe_text; try done.
Qed.

Lemma digits_safe d : forallb isdigit d = true -> tok_safe d 0 0.
Proof.
  assert (forall c, isdigit c = true -> safe_char c = true /\ Ascii.eqb QUOTE c = false /\
            Ascii.eqb c "(" = false /\ Ascii.eqb c ")" = false) as Hc by (intros c; by_byte c; done).
  intros H. rewrite forallb_forall in H. apply tok_safe_text.
  - apply forallb_forall. intros c Hin. by apply Hc, H.
  - apply not_true_iff_false. intros (c & Hin & Hq)%existsb_exists. destruct (Hc c (H c Hin)) as (_ & Hq' & _). congruence.
  - intros n. induction d as [|c d IH]; [done|]. cbn [bracket_depth].
    destruct (Hc c (H c ltac:(by left))) as (_ & _ & -> & ->). apply IH. intros x Hx. apply H. by right.
Qed.

Lemma operator_safe k o : o ∈ operators k -> tok_safe o 0 0.
Proof.
  intros H. assert (forallb (fun o => forallb safe_char o && negb (existsb (Ascii.eqb QUOTE) o) &&
    negb (existsb (Ascii.eqb "(") o) && negb (existsb (Ascii.eqb ")") o)) (operators k) = true) as Ha by (by destruct k).
  rewrite forallb_forall in Ha. apply list_elem_of_In in H. specialize (Ha o H).
  rewrite !andb_true_iff, !negb_true_iff in Ha. destruct Ha as [[[H1 H2] H3] H4].
  apply tok_safe_text; [done|done|]. intros n. clear -H3 H4. induction o as [|c o IH]; [done|].
  cbn [existsb bracket_depth] in *. apply orb_false_iff in H3 as [Hc1 H3], H4 as [Hc2 H4].
  rewrite (Ascii.eqb_sym c), Hc1, (Ascii.eqb_sym c), Hc2. by apply IH.
Qed.

Lemma cond_prefix_safe remote g n ts : cond_prefix remote g n ts -> tok_safe (render_toks remote ts) 0 n.
Proof.
  induction 1; unfold render_toks in *; rewrite ?flat_map_app; cbn [flat_map]; rewrite ?app_nil_r.
  - by exists [].
  - eapply tok_safe_app; [done|]. exists (str "("). split_and!; [done|done|by intros].
  - eapply tok_safe_app; [done|]. assert (tok_safe c 0 0) as Hc.
    { destruct H0 as [(d & st & local & Hd & _)|(d & local & Hd & _)]; [by eapply column_safe|by eapply count_column_safe]. }
    destruct Hc as (o & H1 & H2 & H3). exists o. split_and!; [done|done|]. intros j. apply (H3 (n + j)%nat).
  - eapply tok_safe_app; [done|]. destruct (operator_safe k o H0) as (o' & H1 & H2 & H3).
    exists o'. split_and!; [done|done|]. intros j. apply (H3 (n + j)%nat).
  - eapply tok_safe_app; [done|]. destruct (digits_safe d H1) as (o' & H2 & H3 & H4).
    exists o'. split_and!; [done|done|]. intros j. apply (H4 (n + j)%nat).
  - eapply tok_safe_app; [done|]. exists []. split_and!; [|done|done]. cbn [render_tok].
    rewrite sql_outside_app. cbn. rewrite sql_outside_app, sql_outside_escaped. done.
  - eapply tok_safe_app; [done|]. exists (str ")"). split_and!; [done|done|by intros].
  - eapply tok_safe_app; [done|]. exists (str " AND "). split_and!; [done|done|by intros].
  - eapply tok_safe_app; [done|]. exists (str " OR "). split_and!; [done|done|by intros].
Qed.

(** C22: An accepted evaluation string cannot inject SQL: reading the text as
    SQL does, the end is outside of any string literal, and what is outside
    of literals is made of the characters of keywords, columns, operators,
    numbers and brackets only, with the brackets balanced. *)
Theorem format_sql_condition_safe (text : cstring) (for_remote : bool) (out : cstring)
  (Hok : format_sql_condition text [] for_remote = Some (EPKG_OK, out)) :
  exists outside, sql_outside false out = (outside, false) /\
    forallb safe_char outside = true /\ bracket_depth 0 outside = Some 0%nat.
Proof.
  destruct (format_sql_condition_accepted text [] for_remote) as (r & out' & H & Ha).
  rewrite Hok in H. injection H as <- <-. destruct Ha as [|(_ & ts & Hts & ->)]; [done|].
  destruct (tok_safe_app (str " WHERE ") (render_toks for_remote ts) 0 0 0) as (o & H1 & H2 & H3).
  - by apply tok_safe_text.
  - by apply cond_prefix_safe in Hts.
  - exists o. split_and!; [exact H1|done|]. apply (H3 0%nat).
Qed.

Lemma format_sql_condition_safe_witness :
  exists out outside, format_sql_condition (str "(%n ~ it's* ) && %s >= 10") [] false = Some (EPKG_OK, out) /\
    sql_outside false out = (outside, false) /\ bracket_depth 0 outside = Some 0%nat.
Proof.
  eexists. edestruct (format_sql_condition_safe (str "(%n ~ it's* ) && %s >= 10") false) as (o & H & _ & Hb);
    [vm_compute; reflexivity|]. exists o. split; [vm_compute; reflexivity|]. split; [exact H|exact Hb].
Defined.

(** ["%#x"] is documented as the number of elements of a list, but the
    operator is chosen by the letter after the ['#']: the text is that of
    ["%?x"], which tests whether there are any. *)
Theorem format_sql_condition_count (text out : cstring) (for_remote : bool) :
  format_sql_condition (str "%#" ++ text) out for_remote =
  format_sql_condition (str "%?" ++ text) out for_remote.
Proof. reflexivity. Qed.

(** ** What analyse_query_string guarantees to print_query *)

(** The kind of data that the rows of [multiline] have. *)
Definition row_kind (multiline : ascii) : option data_kind :=
  let isc := Ascii.eqb multiline in
  if isc "d"%char || isc "r"%char then Some KDep
  else if isc "C"%char || isc "L"%char || isc "A"%char then Some KObject
  else if isc "O"%char then Some KOption
  else if isc "F"%char then Some KFile
  else if isc "D"%char then Some KDir
  else if isc "U"%char then Some KUser
  else if isc "G"%char then Some KGroup
  else if isc "B"%char || isc "b"%char then Some KShlib
  else None.

Definition row_ok (multiline : ascii) (row : option query_data) : Prop :=
  match row_kind multiline with
  | Some k => exists d, row = Some d /\ kind_of d = k
  | None => row = None
  end.

Lemma object_elements_kind p key : Forall (fun d => kind_of d = KObject) (object_elements p key).
Proof.
  unfold object_elements. destruct (fields p !! str key) as [[]|]; repeat constructor;
    apply Forall_forall; intros x Hx; apply list_elem_of_In, in_map_iff in Hx as (? & <- & _); done.
Qed.

Lemma map_Some_ok m k (l : list query_data) : row_kind m = Some k -> Forall (fun d => kind_of d = k) l ->
  Forall (row_ok m) (map Some l).
Proof.
  intros Hm Hl. apply Forall_map. eapply Forall_impl; [exact Hl|]. intros d Hd.
  unfold row_ok, compose. rewrite Hm. by exists d.
Qed.

Lemma map_rows_ok {A} m k (f : A -> query_data) (l : list A) : row_kind m = Some k ->
  (forall x, kind_of (f x) = k) -> Forall (row_ok m) (map (fun x => Some (f x)) l).
Proof.
  intros Hm Hf. apply Forall_map, Forall_forall. intros x _. unfold row_ok, compose. rewrite Hm. by exists (f x).
Qed.

Ltac next_letter m := match goal with |- context [Ascii.eqb m ?c] => destruct (Ascii.eqb_spec m c) as [->|] end.

Lemma query_rows_ok p m rows : query_rows p m = Some rows -> Forall (row_ok m) rows.
Proof.
  unfold query_rows.
  repeat (next_letter m;
    [first [ intros (l & <- & _)%fmap_Some_1; by eapply map_rows_ok
           | intros (l & _ & ->)%fmap_Some_1; by eapply map_rows_ok
           | intros [= <-]; eapply map_Some_ok; [done|apply object_elements_kind] ]|]).
  intros [= <-]. repeat constructor. unfold row_ok, row_kind.
  repeat match goal with |- context [Ascii.eqb m ?c] => rewrite (proj2 (Ascii.eqb_neq m c)) by done end. done.
Qed.

(** A piece that can be printed once [multiline] selects the rows. *)
Definition piece_ok (multiline : ascii) (x : piece) : Prop :=
  match x with
  | PData k _ => row_kind multiline = Some k
  | PBool a => a = PKG_AUTOMATIC \/ a = PKG_LOCKED
  | PChar _ | PPkg _ | PMessage => True
  end.

(** The pieces of a letter of the table need the rows of that letter, if any. *)
Definition letter_ok (q : query_flag) (x : piece) : Prop :=
  match x with PData _ _ => qf_multiline q = true | _ => True end /\ piece_ok (qf_flag q) x.

Lemma data_piece_ok q k t c : qf_multiline q = true -> row_kind (qf_flag q) = Some k ->
  Forall (letter_ok q) (data_piece k t c).
Proof. intros. unfold data_piece. case_match; [case_match|]; repeat constructor; done. Qed.

Lemma pkg_piece_ok q t c : Forall (letter_ok q) (pkg_piece t c).
Proof. unfold pkg_piece. case_match; [case_match|]; repeat constructor. Qed.

(** The table of the accepted letters agrees with the switch of format_str. *)
Lemma table_directive d q : find_flag accepted_query_flags d = Some q ->
  d = qf_flag q /\ Ascii.eqb d "%" = false /\ Ascii.eqb d BACKSLASH = false /\
  match directive_of d with
  | One ps => qf_options q = [] /\ Forall (letter_ok q) ps
  | Two f => qf_options q <> [] /\ forall o, Forall (letter_ok q) (f o)
  end.
Proof.
  intros H. assert (In q accepted_query_flags /\ d = qf_flag q) as [Hin ->].
  { apply find_some in H as [? ?%Ascii.eqb_eq]. done. }
  clear H. split; [done|].
  repeat (destruct Hin as [<- | Hin];
    [split; [reflexivity|]; split; [reflexivity|]; cbn -[data_piece pkg_piece letter_ok list_letters contains];
     (split; [done|]);
     first [ by repeat constructor
           | intros o; first [ by apply data_piece_ok | apply pkg_piece_ok | case_match; by repeat constructor ] ]|]).
  done.
Qed.

Lemma options_plain q o : In q accepted_query_flags -> contains (qf_options q) o = true ->
  Ascii.eqb o "%" = false /\ Ascii.eqb o BACKSLASH = false.
Proof.
  intros Hin (x & Hx & ->%Ascii.eqb_eq)%existsb_exists.
  assert (forallb (fun q => forallb (fun c => negb (Ascii.eqb c "%") && negb (Ascii.eqb c BACKSLASH)) (qf_options q))
    accepted_query_flags = true) as Ht by reflexivity.
  rewrite forallb_forall in Ht. specialize (Ht q Hin). rewrite forallb_forall in Ht.
  by specialize (Ht x Hx) as [?%negb_true_iff ?%negb_true_iff]%andb_true_iff.
Qed.

(** Does the text end in an odd number of backslashes? *)
Fixpoint dangling (odd : bool) (s : cstring) : bool :=
  match s with
  | [] => odd
  | c :: s => dangling (Ascii.eqb c BACKSLASH && negb odd) s
  end.

Lemma use_flag_multiline table q o fl m fl' m' : use_flag table q o fl m = Some (fl', m') ->
  (qf_multiline q = true -> m' = qf_flag q) /\ (m <> NUL -> m' = m).
Proof.
  unfold use_flag. destruct (qf_multiline q); cbn.
  - destruct (Ascii.eqb_spec m NUL) as [->|Hm]; cbn; [by intros [= <- <-]|].
    destruct (Ascii.eqb_spec m (qf_flag q)) as [->|]; [by intros [= <- <-]|done].
  - by intros [= <- <-].
Qed.

Lemma flag_not_nul d q : find_flag accepted_query_flags d = Some q -> qf_flag q <> NUL.
Proof.
  intros [Hin _]%find_some.
  assert (forallb (fun q => negb (Ascii.eqb (qf_flag q) NUL)) accepted_query_flags = true) as Ht by reflexivity.
  rewrite forallb_forall in Ht. by apply Ht, negb_true_iff, Ascii.eqb_neq in Hin.
Qed.

Lemma letter_pieces table q o fl m fl1 m1 m' ps : use_flag table q o fl m = Some (fl1, m1) ->
  qf_flag q <> NUL -> (m1 <> NUL -> m' = m1) -> Forall (letter_ok q) ps -> Forall (piece_ok m') ps.
Proof.
  intros [Hu _]%use_flag_multiline Hn Hm Hf. eapply Forall_impl; [exact Hf|]. intros [] [Hl Hp]; try done.
  cbn in *. specialize (Hu Hl). by rewrite Hm, Hu by congruence.
Qed.

(** The two readings of a format, by analyse_query_string and by format_str,
    agree but for a backslash before a percent sign, after which format_str
    prints the letters of the directive. *)
Definition plain (c : ascii) : bool := negb (Ascii.eqb c "%") && negb (Ascii.eqb c BACKSLASH).

Lemma plain_spec c : plain c = true <-> Ascii.eqb c "%" = false /\ Ascii.eqb c BACKSLASH = false.
Proof. unfold plain. by rewrite andb_true_iff, !negb_true_iff. Qed.

Lemma format_plain w r : forallb plain w = true ->
  format_pieces (w ++ r) = ps ← format_pieces r; Some (map PChar w ++ ps).
Proof.
  induction w as [|c w IH]; [cbn; by destruct (format_pieces r)|]. cbn [forallb app format_pieces map].
  intros [[-> ->]%plain_spec Hw]%andb_true_iff. rewrite IH by done. by destruct (format_pieces r).
Qed.

Lemma dangling_plain w r b : forallb plain w = true -> (b = true -> w <> []) -> dangling b (w ++ r) = dangling false r.
Proof.
  revert b; induction w as [|c w IH]; intros b; cbn [forallb app dangling]; [destruct b; [intros _ H; by destruct (H eq_refl)|done]|].
  intros [[_ ->]%plain_spec Hw]%andb_true_iff _. by apply IH.
Qed.

Lemma analyse_directive d r fl m res : analyse_loop accepted_query_flags ("%"%char :: d :: r) fl m = Some res ->
  exists q o fl1 m1 w r' ps, use_flag accepted_query_flags q o fl m = Some (fl1, m1) /\ qf_flag q <> NUL /\
    Forall (letter_ok q) ps /\ analyse_loop accepted_query_flags r' fl1 m1 = Some res /\
    d :: r = w ++ r' /\ forallb plain w = true /\ w <> [] /\
    format_pieces ("%"%char :: d :: r) = ps' ← format_pieces r'; Some (ps ++ ps').
Proof.
  cbn [analyse_loop Ascii.eqb Bool.eqb negb].
  destruct (find_flag accepted_query_flags d) as [q|] eqn:Ef; [|done].
  pose proof (flag_not_nul _ _ Ef) as Hnul. pose proof (find_some _ _ Ef) as [Hin _].
  destruct (table_directive _ _ Ef) as (-> & Hp & Hb & Hd).
  destruct (directive_of (qf_flag q)) as [ps|f] eqn:Ed.
  - destruct Hd as [-> Hps]. intros ([fl1 m1] & Hu & H)%bind_Some.
    exists q, NUL, fl1, m1, [qf_flag q], r, ps. split_and!; try done.
    + cbn. apply andb_true_iff. split; [by apply plain_spec|done].
    + cbn [format_pieces Ascii.eqb Bool.eqb]. by rewrite Ed.
  - destruct Hd as [Ho Hf]. destruct (qf_options q) as [|o0 os] eqn:Eo; [done|].
    destruct r as [|o r']; [done|]. destruct (contains (o0 :: os) o) eqn:Ec; [|done].
    intros ([fl1 m1] & Hu & H)%bind_Some. rewrite <- Eo in Ec.
    exists q, o, fl1, m1, [qf_flag q; o], r', (f o). split_and!; try done.
    + cbn. rewrite !andb_true_iff. split_and!; [by apply plain_spec| |done].
      apply plain_spec. by eapply options_plain.
    + cbn [format_pieces Ascii.eqb Bool.eqb]. by rewrite Ed.
Qed.

Definition analysed (multiline : ascii) (qstr : cstring) : Prop :=
  match format_pieces qstr with
  | None => dangling false qstr = true
  | Some ps => dangling false qstr = false /\ Forall (piece_ok multiline) ps
  end.

Lemma analysed_app m' qstr r ps : analysed m' r -> Forall (piece_ok m') ps ->
  format_pieces qstr = (ps' ← format_pieces r; Some (ps ++ ps')) -> dangling false qstr = dangling false r ->
  analysed m' qstr.
Proof.
  unfold analysed. intros Hr Hps -> ->. destruct (format_pieces r); cbn; [|done].
  split; [apply Hr|apply Forall_app; split; [done|apply Hr]].
Qed.

Lemma escape_ok m d : Forall (piece_ok m) (escape d).
Proof. unfold escape. repeat case_match; repeat constructor. Qed.

Lemma chars_ok m w : Forall (piece_ok m) (map PChar w).
Proof. apply Forall_map, Forall_true. done. Qed.

Lemma analyse_loop_pieces n qstr fl m fl' m' : (length qstr <= n)%nat ->
  analyse_loop accepted_query_flags qstr fl m = Some (fl', m') ->
  (m <> NUL -> m' = m) /\ analysed m' qstr.
Proof.
  revert qstr fl m; induction n as [|n IH]; intros qstr fl m Hn; (destruct qstr as [|c r];
    [by intros [= <- <-]|]); cbn [length] in Hn; [lia|].
  (* at a directive *)
  assert (forall d r, (S (length r) <= n)%nat -> analyse_loop accepted_query_flags ("%"%char :: d :: r) fl m = Some (fl', m') ->
    (m <> NUL -> m' = m) /\ analysed m' ("%"%char :: d :: r) /\ analysed m' (d :: r) /\
    dangling true (d :: r) = dangling false (d :: r)) as Hdir.
  { intros d r0 Hr0 (q & o & fl1 & m1 & w & r' & ps & Hu & Hq & Hps & Hr & Hw' & Hw & Hw0 & Hf)%analyse_directive.
    pose proof (use_flag_multiline _ _ _ _ _ _ _ Hu) as [_ Hm1].
    assert (length r' <= n)%nat as Hn'.
    { apply (f_equal length) in Hw'. rewrite length_app in Hw'. cbn [length] in Hw'. lia. }
    destruct (IH r' fl1 m1 Hn' Hr) as [Hm' Ha].
    assert (forall b, (b = true -> w <> []) -> dangling b (d :: r0) = dangling false r') as Hd.
    { intros b. rewrite Hw'. by apply dangling_plain. }
    split_and!.
    - intros Hm. rewrite Hm' by (by rewrite Hm1). by apply Hm1.
    - apply (analysed_app m' _ r' ps); [done|by eapply letter_pieces|done|by apply Hd].
    - apply (analysed_app m' _ r' (map PChar w)); [done|apply chars_ok| |by apply Hd].
      rewrite Hw'. by apply format_plain.
    - by rewrite !Hd. }
  cbn [analyse_loop]. destruct (Ascii.eqb_spec c "%") as [->|Hc]; cbn [negb].
  - destruct r as [|d r]; [done|]. intros H. destruct (Hdir d r) as (? & ? & _); [cbn in Hn; lia|exact H|done].
  - apply Ascii.eqb_neq in Hc. destruct (Ascii.eqb c BACKSLASH) eqn:Eb.
    + destruct r as [|d r].
      { intros [= <- <-]. split; [done|]. unfold analysed. cbn [format_pieces dangling]. by rewrite Hc, Eb. }
      destruct (Ascii.eqb_spec d "%") as [->|Hd].
      * destruct r as [|d' r]; [by cbn|]. intros H. cbn in Hn.
        destruct (Hdir d' r) as (? & _ & Ha & Hda); [lia|exact H|]. split; [done|].
        apply (analysed_app m' _ (d' :: r) (escape "%")); [done|apply escape_ok| |].
        -- cbn [format_pieces]. by rewrite Hc, Eb.
        -- cbn [dangling] in *. by rewrite Eb.
      * apply Ascii.eqb_neq in Hd. cbn [analyse_loop]. rewrite Hd. cbn [negb]. intros H. cbn in Hn.
        destruct (IH r fl m ltac:(lia) H) as [? Ha]. split; [done|].
        apply (analysed_app m' _ r (escape d)); [done|apply escape_ok| |].
        -- cbn [format_pieces]. by rewrite Hc, Eb.
        -- cbn [dangling]. rewrite Eb. cbn. by rewrite andb_false_r.
    + intros H. destruct (IH r fl m ltac:(lia) H) as [? Ha]. split; [done|].
      apply (analysed_app m' _ r [PChar c]); [done|by repeat constructor| |].
      * cbn [format_pieces]. rewrite Hc, Eb. by destruct (format_pieces r).
      * cbn [dangling]. by rewrite Eb.
Qed.

Lemma render_ok printf_pkg printf_data p m row ps : row_ok m row -> Forall (piece_ok m) ps ->
  exists texts, mapM (render printf_pkg printf_data p row) ps = Some texts.
Proof.
  intros Hrow. induction 1 as [|x ps Hx _ [texts IH]]; [by exists []|].
  assert (exists t, render printf_pkg printf_data p row x = Some t) as [t Ht].
  { unfold row_ok in Hrow. destruct x as [c|fmt|k fmt|a|]; unfold render; [eauto|eauto| | |destruct (fields p !! _); eauto].
    - cbn in Hx. rewrite Hx in Hrow. destruct Hrow as (d & -> & Hk). rewrite decide_True by done. eauto.
    - destruct Hx as [-> | ->]; cbn; eauto. }
  exists (t :: texts). cbn. by rewrite Ht, IH.
Qed.

(** A format that analyse_query_string accepts is printed by print_query
    without undefined behaviour: one line per element of the list that
    [multiline] selects (one line if none), every directive applied to data
    of the kind it expects.  The only exception is a format that ends in an
    unescaped backslash, of which format_str reads past the end. *)
Theorem print_query_analysed (printf_pkg : string -> pkg -> cstring)
  (printf_data : string -> query_data -> cstring) (p : pkg) (qstr : cstring) (flags flags' : Z)
  (multiline : ascii) (rows : list (option query_data))
  (Hanalyse : analyse_query_string qstr accepted_query_flags flags NUL = (EPKG_OK, flags', multiline))
  (Hrows : query_rows p multiline = Some rows) :
  if dangling false qstr
  then format_pieces qstr = None
  else exists lines, print_query printf_pkg printf_data p qstr multiline = Some lines /\
         length lines = length rows.
Proof.
  unfold analyse_query_string in Hanalyse. destruct (strchr qstr "%"); [|done].
  destruct (analyse_loop _ qstr flags NUL) as [[fl m]|] eqn:E; [|done]. injection Hanalyse as <- <-.
  destruct (analyse_loop_pieces _ _ _ _ _ _ (le_n _) E) as [_ Ha]. unfold analysed in Ha.
  destruct (format_pieces qstr) as [ps|] eqn:Ef; [|by rewrite Ha].
  destruct Ha as [-> Hps]. unfold print_query. rewrite Hrows. cbn [mbind option_bind].
  match goal with |- exists lines, mapM ?f rows = _ /\ _ => assert (is_Some (mapM f rows)) as [lines Hl] end.
  { apply mapM_is_Some_2. apply query_rows_ok in Hrows. eapply Forall_impl; [exact Hrows|]. intros row Hrow.
    destruct (render_ok printf_pkg printf_data p m row ps Hrow Hps) as [texts Ht].
    unfold compose, format_str. rewrite Ef. cbn [mbind option_bind]. rewrite Ht. by eexists. }
  exists lines. split; [exact Hl|]. symmetry. by eapply length_mapM.
Qed.

Lemma print_query_analysed_witness :
  exists p rows, analyse_query_string (str "%n needs %dn-%dv") accepted_query_flags 0 NUL = (EPKG_OK, 1, "d"%char) /\
    query_rows p "d" = Some rows /\ length rows = 2%nat /\
    exists lines, print_query (fun _ _ => str "pkg") (fun _ _ => str "dep") p (str "%n needs %dn-%dv") "d" = Some lines /\
      length lines = length rows.
Proof.
  set (add n p := match p with
    | Some p => match pkg_adddep false p n n (str "1.0") false with Some (_, p) => Some p | None => None end
    | None => None end).
  set (op := add (str "b") (add (str "a") (Some (pkg_new PKG_NONE)))).
  assert (exists p, op = Some p) as [p Hp] by (eexists; vm_compute; reflexivity).
  assert (exists rows, query_rows p "d" = Some rows /\ length rows = 2%nat) as (rows & Hr & Hl)
    by (vm_compute in Hp; injection Hp as <-; eexists; split; vm_compute; reflexivity).
  assert (analyse_query_string (str "%n needs %dn-%dv") accepted_query_flags 0 NUL = (EPKG_OK, 1, "d"%char)) as Ha
    by (vm_compute; reflexivity).
  exists p, rows. split; [exact Ha|]. split; [exact Hr|]. split; [exact Hl|].
  exact (print_query_analysed (fun _ _ => str "pkg") (fun _ _ => str "dep") p (str "%n needs %dn-%dv") 0 1 "d"%char rows Ha Hr).
Defined.
