(* ===== verification/Cprintf.v ===== *)
(** * The libc formatting routines libpkg's printf is built on

    The conversions [printf] applies to the format strings gen_format makes
    ([%], flags, [*], and one of [s], [ld], [o], [.*f]), as FreeBSD's libc has
    them in the C locale; [strmode]; and the [double]s of human_number.

    [sbuf_printf] interprets the format string against the arguments: [None]
    where the C call is undefined, which is when an argument has not the type
    its conversion reads.  The flag [0] pads strings too and [#] has no effect
    on them; the flag for grouping has none in the C locale.

    A [double] is a pair [(m, e)] for [m * 2^e], not negative.  [rnd] rounds a
    quotient to 53 significant bits, to nearest, ties to even: the results of
    human_number are between 1 and 2^63, so there is no overflow, underflow or
    infinity. *)
From S2P Require Import Prelude CString.

(** ** Numbers in a base *)

(** The digits of [n] before [acc]; the base is at most ten. *)
Fixpoint itoa (fuel : nat) (base n : Z) (acc : cstring) : cstring :=
  match fuel with
  | O => acc
  | S fuel =>
      let acc := chr (48 + n mod base) :: acc in
      if n / base =? 0 then acc else itoa fuel base (n / base) acc
  end.

Definition print_base (base n : Z) : cstring := itoa (S (Z.to_nat (Z.log2 n))) base n [].
Definition print_dec : Z -> cstring := print_base 10.
Definition print_oct : Z -> cstring := print_base 8.

(** The value of digits in a base. *)
Definition read_base (base acc : Z) (s : cstring) : Z :=
  fold_left (fun a c => a * base + (code c - 48)) s acc.

(** ** Doubles *)

(** The integer nearest to [n / d], the even one of two. *)
Definition rne (n d : Z) : Z :=
  let q := n / d in
  let r := n mod d in
  if 2 * r <? d then q else if d <? 2 * r then q + 1 else if Z.even q then q else q + 1.

Record double := mk_double { d_m : Z; d_e : Z }.

(** The double as a fraction. *)
Definition frac (x : double) : Z * Z :=
  if 0 <=? d_e x then (d_m x * 2 ^ d_e x, 1) else (d_m x, 2 ^ (- d_e x)).

(** [n / d * 2^-k] as a fraction. *)
Definition scaled (n d k : Z) : Z * Z :=
  if 0 <=? k then (n, d * 2 ^ k) else (n * 2 ^ (- k), d).

(** The exponent for which [n / d * 2^-k] has 53 bits. *)
Definition exponent (n d : Z) : Z :=
  let t := Z.log2 n - Z.log2 d - 52 in
  let '(n', d') := scaled n d t in
  if n' <? 2 ^ 52 * d' then t - 1 else t.

(** [n / d] rounded to a double. *)
Definition rnd (n d : Z) : double :=
  if n =? 0 then mk_double 0 0
  else let k := exponent n d in
       let '(n', d') := scaled n d k in
       mk_double (rne n' d') k.

Definition double_of_int (n : Z) : double := rnd n 1.
Definition double_div (x : double) (k : Z) : double := let '(n, d) := frac x in rnd n (d * k).
Definition double_lt (x : double) (k : Z) : bool := let '(n, d) := frac x in n <? k * d.

(** ** printf *)

Record conv_flags := mk_flags {
  fl_alt : bool; fl_left : bool; fl_zero : bool; fl_plus : bool; fl_space : bool; fl_group : bool }.

Definition no_flags : conv_flags := mk_flags false false false false false false.

Definition read_flag (c : ascii) (f : conv_flags) : option conv_flags :=
  if Ascii.eqb c "#" then Some (mk_flags true (fl_left f) (fl_zero f) (fl_plus f) (fl_space f) (fl_group f))
  else if Ascii.eqb c "-" then Some (mk_flags (fl_alt f) true (fl_zero f) (fl_plus f) (fl_space f) (fl_group f))
  else if Ascii.eqb c "0" then Some (mk_flags (fl_alt f) (fl_left f) true (fl_plus f) (fl_space f) (fl_group f))
  else if Ascii.eqb c "+" then Some (mk_flags (fl_alt f) (fl_left f) (fl_zero f) true (fl_space f) (fl_group f))
  else if Ascii.eqb c " " then Some (mk_flags (fl_alt f) (fl_left f) (fl_zero f) (fl_plus f) true (fl_group f))
  else if Ascii.eqb c "'" then Some (mk_flags (fl_alt f) (fl_left f) (fl_zero f) (fl_plus f) (fl_space f) true)
  else None.

Fixpoint read_flags (s : cstring) (f : conv_flags) : conv_flags * cstring :=
  match s with
  | [] => (f, [])
  | c :: r => match read_flag c f with Some f => read_flags r f | None => (f, s) end
  end.

(** The arguments, by the type the caller passes them with. *)
Inductive carg :=
  | CInt (z : Z) | CLong (z : Z) | CUInt (z : Z) | CStr (s : option cstring)
  | CDouble (neg : bool) (x : double).

Definition pad (c : ascii) (width : Z) (used : nat) : cstring :=
  replicate (Z.to_nat width - used) c.

(** A converted value in its field. *)
Definition field (f : conv_flags) (width : Z) (sign body : cstring) : cstring :=
  let used := length (sign ++ body) in
  if fl_left f then sign ++ body ++ pad " " width used
  else if fl_zero f then sign ++ pad "0" width used ++ body
  else pad " " width used ++ sign ++ body.

Definition sign_of (f : conv_flags) (neg : bool) : cstring :=
  if neg then str "-" else if fl_plus f then str "+" else if fl_space f then str " " else [].

(** [k] with [prec] decimals, [k] counting units of [10^-prec]. *)
Definition print_fixed (prec k : Z) : cstring :=
  if prec =? 0 then print_dec k
  else
    let frac := print_dec (k mod 10 ^ prec) in
    print_dec (k / 10 ^ prec) ++ str "." ++ pad "0" prec (length frac) ++ frac.

(** A double in units of [10^-prec]. *)
Definition decimals (prec : Z) (x : double) : Z :=
  let '(n, d) := frac x in rne (n * 10 ^ prec) d.

Definition conversion (f : conv_flags) (width : Z) (conv : cstring) (args : list carg) : option cstring :=
  match args with
  | [CStr s] =>
      if bool_decide (conv = str "s") then Some (field f width [] (default (str "(null)") s)) else None
  | [CLong z] =>
      if bool_decide (conv = str "ld") then Some (field f width (sign_of f (z <? 0)) (print_dec (Z.abs z)))
      else None
  | [CUInt z] =>
      if bool_decide (conv = str "o") then
        Some (field f width [] (if fl_alt f && negb (z =? 0) then str "0" ++ print_oct z else print_oct z))
      else None
  | [CInt prec; CDouble neg x] =>
      if bool_decide (conv = str ".*f") && (0 <=? prec) then
        Some (field f width (sign_of f neg) (print_fixed prec (decimals prec x)))
      else None
  | _ => None
  end.

(** A negative width aligns to the left. *)
Definition star_width (f : conv_flags) (w : Z) : conv_flags * Z :=
  if w <? 0 then (mk_flags (fl_alt f) true (fl_zero f) (fl_plus f) (fl_space f) (fl_group f), - w)
  else (f, w).

Definition sbuf_printf (fmt : cstring) (args : list carg) : option cstring :=
  match fmt, args with
  | c :: r, CInt w :: args =>
      let '(f, r) := read_flags r no_flags in
      if Ascii.eqb c "%" && Ascii.eqb (deref r) "*" then
        let '(f, w) := star_width f w in conversion f w (drop 1 r) args
      else None
  | _, _ => None
  end.

(** ** strmode *)

Definition S_IFMT : Z := 61440.

(** The character for the type of the inode. *)
Definition inode_char (mode : Z) : ascii :=
  let t := Z.land mode S_IFMT in
  if t =? 16384 then "d" else if t =? 8192 then "c" else if t =? 24576 then "b"
  else if t =? 32768 then "-" else if t =? 40960 then "l" else if t =? 49152 then "s"
  else if t =? 4096 then "p" else if t =? 57344 then "w" else "?".

(** Read, write and execute with the set-id or sticky bit of one class. *)
Definition mode_class (mode : Z) (shift special : Z) (set_exec set : ascii) : cstring :=
  let bit k := Z.testbit mode (shift + k) in
  [ (if bit 2 then "r" else "-")%char; (if bit 1 then "w" else "-")%char;
    if Z.testbit mode special then (if bit 0 then set_exec else set)
    else (if bit 0 then "x" else "-")%char ].

(** Eleven characters, the last one a space. *)
Definition strmode (mode : Z) : cstring :=
  inode_char mode :: mode_class mode 6 11 "s" "S" ++ mode_class mode 3 10 "s" "S"
    ++ mode_class mode 0 9 "t" "T" ++ str " ".

(** ** Printing and reading numbers *)

Lemma read_base_app base a s t : read_base base a (s ++ t) = read_base base (read_base base a s) t.
Proof. apply fold_left_app. Qed.

Lemma read_base_cons base a c s : read_base base a (c :: s) = read_base base (a * base + (code c - 48)) s.
Proof. done. Qed.

Lemma read_base_itoa base fuel n acc a : 2 <= base <= 10 -> 0 <= n < 2 ^ Z.of_nat fuel ->
  exists k, 0 <= k /\ read_base base a (itoa fuel base n acc) = read_base base (a * base ^ k + n) acc.
Proof.
  intros Hb. revert n acc; induction fuel as [|fuel IH]; intros n acc Hn.
  - exists 0. change (2 ^ Z.of_nat 0) with 1 in Hn. assert (n = 0) as -> by lia.
    split; [done|]. cbn [itoa]. by rewrite Z.pow_0_r, Z.mul_1_r, Z.add_0_r.
  - cbn [itoa]. pose proof (Z.div_mod n base ltac:(lia)). pose proof (Z.mod_pos_bound n base ltac:(lia)).
    destruct (Z.eqb_spec (n / base) 0) as [E|E].
    + exists 1. split; [done|]. rewrite read_base_cons, code_chr, Z.pow_1_r by lia. f_equal. lia.
    + destruct (IH (n / base) (chr (48 + n mod base) :: acc)) as (k & Hk & ->).
      { split; [apply Z.div_pos; lia|]. apply Z.div_lt_upper_bound; [lia|].
        rewrite Nat2Z.inj_succ, Z.pow_succ_r in Hn by lia. nia. }
      exists (k + 1). rewrite read_base_cons, code_chr by lia. rewrite Z.pow_add_r, Z.pow_1_r by lia.
      split; [lia|]. f_equal. nia.
Qed.

(** The number a printed number denotes is the number. *)
Lemma read_print_base base n : 2 <= base <= 10 -> 0 <= n -> read_base base 0 (print_base base n) = n.
Proof.
  intros Hb Hn. unfold print_base.
  destruct (read_base_itoa base (S (Z.to_nat (Z.log2 n))) n [] 0 Hb) as (k & _ & ->); [|done].
  split; [done|]. rewrite Nat2Z.inj_succ, Z2Nat.id by apply Z.log2_nonneg.
  destruct (Z.eq_dec n 0) as [->|]; [done|]. apply Z.log2_spec. lia.
Qed.

Lemma itoa_digits base fuel n acc : 2 <= base <= 10 -> Forall (fun c => isdigit c = true) acc ->
  Forall (fun c => isdigit c = true) (itoa fuel base n acc).
Proof.
  intros Hb. revert n acc; induction fuel as [|fuel IH]; intros n acc Ha; cbn [itoa]; [done|].
  assert (isdigit (chr (48 + n mod base)) = true) as Hd.
  { pose proof (Z.mod_pos_bound n base ltac:(lia)). unfold isdigit. rewrite code_chr by lia.
    apply andb_true_iff; split; lia. }
  destruct (n / base =? 0); [by constructor|]. apply IH. by constructor.
Qed.

Lemma print_base_digits base n : 2 <= base <= 10 -> Forall (fun c => isdigit c = true) (print_base base n).
Proof. intros Hb. by apply itoa_digits. Qed.

Lemma itoa_nonempty base fuel n acc : (fuel <> O \/ acc <> []) -> itoa fuel base n acc <> [].
Proof.
  revert n acc; induction fuel as [|fuel IH]; intros n acc [H|H]; cbn [itoa]; try done.
  - destruct (_ =? 0); [done|]. apply IH. by right.
  - destruct (_ =? 0); [done|]. apply IH. by right.
Qed.

Lemma print_base_nonempty base n : print_base base n <> [].
Proof. apply itoa_nonempty. by left. Qed.

(** Digits read as [strtoll] and the parsers read them. *)
Lemma digits_read_base acc s rest : Forall (fun c => isdigit c = true) s -> isdigit (deref rest) = false ->
  digits acc (s ++ rest) = (read_base 10 acc s, rest).
Proof.
  intros Hs Hr. revert acc; induction Hs as [|c s Hc Hs IH]; intros acc; cbn.
  - destruct rest as [|c r]; [done|]. cbn in *. by rewrite Hr.
  - by rewrite Hc, IH.
Qed.

Lemma digits_print_dec n rest : 0 <= n -> isdigit (deref rest) = false ->
  digits 0 (print_dec n ++ rest) = (n, rest).
Proof.
  intros Hn Hr. rewrite digits_read_base by (done || by apply print_base_digits).
  by rewrite read_print_base.
Qed.

Lemma pad_length c width used : length (pad c width used) = (Z.to_nat width - used)%nat.
Proof. apply length_replicate. Qed.

Lemma field_length f width sign body :
  length (field f width sign body) = Nat.max (Z.to_nat width) (length (sign ++ body)).
Proof.
  unfold field. destruct (fl_left f), (fl_zero f); repeat rewrite ?length_app, ?pad_length; lia.
Qed.

(** ** Rounding *)

Lemma rne_error n d : 0 < d -> 2 * Z.abs (rne n d * d - n) <= d.
Proof.
  intros Hd. unfold rne. pose proof (Z.div_mod n d ltac:(lia)) as E.
  pose proof (Z.mod_pos_bound n d Hd) as B.
  assert (forall q r, q * d - n = r -> Z.abs (q * d - n) = Z.abs r) as R by (by intros ? ? ->).
  destruct (Z.ltb_spec (2 * (n mod d)) d), (Z.ltb_spec d (2 * (n mod d))), (Z.even (n / d));
    first [rewrite (R (n / d) (- (n mod d))) by lia; lia
          |rewrite (R (n / d + 1) (d - n mod d)) by lia; lia].
Qed.

Lemma rne_nonneg n d : 0 <= n -> 0 < d -> 0 <= rne n d.
Proof. intros Hn Hd. pose proof (Z.div_pos n d Hn Hd). unfold rne. repeat case_match; lia. Qed.

Lemma scaled_pos n d k : 0 < n -> 0 < d -> 0 < (scaled n d k).1 /\ 0 < (scaled n d k).2.
Proof.
  intros Hn Hd. unfold scaled. destruct (Z.leb_spec 0 k); cbn; split; try done;
    apply Z.mul_pos_pos; try done; apply Z.pow_pos_nonneg; lia.
Qed.

Lemma frac_pos x : 0 <= d_m x -> 0 <= (frac x).1 /\ 0 < (frac x).2.
Proof.
  intros Hm. unfold frac. destruct (Z.leb_spec 0 (d_e x)); cbn.
  - split; [apply Z.mul_nonneg_nonneg; [done|apply Z.pow_nonneg; lia]|lia].
  - split; [done|apply Z.pow_pos_nonneg; lia].
Qed.

(** A number with [t] more bits than [d]: their quotient is around [2^t]. *)
Lemma log2_quotient n d (t := Z.log2 n - Z.log2 d) : 0 < n -> 0 < d ->
  let '(n', d') := scaled n d (t - 52) in 2 ^ 51 * d' < n' /\ n' < 2 ^ 53 * d'.
Proof.
  intros Hn Hd. subst t.
  pose proof (Z.log2_spec n Hn) as [N1 N2]. pose proof (Z.log2_spec d Hd) as [D1 D2].
  set (a := Z.log2 n) in *. set (b := Z.log2 d) in *.
  assert (0 <= a) as Ha by apply Z.log2_nonneg. assert (0 <= b) as Hb by apply Z.log2_nonneg.
  rewrite <- Z.add_1_r, Z.pow_add_r, Z.pow_1_r in N2, D2 by lia.
  unfold scaled. destruct (Z.leb_spec 0 (a - b - 52)).
  - assert (2 ^ a = 2 ^ b * (2 ^ (a - b - 52) * 2 ^ 52)) as E
      by (rewrite <- !Z.pow_add_r by lia; f_equal; lia).
    pose proof (Z.pow_pos_nonneg 2 (a - b - 52) ltac:(lia) ltac:(lia)). nia.
  - assert (2 ^ a * 2 ^ (- (a - b - 52)) = 2 ^ b * 2 ^ 52) as E
      by (rewrite <- !Z.pow_add_r by lia; f_equal; lia).
    pose proof (Z.pow_pos_nonneg 2 (- (a - b - 52)) ltac:(lia) ltac:(lia)). nia.
Qed.

Lemma scaled_pred n d k : 0 < n -> 0 < d ->
  (scaled n d (k - 1)).1 * (scaled n d k).2 = 2 * ((scaled n d k).1 * (scaled n d (k - 1)).2).
Proof.
  intros Hn Hd. unfold scaled. destruct (Z.leb_spec 0 k), (Z.leb_spec 0 (k - 1)); cbn [fst snd]; try lia.
  - replace k with (k - 1 + 1) at 1 by lia. rewrite Z.pow_add_r by lia. lia.
  - assert (k = 0) as -> by lia. cbn. lia.
  - replace (- (k - 1)) with (- k + 1) by lia. rewrite Z.pow_add_r by lia. lia.
Qed.

(** The quotient is scaled to at least 53 bits. *)
Lemma exponent_spec n d : 0 < n -> 0 < d ->
  let '(n', d') := scaled n d (exponent n d) in 2 ^ 52 * d' <= n'.
Proof.
  intros Hn Hd. unfold exponent. pose proof (log2_quotient n d Hn Hd) as L.
  set (k := Z.log2 n - Z.log2 d - 52) in *.
  pose proof (scaled_pred n d k Hn Hd) as P.
  destruct (scaled_pos n d k Hn Hd) as [P1 P2], (scaled_pos n d (k - 1) Hn Hd) as [Q1 Q2].
  destruct (scaled n d k) as [n' d'] eqn:E. cbn beta iota in L. destruct L as [L1 L2].
  destruct (Z.ltb_spec n' (2 ^ 52 * d')); [|by rewrite E].
  destruct (scaled n d (k - 1)) as [n'' d'']. cbn [fst snd] in *. nia.
Qed.

Lemma rnd_pos n d : 0 < n ->
  rnd n d = mk_double (rne (scaled n d (exponent n d)).1 (scaled n d (exponent n d)).2) (exponent n d).
Proof.
  intros Hn. unfold rnd. destruct (Z.eqb_spec n 0); [lia|]. by destruct (scaled n d (exponent n d)).
Qed.

(** Rounding to a double changes a quotient by at most one part in 2^53. *)
Lemma rnd_error n d : 0 <= n -> 0 < d ->
  let '(a, b) := frac (rnd n d) in 0 <= a /\ 0 < b /\ 2 ^ 53 * Z.abs (a * d - n * b) <= n * b.
Proof.
  intros Hn Hd. destruct (Z.eq_dec n 0) as [->|Hn0]; [cbn; lia|].
  assert (0 < n) as Hn' by lia. rewrite rnd_pos by done. pose proof (exponent_spec n d Hn' Hd) as E.
  set (k := exponent n d) in *. destruct (scaled_pos n d k Hn' Hd) as [P1 P2].
  pose proof (rne_error (scaled n d k).1 (scaled n d k).2 P2) as R.
  pose proof (rne_nonneg (scaled n d k).1 (scaled n d k).2 ltac:(lia) P2) as R0.
  pose proof (frac_pos (mk_double (rne (scaled n d k).1 (scaled n d k).2) k) R0) as F.
  revert E P1 P2 R R0 F. unfold scaled, frac. cbn [d_m d_e]. destruct (Z.leb_spec 0 k); cbn [fst snd].
  all: intros E P1 P2 R R0 F; (split; [apply F|split; [apply F|]]).
  - replace (rne n (d * 2 ^ k) * 2 ^ k * d - n * 1) with (rne n (d * 2 ^ k) * (d * 2 ^ k) - n) by lia. lia.
  - lia.
Qed.

Lemma double_lt_spec x k : double_lt x k = true <-> (frac x).1 < k * (frac x).2.
Proof. unfold double_lt. destruct (frac x). apply Z.ltb_lt. Qed.

(** An integer of at most 53 bits is a double. *)
Example double_of_int_exact :
  forallb (fun n => let '(a, b) := frac (double_of_int n) in a =? n * b)
    [0; 1; 2; 3; 1000; 1023; 1024; 2 ^ 53 - 1; 2 ^ 53; 2 ^ 63] = true.
Proof. reflexivity. Qed.

Example double_of_int_rounds :
  map (fun n => (frac (double_of_int n)).1) [2 ^ 53 + 1; 2 ^ 53 + 3; 2 ^ 63 - 1]
  = [2 ^ 53; 2 ^ 53 + 4; 2 ^ 63].
Proof. reflexivity. Qed.

Example strmode_ex : map strmode [16877; 33188; 2541; 0] =
  [str "drwxr-xr-x "; str "-rw-r--r-- "; str "?rwsr-xr-x "; str "?--------- "].
Proof. reflexivity. Qed.

Example sbuf_printf_ex :
  (sbuf_printf (str "%-*s") [CInt 5; CStr (Some (str "abc"))], sbuf_printf (str "%0*ld") [CInt 5; CLong (-42)],
   sbuf_printf (str "%#*o") [CInt 6; CUInt 493], sbuf_printf (str "%+*.*f") [CInt 0; CInt 2; CDouble false (double_div (double_of_int 5) 3)],
   sbuf_printf (str "%*s") [CInt 5; CLong 1])
  = (Some (str "abc  "), Some (str "-0042"), Some (str "  0755"), Some (str "+1.67"), None).
Proof. reflexivity. Qed.
