(* ===== verification/Printf.v ===== *)
(** * The parser and the value printers of pkg_printf (libpkg/pkg_printf.c)

    Everything between the tables and the entry points of pkg_printf.c: the
    [%]-escape being processed ([percent_esc]), the generation of printf(3)
    formats, the printing of numbers, strings, flags, modes and licence logic,
    and the parser of escapes, modifiers, widths, codes and trailers.  The
    handlers of the codes and the loops over formats are in [PkgPrintf].

    The sbufs are only appended to, so a function that prints yields the text
    it appends, with a flag that is [false] where the C function returns NULL
    and the [percent_esc] it leaves.  [None] is undefined behaviour.  Text of
    an sbuf that was finished, and [sbuf_finish], are not distinguished. *)
From S2P Require Import Prelude CString UtHash Pkg Cprintf.

(** ** Constants of private/pkg_printf.h *)

Definition PP_ALTERNATE_FORM1 : Z := Z.shiftl 1 0.
Definition PP_ALTERNATE_FORM2 : Z := Z.shiftl 1 1.
Definition PP_LEFT_ALIGN : Z := Z.shiftl 1 2.
Definition PP_EXPLICIT_PLUS : Z := Z.shiftl 1 3.
Definition PP_SPACE_FOR_PLUS : Z := Z.shiftl 1 4.
Definition PP_ZERO_PAD : Z := Z.shiftl 1 5.
Definition PP_THOUSANDS_SEP : Z := Z.shiftl 1 6.

Definition PP_PKG : Z := Z.shiftl 1 0.
Definition PP_A : Z := Z.shiftl 1 1.
Definition PP_B : Z := Z.shiftl 1 2.
Definition PP_C : Z := Z.shiftl 1 3.
Definition PP_D : Z := Z.shiftl 1 4.
Definition PP_F : Z := Z.shiftl 1 5.
Definition PP_G : Z := Z.shiftl 1 6.
Definition PP_L : Z := Z.shiftl 1 7.
Definition PP_O : Z := Z.shiftl 1 8.
Definition PP_U : Z := Z.shiftl 1 9.
Definition PP_b : Z := Z.shiftl 1 10.
Definition PP_d : Z := Z.shiftl 1 11.
Definition PP_r : Z := Z.shiftl 1 12.
Definition PP_ALL : Z := Z.shiftl PP_r 1 - 1.
Definition PP_TRAILER : Z :=
  fold_left Z.lor [PP_B; PP_C; PP_D; PP_F; PP_G; PP_L; PP_O; PP_U; PP_b; PP_d; PP_r] PP_A.

Definition ITEM_FMT_SET : Z := Z.shiftl 1 0.
Definition SEP_FMT_SET : Z := Z.shiftl 1 1.

Inductive fmt_code_t :=
  | PP_PKG_ANNOTATION_NAME | PP_PKG_ANNOTATION_VALUE | PP_PKG_ANNOTATIONS
  | PP_PKG_SHLIB_REQUIRED_NAME | PP_PKG_SHLIBS_REQUIRED
  | PP_PKG_CATEGORY_NAME | PP_PKG_CATEGORIES
  | PP_PKG_DIRECTORY_GROUP | PP_PKG_DIRECTORY_KEEPFLAG | PP_PKG_DIRECTORY_PATH
  | PP_PKG_DIRECTORY_PERMS | PP_PKG_DIRECTORY_TRYFLAG | PP_PKG_DIRECTORY_USER | PP_PKG_DIRECTORIES
  | PP_PKG_FILE_GROUP | PP_PKG_FILE_KEEPFLAG | PP_PKG_FILE_PATH | PP_PKG_FILE_PERMS
  | PP_PKG_FILE_SHA256 | PP_PKG_FILE_USER | PP_PKG_FILES
  | PP_PKG_GROUP_GIDSTR | PP_PKG_GROUP_NAME | PP_PKG_GROUPS
  | PP_ROW_COUNTER
  | PP_PKG_LICENSE_NAME | PP_PKG_LICENSES
  | PP_PKG_MESSAGE | PP_PKG_REPO_IDENT
  | PP_PKG_OPTION_NAME | PP_PKG_OPTION_VALUE | PP_PKG_OPTION_DEFAULT | PP_PKG_OPTION_DESCRIPTION
  | PP_PKG_OPTIONS
  | PP_PKG_REPO_PATH | PP_PKG_CHAR_STRING
  | PP_PKG_USER_NAME | PP_PKG_USER_UIDSTR | PP_PKG_USERS
  | PP_PKG_OLD_VERSION | PP_PKG_AUTOREMOVE
  | PP_PKG_SHLIB_PROVIDED_NAME | PP_PKG_SHLIBS_PROVIDED
  | PP_PKG_COMMENT
  | PP_PKG_DEPENDENCY_LOCK | PP_PKG_DEPENDENCY_NAME | PP_PKG_DEPENDENCY_ORIGIN
  | PP_PKG_DEPENDENCY_VERSION | PP_PKG_DEPENDENCIES
  | PP_PKG_DESCRIPTION | PP_PKG_LOCK_STATUS | PP_PKG_LICENSE_LOGIC | PP_PKG_MAINTAINER
  | PP_PKG_NAME | PP_PKG_ORIGIN | PP_PKG_PREFIX | PP_PKG_ARCHITECTURE
  | PP_PKG_REQUIREMENT_LOCK | PP_PKG_REQUIREMENT_NAME | PP_PKG_REQUIREMENT_ORIGIN
  | PP_PKG_REQUIREMENT_VERSION | PP_PKG_REQUIREMENTS
  | PP_PKG_FLATSIZE | PP_PKG_INSTALL_TIMESTAMP | PP_PKG_CHECKSUM | PP_PKG_VERSION
  | PP_PKG_HOME_PAGE | PP_PKG_SHORT_CHECKSUM
  | PP_LITERAL_PERCENT | PP_UNKNOWN | PP_END_MARKER.

(** The codes from 0 to PP_END_MARKER. *)
Definition fmt_codes : list fmt_code_t :=
  [ PP_PKG_ANNOTATION_NAME; PP_PKG_ANNOTATION_VALUE; PP_PKG_ANNOTATIONS;
    PP_PKG_SHLIB_REQUIRED_NAME; PP_PKG_SHLIBS_REQUIRED;
    PP_PKG_CATEGORY_NAME; PP_PKG_CATEGORIES;
    PP_PKG_DIRECTORY_GROUP; PP_PKG_DIRECTORY_KEEPFLAG; PP_PKG_DIRECTORY_PATH;
    PP_PKG_DIRECTORY_PERMS; PP_PKG_DIRECTORY_TRYFLAG; PP_PKG_DIRECTORY_USER; PP_PKG_DIRECTORIES;
    PP_PKG_FILE_GROUP; PP_PKG_FILE_KEEPFLAG; PP_PKG_FILE_PATH; PP_PKG_FILE_PERMS;
    PP_PKG_FILE_SHA256; PP_PKG_FILE_USER; PP_PKG_FILES;
    PP_PKG_GROUP_GIDSTR; PP_PKG_GROUP_NAME; PP_PKG_GROUPS;
    PP_ROW_COUNTER;
    PP_PKG_LICENSE_NAME; PP_PKG_LICENSES;
    PP_PKG_MESSAGE; PP_PKG_REPO_IDENT;
    PP_PKG_OPTION_NAME; PP_PKG_OPTION_VALUE; PP_PKG_OPTION_DEFAULT; PP_PKG_OPTION_DESCRIPTION;
    PP_PKG_OPTIONS;
    PP_PKG_REPO_PATH; PP_PKG_CHAR_STRING;
    PP_PKG_USER_NAME; PP_PKG_USER_UIDSTR; PP_PKG_USERS;
    PP_PKG_OLD_VERSION; PP_PKG_AUTOREMOVE;
    PP_PKG_SHLIB_PROVIDED_NAME; PP_PKG_SHLIBS_PROVIDED;
    PP_PKG_COMMENT;
    PP_PKG_DEPENDENCY_LOCK; PP_PKG_DEPENDENCY_NAME; PP_PKG_DEPENDENCY_ORIGIN;
    PP_PKG_DEPENDENCY_VERSION; PP_PKG_DEPENDENCIES;
    PP_PKG_DESCRIPTION; PP_PKG_LOCK_STATUS; PP_PKG_LICENSE_LOGIC; PP_PKG_MAINTAINER;
    PP_PKG_NAME; PP_PKG_ORIGIN; PP_PKG_PREFIX; PP_PKG_ARCHITECTURE;
    PP_PKG_REQUIREMENT_LOCK; PP_PKG_REQUIREMENT_NAME; PP_PKG_REQUIREMENT_ORIGIN;
    PP_PKG_REQUIREMENT_VERSION; PP_PKG_REQUIREMENTS;
    PP_PKG_FLATSIZE; PP_PKG_INSTALL_TIMESTAMP; PP_PKG_CHECKSUM; PP_PKG_VERSION;
    PP_PKG_HOME_PAGE; PP_PKG_SHORT_CHECKSUM;
    PP_LITERAL_PERCENT; PP_UNKNOWN ].

Record percent_esc := mk_esc {
  flags : Z; width : Z; trailer_status : Z; item_fmt : cstring; sep_fmt : cstring;
  fmt_code : fmt_code_t }.

Definition set_flags (p : percent_esc) x :=
  mk_esc x (width p) (trailer_status p) (item_fmt p) (sep_fmt p) (fmt_code p).
Definition set_width (p : percent_esc) x :=
  mk_esc (flags p) x (trailer_status p) (item_fmt p) (sep_fmt p) (fmt_code p).
Definition set_item_fmt (p : percent_esc) status x :=
  mk_esc (flags p) (width p) status x (sep_fmt p) (fmt_code p).
Definition set_sep_fmt (p : percent_esc) status x :=
  mk_esc (flags p) (width p) status (item_fmt p) x (fmt_code p).
Definition set_fmt_code (p : percent_esc) x :=
  mk_esc (flags p) (width p) (trailer_status p) (item_fmt p) (sep_fmt p) x.

Definition new_percent_esc : percent_esc := mk_esc 0 0 0 [] [] PP_PKG_ANNOTATION_NAME.
Definition clear_percent_esc (p : percent_esc) : percent_esc := mk_esc 0 0 0 [] [] PP_PKG_ANNOTATION_NAME.

(** [flags & bits], [p->flags &= ~bits] *)
Definition has (flags bits : Z) : bool := negb (Z.land flags bits =? 0).
Definition clear_flags (p : percent_esc) (bits : Z) : percent_esc :=
  set_flags p (Z.land (flags p) (Z.lnot bits)).

Definition ALTERNATE_FORMS : Z := Z.lor PP_ALTERNATE_FORM1 PP_ALTERNATE_FORM2.

(** ** gen_format *)

(** [buf[bp++] = c] with [bp] the length of what is written: [None] out of bounds. *)
Definition buf_putc (buflen : Z) (buf : cstring) (c : ascii) : option cstring :=
  if Z.of_nat (length buf) <? buflen then Some (buf ++ [c]) else None.

Definition buf_putc_if (b : bool) (buflen : Z) (buf : cstring) (c : ascii) : option cstring :=
  if b then buf_putc buflen buf c else Some buf.

(** [buflen - bp], a [size_t]. *)
Definition room (buflen : Z) (buf : cstring) : Z := (buflen - Z.of_nat (length buf)) mod 2 ^ 64.

(** The inner [None] is NULL. *)
Definition gen_format (buflen : Z) (flags : Z) (tail : cstring) : option (option cstring) :=
  let tlen := Z.of_nat (length tail) in
  if room buflen [] <? tlen + 3 then Some None else
  buf ← buf_putc buflen [] "%";
  let both b flags := Z.land flags b =? b in
  let flags := if both (Z.lor PP_EXPLICIT_PLUS PP_SPACE_FOR_PLUS) flags
               then Z.land flags (Z.lnot PP_SPACE_FOR_PLUS) else flags in
  let flags := if both (Z.lor PP_LEFT_ALIGN PP_ZERO_PAD) flags
               then Z.land flags (Z.lnot PP_ZERO_PAD) else flags in
  buf ← buf_putc_if (has flags PP_ALTERNATE_FORM2) buflen buf "#";
  buf ← buf_putc_if (has flags PP_LEFT_ALIGN) buflen buf "-";
  buf ← buf_putc_if (has flags PP_ZERO_PAD) buflen buf "0";
  if room buflen buf <? tlen + 2 then Some None else
  buf ← buf_putc_if (has flags PP_EXPLICIT_PLUS) buflen buf "+";
  buf ← buf_putc_if (has flags PP_SPACE_FOR_PLUS) buflen buf " ";
  buf ← buf_putc_if (has flags PP_THOUSANDS_SEP) buflen buf "'";
  if room buflen buf <? tlen + 2 then Some None else
  buf ← buf_putc buflen buf "*";
  _ ← buf_putc buflen buf NUL;
  (* strlcat (buf, tail, buflen) *)
  Some (Some (take (Z.to_nat (buflen - 1)) (buf ++ tail))).

(** ** Values *)

(** What a printer does: [false] for NULL, the text appended, the escape left. *)
Definition printed : Type := bool * cstring * percent_esc.

(** gen_format into a buffer of 16 bytes, then sbuf_printf with the result. *)
Definition print_with (p : percent_esc) (tail : cstring) (args : list carg) : option printed :=
  format ← gen_format 16 (flags p) tail;
  match format with
  | None => Some (false, [], p)
  | Some format => text ← sbuf_printf format args; Some (true, text, p)
  end.

Definition MAXSCALE : nat := 7.
Definition bin_pfx : list cstring := map str [""; "Ki"; "Mi"; "Gi"; "Ti"; "Pi"; "Ei"]%string.
Definition si_pfx : list cstring := map str [""; "k"; "M"; "G"; "T"; "P"; "E"]%string.

(** The loop over [scale], [fuel] what is left of MAXSCALE. *)
Fixpoint scale_loop (fuel : nat) (divisor : Z) (num : double) (scale : nat) : double * nat :=
  match fuel with
  | O => (num, scale)
  | S fuel =>
      if double_lt num divisor then (num, scale)
      else scale_loop fuel divisor (double_div num divisor) (S scale)
  end.

Definition human_width (width scale_width : Z) : Z :=
  if width =? 0 then 0 else if width <=? scale_width then 1 else width - scale_width.

Definition human_precision (num : double) (width : Z) : Z :=
  if negb (double_lt num 100) then 0
  else if negb (double_lt num 10) then if (width =? 0) || (3 <? width) then 1 else 0
  else if (width =? 0) || (3 <? width) then 2 else if width =? 3 then 1 else 0.

(** [-number] overflows for the least number; an unknown scale reads the
    array of prefixes out of bounds. *)
Definition human_number (number : Z) (p : percent_esc) : option printed :=
  let bin_scale := has (flags p) PP_ALTERNATE_FORM2 in
  let p := clear_flags p ALTERNATE_FORMS in
  if number =? LLONG_MIN then None else
  let divisor := if bin_scale then 1024 else 1000 in
  let '(num, scale) := scale_loop MAXSCALE divisor (double_of_int (Z.abs number)) 0 in
  let scale_width := if Nat.eqb scale 0 then 0 else if bin_scale then 2 else 1 in
  let width := human_width (width p) scale_width in
  '(ok, text, p) ← print_with p (str ".*f")
     [CInt width; CInt (human_precision num width); CDouble (number <? 0) num];
  if (0 <? scale)%nat && ok then
    pfx ← (if bin_scale then bin_pfx else si_pfx) !! scale;
    Some (ok, text ++ pfx, p)
  else Some (ok, text, p).

Definition STRING_CLEARS : Z :=
  fold_left Z.lor [PP_ALTERNATE_FORM2; PP_EXPLICIT_PLUS; PP_SPACE_FOR_PLUS; PP_THOUSANDS_SEP]
    PP_ALTERNATE_FORM1.

(** A NULL string is [None]. *)
Definition string_val (s : option cstring) (p : percent_esc) : option printed :=
  let p := clear_flags p STRING_CLEARS in
  print_with p (str "s") [CInt (width p); CStr s].

Definition int_val (value : Z) (p : percent_esc) : option printed :=
  if has (flags p) ALTERNATE_FORMS then human_number value p
  else print_with p (str "ld") [CInt (width p); CLong value].

(** The column of the tables of bool_val and liclog_val. *)
Definition alternate (flags : Z) : nat :=
  if has flags PP_ALTERNATE_FORM2 then 2 else if has flags PP_ALTERNATE_FORM1 then 1 else 0.

Definition boolean_str (value : bool) : list cstring :=
  map str (if value then ["true"; "yes"; "(*)"]%string else ["false"; "no"; ""]%string).

Definition bool_val (value : bool) (p : percent_esc) : option printed :=
  s ← boolean_str value !! alternate (flags p);
  string_val (Some s) (clear_flags p ALTERNATE_FORMS).

Definition ALLPERMS : Z := 4095.

Definition mode_val (mode : Z) (p : percent_esc) : option printed :=
  if has (flags p) PP_ALTERNATE_FORM1 then string_val (Some (strmode mode)) p
  else
    let mode := if has (flags p) PP_EXPLICIT_PLUS then mode else Z.land mode ALLPERMS in
    let p := clear_flags p (Z.lor PP_ALTERNATE_FORM1 PP_EXPLICIT_PLUS) in
    print_with p (str "o") [CInt (width p); CUInt mode].

Inductive liclog := PP_LIC_SINGLE | PP_LIC_OR | PP_LIC_AND.

Definition liclog_of (licenselogic : Z) : liclog :=
  if licenselogic =? LICENSE_SINGLE then PP_LIC_SINGLE
  else if licenselogic =? LICENSE_OR then PP_LIC_OR
  else if licenselogic =? LICENSE_AND then PP_LIC_AND
  else PP_LIC_SINGLE.

Definition liclog_str (l : liclog) : list cstring :=
  map str match l with
          | PP_LIC_SINGLE => ["single"; ""; "=="]
          | PP_LIC_OR => ["or"; "|"; "||"]
          | PP_LIC_AND => ["and"; "&"; "&&"]
          end%string.

Definition liclog_val (licenselogic : Z) (p : percent_esc) : option printed :=
  s ← liclog_str (liclog_of licenselogic) !! alternate (flags p);
  string_val (Some s) (clear_flags p ALTERNATE_FORMS).

Definition list_count (count : Z) (p : percent_esc) : option printed :=
  let count := if has (flags p) PP_ALTERNATE_FORM1 then if 0 <? count then 1 else 0 else count in
  int_val count (clear_flags p ALTERNATE_FORMS).

Definition set_list_defaults (p : percent_esc) (item sep : cstring) : percent_esc :=
  let unset p s := negb (Z.land (trailer_status p) s =? s) in
  let p := if unset p ITEM_FMT_SET
           then set_item_fmt p (Z.lor (trailer_status p) ITEM_FMT_SET) (item_fmt p ++ item) else p in
  if unset p SEP_FMT_SET
  then set_sep_fmt p (Z.lor (trailer_status p) SEP_FMT_SET) (sep_fmt p ++ sep) else p.

(** ** The table of format codes

    A code is one or two letters; [fmt_sub] is NUL for one.  The handlers are
    in [PkgPrintf.fmt_handler]. *)

Record pkg_printf_fmt := mk_fmt {
  fmt_main : ascii; fmt_sub : ascii; has_trailer : bool; struct_pkg : bool; context : Z }.

Definition fmt_A_D : list (fmt_code_t * pkg_printf_fmt) :=
  [ (PP_PKG_ANNOTATION_NAME, mk_fmt "A"%char "n"%char false false (Z.lor PP_PKG PP_A));
    (PP_PKG_ANNOTATION_VALUE, mk_fmt "A"%char "v"%char false false (Z.lor PP_PKG PP_A));
    (PP_PKG_ANNOTATIONS, mk_fmt "A"%char NUL true true PP_PKG);
    (PP_PKG_SHLIB_REQUIRED_NAME, mk_fmt "B"%char "n"%char false false (Z.lor PP_PKG PP_B));
    (PP_PKG_SHLIBS_REQUIRED, mk_fmt "B"%char NUL true true PP_PKG);
    (PP_PKG_CATEGORY_NAME, mk_fmt "C"%char "n"%char false false (Z.lor PP_PKG PP_C));
    (PP_PKG_CATEGORIES, mk_fmt "C"%char NUL true true PP_PKG);
    (PP_PKG_DIRECTORY_GROUP, mk_fmt "D"%char "g"%char false false (Z.lor PP_PKG PP_D));
    (PP_PKG_DIRECTORY_KEEPFLAG, mk_fmt "D"%char "k"%char false false (Z.lor PP_PKG PP_D));
    (PP_PKG_DIRECTORY_PATH, mk_fmt "D"%char "n"%char false false (Z.lor PP_PKG PP_D));
    (PP_PKG_DIRECTORY_PERMS, mk_fmt "D"%char "p"%char false false (Z.lor PP_PKG PP_D));
    (PP_PKG_DIRECTORY_TRYFLAG, mk_fmt "D"%char "t"%char false false (Z.lor PP_PKG PP_D));
    (PP_PKG_DIRECTORY_USER, mk_fmt "D"%char "u"%char false false (Z.lor PP_PKG PP_D));
    (PP_PKG_DIRECTORIES, mk_fmt "D"%char NUL true true PP_PKG) ].

Definition fmt_F_L : list (fmt_code_t * pkg_printf_fmt) :=
  [ (PP_PKG_FILE_GROUP, mk_fmt "F"%char "g"%char false false (Z.lor PP_PKG PP_F));
    (PP_PKG_FILE_KEEPFLAG, mk_fmt "F"%char "k"%char false false (Z.lor PP_PKG PP_F));
    (PP_PKG_FILE_PATH, mk_fmt "F"%char "n"%char false false (Z.lor PP_PKG PP_F));
    (PP_PKG_FILE_PERMS, mk_fmt "F"%char "p"%char false false (Z.lor PP_PKG PP_F));
    (PP_PKG_FILE_SHA256, mk_fmt "F"%char "s"%char false false (Z.lor PP_PKG PP_F));
    (PP_PKG_FILE_USER, mk_fmt "F"%char "u"%char false false (Z.lor PP_PKG PP_F));
    (PP_PKG_FILES, mk_fmt "F"%char NUL true true PP_PKG);
    (PP_PKG_GROUP_GIDSTR, mk_fmt "G"%char "g"%char false false (Z.lor PP_PKG PP_G));
    (PP_PKG_GROUP_NAME, mk_fmt "G"%char "n"%char false false (Z.lor PP_PKG PP_G));
    (PP_PKG_GROUPS, mk_fmt "G"%char NUL true true PP_PKG);
    (PP_ROW_COUNTER, mk_fmt "I"%char NUL false false PP_TRAILER);
    (PP_PKG_LICENSE_NAME, mk_fmt "L"%char "n"%char false false (Z.lor PP_PKG PP_L));
    (PP_PKG_LICENSES, mk_fmt "L"%char NUL true true PP_PKG) ].

Definition fmt_M_a : list (fmt_code_t * pkg_printf_fmt) :=
  [ (PP_PKG_MESSAGE, mk_fmt "M"%char NUL false true PP_ALL);
    (PP_PKG_REPO_IDENT, mk_fmt "N"%char NUL false true PP_ALL);
    (PP_PKG_OPTION_NAME, mk_fmt "O"%char "n"%char false false (Z.lor PP_PKG PP_O));
    (PP_PKG_OPTION_VALUE, mk_fmt "O"%char "v"%char false false (Z.lor PP_PKG PP_O));
    (PP_PKG_OPTION_DEFAULT, mk_fmt "O"%char "d"%char false false (Z.lor PP_PKG PP_O));
    (PP_PKG_OPTION_DESCRIPTION, mk_fmt "O"%char "D"%char false false (Z.lor PP_PKG PP_O));
    (PP_PKG_OPTIONS, mk_fmt "O"%char NUL true true PP_PKG);
    (PP_PKG_REPO_PATH, mk_fmt "R"%char NUL false true PP_ALL);
    (PP_PKG_CHAR_STRING, mk_fmt "S"%char NUL false false PP_PKG);
    (PP_PKG_USER_NAME, mk_fmt "U"%char "n"%char false false (Z.lor PP_PKG PP_U));
    (PP_PKG_USER_UIDSTR, mk_fmt "U"%char "u"%char false false (Z.lor PP_PKG PP_U));
    (PP_PKG_USERS, mk_fmt "U"%char NUL true true PP_PKG);
    (PP_PKG_OLD_VERSION, mk_fmt "V"%char NUL false true PP_ALL);
    (PP_PKG_AUTOREMOVE, mk_fmt "a"%char NUL false true PP_ALL) ].

Definition fmt_b_k : list (fmt_code_t * pkg_printf_fmt) :=
  [ (PP_PKG_SHLIB_PROVIDED_NAME, mk_fmt "b"%char "n"%char false false (Z.lor PP_PKG PP_b));
    (PP_PKG_SHLIBS_PROVIDED, mk_fmt "b"%char NUL true true PP_PKG);
    (PP_PKG_COMMENT, mk_fmt "c"%char NUL false true PP_ALL);
    (PP_PKG_DEPENDENCY_LOCK, mk_fmt "d"%char "k"%char false false (Z.lor PP_PKG PP_d));
    (PP_PKG_DEPENDENCY_NAME, mk_fmt "d"%char "n"%char false false (Z.lor PP_PKG PP_d));
    (PP_PKG_DEPENDENCY_ORIGIN, mk_fmt "d"%char "o"%char false false (Z.lor PP_PKG PP_d));
    (PP_PKG_DEPENDENCY_VERSION, mk_fmt "d"%char "v"%char false false (Z.lor PP_PKG PP_d));
    (PP_PKG_DEPENDENCIES, mk_fmt "d"%char NUL true true PP_PKG);
    (PP_PKG_DESCRIPTION, mk_fmt "e"%char NUL false true PP_ALL);
    (PP_PKG_LOCK_STATUS, mk_fmt "k"%char NUL false true PP_ALL) ].

Definition fmt_l_z : list (fmt_code_t * pkg_printf_fmt) :=
  [ (PP_PKG_LICENSE_LOGIC, mk_fmt "l"%char NUL false true PP_ALL);
    (PP_PKG_MAINTAINER, mk_fmt "m"%char NUL false true PP_ALL);
    (PP_PKG_NAME, mk_fmt "n"%char NUL false true PP_ALL);
    (PP_PKG_ORIGIN, mk_fmt "o"%char NUL false true PP_ALL);
    (PP_PKG_PREFIX, mk_fmt "p"%char NUL false true PP_ALL);
    (PP_PKG_ARCHITECTURE, mk_fmt "q"%char NUL false true PP_ALL);
    (PP_PKG_REQUIREMENT_LOCK, mk_fmt "r"%char "k"%char false false (Z.lor PP_PKG PP_r));
    (PP_PKG_REQUIREMENT_NAME, mk_fmt "r"%char "n"%char false false (Z.lor PP_PKG PP_r));
    (PP_PKG_REQUIREMENT_ORIGIN, mk_fmt "r"%char "o"%char false false (Z.lor PP_PKG PP_r));
    (PP_PKG_REQUIREMENT_VERSION, mk_fmt "r"%char "v"%char false false (Z.lor PP_PKG PP_r));
    (PP_PKG_REQUIREMENTS, mk_fmt "r"%char NUL true true PP_PKG);
    (PP_PKG_FLATSIZE, mk_fmt "s"%char NUL false true PP_ALL);
    (PP_PKG_INSTALL_TIMESTAMP, mk_fmt "t"%char NUL true true PP_ALL);
    (PP_PKG_CHECKSUM, mk_fmt "u"%char NUL false true PP_ALL);
    (PP_PKG_SHORT_CHECKSUM, mk_fmt "z"%char NUL false true PP_ALL);
    (PP_PKG_VERSION, mk_fmt "v"%char NUL false true PP_ALL);
    (PP_PKG_HOME_PAGE, mk_fmt "w"%char NUL false true PP_ALL);
    (PP_LITERAL_PERCENT, mk_fmt "%"%char NUL false false PP_ALL);
    (PP_UNKNOWN, mk_fmt NUL NUL false false PP_ALL) ].

Definition fmt_table : list (fmt_code_t * pkg_printf_fmt) :=
  fmt_A_D ++ fmt_F_L ++ fmt_M_a ++ fmt_b_k ++ fmt_l_z.

Definition fmt_end_marker : pkg_printf_fmt := mk_fmt NUL NUL false false 0.

Scheme Equality for fmt_code_t.

#[export] Instance fmt_code_eq_dec : EqDecision fmt_code_t := fmt_code_t_eq_dec.

(** [fmt[code]] *)
Definition fmt (c : fmt_code_t) : pkg_printf_fmt :=
  match find (fun e => fmt_code_t_beq e.1 c) fmt_table with
  | Some e => e.2
  | None => fmt_end_marker
  end.

(** [code <= PP_LAST_FORMAT] *)
Definition is_format (c : fmt_code_t) : bool :=
  match c with PP_LITERAL_PERCENT | PP_UNKNOWN | PP_END_MARKER => false | _ => true end.

(** ** The parser: positions in the format are suffixes of it *)

Definition modifier_flag (c : ascii) : option Z :=
  if Ascii.eqb c "?" then Some PP_ALTERNATE_FORM1
  else if Ascii.eqb c "#" then Some PP_ALTERNATE_FORM2
  else if Ascii.eqb c "-" then Some PP_LEFT_ALIGN
  else if Ascii.eqb c "+" then Some PP_EXPLICIT_PLUS
  else if Ascii.eqb c " " then Some PP_SPACE_FOR_PLUS
  else if Ascii.eqb c "0" then Some PP_ZERO_PAD
  else if Ascii.eqb c "'" then Some PP_THOUSANDS_SEP
  else None.

Fixpoint field_modifier (f : cstring) (p : percent_esc) : cstring * percent_esc :=
  match f with
  | [] => ([], p)
  | c :: r =>
      match modifier_flag c with
      | Some flag => field_modifier r (set_flags p (Z.lor (flags p) flag))
      | None => (f, p)
      end
  end.

Definition INT_MAX : Z := 2 ^ 31 - 1.

(** The width is an [int]: one that does not fit is undefined. *)
Fixpoint field_width (f : cstring) (p : percent_esc) : option (cstring * percent_esc) :=
  match f with
  | [] => Some ([], p)
  | c :: r =>
      if isdigit c then
        let w := width p * 10 + (code c - 48) in
        if INT_MAX <? w then None else field_width r (set_width p w)
      else Some (f, p)
  end.

(** From [f2] to a [%] followed by one of [stop]: the text before, the
    character after the [%] and what follows it, if there is such a place. *)
Fixpoint scan_trailer (stop : cstring) (f2 : cstring) : cstring * option (ascii * cstring) :=
  match f2 with
  | [] => ([], None)
  | c :: r =>
      if Ascii.eqb c "%" && existsb (Ascii.eqb (deref r)) stop
      then ([], Some (deref r, drop 1 r))
      else let '(text, e) := scan_trailer stop r in (c :: text, e)
  end.

Definition format_trailer (f : cstring) (p : percent_esc) : cstring * percent_esc :=
  if Ascii.eqb (deref f) "%" && Ascii.eqb (at_ f 1) "{" then
    let status := Z.lor (trailer_status p) ITEM_FMT_SET in
    let '(item, e) := scan_trailer ["}"%char; "|"%char] (drop 2 f) in
    let p := set_item_fmt p status (item_fmt p ++ item) in
    let unfinished p := (f, set_sep_fmt (set_item_fmt p (trailer_status p) []) (trailer_status p) []) in
    match e with
    | None => unfinished p
    | Some (c, f1) =>
        if Ascii.eqb c "|" then
          let '(sep, e) := scan_trailer ["}"%char] f1 in
          let p := set_sep_fmt p (Z.lor (trailer_status p) SEP_FMT_SET) (sep_fmt p ++ sep) in
          match e with
          | None => unfinished p
          | Some (_, f1) => (f1, p)
          end
        else (f1, p)
    end
  else (f, p).

(** One turn of the loop of format_code: the code is allowed in the context
    and matches [n] letters of the text.  [f[1]] is not read past the end. *)
Definition code_matches (f : cstring) (ctx : Z) (c : fmt_code_t) : option nat :=
  if negb (Z.land (context (fmt c)) ctx =? ctx) then None
  else if negb (Ascii.eqb (fmt_main (fmt c)) (deref f)) then None
  else if Ascii.eqb (fmt_sub (fmt c)) (at_ f 1) && negb (Ascii.eqb (at_ f 1) NUL) then Some 2%nat
  else if Ascii.eqb (fmt_sub (fmt c)) NUL then Some 1%nat
  else None.

Fixpoint search_code (f : cstring) (ctx : Z) (codes : list fmt_code_t) : option (fmt_code_t * nat) :=
  match codes with
  | [] => None
  | c :: codes =>
      match code_matches f ctx c with
      | Some n => Some (c, n)
      | None => search_code f ctx codes
      end
  end.

(** At the end of the text the entry of PP_UNKNOWN matches the NUL, and [f[1]]
    is past it. *)
Definition format_code (f : cstring) (ctx : Z) (p : percent_esc) : option (cstring * percent_esc) :=
  match f with
  | [] => None
  | _ =>
      match search_code f ctx fmt_codes with
      | Some (c, n) => Some (drop n f, set_fmt_code p c)
      | None => Some (f, set_fmt_code p PP_UNKNOWN)
      end
  end.

Definition parse_format (f : cstring) (ctx : Z) (p : percent_esc) : option (cstring * percent_esc) :=
  let '(f, p) := field_modifier (drop 1 f) p in
  '(f, p) ← field_width f p;
  '(f, p) ← format_code f ctx p;
  Some (if (Z.land ctx PP_PKG =? PP_PKG) && has_trailer (fmt (fmt_code p)) && negb (has (flags p) ALTERNATE_FORMS)
        then format_trailer f p else (f, p)).

(** ** Escapes: the text printed and the position after *)

(** The value of a hexadecimal digit. *)
Definition xdigit_value (c : ascii) : Z :=
  if isdigit c then code c - 48
  else if (97 <=? code c) && (code c <=? 102) then code c - 97 + 10
  else if (65 <=? code c) && (code c <=? 70) then code c - 65 + 10
  else 0.

Definition maybe_read_hex_byte (f : cstring) : cstring * cstring :=
  let f := drop 1 f in
  if isxdigit (deref f) && isxdigit (at_ f 1)
  then ([chr (xdigit_value (deref f) * 16 + xdigit_value (at_ f 1))], drop 2 f)
  else (str "\x", f).

Definition isoctal (c : ascii) : bool := (48 <=? code c) && (code c <=? 55).

(** The loop of read_oct_byte, [count] digits left. *)
Fixpoint oct_digits (count : nat) (val : Z) (f : cstring) : Z * cstring :=
  match count, f with
  | S count, c :: r =>
      if (val <? 32) && isoctal c then oct_digits count (val * 8 + (code c - 48)) r else (val, f)
  | _, _ => (val, f)
  end.

Definition read_oct_byte (f : cstring) : cstring * cstring :=
  let '(val, f) := oct_digits 3 0 f in ([chr val], f).

Definition simple_escapes : list (ascii * Z) :=
  [ ("a"%char, 7); ("b"%char, 8); ("f"%char, 12); ("n"%char, 10); ("t"%char, 9); ("v"%char, 11);
    ("'"%char, 39); ("034"%char, 34); ("\"%char, 92) ].

Definition process_escape (f : cstring) : cstring * cstring :=
  let f := drop 1 f in
  match find (fun e => Ascii.eqb (deref f) e.1) simple_escapes with
  | Some e => ([chr e.2], drop 1 f)
  | None =>
      if Ascii.eqb (deref f) "x" then maybe_read_hex_byte f
      else if isoctal (deref f) then read_oct_byte f
      else (str "\", f)
  end.

(** ** Flags *)

Lemma has_bit f k : 0 <= k -> has f (Z.shiftl 1 k) = Z.testbit f k.
Proof.
  intros Hk. unfold has. rewrite Z.shiftl_1_l. destruct (Z.testbit f k) eqn:E.
  - apply negb_true_iff, Z.eqb_neq. intros H.
    assert (Z.testbit (Z.land f (2 ^ k)) k = true) as Hb by (rewrite Z.land_spec, E, Z.pow2_bits_true by done; done).
    by rewrite H, Z.bits_0 in Hb.
  - apply negb_false_iff, Z.eqb_eq. apply Z.bits_inj'. intros j Hj.
    rewrite Z.land_spec, Z.bits_0, Z.pow2_bits_eqb by done.
    destruct (Z.eqb_spec k j) as [<-|]; [by rewrite E|apply andb_false_r].
Qed.

Lemma testbit_clear f m j : 0 <= j ->
  Z.testbit (Z.land f (Z.lnot m)) j = Z.testbit f j && negb (Z.testbit m j).
Proof. intros Hj. by rewrite Z.land_spec, Z.lnot_spec. Qed.

Lemma testbit_clear_bit f k j : 0 <= k -> 0 <= j ->
  Z.testbit (Z.land f (Z.lnot (Z.shiftl 1 k))) j = Z.testbit f j && negb (k =? j).
Proof. intros Hk Hj. by rewrite testbit_clear, Z.shiftl_1_l, Z.pow2_bits_eqb. Qed.

Lemma both_bits f a b : 0 <= a -> 0 <= b ->
  (Z.land f (Z.lor (Z.shiftl 1 a) (Z.shiftl 1 b)) =? Z.lor (Z.shiftl 1 a) (Z.shiftl 1 b))
  = Z.testbit f a && Z.testbit f b.
Proof.
  intros Ha Hb. rewrite !Z.shiftl_1_l. apply eq_true_iff_eq.
  rewrite Z.eqb_eq, andb_true_iff. split.
  - intros H. assert (forall k, Z.testbit (Z.lor (2 ^ a) (2 ^ b)) k = true -> Z.testbit f k = true) as G.
    { intros k Hk. rewrite <- H, Z.land_spec in Hk. by apply andb_true_iff in Hk as [? _]. }
    split; apply G; rewrite Z.lor_spec, !Z.pow2_bits_eqb by done;
      [by rewrite Z.eqb_refl|by rewrite Z.eqb_refl, orb_true_r].
  - intros [H1 H2]. apply Z.bits_inj'. intros j Hj. rewrite Z.land_spec, Z.lor_spec, !Z.pow2_bits_eqb by done.
    destruct (Z.eqb_spec a j) as [->|], (Z.eqb_spec b j) as [->|]; cbn; rewrite ?H1, ?H2; try done.
    all: apply andb_false_r.
Qed.

(** The flags a printf(3) format made for them has. *)
Definition esc_flags (flags : Z) : conv_flags :=
  mk_flags (has flags PP_ALTERNATE_FORM2) (has flags PP_LEFT_ALIGN)
    (has flags PP_ZERO_PAD && negb (has flags PP_LEFT_ALIGN))
    (has flags PP_EXPLICIT_PLUS)
    (has flags PP_SPACE_FOR_PLUS && negb (has flags PP_EXPLICIT_PLUS))
    (has flags PP_THOUSANDS_SEP).

(** The text of a format. *)
Definition format_text (f : conv_flags) (tail : cstring) : cstring :=
  str "%" ++ (if fl_alt f then str "#" else []) ++ (if fl_left f then str "-" else [])
    ++ (if fl_zero f then str "0" else []) ++ (if fl_plus f then str "+" else [])
    ++ (if fl_space f then str " " else []) ++ (if fl_group f then str "'" else [])
    ++ str "*" ++ tail.

(** gen_format with the tests of the flags abstracted. *)
Definition gen_format_flags (buflen : Z) (f : conv_flags) (tail : cstring) : option (option cstring) :=
  let tlen := Z.of_nat (length tail) in
  if room buflen [] <? tlen + 3 then Some None else
  buf ← buf_putc buflen [] "%";
  buf ← buf_putc_if (fl_alt f) buflen buf "#";
  buf ← buf_putc_if (fl_left f) buflen buf "-";
  buf ← buf_putc_if (fl_zero f) buflen buf "0";
  if room buflen buf <? tlen + 2 then Some None else
  buf ← buf_putc_if (fl_plus f) buflen buf "+";
  buf ← buf_putc_if (fl_space f) buflen buf " ";
  buf ← buf_putc_if (fl_group f) buflen buf "'";
  if room buflen buf <? tlen + 2 then Some None else
  buf ← buf_putc buflen buf "*";
  _ ← buf_putc buflen buf NUL;
  Some (Some (take (Z.to_nat (buflen - 1)) (buf ++ tail))).

Lemma gen_format_esc_flags buflen flags tail :
  gen_format buflen flags tail = gen_format_flags buflen (esc_flags flags) tail.
Proof.
  unfold gen_format, gen_format_flags, esc_flags. cbv zeta. cbn [fl_alt fl_left fl_zero fl_plus fl_space fl_group].
  destruct (_ <? _); [done|]. destruct (buf_putc buflen [] "%") as [buf|]; [|done]. cbn [mbind option_bind].
  unfold PP_EXPLICIT_PLUS, PP_SPACE_FOR_PLUS, PP_LEFT_ALIGN, PP_ZERO_PAD, PP_ALTERNATE_FORM2, PP_THOUSANDS_SEP.
  rewrite !both_bits, !has_bit by lia.
  destruct (Z.testbit flags 3) eqn:E3, (Z.testbit flags 4) eqn:E4; cbn [andb];
    rewrite ?testbit_clear_bit, ?E3, ?E4 by lia; cbn [Z.eqb Pos.eqb andb negb];
    destruct (Z.testbit flags 2) eqn:E2, (Z.testbit flags 5) eqn:E5; cbn [andb];
    rewrite ?testbit_clear_bit, ?E2, ?E3, ?E4, ?E5 by lia; cbn [Z.eqb Pos.eqb andb negb];
    rewrite ?andb_true_r; reflexivity.
Qed.

Lemma room_small buflen buf : 0 <= buflen < 2 ^ 64 -> Z.of_nat (length buf) <= buflen ->
  room buflen buf = buflen - Z.of_nat (length buf).
Proof. intros Hl Hb. unfold room. apply Z.mod_small. lia. Qed.

Lemma buf_putc_ok buflen buf c : Z.of_nat (length buf) < buflen -> buf_putc buflen buf c = Some (buf ++ [c]).
Proof. intros H. unfold buf_putc. by rewrite (proj2 (Z.ltb_lt _ _) H). Qed.

(** One check of the room left, one write. *)
Ltac room_step :=
  first [rewrite room_small by (cbn [length]; lia)
        |rewrite buf_putc_ok by (cbn [length]; lia)];
  cbn [mbind option_bind length app buf_putc_if].

Lemma gen_format_flags_spec buflen f tail : 0 <= buflen < 2 ^ 64 -> fl_left f && fl_zero f = false ->
  fl_plus f && fl_space f = false ->
  gen_format_flags buflen f tail =
    Some (if buflen <? Z.of_nat (length (format_text f tail)) + 1 then None else Some (format_text f tail)).
Proof.
  intros Hl Hlz Hps. destruct f as [[] [] [] [] [] []]; try discriminate Hlz; try discriminate Hps; clear Hlz Hps;
    unfold gen_format_flags, format_text; cbn [fl_alt fl_left fl_zero fl_plus fl_space fl_group app str
      String.list_ascii_of_string length buf_putc_if mbind option_bind];
    match goal with |- _ = Some (if ?b then _ else _) => destruct b eqn:E end;
    (first [apply Z.ltb_lt in E|apply Z.ltb_ge in E]; rewrite ?Nat2Z.inj_succ in E;
     repeat first [room_step
        |match goal with |- context [?a <? ?b] => destruct (Z.ltb_spec a b); [try reflexivity; cbn [length] in *; lia|] end
        |match goal with |- context [?a <? ?b] => destruct (Z.ltb_spec a b); [reflexivity|] end];
     first [cbn [length] in *; lia|idtac]).
  all: do 2 f_equal; apply take_ge; cbn [length]; lia.
Qed.

Lemma esc_flags_exclusive flags :
  fl_left (esc_flags flags) && fl_zero (esc_flags flags) = false /\
  fl_plus (esc_flags flags) && fl_space (esc_flags flags) = false.
Proof. unfold esc_flags. cbn. split; repeat destruct (has _ _); done. Qed.

Lemma gen_format_ok buflen flags tail : 0 <= buflen < 2 ^ 64 ->
  gen_format buflen flags tail =
    Some (if buflen <? Z.of_nat (length (format_text (esc_flags flags) tail)) + 1 then None
          else Some (format_text (esc_flags flags) tail)).
Proof.
  intros Hl. destruct (esc_flags_exclusive flags). rewrite gen_format_esc_flags. by apply gen_format_flags_spec.
Qed.

(** printf reads back the flags the format was made for. *)
Lemma sbuf_printf_format_text f tail w args :
  sbuf_printf (format_text f tail) (CInt w :: args) =
    let '(f, w) := star_width f w in conversion f w tail args.
Proof. by destruct f as [[] [] [] [] [] []]. Qed.

Lemma format_text_length f tail : fl_left f && fl_zero f = false -> fl_plus f && fl_space f = false ->
  (length (format_text f tail) <= length tail + 6)%nat.
Proof. intros H1 H2. destruct f as [[] [] [] [] [] []]; try discriminate H1; try discriminate H2; cbn; lia. Qed.

Lemma print_with_ok p tail w args : (length tail <= 9)%nat -> 0 <= w ->
  print_with p tail (CInt w :: args) =
    (text ← conversion (esc_flags (flags p)) w tail args; Some (true, text, p)).
Proof.
  intros Ht Hw. unfold print_with. rewrite gen_format_ok by (cbn; lia).
  destruct (esc_flags_exclusive (flags p)) as [H1 H2].
  pose proof (format_text_length (esc_flags (flags p)) tail H1 H2).
  destruct (Z.ltb_spec 16 (Z.of_nat (length (format_text (esc_flags (flags p)) tail)) + 1)); [lia|].
  cbn [mbind option_bind]. rewrite sbuf_printf_format_text. unfold star_width.
  destruct (Z.ltb_spec w 0); [lia|done].
Qed.

(** A printer that always prints. *)
Definition prints (r : option printed) (text : cstring) : Prop := exists p, r = Some (true, text, p).

(** The flags of a string. *)
Definition string_flags (flags : Z) : conv_flags :=
  mk_flags false (has flags PP_LEFT_ALIGN) (has flags PP_ZERO_PAD && negb (has flags PP_LEFT_ALIGN))
    false false false.

Lemma has_clear f m k : 0 <= k -> has (Z.land f (Z.lnot m)) (Z.shiftl 1 k) = has f (Z.shiftl 1 k) && negb (Z.testbit m k).
Proof. intros Hk. by rewrite !has_bit, testbit_clear. Qed.

Lemma esc_flags_string flags : esc_flags (Z.land flags (Z.lnot STRING_CLEARS)) = string_flags flags.
Proof.
  unfold esc_flags, string_flags, PP_ALTERNATE_FORM2, PP_LEFT_ALIGN, PP_ZERO_PAD, PP_EXPLICIT_PLUS,
    PP_SPACE_FOR_PLUS, PP_THOUSANDS_SEP.
  rewrite !has_clear by lia.
  change (Z.testbit STRING_CLEARS 1) with true. change (Z.testbit STRING_CLEARS 2) with false.
  change (Z.testbit STRING_CLEARS 3) with true. change (Z.testbit STRING_CLEARS 4) with true.
  change (Z.testbit STRING_CLEARS 5) with false. change (Z.testbit STRING_CLEARS 6) with true.
  cbn [negb]. by rewrite !andb_false_r, !andb_true_r.
Qed.

(** Clearing the alternate forms first makes no difference to a string. *)
Lemma string_flags_clear flags m : Z.testbit m 2 = false -> Z.testbit m 5 = false ->
  string_flags (Z.land flags (Z.lnot m)) = string_flags flags.
Proof.
  intros H2 H5. unfold string_flags, PP_LEFT_ALIGN, PP_ZERO_PAD. rewrite !has_clear by lia.
  by rewrite H2, H5, !andb_true_r.
Qed.

Lemma string_val_ok s p : 0 <= width p ->
  prints (string_val s p) (field (string_flags (flags p)) (width p) [] (default (str "(null)") s)).
Proof.
  intros Hw. unfold string_val. cbv zeta. cbn [clear_flags set_flags width].
  rewrite print_with_ok by (done || cbn; lia). cbn [flags set_flags clear_flags].
  rewrite esc_flags_string. eexists. reflexivity.
Qed.

Lemma bool_val_ok b p : 0 <= width p -> exists s, boolean_str b !! alternate (flags p) = Some s /\
  prints (bool_val b p) (field (string_flags (flags p)) (width p) [] s).
Proof.
  intros Hw. unfold bool_val.
  assert (exists s, boolean_str b !! alternate (flags p) = Some s) as [s Hs].
  { unfold alternate. destruct b; repeat case_match; by eexists. }
  exists s. split; [done|]. rewrite Hs. cbn [mbind option_bind].
  pose proof (string_val_ok (Some s) (clear_flags p ALTERNATE_FORMS)) as H. cbn in H.
  rewrite string_flags_clear in H by reflexivity. by apply H.
Qed.

Lemma liclog_val_ok l p : 0 <= width p -> exists s, liclog_str (liclog_of l) !! alternate (flags p) = Some s /\
  prints (liclog_val l p) (field (string_flags (flags p)) (width p) [] s).
Proof.
  intros Hw. unfold liclog_val.
  assert (exists s, liclog_str (liclog_of l) !! alternate (flags p) = Some s) as [s Hs].
  { unfold alternate. destruct (liclog_of l); repeat case_match; by eexists. }
  exists s. split; [done|]. rewrite Hs. cbn [mbind option_bind].
  pose proof (string_val_ok (Some s) (clear_flags p ALTERNATE_FORMS)) as H. cbn in H.
  rewrite string_flags_clear in H by reflexivity. by apply H.
Qed.

Lemma mode_val_ok mode p : 0 <= width p -> exists text, prints (mode_val mode p) text.
Proof.
  intros Hw. unfold mode_val. destruct (has (flags p) PP_ALTERNATE_FORM1).
  - eexists. by apply string_val_ok.
  - cbv zeta. rewrite print_with_ok by (done || cbn; lia). cbn. eexists. eexists. reflexivity.
Qed.

(** An integer in its field. *)
Definition int_text (flags width value : Z) : cstring :=
  field (esc_flags flags) width (sign_of (esc_flags flags) (value <? 0)) (print_dec (Z.abs value)).

Lemma int_val_plain value p : 0 <= width p -> has (flags p) ALTERNATE_FORMS = false ->
  prints (int_val value p) (int_text (flags p) (width p) value).
Proof.
  intros Hw Ha. unfold int_val. rewrite Ha, print_with_ok by (done || cbn; lia). eexists. reflexivity.
Qed.

(** ** human_number

    After [s] divisions the double is the number over [divisor ^ s] up to
    [2 s + 1] rounding errors. *)
Definition scaled_to (n divisor : Z) (s : nat) (x : double) : Prop :=
  let '(a, b) := frac x in
  0 <= a /\ 0 < b /\
  2 ^ 53 * Z.abs (a * divisor ^ Z.of_nat s - n * b) <= (2 * Z.of_nat s + 1) * (n * b) /\
  (0 < Z.of_nat s -> (2 ^ 53 - 1) * b <= 2 ^ 53 * a).

Lemma scaled_to_int n divisor : 0 <= n -> scaled_to n divisor 0 (double_of_int n).
Proof.
  intros Hn. unfold scaled_to, double_of_int. pose proof (rnd_error n 1 Hn ltac:(lia)) as H.
  destruct (frac (rnd n 1)) as [a b]. destruct H as (Ha & Hb & H).
  change (Z.of_nat 0) with 0. rewrite Z.pow_0_r. split_and!; [done|done|lia|lia].
Qed.

(** The sum of two errors, without the fractions. *)
Lemma error_step a b a' b' n P D c : 0 <= a -> 0 < b -> 0 < b' -> 0 <= n -> 0 < P -> 0 <= c <= 2 ^ 53 ->
  2 ^ 53 * Z.abs (a * P - n * b) <= c * (n * b) ->
  2 ^ 53 * Z.abs (a' * (b * D) - a * b') <= a * b' ->
  2 ^ 53 * Z.abs (a' * (D * P) - n * b') <= (c + 2) * (n * b').
Proof.
  intros Ha Hb Hb' Hn HP Hc H1 H2.
  set (X := a' * (b * D) - a * b') in *. set (Y := a * P - n * b) in *.
  assert (b * (a' * (D * P) - n * b') = P * X + b' * Y) as E by (subst X Y; ring).
  assert (b * Z.abs (a' * (D * P) - n * b') <= P * Z.abs X + b' * Z.abs Y) as T.
  { rewrite <- (Z.abs_eq b) at 1 by lia. rewrite <- Z.abs_mul, E.
    etransitivity; [apply Z.abs_triangle|]. rewrite !Z.abs_mul, (Z.abs_eq P), (Z.abs_eq b') by lia. lia. }
  assert (2 ^ 53 * (a * P) <= (2 ^ 53 + c) * (n * b)) as U by (subst Y; lia).
  assert (a * P <= 2 * (n * b)) as V by nia.
  apply (Z.mul_le_mono_pos_l _ _ b Hb).
  transitivity (P * (2 ^ 53 * Z.abs X) + b' * (2 ^ 53 * Z.abs Y)); [lia|].
  transitivity (P * (a * b') + b' * (c * (n * b))).
  - apply Z.add_le_mono; apply Z.mul_le_mono_nonneg_l; lia.
  - assert (b' * (a * P) <= b' * (2 * (n * b))) by (apply Z.mul_le_mono_nonneg_l; lia). lia.
Qed.

Lemma scaled_to_div n divisor s x : 0 <= n -> 0 < divisor -> (s <= 6)%nat ->
  scaled_to n divisor s x -> double_lt x divisor = false ->
  scaled_to n divisor (S s) (double_div x divisor).
Proof.
  intros Hn Hd Hs Hx Hlt. unfold scaled_to, double_div, double_lt in *.
  destruct (frac x) as [a b]. destruct Hx as (Ha & Hb & Hx & _). apply Z.ltb_ge in Hlt.
  pose proof (rnd_error a (b * divisor) Ha ltac:(lia)) as H.
  destruct (frac (rnd a (b * divisor))) as [a' b']. destruct H as (Ha' & Hb' & H).
  split_and!; [done|done| |].
  - rewrite Nat2Z.inj_succ, Z.pow_succ_r by lia.
    pose proof (error_step a b a' b' n (divisor ^ Z.of_nat s) divisor (2 * Z.of_nat s + 1) Ha Hb Hb' Hn
      ltac:(apply Z.pow_pos_nonneg; lia) ltac:(lia) Hx H). lia.
  - intros _. assert (2 ^ 53 * (a' * (b * divisor)) >= (2 ^ 53 - 1) * (a * b')) as L by lia.
    assert ((2 ^ 53 - 1) * (b' * (divisor * b)) <= (2 ^ 53 - 1) * (b' * a)) by nia.
    apply (Z.mul_le_mono_pos_l _ _ (b * divisor)); lia.
Qed.

(** Six divisions are enough for 63 bits. *)
Lemma scaled_to_last n divisor x : 0 <= n <= 2 ^ 63 -> 1000 <= divisor -> scaled_to n divisor 6 x ->
  double_lt x divisor = true.
Proof.
  intros Hn Hd Hx. unfold scaled_to, double_lt in *. destruct (frac x) as [a b].
  destruct Hx as (Ha & Hb & Hx & _). apply Z.ltb_lt. apply Z.nle_gt. intros Hge.
  assert (1000 ^ 6 <= divisor ^ Z.of_nat 6) as HP by (apply Z.pow_le_mono_l; lia).
  set (P := divisor ^ Z.of_nat 6) in *.
  assert (1000 * b <= divisor * b) by (apply Z.mul_le_mono_nonneg_r; lia).
  assert (1000 * b * 1000 ^ 6 <= a * P) by (apply Z.mul_le_mono_nonneg; lia).
  assert (n * b <= 2 ^ 63 * b) by (apply Z.mul_le_mono_nonneg_r; lia). lia.
Qed.

Lemma scale_loop_spec n divisor fuel s x : 0 <= n <= 2 ^ 63 -> 1000 <= divisor ->
  (s + fuel = 7)%nat -> (s <= 6)%nat -> scaled_to n divisor s x ->
  exists x' s', scale_loop fuel divisor x s = (x', s') /\ (s' <= 6)%nat /\
    scaled_to n divisor s' x' /\ double_lt x' divisor = true.
Proof.
  intros Hn Hd. revert s x; induction fuel as [|fuel IH]; intros s x Hf Hs Hx; [lia|]. cbn [scale_loop].
  destruct (double_lt x divisor) eqn:E; [by exists x, s|].
  assert (s <> 6)%nat. { intros ->. by rewrite (scaled_to_last n divisor x Hn Hd Hx) in E. }
  apply IH; [lia|lia|]. apply scaled_to_div; by lia || done.
Qed.

(** The decimals of the double are those of the number, rounded to nearest. *)
Lemma decimals_error n divisor s x prec : 0 <= prec -> scaled_to n divisor s x ->
  0 <= n -> 0 < divisor -> (s <= 6)%nat ->
  let k := decimals prec x in
  2 ^ 53 * Z.abs (2 * (k * divisor ^ Z.of_nat s) - 2 * (n * 10 ^ prec))
    <= 2 ^ 53 * divisor ^ Z.of_nat s + 26 * (n * 10 ^ prec).
Proof.
  intros Hp Hx Hn Hd Hs. unfold scaled_to, decimals in *. destruct (frac x) as [a b].
  destruct Hx as (Ha & Hb & Hx & _).
  set (P := divisor ^ Z.of_nat s) in *. assert (0 < P) by (apply Z.pow_pos_nonneg; lia).
  set (T := 10 ^ prec). assert (0 < T) by (apply Z.pow_pos_nonneg; lia).
  pose proof (rne_error (a * T) b Hb) as R. set (k := rne (a * T) b) in *.
  apply (Z.mul_le_mono_pos_l _ _ b Hb).
  set (X := k * b - a * T) in *. set (Y := a * P - n * b) in *.
  assert (b * (2 * (k * P) - 2 * (n * T)) = P * (2 * X) + 2 * T * Y) as E by (subst X Y; ring).
  assert (b * Z.abs (2 * (k * P) - 2 * (n * T)) <= P * (2 * Z.abs X) + 2 * T * Z.abs Y) as B.
  { rewrite <- (Z.abs_eq b) at 1 by lia. rewrite <- Z.abs_mul, E.
    etransitivity; [apply Z.abs_triangle|]. rewrite !Z.abs_mul, (Z.abs_eq P), (Z.abs_eq T) by lia. lia. }
  assert (P * (2 * Z.abs X) <= P * b) by (apply Z.mul_le_mono_nonneg_l; lia).
  assert (T * (2 ^ 53 * Z.abs Y) <= T * (13 * (n * b))).
  { apply Z.mul_le_mono_nonneg_l; [lia|]. etransitivity; [exact Hx|]. apply Z.mul_le_mono_nonneg_r; lia. }
  lia.
Qed.

Lemma decimals_range n divisor s x prec : 0 <= prec <= 15 -> scaled_to n divisor s x ->
  double_lt x divisor = true ->
  0 <= decimals prec x <= divisor * 10 ^ prec /\ (0 < Z.of_nat s -> 10 ^ prec <= decimals prec x).
Proof.
  intros Hp Hx Hlt. unfold scaled_to, decimals, double_lt in *. destruct (frac x) as [a b].
  destruct Hx as (Ha & Hb & _ & Hx). apply Z.ltb_lt in Hlt.
  assert (0 < 10 ^ prec <= 10 ^ 15) as HT
    by (split; [apply Z.pow_pos_nonneg; lia|apply Z.pow_le_mono_r; lia]).
  set (T := 10 ^ prec) in *. pose proof (rne_error (a * T) b Hb) as R.
  pose proof (rne_nonneg (a * T) b ltac:(nia) Hb). set (k := rne (a * T) b) in *.
  split; [split; [done|]|].
  - assert (a * T <= (divisor * b) * T - T) by nia. apply Z.lt_succ_r.
    apply (Z.mul_lt_mono_pos_r b); [done|]. lia.
  - intros Hs. specialize (Hx Hs). destruct (Z.le_gt_cases T k) as [|Hlt']; [done|exfalso].
    assert (k * b <= (T - 1) * b) by (apply Z.mul_le_mono_nonneg_r; lia).
    assert (T * ((2 ^ 53 - 1) * b) <= T * (2 ^ 53 * a)) by (apply Z.mul_le_mono_nonneg_l; lia).
    assert (T * b <= 10 ^ 15 * b) by (apply Z.mul_le_mono_nonneg_r; lia). lia.
Qed.

(** What human_number prints: [k] units of [10^-prec], a scale of
    [divisor ^ scale], and its prefix. *)
Lemma human_number_ok number p : Z.abs number < 2 ^ 63 -> 0 <= width p ->
  let bin := has (flags p) PP_ALTERNATE_FORM2 in
  let divisor := if bin then 1024 else 1000 in
  exists w prec k scale pfx,
    prints (human_number number p)
      (field (esc_flags (Z.land (flags p) (Z.lnot ALTERNATE_FORMS))) w
         (sign_of (esc_flags (Z.land (flags p) (Z.lnot ALTERNATE_FORMS))) (number <? 0))
         (print_fixed prec k) ++ pfx) /\
    (if bin then bin_pfx else si_pfx) !! scale = Some pfx /\
    0 <= w <= width p /\ 0 <= prec <= 2 /\
    0 <= k <= divisor * 10 ^ prec /\ ((0 < scale)%nat -> 10 ^ prec <= k) /\
    2 ^ 53 * Z.abs (2 * (k * divisor ^ Z.of_nat scale) - 2 * (Z.abs number * 10 ^ prec))
      <= 2 ^ 53 * divisor ^ Z.of_nat scale + 26 * (Z.abs number * 10 ^ prec).
Proof.
  intros Hn Hw bin divisor. unfold human_number. fold bin. cbv zeta.
  destruct (Z.eqb_spec number LLONG_MIN); [unfold LLONG_MIN in *; lia|]. fold divisor.
  assert (1000 <= divisor) as Hd by (subst divisor; destruct bin; lia).
  assert (0 <= Z.abs number <= 2 ^ 63) as Hn' by lia.
  destruct (scale_loop_spec (Z.abs number) divisor MAXSCALE 0 (double_of_int (Z.abs number)) Hn' Hd
    eq_refl ltac:(lia) (scaled_to_int _ _ (proj1 Hn'))) as (x & s & -> & Hs & Hx & Hlt).
  set (w := human_width _ _). set (prec := human_precision x w).
  assert (0 <= w <= width p) as Hw'.
  { subst w. unfold human_width. cbn. repeat case_match; lia. }
  assert (0 <= prec <= 2) as Hprec.
  { subst prec. unfold human_precision. repeat case_match; lia. }
  destruct (decimals_range _ _ _ _ prec ltac:(lia) Hx Hlt) as [Hk Hk1].
  pose proof (decimals_error _ _ _ _ prec ltac:(lia) Hx ltac:(lia) ltac:(lia) Hs) as He.
  rewrite print_with_ok by (cbn; lia). unfold conversion.
  rewrite bool_decide_eq_true_2, (proj2 (Z.leb_le 0 prec)) by (done || lia). cbn [andb mbind option_bind].
  assert (exists pfx, (if bin then bin_pfx else si_pfx) !! s = Some pfx) as [pfx Hpfx].
  { apply lookup_lt_is_Some_2. destruct bin; cbn; lia. }
  exists w, prec, (decimals prec x), s, pfx. split_and!; try done; try lia.
  rewrite andb_true_r. destruct (Nat.ltb_spec 0 s).
  - rewrite Hpfx. eexists. reflexivity.
  - assert (s = 0)%nat as -> by lia. assert (pfx = []) as -> by (destruct bin; by injection Hpfx).
    rewrite app_nil_r. eexists. reflexivity.
Qed.

Lemma int_val_ok value p : Z.abs value < 2 ^ 63 -> 0 <= width p -> exists text, prints (int_val value p) text.
Proof.
  intros Hv Hw. destruct (has (flags p) ALTERNATE_FORMS) eqn:E.
  - unfold int_val. rewrite E. destruct (human_number_ok value p Hv Hw) as (w & prec & k & s & pfx & H & _).
    by eexists.
  - eexists. by apply int_val_plain.
Qed.

Lemma list_count_ok count p : 0 <= count < 2 ^ 63 -> 0 <= width p -> exists text, prints (list_count count p) text.
Proof. intros Hc Hw. unfold list_count. apply int_val_ok; [|done]. repeat case_match; lia. Qed.

(** ** Reading an integer back *)

Lemma drop_space_blanks n s : drop_space (replicate n " "%char ++ s) = drop_space s.
Proof. induction n as [|n IH]; [done|]. cbn. apply IH. Qed.

Lemma digits_zeros n acc s : digits acc (replicate n "0"%char ++ s) = digits (acc * 10 ^ Z.of_nat n) s.
Proof.
  revert acc; induction n as [|n IH]; intros acc; [by rewrite Z.pow_0_r, Z.mul_1_r|].
  cbn [replicate app digits]. change (isdigit "0"%char) with true. cbn iota. rewrite IH.
  f_equal. rewrite Nat2Z.inj_succ, Z.pow_succ_r by lia. change (code "0"%char) with 48. lia.
Qed.

(** A text of digits is not read as a sign. *)
Lemma digits_text_start n v rest (body := replicate n "0"%char ++ print_dec v ++ rest) :
  isdigit (deref body) = true /\ drop_space body = body /\ read_sign body = (false, body).
Proof.
  assert (exists c r, body = c :: r /\ isdigit c = true) as (c & r & E & Hc).
  { subst body. destruct n as [|n]; [|by do 2 eexists]. cbn [replicate app].
    pose proof (print_base_digits 10 v ltac:(lia)) as Hd. pose proof (print_base_nonempty 10 v) as Hne.
    fold print_dec in *. destruct (print_dec v) as [|c r]; [done|]. do 2 eexists. split; [done|].
    by inversion Hd. }
  rewrite E. cbn. clear -Hc. split_and!; by_byte c.
Qed.

(** Digits, perhaps with zeros before them, and the number they denote. *)
Lemma strtoll_digits (neg : bool) n v rest : 0 <= v <= LLONG_MAX -> isdigit (deref rest) = false ->
  strtoll ((if neg then str "-" else []) ++ replicate n "0"%char ++ print_dec v ++ rest)
  = (if neg then - v else v, rest).
Proof.
  intros Hv Hr. set (body := replicate n "0"%char ++ print_dec v ++ rest).
  assert (digits 0 body = (v, rest)) as Hb.
  { subst body. rewrite digits_zeros, Z.mul_0_l. apply digits_print_dec; lia || done. }
  destruct (digits_text_start n v rest) as (D & B1 & B2). fold body in D, B1, B2.
  unfold strtoll, LLONG_MIN, LLONG_MAX in *. destruct neg.
  - change (drop_space (str "-" ++ body)) with ("-"%char :: body).
    change (read_sign ("-"%char :: body)) with (true, body). cbn beta iota.
    rewrite D, Hb. f_equal. lia.
  - cbn [app]. rewrite B1, B2, D, Hb. f_equal. lia.
Qed.

(** The sign printed is read back; a space is skipped. *)
Lemma strtoll_signed f n neg v rest : 0 <= v <= LLONG_MAX -> isdigit (deref rest) = false ->
  strtoll (sign_of f neg ++ replicate n "0"%char ++ print_dec v ++ rest) = (if neg then - v else v, rest).
Proof.
  intros Hv Hr. pose proof (strtoll_digits neg n v rest Hv Hr) as H. unfold sign_of.
  destruct neg; [exact H|]. cbn [app] in H.
  destruct (digits_text_start n v rest) as (D & Hs & Hg).
  destruct (fl_plus f); [|destruct (fl_space f); [|exact H]].
  - set (body := replicate n _ ++ _) in *. unfold strtoll in *. rewrite Hs, Hg, D in H.
    change (drop_space (str "+" ++ body)) with ("+"%char :: body).
    change (read_sign ("+"%char :: body)) with (false, body). cbn beta iota. rewrite D. exact H.
  - set (body := replicate n _ ++ _) in *. unfold strtoll in *. rewrite Hs, Hg, D in H.
    change (drop_space (str " " ++ body)) with (drop_space body). rewrite Hs, Hg, D. exact H.
Qed.

Lemma strtoll_blanks n s v : strtoll s = (v, []) -> s <> [] -> strtoll (replicate n " "%char ++ s) = (v, []).
Proof.
  unfold strtoll. rewrite drop_space_blanks. destruct (read_sign (drop_space s)) as [neg s1].
  destruct (isdigit (deref s1)); [done|]. by intros [= _ ->].
Qed.

Lemma int_text_strtoll flags width value : LLONG_MIN < value <= LLONG_MAX -> 
  exists n, strtoll (int_text flags width value) = (value, replicate n " "%char).
Proof.
  intros Hv. assert (0 <= Z.abs value <= LLONG_MAX) as Ha by (unfold LLONG_MIN, LLONG_MAX in *; lia).
  unfold int_text, field. set (f := esc_flags flags). unfold pad.
  set (n := (Z.to_nat width - _)%nat).
  assert ((if value <? 0 then - Z.abs value else Z.abs value) = value) as E
    by (destruct (Z.ltb_spec value 0); lia).
  assert (isdigit (deref (replicate n " "%char)) = false) as Hb by by destruct n.
  pose proof (strtoll_signed f 0 (value <? 0) (Z.abs value)) as H0.
  pose proof (strtoll_signed f n (value <? 0) (Z.abs value) [] Ha eq_refl) as Hn.
  rewrite E in *. cbn [replicate app] in H0. rewrite app_nil_r in Hn.
  destruct (fl_left f); [exists n; by apply H0|].
  exists 0%nat. destruct (fl_zero f); [done|].
  specialize (H0 [] Ha eq_refl). rewrite app_nil_r in H0. apply strtoll_blanks; [done|].
  intros E0. apply (f_equal length) in E0. rewrite length_app in E0.
  pose proof (print_base_nonempty 10 (Z.abs value)). fold print_dec in *.
  destruct (print_dec (Z.abs value)); cbn in *; [done|lia].
Qed.

(** ** The parser moves forward *)

Lemma field_modifier_length f p : (length (field_modifier f p).1 <= length f)%nat.
Proof.
  revert p; induction f as [|c f IH]; intros p; cbn; [done|].
  destruct (modifier_flag c); cbn; [|lia]. etransitivity; [apply IH|lia].
Qed.

Lemma field_width_length f p f' p' : field_width f p = Some (f', p') -> (length f' <= length f)%nat.
Proof.
  revert p; induction f as [|c f IH]; intros p; cbn; [by intros [= <- _]|].
  destruct (isdigit c); [|by intros [= <- _]]. destruct (_ <? _); [done|]. intros H%IH. lia.
Qed.

Lemma field_width_width f p f' p' : 0 <= width p -> field_width f p = Some (f', p') -> 0 <= width p'.
Proof.
  revert p; induction f as [|c f IH]; intros p Hw; cbn; [by intros [= _ <-]|].
  destruct (isdigit c) eqn:E; [|by intros [= _ <-]]. destruct (_ <? _); [done|]. apply IH. cbn.
  unfold isdigit in E. apply andb_true_iff in E as [E _]. lia.
Qed.

Lemma scan_trailer_length stop f text c rest :
  scan_trailer stop f = (text, Some (c, rest)) -> (length rest < length f)%nat.
Proof.
  revert text; induction f as [|x f IH]; intros text; cbn; [done|].
  destruct (_ && _); [intros [= <- <- <-]; rewrite length_drop; lia|].
  destruct (scan_trailer stop f) as [t e]. intros [= <- ->]. specialize (IH _ eq_refl). lia.
Qed.

Lemma format_trailer_length f p : (length (format_trailer f p).1 <= length f)%nat.
Proof.
  unfold format_trailer. destruct (_ && _); [|done].
  destruct (scan_trailer _ (drop 2 f)) as [item [[c f1]|]] eqn:E; [|done].
  apply scan_trailer_length in E. rewrite length_drop in E.
  destruct (Ascii.eqb c "|"); [|cbn; lia].
  destruct (scan_trailer _ f1) as [sep [[c' f2]|]] eqn:E'; [|done].
  apply scan_trailer_length in E'. cbn. lia.
Qed.

Lemma format_code_length f ctx p f' p' : format_code f ctx p = Some (f', p') -> (length f' <= length f)%nat.
Proof.
  unfold format_code. destruct f as [|c f]; [done|].
  destruct (search_code _ _ _) as [[d n]|]; intros [= <- _]; [|done]. rewrite length_drop. lia.
Qed.

Lemma parse_format_length f ctx p f' p' : f <> [] -> parse_format f ctx p = Some (f', p') ->
  (length f' < length f)%nat.
Proof.
  intros Hf. unfold parse_format.
  pose proof (field_modifier_length (drop 1 f) p) as L1. rewrite length_drop in L1.
  destruct (field_modifier (drop 1 f) p) as [f1 p1]. cbn [fst] in L1.
  destruct (field_width f1 p1) as [[f2 p2]|] eqn:E2; [|done]. cbn [mbind option_bind].
  destruct (format_code f2 ctx p2) as [[f3 p3]|] eqn:E3; [|done]. cbn [mbind option_bind].
  apply field_width_length in E2. apply format_code_length in E3.
  assert (length f <> O) by by destruct f.
  case_match; intros [= H1]; [|simplify_eq; lia].
  pose proof (format_trailer_length f3 p3) as L. rewrite H1 in L. cbn in L. lia.
Qed.

Lemma maybe_read_hex_byte_length f : (length (maybe_read_hex_byte f).2 <= length f)%nat.
Proof. unfold maybe_read_hex_byte. case_match; cbn; rewrite ?length_drop; lia. Qed.

Lemma oct_digits_length n v f : (length (oct_digits n v f).2 <= length f)%nat.
Proof.
  revert v f; induction n as [|n IH]; intros v [|c f]; cbn; try done.
  destruct (_ && _); cbn; [|done]. etransitivity; [apply IH|lia].
Qed.

Lemma process_escape_length f : f <> [] -> (length (process_escape f).2 < length f)%nat.
Proof.
  intros Hf. assert (length f <> O) by by destruct f. unfold process_escape.
  destruct (find _ _) as [e|]; cbn [snd]; [rewrite !length_drop; lia|].
  destruct (Ascii.eqb _ _).
  { pose proof (maybe_read_hex_byte_length (drop 1 f)) as L. rewrite length_drop in L. lia. }
  destruct (isoctal _).
  - unfold read_oct_byte. pose proof (oct_digits_length 3 0 (drop 1 f)) as L. rewrite length_drop in L.
    destruct (oct_digits 3 0 (drop 1 f)). cbn in *. lia.
  - cbn. rewrite length_drop. lia.
Qed.

(** ** The escape left by the parser *)

Lemma field_modifier_width f p : width (field_modifier f p).2 = width p.
Proof.
  revert p; induction f as [|c f IH]; intros p; cbn; [done|]. destruct (modifier_flag c); [|done]. by rewrite IH.
Qed.

Lemma format_trailer_same f p : let p' := (format_trailer f p).2 in
  fmt_code p' = fmt_code p /\ width p' = width p /\ flags p' = flags p.
Proof.
  unfold format_trailer. destruct (_ && _); [|done].
  destruct (scan_trailer _ (drop 2 f)) as [item [[c f1]|]]; [|done].
  destruct (Ascii.eqb c "|"); [|done]. by destruct (scan_trailer _ f1) as [sep [[c' f2]|]].
Qed.

Lemma format_code_same f ctx p f' p' : format_code f ctx p = Some (f', p') -> width p' = width p.
Proof. unfold format_code. destruct f; [done|]. by destruct (search_code _ _ _) as [[]|]; intros [= _ <-]. Qed.

Lemma parse_format_width f ctx p f' p' : 0 <= width p -> parse_format f ctx p = Some (f', p') -> 0 <= width p'.
Proof.
  intros Hw. unfold parse_format. pose proof (field_modifier_width (drop 1 f) p) as W1.
  destruct (field_modifier (drop 1 f) p) as [f1 p1]. cbn [snd] in W1.
  destruct (field_width f1 p1) as [[f2 p2]|] eqn:E2; [|done]. cbn [mbind option_bind].
  destruct (format_code f2 ctx p2) as [[f3 p3]|] eqn:E3; [|done]. cbn [mbind option_bind].
  apply field_width_width in E2; [|lia]. apply format_code_same in E3.
  destruct (format_trailer_same f3 p3) as (_ & W & _).
  case_match; intros [= H1]; [|simplify_eq; lia]. rewrite H1 in W. cbn in W. lia.
Qed.

(** The code found is one the table has, and allows in the context. *)
Lemma search_code_elem f ctx codes c n : search_code f ctx codes = Some (c, n) ->
  c ∈ codes /\ code_matches f ctx c = Some n.
Proof.
  induction codes as [|d codes IH]; cbn; [done|].
  destruct (code_matches f ctx d) as [m|] eqn:E; [intros [= <- <-]; split; [by left|done]|].
  intros [H1 H2]%IH. split; [by right|done].
Qed.

Lemma format_code_context f ctx p f' p' : format_code f ctx p = Some (f', p') ->
  fmt_code p' = PP_UNKNOWN \/ Z.land (context (fmt (fmt_code p'))) ctx = ctx.
Proof.
  unfold format_code. destruct f; [done|].
  destruct (search_code _ _ _) as [[c n]|] eqn:E; intros [= _ <-]; cbn; [right|by left].
  apply search_code_elem in E as [_ E]. unfold code_matches in E.
  destruct (Z.eqb_spec (Z.land (context (fmt c)) ctx) ctx); done.
Qed.

Lemma parse_format_context f ctx p f' p' : parse_format f ctx p = Some (f', p') ->
  fmt_code p' = PP_UNKNOWN \/ Z.land (context (fmt (fmt_code p'))) ctx = ctx.
Proof.
  unfold parse_format. destruct (field_modifier (drop 1 f) p) as [f1 p1].
  destruct (field_width f1 p1) as [[f2 p2]|]; [|done]. cbn [mbind option_bind].
  destruct (format_code f2 ctx p2) as [[f3 p3]|] eqn:E3; [|done]. cbn [mbind option_bind].
  apply format_code_context in E3. destruct (format_trailer_same f3 p3) as (W & _).
  case_match; intros [= H1]; [|by simplify_eq]. rewrite H1 in W. cbn in W. by rewrite W.
Qed.

(** ** Codes *)

(** The entry for letters in a context. *)
Definition lookup_code (main sub : ascii) (ctx : Z) : option fmt_code_t :=
  find (fun c => (Z.land (context (fmt c)) ctx =? ctx) && Ascii.eqb (fmt_main (fmt c)) main
                 && Ascii.eqb (fmt_sub (fmt c)) sub) fmt_codes.

(** After an entry of one letter there is no entry of two with the same first. *)
Fixpoint subs_first (codes : list fmt_code_t) : bool :=
  match codes with
  | [] => true
  | c :: codes =>
      (negb (Ascii.eqb (fmt_sub (fmt c)) NUL) ||
       forallb (fun d => Ascii.eqb (fmt_sub (fmt d)) NUL || negb (Ascii.eqb (fmt_main (fmt d)) (fmt_main (fmt c)))) codes)
      && subs_first codes
  end.

Lemma fmt_subs_first : subs_first fmt_codes = true.
Proof. vm_compute. reflexivity. Qed.

Lemma search_code_longest f ctx codes : subs_first codes = true ->
  let look sub := find (fun c => (Z.land (context (fmt c)) ctx =? ctx) && Ascii.eqb (fmt_main (fmt c)) (deref f)
                                 && Ascii.eqb (fmt_sub (fmt c)) sub) codes in
  search_code f ctx codes =
    match (if Ascii.eqb (at_ f 1) NUL then None else look (at_ f 1)) with
    | Some c => Some (c, 2%nat)
    | None => (fun c => (c, 1%nat)) <$> look NUL
    end.
Proof.
  induction codes as [|c codes IH]; cbn; intros Hs; [by destruct (Ascii.eqb _ _)|].
  apply andb_true_iff in Hs as [Hc Hs]. specialize (IH Hs). cbn in IH. rewrite IH. clear IH.
  unfold code_matches. destruct (Z.land _ ctx =? ctx); cbn [negb andb]; [|done].
  destruct (Ascii.eqb_spec (fmt_main (fmt c)) (deref f)) as [Em|]; cbn [negb andb]; [|done].
  destruct (Ascii.eqb_spec (at_ f 1) NUL) as [->|Hn]; cbn [negb].
  { rewrite andb_false_r. by destruct (Ascii.eqb _ NUL). }
  rewrite andb_true_r. destruct (Ascii.eqb_spec (fmt_sub (fmt c)) (at_ f 1)) as [E1|N1]; [done|].
  destruct (Ascii.eqb_spec (fmt_sub (fmt c)) NUL) as [E2|N2]; [|done].
  cbn in Hc. rewrite forallb_forall in Hc.
  destruct (find _ codes) as [d|] eqn:F; [|done]. exfalso.
  apply find_some in F as [Hin F]. apply Hc in Hin.
  apply andb_true_iff in F as [F F2]. apply andb_true_iff in F as [_ F1].
  apply Ascii.eqb_eq in F1, F2. rewrite F1, F2, Em, Ascii.eqb_refl in Hin.
  cbn in Hin. rewrite orb_false_r in Hin. by apply Ascii.eqb_eq in Hin.
Qed.

Definition letters (c : fmt_code_t) : cstring :=
  fmt_main (fmt c) :: (if Ascii.eqb (fmt_sub (fmt c)) NUL then [] else [fmt_sub (fmt c)]).

(** No two entries have the same letters. *)
Lemma fmt_letters_unique : NoDup (map (fun c => (fmt_main (fmt c), fmt_sub (fmt c))) fmt_codes).
Proof. apply (bool_decide_unpack _). vm_compute. exact I. Qed.

Lemma fmt_codes_all c : c <> PP_END_MARKER -> c ∈ fmt_codes.
Proof. intros H. apply (bool_decide_unpack _). destruct c; vm_compute; exact I || by destruct H. Qed.

Lemma lookup_code_own c ctx : c <> PP_END_MARKER -> Z.land (context (fmt c)) ctx = ctx ->
  lookup_code (fmt_main (fmt c)) (fmt_sub (fmt c)) ctx = Some c.
Proof.
  intros Hc Hctx. unfold lookup_code.
  destruct (find _ fmt_codes) as [d|] eqn:F.
  - apply find_some in F as [Hd F]. apply andb_true_iff in F as [F F2]. apply andb_true_iff in F as [_ F1].
    apply Ascii.eqb_eq in F1, F2. f_equal.
    apply list_elem_of_In in Hd. apply fmt_codes_all in Hc.
    apply list_elem_of_lookup in Hd as [i Hi], Hc as [j Hj].
    pose proof fmt_letters_unique as U. rewrite NoDup_alt in U.
    assert (i = j) as ->; [|congruence].
    apply (U i j (fmt_main (fmt c), fmt_sub (fmt c))); rewrite list_lookup_fmap.
    + rewrite Hi. cbn. by rewrite F1, F2.
    + by rewrite Hj.
  - exfalso. eapply find_none in F; [|by apply list_elem_of_In, fmt_codes_all].
    rewrite Hctx, Z.eqb_refl, !Ascii.eqb_refl in F. done.
Qed.

Lemma lookup_code_search f ctx : search_code f ctx fmt_codes =
  match (if Ascii.eqb (at_ f 1) NUL then None else lookup_code (deref f) (at_ f 1) ctx) with
  | Some c => Some (c, 2%nat)
  | None => (fun c => (c, 1%nat)) <$> lookup_code (deref f) NUL ctx
  end.
Proof. apply (search_code_longest f ctx fmt_codes fmt_subs_first). Qed.

Lemma format_code_letters (c : fmt_code_t) (ctx : Z) (p : percent_esc) (rest : cstring) :
  c <> PP_END_MARKER -> Z.land (context (fmt c)) ctx = ctx ->
  (fmt_sub (fmt c) = NUL -> deref rest = NUL \/ lookup_code (fmt_main (fmt c)) (deref rest) ctx = None) ->
  format_code (letters c ++ rest) ctx p = Some (rest, set_fmt_code p c).
Proof.
  intros He Hctx Hrest. pose proof (lookup_code_own c ctx He Hctx) as Hown.
  unfold format_code, letters. cbn [app]. rewrite lookup_code_search. cbn [deref hd].
  destruct (Ascii.eqb_spec (fmt_sub (fmt c)) NUL) as [E|N]; cbn [app].
  - change (at_ (fmt_main (fmt c) :: rest) 1) with (nth 0 rest NUL).
    replace (nth 0 rest NUL) with (deref rest) by by destruct rest.
    rewrite E in Hown. rewrite Hown. destruct (Ascii.eqb_spec (deref rest) NUL) as [|Hn]; [done|].
    destruct (Hrest E) as [| ->]; [done|]. done.
  - change (at_ (fmt_main (fmt c) :: fmt_sub (fmt c) :: rest) 1) with (fmt_sub (fmt c)).
    rewrite (proj2 (Ascii.eqb_neq _ _) N), Hown. done.
Qed.

(** * Properties *)

(** gen_format never writes outside its buffer, of whatever size: it yields
    the format with the flags asked for (the sign and the alignment that win
    over the others), or NULL exactly when that and its NUL do not fit. *)
Theorem gen_format_bounds (buflen flags : Z) (tail : cstring) : 0 <= buflen < 2 ^ 64 ->
  let text := format_text (esc_flags flags) tail in
  gen_format buflen flags tail = Some (if buflen <? Z.of_nat (length text) + 1 then None else Some text).
Proof. apply gen_format_ok. Qed.

Lemma gen_format_bounds_witness :
  gen_format 16 (Z.lor PP_LEFT_ALIGN (Z.lor PP_ZERO_PAD PP_EXPLICIT_PLUS)) (str "ld") = Some (Some (str "%-+*ld")) /\
  gen_format 5 PP_LEFT_ALIGN (str "ld") = Some None.
Proof.
  pose proof (gen_format_bounds 5 PP_LEFT_ALIGN (str "ld") ltac:(lia)) as H. cbv zeta in H.
  rewrite (gen_format_bounds 16) by lia. rewrite H. split; vm_compute; reflexivity.
Defined.

(** an integer printed with any width and any flags but [?] and [#] is read
    back by strtoll, which stops at the blanks of the alignment. *)
Theorem int_val_roundtrip (value : Z) (p : percent_esc) :
  LLONG_MIN < value <= LLONG_MAX -> 0 <= width p -> has (flags p) ALTERNATE_FORMS = false ->
  exists text p' n, int_val value p = Some (true, text, p') /\
    strtoll text = (value, replicate n " "%char) /\ (Z.to_nat (width p) <= length text)%nat.
Proof.
  intros Hv Hw Ha. destruct (int_val_plain value p Hw Ha) as [p' H].
  destruct (int_text_strtoll (flags p) (width p) value Hv) as [n Hn].
  exists (int_text (flags p) (width p) value), p', n. split_and!; [done|done|].
  unfold int_text. rewrite field_length. lia.
Qed.

Lemma int_val_roundtrip_witness : let p := mk_esc (Z.lor PP_ZERO_PAD PP_EXPLICIT_PLUS) 8 0 [] [] PP_PKG_FLATSIZE in
  exists text p' n, int_val (-42) p = Some (true, text, p') /\
    strtoll text = (-42, replicate n " "%char) /\ (Z.to_nat (width p) <= length text)%nat.
Proof. intros p. apply (int_val_roundtrip (-42) p); [unfold LLONG_MIN, LLONG_MAX; lia|done|reflexivity]. Defined.

(** C39: every number but the least prints in human form: a mantissa of at most
    two decimals times a power of 1000 (or 1024) with a prefix the table has,
    at least one unit once scaled, and the number rounded to those decimals,
    but for the rounding of the doubles. *)
Theorem human_number_bounds (number : Z) (p : percent_esc) :
  Z.abs number < 2 ^ 63 -> 0 <= width p ->
  let bin := has (flags p) PP_ALTERNATE_FORM2 in
  let divisor := if bin then 1024 else 1000 in
  let f := esc_flags (Z.land (flags p) (Z.lnot ALTERNATE_FORMS)) in
  exists w prec k scale pfx p',
    human_number number p = Some (true, field f w (sign_of f (number <? 0)) (print_fixed prec k) ++ pfx, p') /\
    (if bin then bin_pfx else si_pfx) !! scale = Some pfx /\
    0 <= w <= width p /\ 0 <= prec <= 2 /\
    0 <= k <= divisor * 10 ^ prec /\ ((0 < scale)%nat -> 10 ^ prec <= k) /\
    2 ^ 53 * Z.abs (2 * (k * divisor ^ Z.of_nat scale) - 2 * (Z.abs number * 10 ^ prec))
      <= 2 ^ 53 * divisor ^ Z.of_nat scale + 26 * (Z.abs number * 10 ^ prec).
Proof.
  intros Hn Hw. destruct (human_number_ok number p Hn Hw) as (w & prec & k & s & pfx & [p' H] & Hrest).
  by exists w, prec, k, s, pfx, p'.
Qed.

Lemma human_number_bounds_witness : let p := mk_esc 0 0 0 [] [] PP_PKG_FLATSIZE in
  human_number (-1234567) p = Some (true, str "-1.23M", p) /\
  exists w prec k scale pfx p', human_number (-1234567) p
    = Some (true, field (esc_flags 0) w (str "-") (print_fixed prec k) ++ pfx, p')
    /\ si_pfx !! scale = Some pfx.
Proof.
  intros p. split; [vm_compute; reflexivity|].
  destruct (human_number_bounds (-1234567) p) as (w & prec & k & s & pfx & p' & H & Hp & _); [vm_compute; reflexivity|done|].
  exists w, prec, k, s, pfx, p'. split; [exact H|exact Hp].
Defined.

(** the letters of a code, in a context that allows it, are parsed as that
    code and nothing more, unless the letter after a code of one letter makes
    it a code of two. *)
Theorem format_code_roundtrip (c : fmt_code_t) (ctx : Z) (p : percent_esc) (rest : cstring) :
  c <> PP_END_MARKER -> Z.land (context (fmt c)) ctx = ctx ->
  (fmt_sub (fmt c) = NUL -> deref rest = NUL \/ lookup_code (fmt_main (fmt c)) (deref rest) ctx = None) ->
  format_code (letters c ++ rest) ctx p = Some (rest, set_fmt_code p c).
Proof. apply format_code_letters. Qed.

Lemma format_code_roundtrip_witness :
  format_code (str "rn rest") PP_r new_percent_esc = Some (str " rest", set_fmt_code new_percent_esc PP_PKG_REQUIREMENT_NAME).
Proof.
  apply (format_code_roundtrip PP_PKG_REQUIREMENT_NAME PP_r new_percent_esc (str " rest")); try discriminate.
  reflexivity.
Defined.
