(* ===== verification/PkgPrintf.v ===== *)
(** * pkg_printf: the handlers of the format codes and the loops over formats
    (libpkg/pkg_printf.c)

    A handler takes the data a format code is about and the [%]-escape.  Its
    [const void *] is the tagged union [data]; a handler given data of another
    kind has undefined behaviour, [None].  The handlers of lists run the loop
    of iterate_item over a format of their own, which calls handlers again:
    [fmt_handler] has a depth, one for the entry points, and [item_context]
    shows that a list is never printed inside an item.

    Parameters: the UCL emitter, and [strftime] of a [localtime] ([None] when
    the time has no local time).

    The flag [keep] of files and directories is not in their records: nothing
    but pkg_file_new and pkg_dir_new sets it. *)
From S2P Require Import Prelude CString UtHash Pkg Cprintf Printf.

(** ** Data *)

Inductive data :=
  | DPkg (p : pkg)
  | DObject (key : option cstring) (o : ucl)  (** an annotation, a category, a license *)
  | DShlib (name : cstring)
  | DDir (d : pkg_dir)
  | DFile (f : pkg_file)
  | DGroup (g : pkg_group)
  | DUser (u : pkg_user)
  | DOption (o : pkg_option)
  | DDep (d : pkg_dep)
  | DInt (z : Z)
  | DString (s : option cstring)
  | DNull.

Definition as_pkg (d : data) : option pkg := match d with DPkg p => Some p | _ => None end.
Definition as_object (d : data) : option (option cstring * ucl) := match d with DObject k o => Some (k, o) | _ => None end.
Definition as_shlib (d : data) : option cstring := match d with DShlib n => Some n | _ => None end.
Definition as_dir (d : data) : option pkg_dir := match d with DDir x => Some x | _ => None end.
Definition as_file (d : data) : option pkg_file := match d with DFile x => Some x | _ => None end.
Definition as_group (d : data) : option pkg_group := match d with DGroup x => Some x | _ => None end.
Definition as_user (d : data) : option pkg_user := match d with DUser x => Some x | _ => None end.
Definition as_option (d : data) : option pkg_option := match d with DOption x => Some x | _ => None end.
Definition as_dep (d : data) : option pkg_dep := match d with DDep x => Some x | _ => None end.
Definition as_int (d : data) : option Z := match d with DInt z => Some z | _ => None end.
Definition as_string (d : data) : option (option cstring) := match d with DString s => Some s | _ => None end.

Definition handler : Type := data -> percent_esc -> option printed.

(** pkg_file_keep, pkg_dir_keep *)
Definition pkg_file_keep (f : pkg_file) : bool := false.
Definition pkg_dir_keep (d : pkg_dir) : bool := false.

(** The keys and elements pkg_object_iterate visits; UCL_COUNT. *)
Definition ucl_entries (o : option ucl) : list (option cstring * ucl) :=
  match o with
  | None => []
  | Some (UArray l) => map (fun x => (None, x)) l
  | Some (UObject l) => map (fun kv => (Some kv.1, kv.2)) l
  | Some o => [(None, o)]
  end.

Definition pkg_object_count (o : option ucl) : Z :=
  match o with
  | Some (UArray l) => Z.of_nat (length l)
  | Some (UObject l) => Z.of_nat (length l)
  | Some (UString s) => Z.of_nat (length s)
  | _ => 0
  end.

Definition NEWLINE : cstring := [chr 10].

Section handlers.
Context (emit : ucl -> cstring).
Context (strftime : cstring -> Z -> option cstring).

(** ** Scalar handlers *)

Definition format_annotation_name : handler := fun data p =>
  '(key, _) ← as_object data; string_val key p.
Definition format_annotation_value : handler := fun data p =>
  '(_, o) ← as_object data; string_val (pkg_object_string emit o) p.
Definition format_shlib_name : handler := fun data p =>
  shlib ← as_shlib data; string_val (Some shlib) p.
Definition format_category_name : handler := fun data p =>
  '(_, o) ← as_object data; string_val (pkg_object_string emit o) p.

Definition format_directory_group : handler := fun data p =>
  dir ← as_dir data; string_val (Some (d_gname dir)) p.
Definition format_directory_keepflag : handler := fun data p =>
  dir ← as_dir data; bool_val (pkg_dir_keep dir) p.
Definition format_directory_path : handler := fun data p =>
  dir ← as_dir data; string_val (Some (d_path dir)) p.
Definition format_directory_perms : handler := fun data p =>
  dir ← as_dir data; mode_val (d_perm dir) p.
Definition format_directory_tryflag : handler := fun data p =>
  dir ← as_dir data; bool_val (d_try dir) p.
Definition format_directory_user : handler := fun data p =>
  dir ← as_dir data; string_val (Some (d_uname dir)) p.

Definition format_file_group : handler := fun data p =>
  file ← as_file data; string_val (Some (f_gname file)) p.
Definition format_file_keepflag : handler := fun data p =>
  file ← as_file data; bool_val (pkg_file_keep file) p.
Definition format_file_path : handler := fun data p =>
  file ← as_file data; string_val (Some (f_path file)) p.
Definition format_file_perms : handler := fun data p =>
  file ← as_file data; mode_val (f_perm file) p.
Definition format_file_sha256 : handler := fun data p =>
  file ← as_file data; string_val (Some (f_sum file)) p.
Definition format_file_user : handler := fun data p =>
  file ← as_file data; string_val (Some (f_uname file)) p.

Definition format_group_gidstr : handler := fun data p =>
  group ← as_group data; string_val (Some (g_gidstr group)) p.
Definition format_group_name : handler := fun data p =>
  group ← as_group data; string_val (Some (g_name group)) p.

Definition format_row_counter : handler := fun data p =>
  counter ← as_int data; int_val counter p.

Definition format_license_name : handler := fun data p =>
  '(_, o) ← as_object data; string_val (pkg_object_string emit o) p.

(** The handlers of a string attribute of the package. *)
Definition format_attr (attr : nat) : handler := fun data p =>
  pkg ← as_pkg data; string_val (pkg_get_string emit pkg attr) p.

Definition format_message : handler := format_attr PKG_MESSAGE.

Definition format_repo_ident : handler := fun data p =>
  pkg ← as_pkg data;
  let reponame :=
    match pkg_get_string emit pkg PKG_REPONAME with
    | Some s => Some s
    | None =>
        match pkg_object_find (pkg_get_object emit pkg PKG_ANNOTATIONS) (str "repository") with
        | Some rn => ucl_object_tostring rn
        | None => Some (str "unknown-repository")
        end
    end in
  string_val reponame p.

Definition format_option_name : handler := fun data p =>
  option ← as_option data; string_val (Some (pkg_option_opt option)) p.
Definition format_option_value : handler := fun data p =>
  option ← as_option data; string_val (Some (pkg_option_value option)) p.
Definition format_option_default : handler := fun data p =>
  option ← as_option data; string_val (Some (pkg_option_default_value option)) p.
Definition format_option_description : handler := fun data p =>
  option ← as_option data; string_val (Some (pkg_option_description option)) p.

Definition format_repo_path : handler := format_attr PKG_REPOPATH.

Definition format_char_string : handler := fun data p =>
  charstring ← as_string data; string_val charstring p.

Definition format_user_name : handler := fun data p =>
  user ← as_user data; string_val (Some (u_name user)) p.
Definition format_user_uidstr : handler := fun data p =>
  user ← as_user data; string_val (Some (u_uidstr user)) p.

Definition format_old_version : handler := format_attr PKG_OLD_VERSION.

Definition format_autoremove : handler := fun data p =>
  pkg ← as_pkg data; bool_val (pkg_get_bool emit pkg PKG_AUTOMATIC) p.

Definition format_comment : handler := format_attr PKG_COMMENT.

Definition format_dependency_lock : handler := fun data p =>
  dep ← as_dep data; bool_val (dep_locked dep) p.
Definition format_dependency_name : handler := fun data p =>
  dep ← as_dep data; string_val (Some (dep_name dep)) p.
Definition format_dependency_origin : handler := fun data p =>
  dep ← as_dep data; string_val (Some (dep_origin dep)) p.
Definition format_dependency_version : handler := fun data p =>
  dep ← as_dep data; string_val (Some (dep_version dep)) p.

Definition format_description : handler := format_attr PKG_DESC.

Definition format_lock_status : handler := fun data p =>
  pkg ← as_pkg data; bool_val (pkg_is_locked emit pkg) p.

(** The int64_t becomes an enum lic_t of 32 bits. *)
Definition format_license_logic : handler := fun data p =>
  pkg ← as_pkg data; liclog_val (pkg_get_int emit pkg PKG_LICENSE_LOGIC mod 2 ^ 32) p.

Definition format_maintainer : handler := format_attr PKG_MAINTAINER.
Definition format_name : handler := format_attr PKG_NAME.
Definition format_origin : handler := format_attr PKG_ORIGIN.
Definition format_prefix : handler := format_attr PKG_PREFIX.
Definition format_architecture : handler := format_attr PKG_ARCH.

Definition format_flatsize : handler := fun data p =>
  pkg ← as_pkg data; int_val (pkg_get_int emit pkg PKG_FLATSIZE) p.

(** The buffer is not initialised: when the text does not fit, strftime leaves
    it so. *)
Definition format_install_tstamp : handler := fun data p =>
  pkg ← as_pkg data;
  let timestamp := pkg_get_int emit pkg PKG_TIME in
  if Nat.eqb (length (item_fmt p)) 0 then int_val timestamp p
  else
    buf ← strftime (item_fmt p) timestamp;
    if (length buf <? 1024)%nat then Some (true, buf, p) else None.

Definition format_version : handler := format_attr PKG_VERSION.
Definition format_checksum : handler := format_attr PKG_CKSUM.

Definition PKG_FILE_CKSUM_CHARS : nat := 10.

Definition format_short_checksum : handler := fun data p =>
  pkg ← as_pkg data;
  let csum := match pkg_get_string emit pkg PKG_CKSUM with
              | Some checksum => take PKG_FILE_CKSUM_CHARS checksum
              | None => []
              end in
  string_val (Some csum) p.

Definition format_home_url : handler := format_attr PKG_WWW.

Definition format_literal_percent : handler := fun _ p => Some (true, str "%", p).
Definition format_unknown : handler := fun _ p => Some (false, str "%", p).

(** ** Item formats *)

Section items.
(** [fmt[code].fmt_handler] *)
Context (h : fmt_code_t -> handler).

(** What is printed, the position after it and the cleared escape. *)
Definition process_format_trailer (p : percent_esc) (fstart : cstring) (k : pkg) (d : data)
    (count : Z) (ctx : Z) : option (cstring * cstring * percent_esc) :=
  '(f, p) ← parse_format fstart ctx p;
  '(ok, text, p) ←
    (if fmt_code_t_beq (fmt_code p) PP_ROW_COUNTER then h (fmt_code p) (DInt count) p
     else if negb (is_format (fmt_code p)) then h (fmt_code p) DNull p
     else if struct_pkg (fmt (fmt_code p)) then h (fmt_code p) (DPkg k) p
     else h (fmt_code p) d p);
  Some (text, if (ok : bool) then f else drop 1 fstart, clear_percent_esc p).

(** The loop of iterate_item. *)
Fixpoint item_loop (fuel : nat) (k : pkg) (f : cstring) (d : data) (count ctx : Z) (p : percent_esc)
  : option cstring :=
  match fuel, f with
  | _, [] => Some []
  | O, _ => None
  | S fuel, c :: r =>
      if Ascii.eqb c "%" then
        '(text, f, p) ← process_format_trailer p f k d count ctx;
        rest ← item_loop fuel k f d count ctx p;
        Some (text ++ rest)
      else if Ascii.eqb c "\" then
        let '(text, f) := process_escape f in
        rest ← item_loop fuel k f d count ctx p;
        Some (text ++ rest)
      else
        rest ← item_loop fuel k r d count ctx p;
        Some (c :: rest)
  end.

Definition iterate_item (k : pkg) (format : cstring) (d : data) (count ctx : Z) : option cstring :=
  item_loop (length format) k format d count ctx new_percent_esc.

(** The loop of the list handlers: the separator before every item but the
    first, with the data and the number of the item that follows it. *)
Fixpoint list_loop (k : pkg) (p : percent_esc) (items : list data) (count ctx : Z) : option cstring :=
  match items with
  | [] => Some []
  | d :: items =>
      sep ← (if 1 <? count then iterate_item k (sep_fmt p) d count ctx else Some []);
      item ← iterate_item k (item_fmt p) d count ctx;
      rest ← list_loop k p items (count + 1) ctx;
      Some (sep ++ item ++ rest)
  end.

(** The body of a list handler; an iteration that does not end is [None]. *)
Definition format_list (k : pkg) (n : Z) (items : option (list data)) (item sep : cstring) (ctx : Z)
    (p : percent_esc) : option printed :=
  if has (flags p) ALTERNATE_FORMS then list_count n p
  else
    let p := set_list_defaults p item sep in
    items ← items;
    text ← list_loop k p items 1 ctx;
    Some (true, text, p).

Definition objects (o : option ucl) : list data := map (fun e => DObject e.1 e.2) (ucl_entries o).

Definition list_len (k : pkg) (l : pkg_list) : Z := Z.of_nat (pkg_list_count k l).

Definition format_annotations : handler := fun data p =>
  k ← as_pkg data;
  let an := pkg_get_object emit k PKG_ANNOTATIONS in
  format_list k (pkg_object_count an) (Some (objects an)) (str "%An: %Av" ++ NEWLINE) [] PP_A p.
Definition format_shlibs_required : handler := fun data p =>
  k ← as_pkg data;
  format_list k (list_len k PKG_SHLIBS_REQUIRED) (map DShlib <$> pkg_shlibs_required k)
    (str "%Bn" ++ NEWLINE) [] PP_B p.
Definition format_categories : handler := fun data p =>
  k ← as_pkg data;
  let obj := pkg_get_object emit k PKG_CATEGORIES in
  format_list k (pkg_object_count obj) (Some (objects obj)) (str "%Cn") (str ", ") PP_C p.
Definition format_directories : handler := fun data p =>
  k ← as_pkg data;
  format_list k (list_len k PKG_DIRS) (map DDir <$> pkg_dirs k) (str "%Dn" ++ NEWLINE) [] PP_D p.
Definition format_files : handler := fun data p =>
  k ← as_pkg data;
  format_list k (list_len k PKG_FILES) (map DFile <$> pkg_files k) (str "%Fn" ++ NEWLINE) [] PP_F p.
Definition format_groups : handler := fun data p =>
  k ← as_pkg data;
  format_list k (list_len k PKG_GROUPS) (map DGroup <$> pkg_groups k) (str "%Gn" ++ NEWLINE) [] PP_G p.
Definition format_licenses : handler := fun data p =>
  k ← as_pkg data;
  let obj := pkg_get_object emit k PKG_LICENSES in
  format_list k (pkg_object_count obj) (Some (objects obj)) (str "%Ln") (str " %l ") PP_L p.
Definition format_options : handler := fun data p =>
  k ← as_pkg data;
  format_list k (list_len k PKG_OPTIONS) (map DOption <$> pkg_options k) (str "%On %Ov" ++ NEWLINE) [] PP_O p.
Definition format_users : handler := fun data p =>
  k ← as_pkg data;
  format_list k (list_len k PKG_USERS) (map DUser <$> pkg_users k) (str "%Un" ++ NEWLINE) [] PP_U p.
Definition format_shlibs_provided : handler := fun data p =>
  k ← as_pkg data;
  format_list k (list_len k PKG_SHLIBS_PROVIDED) (map DShlib <$> pkg_shlibs_provided k)
    (str "%bn" ++ NEWLINE) [] PP_b p.
Definition format_dependencies : handler := fun data p =>
  k ← as_pkg data;
  format_list k (list_len k PKG_DEPS) (map DDep <$> pkg_deps k) (str "%dn-%dv" ++ NEWLINE) [] PP_d p.
Definition format_requirements : handler := fun data p =>
  k ← as_pkg data;
  format_list k (list_len k PKG_RDEPS) (map DDep <$> pkg_rdeps k) (str "%rn-%rv" ++ NEWLINE) [] PP_r p.
End items.

(** [fmt[code].fmt_handler]; lists inside lists to a depth. *)
Fixpoint fmt_handler (depth : nat) (c : fmt_code_t) : handler :=
  let h := match depth with O => fun _ _ _ => None | S depth => fmt_handler depth end in
  match c with
  | PP_PKG_ANNOTATION_NAME => format_annotation_name
  | PP_PKG_ANNOTATION_VALUE => format_annotation_value
  | PP_PKG_ANNOTATIONS => format_annotations h
  | PP_PKG_SHLIB_REQUIRED_NAME => format_shlib_name
  | PP_PKG_SHLIBS_REQUIRED => format_shlibs_required h
  | PP_PKG_CATEGORY_NAME => format_category_name
  | PP_PKG_CATEGORIES => format_categories h
  | PP_PKG_DIRECTORY_GROUP => format_directory_group
  | PP_PKG_DIRECTORY_KEEPFLAG => format_directory_keepflag
  | PP_PKG_DIRECTORY_PATH => format_directory_path
  | PP_PKG_DIRECTORY_PERMS => format_directory_perms
  | PP_PKG_DIRECTORY_TRYFLAG => format_directory_tryflag
  | PP_PKG_DIRECTORY_USER => format_directory_user
  | PP_PKG_DIRECTORIES => format_directories h
  | PP_PKG_FILE_GROUP => format_file_group
  | PP_PKG_FILE_KEEPFLAG => format_file_keepflag
  | PP_PKG_FILE_PATH => format_file_path
  | PP_PKG_FILE_PERMS => format_file_perms
  | PP_PKG_FILE_SHA256 => format_file_sha256
  | PP_PKG_FILE_USER => format_file_user
  | PP_PKG_FILES => format_files h
  | PP_PKG_GROUP_GIDSTR => format_group_gidstr
  | PP_PKG_GROUP_NAME => format_group_name
  | PP_PKG_GROUPS => format_groups h
  | PP_ROW_COUNTER => format_row_counter
  | PP_PKG_LICENSE_NAME => format_license_name
  | PP_PKG_LICENSES => format_licenses h
  | PP_PKG_MESSAGE => format_message
  | PP_PKG_REPO_IDENT => format_repo_ident
  | PP_PKG_OPTION_NAME => format_option_name
  | PP_PKG_OPTION_VALUE => format_option_value
  | PP_PKG_OPTION_DEFAULT => format_option_default
  | PP_PKG_OPTION_DESCRIPTION => format_option_description
  | PP_PKG_OPTIONS => format_options h
  | PP_PKG_REPO_PATH => format_repo_path
  | PP_PKG_CHAR_STRING => format_char_string
  | PP_PKG_USER_NAME => format_user_name
  | PP_PKG_USER_UIDSTR => format_user_uidstr
  | PP_PKG_USERS => format_users h
  | PP_PKG_OLD_VERSION => format_old_version
  | PP_PKG_AUTOREMOVE => format_autoremove
  | PP_PKG_SHLIB_PROVIDED_NAME => format_shlib_name
  | PP_PKG_SHLIBS_PROVIDED => format_shlibs_provided h
  | PP_PKG_COMMENT => format_comment
  | PP_PKG_DEPENDENCY_LOCK | PP_PKG_REQUIREMENT_LOCK => format_dependency_lock
  | PP_PKG_DEPENDENCY_NAME | PP_PKG_REQUIREMENT_NAME => format_dependency_name
  | PP_PKG_DEPENDENCY_ORIGIN | PP_PKG_REQUIREMENT_ORIGIN => format_dependency_origin
  | PP_PKG_DEPENDENCY_VERSION | PP_PKG_REQUIREMENT_VERSION => format_dependency_version
  | PP_PKG_DEPENDENCIES => format_dependencies h
  | PP_PKG_DESCRIPTION => format_description
  | PP_PKG_LOCK_STATUS => format_lock_status
  | PP_PKG_LICENSE_LOGIC => format_license_logic
  | PP_PKG_MAINTAINER => format_maintainer
  | PP_PKG_NAME => format_name
  | PP_PKG_ORIGIN => format_origin
  | PP_PKG_PREFIX => format_prefix
  | PP_PKG_ARCHITECTURE => format_architecture
  | PP_PKG_REQUIREMENTS => format_requirements h
  | PP_PKG_FLATSIZE => format_flatsize
  | PP_PKG_INSTALL_TIMESTAMP => format_install_tstamp
  | PP_PKG_CHECKSUM => format_checksum
  | PP_PKG_VERSION => format_version
  | PP_PKG_HOME_PAGE => format_home_url
  | PP_PKG_SHORT_CHECKSUM => format_short_checksum
  | PP_LITERAL_PERCENT => format_literal_percent
  | PP_UNKNOWN => format_unknown
  | PP_END_MARKER => fun _ _ => None
  end.

(** ** The entry points *)

(** [OutOfFuel] is a call that has not ended in so many turns of its loop. *)
Inductive outcome := Finished (text : cstring) | Undefined | OutOfFuel.

Definition prepend (text : cstring) (o : outcome) : outcome :=
  match o with Finished t => Finished (text ++ t) | o => o end.

(** What is printed and the position to go on from. *)
Definition process_format_main (p : percent_esc) (fstart fend : cstring) (d : data)
  : option (cstring * cstring * percent_esc) :=
  '(ok, text, p) ← fmt_handler 1 (fmt_code p) d p;
  Some (text, if (ok : bool) then fend else fstart, clear_percent_esc p).

(** va_arg: there must be an argument. *)
Definition next_arg (c : fmt_code_t) (ap : list data) : option (data * list data) :=
  if is_format c then match ap with [] => None | d :: ap => Some (d, ap) end
  else Some (DNull, ap).

Definition main_step (f : cstring) (p : percent_esc) (ap : list data)
  : option (cstring * cstring * percent_esc * list data) :=
  '(fend, p) ← parse_format f PP_PKG p;
  '(d, ap) ← next_arg (fmt_code p) ap;
  '(text, f, p) ← process_format_main p f fend d;
  Some (text, f, p, ap).

Fixpoint vprintf_loop (fuel : nat) (f : cstring) (p : percent_esc) (ap : list data) : outcome :=
  match fuel, f with
  | _, [] => Finished []
  | O, _ => OutOfFuel
  | S fuel, c :: r =>
      if Ascii.eqb c "%" then
        match main_step f p ap with
        | None => Undefined
        | Some (text, f, p, ap) => prepend text (vprintf_loop fuel f p ap)
        end
      else if Ascii.eqb c "\" then
        let '(text, f) := process_escape f in prepend text (vprintf_loop fuel f p ap)
      else prepend [c] (vprintf_loop fuel r p ap)
  end.

(** The text pkg_sbuf_vprintf appends. *)
Definition pkg_sbuf_vprintf (fuel : nat) (format : cstring) (ap : list data) : outcome :=
  vprintf_loop fuel format new_percent_esc ap.
End handlers.

(** pkg_vprintf, pkg_vfprintf, pkg_vdprintf: what is written and the count. *)
Definition pkg_vprintf (o : outcome) : option (cstring * Z) :=
  match o with
  | Finished text => Some (c_str text, Z.of_nat (length (c_str text)))
  | _ => None
  end.

(** pkg_vsnprintf: the buffer ([size] bytes with the NUL) and the count. *)
Definition pkg_vsnprintf (size : nat) (o : outcome) : option (option cstring * Z) :=
  match o with
  | Finished text =>
      Some (match size with O => None | S n => Some (take n (c_str text)) end,
            Z.of_nat (length (c_str text)))
  | _ => None
  end.

(** ** Kinds of data *)

Inductive kind :=
  | KPkg | KObject | KShlib | KDir | KFile | KGroup | KUser | KOption | KDep | KInt | KString | KNone.

#[export] Instance kind_eq_dec : EqDecision kind.
Proof. solve_decision. Defined.

Definition data_kind (d : data) : kind :=
  match d with
  | DPkg _ => KPkg | DObject _ _ => KObject | DShlib _ => KShlib | DDir _ => KDir | DFile _ => KFile
  | DGroup _ => KGroup | DUser _ => KUser | DOption _ => KOption | DDep _ => KDep
  | DInt _ => KInt | DString _ => KString | DNull => KNone
  end.

(** The data a code is about: the column of types in the comment at the top of
    pkg_printf.c. *)
Definition code_kind (c : fmt_code_t) : kind :=
  match c with
  | PP_PKG_ANNOTATION_NAME | PP_PKG_ANNOTATION_VALUE | PP_PKG_CATEGORY_NAME | PP_PKG_LICENSE_NAME => KObject
  | PP_PKG_SHLIB_REQUIRED_NAME | PP_PKG_SHLIB_PROVIDED_NAME => KShlib
  | PP_PKG_DIRECTORY_GROUP | PP_PKG_DIRECTORY_KEEPFLAG | PP_PKG_DIRECTORY_PATH
  | PP_PKG_DIRECTORY_PERMS | PP_PKG_DIRECTORY_TRYFLAG | PP_PKG_DIRECTORY_USER => KDir
  | PP_PKG_FILE_GROUP | PP_PKG_FILE_KEEPFLAG | PP_PKG_FILE_PATH | PP_PKG_FILE_PERMS
  | PP_PKG_FILE_SHA256 | PP_PKG_FILE_USER => KFile
  | PP_PKG_GROUP_GIDSTR | PP_PKG_GROUP_NAME => KGroup
  | PP_ROW_COUNTER => KInt
  | PP_PKG_OPTION_NAME | PP_PKG_OPTION_VALUE | PP_PKG_OPTION_DEFAULT | PP_PKG_OPTION_DESCRIPTION => KOption
  | PP_PKG_CHAR_STRING => KString
  | PP_PKG_USER_NAME | PP_PKG_USER_UIDSTR => KUser
  | PP_PKG_DEPENDENCY_LOCK | PP_PKG_DEPENDENCY_NAME | PP_PKG_DEPENDENCY_ORIGIN | PP_PKG_DEPENDENCY_VERSION
  | PP_PKG_REQUIREMENT_LOCK | PP_PKG_REQUIREMENT_NAME | PP_PKG_REQUIREMENT_ORIGIN
  | PP_PKG_REQUIREMENT_VERSION => KDep
  | PP_LITERAL_PERCENT | PP_UNKNOWN | PP_END_MARKER => KNone
  | _ => KPkg
  end.

(** The lists: the context and the kind of their items, and the formats of an
    item and a separator that a list without a trailer has. *)
Definition list_format (c : fmt_code_t) : option (Z * kind * cstring * cstring) :=
  match c with
  | PP_PKG_ANNOTATIONS => Some (PP_A, KObject, str "%An: %Av" ++ NEWLINE, [])
  | PP_PKG_SHLIBS_REQUIRED => Some (PP_B, KShlib, str "%Bn" ++ NEWLINE, [])
  | PP_PKG_CATEGORIES => Some (PP_C, KObject, str "%Cn", str ", ")
  | PP_PKG_DIRECTORIES => Some (PP_D, KDir, str "%Dn" ++ NEWLINE, [])
  | PP_PKG_FILES => Some (PP_F, KFile, str "%Fn" ++ NEWLINE, [])
  | PP_PKG_GROUPS => Some (PP_G, KGroup, str "%Gn" ++ NEWLINE, [])
  | PP_PKG_LICENSES => Some (PP_L, KObject, str "%Ln", str " %l ")
  | PP_PKG_OPTIONS => Some (PP_O, KOption, str "%On %Ov" ++ NEWLINE, [])
  | PP_PKG_USERS => Some (PP_U, KUser, str "%Un" ++ NEWLINE, [])
  | PP_PKG_SHLIBS_PROVIDED => Some (PP_b, KShlib, str "%bn" ++ NEWLINE, [])
  | PP_PKG_DEPENDENCIES => Some (PP_d, KDep, str "%dn-%dv" ++ NEWLINE, [])
  | PP_PKG_REQUIREMENTS => Some (PP_r, KDep, str "%rn-%rv" ++ NEWLINE, [])
  | _ => None
  end.

Definition is_list (c : fmt_code_t) : bool := match list_format c with Some _ => true | None => false end.

(** The contexts of items and the kind of their data. *)
Definition item_contexts : list (Z * kind) :=
  [ (PP_A, KObject); (PP_B, KShlib); (PP_C, KObject); (PP_D, KDir); (PP_F, KFile); (PP_G, KGroup);
    (PP_L, KObject); (PP_O, KOption); (PP_U, KUser); (PP_b, KShlib); (PP_d, KDep); (PP_r, KDep) ].

(** Inside an item a code is the row counter, needs no data, is about the
    package and no list, or is about the item. *)
Definition code_fits (ck : Z * kind) (c : fmt_code_t) : bool :=
  negb (Z.land (context (fmt c)) ck.1 =? ck.1)
  || fmt_code_t_beq c PP_ROW_COUNTER || negb (is_format c)
  || (negb (is_list c) && (if struct_pkg (fmt c) then bool_decide (code_kind c = KPkg)
                           else bool_decide (code_kind c = ck.2))).

Lemma items_fit : forallb (fun ck => forallb (code_fits ck) fmt_codes) item_contexts = true.
Proof. vm_compute. reflexivity. Qed.

Lemma struct_pkg_kind : forallb (fun c => negb (is_format c) || negb (struct_pkg (fmt c)) || bool_decide (code_kind c = KPkg)) fmt_codes = true.
Proof. vm_compute. reflexivity. Qed.

Lemma lists_in_contexts c ctx k item sep : list_format c = Some (ctx, k, item, sep) -> (ctx, k) ∈ item_contexts.
Proof.
  intros H. assert (bool_decide ((ctx, k) ∈ item_contexts) = true) as B; [|by apply bool_decide_eq_true in B].
  destruct c; try discriminate H; injection H as <- <- <- <-; reflexivity.
Qed.

(** ** Formats that parse *)

(** Every escape of an item format is parsed: no width overflows and no [%]
    is the last character. *)
Fixpoint item_parses (fuel : nat) (ctx : Z) (f : cstring) : bool :=
  match fuel, f with
  | _, [] => true
  | O, _ => false
  | S fuel, c :: r =>
      if Ascii.eqb c "%" then
        match parse_format f ctx new_percent_esc with
        | None => false
        | Some (f', p) => item_parses fuel ctx (if fmt_code_t_beq (fmt_code p) PP_UNKNOWN then r else f')
        end
      else if Ascii.eqb c "\" then item_parses fuel ctx (process_escape f).2
      else item_parses fuel ctx r
  end.

(** The escapes of a format in order, up to the first unknown code. *)
Fixpoint directives (fuel : nat) (f : cstring) : option (list percent_esc) :=
  match fuel, f with
  | _, [] => Some []
  | O, _ => None
  | S fuel, c :: r =>
      if Ascii.eqb c "%" then
        '(f', p) ← parse_format f PP_PKG new_percent_esc;
        if fmt_code_t_beq (fmt_code p) PP_UNKNOWN then Some [p]
        else ps ← directives fuel f'; Some (p :: ps)
      else if Ascii.eqb c "\" then directives fuel (process_escape f).2
      else directives fuel r
  end.

(** The formats of the items of a list parse. *)
Definition items_parse (p : percent_esc) : bool :=
  match list_format (fmt_code p) with
  | None => true
  | Some (ctx, _, item, sep) =>
      has (flags p) ALTERNATE_FORMS ||
      (let p := set_list_defaults p item sep in
       item_parses (length (item_fmt p)) ctx (item_fmt p) && item_parses (length (sep_fmt p)) ctx (sep_fmt p))
  end.

(** The kinds of the arguments a format takes. *)
Definition argument_kinds (ps : list percent_esc) : list kind :=
  map (fun p => code_kind (fmt_code p)) (List.filter (fun p => is_format (fmt_code p)) ps).

Section typed.
Context (emit : ucl -> cstring).
Context (strftime : cstring -> Z -> option cstring).

(** A package that can be printed: its lists end, and its numbers and counts
    are in the range of their types (the sizes not the least int64_t). *)
Record pkg_fit (k : pkg) : Prop := mk_pkg_fit {
  fit_lists : forall l, list_sound k l;
  fit_counts : forall l, Z.of_nat (pkg_list_count k l) <= INT_MAX;
  fit_objects : forall attr o, pkg_get_object emit k attr = Some o ->
    pkg_object_count (Some o) <= INT_MAX;
  fit_ints : forall attr, Z.abs (pkg_get_int emit k attr) <= LLONG_MAX }.

Definition data_fit (d : data) : Prop :=
  match d with DPkg k => pkg_fit k | DInt z => Z.abs z <= LLONG_MAX | _ => True end.

(** The local times in a format can be printed. *)
Definition strftime_fits (p : percent_esc) : Prop :=
  fmt_code p = PP_PKG_INSTALL_TIMESTAMP -> item_fmt p <> [] ->
  forall t, exists s, strftime (item_fmt p) t = Some s /\ (length s < 1024)%nat.

(** The handler of a code prints, but for an unknown code. *)
Definition handles (c : fmt_code_t) (r : option printed) : Prop :=
  exists text p, r = Some (negb (fmt_code_t_beq c PP_UNKNOWN), text, p).

Lemma handles_prints c r text : prints r text -> c <> PP_UNKNOWN -> handles c r.
Proof.
  intros [p ->] Hc. exists text, p. unfold handles.
  destruct (fmt_code_t_beq c PP_UNKNOWN) eqn:E; [by apply internal_fmt_code_t_dec_bl in E|done].
Qed.

Lemma int_val_handles c z p : Z.abs z <= LLONG_MAX -> 0 <= width p -> c <> PP_UNKNOWN -> handles c (int_val z p).
Proof.
  intros Hz Hw Hc. destruct (int_val_ok z p) as (s & H); [unfold LLONG_MAX in Hz; lia|done|].
  by eapply handles_prints.
Qed.

Lemma tstamp_handles k p : pkg_fit k -> 0 <= width p ->
  (item_fmt p <> [] -> forall t, exists s, strftime (item_fmt p) t = Some s /\ (length s < 1024)%nat) ->
  handles PP_PKG_INSTALL_TIMESTAMP (format_install_tstamp emit strftime (DPkg k) p).
Proof.
  intros Hk Hw Ht. unfold format_install_tstamp. cbn [as_pkg mbind option_bind].
  destruct (Nat.eqb_spec (length (item_fmt p)) 0) as [E|E].
  - apply int_val_handles; [apply (fit_ints _ Hk)|done|discriminate].
  - destruct (Ht ltac:(by intros E'; rewrite E' in E) (pkg_get_int emit k PKG_TIME)) as (s & -> & L).
    cbn [mbind option_bind]. rewrite (proj2 (Nat.ltb_lt _ _) L). by eexists _, _.
Qed.

Lemma scalar_handles depth c d p : is_list c = false -> c <> PP_END_MARKER ->
  (is_format c = true -> data_kind d = code_kind c) -> data_fit d -> 0 <= width p ->
  (c = PP_PKG_INSTALL_TIMESTAMP -> item_fmt p <> [] ->
     forall t, exists s, strftime (item_fmt p) t = Some s /\ (length s < 1024)%nat) ->
  handles c (fmt_handler emit strftime depth c d p).
Proof.
  intros Hl He Hk Hd Hw Ht.
  destruct c; try discriminate Hl; try (by destruct He); clear Hl He; destruct depth; cbn [fmt_handler];
    try (by eexists _, _); specialize (Hk eq_refl); destruct d; try discriminate Hk; clear Hk.
  all: try (eapply handles_prints; [|discriminate]; apply string_val_ok; exact Hw).
  all: try (edestruct bool_val_ok as (s & _ & H); [exact Hw|]; eapply handles_prints; [exact H|discriminate]).
  all: try (edestruct liclog_val_ok as (s & _ & H); [exact Hw|]; eapply handles_prints; [exact H|discriminate]).
  all: try (edestruct mode_val_ok as (s & H); [exact Hw|]; eapply handles_prints; [exact H|discriminate]).
  all: try (eapply int_val_handles; [|exact Hw|discriminate]; exact Hd || apply (fit_ints _ Hd)).
  all: apply tstamp_handles; [exact Hd|exact Hw|exact (Ht eq_refl)].
Qed.

(** *** Item formats *)

Lemma code_fits_context ck c : ck ∈ item_contexts -> c ∈ fmt_codes -> Z.land (context (fmt c)) ck.1 = ck.1 ->
  c = PP_ROW_COUNTER \/ is_format c = false \/
  (is_list c = false /\ (if struct_pkg (fmt c) then code_kind c = KPkg else code_kind c = ck.2)).
Proof.
  intros Hck Hc Hctx. pose proof items_fit as H. rewrite forallb_forall in H.
  specialize (H ck ltac:(by apply list_elem_of_In)). rewrite forallb_forall in H.
  specialize (H c ltac:(by apply list_elem_of_In)). unfold code_fits in H.
  rewrite Hctx, Z.eqb_refl in H. cbn [negb orb] in H.
  destruct (fmt_code_t_beq c PP_ROW_COUNTER) eqn:E; [left; by apply internal_fmt_code_t_dec_bl|].
  destruct (is_format c); [right; right|by right; left]. cbn [negb orb] in H.
  apply andb_true_iff in H as [H1 H2]. split; [by destruct (is_list c)|].
  destruct (struct_pkg (fmt c)); by apply bool_decide_eq_true in H2.
Qed.

Lemma unknown_beq c : c <> PP_UNKNOWN <-> fmt_code_t_beq c PP_UNKNOWN = false.
Proof.
  split; [|intros E ->; discriminate]. intros H.
  destruct (fmt_code_t_beq c PP_UNKNOWN) eqn:E; [by apply internal_fmt_code_t_dec_bl in E|done].
Qed.

Lemma parse_format_code f ctx p f' p' : ctx <> 0 -> parse_format f ctx p = Some (f', p') ->
  fmt_code p' <> PP_END_MARKER.
Proof.
  intros Hctx H E. apply parse_format_context in H. rewrite E in H. destruct H as [H|H]; [done|].
  change (context (fmt PP_END_MARKER)) with 0 in H. by rewrite Z.land_0_l in H.
Qed.

(** A trailer is only read at the top. *)
Lemma parse_format_item f ctx p f' p' : (Z.land ctx PP_PKG =? PP_PKG) = false ->
  parse_format f ctx p = Some (f', p') -> item_fmt p' = item_fmt p.
Proof.
  intros Hctx. unfold parse_format. rewrite Hctx. cbn [andb].
  assert (forall g q, item_fmt (field_modifier g q).2 = item_fmt q) as M.
  { induction g as [|c g IH]; intros q; cbn; [done|]. destruct (modifier_flag c); [|done]. by rewrite IH. }
  assert (forall g q g' q', field_width g q = Some (g', q') -> item_fmt q' = item_fmt q) as W.
  { induction g as [|c g IH]; intros q g' q'; cbn; [by intros [= _ <-]|].
    destruct (isdigit c); [|by intros [= _ <-]]. destruct (_ <? _); [done|]. by intros ->%IH. }
  specialize (M (drop 1 f) p). destruct (field_modifier (drop 1 f) p) as [f1 p1].
  cbn [snd] in M.   destruct (field_width f1 p1) as [[f2 p2]|] eqn:E2; [|done]. cbn [mbind option_bind].
  destruct (format_code f2 ctx p2) as [[f3 p3]|] eqn:E3; [|done]. cbn [mbind option_bind].
  intros [= <- <-]. apply W in E2. rewrite <- M, <- E2. clear -E3. revert E3. unfold format_code. destruct f2; [done|].
  by destruct (search_code _ _ _) as [[]|]; intros [= _ <-].
Qed.

Lemma item_context_facts ck : ck ∈ item_contexts -> ck.1 <> 0 /\ (Z.land ck.1 PP_PKG =? PP_PKG) = false.
Proof.
  intros H. assert (forallb (fun ck : Z * kind => negb (ck.1 =? 0) && negb (Z.land ck.1 PP_PKG =? PP_PKG)) item_contexts = true)
    as F by reflexivity.
  rewrite forallb_forall in F. specialize (F ck ltac:(by apply list_elem_of_In)).
  apply andb_true_iff in F as [F1 F2]. split; [|by apply negb_true_iff].
  intros E. by rewrite E in F1.
Qed.

(** One escape of an item. *)
Lemma process_format_trailer_ok ck depth k d count f f' p' : ck ∈ item_contexts ->
  pkg_fit k -> data_kind d = ck.2 -> data_fit d -> Z.abs count <= LLONG_MAX ->
  parse_format f ck.1 new_percent_esc = Some (f', p') ->
  exists text, process_format_trailer (fmt_handler emit strftime depth) new_percent_esc f k d count ck.1
    = Some (text, if fmt_code_t_beq (fmt_code p') PP_UNKNOWN then drop 1 f else f', new_percent_esc).
Proof.
  intros Hck Hk Hd Hdf Hc E. unfold process_format_trailer. rewrite E. cbn [mbind option_bind].
  destruct (item_context_facts ck Hck) as [Hc0 Hcp].
  pose proof (parse_format_width _ _ new_percent_esc _ _ ltac:(done) E) as Hw.
  pose proof (parse_format_item _ _ _ _ _ Hcp E) as Hi. cbn in Hi.
  pose proof (parse_format_code _ _ _ _ _ Hc0 E) as He.
  assert (forall d', (is_format (fmt_code p') = true -> data_kind d' = code_kind (fmt_code p')) -> data_fit d' ->
    is_list (fmt_code p') = false ->
    exists text q, fmt_handler emit strftime depth (fmt_code p') d' p'
      = Some (negb (fmt_code_t_beq (fmt_code p') PP_UNKNOWN), text, q)) as Hh.
  { intros d' H1 H2 H3. by apply scalar_handles. }
  assert (is_format (fmt_code p') = false -> is_list (fmt_code p') = false) as Hnl by by destruct (fmt_code p').
  destruct (parse_format_context _ _ _ _ _ E) as [Hu|Hctx].
  { rewrite Hu in *. destruct (Hh DNull ltac:(done) I eq_refl) as (t & q & E'). cbn in E' |- *.
    rewrite E'. cbn. by eexists. }
  destruct (code_fits_context ck (fmt_code p') Hck ltac:(by apply fmt_codes_all) Hctx) as [Hr|[Hf|[Hl Hs]]].
  - rewrite Hr in *. cbn [fmt_code_t_beq]. destruct (Hh (DInt count) ltac:(done) Hc eq_refl) as (t & q & ->).
    cbn. by eexists.
  - destruct (fmt_code_t_beq (fmt_code p') PP_ROW_COUNTER) eqn:B;
      [apply internal_fmt_code_t_dec_bl in B; by rewrite B in Hf|].
    rewrite Hf. cbn [negb].
    destruct (Hh DNull ltac:(by rewrite Hf) I (Hnl Hf)) as (t & q & ->). cbn.
    eexists. by destruct (fmt_code_t_beq _ _).
  - destruct (fmt_code_t_beq (fmt_code p') PP_ROW_COUNTER) eqn:B.
    { apply internal_fmt_code_t_dec_bl in B. rewrite B in *.
      destruct (Hh (DInt count) ltac:(done) Hc eq_refl) as (t & q & ->). cbn. by eexists. }
    destruct (is_format (fmt_code p')) eqn:Ef; cbn [negb].
    + destruct (struct_pkg (fmt (fmt_code p'))).
      * destruct (Hh (DPkg k) ltac:(done) Hk Hl) as (t & q & ->). cbn. eexists. by destruct (fmt_code_t_beq _ _).
      * destruct (Hh d ltac:(by rewrite Hd, Hs) Hdf Hl) as (t & q & ->). cbn. eexists. by destruct (fmt_code_t_beq _ _).
    + destruct (Hh DNull ltac:(done) I (Hnl eq_refl)) as (t & q & ->). cbn.
      eexists. by destruct (fmt_code_t_beq _ _).
Qed.

Lemma item_loop_ok ck depth k d count fuel f : ck ∈ item_contexts ->
  pkg_fit k -> data_kind d = ck.2 -> data_fit d -> Z.abs count <= LLONG_MAX ->
  item_parses fuel ck.1 f = true ->
  exists text, item_loop (fmt_handler emit strftime depth) fuel k f d count ck.1 new_percent_esc = Some text.
Proof.
  intros Hck Hk Hd Hdf Hc. revert f; induction fuel as [|fuel IH]; intros f; destruct f as [|c r];
    cbn [item_loop item_parses]; try discriminate; try (exists []; reflexivity).
  destruct (Ascii.eqb c "%").
  - destruct (parse_format (c :: r) ck.1 new_percent_esc) as [[f' p']|] eqn:E; [|done]. intros Hp.
    destruct (process_format_trailer_ok ck depth k d count _ _ _ Hck Hk Hd Hdf Hc E) as (t & ->).
    cbn [mbind option_bind]. change (drop 1 (c :: r)) with r. destruct (IH _ Hp) as (rest & ->). by eexists.
  - destruct (Ascii.eqb c "\").
    + intros Hp. destruct (process_escape (c :: r)) as [t f']. destruct (IH _ Hp) as (rest & H).
      cbn [snd] in H. rewrite H. by eexists.
    + intros Hp. destruct (IH _ Hp) as (rest & ->). by eexists.
Qed.

Lemma list_loop_ok ck depth k p items count : ck ∈ item_contexts -> pkg_fit k ->
  Forall (fun d => data_kind d = ck.2 /\ data_fit d) items ->
  0 <= count -> count + Z.of_nat (length items) <= LLONG_MAX ->
  item_parses (length (item_fmt p)) ck.1 (item_fmt p) = true ->
  item_parses (length (sep_fmt p)) ck.1 (sep_fmt p) = true ->
  exists text, list_loop (fmt_handler emit strftime depth) k p items count ck.1 = Some text.
Proof.
  intros Hck Hk Hall. revert count; induction Hall as [|d items [Hd Hdf] _ IH]; intros count H0 Hl Hi Hs;
    cbn [list_loop]; [by exists []|]. cbn [length] in Hl.
  assert (exists s, (if 1 <? count then iterate_item (fmt_handler emit strftime depth) k (sep_fmt p) d count ck.1
                     else Some []) = Some s) as [s ->].
  { destruct (1 <? count); [|by exists []]. apply item_loop_ok; try done. lia. }
  destruct (item_loop_ok ck depth k d count _ _ Hck Hk Hd Hdf ltac:(lia) Hi) as (i & Ei).
  cbn [mbind option_bind]. unfold iterate_item at 1. rewrite Ei. cbn [mbind option_bind].
  destruct (IH (count + 1) ltac:(lia) ltac:(lia) Hi Hs) as (rest & ->). by eexists.
Qed.

(** *** Lists *)

Lemma format_list_handles c ck depth k n items item sep p : ck ∈ item_contexts -> c <> PP_UNKNOWN ->
  pkg_fit k -> 0 <= width p -> 0 <= n <= INT_MAX ->
  Forall (fun d => data_kind d = ck.2 /\ data_fit d) items -> Z.of_nat (length items) <= INT_MAX ->
  has (flags p) ALTERNATE_FORMS ||
    (let p := set_list_defaults p item sep in
     item_parses (length (item_fmt p)) ck.1 (item_fmt p) && item_parses (length (sep_fmt p)) ck.1 (sep_fmt p)) = true ->
  handles c (format_list (fmt_handler emit strftime depth) k n (Some items) item sep ck.1 p).
Proof.
  intros Hck Hc Hk Hw Hn Hall Hl Hp. unfold format_list, INT_MAX in *.
  destruct (has (flags p) ALTERNATE_FORMS).
  - destruct (list_count_ok n p ltac:(lia) Hw) as (t & H). by eapply handles_prints.
  - cbn [orb] in Hp. cbv zeta in *. cbn [mbind option_bind].
    apply andb_true_iff in Hp as [Hp1 Hp2].
    destruct (list_loop_ok ck depth k (set_list_defaults p item sep) items 1 Hck Hk Hall ltac:(lia)
                ltac:(unfold LLONG_MAX; lia) Hp1 Hp2) as (t & ->).
    eapply handles_prints; [by eexists|done].
Qed.

Lemma items_forall {A} (f : A -> data) (kd : kind) vs : (forall x, data_kind (f x) = kd /\ data_fit (f x)) ->
  Forall (fun d => data_kind d = kd /\ data_fit d) (map f vs).
Proof. intros H. induction vs; constructor; auto. Qed.

Lemma objects_length o : (forall o', o = Some o' -> pkg_object_count o <= INT_MAX) ->
  Z.of_nat (length (objects o)) <= INT_MAX.
Proof.
  intros H. unfold objects. rewrite length_map. unfold INT_MAX in *.
  destruct o as [[]|]; cbn; try lia; rewrite length_map; by apply (H _ eq_refl).
Qed.

Lemma object_count_range o : (forall o', o = Some o' -> pkg_object_count o <= INT_MAX) ->
  0 <= pkg_object_count o <= INT_MAX.
Proof.
  intros H. destruct o as [o|]; [|unfold INT_MAX; cbn; lia]. split; [|by eapply H].
  destruct o; cbn; lia.
Qed.

Lemma objects_forall o : Forall (fun d => data_kind d = KObject /\ data_fit d) (objects o).
Proof. by apply items_forall. Qed.

Lemma list_handles depth c k p ctx kd item sep : list_format c = Some (ctx, kd, item, sep) ->
  pkg_fit k -> 0 <= width p ->
  has (flags p) ALTERNATE_FORMS ||
    (let p := set_list_defaults p item sep in
     item_parses (length (item_fmt p)) ctx (item_fmt p) && item_parses (length (sep_fmt p)) ctx (sep_fmt p)) = true ->
  handles c (fmt_handler emit strftime (S depth) c (DPkg k) p).
Proof.
  intros Hl Hk Hw Hp. pose proof (lists_in_contexts _ _ _ _ _ Hl) as Hck.
  pose proof (fit_counts _ Hk) as HC. pose proof (fit_lists _ Hk) as HL.
  assert (forall l, 0 <= list_len k l <= INT_MAX) as HC' by (intros l; unfold list_len; split; [lia|apply HC]).
  assert (forall attr, forall o, pkg_get_object emit k attr = Some o ->
    pkg_object_count (pkg_get_object emit k attr) <= INT_MAX) as HO.
  { intros attr o E. rewrite E. by eapply fit_objects. }
  destruct c; try discriminate Hl; injection Hl as <- <- <- <-; cbn [fmt_handler];
    [unfold format_annotations|unfold format_shlibs_required|unfold format_categories|unfold format_directories
    |unfold format_files|unfold format_groups|unfold format_licenses|unfold format_options|unfold format_users
    |unfold format_shlibs_provided|unfold format_dependencies|unfold format_requirements];
    cbn [as_pkg mbind option_bind]; cbv zeta.
  all: try (apply (format_list_handles _ (_, KObject)); try done;
            [by apply object_count_range, HO|apply objects_forall|by apply objects_length, HO]).
  all: match goal with |- context [format_list _ _ (list_len _ ?l)] =>
         let H := fresh in let vs := fresh "vs" in let Hv := fresh "Hv" in let L := fresh "L" in
         pose proof (HL l) as H; cbn [list_sound] in H; destruct H as (vs & Hv & L); rewrite Hv; cbn [fmap option_fmap option_map];
         (apply (format_list_handles _ _ _ _ _ _ _ _ _ Hck); [done|done|done|apply HC'|by apply items_forall| |exact Hp]);
         rewrite length_map; specialize (HC l); destruct_and?; lia
       end.
Qed.

(** ** The entry point *)

Definition directive_ok (p : percent_esc) : Prop := items_parse p = true /\ strftime_fits p.

(** One known escape at the top, with an argument of its kind. *)
Lemma main_step_ok f f' p ap : parse_format f PP_PKG new_percent_esc = Some (f', p) ->
  fmt_code p <> PP_UNKNOWN -> directive_ok p ->
  forall kinds, Forall2 (fun d kd => data_kind d = kd /\ data_fit d) ap
    ((if is_format (fmt_code p) then [code_kind (fmt_code p)] else []) ++ kinds) ->
  exists text ap', main_step emit strftime f new_percent_esc ap = Some (text, f', new_percent_esc, ap') /\
    Forall2 (fun d kd => data_kind d = kd /\ data_fit d) ap' kinds.
Proof.
  intros E Hu [Hi Ht] kinds Hap. unfold main_step. rewrite E. cbn [mbind option_bind].
  pose proof (parse_format_width _ _ new_percent_esc _ _ ltac:(done) E) as Hw.
  pose proof (parse_format_code f PP_PKG _ _ _ ltac:(by vm_compute) E) as He.
  assert (forall d, (is_format (fmt_code p) = true -> data_kind d = code_kind (fmt_code p)) -> data_fit d ->
    handles (fmt_code p) (fmt_handler emit strftime 1 (fmt_code p) d p)) as Hh.
  { intros d H1 H2. destruct (list_format (fmt_code p)) as [[[[ctx kd] item] sep]|] eqn:El.
    - unfold items_parse in Hi. rewrite El in Hi.
      assert (is_format (fmt_code p) = true /\ code_kind (fmt_code p) = KPkg) as [F1 F2]
        by (clear -El; by destruct (fmt_code p)).
      specialize (H1 F1). rewrite F2 in H1. destruct d; try discriminate H1.
      by eapply list_handles.
    - apply scalar_handles; try done. unfold is_list. by rewrite El. }
  unfold next_arg, process_format_main. apply unknown_beq in Hu.
  destruct (is_format (fmt_code p)) eqn:Ef; cbn [app] in Hap.
  - inversion Hap as [|d ? ap' ? [H1 H2] Hap']; subst. cbn [mbind option_bind].
    destruct (Hh d ltac:(done) H2) as (t & q & ->). rewrite Hu. cbn. by exists t, ap'.
  - cbn [mbind option_bind]. destruct (Hh DNull ltac:(done) I) as (t & q & ->). rewrite Hu. cbn. by exists t, ap.
Qed.

(** An escape with an unknown code leaves everything as it is. *)
Lemma main_step_unknown f f' p ap : parse_format f PP_PKG new_percent_esc = Some (f', p) ->
  fmt_code p = PP_UNKNOWN ->
  main_step emit strftime f new_percent_esc ap = Some (str "%", f, new_percent_esc, ap).
Proof.
  intros E Hu. unfold main_step, process_format_main. rewrite E. cbn [mbind option_bind]. rewrite Hu. reflexivity.
Qed.

Lemma vprintf_unknown fuel c r f' p ap : Ascii.eqb c "%" = true ->
  parse_format (c :: r) PP_PKG new_percent_esc = Some (f', p) -> fmt_code p = PP_UNKNOWN ->
  vprintf_loop emit strftime fuel (c :: r) new_percent_esc ap = OutOfFuel.
Proof.
  intros Hc E Hu. induction fuel as [|fuel IH]; [done|]. cbn [vprintf_loop].
  rewrite Hc, (main_step_unknown _ _ _ _ E Hu), IH. done.
Qed.

Lemma argument_kinds_cons p ps : argument_kinds (p :: ps) =
  (if is_format (fmt_code p) then [code_kind (fmt_code p)] else []) ++ argument_kinds ps.
Proof. unfold argument_kinds. cbn. by destruct (is_format (fmt_code p)). Qed.

Definition known (p : percent_esc) : bool := negb (fmt_code_t_beq (fmt_code p) PP_UNKNOWN).

(** A call with the right arguments ends when every code is known, and goes on
    for ever when one is not. *)
Lemma vprintf_loop_typed n f ps ap : directives n f = Some ps -> Forall directive_ok ps ->
  Forall2 (fun d kd => data_kind d = kd /\ data_fit d) ap (argument_kinds ps) ->
  (forallb known ps = true -> exists text, vprintf_loop emit strftime n f new_percent_esc ap = Finished text) /\
  (forallb known ps = false -> forall fuel, vprintf_loop emit strftime fuel f new_percent_esc ap = OutOfFuel).
Proof.
  revert f ps ap; induction n as [|n IH]; intros f ps ap; (destruct f as [|c r]; cbn [directives vprintf_loop];
    [intros [= <-] _ _; split; [by eexists|done]|]); [done|].
  assert (forall g t ps, directives n g = Some ps -> Forall directive_ok ps ->
     Forall2 (fun d kd => data_kind d = kd /\ data_fit d) ap (argument_kinds ps) ->
     (forallb known ps = true -> exists text, prepend t (vprintf_loop emit strftime n g new_percent_esc ap) = Finished text) /\
     (forallb known ps = false -> forall fuel, prepend t (vprintf_loop emit strftime fuel g new_percent_esc ap) = OutOfFuel)) as Hg.
  { intros g t qs H1 H2 H3. destruct (IH g qs ap H1 H2 H3) as [T F]. split.
    - intros Hk. destruct (T Hk) as [text ->]. by eexists.
    - intros Hk fuel. by rewrite (F Hk). }
  destruct (Ascii.eqb c "%") eqn:Ec.
  - destruct (parse_format (c :: r) PP_PKG new_percent_esc) as [[f' p]|] eqn:E; [|done]. cbn [mbind option_bind].
    destruct (fmt_code_t_beq (fmt_code p) PP_UNKNOWN) eqn:Eu.
    + intros [= <-] _ _. cbn [forallb]. unfold known. rewrite Eu. split; [done|]. intros _ fuel.
      apply internal_fmt_code_t_dec_bl in Eu. by eapply vprintf_unknown.
    + destruct (directives n f') as [qs|] eqn:Ed; [|done]. intros [= <-] Hok Hap.
      inversion Hok as [|? ? Hp Hok']; subst. rewrite argument_kinds_cons in Hap.
      assert (fmt_code p <> PP_UNKNOWN) as Hu by by apply unknown_beq.
      destruct (main_step_ok _ _ _ ap E Hu Hp _ Hap) as (t & ap' & Hm & Hap').
      destruct (IH f' qs ap' Ed Hok' Hap') as [T F].
      cbn [forallb]. unfold known at 1 3. rewrite Eu. cbn [negb andb]. rewrite Hm. split.
      * intros Hk. destruct (T Hk) as [text ->]. by eexists.
      * intros Hk [|fuel]; [done|]. cbn [vprintf_loop]. rewrite Ec, Hm, (F Hk). done.
  - destruct (Ascii.eqb c "\") eqn:Eb.
    + intros Hd Hok Hap. destruct (process_escape (c :: r)) as [t g] eqn:Ep. cbn [snd] in Hd.
      destruct (Hg g t ps Hd Hok Hap) as [T F]. split; [exact T|].
      intros Hk [|fuel]; [done|]. cbn [vprintf_loop]. rewrite Ec, Eb, Ep. by apply F.
    + intros Hd Hok Hap. destruct (Hg r [c] ps Hd Hok Hap) as [T F]. split; [exact T|].
      intros Hk [|fuel]; [done|]. cbn [vprintf_loop]. rewrite Ec, Eb. by apply F.
Qed.
End typed.

(** ** Quoting *)

(** The ways to write a byte in a format. *)
Inductive spelled : ascii -> cstring -> Prop :=
  | spelled_plain c : c <> "%"%char -> c <> "\"%char -> spelled c [c]
  | spelled_percent : spelled "%" (str "%%")
  | spelled_backslash : spelled "\" (str "\\")
  | spelled_hex c h l : isxdigit h = true -> isxdigit l = true -> code c = xdigit_value h * 16 + xdigit_value l ->
      spelled c (str "\x" ++ [h; l])
  | spelled_oct c a b d : isoctal a = true -> isoctal b = true -> isoctal d = true -> code a <= 51 ->
      code c = ((code a - 48) * 8 + (code b - 48)) * 8 + (code d - 48) ->
      spelled c (str "\" ++ [a; b; d]).

Lemma chr_code c : chr (code c) = c.
Proof. unfold chr, code. by rewrite N2Z.id, ascii_N_embedding. Qed.

Lemma process_escape_hex h l rest : isxdigit h = true -> isxdigit l = true ->
  process_escape (str "\x" ++ h :: l :: rest) = ([chr (xdigit_value h * 16 + xdigit_value l)], rest).
Proof.
  intros Hh Hl. change (process_escape (str "\x" ++ h :: l :: rest)) with (maybe_read_hex_byte ("x"%char :: h :: l :: rest)).
  unfold maybe_read_hex_byte. change (drop 1 ("x"%char :: h :: l :: rest)) with (h :: l :: rest).
  change (deref (h :: l :: rest)) with h. change (at_ (h :: l :: rest) 1) with l. by rewrite Hh, Hl.
Qed.

Lemma isoctal_range c : isoctal c = true <-> 48 <= code c <= 55.
Proof. unfold isoctal. rewrite andb_true_iff, !Z.leb_le. lia. Qed.

Lemma octal_not_simple a : isoctal a = true ->
  find (fun e : ascii * Z => Ascii.eqb a e.1) simple_escapes = None /\ Ascii.eqb a "x" = false.
Proof. by_byte a; done. Qed.

Lemma process_escape_oct a b d rest : isoctal a = true -> isoctal b = true -> isoctal d = true -> code a <= 51 ->
  process_escape (str "\" ++ a :: b :: d :: rest)
  = ([chr (((code a - 48) * 8 + (code b - 48)) * 8 + (code d - 48))], rest).
Proof.
  intros Ha Hb Hd Hr. destruct (octal_not_simple a Ha) as [E1 E2]. unfold process_escape.
  change (drop 1 (str "\" ++ a :: b :: d :: rest)) with (a :: b :: d :: rest).
  cbn [deref hd]. rewrite E1, E2, Ha. unfold read_oct_byte.
  pose proof (proj1 (isoctal_range a) Ha). pose proof (proj1 (isoctal_range b) Hb).
  cbn [oct_digits]. rewrite Ha, (proj2 (Z.ltb_lt 0 32)) by lia. cbn [andb].
  rewrite Hb, (proj2 (Z.ltb_lt (0 * 8 + (code a - 48)) 32)) by lia. cbn [andb].
  rewrite Hd, (proj2 (Z.ltb_lt ((0 * 8 + (code a - 48)) * 8 + (code b - 48)) 32)) by lia. cbn [andb].
  do 3 f_equal. 
Qed.

(** ["%%"] at the top. *)
Lemma parse_percent rest : parse_format ("%"%char :: "%"%char :: rest) PP_PKG new_percent_esc
  = Some (rest, set_fmt_code new_percent_esc PP_LITERAL_PERCENT).
Proof.
  unfold parse_format. change (drop 1 ("%"%char :: "%"%char :: rest)) with ("%"%char :: rest).
  change (field_modifier ("%"%char :: rest) new_percent_esc) with ("%"%char :: rest, new_percent_esc).
  cbn beta iota. change (field_width ("%"%char :: rest) new_percent_esc) with (Some ("%"%char :: rest, new_percent_esc)).
  cbn [mbind option_bind].
  assert (format_code ("%"%char :: rest) PP_PKG new_percent_esc
    = Some (rest, set_fmt_code new_percent_esc PP_LITERAL_PERCENT)) as ->; [|reflexivity].
  apply (format_code_letters PP_LITERAL_PERCENT PP_PKG new_percent_esc rest); [discriminate|reflexivity|].
  intros _. destruct (Ascii.eqb_spec (deref rest) NUL) as [|N]; [by left|right].
  apply eq_None_not_Some. intros [c Hc]. unfold lookup_code in Hc. apply find_some in Hc as [Hin Hc].
  apply andb_true_iff in Hc as [Hc H2]. apply andb_true_iff in Hc as [_ H1].
  assert (forallb (fun c => negb (Ascii.eqb (fmt_main (fmt c)) "%") || Ascii.eqb (fmt_sub (fmt c)) NUL) fmt_codes = true)
    as F by reflexivity.
  rewrite forallb_forall in F. specialize (F c Hin).
  change (fmt_main (fmt PP_LITERAL_PERCENT)) with "%"%char in H1. rewrite H1 in F.
  apply Ascii.eqb_eq in H2. rewrite H2 in F. by apply Ascii.eqb_eq in F.
Qed.

Lemma main_step_percent emit strftime rest ap :
  main_step emit strftime ("%"%char :: "%"%char :: rest) new_percent_esc ap = Some (str "%", rest, new_percent_esc, ap).
Proof. unfold main_step. rewrite parse_percent. reflexivity. Qed.

Lemma vprintf_spelled emit strftime c part n rest ap : spelled c part ->
  vprintf_loop emit strftime (S n) (part ++ rest) new_percent_esc ap
  = prepend [c] (vprintf_loop emit strftime n rest new_percent_esc ap).
Proof.
  intros H. destruct H as [c H1 H2| | |c h l Hh Hl Hc|c a b d Ha Hb Hd Hr Hc].
  - cbn [app vprintf_loop]. apply Ascii.eqb_neq in H1, H2. by rewrite H1, H2.
  - cbn [str String.list_ascii_of_string app vprintf_loop]. change (Ascii.eqb "%" "%") with true. cbn iota.
    by rewrite main_step_percent.
  - reflexivity.
  - pose proof (process_escape_hex h l rest Hh Hl) as E. rewrite <- Hc, chr_code in E.
    cbn [str String.list_ascii_of_string app vprintf_loop] in *. rewrite E. reflexivity.
  - pose proof (process_escape_oct a b d rest Ha Hb Hd Hr) as E. rewrite <- Hc, chr_code in E.
    cbn [str String.list_ascii_of_string app vprintf_loop] in *. rewrite E. reflexivity.
Qed.

(** ** Lists without a trailer *)

Definition null_text (s : option cstring) : cstring := default (str "(null)") s.

Section default_lists.
Context (emit : ucl -> cstring).
Context (strftime : cstring -> Z -> option cstring).

(** An item of a list printed with its default format. *)
Definition item_text (c : fmt_code_t) (d : data) : cstring :=
  match c, d with
  | PP_PKG_ANNOTATIONS, DObject key o => null_text key ++ str ": " ++ null_text (pkg_object_string emit o) ++ NEWLINE
  | (PP_PKG_SHLIBS_REQUIRED | PP_PKG_SHLIBS_PROVIDED), DShlib name => name ++ NEWLINE
  | (PP_PKG_CATEGORIES | PP_PKG_LICENSES), DObject _ o => null_text (pkg_object_string emit o)
  | PP_PKG_DIRECTORIES, DDir d => d_path d ++ NEWLINE
  | PP_PKG_FILES, DFile f => f_path f ++ NEWLINE
  | PP_PKG_GROUPS, DGroup g => g_name g ++ NEWLINE
  | PP_PKG_USERS, DUser u => u_name u ++ NEWLINE
  | PP_PKG_OPTIONS, DOption o => pkg_option_opt o ++ str " " ++ pkg_option_value o ++ NEWLINE
  | (PP_PKG_DEPENDENCIES | PP_PKG_REQUIREMENTS), DDep d => dep_name d ++ str "-" ++ dep_version d ++ NEWLINE
  | _, _ => []
  end.

Definition liclog_text (l : liclog) : cstring :=
  match l with PP_LIC_SINGLE => str "single" | PP_LIC_OR => str "or" | PP_LIC_AND => str "and" end.

(** The separator. *)
Definition separator_text (c : fmt_code_t) (k : pkg) : cstring :=
  match c with
  | PP_PKG_CATEGORIES => str ", "
  | PP_PKG_LICENSES =>
      str " " ++ liclog_text (liclog_of (pkg_get_int emit k PKG_LICENSE_LOGIC mod 2 ^ 32)) ++ str " "
  | _ => []
  end.

(** The items of a list; [None] when its iteration does not end. *)
Definition list_items (c : fmt_code_t) (k : pkg) : option (list data) :=
  match c with
  | PP_PKG_ANNOTATIONS => Some (objects (pkg_get_object emit k PKG_ANNOTATIONS))
  | PP_PKG_SHLIBS_REQUIRED => map DShlib <$> pkg_shlibs_required k
  | PP_PKG_CATEGORIES => Some (objects (pkg_get_object emit k PKG_CATEGORIES))
  | PP_PKG_DIRECTORIES => map DDir <$> pkg_dirs k
  | PP_PKG_FILES => map DFile <$> pkg_files k
  | PP_PKG_GROUPS => map DGroup <$> pkg_groups k
  | PP_PKG_LICENSES => Some (objects (pkg_get_object emit k PKG_LICENSES))
  | PP_PKG_OPTIONS => map DOption <$> pkg_options k
  | PP_PKG_USERS => map DUser <$> pkg_users k
  | PP_PKG_SHLIBS_PROVIDED => map DShlib <$> pkg_shlibs_provided k
  | PP_PKG_DEPENDENCIES => map DDep <$> pkg_deps k
  | PP_PKG_REQUIREMENTS => map DDep <$> pkg_rdeps k
  | _ => None
  end.

Fixpoint join (sep : cstring) (l : list cstring) : cstring :=
  match l with
  | [] => []
  | [s] => s
  | s :: l => s ++ sep ++ join sep l
  end.

Lemma string_val_plain s p : flags p = 0 -> width p = 0 -> exists q, string_val s p = Some (true, null_text s, q).
Proof.
  intros Hf Hw. destruct (string_val_ok s p ltac:(lia)) as [q ->]. exists q. by rewrite Hf, Hw.
Qed.

Lemma liclog_val_plain l p : flags p = 0 -> width p = 0 ->
  exists q, liclog_val l p = Some (true, liclog_text (liclog_of l), q).
Proof.
  intros Hf Hw.
  destruct (string_val_plain (Some (liclog_text (liclog_of l))) (clear_flags p ALTERNATE_FORMS)) as [q H];
    [cbn; by rewrite Hf|done|].
  exists q. unfold liclog_val. rewrite Hf. destruct (liclog_of l); exact H.
Qed.

(** The handler of an escape without flags is run by its equation [H]. *)
Lemma item_loop_percent h fuel k f d count ctx f' p text q :
  parse_format ("%"%char :: f) ctx new_percent_esc = Some (f', p) ->
  is_format (fmt_code p) = true -> fmt_code p <> PP_ROW_COUNTER ->
  h (fmt_code p) (if struct_pkg (fmt (fmt_code p)) then DPkg k else d) p = Some (true, text, q) ->
  item_loop h (S fuel) k ("%"%char :: f) d count ctx new_percent_esc
  = (rest ← item_loop h fuel k f' d count ctx new_percent_esc; Some (text ++ rest)).
Proof.
  intros E Hf Hr Hh. cbn [item_loop]. change (Ascii.eqb "%" "%") with true. cbn iota.
  unfold process_format_trailer. rewrite E. cbn [mbind option_bind].
  destruct (fmt_code_t_beq (fmt_code p) PP_ROW_COUNTER) eqn:B; [by apply internal_fmt_code_t_dec_bl in B|].
  rewrite Hf. cbn [negb]. destruct (struct_pkg (fmt (fmt_code p))); by rewrite Hh.
Qed.

Lemma item_loop_plain h n k c r d count ctx p : Ascii.eqb c "%" = false -> Ascii.eqb c "\" = false ->
  item_loop h (S n) k (c :: r) d count ctx p = (rest ← item_loop h n k r d count ctx p; Some (c :: rest)).
Proof. intros H1 H2. cbn [item_loop]. by rewrite H1, H2. Qed.

Lemma item_loop_nil h n k d count ctx p : item_loop h n k [] d count ctx p = Some [].
Proof. by destruct n. Qed.

(** Runs one escape; [val] is the lemma about the printer it ends in. *)
Ltac item_escape val :=
  match goal with
  | |- context [item_loop ?h (S ?n) ?k ("%"%char :: ?f) ?d ?count ?ctx new_percent_esc] =>
      let r := eval vm_compute in (parse_format ("%"%char :: f) ctx new_percent_esc) in
      match r with
      | Some (?f', ?p) =>
          let q := fresh "q" in let Hq := fresh "Hq" in
          let s := open_constr:(_) in destruct (val s p eq_refl eq_refl) as [q Hq];
          rewrite (item_loop_percent h n k f d count ctx f' p _ q
            ltac:(vm_compute; reflexivity) eq_refl ltac:(discriminate) Hq)
      end
  end.

Lemma item_text_ok c ctx kd item sep k d count : list_format c = Some (ctx, kd, item, sep) -> data_kind d = kd ->
  iterate_item (fmt_handler emit strftime 0) k item d count ctx = Some (item_text c d).
Proof.
  intros Hl Hd.
  destruct c; try discriminate Hl; injection Hl as <- <- <- <-; destruct d; try discriminate Hd;
    unfold iterate_item; cbn [length str String.list_ascii_of_string app NEWLINE];
    repeat first [rewrite item_loop_plain by reflexivity|rewrite item_loop_nil|item_escape string_val_plain];
    cbn [mbind option_bind]; rewrite ?app_nil_r; reflexivity.
Qed.

Lemma separator_text_ok c ctx kd item sep k d count : list_format c = Some (ctx, kd, item, sep) ->
  iterate_item (fmt_handler emit strftime 0) k sep d count ctx = Some (separator_text c k).
Proof.
  intros Hl.
  destruct c; try discriminate Hl; injection Hl as <- <- <- <-; unfold iterate_item;
    cbn [length str String.list_ascii_of_string];
    repeat first [rewrite item_loop_plain by reflexivity|rewrite item_loop_nil|item_escape liclog_val_plain];
    reflexivity.
Qed.

Lemma join_cons sep x l : join sep (x :: l) = x ++ concat (map (fun y => sep ++ y) l).
Proof.
  revert x; induction l as [|y l IH]; intros x; [cbn; by rewrite app_nil_r|].
  change (join sep (x :: y :: l)) with (x ++ sep ++ join sep (y :: l)). rewrite IH. cbn. by rewrite <- app_assoc.
Qed.

Lemma list_loop_join c ctx kd item sep k p items : list_format c = Some (ctx, kd, item, sep) ->
  item_fmt p = item -> sep_fmt p = sep -> Forall (fun d => data_kind d = kd) items ->
  list_loop (fmt_handler emit strftime 0) k p items 1 ctx
    = Some (join (separator_text c k) (map (item_text c) items)).
Proof.
  intros Hl Hi Hs Hall.
  assert (forall items count, Forall (fun d => data_kind d = kd) items -> 2 <= count ->
    list_loop (fmt_handler emit strftime 0) k p items count ctx
      = Some (concat (map (fun y => separator_text c k ++ y) (map (item_text c) items)))) as H2.
  { clear items Hall. intros items. induction items as [|d items IH]; intros count Hall Hc; [done|].
    inversion Hall as [|? ? Hd Hall']; subst. cbn [list_loop]. rewrite (proj2 (Z.ltb_lt 1 count)) by lia.
    rewrite (separator_text_ok _ _ _ _ _ k d count Hl). cbn [mbind option_bind].
    rewrite (item_text_ok _ _ _ _ _ k d count Hl eq_refl). cbn [mbind option_bind].
    rewrite IH by (done || lia). cbn. by rewrite <- app_assoc. }
  destruct Hall as [|d items Hd Hall]; [done|]. cbn [list_loop]. change (1 <? 1) with false. cbn [mbind option_bind].
  subst item. rewrite (item_text_ok _ _ _ _ _ k d 1 Hl Hd). cbn [mbind option_bind].
  rewrite (H2 _ _ Hall) by lia. cbn [mbind option_bind map]. by rewrite join_cons.
Qed.

Lemma list_items_kind c ctx kd item sep k items : list_format c = Some (ctx, kd, item, sep) ->
  list_items c k = Some items -> Forall (fun d => data_kind d = kd) items.
Proof.
  intros Hl. assert (forall A (f : A -> data) (o : option (list A)), (forall x, data_kind (f x) = kd) ->
    map f <$> o = Some items -> Forall (fun d => data_kind d = kd) items) as H.
  { intros A f o Hf (vs & _ & ->)%fmap_Some_1. apply Forall_map. by apply Forall_true. }
  assert (forall o, kd = KObject -> Forall (fun d => data_kind d = kd) (objects o)) as HO.
  { intros o ->. eapply Forall_impl; [exact (objects_forall emit o)|]. by intros d [? _]. }
  destruct c; try discriminate Hl; injection Hl as <- <- <- <-; cbn [list_items];
    first [intros Hm; refine (H _ _ _ _ Hm); reflexivity|intros [= <-]; exact (HO _ eq_refl)].
Qed.

Lemma set_list_defaults_fresh p item sep : trailer_status p = 0 -> item_fmt p = [] -> sep_fmt p = [] ->
  item_fmt (set_list_defaults p item sep) = item /\ sep_fmt (set_list_defaults p item sep) = sep.
Proof. destruct p as [f w t i s c]. cbn [trailer_status item_fmt sep_fmt]. by intros -> -> ->. Qed.

Lemma format_list_join c ctx kd item sep k n items p : list_format c = Some (ctx, kd, item, sep) ->
  flags p = 0 -> trailer_status p = 0 -> item_fmt p = [] -> sep_fmt p = [] ->
  Forall (fun d => data_kind d = kd) items ->
  exists q, format_list (fmt_handler emit strftime 0) k n (Some items) item sep ctx p
    = Some (true, join (separator_text c k) (map (item_text c) items), q).
Proof.
  intros Hl Hf Ht Hi Hs Hall. unfold format_list. rewrite Hf. change (has 0 ALTERNATE_FORMS) with false. cbn iota zeta.
  cbn [mbind option_bind]. erewrite (list_loop_join c ctx kd item sep); [by eexists|exact Hl| | |exact Hall];
    by apply set_list_defaults_fresh.
Qed.

(** The handler of a list without flags or a trailer. *)
Lemma list_handler_join c ctx kd item sep k p items : list_format c = Some (ctx, kd, item, sep) ->
  list_items c k = Some items ->
  flags p = 0 -> trailer_status p = 0 -> item_fmt p = [] -> sep_fmt p = [] ->
  exists q, fmt_handler emit strftime 1 c (DPkg k) p
    = Some (true, join (separator_text c k) (map (item_text c) items), q).
Proof.
  intros Hl Hitems Hf Ht Hi Hs. pose proof (list_items_kind _ _ _ _ _ _ _ Hl Hitems) as Hall.
  pose proof (fun n => format_list_join c ctx kd item sep k n items p Hl Hf Ht Hi Hs Hall) as H.
  destruct c; try discriminate Hl; injection Hl as <- <- <- <-; cbn [list_items] in Hitems; cbn [fmt_handler];
    [unfold format_annotations|unfold format_shlibs_required|unfold format_categories|unfold format_directories
    |unfold format_files|unfold format_groups|unfold format_licenses|unfold format_options|unfold format_users
    |unfold format_shlibs_provided|unfold format_dependencies|unfold format_requirements];
    cbn [as_pkg mbind option_bind]; rewrite Hitems; apply H.
Qed.

Lemma letters_parse c ctx kd item sep : list_format c = Some (ctx, kd, item, sep) ->
  parse_format (str "%" ++ letters c) PP_PKG new_percent_esc = Some ([], set_fmt_code new_percent_esc c).
Proof. intros Hl. destruct c; try discriminate Hl; vm_compute; reflexivity. Qed.

Lemma default_list_prints c k items : is_list c = true -> list_items c k = Some items ->
  pkg_sbuf_vprintf emit strftime 1 (str "%" ++ letters c) [DPkg k]
  = Finished (join (separator_text c k) (map (item_text c) items)).
Proof.
  intros Hc Hitems. unfold is_list in Hc.
  destruct (list_format c) as [[[[ctx kd] item] sep]|] eqn:Hl; [|done].
  pose proof (letters_parse _ _ _ _ _ Hl) as E.
  destruct (list_handler_join c ctx kd item sep k (set_fmt_code new_percent_esc c) items Hl Hitems) as [q Hq]; try done.
  assert (is_format c = true) as Hf by by destruct c.
  unfold pkg_sbuf_vprintf, letters in *. cbn [str String.list_ascii_of_string app] in *. cbn [vprintf_loop].
  change (Ascii.eqb "%" "%") with true. cbn iota. unfold main_step. rewrite E. cbn [mbind option_bind].
  unfold next_arg. cbn [fmt_code set_fmt_code]. rewrite Hf. cbn [mbind option_bind].
  unfold process_format_main. cbn [fmt_code set_fmt_code].
  change (set_fmt_code new_percent_esc c) with (mk_esc 0 0 0 [] [] c) in Hq.
  unfold set_fmt_code. cbn [flags width trailer_status item_fmt sep_fmt new_percent_esc].
  rewrite Hq. cbn. by rewrite app_nil_r.
Qed.
End default_lists.

(** * Properties *)

(** C1: pkg_printf is type-safe: called with arguments of the kinds its format
    asks for, on packages whose lists end, it prints; no handler is given data
    of another kind, inside the items of lists included, and as many turns of
    the loop as the format has characters are enough. *)
Theorem pkg_sbuf_vprintf_typed (emit : ucl -> cstring) (strftime : cstring -> Z -> option cstring)
  (format : cstring) (ps : list percent_esc) (ap : list data) :
  directives (length format) format = Some ps -> forallb known ps = true ->
  Forall (directive_ok strftime) ps ->
  Forall2 (fun d kd => data_kind d = kd /\ data_fit emit d) ap (argument_kinds ps) ->
  exists text, pkg_sbuf_vprintf emit strftime (length format) format ap = Finished text.
Proof. intros Hd Hk Hok Hap. by apply (vprintf_loop_typed emit strftime _ _ ps ap Hd Hok Hap). Qed.

(** A package with a name, a version and two dependencies. *)
Definition sample_ops : list pkg_op :=
  [ OpSet [(PKG_NAME, ArgString (Some (str "zsh"))); (PKG_FLATSIZE, ArgInt 4096)];
    OpDep (str "pcre") (str "devel/pcre") (str "8.36") false;
    OpDep (str "gettext") (str "devel/gettext") (str "0.19") true ].

Definition sample_pkg : pkg := default (pkg_new PKG_FILE) (run_ops false sample_ops (pkg_new PKG_FILE)).

Lemma sample_pkg_fit emit : pkg_fit emit sample_pkg.
Proof.
  assert (wf_pkg sample_pkg) as Hw.
  { assert (run_ops false sample_ops (pkg_new PKG_FILE) = Some sample_pkg) as E by (vm_compute; reflexivity).
    eapply wf_run; [apply wf_pkg_new| |exact E]. by repeat constructor. }
  split.
  - intros l. by apply wf_list_sound.
  - intros []; vm_compute; discriminate.
  - intros attr o H. exfalso. revert H.
    do 33 (destruct attr as [|attr]; [intros H; vm_compute in H; discriminate H|]). by intros H.
  - intros attr. do 33 (destruct attr as [|attr]; [vm_compute; discriminate|]). done.
Qed.

Lemma pkg_sbuf_vprintf_typed_witness : let format := str "%-8n %#d %S:%d%{%dn-%dv%|, %}\n" in
  let ap := [DPkg sample_pkg; DPkg sample_pkg; DString (Some (str "deps")); DPkg sample_pkg] in
  pkg_sbuf_vprintf (fun _ => []) (fun _ _ => None) (length format) format ap
    = Finished (str "zsh      2 deps:pcre-8.36, gettext-0.19" ++ NEWLINE) /\
  exists text, pkg_sbuf_vprintf (fun _ => []) (fun _ _ => None) (length format) format ap = Finished text.
Proof.
  intros format ap. split; [vm_compute; reflexivity|].
  assert (exists ps, directives (length format) format = Some ps /\ forallb known ps = true /\
    Forall (directive_ok (fun _ _ => None)) ps /\ argument_kinds ps = [KPkg; KPkg; KString; KPkg]) as (ps & H1 & H2 & H3 & H4).
  { eexists. split; [vm_compute; reflexivity|]. split; [reflexivity|]. split; [|reflexivity].
    repeat constructor; try (vm_compute; reflexivity); intros E; discriminate E. }
  apply (pkg_sbuf_vprintf_typed _ _ format ps ap H1 H2 H3). rewrite H4.
  pose proof (sample_pkg_fit (fun _ => [])) as Hf.
  repeat (constructor; [split; [reflexivity|exact Hf || exact I]|]). constructor.
Defined.

(** C2: with such arguments pkg_printf ends if and only if every code at the
    top of its format is known: at an unknown code it prints a percent sign
    and starts over at the same place, for ever. *)
Theorem pkg_sbuf_vprintf_ends_iff (emit : ucl -> cstring) (strftime : cstring -> Z -> option cstring)
  (format : cstring) (ps : list percent_esc) (ap : list data) :
  directives (length format) format = Some ps -> Forall (directive_ok strftime) ps ->
  Forall2 (fun d kd => data_kind d = kd /\ data_fit emit d) ap (argument_kinds ps) ->
  (exists fuel, pkg_sbuf_vprintf emit strftime fuel format ap <> OutOfFuel) <-> forallb known ps = true.
Proof.
  intros Hd Hok Hap. destruct (vprintf_loop_typed emit strftime _ _ ps ap Hd Hok Hap) as [T F].
  unfold pkg_sbuf_vprintf. split.
  - intros [fuel H]. destruct (forallb known ps); [done|]. by rewrite (F eq_refl fuel) in H.
  - intros Hk. exists (length format). by destruct (T Hk) as [text ->].
Qed.

(** An unterminated trailer is no trailer: what follows the list is an unknown
    code. *)
Lemma pkg_sbuf_vprintf_ends_iff_witness : let format := str "%n %d%{%dn" in
  (exists fuel, pkg_sbuf_vprintf (fun _ => []) (fun _ _ => None) fuel format [DPkg sample_pkg; DPkg sample_pkg] <> OutOfFuel)
  <-> false = true.
Proof.
  intros format.
  assert (exists ps, directives (length format) format = Some ps /\ forallb known ps = false /\
    Forall (directive_ok (fun _ _ => None)) ps /\ argument_kinds ps = [KPkg; KPkg]) as (ps & H1 & H2 & H3 & H4).
  { eexists. split; [vm_compute; reflexivity|]. split; [reflexivity|]. split; [|reflexivity].
    repeat constructor; try (vm_compute; reflexivity); intros E; discriminate E. }
  pose proof (sample_pkg_fit (fun _ => [])) as Hf.
  assert (Forall2 (fun d kd => data_kind d = kd /\ data_fit (fun _ => []) d)
    [DPkg sample_pkg; DPkg sample_pkg] (argument_kinds ps)) as H5
    by (rewrite H4; repeat (constructor; [split; [reflexivity|exact Hf]|]); constructor).
  rewrite <- H2. exact (pkg_sbuf_vprintf_ends_iff (fun _ => []) (fun _ _ => None) format ps _ H1 H3 H5).
Defined.

(** a text whose bytes are each written plainly, doubled, or as a
    hexadecimal or octal escape is printed as the text, whatever its bytes. *)
Theorem format_quoting_roundtrip (emit : ucl -> cstring) (strftime : cstring -> Z -> option cstring)
  (text : cstring) (parts : list cstring) (ap : list data) :
  Forall2 spelled text parts ->
  pkg_sbuf_vprintf emit strftime (length text) (concat parts) ap = Finished text.
Proof.
  unfold pkg_sbuf_vprintf. induction 1 as [|c part text parts Hc _ IH]; [done|].
  cbn [concat length]. rewrite (vprintf_spelled _ _ _ _ _ _ _ Hc), IH. done.
Qed.

Lemma format_quoting_roundtrip_witness :
  pkg_sbuf_vprintf (fun _ => []) (fun _ _ => None) 6 (str "a%%\\\x5c\134b") [] = Finished (str "a%\\\b").
Proof.
  apply (format_quoting_roundtrip _ _ (str "a%\\\b") [str "a"; str "%%"; str "\\"; str "\x5c"; str "\134"; str "b"] []).
  constructor; [by constructor|]. constructor; [constructor|]. constructor; [constructor|].
  constructor; [by apply (spelled_hex _ "5" "c")|].
  constructor; [by apply (spelled_oct _ "1" "3" "4")|]. constructor; [by constructor|constructor].
Defined.

(** a list code without modifiers or a trailer prints every element once, in
    the order of the list, each as the documented default has it, the
    separator between them and nowhere else. *)
Theorem default_list_join (emit : ucl -> cstring) (strftime : cstring -> Z -> option cstring)
  (c : fmt_code_t) (k : pkg) (items : list data) :
  is_list c = true -> list_items emit c k = Some items ->
  pkg_sbuf_vprintf emit strftime 1 (str "%" ++ letters c) [DPkg k]
    = Finished (join (separator_text emit c k) (map (item_text emit c) items)).
Proof. apply default_list_prints. Qed.

Lemma default_list_join_witness :
  pkg_sbuf_vprintf (fun _ => []) (fun _ _ => None) 1 (str "%d") [DPkg sample_pkg]
  = Finished (str "pcre-8.36" ++ NEWLINE ++ str "gettext-0.19" ++ NEWLINE).
Proof.
  destruct (pkg_deps sample_pkg) as [ds|] eqn:E; [|vm_compute in E; discriminate E].
  assert (list_items (fun _ => []) PP_PKG_DEPENDENCIES sample_pkg = Some (map DDep ds)) as Hi
    by (cbn [list_items]; by rewrite E).
  pose proof (default_list_join (fun _ => []) (fun _ _ => None) PP_PKG_DEPENDENCIES sample_pkg _ eq_refl Hi) as H.
  vm_compute in E. injection E as <-. exact H.
Defined.

(** Reading past the format, and an uninitialised buffer. *)
Example format_ends_in_percent : pkg_sbuf_vprintf (fun _ => []) (fun _ _ => None) 9 (str "100%") [] = Undefined.
Proof. reflexivity. Qed.

Example strftime_too_long :
  pkg_sbuf_vprintf (fun _ => []) (fun _ _ => Some (replicate 1024 "x"%char)) 9 (str "%t%{%%Z%}") [DPkg sample_pkg] = Undefined.
Proof. vm_compute. reflexivity. Qed.
