(* ===== verification/QueryPrintf.v ===== *)
(** * pkg query prints through pkg_printf (src/query.c with libpkg/pkg_printf.c)

    [Query] leaves open what pkg_printf makes of a format; here the two are put
    together.  Every format format_str passes to pkg_sbuf_printf has known codes
    only and asks for the argument it is given, so print_query never runs into
    the endless loop of an unknown code or into data of the wrong kind. *)
From S2P Require Import Prelude CString UtHash Pkg Cprintf Printf PkgPrintf Query.

(** The [data] pointer as pkg_printf sees it. *)
Definition to_data (d : query_data) : PkgPrintf.data :=
  match d with
  | QDep d => DDep d | QOption o => DOption o | QFile f => DFile f | QDir d => DDir d
  | QUser u => DUser u | QGroup g => DGroup g | QShlib s => DShlib s | QObject k o => DObject (Some k) o
  end.

Definition to_kind (k : Query.data_kind) : PkgPrintf.kind :=
  match k with
  | Query.KDep => PkgPrintf.KDep | Query.KOption => PkgPrintf.KOption | Query.KFile => PkgPrintf.KFile
  | Query.KDir => PkgPrintf.KDir | Query.KUser => PkgPrintf.KUser | Query.KGroup => PkgPrintf.KGroup
  | Query.KShlib => PkgPrintf.KShlib | Query.KObject => PkgPrintf.KObject
  end.

(** A format that takes one argument of a kind and has known codes only. *)
Definition takes (fmt : string) (kd : PkgPrintf.kind) : bool :=
  match directives (length (str fmt)) (str fmt) with
  | Some ps =>
      forallb known ps && forallb items_parse ps
      && forallb (fun p => Nat.eqb (length (item_fmt p)) 0 || negb (fmt_code_t_beq (fmt_code p) PP_PKG_INSTALL_TIMESTAMP)) ps
      && bool_decide (argument_kinds ps = [kd])
  | None => false
  end.

Definition piece_typed (x : piece) : bool :=
  match x with
  | PPkg fmt => takes fmt PkgPrintf.KPkg
  | PData k fmt => takes fmt (to_kind k)
  | PMessage => takes "%M" PkgPrintf.KPkg
  | PChar _ | PBool _ => true
  end.

(** ** Every byte *)

Definition bytes : list ascii := map ascii_of_nat (seq 0 256).

Lemma forall_bytes (P : ascii -> bool) : forallb P bytes = true -> forall c, P c = true.
Proof.
  intros H c. rewrite forallb_forall in H. apply H. unfold bytes. apply in_map_iff.
  exists (nat_of_ascii c). split; [apply ascii_nat_embedding|]. apply in_seq.
  pose proof (nat_ascii_bounded c). lia.
Qed.

Lemma directive_typed c : match directive_of c with
                          | One ps => forallb piece_typed ps = true
                          | Two f => forall d, forallb piece_typed (f d) = true
                          end.
Proof.
  assert (forall c, (match directive_of c with
                     | One ps => forallb piece_typed ps
                     | Two f => forallb (fun d => forallb piece_typed (f d)) bytes
                     end) = true) as H by (apply forall_bytes; vm_compute; reflexivity).
  specialize (H c). destruct (directive_of c) as [ps|f]; [done|].
  by apply (forall_bytes (fun d => forallb piece_typed (f d))).
Qed.

Lemma escape_typed c : forallb piece_typed (escape c) = true.
Proof. revert c. apply forall_bytes. vm_compute. reflexivity. Qed.

Lemma format_pieces_typed n qstr ps : (length qstr <= n)%nat -> format_pieces qstr = Some ps ->
  forallb piece_typed ps = true.
Proof.
  revert qstr ps; induction n as [|n IH]; intros [|c r] ps Hn; cbn [length] in Hn; try lia;
    cbn [format_pieces]; try by intros [= <-].
  destruct (Ascii.eqb c "%").
  - destruct r as [|d r]; [done|]. pose proof (directive_typed d) as Hd.
    destruct (directive_of d) as [qs|f].
    + destruct (format_pieces r) as [rs|] eqn:E; [|done]. intros [= <-].
      rewrite forallb_app, Hd. cbn in Hn. apply (IH r); [lia|done].
    + destruct r as [|e r]; [done|]. destruct (format_pieces r) as [rs|] eqn:E; [|done]. intros [= <-].
      rewrite forallb_app, Hd. cbn in Hn. apply (IH r); [lia|done].
  - destruct (Ascii.eqb c BACKSLASH).
    + destruct r as [|d r]; [done|]. destruct (format_pieces r) as [rs|] eqn:E; [|done]. intros [= <-].
      rewrite forallb_app, escape_typed. cbn in Hn. apply (IH r); [lia|done].
    + destruct (format_pieces r) as [rs|] eqn:E; [|done]. intros [= <-]. cbn. apply (IH r); [lia|done].
Qed.

Section query_printf.
Context (emit : ucl -> cstring).
Context (strftime : cstring -> Z -> option cstring).

(** pkg_sbuf_printf (dest, fmt, d); the default is never taken. *)
Definition printed_text (fmt : string) (d : PkgPrintf.data) : outcome :=
  pkg_sbuf_vprintf emit strftime (length (str fmt)) (str fmt) [d].

Definition text_of (o : outcome) : cstring := match o with Finished t => t | _ => [] end.

Lemma takes_prints fmt kd d : takes fmt kd = true -> PkgPrintf.data_kind d = kd -> data_fit emit d ->
  exists text, printed_text fmt d = Finished text.
Proof.
  unfold takes. destruct (directives _ _) as [ps|] eqn:E; [|done].
  intros [[[Hk Hi]%andb_true_iff Ht]%andb_true_iff Ha%bool_decide_eq_true]%andb_true_iff Hd Hf.
  assert (Forall (directive_ok strftime) ps) as Hok.
  { apply Forall_forall. intros p Hp. apply list_elem_of_In in Hp. rewrite forallb_forall in Hi, Ht. split; [by apply Hi|].
    intros Hc Hne. specialize (Ht p Hp). rewrite Hc in Ht. cbn in Ht. rewrite orb_false_r in Ht.
    apply Nat.eqb_eq in Ht. by destruct (item_fmt p). }
  assert (Forall2 (fun d kd => PkgPrintf.data_kind d = kd /\ data_fit emit d) [d] (argument_kinds ps)) as Hap
    by (rewrite Ha; by repeat constructor).
  apply (vprintf_loop_typed emit strftime _ _ ps [d] E Hok Hap). done.
Qed.

Lemma to_data_kind d : PkgPrintf.data_kind (to_data d) = to_kind (kind_of d).
Proof. by destruct d. Qed.

(** The text of a piece comes from a call of pkg_sbuf_printf that ends. *)
Definition piece_prints (p : pkg) (row : option query_data) (x : piece) : Prop :=
  match x with
  | PPkg fmt => exists text, printed_text fmt (DPkg p) = Finished text
  | PData k fmt => exists d text, row = Some d /\ printed_text fmt (to_data d) = Finished text
  | PMessage => exists text, printed_text "%M" (DPkg p) = Finished text
  | PChar _ | PBool _ => True
  end.

Definition query_lines (p : pkg) (qstr : cstring) (multiline : ascii) : option (list cstring) :=
  print_query (fun fmt p => text_of (printed_text fmt (DPkg p)))
    (fun fmt d => text_of (printed_text fmt (to_data d))) p qstr multiline.
End query_printf.

(** * Properties *)

(** C40: a format that pkg query accepts is printed, by the pkg_printf of
    libpkg, one line per element of its list: every call of pkg_sbuf_printf it
    makes ends and prints. *)
Theorem print_query_printf (emit : ucl -> cstring) (strftime : cstring -> Z -> option cstring)
  (p : pkg) (qstr : cstring) (flags flags' : Z) (multiline : ascii)
  (rows : list (option query_data)) (ps : list piece)
  (Hanalyse : analyse_query_string qstr accepted_query_flags flags NUL = (EPKG_OK, flags', multiline))
  (Hrows : query_rows p multiline = Some rows) (Hps : format_pieces qstr = Some ps)
  (Hfit : pkg_fit emit p) :
  Forall (fun row => Forall (piece_prints emit strftime p row) ps) rows /\
  exists lines, query_lines emit strftime p qstr multiline = Some lines /\ length lines = length rows.
Proof.
  pose proof (print_query_analysed (fun fmt p => text_of (printed_text emit strftime fmt (DPkg p)))
    (fun fmt d => text_of (printed_text emit strftime fmt (to_data d))) p qstr flags flags' multiline rows
    Hanalyse Hrows) as Hlines.
  unfold analyse_query_string in Hanalyse. destruct (strchr qstr "%"); [|done].
  destruct (analyse_loop _ qstr flags NUL) as [[fl m]|] eqn:E; [|done]. injection Hanalyse as <- <-.
  destruct (analyse_loop_pieces _ _ _ _ _ _ (le_n _) E) as [_ Ha]. unfold analysed in Ha. rewrite Hps in Ha.
  destruct Ha as [Hdangling Hok]. pose proof (format_pieces_typed _ _ _ (le_n _) Hps) as Ht.
  pose proof (query_rows_ok _ _ _ Hrows) as Hrok. rewrite Hdangling in Hlines. split; [|exact Hlines].
  eapply Forall_impl; [exact Hrok|]. intros row Hrow. apply Forall_forall. intros x Hx.
  rewrite forallb_forall in Ht. specialize (Ht x ltac:(by apply list_elem_of_In)).
  rewrite Forall_forall in Hok. specialize (Hok x Hx).
  destruct x as [c|fmt|k fmt|a|]; cbn [piece_prints piece_typed] in *; try done.
  - by eapply takes_prints.
  - unfold row_ok in Hrow. cbn in Hok. rewrite Hok in Hrow. destruct Hrow as (d & -> & Hd).
    destruct (takes_prints emit strftime fmt _ (to_data d) Ht) as [text H];
      [by rewrite to_data_kind, Hd|by destruct d|]. by exists d, text.
  - by eapply takes_prints.
Qed.

Lemma print_query_printf_witness : let qstr := str "%n wants %dn (%sb) \\" in
  query_lines (fun _ => []) (fun _ _ => None) sample_pkg qstr "d"
    = Some [str "zsh wants pcre (4096) \" ++ NEWLINE; str "zsh wants gettext (4096) \" ++ NEWLINE] /\
  exists rows ps, query_rows sample_pkg "d" = Some rows /\
    Forall (fun row => Forall (piece_prints (fun _ => []) (fun _ _ => None) sample_pkg row) ps) rows.
Proof.
  intros qstr. split; [vm_compute; reflexivity|].
  assert (analyse_query_string qstr accepted_query_flags 0 NUL = (EPKG_OK, 1, "d"%char)) as Ha by (vm_compute; reflexivity).
  destruct (query_rows sample_pkg "d") as [rows|] eqn:Hr; [|vm_compute in Hr; discriminate Hr].
  destruct (format_pieces qstr) as [ps|] eqn:Hp; [|vm_compute in Hp; discriminate Hp].
  exists rows, ps. split; [reflexivity|].
  apply (print_query_printf (fun _ => []) (fun _ _ => None) sample_pkg qstr 0 1 "d"%char rows ps Ha Hr Hp).
  apply sample_pkg_fit.
Defined.
