(* ===== verification/Ucl.v ===== *)
(** * UCL objects (external/libucl/src/ucl_util.c) as the manifests use them

    The constructors of strings, the insertion under a key and the iteration.
    An object under a key knows its later siblings: inserting a second object
    under the same key chains it to the first, the implicit array of UCL. *)
From S2P Require Import Prelude CString UtHash Pkg.

(** ** Strings *)

(** The classes of ucl_chartable.h: UCL_CHARACTER_WHITESPACE_UNSAFE and
    UCL_CHARACTER_JSON_UNSAFE. *)
Definition whitespace_unsafe (c : ascii) : bool :=
  ((9 <=? code c) && (code c <=? 13)) || (code c =? 32).

(** What stands after the backslash of a JSON-unsafe character. *)
Definition json_escape (c : ascii) : option ascii :=
  match code c with
  | 8 => Some "b" | 9 => Some "t" | 10 => Some "n" | 12 => Some "f" | 13 => Some "r"
  | 34 => Some (chr 34) | 92 => Some "\"
  | _ => None
  end%char.

Definition json_unsafe (c : ascii) : bool := match json_escape c with Some _ => true | None => false end.

Fixpoint skip_whitespace (s : cstring) : cstring :=
  match s with
  | c :: r => if whitespace_unsafe c then skip_whitespace r else s
  | [] => []
  end.

(** UCL_STRING_TRIM *)
Definition trim (s : cstring) : cstring := rev (skip_whitespace (rev (skip_whitespace s))).

(** UCL_STRING_ESCAPE *)
Definition escape_char (c : ascii) : cstring :=
  match json_escape c with Some e => ["\"%char; e] | None => [c] end.
Definition escape (s : cstring) : cstring := flat_map escape_char s.

(** ucl_object_fromstring_common with the flags for trimming and escaping. *)
Definition ucl_object_fromstring_common (s : cstring) (trim_it escape_it : bool) : ucl :=
  let s := if trim_it then trim s else s in
  UString (if escape_it then escape s else s).

(** ucl_object_fromstring and ucl_object_fromlstring: the length given is the
    string's. *)
Definition ucl_object_fromstring (s : cstring) : ucl := ucl_object_fromstring_common s false true.

(** ** Objects *)

(** ucl_object_insert_key and ucl_array_append: inserting NULL does nothing. *)
Definition ucl_object_insert_key (top : list (cstring * ucl)) (o : option ucl) (key : cstring)
  : list (cstring * ucl) :=
  match o with Some o => top ++ [(key, o)] | None => top end.

(** An object where the iteration finds it: the key it is under, and the
    objects chained after it. *)
Record item := mk_item { i_key : option cstring; i_val : ucl; i_next : list ucl }.

Definition ucl_object_key (o : item) : option cstring := i_key o.

(** The object under no key. *)
Definition top_item (o : ucl) : item := mk_item None o [].

Definition siblings (key : cstring) (l : list (cstring * ucl)) : list ucl :=
  map snd (List.filter (fun kv => bool_decide (kv.1 = key)) l).

(** The hash of an object: one node per key, the first object inserted, in
    the order of the first insertions. *)
Fixpoint heads (seen : list cstring) (l : list (cstring * ucl)) : list item :=
  match l with
  | [] => []
  | (k, v) :: l =>
      if bool_decide (k ∈ seen) then heads seen l
      else mk_item (Some k) v (siblings k l) :: heads (k :: seen) l
  end.

(** A chain of objects, each with those after it. *)
Fixpoint linear (key : option cstring) (l : list ucl) : list item :=
  match l with
  | [] => []
  | v :: l => mk_item key v l :: linear key l
  end.

(** [while ((cur = ucl_iterate_object(obj, &it, expand)))]: what [cur] is. *)
Definition ucl_iterate_object (o : item) (expand : bool) : list item :=
  match expand, i_val o with
  | true, UObject l => heads [] l
  | true, UArray l => linear None l
  | _, v => linear (i_key o) (v :: i_next o)
  end.

Definition ucl_object_find_key (l : list (cstring * ucl)) (key : cstring) : option ucl :=
  snd <$> find (fun kv => bool_decide (kv.1 = key)) l.

(** [obj->type]; the types no manifest key asks for are [None]. *)
Definition ucl_object_type (o : ucl) : option ucl_type :=
  match o with
  | UString _ => Some UCL_STRING
  | UInt _ => Some UCL_INT
  | UBool _ => Some UCL_BOOLEAN
  | UArray _ => Some UCL_ARRAY
  | UObject _ => Some UCL_OBJECT
  | UFloat _ _ | UTime _ _ | UNull => None
  end.

#[export] Instance ucl_type_eq_dec : EqDecision ucl_type.
Proof. solve_decision. Defined.

(** ** What JSON text keeps of an object

    The emitter writes an implicit array as an array; the parser reads that. *)
Definition implicit_array (o : item) : ucl :=
  match i_next o with [] => i_val o | l => UArray (i_val o :: l) end.

Fixpoint wire (o : ucl) : ucl :=
  match o with
  | UArray l => UArray (map wire l)
  | UObject l =>
      UObject (omap (fun o => k ← i_key o; Some (k, implicit_array o))
        (heads [] (map (fun kv => (kv.1, wire kv.2)) l)))
  | o => o
  end.

(** ** Facts *)

Lemma siblings_nil k l : k ∉ map fst l -> siblings k l = [].
Proof.
  induction l as [|[k' v] l IH]; [done|]. intros [Hne Hk]%not_elem_of_cons. unfold siblings in *. cbn.
  rewrite bool_decide_eq_false_2 by (by intros ->). by apply IH.
Qed.

(** Without two objects under one key the iteration visits what was inserted. *)
Lemma heads_nodup seen l : NoDup (map fst l) -> (forall k, k ∈ map fst l -> k ∉ seen) ->
  heads seen l = map (fun kv => mk_item (Some kv.1) kv.2 []) l.
Proof.
  revert seen. induction l as [|[k v] l IH]; intros seen Hn Hs; [done|].
  apply NoDup_cons in Hn as [Hk Hn]. cbn.
  rewrite bool_decide_eq_false_2 by (apply Hs; by left). rewrite siblings_nil by done.
  f_equal. apply IH; [done|]. intros k' Hk' [->|Hin]%elem_of_cons; [done|]. eapply Hs; [by right|done].
Qed.

Lemma heads_distinct l : NoDup (map fst l) -> heads [] l = map (fun kv => mk_item (Some kv.1) kv.2 []) l.
Proof. intros Hn. apply heads_nodup; [done|]. intros k _. apply not_elem_of_nil. Qed.

(** Such an object is read back as it is. *)
Lemma wire_object l : NoDup (map fst l) -> wire (UObject l) = UObject (map (fun kv => (kv.1, wire kv.2)) l).
Proof.
  intros Hn. cbn [wire]. rewrite heads_distinct by (by rewrite map_map). f_equal. clear Hn.
  induction l as [|[k v] l IH]; [done|]. cbn. f_equal. exact IH.
Qed.

Lemma skip_whitespace_idem s : skip_whitespace (skip_whitespace s) = skip_whitespace s.
Proof.
  induction s as [|c s IH]; [done|]. cbn. destruct (whitespace_unsafe c) eqn:E; [done|]. cbn. by rewrite E.
Qed.

Lemma skip_whitespace_suffix s : exists ws, s = ws ++ skip_whitespace s /\ Forall (fun c => whitespace_unsafe c = true) ws.
Proof.
  induction s as [|c s [ws [Hs Hw]]]; [by exists []|]. cbn. destruct (whitespace_unsafe c) eqn:E; [|by exists []].
  exists (c :: ws). split; [by rewrite Hs at 1|by constructor].
Qed.

(** Encodings that leave white space alone commute with trimming. *)
Lemma skip_whitespace_map (f : ascii -> cstring) s :
  (forall c, whitespace_unsafe c = true -> f c = [c]) ->
  (forall c, whitespace_unsafe c = false -> exists d r, f c = d :: r /\ whitespace_unsafe d = false) ->
  skip_whitespace (flat_map f s) = flat_map f (skip_whitespace s).
Proof.
  intros Hw Hn. induction s as [|c s IH]; [done|]. cbn. destruct (whitespace_unsafe c) eqn:E.
  - rewrite (Hw c E). cbn. by rewrite E.
  - destruct (Hn c E) as (d & r & Hf & Hd). rewrite Hf. cbn. by rewrite Hd, Hf.
Qed.

Lemma rev_flat_map (f : ascii -> cstring) s : rev (flat_map f s) = flat_map (fun c => rev (f c)) (rev s).
Proof.
  induction s as [|c s IH]; [done|]. cbn. rewrite rev_app_distr, IH, flat_map_app. cbn. by rewrite app_nil_r.
Qed.

Lemma trim_flat_map (f : ascii -> cstring) s :
  (forall c, whitespace_unsafe c = true -> f c = [c]) ->
  (forall c, whitespace_unsafe c = false ->
     (exists d r, f c = d :: r /\ whitespace_unsafe d = false) /\
     (exists d r, rev (f c) = d :: r /\ whitespace_unsafe d = false)) ->
  trim (flat_map f s) = flat_map f (trim s).
Proof.
  intros Hw Hn. unfold trim.
  rewrite skip_whitespace_map by (done || (intros c Hc; by apply Hn)).
  rewrite rev_flat_map, skip_whitespace_map.
  - rewrite rev_flat_map. apply flat_map_ext. intros c. apply rev_involutive.
  - intros c Hc. by rewrite Hw.
  - intros c Hc. by apply Hn.
Qed.

Lemma escape_safe s : forallb (fun c => negb (json_unsafe c)) s = true -> escape s = s.
Proof.
  induction s as [|c s IH]; [done|]. cbn. intros [Hc Hs]%andb_prop. unfold escape_char.
  unfold json_unsafe in Hc. destruct (json_escape c); [done|]. cbn. f_equal. by apply IH.
Qed.
