(* ===== verification/Manifest.v ===== *)
(** * Manifests (libpkg/pkg_manifest.c)

    A manifest is the text form of a package: a UCL object whose keys are
    listed in [manifest_keys].  Reading dispatches each key of the object by
    its name and type to a function that stores the value in the package;
    emitting builds the object from the package.  Reading and writing the text
    is libucl's part ([emit], [ucl_parse], [yaml_parse]).

    A function that fails an assertion or reads memory that was never written
    is [None]; errors in the text are skipped with a message, which is not
    modelled.  [einval] says whether strtol reports a string without digits
    (POSIX allows both; FreeBSD does). *)
From S2P Require Import Prelude CString UtHash Pkg Checksum Ucl.

(** ** Attributes, besides those of struct pkg *)

Definition PKG_UNKNOWN : Z := -1.
Definition PKG_DEPS : Z := -2.
Definition PKG_FILES : Z := -3.
Definition PKG_DIRS : Z := -4.
Definition PKG_SCRIPTS : Z := -5.
Definition PKG_OPTIONS : Z := -8.
Definition PKG_OPTION_DEFAULTS : Z := -9.
Definition PKG_OPTION_DESCRIPTIONS : Z := -10.
Definition PKG_USERS : Z := -11.
Definition PKG_GROUPS : Z := -12.
Definition PKG_DIRECTORIES : Z := -13.
Definition PKG_SHLIBS_REQUIRED : Z := -14.
Definition PKG_SHLIBS_PROVIDED : Z := -15.
Definition PKG_CONFLICTS : Z := -17.
Definition PKG_PROVIDES : Z := -18.

(** The functions a key is dispatched to. *)
Inductive parser := Pstring | Pint | Parray | Pobj.

#[export] Instance parser_eq_dec : EqDecision parser.
Proof. solve_decision. Defined.

Record manifest_key := mk_key {
  key : cstring; mtype : Z; valid_type : ucl_type; parse_data : parser }.

Definition attr_code (a : nat) : Z := Z.of_nat a.

Definition manifest_keys : list manifest_key :=
  [ mk_key (str "annotations")         (attr_code PKG_ANNOTATIONS)   UCL_OBJECT Pobj;
    mk_key (str "arch")                (attr_code PKG_ARCH)          UCL_STRING Pstring;
    mk_key (str "categories")          (attr_code PKG_CATEGORIES)    UCL_ARRAY  Parray;
    mk_key (str "comment")             (attr_code PKG_COMMENT)       UCL_STRING Pstring;
    mk_key (str "conflicts")           PKG_CONFLICTS                 UCL_ARRAY  Parray;
    mk_key (str "deps")                PKG_DEPS                      UCL_OBJECT Pobj;
    mk_key (str "desc")                (attr_code PKG_DESC)          UCL_STRING Pstring;
    mk_key (str "directories")         PKG_DIRECTORIES               UCL_OBJECT Pobj;
    mk_key (str "dirs")                PKG_DIRS                      UCL_ARRAY  Parray;
    mk_key (str "files")               PKG_FILES                     UCL_OBJECT Pobj;
    mk_key (str "flatsize")            (attr_code PKG_FLATSIZE)      UCL_INT    Pint;
    mk_key (str "groups")              PKG_GROUPS                    UCL_OBJECT Pobj;
    mk_key (str "groups")              PKG_GROUPS                    UCL_ARRAY  Parray;
    mk_key (str "licenselogic")        (attr_code PKG_LICENSE_LOGIC) UCL_STRING Pstring;
    mk_key (str "licenses")            (attr_code PKG_LICENSES)      UCL_ARRAY  Parray;
    mk_key (str "maintainer")          (attr_code PKG_MAINTAINER)    UCL_STRING Pstring;
    mk_key (str "message")             (attr_code PKG_MESSAGE)       UCL_STRING Pstring;
    mk_key (str "name")                (attr_code PKG_NAME)          UCL_STRING Pstring;
    mk_key (str "name")                (attr_code PKG_NAME)          UCL_INT    Pstring;
    mk_key (str "options")             PKG_OPTIONS                   UCL_OBJECT Pobj;
    mk_key (str "option_defaults")     PKG_OPTION_DEFAULTS           UCL_OBJECT Pobj;
    mk_key (str "option_descriptions") PKG_OPTION_DESCRIPTIONS       UCL_OBJECT Pobj;
    mk_key (str "origin")              (attr_code PKG_ORIGIN)        UCL_STRING Pstring;
    mk_key (str "path")                (attr_code PKG_REPOPATH)      UCL_STRING Pstring;
    mk_key (str "repopath")            (attr_code PKG_REPOPATH)      UCL_STRING Pstring;
    mk_key (str "pkgsize")             (attr_code PKG_PKGSIZE)       UCL_INT    Pint;
    mk_key (str "prefix")              (attr_code PKG_PREFIX)        UCL_STRING Pstring;
    mk_key (str "provides")            PKG_PROVIDES                  UCL_ARRAY  Parray;
    mk_key (str "scripts")             PKG_SCRIPTS                   UCL_OBJECT Pobj;
    mk_key (str "shlibs")              PKG_SHLIBS_REQUIRED           UCL_ARRAY  Parray;
    mk_key (str "shlibs_provided")     PKG_SHLIBS_PROVIDED           UCL_ARRAY  Parray;
    mk_key (str "shlibs_required")     PKG_SHLIBS_REQUIRED           UCL_ARRAY  Parray;
    mk_key (str "sum")                 (attr_code PKG_CKSUM)         UCL_STRING Pstring;
    mk_key (str "users")               PKG_USERS                     UCL_OBJECT Pobj;
    mk_key (str "users")               PKG_USERS                     UCL_ARRAY  Parray;
    mk_key (str "version")             (attr_code PKG_VERSION)       UCL_STRING Pstring;
    mk_key (str "version")             (attr_code PKG_VERSION)       UCL_INT    Pstring;
    mk_key (str "www")                 (attr_code PKG_WWW)           UCL_STRING Pstring ].

(** *** The hash of keys, each with a hash of its parsers by type *)

(** The two bytes of a type, the key of HASH_ADD_UCLT. *)
Definition type_bytes (t : ucl_type) : cstring :=
  [chr match t with
       | UCL_OBJECT => 0 | UCL_ARRAY => 1 | UCL_INT => 2 | UCL_STRING => 4 | UCL_BOOLEAN => 5
       end; NUL].

Record dataparser := mk_dp { dp_type : ucl_type; dp_parse_data : parser }.

Record pkg_manifest_key := mk_pmk {
  pmk_key : cstring; pmk_type : Z; pmk_parser : table dataparser }.

(** One turn of pkg_manifest_keys_new. *)
Definition add_manifest_key (keys : table pkg_manifest_key) (m : manifest_key) : table pkg_manifest_key :=
  let keys :=
    match hash_find keys (key m) with
    | Some _ => keys
    | None => hash_add keys (key m) (mk_pmk (key m) (mtype m) table_empty)
    end in
  match hash_find keys (key m) ≫= fun i => pair i <$> hash_get keys i with
  | None => keys
  | Some (i, k) =>
      match hash_find (pmk_parser k) (type_bytes (valid_type m)) with
      | Some _ => keys
      | None =>
          hash_update keys i
            (mk_pmk (pmk_key k) (pmk_type k)
              (hash_add (pmk_parser k) (type_bytes (valid_type m)) (mk_dp (valid_type m) (parse_data m))))
      end
  end.

(** A table that exists already is left as it is. *)
Definition pkg_manifest_keys_new (k : option (table pkg_manifest_key)) : table pkg_manifest_key :=
  match k with
  | Some k => k
  | None => fold_left add_manifest_key manifest_keys table_empty
  end.

(** The two look-ups of parse_manifest: the key, and its parser for a type. *)
Definition select_key (keys : table pkg_manifest_key) (k : cstring) : option pkg_manifest_key :=
  hash_lookup keys k.

Definition select_parser (sk : pkg_manifest_key) (t : option ucl_type) : option dataparser :=
  t ← t; hash_lookup (pmk_parser sk) (type_bytes t).

(** ** Percent encoding *)

Definition isascii (c : ascii) : bool := code c <? 128.

Definition urlencode_char (c : ascii) : cstring :=
  if negb (isascii c) || Ascii.eqb c "%" then "%"%char :: hex_byte (code c)
  else [c].

Definition urlencode (src : cstring) : cstring := flat_map urlencode_char src.

(** The value of a hexadecimal digit. *)
Definition hex_value (c : ascii) : Z :=
  if isdigit c then code c - 48 else if islower c then code c - 87 else code c - 55.

Fixpoint xdigits (acc : Z) (s : cstring) : Z :=
  match s with
  | c :: r => if isxdigit c then xdigits (acc * 16 + hex_value c) r else acc
  | [] => acc
  end.

(** [strtol (s, NULL, 16)] of a short string; [None] when it has no digits. *)
Definition strtol16 (s : cstring) : option Z :=
  let '(neg, s) := read_sign (drop_space s) in
  let s := match s with
           | z :: x :: d :: r =>
               if Ascii.eqb z "0" && Ascii.eqb (tolower x) "x" && isxdigit d then d :: r else s
           | _ => s
           end in
  match s with
  | c :: _ => if isxdigit c then Some (if neg then - xdigits 0 s else xdigits 0 s) else None
  | [] => None
  end.

(** A buffer that was finished, or one that still lacks its NUL. *)
Inductive sbuf := Finished (b : cstring) | Unfinished (b : cstring).

(** The text at sbuf_data; reading on without a NUL is undefined. *)
Definition sbuf_data (b : sbuf) : option cstring :=
  match b with Finished b => Some (c_str b) | Unfinished _ => None end.

Definition sbuf_finish (b : sbuf) : sbuf := match b with Finished b | Unfinished b => Finished b end.

(** sbuf_get of libpkg/utils.c finishes the buffer first. *)
Definition sbuf_get (b : sbuf) : option cstring := sbuf_data (sbuf_finish b).

(** The nodes of a YAML document. *)
#[warnings="-register-all"]
Inductive yaml := YScalar (s : cstring) | YSequence (l : list yaml) | YMapping (l : list (yaml * yaml)).

Section manifest.
Context (einval : bool).

(** What an escape with these digits decodes to. *)
Definition unescape (hex : cstring) : cstring :=
  match strtol16 hex with
  | Some v => [chr (v mod 256)]
  | None => if einval then "%"%char :: hex else [NUL]
  end.

(** The check for the end lets an escape with one digit pass; its second digit
    is the NUL of the string. *)
Fixpoint urldecode_loop (src dest : cstring) : pkg_error_t * sbuf :=
  match src with
  | [] => (EPKG_OK, Finished dest)
  | c :: r =>
      if negb (Ascii.eqb c "%") then urldecode_loop r (dest ++ [c])
      else match r with
           | [] => (EPKG_FATAL, Unfinished dest)
           | [h] => (EPKG_OK, Finished (dest ++ unescape [h]))
           | h0 :: h1 :: r => urldecode_loop r (dest ++ unescape [h0; h1])
           end
  end.

Definition urldecode (src : cstring) : pkg_error_t * sbuf := urldecode_loop src [].

(** ** Reading *)

Context (dev : bool).
(** ucl_object_emit_single_json, and getmode(setmode(s), 0), NULL being [None]. *)
Context (emit_single_json : ucl -> cstring) (getmode : cstring -> option Z).

Definition script_type_str (s : cstring) : pkg_script :=
  if streq s (str "pre-install") then PKG_SCRIPT_PRE_INSTALL
  else if streq s (str "install") then PKG_SCRIPT_INSTALL
  else if streq s (str "post-install") then PKG_SCRIPT_POST_INSTALL
  else if streq s (str "pre-upgrade") then PKG_SCRIPT_PRE_UPGRADE
  else if streq s (str "upgrade") then PKG_SCRIPT_UPGRADE
  else if streq s (str "post-upgrade") then PKG_SCRIPT_POST_UPGRADE
  else if streq s (str "pre-deinstall") then PKG_SCRIPT_PRE_DEINSTALL
  else if streq s (str "deinstall") then PKG_SCRIPT_DEINSTALL
  else if streq s (str "post-deinstall") then PKG_SCRIPT_POST_DEINSTALL
  else PKG_SCRIPT_UNKNOWN.

Definition pkg_string (p : pkg) (obj : item) (attr : Z) : option (pkg_error_t * pkg) :=
  let s := ucl_object_tostring_forced emit_single_json (i_val obj) in
  if attr =? attr_code PKG_LICENSE_LOGIC then
    if streq s (str "single") then
      '(_, p) ← pkg_set p PKG_LICENSE_LOGIC (ArgInt LICENSE_SINGLE); Some (EPKG_OK, p)
    else if streq s (str "or") || streq s (str "dual") then
      '(_, p) ← pkg_set p PKG_LICENSE_LOGIC (ArgInt LICENSE_OR); Some (EPKG_OK, p)
    else if streq s (str "and") || streq s (str "multi") then
      '(_, p) ← pkg_set p PKG_LICENSE_LOGIC (ArgInt LICENSE_AND); Some (EPKG_OK, p)
    else Some (EPKG_FATAL, p)
  else
    s ← (if attr =? attr_code PKG_DESC
         then sbuf_data (sbuf_finish (urldecode s).2) else Some s);
    pkg_set p (Z.to_nat attr) (ArgString (Some s)).

Definition pkg_int (p : pkg) (obj : item) (attr : Z) : option (pkg_error_t * pkg) :=
  pkg_set p (Z.to_nat attr) (ArgInt (ucl_object_toint (i_val obj))).

(** The callers drop the error codes of the functions that add. *)
Definition added (r : option (pkg_error_t * pkg)) : option pkg := snd <$> r.

Definition is_type (t : ucl_type) (o : item) : bool := bool_decide (ucl_object_type (i_val o) = Some t).

(** One member of a file's object: sum, uname, gname and perm so far. *)
Definition file_member (st : option cstring * option cstring * option cstring * Z) (cur : item)
  : option cstring * option cstring * option cstring * Z :=
  let '(sum, uname, gname, perm) := st in
  match ucl_object_key cur with
  | None => st
  | Some k =>
      let s := ucl_object_tostring (i_val cur) in
      if (strcasecmp k (str "uname") =? 0) && is_type UCL_STRING cur then (sum, s, gname, perm)
      else if (strcasecmp k (str "gname") =? 0) && is_type UCL_STRING cur then (sum, uname, s, perm)
      else if (strcasecmp k (str "sum") =? 0) && is_type UCL_STRING cur &&
              Nat.eqb (length (default [] s)) 64 then (s, uname, gname, perm)
      else if (strcasecmp k (str "perm") =? 0) && (is_type UCL_STRING cur || is_type UCL_INT cur) then
        match getmode (ucl_object_tostring_forced emit_single_json (i_val cur)) with
        | None => st
        | Some m => (sum, uname, gname, m)
        end
      else st
  end.

Definition pkg_set_files_from_object (p : pkg) (obj : item) : option (pkg_error_t * pkg) :=
  match ucl_object_key obj with
  | None => Some (EPKG_FATAL, p)
  | Some okey =>
      let '(sum, uname, gname, perm) :=
        fold_left file_member (ucl_iterate_object obj true) (None, None, None, 0) in
      fname ← sbuf_data (urldecode okey).2;
      p ← added (pkg_addfile_attr dev p fname sum uname gname perm false);
      Some (EPKG_OK, p)
  end.

(** One member of a directory's object: uname, gname, perm and try. *)
Definition dir_member (st : option cstring * option cstring * Z * bool) (cur : item)
  : option cstring * option cstring * Z * bool :=
  let '(uname, gname, perm, try) := st in
  match ucl_object_key cur with
  | None => st
  | Some k =>
      let s := ucl_object_tostring (i_val cur) in
      if (strcasecmp k (str "uname") =? 0) && is_type UCL_STRING cur then (s, gname, perm, try)
      else if (strcasecmp k (str "gname") =? 0) && is_type UCL_STRING cur then (uname, s, perm, try)
      else if (strcasecmp k (str "perm") =? 0) && (is_type UCL_STRING cur || is_type UCL_INT cur) then
        match getmode (ucl_object_tostring_forced emit_single_json (i_val cur)) with
        | None => st
        | Some m => (uname, gname, m, try)
        end
      else if (strcasecmp k (str "try") =? 0) && is_type UCL_BOOLEAN cur then
        (uname, gname, perm, negb (ucl_object_toint (i_val cur) =? 0))
      else st
  end.

Definition pkg_set_dirs_from_object (p : pkg) (obj : item) : option (pkg_error_t * pkg) :=
  match ucl_object_key obj with
  | None => Some (EPKG_FATAL, p)
  | Some okey =>
      let '(uname, gname, perm, try) :=
        fold_left dir_member (ucl_iterate_object obj true) (None, None, 0, false) in
      dirname ← sbuf_data (urldecode okey).2;
      p ← added (pkg_adddir_attr dev p dirname uname gname perm try false);
      Some (EPKG_OK, p)
  end.

(** One member of a dependency: origin and version so far. *)
Definition dep_member (st : option cstring * option cstring) (cur : item) : option cstring * option cstring :=
  let '(origin, version) := st in
  match ucl_object_key cur with
  | None => st
  | Some k =>
      if negb (is_type UCL_STRING cur) then
        if is_type UCL_INT cur && (strcasecmp k (str "version") =? 0)
        then (origin, Some (ucl_object_tostring_forced emit_single_json (i_val cur)))
        else st
      else
        let s := ucl_object_tostring (i_val cur) in
        (if strcasecmp k (str "origin") =? 0 then s else origin,
         if strcasecmp k (str "version") =? 0 then s else version)
  end.

(** The origin and version of one element stay set for the next. *)
Definition dep_element (okey : cstring) (st : option cstring * option cstring * pkg) (self : item)
  : option (option cstring * option cstring * pkg) :=
  let '(origin, version, p) := st in
  match fold_left dep_member (ucl_iterate_object self true) (origin, version) with
  | (Some o, Some v) =>
      p ← added (pkg_adddep dev p okey o v false); Some (Some o, Some v, p)
  | (origin, version) => Some (origin, version, p)
  end.

Definition pkg_set_deps_from_object (p : pkg) (obj : item) : option (pkg_error_t * pkg) :=
  match ucl_object_key obj with
  | None => Some (EPKG_FATAL, p)
  | Some okey =>
      '(_, _, p) ← fold_opt (dep_element okey) (ucl_iterate_object obj (is_type UCL_ARRAY obj)) (None, None, p);
      Some (EPKG_OK, p)
  end.

(** One member of the object an attribute is given as. *)
Definition pkg_obj_member (attr : Z) (p : pkg) (cur : item) : option pkg :=
  match ucl_object_key cur with
  | None => Some p
  | Some k =>
      let v := i_val cur in
      if attr =? PKG_DEPS then
        if negb (is_type UCL_OBJECT cur) && negb (is_type UCL_ARRAY cur) then Some p
        else added (pkg_set_deps_from_object p cur)
      else if attr =? PKG_DIRS then
        if negb (is_type UCL_OBJECT cur) then Some p else added (pkg_set_dirs_from_object p cur)
      else if attr =? PKG_USERS then
        if is_type UCL_STRING cur then added (pkg_adduid dev p k (ucl_object_tostring v)) else Some p
      else if attr =? PKG_GROUPS then
        if is_type UCL_STRING cur then added (pkg_addgid dev p k (ucl_object_tostring v)) else Some p
      else if attr =? PKG_DIRECTORIES then
        if is_type UCL_BOOLEAN cur then
          dir ← sbuf_data (urldecode k).2;
          added (pkg_adddir dev p dir (ucl_object_toboolean v) false)
        else if is_type UCL_OBJECT cur then added (pkg_set_dirs_from_object p cur)
        else match ucl_object_tostring v with
             | Some s =>
                 dir ← sbuf_data (urldecode k).2;
                 added (pkg_adddir dev p dir (Ascii.eqb (deref s) "y") false)
             | None => Some p
             end
      else if attr =? PKG_FILES then
        match ucl_object_tostring v with
        | Some buf =>
            file ← sbuf_get (urldecode k).2;
            added (pkg_addfile dev p file (if Nat.eqb (length buf) 64 then Some buf else None) false)
        | None =>
            if is_type UCL_OBJECT cur then added (pkg_set_files_from_object p cur) else Some p
        end
      else if attr =? PKG_OPTIONS then
        match v with
        | UString s => added (pkg_addoption dev p k s)
        | UBool b => added (pkg_addoption dev p k (if b then str "on" else str "off"))
        | _ => Some p
        end
      else if attr =? PKG_OPTION_DEFAULTS then
        match ucl_object_tostring v with
        | Some s => added (pkg_addoption_default dev p k s)
        | None => Some p
        end
      else if attr =? PKG_OPTION_DESCRIPTIONS then
        match ucl_object_tostring v with
        | Some s => added (pkg_addoption_description dev p k s)
        | None => Some p
        end
      else if attr =? PKG_SCRIPTS then
        match ucl_object_tostring v with
        | Some s =>
            if bool_decide (script_type_str k = PKG_SCRIPT_UNKNOWN) then Some p
            else
              data ← sbuf_data (urldecode s).2;
              added (pkg_addscript p (Some data) (script_type_str k))
        | None => Some p
        end
      else if attr =? attr_code PKG_ANNOTATIONS then
        match ucl_object_tostring v with
        | Some s => Some (pkg_addannotation dev p k s).2
        | None => Some p
        end
      else Some p
  end.

Definition pkg_obj (p : pkg) (obj : item) (attr : Z) : option (pkg_error_t * pkg) :=
  p ← fold_opt (pkg_obj_member attr) (ucl_iterate_object obj true) p;
  Some (EPKG_OK, p).

(** An element that must be a string. *)
Definition string_element (cur : item) (add : cstring -> option (pkg_error_t * pkg)) (p : pkg) : option pkg :=
  match ucl_object_tostring (i_val cur) with
  | Some s => added (add s)
  | None => Some p
  end.

Definition pkg_array_element (attr : Z) (p : pkg) (cur : item) : option pkg :=
  if attr =? attr_code PKG_CATEGORIES then
    string_element cur (pkg_addcategory emit_single_json dev p) p
  else if attr =? attr_code PKG_LICENSES then
    string_element cur (pkg_addlicense emit_single_json dev p) p
  else if attr =? PKG_USERS then
    if is_type UCL_OBJECT cur then added (pkg_obj p cur attr)
    else string_element cur (pkg_adduser dev p) p
  else if attr =? PKG_GROUPS then
    if is_type UCL_OBJECT cur then added (pkg_obj p cur attr)
    else string_element cur (pkg_addgroup dev p) p
  else if attr =? PKG_DIRS then
    if is_type UCL_OBJECT cur then added (pkg_obj p cur attr)
    else string_element cur (fun s => pkg_adddir dev p s true false) p
  else if attr =? PKG_SHLIBS_REQUIRED then string_element cur (pkg_addshlib_required p) p
  else if attr =? PKG_SHLIBS_PROVIDED then string_element cur (pkg_addshlib_provided p) p
  else if attr =? PKG_CONFLICTS then string_element cur (pkg_addconflict p) p
  else if attr =? PKG_PROVIDES then string_element cur (pkg_addprovide p) p
  else Some p.

Definition pkg_array (p : pkg) (obj : item) (attr : Z) : option (pkg_error_t * pkg) :=
  p ← fold_opt (pkg_array_element attr) (ucl_iterate_object obj true) p;
  Some (EPKG_OK, p).

Definition run_parser (f : parser) : pkg -> item -> Z -> option (pkg_error_t * pkg) :=
  match f with Pstring => pkg_string | Pint => pkg_int | Parray => pkg_array | Pobj => pkg_obj end.

(** One key of the manifest. *)
Definition parse_entry (keys : table pkg_manifest_key) (p : pkg) (cur : item) : option pkg :=
  match ucl_object_key cur with
  | None => Some p
  | Some k =>
      match select_key keys k with
      | None => Some p
      | Some selected_key =>
          match select_parser selected_key (ucl_object_type (i_val cur)) with
          | None => Some p
          | Some dp => added (run_parser (dp_parse_data dp) p cur (pmk_type selected_key))
          end
      end
  end.

(** [obj] is NULL when the parser has no object. *)
Definition parse_manifest (p : pkg) (keys : table pkg_manifest_key) (obj : option ucl)
  : option (pkg_error_t * pkg) :=
  p ← fold_opt (parse_entry keys) (match obj with Some o => ucl_iterate_object (top_item o) true | None => [] end) p;
  Some (EPKG_OK, p).

(** The keys of the object are checked until one is known but not with its
    type. *)
Definition type_mismatch (keys : table pkg_manifest_key) (cur : item) : bool :=
  match ucl_object_key cur with
  | None => false
  | Some k =>
      match select_key keys k with
      | None => false
      | Some sk => match select_parser sk (ucl_object_type (i_val cur)) with None => true | Some _ => false end
      end
  end.

(** [fallback], from the object the UCL parser yields, if it yields one. *)
Definition needs_fallback (keys : table pkg_manifest_key) (obj : option ucl) : bool :=
  match obj with
  | None => true
  | Some o => existsb (type_mismatch keys) (ucl_iterate_object (top_item o) true)
  end.

(** *** YAML (yaml_to_ucl of libpkg/utils.c) *)

(** The object of libucl's parser for a text ([None]: an error, or no object),
    the root node of libyaml's document, and ucl_object_fromstring_common of a
    scalar, which may make it a number or a boolean. *)
Context (ucl_parse : cstring -> option ucl) (yaml_parse : cstring -> option yaml) (yaml_scalar : cstring -> ucl).

(** yaml_mapping_to_object and yaml_sequence_to_object: NULL for what is
    empty; a key that is not a scalar is read as if it were one. *)
Fixpoint yaml_to_object (y : yaml) : option (option ucl) :=
  match y with
  | YScalar s => Some (Some (yaml_scalar s))
  | YSequence l =>
      (fix sequence (l : list yaml) (obj : option (list ucl)) : option (option ucl) :=
        match l with
        | [] => Some (UArray <$> obj)
        | val :: l => sub ← yaml_to_object val; sequence l (Some (default [] obj ++ option_list sub))
        end) l None
  | YMapping l =>
      (fix mapping (l : list (yaml * yaml)) (obj : option (list (cstring * ucl))) : option (option ucl) :=
        match l with
        | [] => Some (UObject <$> obj)
        | (k, val) :: l =>
            sub ← yaml_to_object val;
            match sub, k with
            | None, _ => mapping l obj
            | Some _, YScalar k => mapping l (Some (ucl_object_insert_key (default [] obj) sub k))
            | Some _, _ => None
            end
        end) l None
  end.

Definition yaml_to_ucl (buffer : cstring) : option (option ucl) :=
  match yaml_parse buffer with
  | None | Some (YScalar _) => Some None
  | Some y => yaml_to_object y
  end.

Definition pkg_parse_manifest (p : pkg) (buf : cstring) (keys : table pkg_manifest_key)
  : option (pkg_error_t * pkg) :=
  let obj := ucl_parse buf in
  if needs_fallback keys obj then
    obj ← yaml_to_ucl buf;
    match obj with
    | None => Some (EPKG_FATAL, p)
    | Some obj => parse_manifest p keys (Some obj)
    end
  else parse_manifest p keys obj.

(** What a file yields: it does not exist, it cannot be opened or read for
    another reason, its text. *)
Inductive file_text := NoEntry | Unreadable | Text (s : cstring).

Definition pkg_parse_manifest_file (p : pkg) (file : file_text) (keys : table pkg_manifest_key)
  : option (pkg_error_t * pkg) :=
  match file with
  | NoEntry => Some (EPKG_FATAL, p)
  | Unreadable => Some (EPKG_FATAL, p)
  | Text s => pkg_parse_manifest p s keys
  end.

(** Here the text must be UCL; [Some None] is a text without an object. *)
Definition pkg_parse_manifest_fileat (add_string : cstring -> option (option ucl)) (p : pkg)
    (file : pkg_error_t + cstring) (keys : table pkg_manifest_key) : option (pkg_error_t * pkg) :=
  match file with
  | inl _ => Some (EPKG_FATAL, p)
  | inr data =>
      match add_string data with
      | None => Some (EPKG_FATAL, p)
      | Some obj => parse_manifest p keys obj
      end
  end.

(** ** Writing *)

Definition PKG_MANIFEST_EMIT_COMPACT : Z := 1.
Definition PKG_MANIFEST_EMIT_NOFILES : Z := 2.
Definition PKG_MANIFEST_EMIT_PRETTY : Z := 4.
Definition PKG_MANIFEST_EMIT_JSON : Z := 8.

(** A map or sequence is created for its first element. *)
Definition emit_map {V} (f : V -> cstring * ucl) (l : list V) : option ucl :=
  match l with [] => None | _ => Some (UObject (map f l)) end.

Definition emit_seq {V} (f : V -> ucl) (l : list V) : option ucl :=
  match l with [] => None | _ => Some (UArray (map f l)) end.

(** The attributes copied as they are. *)
Definition recopies : list nat :=
  [PKG_NAME; PKG_ORIGIN; PKG_VERSION; PKG_ARCH; PKG_MAINTAINER; PKG_PREFIX; PKG_WWW; PKG_CKSUM; PKG_FLATSIZE].

Definition recopy (p : pkg) (top : list (cstring * ucl)) (attr : nat) : list (cstring * ucl) :=
  match pkg_keys !! attr with
  | Some (k, _) => ucl_object_insert_key top (fields p !! k) k
  | None => top
  end.

(** pkg_get stores 64 bits where [licenselogic] has 32: these are the low
    ones. *)
Definition emit_licenselogic (logic : Z) : option ucl :=
  let logic := logic mod 2 ^ 32 in
  if logic =? LICENSE_SINGLE then Some (ucl_object_fromstring (str "single"))
  else if logic =? LICENSE_AND then Some (ucl_object_fromstring (str "and"))
  else if logic =? LICENSE_OR then Some (ucl_object_fromstring (str "or"))
  else None.

Definition emit_dep (d : pkg_dep) : cstring * ucl :=
  (dep_name d, UObject [(str "origin", ucl_object_fromstring (dep_origin d));
                        (str "version", ucl_object_fromstring (dep_version d))]).

(** The loops over conflicts and provides take the value of [option], which is
    NULL: pkg_option_value asserts that it is not. *)
Definition emit_null_option {V} (l : list V) : option (option ucl) :=
  match l with [] => Some None | _ => None end.

Definition emit_option (o : pkg_option) : cstring * ucl :=
  (pkg_option_opt o, ucl_object_fromstring (pkg_option_value o)).

Definition internal_annotation (k : cstring) : bool := streq k (str "repository") || streq k (str "relocated").

Definition emit_annotation (o : item) : option (cstring * ucl) :=
  k ← ucl_object_key o; if internal_annotation k then None else Some (k, i_val o).

Definition emit_annotations (o : ucl) : ucl := UObject (omap emit_annotation (ucl_iterate_object (top_item o) true)).

Definition emit_file (f : pkg_file) : cstring * ucl :=
  (urlencode (f_path f), ucl_object_fromstring (match f_sum f with [] => str "-" | s => s end)).

Definition emit_dir (d : pkg_dir) : cstring * ucl :=
  (urlencode (d_path d), ucl_object_fromstring (if d_try d then str "y" else str "n")).

Definition script_types (s : pkg_script) : cstring :=
  match s with
  | PKG_SCRIPT_PRE_INSTALL => str "pre-install"
  | PKG_SCRIPT_INSTALL => str "install"
  | PKG_SCRIPT_POST_INSTALL => str "post-install"
  | PKG_SCRIPT_PRE_UPGRADE => str "pre-upgrade"
  | PKG_SCRIPT_UPGRADE => str "upgrade"
  | PKG_SCRIPT_POST_UPGRADE => str "post-upgrade"
  | PKG_SCRIPT_PRE_DEINSTALL => str "pre-deinstall"
  | PKG_SCRIPT_DEINSTALL => str "deinstall"
  | PKG_SCRIPT_POST_DEINSTALL => str "post-deinstall"
  | PKG_SCRIPT_UNKNOWN => []
  end.

(** [for (i = 0; i < PKG_NUM_SCRIPTS; i++)] *)
Definition all_scripts : list pkg_script :=
  [ PKG_SCRIPT_PRE_INSTALL; PKG_SCRIPT_POST_INSTALL; PKG_SCRIPT_PRE_DEINSTALL; PKG_SCRIPT_POST_DEINSTALL;
    PKG_SCRIPT_PRE_UPGRADE; PKG_SCRIPT_POST_UPGRADE; PKG_SCRIPT_INSTALL; PKG_SCRIPT_DEINSTALL; PKG_SCRIPT_UPGRADE ].

(** An encoded text, trimmed. *)
Definition emit_encoded (s : cstring) : ucl := ucl_object_fromstring_common (urlencode s) true false.

Definition emit_script (p : pkg) (i : pkg_script) : option (cstring * ucl) :=
  s ← pkg_script_get p i; Some (script_types i, emit_encoded s).

Definition emit_scripts (p : pkg) : option ucl := emit_map id (omap (emit_script p) all_scripts).

(** The part that the compact form leaves out. *)
Definition emit_contents (p : pkg) (flags : Z) (top : list (cstring * ucl)) : option (list (cstring * ucl)) :=
  if flag_set flags PKG_MANIFEST_EMIT_COMPACT then Some top
  else
    top ← (if flag_set flags PKG_MANIFEST_EMIT_NOFILES then Some top
           else
             files ← pkg_files p;
             let top := ucl_object_insert_key top (emit_map emit_file files) (str "files") in
             dirs ← pkg_dirs p;
             Some (ucl_object_insert_key top (emit_map emit_dir dirs) (str "directories")));
    Some (ucl_object_insert_key top (emit_scripts p) (str "scripts")).

(** The lists, from deps to options. *)
Definition emit_lists (p : pkg) (top : list (cstring * ucl)) : option (list (cstring * ucl)) :=
  deps ← pkg_deps p;
  let top := ucl_object_insert_key top (emit_map emit_dep deps) (str "deps") in
  let top := ucl_object_insert_key top (pkg_get_object emit_single_json p PKG_CATEGORIES) (str "categories") in
  users ← pkg_users p;
  let top := ucl_object_insert_key top (emit_seq (fun u => ucl_object_fromstring (u_name u)) users) (str "users") in
  groups ← pkg_groups p;
  let top := ucl_object_insert_key top (emit_seq (fun g => ucl_object_fromstring (g_name g)) groups) (str "groups") in
  required ← pkg_shlibs_required p;
  let top := ucl_object_insert_key top (emit_seq ucl_object_fromstring required) (str "shlibs_required") in
  provided ← pkg_shlibs_provided p;
  let top := ucl_object_insert_key top (emit_seq ucl_object_fromstring provided) (str "shlibs_provided") in
  conflicts ← pkg_conflicts p;
  o ← emit_null_option conflicts;
  let top := ucl_object_insert_key top o (str "conflicts") in
  provides ← pkg_provides p;
  o ← emit_null_option provides;
  let top := ucl_object_insert_key top o (str "provides") in
  options ← pkg_options p;
  Some (ucl_object_insert_key top (emit_map emit_option options) (str "options")).

(** The scalar attributes, up to the description. *)
Definition emit_scalars (p : pkg) : list (cstring * ucl) :=
  let get := pkg_get_string emit_single_json p in
  let top := fold_left (recopy p) recopies [] in
  let top := ucl_object_insert_key top
    ((fun s => ucl_object_fromstring_common s true false) <$> get PKG_COMMENT) (str "comment") in
  let top := ucl_object_insert_key top (ucl_object_fromstring <$> get PKG_REPOPATH) (str "path") in
  let top := ucl_object_insert_key top (ucl_object_fromstring <$> get PKG_REPOPATH) (str "repopath") in
  let top := ucl_object_insert_key top
    (emit_licenselogic (pkg_get_int emit_single_json p PKG_LICENSE_LOGIC)) (str "licenselogic") in
  let top := ucl_object_insert_key top (pkg_get_object emit_single_json p PKG_LICENSES) (str "licenses") in
  let pkgsize := pkg_get_int emit_single_json p PKG_PKGSIZE in
  let top := ucl_object_insert_key top (if 0 <? pkgsize then Some (UInt pkgsize) else None) (str "pkgsize") in
  ucl_object_insert_key top (emit_encoded <$> get PKG_DESC) (str "desc").

Definition pkg_emit_object (p : pkg) (flags : Z) : option ucl :=
  top ← emit_lists p (emit_scalars p);
  let top := ucl_object_insert_key top
    (emit_annotations <$> pkg_get_object emit_single_json p PKG_ANNOTATIONS) (str "annotations") in
  top ← emit_contents p flags top;
  Some (UObject (ucl_object_insert_key top
    (match pkg_get_string emit_single_json p PKG_MESSAGE with
     | Some (c :: s) => Some (emit_encoded (c :: s))
     | _ => None
     end) (str "message"))).

Definition pkg_emit_filelist (p : pkg) : option ucl :=
  let get a := ucl_object_fromstring <$> pkg_get_string emit_single_json p a in
  let top := ucl_object_insert_key [] (get PKG_ORIGIN) (str "origin") in
  let top := ucl_object_insert_key top (get PKG_NAME) (str "name") in
  let top := ucl_object_insert_key top (get PKG_VERSION) (str "version") in
  files ← pkg_files p;
  Some (UObject (ucl_object_insert_key top
    (emit_seq (fun f => ucl_object_fromstring (urlencode (f_path f))) files) (str "files"))).

(** *** Text *)

Inductive ucl_emitter := UCL_EMIT_JSON | UCL_EMIT_JSON_COMPACT | UCL_EMIT_YAML.

Context (emit : ucl_emitter -> ucl -> cstring) (sha256 : cstring -> list Z).

Definition emitter_of (flags : Z) : ucl_emitter :=
  if Z.land flags PKG_MANIFEST_EMIT_PRETTY =? PKG_MANIFEST_EMIT_PRETTY then UCL_EMIT_YAML
  else if Z.land flags PKG_MANIFEST_EMIT_JSON =? PKG_MANIFEST_EMIT_JSON then UCL_EMIT_JSON
  else UCL_EMIT_JSON_COMPACT.

Definition emit_manifest (p : pkg) (flags : Z) : option cstring :=
  top ← pkg_emit_object p flags; Some (emit (emitter_of flags) top).

Definition pkg_emit_manifest_digest (digest : list Z) : cstring := flat_map hex_byte digest.

(** The text, and the digest of it when one is wanted; a file gets a newline. *)
Definition pkg_emit_manifest_generic (p : pkg) (flags : Z) (pdigest out_is_a_sbuf : bool)
  : option (cstring * option cstring) :=
  text ← emit_manifest p flags;
  Some (if out_is_a_sbuf then text else text ++ [chr 10],
        if pdigest then Some (pkg_emit_manifest_digest (sha256 text)) else None).

Definition pkg_emit_manifest_file (p : pkg) (flags : Z) (pdigest : bool) :=
  pkg_emit_manifest_generic p flags pdigest false.
Definition pkg_emit_manifest_sbuf (p : pkg) (flags : Z) (pdigest : bool) :=
  pkg_emit_manifest_generic p flags pdigest true.
Definition pkg_emit_manifest (p : pkg) (flags : Z) (pdigest : bool) :=
  pkg_emit_manifest_sbuf p flags pdigest.
End manifest.

(** ** Percent encoding *)

(** A C string has no NUL. *)
Definition no_nul (s : cstring) : bool := forallb (fun c => negb (Ascii.eqb c NUL)) s.

Lemma c_str_no_nul s : no_nul s = true -> c_str s = s.
Proof.
  induction s as [|c s IH]; [done|]. cbn. intros [Hc Hs]%andb_prop.
  destruct (Ascii.eqb c NUL); [done|]. f_equal. by apply IH.
Qed.

Lemma unescape_hex_byte einval c : unescape einval (hex_byte (code c)) = [c].
Proof. by_byte c. Qed.

Lemma urldecode_loop_encoded einval s dest :
  urldecode_loop einval (urlencode s) dest = (EPKG_OK, Finished (dest ++ s)).
Proof.
  revert dest. induction s as [|c s IH]; intros dest; [cbn; by rewrite app_nil_r|].
  unfold urlencode. cbn [flat_map]. unfold urlencode_char.
  destruct (negb (isascii c) || Ascii.eqb c "%") eqn:E.
  - transitivity (urldecode_loop einval (urlencode s) (dest ++ unescape einval (hex_byte (code c)))); [done|].
    by rewrite unescape_hex_byte, IH, <- app_assoc.
  - apply orb_false_iff in E as [_ E]. cbn [app urldecode_loop]. rewrite E. cbn [negb].
    fold (urlencode s). by rewrite IH, <- app_assoc.
Qed.

Lemma urldecode_encoded einval s : urldecode einval (urlencode s) = (EPKG_OK, Finished s).
Proof. apply urldecode_loop_encoded. Qed.

Lemma sbuf_data_encoded einval s : no_nul s = true -> sbuf_data (urldecode einval (urlencode s)).2 = Some s.
Proof. intros Hs. rewrite urldecode_encoded. cbn. by rewrite c_str_no_nul. Qed.

Lemma urlencode_char_inj_space c : whitespace_unsafe c = true -> urlencode_char c = [c].
Proof. by_byte c. Qed.

Lemma trim_urlencode s : trim (urlencode s) = urlencode (trim s).
Proof.
  apply trim_flat_map; [apply urlencode_char_inj_space|].
  intros c Hc. unfold urlencode_char. destruct (negb (isascii c) || Ascii.eqb c "%") eqn:E.
  - split; [by eexists _, _|]. cbn [rev app hex_byte]. eexists _, _. split; [reflexivity|]. by_byte c.
  - split; by eexists _, _.
Qed.

Lemma no_nul_app s t : no_nul (s ++ t) = no_nul s && no_nul t.
Proof. apply forallb_app. Qed.

Lemma no_nul_trim s : no_nul s = true -> no_nul (trim s) = true.
Proof.
  assert (forall s, no_nul (rev s) = no_nul s) as Hr.
  { induction s0 as [|c s0 IH]; [done|]. cbn. rewrite no_nul_app, IH. cbn. by rewrite andb_true_r, andb_comm. }
  assert (forall s, no_nul s = true -> no_nul (skip_whitespace s) = true) as Hs.
  { intros s0. destruct (skip_whitespace_suffix s0) as (ws & E & _). rewrite E at 1.
    rewrite no_nul_app. by intros [_ ?]%andb_prop. }
  intros H. unfold trim. rewrite Hr. apply Hs. rewrite Hr. by apply Hs.
Qed.

(** A text on which decoding fails ends in a percent sign. *)
Lemma urldecode_loop_fails einval n : forall s dest, (length s <= n)%nat -> (urldecode_loop einval s dest).1 <> EPKG_OK ->
  exists t, s = t ++ ["%"%char] /\ sbuf_data (urldecode_loop einval s dest).2 = None.
Proof.
  induction n as [|n IH]; intros s dest Hn; [by destruct s; [|cbn in Hn; lia]|].
  destruct s as [|c r]; [done|]. cbn [urldecode_loop].
  destruct (Ascii.eqb_spec c "%") as [->|Hc]; cbn [negb].
  - destruct r as [|h0 [|h1 r]]; [by exists []|done|]. intros H. apply IH in H as (t & -> & H); [|cbn in Hn; lia].
    by exists ("%"%char :: h0 :: h1 :: t).
  - intros H. apply IH in H as (t & -> & H); [|cbn in Hn; lia]. by exists (c :: t).
Qed.

Lemma urldecode_fails einval s : (urldecode einval s).1 <> EPKG_OK ->
  exists t, s = t ++ ["%"%char] /\ sbuf_data (urldecode einval s).2 = None.
Proof. by apply (urldecode_loop_fails einval (length s)). Qed.

(** Percent encoding loses nothing: urlencode yields ASCII text, urldecode
    accepts it and gives back the string, whatever strtol reports, and
    trimming the encoded text is trimming the string.  Decoding fails, its
    buffer left unfinished, only on a text that ends in a lone percent sign. *)
Theorem urldecode_urlencode (einval : bool) (s : cstring) :
  Forall (fun c => isascii c = true) (urlencode s) /\
  urldecode einval (urlencode s) = (EPKG_OK, Finished s) /\
  trim (urlencode s) = urlencode (trim s) /\
  ((urldecode einval s).1 <> EPKG_OK -> exists t, s = t ++ ["%"%char] /\ sbuf_data (urldecode einval s).2 = None).
Proof.
  split_and!; [|apply urldecode_encoded|apply trim_urlencode|].
  - induction s as [|c s IH]; [constructor|]. unfold urlencode. cbn [flat_map]. apply Forall_app. split; [|exact IH].
    unfold urlencode_char. destruct (isascii c) eqn:E; cbn [negb orb]; [destruct (Ascii.eqb c "%")|];
      try (by repeat constructor); (constructor; [done|]); clear; by_byte c; by repeat constructor.
  - apply urldecode_fails.
Qed.

(** ** The table of keys *)

(** What a scan of the keys yields: the type code of a name, and the function
    for a name and a type. *)
Definition find_type (l : list manifest_key) (k : cstring) : option Z :=
  mtype <$> find (fun m => bool_decide (key m = k)) l.

Definition find_parse (l : list manifest_key) (k : cstring) (t : ucl_type) : option parser :=
  parse_data <$> find (fun m => bool_decide (key m = k) && bool_decide (valid_type m = t)) l.

Lemma type_bytes_inj t1 t2 : type_bytes t1 = type_bytes t2 -> t1 = t2.
Proof. by destruct t1, t2. Qed.

Lemma find_type_snoc l m k : find_type (l ++ [m]) k =
  match find_type l k with Some x => Some x | None => if bool_decide (key m = k) then Some (mtype m) else None end.
Proof.
  unfold find_type. rewrite find_app. destruct (find _ l); [done|]. cbn. by case_bool_decide.
Qed.

Lemma find_parse_snoc l m k t : find_parse (l ++ [m]) k t =
  match find_parse l k t with
  | Some x => Some x
  | None => if bool_decide (key m = k) && bool_decide (valid_type m = t) then Some (parse_data m) else None
  end.
Proof. unfold find_parse. rewrite find_app. destruct (find _ l); [done|]. cbn. by destruct (_ && _). Qed.

Lemma find_parse_none l k t : find_type l k = None -> find_parse l k t = None.
Proof.
  unfold find_type, find_parse. intros H. rewrite fmap_None in H. apply fmap_None.
  induction l as [|m l IH]; [done|]. cbn in *. case_bool_decide; [done|]. cbn. by apply IH.
Qed.

Definition parser_for (l : list manifest_key) (sk : pkg_manifest_key) (k : cstring) : Prop :=
  find_type l k = Some (pmk_type sk) /\ wf_table (pmk_parser sk) /\
  forall t, dp_parse_data <$> select_parser sk (Some t) = find_parse l k t.

(** The table holds what a scan of the list finds. *)
Definition keys_for (l : list manifest_key) (t : table pkg_manifest_key) : Prop :=
  wf_table t /\
  forall k, match select_key t k with
            | Some sk => parser_for l sk k
            | None => find_type l k = None
            end.

(** A key that is new in the table. *)
Definition new_key (m : manifest_key) (t : table pkg_manifest_key) : table pkg_manifest_key :=
  match hash_find t (key m) with
  | Some _ => t
  | None => hash_add t (key m) (mk_pmk (key m) (mtype m) table_empty)
  end.

Lemma keys_for_new l t m : keys_for l t ->
  wf_table (new_key m t) /\
  (exists sk, select_key (new_key m t) (key m) = Some sk /\ wf_table (pmk_parser sk) /\
     find_type (l ++ [m]) (key m) = Some (pmk_type sk) /\
     forall ty, dp_parse_data <$> select_parser sk (Some ty) = find_parse l (key m) ty) /\
  (forall k, k <> key m -> select_key (new_key m t) k = select_key t k).
Proof.
  intros [Hw Hk]. unfold new_key. specialize (Hk (key m)). unfold select_key in *.
  destruct (hash_find t (key m)) as [i|] eqn:E.
  - split_and!; [done| |done]. destruct (hash_find_elements t (key m) i Hw E) as (sk & _ & Hl).
    rewrite Hl in *. destruct Hk as (Ht & Hp & Hf). exists sk. split_and!; try done.
    by rewrite find_type_snoc, Ht.
  - assert (hash_lookup t (key m) = None) as Hl by (unfold hash_lookup; by rewrite E). rewrite Hl in Hk.
    split_and!; [by apply wf_add| |intros k Hne; by apply hash_lookup_add_ne].
    eexists. split_and!; [by apply hash_lookup_add|apply wf_empty| |].
    + rewrite find_type_snoc, Hk. by rewrite bool_decide_eq_true_2.
    + intros ty. cbn. by rewrite find_parse_none.
Qed.

Lemma add_manifest_key_for l t m : keys_for l t -> keys_for (l ++ [m]) (add_manifest_key t m).
Proof.
  intros Hk. destruct (keys_for_new l t m Hk) as (Hw & (sk & Hsk & Hwp & Hty & Hp) & Hne).
  unfold add_manifest_key. fold (new_key m t). unfold select_key in *.
  destruct (hash_find (new_key m t) (key m)) as [i|] eqn:Ei;
    [|unfold hash_lookup in Hsk; by rewrite Ei in Hsk].
  assert (hash_get (new_key m t) i = Some sk) as Hget by (unfold hash_lookup in Hsk; by rewrite Ei in Hsk).
  cbn [mbind option_bind]. rewrite Hget. cbn [fmap option_fmap option_map].
  assert (forall k, k <> key m -> match hash_lookup t k with
            | Some sk => parser_for (l ++ [m]) sk k | None => find_type (l ++ [m]) k = None end) as Hother.
  { intros k Hkm. destruct Hk as [_ Hk]. specialize (Hk k). unfold select_key in Hk.
    destruct (hash_lookup t k) as [sk'|].
    - destruct Hk as (H1 & H2 & H3). split_and!; [by rewrite find_type_snoc, H1|done|].
      intros ty. rewrite find_parse_snoc, H3. destruct (find_parse l k ty); [done|].
      by rewrite (bool_decide_eq_false_2 (key m = k)).
    - rewrite find_type_snoc, Hk. by rewrite bool_decide_eq_false_2. }
  destruct (hash_find (pmk_parser sk) (type_bytes (valid_type m))) as [j|] eqn:Ej.
  - split; [done|]. intros k. destruct (decide (k = key m)) as [->|Hkm].
    + unfold select_key. rewrite Hsk. split_and!; try done. intros ty. rewrite Hp, find_parse_snoc.
      destruct (find_parse l (key m) ty) eqn:Ef; [done|]. rewrite bool_decide_eq_true_2 by done. cbn [andb].
      case_bool_decide as Hv; [|done]. exfalso. specialize (Hp ty). rewrite Ef in Hp.
      unfold select_parser in Hp. cbn [mbind option_bind] in Hp. subst ty.
      destruct (hash_find_elements _ _ _ Hwp Ej) as (d & _ & Hd). by rewrite Hd in Hp.
    + unfold select_key. rewrite Hne by done. by apply Hother.
  - split; [by apply wf_update|]. intros k. unfold select_key.
    rewrite (hash_lookup_update _ i _ (key m) k) by done. case_bool_decide as Hkm.
    + subst k. split_and!; cbn [pmk_type pmk_parser]; [done|by apply wf_add|].
      intros ty. rewrite find_parse_snoc, <- Hp. rewrite (bool_decide_eq_true_2 (key m = key m)) by done.
      unfold select_parser. cbn [mbind option_bind pmk_parser andb].
      destruct (decide (valid_type m = ty)) as [<-|Hv].
      * rewrite hash_lookup_add by done. rewrite bool_decide_eq_true_2 by done.
        unfold hash_lookup. by rewrite Ej.
      * rewrite hash_lookup_add_ne by (done || (intros H; by apply Hv, type_bytes_inj)).
        rewrite (bool_decide_eq_false_2 (valid_type m = ty)) by done. destruct (hash_lookup (pmk_parser sk) _); reflexivity.
    + rewrite Hne by done. by apply Hother.
Qed.

Lemma keys_for_fold l l' t : keys_for l t -> keys_for (l ++ l') (fold_left add_manifest_key l' t).
Proof.
  revert l t. induction l' as [|m l' IH]; intros l t Hk; cbn; [by rewrite app_nil_r|].
  replace (l ++ m :: l') with ((l ++ [m]) ++ l') by (by rewrite <- app_assoc).
  by apply IH, add_manifest_key_for.
Qed.

Lemma manifest_keys_for : keys_for manifest_keys (pkg_manifest_keys_new None).
Proof.
  apply (keys_for_fold [] manifest_keys table_empty). split; [apply wf_empty|]. done.
Qed.

(** The table pkg_manifest_keys_new builds answers the two look-ups of the
    manifest parser as a scan of manifest_keys does: a name is known exactly
    when it is listed, with the attribute of its first entry, and a value of
    some type is given to the function of the first entry with that name and
    type. *)
Theorem manifest_keys_lookup (k : cstring) :
  let keys := pkg_manifest_keys_new None in
  pmk_type <$> select_key keys k = find_type manifest_keys k /\
  forall t, (sk ← select_key keys k; dp_parse_data <$> select_parser sk t) = (t ← t; find_parse manifest_keys k t).
Proof.
  intros keys. destruct manifest_keys_for as [_ Hk]. specialize (Hk k). fold keys in Hk.
  destruct (select_key keys k) as [sk|].
  - destruct Hk as (H1 & _ & H3). split; [done|]. intros [t|]; [apply H3|done].
  - split; [done|]. intros [t|]; [|done]. symmetry. by apply find_parse_none.
Qed.

(** ** Dispatch *)

(** The next test of the attribute. *)
Ltac next_attr :=
  match goal with |- context [?a =? ?b] => is_var a; destruct (Z.eqb_spec a b); [subst a|] end.

Section reading.
Context (einval dev : bool) (emit_single_json : ucl -> cstring) (getmode : cstring -> option Z).

Definition keys_new : table pkg_manifest_key := pkg_manifest_keys_new None.

Lemma keys_new_for : keys_for manifest_keys keys_new.
Proof. exact manifest_keys_for. Qed.

(** The attribute and the function for a key of some type. *)
Definition dispatch (k : cstring) (t : option ucl_type) : option (Z * parser) :=
  a ← find_type manifest_keys k; t ← t; f ← find_parse manifest_keys k t; Some (a, f).

Lemma parse_entry_dispatch p cur :
  parse_entry einval dev emit_single_json getmode keys_new p cur =
  match k ← ucl_object_key cur; dispatch k (ucl_object_type (i_val cur)) with
  | Some (a, f) => added (run_parser einval dev emit_single_json getmode f p cur a)
  | None => Some p
  end.
Proof.
  unfold parse_entry, dispatch. destruct (ucl_object_key cur) as [k|]; [|done]. cbn [mbind option_bind].
  destruct keys_new_for as [_ Hk]. specialize (Hk k).
  destruct (select_key keys_new k) as [sk|]; [|by rewrite Hk].
  destruct Hk as (-> & _ & Hp). cbn [mbind option_bind].
  destruct (ucl_object_type (i_val cur)) as [t|]; [|done]. cbn [mbind option_bind]. rewrite <- Hp.
  by destruct (select_parser sk (Some t)).
Qed.

(** ** What reading keeps *)

Lemma wf_op p p' op : op_fits op = true -> wf_pkg p -> added (apply_op dev p op) = Some p' -> wf_pkg p'.
Proof.
  intros Hf Hw H. unfold added in H. destruct (apply_op dev p op) as [[r q]|] eqn:E; [|done].
  injection H as <-. by eapply wf_apply.
Qed.

Lemma added_inv (r : option pkg) p' : added (p ← r; Some (EPKG_OK, p)) = Some p' -> r = Some p'.
Proof. by destruct r as [q|]. Qed.

Lemma wf_array_append p p' attr name : wf_pkg p -> added (array_append p attr name) = Some p' -> wf_pkg p'.
Proof.
  intros Hw. unfold added, array_append. destruct (pkg_keys !! attr) as [[k t]|]; [|done]. cbn.
  destruct (fields p !! k) as [[]|]; try done. intros [= <-]. by apply wf_set_fields.
Qed.

Lemma wf_set p p' attr a : wf_pkg p -> added (pkg_set p attr a) = Some p' -> wf_pkg p'.
Proof. intros Hw. by apply (wf_op _ _ (OpSet [(attr, a)])). Qed.

Lemma wf_addlicense p p' name : wf_pkg p -> added (pkg_addlicense emit_single_json dev p name) = Some p' -> wf_pkg p'.
Proof.
  intros Hw. unfold pkg_addlicense. destruct (negb _); [done|].
  destruct (listed _ _ _) as [[]|]; cbn [mbind option_bind]; [by intros [= <-]| |done].
  destruct (pkg_get_object _ _ _); [by apply wf_array_append|].
  destruct (pkg_set p PKG_LICENSES _) as [[r q]|] eqn:E; [|done]. cbn [mbind option_bind].
  apply wf_array_append. eapply wf_set; [exact Hw|]. by rewrite E.
Qed.

Lemma wf_addcategory p p' name : wf_pkg p -> added (pkg_addcategory emit_single_json dev p name) = Some p' -> wf_pkg p'.
Proof.
  intros Hw. unfold pkg_addcategory. destruct (negb _); [done|].
  destruct (listed _ _ _) as [[]|]; cbn [mbind option_bind]; [by intros [= <-]| |done].
  destruct (pkg_get_object _ _ _); [by apply wf_array_append|].
  destruct (pkg_set p PKG_CATEGORIES _) as [[r q]|] eqn:E; [|done]. cbn [mbind option_bind].
  apply wf_array_append. eapply wf_set; [exact Hw|]. by rewrite E.
Qed.

(** The operation behind a call. *)
Ltac wf_call :=
  match goal with
  | Hw : wf_pkg ?p, H : added (pkg_addfile_attr _ ?p ?f ?s ?u ?g ?m ?c) = Some _ |- wf_pkg _ =>
      exact (wf_op p _ (OpFile f s u g m c) eq_refl Hw H)
  | Hw : wf_pkg ?p, H : added (pkg_addfile _ ?p ?f ?s ?c) = Some _ |- wf_pkg _ =>
      exact (wf_op p _ (OpFile f s None None 0 c) eq_refl Hw H)
  | Hw : wf_pkg ?p, H : added (pkg_adddir_attr _ ?p ?f ?u ?g ?m ?t ?c) = Some _ |- wf_pkg _ =>
      exact (wf_op p _ (OpDir f u g m t c) eq_refl Hw H)
  | Hw : wf_pkg ?p, H : added (pkg_adddir _ ?p ?f ?t ?c) = Some _ |- wf_pkg _ =>
      exact (wf_op p _ (OpDir f None None 0 t c) eq_refl Hw H)
  | Hw : wf_pkg ?p, H : added (pkg_adddep _ ?p ?n ?o ?v ?l) = Some _ |- wf_pkg _ =>
      exact (wf_op p _ (OpDep n o v l) eq_refl Hw H)
  | Hw : wf_pkg ?p, H : added (pkg_adduid _ ?p ?n ?u) = Some _ |- wf_pkg _ =>
      refine (wf_op p _ (OpUser n u) _ Hw H)
  | Hw : wf_pkg ?p, H : added (pkg_addgid _ ?p ?n ?u) = Some _ |- wf_pkg _ =>
      refine (wf_op p _ (OpGroup n u) _ Hw H)
  | Hw : wf_pkg ?p, H : added (pkg_adduser _ ?p ?n) = Some _ |- wf_pkg _ =>
      refine (wf_op p _ (OpUser n None) _ Hw H)
  | Hw : wf_pkg ?p, H : added (pkg_addgroup _ ?p ?n) = Some _ |- wf_pkg _ =>
      refine (wf_op p _ (OpGroup n None) _ Hw H)
  | Hw : wf_pkg ?p, H : added (pkg_addoption _ ?p ?k ?v) = Some _ |- wf_pkg _ =>
      exact (wf_op p _ (OpOption k v) eq_refl Hw H)
  | Hw : wf_pkg ?p, H : added (pkg_addscript ?p ?d ?t) = Some _ |- wf_pkg _ =>
      exact (wf_op p _ (OpScript d t) eq_refl Hw H)
  | Hw : wf_pkg ?p, H : added (pkg_addshlib_required ?p ?n) = Some _ |- wf_pkg _ =>
      exact (wf_op p _ (OpShlibRequired n) eq_refl Hw H)
  | Hw : wf_pkg ?p, H : added (pkg_addshlib_provided ?p ?n) = Some _ |- wf_pkg _ =>
      exact (wf_op p _ (OpShlibProvided n) eq_refl Hw H)
  | Hw : wf_pkg ?p, H : added (pkg_addconflict ?p ?n) = Some _ |- wf_pkg _ =>
      exact (wf_op p _ (OpConflict n) eq_refl Hw H)
  | Hw : wf_pkg ?p, H : added (pkg_addprovide ?p ?n) = Some _ |- wf_pkg _ =>
      exact (wf_op p _ (OpProvide n) eq_refl Hw H)
  end.

Lemma wf_set_files p p' obj : wf_pkg p ->
  added (pkg_set_files_from_object einval dev emit_single_json getmode p obj) = Some p' -> wf_pkg p'.
Proof.
  intros Hw. unfold pkg_set_files_from_object. destruct (ucl_object_key obj); [|by intros [= <-]].
  destruct (fold_left _ _ _) as [[[sum uname] gname] perm].
  destruct (sbuf_data _) as [f|]; [|done]. cbn [mbind option_bind].
  intros E%added_inv. wf_call.
Qed.

Lemma wf_set_dirs_obj p p' obj : wf_pkg p ->
  added (pkg_set_dirs_from_object einval dev emit_single_json getmode p obj) = Some p' -> wf_pkg p'.
Proof.
  intros Hw. unfold pkg_set_dirs_from_object. destruct (ucl_object_key obj); [|by intros [= <-]].
  destruct (fold_left _ _ _) as [[[uname gname] perm] try].
  destruct (sbuf_data _) as [f|]; [|done]. cbn [mbind option_bind].
  intros E%added_inv. wf_call.
Qed.

Lemma wf_set_deps_obj p p' obj : wf_pkg p ->
  added (pkg_set_deps_from_object dev emit_single_json p obj) = Some p' -> wf_pkg p'.
Proof.
  intros Hw. unfold pkg_set_deps_from_object. destruct (ucl_object_key obj) as [okey|]; [|by intros [= <-]].
  destruct (fold_opt _ _ _) as [[[o v] q]|] eqn:E; [|done]. intros [= <-].
  refine (fold_opt_keeps (fun st => wf_pkg st.2) _ _ (None, None, p) (o, v, q) _ Hw E).
  intros [[o1 v1] p1] x st' _ Hw1. change (wf_pkg p1) in Hw1. unfold dep_element.
  destruct (fold_left _ _ _) as [[o2|] [v2|]]; try (by intros [= <-]).
  destruct (added _) as [q'|] eqn:Eq; [|done]. intros [= <-]. change (wf_pkg q'). wf_call.
Qed.

Definition name_fits (k : cstring) : bool := (length k <? MAXLOGNAME)%nat.

Definition names_attr (attr : Z) : bool := (attr =? PKG_USERS) || (attr =? PKG_GROUPS).

(** The name a member has fits when it names a user or group. *)
Definition member_fits (attr : Z) (cur : item) : Prop :=
  names_attr attr = true -> forall k, ucl_object_key cur = Some k -> name_fits k = true.

(** The attributes whose functions keep the option table in order. *)
Definition keeps_options (attr : Z) : bool :=
  negb ((attr =? PKG_OPTION_DEFAULTS) || (attr =? PKG_OPTION_DESCRIPTIONS)).

Lemma wf_obj_member attr p p' cur : wf_pkg p -> keeps_options attr = true -> member_fits attr cur ->
  pkg_obj_member einval dev emit_single_json getmode attr p cur = Some p' -> wf_pkg p'.
Proof.
  intros Hw Hkeep Hfit. unfold pkg_obj_member. destruct (ucl_object_key cur) as [k|] eqn:Ek; [|by intros [= <-]].
  next_attr. { destruct (_ && _); [by intros [= <-]|]. by apply wf_set_deps_obj. }
  next_attr. { destruct (negb _); [by intros [= <-]|]. by apply wf_set_dirs_obj. }
  next_attr. { destruct (is_type _ _); [|by intros [= <-]]. intros H. wf_call. by apply Hfit. }
  next_attr. { destruct (is_type _ _); [|by intros [= <-]]. intros H. wf_call. by apply Hfit. }
  next_attr.
  { destruct (is_type UCL_BOOLEAN _).
    - destruct (sbuf_data _); [|done]. cbn [mbind option_bind]. intros H. wf_call.
    - destruct (is_type _ _); [by apply wf_set_dirs_obj|].
      destruct (ucl_object_tostring _); [|by intros [= <-]].
      destruct (sbuf_data _); [|done]. cbn [mbind option_bind]. intros H. wf_call. }
  next_attr.
  { destruct (ucl_object_tostring _).
    - destruct (sbuf_get _); [|done]. cbn [mbind option_bind]. intros H. wf_call.
    - destruct (is_type _ _); [|by intros [= <-]]. by apply wf_set_files. }
  next_attr. { destruct (i_val cur); try (by intros [= <-]); intros H; wf_call. }
  next_attr; [done|]. next_attr; [done|].
  next_attr.
  { destruct (ucl_object_tostring _); [|by intros [= <-]]. case_bool_decide as Hty; [by intros [= <-]|].
    destruct (sbuf_data _); [|done]. cbn [mbind option_bind]. intros H. wf_call. }
  next_attr; [|by intros [= <-]].
  destruct (ucl_object_tostring _) as [s|]; [|by intros [= <-]].
  intros H. apply (wf_op p p' (OpAnnotation k s) eq_refl Hw). by rewrite <- H.
Qed.

Lemma wf_obj attr p p' obj : wf_pkg p -> keeps_options attr = true ->
  (forall cur, cur ∈ ucl_iterate_object obj true -> member_fits attr cur) ->
  added (pkg_obj einval dev emit_single_json getmode p obj attr) = Some p' -> wf_pkg p'.
Proof.
  intros Hw Hk Hf H%added_inv. refine (fold_opt_keeps wf_pkg _ _ _ _ _ Hw H).
  intros q cur q' Hin Hq. by apply wf_obj_member; auto.
Qed.

(** The same of an element of an array, a name itself or an object of names. *)
Definition element_fits (attr : Z) (cur : item) : Prop :=
  names_attr attr = true ->
  (forall s, i_val cur = UString s -> name_fits s = true) /\
  (forall m, m ∈ ucl_iterate_object cur true -> is_type UCL_OBJECT cur = true -> member_fits attr m).

Lemma wf_string_element p p' cur add : wf_pkg p ->
  (forall s, i_val cur = UString s -> added (add s) = Some p' -> wf_pkg p') ->
  string_element cur add p = Some p' -> wf_pkg p'.
Proof.
  intros Hw Ha. unfold string_element. destruct (i_val cur); try (by intros [= <-]). by apply Ha.
Qed.

Lemma wf_array_element attr p p' cur : wf_pkg p -> element_fits attr cur ->
  pkg_array_element einval dev emit_single_json getmode attr p cur = Some p' -> wf_pkg p'.
Proof.
  intros Hw Hf. unfold pkg_array_element.
  next_attr. { apply wf_string_element; [done|]. intros s _. by apply wf_addcategory. }
  next_attr. { apply wf_string_element; [done|]. intros s _. by apply wf_addlicense. }
  next_attr.
  { destruct (Hf eq_refl) as [Hs Hm]. destruct (is_type _ _) eqn:Et.
    - apply wf_obj; [done|done|]. intros m Hin. by apply Hm.
    - apply wf_string_element; [done|]. intros s Es H. wf_call. by apply Hs. }
  next_attr.
  { destruct (Hf eq_refl) as [Hs Hm]. destruct (is_type _ _) eqn:Et.
    - apply wf_obj; [done|done|]. intros m Hin. by apply Hm.
    - apply wf_string_element; [done|]. intros s Es H. wf_call. by apply Hs. }
  next_attr.
  { destruct (is_type _ _) eqn:Et.
    - apply wf_obj; [done|done|]. by intros m Hin Hn.
    - apply wf_string_element; [done|]. intros s Es H. wf_call. }
  next_attr. { apply wf_string_element; [done|]. intros s _ H. wf_call. }
  next_attr. { apply wf_string_element; [done|]. intros s _ H. wf_call. }
  next_attr. { apply wf_string_element; [done|]. intros s _ H. wf_call. }
  next_attr; [|by intros [= <-]]. apply wf_string_element; [done|]. intros s _ H. wf_call.
Qed.

Lemma wf_array attr p p' obj : wf_pkg p ->
  (forall cur, cur ∈ ucl_iterate_object obj true -> element_fits attr cur) ->
  added (pkg_array einval dev emit_single_json getmode p obj attr) = Some p' -> wf_pkg p'.
Proof.
  intros Hw Hf H%added_inv. refine (fold_opt_keeps wf_pkg _ _ _ _ _ Hw H).
  intros q cur q' Hin Hq. apply wf_array_element; auto.
Qed.

Lemma wf_string attr p p' obj : wf_pkg p ->
  added (pkg_string einval emit_single_json p obj attr) = Some p' -> wf_pkg p'.
Proof.
  intros Hw. unfold pkg_string.
  assert (forall a v, added ('(_, q) ← pkg_set p a v; Some (EPKG_OK, q)) = Some p' -> wf_pkg p') as Hs.
  { intros a v H. apply (wf_set p p' a v Hw). destruct (pkg_set p a v) as [[r q]|]; done. }
  destruct (attr =? _).
  - repeat (destruct (_ : bool); [by apply Hs|]). by intros [= <-].
  - destruct (if _ : bool then _ else _); [|done]. cbn [mbind option_bind]. by apply wf_set.
Qed.

(** The names an object or array of users or groups holds. *)
Definition names_in (v : ucl) : list cstring :=
  match v with
  | UArray l => flat_map (fun v => match v with UString s => [s] | UObject l => map fst l | _ => [] end) l
  | UObject l => map fst l
  | _ => []
  end.

(** An entry of a manifest that does not set option defaults or descriptions
    and whose user and group names fit. *)
Definition entry_fits (kv : cstring * ucl) : bool :=
  if streq kv.1 (str "users") || streq kv.1 (str "groups") then forallb name_fits (names_in kv.2)
  else negb (streq kv.1 (str "option_defaults") || streq kv.1 (str "option_descriptions")).
End reading.

Lemma heads_in seen l cur : cur ∈ heads seen l -> exists k, i_key cur = Some k /\ (k, i_val cur) ∈ l.
Proof.
  revert seen. induction l as [|[k v] l IH]; intros seen; [by intros ?%elem_of_nil|]. cbn.
  assert (forall seen, cur ∈ heads seen l -> exists k', i_key cur = Some k' /\ (k', i_val cur) ∈ (k, v) :: l) as Hr.
  { intros seen' (k' & Hk & Hin)%IH. exists k'. split; [done|by right]. }
  case_bool_decide; [apply Hr|]. intros [->|Hin]%elem_of_cons; [|by eapply Hr].
  exists k. split; [done|by left].
Qed.

Lemma linear_in k l cur : cur ∈ linear k l -> i_key cur = k /\ i_val cur ∈ l.
Proof.
  induction l as [|v l IH]; [by intros ?%elem_of_nil|]. cbn.
  intros [->|[Hk Hv]%IH]%elem_of_cons; split; try done; [by left|by right].
Qed.

(** What the table of keys guarantees of every dispatch. *)
Definition key_sound (m : manifest_key) : bool :=
  (keeps_options (mtype m) || streq (key m) (str "option_defaults") || streq (key m) (str "option_descriptions")) &&
  Bool.eqb (names_attr (mtype m)) (streq (key m) (str "users") || streq (key m) (str "groups")) &&
  match parse_data m with
  | Pobj => bool_decide (valid_type m = UCL_OBJECT)
  | Parray => bool_decide (valid_type m = UCL_ARRAY)
  | _ => true
  end.

Lemma manifest_keys_sound m : m ∈ manifest_keys -> key_sound m = true.
Proof.
  intros Hm. assert (forallb key_sound manifest_keys = true) as H by reflexivity.
  rewrite forallb_forall in H. apply H. by apply list_elem_of_In.
Qed.

Lemma dispatch_sound k t a f : dispatch k t = Some (a, f) ->
  (keeps_options a = true \/ k = str "option_defaults" \/ k = str "option_descriptions") /\
  names_attr a = streq k (str "users") || streq k (str "groups") /\
  (f = Pobj -> t = Some UCL_OBJECT) /\ (f = Parray -> t = Some UCL_ARRAY).
Proof.
  unfold dispatch, find_type, find_parse.
  destruct (find _ manifest_keys) as [m1|] eqn:E1; [|done]. cbn [mbind option_bind fmap option_fmap option_map].
  destruct t as [t|]; [|done]. cbn [mbind option_bind].
  destruct (find (fun m => _ && _) manifest_keys) as [m2|] eqn:E2; [|done]. intros [= <- <-].
  apply find_elem in E1 as [Hm1 Hk1%bool_decide_eq_true], E2 as [Hm2 [_ Ht%bool_decide_eq_true]%andb_prop].
  apply manifest_keys_sound, andb_prop in Hm1 as [[H1 H2]%andb_prop _], Hm2 as [_ H3].
  rewrite Hk1 in *. apply Bool.eqb_prop in H2. split_and!; [|done| |].
  - apply orb_prop in H1 as [[H1|H1]%orb_prop|H1]; [by left| |]; right.
    + left. rewrite streq_spec in H1. by apply bool_decide_eq_true in H1.
    + right. rewrite streq_spec in H1. by apply bool_decide_eq_true in H1.
  - intros Hf. rewrite Hf in H3. apply bool_decide_eq_true in H3. congruence.
  - intros Hf. rewrite Hf in H3. apply bool_decide_eq_true in H3. congruence.
Qed.

Lemma names_in_member k l cur a : forallb name_fits (names_in (UObject l)) = true ->
  cur ∈ ucl_iterate_object (mk_item k (UObject l) []) true -> member_fits a cur.
Proof.
  intros Hn Hin _ k' Hk'. apply heads_in in Hin as (k2 & Hk2 & Hv). unfold ucl_object_key in Hk'. rewrite Hk' in Hk2. injection Hk2 as <-.
  rewrite forallb_forall in Hn. apply Hn. apply list_elem_of_In. cbn. apply list_elem_of_fmap. by exists (k', i_val cur).
Qed.

Lemma names_in_element l v : v ∈ l -> forallb name_fits (names_in (UArray l)) = true ->
  (forall s, v = UString s -> name_fits s = true) /\ forallb name_fits (names_in (match v with UObject _ => v | _ => UNull end)) = true.
Proof.
  intros Hin Hn. rewrite forallb_forall in Hn.
  assert (forall s, s ∈ (match v with UString s => [s] | UObject l => map fst l | _ => [] end) -> name_fits s = true) as Hv.
  { intros s Hs. apply Hn, in_flat_map. exists v. split; by apply list_elem_of_In. }
  split; [intros s ->; apply Hv; by left|]. destruct v; try done. apply forallb_forall. intros s Hs.
  apply Hv. by apply list_elem_of_In.
Qed.

Section reading_keeps.
Context (einval dev : bool) (emit_single_json : ucl -> cstring) (getmode : cstring -> option Z).

Lemma wf_parse_entry p p' cur k : wf_pkg p -> ucl_object_key cur = Some k -> entry_fits (k, i_val cur) = true ->
  parse_entry einval dev emit_single_json getmode keys_new p cur = Some p' -> wf_pkg p'.
Proof.
  intros Hw Hk Hf. rewrite parse_entry_dispatch, Hk. cbn [mbind option_bind].
  destruct (dispatch k _) as [[a f]|] eqn:Ed; [|by intros [= <-]].
  apply dispatch_sound in Ed as (Ho & Hn & Hobj & Harr). unfold entry_fits in Hf. cbn [fst snd] in Hf. rewrite <- Hn in Hf.
  assert (keeps_options a = true) as Hkeep.
  { destruct Ho as [?|Ho]; [done|]. assert (names_attr a = false) as Hna by (rewrite Hn; by destruct Ho as [-> | ->]).
    rewrite Hna in Hf. by destruct Ho as [-> | ->]. }
  destruct f; cbn [run_parser].
  - by apply wf_string.
  - by apply wf_set.
  - apply wf_array; [done|]. intros m Hin Ha. rewrite Ha in Hf.
    specialize (Harr eq_refl). destruct (i_val cur) as [| | |l|l| | |] eqn:Ev; try discriminate Harr.
    unfold ucl_iterate_object in Hin. rewrite Ev in Hin. apply linear_in in Hin as [_ Hin].
    destruct (names_in_element l (i_val m) Hin Hf) as [Hs Hm]. split; [done|].
    intros m' Hm' Ht. unfold is_type in Ht. destruct (i_val m) as [| | | |l'| | |] eqn:Em; try discriminate Ht.
    eapply (names_in_member (i_key m) l' m' a Hm). unfold ucl_iterate_object in *. by rewrite Em in Hm'.
  - apply wf_obj; [done|done|]. intros m Hin Ha. rewrite Ha in Hf.
    specialize (Hobj eq_refl). destruct (i_val cur) as [| | |l|l| | |] eqn:Ev; try discriminate Hobj.
    eapply (names_in_member (i_key cur) l m a Hf); [|done]. unfold ucl_iterate_object in *. by rewrite Ev in Hin.
Qed.

Lemma wf_parse_manifest p p' r o : wf_pkg p -> (forall l, o = UObject l -> forallb entry_fits l = true) ->
  parse_manifest einval dev emit_single_json getmode p keys_new (Some o) = Some (r, p') -> r = EPKG_OK /\ wf_pkg p'.
Proof.
  intros Hw Hf. unfold parse_manifest. destruct (fold_opt _ _ _) as [q|] eqn:E; [|done].
  intros [= <- <-]. split; [done|]. refine (fold_opt_keeps wf_pkg _ _ _ _ _ Hw E).
  intros p1 cur p2 Hin Hw1.
  assert (ucl_object_key cur = None \/ exists l k, o = UObject l /\ ucl_object_key cur = Some k /\ (k, i_val cur) ∈ l) as [Hk|(l & k & -> & Hk & Hl)].
  { destruct o as [| | |l|l| | |]; try (left; by apply linear_in in Hin as [? _]).
    right. apply heads_in in Hin as (k & Hk & Hl). by exists l, k. }
  - rewrite parse_entry_dispatch, Hk. by intros [= <-].
  - apply (wf_parse_entry _ _ _ k); [done|done|]. specialize (Hf l eq_refl). rewrite forallb_forall in Hf.
    apply Hf. by apply list_elem_of_In.
Qed.

(** C37: Reading any manifest keeps a package sound: whatever object the parser
    yields, as long as it sets no option defaults or descriptions and its user
    and group names fit their buffers, parse_manifest of a sound package
    answers EPKG_OK and leaves each list so that its iteration ends after
    pkg_list_count elements and lists no dependency, option, user, group,
    shared library, conflict or provide twice. *)
Theorem parse_manifest_sound (p p' : pkg) (r : pkg_error_t) (o : ucl) (l : pkg_list)
  (Hw : wf_pkg p) (Hfits : forall es, o = UObject es -> forallb entry_fits es = true)
  (Hparse : parse_manifest einval dev emit_single_json getmode p keys_new (Some o) = Some (r, p')) :
  r = EPKG_OK /\ list_sound p' l.
Proof. destruct (wf_parse_manifest p p' r o Hw Hfits Hparse). split; [done|]. by apply wf_list_sound. Qed.
End reading_keeps.

(** ** Witnesses *)

(** What is missing in the libraries around, for concrete packages: no JSON
    text, no file modes. *)
Definition no_json (o : ucl) : cstring := str "0".
Definition no_mode (s : cstring) : option Z := None.

Lemma parse_manifest_sound_witness :
  exists p', parse_manifest true false no_json no_mode (pkg_new PKG_FILE) keys_new
      (Some (UObject [(str "deps", UObject [(str "a", UObject [(str "origin", UString (str "x/a")); (str "version", UInt 1)])]);
                      (str "users", UArray [UString (str "bob"); UString (str "bob")])])) = Some (EPKG_OK, p') /\
    list_sound p' Pkg.PKG_USERS /\ pkg_list_count p' Pkg.PKG_USERS = 1%nat.
Proof.
  eexists. split_and!; [vm_compute; reflexivity| |vm_compute; reflexivity].
  refine (proj2 (parse_manifest_sound true false no_json no_mode (pkg_new PKG_FILE) _ EPKG_OK
    (UObject [(str "deps", UObject [(str "a", UObject [(str "origin", UString (str "x/a")); (str "version", UInt 1)])]);
              (str "users", UArray [UString (str "bob"); UString (str "bob")])]) Pkg.PKG_USERS
    (wf_pkg_new PKG_FILE) _ _)); [|vm_compute; reflexivity].
  intros es E. injection E as <-. vm_compute. reflexivity.
Defined.

(** The member "try" of a directory's object is never true: it is a boolean,
    and read as an integer. *)
Lemma dir_try_lost emit_single_json getmode l st :
  (fold_left (dir_member emit_single_json getmode) l st).2 = true -> st.2 = true.
Proof.
  revert st. induction l as [|cur l IH]; intros st; [done|]. cbn [fold_left]. intros H%IH. revert H.
  destruct st as [[[u g] m] t]. unfold dir_member, is_type. cbn [snd].
  destruct (ucl_object_key cur) as [k|]; [|done].
  destruct (strcasecmp k (str "uname") =? 0), (strcasecmp k (str "gname") =? 0), (strcasecmp k (str "perm") =? 0),
    (strcasecmp k (str "try") =? 0), (i_val cur); cbn; try done; by destruct (getmode _).
Qed.
