(* ===== verification/ManifestRoundtrip.v ===== *)
(** * A manifest can be read back (libpkg/pkg_manifest.c)

    The object pkg_emit_object builds is read entry by entry ([reads]); for each
    kind of entry a lemma says what pkg_parse_manifest makes of it
    ([chunk_...]), and together they give the package the whole object is read
    as ([reloaded]). *)
From S2P Require Import Prelude CString UtHash Pkg Checksum Ucl Manifest.

(** ** Writing and reading back *)

Lemma urlencode_inj s1 s2 : urlencode s1 = urlencode s2 -> s1 = s2.
Proof.
  intros H. pose proof (urldecode_encoded false s1) as H1. rewrite H, (urldecode_encoded false s2) in H1. congruence.
Qed.

(** A table of elements added in order. *)
Definition add_all {V} (key_of : V -> cstring) (l : list V) (t : table V) : table V :=
  fold_left (fun t v => hash_add t (key_of v) v) l t.

Lemma add_all_keyed {V} (key_of : V -> cstring) l t : keyed key_of t -> keyed key_of (add_all key_of l t).
Proof. revert t. induction l as [|v l IH]; intros t Hk; [done|]. cbn. apply IH. by apply keyed_add. Qed.

Lemma add_all_values {V} (key_of : V -> cstring) l t : keyed key_of t ->
  values (add_all key_of l t) = values t ++ l.
Proof.
  revert t. induction l as [|v l IH]; intros t Hk; [by rewrite app_nil_r|].
  change (add_all key_of (v :: l) t) with (add_all key_of l (hash_add t (key_of v) v)).
  rewrite IH by (by apply keyed_add). rewrite values_add by apply Hk. by rewrite <- app_assoc.
Qed.

Lemma add_all_iter {V} (key_of : V -> cstring) l : hash_iter (add_all key_of l table_empty) = Some l.
Proof.
  pose proof (add_all_keyed key_of l _ (keyed_empty key_of)) as Hk.
  rewrite (proj1 (keyed_iter key_of _ Hk)). f_equal. by rewrite (add_all_values key_of) by apply keyed_empty.
Qed.

Lemma found_add {V} (t : table V) k v k' : wf_table t -> k' <> k -> found (hash_add t k v) k' = found t k'.
Proof.
  intros Hw Hne. rewrite !found_spec by (done || by apply wf_add). apply bool_decide_ext.
  rewrite keys_add, elem_of_app, list_elem_of_singleton by done. tauto.
Qed.

(** A loop whose every turn adds one element. *)
Lemma fold_opt_add {S X V} (step : S -> X -> option S) (at_table : table V -> S) (key_of : V -> cstring) (mk : X -> V) l t :
  keyed key_of t -> NoDup (map (fun x => key_of (mk x)) l) -> (forall x, x ∈ l -> found t (key_of (mk x)) = false) ->
  (forall t x, x ∈ l -> found t (key_of (mk x)) = false ->
     step (at_table t) x = Some (at_table (hash_add t (key_of (mk x)) (mk x)))) ->
  fold_opt step l (at_table t) = Some (at_table (add_all key_of (map mk l) t)).
Proof.
  revert t. induction l as [|x l IH]; intros t Hk Hn Hf Hs; [done|]. cbn [fold_opt map add_all fold_left].
  apply NoDup_cons in Hn as [Hx Hn].
  rewrite Hs by (try apply Hf; by left). cbn [mbind option_bind]. apply IH.
  - by apply keyed_add.
  - done.
  - intros y Hy. rewrite found_add; [apply Hf; by right|apply Hk|].
    intros E. apply Hx. rewrite <- E. apply list_elem_of_fmap. by exists y.
  - intros t' y Hy. apply Hs. by right.
Qed.

(** The same of a loop that adds without looking. *)
Lemma fold_opt_push {S X V} (step : S -> X -> option S) (at_table : table V -> S) (key_of : V -> cstring) (mk : X -> V) l t :
  (forall t x, x ∈ l -> step (at_table t) x = Some (at_table (hash_add t (key_of (mk x)) (mk x)))) ->
  fold_opt step l (at_table t) = Some (at_table (add_all key_of (map mk l) t)).
Proof.
  revert t. induction l as [|x l IH]; intros t Hs; [done|]. cbn [fold_opt map add_all fold_left].
  rewrite Hs by (by left). cbn [mbind option_bind]. apply IH. intros t' y Hy. apply Hs. by right.
Qed.

(** What a manifest keeps of a dependency, an option, a user, ... *)
Definition kept_dep (d : pkg_dep) : pkg_dep := new_dep (dep_name d) (dep_origin d) (dep_version d) false.
Definition kept_option (o : pkg_option) : pkg_option :=
  mk_option (Some (pkg_option_opt o)) (Some (pkg_option_value o)) None None.
Definition kept_user (u : pkg_user) : pkg_user := mk_user (u_name u) [].
Definition kept_group (g : pkg_group) : pkg_group := mk_group (g_name g) [].
Definition kept_file (f : pkg_file) : pkg_file :=
  mk_file (f_path f) (if Nat.eqb (length (f_sum f)) 64 then f_sum f else []) [] [] 0.
Definition kept_dir (d : pkg_dir) : pkg_dir := mk_dir (d_path d) [] [] 0 (d_try d).

(** ... and of the attributes: the key they are read back under. *)
Definition kept_string (p : pkg) (k : cstring) : option cstring := fields p !! k ≫= ucl_object_tostring.

Definition kept_logic (p : pkg) : option ucl :=
  match fields p !! str "licenselogic" with
  | Some (UInt z) =>
      let z := z mod 2 ^ 32 in
      if (z =? LICENSE_SINGLE) || (z =? LICENSE_AND) || (z =? LICENSE_OR) then Some (UInt z) else None
  | _ => None
  end.

Definition kept_pkgsize (p : pkg) : option ucl :=
  match fields p !! str "pkgsize" with Some (UInt z) => if 0 <? z then Some (UInt z) else None | _ => None end.

Definition kept_annotations (p : pkg) : option ucl :=
  match fields p !! str "annotations" with
  | Some (UObject l) =>
      match List.filter (fun kv => negb (internal_annotation kv.1)) l with [] => None | l => Some (UObject l) end
  | _ => None
  end.

Definition kept_fields (p : pkg) : list (cstring * option ucl) :=
  map (fun k => (k, fields p !! k))
    [str "name"; str "origin"; str "version"; str "arch"; str "maintainer"; str "prefix"; str "www"; str "sum"; str "flatsize"] ++
  [ (str "comment", (fun s => UString (trim s)) <$> kept_string p (str "comment"));
    (str "repopath", UString <$> kept_string p (str "repopath"));
    (str "licenselogic", kept_logic p);
    (str "licenses", fields p !! str "licenses");
    (str "pkgsize", kept_pkgsize p);
    (str "desc", (fun s => UString (trim s)) <$> kept_string p (str "desc"));
    (str "categories", fields p !! str "categories");
    (str "annotations", kept_annotations p);
    (str "message", s ← kept_string p (str "message");
                    match s with [] => None | _ => Some (UString (urlencode (trim s))) end) ].

(** The attributes after reading, from such a list. *)
Definition put_fields (l : list (cstring * option ucl)) : gmap cstring ucl :=
  fold_left (fun m kv => ucl_object_replace_key m kv.2 kv.1) l ∅.

Lemma put_fields_snoc l k o : put_fields (l ++ [(k, o)]) = ucl_object_replace_key (put_fields l) o k.
Proof. unfold put_fields. by rewrite fold_left_app. Qed.

Lemma put_fields_lookup l k : NoDup (map fst l) ->
  put_fields l !! k = (snd <$> find (fun kv => bool_decide (kv.1 = k)) l) ≫= id.
Proof.
  induction l as [|[k' o] l IH] using rev_ind; intros Hn; [done|].
  rewrite map_app in Hn. apply NoDup_app in Hn as (Hn & Hd & _). rewrite put_fields_snoc, find_app. cbn.
  assert (k = k' -> find (fun kv : cstring * option ucl => bool_decide (kv.1 = k)) l = None) as Hnone.
  { intros ->. destruct (find _ l) as [kv|] eqn:E; [|done]. apply find_elem in E as [Hin Hk%bool_decide_eq_true].
    exfalso. apply (Hd k'); [|by left]. apply list_elem_of_fmap. by exists kv. }
  destruct (decide (k = k')) as [->|Hne].
  - rewrite bool_decide_eq_true_2, Hnone by done. rewrite Hnone in IH by done. cbn.
    destruct o as [o|]; cbn; [by rewrite lookup_insert_eq|by apply IH].
  - rewrite (bool_decide_eq_false_2 (k' = k)) by congruence.
    transitivity (put_fields l !! k); [destruct o; [cbn; by rewrite lookup_insert_ne|done]|].
    rewrite IH by done. by destruct (find _ l).
Qed.

Section roundtrip.
Context (einval dev : bool) (emit_single_json : ucl -> cstring) (getmode : cstring -> option Z) (ty : pkg_t).

Definition entry_item (kv : cstring * ucl) : item := mk_item (Some kv.1) (wire kv.2) [].

(** Reading the entries of [top], whose keys are among [ks], into a new
    package gives [q], and no key has a type the parser does not know. *)
Definition reads (ks : list cstring) (top : list (cstring * ucl)) (q : pkg) : Prop :=
  fold_opt (parse_entry einval dev emit_single_json getmode keys_new) (map entry_item top) (pkg_new ty) = Some q /\
  existsb (type_mismatch keys_new) (map entry_item top) = false /\ map fst top `sublist_of` ks.

(** One more entry, which may be absent. *)
Definition chunk (q : pkg) (o : option ucl) (k : cstring) (q' : pkg) : Prop :=
  match o with
  | None => q' = q
  | Some o => exists a f, dispatch k (ucl_object_type (wire o)) = Some (a, f) /\
      added (run_parser einval dev emit_single_json getmode f q (entry_item (k, o)) a) = Some q'
  end.

Lemma type_mismatch_dispatch cur k a f : ucl_object_key cur = Some k ->
  dispatch k (ucl_object_type (i_val cur)) = Some (a, f) -> type_mismatch keys_new cur = false.
Proof.
  intros Hk Hd. unfold type_mismatch. rewrite Hk. unfold dispatch in Hd.
  destruct keys_new_for as [_ Hm]. specialize (Hm k).
  destruct (select_key keys_new k) as [sk|]; [|done]. destruct Hm as (E & _ & Hp). rewrite E in Hd. cbn [mbind option_bind] in Hd.
  destruct (ucl_object_type (i_val cur)) as [t|]; [|done]. cbn [mbind option_bind] in Hd. rewrite <- Hp in Hd.
  by destruct (select_parser sk (Some t)).
Qed.

Lemma reads_nil : reads [] [] (pkg_new ty).
Proof. done. Qed.

Lemma reads_snoc ks top q o k q' : reads ks top q -> chunk q o k q' ->
  reads (ks ++ [k]) (ucl_object_insert_key top o k) q'.
Proof.
  intros (Hr & Hm & Hs) Hc. destruct o as [o|]; cbn [ucl_object_insert_key chunk] in *.
  - destruct Hc as (a & f & Hd & Ha). unfold reads. rewrite !map_app, fold_opt_app, existsb_app, Hr, Hm.
    cbn [map mbind option_bind fold_opt existsb orb]. split_and!.
    + rewrite parse_entry_dispatch. cbn [entry_item ucl_object_key i_key i_val fst snd mbind option_bind].
      rewrite Hd. fold (entry_item (k, o)). by rewrite Ha.
    + rewrite (type_mismatch_dispatch _ k a f); done.
    + by apply sublist_app.
  - subst q'. split_and!; [done|done|]. by apply sublist_inserts_r.
Qed.

(** *** Attributes *)

Lemma set_fields_same q : set_fields q (fields q) = q.
Proof. by destruct q. Qed.

Definition is_string_field (o : option ucl) : bool := match o with None | Some (UString _) => true | _ => false end.
Definition is_int_field (o : option ucl) : bool := match o with None | Some (UInt _) => true | _ => false end.

(** A chunk for an absent value changes nothing; for a value of its type the
    dispatch and the function compute. *)
Ltac chunk_field o :=
  destruct o as [[]|]; try done; [eexists _, _; split; reflexivity|refine (set_fields_same _)].

Lemma chunk_recopy q attr k o : (attr, k) ∈ [(PKG_NAME, str "name"); (PKG_ORIGIN, str "origin"); (PKG_VERSION, str "version");
    (PKG_ARCH, str "arch"); (PKG_MAINTAINER, str "maintainer"); (PKG_PREFIX, str "prefix"); (PKG_WWW, str "www");
    (PKG_CKSUM, str "sum"); (PKG_COMMENT, str "comment"); (PKG_REPOPATH, str "repopath"); (PKG_MESSAGE, str "message")] ->
  is_string_field o = true -> chunk q o k (set_fields q (ucl_object_replace_key (fields q) o k)).
Proof.
  intros Hin Ho. repeat (apply elem_of_cons in Hin as [[= -> ->]|Hin]; [chunk_field o|]). by apply elem_of_nil in Hin.
Qed.

Lemma chunk_path q o : is_string_field o = true ->
  chunk q o (str "path") (set_fields q (ucl_object_replace_key (fields q) o (str "repopath"))).
Proof. intros Ho. chunk_field o. Qed.

Lemma chunk_int q k o : k ∈ [str "flatsize"; str "pkgsize"] -> is_int_field o = true ->
  chunk q o k (set_fields q (ucl_object_replace_key (fields q) o k)).
Proof.
  intros Hin Ho. repeat (apply elem_of_cons in Hin as [->|Hin]; [chunk_field o|]). by apply elem_of_nil in Hin.
Qed.

Lemma chunk_logic q z : 
  chunk q (emit_licenselogic z) (str "licenselogic")
    (set_fields q (ucl_object_replace_key (fields q)
      (let z := z mod 2 ^ 32 in
       if (z =? LICENSE_SINGLE) || (z =? LICENSE_AND) || (z =? LICENSE_OR) then Some (UInt z) else None)
      (str "licenselogic"))).
Proof.
  unfold emit_licenselogic. cbv zeta.
  destruct (Z.eqb_spec (z mod 2 ^ 32) LICENSE_SINGLE) as [->|]; [eexists _, _; split; reflexivity|].
  destruct (Z.eqb_spec (z mod 2 ^ 32) LICENSE_AND) as [->|]; [eexists _, _; split; reflexivity|].
  destruct (Z.eqb_spec (z mod 2 ^ 32) LICENSE_OR) as [->|]; [eexists _, _; split; reflexivity|].
  exact (set_fields_same q).
Qed.

Lemma chunk_desc q o : (forall s, o = Some s -> no_nul s = true) ->
  chunk q (emit_encoded <$> o) (str "desc")
    (set_fields q (ucl_object_replace_key (fields q) ((fun s => UString (trim s)) <$> o) (str "desc"))).
Proof.
  intros Hn. destruct o as [s|]; [|refine (set_fields_same _)]. specialize (Hn s eq_refl).
  cbn [fmap option_fmap option_map]. exists (attr_code PKG_DESC), Pstring. split; [reflexivity|].
  cbn [run_parser]. unfold pkg_string, emit_encoded, ucl_object_fromstring_common.
  cbn [entry_item i_val snd wire ucl_object_tostring_forced]. rewrite trim_urlencode.
  change (attr_code PKG_DESC =? attr_code PKG_LICENSE_LOGIC) with false. cbn [mbind option_bind].
  change (attr_code PKG_DESC =? attr_code PKG_DESC) with true. cbn [mbind option_bind].
  rewrite urldecode_encoded. cbn [snd sbuf_finish sbuf_data]. rewrite c_str_no_nul by (by apply no_nul_trim).
  reflexivity.
Qed.


(** *** Lists *)

(** An object with one member per element. *)
Lemma chunk_map {X} (f : X -> cstring * ucl) (l : list X) k a q q' :
  dispatch k (Some UCL_OBJECT) = Some (a, Pobj) -> NoDup (map (fun x => (f x).1) l) ->
  fold_opt (fun q x => pkg_obj_member einval dev emit_single_json getmode a q
                         (mk_item (Some (f x).1) (wire (f x).2) [])) l q = Some q' ->
  chunk q (emit_map f l) k q'.
Proof.
  intros Hd Hn Hf. destruct l as [|x l]; [by injection Hf|]. cbn [emit_map chunk].
  rewrite wire_object by (by rewrite map_map). exists a, Pobj. split; [done|].
  cbn [run_parser]. unfold pkg_obj, ucl_iterate_object, entry_item. cbn [i_val fst snd].
  rewrite wire_object by (by rewrite map_map). rewrite heads_distinct by (by rewrite !map_map).
  rewrite !map_map, fold_opt_map. cbn [fst snd]. by rewrite Hf.
Qed.

(** An array with one element per element. *)
Lemma chunk_seq {X} (f : X -> ucl) (l : list X) k a q q' :
  dispatch k (Some UCL_ARRAY) = Some (a, Parray) ->
  fold_opt (pkg_array_element einval dev emit_single_json getmode a) (linear None (map (fun x => wire (f x)) l)) q = Some q' ->
  chunk q (emit_seq f l) k q'.
Proof.
  intros Hd Hf. destruct l as [|x l]; [by injection Hf|]. exists a, Parray. split; [done|].
  cbn [run_parser]. unfold pkg_array, ucl_iterate_object, entry_item. cbn [i_val fst snd wire].
  rewrite map_map. by rewrite Hf.
Qed.

(** Each of the functions that add, on an element that is not there yet. *)
Lemma nonempty_true s : s <> [] -> nonempty s = true.
Proof. by destruct s. Qed.

Definition json_safe (s : cstring) : bool := forallb (fun c => negb (json_unsafe c)) s.

Lemma fromstring_safe s : json_safe s = true -> ucl_object_fromstring s = UString s.
Proof. intros H. unfold ucl_object_fromstring, ucl_object_fromstring_common. by rewrite escape_safe. Qed.

Definition dep_emits (d : pkg_dep) : bool :=
  nonempty (dep_name d) && nonempty (dep_origin d) && nonempty (dep_version d) &&
  json_safe (dep_origin d) && json_safe (dep_version d).

(** Reading one dependency as it was written. *)
Lemma read_dep p name o v :
  pkg_obj_member einval dev emit_single_json getmode PKG_DEPS p
    (mk_item (Some name) (wire (UObject [(str "origin", UString o); (str "version", UString v)])) []) =
  added (pkg_adddep dev p name o v false).
Proof.
  transitivity (added ('(_, _, p) ← (p' ← added (pkg_adddep dev p name o v false);
    Some (Some o, Some v, p')); Some (EPKG_OK, p)));
    [|by destruct (added (pkg_adddep dev p name o v false))].
  change (wire _) with (UObject [(str "origin", UString o); (str "version", UString v)]).
  unfold pkg_obj_member. cbn [ucl_object_key i_key i_val].
  change (PKG_DEPS =? PKG_DEPS) with true. cbv iota.
  change (negb (is_type UCL_OBJECT _) && _) with false. cbv iota.
  unfold pkg_set_deps_from_object. cbn [ucl_object_key i_key]. do 2 f_equal.
  transitivity (x ← dep_element dev emit_single_json name (None, None, p)
    (mk_item (Some name) (UObject [(str "origin", UString o); (str "version", UString v)]) []); Some x).
  - reflexivity.
  - unfold dep_element.
    change (fold_left _ _ _) with (Some o, Some v). cbv iota.
    destruct (added (pkg_adddep dev p name o v false)); reflexivity.
Qed.

Lemma chunk_deps q ds : forallb dep_emits ds = true -> NoDup (map dep_name ds) -> NoDup (map dep_origin ds) ->
  deps q = table_empty ->
  chunk q (emit_map emit_dep ds) (str "deps") (set_deps q (add_all dep_origin (map kept_dep ds) table_empty)).
Proof.
  intros Hok Hn Ho Hq. apply (chunk_map _ _ _ PKG_DEPS); [reflexivity|done|].
  assert (q = set_deps q table_empty) as Eq by (rewrite <- Hq; by destruct q). rewrite Eq at 1.
  refine (fold_opt_add _ (fun t => set_deps q t) dep_origin kept_dep ds table_empty _ Ho _ _);
    [apply keyed_empty|done|].
  intros t d Hd Hf. rewrite forallb_forall in Hok.
  apply list_elem_of_In, Hok in Hd. unfold dep_emits in Hd. rewrite !andb_true_iff in Hd.
  destruct Hd as ((((H1 & H2) & H3) & H4) & H5). cbn [emit_dep fst snd].
  rewrite !fromstring_safe by done.
  rewrite read_dep. unfold pkg_adddep. rewrite H1, H2, H3. cbn [negb andb deps set_deps].
  change (found t (dep_origin d) = false) in Hf. by rewrite Hf.
Qed.

(** Elements of an array of strings. *)
Lemma linear_map {X B} (f : X -> ucl) (g : item -> B) (h : X -> B) l :
  (forall x nx, x ∈ l -> g (mk_item None (f x) nx) = h x) -> map g (linear None (map f l)) = map h l.
Proof.
  induction l as [|x l IH]; intros H; [done|]. cbn. rewrite H by (by left). f_equal. apply IH.
  intros y nx Hy. apply H. by right.
Qed.

Definition item_string (o : item) : cstring := default [] (ucl_object_tostring (i_val o)).

Lemma linear_strings l cur : cur ∈ linear None (map UString l) -> i_val cur = UString (item_string cur) /\ item_string cur ∈ l.
Proof.
  intros [_ H]%linear_in. apply list_elem_of_fmap in H as (s & Hs & Hin). unfold item_string. by rewrite Hs.
Qed.

Lemma linear_item_strings {B} (h : cstring -> B) l : map (fun o => h (item_string o)) (linear None (map UString l)) = map h l.
Proof. by apply linear_map. Qed.

(** An array of names, each added to a table it is not in. *)
Lemma chunk_names {V} (at_table : table V -> pkg) (key_of : V -> cstring) (mk : cstring -> V) names k a q :
  dispatch k (Some UCL_ARRAY) = Some (a, Parray) -> q = at_table table_empty ->
  (forall s, key_of (mk s) = s) -> NoDup names -> forallb json_safe names = true ->
  (forall t s nx, s ∈ names -> found t s = false ->
     pkg_array_element einval dev emit_single_json getmode a (at_table t) (mk_item None (UString s) nx) =
     Some (at_table (hash_add t s (mk s)))) ->
  chunk q (emit_seq ucl_object_fromstring names) k (at_table (add_all key_of (map mk names) table_empty)).
Proof.
  intros Hd -> Hkey Hn Hsafe Hstep. apply (chunk_seq _ _ _ a); [done|].
  replace (map (fun x => wire (ucl_object_fromstring x)) names) with (map UString names).
  2:{ apply map_ext_in. intros s Hs. rewrite forallb_forall in Hsafe. by rewrite fromstring_safe by (by apply Hsafe). }
  rewrite <- (linear_item_strings mk names).
  apply (fold_opt_add _ at_table key_of (fun o => mk (item_string o))); [apply keyed_empty| |done|].
  - rewrite (map_ext _ (fun o => item_string o)) by (intros; apply Hkey).
    by rewrite (linear_item_strings (fun s => s)), map_id.
  - intros t [ky v nx] Hx Hf. pose proof (linear_in _ _ _ Hx) as [Hky _]. cbn in Hky. subst ky.
    apply linear_strings in Hx as [Hv Hin]. cbn [i_val] in Hv. rewrite Hkey in *. rewrite Hv at 1. by apply Hstep.
Qed.

Lemma emit_seq_map {X} (f : X -> cstring) l :
  emit_seq (fun x => ucl_object_fromstring (f x)) l = emit_seq ucl_object_fromstring (map f l).
Proof. destruct l as [|x l]; [done|]. cbn. by rewrite map_map. Qed.

Definition name_emits (s : cstring) : bool := nonempty s && name_fits s && json_safe s.

Lemma name_emits_safe l : forallb name_emits l = true -> forallb json_safe l = true.
Proof. rewrite !forallb_forall. intros H s Hs. specialize (H s Hs). unfold name_emits in H. by apply andb_prop in H as [_ ?]. Qed.

Lemma chunk_users q us : forallb name_emits (map u_name us) = true -> NoDup (map u_name us) -> users q = table_empty ->
  chunk q (emit_seq (fun u => ucl_object_fromstring (u_name u)) us) (str "users")
    (set_users q (add_all u_name (map kept_user us) table_empty)).
Proof.
  intros Hok Hn Hq. rewrite emit_seq_map.
  replace (map kept_user us) with (map (fun s => mk_user s []) (map u_name us)) by (by rewrite map_map).
  apply (chunk_names (fun t => set_users q t) u_name (fun s => mk_user s []) _ _ PKG_USERS); try done.
  - rewrite <- Hq. by destruct q.
  - by apply name_emits_safe.
  - intros t s nx Hs Hf. rewrite forallb_forall in Hok. apply list_elem_of_In, Hok in Hs. unfold name_emits, name_fits in Hs.
    rewrite !andb_true_iff, Nat.ltb_lt in Hs. destruct Hs as ((H1 & H2) & H3).
    change (added (pkg_adduser dev (set_users q t) s) = Some (set_users q (hash_add t s (mk_user s [])))).
    unfold pkg_adduser, pkg_adduid. rewrite H1. cbn [negb users set_users u_name].
    change (found t s = false) in Hf. rewrite Hf, strlcpy_fits by done. done.
Qed.

Lemma chunk_groups q gs : forallb name_emits (map g_name gs) = true -> NoDup (map g_name gs) -> groups q = table_empty ->
  chunk q (emit_seq (fun g => ucl_object_fromstring (g_name g)) gs) (str "groups")
    (set_groups q (add_all g_name (map kept_group gs) table_empty)).
Proof.
  intros Hok Hn Hq. rewrite emit_seq_map.
  replace (map kept_group gs) with (map (fun s => mk_group s []) (map g_name gs)) by (by rewrite map_map).
  apply (chunk_names (fun t => set_groups q t) g_name (fun s => mk_group s []) _ _ PKG_GROUPS); try done.
  - rewrite <- Hq. by destruct q.
  - by apply name_emits_safe.
  - intros t s nx Hs Hf. rewrite forallb_forall in Hok. apply list_elem_of_In, Hok in Hs. unfold name_emits, name_fits in Hs.
    rewrite !andb_true_iff, Nat.ltb_lt in Hs. destruct Hs as ((H1 & H2) & H3).
    change (added (pkg_addgroup dev (set_groups q t) s) = Some (set_groups q (hash_add t s (mk_group s [])))).
    unfold pkg_addgroup, pkg_addgid. rewrite H1. cbn [negb groups set_groups g_name].
    change (found t s = false) in Hf. rewrite Hf, strlcpy_fits by done. done.
Qed.

Definition shlib_emits (s : cstring) : bool := nonempty s && json_safe s.

Lemma shlib_emits_safe l : forallb shlib_emits l = true -> forallb json_safe l = true.
Proof. rewrite !forallb_forall. intros H s Hs. specialize (H s Hs). by apply andb_prop in H as [_ ?]. Qed.

Lemma chunk_shlibs_required q l : forallb shlib_emits l = true -> NoDup l -> shlibs_required q = table_empty ->
  chunk q (emit_seq ucl_object_fromstring l) (str "shlibs_required") (set_shlibs_required q (add_all id l table_empty)).
Proof.
  intros Hok Hn Hq. rewrite <- (map_id l) at 2.
  apply (chunk_names (fun t => set_shlibs_required q t) id (fun s => s) _ _ PKG_SHLIBS_REQUIRED); try done.
  - rewrite <- Hq. by destruct q.
  - by apply shlib_emits_safe.
  - intros t s nx Hs Hf. rewrite forallb_forall in Hok. apply list_elem_of_In, Hok, andb_prop in Hs as [H1 _].
    change (added (pkg_addshlib_required (set_shlibs_required q t) s) = Some (set_shlibs_required q (hash_add t s s))).
    unfold pkg_addshlib_required. rewrite H1. cbn [negb shlibs_required set_shlibs_required]. by rewrite Hf.
Qed.

Lemma chunk_shlibs_provided q l : forallb shlib_emits l = true -> NoDup l -> shlibs_provided q = table_empty ->
  chunk q (emit_seq ucl_object_fromstring l) (str "shlibs_provided") (set_shlibs_provided q (add_all id l table_empty)).
Proof.
  intros Hok Hn Hq. rewrite <- (map_id l) at 2.
  apply (chunk_names (fun t => set_shlibs_provided q t) id (fun s => s) _ _ PKG_SHLIBS_PROVIDED); try done.
  - rewrite <- Hq. by destruct q.
  - by apply shlib_emits_safe.
  - intros t s nx Hs Hf. rewrite forallb_forall in Hok. apply list_elem_of_In, Hok, andb_prop in Hs as [H1 _].
    change (added (pkg_addshlib_provided (set_shlibs_provided q t) s) = Some (set_shlibs_provided q (hash_add t s s))).
    unfold pkg_addshlib_provided. rewrite H1. cbn [negb shlibs_provided set_shlibs_provided]. by rewrite Hf.
Qed.

(** Options, files and directories. *)
Definition option_emits (o : pkg_option) : bool :=
  nonempty (pkg_option_opt o) && nonempty (pkg_option_value o) && json_safe (pkg_option_value o).

Lemma chunk_options q os : forallb option_emits os = true -> NoDup (map pkg_option_opt os) -> options q = table_empty ->
  chunk q (emit_map emit_option os) (str "options") (set_options q (add_all pkg_option_opt (map kept_option os) table_empty)).
Proof.
  intros Hok Hn Hq. apply (chunk_map _ _ _ PKG_OPTIONS); [reflexivity|done|].
  assert (q = set_options q table_empty) as Eq by (rewrite <- Hq; by destruct q). rewrite Eq at 1.
  refine (fold_opt_add _ (fun t => set_options q t) pkg_option_opt kept_option os table_empty _ Hn _ _);
    [apply keyed_empty|done|].
  intros t o Ho Hf. rewrite forallb_forall in Hok. apply list_elem_of_In, Hok in Ho. unfold option_emits in Ho.
  rewrite !andb_true_iff in Ho. destruct Ho as ((H1 & H2) & H3). cbn [emit_option fst snd]. rewrite fromstring_safe by done.
  change (added (pkg_addoption dev (set_options q t) (pkg_option_opt o) (pkg_option_value o)) =
          Some (set_options q (hash_add t (pkg_option_opt o) (kept_option o)))).
  unfold pkg_addoption, addoption_with. rewrite H1, H2. cbn [negb andb options set_options].
  change (found t (pkg_option_opt o) = false) in Hf. unfold found in Hf. by destruct (hash_find t (pkg_option_opt o)).
Qed.

Definition path_emits (s : cstring) : bool := nonempty s && (length s <? MAXPATHLEN)%nat && no_nul s.

Lemma NoDup_urlencode l : NoDup l -> NoDup (map urlencode l).
Proof. apply NoDup_fmap_2. intros s1 s2. apply urlencode_inj. Qed.

Lemma chunk_files q fs : forallb (fun f => path_emits (f_path f) && json_safe (f_sum f)) fs = true ->
  NoDup (map f_path fs) -> files q = table_empty ->
  chunk q (emit_map emit_file fs) (str "files") (set_files q (add_all f_path (map kept_file fs) table_empty)).
Proof.
  intros Hok Hn Hq. apply (chunk_map _ _ _ PKG_FILES); [reflexivity| |].
  { change (map (fun x => (emit_file x).1) fs) with (map (fun x => urlencode (f_path x)) fs).
    rewrite <- (map_map f_path urlencode). by apply NoDup_urlencode. }
  assert (q = set_files q table_empty) as Eq by (rewrite <- Hq; by destruct q). rewrite Eq at 1.
  refine (fold_opt_push _ (fun t => set_files q t) f_path kept_file fs table_empty _).
  intros t f Hin. rewrite forallb_forall in Hok. apply list_elem_of_In, Hok in Hin. unfold path_emits in Hin.
  rewrite !andb_true_iff, Nat.ltb_lt in Hin. destruct Hin as (((H1 & H2) & H3) & H4).
  cbn [emit_file fst snd]. rewrite fromstring_safe by (by destruct (f_sum f)).
  assert (sbuf_get (urldecode einval (urlencode (f_path f))).2 = Some (f_path f)) as Hd.
  { unfold sbuf_get. rewrite urldecode_encoded. cbn. by rewrite c_str_no_nul. }
  set (sum := match f_sum f with [] => str "-" | s => s end).
  transitivity (file ← sbuf_get (urldecode einval (urlencode (f_path f))).2;
    added (pkg_addfile dev (set_files q t) file (if Nat.eqb (length sum) 64 then Some sum else None) false)); [done|].
  rewrite Hd. cbn [mbind option_bind]. unfold pkg_addfile, pkg_addfile_attr. rewrite H1. cbn [negb andb].
  rewrite strlcpy_fits by done. unfold kept_file. cbn [files set_files f_path]. subst sum.
  destruct (f_sum f) as [|c s]; [done|]. destruct (Nat.eqb (length (c :: s)) 64) eqn:El; [|done].
  apply Nat.eqb_eq in El. rewrite (strlcpy_fits (c :: s) SUM_SIZE); [done|]. rewrite El. unfold SUM_SIZE. lia.
Qed.

Lemma chunk_dirs q ds : forallb (fun d => path_emits (d_path d)) ds = true ->
  NoDup (map d_path ds) -> dirs q = table_empty ->
  chunk q (emit_map emit_dir ds) (str "directories") (set_dirs q (add_all d_path (map kept_dir ds) table_empty)).
Proof.
  intros Hok Hn Hq. apply (chunk_map _ _ _ PKG_DIRECTORIES); [reflexivity| |].
  { change (map (fun x => (emit_dir x).1) ds) with (map (fun x => urlencode (d_path x)) ds).
    rewrite <- (map_map d_path urlencode). by apply NoDup_urlencode. }
  assert (q = set_dirs q table_empty) as Eq by (rewrite <- Hq; by destruct q). rewrite Eq at 1.
  refine (fold_opt_push _ (fun t => set_dirs q t) d_path kept_dir ds table_empty _).
  intros t d Hin. rewrite forallb_forall in Hok. apply list_elem_of_In, Hok in Hin. unfold path_emits in Hin.
  rewrite !andb_true_iff, Nat.ltb_lt in Hin. destruct Hin as ((H1 & H2) & H3).
  transitivity (dir ← sbuf_data (urldecode einval (urlencode (d_path d))).2;
    added (pkg_adddir dev (set_dirs q t) dir (d_try d) false)).
  { unfold emit_dir. by destruct (d_try d). }
  rewrite sbuf_data_encoded by done. cbn [mbind option_bind]. unfold pkg_adddir, pkg_adddir_attr. rewrite H1. cbn [negb andb].
  by rewrite strlcpy_fits by done.
Qed.

(** *** Scripts *)

Lemma read_script q S i s : i <> PKG_SCRIPT_UNKNOWN -> no_nul s = true ->
  pkg_obj_member einval dev emit_single_json getmode PKG_SCRIPTS (set_scripts q S)
    (mk_item (Some (script_types i)) (wire (emit_encoded s)) []) =
  Some (set_scripts q (<[script_index i := Some (trim s)]> S)).
Proof.
  intros Hi Hs. unfold emit_encoded, ucl_object_fromstring_common. rewrite trim_urlencode.
  transitivity (data ← sbuf_data (urldecode einval (urlencode (trim s))).2;
    added (pkg_addscript (set_scripts q S) (Some data) i)); [by destruct i|].
  rewrite sbuf_data_encoded by (by apply no_nul_trim). cbn [mbind option_bind].
  rewrite list_insert_alter. by destruct i.
Qed.

(** The slots after the scripts of [l] were read. *)
Definition put_script (p : pkg) (S : list (option cstring)) (i : pkg_script) : list (option cstring) :=
  match pkg_script_get p i with Some s => <[script_index i := Some (trim s)]> S | None => S end.

Lemma read_scripts q p l S : PKG_SCRIPT_UNKNOWN ∉ l ->
  (forall i s, pkg_script_get p i = Some s -> no_nul s = true) ->
  fold_opt (fun q x => pkg_obj_member einval dev emit_single_json getmode PKG_SCRIPTS q (mk_item (Some x.1) (wire x.2) []))
    (omap (emit_script p) l) (set_scripts q S) = Some (set_scripts q (fold_left (put_script p) l S)).
Proof.
  intros Hu Hn. revert S. induction l as [|i l IH]; intros S; [done|]. apply not_elem_of_cons in Hu as [Hi Hu].
  cbn [fold_left]. unfold put_script at 2. cbn [omap list_omap]. unfold emit_script at 1.
  destruct (pkg_script_get p i) as [s|] eqn:E; cbn [mbind option_bind]; [|by apply IH].
  cbn [fold_opt fst snd]. rewrite read_script by (done || by eapply Hn). cbn [mbind option_bind]. by apply IH.
Qed.

Lemma put_script_insert p S i : S !! script_index i = Some None ->
  put_script p S i = <[script_index i := trim <$> pkg_script_get p i]> S.
Proof. intros H. unfold put_script. destruct (pkg_script_get p i); [done|]. by rewrite list_insert_id. Qed.

Lemma put_scripts_insert p l S : NoDup (map script_index l) -> (forall i, i ∈ l -> S !! script_index i = Some None) ->
  fold_left (put_script p) l S = fold_left (fun S i => <[script_index i := trim <$> pkg_script_get p i]> S) l S.
Proof.
  revert S. induction l as [|i l IH]; intros S Hn Hs; [done|]. apply NoDup_cons in Hn as [Hi Hn]. cbn [fold_left].
  rewrite put_script_insert by (apply Hs; by left). apply IH; [done|]. intros j Hj.
  rewrite list_lookup_insert_ne; [apply Hs; by right|]. intros E. apply Hi. rewrite E.
  apply list_elem_of_fmap. by exists j.
Qed.

Lemma put_all_scripts p : length (scripts p) = PKG_NUM_SCRIPTS ->
  fold_left (put_script p) all_scripts (replicate PKG_NUM_SCRIPTS None) = map (fmap trim) (scripts p).
Proof.
  intros Hl. rewrite put_scripts_insert; [|by apply (bool_decide_unpack _)|].
  - unfold pkg_script_get. destruct (scripts p) as [|a0 [|a1 [|a2 [|a3 [|a4 [|a5 [|a6 [|a7 [|a8 [|]]]]]]]]]]; try discriminate Hl.
    reflexivity.
  - intros i. repeat (intros [-> |H]%elem_of_cons; [done|revert H]). by intros ?%elem_of_nil.
Qed.

Lemma emit_script_keys p l : map fst (omap (emit_script p) l) `sublist_of` map script_types l.
Proof.
  induction l as [|i l IH]; [done|]. cbn [omap list_omap]. unfold emit_script at 1.
  destruct (pkg_script_get p i); cbn; by constructor.
Qed.

Lemma chunk_scripts q p : length (scripts p) = PKG_NUM_SCRIPTS -> scripts q = replicate PKG_NUM_SCRIPTS None ->
  (forall i s, pkg_script_get p i = Some s -> no_nul s = true) ->
  chunk q (emit_scripts p) (str "scripts") (set_scripts q (map (fmap trim) (scripts p))).
Proof.
  intros Hl Hq Hn. apply (chunk_map _ _ _ PKG_SCRIPTS); [reflexivity| |].
  - change (map (fun x => (id x).1) ?l) with (map fst l). eapply sublist_NoDup; [|apply emit_script_keys].
    by apply (bool_decide_unpack _).
  - assert (q = set_scripts q (replicate PKG_NUM_SCRIPTS None)) as Eq by (rewrite <- Hq; by destruct q). rewrite Eq at 1.
    rewrite <- (put_all_scripts p Hl). apply (read_scripts q p all_scripts); [|done].
    by apply (bool_decide_unpack _).
Qed.

(** *** Licenses, categories, annotations *)

Definition array_emits (o : option ucl) : bool :=
  match o with
  | None => true
  | Some (UArray l) =>
      forallb (fun v => match v with UString (_ :: _) => true | _ => false end) l &&
      bool_decide (NoDup (omap ucl_object_tostring l)) && negb (Nat.eqb (length l) 0)
  | _ => false
  end.

Lemma array_emits_strings o : array_emits o = true ->
  o = None \/ exists l, o = Some (UArray (map UString l)) /\ l <> [] /\ NoDup l /\ Forall (fun s => s <> []) l.
Proof.
  destruct o as [[| | |l| | | |]|]; try done; [|by left]. cbn [array_emits]. rewrite !andb_true_iff.
  intros ((H1 & H2%bool_decide_eq_true) & H3). right. exists (omap ucl_object_tostring l).
  assert (l = map UString (omap ucl_object_tostring l) /\ Forall (fun s => s <> []) (omap ucl_object_tostring l)) as [E Hf].
  { clear H2 H3. induction l as [|[[|c s]| | | | | | |] l IH]; try done. cbn in H1. destruct (IH H1) as [E Hf].
    cbn. split; [by rewrite <- E|]. by constructor. }
  split_and!; [by rewrite <- E| |done|done]. intros E0. rewrite E0 in E. subst l. done.
Qed.

Lemma listed_absent name l : Forall (fun s => s <> []) l -> name ∉ l ->
  listed emit_single_json name (map UString l) = Some false.
Proof. intros Hf Hn. rewrite listed_strings by done. by rewrite bool_decide_eq_false_2. Qed.


Lemma addlicense_absent p name l : string_array p (str "licenses") l -> name <> [] -> name ∉ l ->
  pkg_addlicense emit_single_json dev p name =
  Some (EPKG_OK, set_fields p (<[str "licenses" := UArray (map UString (l ++ [name]))]> (fields p))).
Proof.
  intros [Ho Hne] Hn Hin. unfold pkg_addlicense. rewrite nonempty_true by done. cbn [negb].
  change (pkg_get_object emit_single_json p PKG_LICENSES) with (fields p !! str "licenses").
  destruct (fields p !! str "licenses") as [o|] eqn:E.
  - subst o. cbn [ucl_elements]. rewrite listed_absent by done. cbn [mbind option_bind].
    unfold array_append. cbn [lookup list_lookup pkg_keys PKG_LICENSES mbind option_bind]. by rewrite E, map_app.
  - subst l. transitivity (array_append (set_fields p (<[str "licenses" := UArray []]> (fields p))) PKG_LICENSES name); [done|].
    unfold array_append. cbn [lookup list_lookup pkg_keys PKG_LICENSES mbind option_bind fields set_fields].
    by rewrite lookup_insert_eq, insert_insert_eq.
Qed.

Lemma addcategory_absent p name l : string_array p (str "categories") l -> name <> [] -> name ∉ l ->
  pkg_addcategory emit_single_json dev p name =
  Some (EPKG_OK, set_fields p (<[str "categories" := UArray (map UString (l ++ [name]))]> (fields p))).
Proof.
  intros [Ho Hne] Hn Hin. unfold pkg_addcategory. rewrite nonempty_true by done. cbn [negb].
  change (pkg_get_object emit_single_json p PKG_CATEGORIES) with (fields p !! str "categories").
  destruct (fields p !! str "categories") as [o|] eqn:E.
  - subst o. cbn [ucl_elements]. rewrite listed_absent by done. cbn [mbind option_bind].
    unfold array_append. cbn [lookup list_lookup pkg_keys PKG_CATEGORIES mbind option_bind]. by rewrite E, map_app.
  - subst l. transitivity (array_append (set_fields p (<[str "categories" := UArray []]> (fields p))) PKG_CATEGORIES name); [done|].
    unfold array_append. cbn [lookup list_lookup pkg_keys PKG_CATEGORIES mbind option_bind fields set_fields].
    by rewrite lookup_insert_eq, insert_insert_eq.
Qed.

(** A loop that appends the elements of an array under [key]. *)
Lemma fold_array (step : pkg -> item -> option pkg) key l :
  (forall p l1 s nx, string_array p key l1 -> s <> [] -> s ∉ l1 ->
     step p (mk_item None (UString s) nx) =
     Some (set_fields p (<[key := UArray (map UString (l1 ++ [s]))]> (fields p)))) ->
  Forall (fun s => s <> []) l -> forall p l1, string_array p key l1 -> NoDup (l1 ++ l) ->
  fold_opt step (linear None (map UString l)) p =
  Some (match l with [] => p | _ => set_fields p (<[key := UArray (map UString (l1 ++ l))]> (fields p)) end).
Proof.
  intros Hstep Hl. induction Hl as [|s l Hs Hl IH]; intros p l1 Hp Hn; [done|].
  assert (s ∉ l1) as Hin.
  { apply NoDup_app in Hn as (_ & Hd & _). intros Hin. apply (Hd s Hin). by left. }
  cbn [map linear fold_opt]. rewrite (Hstep _ l1) by done. cbn [mbind option_bind].
  rewrite (IH _ (l1 ++ [s])).
  - destruct l; [done|]. cbn [fields set_fields]. rewrite insert_insert_eq, <- app_assoc. done.
  - split; [cbn; by rewrite lookup_insert_eq|]. apply Forall_app. split; [apply Hp|by constructor].
  - by rewrite <- app_assoc.
Qed.

Lemma chunk_array q key attr o : dispatch key (Some UCL_ARRAY) = Some (attr, Parray) ->
  (forall p l1 s nx, string_array p key l1 -> s <> [] -> s ∉ l1 ->
     pkg_array_element einval dev emit_single_json getmode attr p (mk_item None (UString s) nx) =
     Some (set_fields p (<[key := UArray (map UString (l1 ++ [s]))]> (fields p)))) ->
  array_emits o = true -> fields q !! key = None ->
  chunk q o key (set_fields q (ucl_object_replace_key (fields q) o key)).
Proof.
  intros Hd Hstep Ho Hq. apply array_emits_strings in Ho as [->|(l & -> & Hl & Hn & Hne)]; [refine (set_fields_same _)|].
  exists attr, Parray. split; [done|]. cbn [run_parser]. unfold pkg_array, ucl_iterate_object, entry_item.
  cbn [i_val fst snd wire]. rewrite map_map. change (map (fun x => wire (UString x)) l) with (map UString l).
  rewrite (fold_array _ key l Hstep Hne q []); [by destruct l| |done].
  split; [by rewrite Hq|constructor].
Qed.

Lemma chunk_licenses q o : array_emits o = true -> fields q !! str "licenses" = None ->
  chunk q o (str "licenses") (set_fields q (ucl_object_replace_key (fields q) o (str "licenses"))).
Proof.
  apply (chunk_array q _ (attr_code PKG_LICENSES)); [reflexivity|]. intros p l1 s nx Hp Hs Hin.
  change (added (pkg_addlicense emit_single_json dev p s) =
    Some (set_fields p (<[str "licenses":=UArray (map UString (l1 ++ [s]))]> (fields p)))).
  by rewrite (addlicense_absent _ _ l1).
Qed.

Lemma chunk_categories q o : array_emits o = true -> fields q !! str "categories" = None ->
  chunk q o (str "categories") (set_fields q (ucl_object_replace_key (fields q) o (str "categories"))).
Proof.
  apply (chunk_array q _ (attr_code PKG_CATEGORIES)); [reflexivity|]. intros p l1 s nx Hp Hs Hin.
  change (added (pkg_addcategory emit_single_json dev p s) =
    Some (set_fields p (<[str "categories":=UArray (map UString (l1 ++ [s]))]> (fields p)))).
  by rewrite (addcategory_absent _ _ l1).
Qed.

Definition annotations_emit (o : option ucl) : bool :=
  match o with
  | None => true
  | Some (UObject l) =>
      forallb (fun kv => match kv.2 with UString _ => true | _ => false end) l && bool_decide (NoDup (map fst l))
  | _ => false
  end.

Definition external_annotations (l : list (cstring * ucl)) : list (cstring * ucl) :=
  List.filter (fun kv => negb (internal_annotation kv.1)) l.

Lemma emit_annotations_object l : NoDup (map fst l) -> emit_annotations (UObject l) = UObject (external_annotations l).
Proof.
  intros Hn. unfold emit_annotations, ucl_iterate_object. cbn [top_item i_val]. rewrite heads_distinct by done. f_equal.
  unfold external_annotations. clear Hn. induction l as [|[k v] l IH]; [done|]. cbn [map omap list_omap List.filter fst].
  unfold emit_annotation at 1. cbn [ucl_object_key i_key mbind option_bind fst snd i_val].
  by destruct (internal_annotation k); cbn [negb]; rewrite <- IH.
Qed.

Lemma object_find_absent k l : k ∉ map fst l -> object_find k l = None.
Proof.
  unfold object_find. induction l as [|[k' v] l IH]; [done|]. intros [Hne Hin]%not_elem_of_cons. cbn.
  rewrite bool_decide_eq_false_2 by (by intros ->). by apply IH.
Qed.

Definition with_annotations (q : pkg) (l : list (cstring * ucl)) : pkg :=
  match l with [] => q | _ => set_fields q (<[str "annotations" := UObject l]> (fields q)) end.

Lemma read_annotations q l l1 : fields q !! str "annotations" = None ->
  forallb (fun kv => match kv.2 with UString _ => true | _ => false end) l = true -> NoDup (map fst (l1 ++ l)) ->
  fold_opt (fun q kv => pkg_obj_member einval dev emit_single_json getmode (attr_code PKG_ANNOTATIONS) q
                          (mk_item (Some kv.1) (wire kv.2) [])) l (with_annotations q l1) =
  Some (with_annotations q (l1 ++ l)).
Proof.
  intros Hq. revert l1. induction l as [|[k v] l IH]; intros l1 Hv Hn; [by rewrite app_nil_r|].
  cbn [fold_opt fst snd]. cbn in Hv. apply andb_prop in Hv as [Hv Hl]. destruct v as [s| | | | | | |]; try done.
  transitivity (q' ← Some (pkg_addannotation dev (with_annotations q l1) k s).2;
    fold_opt (fun q kv => pkg_obj_member einval dev emit_single_json getmode (attr_code PKG_ANNOTATIONS) q
                          (mk_item (Some kv.1) (wire kv.2) [])) l q'); [done|].
  assert ((pkg_addannotation dev (with_annotations q l1) k s).2 = with_annotations q (l1 ++ [(k, UString s)])) as ->.
  { unfold pkg_addannotation, annotations. rewrite map_app in Hn. apply NoDup_app in Hn as (_ & Hd & _).
    destruct l1 as [|x l1]; cbn [with_annotations].
    - rewrite Hq. done.
    - cbn [fields set_fields]. rewrite lookup_insert_eq. cbn [mbind option_bind]. rewrite object_find_absent.
      + cbn [default from_option snd fields set_fields]. by rewrite insert_insert_eq.
      + intros Hin. apply (Hd k Hin). by left. }
  cbn [mbind option_bind]. rewrite IH; [by rewrite <- app_assoc|done|by rewrite <- app_assoc].
Qed.

Lemma chunk_annotations q o : annotations_emit o = true -> fields q !! str "annotations" = None ->
  chunk q (emit_annotations <$> o) (str "annotations")
    (set_fields q (ucl_object_replace_key (fields q)
      (match o with
       | Some (UObject l) => match external_annotations l with [] => None | l => Some (UObject l) end
       | _ => None
       end) (str "annotations"))).
Proof.
  intros Ho Hq. destruct o as [[| | | |l| | |]|]; try done; [|refine (set_fields_same _)].
  cbn [annotations_emit] in Ho. apply andb_prop in Ho as [Hv Hn%bool_decide_eq_true].
  cbn [fmap option_fmap option_map]. rewrite emit_annotations_object by done.
  assert (NoDup (map fst (external_annotations l))) as Hn'.
  { eapply sublist_NoDup; [exact Hn|]. unfold external_annotations. clear.
    induction l as [|[k v] l IH]; [done|]. cbn. destruct (negb _); cbn; by constructor. }
  assert (forallb (fun kv : cstring * ucl => match kv.2 with UString _ => true | _ => false end) (external_annotations l) = true) as Hv'.
  { rewrite forallb_forall in *. intros kv [Hin _]%filter_In. by apply Hv. }
  exists (attr_code PKG_ANNOTATIONS), Pobj. rewrite wire_object by done. split; [reflexivity|].
  cbn [run_parser]. unfold pkg_obj, ucl_iterate_object, entry_item. cbn [i_val fst snd].
  rewrite wire_object by done. rewrite heads_distinct by (by rewrite map_map). rewrite map_map, fold_opt_map.
  cbn [fst snd]. pose proof (read_annotations q (external_annotations l) [] Hq Hv' Hn') as Hr. cbn [with_annotations app] in Hr.
  rewrite Hr. cbn. f_equal. destruct (external_annotations l); [|done]. by rewrite <- (set_fields_same q) at 1.
Qed.


(** *** The whole manifest *)

Definition string_keys : list cstring :=
  [ str "name"; str "origin"; str "version"; str "arch"; str "maintainer"; str "prefix"; str "www"; str "sum";
    str "comment"; str "repopath"; str "desc"; str "message" ].

(** A package whose contents a manifest can carry: attributes of their types,
    texts without NUL, names and paths that are not empty, fit and need no JSON
    escapes, no two files, directories or names of dependencies alike, and
    neither conflicts nor provides. *)
Record emittable (p : pkg) : Prop := mk_emittable {
  em_strings : forallb (fun k => is_string_field (fields p !! k)) string_keys = true;
  em_repopath : from_option json_safe true (kept_string p (str "repopath")) = true;
  em_desc : from_option no_nul true (kept_string p (str "desc")) = true;
  em_ints : forallb (fun k => is_int_field (fields p !! k)) [str "flatsize"; str "pkgsize"; str "licenselogic"] = true;
  em_licenses : array_emits (fields p !! str "licenses") = true;
  em_categories : array_emits (fields p !! str "categories") = true;
  em_annotations : annotations_emit (fields p !! str "annotations") = true;
  em_deps : forallb dep_emits (values (deps p)) && bool_decide (NoDup (map dep_name (values (deps p)))) = true;
  em_users : forallb name_emits (map u_name (values (users p))) = true;
  em_groups : forallb name_emits (map g_name (values (groups p))) = true;
  em_required : forallb shlib_emits (values (shlibs_required p)) = true;
  em_provided : forallb shlib_emits (values (shlibs_provided p)) = true;
  em_conflicts : values (conflicts p) = [];
  em_provides : values (provides p) = [];
  em_options : forallb option_emits (values (options p)) = true;
  em_files : forallb (fun f => path_emits (f_path f) && json_safe (f_sum f)) (values (files p)) &&
             bool_decide (NoDup (map f_path (values (files p)))) = true;
  em_dirs : forallb (fun d => path_emits (d_path d)) (values (dirs p)) &&
            bool_decide (NoDup (map d_path (values (dirs p)))) = true;
  em_scripts : forallb (from_option no_nul true) (scripts p) = true }.

Lemma script_no_nul p i s : forallb (from_option no_nul true) (scripts p) = true ->
  pkg_script_get p i = Some s -> no_nul s = true.
Proof.
  intros Hf. unfold pkg_script_get. destruct (scripts p !! script_index i) as [[s'|]|] eqn:E; try done.
  intros [= <-]. rewrite forallb_forall in Hf. apply (Hf (Some s')). apply list_elem_of_In. by eapply list_elem_of_lookup_2.
Qed.

Lemma get_string_kept p k : is_string_field (fields p !! k) = true ->
  ucl_object_tostring_forced emit_single_json <$> fields p !! k = kept_string p k.
Proof. unfold kept_string. by destruct (fields p !! k) as [[]|]. Qed.

Lemma kept_string_field (f : cstring -> cstring) p k :
  is_string_field ((fun s => UString (f s)) <$> kept_string p k) = true.
Proof. by destruct (kept_string p k). Qed.

(** The values of a unique table are distinct under their keys. *)
Lemma unique_values {V} (key_of : V -> cstring) t : unique key_of t -> NoDup (map key_of (values t)).
Proof. intros [[_ Hk] Hn]. by rewrite <- Hk. Qed.

Definition scripts_kept (p : pkg) (flags : Z) : list (option cstring) :=
  if flag_set flags PKG_MANIFEST_EMIT_COMPACT then replicate PKG_NUM_SCRIPTS None else map (fmap trim) (scripts p).

Definition no_contents (flags : Z) : bool :=
  flag_set flags PKG_MANIFEST_EMIT_COMPACT || flag_set flags PKG_MANIFEST_EMIT_NOFILES.

Definition files_kept (p : pkg) (flags : Z) : list pkg_file :=
  if no_contents flags then [] else map kept_file (values (files p)).
Definition dirs_kept (p : pkg) (flags : Z) : list pkg_dir :=
  if no_contents flags then [] else map kept_dir (values (dirs p)).

Lemma reads_contents ks top q p flags : wf_pkg p -> emittable p -> reads ks top q ->
  files q = table_empty -> dirs q = table_empty -> scripts q = replicate PKG_NUM_SCRIPTS None ->
  exists top', emit_contents p flags top = Some top' /\
    reads (((ks ++ [str "files"]) ++ [str "directories"]) ++ [str "scripts"]) top'
      (set_scripts (set_dirs (set_files q (add_all f_path (files_kept p flags) table_empty))
                     (add_all d_path (dirs_kept p flags) table_empty)) (scripts_kept p flags)).
Proof.
  intros Hw He Hr Hqf Hqd Hqs. destruct He. unfold emit_contents, files_kept, dirs_kept, scripts_kept, no_contents.
  assert (set_files q table_empty = q) as Ef by (rewrite <- Hqf; by destruct q).
  assert (set_dirs q table_empty = q) as Ed by (rewrite <- Hqd; by destruct q).
  assert (set_scripts q (replicate PKG_NUM_SCRIPTS None) = q) as Es by (rewrite <- Hqs; by destruct q).
  destruct (flag_set flags PKG_MANIFEST_EMIT_COMPACT); cbn [orb].
  { exists top. split; [done|]. cbn [add_all fold_left]. rewrite Ef, Ed, Es.
    apply (reads_snoc _ top q None); [|done]. apply (reads_snoc _ top q None); [|done]. by apply (reads_snoc _ top q None). }
  destruct (flag_set flags PKG_MANIFEST_EMIT_NOFILES).
  { cbn [mbind option_bind add_all fold_left]. eexists. split; [reflexivity|]. rewrite Ef, Ed.
    apply (reads_snoc _ top q); [|apply chunk_scripts; [apply Hw|done|intros i s; by apply script_no_nul]].
    apply (reads_snoc _ top q None); [|done]. by apply (reads_snoc _ top q None). }
  apply andb_prop in em_files0 as [Hf1 Hf2%bool_decide_eq_true], em_dirs0 as [Hd1 Hd2%bool_decide_eq_true].
  unfold pkg_files, pkg_dirs. rewrite (hash_iter_wf (files p)) by apply Hw. rewrite (hash_iter_wf (dirs p)) by apply Hw.
  cbn [mbind option_bind]. eexists. split; [reflexivity|].
  eapply reads_snoc; [|apply chunk_scripts; [apply Hw|done|intros i s; by apply script_no_nul]].
  eapply reads_snoc; [|by apply chunk_dirs]. eapply reads_snoc; [done|by apply chunk_files].
Qed.


(** A package of which only attributes were read. *)
Definition only_fields (F : gmap cstring ucl) : pkg := set_fields (pkg_new ty) F.

Lemma reads_field ks top F o k o' k' : reads ks top (only_fields F) ->
  chunk (only_fields F) o k (set_fields (only_fields F) (ucl_object_replace_key (fields (only_fields F)) o' k')) ->
  reads (ks ++ [k]) (ucl_object_insert_key top o k) (only_fields (ucl_object_replace_key F o' k')).
Proof. intros Hr Hc. exact (reads_snoc _ _ _ _ _ _ Hr Hc). Qed.

Definition copied_keys : list cstring :=
  [str "name"; str "origin"; str "version"; str "arch"; str "maintainer"; str "prefix"; str "www"; str "sum"; str "flatsize"].

Lemma emittable_string p k : emittable p -> k ∈ string_keys -> is_string_field (fields p !! k) = true.
Proof. intros [H _] Hk. rewrite forallb_forall in H. apply H. by apply list_elem_of_In. Qed.

Lemma emittable_int p k : emittable p -> k ∈ [str "flatsize"; str "pkgsize"; str "licenselogic"] ->
  is_int_field (fields p !! k) = true.
Proof. intros [_ _ _ H] Hk. rewrite forallb_forall in H. apply H. by apply list_elem_of_In. Qed.

Ltac among := by apply (bool_decide_unpack _).

Lemma reads_recopies p : emittable p ->
  reads copied_keys (fold_left (recopy p) recopies []) (only_fields (put_fields (map (fun k => (k, fields p !! k)) copied_keys))).
Proof.
  intros He. pose proof (fun k => emittable_string p k He) as Hs.
  assert (forall ks top F k, reads ks top (only_fields F) -> k ∈ string_keys ->
    (exists attr, (attr, k) ∈ [(PKG_NAME, str "name"); (PKG_ORIGIN, str "origin");
      (PKG_VERSION, str "version"); (PKG_ARCH, str "arch"); (PKG_MAINTAINER, str "maintainer"); (PKG_PREFIX, str "prefix");
      (PKG_WWW, str "www"); (PKG_CKSUM, str "sum"); (PKG_COMMENT, str "comment"); (PKG_REPOPATH, str "repopath");
      (PKG_MESSAGE, str "message")]) ->
    reads (ks ++ [k]) (ucl_object_insert_key top (fields p !! k) k)
      (only_fields (ucl_object_replace_key F (fields p !! k) k))) as Hstep.
  { intros ks top F k Hr Hk [attr Ha]. apply reads_field; [done|]. apply (chunk_recopy _ attr); auto. }
  assert (reads [] [] (only_fields ∅)) as H0 by apply reads_nil.
  apply (Hstep _ _ _ (str "name")) in H0; [|among|exists PKG_NAME; among].
  apply (Hstep _ _ _ (str "origin")) in H0; [|among|exists PKG_ORIGIN; among].
  apply (Hstep _ _ _ (str "version")) in H0; [|among|exists PKG_VERSION; among].
  apply (Hstep _ _ _ (str "arch")) in H0; [|among|exists PKG_ARCH; among].
  apply (Hstep _ _ _ (str "maintainer")) in H0; [|among|exists PKG_MAINTAINER; among].
  apply (Hstep _ _ _ (str "prefix")) in H0; [|among|exists PKG_PREFIX; among].
  apply (Hstep _ _ _ (str "www")) in H0; [|among|exists PKG_WWW; among].
  apply (Hstep _ _ _ (str "sum")) in H0; [|among|exists PKG_CKSUM; among].
  refine (reads_field _ _ _ _ (str "flatsize") _ (str "flatsize") H0 _).
  apply chunk_int; [by left|]. apply emittable_int; [done|among].
Qed.

Lemma replace_key_twice F o k : ucl_object_replace_key (ucl_object_replace_key F o k) o k = ucl_object_replace_key F o k.
Proof. destruct o; [|done]. cbn. by rewrite insert_insert_eq. Qed.

Lemma replace_key_ne F o k k' : k <> k' -> ucl_object_replace_key F o k !! k' = F !! k'.
Proof. intros Hne. destruct o; [|done]. cbn. by rewrite lookup_insert_ne. Qed.

Definition scalar_keys : list cstring :=
  copied_keys ++ [str "comment"; str "path"; str "repopath"; str "licenselogic"; str "licenses"; str "pkgsize"; str "desc"].

Lemma kept_repopath p : from_option json_safe true (kept_string p (str "repopath")) = true ->
  ucl_object_fromstring <$> kept_string p (str "repopath") = UString <$> kept_string p (str "repopath").
Proof. destruct (kept_string p (str "repopath")) as [s|]; [|done]. cbn. intros H. by rewrite fromstring_safe. Qed.

Lemma kept_logic_emitted p : is_int_field (fields p !! str "licenselogic") = true ->
  kept_logic p =
  let z := pkg_get_int emit_single_json p PKG_LICENSE_LOGIC mod 2 ^ 32 in
  if (z =? LICENSE_SINGLE) || (z =? LICENSE_AND) || (z =? LICENSE_OR) then Some (UInt z) else None.
Proof.
  intros H. change (pkg_get_int emit_single_json p PKG_LICENSE_LOGIC) with
    (match fields p !! str "licenselogic" with None => 0 | Some o => ucl_object_toint o end).
  unfold kept_logic. by destruct (fields p !! str "licenselogic") as [[]|].
Qed.

Lemma kept_pkgsize_emitted p : is_int_field (fields p !! str "pkgsize") = true ->
  kept_pkgsize p =
  let z := pkg_get_int emit_single_json p PKG_PKGSIZE in if 0 <? z then Some (UInt z) else None.
Proof.
  intros H. change (pkg_get_int emit_single_json p PKG_PKGSIZE) with
    (match fields p !! str "pkgsize" with None => 0 | Some o => ucl_object_toint o end).
  unfold kept_pkgsize. by destruct (fields p !! str "pkgsize") as [[]|].
Qed.

(** The attributes read from the scalar part: the first fifteen kept. *)
Lemma reads_scalars p : emittable p ->
  reads scalar_keys (emit_scalars emit_single_json p) (only_fields (put_fields (take 15 (kept_fields p)))).
Proof.
  intros He. unfold emit_scalars. cbv zeta.
  change (pkg_get_string emit_single_json p PKG_COMMENT) with (ucl_object_tostring_forced emit_single_json <$> fields p !! str "comment").
  change (pkg_get_string emit_single_json p PKG_REPOPATH) with (ucl_object_tostring_forced emit_single_json <$> fields p !! str "repopath").
  change (pkg_get_string emit_single_json p PKG_DESC) with (ucl_object_tostring_forced emit_single_json <$> fields p !! str "desc").
  rewrite !get_string_kept by (apply emittable_string; [done|among]).
  rewrite kept_repopath by apply He.
  pose proof (reads_recopies p He) as H.
  apply (reads_field _ _ _ ((fun s => UString (trim s)) <$> kept_string p (str "comment")) (str "comment")
    ((fun s => UString (trim s)) <$> kept_string p (str "comment")) (str "comment")) in H;
    [|apply (chunk_recopy _ PKG_COMMENT); [among|apply kept_string_field]].
  apply (reads_field _ _ _ (UString <$> kept_string p (str "repopath")) (str "path")
    (UString <$> kept_string p (str "repopath")) (str "repopath")) in H;
    [|apply chunk_path; apply (kept_string_field id)].
  apply (reads_field _ _ _ (UString <$> kept_string p (str "repopath")) (str "repopath")
    (UString <$> kept_string p (str "repopath")) (str "repopath")) in H;
    [|apply (chunk_recopy _ PKG_REPOPATH); [among|apply (kept_string_field id)]].
  rewrite replace_key_twice in H.
  apply (reads_field _ _ _ (emit_licenselogic (pkg_get_int emit_single_json p PKG_LICENSE_LOGIC)) (str "licenselogic")
    (kept_logic p) (str "licenselogic")) in H;
    [|rewrite kept_logic_emitted by (apply emittable_int; [done|among]); apply chunk_logic].
  apply (reads_field _ _ _ (fields p !! str "licenses") (str "licenses") (fields p !! str "licenses") (str "licenses")) in H;
    [|apply chunk_licenses; [apply He|cbn [fields only_fields set_fields]]].
  2:{ rewrite !replace_key_ne by done. rewrite put_fields_lookup by (by apply (bool_decide_unpack _)). reflexivity. }
  apply (reads_field _ _ _ (kept_pkgsize p) (str "pkgsize") (kept_pkgsize p) (str "pkgsize")) in H;
    [|apply chunk_int; [by right; left|]].
  2:{ unfold kept_pkgsize. destruct (fields p !! str "pkgsize") as [[]|]; try done. by destruct (0 <? z). }
  apply (reads_field _ _ _ (emit_encoded <$> kept_string p (str "desc")) (str "desc")
    ((fun s => UString (trim s)) <$> kept_string p (str "desc")) (str "desc")) in H;
    [|apply chunk_desc].
  2:{ intros s Hs. pose proof (em_desc p He) as Hd. by rewrite Hs in Hd. }
  rewrite kept_pkgsize_emitted in H at 1 by (apply emittable_int; [done|among]). exact H.
Qed.


Definition list_keys : list cstring :=
  [str "deps"; str "categories"; str "users"; str "groups"; str "shlibs_required"; str "shlibs_provided";
   str "conflicts"; str "provides"; str "options"].

Lemma reads_lists ks top q p : wf_pkg p -> emittable p -> reads ks top q ->
  fields q !! str "categories" = None -> deps q = table_empty -> users q = table_empty -> groups q = table_empty ->
  shlibs_required q = table_empty -> shlibs_provided q = table_empty -> options q = table_empty ->
  exists top', emit_lists emit_single_json p top = Some top' /\
    reads (ks ++ list_keys) top'
      (set_options (set_shlibs_provided (set_shlibs_required (set_groups (set_users
        (set_fields (set_deps q (add_all dep_origin (map kept_dep (values (deps p))) table_empty))
          (ucl_object_replace_key (fields q) (fields p !! str "categories") (str "categories")))
        (add_all u_name (map kept_user (values (users p))) table_empty))
        (add_all g_name (map kept_group (values (groups p))) table_empty))
        (add_all id (values (shlibs_required p)) table_empty))
        (add_all id (values (shlibs_provided p)) table_empty))
        (add_all pkg_option_opt (map kept_option (values (options p))) table_empty)).
Proof.
  intros Hw He Hr Hc Hd Hu Hg Hsr Hsp Ho. unfold emit_lists.
  unfold pkg_deps, pkg_users, pkg_groups, pkg_shlibs_required, pkg_shlibs_provided, pkg_conflicts, pkg_provides, pkg_options.
  rewrite !hash_iter_wf by apply Hw. cbn [mbind option_bind].
  rewrite (em_conflicts p He), (em_provides p He). cbn [emit_null_option mbind option_bind ucl_object_insert_key].
  eexists. split; [reflexivity|]. destruct He, Hw. apply andb_prop in em_deps0 as [Hd1 Hd2%bool_decide_eq_true].
  replace (ks ++ list_keys) with (((((((((ks ++ [str "deps"]) ++ [str "categories"]) ++ [str "users"]) ++ [str "groups"])
    ++ [str "shlibs_required"]) ++ [str "shlibs_provided"]) ++ [str "conflicts"]) ++ [str "provides"]) ++ [str "options"])
    by (by rewrite <- !app_assoc).
  eapply reads_snoc; [|apply chunk_options; [done|by apply unique_values|done]].
  eapply (reads_snoc _ _ _ None); [|exact eq_refl]. eapply (reads_snoc _ _ _ None); [|exact eq_refl].
  eapply reads_snoc; [|apply chunk_shlibs_provided; [done| |done]].
  2:{ rewrite <- (map_id (values (shlibs_provided p))). by apply (unique_values id). }
  eapply reads_snoc; [|apply chunk_shlibs_required; [done| |done]].
  2:{ rewrite <- (map_id (values (shlibs_required p))). by apply (unique_values id). }
  eapply reads_snoc; [|apply chunk_groups; [done|by apply unique_values|done]].
  eapply reads_snoc; [|apply chunk_users; [done|by apply unique_values|done]].
  eapply reads_snoc;
    [|exact (chunk_categories (set_deps q (add_all dep_origin (map kept_dep (values (deps p))) table_empty)) _ em_categories0 Hc)].
  eapply reads_snoc; [done|]. apply chunk_deps; try done. by apply unique_values.
Qed.

Definition all_keys : list cstring :=
  scalar_keys ++ list_keys ++ [str "annotations"; str "files"; str "directories"; str "scripts"; str "message"].

(** What reading the object of a package gives. *)
Definition reloaded (p : pkg) (flags : Z) : pkg :=
  mk_pkg (put_fields (kept_fields p)) (scripts_kept p flags)
    (add_all dep_origin (map kept_dep (values (deps p))) table_empty) table_empty
    (add_all f_path (files_kept p flags) table_empty) (add_all d_path (dirs_kept p flags) table_empty)
    (add_all pkg_option_opt (map kept_option (values (options p))) table_empty)
    (add_all u_name (map kept_user (values (users p))) table_empty)
    (add_all g_name (map kept_group (values (groups p))) table_empty)
    (add_all id (values (shlibs_required p)) table_empty) (add_all id (values (shlibs_provided p)) table_empty)
    table_empty table_empty 0 (-1) ty.

Lemma message_emitted p : is_string_field (fields p !! str "message") = true ->
  match pkg_get_string emit_single_json p PKG_MESSAGE with
  | Some (c :: s) => Some (emit_encoded (c :: s))
  | _ => None
  end = (s ← kept_string p (str "message"); match s with [] => None | _ => Some (UString (urlencode (trim s))) end).
Proof.
  intros H. change (pkg_get_string emit_single_json p PKG_MESSAGE) with
    (ucl_object_tostring_forced emit_single_json <$> fields p !! str "message").
  rewrite get_string_kept by done. destruct (kept_string p (str "message")) as [[|c s]|]; [done| |done].
  cbn [mbind option_bind]. unfold emit_encoded, ucl_object_fromstring_common. by rewrite trim_urlencode.
Qed.

Lemma reads_object p flags : wf_pkg p -> emittable p ->
  exists top, pkg_emit_object emit_single_json p flags = Some (UObject top) /\ reads all_keys top (reloaded p flags).
Proof.
  intros Hw He. unfold pkg_emit_object.
  assert (NoDup (map fst (kept_fields p))) as Hnd by (change (map fst (kept_fields p)) with
    (copied_keys ++ [str "comment"; str "repopath"; str "licenselogic"; str "licenses"; str "pkgsize"; str "desc";
      str "categories"; str "annotations"; str "message"]); by apply (bool_decide_unpack _)).
  destruct (reads_lists scalar_keys (emit_scalars emit_single_json p) (only_fields (put_fields (take 15 (kept_fields p)))) p)
    as (top1 & -> & Hr1); try done; [by apply reads_scalars| |].
  { cbn [fields only_fields set_fields]. rewrite put_fields_lookup by (by apply (bool_decide_unpack _)). reflexivity. }
  cbn [mbind option_bind].
  change (pkg_get_object emit_single_json p PKG_ANNOTATIONS) with (fields p !! str "annotations").
  rewrite message_emitted by (apply emittable_string; [done|among]).
  eapply reads_snoc in Hr1; [|apply (chunk_annotations _ (fields p !! str "annotations")); [apply He|]].
  2:{ cbn [fields set_options set_shlibs_provided set_shlibs_required set_groups set_users set_deps set_fields only_fields].
      rewrite replace_key_ne by done. rewrite put_fields_lookup by (by apply (bool_decide_unpack _)). reflexivity. }
  edestruct (reads_contents _ _ _ p flags Hw He Hr1) as (top2 & -> & Hr2); [done|done|done|].
  cbn [mbind option_bind]. eexists. split; [reflexivity|].
  eapply reads_snoc in Hr2; [|apply (chunk_recopy _ PKG_MESSAGE (str "message") (s ← kept_string p (str "message");
    match s with [] => None | _ => Some (UString (urlencode (trim s))) end)); [among|]].
  2:{ by destruct (kept_string p (str "message")) as [[|]|]. }
  rewrite <- !app_assoc in Hr2. exact Hr2.
Qed.

Lemma reads_parse ks top q : NoDup ks -> reads ks top q ->
  needs_fallback keys_new (Some (wire (UObject top))) = false /\
  parse_manifest einval dev emit_single_json getmode (pkg_new ty) keys_new (Some (wire (UObject top))) = Some (EPKG_OK, q).
Proof.
  intros Hn (Hr & Hm & Hs). assert (NoDup (map fst top)) as Hd by (by eapply sublist_NoDup).
  assert (ucl_iterate_object (top_item (wire (UObject top))) true = map entry_item top) as Hi.
  { rewrite wire_object by done. unfold ucl_iterate_object. cbn [top_item i_val].
    rewrite heads_distinct by (by rewrite map_map). by rewrite map_map. }
  unfold needs_fallback, parse_manifest. rewrite Hi. split; [done|]. by rewrite Hr.
Qed.

Context (ucl_parse : cstring -> option ucl) (yaml_parse : cstring -> option yaml) (yaml_scalar : cstring -> ucl)
        (emit : ucl_emitter -> ucl -> cstring).

(** C8: A manifest can be read back.  For a package a manifest can carry, and
    a parser that reads the text written as the object it was written from
    (implicit arrays as arrays), the text emit_manifest writes is accepted by
    pkg_parse_manifest without the fallback to YAML, and a new package then
    has the same name, origin, version, arch, maintainer, prefix, www, sum,
    flat size, licenses and categories, comment and description trimmed, the
    dependencies (unlocked), options, shared libraries, user and group names,
    and unless the compact form left them out the paths and 64-character sums
    of the files, the directories, and the scripts trimmed; of the message it
    has the encoded form. *)
Theorem manifest_roundtrip (p : pkg) (flags : Z) (top : ucl) (Hw : wf_pkg p) (He : emittable p)
  (Htop : pkg_emit_object emit_single_json p flags = Some top)
  (Hparse : ucl_parse (emit (emitter_of flags) top) = Some (wire top)) :
  exists text p', emit_manifest emit_single_json emit p flags = Some text /\
    pkg_parse_manifest einval dev emit_single_json getmode ucl_parse yaml_parse yaml_scalar (pkg_new ty) text keys_new
      = Some (EPKG_OK, p') /\
    (forall k, fields p' !! k = (snd <$> find (fun kv => bool_decide (kv.1 = k)) (kept_fields p)) ≫= id) /\
    pkg_deps p' = map kept_dep <$> pkg_deps p /\ pkg_options p' = map kept_option <$> pkg_options p /\
    pkg_users p' = map kept_user <$> pkg_users p /\ pkg_groups p' = map kept_group <$> pkg_groups p /\
    pkg_shlibs_required p' = pkg_shlibs_required p /\ pkg_shlibs_provided p' = pkg_shlibs_provided p /\
    pkg_files p' = (if no_contents flags then Some [] else map kept_file <$> pkg_files p) /\
    pkg_dirs p' = (if no_contents flags then Some [] else map kept_dir <$> pkg_dirs p) /\
    scripts p' = (if flag_set flags PKG_MANIFEST_EMIT_COMPACT then replicate PKG_NUM_SCRIPTS None
                  else map (fmap trim) (scripts p)).
Proof.
  destruct (reads_object p flags Hw He) as (l & Hl & Hr). rewrite Htop in Hl. injection Hl as ->.
  destruct (reads_parse all_keys l _ ltac:(by apply (bool_decide_unpack _)) Hr) as [Hf Hp].
  unfold emit_manifest. rewrite Htop. cbn [mbind option_bind].
  eexists _, (reloaded p flags). split; [reflexivity|]. split.
  { unfold pkg_parse_manifest. by rewrite Hparse, Hf. }
  split. { intros k. apply put_fields_lookup. by apply (bool_decide_unpack _). }
  unfold pkg_deps, pkg_options, pkg_users, pkg_groups, pkg_shlibs_required, pkg_shlibs_provided, pkg_files, pkg_dirs.
  cbn [deps options users groups shlibs_required shlibs_provided files dirs reloaded scripts].
  rewrite !add_all_iter. unfold files_kept, dirs_kept. rewrite !hash_iter_wf by apply Hw.
  by destruct (no_contents flags).
Qed.
End roundtrip.

(** A package with something of everything. *)
Definition sample_ops : list pkg_op :=
    [ OpSet [(PKG_NAME, ArgString (Some (str "foo"))); (PKG_VERSION, ArgString (Some (str "1.0")));
             (PKG_COMMENT, ArgString (Some (str " a comment "))); (PKG_FLATSIZE, ArgInt 1024);
             (PKG_LICENSE_LOGIC, ArgInt LICENSE_OR);
             (PKG_LICENSES, ArgObject (Some (UArray [UString (str "MIT")])))];
      OpDep (str "bar") (str "x/bar") (str "2") true; OpOption (str "DOCS") (str "on");
      OpUser (str "bob") (Some (str "bob:1001")); OpGroup (str "wheel") None;
      OpShlibRequired (str "libc.so.7"); OpShlibProvided (str "libfoo.so.1");
      OpFile (str "/usr/local/bin/100%") None (Some (str "root")) None 420 false;
      OpDir (str "/usr/local/share/foo") None None 0 true false;
      OpScript (Some (str "echo hello ")) PKG_SCRIPT_POST_INSTALL;
      OpAnnotation (str "repository") (str "local"); OpAnnotation (str "tag") (str "value") ].

Definition manifest_sample : pkg :=
  default (pkg_new PKG_FILE) (run_ops false sample_ops (pkg_new PKG_FILE)).

Lemma manifest_sample_wf : wf_pkg manifest_sample.
Proof. apply (wf_run false sample_ops (pkg_new PKG_FILE)); [apply wf_pkg_new|by repeat constructor|vm_compute; reflexivity]. Qed.

Lemma manifest_sample_emittable : emittable manifest_sample.
Proof. constructor; vm_compute; reflexivity. Qed.

Lemma manifest_roundtrip_witness :
  exists top text p', pkg_emit_object no_json manifest_sample 0 = Some top /\
    emit_manifest no_json (fun _ _ => str "{}") manifest_sample 0 = Some text /\
    pkg_parse_manifest true false no_json no_mode (fun _ => Some (wire top)) (fun _ => None) UString
      (pkg_new PKG_FILE) text keys_new = Some (EPKG_OK, p') /\
    pkg_deps p' = Some [mk_dep (str "x/bar") (str "bar") (str "2") (str "bar~x/bar") false] /\
    fields p' !! str "comment" = Some (UString (str "a comment")).
Proof.
  destruct (pkg_emit_object no_json manifest_sample 0) as [top|] eqn:E; [|vm_compute in E; discriminate E].
  destruct (manifest_roundtrip true false no_json no_mode PKG_FILE (fun _ => Some (wire top)) (fun _ => None) UString
    (fun _ _ => str "{}") manifest_sample 0 top manifest_sample_wf manifest_sample_emittable E eq_refl)
    as (text & p' & H1 & H2 & H3 & H4 & _).
  exists top, text, p'. split_and!; [reflexivity|exact H1|exact H2| |].
  - rewrite H4. vm_compute. reflexivity.
  - rewrite H3. vm_compute. reflexivity.
Defined.

(** ** What cannot be written *)

Lemma emit_null_option_none {V} (l : list V) : emit_null_option l = None <-> l <> [].
Proof. by destruct l. Qed.

Lemma values_count {V} (key_of : V -> cstring) t : keyed key_of t -> hash_count t = length (values t).
Proof. intros Hk. apply (keyed_iter key_of t Hk). Qed.

(** A package with conflicts or provides has no manifest: for a package in
    order pkg_emit_object aborts, whatever the flags, exactly when it has one
    (and then the object of the manifest is otherwise always built); so does
    emitting any package after a successful pkg_addconflict or
    pkg_addprovide. *)
Theorem pkg_emit_object_aborts (emit_single_json : ucl -> cstring) (p : pkg) (flags : Z) (Hw : wf_pkg p) :
  (pkg_emit_object emit_single_json p flags = None <->
     pkg_list_count p Pkg.PKG_CONFLICTS <> 0%nat \/ pkg_list_count p Pkg.PKG_PROVIDES <> 0%nat) /\
  forall name p', pkg_addconflict p name = Some (EPKG_OK, p') \/ pkg_addprovide p name = Some (EPKG_OK, p') ->
    pkg_emit_object emit_single_json p' flags = None.
Proof.
  assert (forall p, wf_pkg p -> pkg_emit_object emit_single_json p flags = None <->
    pkg_list_count p Pkg.PKG_CONFLICTS <> 0%nat \/ pkg_list_count p Pkg.PKG_PROVIDES <> 0%nat) as Hiff.
  { clear p Hw. intros p Hw. cbn [pkg_list_count].
    rewrite (values_count c_uniqueid (conflicts p)), (values_count id (provides p)) by apply Hw.
    unfold pkg_emit_object, emit_lists, emit_contents.
    unfold pkg_deps, pkg_users, pkg_groups, pkg_shlibs_required, pkg_shlibs_provided, pkg_conflicts, pkg_provides, pkg_options, pkg_files, pkg_dirs.
    rewrite !hash_iter_wf by apply Hw. cbn [mbind option_bind].
    destruct (values (conflicts p)) as [|c cs]; cbn [emit_null_option mbind option_bind length];
      [|split; [left; lia|done]].
    destruct (values (provides p)) as [|c cs]; cbn [emit_null_option mbind option_bind length];
      [|split; [right; lia|done]].
    destruct (flag_set flags PKG_MANIFEST_EMIT_COMPACT), (flag_set flags PKG_MANIFEST_EMIT_NOFILES); cbn [mbind option_bind];
      split; by try intros [?|?]. }
  split; [by apply Hiff|]. intros name p' Ha.
  assert (wf_pkg p') as Hw' by (destruct Ha as [H|H];
    [by apply (wf_apply false p (OpConflict name) EPKG_OK)|by apply (wf_apply false p (OpProvide name) EPKG_OK)]).
  apply Hiff; [done|]. cbn [pkg_list_count]. rewrite (values_count c_uniqueid (conflicts p')), (values_count id (provides p')) by apply Hw'.
  destruct Hw. destruct Ha as [H|H].
  - left. unfold pkg_addconflict in H. destruct (negb _); [done|].
    destruct (found (conflicts p) name) eqn:Ef; injection H as <-; cbn [conflicts set_conflicts].
    + rewrite found_spec in Ef by apply wf_conflicts. apply bool_decide_eq_true in Ef.
      rewrite (proj2 (proj1 wf_conflicts)) in Ef. by destruct (values (conflicts p)); [apply elem_of_nil in Ef|].
    + rewrite values_add by apply wf_conflicts. rewrite length_app. cbn. lia.
  - right. unfold pkg_addprovide in H. destruct (negb _); [done|].
    destruct (found (provides p) name) eqn:Ef; injection H as <-; cbn [provides set_provides].
    + rewrite found_spec in Ef by apply wf_provides. apply bool_decide_eq_true in Ef.
      rewrite (proj2 (proj1 wf_provides)) in Ef. by destruct (values (provides p)); [apply elem_of_nil in Ef|].
    + rewrite values_add by apply wf_provides. rewrite length_app. cbn. lia.
Qed.

Lemma pkg_emit_object_aborts_witness :
  exists p', pkg_addprovide (pkg_new PKG_FILE) (str "mta") = Some (EPKG_OK, p') /\ pkg_emit_object no_json p' 0 = None.
Proof.
  eexists. split; [reflexivity|].
  refine (proj2 (pkg_emit_object_aborts no_json (pkg_new PKG_FILE) 0 (wf_pkg_new PKG_FILE)) (str "mta") _ _).
  right. reflexivity.
Defined.

(** ** What is lost *)

(** A quote in the value of an option comes back with a backslash, and with
    three the next time. *)
Example option_value_escaped :
  (emit_option (mk_option (Some (str "A")) (Some [chr 34]) None None)).2 = UString ["\"%char; chr 34] /\
  (emit_option (mk_option (Some (str "A")) (Some ["\"%char; chr 34]) None None)).2 = UString ["\"; "\"; "\"; chr 34]%char.
Proof. split; reflexivity. Qed.

(** A percent sign in the message comes back encoded. *)
Example message_encoded : forall p, fields p !! str "message" = Some (UString (str "100%")) ->
  kept_fields p !! 17%nat = Some (str "message", Some (UString (str "100%25"))).
Proof.
  intros p H. change (kept_fields p !! 17%nat) with (Some (str "message", s ← kept_string p (str "message");
    match s with [] => None | _ => Some (UString (urlencode (trim s))) end)).
  unfold kept_string. by rewrite H.
Qed.
