(* ===== verification/ManifestSafe.v ===== *)
(** * Reading a manifest does not abort (libpkg/pkg_manifest.c)

    The assertions of the functions that add to a package, and the buffers an
    incomplete escape leaves unfinished, are all there is that reading can run
    into: a condition on each entry that excludes them ([entry_safe]). *)
From S2P Require Import Prelude CString UtHash Pkg Checksum Ucl Manifest ManifestRoundtrip.

(** ** When reading aborts *)

(** A text whose escapes are complete and that does not decode to nothing. *)
Definition decodes (einval : bool) (s : cstring) : bool :=
  match sbuf_data (urldecode einval s).2 with Some d => nonempty d | None => false end.

Definition decodes_finished (einval : bool) (s : cstring) : bool :=
  match sbuf_get (urldecode einval s).2 with Some d => nonempty d | None => false end.

(** No string inside is empty. *)
Fixpoint strings_nonempty (o : ucl) : bool :=
  match o with
  | UString s => nonempty s
  | UArray l => forallb strings_nonempty l
  | UObject l => forallb (fun kv => strings_nonempty kv.2) l
  | _ => true
  end.

(** A member of the object of an attribute that violates no assertion. *)
Definition member_safe (einval : bool) (attr : Z) (k : cstring) (v : ucl) : bool :=
  if attr =? PKG_DEPS then nonempty k && strings_nonempty v
  else if attr =? PKG_DIRS then match v with UObject _ => decodes einval k | _ => true end
  else if (attr =? PKG_USERS) || (attr =? PKG_GROUPS) then
    match v with UString _ => nonempty k && name_fits k | _ => true end
  else if attr =? PKG_DIRECTORIES then
    match v with UBool _ | UObject _ | UString _ => decodes einval k | _ => true end
  else if attr =? PKG_FILES then
    match v with UString _ => decodes_finished einval k | UObject _ => decodes einval k | _ => true end
  else if attr =? PKG_OPTIONS then
    match v with UString s => nonempty k && nonempty s | UBool _ => nonempty k | _ => true end
  else if attr =? PKG_SCRIPTS then
    match v with
    | UString s => bool_decide (script_type_str k = PKG_SCRIPT_UNKNOWN) || bool_decide ((urldecode einval s).1 = EPKG_OK)
    | _ => true
    end
  else keeps_options attr.

(** An element of the array of an attribute. *)
Definition element_safe (einval : bool) (attr : Z) (v : ucl) : bool :=
  match v with
  | UString s => nonempty s && (negb (names_attr attr) || name_fits s)
  | UObject l => negb (names_attr attr || (attr =? PKG_DIRS)) || forallb (fun kv => member_safe einval attr kv.1 kv.2) l
  | _ => true
  end.

(** An entry of a manifest. *)
Definition entry_safe (einval : bool) (kv : cstring * ucl) : bool :=
  match dispatch kv.1 (ucl_object_type kv.2), kv.2 with
  | Some (a, Pobj), UObject l => forallb (fun kv => member_safe einval a kv.1 kv.2) l
  | Some (a, Parray), UArray l => forallb (element_safe einval a) l
  | _, _ => true
  end.

Section total.
Context (einval dev : bool) (emit_single_json : ucl -> cstring) (getmode : cstring -> option Z).
Hypothesis Hjson : forall z, emit_single_json (UInt z) <> [].

(** A package in order, its licenses and categories too. *)
Definition readable (p : pkg) : Prop :=
  wf_pkg p /\ (exists l, string_array p (str "licenses") l) /\ (exists l, string_array p (str "categories") l).

(** A call that returns, with the package still in order. *)
Definition goes_on (r : option pkg) : Prop := exists p', r = Some p' /\ readable p'.

Lemma readable_fields p p' : readable p -> wf_pkg p' -> fields p' = fields p -> readable p'.
Proof. intros (_ & H1 & H2) Hw E. unfold readable, string_array. rewrite E. done. Qed.

Lemma op_goes_on p op : readable p -> op_fits op = true ->
  (exists r p', apply_op dev p op = Some (r, p') /\ fields p' = fields p) -> goes_on (added (apply_op dev p op)).
Proof.
  intros Hr Hf (r & p' & H & E). exists p'. rewrite H. split; [done|]. eapply readable_fields; [done| |done].
  eapply wf_apply; [apply Hr|done|done].
Qed.

(** The functions that add to a table: what is left are their assertions. *)
Ltac table_op op :=
  refine (op_goes_on _ op _ _ _);
  [assumption|try reflexivity; try assumption|];
  cbn [apply_op]; unfold pkg_adduid, pkg_addgid, pkg_adddep, pkg_addfile_attr, pkg_adddir_attr,
    pkg_addshlib_required, pkg_addshlib_provided, pkg_addconflict, pkg_addprovide;
  repeat match goal with H : nonempty _ = true |- _ => rewrite H end; cbn [negb andb];
  repeat match goal with |- context [found ?t ?k] => destruct (found t k) end; eexists _, _; split; reflexivity.

Lemma goes_on_same p : readable p -> goes_on (Some p).
Proof. by exists p. Qed.

Lemma goes_on_bind r f : goes_on r -> (forall p, readable p -> goes_on (f p)) -> goes_on (p ← r; f p).
Proof. intros (p & -> & Hp) Hf. by apply Hf. Qed.

Lemma goes_on_added r : goes_on r -> goes_on (added (p ← r; Some (EPKG_OK, p))).
Proof. intros (p & -> & Hp). by exists p. Qed.

Lemma addfile_goes_on p f s u g m : readable p -> nonempty f = true -> goes_on (added (pkg_addfile_attr dev p f s u g m false)).
Proof. intros Hr Hn. table_op (OpFile f s u g m false). Qed.

Lemma adddir_goes_on p f u g m t : readable p -> nonempty f = true -> goes_on (added (pkg_adddir_attr dev p f u g m t false)).
Proof. intros Hr Hn. table_op (OpDir f u g m t false). Qed.

Lemma adddep_goes_on p n o v : readable p -> nonempty n = true -> nonempty o = true -> nonempty v = true ->
  goes_on (added (pkg_adddep dev p n o v false)).
Proof. intros Hr Hn Ho Hv. table_op (OpDep n o v false). Qed.

Lemma adduid_goes_on p n u : readable p -> nonempty n = true -> name_fits n = true -> goes_on (added (pkg_adduid dev p n u)).
Proof. intros Hr Hn Hf. table_op (OpUser n u). Qed.

Lemma addgid_goes_on p n g : readable p -> nonempty n = true -> name_fits n = true -> goes_on (added (pkg_addgid dev p n g)).
Proof. intros Hr Hn Hf. table_op (OpGroup n g). Qed.

Lemma addoption_goes_on p k v : readable p -> nonempty k = true -> nonempty v = true -> goes_on (added (pkg_addoption dev p k v)).
Proof.
  intros Hr Hk Hv. refine (op_goes_on p (OpOption k v) Hr eq_refl _). cbn [apply_op]. unfold pkg_addoption, addoption_with.
  rewrite Hk, Hv. cbn [negb andb]. destruct (hash_find (options p) k) as [i|] eqn:E; [|eexists _, _; split; reflexivity].
  destruct Hr as (Hw & _). destruct (hash_find_some (options p) k i (proj1 (proj1 (wf_options _ Hw))) E) as (e & He & _).
  unfold hash_get. rewrite He. cbn [fmap option_fmap option_map mbind option_bind].
  destruct (o_value (e_val e)); eexists _, _; split; reflexivity.
Qed.

Lemma addscript_goes_on p d t : readable p -> t <> PKG_SCRIPT_UNKNOWN -> goes_on (added (pkg_addscript p d t)).
Proof.
  intros Hr Ht. refine (op_goes_on p (OpScript d t) Hr eq_refl _). cbn [apply_op]. unfold pkg_addscript.
  destruct t; try done; eexists _, _; split; reflexivity.
Qed.

Lemma nonempty_tables p n : readable p -> nonempty n = true ->
  goes_on (added (pkg_addshlib_required p n)) /\ goes_on (added (pkg_addshlib_provided p n)) /\
  goes_on (added (pkg_addconflict p n)) /\ goes_on (added (pkg_addprovide p n)).
Proof.
  intros Hr Hn. split_and!;
    [table_op (OpShlibRequired n)|table_op (OpShlibProvided n)|table_op (OpConflict n)|table_op (OpProvide n)].
Qed.

Lemma nonempty_ne s : nonempty s = true -> s <> [].
Proof. by intros H ->. Qed.

Lemma string_array_ne p key o l k2 : string_array p key l -> key <> k2 -> string_array (set_fields p (<[k2 := o]> (fields p))) key l.
Proof. intros [H1 H2] Hne. split; [|done]. cbn [fields set_fields]. by rewrite lookup_insert_ne. Qed.

Lemma string_array_snoc p key s l : string_array p key l -> s <> [] ->
  string_array (set_fields p (<[key := UArray (map UString (l ++ [s]))]> (fields p))) key (l ++ [s]).
Proof.
  intros [H1 H2] Hs. split; [cbn; by rewrite lookup_insert_eq|]. apply Forall_app. split; [done|by constructor].
Qed.

Lemma addlicense_goes_on p s : readable p -> nonempty s = true -> goes_on (added (pkg_addlicense emit_single_json dev p s)).
Proof.
  intros (Hw & [l Hl] & [c Hc]) Hs. destruct (decide (s ∈ l)) as [Hin|Hin].
  - exists p. split; [|by split_and!; [|exists l|exists c]]. unfold pkg_addlicense. rewrite Hs. cbn [negb].
    change (pkg_get_object emit_single_json p PKG_LICENSES) with (fields p !! str "licenses").
    destruct Hl as [Ho Hne]. destruct (fields p !! str "licenses") as [o|]; [|subst l; by apply elem_of_nil in Hin].
    subst o. cbn [ucl_elements]. rewrite listed_strings by done. by rewrite bool_decide_eq_true_2.
  - eexists. rewrite (addlicense_absent dev emit_single_json p s l) by (done || by apply nonempty_ne). split; [reflexivity|].
    split_and!; [by apply wf_set_fields|exists (l ++ [s]); apply string_array_snoc; [done|by apply nonempty_ne]|].
    exists c. by apply string_array_ne.
Qed.

Lemma addcategory_goes_on p s : readable p -> nonempty s = true -> goes_on (added (pkg_addcategory emit_single_json dev p s)).
Proof.
  intros (Hw & [l Hl] & [c Hc]) Hs. destruct (decide (s ∈ c)) as [Hin|Hin].
  - exists p. split; [|by split_and!; [|exists l|exists c]]. unfold pkg_addcategory. rewrite Hs. cbn [negb].
    change (pkg_get_object emit_single_json p PKG_CATEGORIES) with (fields p !! str "categories").
    destruct Hc as [Ho Hne]. destruct (fields p !! str "categories") as [o|]; [|subst c; by apply elem_of_nil in Hin].
    subst o. cbn [ucl_elements]. rewrite listed_strings by done. by rewrite bool_decide_eq_true_2.
  - eexists. rewrite (addcategory_absent dev emit_single_json p s c) by (done || by apply nonempty_ne). split; [reflexivity|].
    split_and!; [by apply wf_set_fields| |exists (c ++ [s]); apply string_array_snoc; [done|by apply nonempty_ne]].
    exists l. by apply string_array_ne.
Qed.

(** *** Objects of files, directories and dependencies *)

Lemma decodes_some k : decodes einval k = true -> exists d, sbuf_data (urldecode einval k).2 = Some d /\ nonempty d = true.
Proof. unfold decodes. destruct (sbuf_data _) as [d|]; [|done]. by exists d. Qed.

Lemma set_files_goes_on p k v nx : readable p -> decodes einval k = true ->
  goes_on (added (pkg_set_files_from_object einval dev emit_single_json getmode p (mk_item (Some k) v nx))).
Proof.
  intros Hr (d & Hd & Hn)%decodes_some. unfold pkg_set_files_from_object. cbn [ucl_object_key i_key].
  destruct (fold_left _ _ _) as [[[sum uname] gname] perm]. rewrite Hd. cbn [mbind option_bind].
  by apply goes_on_added, addfile_goes_on.
Qed.

Lemma set_dirs_goes_on p k v nx : readable p -> decodes einval k = true ->
  goes_on (added (pkg_set_dirs_from_object einval dev emit_single_json getmode p (mk_item (Some k) v nx))).
Proof.
  intros Hr (d & Hd & Hn)%decodes_some. unfold pkg_set_dirs_from_object. cbn [ucl_object_key i_key].
  destruct (fold_left _ _ _) as [[[uname gname] perm] try]. rewrite Hd. cbn [mbind option_bind].
  by apply goes_on_added, adddir_goes_on.
Qed.


Lemma heads_next seen l cur x : cur ∈ heads seen l -> x ∈ i_next cur -> exists k, (k, x) ∈ l.
Proof.
  revert seen. induction l as [|[k v] l IH]; intros seen; [by intros ?%elem_of_nil|]. cbn.
  assert (forall seen, cur ∈ heads seen l -> x ∈ i_next cur -> exists k', (k', x) ∈ (k, v) :: l) as Hr.
  { intros seen' Hin Hx. destruct (IH _ Hin Hx) as [k' ?]. exists k'. by right. }
  case_bool_decide; [apply Hr|]. intros [->|Hin]%elem_of_cons Hx; [|by eapply Hr].
  cbn in Hx. unfold siblings in Hx. apply list_elem_of_fmap in Hx as ([k' v'] & -> & Hkv).
  exists k'. right. apply list_elem_of_In, filter_In in Hkv as [Hkv _]. by apply list_elem_of_In.
Qed.

Lemma linear_next k l cur x : cur ∈ linear k l -> x ∈ i_next cur -> x ∈ l.
Proof.
  induction l as [|v l IH]; [by intros ?%elem_of_nil|]. cbn.
  intros [->|Hin]%elem_of_cons Hx; [by right|right; by apply IH].
Qed.

Definition item_clean (o : item) : Prop :=
  strings_nonempty (i_val o) = true /\ forall x, x ∈ i_next o -> strings_nonempty x = true.

Lemma iterate_clean o e cur : item_clean o -> cur ∈ ucl_iterate_object o e -> item_clean cur.
Proof.
  intros [Hv Hn] Hin.
  assert (forall k l, (forall x, x ∈ l -> strings_nonempty x = true) -> cur ∈ linear k l -> item_clean cur) as Hlin.
  { intros k l Hl Hc. split; [apply Hl; by eapply linear_in|]. intros x Hx. apply Hl. by eapply linear_next. }
  assert (forall x, x ∈ i_val o :: i_next o -> strings_nonempty x = true) as Hall.
  { intros x [->|Hx]%elem_of_cons; [done|by apply Hn]. }
  unfold ucl_iterate_object in Hin. destruct e; [|by eapply Hlin].
  destruct (i_val o) as [| | |l|l| | |] eqn:E; try (by eapply Hlin; [exact Hall|]).
  - apply (Hlin None l); [|done]. cbn in Hv. rewrite forallb_forall in Hv. intros x Hx. apply Hv. by apply list_elem_of_In.
  - cbn in Hv. rewrite forallb_forall in Hv. split.
    + destruct (heads_in _ _ _ Hin) as (k & _ & Hk). apply (Hv (k, i_val cur)). by apply list_elem_of_In.
    + intros x Hx. destruct (heads_next _ _ _ _ Hin Hx) as (k & Hk). apply (Hv (k, x)). by apply list_elem_of_In.
Qed.

Definition opt_nonempty (o : option cstring) : bool := from_option nonempty true o.

Lemma dep_member_nonempty st cur : item_clean cur -> opt_nonempty st.1 && opt_nonempty st.2 = true ->
  opt_nonempty (dep_member emit_single_json st cur).1 && opt_nonempty (dep_member emit_single_json st cur).2 = true.
Proof.
  destruct st as [o v]. intros [Hc _] [Ho Hv]%andb_prop. cbn [fst snd] in *. unfold dep_member.
  destruct (ucl_object_key cur) as [k|]; [|cbn [fst snd]; by rewrite Ho, Hv].
  destruct (i_val cur) as [s|z| | | | | |] eqn:E; unfold is_type; rewrite E; cbn [ucl_object_type].
  2:{ rewrite bool_decide_eq_false_2, bool_decide_eq_true_2 by done. cbn [negb andb].
      destruct (strcasecmp k _ =? 0); cbn [fst snd]; rewrite Ho; [|by rewrite Hv].
      cbn. unfold ucl_object_tostring_forced. destruct (emit_single_json (UInt z)) eqn:Ej; [by destruct (Hjson z)|done]. }
  all: try (rewrite !bool_decide_eq_false_2 by done; cbn [negb andb fst snd]; by rewrite Ho, Hv).
  rewrite bool_decide_eq_true_2 by done. cbn [negb ucl_object_tostring].
  cbn [strings_nonempty] in Hc. destruct (_ =? 0), (_ =? 0); cbn [fst snd];
    change (opt_nonempty (Some s)) with (nonempty s); by rewrite ?Hc, ?Ho, ?Hv.
Qed.

Lemma set_deps_goes_on p k v nx : readable p -> nonempty k = true -> item_clean (mk_item (Some k) v nx) ->
  goes_on (added (pkg_set_deps_from_object dev emit_single_json p (mk_item (Some k) v nx))).
Proof.
  intros Hr Hk Hc. unfold pkg_set_deps_from_object. cbn [ucl_object_key i_key].
  destruct (fold_opt_inv (fun st : option cstring * option cstring * pkg =>
      opt_nonempty st.1.1 && opt_nonempty st.1.2 = true /\ readable st.2)
    (dep_element dev emit_single_json k) (ucl_iterate_object (mk_item (Some k) v nx) (is_type UCL_ARRAY (mk_item (Some k) v nx)))
    (None, None, p)) as ([[o' v'] p'] & -> & _ & Hr'); [|done|by exists p'].
  intros [[o1 v1] p1] self Hin [Hst Hr1]. cbn [fst snd] in *. pose proof (iterate_clean _ _ _ Hc Hin) as Hs. unfold dep_element.
  assert (forall l st, (forall c, c ∈ l -> item_clean c) -> opt_nonempty st.1 && opt_nonempty st.2 = true ->
    opt_nonempty (fold_left (dep_member emit_single_json) l st).1 && opt_nonempty (fold_left (dep_member emit_single_json) l st).2 = true) as Hfold.
  { intros l. induction l as [|c l IH]; intros st Hl Hst'; [done|]. cbn [fold_left]. apply IH.
    - intros c' Hc'. apply Hl. by right.
    - apply dep_member_nonempty; [apply Hl; by left|done]. }
  specialize (Hfold (ucl_iterate_object self true) (o1, v1) ltac:(intros c; by apply iterate_clean) Hst).
  destruct (fold_left _ _ _) as [[o2|] [v2|]]; try (eexists; split; [reflexivity|]; by split).
  cbn [fst snd opt_nonempty from_option] in Hfold. pose proof Hfold as [Ho2 Hv2]%andb_prop.
  destruct (adddep_goes_on p1 k o2 v2 Hr1 Hk Ho2 Hv2) as (p2 & -> & Hr2). eexists. split; [reflexivity|]. by split.
Qed.

(** *** Members, elements, entries *)

Lemma type_string v : ucl_object_type v = Some UCL_STRING -> exists s, v = UString s.
Proof. destruct v; try done. by exists s. Qed.

Lemma script_finished s : (urldecode einval s).1 = EPKG_OK -> exists d, sbuf_data (urldecode einval s).2 = Some d.
Proof.
  unfold urldecode. generalize ([] : cstring). remember (length s) as n eqn:Hn. revert s Hn.
  induction (lt_wf n) as [n _ IH]. intros s -> dest. destruct s as [|c [|h0 [|h1 r]]].
  4: change (urldecode_loop einval (c :: h0 :: h1 :: r) dest) with
       (if negb (Ascii.eqb c "%") then urldecode_loop einval (h0 :: h1 :: r) (dest ++ [c])
        else urldecode_loop einval r (dest ++ unescape einval [h0; h1])).
  1-3: cbn [urldecode_loop].
  - intros _. by eexists.
  - destruct (negb _); [intros _; by eexists|done].
  - destruct (negb (Ascii.eqb c "%")); [|intros _; by eexists]. destruct (negb _); [intros _; by eexists|done].
  - destruct (negb _).
    + apply (IH (length (h0 :: h1 :: r))); [cbn; lia|done].
    + apply (IH (length r)); [cbn; lia|done].
Qed.

Lemma obj_member_goes_on attr p k v nx : readable p -> member_safe einval attr k v = true ->
  (attr = PKG_DEPS -> forall x, x ∈ nx -> strings_nonempty x = true) ->
  goes_on (pkg_obj_member einval dev emit_single_json getmode attr p (mk_item (Some k) v nx)).
Proof.
  intros Hr Hs Hx. pose proof (goes_on_same p Hr) as Hsame. unfold pkg_obj_member, member_safe in *.
  cbn [ucl_object_key i_key i_val]. unfold is_type. cbn [i_val].
  next_attr. { apply andb_prop in Hs as [Hk Hv]. destruct (_ && _); [done|]. apply set_deps_goes_on; [done|done|]. by split; [|apply Hx]. }
  next_attr. { destruct v; try done. by apply set_dirs_goes_on. }
  next_attr. { destruct v; try done. apply andb_prop in Hs as [? ?]. by apply adduid_goes_on. }
  next_attr. { destruct v; try done. apply andb_prop in Hs as [? ?]. by apply addgid_goes_on. }
  cbn [orb] in Hs. next_attr.
  { destruct v; try done.
    - destruct (decodes_some _ Hs) as (d & Hd & Hn). cbn [ucl_object_tostring ucl_object_type]. rewrite Hd. by apply adddir_goes_on.
    - destruct (decodes_some _ Hs) as (d & Hd & Hn). cbn [ucl_object_tostring ucl_object_type]. rewrite Hd. by apply adddir_goes_on.
    - by apply set_dirs_goes_on. }
  next_attr.
  { destruct v; try done.
    - unfold decodes_finished in Hs. cbn [ucl_object_tostring]. destruct (sbuf_get _) as [d|]; [|done]. by apply addfile_goes_on.
    - by apply set_files_goes_on. }
  next_attr.
  { destruct v as [s| |b| | | | |]; try done; [apply andb_prop in Hs as [? ?]; by apply addoption_goes_on|].
    apply addoption_goes_on; [done|done|by destruct b]. }
  next_attr; [done|]. next_attr; [done|].
  next_attr.
  { destruct v; try done. cbn [ucl_object_tostring]. case_bool_decide as Hu; [done|]. cbn [orb] in Hs.
    apply bool_decide_eq_true, script_finished in Hs as [d ->]. by apply addscript_goes_on. }
  next_attr; [|done]. destruct v as [s| | | | | | |]; try done. cbn [ucl_object_tostring].
  eexists. split; [reflexivity|]. destruct Hr as (Hw & [l Hl] & [c Hc]). unfold pkg_addannotation.
  destruct (_ ≫= _); cbn [snd]; [by split_and!; [|exists l|exists c]|].
  split_and!; [by apply wf_set_fields|exists l; by apply string_array_ne|exists c; by apply string_array_ne].
Qed.

Lemma obj_goes_on attr p k l : readable p -> forallb (fun kv => member_safe einval attr kv.1 kv.2) l = true ->
  goes_on (added (pkg_obj einval dev emit_single_json getmode p (mk_item k (UObject l) []) attr)).
Proof.
  intros Hr Hs. rewrite forallb_forall in Hs. unfold pkg_obj. apply goes_on_added.
  destruct (fold_opt_inv readable (pkg_obj_member einval dev emit_single_json getmode attr)
    (ucl_iterate_object (mk_item k (UObject l) []) true) p) as (p' & -> & Hr'); [|done|by exists p'].
  intros q [ky v nx] Hin Hq. destruct (heads_in _ _ _ Hin) as (k' & Hk' & Hv). cbn in Hk', Hv. subst ky.
  apply obj_member_goes_on; [done|apply (Hs (k', v)); by apply list_elem_of_In|].
  intros -> x Hx. destruct (heads_next _ _ _ _ Hin Hx) as (k2 & Hk2). apply list_elem_of_In, Hs in Hk2.
  unfold member_safe in Hk2. cbn in Hk2. by apply andb_prop in Hk2 as [_ ?].
Qed.

Lemma array_element_goes_on attr p v nx : readable p -> element_safe einval attr v = true ->
  goes_on (pkg_array_element einval dev emit_single_json getmode attr p (mk_item None v nx)).
Proof.
  intros Hr Hs. pose proof (goes_on_same p Hr) as Hsame. unfold pkg_array_element, string_element, is_type. cbn [i_val].
  assert (forall s, v = UString s -> nonempty s = true) as Hn by (intros s ->; by apply andb_prop in Hs as [? _]).
  assert (names_attr attr = true -> forall s, v = UString s -> name_fits s = true) as Hf.
  { intros Ha s ->. cbn in Hs. rewrite Ha in Hs. by apply andb_prop in Hs as [_ ?]. }
  assert (forall l, v = UObject l -> names_attr attr || (attr =? PKG_DIRS) = true ->
    goes_on (added (pkg_obj einval dev emit_single_json getmode p (mk_item None v nx) attr))) as Ho.
  { intros l -> Ha. cbn in Hs. rewrite Ha in Hs. exact (obj_goes_on attr p None l Hr Hs). }
  next_attr. { destruct v; try done. by apply addcategory_goes_on; [|apply Hn]. }
  next_attr. { destruct v; try done. by apply addlicense_goes_on; [|apply Hn]. }
  next_attr. { destruct v; try done; [|by eapply Ho]. by apply adduid_goes_on; [|apply Hn|apply Hf]. }
  next_attr. { destruct v; try done; [|by eapply Ho]. by apply addgid_goes_on; [|apply Hn|apply Hf]. }
  next_attr. { destruct v; try done; [|by eapply Ho]. by apply adddir_goes_on; [|apply Hn]. }
  next_attr. { destruct v; try done. by apply nonempty_tables; [|apply Hn]. }
  next_attr. { destruct v; try done. by apply nonempty_tables; [|apply Hn]. }
  next_attr. { destruct v; try done. by apply nonempty_tables; [|apply Hn]. }
  next_attr; [|done]. destruct v; try done. by apply nonempty_tables; [|apply Hn].
Qed.


(** The attributes given to pkg_string and pkg_int have the type they set. *)
Definition set_ok (f : parser) (a : Z) : bool :=
  match f with
  | Pstring =>
      (a =? attr_code PKG_LICENSE_LOGIC) ||
      match pkg_keys !! Z.to_nat a with
      | Some (k, UCL_STRING) =>
          (0 <? Z.to_nat a)%nat && (Z.to_nat a <? PKG_NUM_FIELDS)%nat && negb (Nat.eqb (Z.to_nat a) PKG_MTREE) &&
          negb (bool_decide (k = str "licenses")) && negb (bool_decide (k = str "categories"))
      | _ => false
      end
  | Pint =>
      match pkg_keys !! Z.to_nat a with
      | Some (k, UCL_INT) =>
          (0 <? Z.to_nat a)%nat && (Z.to_nat a <? PKG_NUM_FIELDS)%nat &&
          negb (bool_decide (k = str "licenses")) && negb (bool_decide (k = str "categories"))
      | _ => false
      end
  | _ => true
  end.

Lemma dispatch_set_ok k t a f : dispatch k t = Some (a, f) -> set_ok f a = true.
Proof.
  unfold dispatch. destruct (find_type manifest_keys k) as [a'|] eqn:Ea; [|done].
  destruct t as [t|]; [|done]. cbn [mbind option_bind]. unfold find_parse.
  destruct (find _ manifest_keys) as [m|] eqn:E; [|done]. intros [= <- <-].
  apply find_elem in E as [Hm [Hk _]%andb_prop]. apply bool_decide_eq_true in Hk. subst k.
  assert (forallb (fun m => match find_type manifest_keys (key m) with Some a => set_ok (parse_data m) a | None => false end)
    manifest_keys = true) as H by reflexivity.
  rewrite forallb_forall in H. apply list_elem_of_In, H in Hm. by rewrite Ea in Hm.
Qed.

Lemma readable_set p k o : readable p -> k <> str "licenses" -> k <> str "categories" -> readable (set_fields p (<[k := o]> (fields p))).
Proof.
  intros (Hw & [l Hl] & [c Hc]) H1 H2. split_and!; [by apply wf_set_fields|exists l; by apply string_array_ne|exists c; by apply string_array_ne].
Qed.

Lemma decided_ne (k k' : cstring) : negb (bool_decide (k = k')) = true -> k <> k'.
Proof. intros H ->. by rewrite bool_decide_eq_true_2 in H. Qed.

Lemma set_string_goes_on p a s : readable p -> set_ok Pstring a = true -> a <> attr_code PKG_LICENSE_LOGIC ->
  goes_on (added (pkg_set p (Z.to_nat a) (ArgString (Some s)))).
Proof.
  intros Hr Ha Hne. unfold set_ok in Ha. destruct (Z.eqb_spec a (attr_code PKG_LICENSE_LOGIC)); [done|]. cbn [orb] in Ha.
  unfold pkg_set, pkg_vset. cbn [vset_loop]. unfold vset_one.
  destruct (pkg_keys !! Z.to_nat a) as [[k [| | | |]]|] eqn:Ek; try done. rewrite !andb_true_iff in Ha.
  destruct Ha as ((((H1 & H2) & H3) & H4) & H5). apply Nat.ltb_lt in H1, H2.
  destruct (Nat.eqb_spec (Z.to_nat a) 0); [lia|]. destruct (Nat.leb_spec PKG_NUM_FIELDS (Z.to_nat a)); [lia|].
  cbn [mbind option_bind]. destruct (Nat.eqb (Z.to_nat a) PKG_MTREE); [done|]. cbn.
  eexists. split; [reflexivity|]. by apply readable_set; [|apply decided_ne|apply decided_ne].
Qed.

Lemma set_int_goes_on p a z : readable p -> set_ok Pint a = true ->
  goes_on (added (pkg_set p (Z.to_nat a) (ArgInt z))).
Proof.
  intros Hr Ha. unfold set_ok in Ha. unfold pkg_set, pkg_vset. cbn [vset_loop]. unfold vset_one.
  destruct (pkg_keys !! Z.to_nat a) as [[k [| | | |]]|] eqn:Ek; try done. rewrite !andb_true_iff in Ha.
  destruct Ha as (((H1 & H2) & H4) & H5). apply Nat.ltb_lt in H1, H2.
  destruct (Nat.eqb_spec (Z.to_nat a) 0); [lia|]. destruct (Nat.leb_spec PKG_NUM_FIELDS (Z.to_nat a)); [lia|].
  cbn. eexists. split; [reflexivity|]. by apply readable_set; [|apply decided_ne|apply decided_ne].
Qed.

Lemma string_goes_on p obj a : readable p -> set_ok Pstring a = true ->
  goes_on (added (pkg_string einval emit_single_json p obj a)).
Proof.
  intros Hr Ha. unfold pkg_string. destruct (Z.eqb_spec a (attr_code PKG_LICENSE_LOGIC)) as [->|Hne].
  - assert (forall z, goes_on (added ('(_, q) ← pkg_set p PKG_LICENSE_LOGIC (ArgInt z); Some (EPKG_OK, q)))) as Hset.
    { intros z. eexists. split; [reflexivity|]. by apply readable_set. }
    repeat match goal with |- context [if ?b then _ else _] => destruct b end; try apply Hset. by exists p.
  - destruct (a =? attr_code PKG_DESC); [|by apply set_string_goes_on].
    destruct (urldecode einval _) as [r [b|b]]; cbn [snd sbuf_finish sbuf_data mbind option_bind]; by apply set_string_goes_on.
Qed.

Lemma entry_goes_on p k v nx : readable p -> entry_safe einval (k, v) = true ->
  goes_on (parse_entry einval dev emit_single_json getmode keys_new p (mk_item (Some k) v nx)).
Proof.
  intros Hr Hs. rewrite parse_entry_dispatch. cbn [ucl_object_key i_key i_val mbind option_bind].
  unfold entry_safe in Hs. cbn [fst snd] in Hs. destruct (dispatch k (ucl_object_type v)) as [[a f]|] eqn:Ed; [|by apply goes_on_same].
  pose proof (dispatch_set_ok _ _ _ _ Ed) as Hset. apply dispatch_sound in Ed as (_ & _ & Hobj & Harr).
  destruct f; cbn [run_parser].
  - by apply string_goes_on.
  - by apply set_int_goes_on.
  - specialize (Harr eq_refl). destruct v as [| | |l| | | |]; try discriminate Harr.
    unfold pkg_array. apply goes_on_added. rewrite forallb_forall in Hs.
    destruct (fold_opt_inv readable (pkg_array_element einval dev emit_single_json getmode a)
      (ucl_iterate_object (mk_item (Some k) (UArray l) nx) true) p) as (p' & -> & Hr'); [|done|by exists p'].
    intros q [ky w nx'] Hin Hq. destruct (linear_in _ _ _ Hin) as [Hky Hw]. cbn in Hky, Hw. subst ky.
    apply array_element_goes_on; [done|]. apply Hs. by apply list_elem_of_In.
  - specialize (Hobj eq_refl). destruct v as [| | | |l| | |]; try discriminate Hobj. exact (obj_goes_on a p (Some k) l Hr Hs).
Qed.

(** C16: Reading a manifest always comes to an end without a failed assertion or
    a read of uninitialised memory, whatever its shape, if names, dependency
    strings, option values and array elements are not empty, paths decode to
    something, escapes in paths and scripts are complete, user and group names
    fit, and no option defaults or descriptions are given: parse_manifest of a
    package in order answers EPKG_OK with a package in order. *)
Theorem parse_manifest_total (p : pkg) (o : ucl) (Hw : wf_pkg p)
  (Hl : exists l, string_array p (str "licenses") l) (Hc : exists l, string_array p (str "categories") l)
  (Hs : forall l, o = UObject l -> forallb (entry_safe einval) l = true) :
  exists p', parse_manifest einval dev emit_single_json getmode p keys_new (Some o) = Some (EPKG_OK, p') /\
    wf_pkg p' /\ (exists l, string_array p' (str "licenses") l) /\ (exists l, string_array p' (str "categories") l).
Proof.
  unfold parse_manifest.
  destruct (fold_opt_inv readable (parse_entry einval dev emit_single_json getmode keys_new)
    (ucl_iterate_object (top_item o) true) p) as (p' & -> & Hr'); [|done|by exists p'].
  intros q [ky v nx] Hin Hq.
  assert (ky = None \/ exists l k, o = UObject l /\ ky = Some k /\ (k, v) ∈ l) as [->|(l & k & -> & -> & Hk)].
  { destruct o as [| | |l|l| | |]; try (left; by apply linear_in in Hin as [? _]).
    right. apply heads_in in Hin as (k & Hk & Hv). by exists l, k. }
  - rewrite parse_entry_dispatch. by apply goes_on_same.
  - apply entry_goes_on; [done|]. specialize (Hs l eq_refl). rewrite forallb_forall in Hs.
    apply Hs. by apply list_elem_of_In.
Qed.
End total.

Lemma parse_manifest_total_witness :
  exists p', parse_manifest true false no_json no_mode (pkg_new PKG_FILE) keys_new
      (Some (UObject [(str "files", UObject [(str "/a%25", UString (str "-"))]);
                      (str "dirs", UArray [UObject [(str "/b", UObject [(str "try", UBool true)])]]);
                      (str "unknown", UNull)])) = Some (EPKG_OK, p') /\ wf_pkg p'.
Proof.
  destruct (parse_manifest_total true false no_json no_mode ltac:(intros z; discriminate) (pkg_new PKG_FILE)
    (UObject [(str "files", UObject [(str "/a%25", UString (str "-"))]);
              (str "dirs", UArray [UObject [(str "/b", UObject [(str "try", UBool true)])]]);
              (str "unknown", UNull)])
    (wf_pkg_new PKG_FILE)) as (p' & H & Hw & _).
  - exists []. split; [reflexivity|constructor].
  - exists []. split; [reflexivity|constructor].
  - intros l E. injection E as <-. vm_compute. reflexivity.
  - exists p'. split; [exact H|exact Hw].
Defined.

(** The condition on escapes is needed: the path of a directory that ends in a
    percent sign is read from a buffer without its NUL, that of a file is the
    text before the sign. *)
Example lone_percent :
  parse_manifest true false no_json no_mode (pkg_new PKG_FILE) keys_new
    (Some (UObject [(str "directories", UObject [(str "/a%", UString (str "y"))])])) = None /\
  (p ← parse_manifest true false no_json no_mode (pkg_new PKG_FILE) keys_new
    (Some (UObject [(str "files", UObject [(str "/a%", UString (str "-"))])])); pkg_files p.2) =
  Some [mk_file (str "/a") [] [] [] 0].
Proof. split; vm_compute; reflexivity. Qed.

(** An entry with an empty string fails an assertion. *)
Example empty_option_value :
  parse_manifest true false no_json no_mode (pkg_new PKG_FILE) keys_new
    (Some (UObject [(str "options", UObject [(str "A", UString [])])])) = None.
Proof. vm_compute. reflexivity. Qed.
