(* ===== verification/Universe.v ===== *)
(** * The package universe (libpkg/pkg_jobs_universe.c, private/pkg_jobs.h)

    The universe holds the packages a job is about: local (installed) and
    remote ones, each a [univ_item] at an address of [u_store].  The items of
    one unique id are a doubly linked chain whose head is in the hash
    [u_items]; a chain is the list of its addresses, head first, stored with
    the head.  [u_seen] finds items by digest, [u_provides] the items that
    provide a shared library.

    Modelled are the insertion and the look-ups, the requests of a job, the
    choice among several upgrade candidates, and the priorities. *)
From S2P Require Import Prelude CString UtHash Pkg Checksum Version.

(** ** Data *)

Inductive pkg_solved_t :=
  | PKG_SOLVED_INSTALL | PKG_SOLVED_DELETE | PKG_SOLVED_UPGRADE | PKG_SOLVED_UPGRADE_REMOVE
  | PKG_SOLVED_FETCH.

Inductive pkg_jobs_t :=
  | PKG_JOBS_INSTALL | PKG_JOBS_DEINSTALL | PKG_JOBS_FETCH | PKG_JOBS_AUTOREMOVE | PKG_JOBS_UPGRADE.

#[export] Instance pkg_jobs_t_eq_dec : EqDecision pkg_jobs_t.
Proof. solve_decision. Defined.

(** The flags of a job. *)
Definition PKG_FLAG_DRY_RUN : Z := 2 ^ 0.
Definition PKG_FLAG_FORCE : Z := 2 ^ 1.
Definition PKG_FLAG_RECURSIVE : Z := 2 ^ 2.
Definition PKG_FLAG_AUTOMATIC : Z := 2 ^ 3.
Definition PKG_FLAG_NOSCRIPT : Z := 2 ^ 5.
Definition PKG_FLAG_PKG_VERSION_TEST : Z := 2 ^ 6.
Definition PKG_FLAG_SKIP_INSTALL : Z := 2 ^ 8.
Definition PKG_FLAG_FORCE_MISSING : Z := 2 ^ 9.

(** A pattern of the command line, and how it is matched. *)
Inductive match_t := MATCH_ALL | MATCH_EXACT | MATCH_GLOB | MATCH_REGEX | MATCH_CONDITION | MATCH_FTS.

Record job_pattern := mk_pattern {
  jp_pattern : option cstring; jp_path : option cstring; jp_match : match_t; is_file : bool }.

Record univ_item := mk_ui { ui_pkg : pkg; ui_jp : option job_pattern; ui_priority : Z }.

Record pkg_job_replace := mk_replace { new_uid : cstring; old_uid : cstring }.

Record universe := mk_univ {
  u_store : list univ_item;
  u_items : table (list nat);
  u_seen : table nat;
  u_provides : table (list nat);
  uid_replaces : list pkg_job_replace;
  nitems : nat }.

Record pkg_job_request := mk_req { rq_item : nat; rq_skip : bool }.

(** [items\[0\]] and [items\[1\]] of a solved job. *)
Record pkg_solved := mk_solved {
  s_item0 : nat; s_item1 : option nat; s_type : pkg_solved_t; already_deleted : bool }.

(** The requests are hashed by the address of their item: lists in the order
    of insertion, with at most one request per item. *)
Record pkg_jobs := mk_jobs {
  j_universe : universe;
  request_add : list pkg_job_request;
  request_delete : list pkg_job_request;
  j_jobs : list pkg_solved;
  j_type : pkg_jobs_t;
  j_flags : Z;
  j_solved : Z;
  j_count : nat }.

Definition set_universe (j : pkg_jobs) (u : universe) : pkg_jobs :=
  mk_jobs u (request_add j) (request_delete j) (j_jobs j) (j_type j) (j_flags j) (j_solved j) (j_count j).
Definition set_request_add (j : pkg_jobs) (l : list pkg_job_request) : pkg_jobs :=
  mk_jobs (j_universe j) l (request_delete j) (j_jobs j) (j_type j) (j_flags j) (j_solved j) (j_count j).
Definition set_request_delete (j : pkg_jobs) (l : list pkg_job_request) : pkg_jobs :=
  mk_jobs (j_universe j) (request_add j) l (j_jobs j) (j_type j) (j_flags j) (j_solved j) (j_count j).
Definition set_jobs (j : pkg_jobs) (l : list pkg_solved) (count : nat) : pkg_jobs :=
  mk_jobs (j_universe j) (request_add j) (request_delete j) l (j_type j) (j_flags j) (j_solved j) count.

Definition set_solved (j : pkg_jobs) (solved : Z) : pkg_jobs :=
  mk_jobs (j_universe j) (request_add j) (request_delete j) (j_jobs j) (j_type j) (j_flags j) solved (j_count j).

(** The package of the item a pointer points to; [None] for NULL. *)
Definition pkg_of (u : universe) (i : nat) : option pkg := ui_pkg <$> u_store u !! i.

Definition is_local (p : pkg) : bool := bool_decide (type p = PKG_INSTALLED).

(** The [next] links from item [i] on. *)
Fixpoint from_item (i : nat) (chain : list nat) : list nat :=
  match chain with
  | [] => []
  | k :: rest => if Nat.eqb i k then chain else from_item i rest
  end.

(** The chain an item is in. *)
Definition chain_of (u : universe) (i : nat) : option (list nat) :=
  find (fun c => bool_decide (i ∈ c)) (values (u_items u)).

(** The items of a chain with their packages. *)
Definition chain_pkgs (u : universe) (chain : list nat) : option (list (nat * pkg)) :=
  mapM (fun i => p ← pkg_of u i; Some (i, p)) chain.

(** ** Requests *)

(** HASH_FIND_PTR(requests, &item, req) *)
Definition find_req (l : list pkg_job_request) (i : nat) : option pkg_job_request :=
  find (fun r => Nat.eqb (rq_item r) i) l.

(** HASH_DEL of the request of an item, when there is one. *)
Fixpoint del_req (i : nat) (l : list pkg_job_request) : list pkg_job_request :=
  match l with
  | [] => []
  | r :: l => if Nat.eqb (rq_item r) i then l else r :: del_req i l
  end.

Definition IS_DELETE (j : pkg_jobs) : bool :=
  match j_type j with PKG_JOBS_DEINSTALL | PKG_JOBS_AUTOREMOVE => true | _ => false end.

(** pkg_jobs_add_req (pkg_jobs.c); [None] is a failed assertion. *)
Definition pkg_jobs_add_req (j : pkg_jobs) (item : nat) : option pkg_jobs :=
  p ← pkg_of (j_universe j) item;
  if IS_DELETE j then
    if negb (is_local p) then None
    else match find_req (request_delete j) item with
         | Some _ => Some j
         | None => Some (set_request_delete j (request_delete j ++ [mk_req item false]))
         end
  else
    if is_local p then None
    else match find_req (request_add j) item with
         | Some _ => Some j
         | None => Some (set_request_add j (request_add j ++ [mk_req item false]))
         end.

(** ** Construction and look-up *)

Definition pkg_jobs_universe_new : universe := mk_univ [] table_empty table_empty table_empty [] 0.

Definition pkg_jobs_universe_find (u : universe) (uid : cstring) : option (list nat) :=
  hash_lookup (u_items u) uid.

Definition pkg_jobs_universe_seen (u : universe) (digest : cstring) : option nat :=
  hash_lookup (u_seen u) digest.

Section universe.
(** libucl's text of an object, SHA-256 and the digest format of a
    repository, as in Checksum.v. *)
Context (emit : ucl -> cstring) (sha256 : cstring -> list Z)
  (repo_digest_format : cstring -> option pkg_checksum_type_t).

Definition pkg_uid (p : pkg) : option cstring := pkg_get_string emit p PKG_UNIQUEID.
Definition pkg_digest (p : pkg) : option cstring := pkg_get_string emit p PKG_DIGEST.
Definition pkg_version (p : pkg) : option cstring := pkg_get_string emit p PKG_VERSION.

(** The insertion of a new item: appended to the chain of its unique id, or
    the head of a new one; the digest is recorded when it was not seen. *)
Definition insert_item (u : universe) (p : pkg) (uid digest : cstring) : universe :=
  let item := length (u_store u) in
  let items :=
    match hash_find (u_items u) uid with
    | None => hash_add (u_items u) uid [item]
    | Some tmp => hash_update (u_items u) tmp (default [] (hash_get (u_items u) tmp) ++ [item])
    end in
  let seen :=
    match hash_lookup (u_seen u) digest with
    | None => hash_add (u_seen u) digest item
    | Some _ => u_seen u
    end in
  mk_univ (u_store u ++ [mk_ui p None 0]) items seen (u_provides u) (uid_replaces u) (S (nitems u)).

(** The last component is [*found]. *)
Definition pkg_jobs_universe_add_pkg (db : bool) (u : universe) (p : pkg) (force : bool)
  : option (pkg_error_t * universe * option nat) :=
  '(ret, p) ← match pkg_digest p with
              | Some _ => Some (EPKG_OK, p)
              | None =>
                  '(ret, p, _) ← pkg_checksum_calculate sha256 emit repo_digest_format p db;
                  Some (ret, p)
              end;
  match ret with
  | EPKG_OK =>
      digest ← pkg_digest p;
      match pkg_jobs_universe_seen u digest, force with
      | Some un, false => Some (EPKG_END, u, Some un)
      | _, _ =>
          uid ← pkg_uid p;
          Some (EPKG_OK, insert_item u p uid digest, Some (length (u_store u)))
      end
  | _ => Some (EPKG_FATAL, u, None)
  end.

(** ** Upgrade candidates *)

(** The installed package of a chain: the last one found. *)
Definition chain_local (l : list (nat * pkg)) : option (nat * pkg) :=
  foldl (fun acc ip => if is_local ip.2 then Some ip else acc) None l.

(** The remote package that is selected: a later one replaces it when it is an
    upgrade. *)
Definition select_recent (l : list (nat * pkg)) : option (option (nat * pkg)) :=
  fold_opt (fun selected cur =>
    if is_local cur.2 then Some selected
    else match selected with
         | None => Some (Some cur)
         | Some sel =>
             change ← pkg_version_change_between (pkg_version cur.2) (Some (pkg_version sel.2));
             match change with PKG_UPGRADE => Some (Some cur) | _ => Some selected end
         end) l None.

(** The loop body for one chain. *)
Definition process_chain (j : pkg_jobs) (chain : list nat) : option pkg_jobs :=
  l ← chain_pkgs (j_universe j) chain;
  let local := chain_local l in
  let vercnt := length l in
  if match local with Some (_, lp) => pkg_is_locked emit lp | None => false end then
    Some (set_request_add j (foldl (fun reqs ip => del_req ip.1 reqs) (request_add j) l))
  else if (1 <? vercnt)%nat && (bool_decide (local = None) || (2 <? vercnt)%nat) then
    selected ← select_recent l;
    sel ← selected;
    Some (set_request_add j
      (foldl (fun reqs ip => if Nat.eqb ip.1 sel.1 then reqs else del_req ip.1 reqs) (request_add j) l))
  else Some j.

Definition pkg_jobs_universe_process_upgrade_chains (j : pkg_jobs) : option pkg_jobs :=
  chains ← hash_iter (u_items (j_universe j));
  fold_opt process_chain chains j.

(** ** Priorities *)

Inductive pkg_priority_update_type :=
  | PKG_PRIORITY_UPDATE_REQUEST | PKG_PRIORITY_UPDATE_UNIVERSE
  | PKG_PRIORITY_UPDATE_CONFLICT | PKG_PRIORITY_UPDATE_DELETE.

Definition RECURSION_LIMIT : Z := 1024.

Definition set_priority (u : universe) (i : nat) (pri : Z) : universe :=
  mk_univ (alter (fun it => mk_ui (ui_pkg it) (ui_jp it) pri) i (u_store u)) (u_items u) (u_seen u)
    (u_provides u) (uid_replaces u) (nitems u).

Definition is_delete_type (ty : pkg_priority_update_type) : bool :=
  match ty with PKG_PRIORITY_UPDATE_DELETE => true | _ => false end.

(** For delete requests the dependencies and reverse dependencies change
    places. *)
Definition deps_func (ty : pkg_priority_update_type) (p : pkg) : option (list pkg_dep) :=
  if is_delete_type ty then pkg_rdeps p else pkg_deps p.
Definition rdeps_func (ty : pkg_priority_update_type) (p : pkg) : option (list pkg_dep) :=
  if is_delete_type ty then pkg_deps p else pkg_rdeps p.

(** The items of a unique id; none when it is not in the universe. *)
Definition items_of (u : universe) (uid : cstring) : list nat := default [] (pkg_jobs_universe_find u uid).

(** One more than the highest priority among the dependents, at least
    [maxpri]. *)
Definition max_priority (u : universe) (ds : list pkg_dep) (maxpri : Z) : option Z :=
  fold_opt (fun maxpri d =>
    fold_opt (fun maxpri cur =>
      c ← u_store u !! cur;
      Some (if maxpri <=? ui_priority c then ui_priority c + 1 else maxpri)) (items_of u (dep_uid d)) maxpri)
    ds maxpri.

(** Remote items are skipped when conflicts and deletions are propagated.  (The
    test of [next] and [prev] that goes with it always holds: the [prev] of an
    item in a chain is never NULL.) *)
Definition skips_remote (ty : pkg_priority_update_type) (p : pkg) : bool :=
  negb (is_local p) &&
  match ty with PKG_PRIORITY_UPDATE_CONFLICT | PKG_PRIORITY_UPDATE_DELETE => true | _ => false end.

(** The body of pkg_jobs_update_universe_item_priority; [rec] is the recursive
    call. *)
Section body.
Context (rec : universe -> nat -> Z -> pkg_priority_update_type -> option universe).

(** The loop over the dependencies: they go before their dependents. *)
Definition raise_deps (priority : Z) (ty : pkg_priority_update_type) (ds : list pkg_dep) (u : universe)
  : option universe :=
  fold_opt (fun u d =>
    fold_opt (fun u cur =>
      c ← u_store u !! cur;
      if ui_priority c <? priority + 1 then rec u cur (priority + 1) ty else Some u)
      (items_of u (dep_uid d)) u) ds u.

(** The loop over the conflicts of the remote item [it]: what is to be deleted
    goes before what is to be installed. *)
Definition raise_conflicts (it : nat) (cs : list pkg_conflict) (u : universe) : option universe :=
  fold_opt (fun u c =>
    fold_opt (fun u cur =>
      i ← u_store u !! it;
      k ← u_store u !! cur;
      if is_local (ui_pkg k) && (ui_priority k <=? ui_priority i)
      then rec u cur (ui_priority i + 1) PKG_PRIORITY_UPDATE_CONFLICT
      else Some u) (items_of u (c_uniqueid c)) u) cs u.

(** The loop over a chain, from the item on. *)
Fixpoint raise_chain (priority : Z) (ty : pkg_priority_update_type) (l : list nat) (u : universe)
  : option universe :=
  match l with
  | [] => Some u
  | it :: l =>
      x ← u_store u !! it;
      if skips_remote ty (ui_pkg x) then raise_chain priority ty l u
      else if priority <? ui_priority x then raise_chain priority ty l u
      else
        ds ← deps_func ty (ui_pkg x);
        u ← raise_deps priority ty ds (set_priority u it priority);
        rds ← rdeps_func ty (ui_pkg x);
        maxpri ← max_priority u rds priority;
        if negb (maxpri =? priority) then rec u it maxpri ty
        else
          u ← (if is_local (ui_pkg x) then Some u
               else cs ← pkg_conflicts (ui_pkg x); raise_conflicts it cs u);
          raise_chain priority ty l u
  end.
End body.

(** [None] when the fuel runs out or a NULL pointer is followed. *)
Fixpoint update_item_priority (fuel : nat) (u : universe) (item : nat) (priority : Z)
    (ty : pkg_priority_update_type) : option universe :=
  match fuel with
  | O => None
  | S fuel =>
      if RECURSION_LIMIT <? priority then Some u
      else
        chain ← chain_of u item;
        raise_chain (update_item_priority fuel) priority ty (from_item item chain) u
  end.

(** The fuel the recursion limit leaves. *)
Definition priority_fuel (priority : Z) : nat := S (Z.to_nat (RECURSION_LIMIT + 1 - priority)).

Definition pkg_jobs_update_universe_priority (u : universe) (it : nat) (ty : pkg_priority_update_type)
  : option universe := update_item_priority (priority_fuel 0) u it 0 ty.

(** The first remote item of a chain. *)
Definition first_remote (u : universe) (chain : list nat) : option nat :=
  find (fun i => match pkg_of u i with Some p => negb (is_local p) | None => false end) chain.

(** [None] also when an assertion fails. *)
Definition pkg_jobs_update_conflict_priority (u : universe) (req : pkg_solved) : option universe :=
  i1 ← s_item1 req;
  lp ← pkg_of u i1;
  cs ← pkg_conflicts lp;
  fold_opt (fun u c =>
    found ← pkg_jobs_universe_find u (c_uniqueid c);
    rit ← first_remote u found;
    r ← u_store u !! rit;
    l ← u_store u !! i1;
    if ui_priority l <=? ui_priority r then
      u ← update_item_priority (priority_fuel (ui_priority r + 1)) u i1 (ui_priority r + 1)
            PKG_PRIORITY_UPDATE_CONFLICT;
      i0 ← u_store u !! s_item0 req;
      update_item_priority (priority_fuel (ui_priority i0)) u (s_item0 req) (ui_priority i0)
        PKG_PRIORITY_UPDATE_REQUEST
    else Some u) cs u.
End universe.

(** Every item that provides a library is in the universe. *)
Definition provides_ok (u : universe) : Prop :=
  forall s prs pr, hash_lookup (u_provides u) s = Some prs -> pr ∈ prs -> is_Some (pkg_of u pr).

(** ** Well-formed universes *)

Section correct.
Context (emit : ucl -> cstring).

Abbreviation uid_of := (pkg_uid emit).
Abbreviation digest_of := (pkg_digest emit).

(** Every item is in exactly one chain, which is stored under the unique id of
    its packages; the seen table leads to items of the digest. *)
Record wf_universe (u : universe) : Prop := mk_wf_universe {
  wu_items : wf_table (u_items u);
  wu_keys : NoDup (keys (u_items u));
  wu_chains : forall uid chain, (uid, chain) ∈ elements (u_items u) ->
    chain <> [] /\ forall i, i ∈ chain -> exists p, pkg_of u i = Some p /\ uid_of p = Some uid;
  wu_once : concat (values (u_items u)) ≡ₚ seq 0 (length (u_store u));
  wu_nitems : nitems u = length (u_store u);
  wu_pkgs : forall i p, pkg_of u i = Some p -> wf_pkg p;
  wu_seen : wf_table (u_seen u);
  wu_digests : forall d i, hash_lookup (u_seen u) d = Some i -> exists p, pkg_of u i = Some p /\ digest_of p = Some d }.

Lemma wf_universe_new : wf_universe pkg_jobs_universe_new.
Proof.
  split; cbn; try done; try apply wf_empty.
  - constructor.
  - intros uid chain Hin. by apply elem_of_nil in Hin.
Qed.

Lemma pkg_of_lt u i p : pkg_of u i = Some p -> (i < length (u_store u))%nat.
Proof. unfold pkg_of. intros (it & H & _)%fmap_Some. by eapply lookup_lt_Some. Qed.

Lemma find_elements u uid chain : wf_universe u ->
  pkg_jobs_universe_find u uid = Some chain <-> (uid, chain) ∈ elements (u_items u).
Proof. intros Hw. apply hash_lookup_elements; apply Hw. Qed.

(** The chains are disjoint. *)
Lemma wu_nodup u : wf_universe u -> NoDup (concat (values (u_items u))).
Proof. intros Hw. rewrite (wu_once _ Hw). apply NoDup_seq. Qed.

Lemma concat_disjoint {A} (ls : list (list A)) i k (x : A) l1 l2 : NoDup (concat ls) ->
  ls !! i = Some l1 -> ls !! k = Some l2 -> x ∈ l1 -> x ∈ l2 -> i = k.
Proof.
  revert i k; induction ls as [|l ls IH]; intros i k Hn; [by rewrite lookup_nil|].
  cbn in Hn. apply NoDup_app in Hn as (Hl & Hd & Hn).
  assert (forall j l', ls !! j = Some l' -> x ∈ l' -> x ∈ concat ls) as Hc.
  { intros j l' Hj Hx. apply list_elem_of_In, in_concat. exists l'. split; apply list_elem_of_In; [|done].
    by eapply list_elem_of_lookup_2. }
  destruct i as [|i], k as [|k]; cbn; intros Hi Hk Hx1 Hx2; simplify_eq.
  - done.
  - destruct (Hd x Hx1). by eapply Hc.
  - destruct (Hd x Hx2). by eapply Hc.
  - f_equal. by eapply IH.
Qed.

Lemma find_chain {A} (ls : list (list A)) `{EqDecision A} (x : A) k l : NoDup (concat ls) ->
  ls !! k = Some l -> x ∈ l -> find (fun c => bool_decide (x ∈ c)) ls = Some l.
Proof.
  intros Hn Hk Hx. destruct (find _ ls) as [l'|] eqn:E.
  - apply find_some in E as [Hin Hb%bool_decide_eq_true]. apply list_elem_of_In in Hin as Hin'.
    apply list_elem_of_lookup_1 in Hin' as [j Hj].
    rewrite (concat_disjoint ls j k x l' l Hn Hj Hk Hb Hx) in Hj. congruence.
  - pose proof (find_none _ _ E l) as Hno. cbn in Hno. rewrite bool_decide_eq_true_2 in Hno by done.
    discriminate Hno. apply list_elem_of_In. by eapply list_elem_of_lookup_2.
Qed.

(** Every item has a chain, and it is the one its unique id leads to. *)
Lemma chain_of_item u i p : wf_universe u -> pkg_of u i = Some p ->
  exists chain uid, chain_of u i = Some chain /\ i ∈ chain /\ uid_of p = Some uid /\
    pkg_jobs_universe_find u uid = Some chain.
Proof.
  intros Hw Hp. pose proof (pkg_of_lt u i p Hp) as Hlt.
  assert (i ∈ concat (values (u_items u))) as Hin.
  { rewrite (wu_once _ Hw). apply elem_of_seq. lia. }
  apply list_elem_of_In, in_concat in Hin as (chain & Hc & Hi).
  apply list_elem_of_In in Hc, Hi. apply list_elem_of_lookup_1 in Hc as [k Hk].
  destruct (lookup_lt_is_Some_2 (elements (u_items u)) k) as [[uid c'] He].
  { apply lookup_lt_Some in Hk. unfold values in Hk. unfold elements. rewrite length_map in *. done. }
  pose proof He as He'. apply elements_lookup in He' as [_ Hv]. assert (c' = chain) as -> by congruence.
  apply list_elem_of_lookup_2 in He. destruct (wu_chains _ Hw _ _ He) as [_ Hall].
  destruct (Hall i Hi) as (p' & Hp' & Hu). exists chain, uid. split_and!; [|done|congruence|by apply find_elements].
  unfold chain_of. eapply find_chain; [by apply wu_nodup|done|done].
Qed.

Lemma chain_of_find u uid chain i : wf_universe u -> pkg_jobs_universe_find u uid = Some chain -> i ∈ chain ->
  chain_of u i = Some chain.
Proof.
  intros Hw Hf Hi. apply find_elements in Hf; [|done]. apply list_elem_of_lookup_1 in Hf as [k Hk].
  apply elements_lookup in Hk as [_ Hv]. unfold chain_of. eapply find_chain; [by apply wu_nodup|done|done].
Qed.

Lemma chain_member u uid chain i : wf_universe u -> pkg_jobs_universe_find u uid = Some chain -> i ∈ chain ->
  exists p, pkg_of u i = Some p /\ uid_of p = Some uid.
Proof. intros Hw Hf%find_elements Hi; [|done]. by apply (wu_chains _ Hw _ _ Hf). Qed.

(** *** Insertion *)

Lemma pkg_of_insert u p uid d i : pkg_of (insert_item u p uid d) i =
  if decide (i = length (u_store u)) then Some p else pkg_of u i.
Proof.
  unfold pkg_of, insert_item. cbn. destruct (decide (i = length (u_store u))) as [->|Hne].
  - by rewrite list_lookup_middle.
  - destruct (decide (i < length (u_store u))%nat); [by rewrite lookup_app_l|].
    rewrite !(lookup_ge_None_2); [done|lia|]. rewrite length_app. cbn. lia.
Qed.

Lemma concat_insert_perm {A} (ls : list (list A)) k l (x : A) : ls !! k = Some l ->
  concat (<[k:=l ++ [x]]> ls) ≡ₚ concat ls ++ [x].
Proof.
  revert k; induction ls as [|l' ls IH]; intros [|k] Hk; cbn in *; simplify_eq.
  - rewrite <- !app_assoc. f_equiv. apply Permutation_app_comm.
  - rewrite (IH k Hk). by rewrite app_assoc.
Qed.

(** The chains after an insertion. *)
Lemma insert_find u p uid d k : wf_universe u ->
  pkg_jobs_universe_find (insert_item u p uid d) k =
  if decide (k = uid) then Some (default [] (pkg_jobs_universe_find u uid) ++ [length (u_store u)])
  else pkg_jobs_universe_find u k.
Proof.
  intros Hw. pose proof (wu_items _ Hw) as Hwi. unfold pkg_jobs_universe_find, insert_item. cbn [u_items].
  destruct (hash_find (u_items u) uid) as [t|] eqn:E.
  - destruct (hash_find_elements _ _ _ Hwi E) as (chain & He & Hl).
    assert (hash_get (u_items u) t = Some chain) as ->
      by (rewrite hash_get_values; by apply elements_lookup in He as [_ ?]).
    cbn. rewrite Hl. cbn. apply option_eq. intros v.
    rewrite hash_lookup_elements; [|by apply wf_update|rewrite elements_update; apply Hw].
    assert (forall c, (k, c) ∈ elements (hash_update (u_items u) t (chain ++ [length (u_store u)])) <->
      if decide (k = uid) then c = chain ++ [length (u_store u)] else (k, c) ∈ elements (u_items u)) as ->.
    { intros c. apply elements_lookup in He as [Hk Hv].
      assert (t < length (values (u_items u)))%nat as Hlt by (by eapply lookup_lt_Some).
      split.
      - intros [j Hj]%list_elem_of_lookup_1. apply elements_lookup in Hj as [Hkj Hvj].
        rewrite elements_update in Hkj. rewrite values_update in Hvj.
        destruct (decide (j = t)) as [->|Hne].
        + rewrite list_lookup_insert_eq in Hvj by done. rewrite decide_True by congruence. congruence.
        + rewrite list_lookup_insert_ne in Hvj by done. rewrite decide_False.
          * eapply list_elem_of_lookup_2. apply elements_lookup. by split.
          * intros ->. destruct Hne. eapply NoDup_lookup; [apply Hw|done|done].
      - destruct (decide (k = uid)) as [->|Hne].
        + intros ->. apply (list_elem_of_lookup_2 _ t). apply elements_lookup.
          rewrite elements_update, values_update. split; [done|]. by apply list_lookup_insert_eq.
        + intros [j Hj]%list_elem_of_lookup_1. apply elements_lookup in Hj as [Hkj Hvj].
          apply (list_elem_of_lookup_2 _ j). apply elements_lookup.
          rewrite elements_update, values_update. split; [done|].
          rewrite list_lookup_insert_ne; [done|]. intros ->. congruence. }
    destruct (decide (k = uid)); [by split; [intros ->|intros [= <-]]|].
    symmetry. apply hash_lookup_elements; apply Hw.
  - assert (hash_lookup (u_items u) uid = None) as -> by (unfold hash_lookup; by rewrite E). cbn.
    destruct (decide (k = uid)) as [->|Hne]; [by rewrite hash_lookup_add|by rewrite hash_lookup_add_ne].
Qed.

Lemma insert_keys u p uid d : wf_universe u ->
  wf_table (u_items (insert_item u p uid d)) /\ NoDup (keys (u_items (insert_item u p uid d))) /\
  concat (values (u_items (insert_item u p uid d))) ≡ₚ concat (values (u_items u)) ++ [length (u_store u)].
Proof.
  intros Hw. pose proof (wu_items _ Hw) as Hwi. unfold insert_item. cbn [u_items].
  destruct (hash_find (u_items u) uid) as [t|] eqn:E.
  - destruct (hash_find_elements _ _ _ Hwi E) as (chain & He & Hl). apply elements_lookup in He as [Hk Hv].
    rewrite elements_update, values_update, hash_get_values, Hv. cbn. split_and!; [by apply wf_update|apply Hw|].
    by apply concat_insert_perm.
  - rewrite keys_add, values_add by done. split_and!; [by apply wf_add| |].
    + apply NoDup_app. split_and!; [apply Hw| |apply NoDup_singleton].
      intros x Hx ->%list_elem_of_singleton. revert Hx. by apply hash_find_none.
    + by rewrite concat_app.
Qed.

Lemma wf_insert u p uid d : wf_universe u -> wf_pkg p -> uid_of p = Some uid -> digest_of p = Some d ->
  wf_universe (insert_item u p uid d).
Proof.
  intros Hw Hp Hu Hd. destruct (insert_keys u p uid d Hw) as (H1 & H2 & H3).
  assert (forall i q, pkg_of u i = Some q -> pkg_of (insert_item u p uid d) i = Some q) as Hold.
  { intros i q Hi. rewrite pkg_of_insert. rewrite decide_False; [done|].
    pose proof (pkg_of_lt _ _ _ Hi). lia. }
  assert (pkg_of (insert_item u p uid d) (length (u_store u)) = Some p) as Hnew.
  { rewrite pkg_of_insert. by rewrite decide_True. }
  split; try done.
  - intros k chain Hin. apply (hash_lookup_elements _ _ _ H1 H2) in Hin.
    change (pkg_jobs_universe_find (insert_item u p uid d) k = Some chain) in Hin.
    rewrite insert_find in Hin by done. destruct (decide (k = uid)) as [->|Hne].
    + injection Hin as <-. split; [by destruct (default _ _)|]. intros i [Hi|Hi]%elem_of_app.
      * destruct (pkg_jobs_universe_find u uid) as [c|] eqn:Ec; [|by apply elem_of_nil in Hi].
        destruct (chain_member u uid c i Hw Ec Hi) as (q & Hq & Hqu). exists q. auto.
      * apply list_elem_of_singleton in Hi as ->. by exists p.
    + apply find_elements in Hin; [|done]. destruct (wu_chains _ Hw _ _ Hin) as [Hc Hall].
      split; [done|]. intros i Hi. destruct (Hall i Hi) as (q & Hq & Hqu). exists q. auto.
  - rewrite H3, (wu_once _ Hw). cbn. rewrite length_app. cbn. by rewrite Nat.add_comm, seq_S.
  - cbn. rewrite length_app, (wu_nitems _ Hw). cbn. lia.
  - intros i q. rewrite pkg_of_insert. destruct (decide _); [by intros [= <-]|]. by apply Hw.
  - unfold insert_item. cbn. destruct (hash_lookup (u_seen u) d); [apply Hw|]. apply wf_add, Hw.
  - intros d' i. unfold insert_item at 1. cbn [u_seen].
    destruct (hash_lookup (u_seen u) d) as [un|] eqn:Es.
    + intros Hl. destruct (wu_digests _ Hw _ _ Hl) as (q & Hq & Hqd). exists q. auto.
    + destruct (decide (d' = d)) as [->|Hne].
      * rewrite hash_lookup_add by apply Hw. intros [= <-]. by exists p.
      * rewrite hash_lookup_add_ne by (apply Hw || done). intros Hl.
        destruct (wu_digests _ Hw _ _ Hl) as (q & Hq & Hqd). exists q. auto.
Qed.

(** Adding a package to a well-formed universe keeps it well-formed.  A
    package whose digest was seen is not added again, unless forced, and the
    item that was seen is returned; any other becomes a new item, last in the
    chain of its unique id, every other chain staying as it is. *)
Theorem universe_add_pkg_spec (sha256 : cstring -> list Z)
  (repo_digest_format : cstring -> option pkg_checksum_type_t) (db force : bool) (u : universe) (p : pkg) (uid d : cstring)
  (Hu : wf_universe u) (Hp : wf_pkg p) (Huid : uid_of p = Some uid) (Hd : digest_of p = Some d) :
  exists r u' i,
    pkg_jobs_universe_add_pkg emit sha256 repo_digest_format db u p force = Some (r, u', Some i) /\
    wf_universe u' /\
    match pkg_jobs_universe_seen u d, force with
    | Some un, false =>
        r = EPKG_END /\ u' = u /\ i = un /\ exists q, pkg_of u un = Some q /\ digest_of q = Some d
    | _, _ =>
        r = EPKG_OK /\ pkg_of u i = None /\ pkg_of u' i = Some p /\ nitems u' = S (nitems u) /\
        (forall k q, pkg_of u k = Some q -> pkg_of u' k = Some q) /\
        (forall k, pkg_jobs_universe_find u' k =
           if decide (k = uid) then Some (default [] (pkg_jobs_universe_find u uid) ++ [i])
           else pkg_jobs_universe_find u k) /\
        is_Some (pkg_jobs_universe_seen u' d)
    end.
Proof.
  assert (is_Some (pkg_jobs_universe_seen (insert_item u p uid d) d)) as Hseen.
  { unfold pkg_jobs_universe_seen, insert_item. cbn [u_seen].
    destruct (hash_lookup (u_seen u) d) eqn:E; [by rewrite E|]. rewrite hash_lookup_add by apply Hu. done. }
  assert (pkg_of u (length (u_store u)) = None) as Hnew by (unfold pkg_of; by rewrite lookup_ge_None_2).
  assert (pkg_of (insert_item u p uid d) (length (u_store u)) = Some p) as Hitem
    by (by rewrite pkg_of_insert, decide_True).
  assert (forall k q, pkg_of u k = Some q -> pkg_of (insert_item u p uid d) k = Some q) as Hold.
  { intros k q Hk. rewrite pkg_of_insert. rewrite decide_False; [done|intros ->; congruence]. }
  pose proof (wf_insert u p uid d Hu Hp Huid Hd) as Hwf.
  pose proof (insert_find u p uid d) as Hfind.
  unfold pkg_jobs_universe_add_pkg. rewrite Hd. cbn [mbind option_bind]. rewrite Hd. cbn [mbind option_bind].
  destruct (pkg_jobs_universe_seen u d) as [un|] eqn:Es; [destruct force|]; cbn [mbind option_bind].
  - rewrite Huid. exists EPKG_OK, (insert_item u p uid d), (length (u_store u)). by split_and!; auto.
  - exists EPKG_END, u, un. split_and!; try done. by apply (wu_digests _ Hu).
  - rewrite Huid. exists EPKG_OK, (insert_item u p uid d), (length (u_store u)). by split_and!; auto.
Qed.

(** *** Upgrade candidates *)

Definition requested (l : list pkg_job_request) (i : nat) : Prop := i ∈ map rq_item l.

Lemma del_req_spec i l : NoDup (map rq_item l) ->
  NoDup (map rq_item (del_req i l)) /\ forall k, requested (del_req i l) k <-> requested l k /\ k <> i.
Proof.
  unfold requested. induction l as [|r l IH]; cbn.
  { intros _. split; [constructor|]. intros k. rewrite elem_of_nil. tauto. }
  intros [Hr Hn]%NoDup_cons. destruct (Nat.eqb_spec (rq_item r) i) as [<-|Hne]; cbn.
  - split; [done|]. intros k. rewrite elem_of_cons. split.
    + intros Hk. split; [by right|]. intros ->. done.
    + intros [[->|Hk] Hki]; done.
  - destruct (IH Hn) as [IH1 IH2]. split.
    + constructor; [|done]. intros Hin%IH2. by destruct Hin.
    + intros k. rewrite !elem_of_cons, IH2. split; [intros [->|[? ?]]; auto|intros [[->|?] ?]; auto].
Qed.

(** Deleting the requests of all items of a list that pass the test. *)
Lemma del_reqs_spec (keep : nat -> bool) (l : list (nat * pkg)) reqs : NoDup (map rq_item reqs) ->
  let reqs' := foldl (fun reqs ip => if keep ip.1 then reqs else del_req ip.1 reqs) reqs l in
  NoDup (map rq_item reqs') /\
  forall k, requested reqs' k <-> requested reqs k /\ (keep k = true \/ k ∉ map fst l).
Proof.
  revert reqs; induction l as [|[i p] l IH]; intros reqs Hn; cbn.
  { split; [done|]. intros k. rewrite elem_of_nil. tauto. }
  destruct (keep i) eqn:E.
  - destruct (IH reqs Hn) as [H1 H2]. split; [done|]. intros k. rewrite H2, not_elem_of_cons.
    destruct (decide (k = i)) as [->|]; intuition congruence.
  - destruct (del_req_spec i reqs Hn) as [Hn' Hd]. destruct (IH _ Hn') as [H1 H2]. split; [done|].
    intros k. rewrite H2, Hd, not_elem_of_cons. destruct (decide (k = i)) as [->|]; intuition congruence.
Qed.

(** The remote packages of a chain, and the order of their versions. *)
Definition remotes (l : list (nat * pkg)) : list (nat * pkg) := List.filter (fun ip => negb (is_local ip.2)) l.

Definition at_least (p q : pkg) : Prop :=
  exists r, pkg_version_cmp (pkg_version emit q) (pkg_version emit p) = Some r /\ r <= 0.

Definition has_version (p : pkg) : Prop := is_Some (pkg_version emit p).

Lemma at_least_refl p : has_version p -> at_least p p.
Proof. intros [v Hv]. exists 0. rewrite Hv, pkg_version_cmp_vercmp, (cmp_refl vercmp). done. Qed.

Lemma at_least_trans p q s : has_version p -> has_version q -> has_version s ->
  at_least p q -> at_least q s -> at_least p s.
Proof.
  intros [vp Hp] [vq Hq] [vs Hs] (r1 & H1 & L1) (r2 & H2 & L2). unfold at_least in *.
  rewrite Hp, Hq, Hs, pkg_version_cmp_vercmp in *. exists (vercmp vs vp). split; [done|].
  simplify_eq. by apply (cmp_trans (cmp:=vercmp) vs vq vp).
Qed.

Lemma change_between_spec p q : has_version p -> has_version q ->
  exists c, pkg_version_change_between (pkg_version emit p) (Some (pkg_version emit q)) = Some c /\
    (c = PKG_UPGRADE -> at_least p q) /\ (c <> PKG_UPGRADE -> at_least q p).
Proof.
  intros [vp Hp] [vq Hq]. unfold pkg_version_change_between, at_least.
  rewrite Hp, Hq, !pkg_version_cmp_vercmp. cbn [mbind option_bind]. eexists. split; [done|].
  pose proof (cmp_antisym (cmp:=vercmp) vq vp) as Ha. unfold change_of_cmp.
  split; intros Hc; eexists; (split; [done|]);
    destruct (vercmp_range vq vp) as [E|[E|E]]; rewrite E in *; cbn in Hc; try done; lia.
Qed.

(** The selected package is a remote one of the highest version. *)
Definition most_recent (sel : nat * pkg) (l : list (nat * pkg)) : Prop :=
  sel ∈ l /\ forall ip, ip ∈ l -> at_least sel.2 ip.2.

Lemma select_recent_from l0 l acc : Forall (fun ip => has_version ip.2) (l0 ++ l) ->
  match acc with Some sel => most_recent sel (remotes l0) | None => remotes l0 = [] end ->
  exists acc', fold_opt (fun selected cur =>
    if is_local cur.2 then Some selected
    else match selected with
         | None => Some (Some cur)
         | Some sel =>
             change ← pkg_version_change_between (pkg_version emit cur.2) (Some (pkg_version emit sel.2));
             match change with PKG_UPGRADE => Some (Some cur) | _ => Some selected end
         end) l acc = Some acc' /\
    match acc' with Some sel => most_recent sel (remotes (l0 ++ l)) | None => remotes (l0 ++ l) = [] end.
Proof.
  revert l0 acc; induction l as [|cur l IH]; intros l0 acc Hv Ha.
  { exists acc. by rewrite app_nil_r. }
  cbn [fold_opt]. replace (l0 ++ cur :: l) with ((l0 ++ [cur]) ++ l) in * by (by rewrite <- app_assoc).
  assert (remotes (l0 ++ [cur]) = remotes l0 ++ (if is_local cur.2 then [] else [cur])) as Hr.
  { unfold remotes. rewrite List.filter_app. cbn. by destruct (is_local cur.2). }
  assert (forall ip, ip ∈ l0 ++ [cur] -> has_version ip.2) as Hv'.
  { intros ip Hin. rewrite Forall_forall in Hv. apply Hv, elem_of_app. by left. }
  assert (forall ip, ip ∈ remotes l0 -> has_version ip.2) as Hvr.
  { intros ip Hin. apply Hv', elem_of_app. left. unfold remotes in Hin.
    by apply list_elem_of_In, filter_In in Hin as [Hin%list_elem_of_In _]. }
  assert (has_version cur.2) as Hvc by (apply Hv', elem_of_app; right; by apply list_elem_of_singleton).
  destruct (is_local cur.2) eqn:El; cbn [mbind option_bind].
  { apply IH; [done|]. by rewrite Hr, app_nil_r. }
  destruct acc as [sel|].
  - destruct Ha as [Hsel Hmax].
    destruct (change_between_spec cur.2 sel.2 Hvc (Hvr _ Hsel)) as (c & -> & Hup & Hno). cbn [mbind option_bind].
    assert (forall s, s = sel /\ at_least sel.2 cur.2 \/ s = cur /\ at_least cur.2 sel.2 ->
              most_recent s (remotes (l0 ++ [cur]))) as Hs.
    { intros s Hs. rewrite Hr. split.
      - apply elem_of_app. destruct Hs as [[-> _]|[-> _]]; [by left|right; by apply list_elem_of_singleton].
      - intros ip [Hin| ->%list_elem_of_singleton]%elem_of_app; destruct Hs as [[-> Hs]|[-> Hs]]; auto.
        + eapply at_least_trans; [done|by apply (Hvr sel)|by apply Hvr|done|by apply Hmax].
        + by apply at_least_refl. }
    destruct c; apply IH; try done; apply Hs; auto; left; split; auto; by apply Hno.
  - apply IH; [done|]. rewrite Hr, Ha. cbn. split; [by apply list_elem_of_singleton|].
    intros ip ->%list_elem_of_singleton. by apply at_least_refl.
Qed.

Lemma select_recent_spec l : Forall (fun ip => has_version ip.2) l ->
  exists sel, select_recent emit l = Some sel /\
    match sel with Some sel => most_recent sel (remotes l) | None => remotes l = [] end.
Proof. intros Hv. by apply (select_recent_from [] l None). Qed.

(** What is left of the requests for a chain. *)
Definition chain_resolved (reqs reqs' : list pkg_job_request) (l : list (nat * pkg)) : Prop :=
  if match chain_local l with Some (_, lp) => pkg_is_locked emit lp | None => false end then
    forall i, i ∈ map fst l -> ~ requested reqs' i
  else if (2 <=? length (remotes l))%nat then
    exists sel, most_recent sel (remotes l) /\
      forall i, i ∈ map fst l -> (requested reqs' i <-> requested reqs i /\ i = sel.1)
  else forall i, i ∈ map fst l -> (requested reqs' i <-> requested reqs i).

(** The hypotheses on a universe: at most one installed package per unique id,
    every package with a version. *)
Record solvable (u : universe) : Prop := mk_solvable {
  so_wf : wf_universe u;
  so_version : forall i p, pkg_of u i = Some p -> has_version p;
  so_local : forall uid chain i k p q, pkg_jobs_universe_find u uid = Some chain -> i ∈ chain -> k ∈ chain ->
    pkg_of u i = Some p -> pkg_of u k = Some q -> is_local p = true -> is_local q = true -> i = k }.

Lemma chain_pkgs_some u uid chain : wf_universe u -> pkg_jobs_universe_find u uid = Some chain ->
  exists l, chain_pkgs u chain = Some l /\ map fst l = chain /\ Forall (fun ip => pkg_of u ip.1 = Some ip.2) l.
Proof.
  intros Hw Hf. unfold chain_pkgs.
  assert (Forall (fun i => is_Some (pkg_of u i)) chain) as Hall.
  { apply Forall_forall. intros i Hi. destruct (chain_member u uid chain i Hw Hf Hi) as (p & Hp & _). by exists p. }
  clear Hf. induction Hall as [|i chain [p Hp] _ (l & Hl & Hm & Ha)]; [by exists []|].
  exists ((i, p) :: l). cbn. rewrite Hp. cbn. rewrite Hl. cbn. rewrite Hm. split_and!; [done|done|by constructor].
Qed.

Lemma chain_local_none l : chain_local l = None <-> length (remotes l) = length l.
Proof.
  unfold chain_local. assert (forall acc, foldl (fun acc ip => if is_local ip.2 then Some ip else acc) acc l = None <->
    acc = None /\ length (remotes l) = length l) as H.
  { induction l as [|[i p] l IH]; intros acc; [by cbn; intuition|]. cbn [foldl remotes List.filter].
    rewrite IH. cbn [snd]. fold (remotes l).
    assert (length (remotes l) <= length l)%nat as Hle
      by (unfold remotes; apply List.filter_length_le).
    destruct (is_local p); cbn [negb length].
    - fold (remotes l). split; [intros [? _]; done|intros [_ ?]; lia].
    - fold (remotes l). cbn [length]. intuition lia. }
  rewrite H. intuition.
Qed.

Lemma one_local_length l : NoDup (map fst l) ->
  (forall ip kq, ip ∈ l -> kq ∈ l -> is_local ip.2 = true -> is_local kq.2 = true -> ip.1 = kq.1) ->
  (length l <= S (length (remotes l)))%nat.
Proof.
  induction l as [|ip l IH]; [cbn; lia|]. intros [Hn Hnd]%NoDup_cons Hone.
  assert (length (remotes l) <= length l)%nat as Hle by (unfold remotes; apply List.filter_length_le).
  unfold remotes. cbn [List.filter]. destruct (is_local ip.2) eqn:E; cbn [negb length]; fold (remotes l).
  - assert (length (remotes l) = length l) as ->; [|lia]. apply chain_local_none.
    unfold chain_local. clear -Hn Hone E.
    assert (forall kq, kq ∈ l -> is_local kq.2 = false) as Hf.
    { intros kq Hk. destruct (is_local kq.2) eqn:Ek; [|done]. destruct Hn.
      rewrite (Hone ip kq); [|by left|by right|done|done]. apply list_elem_of_fmap. by exists kq. }
    clear Hn Hone. revert Hf. generalize (@None (nat * pkg)) at 1 2. intros acc.
    revert acc; induction l as [|kq l IH]; intros acc Hf; [done|]. cbn. rewrite (Hf kq) by (by left).
    apply IH. intros x Hx. apply Hf. by right.
  - cbn [length]. enough (length l <= S (length (remotes l)))%nat by lia. apply IH; [done|].
    intros x y Hx Hy. apply Hone; by right.
Qed.

Lemma chain_nodup u uid chain : wf_universe u -> pkg_jobs_universe_find u uid = Some chain -> NoDup chain.
Proof.
  intros Hw Hf. pose proof (wu_nodup _ Hw) as Hn. apply find_elements in Hf; [|done].
  apply list_elem_of_lookup_1 in Hf as [k Hk]. apply elements_lookup in Hk as [_ Hk].
  revert k Hk Hn. generalize (values (u_items u)). intros ls.
  induction ls as [|c ls IH]; intros [|k]; cbn; try done.
  - intros [= ->] Hn. by apply NoDup_app in Hn as [? _].
  - intros Hk Hn. apply NoDup_app in Hn as (_ & _ & Hn). by apply (IH k).
Qed.

Lemma process_chain_spec j uid chain : solvable (j_universe j) -> NoDup (map rq_item (request_add j)) ->
  pkg_jobs_universe_find (j_universe j) uid = Some chain ->
  exists l reqs', chain_pkgs (j_universe j) chain = Some l /\ map fst l = chain /\
    process_chain emit j chain = Some (set_request_add j reqs') /\ NoDup (map rq_item reqs') /\
    chain_resolved (request_add j) reqs' l /\
    forall i, i ∉ chain -> (requested reqs' i <-> requested (request_add j) i).
Proof.
  intros [Hw Hv Hone] Hn Hf. destruct (chain_pkgs_some _ _ _ Hw Hf) as (l & Hl & Hm & Ha).
  exists l. unfold process_chain, chain_resolved. rewrite Hl. cbn [mbind option_bind].
  pose proof (chain_nodup _ _ _ Hw Hf) as Hnd.
  assert (forall ip, ip ∈ l -> pkg_of (j_universe j) ip.1 = Some ip.2 /\ ip.1 ∈ chain) as Hin.
  { intros ip Hip. rewrite Forall_forall in Ha. split; [by apply Ha|]. rewrite <- Hm.
    apply list_elem_of_fmap. by exists ip. }
  assert (length l <= S (length (remotes l)))%nat as Hlen.
  { apply one_local_length; [by rewrite Hm|]. intros ip kq Hi Hk H1 H2.
    destruct (Hin _ Hi), (Hin _ Hk). by eapply Hone. }
  assert (length (remotes l) <= length l)%nat as Hle by (unfold remotes; apply List.filter_length_le).
  destruct (match chain_local l with Some (_, lp) => _ | None => false end).
  - pose proof (del_reqs_spec (fun _ => false) l (request_add j) Hn) as [H1 H2]. cbn beta iota in H1, H2.
    eexists. split_and!; [done|done|done|exact H1| |].
    + intros i Hi. rewrite H2. intros [_ [?|?]]; done.
    + intros i Hi. rewrite H2, Hm. intuition.
  - destruct (Nat.leb_spec 2 (length (remotes l))) as [H2|H2].
    + replace ((1 <? length l)%nat && (bool_decide (chain_local l = None) || (2 <? length l)%nat)) with true.
      2: { symmetry. apply andb_true_iff. split; [apply Nat.ltb_lt; lia|]. apply orb_true_iff.
           destruct (Nat.ltb_spec 2 (length l)); [by right|left]. apply bool_decide_eq_true, chain_local_none. lia. }
      destruct (select_recent_spec l) as (sel & Hsel & Hbest).
      { apply Forall_forall. intros ip Hip. destruct (Hin _ Hip) as [Hp _]. by eapply Hv. }
      rewrite Hsel. cbn [mbind option_bind]. destruct sel as [sel|]; [|by rewrite Hbest in H2; cbn in H2; lia].
      cbn [mbind option_bind].
      pose proof (del_reqs_spec (fun i => Nat.eqb i sel.1) l (request_add j) Hn) as [H3 H4]. cbn beta in H3, H4.
      eexists. split_and!; [done|done|done|exact H3| |].
      * exists sel. split; [done|]. intros i Hi. rewrite H4, Nat.eqb_eq. intuition.
      * intros i Hi. rewrite H4, Hm. intuition.
    + replace ((1 <? length l)%nat && (bool_decide (chain_local l = None) || (2 <? length l)%nat)) with false.
      2: { symmetry. apply andb_false_iff. destruct (Nat.ltb_spec 1 (length l)); [right|by left].
           apply orb_false_iff. split; [|apply Nat.ltb_ge; lia]. apply bool_decide_eq_false.
           rewrite chain_local_none. lia. }
      exists (request_add j). destruct j; split_and!; done.
Qed.

(** The other chains do not matter for a chain. *)
Lemma resolved_later reqs reqs1 reqs2 l :
  (forall i, i ∈ map fst l -> (requested reqs2 i <-> requested reqs1 i)) ->
  chain_resolved reqs reqs1 l -> chain_resolved reqs reqs2 l.
Proof.
  intros H. unfold chain_resolved. destruct (match chain_local l with Some (_, lp) => _ | None => false end);
    [|destruct (2 <=? _)%nat].
  - intros Hr i Hi. rewrite H by done. by apply Hr.
  - intros (sel & Hs & Hr). exists sel. split; [done|]. intros i Hi. rewrite H by done. by apply Hr.
  - intros Hr i Hi. rewrite H by done. by apply Hr.
Qed.

Lemma resolved_earlier reqs reqs1 reqs2 l :
  (forall i, i ∈ map fst l -> (requested reqs1 i <-> requested reqs i)) ->
  chain_resolved reqs1 reqs2 l -> chain_resolved reqs reqs2 l.
Proof.
  intros H. unfold chain_resolved. destruct (match chain_local l with Some (_, lp) => _ | None => false end);
    [done|destruct (2 <=? _)%nat].
  - intros (sel & Hs & Hr). exists sel. split; [done|]. intros i Hi. rewrite <- H by done. by apply Hr.
  - intros Hr i Hi. rewrite <- H by done. by apply Hr.
Qed.

Lemma process_chains_spec chains j : solvable (j_universe j) -> NoDup (map rq_item (request_add j)) ->
  NoDup (concat chains) ->
  (forall chain, chain ∈ chains -> exists uid, pkg_jobs_universe_find (j_universe j) uid = Some chain) ->
  exists reqs', fold_opt (process_chain emit) chains j = Some (set_request_add j reqs') /\
    NoDup (map rq_item reqs') /\
    (forall chain, chain ∈ chains -> exists l, chain_pkgs (j_universe j) chain = Some l /\ map fst l = chain /\
       chain_resolved (request_add j) reqs' l) /\
    forall i, i ∉ concat chains -> (requested reqs' i <-> requested (request_add j) i).
Proof.
  revert j; induction chains as [|chain chains IH]; intros j Hs Hn Hcc Hf.
  { exists (request_add j). destruct j. split_and!; try done. intros chain Hc. by apply elem_of_nil in Hc. }
  cbn [concat] in Hcc. apply NoDup_app in Hcc as (_ & Hd & Hcc).
  destruct (Hf chain ltac:(by left)) as [uid Huid].
  destruct (process_chain_spec j uid chain Hs Hn Huid) as (l & reqs1 & Hl & Hm & Hp & Hn1 & Hr & Hother).
  cbn [fold_opt]. rewrite Hp. cbn [mbind option_bind].
  destruct (IH (set_request_add j reqs1) Hs Hn1 Hcc) as (reqs2 & H1 & H2 & H3 & H4).
  { intros c Hc. apply (Hf c). by right. }
  cbn [request_add set_request_add j_universe] in *.
  exists reqs2. split_and!; [exact H1|done| |].
  - intros c [->|Hc]%elem_of_cons.
    + exists l. split_and!; [done|done|]. eapply resolved_later; [|done]. intros i Hi. apply H4, Hd. by rewrite <- Hm.
    + destruct (H3 c Hc) as (l' & Hl' & Hm' & Hr'). exists l'. split_and!; [done|done|].
      eapply resolved_earlier; [|done]. intros i Hi. apply Hother. intros Hic. apply (Hd i Hic).
      apply list_elem_of_In, in_concat. exists c. rewrite Hm' in Hi. by split; apply list_elem_of_In.
  - intros i Hi. cbn [concat] in Hi. apply not_elem_of_app in Hi as [Hi1 Hi2]. rewrite H4 by done. by apply Hother.
Qed.

(** The chains of the table and those the unique ids lead to. *)
Lemma chain_in_values u chain : wf_universe u ->
  chain ∈ values (u_items u) <-> exists uid, pkg_jobs_universe_find u uid = Some chain.
Proof.
  intros Hw. rewrite values_elements, elem_of_map. split.
  - intros ([uid c] & -> & Hin). exists uid. by apply find_elements.
  - intros [uid Hf]. exists (uid, chain). split; [done|by apply find_elements].
Qed.

Lemma upgrade_chains_ok j : solvable (j_universe j) -> NoDup (map rq_item (request_add j)) ->
  exists reqs', pkg_jobs_universe_process_upgrade_chains emit j = Some (set_request_add j reqs') /\
    NoDup (map rq_item reqs') /\
    forall chain, chain ∈ values (u_items (j_universe j)) ->
      exists l, chain_pkgs (j_universe j) chain = Some l /\ map fst l = chain /\ chain_resolved (request_add j) reqs' l.
Proof.
  intros Hs Hn. unfold pkg_jobs_universe_process_upgrade_chains. pose proof (so_wf _ Hs) as Hw.
  rewrite (hash_iter_wf _ (wu_items _ Hw)). cbn [mbind option_bind].
  destruct (process_chains_spec (values (u_items (j_universe j))) j Hs Hn (wu_nodup _ Hw)) as (reqs' & H1 & H2 & H3 & _).
  - intros chain Hc. by apply chain_in_values.
  - by exists reqs'.
Qed.

(** pkg_jobs_universe_process_upgrade_chains leaves, of the requests for
    the packages of one unique id: none when the installed one is locked;
    when there are several candidates, only the request (if any) for one of
    the highest version; all of them otherwise.  The universe, the deletion
    requests and the other fields of the job stay. *)
Theorem process_upgrade_chains_spec (j : pkg_jobs) (Hs : solvable (j_universe j))
  (Hn : NoDup (map rq_item (request_add j))) :
  exists reqs', pkg_jobs_universe_process_upgrade_chains emit j = Some (set_request_add j reqs') /\
    forall uid chain, pkg_jobs_universe_find (j_universe j) uid = Some chain ->
      exists l, chain_pkgs (j_universe j) chain = Some l /\ map fst l = chain /\
        chain_resolved (request_add j) reqs' l.
Proof.
  destruct (upgrade_chains_ok j Hs Hn) as (reqs' & H1 & _ & H3). exists reqs'. split; [done|].
  intros uid chain Hf. apply H3, chain_in_values; [apply Hs|by exists uid].
Qed.

(** A request is passed over: the installed package is locked, or another
    candidate of its unique id is the most recent one. *)
Definition passed_over (u : universe) (i : nat) : Prop :=
  exists uid chain l, pkg_jobs_universe_find u uid = Some chain /\ i ∈ chain /\ chain_pkgs u chain = Some l /\
    ((exists k lp, chain_local l = Some (k, lp) /\ pkg_is_locked emit lp = true) \/
     exists sel, most_recent sel (remotes l) /\ sel.1 <> i).

Lemma chain_resolved_left reqs reqs' l i : chain_resolved reqs reqs' l -> i ∈ map fst l -> requested reqs i ->
  requested reqs' i \/ (exists k lp, chain_local l = Some (k, lp) /\ pkg_is_locked emit lp = true) \/
  exists sel, most_recent sel (remotes l) /\ sel.1 <> i.
Proof.
  unfold chain_resolved. intros Hr Hi Hreq. destruct (chain_local l) as [[k lp]|]; [destruct (pkg_is_locked emit lp) eqn:El|].
  { right. left. by exists k, lp. }
  all: destruct (2 <=? _)%nat; [|left; by apply Hr]; destruct Hr as (sel & Hs & Hr);
    destruct (decide (i = sel.1)); [left; by apply Hr|right; right; by exists sel].
Qed.

Lemma upgrade_chains_left j reqs' i : solvable (j_universe j) -> NoDup (map rq_item (request_add j)) ->
  pkg_jobs_universe_process_upgrade_chains emit j = Some (set_request_add j reqs') -> requested (request_add j) i ->
  is_Some (pkg_of (j_universe j) i) -> requested reqs' i \/ passed_over (j_universe j) i.
Proof.
  intros Hs Hn H Hreq [p Hp]. pose proof (so_wf _ Hs) as Hw. destruct (upgrade_chains_ok j Hs Hn) as (reqs & H1 & _ & H3).
  rewrite H in H1. injection H1 as ->. destruct (chain_of_item _ i p Hw Hp) as (chain & uid & _ & Hi & _ & Hf).
  destruct (H3 chain) as (l & Hl & Hm & Hr); [apply chain_in_values; [done|by exists uid]|].
  destruct (chain_resolved_left _ _ _ i Hr) as [?|?]; [by rewrite Hm|done|by left|right; by exists uid, chain, l].
Qed.

(** Requests are only removed. *)
Lemma del_req_sublist i l : sublist (del_req i l) l.
Proof.
  induction l as [|r l IH]; cbn; [constructor|]. destruct (Nat.eqb (rq_item r) i); by constructor.
Qed.

Lemma del_req_length i l : is_Some (find_req l i) -> (length (del_req i l) < length l)%nat.
Proof.
  unfold find_req. induction l as [|r l IH]; cbn; [by intros [? ?]|].
  destruct (Nat.eqb (rq_item r) i); cbn; [lia|]. intros H. specialize (IH H). lia.
Qed.

Lemma del_reqs_sublist (keep : nat -> bool) (l : list (nat * pkg)) reqs :
  sublist (foldl (fun reqs ip => if keep ip.1 then reqs else del_req ip.1 reqs) reqs l) reqs.
Proof.
  revert reqs; induction l as [|ip l IH]; intros reqs; [done|]. cbn [foldl]. etransitivity; [apply IH|].
  destruct (keep ip.1); [done|apply del_req_sublist].
Qed.

Lemma process_chain_sublist j chain j' : process_chain emit j chain = Some j' ->
  exists reqs', j' = set_request_add j reqs' /\ sublist reqs' (request_add j).
Proof.
  unfold process_chain. destruct (chain_pkgs (j_universe j) chain) as [l|]; [|done]. cbn [mbind option_bind].
  destruct (match chain_local l with Some (_, lp) => _ | None => false end); [|destruct (_ && _)].
  - intros [= <-]. eexists. split; [done|]. apply (del_reqs_sublist (fun _ => false)).
  - destruct (select_recent emit l) as [[sel|]|]; try done. intros [= <-]. eexists. split; [done|].
    apply (del_reqs_sublist (fun i => Nat.eqb i sel.1)).
  - intros [= <-]. exists (request_add j). by destruct j.
Qed.

Lemma upgrade_chains_sublist j j' : pkg_jobs_universe_process_upgrade_chains emit j = Some j' ->
  exists reqs', j' = set_request_add j reqs' /\ sublist reqs' (request_add j).
Proof.
  unfold pkg_jobs_universe_process_upgrade_chains. destruct (hash_iter _) as [chains|]; [|done]. cbn [mbind option_bind].
  revert j. induction chains as [|chain chains IH]; intros j; cbn [fold_opt].
  - intros [= <-]. exists (request_add j). by destruct j.
  - destruct (process_chain emit j chain) as [j1|] eqn:E; [|done]. cbn [mbind option_bind].
    apply process_chain_sublist in E as (reqs1 & -> & H1). intros (reqs2 & -> & H2)%IH.
    exists reqs2. split; [done|]. by transitivity reqs1.
Qed.

(** *** Priorities *)

(** Nothing but priorities changes, and they only grow, up to the recursion
    limit. *)
Definition raised (u u' : universe) : Prop :=
  u_items u' = u_items u /\ u_seen u' = u_seen u /\ map ui_jp (u_store u') = map ui_jp (u_store u) /\ u_provides u' = u_provides u /\ nitems u' = nitems u /\
  (forall i, pkg_of u' i = pkg_of u i) /\
  forall i x, u_store u !! i = Some x -> exists x', u_store u' !! i = Some x' /\
    ui_priority x <= ui_priority x' /\ (ui_priority x' = ui_priority x \/ ui_priority x' <= RECURSION_LIMIT).

Lemma raised_refl u : raised u u.
Proof. split_and!; try done. intros i x Hx. exists x. split_and!; [done|lia|by left]. Qed.

Lemma raised_trans u1 u2 u3 : raised u1 u2 -> raised u2 u3 -> raised u1 u3.
Proof.
  intros (A1 & A2 & AJ & A3 & A4 & A5 & A6) (B1 & B2 & BJ & B3 & B4 & B5 & B6). split_and!; try congruence.
  intros i x Hx. destruct (A6 i x Hx) as (y & Hy & L1 & R1). destruct (B6 i y Hy) as (z & Hz & L2 & R2).
  exists z. split_and!; [done|lia|]. destruct R1, R2; (left; lia) || (right; lia).
Qed.

#[local] Instance raised_preorder : PreOrder raised.
Proof. split; [exact raised_refl|exact raised_trans]. Qed.

Lemma set_priority_jps u i pri : map ui_jp (u_store (set_priority u i pri)) = map ui_jp (u_store u).
Proof.
  apply list_eq. intros k. unfold set_priority. cbn [u_store]. rewrite !list_lookup_fmap, list_lookup_alter.
  case_decide; [|done]. subst k. by destruct (u_store u !! i).
Qed.

Lemma raised_set u i x pri : u_store u !! i = Some x -> ui_priority x <= pri <= RECURSION_LIMIT ->
  raised u (set_priority u i pri).
Proof.
  intros Hx Hp. split_and!; try done.
  - apply set_priority_jps.
  - intros k. unfold pkg_of, set_priority. cbn. destruct (decide (k = i)) as [->|Hne].
    + rewrite list_lookup_alter_eq, Hx. done.
    + by rewrite list_lookup_alter_ne.
  - intros k y Hy. cbn. destruct (decide (k = i)) as [->|Hne].
    + rewrite list_lookup_alter_eq, Hx. cbn. eexists. split; [done|]. cbn. simplify_eq. lia.
    + rewrite list_lookup_alter_ne by done. exists y. split_and!; [done|lia|by left].
Qed.

(** Nothing but priorities differs. *)
Definition repriced (u u' : universe) : Prop :=
  u_items u' = u_items u /\ u_seen u' = u_seen u /\ map ui_jp (u_store u') = map ui_jp (u_store u) /\ u_provides u' = u_provides u /\ nitems u' = nitems u /\
  forall i, pkg_of u' i = pkg_of u i.

Lemma repriced_trans u1 u2 u3 : repriced u1 u2 -> repriced u2 u3 -> repriced u1 u3.
Proof. intros (A1 & A2 & AJ & A3 & A4 & A5) (B1 & B2 & BJ & B3 & B4 & B5). split_and!; congruence. Qed.

Lemma repriced_set u i pri : repriced u (set_priority u i pri).
Proof.
  split_and!; try done; [apply set_priority_jps|]. intros k. unfold pkg_of, set_priority. cbn [u_store]. rewrite list_lookup_alter.
  case_decide; [|done]. subst k. by destruct (u_store u !! i).
Qed.

Lemma repriced_wf u u' : repriced u u' -> wf_universe u -> wf_universe u'.
Proof.
  intros (A1 & A2 & _ & A3 & A4 & A5) Hw.
  assert (forall n, (length (u_store u') <= n <-> length (u_store u) <= n)%nat) as Hlen.
  { intros n. rewrite <- !lookup_ge_None. specialize (A5 n). unfold pkg_of in A5.
    split; intros H; rewrite H in A5; [symmetry in A5|]; by apply fmap_None in A5. }
  assert (length (u_store u') = length (u_store u)) as Hl
    by (apply Nat.le_antisymm; [by apply Hlen|by apply (Hlen (length (u_store u')))]).
  destruct Hw as [w1 w2 w3 w4 w5 w6 w7 w8]. split; rewrite ?A1, ?A2, ?A4, ?Hl; try done.
  - intros uid chain Hin. destruct (w3 uid chain Hin) as [Hc Hall]. split; [done|]. intros i Hi.
    rewrite A5. by apply Hall.
  - intros i p. rewrite A5. apply w6.
  - intros d i Hd. rewrite A5. by apply w8.
Qed.

Lemma raised_repriced u u' : raised u u' -> repriced u u'.
Proof. by intros (A1 & A2 & AJ & A3 & A4 & A5 & A6). Qed.

Lemma raised_wf u u' : raised u u' -> wf_universe u -> wf_universe u'.
Proof. intros H%raised_repriced. by apply repriced_wf. Qed.

Lemma raised_store u u' i : raised u u' -> is_Some (u_store u !! i) -> is_Some (u_store u' !! i).
Proof. intros (_ & _ & _ & _ & _ & _ & H) [x Hx]. destruct (H i x Hx) as (x' & Hx' & _). by exists x'. Qed.

(** A loop over the items of a list of unique ids. *)
Lemma raised_items {D} (uid : D -> cstring) (f : universe -> nat -> option universe) (ds : list D) u :
  wf_universe u ->
  (forall v cur, raised u v -> is_Some (u_store v !! cur) -> exists v', f v cur = Some v' /\ raised v v') ->
  exists u', fold_opt (fun v d => fold_opt f (items_of v (uid d)) v) ds u = Some u' /\ raised u u'.
Proof.
  intros Hw Hf. apply (fold_opt_inv (raised u)); [|done]. intros v d _ Hv.
  apply (fold_opt_inv (raised u)); [|done]. intros w cur Hcur Hrw.
  assert (is_Some (u_store w !! cur)) as Hs.
  { assert (wf_universe v) as Hwv by (by eapply raised_wf).
    unfold items_of in Hcur. destruct (pkg_jobs_universe_find v (uid d)) as [c|] eqn:E; [|by apply elem_of_nil in Hcur].
    destruct (chain_member v _ c cur Hwv E Hcur) as (p & Hp & _).
    assert (pkg_of w cur = Some p) as Hpw.
    { destruct Hrw as (_ & _ & _ & _ & _ & Hrw & _), Hv as (_ & _ & _ & _ & _ & Hv & _). by rewrite Hrw, <- Hv. }
    unfold pkg_of in Hpw. by apply fmap_Some in Hpw as (x & -> & _). }
  destruct (Hf w cur Hrw Hs) as (w' & Hw' & Hrw'). exists w'. split; [done|]. by transitivity w.
Qed.

Lemma max_priority_some u ds pri : wf_universe u -> exists m, max_priority u ds pri = Some m /\ pri <= m.
Proof.
  intros Hw. apply (fold_opt_inv (fun m => pri <= m)); [|lia]. intros m d _ Hm.
  apply (fold_opt_inv (fun m => pri <= m)); [|done]. intros m' cur Hcur Hm'.
  unfold items_of in Hcur. destruct (pkg_jobs_universe_find u (dep_uid d)) as [c|] eqn:E; [|by apply elem_of_nil in Hcur].
  destruct (chain_member u _ c cur Hw E Hcur) as (p & Hp & _). unfold pkg_of in Hp.
  apply fmap_Some in Hp as (x & -> & _). cbn. eexists. split; [done|]. destruct (Z.leb_spec m' (ui_priority x)); lia.
Qed.

Section chain_loop.
Context (rec : universe -> nat -> Z -> pkg_priority_update_type -> option universe) (priority : Z).
Context (Hrec : forall u i pri ty, wf_universe u -> is_Some (u_store u !! i) -> priority < pri ->
  exists u', rec u i pri ty = Some u' /\ raised u u').

Lemma raise_deps_ok ty ds u : wf_universe u ->
  exists u', raise_deps rec priority ty ds u = Some u' /\ raised u u'.
Proof.
  intros Hw. apply (raised_items dep_uid); [done|]. intros v cur Hv [c Hc]. rewrite Hc. cbn [mbind option_bind].
  destruct (ui_priority c <? priority + 1); [|by exists v].
  apply Hrec; [by eapply raised_wf|by exists c|lia].
Qed.

Lemma raise_conflicts_ok it x cs u : wf_universe u -> u_store u !! it = Some x -> priority <= ui_priority x ->
  exists u', raise_conflicts rec it cs u = Some u' /\ raised u u'.
Proof.
  intros Hw Hx Hp. apply (raised_items c_uniqueid); [done|]. intros v cur Hv [k Hk].
  pose proof Hv as (_ & _ & _ & _ & _ & _ & Hup). destruct (Hup it x Hx) as (i & Hi & Hle & _).
  rewrite Hi, Hk. cbn [mbind option_bind].
  destruct (_ && _); [|by exists v]. apply Hrec; [by eapply raised_wf|by exists k|lia].
Qed.

Lemma raise_chain_ok ty l u : priority <= RECURSION_LIMIT -> wf_universe u -> Forall (fun i => is_Some (u_store u !! i)) l ->
  exists u', raise_chain rec priority ty l u = Some u' /\ raised u u'.
Proof.
  intros Hlim. revert u; induction l as [|it l IH]; intros u Hw Hl; [by exists u|].
  apply Forall_cons in Hl as [[x Hx] Hl]. cbn [raise_chain]. rewrite Hx. cbn [mbind option_bind].
  assert (forall v, raised u v -> exists v', raise_chain rec priority ty l v = Some v' /\ raised u v') as Hrest.
  { intros v Hv. destruct (IH v) as (v' & H1 & H2); [by eapply raised_wf| |exists v'; split; [done|by transitivity v]].
    eapply Forall_impl; [exact Hl|]. intros i Hi. by eapply raised_store. }
  destruct (skips_remote ty (ui_pkg x)); [by apply Hrest|].
  destruct (Z.ltb_spec priority (ui_priority x)) as [|Hle]; [by apply Hrest|].
  assert (wf_pkg (ui_pkg x)) as Hp by (apply (wu_pkgs _ Hw it); unfold pkg_of; by rewrite Hx).
  pose proof (wf_list_sound _ PKG_DEPS Hp) as (ds & Hds & _).
  pose proof (wf_list_sound _ PKG_RDEPS Hp) as (rds & Hrds & _).
  pose proof (wf_list_sound _ PKG_CONFLICTS Hp) as (cs & Hcs & _).
  assert (exists d r, deps_func ty (ui_pkg x) = Some d /\ rdeps_func ty (ui_pkg x) = Some r) as (d & r & -> & ->)
    by (unfold deps_func, rdeps_func; destruct (is_delete_type ty); eauto).
  cbn [mbind option_bind].
  pose proof (raised_set u it x priority Hx (conj Hle Hlim)) as Hset.
  destruct (raise_deps_ok ty d (set_priority u it priority)) as (u1 & -> & H1); [by eapply raised_wf|].
  assert (raised u u1) as Hu1 by (by transitivity (set_priority u it priority)).
  assert (wf_universe u1) as Hw1 by (by eapply raised_wf).
  cbn [mbind option_bind]. destruct (max_priority_some u1 r priority Hw1) as (m & -> & Hm). cbn [mbind option_bind].
  assert (exists y, u_store u1 !! it = Some y /\ priority <= ui_priority y) as (y & Hy & Hyp).
  { destruct H1 as (_ & _ & _ & _ & _ & _ & H1). destruct (H1 it (mk_ui (ui_pkg x) (ui_jp x) priority)) as (y & Hy & Hyp & _).
    - cbn. by rewrite list_lookup_alter_eq, Hx.
    - by exists y. }
  destruct (Z.eqb_spec m priority) as [->|Hne]; cbn [negb].
  - destruct (is_local (ui_pkg x)); cbn [mbind option_bind]; [by apply Hrest|]. rewrite Hcs. cbn [mbind option_bind].
    destruct (raise_conflicts_ok it y cs u1 Hw1 Hy Hyp) as (u2 & -> & H2). cbn [mbind option_bind].
    apply Hrest. by transitivity u1.
  - destruct (Hrec u1 it m ty Hw1) as (u2 & -> & H2); [by exists y|lia|]. exists u2. split; [done|]. by transitivity u1.
Qed.
End chain_loop.

Lemma from_item_sub i chain k : k ∈ from_item i chain -> k ∈ chain.
Proof.
  induction chain as [|c chain IH]; cbn; [done|]. destruct (Nat.eqb i c); [done|]. intros Hk. right. by apply IH.
Qed.

Lemma update_item_priority_ok fuel u item pri ty : wf_universe u -> is_Some (u_store u !! item) ->
  (Z.to_nat (RECURSION_LIMIT + 1 - pri) < fuel)%nat ->
  exists u', update_item_priority fuel u item pri ty = Some u' /\ raised u u'.
Proof.
  revert u item pri ty; induction fuel as [|fuel IH]; intros u item pri ty Hw [x Hx] Hfuel; [lia|].
  cbn [update_item_priority]. destruct (Z.ltb_spec RECURSION_LIMIT pri) as [|Hlim]; [by exists u|].
  destruct (chain_of_item u item (ui_pkg x) Hw) as (chain & uid & Hc & Hi & _ & Hf); [unfold pkg_of; by rewrite Hx|].
  rewrite Hc. cbn [mbind option_bind]. apply raise_chain_ok; [|done|done|].
  - intros v i q ty' Hv His Hq. apply IH; [done|done|lia].
  - apply Forall_forall. intros k Hk. apply from_item_sub in Hk.
    destruct (chain_member u uid chain k Hw Hf Hk) as (p & Hp & _). unfold pkg_of in Hp.
    by apply fmap_Some in Hp as (y & -> & _).
Qed.

(** pkg_jobs_update_universe_priority ends, whatever cycles the
    dependencies and conflicts have: the recursion limit bounds its depth.
    It changes priorities only, never lowers one, and sets none above the
    limit. *)
Theorem update_universe_priority_ends (u : universe) (it : nat) (ty : pkg_priority_update_type)
  (Hw : wf_universe u) (Hit : (it < nitems u)%nat) :
  exists u', pkg_jobs_update_universe_priority u it ty = Some u' /\ wf_universe u' /\ raised u u'.
Proof.
  destruct (update_item_priority_ok (priority_fuel 0) u it 0 ty Hw) as (u' & H & Hr).
  - apply lookup_lt_is_Some_2. by rewrite <- (wu_nitems _ Hw).
  - unfold priority_fuel. lia.
  - exists u'. split_and!; [done|by eapply raised_wf|done].
Qed.
End correct.

(** *** Concrete universes *)

(** A package with its unique id, version and digest. *)
Definition sample_pkg (t : pkg_t) (uid version digest : string) : pkg :=
  set_fields (pkg_new t) (<[str "uniqueid" := UString (str uid)]> (<[str "version" := UString (str version)]>
    (<[str "digest" := UString (str digest)]> ∅))).

Definition no_emit : ucl -> cstring := fun _ => [].

Lemma wf_sample t uid version digest : wf_pkg (sample_pkg t uid version digest).
Proof. apply wf_set_fields, wf_pkg_new. Qed.

Lemma universe_add_pkg_spec_witness :
  exists r u i, pkg_jobs_universe_add_pkg no_emit (fun _ => []) (fun _ => None) false pkg_jobs_universe_new
      (sample_pkg PKG_REMOTE "foo~misc/foo" "1.0" "d1") false = Some (r, u, Some i) /\
    wf_universe no_emit u /\ r = EPKG_OK.
Proof.
  destruct (universe_add_pkg_spec no_emit (fun _ => []) (fun _ => None) false false pkg_jobs_universe_new
    (sample_pkg PKG_REMOTE "foo~misc/foo" "1.0" "d1") (str "foo~misc/foo") (str "d1")
    (wf_universe_new no_emit) (wf_sample _ _ _ _) eq_refl eq_refl) as (r & u & i & H1 & H2 & H3).
  exists r, u, i. split; [exact H1|]. split; [exact H2|exact (proj1 H3)].
Defined.

(** An installed package and two candidates. *)
Definition sample_universe : universe :=
  insert_item (insert_item (insert_item pkg_jobs_universe_new
    (sample_pkg PKG_INSTALLED "foo~misc/foo" "1.0" "d0") (str "foo~misc/foo") (str "d0"))
    (sample_pkg PKG_REMOTE "foo~misc/foo" "1.1" "d1") (str "foo~misc/foo") (str "d1"))
    (sample_pkg PKG_REMOTE "foo~misc/foo" "1.2" "d2") (str "foo~misc/foo") (str "d2").

Lemma sample_universe_wf : wf_universe no_emit sample_universe.
Proof.
  do 3 (apply wf_insert; [|apply wf_sample|vm_compute; reflexivity|vm_compute; reflexivity]).
  apply wf_universe_new.
Qed.

Lemma sample_universe_pkgs i p : pkg_of sample_universe i = Some p ->
  (i = 0%nat /\ p = sample_pkg PKG_INSTALLED "foo~misc/foo" "1.0" "d0") \/
  (i = 1%nat /\ p = sample_pkg PKG_REMOTE "foo~misc/foo" "1.1" "d1") \/
  (i = 2%nat /\ p = sample_pkg PKG_REMOTE "foo~misc/foo" "1.2" "d2").
Proof.
  unfold pkg_of. change (u_store sample_universe) with
    [mk_ui (sample_pkg PKG_INSTALLED "foo~misc/foo" "1.0" "d0") None 0; mk_ui (sample_pkg PKG_REMOTE "foo~misc/foo" "1.1" "d1") None 0;
     mk_ui (sample_pkg PKG_REMOTE "foo~misc/foo" "1.2" "d2") None 0].
  destruct i as [|[|[|i]]]; intros H; [injection H as <-; auto..|done].
Qed.

Lemma sample_universe_solvable : solvable no_emit sample_universe.
Proof.
  split; [apply sample_universe_wf| |].
  - intros i p [[_ ->]|[[_ ->]|[_ ->]]]%sample_universe_pkgs; eexists; vm_compute; reflexivity.
  - intros uid chain i k p q _ _ _ [[-> ->]|[[-> ->]|[-> ->]]]%sample_universe_pkgs
      [[-> ->]|[[-> ->]|[-> ->]]]%sample_universe_pkgs; done.
Qed.

Definition sample_jobs : pkg_jobs :=
  mk_jobs sample_universe [mk_req 1 false; mk_req 2 false] [] [] PKG_JOBS_UPGRADE 0 0 0.

Lemma process_upgrade_chains_spec_witness :
  exists reqs', pkg_jobs_universe_process_upgrade_chains no_emit sample_jobs = Some (set_request_add sample_jobs reqs') /\
    map rq_item reqs' = [2%nat].
Proof.
  destruct (process_upgrade_chains_spec no_emit sample_jobs sample_universe_solvable
    ltac:(cbn; apply (bool_decide_unpack _); vm_compute; exact I)) as (reqs' & H & _).
  exists reqs'. split; [exact H|].
  assert ((map rq_item ∘ request_add) <$> pkg_jobs_universe_process_upgrade_chains no_emit sample_jobs = Some [2%nat]) as Hc
    by (vm_compute; reflexivity).
  rewrite H in Hc. injection Hc as Hc. exact Hc.
Defined.

Lemma update_universe_priority_ends_witness :
  exists u', pkg_jobs_update_universe_priority sample_universe 1 PKG_PRIORITY_UPDATE_REQUEST = Some u' /\
    wf_universe no_emit u'.
Proof.
  destruct (update_universe_priority_ends no_emit sample_universe 1 PKG_PRIORITY_UPDATE_REQUEST
    sample_universe_wf ltac:(cbn; lia)) as (u' & H1 & H2 & _). exists u'. split; [exact H1|exact H2].
Defined.
