(* ===== verification/Upgrade.v ===== *)
(** * The decision to upgrade (pkg_jobs_need_upgrade of libpkg/pkg_jobs.c)

    Whether a package of a repository replaces an installed one: by digest and
    version first, then by what else the packages say about themselves, in
    which case the reason is recorded in the remote package.  [None] is the
    comparison of a NULL string, or a list that does not end. *)
From S2P Require Import Prelude CString UtHash Pkg Version.

Section upgrade.
(** libucl's text of an object. *)
Context (emit : ucl -> cstring).

(** The loops step through the two lists at once: they differ when one ends
    before the other, or a pair does. *)
Fixpoint lists_differ {V} (differ : V -> V -> bool) (r l : list V) : bool :=
  match r, l with
  | [], [] => false
  | x :: r, y :: l => differ x y || lists_differ differ r l
  | _, _ => true
  end.

Definition strs_differ (a b : cstring) : bool := negb (streq a b).

Definition options_differ (ro lo : pkg_option) : bool :=
  strs_differ (pkg_option_opt lo) (pkg_option_opt ro) || strs_differ (pkg_option_value lo) (pkg_option_value ro).

(** The loop over one kind of list of both packages. *)
Definition compare_lists {V} (iter : pkg -> option (list V)) (differ : V -> V -> bool) (rp lp : pkg)
  : option bool :=
  r ← iter rp; l ← iter lp; Some (lists_differ differ r l).

Definition compare_arch (rp lp : pkg) : option bool :=
  larch ← pkg_get_string emit lp PKG_ARCH;
  rarch ← pkg_get_string emit rp PKG_ARCH;
  Some (strs_differ larch rarch).

(** Whether the local package names another repository as its origin. *)
Definition other_repository (rp lp : pkg) : option bool :=
  match pkg_object_find (pkg_get_object emit lp PKG_ANNOTATIONS) (str "repository") with
  | None => Some false
  | Some an =>
      reponame ← pkg_get_string emit rp PKG_REPONAME;
      s ← ucl_object_tostring an;
      Some (strs_differ reponame s)
  end.

(** The comparisons in their order, with the reason each gives. *)
Definition comparisons : list ((pkg -> pkg -> option bool) * cstring) :=
  [ (compare_arch, str "ABI changed");
    (compare_lists pkg_options options_differ, str "options changed");
    (compare_lists pkg_deps (fun rd ld => strs_differ (dep_name rd) (dep_name ld)), str "direct dependency changed");
    (compare_lists pkg_conflicts (fun rc lc => strs_differ (c_uniqueid rc) (c_uniqueid lc)),
      str "direct conflict changed");
    (compare_lists pkg_provides strs_differ, str "provides changed");
    (compare_lists pkg_shlibs_required strs_differ, str "needed shared library changed") ].

(** The first that finds a difference sets the reason. *)
Fixpoint first_difference (l : list ((pkg -> pkg -> option bool) * cstring)) (rp lp : pkg)
  : option (bool * pkg) :=
  match l with
  | [] => Some (false, rp)
  | (differ, reason) :: l =>
      d ← differ rp lp;
      if d : bool then '(_, rp) ← pkg_set rp PKG_REASON (ArgString (Some reason)); Some (true, rp)
      else first_difference l rp lp
  end.

Definition same_digest (rp lp : pkg) : bool :=
  match pkg_get_string emit lp PKG_DIGEST, pkg_get_string emit rp PKG_DIGEST with
  | Some ldigest, Some rdigest => streq ldigest rdigest
  | _, _ => false
  end.

(** The answer, and [rp] with its reason. *)
Definition pkg_jobs_need_upgrade (rp : pkg) (lp : option pkg) : option (bool * pkg) :=
  match lp with
  | None => Some (true, rp)
  | Some lp =>
      if pkg_is_locked emit lp then Some (false, rp)
      else if same_digest rp lp then Some (false, rp)
      else
        ret ← pkg_version_cmp (pkg_get_string emit lp PKG_VERSION) (pkg_get_string emit rp PKG_VERSION);
        if 0 <? ret then Some (false, rp)
        else if ret <? 0 then Some (true, rp)
        else
          other ← other_repository rp lp;
          if other : bool then Some (false, rp) else first_difference comparisons rp lp
  end.

(** ** What is compared *)

(** What two builds of one version can differ in. *)
Record build := mk_build {
  b_arch : cstring; b_options : list (cstring * cstring); b_deps : list cstring;
  b_conflicts : list cstring; b_provides : list cstring; b_shlibs : list cstring }.

#[export] Instance build_eq_dec : EqDecision build.
Proof. solve_decision. Defined.

Definition build_of (p : pkg) : build :=
  mk_build (default [] (pkg_get_string emit p PKG_ARCH))
    (map (fun o => (pkg_option_opt o, pkg_option_value o)) (values (options p)))
    (map dep_name (values (deps p))) (map c_uniqueid (values (conflicts p)))
    (values (provides p)) (values (shlibs_required p)).

(** The reason for replacing a package of build [l] by one of build [r]. *)
Definition reason_for (r l : build) : cstring :=
  if decide (b_arch r <> b_arch l) then str "ABI changed"
  else if decide (b_options r <> b_options l) then str "options changed"
  else if decide (b_deps r <> b_deps l) then str "direct dependency changed"
  else if decide (b_conflicts r <> b_conflicts l) then str "direct conflict changed"
  else if decide (b_provides r <> b_provides l) then str "provides changed"
  else str "needed shared library changed".

(** Packages that have what is read of them. *)
Definition versioned (p : pkg) : Prop := is_Some (pkg_get_string emit p PKG_VERSION).

Definition comparable (rp lp : pkg) : Prop :=
  versioned rp /\ versioned lp /\
  is_Some (pkg_get_string emit rp PKG_ARCH) /\ is_Some (pkg_get_string emit lp PKG_ARCH) /\
  is_Some (other_repository rp lp).

Lemma strs_differ_spec a b : strs_differ a b = bool_decide (a <> b).
Proof. unfold strs_differ. rewrite streq_spec. repeat case_bool_decide; done. Qed.

Lemma lists_differ_spec {V W} `{EqDecision W} (f : V -> W) differ r l :
  (forall x y, differ x y = bool_decide (f x <> f y)) ->
  lists_differ differ r l = bool_decide (map f r <> map f l).
Proof.
  intros Hd. revert l. induction r as [|x r IH]; intros [|y l]; [done..|]. cbn [lists_differ map].
  rewrite Hd, IH. repeat case_bool_decide; cbn; try done; naive_solver congruence.
Qed.

Lemma compare_lists_spec {V W} `{EqDecision W} (t : pkg -> table V) (f : V -> W) differ rp lp :
  wf_table (t rp) -> wf_table (t lp) -> (forall x y, differ x y = bool_decide (f x <> f y)) ->
  compare_lists (fun p => hash_iter (t p)) differ rp lp = Some (bool_decide (map f (values (t rp)) <> map f (values (t lp)))).
Proof.
  intros Hr Hl Hd. unfold compare_lists. rewrite !hash_iter_wf by done. cbn.
  by rewrite (lists_differ_spec f).
Qed.

Definition with_reason (p : pkg) (s : cstring) : pkg := set_fields p (<[str "reason" := UString s]> (fields p)).

Lemma pkg_set_reason p s : pkg_set p PKG_REASON (ArgString (Some s)) = Some (EPKG_OK, with_reason p s).
Proof. reflexivity. Qed.

Lemma first_difference_spec rp lp : wf_pkg rp -> wf_pkg lp ->
  is_Some (pkg_get_string emit rp PKG_ARCH) -> is_Some (pkg_get_string emit lp PKG_ARCH) ->
  first_difference comparisons rp lp =
    Some (if decide (build_of rp = build_of lp) then (false, rp)
          else (true, with_reason rp (reason_for (build_of rp) (build_of lp)))).
Proof.
  intros Hr Hl [ra Hra] [la Hla]. unfold comparisons. cbn [first_difference].
  unfold compare_arch. rewrite Hra, Hla. cbn [mbind option_bind].
  unfold pkg_options, pkg_deps, pkg_conflicts, pkg_provides, pkg_shlibs_required.
  rewrite (compare_lists_spec options (fun o => (pkg_option_opt o, pkg_option_value o))),
    (compare_lists_spec deps dep_name), (compare_lists_spec conflicts c_uniqueid),
    (compare_lists_spec provides id), (compare_lists_spec shlibs_required id);
    try (by apply Hr) || (by apply Hl) || (intros; apply strs_differ_spec).
  2:{ intros x y. unfold options_differ. rewrite !strs_differ_spec. repeat case_bool_decide; naive_solver congruence. }
  cbn [mbind option_bind]. rewrite !pkg_set_reason, strs_differ_spec, !map_id. cbn [mbind option_bind].
  unfold reason_for, build_of. rewrite Hra, Hla. cbn [b_arch b_options b_deps b_conflicts b_provides b_shlibs default].
  repeat case_bool_decide; repeat case_decide; try congruence; naive_solver congruence.
Qed.

(** [lp] is of an older version, of the same one. *)
Definition version_order (lp rp : pkg) : option Z :=
  pkg_version_cmp (pkg_get_string emit lp PKG_VERSION) (pkg_get_string emit rp PKG_VERSION).

(** What it takes for [rp] to replace [lp]. *)
Definition replaces (rp lp : pkg) : Prop :=
  pkg_is_locked emit lp = false /\ same_digest rp lp = false /\
  (version_order lp rp = Some (-1) \/
   version_order lp rp = Some 0 /\ other_repository rp lp = Some false /\ build_of rp <> build_of lp).

(** A package with the digest of another does not replace it. *)
Lemma same_digest_stays rp lp d : pkg_get_string emit rp PKG_DIGEST = Some d -> pkg_get_string emit lp PKG_DIGEST = Some d -> ~ replaces rp lp.
Proof. intros Hr Hl (_ & Hsd & _). unfold same_digest in Hsd. rewrite Hr, Hl, streq_spec in Hsd. by rewrite bool_decide_eq_true_2 in Hsd. Qed.

Lemma version_order_some lp rp : versioned lp -> versioned rp ->
  exists r, sign_range r /\ version_order lp rp = Some r /\ version_order rp lp = Some (- r).
Proof.
  intros [v Hv] [w Hw]. unfold version_order. rewrite Hv, Hw, !pkg_version_cmp_vercmp.
  exists (vercmp v w). split; [apply vercmp_range|]. split; [done|]. f_equal. apply (cmp_antisym (cmp:=vercmp)).
Qed.

Lemma need_upgrade_some rp lp : wf_pkg rp -> wf_pkg lp -> comparable rp lp ->
  exists b rp', pkg_jobs_need_upgrade rp (Some lp) = Some (b, rp') /\ (b = true <-> replaces rp lp) /\
    rp' = (if b && bool_decide (version_order lp rp = Some 0)
           then with_reason rp (reason_for (build_of rp) (build_of lp)) else rp).
Proof.
  intros Hr Hl (Hvr & Hvl & Har & Hal & [other Ho]). unfold replaces, pkg_jobs_need_upgrade.
  fold (version_order lp rp). destruct (version_order_some lp rp Hvl Hvr) as (r & Hs & -> & _).
  assert (forall (b : bool) (P : Prop), (b = false -> ~ P) -> (b = true -> P) -> (b = true <-> P)) as Hiff
    by (intros [] P; naive_solver).
  destruct (pkg_is_locked emit lp); [eexists false, _; split_and!; [done|apply Hiff; intuition congruence|done]|].
  destruct (same_digest rp lp); [eexists false, _; split_and!; [done|apply Hiff; intuition congruence|done]|].
  cbn [mbind option_bind]. rewrite Ho, first_difference_spec by done. cbn [mbind option_bind].
  destruct Hs as [->|[->| ->]]; cbn [Z.ltb Z.compare].
  - eexists true, _. split_and!; [done|apply Hiff; intuition congruence|by rewrite bool_decide_eq_false_2].
  - destruct other; [eexists false, _; split_and!; [done|apply Hiff; intuition congruence|done]|].
    case_decide; eexists _, _; (split_and!; [done|apply Hiff; intuition congruence|]); [done|].
    by rewrite bool_decide_eq_true_2.
  - eexists false, _. split_and!; [done|apply Hiff; intuition congruence|done].
Qed.

(** C38: A package of a repository replaces an installed one exactly when the
    installed one is not locked, the digests differ, and it is of a newer
    version, or of the same version, from the same repository and built
    differently (architecture, options, direct dependencies, conflicts,
    provides or required libraries); then, and only for the same version, the
    reason of the first difference is recorded.  Hence a build that was
    installed is not installed again, an installed package is never replaced
    by an older one, and two packages of different versions never replace
    each other in turn. *)
Theorem need_upgrade_spec (rp lp : pkg) (Hr : wf_pkg rp) (Hl : wf_pkg lp) (Hc : comparable rp lp) :
  exists b rp', pkg_jobs_need_upgrade rp (Some lp) = Some (b, rp') /\
    (b = true <-> replaces rp lp) /\
    (rp' = if b && bool_decide (version_order lp rp = Some 0)
           then with_reason rp (reason_for (build_of rp) (build_of lp)) else rp) /\
    (version_order lp rp = Some 0 -> build_of rp = build_of lp -> b = false) /\
    (b = true -> version_order lp rp <> Some 1) /\
    (b = true -> version_order lp rp <> Some 0 -> forall lp', pkg_jobs_need_upgrade lp (Some rp') <> Some (true, lp')).
Proof.
  destruct (need_upgrade_some rp lp Hr Hl Hc) as (b & rp' & Hn & Hb & Hp).
  exists b, rp'. split_and!; [done..|intros Hv He|intros ->|intros -> Hv].
  - apply not_true_iff_false. intros (_ & _ & [?|(? & ? & ?)])%Hb; congruence.
  - destruct (proj1 Hb eq_refl) as (_ & _ & [H|(H & _)]); congruence.
  - rewrite bool_decide_eq_false_2 in Hp by done. cbn in Hp. subst rp'. intros lp'. unfold pkg_jobs_need_upgrade.
    destruct (pkg_is_locked emit rp); [done|]. destruct (same_digest lp rp); [done|]. fold (version_order rp lp).
    destruct (proj1 Hb eq_refl) as (_ & _ & [H|(H & _)]); [|done].
    destruct (version_order_some lp rp) as (r & _ & Hr1 & ->); [apply Hc..|]. by replace r with (-1) by congruence.
Qed.
End upgrade.

(** ** Examples *)

Definition upgrade_text (o : ucl) : cstring := [].

Definition package (t : pkg_t) (version arch : string) : pkg :=
  set_fields (pkg_new t) (<[str "version" := UString (str version)]> (<[str "arch" := UString (str arch)]> ∅)).

Lemma wf_package t version arch : wf_pkg (package t version arch).
Proof.
  refine (wf_vset false (pkg_new t) [(PKG_ARCH, ArgString (Some (str arch))); (PKG_VERSION, ArgString (Some (str version)))]
    EPKG_OK _ (wf_pkg_new t) _). reflexivity.
Qed.

Lemma need_upgrade_spec_witness :
  exists rp', pkg_jobs_need_upgrade upgrade_text (package PKG_REMOTE "1.0_1" "freebsd:11:*")
      (Some (package PKG_INSTALLED "1.0_1" "freebsd:10:*")) = Some (true, rp') /\
    pkg_get_string upgrade_text rp' PKG_REASON = Some (str "ABI changed").
Proof.
  destruct (need_upgrade_spec upgrade_text (package PKG_REMOTE "1.0_1" "freebsd:11:*")
    (package PKG_INSTALLED "1.0_1" "freebsd:10:*") (wf_package _ _ _) (wf_package _ _ _)) as (b & rp' & Hn & Hb & Hp & _).
  - repeat split; eexists; vm_compute; reflexivity.
  - assert (b = true) as ->.
    + apply Hb. split; [vm_compute; reflexivity|]. split; [vm_compute; reflexivity|].
      right. split; [vm_compute; reflexivity|]. split; [vm_compute; reflexivity|].
      intros H. apply (f_equal b_arch) in H. vm_compute in H. discriminate H.
    + exists rp'. split; [exact Hn|]. rewrite Hp. vm_compute. reflexivity.
Defined.
