(* ===== verification/UniverseBuild.v ===== *)
(** * Completing the universe (libpkg/pkg_jobs_universe.c)

    A package that enters the universe brings its dependencies, reverse
    dependencies, conflicts and the providers of its libraries with it, from
    the installed packages and from the repositories.  The databases are the
    operations of the class [pkgdb]: what a query yields, row by row.

    [None] is undefined behaviour or a failed assertion, or that the fuel ran
    out.  Packages are passed by value until they are added; afterwards the
    item of the universe holds them. *)
From S2P Require Import Prelude CString UtHash Pkg Checksum Version Universe Upgrade.

(** ** Flags *)

Definition DEPS_FLAG_REVERSE : Z := 2 ^ 1.
Definition DEPS_FLAG_MIRROR : Z := 2 ^ 2.
Definition DEPS_FLAG_FORCE_LOCAL : Z := 2 ^ 3.
Definition DEPS_FLAG_FORCE_MISSING : Z := 2 ^ 4.
Definition DEPS_FLAG_FORCE_UPGRADE : Z := 2 ^ 5.

(** A disjunction of flags. *)
Definition flags_or (l : list Z) : Z := fold_right Z.lor 0 l.

(** ** The databases *)

(** The rows of a query, of a pattern that may be NULL, with what the load flags
    ask for, [None] when the query fails; the repositories are those of the job's reponame.  The last
    operation completes a package that was read with fewer flags. *)
Class pkgdb := mk_pkgdb {
  pkgdb_query : option cstring -> match_t -> Z -> option (list pkg);
  pkgdb_repo_query : option cstring -> match_t -> Z -> option (list pkg);
  pkgdb_repo_shlib_provide : cstring -> Z -> option (list pkg);
  pkgdb_ensure_loaded : pkg -> Z -> pkg }.

Section build.
Context (emit : ucl -> cstring) (sha256 : cstring -> list Z)
  (repo_digest_format : cstring -> option pkg_checksum_type_t) `{db : pkgdb}.

(** ** Look-up of one package *)

(** A write through the [pkg] pointer of an item. *)
Definition set_item_pkg (u : universe) (i : nat) (p : pkg) : universe :=
  mk_univ (alter (fun it => mk_ui p (ui_jp it) (ui_priority it)) i (u_store u)) (u_items u) (u_seen u)
    (u_provides u) (uid_replaces u) (nitems u).

(** The head of the chain of a unique id. *)
Definition head_item (u : universe) (uid : cstring) : option nat := pkg_jobs_universe_find u uid ≫= head.

(** The head, when it is installed ([local]) or not, as an item with its package. *)
Definition known_item (u : universe) (uid : cstring) (local : bool) : option (nat * pkg) :=
  i ← head_item u uid; p ← pkg_of u i; if Bool.eqb (is_local p) local then Some (i, p) else None.

(** An item that is known already is completed in place. *)
Definition load_item (j : pkg_jobs) (i : nat) (p : pkg) (flag : Z) : pkg_jobs * option pkg :=
  let p := pkgdb_ensure_loaded p flag in
  (set_universe j (set_item_pkg (j_universe j) i p), Some p).

Definition local_flags (j : pkg_jobs) (flag : Z) : Z :=
  if negb (flag =? 0) then flag
  else if negb (IS_DELETE j) then
    flags_or [PKG_LOAD_BASIC; PKG_LOAD_DEPS; PKG_LOAD_RDEPS; PKG_LOAD_OPTIONS; PKG_LOAD_SHLIBS_REQUIRED;
      PKG_LOAD_ANNOTATIONS; PKG_LOAD_CONFLICTS]
  else flags_or [PKG_LOAD_BASIC; PKG_LOAD_RDEPS; PKG_LOAD_DEPS; PKG_LOAD_ANNOTATIONS].

Definition pkg_jobs_universe_get_local (j : pkg_jobs) (uid : cstring) (flag : Z) : pkg_jobs * option pkg :=
  let flag := local_flags j flag in
  match known_item (j_universe j) uid true with
  | Some (i, p) => load_item j i p flag
  | None => (j, pkgdb_query (Some uid) MATCH_EXACT flag ≫= head)
  end.

Definition remote_flags (flag : Z) : Z :=
  if negb (flag =? 0) then flag
  else flags_or [PKG_LOAD_BASIC; PKG_LOAD_DEPS; PKG_LOAD_OPTIONS; PKG_LOAD_SHLIBS_REQUIRED;
    PKG_LOAD_SHLIBS_PROVIDED; PKG_LOAD_ANNOTATIONS; PKG_LOAD_CONFLICTS].

(** A later row is selected when it is an upgrade of the one before. *)
Definition select_row (selected : option pkg) (p : pkg) : option (option pkg) :=
  match selected with
  | None => Some (Some p)
  | Some s =>
      change ← pkg_version_change_between (pkg_version emit p) (Some (pkg_version emit s));
      Some (match change with PKG_UPGRADE => Some p | _ => selected end)
  end.

Definition pkg_jobs_universe_get_remote (j : pkg_jobs) (uid : cstring) (flag : Z)
  : option (pkg_jobs * option pkg) :=
  let flag := remote_flags flag in
  match known_item (j_universe j) uid false with
  | Some (i, p) => Some (load_item j i p flag)
  | None =>
      match pkgdb_repo_query (Some uid) MATCH_EXACT flag with
      | None => Some (j, None)
      | Some rows => selected ← fold_opt select_row rows None; Some (j, selected)
      end
  end.

(** ** The loops *)

(** A loop whose body may return from the function with an error. *)
Fixpoint each {A} (f : pkg_jobs -> A -> option (pkg_error_t * pkg_jobs)) (l : list A) (j : pkg_jobs)
  : option (pkg_error_t * pkg_jobs) :=
  match l with
  | [] => Some (EPKG_OK, j)
  | x :: l =>
      '(rc, j) ← f j x;
      match rc with EPKG_OK => each f l j | _ => Some (rc, j) end
  end.

(** The digest a package has once it was given to the universe. *)
Definition ensure_digest (p : pkg) : option pkg :=
  match pkg_digest emit p with
  | Some _ => Some p
  | None => '(_, p, _) ← pkg_checksum_calculate sha256 emit repo_digest_format p true; Some p
  end.

Definition copy_automatic (from to : pkg) : option pkg :=
  '(_, p) ← pkg_set to PKG_AUTOMATIC (ArgBool (pkg_get_bool emit from PKG_AUTOMATIC)); Some p.

(** pkg_jobs_universe_process_item; the last component is [*result], which is
    asked for by the last argument. *)
Context (rec : pkg_jobs -> pkg -> bool -> option (pkg_error_t * pkg_jobs * option nat)).

(** The remote candidate for a dependency. *)
Definition remote_dep (flags : Z) (j : pkg_jobs) (uid : cstring) (npkg : option pkg)
  : option (pkg_jobs * option pkg) :=
  if flag_set flags DEPS_FLAG_FORCE_LOCAL then Some (j, None)
  else
    '(j, rpkg) ← pkg_jobs_universe_get_remote j uid 0;
    match rpkg with
    | Some rp =>
        if flag_set flags DEPS_FLAG_FORCE_UPGRADE then Some (j, Some rp)
        else '(needed, rp) ← pkg_jobs_need_upgrade emit rp npkg;
             Some (j, if needed : bool then Some rp else None)
    | None => Some (j, None)
    end.

Definition process_dep (flags : Z) (j : pkg_jobs) (d : pkg_dep) : option (pkg_error_t * pkg_jobs) :=
  match pkg_jobs_universe_find (j_universe j) (dep_uid d) with
  | Some _ => Some (EPKG_OK, j)
  | None =>
      let '(j, npkg) := if flag_set flags DEPS_FLAG_MIRROR then (j, None)
                        else pkg_jobs_universe_get_local j (dep_uid d) 0 in
      '(j, rpkg) ← remote_dep flags j (dep_uid d) npkg;
      match npkg, rpkg with
      | None, None => Some (if flag_set flags DEPS_FLAG_FORCE_MISSING then EPKG_OK else EPKG_FATAL, j)
      | _, _ =>
          '(rc, j, unit) ← match npkg with Some np => rec j np true | None => Some (EPKG_OK, j, None) end;
          match rc with
          | EPKG_OK =>
              j ← match unit with
                  | Some un => if flag_set flags DEPS_FLAG_MIRROR then pkg_jobs_add_req j un else Some j
                  | None => Some j
                  end;
              match rpkg with
              | None => Some (EPKG_OK, j)
              | Some rp =>
                  rp ← match npkg with Some np => copy_automatic np rp | None => Some rp end;
                  '(_, j, _) ← rec j rp false;
                  Some (EPKG_OK, j)
              end
          | _ => Some (EPKG_OK, j)
          end
      end
  end.

(** [item] is the one that holds the package. *)
Definition pkg_jobs_universe_process_deps (j : pkg_jobs) (item : nat) (flags : Z)
  : option (pkg_error_t * pkg_jobs) :=
  p ← pkg_of (j_universe j) item;
  ds ← (if flag_set flags DEPS_FLAG_REVERSE then pkg_rdeps p else pkg_deps p);
  each (process_dep flags) ds j.

Definition process_conflict (local : bool) (j : pkg_jobs) (c : pkg_conflict) : option (pkg_error_t * pkg_jobs) :=
  match pkg_jobs_universe_find (j_universe j) (c_uniqueid c) with
  | Some _ => Some (EPKG_OK, j)
  | None =>
      let add_remote j :=
        '(j, npkg) ← pkg_jobs_universe_get_remote j (c_uniqueid c) 0;
        match npkg with
        | None => Some (EPKG_OK, j)
        | Some np => '(_, j, _) ← rec j np false; Some (EPKG_OK, j)
        end in
      if local then add_remote j
      else
        let '(j, npkg) := pkg_jobs_universe_get_local j (c_uniqueid c) 0 in
        match npkg with
        | None => Some (EPKG_OK, j)
        | Some np =>
            '(rc, j, _) ← rec j np false;
            match rc with
            | EPKG_OK =>
                if bool_decide (c_type c = PKG_CONFLICT_REMOTE_LOCAL) then Some (EPKG_OK, j) else add_remote j
            | _ => Some (EPKG_OK, j)
            end
        end
  end.

Definition pkg_jobs_universe_process_conflicts (j : pkg_jobs) (item : nat) : option (pkg_error_t * pkg_jobs) :=
  p ← pkg_of (j_universe j) item;
  cs ← pkg_conflicts p;
  each (process_conflict (is_local p)) cs j.

(** *** Shared libraries *)

(** Where the loop over the rows is: the job; whether the package of the last
    row, still in [rpkg], was added to the universe: the next row would be
    read into it; and the element of [provides] made for the library. *)
Record shlib_state := mk_shlib { sh_jobs : pkg_jobs; sh_held : bool; sh_head : option nat }.

(** What one row leads to. *)
Inductive row_result :=
  | RowUnit (j : pkg_jobs) (unit : option nat) (held : bool)
  | RowSkip (j : pkg_jobs) (held : bool)
  | RowFatal (j : pkg_jobs).

(** The call that may add [rp]; on success the caller may give the pointer up
    ([drop]), on failure it keeps it. *)
Definition add_row (j : pkg_jobs) (rp : pkg) (drop : bool) : option row_result :=
  let next := length (u_store (j_universe j)) in
  '(rc, j, unit) ← rec j rp true;
  let added := bool_decide (unit = Some next) in
  Some (match rc with
        | EPKG_OK => RowUnit j unit (added && negb drop)
        | _ => RowSkip j added
        end).

(** The unit is in the universe already, or its installed package is added. *)
Definition local_row (j : pkg_jobs) (rp : pkg) (uid : cstring) : option row_result :=
  match head_item (j_universe j) uid with
  | Some un =>
      p ← pkg_of (j_universe j) un;
      '(needed, rp) ← pkg_jobs_need_upgrade emit rp (Some p);
      if needed : bool then add_row j rp true else Some (RowUnit j (Some un) false)
  | None =>
      let '(j, npkg) := pkg_jobs_universe_get_local j uid 0 in
      match npkg with
      | None => Some (RowUnit j None false)
      | Some np =>
          '(rc, j, unit) ← rec j np true;
          match rc with
          | EPKG_OK =>
              np ← ensure_digest np;
              '(needed, rp) ← pkg_jobs_need_upgrade emit rp (Some np);
              if needed : bool then add_row j rp false else Some (RowUnit j unit false)
          | _ => Some (RowFatal j)
          end
      end
  end.

(** A package that is new altogether.  (The digest that is computed when [rp]
    has none is that of [pkg], the package of [item].) *)
Definition new_row (j : pkg_jobs) (item : nat) (rp : pkg) (digest : option cstring) : option row_result :=
  r ← match digest with
      | Some digest => Some (Some (j, digest))
      | None =>
          p ← pkg_of (j_universe j) item;
          '(rc, p, _) ← pkg_checksum_calculate sha256 emit repo_digest_format p true;
          let j := set_universe j (set_item_pkg (j_universe j) item p) in
          match rc with
          | EPKG_OK => digest ← pkg_digest emit p; Some (Some (j, digest))
          | _ => Some None
          end
      end;
  match r with
  | None => Some (RowFatal j)
  | Some (j, digest) =>
      match pkg_jobs_universe_seen (j_universe j) digest with
      | None => '(_, j, unit) ← rec j rp true; Some (RowUnit j unit false)
      | Some un => Some (RowUnit j (Some un) false)
      end
  end.

(** The provider is appended to those of the library; a NULL one would be
    followed by the solver. *)
Definition add_provide (u : universe) (shlib : cstring) (un : nat) (prhead : option nat) : universe * nat :=
  match prhead with
  | None =>
      (mk_univ (u_store u) (u_items u) (u_seen u) (hash_add (u_provides u) shlib [un]) (uid_replaces u) (nitems u),
       length (entries (u_provides u)))
  | Some i =>
      (mk_univ (u_store u) (u_items u) (u_seen u)
         (hash_update (u_provides u) i (default [] (hash_get (u_provides u) i) ++ [un])) (uid_replaces u) (nitems u), i)
  end.

Definition process_row (item : nat) (shlib : cstring) (st : shlib_state) (rp : pkg)
  : option (pkg_error_t * shlib_state) :=
  if sh_held st then None
  else
    uid ← pkg_uid emit rp;
    r ← local_row (sh_jobs st) rp uid;
    r ← match r with
        | RowUnit j None _ => new_row j item rp (pkg_digest emit rp)
        | r => Some r
        end;
    match r with
    | RowFatal j => Some (EPKG_FATAL, mk_shlib j false (sh_head st))
    | RowSkip j held => Some (EPKG_OK, mk_shlib j held (sh_head st))
    | RowUnit j unit held =>
        un ← unit;
        let '(u, prhead) := add_provide (j_universe j) shlib un (sh_head st) in
        Some (EPKG_OK, mk_shlib (set_universe j u) held (Some prhead))
    end.

Fixpoint process_rows (item : nat) (shlib : cstring) (rows : list pkg) (st : shlib_state)
  : option (pkg_error_t * pkg_jobs) :=
  match rows with
  | [] => Some (EPKG_OK, sh_jobs st)
  | rp :: rows =>
      '(rc, st) ← process_row item shlib st rp;
      match rc with EPKG_OK => process_rows item shlib rows st | _ => Some (rc, sh_jobs st) end
  end.

Definition shlib_flags : Z :=
  flags_or [PKG_LOAD_BASIC; PKG_LOAD_OPTIONS; PKG_LOAD_DEPS; PKG_LOAD_SHLIBS_REQUIRED;
    PKG_LOAD_SHLIBS_PROVIDED; PKG_LOAD_ANNOTATIONS; PKG_LOAD_CONFLICTS].

Definition process_shlib (item : nat) (j : pkg_jobs) (shlib : cstring) : option (pkg_error_t * pkg_jobs) :=
  match hash_find (u_provides (j_universe j)) shlib with
  | Some _ => Some (EPKG_OK, j)
  | None =>
      match pkgdb_repo_shlib_provide shlib shlib_flags with
      | None => Some (EPKG_OK, j)
      | Some rows => process_rows item shlib rows (mk_shlib j false None)
      end
  end.

Definition pkg_jobs_universe_process_shlibs (j : pkg_jobs) (item : nat) : option (pkg_error_t * pkg_jobs) :=
  p ← pkg_of (j_universe j) item;
  libs ← pkg_shlibs_required p;
  each (process_shlib item) libs j.

(** ** A package with what it brings *)

(** The part after the insertion. *)
Definition process_new (j : pkg_jobs) (item : nat) : option (pkg_error_t * pkg_jobs) :=
  let flags := if flag_set (j_flags j) PKG_FLAG_FORCE_MISSING then DEPS_FLAG_FORCE_MISSING else 0 in
  match j_type j with
  | PKG_JOBS_FETCH =>
      if flag_set (j_flags j) PKG_FLAG_RECURSIVE
      then pkg_jobs_universe_process_deps j item (Z.lor flags DEPS_FLAG_MIRROR)
      else Some (EPKG_OK, j)
  | PKG_JOBS_INSTALL | PKG_JOBS_UPGRADE =>
      '(rc, j) ← pkg_jobs_universe_process_deps j item flags;
      match rc with
      | EPKG_OK =>
          '(rc, j) ← pkg_jobs_universe_process_deps j item (Z.lor flags DEPS_FLAG_REVERSE);
          match rc with
          | EPKG_OK =>
              '(rc, j) ← pkg_jobs_universe_process_conflicts j item;
              match rc with
              | EPKG_OK =>
                  p ← pkg_of (j_universe j) item;
                  if is_local p then Some (EPKG_OK, j) else pkg_jobs_universe_process_shlibs j item
              | _ => Some (rc, j)
              end
          | _ => Some (rc, j)
          end
      | _ => Some (rc, j)
      end
  | PKG_JOBS_AUTOREMOVE => Some (EPKG_OK, j)
  | PKG_JOBS_DEINSTALL =>
      if flag_set (j_flags j) PKG_FLAG_RECURSIVE
      then pkg_jobs_universe_process_deps j item (Z.lor flags (Z.lor DEPS_FLAG_REVERSE DEPS_FLAG_FORCE_LOCAL))
      else Some (EPKG_OK, j)
  end.
End build.

Section process.
Context (emit : ucl -> cstring) (sha256 : cstring -> list Z)
  (repo_digest_format : cstring -> option pkg_checksum_type_t) `{db : pkgdb}.

(** Without [result] the failure of the insertion writes through NULL. *)
Fixpoint process_item (fuel : nat) (j : pkg_jobs) (p : pkg) (result : bool)
  : option (pkg_error_t * pkg_jobs * option nat) :=
  match fuel with
  | O => None
  | S fuel =>
      '(rc, u, found) ← pkg_jobs_universe_add_pkg emit sha256 repo_digest_format true (j_universe j) p false;
      let j := set_universe j u in
      match rc with
      | EPKG_END => Some (EPKG_OK, j, found)
      | EPKG_OK =>
          item ← found;
          '(rc, j) ← process_new emit sha256 repo_digest_format (process_item fuel) j item;
          Some (rc, j, found)
      | _ => if result then Some (rc, j, None) else None
      end
  end.

(** pkg_jobs_universe_process *)
Definition pkg_jobs_universe_process (fuel : nat) (j : pkg_jobs) (p : pkg) : option (pkg_error_t * pkg_jobs) :=
  '(rc, j, _) ← process_item fuel j p false; Some (rc, j).
End process.

(** ** What is asked of the databases *)

(** The unique id of each digest, and the digest of each installed package. *)
Record catalogue := mk_catalogue {
  ca_uid : gmap cstring cstring; ca_installed : gmap cstring cstring }.

Section laws.
Context (emit : ucl -> cstring) (C : catalogue).

Abbreviation uid_of := (pkg_uid emit).
Abbreviation digest_of := (pkg_digest emit).

(** A package with everything that is read of it, in the catalogue. *)
Record known (p : pkg) : Prop := mk_known {
  kn_wf : wf_pkg p;
  kn_ids : exists uid d, uid_of p = Some uid /\ digest_of p = Some d /\ ca_uid C !! d = Some uid /\
    (is_local p = true -> ca_installed C !! uid = Some d);
  kn_version : is_Some (pkg_version emit p);
  kn_arch : is_Some (pkg_get_string emit p PKG_ARCH);
  kn_repository : forall an, pkg_object_find (pkg_get_object emit p PKG_ANNOTATIONS) (str "repository") = Some an ->
    is_Some (ucl_object_tostring an);
  kn_reponame : is_local p = false -> is_Some (pkg_get_string emit p PKG_REPONAME) }.

(** The databases know no other version of the package. *)
Definition only_version (p : pkg) : Prop :=
  exists uid d, uid_of p = Some uid /\ digest_of p = Some d /\ forall d', ca_uid C !! d' = Some uid -> d' = d.

(** A query by unique id yields packages with that id, and a remote package that
    was read for the solver is complete.  A query for a library yields any number
    of packages; before the last there is none that could be an upgrade (the row
    after it may be read into a package of the universe: see
    [second_provider_overwrites]). *)
Record pkgdb_laws `{db : pkgdb} : Prop := mk_pkgdb_laws {
  dl_query : forall uid flag rows p, pkgdb_query (Some uid) MATCH_EXACT flag = Some rows -> p ∈ rows ->
    known p /\ uid_of p = Some uid /\ is_local p = true;
  dl_repo_query : forall uid flag rows p, pkgdb_repo_query (Some uid) MATCH_EXACT flag = Some rows -> p ∈ rows ->
    known p /\ uid_of p = Some uid /\ is_local p = false;
  dl_shlib : forall shlib flag rows, pkgdb_repo_shlib_provide shlib flag = Some rows ->
    Forall (fun p => known p /\ is_local p = false) rows /\ Forall only_version (removelast rows);
  dl_loaded : forall p, known p -> is_local p = false -> pkgdb_ensure_loaded p (remote_flags 0) = p }.

Lemma pkg_vget_insert_ne p k v attr name ty : pkg_keys !! attr = Some (name, ty) -> k <> name ->
  pkg_vget emit (set_fields p (<[k := v]> (fields p))) [attr] = pkg_vget emit p [attr].
Proof.
  intros Hn Hne. cbn [pkg_vget]. by rewrite (vget_set_fields_ne emit p _ attr name ty Hn)
    by (by rewrite lookup_insert_ne).
Qed.

(** Setting an attribute that is not read keeps a package known. *)
Lemma known_set p k v : known p -> k ∉ map str ["uniqueid"; "digest"; "version"; "arch"; "annotations"; "reponame"] ->
  known (set_fields p (<[k := v]> (fields p))).
Proof.
  intros [Hw Hi Hv Ha Hr Hn] Hk. cbn [map] in Hk. repeat setoid_rewrite not_elem_of_cons in Hk.
  destruct Hk as (H1 & H2 & H3 & H4 & H5 & H6 & _).
  pose proof (fun attr name ty => pkg_vget_insert_ne p k v attr name ty) as Hf.
  split; unfold pkg_uid, pkg_digest, pkg_version, pkg_get_string, pkg_get_object in *.
  - by destruct Hw; split.
  - by rewrite (Hf PKG_UNIQUEID _ _ eq_refl H1), (Hf PKG_DIGEST _ _ eq_refl H2).
  - by rewrite (Hf PKG_VERSION _ _ eq_refl H3).
  - by rewrite (Hf PKG_ARCH _ _ eq_refl H4).
  - by rewrite (Hf PKG_ANNOTATIONS _ _ eq_refl H5).
  - by rewrite (Hf PKG_REPONAME _ _ eq_refl H6).
Qed.

Lemma known_wf_comparable rp lp : known rp -> known lp -> is_local rp = false -> comparable emit rp lp.
Proof.
  intros Hr Hl Hrem. repeat split; try apply Hr; try apply Hl.
  unfold other_repository. destruct (pkg_object_find _ _) as [an|] eqn:E; [|done].
  destruct (kn_reponame _ Hr Hrem) as [rn ->]. destruct (kn_repository _ Hl _ E) as [s Hs]. cbn. rewrite Hs. done.
Qed.

(** The decision on two known packages, the remote one staying known. *)
Lemma known_need_upgrade rp lp : known rp -> is_local rp = false -> from_option known True lp ->
  exists needed rp', pkg_jobs_need_upgrade emit rp lp = Some (needed, rp') /\ known rp' /\ is_local rp' = false /\
    uid_of rp' = uid_of rp /\ digest_of rp' = digest_of rp /\ deps rp' = deps rp /\ rdeps rp' = rdeps rp /\
    (lp = None -> needed = true).
Proof.
  intros Hr Hrem Hl. destruct lp as [lp|]; [|by exists true, rp].
  destruct (need_upgrade_some emit rp lp) as (b & rp' & -> & _ & ->);
    [apply Hr|apply Hl|by apply known_wf_comparable|].
  exists b. destruct (b && _); eexists; (split; [reflexivity|]); [|done].
  split_and!; try done; [|unfold pkg_uid, pkg_digest, pkg_get_string..].
  - apply known_set; [done|].
    apply (bool_decide_unpack _). vm_compute. exact I.
  - unfold with_reason. by rewrite (pkg_vget_insert_ne _ _ _ PKG_UNIQUEID _ _ eq_refl).
  - unfold with_reason. by rewrite (pkg_vget_insert_ne _ _ _ PKG_DIGEST _ _ eq_refl).
Qed.

(** A package with the digest of another does not replace it. *)
Lemma only_version_stays rp q : known rp -> known q -> is_local rp = false -> uid_of q = uid_of rp -> only_version rp ->
  pkg_jobs_need_upgrade emit rp (Some q) = Some (false, rp).
Proof.
  intros Hr Hq Hrem Hu (uid & d & Hru & Hrd & Hsole).
  destruct (need_upgrade_some emit rp q) as (b & rp' & -> & Hb & Hrp'); [apply Hr|apply Hq|by apply known_wf_comparable|].
  assert (b = false) as ->; [|by rewrite Hrp'].
  apply not_true_iff_false. intros Hrep%Hb. destruct (kn_ids _ Hq) as (u1 & d1 & Hu1 & Hd1 & Hc1 & _).
  assert (u1 = uid) as -> by congruence. apply Hsole in Hc1 as ->.
  exact (same_digest_stays emit rp q d Hrd Hd1 Hrep).
Qed.

End laws.

(** What is known stays known in a larger catalogue. *)
Lemma known_sub emit C C' p : ca_uid C ⊆ ca_uid C' -> ca_installed C ⊆ ca_installed C' -> known emit C p -> known emit C' p.
Proof.
  intros H1 H2 [Hw (uid & d & Hu & Hd & Hc & Hi) Hv Ha Hr Hn]. split; [done| |done..].
  exists uid, d. split_and!; [done|done|by eapply lookup_weaken|]. intros Hl. eapply lookup_weaken; [by apply Hi|done].
Qed.

(** ** What a package brings *)

Section correct.
Context (emit : ucl -> cstring) (sha256 : cstring -> list Z)
  (repo_digest_format : cstring -> option pkg_checksum_type_t) `{db : pkgdb}
  (C : catalogue) (Hdb : pkgdb_laws emit C).

Abbreviation uid_of := (pkg_uid emit).
Abbreviation digest_of := (pkg_digest emit).

(** A universe of known packages, every digest seen, no installed package
    twice, every provider in it. *)
Record sound (u : universe) : Prop := mk_sound {
  sd_wf : wf_universe emit u;
  sd_known : forall i p, pkg_of u i = Some p -> known emit C p;
  sd_seen : forall i p d, pkg_of u i = Some p -> digest_of p = Some d -> is_Some (hash_lookup (u_seen u) d);
  sd_local : forall i k p q, pkg_of u i = Some p -> pkg_of u k = Some q -> is_local p = true -> is_local q = true ->
    digest_of p = digest_of q -> i = k;
  sd_provides : wf_table (u_provides u);
  sd_providers : forall prs pr, prs ∈ values (u_provides u) -> pr ∈ prs -> is_Some (pkg_of u pr) }.

(** Such a universe is what the solver asks for. *)
Lemma sound_solvable u : sound u -> solvable emit u /\ provides_ok u.
Proof.
  intros [Hw Hk Hs Hl Hp Hpr]. split; [split; [done| |]|].
  - intros i p Hi. apply (Hk i p Hi).
  - intros uid chain i k p q Hf Hi Hki Hpi Hqk Hlp Hlq.
    destruct (chain_member emit u uid chain i Hw Hf Hi) as (p' & Hp' & Hup).
    destruct (chain_member emit u uid chain k Hw Hf Hki) as (q' & Hq' & Huq).
    assert (p' = p) as -> by congruence. assert (q' = q) as -> by congruence.
    apply (Hl i k p q Hpi Hqk Hlp Hlq).
    destruct (kn_ids _ _ _ (Hk _ _ Hpi)) as (u1 & d1 & Hu1 & Hd1 & _ & Hc1).
    destruct (kn_ids _ _ _ (Hk _ _ Hqk)) as (u2 & d2 & Hu2 & Hd2 & _ & Hc2).
    specialize (Hc1 Hlp). specialize (Hc2 Hlq). congruence.
  - intros s prs pr Hf Hin. apply (Hpr prs); [|done].
    unfold hash_lookup in Hf. destruct (hash_find (u_provides u) s) as [i|]; [|done]. cbn in Hf.
    rewrite hash_get_values in Hf. by eapply list_elem_of_lookup_2.
Qed.

Definition in_universe (u : universe) (uid : cstring) : Prop := is_Some (pkg_jobs_universe_find u uid).

(** A package is neither installed nor in a repository. *)
Definition missing (j : pkg_jobs) (uid : cstring) : Prop :=
  (pkgdb_query (Some uid) MATCH_EXACT (local_flags j 0) ≫= head) = None /\
  from_option (fun rows => rows = []) True (pkgdb_repo_query (Some uid) MATCH_EXACT (remote_flags 0)).

(** All dependencies of a package are in the universe, or one is missing. *)
Definition settled (j : pkg_jobs) (p : pkg) : Prop :=
  (forall d, d ∈ values (deps p) -> in_universe (j_universe j) (dep_uid d)) \/
  exists d, d ∈ values (deps p) /\ missing j (dep_uid d).

(** The universe only grows; the rest of the job stays. *)
Record grows (j j' : pkg_jobs) : Prop := mk_grows {
  gr_items : forall i p, pkg_of (j_universe j) i = Some p -> pkg_of (j_universe j') i = Some p;
  gr_length : (length (u_store (j_universe j)) <= length (u_store (j_universe j')))%nat;
  gr_seen : forall d i, hash_lookup (u_seen (j_universe j)) d = Some i -> hash_lookup (u_seen (j_universe j')) d = Some i;
  gr_found : forall uid, in_universe (j_universe j) uid -> in_universe (j_universe j') uid;
  gr_job : set_universe j (j_universe j') = j' }.

Lemma grows_refl j : grows j j.
Proof. by destruct j; split. Qed.

Lemma grows_trans j1 j2 j3 : grows j1 j2 -> grows j2 j3 -> grows j1 j3.
Proof. intros [H1 H2 H3 H4 H5] [G1 G2 G3 G4 G5]. split; auto; [lia|]. by rewrite <- G5, <- H5. Qed.

Lemma grows_job j j' : grows j j' -> j_type j' = j_type j /\ j_flags j' = j_flags j /\
  request_add j' = request_add j /\ request_delete j' = request_delete j.
Proof. intros [_ _ _ _ H]. by rewrite <- H. Qed.

Lemma missing_grows j j' uid : grows j j' -> missing j uid <-> missing j' uid.
Proof.
  intros Hg. destruct (grows_job j j' Hg) as (Ht & _). unfold missing, local_flags, IS_DELETE. by rewrite Ht.
Qed.

Lemma settled_grows j j' p : grows j j' -> settled j p -> settled j' p.
Proof.
  intros Hg [H|(d & Hd & Hm)]; [left|right].
  - intros d Hd. apply (gr_found _ _ Hg). by apply H.
  - exists d. split; [done|]. by apply (missing_grows j j').
Qed.

(** What is new in [j'] is settled. *)
Definition installs (j : pkg_jobs) : Prop := j_type j = PKG_JOBS_INSTALL \/ j_type j = PKG_JOBS_UPGRADE.

Record step (j j' : pkg_jobs) : Prop := mk_step {
  st_grows : grows j j';
  st_sound : sound (j_universe j');
  st_settled : installs j -> forall i p, (length (u_store (j_universe j)) <= i)%nat ->
    pkg_of (j_universe j') i = Some p -> settled j' p }.

Lemma step_refl j : sound (j_universe j) -> step j j.
Proof.
  intros Hs. split; [apply grows_refl|done|]. intros _ i p Hi Hp. pose proof (pkg_of_lt _ _ _ Hp). lia.
Qed.

Lemma step_trans j1 j2 j3 : step j1 j2 -> step j2 j3 -> step j1 j3.
Proof.
  intros [G1 S1 F1] [G2 S2 F2]. split; [by eapply grows_trans|done|]. intros Hi i p Hle Hp.
  destruct (decide (length (u_store (j_universe j2)) <= i)%nat) as [Hge|Hlt].
  - apply (F2 ltac:(unfold installs; destruct (grows_job _ _ G1) as (-> & _); done) i p Hge Hp).
  - destruct (u_store (j_universe j2) !! i) as [x|] eqn:E; [|apply lookup_ge_None in E; lia].
    assert (pkg_of (j_universe j2) i = Some (ui_pkg x)) as Hp2 by (unfold pkg_of; by rewrite E).
    pose proof (gr_items _ _ G2 i _ Hp2) as Hp'. assert (p = ui_pkg x) as -> by congruence.
    apply (settled_grows j2 j3 _ G2). by apply (F1 Hi i).
Qed.

(** The digests that were not seen: what bounds the recursion. *)
Definition unseen (u : universe) : gset cstring :=
  filter (fun d => hash_lookup (u_seen u) d = None) (dom (ca_uid C)).

Lemma unseen_grows j j' : grows j j' -> (size (unseen (j_universe j')) <= size (unseen (j_universe j)))%nat.
Proof.
  intros Hg. apply subseteq_size. intros d. unfold unseen. rewrite !elem_of_filter. intros [Hn Hd]. split; [|done].
  destruct (hash_lookup (u_seen (j_universe j)) d) eqn:E; [|done]. apply (gr_seen _ _ Hg) in E. congruence.
Qed.

(** A package whose digest was seen has its unique id in the universe. *)
Lemma seen_in_universe u p d i uid : sound u -> known emit C p -> digest_of p = Some d -> uid_of p = Some uid ->
  hash_lookup (u_seen u) d = Some i -> in_universe u uid.
Proof.
  intros Hs Hk Hd Hu Hl. destruct (wu_digests _ _ (sd_wf _ Hs) _ _ Hl) as (q & Hq & Hqd).
  destruct (kn_ids _ _ _ Hk) as (u1 & d1 & Hu1 & Hd1 & Hc1 & _).
  destruct (kn_ids _ _ _ (sd_known _ Hs _ _ Hq)) as (u2 & d2 & Hu2 & Hd2 & Hc2 & _).
  assert (u2 = uid) as -> by congruence.
  destruct (chain_of_item emit u i q (sd_wf _ Hs) Hq) as (chain & uid' & _ & _ & Hu' & Hf).
  assert (uid' = uid) as -> by congruence. by exists chain.
Qed.

(** Adding a package that was not seen. *)
Lemma insert_sound j p uid d : sound (j_universe j) -> known emit C p -> uid_of p = Some uid -> digest_of p = Some d ->
  hash_lookup (u_seen (j_universe j)) d = None ->
  let j' := set_universe j (insert_item (j_universe j) p uid d) in
  grows j j' /\ sound (j_universe j') /\ pkg_of (j_universe j') (length (u_store (j_universe j))) = Some p /\
  length (u_store (j_universe j')) = S (length (u_store (j_universe j))) /\
  hash_lookup (u_seen (j_universe j')) d = Some (length (u_store (j_universe j))) /\
  (size (unseen (j_universe j')) < size (unseen (j_universe j)))%nat.
Proof.
  intros Hs Hk Hu Hd Hn j'. set (u := j_universe j) in *.
  assert (forall k x, pkg_of u k = Some x -> pkg_of (insert_item u p uid d) k = Some x) as Hold.
  { intros k x Hx. rewrite pkg_of_insert. rewrite decide_False; [done|]. pose proof (pkg_of_lt _ _ _ Hx). lia. }
  assert (u_seen (insert_item u p uid d) = hash_add (u_seen u) d (length (u_store u))) as Hseen
    by (unfold insert_item; cbn [u_seen]; by rewrite Hn).
  assert (wf_table (u_seen u)) as Hws by apply Hs.
  assert (forall d' i, hash_lookup (u_seen u) d' = Some i -> hash_lookup (u_seen (insert_item u p uid d)) d' = Some i) as Hmono.
  { intros d' i Hi. rewrite Hseen, hash_lookup_add_ne; [done|done|]. intros ->. congruence. }
  assert (hash_lookup (u_seen (insert_item u p uid d)) d = Some (length (u_store u))) as Hnew
    by (by rewrite Hseen, hash_lookup_add).
  assert (pkg_of (insert_item u p uid d) (length (u_store u)) = Some p) as Hitem by (by rewrite pkg_of_insert, decide_True).
  assert (length (u_store (insert_item u p uid d)) = S (length (u_store u))) as Hlen by (cbn; rewrite length_app; cbn; lia).
  assert (grows j j') as Hg.
  { split; [done|unfold j'; cbn [j_universe set_universe]; fold u; lia|done| |by destruct j].
    intros k [c Hc]. unfold in_universe, j'. cbn [j_universe set_universe]. rewrite (insert_find emit) by apply Hs.
    destruct (decide _); [done|]. by exists c. }
  split_and!; [done| |done|done|done|].
  - unfold j'. cbn [j_universe set_universe]. destruct Hs as [Hw Hkn Hsn Hl Hp Hpr]. split.
    + apply wf_insert; [done|apply Hk|done|done].
    + intros i q. rewrite pkg_of_insert. destruct (decide _); [by intros [= <-]|apply Hkn].
    + intros i q d'. rewrite pkg_of_insert. destruct (decide _) as [_|_].
      * intros [= <-] Hd'. assert (d' = d) as -> by congruence. by rewrite Hnew.
      * intros Hi Hd'. destruct (Hsn i q d' Hi Hd') as [k Hk']. rewrite (Hmono _ _ Hk'). done.
    + intros i k q r. rewrite !pkg_of_insert. destruct (decide _) as [->|_], (decide _) as [->|_]; try done.
      * intros [= <-] Hr _ _ He. rewrite Hd in He. destruct (Hsn k r d Hr) as [x Hx]; [done|congruence].
      * intros Hq [= <-] _ _ He. rewrite Hd in He. destruct (Hsn i q d Hq) as [x Hx]; [done|congruence].
      * apply Hl.
    + exact Hp.
    + intros prs pr Hprs Hin. destruct (Hpr prs pr Hprs Hin) as [x Hx]. exists x. by apply Hold.
  - apply subset_size. split.
    + intros d'. unfold unseen. rewrite !elem_of_filter. intros [H1 H2]. split; [|done].
      destruct (hash_lookup (u_seen u) d') eqn:E; [|done]. apply Hmono in E. unfold j' in H1. cbn [j_universe set_universe] in H1. congruence.
    + intros Hsub. assert (d ∈ unseen u) as Hin.
      { apply elem_of_filter. split; [done|]. destruct (kn_ids _ _ _ Hk) as (u1 & d1 & _ & Hd1 & Hc1 & _).
        apply elem_of_dom. exists u1. congruence. }
      apply Hsub, elem_of_filter in Hin as [Hin _]. unfold j' in Hin. cbn [j_universe set_universe] in Hin. congruence.
Qed.

(** *** The look-ups *)

Lemma get_local_new j uid flag : pkg_jobs_universe_find (j_universe j) uid = None ->
  pkg_jobs_universe_get_local j uid flag = (j, pkgdb_query (Some uid) MATCH_EXACT (local_flags j flag) ≫= head).
Proof. intros Hf. unfold pkg_jobs_universe_get_local, known_item, head_item. by rewrite Hf. Qed.

Lemma query_head uid flag p : pkgdb_query (Some uid) MATCH_EXACT flag ≫= head = Some p ->
  known emit C p /\ uid_of p = Some uid /\ is_local p = true.
Proof.
  destruct (pkgdb_query (Some uid) MATCH_EXACT flag) as [[|q rows]|] eqn:E; [done| |done]. cbn. intros [= ->].
  apply (dl_query _ _ Hdb _ _ _ _ E). by left.
Qed.

Lemma select_rows rows acc : Forall (known emit C) (option_list acc ++ rows) ->
  exists sel, fold_opt (select_row emit) rows acc = Some sel /\
    (forall p, sel = Some p -> acc = Some p \/ p ∈ rows) /\ (sel = None -> acc = None /\ rows = []).
Proof.
  revert acc. induction rows as [|q rows IH]; intros acc Hk.
  { exists acc. split_and!; [done|by left|done]. }
  cbn [fold_opt select_row]. destruct acc as [s|]; cbn [select_row mbind option_bind].
  - assert (known emit C s /\ known emit C q /\ Forall (known emit C) rows) as (Hs & Hq & Hr)
      by (apply Forall_cons in Hk as [? Hk]; by apply Forall_cons in Hk as [??]).
    destruct (change_between_spec emit q s (kn_version _ _ _ Hq) (kn_version _ _ _ Hs)) as (c & -> & _).
    cbn [mbind option_bind].
    destruct (IH (match c with PKG_UPGRADE => Some q | _ => Some s end)) as (sel & Hf & Hsel & Hno).
    { destruct c; by constructor. }
    exists sel. split_and!; [by destruct c| |].
    + intros p Hp. destruct (Hsel p Hp) as [H|H]; [|right; by right].
      destruct c; injection H as <-; first [by left|right; by left].
    + intros H. destruct (Hno H) as [H' _]. by destruct c.
  - apply Forall_cons in Hk as [Hq Hr]. destruct (IH (Some q)) as (sel & Hf & Hsel & Hno); [by constructor|].
    exists sel. split_and!; [done| |].
    + intros p Hp. destruct (Hsel p Hp) as [[= ->]|H]; [right; by left|right; by right].
    + intros H. by destruct (Hno H).
Qed.

Lemma set_item_same u i p : pkg_of u i = Some p -> set_item_pkg u i p = u.
Proof.
  intros Hp. unfold pkg_of in Hp. destruct u as [st it se pr re ni]. cbn in Hp. unfold set_item_pkg. cbn. f_equal.
  apply fmap_Some in Hp as (x & Hx & ->). apply list_eq. intros k. destruct (decide (k = i)) as [->|Hne].
  - rewrite list_lookup_alter_eq, Hx. by destruct x.
  - by rewrite list_lookup_alter_ne.
Qed.

Lemma get_remote_spec j uid : sound (j_universe j) -> exists r, pkg_jobs_universe_get_remote emit j uid 0 = Some (j, r) /\
  (forall p, r = Some p -> known emit C p /\ uid_of p = Some uid /\ is_local p = false) /\
  (r = None -> from_option (fun rows => rows = []) True (pkgdb_repo_query (Some uid) MATCH_EXACT (remote_flags 0))).
Proof.
  intros Hs. unfold pkg_jobs_universe_get_remote. change (remote_flags (remote_flags 0)) with (remote_flags 0).
  destruct (known_item (j_universe j) uid false) as [[i p]|] eqn:E.
  - unfold known_item, head_item in E. destruct (pkg_jobs_universe_find (j_universe j) uid) as [chain|] eqn:Ef; [|done].
    cbn in E. destruct chain as [|k chain]; [done|]. cbn in E.
    destruct (chain_member emit _ uid _ k (sd_wf _ Hs) Ef ltac:(by left)) as (q & Hq & Hqu).
    rewrite Hq in E. cbn in E. destruct (is_local q) eqn:Eq; [done|]. injection E as <- <-.
    exists (Some q). unfold load_item. rewrite (dl_loaded _ _ Hdb) by (done || by apply (sd_known _ Hs k)).
    rewrite set_item_same by done. destruct j. split_and!; [done| |done].
    intros p [= <-]. split_and!; [by apply (sd_known _ Hs k)|done|done].
  - destruct (pkgdb_repo_query (Some uid) MATCH_EXACT (remote_flags 0)) as [rows|] eqn:Er; [|by exists None].
    assert (forall p, p ∈ rows -> known emit C p /\ uid_of p = Some uid /\ is_local p = false) as Hrows
      by (intros p; by apply (dl_repo_query _ _ Hdb _ _ _ _ Er)).
    destruct (select_rows rows None) as (sel & -> & Hsel & Hno).
    { apply Forall_forall. intros p Hp. by apply Hrows. }
    exists sel. split_and!; [done| |]; cbn.
    + intros p Hp. destruct (Hsel p Hp) as [?|?]; [done|by apply Hrows].
    + intros H. by destruct (Hno H).
Qed.

Lemma copy_automatic_spec np p : known emit C p -> exists p', copy_automatic emit np p = Some p' /\
  known emit C p' /\ uid_of p' = uid_of p /\ digest_of p' = digest_of p.
Proof.
  intros Hk. exists (set_fields p (<[str "automatic" := UBool (pkg_get_bool emit np PKG_AUTOMATIC)]> (fields p))).
  split; [reflexivity|]. split_and!.
  - apply known_set; [done|]. apply (bool_decide_unpack _). vm_compute. exact I.
  - unfold pkg_uid, pkg_get_string. by rewrite (pkg_vget_insert_ne _ _ _ _ PKG_UNIQUEID _ _ eq_refl).
  - unfold pkg_digest, pkg_get_string. by rewrite (pkg_vget_insert_ne _ _ _ _ PKG_DIGEST _ _ eq_refl).
Qed.

(** *** The loops *)

Definition okfatal (rc : pkg_error_t) : Prop := rc = EPKG_OK \/ rc = EPKG_FATAL.

Section loops.
Context (rec : pkg_jobs -> pkg -> bool -> option (pkg_error_t * pkg_jobs * option nat)) (n : nat).

(** Enough fuel is left for the digests that were not seen. *)
Definition ready (j : pkg_jobs) : Prop :=
  sound (j_universe j) /\ (size (unseen (j_universe j)) < n)%nat.

Context (Hrec : forall j p b, ready j -> known emit C p ->
  exists rc j' i d, rec j p b = Some (rc, j', Some i) /\ okfatal rc /\ step j j' /\ digest_of p = Some d /\
    hash_lookup (u_seen (j_universe j')) d = Some i).

Lemma ready_step j j' : ready j -> step j j' -> ready j'.
Proof.
  intros [Hs Hn] Hst. split; [apply Hst|]. pose proof (unseen_grows _ _ (st_grows _ _ Hst)). lia.
Qed.

(** Afterwards the unique id of the package is in the universe. *)
Lemma rec_found j p b uid : ready j -> known emit C p -> uid_of p = Some uid ->
  exists rc j' i, rec j p b = Some (rc, j', Some i) /\ okfatal rc /\ step j j' /\ ready j' /\
    in_universe (j_universe j') uid /\ is_Some (pkg_of (j_universe j') i).
Proof.
  intros Hj Hk Hu. destruct (Hrec j p b Hj Hk) as (rc & j' & i & d & Hr & Hrc & Hst & Hd & Hl).
  exists rc, j', i. pose proof (st_sound _ _ Hst) as Hs. split_and!; [done..|by eapply ready_step| |].
  - by eapply seen_in_universe.
  - destruct (wu_digests _ _ (sd_wf _ Hs) _ _ Hl) as (q & Hq & _). by exists q.
Qed.

Lemma each_spec {A} (f : pkg_jobs -> A -> option (pkg_error_t * pkg_jobs)) (P : A -> pkg_jobs -> Prop) (B : A -> Prop)
    (l : list A) j : ready j ->
  (forall x j j', P x j -> grows j j' -> P x j') ->
  (forall j' x, x ∈ l -> ready j' -> grows j j' -> exists rc j'', f j' x = Some (rc, j'') /\ okfatal rc /\ step j' j'' /\
    (rc = EPKG_OK -> P x j'') /\ (rc = EPKG_FATAL -> B x)) ->
  exists rc j', each f l j = Some (rc, j') /\ okfatal rc /\ step j j' /\
    (rc = EPKG_OK -> forall x, x ∈ l -> P x j') /\ (rc = EPKG_FATAL -> exists x, x ∈ l /\ B x).
Proof.
  intros Hj Hmono Hf. assert (grows j j) as Hg by apply grows_refl. revert Hj Hg. generalize j at 1 3 4 5 as j0.
  induction l as [|x l IH]; intros j0 Hj Hg; cbn [each].
  { exists EPKG_OK, j0. split_and!; [done|by left|apply step_refl, Hj| |done]. intros _ x Hx. by apply elem_of_nil in Hx. }
  destruct (Hf j0 x ltac:(by left) Hj Hg) as (rc & j' & -> & Hrc & Hst & HP & HB). cbn [mbind option_bind].
  destruct Hrc as [->| ->].
  - destruct (IH (fun j' y Hy => Hf j' y ltac:(by right)) j') as (rc' & j'' & Hr & Hrc' & Hst' & HP' & HB').
    { by eapply ready_step. }
    { by eapply grows_trans, Hst. }
    exists rc', j''. split_and!; [done|done|by eapply step_trans| |].
    + intros H y [->|Hy]%elem_of_cons; [|by apply HP']. by eapply Hmono; [apply HP|apply Hst'].
    + intros H. destruct (HB' H) as (y & Hy & Hb). exists y. split; [by right|done].
  - exists EPKG_FATAL, j'. split_and!; [done|by right|done|done|]. intros H. exists x. split; [by left|by apply HB].
Qed.

(** A call whose result is only that it ends well. *)
Definition fine (j : pkg_jobs) (r : option (pkg_error_t * pkg_jobs)) : Prop :=
  exists rc j', r = Some (rc, j') /\ okfatal rc /\ step j j'.

Lemma each_fine {A} (f : pkg_jobs -> A -> option (pkg_error_t * pkg_jobs)) (l : list A) j : ready j ->
  (forall j' x, x ∈ l -> ready j' -> grows j j' -> fine j' (f j' x)) -> fine j (each f l j).
Proof.
  intros Hj Hf. destruct (each_spec f (fun _ _ => True) (fun _ => True) l j Hj) as (rc & j' & H & Hrc & Hst & _).
  - done.
  - intros j' x Hx Hj' Hg. destruct (Hf j' x Hx Hj' Hg) as (rc & j'' & H & Hrc & Hst). by exists rc, j''.
  - by exists rc, j'.
Qed.

Lemma remote_dep_spec flags j uid npkg : sound (j_universe j) -> from_option (known emit C) True npkg ->
  exists r, remote_dep emit flags j uid npkg = Some (j, r) /\
    (forall p, r = Some p -> known emit C p /\ uid_of p = Some uid) /\
    (flag_set flags DEPS_FLAG_FORCE_LOCAL = false -> npkg = None -> r = None ->
       from_option (fun rows => rows = []) True (pkgdb_repo_query (Some uid) MATCH_EXACT (remote_flags 0))).
Proof.
  intros Hs Hn. unfold remote_dep. destruct (flag_set flags DEPS_FLAG_FORCE_LOCAL).
  { exists None. split_and!; [done| |]; by intros. }
  destruct (get_remote_spec j uid Hs) as (r & -> & Hr & Hno). cbn [mbind option_bind].
  destruct r as [rp|]; [|exists None; split_and!; [done|done|by intros; apply Hno]].
  destruct (Hr rp eq_refl) as (Hk & Hu & Hl). destruct (flag_set flags DEPS_FLAG_FORCE_UPGRADE).
  { exists (Some rp). split_and!; [done| |done]. intros p [= <-]. by split. }
  destruct (known_need_upgrade emit C rp npkg Hk Hl Hn) as (b & rp' & -> & Hk' & _ & Hu' & _ & _ & _ & Hb).
  cbn [mbind option_bind]. exists (if b then Some rp' else None). split_and!; [done| |].
  - intros p Hp. destruct b; [|done]. injection Hp as <-. split; [done|congruence].
  - intros _ H Hno'. specialize (Hb H) as ->. done.
Qed.

(** The databases are asked for installed and for remote packages. *)
Definition plain (flags : Z) : Prop :=
  flag_set flags DEPS_FLAG_MIRROR = false /\ flag_set flags DEPS_FLAG_FORCE_LOCAL = false.

(** A dependency is in the universe afterwards, or it may be missing. *)
Definition dep_done (flags : Z) (d : pkg_dep) (j : pkg_jobs) : Prop :=
  plain flags -> in_universe (j_universe j) (dep_uid d) \/
    flag_set flags DEPS_FLAG_FORCE_MISSING = true /\ missing j (dep_uid d).

Lemma dep_done_grows flags d j j' : dep_done flags d j -> grows j j' -> dep_done flags d j'.
Proof.
  intros H Hg Hp. destruct (H Hp) as [Hi|[Hf Hm]]; [left; by apply (gr_found _ _ Hg)|right].
  split; [done|]. by apply (missing_grows j j').
Qed.

(** The last step for a dependency: the remote candidate. *)
Lemma add_remote_dep j rpkg npkg uid : ready j ->
  (forall p, rpkg = Some p -> known emit C p /\ uid_of p = Some uid) ->
  (rpkg = None -> in_universe (j_universe j) uid) ->
  exists j', match rpkg with
             | None => Some (EPKG_OK, j)
             | Some rp =>
                 rp ← match npkg with Some np => copy_automatic emit np rp | None => Some rp end;
                 '(_, j, _) ← rec j rp false; Some (EPKG_OK, j)
             end = Some (EPKG_OK, j') /\ step j j' /\ in_universe (j_universe j') uid.
Proof.
  intros Hj Hr Hno. destruct rpkg as [rp|]; [|exists j; split_and!; [done|apply step_refl, Hj|by apply Hno]].
  destruct (Hr rp eq_refl) as [Hk Hu].
  assert (exists rp', match npkg with Some np => copy_automatic emit np rp | None => Some rp end = Some rp' /\
    known emit C rp' /\ uid_of rp' = Some uid) as (rp' & -> & Hk' & Hu').
  { destruct npkg as [np|]; [|by exists rp]. destruct (copy_automatic_spec np rp Hk) as (rp' & -> & Hk' & Hu' & _).
    exists rp'. split_and!; [done|done|congruence]. }
  cbn [mbind option_bind]. destruct (rec_found j rp' false uid Hj Hk' Hu') as (rc & j' & i & -> & _ & Hst & _ & Hin & _).
  cbn [mbind option_bind]. by exists j'.
Qed.

Lemma process_dep_spec flags j d : ready j ->
  exists rc j', process_dep emit rec flags j d = Some (rc, j') /\ okfatal rc /\ step j j' /\
    (rc = EPKG_OK -> dep_done flags d j') /\ (rc = EPKG_FATAL -> plain flags -> missing j (dep_uid d)).
Proof.
  intros Hj. unfold process_dep.
  destruct (pkg_jobs_universe_find (j_universe j) (dep_uid d)) as [c|] eqn:Ef.
  { exists EPKG_OK, j. split_and!; [done|by left|apply step_refl, Hj| |done]. intros _ _. left. by exists c. }
  rewrite get_local_new by done.
  set (npkg := if flag_set flags DEPS_FLAG_MIRROR then None else pkgdb_query (Some (dep_uid d)) MATCH_EXACT (local_flags j 0) ≫= head).
  assert ((if flag_set flags DEPS_FLAG_MIRROR then (j, None)
           else (j, pkgdb_query (Some (dep_uid d)) MATCH_EXACT (local_flags j 0) ≫= head)) = (j, npkg)) as ->
    by (unfold npkg; by destruct (flag_set flags DEPS_FLAG_MIRROR)).
  assert (forall np, npkg = Some np -> flag_set flags DEPS_FLAG_MIRROR = false /\ known emit C np /\ uid_of np = Some (dep_uid d)) as Hnp.
  { intros np. unfold npkg. destruct (flag_set flags DEPS_FLAG_MIRROR); [done|].
    intros (Hk & Hu & _)%query_head. done. }
  destruct (remote_dep_spec flags j (dep_uid d) npkg) as (rpkg & -> & Hrp & Hno).
  { apply Hj. } { destruct npkg as [np|]; [|done]. by apply Hnp. }
  cbn [mbind option_bind].
  destruct npkg as [np|] eqn:En.
  - destruct (Hnp np eq_refl) as (Hm & Hk & Hu).
    destruct (rec_found j np true (dep_uid d) Hj Hk Hu) as (rc & j1 & i & -> & Hrc & Hst & Hj1 & Hin & _).
    cbn [mbind option_bind]. rewrite Hm. destruct Hrc as [->| ->].
    + destruct (add_remote_dep j1 rpkg (Some np) (dep_uid d) Hj1 Hrp (fun _ => Hin)) as (j2 & H2 & Hst2 & Hin2).
      cbn [mbind option_bind]. rewrite H2. exists EPKG_OK, j2.
      split_and!; [done|by left|by eapply step_trans| |done]. intros _ _. by left.
    + exists EPKG_OK, j1. split_and!; [done|by left|done| |done]. intros _ _. by left.
  - destruct rpkg as [rp|].
    + destruct (add_remote_dep j (Some rp) None (dep_uid d) Hj Hrp) as (j2 & H2 & Hst2 & Hin2); [done|].
      cbn [mbind option_bind] in *. rewrite H2. exists EPKG_OK, j2. split_and!; [done|by left|done| |done].
      intros _ _. by left.
    + assert (plain flags -> missing j (dep_uid d)) as Hmiss.
      { intros [Hm Hfl]. split; [|by apply Hno]. unfold npkg in En. by rewrite Hm in En. }
      eexists _, j. split_and!; [done|destruct (flag_set flags DEPS_FLAG_FORCE_MISSING); [by left|by right]|apply step_refl, Hj| |].
      * intros HOK Hp. right. split; [by destruct (flag_set flags DEPS_FLAG_FORCE_MISSING)|by apply Hmiss].
      * intros _ Hp. by apply Hmiss.
Qed.

(** The dependencies, or the reverse dependencies, of an item. *)
Lemma process_deps_spec flags j i p : ready j -> pkg_of (j_universe j) i = Some p ->
  exists rc j', pkg_jobs_universe_process_deps emit rec j i flags = Some (rc, j') /\ okfatal rc /\ step j j' /\
    (flag_set flags DEPS_FLAG_REVERSE = false -> plain flags -> settled j' p /\
      (rc = EPKG_OK -> flag_set flags DEPS_FLAG_FORCE_MISSING = false ->
         forall d, d ∈ values (deps p) -> in_universe (j_universe j') (dep_uid d))).
Proof.
  intros Hj Hp. unfold pkg_jobs_universe_process_deps. rewrite Hp. cbn [mbind option_bind].
  pose proof (sd_known _ (proj1 Hj) _ _ Hp) as [Hwf _ _ _ _ _].
  assert ((if flag_set flags DEPS_FLAG_REVERSE then pkg_rdeps p else pkg_deps p) =
    Some (values (if flag_set flags DEPS_FLAG_REVERSE then rdeps p else deps p))) as ->.
  { unfold pkg_rdeps, pkg_deps. destruct (flag_set flags DEPS_FLAG_REVERSE); apply hash_iter_wf, Hwf. }
  cbn [mbind option_bind].
  destruct (each_spec (process_dep emit rec flags) (dep_done flags) (fun d => plain flags -> missing j (dep_uid d))
    (values (if flag_set flags DEPS_FLAG_REVERSE then rdeps p else deps p)) j Hj) as (rc & j' & H & Hrc & Hst & HP & HB).
  - intros d j1 j2. apply dep_done_grows.
  - intros j1 d _ Hj1 Hg. destruct (process_dep_spec flags j1 d Hj1) as (rc & j2 & H & Hrc & Hst & HP & HB).
    exists rc, j2. split_and!; [done..|]. intros Hf Hpl. by apply (missing_grows j j1), HB.
  - exists rc, j'. split_and!; [done..|]. intros Hf Hpl. rewrite Hf in *. destruct Hrc as [->| ->].
    + specialize (HP eq_refl). split.
      * destruct (decide (Forall (fun d => in_universe (j_universe j') (dep_uid d)) (values (deps p)))) as [Hall|Hno].
        { left. by apply Forall_forall. }
        apply not_Forall_Exists in Hno; [|intros d; unfold in_universe; apply _].
        apply Exists_exists in Hno as (d & Hd & Hn). right. exists d. split; [done|].
        by destruct (HP d Hd Hpl) as [?|[_ ?]].
      * intros _ Hfm d Hd. by destruct (HP d Hd Hpl) as [?|[? _]]; [|congruence].
    + split; [|done]. right. destruct (HB eq_refl) as (d & Hd & Hm). exists d. split; [done|].
      apply (missing_grows j j'); [apply Hst|by apply Hm].
Qed.

Lemma fine_ok j : ready j -> fine j (Some (EPKG_OK, j)).
Proof. intros Hj. exists EPKG_OK, j. split_and!; [done|by left|apply step_refl, Hj]. Qed.

Lemma fine_step j j' r : step j j' -> fine j' r -> fine j r.
Proof. intros Hst (rc & j'' & -> & Hrc & Hst'). exists rc, j''. split_and!; [done..|by eapply step_trans]. Qed.

(** A call of the function whose result does not matter. *)
Lemma rec_ignored j p b : ready j -> known emit C p ->
  fine j ('(_, j, _) ← rec j p b; Some (EPKG_OK, j)).
Proof.
  intros Hj Hk. destruct (kn_ids _ _ _ Hk) as (uid & _ & Hu & _).
  destruct (rec_found j p b uid Hj Hk Hu) as (rc & j' & i & -> & _ & Hst & _). cbn [mbind option_bind].
  exists EPKG_OK, j'. split_and!; [done|by left|done].
Qed.

Lemma add_remote_conflict j uid : ready j ->
  fine j ('(j, npkg) ← pkg_jobs_universe_get_remote emit j uid 0;
          match npkg with
          | None => Some (EPKG_OK, j)
          | Some np => '(_, j, _) ← rec j np false; Some (EPKG_OK, j)
          end).
Proof.
  intros Hj. destruct (get_remote_spec j uid (proj1 Hj)) as (r & -> & Hr & _). cbn [mbind option_bind].
  destruct r as [np|]; [|by apply fine_ok]. apply rec_ignored; [done|by apply Hr].
Qed.

Lemma process_conflict_fine local j c : ready j -> fine j (process_conflict emit rec local j c).
Proof.
  intros Hj. unfold process_conflict.
  destruct (pkg_jobs_universe_find (j_universe j) (c_uniqueid c)) as [ch|] eqn:Ef; [by apply fine_ok|].
  destruct local; [by apply add_remote_conflict|]. rewrite get_local_new by done.
  destruct (pkgdb_query (Some (c_uniqueid c)) MATCH_EXACT (local_flags j 0) ≫= head) as [np|] eqn:En; [|by apply fine_ok].
  apply query_head in En as (Hk & Hu & _).
  destruct (rec_found j np false _ Hj Hk Hu) as (rc & j' & i & -> & Hrc & Hst & Hj' & _). cbn [mbind option_bind].
  eapply fine_step; [exact Hst|]. destruct Hrc as [->| ->]; [|by apply fine_ok].
  case_bool_decide; [by apply fine_ok|by apply add_remote_conflict].
Qed.

Lemma process_conflicts_fine j i p : ready j -> pkg_of (j_universe j) i = Some p ->
  fine j (pkg_jobs_universe_process_conflicts emit rec j i).
Proof.
  intros Hj Hp. unfold pkg_jobs_universe_process_conflicts. rewrite Hp. cbn [mbind option_bind].
  unfold pkg_conflicts. rewrite hash_iter_wf by apply (kn_wf _ _ _ (sd_known _ (proj1 Hj) _ _ Hp)). cbn [mbind option_bind].
  apply each_fine; [done|]. intros j' c _ Hj' _. by apply process_conflict_fine.
Qed.

(** *** Shared libraries *)

Definition row_ok (j : pkg_jobs) (r : row_result) : Prop :=
  match r with
  | RowUnit j' unit _ => step j j' /\ from_option (fun un => is_Some (pkg_of (j_universe j') un)) True unit
  | RowSkip j' _ | RowFatal j' => step j j'
  end.

(** The next row is read into a new package, if there is one. *)
Definition row_free (r : row_result) : Prop :=
  match r with RowUnit _ _ held => held = false | RowSkip _ _ => False | RowFatal _ => True end.

Lemma row_ok_step j j' r : step j j' -> row_ok j' r -> row_ok j r.
Proof. intros Hst. destruct r; cbn; [intros [? ?]; split; [|done]|intros ?..]; by eapply step_trans. Qed.

Lemma add_row_ok j rp drop : ready j -> known emit C rp ->
  exists r, add_row rec j rp drop = Some r /\ row_ok j r /\ (forall j' held, r <> RowUnit j' None held).
Proof.
  intros Hj Hk. unfold add_row. destruct (kn_ids _ _ _ Hk) as (uid & _ & Hu & _).
  destruct (rec_found j rp true uid Hj Hk Hu) as (rc & j' & i & -> & Hrc & Hst & _ & _ & Hi). cbn [mbind option_bind].
  eexists. split; [done|]. destruct Hrc as [->| ->]; by split.
Qed.

Lemma local_row_ok j rp uid : ready j -> known emit C rp -> is_local rp = false -> uid_of rp = Some uid ->
  exists r, local_row emit sha256 repo_digest_format rec j rp uid = Some r /\ row_ok j r /\
    (forall j' held, r = RowUnit j' None held -> j' = j).
Proof.
  intros Hj Hk Hl Hu. pose proof (proj1 Hj) as Hs. unfold local_row, head_item.
  destruct (pkg_jobs_universe_find (j_universe j) uid) as [[|un ch]|] eqn:Ef.
  - exfalso. apply (find_elements emit) in Ef; [|apply Hs]. by destruct (wu_chains _ _ (sd_wf _ Hs) _ _ Ef).
  - destruct (chain_member emit _ uid _ un (sd_wf _ Hs) Ef ltac:(by left)) as (p & Hp & _).
    cbn [mbind option_bind head]. rewrite Hp. cbn [mbind option_bind].
    destruct (known_need_upgrade emit C rp (Some p) Hk Hl (sd_known _ Hs _ _ Hp)) as (b & rp' & -> & Hk' & _).
    cbn [mbind option_bind]. destruct b.
    + destruct (add_row_ok j rp' true Hj Hk') as (r & -> & Hr & Hn). exists r. split_and!; [done..|]. intros j' held ->. by destruct (Hn j' held).
    + eexists. split; [done|]. split; [|done]. split; [by apply step_refl|by exists p].
  - cbn [mbind option_bind]. rewrite get_local_new by done.
    destruct (pkgdb_query (Some uid) MATCH_EXACT (local_flags j 0) ≫= head) as [np|] eqn:En.
    + apply query_head in En as (Hkn & Hun & _).
      destruct (rec_found j np true uid Hj Hkn Hun) as (rc & j1 & i & -> & Hrc & Hst & Hj1 & _ & Hi). cbn [mbind option_bind].
      destruct Hrc as [->| ->]; [|by exists (RowFatal j1)].
      destruct (kn_ids _ _ _ Hkn) as (_ & d & _ & Hd & _). unfold ensure_digest. rewrite Hd. cbn [mbind option_bind].
      destruct (known_need_upgrade emit C rp (Some np) Hk Hl Hkn) as (b & rp' & -> & Hk' & _). cbn [mbind option_bind]. destruct b.
      * destruct (add_row_ok j1 rp' false Hj1 Hk') as (r & -> & Hr & Hn). exists r.
        split_and!; [done|by eapply row_ok_step|]. intros j' held ->. by destruct (Hn j' held).
      * eexists. split; [done|]. split; [|done]. by split.
    + eexists. split; [done|]. split; [split; [by apply step_refl|done]|]. by intros j' held [= ->].
Qed.

Lemma new_row_ok j item rp d : ready j -> known emit C rp -> digest_of rp = Some d ->
  exists r, new_row emit sha256 repo_digest_format rec j item rp (Some d) = Some r /\ row_ok j r /\
    (forall j' held, r <> RowUnit j' None held) /\ row_free r.
Proof.
  intros Hj Hk Hd. unfold new_row, pkg_jobs_universe_seen. cbn [mbind option_bind].
  destruct (hash_lookup (u_seen (j_universe j)) d) as [un|] eqn:Es.
  - eexists. split; [done|]. split; [|done]. split; [apply step_refl, Hj|].
    destruct (wu_digests _ _ (sd_wf _ (proj1 Hj)) _ _ Es) as (q & Hq & _). by exists q.
  - destruct (kn_ids _ _ _ Hk) as (uid & _ & Hu & _).
    destruct (rec_found j rp true uid Hj Hk Hu) as (rc & j' & i & -> & _ & Hst & _ & _ & Hi). cbn [mbind option_bind].
    eexists. split; [done|]. by split.
Qed.

(** The row of a package that has one version is not read into another. *)
Lemma local_row_free j rp uid r : ready j -> known emit C rp -> is_local rp = false -> uid_of rp = Some uid ->
  only_version emit C rp -> local_row emit sha256 repo_digest_format rec j rp uid = Some r -> row_free r.
Proof.
  intros Hj Hk Hl Hu Ho. unfold local_row, head_item.
  destruct (pkg_jobs_universe_find (j_universe j) uid) as [[|un ch]|] eqn:Ef; cbn [mbind option_bind head].
  2:{ destruct (chain_member emit _ uid _ un (sd_wf _ (proj1 Hj)) Ef ltac:(by left)) as (p & Hp & Hpu).
      rewrite Hp. cbn [mbind option_bind]. rewrite (only_version_stays emit C rp p Hk (sd_known _ (proj1 Hj) _ _ Hp) Hl) by (done || congruence).
      cbn [mbind option_bind]. by intros [= <-]. }
  - exfalso. apply (find_elements emit) in Ef; [|apply Hj]. by destruct (wu_chains _ _ (sd_wf _ (proj1 Hj)) _ _ Ef).
  - rewrite get_local_new by done. destruct (_ ≫= head) as [np|] eqn:En; [|by intros [= <-]].
    apply query_head in En as (Hkn & Hun & _). destruct (rec j np true) as [[[rc j1] unit]|]; [|done]. cbn [mbind option_bind].
    destruct rc; try (by intros [= <-]). destruct (kn_ids _ _ _ Hkn) as (_ & d & _ & Hd & _). unfold ensure_digest. rewrite Hd.
    cbn [mbind option_bind]. rewrite (only_version_stays emit C rp np Hk Hkn Hl) by (done || congruence).
    cbn [mbind option_bind]. by intros [= <-].
Qed.

Lemma add_provide_step j shlib un prhead : sound (j_universe j) -> is_Some (pkg_of (j_universe j) un) ->
  step j (set_universe j (add_provide (j_universe j) shlib un prhead).1).
Proof.
  intros [Hw Hk Hs Hl Hp Hpr] Hun. unfold add_provide. destruct prhead as [i|]; (split; [by destruct j; split|split; try done|]);
    try (by destruct Hw; split); try (intros _ k p Hi Hpi; pose proof (pkg_of_lt _ _ _ Hpi) as Hlt; cbn in Hlt; lia).
  - by apply wf_update.
  - intros prs pr. cbn [fst u_provides j_universe set_universe]. rewrite values_update, hash_get_values. intros Hin.
    apply list_elem_of_lookup_1 in Hin as [k [(-> & <- & _)|[_ Hin]]%list_lookup_insert_Some].
    + intros [Hin| ->%list_elem_of_singleton]%elem_of_app; [|done].
      destruct (values (u_provides (j_universe j)) !! k) as [prs|] eqn:E; [|by apply elem_of_nil in Hin].
      apply (Hpr prs pr); [by eapply list_elem_of_lookup_2|done].
    + intros Hpr'. eapply Hpr; [by eapply list_elem_of_lookup_2|done].
  - by apply wf_add.
  - intros prs pr. cbn. rewrite values_add by done. intros [Hin| ->%list_elem_of_singleton]%elem_of_app; [by apply Hpr|].
    by intros ->%list_elem_of_singleton.
Qed.

Lemma process_row_ok item shlib j rp prhead : ready j -> known emit C rp -> is_local rp = false ->
  exists rc st, process_row emit sha256 repo_digest_format rec item shlib (mk_shlib j false prhead) rp = Some (rc, st) /\
    okfatal rc /\ step j (sh_jobs st) /\ (only_version emit C rp -> rc = EPKG_OK -> sh_held st = false).
Proof.
  intros Hj Hk Hl. destruct (kn_ids _ _ _ Hk) as (uid & d & Hu & Hd & _). unfold process_row. cbn [sh_held sh_jobs sh_head].
  rewrite Hu, Hd. cbn [mbind option_bind].
  destruct (local_row_ok j rp uid Hj Hk Hl Hu) as (r & Hlr & Hr & Hnone). rewrite Hlr. cbn [mbind option_bind].
  assert (only_version emit C rp -> row_free r) as Hfree
    by (intros Ho; by eapply local_row_free).
  assert (exists r', match r with RowUnit j _ _ => match r with RowUnit j None _ =>
      new_row emit sha256 repo_digest_format rec j item rp (Some d) | r => Some r end | r => Some r end = Some r' /\
    row_ok j r' /\ (forall j' held, r' <> RowUnit j' None held) /\ (only_version emit C rp -> row_free r')) as (r' & Hr' & Hok & Hno & Hrf).
  { destruct r as [j1 [un|] held|j1 held|j1]; [by eexists| |by eexists..].
    rewrite (Hnone j1 held eq_refl) in *. destruct (new_row_ok j item rp d Hj Hk Hd) as (r' & -> & Hr1 & Hr2 & Hr3). by exists r'. }
  assert (match r with RowUnit j None _ => new_row emit sha256 repo_digest_format rec j item rp (Some d) | r => Some r end
    = Some r') as -> by (by destruct r as [j1 [un|] held|j1 held|j1]).
  cbn [mbind option_bind]. destruct r' as [j1 [un|] held|j1 held|j1].
  - destruct Hok as [Hst Hun]. cbn [mbind option_bind].
    pose proof (add_provide_step j1 shlib un prhead (st_sound _ _ Hst) Hun) as Hap.
    destruct (add_provide _ _ _ _) as [u i]. eexists _, _. split; [done|]. split_and!; [by left|by eapply step_trans|]. intros Ho _. exact (Hrf Ho).
  - by destruct (Hno j1 held).
  - eexists _, _. split; [done|]. split_and!; [by left|done|]. by intros []%Hrf.
  - eexists _, _. split; [done|]. split_and!; [by right|done|by intros _ ?].
Qed.

(** The rows of a query in turn. *)
Lemma process_rows_ok item shlib rows : Forall (fun p => known emit C p /\ is_local p = false) rows ->
  Forall (only_version emit C) (removelast rows) -> forall j prhead, ready j ->
  fine j (process_rows emit sha256 repo_digest_format rec item shlib rows (mk_shlib j false prhead)).
Proof.
  induction 1 as [|rp rows [Hk Hl] _ IH]; intros Ho j prhead Hj; cbn [process_rows]; [by apply fine_ok|].
  destruct (process_row_ok item shlib j rp prhead Hj Hk Hl) as (rc & st & -> & Hrc & Hst & Hfree). cbn [mbind option_bind].
  destruct Hrc as [->| ->]; [|exists EPKG_FATAL, (sh_jobs st); split_and!; [done|by right|done]].
  eapply fine_step; [exact Hst|]. destruct rows as [|rp2 rows].
  - cbn [process_rows]. apply fine_ok. by eapply ready_step.
  - cbn [removelast] in Ho. apply Forall_cons in Ho as [Ho1 Ho]. destruct st as [j1 held hd]. cbn [sh_jobs sh_held] in *.
    rewrite (Hfree Ho1 eq_refl). apply IH; [done|by eapply ready_step].
Qed.

Lemma process_shlibs_fine j i p : ready j -> pkg_of (j_universe j) i = Some p ->
  fine j (pkg_jobs_universe_process_shlibs emit sha256 repo_digest_format rec j i).
Proof.
  intros Hj Hp. unfold pkg_jobs_universe_process_shlibs. rewrite Hp. cbn [mbind option_bind].
  unfold pkg_shlibs_required. rewrite hash_iter_wf by apply (kn_wf _ _ _ (sd_known _ (proj1 Hj) _ _ Hp)). cbn [mbind option_bind].
  apply each_fine; [done|]. intros j' lib _ Hj' _. unfold process_shlib.
  destruct (hash_find (u_provides (j_universe j')) lib); [by apply fine_ok|].
  destruct (pkgdb_repo_shlib_provide lib shlib_flags) as [rows|] eqn:Er; [|by apply fine_ok].
  destruct (dl_shlib _ _ Hdb _ _ _ Er) as [Hrows Honly]. by apply process_rows_ok.
Qed.
End loops.

(** *** The whole function *)

Lemma process_new_spec rec n j i p :
  (forall j p b, ready n j -> known emit C p ->
     exists rc j' i d, rec j p b = Some (rc, j', Some i) /\ okfatal rc /\ step j j' /\ digest_of p = Some d /\
       hash_lookup (u_seen (j_universe j')) d = Some i) ->
  ready n j -> pkg_of (j_universe j) i = Some p ->
  exists rc j', process_new emit sha256 repo_digest_format rec j i = Some (rc, j') /\ okfatal rc /\ step j j' /\
    (installs j -> settled j' p /\
      (rc = EPKG_OK -> flag_set (j_flags j) PKG_FLAG_FORCE_MISSING = false ->
         forall d, d ∈ values (deps p) -> in_universe (j_universe j') (dep_uid d))).
Proof.
  intros Hrec Hj Hp. unfold process_new.
  set (fm := flag_set (j_flags j) PKG_FLAG_FORCE_MISSING).
  set (fl := if fm then DEPS_FLAG_FORCE_MISSING else 0).
  assert (plain fl /\ flag_set fl DEPS_FLAG_REVERSE = false /\ flag_set fl DEPS_FLAG_FORCE_MISSING = fm) as (Hpl & Hrev & Hfm)
    by (unfold fl; by destruct fm).
  assert (forall flags, ~ installs j -> exists rc j', pkg_jobs_universe_process_deps emit rec j i flags = Some (rc, j') /\
    okfatal rc /\ step j j' /\ (installs j -> settled j' p /\
      (rc = EPKG_OK -> fm = false -> forall d, d ∈ values (deps p) -> in_universe (j_universe j') (dep_uid d)))) as Hone.
  { intros flags Hni. destruct (process_deps_spec rec n Hrec flags j i p Hj Hp) as (rc & j' & H & Hrc & Hst & _).
    by exists rc, j'. }
  assert (~ installs j -> exists rc j', Some (EPKG_OK, j) = Some (rc, j') /\ okfatal rc /\ step j j' /\ (installs j -> settled j' p /\
      (rc = EPKG_OK -> fm = false -> forall d, d ∈ values (deps p) -> in_universe (j_universe j') (dep_uid d)))) as Hnone.
  { intros Hni. exists EPKG_OK, j. split_and!; [done|by left|apply step_refl, Hj|done]. }
  assert (exists rc j', ('(rc, j) ← pkg_jobs_universe_process_deps emit rec j i fl;
      match rc with
      | EPKG_OK =>
          '(rc, j) ← pkg_jobs_universe_process_deps emit rec j i (Z.lor fl DEPS_FLAG_REVERSE);
          match rc with
          | EPKG_OK =>
              '(rc, j) ← pkg_jobs_universe_process_conflicts emit rec j i;
              match rc with
              | EPKG_OK =>
                  p ← pkg_of (j_universe j) i;
                  if is_local p then Some (EPKG_OK, j) else pkg_jobs_universe_process_shlibs emit sha256 repo_digest_format rec j i
              | _ => Some (rc, j)
              end
          | _ => Some (rc, j)
          end
      | _ => Some (rc, j)
      end) = Some (rc, j') /\ okfatal rc /\ step j j' /\ (installs j -> settled j' p /\
      (rc = EPKG_OK -> fm = false -> forall d, d ∈ values (deps p) -> in_universe (j_universe j') (dep_uid d)))) as Hall.
  { destruct (process_deps_spec rec n Hrec fl j i p Hj Hp) as (rc & j1 & -> & Hrc & Hst & Hdone). cbn [mbind option_bind].
    destruct (Hdone Hrev Hpl) as [Hset Hdeps]. rewrite Hfm in Hdeps.
    assert (forall r, fine j1 r -> (rc = EPKG_OK) -> exists rc' j', r = Some (rc', j') /\ okfatal rc' /\ step j j' /\
      (installs j -> settled j' p /\ (rc' = EPKG_OK -> fm = false ->
         forall d, d ∈ values (deps p) -> in_universe (j_universe j') (dep_uid d)))) as Hrest.
    { intros r (rc' & j' & -> & Hrc' & Hst') ->. exists rc', j'. split_and!; [done|done|by eapply step_trans|]. intros _.
      split; [eapply settled_grows; [apply Hst'|done]|]. intros _ Hf d Hd. apply (gr_found _ _ (st_grows _ _ Hst')). by apply Hdeps. }
    destruct Hrc as [->| ->]; [|exists EPKG_FATAL, j1; split_and!; [done|by right|done|intros _; by split]].
    apply (Hrest _); [|done]. clear Hrest.
    assert (ready n j1) as Hj1 by (by eapply ready_step). pose proof (gr_items _ _ (st_grows _ _ Hst) _ _ Hp) as Hp1.
    destruct (process_deps_spec rec n Hrec (Z.lor fl DEPS_FLAG_REVERSE) j1 i p Hj1 Hp1) as (rc2 & j2 & -> & Hrc2 & Hst2 & _).
    cbn [mbind option_bind]. eapply fine_step; [exact Hst2|]. assert (ready n j2) as Hj2 by (by eapply ready_step).
    pose proof (gr_items _ _ (st_grows _ _ Hst2) _ _ Hp1) as Hp2.
    destruct Hrc2 as [->| ->]; [|exists EPKG_FATAL, j2; split_and!; [done|by right|apply step_refl, Hj2]].
    destruct (process_conflicts_fine rec n Hrec j2 i p Hj2 Hp2) as (rc3 & j3 & -> & Hrc3 & Hst3).
    cbn [mbind option_bind]. eapply fine_step; [exact Hst3|]. assert (ready n j3) as Hj3 by (by eapply ready_step).
    pose proof (gr_items _ _ (st_grows _ _ Hst3) _ _ Hp2) as Hp3.
    destruct Hrc3 as [->| ->]; [|exists EPKG_FATAL, j3; split_and!; [done|by right|apply step_refl, Hj3]].
    rewrite Hp3. cbn [mbind option_bind]. destruct (is_local p); [by eapply fine_ok|].
    by eapply process_shlibs_fine. }
  assert (j_type j <> PKG_JOBS_INSTALL -> j_type j <> PKG_JOBS_UPGRADE -> ~ installs j) as Hni by (intros ? ? [?|?]; done).
  destruct (j_type j); try exact Hall; try (apply Hnone, Hni; done);
    (destruct (flag_set (j_flags j) PKG_FLAG_RECURSIVE); [apply Hone|apply Hnone]; by apply Hni).
Qed.

Lemma process_item_spec fuel : forall j p b, ready fuel j -> known emit C p ->
  exists rc j' i d, process_item emit sha256 repo_digest_format fuel j p b = Some (rc, j', Some i) /\ okfatal rc /\
    step j j' /\ digest_of p = Some d /\ hash_lookup (u_seen (j_universe j')) d = Some i /\
    (installs j -> hash_lookup (u_seen (j_universe j)) d = None -> rc = EPKG_OK ->
       flag_set (j_flags j) PKG_FLAG_FORCE_MISSING = false ->
       forall x, x ∈ values (deps p) -> in_universe (j_universe j') (dep_uid x)).
Proof.
  induction fuel as [|fuel IH]; intros j p b [Hs Hn] Hk; [lia|]. cbn [process_item].
  destruct (kn_ids _ _ _ Hk) as (uid & d & Hu & Hd & _).
  unfold pkg_jobs_universe_add_pkg, pkg_jobs_universe_seen. rewrite Hd. cbn [mbind option_bind]. rewrite Hd. cbn [mbind option_bind].
  destruct (hash_lookup (u_seen (j_universe j)) d) as [un|] eqn:Es.
  { cbn [mbind option_bind]. replace (set_universe j (j_universe j)) with j by (by destruct j).
    exists EPKG_OK, j, un, d. split_and!; [done|by left|by apply step_refl|done|done|]. intros _ Hno. congruence. }
  rewrite Hu. cbn [mbind option_bind].
  destruct (insert_sound j p uid d Hs Hk Hu Hd Es) as (Hg & Hs1 & Hp1 & Hlen & Hseen & Hlt).
  set (j1 := set_universe j (insert_item (j_universe j) p uid d)) in *.
  destruct (process_new_spec (process_item emit sha256 repo_digest_format fuel) fuel j1 (length (u_store (j_universe j))) p)
    as (rc & j' & -> & Hrc & Hst & Hset).
  - intros j2 q b2 Hj2 Hq. destruct (IH j2 q b2 Hj2 Hq) as (rc & j' & i & d' & H & Hrc & Hst & Hd' & Hl & _).
    by exists rc, j', i, d'.
  - split; [done|lia].
  - done.
  - cbn [mbind option_bind]. exists rc, j', (length (u_store (j_universe j))), d.
    assert (installs j -> installs j1) as Hi by done.
    split_and!; [done|done| |done|by apply (gr_seen _ _ (st_grows _ _ Hst))|].
    + split; [by eapply grows_trans, Hst|apply Hst|]. intros Hin i q Hle Hq.
      destruct (decide (i = length (u_store (j_universe j)))) as [->|Hne].
      * pose proof (gr_items _ _ (st_grows _ _ Hst) _ _ Hp1) as Hp'. assert (q = p) as -> by congruence. by apply Hset.
      * apply (st_settled _ _ Hst (Hi Hin) i q); [lia|done].
    + intros Hin _ Hok Hfm. by apply Hset.
Qed.

(** A package that was not seen is the item that is answered. *)
Lemma process_item_inserts fuel j p b d rc j' i : ready fuel j -> known emit C p -> digest_of p = Some d ->
  hash_lookup (u_seen (j_universe j)) d = None ->
  process_item emit sha256 repo_digest_format fuel j p b = Some (rc, j', i) ->
  exists k, i = Some k /\ pkg_of (j_universe j') k = Some p.
Proof.
  intros [Hs Hn] Hk Hd Hno. destruct fuel as [|fuel]; [lia|]. cbn [process_item].
  destruct (kn_ids _ _ _ Hk) as (uid & d' & Hu & Hd' & _). assert (d' = d) as -> by congruence.
  unfold pkg_jobs_universe_add_pkg, pkg_jobs_universe_seen. rewrite Hd. cbn [mbind option_bind]. rewrite Hd. cbn [mbind option_bind].
  rewrite Hno, Hu. cbn [mbind option_bind].
  destruct (insert_sound j p uid d Hs Hk Hu Hd Hno) as (_ & Hs1 & Hp1 & _ & _ & Hlt).
  destruct (process_new_spec (process_item emit sha256 repo_digest_format fuel) fuel
    (set_universe j (insert_item (j_universe j) p uid d)) (length (u_store (j_universe j))) p) as (rc' & j2 & -> & _ & Hst & _).
  - intros j2 q b2 Hj2 Hq. destruct (process_item_spec fuel j2 q b2 Hj2 Hq) as (rc' & j3 & k & d' & H & Hrc & Hst & Hdq & Hl & _).
    by exists rc', j3, k, d'.
  - split; [done|lia].
  - done.
  - cbn [mbind option_bind]. intros [= _ <- <-]. eexists. split; [done|]. by apply (gr_items _ _ (st_grows _ _ Hst)).
Qed.

(** C20: Bringing a package into a universe comes to an end with EPKG_OK or
    EPKG_FATAL, for databases whose packages are in a finite catalogue: every
    call that recurses sees a digest for the first time.  A library may have any
    number of providers, but each before the last has to be the only version of
    its package that the databases know: without this the next provider can be
    read into a package of the universe ([second_provider_overwrites]).  The universe
    keeps what it had, holds the package, and is one the solver accepts; in a
    job that installs, every package that was added has all its dependencies
    in the universe or one that no database knows; and when the answer is
    EPKG_OK, for a package that was not seen before, it has all of them unless
    missing ones are tolerated. *)
Theorem universe_process_completes (fuel : nat) (j : pkg_jobs) (p : pkg) (d : cstring)
  (Hs : sound (j_universe j)) (Hk : known emit C p) (Hd : digest_of p = Some d)
  (Hfuel : (size (dom (ca_uid C)) < fuel)%nat) :
  exists rc j', pkg_jobs_universe_process emit sha256 repo_digest_format fuel j p = Some (rc, j') /\
    (rc = EPKG_OK \/ rc = EPKG_FATAL) /\ set_universe j (j_universe j') = j' /\
    (forall i q, pkg_of (j_universe j) i = Some q -> pkg_of (j_universe j') i = Some q) /\
    is_Some (pkg_jobs_universe_seen (j_universe j') d) /\
    sound (j_universe j') /\ solvable emit (j_universe j') /\ provides_ok (j_universe j') /\
    (installs j -> forall i q, pkg_of (j_universe j) i = None -> pkg_of (j_universe j') i = Some q -> settled j' q) /\
    (installs j -> pkg_jobs_universe_seen (j_universe j) d = None -> rc = EPKG_OK ->
       flag_set (j_flags j) PKG_FLAG_FORCE_MISSING = false ->
       forall x, x ∈ values (deps p) -> in_universe (j_universe j') (dep_uid x)).
Proof.
  destruct (process_item_spec fuel j p false) as (rc & j' & i & d' & H & Hrc & Hst & Hd' & Hl & Hdeps); [|done|].
  { split; [done|]. eapply Nat.le_lt_trans; [|exact Hfuel]. apply subseteq_size. intros x. unfold unseen.
    rewrite elem_of_filter. by intros [_ ?]. }
  assert (d' = d) as -> by congruence. exists rc, j'. unfold pkg_jobs_universe_process. rewrite H. cbn [mbind option_bind].
  pose proof (sound_solvable _ (st_sound _ _ Hst)) as [Hsol Hprov].
  split_and!; [done|done|apply Hst|apply Hst|by eexists|apply Hst|done|done| |done].
  intros Hin k q Hno Hq. apply (st_settled _ _ Hst Hin k q); [|done].
  unfold pkg_of in Hno. apply fmap_None, lookup_ge_None in Hno. done.
Qed.
End correct.

(** *** A concrete database *)

(** Package foo needs bar, of which an old version is installed, and libz.so. *)
Definition sample_row (t : pkg_t) (name version digest : string) (ops : list pkg_op) : pkg :=
  default (pkg_new t) (run_ops false
    (OpSet [(PKG_UNIQUEID, ArgString (Some (str name ++ str "~x/" ++ str name)));
            (PKG_VERSION, ArgString (Some (str version))); (PKG_DIGEST, ArgString (Some (str digest)));
            (PKG_ARCH, ArgString (Some (str "freebsd:10:*"))); (PKG_REPONAME, ArgString (Some (str "main")))] :: ops)
    (pkg_new t)).

Definition sample_foo : pkg := sample_row PKG_REMOTE "foo" "1.0" "d_foo"
  [OpDep (str "bar") (str "x/bar") (str "1.1") false; OpShlibRequired (str "libz.so")].
Definition sample_bar : pkg := sample_row PKG_INSTALLED "bar" "1.0" "d_bar0" [].
Definition sample_new_bar : pkg := sample_row PKG_REMOTE "bar" "1.1" "d_bar1" [].
Definition sample_zlib : pkg := sample_row PKG_REMOTE "zlib" "1.2" "d_zlib" [OpShlibProvided (str "libz.so")].

Definition rows_of (rows : list (string * pkg)) (key : cstring) : list pkg :=
  map snd (List.filter (fun r => bool_decide (key = str (fst r))) rows).

Definition sample_db (providers : list (string * pkg)) : pkgdb := mk_pkgdb
  (fun uid _ _ => Some (from_option (rows_of [("bar~x/bar", sample_bar)]) [sample_bar] uid))
  (fun uid _ _ => Some (from_option (rows_of [("foo~x/foo", sample_foo); ("bar~x/bar", sample_new_bar); ("zlib~x/zlib", sample_zlib)]) [] uid))
  (fun lib _ => Some (rows_of providers lib))
  (fun p _ => p).

Definition sample_catalogue : catalogue := mk_catalogue
  (<[str "d_foo" := str "foo~x/foo"]> (<[str "d_bar0" := str "bar~x/bar"]> (<[str "d_bar1" := str "bar~x/bar"]>
    (<[str "d_zlib" := str "zlib~x/zlib"]> ∅))))
  (<[str "bar~x/bar" := str "d_bar0"]> ∅).

Definition empty_jobs : pkg_jobs := mk_jobs pkg_jobs_universe_new [] [] [] PKG_JOBS_INSTALL 0 0 0.

Lemma elem_rows_of rows key p : p ∈ rows_of rows key -> exists n, key = str n /\ (n, p) ∈ rows.
Proof.
  unfold rows_of. intros ([n q] & -> & Hin%list_elem_of_In)%list_elem_of_fmap.
  apply filter_In in Hin as [Hin Hk]. exists n. split; [by apply bool_decide_eq_true in Hk|by apply list_elem_of_In].
Qed.

Lemma wf_sample_row t name version digest ops : Forall (fun op => op_fits op = true) ops ->
  wf_pkg (sample_row t name version digest ops).
Proof.
  intros H. unfold sample_row. destruct (run_ops false _ _) as [p|] eqn:E; [|apply wf_pkg_new].
  cbn [default]. eapply wf_run; [apply wf_pkg_new| |exact E]. by constructor.
Qed.

Lemma known_sample_row C t name version digest ops : Forall (fun op => op_fits op = true) ops ->
  (exists uid d, let p := sample_row t name version digest ops in
     pkg_uid no_emit p = Some uid /\ pkg_digest no_emit p = Some d /\ ca_uid C !! d = Some uid /\
     (is_local p = true -> ca_installed C !! uid = Some d)) ->
  (let p := sample_row t name version digest ops in
     bool_decide (is_Some (pkg_version no_emit p) /\ is_Some (pkg_get_string no_emit p PKG_ARCH) /\
       pkg_object_find (pkg_get_object no_emit p PKG_ANNOTATIONS) (str "repository") = None /\
       is_Some (pkg_get_string no_emit p PKG_REPONAME))) = true ->
  known no_emit C (sample_row t name version digest ops).
Proof.
  intros Hops Hids (Hv & Ha & Hr & Hn)%bool_decide_eq_true.
  split; [by apply wf_sample_row|done..|intros an; by rewrite Hr|done].
Qed.

Lemma sample_known p : p ∈ [sample_foo; sample_bar; sample_new_bar; sample_zlib] -> known no_emit sample_catalogue p.
Proof.
  intros H. repeat (apply elem_of_cons in H as [->|H]); [..|by apply elem_of_nil in H];
    (apply known_sample_row;
     [repeat constructor
     |eexists _, _; split_and!; [vm_compute; reflexivity|vm_compute; reflexivity|vm_compute; reflexivity
       |vm_compute; intros ?; first [discriminate|reflexivity]]
     |vm_compute; reflexivity]).
Qed.

Lemma rows_of_one n l key : rows_of (map (pair n) l) key = if bool_decide (key = str n) then l else [].
Proof.
  unfold rows_of. induction l as [|p l IH]; cbn [map List.filter fst]; [by case_bool_decide|].
  case_bool_decide; cbn [map snd]; by rewrite IH.
Qed.

Lemma sample_laws : pkgdb_laws (db := sample_db [("libz.so", sample_zlib)]) no_emit sample_catalogue.
Proof.
  split.
  - intros uid flag rows p [= <-] (n & -> & Hin)%elem_rows_of.
    apply list_elem_of_singleton in Hin as [= -> ->]. split; [apply sample_known; set_solver|]. split; vm_compute; reflexivity.
  - intros uid flag rows p [= <-] (n & -> & Hin)%elem_rows_of.
    repeat (apply elem_of_cons in Hin as [[= -> ->]|Hin]); [..|by apply elem_of_nil in Hin];
      (split; [apply sample_known; set_solver|]; split; vm_compute; reflexivity).
  - intros lib flag rows H. change (Some (rows_of (map (pair "libz.so"%string) [sample_zlib]) lib) = Some rows) in H.
    rewrite rows_of_one in H. injection H as <-. case_bool_decide; (split; [|constructor]); [|constructor].
    apply Forall_singleton. split; [apply sample_known; do 3 right; left|vm_compute; reflexivity].
  - done.
Qed.

Lemma sound_new : sound no_emit sample_catalogue pkg_jobs_universe_new.
Proof.
  split; [apply wf_universe_new|done|done|done|apply wf_empty|].
  intros prs pr H. by apply elem_of_nil in H.
Qed.

(** Two packages provide libz.so. *)
Definition sample_ng : pkg := sample_row PKG_REMOTE "ng" "2.1" "d_ng" [OpShlibProvided (str "libz.so")].

Definition wide_db : pkgdb := sample_db [("libz.so", sample_ng); ("libz.so", sample_zlib)].

Definition wide_catalogue : catalogue :=
  mk_catalogue (<[str "d_ng" := str "ng~x/ng"]> (ca_uid sample_catalogue)) (ca_installed sample_catalogue).

Lemma wide_known p : p ∈ [sample_ng; sample_foo; sample_bar; sample_new_bar; sample_zlib] -> known no_emit wide_catalogue p.
Proof.
  intros [->|H]%elem_of_cons.
  - apply known_sample_row; [repeat constructor| |vm_compute; reflexivity].
    eexists _, _; split_and!; [vm_compute; reflexivity|vm_compute; reflexivity|vm_compute; reflexivity|vm_compute; discriminate].
  - eapply known_sub, sample_known, H; [|done]. apply insert_subseteq. vm_compute. reflexivity.
Qed.

Lemma ng_only : only_version no_emit wide_catalogue sample_ng.
Proof.
  eexists _, _. split; [vm_compute; reflexivity|]. split; [vm_compute; reflexivity|]. intros d Hd. cbn [ca_uid wide_catalogue sample_catalogue] in Hd.
  repeat (apply lookup_insert_Some in Hd as [[<- Hd]|[_ Hd]]; [first [reflexivity|vm_compute in Hd; discriminate Hd]|]). by rewrite lookup_empty in Hd.
Qed.

Lemma wide_laws : pkgdb_laws (db := wide_db) no_emit wide_catalogue.
Proof.
  split.
  - intros uid flag rows p H Hp. destruct (dl_query _ _ sample_laws uid flag rows p H Hp) as (_ & ? & ?).
    split; [|done]. injection H as <-. apply elem_rows_of in Hp as (n & _ & Hin).
    apply list_elem_of_singleton in Hin as [= _ ->]. apply wide_known. set_solver.
  - intros uid flag rows p H Hp. destruct (dl_repo_query _ _ sample_laws uid flag rows p H Hp) as (_ & ? & ?).
    split; [|done]. injection H as <-. apply elem_rows_of in Hp as (n & _ & Hin). apply wide_known.
    repeat (apply elem_of_cons in Hin as [[= _ ->]|Hin]); [set_solver..|]. by apply elem_of_nil in Hin.
  - intros lib flag rows H. change (Some (rows_of (map (pair "libz.so"%string) [sample_ng; sample_zlib]) lib) = Some rows) in H.
    rewrite rows_of_one in H. injection H as <-. case_bool_decide; [|split; constructor].
    split; [|apply Forall_singleton, ng_only]. apply Forall_cons. split; [|apply Forall_singleton].
    + split; [apply wide_known; left|vm_compute; reflexivity].
    + split; [apply wide_known; do 4 right; left|vm_compute; reflexivity].
  - done.
Qed.

Lemma wide_sound : sound no_emit wide_catalogue pkg_jobs_universe_new.
Proof. split; [apply wf_universe_new|done|done|done|apply wf_empty|]. intros prs pr H. by apply elem_of_nil in H. Qed.

(** The five packages are brought in, with both providers. *)
Lemma universe_process_completes_witness :
  exists j', pkg_jobs_universe_process (db := wide_db) no_emit (fun _ => []) (fun _ => None) 6
      empty_jobs sample_foo = Some (EPKG_OK, j') /\
    solvable no_emit (j_universe j') /\ length (u_store (j_universe j')) = 5%nat /\
    in_universe (j_universe j') (str "bar~x/bar") /\
    hash_lookup (u_provides (j_universe j')) (str "libz.so") = Some [3; 4]%nat.
Proof.
  destruct (universe_process_completes (db := wide_db) no_emit (fun _ => []) (fun _ => None)
    wide_catalogue wide_laws 6 empty_jobs sample_foo (str "d_foo") wide_sound (wide_known sample_foo ltac:(right; left))
    ltac:(vm_compute; reflexivity) ltac:(vm_compute; lia)) as (rc & j' & H & _ & _ & _ & _ & _ & Hsol & _ & _ & Hdeps).
  assert (option_map (fun r => (fst r, length (u_store (j_universe (snd r))), hash_lookup (u_provides (j_universe (snd r))) (str "libz.so")))
    (pkg_jobs_universe_process (db := wide_db) no_emit (fun _ => []) (fun _ => None) 6
      empty_jobs sample_foo) = Some (EPKG_OK, 5%nat, Some [3; 4]%nat)) as Hc by (vm_compute; reflexivity).
  rewrite H in Hc. injection Hc as Hrc Hlen Hprov. cbn [fst snd] in Hrc, Hlen, Hprov. subst rc.
  exists j'. split; [exact H|]. split; [exact Hsol|]. split; [exact Hlen|]. split; [|exact Hprov].
  apply (Hdeps ltac:(by left) ltac:(vm_compute; reflexivity) eq_refl ltac:(vm_compute; reflexivity)
    (new_dep (str "bar") (str "x/bar") (str "1.1") false)).
  vm_compute. left.
Defined.

(** When the first provider is an upgrade of an installed package, the row of
    the second is read into it, in the universe. *)
Example second_provider_overwrites :
  pkg_jobs_universe_process (db := sample_db [("libz.so", sample_new_bar); ("libz.so", sample_zlib)]) no_emit (fun _ => [])
    (fun _ => None) 5 empty_jobs (sample_row PKG_REMOTE "foo" "1.0" "d_foo" [OpShlibRequired (str "libz.so")]) = None.
Proof. vm_compute. reflexivity. Qed.
