(* ===== verification/Schedule.v ===== *)
(** * The order of the jobs (libpkg/pkg_jobs.c)

    The solved jobs are given priorities through the universe and sorted by
    them: a package is installed after its dependencies and after the installed
    packages it conflicts with are gone, and deleted after the packages that
    depend on it.  The execution of the jobs is in [Apply]. *)
From Stdlib Require Import Sorted.
From S2P Require Import Prelude CString CSort UtHash Pkg Universe UniverseBuild.

(** ** Priorities of the jobs *)

Definition priority_of (u : universe) (i : nat) : option Z := ui_priority <$> u_store u !! i.

(** [req->items\[1\]->pkg->conflicts != NULL] of an upgrade. *)
Definition conflicting_upgrade (u : universe) (req : pkg_solved) : option bool :=
  match s_type req with
  | PKG_SOLVED_UPGRADE =>
      i1 ← s_item1 req; p ← pkg_of u i1; Some (bool_decide (t_head (conflicts p) <> None))
  | _ => Some false
  end.

Definition mark_deleted (req : pkg_solved) : pkg_solved :=
  mk_solved (s_item0 req) (s_item1 req) (s_type req) true.

(** The job that deletes the installed package of an upgrade first. *)
Definition upgrade_remove (i1 : nat) : pkg_solved := mk_solved i1 None PKG_SOLVED_UPGRADE_REMOVE false.

(** An item whose priority is zero is given one. *)
Definition raise_item (u : universe) (i : nat) (ty : pkg_priority_update_type) : option universe :=
  pri ← priority_of u i;
  if pri =? 0 then pkg_jobs_update_universe_priority u i ty else Some u.

(** [req] is the [k]th job. *)
Definition pkg_jobs_set_request_priority (j : pkg_jobs) (k : nat) : option (pkg_error_t * pkg_jobs) :=
  req ← j_jobs j !! k;
  conflicting ← conflicting_upgrade (j_universe j) req;
  if conflicting : bool then
    i1 ← s_item1 req;
    pri0 ← priority_of (j_universe j) (s_item0 req);
    u ← (if pri0 =? 0 then pkg_jobs_update_conflict_priority (j_universe j) req else Some (j_universe j));
    pri0 ← priority_of u (s_item0 req);
    pri1 ← priority_of u i1;
    let j := set_universe j u in
    if (pri0 <? pri1) && negb (already_deleted req) then
      Some (EPKG_CONFLICT,
        set_jobs j (<[k := mark_deleted req]> (j_jobs j) ++ [upgrade_remove i1]) (S (j_count j)))
    else Some (EPKG_OK, j)
  else
    u ← raise_item (j_universe j) (s_item0 req)
          (match s_type req with
           | PKG_SOLVED_DELETE => PKG_PRIORITY_UPDATE_DELETE
           | _ => PKG_PRIORITY_UPDATE_REQUEST
           end);
    Some (EPKG_OK, set_universe j u).

(** *** The order *)

Definition job_priority (u : universe) (r : pkg_solved) : Z := default 0 (priority_of u (s_item0 r)).

Definition is_delete (r : pkg_solved) : bool := match s_type r with PKG_SOLVED_DELETE => true | _ => false end.

Definition pkg_jobs_sort_priority (u : universe) (r1 r2 : pkg_solved) : Z :=
  if job_priority u r1 =? job_priority u r2 then
    if is_delete r1 && negb (is_delete r2) then -1
    else if is_delete r2 && negb (is_delete r1) then 1
    else 0
  else job_priority u r2 - job_priority u r1.

(** The first loop. *)
Definition reset_priorities (u : universe) (jobs : list pkg_solved) : option universe :=
  fold_opt (fun u req =>
    _ ← u_store u !! s_item0 req;
    let u := set_priority u (s_item0 req) 0 in
    match s_item1 req with
    | None => Some u
    | Some i => _ ← u_store u !! i; Some (set_priority u i 0)
    end) jobs u.

(** The second loop, which ends at the first conflict. *)
Fixpoint set_request_priorities (ks : list nat) (j : pkg_jobs) : option (pkg_error_t * pkg_jobs) :=
  match ks with
  | [] => Some (EPKG_OK, j)
  | k :: ks =>
      '(rc, j) ← pkg_jobs_set_request_priority j k;
      match rc with EPKG_CONFLICT => Some (rc, j) | _ => set_request_priorities ks j end
  end.

(** From [iter_again] to the sort. *)
Fixpoint iter_again (fuel : nat) (j : pkg_jobs) : option pkg_jobs :=
  match fuel with
  | O => None
  | S fuel =>
      u ← reset_priorities (j_universe j) (j_jobs j);
      '(rc, j) ← set_request_priorities (seq 0 (length (j_jobs j))) (set_universe j u);
      match rc with EPKG_CONFLICT => iter_again fuel j | _ => Some j end
  end.

Definition sort_jobs (j : pkg_jobs) : pkg_jobs :=
  set_jobs j (ll_sort (pkg_jobs_sort_priority (j_universe j)) (j_jobs j)) (j_count j).

(** Every turn but the last splits an upgrade. *)
Definition pkg_jobs_set_priorities (j : pkg_jobs) : option pkg_jobs :=
  j ← iter_again (S (length (j_jobs j))) j; Some (sort_jobs j).

(** *** Iteration *)

(** pkg_jobs_iter; [iter] is the position of a job, [Some 0] also means the end.
    The answer is the new package, the old one, the type and [*iter]. *)
Definition pkg_jobs_iter (j : pkg_jobs) (iter : option nat)
  : option (option (nat * option nat * pkg_solved_t * option nat)) :=
  match j_jobs j, iter with
  | [], _ | _, Some O => Some None
  | jobs, _ =>
      s ← jobs !! default O iter;
      let k := S (default O iter) in
      Some (Some (s_item0 s, s_item1 s, s_type s, Some (if (k <? length jobs)%nat then k else O)))
  end.

(** ** What the priorities promise *)

Section correct.
Context (emit : ucl -> cstring).

(** An item that reached the recursion limit: nothing is promised then. *)
Definition saturated (u : universe) : Prop := exists i a, priority_of u i = Some a /\ RECURSION_LIMIT <= a.

Lemma saturated_exists u : saturated u <-> Exists (fun it => RECURSION_LIMIT <= ui_priority it) (u_store u).
Proof.
  unfold saturated, priority_of. rewrite Exists_exists. split.
  - intros (i & a & (x & Hx & ->)%fmap_Some & Hl). exists x. split; [by eapply list_elem_of_lookup_2|done].
  - intros (x & [i Hi]%list_elem_of_lookup_1 & Hl). exists i, (ui_priority x). by rewrite Hi.
Qed.

#[local] Instance saturated_dec u : Decision (saturated u).
Proof. refine (cast_if (decide (Exists (fun it => RECURSION_LIMIT <= ui_priority it) (u_store u)))); by rewrite saturated_exists. Defined.

(** [x] goes before [y]. *)
Definition above (u : universe) (x y : nat) : Prop :=
  exists a b, priority_of u x = Some a /\ priority_of u y = Some b /\ b < a.

(** What propagation of type [ty] raises, for deletions ([del]) or the rest:
    installed packages or remote ones. *)
Section kind.
Context (del : bool).

Definition tracked (p : pkg) : bool := Bool.eqb (is_local p) del.

(** The calls that are made: only deletions for deletions. *)
Definition admissible (ty : pkg_priority_update_type) : Prop := del = true -> ty = PKG_PRIORITY_UPDATE_DELETE.

Definition predecessors (p : pkg) : table pkg_dep := if del then rdeps p else deps p.

(** Every item that has to go before the item [x] of [p] does. *)
Definition ordered (u : universe) (x : nat) (p : pkg) : Prop :=
  saturated u \/
  ((forall d y q, d ∈ values (predecessors p) -> y ∈ items_of u (dep_uid d) -> pkg_of u y = Some q ->
      (del = true -> is_local q = true) -> above u y x) /\
   (is_local p = false ->
    forall c y q, c ∈ values (conflicts p) -> y ∈ items_of u (c_uniqueid c) -> pkg_of u y = Some q ->
      is_local q = true -> above u y x)).

(** From [u] to [u']: priorities grow, and the item of a tracked package whose
    priority changed is ordered. *)
Record advances (u u' : universe) : Prop := mk_advances {
  ad_raised : raised u u';
  ad_ordered : forall x p, pkg_of u x = Some p -> tracked p = true ->
    priority_of u' x = priority_of u x \/ ordered u' x p }.

Lemma raised_priority u u' i a : raised u u' -> priority_of u i = Some a ->
  exists a', priority_of u' i = Some a' /\ a <= a'.
Proof.
  intros (_ & _ & _ & _ & _ & _ & H) (x & Hx & ->)%fmap_Some. destruct (H i x Hx) as (x' & Hx' & Hle & _).
  exists (ui_priority x'). split; [|done]. unfold priority_of. by rewrite Hx'.
Qed.

Lemma raised_saturated u u' : raised u u' -> saturated u -> saturated u'.
Proof. intros Hr (i & a & Ha & Hl). destruct (raised_priority u u' i a Hr Ha) as (b & Hb & Hle). exists i, b. split; [done|lia]. Qed.

Lemma raised_above u u' x y : raised u u' -> priority_of u' y = priority_of u y -> above u x y -> above u' x y.
Proof.
  intros Hr Hy (a & b & Ha & Hb & Hlt). destruct (raised_priority u u' x a Hr Ha) as (a' & Ha' & Hle).
  exists a', b. split_and!; [done|congruence|lia].
Qed.

Lemma raised_items_of u u' uid : raised u u' -> items_of u' uid = items_of u uid.
Proof. intros (H & _). unfold items_of, pkg_jobs_universe_find. by rewrite H. Qed.

Lemma raised_pkg_of u u' i : raised u u' -> pkg_of u' i = pkg_of u i.
Proof. intros (_ & _ & _ & _ & _ & H & _). apply H. Qed.

Lemma raised_ordered u u' x p : raised u u' -> priority_of u' x = priority_of u x -> ordered u x p -> ordered u' x p.
Proof.
  intros Hr Hx [Hs|[H1 H2]]; [left; by eapply raised_saturated|right]. split.
  - intros d y q Hd Hy Hq Hl. rewrite (raised_items_of u u') in Hy by done. rewrite (raised_pkg_of u u') in Hq by done.
    eapply raised_above; [done|done|]. by eapply H1.
  - intros Hp c y q Hc Hy Hq Hl. rewrite (raised_items_of u u') in Hy by done. rewrite (raised_pkg_of u u') in Hq by done.
    eapply raised_above; [done|done|]. by eapply H2.
Qed.

(** What is ordered stays ordered. *)
Lemma advances_ordered u u' x p : advances u u' -> pkg_of u x = Some p -> tracked p = true -> ordered u x p ->
  ordered u' x p.
Proof.
  intros [Hr Ha] Hx Ht Ho. destruct (Ha x p Hx Ht) as [He|]; [|done]. by eapply raised_ordered.
Qed.

#[local] Instance raised_preorder : PreOrder raised.
Proof. split; [exact raised_refl|exact raised_trans]. Qed.

Lemma advances_refl u : advances u u.
Proof. split; [apply raised_refl|by left]. Qed.

#[local] Instance advances_preorder : PreOrder advances.
Proof.
  split; [exact advances_refl|]. intros u1 u2 u3 H12 [Hr2 H2]. split; [transitivity u2; [apply H12|done]|].
  intros x p Hx Ht. assert (pkg_of u2 x = Some p) as Hx2 by (rewrite (raised_pkg_of u1 u2) by apply H12; done).
  destruct (H2 x p Hx2 Ht) as [->|]; [|by right].
  destruct (ad_ordered _ _ H12 x p Hx Ht) as [->|Ho]; [by left|].
  destruct (H2 x p Hx2 Ht) as [He|]; right; [by eapply raised_ordered|done].
Qed.

(** Packages that propagation of a type skips keep their priority. *)
Record moves (ty : pkg_priority_update_type) (u u' : universe) : Prop := mk_moves {
  mv_advances : advances u u';
  mv_skipped : forall x p, pkg_of u x = Some p -> skips_remote ty p = true -> priority_of u' x = priority_of u x }.

#[local] Instance moves_preorder ty : PreOrder (moves ty).
Proof.
  split; [by split|]. intros u1 u2 u3 [A1 S1] [A2 S2]. split; [by transitivity u2|].
  intros x p Hx Hs. rewrite (S2 x p); [by eapply S1| |done]. by rewrite (raised_pkg_of u1 u2) by apply A1.
Qed.

Definition at_least (u : universe) (x : nat) (pri : Z) : Prop := exists a, priority_of u x = Some a /\ pri <= a.

(** What a call of pkg_jobs_update_universe_item_priority does. *)
Record raises (u : universe) (item : nat) (pri : Z) (ty : pkg_priority_update_type) (u' : universe) : Prop := mk_raises {
  rs_moves : moves ty u u';
  rs_head : forall p, pkg_of u item = Some p -> skips_remote ty p = false -> pri <= RECURSION_LIMIT ->
    at_least u' item pri /\
    (forall a, priority_of u item = Some a -> a <= pri -> tracked p = true -> ordered u' item p) }.

Lemma at_least_raised u u' x pri : raised u u' -> at_least u x pri -> at_least u' x pri.
Proof. intros Hr (a & Ha & Hl). destruct (raised_priority u u' x a Hr Ha) as (b & Hb & Hle). exists b. split; [done|lia]. Qed.

Lemma moves_wf ty u u' : moves ty u u' -> wf_universe emit u -> wf_universe emit u'.
Proof. intros Hm. apply raised_wf, Hm. Qed.

Lemma raises_none u item pri ty : RECURSION_LIMIT < pri -> raises u item pri ty u.
Proof. intros H. split; [reflexivity|lia]. Qed.

(** Propagation along tracked packages follows their predecessors. *)
Lemma deps_func_tracked ty p : admissible ty -> tracked p = true -> skips_remote ty p = false ->
  deps_func ty p = hash_iter (predecessors p).
Proof.
  unfold admissible, tracked, skips_remote, deps_func, predecessors. intros Ha Ht Hs.
  destruct del; [by rewrite Ha|]. destruct (is_local p); [done|]. by destruct ty.
Qed.

Section body.
Context (rec : universe -> nat -> Z -> pkg_priority_update_type -> option universe).
Context (Hrec : forall u i q ty u', wf_universe emit u -> admissible ty -> rec u i q ty = Some u' -> raises u i q ty u').

Lemma raise_deps_spec pri ty ds u u' : wf_universe emit u -> admissible ty -> pri <= RECURSION_LIMIT ->
  raise_deps rec pri ty ds u = Some u' ->
  wf_universe emit u' /\ moves ty u u' /\
  forall d, d ∈ ds -> forall y q, y ∈ items_of u' (dep_uid d) -> pkg_of u' y = Some q -> skips_remote ty q = false ->
    pri = RECURSION_LIMIT \/ at_least u' y (pri + 1).
Proof.
  intros Hw Ha Hlim. unfold raise_deps.
  set (Q := fun v y => forall q, pkg_of v y = Some q -> skips_remote ty q = false -> pri = RECURSION_LIMIT \/ at_least v y (pri + 1)).
  assert (forall v v' y, moves ty v v' -> Q v y -> Q v' y) as Hst.
  { intros v v' y Hm HQ q Hq Hs. rewrite (raised_pkg_of v v') in Hq by apply Hm.
    destruct (HQ q Hq Hs); [by left|right]. eapply at_least_raised; [apply Hm|done]. }
  intros H. eapply (fold_opt_each (wf_universe emit) (moves ty)
    (fun v d => forall y, y ∈ items_of v (dep_uid d) -> Q v y)) in H as (Hw' & Hm & Hall); [..|done].
  - split_and!; [done|done|]. intros d Hd y q Hy. by apply (Hall d Hd y Hy).
  - intros v d v' _ Hv Hf. pose proof Hf as Hf'.
    eapply (fold_opt_each (wf_universe emit) (moves ty) Q) in Hf' as (Hw' & Hm & Hall); [..|done].
    + split_and!; [done|done|]. intros y Hy. rewrite (raised_items_of v v') in Hy by apply Hm. by apply Hall.
    + intros w y w' _ Hw1 Hb. destruct (u_store w !! y) as [c|] eqn:Ec; [|done]. cbn [mbind option_bind] in Hb.
      destruct (Z.ltb_spec (ui_priority c) (pri + 1)) as [Hlt|Hge].
      * destruct (Hrec _ _ _ _ _ Hw1 Ha Hb) as [Hm Hh]. split_and!; [by eapply moves_wf|done|]. intros q Hq Hs.
        rewrite (raised_pkg_of w w') in Hq by apply Hm.
        destruct (decide (pri = RECURSION_LIMIT)) as [|Hne]; [by left|right]. apply (Hh q Hq Hs). lia.
      * injection Hb as <-. split_and!; [done|reflexivity|]. intros q _ _. right. exists (ui_priority c).
        split; [|done]. unfold priority_of. by rewrite Ec.
    + intros w w' y _ _. apply Hst.
  - intros v v' d _ _ Hm HQ y Hy. rewrite (raised_items_of v v') in Hy by apply Hm. eapply Hst; [done|by apply HQ].
Qed.

Lemma raise_conflicts_spec it p cs u u' : wf_universe emit u -> del = false -> pkg_of u it = Some p -> is_local p = false ->
  raise_conflicts rec it cs u = Some u' ->
  wf_universe emit u' /\ moves PKG_PRIORITY_UPDATE_CONFLICT u u' /\
  forall c, c ∈ cs -> forall y q, y ∈ items_of u' (c_uniqueid c) -> pkg_of u' y = Some q -> is_local q = true ->
    saturated u' \/ above u' y it.
Proof.
  intros Hw Hdel Hit Hp. unfold raise_conflicts. set (ty := PKG_PRIORITY_UPDATE_CONFLICT).
  set (I := fun v => wf_universe emit v /\ pkg_of v it = Some p).
  set (Q := fun v y => forall q, pkg_of v y = Some q -> is_local q = true -> saturated v \/ above v y it).
  assert (skips_remote ty p = true) as Hskip by (unfold skips_remote; by rewrite Hp).
  assert (forall v v' y, I v -> moves ty v v' -> Q v y -> Q v' y) as Hst.
  { intros v v' y [_ Hv] Hm HQ q Hq Hl. rewrite (raised_pkg_of v v') in Hq by apply Hm.
    destruct (HQ q Hq Hl); [left; eapply raised_saturated; [apply Hm|done]|right].
    eapply raised_above; [apply Hm| |done]. by eapply (mv_skipped _ _ _ Hm). }
  assert (forall v v', I v -> moves ty v v' -> I v') as HI.
  { intros v v' [Hv Hvp] Hm. split; [by eapply moves_wf|]. by rewrite (raised_pkg_of v v') by apply Hm. }
  intros H. eapply (fold_opt_each I (moves ty) (fun v c => forall y, y ∈ items_of v (c_uniqueid c) -> Q v y))
    in H as (Hw' & Hm & Hall); [..|done].
  - split_and!; [apply Hw'|done|]. intros c Hc y q Hy. by apply (Hall c Hc y Hy).
  - intros v c v' _ Hv Hf. pose proof Hf as Hf'.
    eapply (fold_opt_each I (moves ty) Q) in Hf' as (Hw' & Hm & Hall); [..|done].
    + split_and!; [done..|]. intros y Hy. rewrite (raised_items_of v v') in Hy by apply Hm. by apply Hall.
    + intros w y w' _ Hw1 Hb. destruct (u_store w !! it) as [i|] eqn:Ei; [|done].
      destruct (u_store w !! y) as [k|] eqn:Ek; [|done]. cbn [mbind option_bind] in Hb.
      assert (pkg_of w y = Some (ui_pkg k)) as Hpy by (unfold pkg_of; by rewrite Ek).
      destruct (is_local (ui_pkg k)) eqn:El; cbn [andb] in Hb.
      2:{ injection Hb as <-. split_and!; [done|reflexivity|]. intros q Hq Hl. congruence. }
      destruct (Z.leb_spec (ui_priority k) (ui_priority i)) as [Hle|Hgt].
      * assert (admissible ty) as Hadm by (unfold admissible; by rewrite Hdel).
        destruct (Hrec _ _ _ _ _ (proj1 Hw1) Hadm Hb) as [Hm Hh]. split_and!; [by eapply HI|done|]. intros q Hq Hl.
        assert (priority_of w' it = Some (ui_priority i)) as Hi'.
        { rewrite (mv_skipped _ _ _ Hm it p) by (done || apply Hw1). unfold priority_of. by rewrite Ei. }
        destruct (Z.le_gt_cases RECURSION_LIMIT (ui_priority i)) as [Hsat|Hlt]; [left; by eexists _, _|right].
        destruct (Hh _ Hpy) as [(a & Ha & Hge) _]; [unfold skips_remote; by rewrite El|lia|].
        exists a, (ui_priority i). split_and!; [done|done|lia].
      * injection Hb as <-. split_and!; [done|reflexivity|]. intros q _ _. right.
        exists (ui_priority k), (ui_priority i). unfold priority_of. rewrite Ei, Ek. split_and!; [done..|lia].
    + intros w w' y Hw1 _. by apply Hst.
  - intros v v' d Hv _ Hm HQ y Hy. rewrite (raised_items_of v v') in Hy by apply Hm. eapply Hst; [done|done|by apply HQ].
Qed.

Lemma max_priority_from u ds m0 m : max_priority u ds m0 = Some m ->
  m = m0 \/ exists y a, priority_of u y = Some a /\ m = a + 1.
Proof.
  set (I := fun m => m = m0 \/ exists y a, priority_of u y = Some a /\ m = a + 1).
  unfold max_priority. apply (fold_opt_keeps I); [|by left]. intros k d k' _ Hk.
  apply (fold_opt_keeps I); [|done]. intros v y v' _ Hv. destruct (u_store u !! y) as [c|] eqn:E; [|done].
  cbn. intros [= <-]. destruct (v <=? ui_priority c); [|done]. right. exists y, (ui_priority c).
  unfold priority_of. by rewrite E.
Qed.

Lemma priority_set u it x pri y : u_store u !! it = Some x ->
  priority_of (set_priority u it pri) y = if decide (y = it) then Some pri else priority_of u y.
Proof.
  intros Hx. unfold priority_of, set_priority. cbn [u_store]. destruct (decide (y = it)) as [->|Hne].
  - by rewrite list_lookup_alter_eq, Hx.
  - by rewrite list_lookup_alter_ne.
Qed.

(** The item on its way from the assignment of its priority on. *)
Lemma moves_set ty u it x pri u2 : u_store u !! it = Some x -> skips_remote ty (ui_pkg x) = false ->
  ui_priority x <= pri <= RECURSION_LIMIT -> moves ty (set_priority u it pri) u2 ->
  (tracked (ui_pkg x) = true -> priority_of u2 it = Some pri -> ordered u2 it (ui_pkg x)) ->
  moves ty u u2 /\ at_least u2 it pri /\ (tracked (ui_pkg x) = true -> ordered u2 it (ui_pkg x)).
Proof.
  intros Hx Hskip Hpri Hm Hord.
  pose proof (raised_set u it x pri Hx Hpri) as Hset.
  assert (pkg_of u it = Some (ui_pkg x)) as Hp by (unfold pkg_of; by rewrite Hx).
  pose proof (priority_set u it x pri it Hx) as Hpi. rewrite decide_True in Hpi by done.
  assert (tracked (ui_pkg x) = true -> ordered u2 it (ui_pkg x)) as Hit.
  { intros Ht. destruct (ad_ordered _ _ (mv_advances _ _ _ Hm) it (ui_pkg x)) as [He|]; [|done| |done].
    - by rewrite (raised_pkg_of u) by done.
    - apply Hord; [done|congruence]. }
  split_and!; [|eapply at_least_raised; [apply Hm|by exists pri]|done].
  split; [split|].
  - eapply raised_trans; [exact Hset|apply Hm].
  - intros y p Hy Ht. destruct (decide (y = it)) as [->|Hne].
    + assert (p = ui_pkg x) as -> by congruence. right. by apply Hit.
    + destruct (ad_ordered _ _ (mv_advances _ _ _ Hm) y p) as [He|]; [by rewrite (raised_pkg_of u) by done|done| |by right].
      left. rewrite He, (priority_set u it x pri y Hx). by rewrite decide_False.
  - intros y p Hy Hs. assert (y <> it) as Hne by (intros ->; congruence).
    rewrite (mv_skipped _ _ _ Hm y p); [|by rewrite (raised_pkg_of u) by done|done].
    rewrite (priority_set u it x pri y Hx). by rewrite decide_False.
Qed.

(** The dependencies and the conflicts are done. *)
Lemma done_ordered ty pri u2 it p ds : admissible ty -> tracked p = true -> skips_remote ty p = false ->
  deps_func ty p = Some ds -> wf_pkg p -> priority_of u2 it = Some pri ->
  (forall d, d ∈ ds -> forall y q, y ∈ items_of u2 (dep_uid d) -> pkg_of u2 y = Some q -> skips_remote ty q = false ->
    pri = RECURSION_LIMIT \/ at_least u2 y (pri + 1)) ->
  (is_local p = false -> forall c, c ∈ values (conflicts p) -> forall y q, y ∈ items_of u2 (c_uniqueid c) ->
    pkg_of u2 y = Some q -> is_local q = true -> saturated u2 \/ above u2 y it) ->
  ordered u2 it p.
Proof.
  intros Ha Ht Hs Hds Hp Hpri Hdeps Hconf.
  destruct (decide (pri = RECURSION_LIMIT)) as [->|Hne]; [left; by exists it, RECURSION_LIMIT|].
  rewrite (deps_func_tracked ty p) in Hds by done.
  assert (ds = values (predecessors p)) as ->.
  { rewrite hash_iter_wf in Hds by (unfold predecessors; destruct del; apply Hp). by injection Hds. }
  assert (forall q, (del = true -> is_local q = true) -> skips_remote ty q = false) as Hskip.
  { intros q Hq. unfold skips_remote. unfold tracked in Ht. unfold admissible in Ha. unfold skips_remote in Hs.
    destruct del; [by rewrite Hq|]. destruct (is_local p); [done|]. cbn [negb andb] in Hs. rewrite Hs. apply andb_false_r. }
  destruct (decide (saturated u2)) as [|Hns]; [by left|right]. split.
  - intros d y q Hd Hy Hq Hl. destruct (Hdeps d Hd y q Hy Hq (Hskip q Hl)) as [|(a & Hya & Hle)]; [done|].
    exists a, pri. split_and!; [done|done|lia].
  - intros Hrem c y q Hc Hy Hq Hl. by destruct (Hconf Hrem c Hc y q Hy Hq Hl).
Qed.

Lemma raise_chain_spec pri ty l u u' : wf_universe emit u -> admissible ty -> pri <= RECURSION_LIMIT ->
  raise_chain rec pri ty l u = Some u' ->
  moves ty u u' /\ forall it rest p, l = it :: rest -> pkg_of u it = Some p -> skips_remote ty p = false ->
    at_least u' it pri /\
    (forall a, priority_of u it = Some a -> a <= pri -> tracked p = true -> ordered u' it p).
Proof.
  intros Hw Ha Hlim. revert u Hw; induction l as [|it l IH]; intros u Hw.
  { intros [= <-]. by split. }
  cbn [raise_chain]. destruct (u_store u !! it) as [x|] eqn:Ex; [|done]. cbn [mbind option_bind].
  assert (pkg_of u it = Some (ui_pkg x)) as Hp by (unfold pkg_of; by rewrite Ex).
  assert (priority_of u it = Some (ui_priority x)) as Hpri by (unfold priority_of; by rewrite Ex).
  destruct (skips_remote ty (ui_pkg x)) eqn:Es.
  { intros [Hm _]%IH; [|done]. split; [done|]. intros ? ? p [= <- <-] Hp' Hs. congruence. }
  destruct (Z.ltb_spec pri (ui_priority x)) as [Hlt|Hle].
  { intros [Hm _]%IH; [|done]. split; [done|]. intros ? ? p [= <- <-] Hp' Hs. split; [|intros a Ha' Hal _; simplify_eq; lia].
    eapply at_least_raised; [apply Hm|]. exists (ui_priority x). split; [done|lia]. }
  assert (forall u2, (wf_universe emit u2 /\ moves ty u u2 /\ at_least u2 it pri /\
      (tracked (ui_pkg x) = true -> ordered u2 it (ui_pkg x))) -> moves ty u2 u' ->
    moves ty u u' /\ forall it' rest p, it :: l = it' :: rest -> pkg_of u it' = Some p -> skips_remote ty p = false ->
      at_least u' it' pri /\ (forall a, priority_of u it' = Some a -> a <= pri -> tracked p = true -> ordered u' it' p)) as Hdone.
  { intros u2 (Hw2 & Hm & Hal & Ho) Hm2. split; [by transitivity u2|]. intros ? ? p [= <- <-] Hp' _.
    assert (p = ui_pkg x) as -> by congruence. split; [eapply at_least_raised; [apply Hm2|done]|].
    intros _ _ _ Ht. eapply advances_ordered; [apply Hm2| |done|by apply Ho]. by rewrite (raised_pkg_of u u2) by apply Hm. }
  destruct (deps_func ty (ui_pkg x)) as [ds|] eqn:Eds; [|done]. cbn [mbind option_bind].
  assert (wf_universe emit (set_priority u it pri)) as Hw0 by (eapply raised_wf; [by eapply raised_set|done]).
  destruct (raise_deps rec pri ty ds (set_priority u it pri)) as [u1|] eqn:E1; [|done]. cbn [mbind option_bind].
  apply raise_deps_spec in E1 as (Hw1 & Hm1 & Hdeps); [|done..].
  destruct (rdeps_func ty (ui_pkg x)) as [rds|]; [|done]. cbn [mbind option_bind].
  destruct (max_priority u1 rds pri) as [m|] eqn:Em; [|done]. cbn [mbind option_bind].
  assert (pkg_of u1 it = Some (ui_pkg x)) as Hp1.
  { rewrite (raised_pkg_of (set_priority u it pri)) by apply Hm1. by rewrite (raised_pkg_of u) by by eapply raised_set. }
  assert (wf_pkg (ui_pkg x)) as Hwp by by eapply (wu_pkgs _ _ Hw).
  destruct (Z.eqb_spec m pri) as [->|Hne]; cbn [negb].
  - destruct (is_local (ui_pkg x)) eqn:El; cbn [mbind option_bind].
    + intros H2. pose proof (proj1 (IH u1 Hw1 H2)) as Hm2.
      apply (Hdone u1); [|done]. split; [done|]. apply (moves_set ty u it x pri u1); [done|done|lia|done|].
      intros Ht Hpri1. eapply done_ordered; [done..|]. by rewrite El.
    + destruct (pkg_conflicts (ui_pkg x)) as [cs|] eqn:Ecs; [|done]. cbn [mbind option_bind].
      destruct (raise_conflicts rec it cs u1) as [u2|] eqn:E2; [|done]. cbn [mbind option_bind].
      assert (cs = values (conflicts (ui_pkg x))) as ->.
      { unfold pkg_conflicts in Ecs. rewrite hash_iter_wf in Ecs by apply Hwp. by injection Ecs. }
      assert (del = false) as Hdel.
      { destruct del eqn:Ed; [|done]. unfold skips_remote in Es. unfold admissible in Ha. by rewrite El, Ha in Es. }
      apply (raise_conflicts_spec it (ui_pkg x)) in E2 as (Hw2 & Hm2 & Hconf); [|done..].
      assert (moves ty u1 u2) as Hm2'.
      { split; [apply Hm2|]. intros y p _ Hs. unfold skips_remote in Es, Hs. rewrite El in Es. cbn [negb andb] in Es.
        rewrite Es in Hs. by rewrite andb_false_r in Hs. }
      intros H3. pose proof (proj1 (IH u2 Hw2 H3)) as Hm3.
      apply (Hdone u2); [|done]. split; [done|]. apply (moves_set ty u it x pri u2); [done|done|lia|by transitivity u1|].
      intros Ht Hpri2. eapply done_ordered; [done..| |by intros _].
      intros d Hd y q Hy Hq Hs. rewrite (raised_items_of u1 u2) in Hy by apply Hm2. rewrite (raised_pkg_of u1 u2) in Hq by apply Hm2.
      destruct (Hdeps d Hd y q Hy Hq Hs); [by left|right; eapply at_least_raised; [apply Hm2|done]].
  - intros H2. destruct (Hrec _ _ _ _ _ Hw1 Ha H2) as [Hm2 Hh].
    assert (moves ty u u' /\ at_least u' it pri /\ (tracked (ui_pkg x) = true -> ordered u' it (ui_pkg x))) as (Hm & Hal & Ho).
    { apply (moves_set ty u it x pri u'); [done|done|lia|by transitivity u1|]. intros Ht Hpri2.
      destruct (max_priority_some emit u1 rds pri Hw1) as (m' & Hm' & Hge). assert (m' = m) as -> by congruence.
      destruct (Z.le_gt_cases m RECURSION_LIMIT) as [Hl|Hg].
      - destruct (Hh _ Hp1 Es Hl) as [(a & Ha' & Hge') _]. assert (a = pri) as -> by congruence. lia.
      - left. eapply raised_saturated; [apply Hm2|].
        destruct (max_priority_from _ _ _ _ Em) as [|(y & a & Hy & ->)]; [done|]. exists y, a. split; [done|lia]. }
    split; [done|]. intros ? ? p [= <- <-] Hp' _. assert (p = ui_pkg x) as -> by congruence. split; [done|].
    intros _ _ _ Ht. by apply Ho.
Qed.
End body.

Lemma from_item_head i chain : i ∈ chain -> exists rest, from_item i chain = i :: rest.
Proof.
  induction chain as [|c chain IH]; [by intros ?%elem_of_nil|]. intros [->|Hi]%elem_of_cons; cbn.
  - rewrite Nat.eqb_refl. by eexists.
  - destruct (Nat.eqb_spec i c) as [->|]; [by eexists|by apply IH].
Qed.

Lemma update_item_raises fuel u item pri ty u' : wf_universe emit u -> admissible ty ->
  update_item_priority fuel u item pri ty = Some u' -> raises u item pri ty u'.
Proof.
  revert u item pri ty u'; induction fuel as [|fuel IH]; intros u item pri ty u' Hw Ha; [done|].
  cbn [update_item_priority]. destruct (Z.ltb_spec RECURSION_LIMIT pri) as [Hg|Hl].
  { intros [= <-]. by apply raises_none. }
  destruct (chain_of u item) as [chain|] eqn:Ec; [|done]. cbn [mbind option_bind].
  intros [Hm Hh]%raise_chain_spec; [|intros; by eapply IH|done..]. split; [done|]. intros p Hp Hs _.
  destruct (chain_of_item emit u item p Hw Hp) as (chain' & uid & Hc & Hi & _). assert (chain' = chain) as -> by congruence.
  destruct (from_item_head item chain Hi) as [rest Hr]. by apply (Hh item rest p).
Qed.

(** *** One turn *)

Lemma universe_priority_advances u i ty u' : wf_universe emit u -> admissible ty ->
  pkg_jobs_update_universe_priority u i ty = Some u' ->
  advances u u' /\ forall p, pkg_of u i = Some p -> skips_remote ty p = false -> tracked p = true ->
    priority_of u i = Some 0 -> ordered u' i p.
Proof.
  intros Hw Ha [Hm Hh]%update_item_raises; [|done..]. split; [apply Hm|]. intros p Hp Hs Ht Hz.
  destruct (Hh p Hp Hs ltac:(unfold RECURSION_LIMIT; lia)) as [_ Ho]. by apply (Ho 0).
Qed.

(** From a universe [u0] where the item has priority zero. *)
Lemma raise_item_advances u0 u i ty u' : wf_universe emit u -> admissible ty -> advances u0 u ->
  priority_of u0 i = Some 0 -> raise_item u i ty = Some u' ->
  advances u u' /\ forall p, pkg_of u i = Some p -> skips_remote ty p = false -> tracked p = true -> ordered u' i p.
Proof.
  intros Hw Ha Had Hz. unfold raise_item. destruct (priority_of u i) as [pri|] eqn:Ep; [|done]. cbn [mbind option_bind].
  destruct (Z.eqb_spec pri 0) as [->|Hne].
  - intros [Ha' Ho]%universe_priority_advances; [|done..]. split; [done|]. intros p Hp Hs Ht. by apply Ho.
  - intros [= <-]. split; [reflexivity|]. intros p Hp Hs Ht.
    destruct (ad_ordered _ _ Had i p) as [He|]; [by rewrite <- (raised_pkg_of u0 u) by apply Had|done| |done].
    congruence.
Qed.

Lemma conflict_priority_advances u req u' : del = false -> wf_universe emit u ->
  pkg_jobs_update_conflict_priority u req = Some u' -> advances u u'.
Proof.
  intros Hdel Hw. unfold pkg_jobs_update_conflict_priority.
  destruct (s_item1 req) as [i1|]; [|done]. cbn [mbind option_bind]. destruct (pkg_of u i1) as [lp|]; [|done].
  cbn [mbind option_bind]. destruct (pkg_conflicts lp) as [cs|]; [|done]. cbn [mbind option_bind].
  assert (forall ty, admissible ty) as Hadm by (intros ty; unfold admissible; by rewrite Hdel).
  intros H. apply (fold_opt_keeps (fun v => wf_universe emit v /\ advances u v)) in H; [apply H| |by split].
  intros v c w _ [Hv Hav]. destruct (pkg_jobs_universe_find v (c_uniqueid c)) as [found|]; [|done]. cbn [mbind option_bind].
  destruct (first_remote v found) as [rit|]; [|done]. cbn [mbind option_bind].
  destruct (u_store v !! rit) as [r|]; [|done]. cbn [mbind option_bind].
  destruct (u_store v !! i1) as [l|]; [|done]. cbn [mbind option_bind].
  destruct (_ <=? _); [|by intros [= <-]].
  destruct (update_item_priority _ v _ _ _) as [v1|] eqn:E1; [|done]. cbn [mbind option_bind].
  apply update_item_raises in E1 as [H1 _]; [|done..].
  destruct (u_store v1 !! _) as [i0|]; [|done]. cbn [mbind option_bind].
  intros H2. assert (wf_universe emit v1) as Hv1 by by eapply moves_wf.
  apply update_item_raises in H2 as [H2 _]; [|done..]. split; [by eapply moves_wf|].
  transitivity v; [done|]. transitivity v1; [apply H1|apply H2].
Qed.

Definition job_type (a : pkg_solved) : pkg_priority_update_type :=
  if is_delete a then PKG_PRIORITY_UPDATE_DELETE else PKG_PRIORITY_UPDATE_REQUEST.

(** The job is not an upgrade of a package that has conflicts, and its kind is
    the one that is tracked. *)
Definition direct (u : universe) (a : pkg_solved) : Prop :=
  conflicting_upgrade u a = Some false /\
  exists p, pkg_of u (s_item0 a) = Some p /\ tracked p = true /\ is_delete a = is_local p.

Lemma set_request_priority_advances u0 j k a rc j' : wf_universe emit (j_universe j) -> (del = true -> is_delete a = true) ->
  advances u0 (j_universe j) -> j_jobs j !! k = Some a -> priority_of u0 (s_item0 a) = Some 0 ->
  pkg_jobs_set_request_priority j k = Some (rc, j') -> rc <> EPKG_CONFLICT ->
  exists u', j' = set_universe j u' /\ advances (j_universe j) u' /\
    (direct (j_universe j) a -> forall p, pkg_of (j_universe j) (s_item0 a) = Some p -> ordered u' (s_item0 a) p).
Proof.
  intros Hw Hdel Had Hk Hz. unfold pkg_jobs_set_request_priority. rewrite Hk. cbn [mbind option_bind].
  destruct (conflicting_upgrade (j_universe j) a) as [[]|] eqn:Ec; [| |done]; cbn [mbind option_bind].
  - assert (del = false) as Hd.
    { destruct del eqn:E; [|done]. specialize (Hdel eq_refl). unfold conflicting_upgrade in Ec. unfold is_delete in Hdel.
      by destruct (s_type a). }
    destruct (s_item1 a) as [i1|]; [|done]. cbn [mbind option_bind]. destruct (priority_of (j_universe j) (s_item0 a)) as [pri0|]; [|done].
    cbn [mbind option_bind]. intros H Hrc.
    assert (exists u', j' = set_universe j u' /\ advances (j_universe j) u') as (u' & -> & Hu).
    { destruct (if pri0 =? 0 then _ else _) as [u|] eqn:Eu; [|done]. cbn [mbind option_bind] in H.
      destruct (priority_of u (s_item0 a)); [|done]. cbn [mbind option_bind] in H.
      destruct (priority_of u i1); [|done]. cbn [mbind option_bind] in H.
      destruct (_ && _); [by injection H as <- <-|]. injection H as <- <-. exists u. split; [done|].
      destruct (pri0 =? 0); [by eapply conflict_priority_advances|by injection Eu as <-]. }
    exists u'. split_and!; [done|done|]. intros [Hno _]. congruence.
  - destruct (raise_item _ _ _) as [u'|] eqn:Er; [|done]. cbn [mbind option_bind]. intros [= <- <-] _.
    assert (match s_type a with PKG_SOLVED_DELETE => PKG_PRIORITY_UPDATE_DELETE | _ => PKG_PRIORITY_UPDATE_REQUEST end = job_type a) as Hty
      by (unfold job_type, is_delete; by destruct (s_type a)).
    rewrite Hty in Er. apply (raise_item_advances u0) in Er as [Ha Ho]; [|done| |done|done].
    + exists u'. split_and!; [done|done|]. intros (_ & p & Hp & Ht & Hdl) p' Hp'. assert (p' = p) as -> by congruence.
      apply Ho; [done| |done]. unfold skips_remote, job_type. rewrite Hdl. by destruct (is_local p).
    + intros Ht. unfold job_type. by rewrite Hdel.
Qed.

Lemma direct_raised u u' a : raised u u' -> direct u a -> direct u' a.
Proof.
  unfold direct, conflicting_upgrade. intros Hr [Hc (p & Hp & H)]. rewrite (raised_pkg_of u u') by done. split; [|by exists p].
  destruct (s_type a); try done. destruct (s_item1 a) as [i1|]; [|done]. cbn [mbind option_bind] in *.
  by rewrite (raised_pkg_of u u').
Qed.

(** A turn that is not interrupted. *)
Lemma set_request_priorities_advances u0 ks j rc j' : wf_universe emit u0 ->
  (del = true -> forall a, a ∈ j_jobs j -> is_delete a = true) ->
  advances u0 (j_universe j) -> (forall a, a ∈ j_jobs j -> priority_of u0 (s_item0 a) = Some 0) ->
  set_request_priorities ks j = Some (rc, j') -> rc <> EPKG_CONFLICT ->
  exists u', j' = set_universe j u' /\ advances (j_universe j) u' /\
    forall k a p, k ∈ ks -> j_jobs j !! k = Some a -> direct u0 a -> pkg_of u0 (s_item0 a) = Some p -> ordered u' (s_item0 a) p.
Proof.
  intros Hw0 Hdel Had Hz. revert j Hdel Had Hz; induction ks as [|k ks IH]; intros j Hdel Had Hz.
  { intros [= <- <-] _. exists (j_universe j). split_and!; [by destruct j|reflexivity|]. intros ? ? ? Hk. by apply elem_of_nil in Hk. }
  cbn [set_request_priorities]. destruct (pkg_jobs_set_request_priority j k) as [[rc1 j1]|] eqn:E; [|done]. cbn [mbind option_bind].
  assert (wf_universe emit (j_universe j)) as Hw by (eapply raised_wf; [apply Had|done]).
  intros H Hrc. destruct (decide (rc1 = EPKG_CONFLICT)) as [->|Hne]; [by injection H as <- <-|].
  assert (set_request_priorities ks j1 = Some (rc, j')) as H' by (by destruct rc1).
  destruct (j_jobs j !! k) as [a|] eqn:Ea; [|unfold pkg_jobs_set_request_priority in E; by rewrite Ea in E].
  pose proof (list_elem_of_lookup_2 _ _ _ Ea) as Hin.
  destruct (set_request_priority_advances u0 j k a rc1 j1) as (u1 & -> & Ha1 & Ho1); [done|by intros; apply Hdel|done|done|by apply Hz|done|done|].
  destruct (IH (set_universe j u1) Hdel ltac:(by transitivity (j_universe j)) Hz H' Hrc) as (u' & -> & Ha' & Ho').
  cbn [j_universe set_universe] in Ha'. exists u'. split_and!; [done|by transitivity u1|].
  intros k' a' p Hk Hk' Hd Hp. apply elem_of_cons in Hk as [->|Hk]; [|by eapply Ho'].
  assert (a' = a) as -> by congruence. pose proof (direct_raised _ _ _ (ad_raised _ _ Had) Hd) as Hd'.
  assert (pkg_of (j_universe j) (s_item0 a) = Some p) as Hp1 by by rewrite (raised_pkg_of u0) by apply Had.
  eapply (advances_ordered u1); [done|by rewrite (raised_pkg_of (j_universe j)) by apply Ha1| |by apply Ho1].
  destruct Hd as (_ & q & Hq & Ht & _). congruence.
Qed.
End kind.

(** *** The loops end *)

(** What a job points to; the packages an upgraded one conflicts with have a
    remote candidate. *)
Definition job_ok (u : universe) (a : pkg_solved) : Prop :=
  is_Some (pkg_of u (s_item0 a)) /\ (forall i, s_item1 a = Some i -> is_Some (pkg_of u i)) /\
  (s_type a = PKG_SOLVED_UPGRADE -> exists i p, s_item1 a = Some i /\ pkg_of u i = Some p /\
     forall c, c ∈ values (conflicts p) -> exists chain, pkg_jobs_universe_find u (c_uniqueid c) = Some chain /\
       exists k q, k ∈ chain /\ pkg_of u k = Some q /\ is_local q = false).

Lemma job_ok_repriced u u' a : repriced u u' -> job_ok u a -> job_ok u' a.
Proof.
  intros (Hi & _ & _ & _ & _ & Hp) (H0 & H1 & H2). split_and!; [by rewrite Hp|intros i Hs; rewrite Hp; by apply H1|].
  intros Ht. destruct (H2 Ht) as (i & p & Hs & Hpi & Hc). exists i, p. split_and!; [done|by rewrite Hp|]. intros c Hin.
  destruct (Hc c Hin) as (chain & Hf & k & q & Hk & Hq & Hl). exists chain. unfold pkg_jobs_universe_find in *. rewrite Hi.
  split; [done|]. exists k, q. by rewrite Hp.
Qed.

Lemma pkg_priority u i : is_Some (pkg_of u i) <-> is_Some (priority_of u i).
Proof. unfold pkg_of, priority_of. by rewrite !fmap_is_Some. Qed.

Lemma update_ok u i pri ty : wf_universe emit u -> is_Some (pkg_of u i) ->
  exists u', update_item_priority (priority_fuel pri) u i pri ty = Some u' /\ raised u u'.
Proof.
  intros Hw Hi. apply (update_item_priority_ok emit); [done|unfold pkg_of in Hi; by rewrite fmap_is_Some in Hi|unfold priority_fuel; lia].
Qed.

Lemma raise_item_ok u i ty : wf_universe emit u -> is_Some (pkg_of u i) ->
  exists u', raise_item u i ty = Some u' /\ raised u u'.
Proof.
  intros Hw Hi. unfold raise_item. destruct (proj1 (pkg_priority u i) Hi) as [a ->]. cbn [mbind option_bind].
  destruct (a =? 0); [by apply update_ok|exists u; split; [done|apply raised_refl]].
Qed.

Lemma conflict_priority_ok u a : wf_universe emit u -> job_ok u a -> s_type a = PKG_SOLVED_UPGRADE ->
  exists u', pkg_jobs_update_conflict_priority u a = Some u' /\ raised u u'.
Proof.
  intros Hw (H0 & _ & H2) Ht. destruct (H2 Ht) as (i1 & lp & Hi1 & Hlp & Hc). unfold pkg_jobs_update_conflict_priority.
  rewrite Hi1. cbn [mbind option_bind]. rewrite Hlp. cbn [mbind option_bind].
  unfold pkg_conflicts. rewrite hash_iter_wf by (eapply (wu_pkgs _ _ Hw); done). cbn [mbind option_bind].
  apply (fold_opt_inv (raised u)); [|apply raised_refl]. intros v c Hin Hr.
  assert (wf_universe emit v) as Hv by by eapply raised_wf. destruct (raised_repriced _ _ Hr) as (Hit & _ & _ & _ & _ & Hp).
  destruct (Hc c Hin) as (chain & Hf & k & q & Hk & Hq & Hl).
  unfold pkg_jobs_universe_find in *. rewrite Hit, Hf. cbn [mbind option_bind].
  assert (exists rit, first_remote v chain = Some rit /\ is_Some (pkg_of v rit)) as (rit & -> & Hrit).
  { unfold first_remote. destruct (find _ chain) as [rit|] eqn:E.
    - exists rit. split; [done|]. apply find_some in E as [_ E]. by destruct (pkg_of v rit).
    - pose proof (find_none _ _ E k ltac:(by apply list_elem_of_In)) as Hn. cbn beta in Hn. rewrite Hp, Hq, Hl in Hn. done. }
  cbn [mbind option_bind]. apply fmap_is_Some in Hrit as [r ->]. cbn [mbind option_bind].
  assert (is_Some (pkg_of v i1)) as Hvi1 by (rewrite Hp, Hlp; done). pose proof Hvi1 as [l Hl1]%fmap_is_Some.
  rewrite Hl1. cbn [mbind option_bind]. destruct (_ <=? _); [|by exists v].
  destruct (update_ok v i1 (ui_priority r + 1) PKG_PRIORITY_UPDATE_CONFLICT Hv Hvi1) as (v1 & -> & Hr1). cbn [mbind option_bind].
  assert (is_Some (pkg_of v1 (s_item0 a))) as Hi0 by (rewrite (raised_pkg_of v v1), Hp by done; done).
  pose proof Hi0 as [i0 Hi0']%fmap_is_Some. rewrite Hi0'. cbn [mbind option_bind].
  destruct (update_ok v1 (s_item0 a) (ui_priority i0) PKG_PRIORITY_UPDATE_REQUEST) as (v2 & Hv2 & Hr2); [by eapply raised_wf|done|].
  exists v2. split; [done|]. eapply raised_trans; [exact Hr|]. by eapply raised_trans.
Qed.

(** An upgrade whose package has to be deleted before is marked, and the
    deletion added. *)
Inductive splits : list pkg_solved -> list pkg_solved -> Prop :=
  | splits_refl l : splits l l
  | splits_step l k a i1 l' : l !! k = Some a -> s_type a = PKG_SOLVED_UPGRADE -> s_item1 a = Some i1 ->
      already_deleted a = false -> splits (<[k := mark_deleted a]> l ++ [upgrade_remove i1]) l' -> splits l l'.

(** A job list whose upgrade [k] is split. *)
Definition split_at (j j' : pkg_jobs) : Prop := exists k a i1, j_jobs j !! k = Some a /\ s_type a = PKG_SOLVED_UPGRADE /\
  s_item1 a = Some i1 /\ already_deleted a = false /\
  j_jobs j' = <[k := mark_deleted a]> (j_jobs j) ++ [upgrade_remove i1].

Lemma set_request_priority_ok j k a : wf_universe emit (j_universe j) -> j_jobs j !! k = Some a -> job_ok (j_universe j) a ->
  exists rc j', pkg_jobs_set_request_priority j k = Some (rc, j') /\ raised (j_universe j) (j_universe j') /\
    (rc = EPKG_OK /\ j_jobs j' = j_jobs j \/ rc = EPKG_CONFLICT /\ split_at j j').
Proof.
  intros Hw Hk Hok. unfold pkg_jobs_set_request_priority. rewrite Hk. cbn [mbind option_bind].
  pose proof Hok as (H0 & H1 & H2).
  assert (exists c, conflicting_upgrade (j_universe j) a = Some c /\ (c = true -> s_type a = PKG_SOLVED_UPGRADE)) as (c & -> & Hct).
  { unfold conflicting_upgrade. destruct (s_type a); try by exists false. destruct (H2 eq_refl) as (i1 & p & -> & Hp & _).
    cbn [mbind option_bind]. rewrite Hp. by eexists. }
  cbn [mbind option_bind]. destruct c.
  - specialize (Hct eq_refl). destruct (H2 Hct) as (i1 & p & Hi1 & Hp & _). rewrite Hi1. cbn [mbind option_bind].
    destruct (proj1 (pkg_priority _ _) H0) as [pri0 ->]. cbn [mbind option_bind].
    assert (exists u, (if pri0 =? 0 then pkg_jobs_update_conflict_priority (j_universe j) a else Some (j_universe j)) = Some u /\
      raised (j_universe j) u) as (u & -> & Hr).
    { destruct (pri0 =? 0); [by apply conflict_priority_ok|eexists; split; [done|apply raised_refl]]. }
    cbn [mbind option_bind].
    destruct (proj1 (pkg_priority u (s_item0 a)) ltac:(by rewrite (raised_pkg_of (j_universe j)))) as [q0 ->]. cbn [mbind option_bind].
    destruct (proj1 (pkg_priority u i1) ltac:(by rewrite (raised_pkg_of (j_universe j)), Hp)) as [q1 ->]. cbn [mbind option_bind].
    destruct (_ <? _); cbn [andb]; [destruct (already_deleted a) eqn:Ed; cbn [negb]|].
    + eexists _, _. split_and!; [done|done|by left].
    + eexists _, _. split_and!; [done|done|right; split; [done|by exists k, a, i1]].
    + eexists _, _. split_and!; [done|done|by left].
  - destruct (raise_item_ok (j_universe j) (s_item0 a)
      (match s_type a with PKG_SOLVED_DELETE => PKG_PRIORITY_UPDATE_DELETE | _ => PKG_PRIORITY_UPDATE_REQUEST end) Hw H0) as (u & -> & Hr).
    cbn [mbind option_bind]. eexists _, _. split_and!; [done|done|by left].
Qed.

Lemma set_request_priorities_ok ks j : wf_universe emit (j_universe j) -> Forall (job_ok (j_universe j)) (j_jobs j) ->
  (forall k, k ∈ ks -> (k < length (j_jobs j))%nat) ->
  exists rc j', set_request_priorities ks j = Some (rc, j') /\ raised (j_universe j) (j_universe j') /\
    (rc = EPKG_OK \/ rc = EPKG_CONFLICT /\ split_at j j').
Proof.
  revert j; induction ks as [|k ks IH]; intros j Hw Hok Hks; cbn [set_request_priorities].
  { eexists _, _. split_and!; [done|apply raised_refl|by left]. }
  destruct (lookup_lt_is_Some_2 (j_jobs j) k) as [a Ha]; [apply Hks; by left|].
  destruct (set_request_priority_ok j k a Hw Ha) as (rc & j1 & -> & Hr & Hrc); [by eapply (Forall_lookup_1 _ _ _ _ Hok)|].
  cbn [mbind option_bind]. destruct Hrc as [[-> Hjobs]|[-> Hsp]].
  - destruct (IH j1) as (rc & j' & -> & Hr' & Hrc'); [by eapply raised_wf| | |].
    + rewrite Hjobs. eapply Forall_impl; [exact Hok|]. intros b. by apply job_ok_repriced, raised_repriced.
    + rewrite Hjobs. intros k' Hk'. apply Hks. by right.
    + exists rc, j'. split_and!; [done|by eapply raised_trans|].
      destruct Hrc' as [->|[-> (k' & b & i1 & Hb)]]; [by left|right]. split; [done|]. exists k', b, i1. by rewrite <- Hjobs.
  - exists EPKG_CONFLICT, j1. split_and!; [done|done|by right].
Qed.

Lemma reset_ok u jobs : Forall (job_ok u) jobs ->
  exists u', reset_priorities u jobs = Some u' /\ repriced u u' /\ forall a, a ∈ jobs -> priority_of u' (s_item0 a) = Some 0.
Proof.
  intros Hok. unfold reset_priorities. set (f := fun v req => _).
  assert (forall v a, repriced u v -> a ∈ jobs -> exists v', f v a = Some v' /\ repriced v v' /\
    priority_of v' (s_item0 a) = Some 0 /\ forall i, priority_of v i = Some 0 -> priority_of v' i = Some 0) as Hf.
  { intros v a Hv Ha. rewrite Forall_forall in Hok. destruct (job_ok_repriced _ _ _ Hv (Hok a Ha)) as (H0 & H1 & _).
    apply fmap_is_Some in H0 as [x Hx]. unfold f. rewrite Hx. cbn [mbind option_bind].
    assert (forall i y, u_store v !! i = Some y -> exists y', u_store (set_priority v (s_item0 a) 0) !! i = Some y') as Hst.
    { intros i y Hy. cbn [u_store set_priority]. destruct (decide (s_item0 a = i)) as [<-|].
      - rewrite list_lookup_alter_eq, Hy. by eexists.
      - rewrite list_lookup_alter_ne by done. by exists y. }
    assert (forall i, priority_of v i = Some 0 -> priority_of (set_priority v (s_item0 a) 0) i = Some 0) as Hk.
    { intros i Hi. rewrite (priority_set v _ x) by done. by case_decide. }
    assert (priority_of (set_priority v (s_item0 a) 0) (s_item0 a) = Some 0) as Hself
      by (rewrite (priority_set v _ x) by done; by rewrite decide_True).
    destruct (s_item1 a) as [i1|]; [|eexists; split_and!; [done|apply repriced_set|done|done]].
    specialize (H1 i1 eq_refl). apply fmap_is_Some in H1 as [y Hy]. destruct (Hst i1 y Hy) as [y' Hy'].
    rewrite Hy'. cbn [mbind option_bind]. eexists. split_and!; [done| | |].
    - eapply repriced_trans; apply repriced_set.
    - rewrite (priority_set _ _ y') by done. by case_decide.
    - intros i Hi. rewrite (priority_set _ _ y') by done. case_decide; [done|by apply Hk]. }
  destruct (fold_opt_inv (repriced u) f jobs u) as (u' & Hu' & Hr); [|by split_and!|].
  { intros v a Ha Hv. destruct (Hf v a Hv Ha) as (v' & H & Hr & _). exists v'. split; [done|by eapply repriced_trans]. }
  exists u'. split_and!; [done|done|]. intros a Ha.
  set (R := fun v v' => forall i, priority_of v i = Some 0 -> priority_of v' i = Some 0).
  assert (PreOrder R) by (unfold R; split; [intros v i|intros v1 v2 v3 A B i]; auto).
  eapply (fold_opt_each (repriced u) R (fun v a => priority_of v (s_item0 a) = Some 0)) in Hu' as (_ & _ & Hall); [by apply Hall| | |by split_and!].
  - intros v b v' Hb Hv E. destruct (Hf v b Hv Hb) as (w & Hw & Hr' & Hwz & Hk). assert (w = v') as -> by congruence.
    split_and!; [by eapply repriced_trans|done|done].
  - intros v v' b _ _ HR. apply HR.
Qed.

Definition pending (l : list pkg_solved) : nat :=
  length (List.filter (fun a => match s_type a with PKG_SOLVED_UPGRADE => negb (already_deleted a) | _ => false end) l).

Lemma pending_split j j' : split_at j j' -> (pending (j_jobs j') < pending (j_jobs j))%nat.
Proof.
  intros (k & a & i1 & Hk & Ht & _ & Hd & ->). rewrite insert_take_drop by by eapply lookup_lt_Some.
  assert (pending (j_jobs j) = pending (take k (j_jobs j) ++ a :: drop (S k) (j_jobs j))) as -> by by rewrite take_drop_middle.
  unfold pending.
  rewrite !List.filter_app. cbn [List.filter mark_deleted upgrade_remove s_type already_deleted].
  rewrite ?length_app, Ht, Hd. cbn. rewrite ?length_app. cbn. lia.
Qed.

Lemma split_job_ok j j' : Forall (job_ok (j_universe j)) (j_jobs j) -> split_at j j' -> Forall (job_ok (j_universe j)) (j_jobs j').
Proof.
  intros Hok (k & a & i1 & Hk & Ht & Hi1 & Hd & ->). pose proof (Forall_lookup_1 _ _ _ _ Hok Hk) as Ha.
  apply Forall_app. split; [by apply Forall_insert|]. apply Forall_singleton. destruct Ha as (_ & H1 & _).
  split_and!; [by apply H1|done|done].
Qed.

(** The last turn. *)
Definition last_turn (j : pkg_jobs) : Prop := exists u0 rc,
  wf_universe emit u0 /\ (forall a, a ∈ j_jobs j -> priority_of u0 (s_item0 a) = Some 0) /\ rc <> EPKG_CONFLICT /\
  set_request_priorities (seq 0 (length (j_jobs j))) (set_universe j u0) = Some (rc, j).

Lemma set_request_priorities_jobs ks j rc j' : set_request_priorities ks j = Some (rc, j') -> rc <> EPKG_CONFLICT ->
  set_universe j (j_universe j') = j'.
Proof.
  revert j; induction ks as [|k ks IH]; intros j; cbn [set_request_priorities]; [intros [= <- <-]; by destruct j|].
  destruct (pkg_jobs_set_request_priority j k) as [[rc1 j1]|] eqn:E; [|done]. cbn [mbind option_bind]. intros H Hrc.
  destruct (decide (rc1 = EPKG_CONFLICT)) as [->|Hne]; [by injection H as <- <-|].
  assert (set_universe j (j_universe j1) = j1) as Hj1.
  { unfold pkg_jobs_set_request_priority in E. destruct (j_jobs j !! k) as [a|]; [|done]. cbn [mbind option_bind] in E.
    destruct (conflicting_upgrade _ _) as [[]|]; [| |done]; cbn [mbind option_bind] in E.
    - destruct (s_item1 a); [|done]. cbn [mbind option_bind] in E. destruct (priority_of _ _) as [p0|]; [|done]. cbn [mbind option_bind] in E.
      destruct (if p0 =? 0 then _ else _) as [u|]; [|done]. cbn [mbind option_bind] in E.
      destruct (priority_of u (s_item0 a)); [|done]. cbn [mbind option_bind] in E.
      destruct (priority_of u _); [|done]. cbn [mbind option_bind] in E.
      destruct (_ && _); by injection E as <- <-.
    - destruct (raise_item _ _ _); [|done]. by injection E as <- <-. }
  rewrite <- (IH j1); [by rewrite <- Hj1|by destruct rc1|done].
Qed.

Lemma iter_again_ok fuel j : wf_universe emit (j_universe j) -> Forall (job_ok (j_universe j)) (j_jobs j) ->
  (pending (j_jobs j) < fuel)%nat ->
  exists j', iter_again fuel j = Some j' /\ repriced (j_universe j) (j_universe j') /\ splits (j_jobs j) (j_jobs j') /\ last_turn j'.
Proof.
  revert j; induction fuel as [|fuel IH]; intros j Hw Hok Hf; [lia|]. cbn [iter_again].
  destruct (reset_ok _ _ Hok) as (u & -> & Hu & Hz). cbn [mbind option_bind].
  assert (wf_universe emit u) as Hwu by by eapply repriced_wf.
  assert (Forall (job_ok u) (j_jobs j)) as Hoku by (eapply Forall_impl; [exact Hok|]; intros a; by apply job_ok_repriced).
  destruct (set_request_priorities_ok (seq 0 (length (j_jobs j))) (set_universe j u)) as (rc & j1 & E & Hr & Hrc); [done|done| |].
  { intros k Hk%elem_of_seq. cbn [j_jobs set_universe]. lia. }
  cbn [j_universe set_universe] in Hr. rewrite E. cbn [mbind option_bind].
  assert (repriced (j_universe j) (j_universe j1)) as Hr1 by (eapply repriced_trans; [done|by apply raised_repriced]).
  destruct Hrc as [->|[-> Hsp]].
  - assert (set_universe (set_universe j u) (j_universe j1) = j1) as Hj by by apply (set_request_priorities_jobs _ _ _ _ E).
    assert (j_jobs j1 = j_jobs j) as Hjj by (by rewrite <- Hj).
    exists j1. split_and!; [done|done|rewrite Hjj; apply splits_refl|]. exists u, EPKG_OK. rewrite Hjj. split_and!; [done|done|done|].
    replace (set_universe j1 u) with (set_universe j u) by (by rewrite <- Hj). exact E.
  - assert (split_at j j1) as Hsp' by done. destruct (IH j1) as (j' & -> & Hr' & Hs' & Hl).
    + by eapply repriced_wf.
    + eapply Forall_impl; [by apply (split_job_ok _ _ Hok Hsp')|]. intros a. by apply job_ok_repriced.
    + pose proof (pending_split _ _ Hsp'). lia.
    + exists j'. split_and!; [done|by eapply repriced_trans| |done]. destruct Hsp' as (k & a & i1 & Hk & Ht & Hi & Hd & Hj).
      eapply splits_step; [done..|]. by rewrite <- Hj.
Qed.

Lemma pending_length l : (pending l <= length l)%nat.
Proof. apply List.filter_length_le. Qed.

(** *** The order *)

#[local] Instance sort_comparison u : Comparison (pkg_jobs_sort_priority u).
Proof.
  unfold pkg_jobs_sort_priority. split; intros *; repeat destruct (is_delete _); cbn [andb negb];
    repeat match goal with |- context [?x =? ?y] => destruct (Z.eqb_spec x y) end; lia.
Qed.

Lemma sorted_split {A} (R : A -> A -> Prop) pre a post : Sorted.StronglySorted R (pre ++ a :: post) -> Forall (R a) post.
Proof. intros (_ & _ & H)%StronglySorted_app. by inversion H. Qed.

(** No job from [a] on goes above it. *)
Lemma sorted_not_above u l pre a post b : ll_sort (pkg_jobs_sort_priority u) l = pre ++ a :: post -> b ∈ a :: post ->
  ~ above u (s_item0 b) (s_item0 a).
Proof.
  intros Hl Hb (x & y & Hx & Hy & Hlt).
  assert (pkg_jobs_sort_priority u a b <= 0) as Hle.
  { apply elem_of_cons in Hb as [->|Hb]; [by rewrite cmp_refl by apply sort_comparison|].
    pose proof (ll_sort_sorted (pkg_jobs_sort_priority u) l) as Hs. rewrite Hl in Hs. apply sorted_split in Hs.
    rewrite Forall_forall in Hs. by apply Hs. }
  unfold pkg_jobs_sort_priority, job_priority in Hle. rewrite Hx, Hy in Hle. unfold default, from_option, id in Hle.
  revert Hle. destruct (Z.eqb_spec y x); lia.
Qed.

Lemma splits_none l l' : splits l l' -> (forall a, a ∈ l -> s_type a <> PKG_SOLVED_UPGRADE) -> l' = l.
Proof.
  intros [|? k a i1 ? Hk Ht]; [done|]. intros Hno. destruct (Hno a); [by eapply list_elem_of_lookup_2|done].
Qed.

Lemma set_priorities_ok j : wf_universe emit (j_universe j) -> Forall (job_ok (j_universe j)) (j_jobs j) ->
  exists j' l, pkg_jobs_set_priorities j = Some j' /\ repriced (j_universe j) (j_universe j') /\
    splits (j_jobs j) l /\ j_jobs j' ≡ₚ l /\
    forall del, (del = true -> forall a, a ∈ l -> is_delete a = true) -> ~ saturated (j_universe j') ->
      forall pre a post p b q, j_jobs j' = pre ++ a :: post -> direct del (j_universe j') a ->
        pkg_of (j_universe j') (s_item0 a) = Some p -> b ∈ a :: post -> pkg_of (j_universe j') (s_item0 b) = Some q ->
        (forall d, d ∈ values (predecessors del p) -> (del = true -> is_local q = true) ->
           s_item0 b ∉ items_of (j_universe j') (dep_uid d)) /\
        (is_local p = false -> is_local q = true -> forall c, c ∈ values (conflicts p) ->
           s_item0 b ∉ items_of (j_universe j') (c_uniqueid c)).
Proof.
  intros Hw Hok. unfold pkg_jobs_set_priorities.
  destruct (iter_again_ok (S (length (j_jobs j))) j Hw Hok) as (j1 & -> & Hr & Hs & (u0 & rc & Hw0 & Hz & Hrc & Hturn)).
  { pose proof (pending_length (j_jobs j)). lia. }
  cbn [mbind option_bind]. exists (sort_jobs j1), (j_jobs j1). split_and!; [done|done|done|apply ll_sort_perm|].
  intros del Hdel Hsat pre a post p b q Hl Hd Hp Hb Hq. cbn [j_jobs j_universe sort_jobs set_jobs] in *.
  pose proof (ll_sort_perm (pkg_jobs_sort_priority (j_universe j1)) (j_jobs j1)) as Hperm.
  assert (a ∈ j_jobs j1) as Ha by (rewrite <- Hperm, Hl; apply elem_of_app; right; left).
  destruct (set_request_priorities_advances del u0 _ (set_universe j1 u0) _ _ Hw0 Hdel (advances_refl del u0) Hz Hturn Hrc) as (u' & Hj & Hadv & Hord).
  assert (j_universe j1 = u') as Hu by (by rewrite Hj). rewrite Hu in *. cbn [j_universe set_universe] in Hadv.
  assert (direct del u0 a) as Hd0.
  { revert Hd. unfold direct, conflicting_upgrade. rewrite (raised_pkg_of u0 u') by apply Hadv. intros [Hc H]. split; [|done].
    destruct (s_type a); try done. destruct (s_item1 a) as [i1|]; [|done]. cbn [mbind option_bind] in *.
    by rewrite (raised_pkg_of u0 u') in Hc by apply Hadv. }
  pose proof Ha as [k Hk]%list_elem_of_lookup_1. rewrite (raised_pkg_of u0 u') in Hp by apply Hadv.
  destruct (Hord k a p) as [|[H1 H2]]; [apply elem_of_seq; apply lookup_lt_Some in Hk; lia|done|done|done|done|].
  pose proof (sorted_not_above _ _ _ _ _ _ Hl Hb) as Hna.
  split; [intros d Hind Hlq Hin|intros Hrem Hlq c Hinc Hin]; apply Hna; [by eapply (H1 d)|by eapply (H2 Hrem c)].
Qed.

(** A package is installed after its dependencies, and after the installed
    packages it conflicts with are deleted or replaced. *)
Definition install_order (u : universe) (l : list pkg_solved) : Prop :=
  forall pre a post p b q, l = pre ++ a :: post -> is_delete a = false -> conflicting_upgrade u a = Some false ->
    pkg_of u (s_item0 a) = Some p -> is_local p = false -> b ∈ a :: post -> pkg_of u (s_item0 b) = Some q ->
    (forall d, d ∈ values (deps p) -> s_item0 b ∉ items_of u (dep_uid d)) /\
    (is_local q = true -> forall c, c ∈ values (conflicts p) -> s_item0 b ∉ items_of u (c_uniqueid c)).

Lemma priorities_install_order u l : (forall pre a post p b q, l = pre ++ a :: post -> direct false u a ->
      pkg_of u (s_item0 a) = Some p -> b ∈ a :: post -> pkg_of u (s_item0 b) = Some q ->
      (forall d, d ∈ values (predecessors false p) -> (false = true -> is_local q = true) -> s_item0 b ∉ items_of u (dep_uid d)) /\
      (is_local p = false -> is_local q = true -> forall c, c ∈ values (conflicts p) -> s_item0 b ∉ items_of u (c_uniqueid c))) ->
  install_order u l.
Proof.
  intros Hord pre a post p b q Hl Hd Hc Hpa Hrem Hb Hq.
  destruct (Hord pre a post p b q Hl) as [H1 H2]; [|done..|].
  - split; [done|]. exists p. unfold tracked. by rewrite Hrem, Hd.
  - split; [intros d Hin; by apply (H1 d Hin)|intros Hlq; by apply H2].
Qed.

(** A package is deleted after the packages that depend on it. *)
Definition delete_order (u : universe) (l : list pkg_solved) : Prop :=
  forall pre a post p b q, l = pre ++ a :: post -> pkg_of u (s_item0 a) = Some p -> is_local p = true ->
    b ∈ a :: post -> pkg_of u (s_item0 b) = Some q -> is_local q = true ->
    forall d, d ∈ values (rdeps p) -> s_item0 b ∉ items_of u (dep_uid d).

Lemma install_priorities_ok (j : pkg_jobs) (Hw : wf_universe emit (j_universe j))
  (Hok : Forall (job_ok (j_universe j)) (j_jobs j)) :
  exists j' l, pkg_jobs_set_priorities j = Some j' /\ repriced (j_universe j) (j_universe j') /\
    splits (j_jobs j) l /\ j_jobs j' ≡ₚ l /\
    (saturated (j_universe j') \/ install_order (j_universe j') (j_jobs j')).
Proof.
  destruct (set_priorities_ok j Hw Hok) as (j' & l & H & Hr & Hs & Hp & Hord). exists j', l. split_and!; try done.
  destruct (decide (saturated (j_universe j'))) as [|Hns]; [by left|right].
  apply priorities_install_order. by apply (Hord false).
Qed.

(** C15: pkg_jobs_set_priorities ends: every restart splits an upgrade, and no
    upgrade is split twice.  The jobs are those there were, upgrades split into
    a deletion and an upgrade included, in an order in which a package stands
    after its dependencies and after the installed packages it conflicts with,
    unless an item reached the recursion limit.  (Of the upgrades of a package
    with conflicts nothing is promised.) *)
Theorem set_priorities_order (j : pkg_jobs) (Hw : wf_universe emit (j_universe j))
  (Hok : Forall (job_ok (j_universe j)) (j_jobs j)) :
  exists j' l, pkg_jobs_set_priorities j = Some j' /\ repriced (j_universe j) (j_universe j') /\
    splits (j_jobs j) l /\ j_jobs j' ≡ₚ l /\
    (saturated (j_universe j') \/ install_order (j_universe j') (j_jobs j')).
Proof. by apply install_priorities_ok. Qed.

Lemma delete_priorities_ok (j : pkg_jobs) (Hw : wf_universe emit (j_universe j))
  (Hok : Forall (job_ok (j_universe j)) (j_jobs j)) (Hdel : Forall (fun a => is_delete a = true) (j_jobs j)) :
  exists j', pkg_jobs_set_priorities j = Some j' /\ repriced (j_universe j) (j_universe j') /\ j_jobs j' ≡ₚ j_jobs j /\
    (saturated (j_universe j') \/ delete_order (j_universe j') (j_jobs j')).
Proof.
  destruct (set_priorities_ok j Hw Hok) as (j' & l & H & Hr & Hs & Hp & Hord).
  rewrite Forall_forall in Hdel. apply splits_none in Hs as ->.
  2:{ intros a Ha%Hdel. unfold is_delete in Ha. by destruct (s_type a). }
  exists j'. split_and!; [done..|].
  destruct (decide (saturated (j_universe j'))) as [|Hns]; [by left|right].
  intros pre a post p b q Hl Hpa Hlp Hb Hq Hlq.
  assert (a ∈ j_jobs j) as Ha by (rewrite <- Hp, Hl; apply elem_of_app; right; left). apply Hdel in Ha.
  destruct (Hord true ltac:(done) Hns pre a post p b q Hl) as [H1 _]; [|done..|].
  - split; [|by exists p; unfold tracked; rewrite Hlp, Ha]. unfold conflicting_upgrade. unfold is_delete in Ha. by destruct (s_type a).
  - intros d Hin. by apply (H1 d Hin).
Qed.

(** A job list of deletions keeps its jobs, in an order in which every
    package stands after the installed packages that depend on it, unless an
    item reached the recursion limit. *)
Theorem set_priorities_delete_order (j : pkg_jobs) (Hw : wf_universe emit (j_universe j))
  (Hok : Forall (job_ok (j_universe j)) (j_jobs j)) (Hdel : Forall (fun a => is_delete a = true) (j_jobs j)) :
  exists j', pkg_jobs_set_priorities j = Some j' /\ repriced (j_universe j) (j_universe j') /\ j_jobs j' ≡ₚ j_jobs j /\
    (saturated (j_universe j') \/ delete_order (j_universe j') (j_jobs j')).
Proof. by apply delete_priorities_ok. Qed.
End correct.

(** *** Concrete jobs *)

(** Package foo is installed and bar, which it needs, upgraded. *)
Definition install_universe : universe :=
  insert_item (insert_item (insert_item pkg_jobs_universe_new sample_foo (str "foo~x/foo") (str "d_foo"))
    sample_bar (str "bar~x/bar") (str "d_bar0")) sample_new_bar (str "bar~x/bar") (str "d_bar1").

Definition install_jobs : pkg_jobs := mk_jobs install_universe [] []
  [mk_solved 0 None PKG_SOLVED_INSTALL false; mk_solved 2 (Some 1%nat) PKG_SOLVED_UPGRADE false] PKG_JOBS_INSTALL 0 1 2.

Lemma sample_wf p : p ∈ [sample_foo; sample_bar; sample_new_bar; sample_zlib] -> wf_pkg p.
Proof. intros H. apply (kn_wf _ _ _ (sample_known p H)). Qed.

Lemma install_universe_wf : wf_universe no_emit install_universe.
Proof.
  do 3 (apply wf_insert; [|apply sample_wf; set_solver|vm_compute; reflexivity|vm_compute; reflexivity]).
  apply wf_universe_new.
Qed.

Lemma install_jobs_ok : Forall (job_ok install_universe) (j_jobs install_jobs).
Proof.
  apply Forall_cons. split; [split_and!; [by eexists|done|done]|]. apply Forall_singleton.
  split_and!; [by eexists|intros i [= <-]; by eexists|]. intros _. exists 1%nat, sample_bar.
  split_and!; [done|done|]. intros c Hc. by apply elem_of_nil in Hc.
Qed.

Lemma set_priorities_order_witness :
  exists j', pkg_jobs_set_priorities install_jobs = Some j' /\ map s_item0 (j_jobs j') = [2%nat; 0%nat] /\
    install_order (j_universe j') (j_jobs j').
Proof.
  destruct (set_priorities_order no_emit install_jobs install_universe_wf install_jobs_ok) as (j' & l & H & _ & _ & _ & Hord).
  assert (option_map (fun j => (map s_item0 (j_jobs j), forallb (fun it => ui_priority it <? RECURSION_LIMIT) (u_store (j_universe j))))
    (pkg_jobs_set_priorities install_jobs) = Some ([2%nat; 0%nat], true)) as Hc by (vm_compute; reflexivity).
  rewrite H in Hc. injection Hc as Hl Hs. exists j'. split; [exact H|]. split; [exact Hl|].
  destruct Hord as [Hsat|Hord]; [|exact Hord]. apply saturated_exists, Exists_exists in Hsat as (it & Hin & Hge).
  rewrite forallb_forall in Hs. apply list_elem_of_In in Hin. specialize (Hs it Hin). apply Z.ltb_lt in Hs. lia.
Defined.

(** Package app depends on lib; both are deleted. *)
Definition sample_lib : pkg := sample_row PKG_INSTALLED "lib" "1.0" "d_lib" [OpRdep (str "app") (str "x/app") (str "1.0") false].
Definition sample_app : pkg := sample_row PKG_INSTALLED "app" "1.0" "d_app" [OpDep (str "lib") (str "x/lib") (str "1.0") false].

Definition delete_universe : universe :=
  insert_item (insert_item pkg_jobs_universe_new sample_lib (str "lib~x/lib") (str "d_lib")) sample_app (str "app~x/app") (str "d_app").

Definition removal_jobs : pkg_jobs := mk_jobs delete_universe [] []
  [mk_solved 0 None PKG_SOLVED_DELETE false; mk_solved 1 None PKG_SOLVED_DELETE false] PKG_JOBS_DEINSTALL 0 1 2.

Lemma delete_universe_wf : wf_universe no_emit delete_universe.
Proof.
  do 2 (apply wf_insert; [|apply wf_sample_row; repeat constructor|vm_compute; reflexivity|vm_compute; reflexivity]).
  apply wf_universe_new.
Qed.

Lemma set_priorities_delete_order_witness :
  exists j', pkg_jobs_set_priorities removal_jobs = Some j' /\ map s_item0 (j_jobs j') = [1%nat; 0%nat] /\
    j_jobs j' ≡ₚ j_jobs removal_jobs.
Proof.
  destruct (set_priorities_delete_order no_emit removal_jobs delete_universe_wf) as (j' & H & _ & Hp & _).
  - apply Forall_cons. split; [|apply Forall_singleton]; (split_and!; [by eexists|done|done]).
  - repeat constructor.
  - assert (option_map (fun j => map s_item0 (j_jobs j)) (pkg_jobs_set_priorities removal_jobs) = Some [1%nat; 0%nat]) as Hc
      by (vm_compute; reflexivity).
    rewrite H in Hc. injection Hc as Hl. exists j'. split; [exact H|]. split; [exact Hl|exact Hp].
Defined.

(** Package a, which conflicts with c, is upgraded to a version that needs d.
    The installation of c raises the installed a above c, so that nothing is
    done for the new version: it comes before d. *)
Definition conflict_universe : universe :=
  let row t n v d ops := (sample_row t n v d ops, str n ++ str "~x/" ++ str n, str d) in
  foldl (fun u e => insert_item u (fst (fst e)) (snd (fst e)) (snd e)) pkg_jobs_universe_new
    [row PKG_REMOTE "c" "1.0" "d_c" [OpConflict (str "a~x/a")];
     row PKG_INSTALLED "a" "1.0" "d_a0" [OpConflict (str "c~x/c")];
     row PKG_REMOTE "a" "1.1" "d_a1" [OpDep (str "d") (str "x/d") (str "1.0") false];
     row PKG_REMOTE "d" "1.0" "d_d" []].

Definition conflict_jobs : pkg_jobs := mk_jobs conflict_universe [] []
  [mk_solved 0 None PKG_SOLVED_INSTALL false; mk_solved 2 (Some 1%nat) PKG_SOLVED_UPGRADE false;
   mk_solved 3 None PKG_SOLVED_INSTALL false] PKG_JOBS_INSTALL 0 1 3.

Example upgrade_before_dependency :
  option_map (fun j => map (fun a => (s_item0 a, s_type a)) (j_jobs j)) (pkg_jobs_set_priorities conflict_jobs) =
  Some [(1%nat, PKG_SOLVED_UPGRADE_REMOVE); (0%nat, PKG_SOLVED_INSTALL); (2%nat, PKG_SOLVED_UPGRADE); (3%nat, PKG_SOLVED_INSTALL)].
Proof. vm_compute. reflexivity. Qed.
