(* ===== verification/Jobs.v ===== *)
(** * What a job asks for (libpkg/pkg_jobs.c)

    The patterns of the command line become requests for items of the
    universe: for packages to delete (jobs_solve_deinstall), for automatic
    packages nothing needs any more (jobs_solve_autoremove), for candidates of
    an upgrade (pkg_jobs_find_install_candidates).  Afterwards the automatic
    flag is propagated to what is installed, and a deletion gets its reason.

    [None] is a failed assertion or a NULL pointer that is followed, or that
    the fuel ran out. *)
From S2P Require Import Prelude CString UtHash Pkg Checksum Universe Upgrade UniverseBuild.

(** ** Patterns *)

(** What calloc leaves. *)
Definition pattern_zero : job_pattern := mk_pattern None None MATCH_ALL false.

Definition archive_suffixes : list cstring := map str ["txz"; "tbz"; "tgz"; "tar"]%string.

(** realpath(3) answers NULL for a file that does not exist. *)
Definition pkg_jobs_maybe_match_file (realpath : cstring -> option cstring) (pattern : cstring) : bool * job_pattern :=
  match strrchr pattern "." with
  | Some dot =>
      if existsb (streq (drop 1 dot)) archive_suffixes then
        match realpath pattern with
        | Some pkg_path =>
            let len := (length pattern - length (drop 1 dot))%nat in
            (true, mk_pattern (Some (strlcpy pattern len)) (Some pkg_path) MATCH_ALL true)
        | None => (false, pattern_zero)
        end
      else (false, pattern_zero)
  | None =>
      if streq pattern (str "-") then (false, mk_pattern (Some pattern) (Some pattern) MATCH_ALL true)
      else (false, pattern_zero)
  end.

(** The pattern of one argument. *)
Definition argument_pattern (realpath : cstring -> option cstring) (match_ : match_t) (arg : cstring) : job_pattern :=
  let '(file, jp) := pkg_jobs_maybe_match_file realpath arg in
  if file then jp else mk_pattern (Some arg) (jp_path jp) match_ (is_file jp).

(** The patterns of a job are a hash that is only appended to and iterated over:
    a list. *)
Definition pkg_jobs_add (realpath : cstring -> option cstring) (solved : Z) (patterns : list job_pattern)
    (match_ : match_t) (argv : list cstring) : pkg_error_t * list job_pattern :=
  if negb (solved =? 0) then (EPKG_FATAL, patterns)
  else
    let patterns := patterns ++ map (argument_pattern realpath match_) argv in
    (EPKG_OK,
     match argv, match_ with [], MATCH_ALL => patterns ++ [mk_pattern None None match_ false] | _, _ => patterns end).

Section jobs.
Context (emit : ucl -> cstring) (sha256 : cstring -> list Z)
  (repo_digest_format : cstring -> option pkg_checksum_type_t) `{db : pkgdb}.

(** ** Deletions *)

Definition deinstall_flags : Z := flags_or [PKG_LOAD_BASIC; PKG_LOAD_RDEPS; PKG_LOAD_DEPS; PKG_LOAD_ANNOTATIONS].

Section deinstall.
Context (fuel : nat).

Definition deinstall_row (j : pkg_jobs) (p : pkg) : option pkg_jobs :=
  '(_, j, unit) ← process_item emit sha256 repo_digest_format fuel j p true;
  if pkg_is_locked emit p then Some j else un ← unit; pkg_jobs_add_req j un.

Definition deinstall_pattern (j : pkg_jobs) (jp : job_pattern) : option (pkg_error_t * pkg_jobs) :=
  match pkgdb_query (jp_pattern jp) (jp_match jp) deinstall_flags with
  | None => Some (EPKG_FATAL, j)
  | Some rows => j ← fold_opt deinstall_row rows j; Some (EPKG_OK, j)
  end.

Definition jobs_solve_deinstall (patterns : list job_pattern) (j : pkg_jobs) : option (pkg_error_t * pkg_jobs) :=
  '(rc, j) ← each deinstall_pattern patterns j;
  match rc with EPKG_OK => Some (EPKG_OK, set_solved j 1) | _ => Some (rc, j) end.
End deinstall.

(** *** Reasons *)

(** The first answer that is not NULL. *)
Fixpoint find_opt {A B} (f : A -> option (option B)) (l : list A) : option (option B) :=
  match l with
  | [] => Some None
  | x :: l => r ← f x; match r with Some y => Some (Some y) | None => find_opt f l end
  end.

(** [levels] is what is left of the 129 levels of recursion. *)
Fixpoint pkg_jobs_find_deinstall_request (levels : nat) (j : pkg_jobs) (item : nat) : option (option pkg_job_request) :=
  match levels with
  | O => Some None
  | S levels =>
      p ← pkg_of (j_universe j) item;
      match find_req (request_delete j) item with
      | Some found => Some (Some found)
      | None =>
          ds ← pkg_deps p;
          find_opt (fun d =>
            match head_item (j_universe j) (dep_uid d) with
            | Some dep_item => pkg_jobs_find_deinstall_request levels j dep_item
            | None => Some None
            end) ds
      end
  end.

Definition reason_levels : nat := 129.

Definition deinstall_reason (j : pkg_jobs) (sit : pkg_solved) : option pkg_jobs :=
  jreq ← pkg_jobs_find_deinstall_request reason_levels j (s_item0 sit);
  match jreq with
  | Some r =>
      if Nat.eqb (rq_item r) (s_item0 sit) then Some j
      else
        req_pkg ← pkg_of (j_universe j) (rq_item r);
        p ← pkg_of (j_universe j) (s_item0 sit);
        name ← pkg_get_string emit req_pkg PKG_NAME;
        version ← pkg_get_string emit req_pkg PKG_VERSION;
        '(_, p) ← pkg_set p PKG_REASON (ArgString (Some (str "depends on " ++ name ++ str "-" ++ version)));
        Some (set_universe j (set_item_pkg (j_universe j) (s_item0 sit) p))
  | None => Some j
  end.

Definition pkg_jobs_set_deinstall_reasons (j : pkg_jobs) : option pkg_jobs := fold_opt deinstall_reason (j_jobs j) j.

(** ** Automatic packages *)

Definition is_automatic (p : pkg) : bool := pkg_get_bool emit p PKG_AUTOMATIC.

Definition automatic_flags : Z := flags_or [PKG_LOAD_BASIC; PKG_LOAD_RDEPS; PKG_LOAD_ANNOTATIONS].

Section automatic.
Context (fuel : nat).

(** The package of a reverse dependency, when it is automatic and in the
    universe at the end. *)
Definition automatic_rdep (j : pkg_jobs) (uid : cstring) : option (option pkg * pkg_jobs) :=
  match head_item (j_universe j) uid with
  | Some un => p ← pkg_of (j_universe j) un; Some (if is_automatic p then Some p else None, j)
  | None =>
      let '(j, npkg) := pkg_jobs_universe_get_local j uid automatic_flags in
      np ← npkg;
      if is_automatic np then
        '(rc, j) ← pkg_jobs_universe_process emit sha256 repo_digest_format fuel j np;
        Some (match rc with EPKG_OK => Some np | _ => None end, j)
      else Some (None, j)
  end.

Fixpoint test_rdeps (rec : pkg_jobs -> pkg -> option (bool * pkg_jobs)) (ds : list pkg_dep) (j : pkg_jobs)
  : option (bool * pkg_jobs) :=
  match ds with
  | [] => Some (true, j)
  | d :: ds =>
      '(npkg, j) ← automatic_rdep j (dep_uid d);
      match npkg with
      | None => Some (false, j)
      | Some np => '(ret, j) ← rec j np; if ret : bool then test_rdeps rec ds j else Some (false, j)
      end
  end.

Fixpoint pkg_jobs_test_automatic (depth : nat) (j : pkg_jobs) (p : pkg) : option (bool * pkg_jobs) :=
  match depth with
  | O => None
  | S depth => ds ← pkg_rdeps p; test_rdeps (pkg_jobs_test_automatic depth) ds j
  end.

(** The request for one installed package, which is in the universe. *)
Definition autoremove_unit (depth : nat) (j : pkg_jobs) (un : option nat) (p : pkg) : option pkg_jobs :=
  if pkg_is_locked emit p then Some j
  else
    '(automatic, j) ← pkg_jobs_test_automatic depth j p;
    if automatic : bool then un ← un; pkg_jobs_add_req j un else Some j.

Definition autoremove_row (depth : nat) (j : pkg_jobs) (p : pkg) : option pkg_jobs :=
  uid ← pkg_uid emit p;
  match head_item (j_universe j) uid with
  | None =>
      '(_, j, unit) ← process_item emit sha256 repo_digest_format fuel j p true;
      autoremove_unit depth j unit p
  | Some un => q ← pkg_of (j_universe j) un; autoremove_unit depth j (Some un) q
  end.

Definition jobs_solve_autoremove (depth : nat) (j : pkg_jobs) : option (pkg_error_t * pkg_jobs) :=
  match pkgdb_query (Some (str " WHERE automatic=1 ")) MATCH_CONDITION deinstall_flags with
  | None => Some (EPKG_FATAL, j)
  | Some rows => j ← fold_opt (autoremove_row depth) rows j; Some (EPKG_OK, set_solved j 1)
  end.
End automatic.

(** *** Propagation *)

Definition set_automatic (u : universe) (i : nat) (automatic : bool) : option universe :=
  p ← pkg_of u i;
  '(_, p) ← pkg_set p PKG_AUTOMATIC (ArgBool automatic);
  Some (set_item_pkg u i p).

(** The flag of the installed package of a chain. *)
Definition local_automatic (l : list (nat * pkg)) : option bool :=
  is_automatic ∘ snd <$> find (fun ip => is_local (snd ip)) l.

Definition propagate_chain (j : pkg_jobs) (chain : list nat) : option pkg_jobs :=
  match chain with
  | [] => None
  | [unit] =>
      p ← pkg_of (j_universe j) unit;
      match find_req (request_add j) unit, is_local p with
      | None, false => u ← set_automatic (j_universe j) unit true; Some (set_universe j u)
      | _, _ =>
          match j_type j with
          | PKG_JOBS_INSTALL => u ← set_automatic (j_universe j) unit false; Some (set_universe j u)
          | _ => Some j
          end
      end
  | _ =>
      l ← chain_pkgs (j_universe j) chain;
      match local_automatic l with
      | None => Some j
      | Some automatic =>
          u ← fold_opt (fun u ip => if is_local (snd ip) then Some u else set_automatic u (fst ip) automatic) l (j_universe j);
          Some (set_universe j u)
      end
  end.

Definition pkg_jobs_propagate_automatic (j : pkg_jobs) : option pkg_jobs :=
  chains ← hash_iter (u_items (j_universe j));
  fold_opt propagate_chain chains j.

(** ** Candidates for an upgrade *)

(** pkg_jobs_new_candidate *)
Definition pkg_jobs_new_candidate (p : pkg) : Z := pkg_get_int emit p PKG_ROWID.

(** Counts the rows with another digest; a row without digest is dereferenced. *)
Definition other_digests (digest : cstring) (rows : list pkg) : option nat :=
  fold_opt (fun n p => rdigest ← pkg_get_string emit p PKG_DIGEST;
                       Some (if streq rdigest digest then n else S n)) rows O.

Definition pkg_jobs_check_remote_candidate (p : pkg) : option bool :=
  match pkg_get_string emit p PKG_DIGEST with
  | None | Some [] => Some true
  | Some digest =>
      uid ← pkg_get_string emit p PKG_UNIQUEID;
      match pkgdb_repo_query (Some uid) MATCH_EXACT PKG_LOAD_BASIC with
      | None => Some true
      | Some rows => npkg ← other_digests digest rows; Some (negb (Nat.eqb npkg 0))
      end
  end.

(** The candidates, the last one first, and their number. *)
Definition pkg_jobs_find_install_candidates (j : pkg_jobs) : option (list Z * nat) :=
  match pkgdb_query None MATCH_ALL PKG_LOAD_BASIC with
  | None => Some ([], O)
  | Some rows =>
      fold_opt (fun '(candidates, count) p =>
        check ← (if flag_set (j_flags j) PKG_FLAG_FORCE then Some true else pkg_jobs_check_remote_candidate p);
        Some (if check : bool then (pkg_jobs_new_candidate p :: candidates, S count) else (candidates, count))) rows ([], O)
  end.
End jobs.

(** ** Rewritten packages *)

Section correct.
Context (emit : ucl -> cstring).

Lemma pkg_of_set_item u i p k :
  pkg_of (set_item_pkg u i p) k = if decide (k = i) then (fun _ => p) <$> pkg_of u k else pkg_of u k.
Proof.
  unfold pkg_of, set_item_pkg. cbn [u_store]. destruct (decide (k = i)) as [->|Hne].
  - rewrite list_lookup_alter_eq. by destruct (u_store u !! i).
  - by rewrite list_lookup_alter_ne.
Qed.

(** The chains stay; of the packages only attributes change. *)
Definition rewritten (u u' : universe) : Prop :=
  u_items u' = u_items u /\ forall i, match pkg_of u i with
    | Some p => exists x, pkg_of u' i = Some (set_fields p x)
    | None => pkg_of u' i = None
    end.

#[local] Instance rewritten_preorder : PreOrder rewritten.
Proof.
  split.
  - intros u. split; [done|]. intros i. destruct (pkg_of u i) as [p|]; [|done]. exists (fields p). by destruct p.
  - intros u1 u2 u3 [I1 H1] [I2 H2]. split; [congruence|]. intros i. specialize (H1 i). specialize (H2 i).
    destruct (pkg_of u1 i) as [p|]; [destruct H1 as [x Hx]|]; [rewrite Hx in H2|by rewrite H1 in H2].
    destruct H2 as [y Hy]. exists y. by rewrite Hy.
Qed.

Lemma rewritten_pkg u u' i p : rewritten u u' -> pkg_of u i = Some p -> exists x, pkg_of u' i = Some (set_fields p x).
Proof. intros [_ H] Hp. specialize (H i). by rewrite Hp in H. Qed.

Lemma rewritten_some u u' i p : rewritten u u' -> pkg_of u' i = Some p -> exists q x, pkg_of u i = Some q /\ p = set_fields q x.
Proof.
  intros [_ H] Hp. specialize (H i). destruct (pkg_of u i) as [q|]; [|congruence]. destruct H as [x Hx].
  exists q, x. split; [done|congruence].
Qed.

Lemma rewritten_head u u' uid : rewritten u u' -> head_item u' uid = head_item u uid.
Proof. intros [H _]. unfold head_item, pkg_jobs_universe_find. by rewrite H. Qed.

Lemma rewritten_set u i p x : pkg_of u i = Some p -> rewritten u (set_item_pkg u i (set_fields p x)).
Proof.
  intros Hp. split; [done|]. intros k. rewrite pkg_of_set_item. case_decide as Hk; [subst k; rewrite Hp; by exists x|].
  destruct (pkg_of u k) as [q|]; [|done]. exists (fields q). by destruct q.
Qed.

(** *** Reasons for deletions *)

(** A chain of [n] dependencies from one item to another. *)
Inductive depends (u : universe) : nat -> nat -> nat -> Prop :=
  | depends_here i : depends u 0 i i
  | depends_dep n i p d k t : pkg_of u i = Some p -> d ∈ values (deps p) -> head_item u (dep_uid d) = Some k ->
      depends u n k t -> depends u (S n) i t.

Definition delete_asked (j : pkg_jobs) (i : nat) : Prop := is_Some (find_req (request_delete j) i).

Lemma depends_rewritten u u' n i t : rewritten u u' -> depends u n i t <-> depends u' n i t.
Proof.
  intros Hr. split; induction 1 as [i|n i p d k t Hp Hd Hk _ IH]; try constructor.
  - destruct (rewritten_pkg _ _ _ _ Hr Hp) as [x Hx]. eapply depends_dep; [exact Hx|exact Hd| |exact IH].
    by rewrite (rewritten_head u u').
  - destruct (rewritten_some _ _ _ _ Hr Hp) as (q & x & Hq & ->). eapply depends_dep; [exact Hq|exact Hd| |exact IH].
    by rewrite <- (rewritten_head u u').
Qed.

Lemma find_opt_spec {A B} (f : A -> option (option B)) (l : list A) : (forall x, x ∈ l -> is_Some (f x)) ->
  match find_opt f l with
  | Some (Some y) => exists x, x ∈ l /\ f x = Some (Some y)
  | Some None => forall x, x ∈ l -> f x = Some None
  | None => False
  end.
Proof.
  induction l as [|x l IH]; intros Hf; [intros x Hx; by apply elem_of_nil in Hx|]. cbn [find_opt].
  destruct (Hf x ltac:(by left)) as [r Hr]. rewrite Hr. cbn [mbind option_bind]. destruct r as [y|].
  - exists x. split; [by left|done].
  - specialize (IH ltac:(intros z Hz; apply Hf; by right)). destruct (find_opt f l) as [[y|]|]; [|intros z [->|Hz]%elem_of_cons; auto|done].
    destruct IH as (z & Hz & Hy). exists z. split; [by right|done].
Qed.

Lemma find_req_item l i r : find_req l i = Some r -> rq_item r = i.
Proof. unfold find_req. intros [_ H]%find_some. by apply Nat.eqb_eq in H. Qed.

Lemma head_item_pkg u uid k : wf_universe emit u -> head_item u uid = Some k -> exists p, pkg_of u k = Some p /\ pkg_uid emit p = Some uid.
Proof.
  unfold head_item. intros Hw Hk. destruct (pkg_jobs_universe_find u uid) as [[|c chain]|] eqn:E; [done| |done].
  injection Hk as ->. by apply (chain_member emit u uid (k :: chain) k Hw E ltac:(by left)).
Qed.

(** The search answers for every item, with a requested item that a chain of
    dependencies leads to when there is one in reach. *)
Lemma find_deinstall_request_spec levels : forall j item, wf_universe emit (j_universe j) ->
  is_Some (pkg_of (j_universe j) item) ->
  exists r, pkg_jobs_find_deinstall_request levels j item = Some r /\
    match r with
    | Some req => delete_asked j (rq_item req) /\ (delete_asked j item -> rq_item req = item) /\
        exists n, (n < levels)%nat /\ depends (j_universe j) n item (rq_item req)
    | None => forall n t, (n < levels)%nat -> depends (j_universe j) n item t -> ~ delete_asked j t
    end.
Proof.
  induction levels as [|levels IH]; intros j item Hw [p Hp]; [exists None; split; [done|lia]|].
  cbn [pkg_jobs_find_deinstall_request]. rewrite Hp. cbn [mbind option_bind].
  destruct (find_req (request_delete j) item) as [found|] eqn:Ef.
  { pose proof (find_req_item _ _ _ Ef) as He. exists (Some found). split; [done|]. rewrite He. split_and!; [by eexists|done|].
    exists O. split; [lia|constructor]. }
  unfold pkg_deps. rewrite hash_iter_wf by (eapply (wu_pkgs _ _ Hw); done). cbn [mbind option_bind].
  match goal with |- context [find_opt ?g _] => set (f := g) end. pose proof (find_opt_spec f (values (deps p))) as Hspec.
  assert (forall d, d ∈ values (deps p) -> is_Some (f d)) as Hf.
  { intros d _. unfold f. destruct (head_item (j_universe j) (dep_uid d)) as [k|] eqn:Ek; [|by eexists].
    destruct (head_item_pkg _ _ _ Hw Ek) as (q & Hq & _). destruct (IH j k Hw ltac:(by exists q)) as (r & -> & _). by eexists. }
  specialize (Hspec Hf). destruct (find_opt f (values (deps p))) as [[req|]|]; [| |done].
  - destruct Hspec as (d & Hd & Hfd). unfold f in Hfd. destruct (head_item (j_universe j) (dep_uid d)) as [k|] eqn:Ek; [|done].
    destruct (head_item_pkg _ _ _ Hw Ek) as (q & Hq & _). destruct (IH j k Hw ltac:(by exists q)) as (r & Hr & Hs).
    assert (r = Some req) as -> by congruence. destruct Hs as (Ht & _ & n & Hn & Hdep).
    exists (Some req). split_and!; [done|done|intros [? ?]; congruence|]. exists (S n). split; [lia|]. by eapply depends_dep.
  - exists None. split; [done|]. intros n t Hn Hdep [r Hr]. inversion Hdep as [|n' ? p' d k ? Hp' Hd Hk Hdep']; subst; [congruence|].
    assert (p' = p) as -> by congruence. specialize (Hspec d Hd). unfold f in Hspec. rewrite Hk in Hspec.
    destruct (head_item_pkg _ _ _ Hw Hk) as (q & Hq & _). destruct (IH j k Hw ltac:(by exists q)) as (r' & Hr' & Hs).
    assert (r' = None) as -> by congruence. apply (Hs n' t ltac:(lia) Hdep'). by exists r.
Qed.

(** The text of a reason. *)
Definition reason_text (q : pkg) : option cstring :=
  name ← pkg_get_string emit q PKG_NAME; version ← pkg_get_string emit q PKG_VERSION;
  Some (str "depends on " ++ name ++ str "-" ++ version).

Lemma reason_text_with_reason q s : reason_text (with_reason q s) = reason_text q.
Proof.
  unfold reason_text, pkg_get_string, with_reason.
  rewrite (pkg_vget_insert_ne emit q _ _ PKG_NAME _ _ eq_refl) by done.
  by rewrite (pkg_vget_insert_ne emit q _ _ PKG_VERSION _ _ eq_refl) by done.
Qed.

Lemma with_reason_again p s s' : with_reason (with_reason p s) s' = with_reason p s'.
Proof. unfold with_reason. cbn. by rewrite insert_insert_eq. Qed.

(** Nothing but reasons changed. *)
Definition reasoned (u u' : universe) : Prop :=
  u_items u' = u_items u /\ forall i, match pkg_of u i with
    | Some p => pkg_of u' i = Some p \/ exists s, pkg_of u' i = Some (with_reason p s)
    | None => pkg_of u' i = None
    end.

Lemma reasoned_rewritten u u' : reasoned u u' -> rewritten u u'.
Proof.
  intros [Hi H]. split; [done|]. intros i. specialize (H i). destruct (pkg_of u i) as [p|]; [|done].
  destruct H as [H|[s H]]; rewrite H; [exists (fields p); by destruct p|by eexists].
Qed.

Lemma reasoned_set u v i p s : reasoned u v -> pkg_of v i = Some p -> reasoned u (set_item_pkg v i (with_reason p s)).
Proof.
  intros [Hi H] Hp. split; [done|]. intros k. rewrite pkg_of_set_item. specialize (H k). case_decide as Hk; [|done].
  subst k. destruct (pkg_of u i) as [q|]; [|by rewrite H]. rewrite Hp. right.
  destruct H as [H|[s' H]]; rewrite Hp in H; injection H as ->; [by exists s|exists s; cbn; by rewrite with_reason_again].
Qed.

Lemma find_deinstall_rewritten levels j j' : rewritten (j_universe j) (j_universe j') -> request_delete j' = request_delete j ->
  forall item, pkg_jobs_find_deinstall_request levels j' item = pkg_jobs_find_deinstall_request levels j item.
Proof.
  intros Hr Hq. induction levels as [|levels IH]; intros item; [done|]. cbn [pkg_jobs_find_deinstall_request]. rewrite Hq.
  pose proof (proj2 Hr item) as Hi. destruct (pkg_of (j_universe j) item) as [p|]; [destruct Hi as [x ->]|by rewrite Hi].
  cbn [mbind option_bind]. destruct (find_req (request_delete j) item); [done|].
  change (pkg_deps (set_fields p x)) with (pkg_deps p). destruct (pkg_deps p) as [ds|]; [|done]. cbn [mbind option_bind].
  induction ds as [|d ds IHd]; [done|]. cbn [find_opt]. rewrite (rewritten_head (j_universe j)) by done.
  destruct (head_item (j_universe j) (dep_uid d)) as [k|]; [rewrite IH|]; by rewrite IHd.
Qed.

(** The package of a deleted item at the end. *)
Definition with_deinstall_reason (j : pkg_jobs) (i : nat) (p : pkg) : pkg :=
  match pkg_jobs_find_deinstall_request reason_levels j i with
  | Some (Some r) =>
      if Nat.eqb (rq_item r) i then p
      else match pkg_of (j_universe j) (rq_item r) ≫= reason_text with Some s => with_reason p s | None => p end
  | _ => p
  end.

(** Requested items have a name and a version. *)
Definition named_requests (j : pkg_jobs) : Prop :=
  forall t, delete_asked j t -> is_Some (pkg_of (j_universe j) t ≫= reason_text).

Lemma deinstall_reasons_run j0 l : wf_universe emit (j_universe j0) -> named_requests j0 ->
  (forall a, a ∈ l -> is_Some (pkg_of (j_universe j0) (s_item0 a))) -> NoDup (map s_item0 l) ->
  forall j, reasoned (j_universe j0) (j_universe j) -> request_delete j = request_delete j0 ->
  (forall a, a ∈ l -> pkg_of (j_universe j) (s_item0 a) = pkg_of (j_universe j0) (s_item0 a)) ->
  exists u', fold_opt (deinstall_reason emit) l j = Some (set_universe j u') /\ reasoned (j_universe j0) u' /\
    (forall i, i ∉ map s_item0 l -> pkg_of u' i = pkg_of (j_universe j) i) /\
    forall a, a ∈ l -> pkg_of u' (s_item0 a) = with_deinstall_reason j0 (s_item0 a) <$> pkg_of (j_universe j0) (s_item0 a).
Proof.
  intros Hw Hnamed. induction l as [|a l IH]; intros Hsome Hnd j Hre Hreq Hsame.
  { exists (j_universe j). split_and!; [by destruct j|done|done|]. intros a Ha. by apply elem_of_nil in Ha. }
  cbn [map] in Hnd. apply NoDup_cons in Hnd as [Hni Hnd]. apply elem_cons_forall in Hsome as [[p Hp] Hsome].
  apply elem_cons_forall in Hsame as [Hpa Hsame]. cbn [fold_opt].
  assert (exists u1, deinstall_reason emit j a = Some (set_universe j u1) /\ reasoned (j_universe j0) u1 /\
    (forall i, i <> s_item0 a -> pkg_of u1 i = pkg_of (j_universe j) i) /\
    pkg_of u1 (s_item0 a) = Some (with_deinstall_reason j0 (s_item0 a) p)) as (u1 & -> & Hre1 & Hother & Hself).
  { unfold deinstall_reason, with_deinstall_reason.
    rewrite (find_deinstall_rewritten reason_levels j0 j) by (done || by apply reasoned_rewritten).
    destruct (find_deinstall_request_spec reason_levels j0 (s_item0 a) Hw) as (r & -> & Hr); [by exists p|]. cbn [mbind option_bind].
    assert (Some j = Some (set_universe j (j_universe j))) as Hj by (by destruct j).
    destruct r as [r|]; [|exists (j_universe j); split_and!; [done|done|done|by rewrite Hpa]].
    destruct (Nat.eqb_spec (rq_item r) (s_item0 a)) as [He|Hne]; [exists (j_universe j); split_and!; [done|done|done|by rewrite Hpa]|].
    destruct Hr as (Ht & _ & _). destruct (Hnamed _ Ht) as [s Hs].
    destruct (pkg_of (j_universe j0) (rq_item r)) as [q|] eqn:Eq; [|done]. cbn [mbind option_bind] in Hs.
    assert (exists q', pkg_of (j_universe j) (rq_item r) = Some q' /\ reason_text q' = Some s) as (q' & -> & Hs').
    { pose proof (proj2 Hre (rq_item r)) as Hq'. rewrite Eq in Hq'. destruct Hq' as [H|[s' H]]; rewrite H; eexists; (split; [done|]); [done|].
      by rewrite reason_text_with_reason. }
    rewrite Hpa, Hp. cbn [mbind option_bind]. unfold reason_text in Hs'.
    destruct (pkg_get_string emit q' PKG_NAME) as [name|]; [|done]. destruct (pkg_get_string emit q' PKG_VERSION) as [version|]; [|done].
    cbn [mbind option_bind] in Hs' |- *. injection Hs' as <-. rewrite pkg_set_reason. cbn [mbind option_bind].
    eexists. split_and!; [done|apply reasoned_set; [done|by rewrite Hpa]| |].
    - intros i Hi. rewrite pkg_of_set_item. by rewrite decide_False.
    - rewrite pkg_of_set_item, decide_True, Hpa, Hp by done. by rewrite Hs. }
  cbn [mbind option_bind]. destruct (IH Hsome Hnd (set_universe j u1) Hre1 Hreq) as (u' & -> & Hre' & Hout & Hin).
  { intros b Hb. cbn [j_universe set_universe]. rewrite Hother; [by apply Hsame|].
    intros He. apply Hni. rewrite <- He. apply elem_of_map. by exists b. }
  cbn [j_universe set_universe] in Hout. exists u'. split_and!; [done|done| |].
  - intros i [Hi1 Hi2]%not_elem_of_cons. rewrite Hout by done. by apply Hother.
  - intros b [->|Hb]%elem_of_cons; [|by apply Hin]. rewrite Hout, Hself, Hp by done. done.
Qed.

(** pkg_jobs_set_deinstall_reasons touches only the packages to be deleted,
    and of those only the reason.  A package that a chain of at most 128
    dependencies leads from to a package that was requested for deletion
    gets the reason "depends on" with the name and version of such a one; one
    that was requested itself, or that no chain leads from, stays as it is. *)
Theorem set_deinstall_reasons_spec (j : pkg_jobs) (Hw : wf_universe emit (j_universe j)) (Hnamed : named_requests j)
  (Hsome : forall a, a ∈ j_jobs j -> is_Some (pkg_of (j_universe j) (s_item0 a))) (Hnd : NoDup (map s_item0 (j_jobs j))) :
  exists u', pkg_jobs_set_deinstall_reasons emit j = Some (set_universe j u') /\ u_items u' = u_items (j_universe j) /\
    (forall i, i ∉ map s_item0 (j_jobs j) -> pkg_of u' i = pkg_of (j_universe j) i) /\
    forall a p, a ∈ j_jobs j -> pkg_of (j_universe j) (s_item0 a) = Some p ->
      (exists n t s, (n <= 128)%nat /\ depends (j_universe j) n (s_item0 a) t /\ delete_asked j t /\ t <> s_item0 a /\
         pkg_of (j_universe j) t ≫= reason_text = Some s /\ pkg_of u' (s_item0 a) = Some (with_reason p s)) \/
      (pkg_of u' (s_item0 a) = Some p /\
         (delete_asked j (s_item0 a) \/ forall n t, (n <= 128)%nat -> depends (j_universe j) n (s_item0 a) t -> ~ delete_asked j t)).
Proof.
  assert (reasoned (j_universe j) (j_universe j)) as Hrefl.
  { split; [done|]. intros i. destruct (pkg_of _ _); [by left|done]. }
  destruct (deinstall_reasons_run j (j_jobs j) Hw Hnamed Hsome Hnd j Hrefl) as (u' & H & Hre & Hout & Hin); [done|done|].
  exists u'. split_and!; [done|apply Hre|done|]. intros a p Ha Hp. specialize (Hin a Ha). rewrite Hp in Hin. cbn in Hin.
  unfold with_deinstall_reason in Hin.
  destruct (find_deinstall_request_spec reason_levels j (s_item0 a) Hw ltac:(by exists p)) as (r & Hr & Hs). rewrite Hr in Hin.
  unfold reason_levels in Hs. destruct r as [r|].
  - destruct Hs as (Ht & _ & n & Hn & Hd). destruct (Nat.eqb_spec (rq_item r) (s_item0 a)) as [He|Hne].
    + right. split; [done|]. left. by rewrite <- He.
    + left. destruct (Hnamed _ Ht) as [s Hs]. rewrite Hs in Hin. exists n, (rq_item r), s. split_and!; [lia|done..].
  - right. split; [done|]. right. intros n t Hn Hd. apply (Hs n t); [lia|done].
Qed.

(** *** The automatic flag *)

Definition with_automatic (p : pkg) (b : bool) : pkg := set_fields p (<[str "automatic" := UBool b]> (fields p)).

Lemma set_automatic_some u i p b : pkg_of u i = Some p ->
  set_automatic u i b = Some (set_item_pkg u i (with_automatic p b)).
Proof. intros Hp. unfold set_automatic. rewrite Hp. done. Qed.

(** What becomes of the flag of the package [p] of a chain. *)
Definition propagated (j : pkg_jobs) (chain : list nat) (i : nat) (p : pkg) : pkg :=
  match chain with
  | [_] =>
      if negb (is_local p) && bool_decide (find_req (request_add j) i = None) then with_automatic p true
      else match j_type j with PKG_JOBS_INSTALL => with_automatic p false | _ => p end
  | _ =>
      if is_local p then p
      else match chain_pkgs (j_universe j) chain ≫= local_automatic emit with
           | Some b => with_automatic p b
           | None => p
           end
  end.

(** The packages of some items changed. *)
Definition changed (l : list nat) (f : nat -> pkg -> pkg) (u u' : universe) : Prop :=
  u_items u' = u_items u /\ (forall i, i ∉ l -> pkg_of u' i = pkg_of u i) /\
  forall i, i ∈ l -> pkg_of u' i = f i <$> pkg_of u i.

Lemma changed_nil f u : changed [] f u u.
Proof. split_and!; [done|done|]. intros i Hi. by apply elem_of_nil in Hi. Qed.

Lemma changed_one u i p q f : pkg_of u i = Some p -> f i p = q -> changed [i] f u (set_item_pkg u i q).
Proof.
  intros Hp <-. split_and!; [done|intros k Hk; rewrite pkg_of_set_item; by rewrite decide_False by (intros ->; apply Hk; left)|].
  intros k ->%list_elem_of_singleton. by rewrite pkg_of_set_item, decide_True, Hp.
Qed.

Lemma changed_app l1 l2 f u u1 u2 : (forall i, i ∈ l1 -> i ∉ l2) -> changed l1 f u u1 -> changed l2 f u1 u2 -> changed (l1 ++ l2) f u u2.
Proof.
  intros Hd (A1 & A2 & A3) (B1 & B2 & B3). split_and!; [congruence| |].
  - intros i [H1 H2]%not_elem_of_app. rewrite B2, A2; done.
  - intros i Hi. destruct (decide (i ∈ l1)) as [H1|H1].
    + rewrite B2 by (by apply Hd). by apply A3.
    + apply elem_of_app in Hi as [|Hi]; [done|]. rewrite B3, A2; done.
Qed.

Lemma changed_same l f u : (forall i p, i ∈ l -> pkg_of u i = Some p -> f i p = p) -> changed l f u u.
Proof.
  intros H. split_and!; [done|done|]. intros i Hi. destruct (pkg_of u i) as [p|] eqn:E; [|done]. cbn. by rewrite (H i p).
Qed.

Lemma propagate_rest b l : forall u, NoDup (map fst l) -> (forall ip, ip ∈ l -> pkg_of u (fst ip) = Some (snd ip)) ->
  exists u', fold_opt (fun u ip => if is_local (snd ip) then Some u else set_automatic u (fst ip) b) l u = Some u' /\
    changed (map fst l) (fun _ p => if is_local p then p else with_automatic p b) u u'.
Proof.
  induction l as [|[i p] l IH]; intros u Hnd Hl; [exists u; split; [done|apply changed_nil]|].
  apply elem_cons_forall in Hl as [Hp Hl]. cbn [fst snd map fold_opt] in *. apply NoDup_cons in Hnd as [Hni Hnd].
  assert (exists u1, (if is_local p then Some u else set_automatic u i b) = Some u1 /\
    changed [i] (fun _ p => if is_local p then p else with_automatic p b) u u1) as (u1 & -> & H1).
  { destruct (is_local p) eqn:El.
    - exists u. split; [done|]. apply changed_same. intros k q ->%list_elem_of_singleton Hq. assert (q = p) as -> by congruence. by rewrite El.
    - rewrite (set_automatic_some u i p) by done. eexists. split; [done|]. eapply changed_one; [done|]. by rewrite El. }
  cbn [mbind option_bind]. destruct (IH u1 Hnd) as (u' & -> & H2).
  - intros ip Hin. destruct H1 as (_ & H1 & _). rewrite H1; [by apply Hl|]. intros He%list_elem_of_singleton.
    apply Hni. rewrite <- He. apply elem_of_map. by exists ip.
  - exists u'. split; [done|]. apply (changed_app [i] _ _ _ u1); [by intros k ->%list_elem_of_singleton|done|done].
Qed.

Lemma chain_pkgs_same u v chain : (forall i, i ∈ chain -> pkg_of v i = pkg_of u i) -> chain_pkgs v chain = chain_pkgs u chain.
Proof.
  unfold chain_pkgs. induction chain as [|i chain IH]; intros H; [done|]. apply elem_cons_forall in H as [Hi H].
  cbn. rewrite Hi. destruct (pkg_of u i); [|done]. cbn. unfold chain_pkgs in IH. by rewrite IH.
Qed.

Lemma propagate_chain_ok j uid chain v : wf_universe emit (j_universe j) -> pkg_jobs_universe_find (j_universe j) uid = Some chain ->
  (forall i, i ∈ chain -> pkg_of v i = pkg_of (j_universe j) i) ->
  exists v', propagate_chain emit (set_universe j v) chain = Some (set_universe j v') /\ changed chain (propagated j chain) v v'.
Proof.
  intros Hw Hf Hsame. pose proof (chain_nodup emit _ _ _ Hw Hf) as Hnd.
  assert (chain <> []) as Hne by (apply (find_elements emit) in Hf; [by apply (wu_chains _ _ Hw _ _ Hf)|done]).
  destruct (chain_pkgs_some emit _ _ _ Hw Hf) as (l & Hl & Hm & Hall). rewrite Forall_forall in Hall.
  destruct chain as [|unit [|second rest]]; [done| |].
  - destruct (chain_member emit _ _ _ unit Hw Hf ltac:(by left)) as (p & Hp & _). rewrite <- Hsame in Hp by left.
    unfold propagate_chain, propagated. cbn [j_universe set_universe request_add j_type]. rewrite Hp. cbn [mbind option_bind].
    assert (forall b, exists v', (u ← set_automatic v unit b; Some (set_universe (set_universe j v) u)) = Some (set_universe j v') /\
      changed [unit] (fun _ p => with_automatic p b) v v') as Hset.
    { intros b. rewrite (set_automatic_some v unit p) by done. eexists. split; [done|]. by eapply changed_one. }
    assert (forall f, f unit p = p -> exists v', Some (set_universe j v) = Some (set_universe j v') /\ changed [unit] f v v') as Hsame'.
    { intros f Hfp. exists v. split; [done|]. apply changed_same. intros k q ->%list_elem_of_singleton Hq. congruence. }
    assert (forall f g v', f unit p = g unit p -> changed [unit] f v v' -> changed [unit] g v v') as Hext.
    { intros f g v' Hfg (A1 & A2 & A3). split_and!; [done|done|]. intros k ->%list_elem_of_singleton. rewrite A3, Hp by left. cbn. by rewrite Hfg. }
    destruct (find_req (request_add j) unit) as [r|] eqn:Er; [|destruct (is_local p) eqn:El; cbn [negb andb]].
    + destruct (j_type j); try (apply Hsame'; cbn beta; by rewrite bool_decide_eq_false_2, andb_false_r by (by rewrite Er)).
      destruct (Hset false) as (v' & H & Hc). exists v'. split; [done|]. eapply Hext; [|exact Hc].
      cbn beta. by rewrite bool_decide_eq_false_2, andb_false_r by (by rewrite Er).
    + destruct (j_type j); try (apply Hsame'; cbn beta; by rewrite El). destruct (Hset false) as (v' & H & Hc). exists v'.
      split; [done|]. eapply Hext; [|exact Hc]. cbn beta. by rewrite El.
    + destruct (Hset true) as (v' & H & Hc). exists v'. split; [done|]. eapply Hext; [|exact Hc]. cbn beta.
      by rewrite El, bool_decide_eq_true_2.
  - set (chain := unit :: second :: rest) in *.
    assert (propagate_chain emit (set_universe j v) chain = (l ← chain_pkgs v chain; match local_automatic emit l with
      | None => Some (set_universe j v)
      | Some automatic => u ← fold_opt (fun u ip => if is_local (snd ip) then Some u else set_automatic u (fst ip) automatic) l v;
          Some (set_universe (set_universe j v) u) end)) as -> by done.
    rewrite (chain_pkgs_same (j_universe j)), Hl by done. cbn [mbind option_bind].
    assert (forall i p, propagated j chain i p = if is_local p then p else match local_automatic emit l with
      | Some b => with_automatic p b | None => p end) as Hprop by (intros; unfold propagated; by rewrite Hl).
    destruct (local_automatic emit l) as [b|].
    + destruct (propagate_rest b l v) as (v' & -> & A1 & A2 & A3); [by rewrite Hm| |].
      { intros ip Hin. rewrite Hsame; [by apply Hall|]. rewrite <- Hm. apply elem_of_map. by exists ip. }
      rewrite Hm in A2, A3. cbn [mbind option_bind]. exists v'. split; [done|]. split_and!; [done|done|].
      intros i Hi. rewrite A3 by done. destruct (pkg_of v i) as [q|]; [|done].
      change (Some (if is_local q then q else with_automatic q b) = Some (propagated j chain i q)). by rewrite Hprop.
    + exists v. split; [done|]. apply changed_same. intros i p _ _. rewrite Hprop. by destruct (is_local p).
Qed.

Lemma propagate_chains_ok j chains : wf_universe emit (j_universe j) -> NoDup (concat chains) ->
  (forall chain, chain ∈ chains -> exists uid, pkg_jobs_universe_find (j_universe j) uid = Some chain) ->
  forall v, (forall i, i ∈ concat chains -> pkg_of v i = pkg_of (j_universe j) i) ->
  exists v', fold_opt (propagate_chain emit) chains (set_universe j v) = Some (set_universe j v') /\ u_items v' = u_items v /\
    (forall i, i ∉ concat chains -> pkg_of v' i = pkg_of v i) /\
    forall chain i, chain ∈ chains -> i ∈ chain -> pkg_of v' i = propagated j chain i <$> pkg_of v i.
Proof.
  intros Hw. induction chains as [|chain chains IH]; intros Hnd Hf v Hsame; cbn [fold_opt].
  { exists v. split_and!; [done|done|done|]. intros ? ? Hc. by apply elem_of_nil in Hc. }
  apply elem_cons_forall in Hf as [[uid Huid] Hf]. cbn [concat] in *. apply NoDup_app in Hnd as (_ & Hdisj & Hnd).
  destruct (propagate_chain_ok j uid chain v Hw Huid) as (v1 & -> & A1 & A2 & A3).
  { intros i Hi. apply Hsame. apply elem_of_app. by left. }
  cbn [mbind option_bind]. destruct (IH Hnd Hf v1) as (v' & -> & B1 & B2 & B3).
  { intros i Hi. rewrite A2; [apply Hsame, elem_of_app; by right|]. intros Hc. by eapply Hdisj. }
  exists v'. split_and!; [done|congruence| |].
  - intros i [H1 H2]%not_elem_of_app. rewrite B2, A2; done.
  - intros c i [->|Hc]%elem_of_cons Hi.
    + rewrite B2 by (by apply Hdisj). by apply A3.
    + rewrite (B3 c i Hc Hi), A2; [done|]. intros Hin. apply (Hdisj i Hin).
      apply list_elem_of_In, in_concat. exists c. split; by apply list_elem_of_In.
Qed.

Lemma propagate_automatic_ok (j : pkg_jobs) (Hw : wf_universe emit (j_universe j)) :
  exists u', pkg_jobs_propagate_automatic emit j = Some (set_universe j u') /\ u_items u' = u_items (j_universe j) /\
    forall uid chain i p, pkg_jobs_universe_find (j_universe j) uid = Some chain -> i ∈ chain ->
      pkg_of (j_universe j) i = Some p -> pkg_of u' i = Some (propagated j chain i p).
Proof.
  unfold pkg_jobs_propagate_automatic. rewrite hash_iter_wf by apply Hw. cbn [mbind option_bind].
  destruct (propagate_chains_ok j (values (u_items (j_universe j))) Hw (wu_nodup emit _ Hw)
    (fun chain Hc => proj1 (chain_in_values emit _ chain Hw) Hc) (j_universe j) (fun _ _ => eq_refl)) as (u' & H & Hi & _ & Hin).
  replace (set_universe j (j_universe j)) with j in H by (by destruct j). exists u'. split_and!; [done|done|].
  intros uid chain i p Hf Hi' Hp. rewrite (Hin chain i) by (done || by apply (chain_in_values emit); [|exists uid]). by rewrite Hp.
Qed.

(** pkg_jobs_propagate_automatic changes nothing but automatic flags.  A
    remote package alone under its unique id gets the flag unless it was
    requested; in an installation the other packages that are alone lose it.
    Remote packages that share their unique id with an installed one take over
    its flag, whatever they were. *)
Theorem propagate_automatic_spec (j : pkg_jobs) (Hw : wf_universe emit (j_universe j)) :
  exists u', pkg_jobs_propagate_automatic emit j = Some (set_universe j u') /\ u_items u' = u_items (j_universe j) /\
    forall uid chain i p, pkg_jobs_universe_find (j_universe j) uid = Some chain -> i ∈ chain ->
      pkg_of (j_universe j) i = Some p -> pkg_of u' i = Some (propagated j chain i p).
Proof. by apply propagate_automatic_ok. Qed.
End correct.

(** *** Automatic packages nothing needs *)

Section autoremove.
Context (emit : ucl -> cstring) (sha256 : cstring -> list Z)
  (repo_digest_format : cstring -> option pkg_checksum_type_t) `{db : pkgdb} (C : catalogue).

Abbreviation test_automatic := (pkg_jobs_test_automatic emit sha256 repo_digest_format).

(** The installed packages by unique id: the databases answer with them, and
    their reverse dependencies are installed and have no cycles. *)
Record installation (L : cstring -> option pkg) (rank : cstring -> nat) : Prop := mk_installation {
  in_known : forall uid p, L uid = Some p -> known emit C p /\ pkg_uid emit p = Some uid /\ is_local p = true;
  in_query : forall uid flag, pkgdb_query (Some uid) MATCH_EXACT flag ≫= head = L uid;
  in_rdeps : forall uid p d, L uid = Some p -> d ∈ values (rdeps p) ->
    is_Some (L (dep_uid d)) /\ (rank (dep_uid d) < rank uid)%nat }.

Context (L : cstring -> option pkg) (rank : cstring -> nat) (HL : installation L rank).

(** A package that is not automatic depends on it, directly or not. *)
Inductive needed : pkg -> Prop :=
  | needed_by p d q : d ∈ values (rdeps p) -> L (dep_uid d) = Some q -> is_automatic emit q = false -> needed p
  | needed_through p d q : d ∈ values (rdeps p) -> L (dep_uid d) = Some q -> needed q -> needed p.

(** The universe holds installed packages only. *)
Definition tracks (u : universe) : Prop := sound emit C u /\ forall i p, pkg_of u i = Some p -> exists uid, L uid = Some p.

Definition moved (j j' : pkg_jobs) : Prop := grows j j' /\ tracks (j_universe j').

Lemma moved_refl j : tracks (j_universe j) -> moved j j.
Proof. intros H. split; [apply grows_refl|done]. Qed.

Lemma moved_trans j1 j2 j3 : moved j1 j2 -> moved j2 j3 -> moved j1 j3.
Proof. intros [H1 _] [H2 H3]. split; [by eapply grows_trans|done]. Qed.

Lemma L_uid uid uid' p : L uid = Some p -> L uid' = Some p -> uid = uid'.
Proof. intros H1 H2. destruct (in_known _ _ HL _ _ H1) as (_ & U1 & _), (in_known _ _ HL _ _ H2) as (_ & U2 & _). congruence. Qed.

Lemma head_tracks u uid i : tracks u -> head_item u uid = Some i -> exists p, pkg_of u i = Some p /\ L uid = Some p.
Proof.
  intros [Hs Ht] Hi. destruct (head_item_pkg emit u uid i (sd_wf _ _ _ Hs) Hi) as (p & Hp & Hu). exists p. split; [done|].
  destruct (Ht i p Hp) as [uid' Hl]. destruct (in_known _ _ HL _ _ Hl) as (_ & Hu' & _). congruence.
Qed.

Lemma head_none_unseen u uid p d : tracks u -> L uid = Some p -> pkg_digest emit p = Some d -> head_item u uid = None ->
  hash_lookup (u_seen u) d = None.
Proof.
  intros [Hs Ht] Hl Hd Hh. destruct (hash_lookup (u_seen u) d) as [i|] eqn:E; [|done].
  destruct (wu_digests _ _ (sd_wf _ _ _ Hs) d i E) as (q & Hq & Hdq). destruct (Ht i q Hq) as [uid' Hl'].
  destruct (in_known _ _ HL _ _ Hl) as (Hk & Hu & _), (in_known _ _ HL _ _ Hl') as (Hk' & Hu' & _).
  destruct (kn_ids _ _ _ Hk) as (u1 & d1 & U1 & D1 & C1 & _). destruct (kn_ids _ _ _ Hk') as (u2 & d2 & U2 & D2 & C2 & _).
  assert (uid' = uid) as -> by congruence.
  destruct (chain_of_item emit u i q (sd_wf _ _ _ Hs) Hq) as (chain & u3 & _ & Hi & Hu3 & Hf).
  assert (u3 = uid) as -> by congruence. unfold head_item in Hh. rewrite Hf in Hh. destruct chain; [by apply elem_of_nil in Hi|done].
Qed.

(** In this job a package that is processed brings nothing with it. *)
Lemma process_item_autoremove fuel j p uid b : j_type j = PKG_JOBS_AUTOREMOVE -> tracks (j_universe j) -> L uid = Some p ->
  head_item (j_universe j) uid = None -> (0 < fuel)%nat ->
  exists j' i, process_item emit sha256 repo_digest_format fuel j p b = Some (EPKG_OK, j', Some i) /\ moved j j' /\
    pkg_of (j_universe j') i = Some p.
Proof.
  intros Hty Ht Hl Hh Hfuel. destruct fuel as [|fuel]; [lia|]. destruct (in_known _ _ HL _ _ Hl) as (Hk & Hu & _).
  destruct (kn_ids _ _ _ Hk) as (u1 & d & Hu1 & Hd & _). pose proof (head_none_unseen _ _ _ _ Ht Hl Hd Hh) as Hs.
  cbn [process_item]. unfold pkg_jobs_universe_add_pkg, pkg_jobs_universe_seen. rewrite Hd. cbn [mbind option_bind]. rewrite Hd.
  cbn [mbind option_bind]. rewrite Hs, Hu. cbn [mbind option_bind]. unfold process_new. cbn [j_type set_universe]. rewrite Hty.
  cbn [mbind option_bind]. destruct (insert_sound emit C j p uid d (proj1 Ht) Hk Hu Hd Hs) as (Hg & Hs' & Hp & _).
  eexists _, _. split_and!; [done| |exact Hp]. split; [exact Hg|]. split; [exact Hs'|]. intros i q. cbn [j_universe set_universe].
  rewrite pkg_of_insert. destruct (decide _); [intros [= <-]; by exists uid|apply Ht].
Qed.

(** A reverse dependency: whether it is automatic; then it is in the universe. *)
Lemma automatic_rdep_ok fuel j uid q : j_type j = PKG_JOBS_AUTOREMOVE -> tracks (j_universe j) -> L uid = Some q -> (0 < fuel)%nat ->
  exists j', automatic_rdep emit sha256 repo_digest_format fuel j uid = Some (if is_automatic emit q then Some q else None, j') /\
    moved j j'.
Proof.
  intros Hty Ht Hl Hfuel. unfold automatic_rdep. destruct (head_item (j_universe j) uid) as [un|] eqn:Eh.
  { destruct (head_tracks _ _ _ Ht Eh) as (p & Hp & Hlp). rewrite Hp. cbn [mbind option_bind]. assert (p = q) as -> by congruence.
    exists j. split; [done|by apply moved_refl]. }
  unfold pkg_jobs_universe_get_local, known_item. rewrite Eh. cbn [mbind option_bind]. rewrite (in_query _ _ HL), Hl. cbn [mbind option_bind].
  destruct (is_automatic emit q); [|exists j; split; [done|by apply moved_refl]].
  destruct (process_item_autoremove fuel j q uid false Hty Ht Hl Eh Hfuel) as (j' & i & H & Hm & _).
  exists j'. split; [|done]. unfold pkg_jobs_universe_process. by rewrite H.
Qed.

Lemma moved_type j j' : moved j j' -> j_type j' = j_type j.
Proof. intros [Hg _]. by apply grows_job. Qed.

Lemma test_rdeps_ok fuel depth p ds : (0 < fuel)%nat ->
  (forall j uid q, j_type j = PKG_JOBS_AUTOREMOVE -> tracks (j_universe j) -> L uid = Some q -> (rank uid < depth)%nat ->
     exists b j', test_automatic fuel depth j q = Some (b, j') /\ moved j j' /\ if b : bool then ~ needed q else needed q) ->
  (forall d, d ∈ ds -> d ∈ values (rdeps p) /\ is_Some (L (dep_uid d)) /\ (rank (dep_uid d) < depth)%nat) ->
  forall j, j_type j = PKG_JOBS_AUTOREMOVE -> tracks (j_universe j) ->
  exists b j', test_rdeps emit sha256 repo_digest_format fuel (test_automatic fuel depth) ds j = Some (b, j') /\ moved j j' /\
    if b : bool then forall d q, d ∈ ds -> L (dep_uid d) = Some q -> is_automatic emit q = true /\ ~ needed q else needed p.
Proof.
  intros Hfuel Hrec. induction ds as [|d ds IH]; intros Hds j Hty Ht; cbn [test_rdeps].
  { exists true, j. split_and!; [done|by apply moved_refl|]. intros d q Hd. by apply elem_of_nil in Hd. }
  apply elem_cons_forall in Hds as [(Hin & [q Hl] & Hr) Hds].
  destruct (automatic_rdep_ok fuel j (dep_uid d) q Hty Ht Hl Hfuel) as (j1 & -> & Hm1). cbn [mbind option_bind].
  destruct (is_automatic emit q) eqn:Ea; [|exists false, j1; split_and!; [done|done|by eapply needed_by]].
  destruct (Hrec j1 (dep_uid d) q) as (b & j2 & -> & Hm2 & Hb); [by rewrite (moved_type j)|apply Hm1|done|done|]. cbn [mbind option_bind].
  destruct b; [|exists false, j2; split_and!; [done|by eapply moved_trans|by eapply needed_through]].
  destruct (IH Hds j2) as (b & j3 & -> & Hm3 & Hb3); [by rewrite (moved_type j1), (moved_type j)|apply Hm2|].
  exists b, j3. split_and!; [done|by eapply moved_trans, moved_trans|]. destruct b; [|done].
  intros d' q' [->|Hd']%elem_of_cons Hl'; [|by apply (Hb3 d')]. assert (q' = q) as -> by congruence. done.
Qed.

Lemma test_automatic_ok fuel depth : (0 < fuel)%nat -> forall j uid p, j_type j = PKG_JOBS_AUTOREMOVE -> tracks (j_universe j) ->
  L uid = Some p -> (rank uid < depth)%nat ->
  exists b j', test_automatic fuel depth j p = Some (b, j') /\ moved j j' /\ if b : bool then ~ needed p else needed p.
Proof.
  intros Hfuel. induction depth as [|depth IH]; intros j uid p Hty Ht Hl Hr; [lia|]. cbn [pkg_jobs_test_automatic].
  destruct (in_known _ _ HL _ _ Hl) as (Hk & _). unfold pkg_rdeps. rewrite hash_iter_wf by apply (kn_wf _ _ _ Hk).
  cbn [mbind option_bind].
  destruct (test_rdeps_ok fuel depth p (values (rdeps p)) Hfuel IH) with (j := j) as (b & j' & H & Hm & Hb); [|done..|].
  - intros d Hd. destruct (in_rdeps _ _ HL uid p d Hl Hd) as [Hs Hlt]. split_and!; [done|done|lia].
  - exists b, j'. split_and!; [done|done|]. destruct b; [|done].
    intros Hn. inversion Hn as [? d q Hd Hq Ha|? d q Hd Hq Hn']; subst; destruct (Hb d q Hd Hq); congruence.
Qed.

(** The package of an item is requested for deletion. *)
Definition requested (j : pkg_jobs) (q : pkg) : Prop := exists i, delete_asked j i /\ pkg_of (j_universe j) i = Some q.

(** An automatic package that nothing needs, and that is not locked. *)
Definition removable (p : pkg) : Prop := pkg_is_locked emit p = false /\ ~ needed p.

Lemma find_req_append l i k : is_Some (find_req (l ++ [mk_req i false]) k) <-> is_Some (find_req l k) \/ k = i.
Proof.
  unfold find_req. rewrite find_app. destruct (find (fun r => Nat.eqb (rq_item r) k) l); [split; [by left|done]|].
  cbn. destruct (Nat.eqb_spec i k) as [->|Hne]; split; try done; try (by right). by intros [[? ?]|He].
Qed.

(** A request for an item that may be there already. *)
Lemma add_req_delete j i p : IS_DELETE j = true -> pkg_of (j_universe j) i = Some p -> is_local p = true ->
  exists j', pkg_jobs_add_req j i = Some j' /\ j' = set_request_delete j (request_delete j') /\
    forall k, delete_asked j' k <-> delete_asked j k \/ k = i.
Proof.
  intros Hd Hp Hl. unfold pkg_jobs_add_req. rewrite Hp. cbn [mbind option_bind]. rewrite Hd, Hl. cbn [negb]. unfold delete_asked.
  destruct (find_req (request_delete j) i) eqn:E.
  - exists j. split_and!; [done|by destruct j|]. intros k. split; [by left|]. intros [?| ->]; [done|by rewrite E].
  - eexists. split_and!; [done|done|]. intros k. apply find_req_append.
Qed.

(** Requests are only added; the universe only grows. *)
Record collects (f : pkg -> Prop) (j j' : pkg_jobs) : Prop := mk_collects {
  cl_job : j' = set_request_delete (set_universe j (j_universe j')) (request_delete j');
  cl_tracks : tracks (j_universe j');
  cl_items : forall i p, pkg_of (j_universe j) i = Some p -> pkg_of (j_universe j') i = Some p;
  cl_stored : forall i, delete_asked j' i -> is_Some (pkg_of (j_universe j') i);
  cl_requested : forall q, requested j' q <-> requested j q \/ f q }.

Lemma collects_trans f g j1 j2 j3 : collects f j1 j2 -> collects g j2 j3 -> collects (fun q => f q \/ g q) j1 j3.
Proof.
  intros [A1 A2 A3 A4 A5] [B1 B2 B3 B4 B5]. split; [by rewrite B1, A1|done|auto|done|]. intros q. rewrite B5, A5. tauto.
Qed.

Lemma autoremove_unit_ok fuel depth j uid p un : (0 < fuel)%nat -> (rank uid < depth)%nat -> j_type j = PKG_JOBS_AUTOREMOVE ->
  tracks (j_universe j) -> (forall i, delete_asked j i -> is_Some (pkg_of (j_universe j) i)) -> L uid = Some p ->
  pkg_of (j_universe j) un = Some p ->
  exists j', autoremove_unit emit sha256 repo_digest_format fuel depth j (Some un) p = Some j' /\
    collects (fun q => q = p /\ removable p) j j'.
Proof.
  intros Hfuel Hr Hty Ht Hst Hl Hun. unfold autoremove_unit. destruct (in_known _ _ HL _ _ Hl) as (_ & _ & Hloc).
  destruct (pkg_is_locked emit p) eqn:Elk.
  { exists j. split; [done|]. split; [by destruct j|done|done|done|]. intros q. unfold removable. rewrite Elk. intuition congruence. }
  destruct (test_automatic_ok fuel depth Hfuel j uid p Hty Ht Hl Hr) as (b & j1 & -> & [Hg Ht1] & Hb). cbn [mbind option_bind].
  destruct (grows_job _ _ Hg) as (Hty1 & _ & _ & Hreq1).
  assert (forall q, requested j1 q <-> requested j q) as Hsame.
  { intros q. unfold requested, delete_asked. rewrite Hreq1. split; intros (i & Hi & Hq); exists i; (split; [done|]).
    - destruct (Hst i Hi) as [p' Hp']. pose proof (gr_items _ _ Hg _ _ Hp'). congruence.
    - by apply (gr_items _ _ Hg). }
  assert (forall i, delete_asked j1 i -> is_Some (pkg_of (j_universe j1) i)) as Hst1.
  { intros i. unfold delete_asked. rewrite Hreq1. intros Hi. destruct (Hst i Hi) as [p' Hp']. exists p'. by apply (gr_items _ _ Hg). }
  assert (j1 = set_request_delete (set_universe j (j_universe j1)) (request_delete j1)) as Hj1.
  { rewrite <- (gr_job _ _ Hg) at 1. rewrite Hreq1. by destruct j. }
  destruct b.
  - destruct (add_req_delete j1 un p) as (j2 & -> & Hj2 & Hdel); [by unfold IS_DELETE; rewrite Hty1, Hty|by apply (gr_items _ _ Hg)|done|].
    assert (j_universe j2 = j_universe j1) as Hu2 by (by rewrite Hj2).
    exists j2. split; [done|]. split; rewrite ?Hu2; [by rewrite Hj2, Hj1|done|apply Hg| |].
    + intros i [Hi| ->]%Hdel; [by apply Hst1|]. exists p. by apply (gr_items _ _ Hg).
    + intros q. rewrite <- Hsame. unfold requested. rewrite Hu2. split.
      * intros (i & [Hi| ->]%Hdel & Hq); [left; by exists i|right]. pose proof (gr_items _ _ Hg _ _ Hun). split; [congruence|by split].
      * intros [(i & Hi & Hq)|[-> _]].
        -- exists i. split; [apply Hdel; by left|done].
        -- exists un. split; [apply Hdel; by right|by apply (gr_items _ _ Hg)].
  - exists j1. split; [done|]. split; [done|done|apply Hg|done|]. intros q. rewrite Hsame. unfold removable. intuition congruence.
Qed.

Lemma autoremove_row_ok fuel depth j uid p : (0 < fuel)%nat -> (rank uid < depth)%nat -> j_type j = PKG_JOBS_AUTOREMOVE ->
  tracks (j_universe j) -> (forall i, delete_asked j i -> is_Some (pkg_of (j_universe j) i)) -> L uid = Some p ->
  exists j', autoremove_row emit sha256 repo_digest_format fuel depth j p = Some j' /\ collects (fun q => q = p /\ removable p) j j'.
Proof.
  intros Hfuel Hr Hty Ht Hst Hl. unfold autoremove_row. destruct (in_known _ _ HL _ _ Hl) as (_ & Hu & _). rewrite Hu. cbn [mbind option_bind].
  destruct (head_item (j_universe j) uid) as [un|] eqn:Eh.
  - destruct (head_tracks _ _ _ Ht Eh) as (q & Hq & Hlq). assert (q = p) as -> by congruence. rewrite Hq. cbn [mbind option_bind].
    by apply (autoremove_unit_ok fuel depth j uid).
  - destruct (process_item_autoremove fuel j p uid true Hty Ht Hl Eh Hfuel) as (j1 & i & -> & [Hg Ht1] & Hp). cbn [mbind option_bind].
    destruct (grows_job _ _ Hg) as (Hty1 & _ & _ & Hreq1).
    assert (forall k, delete_asked j1 k <-> delete_asked j k) as Hdel by (intros k; unfold delete_asked; by rewrite Hreq1).
    destruct (autoremove_unit_ok fuel depth j1 uid p i) as (j2 & -> & [B1 B2 B3 B4 B5]); try done; [congruence| |].
    { intros k Hk%Hdel. destruct (Hst k Hk) as [x Hx]. exists x. by apply (gr_items _ _ Hg). }
    exists j2. split; [done|]. split; [|done| |done|].
    + rewrite B1. rewrite <- (gr_job _ _ Hg). done.
    + intros k x Hx. by apply B3, (gr_items _ _ Hg).
    + intros q. rewrite B5. assert (requested j1 q <-> requested j q) as ->; [|done]. unfold requested.
      split; intros (k & Hk & Hq); exists k; (split; [by apply Hdel|]).
      * apply Hdel in Hk. destruct (Hst k Hk) as [x Hx]. pose proof (gr_items _ _ Hg _ _ Hx). congruence.
      * by apply (gr_items _ _ Hg).
Qed.

Lemma autoremove_rows_ok fuel depth rows : (0 < fuel)%nat -> (forall uid p, L uid = Some p -> (rank uid < depth)%nat) ->
  (forall p, p ∈ rows -> exists uid, L uid = Some p) ->
  forall j, j_type j = PKG_JOBS_AUTOREMOVE -> tracks (j_universe j) -> (forall i, delete_asked j i -> is_Some (pkg_of (j_universe j) i)) ->
  exists j', fold_opt (autoremove_row emit sha256 repo_digest_format fuel depth) rows j = Some j' /\
    collects (fun q => q ∈ rows /\ removable q) j j'.
Proof.
  intros Hfuel Hdepth. induction rows as [|p rows IH]; intros Hrows j Hty Ht Hst; cbn [fold_opt].
  { exists j. split; [done|]. split; [by destruct j|done|done|done|]. intros q. rewrite elem_of_nil. tauto. }
  apply elem_cons_forall in Hrows as [[uid Hl] Hrows].
  destruct (autoremove_row_ok fuel depth j uid p Hfuel (Hdepth _ _ Hl) Hty Ht Hst Hl) as (j1 & -> & H1). cbn [mbind option_bind].
  destruct (IH Hrows j1) as (j2 & -> & H2); [by rewrite (cl_job _ _ _ H1)|apply H1|apply H1|]. exists j2. split; [done|].
  destruct (collects_trans _ _ _ _ _ H1 H2) as [A1 A2 A3 A4 A5]. split; [done..|]. intros q. rewrite A5, elem_of_cons.
  intuition congruence.
Qed.

(** C34: jobs_solve_autoremove requests exactly the packages of its query that
    are not locked and that no package that is not automatic depends on,
    directly or through others, when the installed packages have no cycles of
    reverse dependencies; the search then ends. *)
Theorem autoremove_requests (fuel depth : nat) (rows : list pkg) (j : pkg_jobs) (Hty : j_type j = PKG_JOBS_AUTOREMOVE)
  (Ht : tracks (j_universe j)) (Hreq : request_delete j = []) (Hfuel : (0 < fuel)%nat)
  (Hdepth : forall uid p, L uid = Some p -> (rank uid < depth)%nat)
  (Hq : pkgdb_query (Some (str " WHERE automatic=1 ")) MATCH_CONDITION deinstall_flags = Some rows)
  (Hrows : forall p, p ∈ rows -> exists uid, L uid = Some p) :
  exists j', jobs_solve_autoremove emit sha256 repo_digest_format fuel depth j = Some (EPKG_OK, j') /\
    tracks (j_universe j') /\ j_solved j' = 1 /\
    forall q, requested j' q <-> q ∈ rows /\ pkg_is_locked emit q = false /\ ~ needed q.
Proof.
  destruct (autoremove_rows_ok fuel depth rows Hfuel Hdepth Hrows j Hty Ht) as (j1 & H1 & Hc).
  { intros i. unfold delete_asked. rewrite Hreq. by intros [? ?]. }
  unfold jobs_solve_autoremove. rewrite Hq, H1. cbn [mbind option_bind]. exists (set_solved j1 1). split_and!; [done|apply Hc|done|].
  intros q. change (requested (set_solved j1 1) q) with (requested j1 q). rewrite (cl_requested _ _ _ Hc).
  unfold requested at 1, delete_asked. rewrite Hreq. unfold removable. split; [|tauto]. intros [(i & [? ?] & _)|H]; done.
Qed.
End autoremove.

(** *** A cycle *)

(** Two automatic packages that depend on each other make
    pkg_jobs_test_automatic recurse without end. *)
Theorem test_automatic_cycle_diverges (emit : ucl -> cstring) (sha256 : cstring -> list Z)
  (repo_digest_format : cstring -> option pkg_checksum_type_t) (db : pkgdb) (fuel depth : nat) (j : pkg_jobs)
  (p q : pkg) (i k : nat) (d e : pkg_dep) (ds es : list pkg_dep)
  (Hp : pkg_of (j_universe j) i = Some p) (Hq : pkg_of (j_universe j) k = Some q)
  (Hpa : is_automatic emit p = true) (Hqa : is_automatic emit q = true)
  (Hpd : pkg_rdeps p = Some (d :: ds)) (Hqd : pkg_rdeps q = Some (e :: es))
  (Hd : head_item (j_universe j) (dep_uid d) = Some k) (He : head_item (j_universe j) (dep_uid e) = Some i) :
  pkg_jobs_test_automatic emit sha256 repo_digest_format fuel depth j p = None.
Proof.
  assert (forall n, (forall m, (m < n)%nat -> pkg_jobs_test_automatic emit sha256 repo_digest_format fuel m j p = None /\
    pkg_jobs_test_automatic emit sha256 repo_digest_format fuel m j q = None)) as H; [|by apply (H (S depth)); lia].
  induction n as [|n IH]; intros m Hm; [lia|]. destruct m as [|m]; [done|]. destruct (IH m ltac:(lia)) as [IHp IHq].
  cbn [pkg_jobs_test_automatic]. rewrite Hpd, Hqd. cbn [mbind option_bind test_rdeps]. unfold automatic_rdep.
  rewrite Hd, He, Hp, Hq. cbn [mbind option_bind]. rewrite Hpa, Hqa. cbn [mbind option_bind]. by rewrite IHp, IHq.
Qed.

(** *** A concrete installation *)

(** Package lib is used by app only, helper by tool; tool alone was asked for. *)
Definition automatic_row (name digest : string) (ops : list pkg_op) : pkg :=
  sample_row PKG_INSTALLED name "1.0" digest (OpSet [(PKG_AUTOMATIC, ArgBool true)] :: ops).
Definition needed_by_op (name : string) : pkg_op := OpRdep (str name) (str "x/" ++ str name) (str "1.0") false.

Definition auto_lib : pkg := automatic_row "lib" "d_lib" [needed_by_op "app"].
Definition auto_app : pkg := automatic_row "app" "d_app" [].
Definition auto_helper : pkg := automatic_row "helper" "d_helper" [needed_by_op "tool"].
Definition tool : pkg := sample_row PKG_INSTALLED "tool" "1.0" "d_tool" [].

Definition installed_rows : list (string * pkg) :=
  [("lib~x/lib", auto_lib); ("app~x/app", auto_app); ("helper~x/helper", auto_helper); ("tool~x/tool", tool)].

Definition installed_db : pkgdb := mk_pkgdb
  (fun pat m _ => match m with
     | MATCH_CONDITION => Some [auto_lib; auto_app; auto_helper]
     | _ => Some (from_option (rows_of installed_rows) (map snd installed_rows) pat)
     end)
  (fun _ _ _ => None) (fun _ _ => None) (fun p _ => p).

Definition installed_catalogue : catalogue :=
  let names := ["lib"; "app"; "helper"; "tool"]%string in
  mk_catalogue
    (list_to_map (map (fun n => (str "d_" ++ str n, str n ++ str "~x/" ++ str n)) names))
    (list_to_map (map (fun n => (str n ++ str "~x/" ++ str n, str "d_" ++ str n)) names)).

Definition installed_pkg (uid : cstring) : option pkg := head (rows_of installed_rows uid).

Definition installed_rank (uid : cstring) : nat :=
  if bool_decide (uid = str "lib~x/lib") || bool_decide (uid = str "helper~x/helper") then 1 else 0.

Lemma installed_pkg_cases uid p : installed_pkg uid = Some p ->
  (uid = str "lib~x/lib" /\ p = auto_lib) \/ (uid = str "app~x/app" /\ p = auto_app) \/
  (uid = str "helper~x/helper" /\ p = auto_helper) \/ (uid = str "tool~x/tool" /\ p = tool).
Proof.
  intros H. assert (p ∈ rows_of installed_rows uid) as (n & -> & Hin)%elem_rows_of.
  { unfold installed_pkg in H. destruct (rows_of installed_rows uid); [done|]. injection H as ->. by left. }
  repeat (apply elem_of_cons in Hin as [[= -> ->]|Hin]; [tauto|]). by apply elem_of_nil in Hin.
Qed.

Lemma installed_ok : installation (db := installed_db) no_emit installed_catalogue installed_pkg installed_rank.
Proof.
  split.
  - intros uid p [[-> ->]|[[-> ->]|[[-> ->]|[-> ->]]]]%installed_pkg_cases; (split; [|split; vm_compute; reflexivity]);
      (unfold auto_lib, auto_app, auto_helper, tool, automatic_row; apply known_sample_row;
       [repeat constructor
       |eexists _, _; split_and!; [vm_compute; reflexivity|vm_compute; reflexivity|vm_compute; reflexivity|intros _; vm_compute; reflexivity]
       |vm_compute; reflexivity]).
  - done.
  - intros uid p d [[-> ->]|[[-> ->]|[[-> ->]|[-> ->]]]]%installed_pkg_cases Hd.
    + assert (values (rdeps auto_lib) = [new_dep (str "app") (str "x/app") (str "1.0") false]) as E by (vm_compute; reflexivity).
      rewrite E in Hd. apply list_elem_of_singleton in Hd as ->. split; [eexists; vm_compute; reflexivity|vm_compute; lia].
    + assert (values (rdeps auto_app) = []) as E by (vm_compute; reflexivity). rewrite E in Hd. by apply elem_of_nil in Hd.
    + assert (values (rdeps auto_helper) = [new_dep (str "tool") (str "x/tool") (str "1.0") false]) as E by (vm_compute; reflexivity).
      rewrite E in Hd. apply list_elem_of_singleton in Hd as ->. split; [eexists; vm_compute; reflexivity|vm_compute; lia].
    + assert (values (rdeps tool) = []) as E by (vm_compute; reflexivity). rewrite E in Hd. by apply elem_of_nil in Hd.
Qed.

Definition autoremove_jobs : pkg_jobs := mk_jobs pkg_jobs_universe_new [] [] [] PKG_JOBS_AUTOREMOVE 0 0 0.

Lemma tracks_new C L : tracks no_emit C L pkg_jobs_universe_new.
Proof.
  split; [|done]. split; [apply wf_universe_new|done|done|done|apply wf_empty|].
  intros prs pr H. by apply elem_of_nil in H.
Qed.

Lemma autoremove_requests_witness :
  exists j', jobs_solve_autoremove (db := installed_db) no_emit (fun _ => []) (fun _ => None) 1 2 autoremove_jobs = Some (EPKG_OK, j') /\
    map rq_item (request_delete j') = [0; 1]%nat /\ requested j' auto_lib /\ ~ requested j' auto_helper.
Proof.
  destruct (autoremove_requests (db := installed_db) no_emit (fun _ => []) (fun _ => None) installed_catalogue installed_pkg installed_rank
    installed_ok 1 2 [auto_lib; auto_app; auto_helper] autoremove_jobs eq_refl (tracks_new _ _) eq_refl ltac:(lia)
    ltac:(intros uid p _; unfold installed_rank; destruct (_ || _); lia) eq_refl) as (j' & H & _ & _ & Hr).
  { intros p Hp. repeat (apply elem_of_cons in Hp as [->|Hp]); [..|by apply elem_of_nil in Hp].
    - by exists (str "lib~x/lib").
    - by exists (str "app~x/app").
    - by exists (str "helper~x/helper"). }
  assert (option_map (fun r => map rq_item (request_delete (snd r)))
    (jobs_solve_autoremove (db := installed_db) no_emit (fun _ => []) (fun _ => None) 1 2 autoremove_jobs) = Some [0; 1]%nat) as Hc
    by (vm_compute; reflexivity).
  rewrite H in Hc. injection Hc as Hc. exists j'. split; [exact H|]. split; [exact Hc|].
  assert (values (rdeps auto_lib) = [new_dep (str "app") (str "x/app") (str "1.0") false]) as El by (vm_compute; reflexivity).
  assert (values (rdeps auto_app) = []) as Ea by (vm_compute; reflexivity).
  assert (forall q, installed_pkg (str "app~x/app") = Some q -> q = auto_app) as Happ by (intros q Hq; vm_compute in Hq; injection Hq as <-; vm_compute; reflexivity).
  split; rewrite Hr.
  - split_and!; [by left|vm_compute; reflexivity|]. intros Hn. inversion Hn as [? d q Hd Hq Hna|? d q Hd Hq Hn']; subst;
      rewrite El in Hd; apply list_elem_of_singleton in Hd as ->; apply Happ in Hq as ->.
    + vm_compute in Hna. discriminate.
    + inversion Hn' as [? d' ? Hd'|? d' ? Hd']; subst; rewrite Ea in Hd'; by apply elem_of_nil in Hd'.
  - intros (_ & _ & Hn). apply Hn. apply (needed_by no_emit installed_pkg auto_helper (new_dep (str "tool") (str "x/tool") (str "1.0") false) tool).
    + vm_compute. left.
    + vm_compute. reflexivity.
    + vm_compute. reflexivity.
Defined.

(** Package app, which depends on lib, is deleted with it. *)
Definition named_lib : pkg := sample_row PKG_INSTALLED "lib" "1.0" "d_lib" [OpSet [(PKG_NAME, ArgString (Some (str "lib")))]].
Definition dependent_app : pkg := sample_row PKG_INSTALLED "app" "2.0" "d_app" [OpDep (str "lib") (str "x/lib") (str "1.0") false].

Definition reason_universe : universe :=
  insert_item (insert_item pkg_jobs_universe_new named_lib (str "lib~x/lib") (str "d_lib")) dependent_app (str "app~x/app") (str "d_app").

Definition reason_jobs : pkg_jobs := mk_jobs reason_universe [] [mk_req 0 false]
  [mk_solved 1 None PKG_SOLVED_DELETE false; mk_solved 0 None PKG_SOLVED_DELETE false] PKG_JOBS_DEINSTALL 0 1 2.

Lemma reason_universe_wf : wf_universe no_emit reason_universe.
Proof.
  do 2 (apply wf_insert; [|apply wf_sample_row; repeat constructor|vm_compute; reflexivity|vm_compute; reflexivity]).
  apply wf_universe_new.
Qed.

Lemma reason_named : named_requests no_emit reason_jobs.
Proof.
  intros t [r Hr]. unfold reason_jobs, find_req in Hr. cbn in Hr. destruct t as [|t]; [|done].
  eexists. vm_compute. reflexivity.
Qed.

Lemma set_deinstall_reasons_spec_witness :
  exists u', pkg_jobs_set_deinstall_reasons no_emit reason_jobs = Some (set_universe reason_jobs u') /\
    pkg_get_string no_emit <$> pkg_of u' 1 = Some (pkg_get_string no_emit (with_reason dependent_app (str "depends on lib-1.0"))).
Proof.
  destruct (set_deinstall_reasons_spec no_emit reason_jobs reason_universe_wf reason_named) as (u' & H & _ & _ & Hin).
  - intros a Ha. repeat (apply elem_of_cons in Ha as [->|Ha]; [eexists; vm_compute; reflexivity|]). by apply elem_of_nil in Ha.
  - apply (bool_decide_unpack _). vm_compute. exact I.
  - exists u'. split; [exact H|].
    assert (pkg_of reason_universe 1 = Some dependent_app) as Happ by (vm_compute; reflexivity).
    destruct (Hin (mk_solved 1 None PKG_SOLVED_DELETE false) dependent_app ltac:(by left) Happ)
      as [(n & t & s & _ & _ & Hd & _ & Hs & Hp)|[_ [[r Hr]|Hno]]].
    + destruct Hd as [r Hr]. unfold reason_jobs, find_req in Hr. cbn in Hr. destruct t as [|t]; [|done].
      assert (s = str "depends on lib-1.0") as -> by (vm_compute in Hs; injection Hs as <-; vm_compute; reflexivity).
      cbn [s_item0] in Hp. by rewrite Hp.
    + done.
    + destruct (Hno 1%nat 0%nat ltac:(lia)); [|by eexists].
      apply (depends_dep _ 0 1 dependent_app (new_dep (str "lib") (str "x/lib") (str "1.0") false) 0).
      * exact Happ.
      * vm_compute. left.
      * vm_compute. reflexivity.
      * constructor.
Defined.

(** Package bar of the concrete database, its new version a request, and foo
    nobody asked for. *)
Definition propagate_universe : universe :=
  insert_item (insert_item (insert_item pkg_jobs_universe_new sample_bar (str "bar~x/bar") (str "d_bar0"))
    sample_new_bar (str "bar~x/bar") (str "d_bar1")) sample_foo (str "foo~x/foo") (str "d_foo").

Definition propagate_jobs : pkg_jobs := mk_jobs propagate_universe [mk_req 1 false] [] [] PKG_JOBS_UPGRADE 0 0 0.

Lemma propagate_automatic_spec_witness :
  exists u', pkg_jobs_propagate_automatic no_emit propagate_jobs = Some (set_universe propagate_jobs u') /\
    pkg_of u' 2 = Some (with_automatic sample_foo true) /\ pkg_of u' 1 = Some (with_automatic sample_new_bar false).
Proof.
  assert (wf_universe no_emit propagate_universe) as Hw.
  { do 3 (apply wf_insert; [|eapply kn_wf, sample_known; set_solver|vm_compute; reflexivity|vm_compute; reflexivity]).
    apply wf_universe_new. }
  destruct (propagate_automatic_spec no_emit propagate_jobs Hw) as (u' & H & _ & Hin). exists u'. split; [exact H|]. split.
  - rewrite (Hin (str "foo~x/foo") [2%nat] 2%nat sample_foo); [reflexivity|vm_compute; reflexivity|by left|reflexivity].
  - rewrite (Hin (str "bar~x/bar") [0%nat; 1%nat] 1%nat sample_new_bar); [reflexivity|vm_compute; reflexivity|right; left|reflexivity].
Defined.

Definition cycle_pkg (name other digest : string) : pkg := automatic_row name digest [needed_by_op other].

Definition cycle_jobs : pkg_jobs := set_universe autoremove_jobs
  (insert_item (insert_item pkg_jobs_universe_new (cycle_pkg "a" "b" "d_a") (str "a~x/a") (str "d_a"))
    (cycle_pkg "b" "a" "d_b") (str "b~x/b") (str "d_b")).

Lemma test_automatic_cycle_diverges_witness :
  pkg_jobs_test_automatic (db := installed_db) no_emit (fun _ => []) (fun _ => None) 1 1000 cycle_jobs
    (cycle_pkg "a" "b" "d_a") = None.
Proof.
  apply (test_automatic_cycle_diverges no_emit (fun _ => []) (fun _ => None) installed_db 1 1000 cycle_jobs
    (cycle_pkg "a" "b" "d_a") (cycle_pkg "b" "a" "d_b") 0 1
    (new_dep (str "b") (str "x/b") (str "1.0") false) (new_dep (str "a") (str "x/a") (str "1.0") false) [] []);
    vm_compute; reflexivity.
Defined.

(** *** Candidates for an upgrade *)

Section candidates.
Context (emit : ucl -> cstring) `{db : pkgdb}.

(** The package of an installed row is worth a look: it has no digest, its
    repositories cannot be queried, or they have it with another digest. *)
Definition outdated (p : pkg) : Prop :=
  match pkg_get_string emit p PKG_DIGEST with
  | None | Some [] => True
  | Some d => forall uid rows, pkg_get_string emit p PKG_UNIQUEID = Some uid ->
      pkgdb_repo_query (Some uid) MATCH_EXACT PKG_LOAD_BASIC = Some rows ->
      exists r d', r ∈ rows /\ pkg_get_string emit r PKG_DIGEST = Some d' /\ d' <> d
  end.

(** Installed packages have a unique id, packages of repositories a digest. *)
Definition repo_listed (p : pkg) : Prop := exists uid, pkg_get_string emit p PKG_UNIQUEID = Some uid /\
  forall rows r, pkgdb_repo_query (Some uid) MATCH_EXACT PKG_LOAD_BASIC = Some rows -> r ∈ rows -> is_Some (pkg_get_string emit r PKG_DIGEST).

Lemma other_digests_spec d rows : (forall r, r ∈ rows -> is_Some (pkg_get_string emit r PKG_DIGEST)) ->
  exists n, other_digests emit d rows = Some n /\
    (n = O <-> forall r d', r ∈ rows -> pkg_get_string emit r PKG_DIGEST = Some d' -> d' = d).
Proof.
  intros Hall. unfold other_digests. set (f := fun n p => _).
  assert (forall l m, (forall r, r ∈ l -> is_Some (pkg_get_string emit r PKG_DIGEST)) ->
    exists n, fold_opt f l m = Some n /\
      (n = O <-> m = O /\ forall r d', r ∈ l -> pkg_get_string emit r PKG_DIGEST = Some d' -> d' = d)) as H.
  { clear Hall rows. intros l. induction l as [|r l IH]; intros m Hl; cbn [fold_opt].
    - exists m. split; [done|]. split; [|tauto]. intros ->. split; [done|]. intros r d' Hr. by apply elem_of_nil in Hr.
    - apply elem_cons_forall in Hl as [[x Hx] Hl]. change (f m r) with (rdigest ← pkg_get_string emit r PKG_DIGEST; Some (if streq rdigest d then m else S m)). rewrite Hx. cbn [mbind option_bind].
      destruct (IH (if streq x d then m else S m) Hl) as (n & -> & Hn). exists n. split; [done|]. rewrite Hn, streq_spec.
      case_bool_decide as Hxd.
      + split; intros [H1 H2]; (split; [done|]); [intros r' d' [->|Hr']%elem_of_cons Hd; [congruence|by eapply H2]|].
        intros r' d' Hr'. apply H2. by right.
      + split; [intros [? _]; done|]. intros [_ H2]. by destruct Hxd, (H2 r x ltac:(by left) Hx). }
  destruct (H rows O Hall) as (n & Hn & Hiff). exists n. split; [done|]. rewrite Hiff. tauto.
Qed.

Lemma check_remote_candidate_spec p : repo_listed p ->
  exists b, pkg_jobs_check_remote_candidate emit p = Some b /\ (b = true <-> outdated p).
Proof.
  intros (uid & Hu & Hrows). unfold pkg_jobs_check_remote_candidate, outdated.
  destruct (pkg_get_string emit p PKG_DIGEST) as [[|c d]|] eqn:Ed; [by exists true| |by exists true].
  rewrite Hu. cbn [mbind option_bind]. destruct (pkgdb_repo_query (Some uid) MATCH_EXACT PKG_LOAD_BASIC) as [rows|] eqn:Er.
  2:{ exists true. split; [done|]. split; [|done]. intros _ uid' rows Hu' Hr. assert (uid' = uid) as -> by congruence. congruence. }
  destruct (other_digests_spec (c :: d) rows (fun r Hr => Hrows rows r eq_refl Hr)) as (n & -> & Hn). cbn [mbind option_bind].
  eexists. split; [done|]. rewrite negb_true_iff, Nat.eqb_neq, Hn. split.
  - intros Hne uid' rows' Hu' Hr'. assert (uid' = uid) as -> by congruence. assert (rows' = rows) as -> by congruence.
    assert (Exists (fun r => pkg_get_string emit r PKG_DIGEST <> Some (c :: d)) rows) as (r & Hr & Hd)%Exists_exists.
    { destruct (decide (Forall (fun r => pkg_get_string emit r PKG_DIGEST = Some (c :: d)) rows)) as [Hf|Hf%not_Forall_Exists]; [|done|apply _].
      destruct Hne. intros r d' Hr Hd. rewrite Forall_forall in Hf. rewrite (Hf r Hr) in Hd. congruence. }
    destruct (Hrows rows r eq_refl Hr) as [d' Hd']. exists r, d'. split_and!; [done|done|congruence].
  - intros H Hall. destruct (H uid rows eq_refl Er) as (r & d' & Hr & Hd & Hne). apply Hne. by eapply Hall.
Qed.

(** pkg_jobs_find_install_candidates lists the row ids of the installed
    packages, in reverse, that have no digest, or that a repository has with
    another one, and of all of them when forced, and counts them; a package
    that is in no repository is none of them. *)
Theorem install_candidates_spec (j : pkg_jobs) (rows : list pkg) (Hq : pkgdb_query None MATCH_ALL PKG_LOAD_BASIC = Some rows)
  (Hl : forall p, p ∈ rows -> repo_listed p) :
  exists chosen, sublist chosen rows /\
    pkg_jobs_find_install_candidates emit j = Some (rev (map (pkg_jobs_new_candidate emit) chosen), length chosen) /\
    forall p, p ∈ rows -> (p ∈ chosen <-> flag_set (j_flags j) PKG_FLAG_FORCE = true \/ outdated p).
Proof.
  unfold pkg_jobs_find_install_candidates. rewrite Hq. clear Hq.
  assert (forall l acc, (forall p, p ∈ l -> repo_listed p) -> exists chosen, sublist chosen l /\
    fold_opt (fun '(candidates, count) p =>
      check ← (if flag_set (j_flags j) PKG_FLAG_FORCE then Some true else pkg_jobs_check_remote_candidate emit p);
      Some (if check : bool then (pkg_jobs_new_candidate emit p :: candidates, S count) else (candidates, count))) l acc =
    Some (rev (map (pkg_jobs_new_candidate emit) chosen) ++ fst acc, (length chosen + snd acc)%nat) /\
    forall p, p ∈ l -> (p ∈ chosen <-> flag_set (j_flags j) PKG_FLAG_FORCE = true \/ outdated p)) as H.
  { clear Hl rows. intros l. induction l as [|p l IH]; intros [cs n] Hl; cbn [fold_opt].
    { exists []. split_and!; [constructor|done|]. intros p Hp. by apply elem_of_nil in Hp. }
    apply elem_cons_forall in Hl as [Hp Hl].
    assert (exists b, (if flag_set (j_flags j) PKG_FLAG_FORCE then Some true else pkg_jobs_check_remote_candidate emit p) = Some b /\
      (b = true <-> flag_set (j_flags j) PKG_FLAG_FORCE = true \/ outdated p)) as (b & -> & Hb).
    { destruct (flag_set (j_flags j) PKG_FLAG_FORCE); [exists true; tauto|].
      destruct (check_remote_candidate_spec p Hp) as (b & Hc & Hb). exists b. split; [done|]. rewrite Hb. intuition congruence. }
    cbn [mbind option_bind]. destruct b.
    - destruct (IH (pkg_jobs_new_candidate emit p :: cs, S n) Hl) as (chosen & Hs & -> & Hin). exists (p :: chosen).
      split_and!; [by apply sublist_skip| |].
      { cbn [map rev length fst snd]. rewrite <- app_assoc, Nat.add_succ_r. done. }
      intros q [->|Hq]%elem_of_cons; [|rewrite elem_of_cons, (Hin q Hq)]; [split; [intros _; by apply Hb|intros _; by left]|].
      split; [intros [->|]; [by apply Hb|done]|by right].
    - destruct (IH (cs, n) Hl) as (chosen & Hs & -> & Hin). exists chosen. split_and!; [by apply sublist_cons|done|].
      intros q [->|Hq]%elem_of_cons; [|by apply Hin]. split; [|intros H; by apply Hb in H].
      intros Hq. apply (Hin p); [|done]. by apply (elem_of_sublist chosen l). }
  destruct (H rows ([], O) Hl) as (chosen & Hs & -> & Hin). exists chosen. cbn [fst snd].
  rewrite app_nil_r, Nat.add_0_r. by split_and!.
Qed.
End candidates.

Lemma install_candidates_spec_witness :
  pkg_jobs_find_install_candidates (db := sample_db []) no_emit empty_jobs = Some ([0], 1%nat).
Proof.
  destruct (install_candidates_spec (db := sample_db []) no_emit empty_jobs [sample_bar] eq_refl) as (chosen & Hs & -> & Hin).
  - intros p ->%list_elem_of_singleton. exists (str "bar~x/bar"). split; [vm_compute; reflexivity|].
    intros rows r [= <-] (n & Hn & Hr)%elem_rows_of.
    repeat (apply elem_of_cons in Hr as [[= -> ->]|Hr]; [eexists; vm_compute; reflexivity|]). by apply elem_of_nil in Hr.
  - assert (sample_bar ∈ chosen) as Hc.
    { apply Hin; [left|]. right. unfold outdated.
      assert (pkg_get_string no_emit sample_bar PKG_DIGEST = Some (str "d_bar0")) as -> by (vm_compute; reflexivity).
      assert (pkg_get_string no_emit sample_bar PKG_UNIQUEID = Some (str "bar~x/bar")) as -> by (vm_compute; reflexivity).
      intros uid rows [= <-] [= <-]. exists sample_new_bar, (str "d_bar1"). split_and!; [vm_compute; left|vm_compute; reflexivity|discriminate]. }
    assert (chosen = [sample_bar]) as ->; [|vm_compute; reflexivity].
    destruct chosen as [|a chosen]; [by apply elem_of_nil in Hc|].
    apply sublist_cons_l in Hs as (k1 & k2 & Hk & Hs2). destruct k1 as [|x k1]; [|by destruct k1].
    injection Hk as <- <-. by apply sublist_nil_r in Hs2 as ->.
Defined.
