(* ===== verification/Solve.v ===== *)
(** * The solver (libpkg/pkg_solve.c)

    [pkg_solve_jobs_to_sat] makes a variable of every item of the universe and
    clauses ("rules") of the dependencies, conflicts, required libraries and
    chains; the requests are assumptions.  [pkg_solve_sat_problem] hands them
    to PicoSAT and stores the answer in the variables, and
    [pkg_solve_sat_to_jobs] makes jobs of the variables whose state changes.

    A variable is an index of [variables] (its [order] is one more); the chain
    of variables of a unique id is the list of their indexes, stored with the
    head in [variables_by_uid].  PicoSAT is not part of the translation: it is
    the parameter [picosat_sat], given the clauses, the assumptions and the
    phases in the order of the calls.  [None] is a failed assertion, a NULL
    pointer that is followed or an access out of bounds.  [priority], which is
    only printed, and [nresolved] are left out; the parser of the output of an
    external solver (pkg_solve_parse_sat_output) is in [JobSolve]. *)
From stdpp Require Import pretty.
From S2P Require Import Prelude CString UtHash Pkg Universe.

(** ** Data *)

Record pkg_solve_variable := mk_var {
  v_unit : nat;
  to_install : bool;
  top_level : bool;
  v_uid : option cstring;
  v_digest : option cstring;
  v_order : Z }.

Record pkg_solve_item := mk_sitem { it_nitems : nat; it_var : nat; inverse : Z }.

Record pkg_solve_rule := mk_rule { reason : string; rule_items : list pkg_solve_item }.

(** [assumptions] are the literals given to picosat_assume, in order. *)
Record pkg_solve_problem := mk_problem {
  rules_count : nat;
  rules : list pkg_solve_rule;
  variables_by_uid : table (list nat);
  variables : list pkg_solve_variable;
  assumptions : list Z;
  nvars : nat }.

Definition add_rule (pb : pkg_solve_problem) (rule : pkg_solve_rule) : pkg_solve_problem :=
  mk_problem (S (rules_count pb)) (rule :: rules pb) (variables_by_uid pb) (variables pb)
    (assumptions pb) (nvars pb).

Definition set_variables (pb : pkg_solve_problem) (vs : list pkg_solve_variable) : pkg_solve_problem :=
  mk_problem (rules_count pb) (rules pb) (variables_by_uid pb) vs (assumptions pb) (nvars pb).

Definition pkg_solve_rule_new (reason : string) : pkg_solve_rule := mk_rule reason [].

(** RULE_ITEM_PREPEND of a new item of the variable. *)
Definition rule_prepend (rule : pkg_solve_rule) (var : nat) (inv : Z) : pkg_solve_rule :=
  mk_rule (reason rule)
    (mk_sitem (match rule_items rule with [] => 1 | it :: _ => it_nitems it + 1 end) var inv
     :: rule_items rule).

Section solve.
Context (emit : ucl -> cstring).
Context (j : pkg_jobs).

(** The package of a variable. *)
Definition var_pkg (pb : pkg_solve_problem) (var : nat) : option pkg :=
  v ← variables pb !! var; pkg_of (j_universe j) (v_unit v).

(** HASH_FIND_STR(problem->variables_by_uid, uid, var): the chain from [var]
    on. *)
Definition find_var (pb : pkg_solve_problem) (uid : cstring) : option (list nat) :=
  hash_lookup (variables_by_uid pb) uid.

(** ** Rules *)

(** [pr->un] is [un]; its chain's first package leads to the variables. *)
Definition pkg_solve_handle_provide (pb : pkg_solve_problem) (un : nat) (rule : pkg_solve_rule) (cnt : nat)
  : option (pkg_solve_rule * nat) :=
  chain ← chain_of (j_universe j) un;
  first ← head chain;
  p ← pkg_of (j_universe j) first;
  uid ← pkg_uid emit p;
  Some (foldl (fun '(rule, cnt) curvar => (rule_prepend rule curvar 1, S cnt)) (rule, cnt)
          (default [] (find_var pb uid))).

Definition pkg_solve_add_depend_rule (pb : pkg_solve_problem) (var : nat) (dep : pkg_dep)
  : pkg_error_t * pkg_solve_problem :=
  match find_var pb (dep_uid dep) with
  | None => (EPKG_END, pb)
  | Some depvar =>
      let rule := rule_prepend (pkg_solve_rule_new "dependency") var (-1) in
      let rule := foldl (fun rule curvar => rule_prepend rule curvar 1) rule depvar in
      (EPKG_OK, add_rule pb rule)
  end.

(** The two "continue"s that skip inappropriate packages. *)
Definition conflict_skips (t : pkg_conflict_type) (p q : pkg) : bool :=
  match t with
  | PKG_CONFLICT_REMOTE_LOCAL => if is_local p then is_local q else negb (is_local q)
  | PKG_CONFLICT_REMOTE_REMOTE => is_local p || is_local q
  | _ => false
  end.

Definition pkg_solve_add_conflict_rule (pb : pkg_solve_problem) (p : pkg) (var : nat) (conflict : pkg_conflict)
  : option (pkg_error_t * pkg_solve_problem) :=
  match find_var pb (c_uniqueid conflict) with
  | None => Some (EPKG_END, pb)
  | Some confvar =>
      pb ← fold_opt (fun pb curvar =>
             q ← var_pkg pb curvar;
             if conflict_skips (c_type conflict) p q then Some pb
             else
               let rule := rule_prepend (pkg_solve_rule_new "explicit conflict") var (-1) in
               Some (add_rule pb (rule_prepend rule curvar (-1)))) confvar pb;
      Some (EPKG_OK, pb)
  end.

Definition pkg_solve_add_require_rule (pb : pkg_solve_problem) (var : nat) (shlib : cstring)
  : option (pkg_error_t * pkg_solve_problem) :=
  match hash_lookup (u_provides (j_universe j)) shlib with
  | Some prhead =>
      let rule := rule_prepend (pkg_solve_rule_new "require") var (-1) in
      '(rule, cnt) ← fold_opt (fun '(rule, cnt) pr => pkg_solve_handle_provide pb pr rule cnt)
                       prhead (rule, 1%nat);
      Some (EPKG_OK, if (1 <? cnt)%nat then add_rule pb rule else pb)
  | None => Some (EPKG_OK, pb)
  end.

Definition pkg_solve_add_unary_rule (pb : pkg_solve_problem) (var : nat) (inv : Z)
  : option (pkg_error_t * pkg_solve_problem) :=
  v ← variables pb !! var;
  Some (EPKG_OK, mk_problem (S (rules_count pb)) (rules pb) (variables_by_uid pb)
    (<[var := mk_var (v_unit v) (0 <? inv) true (v_uid v) (v_digest v) (v_order v)]> (variables pb))
    (assumptions pb ++ [v_order v * inv]) (nvars pb)).

(** [next] is [var->next] and what follows. *)
Definition pkg_solve_add_chain_rule (pb : pkg_solve_problem) (var : nat) (next : list nat)
  : pkg_error_t * pkg_solve_problem :=
  (EPKG_OK, foldl (fun pb curvar =>
     let rule := rule_prepend (pkg_solve_rule_new "upgrade chain") var (-1) in
     add_rule pb (rule_prepend rule curvar (-1))) pb next).

(** The body of the loop of pkg_solve_process_universe_variable: dependencies,
    conflicts, libraries of remote packages, requests. *)
Definition process_variable (pb : pkg_solve_problem) (cur_var : nat) : option pkg_solve_problem :=
  p ← var_pkg pb cur_var;
  v ← variables pb !! cur_var;
  ds ← pkg_deps p;
  let pb := foldl (fun pb dep => snd (pkg_solve_add_depend_rule pb cur_var dep)) pb ds in
  cs ← pkg_conflicts p;
  pb ← fold_opt (fun pb c => '(_, pb) ← pkg_solve_add_conflict_rule pb p cur_var c; Some pb) cs pb;
  pb ← (if is_local p then Some pb
        else
          ss ← pkg_shlibs_required p;
          fold_opt (fun pb s => '(_, pb) ← pkg_solve_add_require_rule pb cur_var s; Some pb) ss pb);
  pb ← (match find_req (request_add j) (v_unit v) with
        | Some _ => '(_, pb) ← pkg_solve_add_unary_rule pb cur_var 1; Some pb
        | None => Some pb
        end);
  match find_req (request_delete j) (v_unit v) with
  | Some _ => '(_, pb) ← pkg_solve_add_unary_rule pb cur_var (-1); Some pb
  | None => Some pb
  end.

(** The chain rules are added for the first variable that has a successor
    only. *)
Fixpoint process_chain_from (pb : pkg_solve_problem) (chain : list nat) (chain_added : bool)
  : option pkg_solve_problem :=
  match chain with
  | [] => Some pb
  | cur_var :: next =>
      pb ← process_variable pb cur_var;
      if negb chain_added && negb (bool_decide (next = []))
      then process_chain_from (snd (pkg_solve_add_chain_rule pb cur_var next)) next true
      else process_chain_from pb next chain_added
  end.

Definition pkg_solve_process_universe_variable (pb : pkg_solve_problem) (var : list nat)
  : option (pkg_error_t * pkg_solve_problem) :=
  pb ← process_chain_from pb var false; Some (EPKG_OK, pb).

(** ** Variables *)

(** pkg_solve_variable_set of a variable that calloc cleared, and its order. *)
Definition new_variable (p : pkg) (un : nat) (n : nat) : pkg_solve_variable :=
  mk_var un false false (pkg_uid emit p) (pkg_digest emit p) (Z.of_nat (S n)).

(** The items of a chain after the first: variables appended to the chain of
    [tvar] (the [tvar]-th element of the table). *)
Definition append_variable (pb : pkg_solve_problem) (tvar : nat) (ucur : nat) : option pkg_solve_problem :=
  let n := length (variables pb) in
  if negb (n <? nvars pb)%nat then None
  else
    p ← pkg_of (j_universe j) ucur;
    chain ← hash_get (variables_by_uid pb) tvar;
    Some (mk_problem (rules_count pb) (rules pb) (hash_update (variables_by_uid pb) tvar (chain ++ [n]))
            (variables pb ++ [new_variable p ucur n]) (assumptions pb) (nvars pb)).

(** [variables] holds the variables set so far, so its length is [*n].  [None]
    is the failed assertion that [*n] is below [nvars]. *)
Definition pkg_solve_add_variable (pb : pkg_solve_problem) (un : list nat) : option pkg_solve_problem :=
  match un with
  | [] => Some pb
  | ucur :: rest =>
      let n := length (variables pb) in
      if negb (n <? nvars pb)%nat then None
      else
        p ← pkg_of (j_universe j) ucur;
        uid ← pkg_uid emit p;
        let tvar := length (entries (variables_by_uid pb)) in
        let pb := mk_problem (rules_count pb) (rules pb) (hash_add (variables_by_uid pb) uid [n])
                    (variables pb ++ [new_variable p ucur n]) (assumptions pb) (nvars pb) in
        fold_opt (fun pb ucur => append_variable pb tvar ucur) rest pb
  end.

(** EPKG_FATAL stands for the result NULL. *)
Definition pkg_solve_jobs_to_sat : option (pkg_error_t * pkg_solve_problem) :=
  let u := j_universe j in
  let pb := mk_problem 0 [] table_empty [] [] (nitems u) in
  chains ← hash_iter (u_items u);
  pb ← fold_opt pkg_solve_add_variable chains pb;
  fold_opt (fun '(r, pb) un =>
    match r with
    | EPKG_OK =>
        first ← head un;
        p ← pkg_of u first;
        uid ← pkg_uid emit p;
        match find_var pb uid with
        | None => Some (EPKG_FATAL, pb)
        | Some var => pkg_solve_process_universe_variable pb var
        end
    | _ => Some (r, pb)
    end) chains (EPKG_OK, pb).
End solve.

(** ** PicoSAT *)

(** What picosat_sat answers: the value picosat_deref gives each variable (1,
    -1 or 0), or the failed assumptions, or neither. *)
Inductive sat_result := SATISFIABLE (value : Z -> Z) | UNSATISFIABLE (failed : list Z) | UNKNOWN.

(** The default phase of a literal and its importance (1 more, -1 less). *)
Definition phase : Type := Z * Z * Z.

Section sat.
(** The clauses, the assumptions and the phases. *)
Context (picosat_sat : list (list Z) -> list Z -> list phase -> sat_result).

(** The literal of an item, given to picosat_add. *)
Definition item_literal (pb : pkg_solve_problem) (it : pkg_solve_item) : option Z :=
  v ← variables pb !! it_var it; Some (v_order v * inverse it).

Definition clauses (pb : pkg_solve_problem) : option (list (list Z)) :=
  mapM (fun rule => mapM (item_literal pb) (rule_items rule)) (rules pb).

(** The initial guess: what is installed stays, the rest is not installed.
    [None] is an unset variable (of the [nvars] that were allocated). *)
Definition initial_phases (j : pkg_jobs) (pb : pkg_solve_problem) : option (list phase) :=
  fold_opt (fun ps i =>
    v ← variables pb !! i;
    p ← pkg_of (j_universe j) (v_unit v);
    let lit := Z.of_nat i + 1 in
    Some (if top_level v then ps
          else ps ++ [if is_local p then (lit, 1, 1) else (lit, -1, -1)])) (seq 0 (nvars pb)) [].

(** The do-while loop over the failed assumptions: the user is asked for each
    whether to drop the request ([answers]).  The index of the variable is the
    literal less one: [None] when the list is empty or a literal is negative,
    an element before the array being read then. *)
Fixpoint drop_requests (answers : nat -> bool) (n : nat) (j : pkg_jobs) (pb : pkg_solve_problem) (failed : list Z)
  : option (pkg_error_t * pkg_jobs) :=
  match failed with
  | [] => None
  | lit :: failed =>
      var ← (if 1 <=? lit then variables pb !! Z.to_nat (lit - 1) else None);
      if answers n then
        let reqs := if to_install var then request_add j else request_delete j in
        match find_req reqs (v_unit var) with
        | None => Some (EPKG_FATAL, j)
        | Some _ =>
            let j := if to_install var then set_request_add j (del_req (v_unit var) (request_add j))
                     else set_request_delete j (del_req (v_unit var) (request_delete j)) in
            match failed with
            | [] => Some (EPKG_AGAIN, j)
            | _ :: _ => drop_requests answers (S n) j pb failed
            end
        end
      else Some (EPKG_FATAL, j)
  end.

(** The assignment of the variables. *)
Definition assign (value : Z -> Z) (i : nat) (v : pkg_solve_variable) : pkg_solve_variable :=
  mk_var (v_unit v) (0 <? value (Z.of_nat i + 1)) (top_level v) (v_uid v) (v_digest v) (v_order v).

Definition pkg_solve_sat_problem (answers : nat -> bool) (j : pkg_jobs) (pb : pkg_solve_problem)
  : option (pkg_error_t * pkg_jobs * pkg_solve_problem) :=
  cnf ← clauses pb;
  phases ← initial_phases j pb;
  match picosat_sat cnf (assumptions pb) phases with
  | SATISFIABLE value => Some (EPKG_OK, j, set_variables pb (imap (assign value) (variables pb)))
  | UNSATISFIABLE failed => '(r, j) ← drop_requests answers 0 j pb failed; Some (r, j, pb)
  | UNKNOWN => None
  end.
End sat.

(** ** Jobs *)

Definition append_job (j : pkg_jobs) (s : pkg_solved) : pkg_jobs :=
  set_jobs j (j_jobs j ++ [s]) (S (j_count j)).

(** The variables of a chain that are to be installed or to be deleted, with
    the items they stand for: [to_install] differs from the state. *)
Definition to_add (u : universe) (v : pkg_solve_variable) : option bool :=
  p ← pkg_of u (v_unit v); Some (to_install v && negb (is_local p)).
Definition to_delete (u : universe) (v : pkg_solve_variable) : option bool :=
  p ← pkg_of u (v_unit v); Some (negb (to_install v) && is_local p).

(** The first loop: [add_var], [del_var] (the last ones), [seen_add] and
    [seen_del]. *)
Definition scan_chain (u : universe) (pb : pkg_solve_problem) (chain : list nat)
  : option (option nat * option nat * nat * nat) :=
  fold_opt (fun (acc : option nat * option nat * nat * nat) cur_var =>
    let '(add_var, del_var, seen_add, seen_del) := acc in
    v ← variables pb !! cur_var;
    add ← to_add u v;
    del ← to_delete u v;
    Some (if (add : bool) then (Some cur_var, del_var, S seen_add, seen_del)
          else if (del : bool) then (add_var, Some cur_var, seen_add, S seen_del)
          else (add_var, del_var, seen_add, seen_del))) chain (None, None, 0%nat, 0%nat).

(** The second loop: the deletions that are not part of an upgrade. *)
Definition delete_jobs (j : pkg_jobs) (pb : pkg_solve_problem) (seen_add : nat) (del_var : option nat)
    (chain : list nat) : option pkg_jobs :=
  fold_opt (fun j cur_var =>
    v ← variables pb !! cur_var;
    del ← to_delete (j_universe j) v;
    Some (if (del : bool) && negb ((0 <? seen_add)%nat && bool_decide (del_var = Some cur_var))
          then append_job j (mk_solved (v_unit v) None PKG_SOLVED_DELETE false) else j)) chain j.

Definition pkg_solve_insert_res_job (pb : pkg_solve_problem) (j : pkg_jobs) (chain : list nat)
  : option pkg_jobs :=
  '(add_var, del_var, seen_add, seen_del) ← scan_chain (j_universe j) pb chain;
  if (1 <? seen_add)%nat then Some j
  else if negb (seen_add =? 0)%nat || negb (seen_del =? 0)%nat then
    j ← (if (0 <? seen_add)%nat then
           add ← add_var;
           a ← variables pb !! add;
           if (seen_del =? 0)%nat then
             Some (append_job j (mk_solved (v_unit a) None
               (match j_type j with PKG_JOBS_FETCH => PKG_SOLVED_FETCH | _ => PKG_SOLVED_INSTALL end) false))
           else
             del ← del_var;
             d ← variables pb !! del;
             Some (append_job j (mk_solved (v_unit a) (Some (v_unit d)) PKG_SOLVED_UPGRADE false))
         else Some j);
    delete_jobs j pb seen_add del_var chain
  else Some j.

Definition pkg_solve_sat_to_jobs (pb : pkg_solve_problem) (j : pkg_jobs) : option pkg_jobs :=
  chains ← hash_iter (variables_by_uid pb);
  fold_opt (pkg_solve_insert_res_job pb) chains j.

(** ** The loop of pkg_jobs_solve (pkg_jobs.c)

    From [again] on, with the built-in solver: [answers] are the user's, per
    round.  [None] when the fuel runs out. *)
Fixpoint solve_again (emit : ucl -> cstring) (picosat_sat : list (list Z) -> list Z -> list phase -> sat_result)
    (answers : nat -> nat -> bool) (fuel round : nat) (j : pkg_jobs) : option (pkg_error_t * pkg_jobs) :=
  match fuel with
  | O => None
  | S fuel =>
      j ← pkg_jobs_universe_process_upgrade_chains emit j;
      '(r, pb) ← pkg_solve_jobs_to_sat emit j;
      match r with
      | EPKG_OK =>
          '(r, j, pb) ← pkg_solve_sat_problem picosat_sat (answers round) j pb;
          match r with
          | EPKG_FATAL => Some (EPKG_FATAL, j)
          | EPKG_AGAIN => solve_again emit picosat_sat answers fuel (S round) j
          | _ => j ← pkg_solve_sat_to_jobs pb j; Some (EPKG_OK, j)
          end
      | _ => Some (EPKG_FATAL, j)
      end
  end.

(** ** DIMACS *)

(** PKG_SOLVE_VAR_NEXT: the address of the first variable, or the next one. *)
Definition PKG_SOLVE_VAR_NEXT (e : option nat) : option nat :=
  Some match e with None => 0%nat | Some e => S e end.

(** [while ((var = PKG_SOLVE_VAR_NEXT(problem->variables, var)))]: the numbers
    of the variables; [None] when the fuel runs out. *)
Fixpoint order_variables (fuel : nat) (var : option nat) (cur_ord : Z) (ordered : list (nat * Z))
  : option (list (nat * Z)) :=
  match fuel with
  | O => None
  | S fuel =>
      match PKG_SOLVE_VAR_NEXT var with
      | None => Some ordered
      | Some var => order_variables fuel (Some var) (cur_ord + 1) (ordered ++ [(var, cur_ord)])
      end
  end.

Definition decimal (z : Z) : cstring := str (pretty z).

(** ["%s%d "] of an item: [it->inverse ? "-" : ""] and its number. *)
Definition dimacs_item (ordered : list (nat * Z)) (it : pkg_solve_item) : cstring :=
  match find (fun vo => Nat.eqb vo.1 (it_var it)) ordered with
  | Some (_, ord) => (if inverse it =? 0 then [] else str "-") ++ decimal ord ++ str " "
  | None => []
  end.

Definition dimacs_rule (ordered : list (nat * Z)) (rule : pkg_solve_rule) : cstring :=
  flat_map (dimacs_item ordered) (rule_items rule) ++ str "0" ++ [chr 10].

Definition dimacs_text (ordered : list (nat * Z)) (pb : pkg_solve_problem) : cstring :=
  str "p cnf " ++ decimal (Z.of_nat (nvars pb)) ++ str " " ++ decimal (Z.of_nat (rules_count pb)) ++ [chr 10] ++
  flat_map (dimacs_rule ordered) (rules pb).

Definition pkg_solve_dimacs_export (fuel : nat) (pb : pkg_solve_problem) : option (pkg_error_t * cstring) :=
  ordered ← order_variables fuel None 1 [];
  Some (EPKG_OK, dimacs_text ordered pb).

(** ** What the clauses say *)

Section rules.
Context (emit : ucl -> cstring) (j : pkg_jobs).
Abbreviation u := (j_universe j).

(** The truth of items, rules and assumptions under a selection of universe
    items. *)
Definition item_true (pb : pkg_solve_problem) (sel : nat -> bool) (it : pkg_solve_item) : Prop :=
  exists v, variables pb !! it_var it = Some v /\ sel (v_unit v) = (0 <? inverse it).

Definition rule_true (pb : pkg_solve_problem) (sel : nat -> bool) (r : pkg_solve_rule) : Prop :=
  Exists (item_true pb sel) (rule_items r).

Definition assumption_true (pb : pkg_solve_problem) (sel : nat -> bool) (lit : Z) : Prop :=
  exists v inv, v ∈ variables pb /\ (inv = 1 \/ inv = -1) /\ lit = v_order v * inv /\ sel (v_unit v) = (0 <? inv).

Definition rules_hold (pb : pkg_solve_problem) (sel : nat -> bool) : Prop := Forall (rule_true pb sel) (rules pb).
Definition assumptions_hold (pb : pkg_solve_problem) (sel : nat -> bool) : Prop :=
  Forall (assumption_true pb sel) (assumptions pb).

(** The rules are added to a problem whose variables are set up: [units] are
    their items, [vt] the table of the chains. *)
Context (units : list nat) (vt : table (list nat)).

(** A chain of variables stands for a chain of items. *)
Definition stands_for (vs : list nat) (chain : list nat) : Prop := Forall2 (fun v i => units !! v = Some i) vs chain.

(** The items of a rule are literals of variables. *)
Definition rule_ok (r : pkg_solve_rule) : Prop :=
  Forall (fun it => is_Some (units !! it_var it) /\ (inverse it = 1 \/ inverse it = -1)) (rule_items r).

(** [inv] is the direction of a request for [i]. *)
Definition asks (i : nat) (inv : Z) : Prop :=
  inv = 1 /\ is_Some (find_req (request_add j) i) \/ inv = -1 /\ is_Some (find_req (request_delete j) i).

Record frame (pb : pkg_solve_problem) : Prop := mk_frame {
  fr_units : map v_unit (variables pb) = units;
  fr_table : variables_by_uid pb = vt;
  fr_orders : forall k v, variables pb !! k = Some v -> v_order v = Z.of_nat (S k);
  fr_nvars : nvars pb = length units;
  fr_rules : Forall rule_ok (rules pb);
  fr_asked : forall lit, lit ∈ assumptions pb -> exists k v inv, variables pb !! k = Some v /\
    lit = Z.of_nat (S k) * inv /\ asks (v_unit v) inv /\ (request_delete j = [] -> to_install v = true) }.

(** A step adds rules that mean [P] and assumptions that mean [Q]. *)
Definition step (f : pkg_solve_problem -> option pkg_solve_problem) (P Q : (nat -> bool) -> Prop) : Prop :=
  forall pb, frame pb -> exists pb', f pb = Some pb' /\ frame pb' /\
    (forall sel, rules_hold pb' sel <-> rules_hold pb sel /\ P sel) /\
    (forall sel, assumptions_hold pb' sel <-> assumptions_hold pb sel /\ Q sel).

Lemma step_equiv f P Q P' Q' : step f P Q -> (forall sel, P sel <-> P' sel) -> (forall sel, Q sel <-> Q' sel) ->
  step f P' Q'.
Proof.
  intros Hf HP HQ pb Hpb. destruct (Hf pb Hpb) as (pb' & H1 & H2 & H3 & H4). exists pb'.
  split_and!; [done|done| |]; intros sel; [by rewrite <- HP|by rewrite <- HQ].
Qed.

Lemma step_id : step Some (fun _ => True) (fun _ => True).
Proof. intros pb Hpb. exists pb. split_and!; [done|done| |]; tauto. Qed.

Lemma step_bind f g P Q P' Q' : step f P Q -> step g P' Q' ->
  step (fun pb => f pb ≫= g) (fun sel => P sel /\ P' sel) (fun sel => Q sel /\ Q' sel).
Proof.
  intros Hf Hg pb Hpb. destruct (Hf pb Hpb) as (pb1 & H1 & H2 & H3 & H4).
  destruct (Hg pb1 H2) as (pb2 & G1 & G2 & G3 & G4). exists pb2. rewrite H1. cbn.
  split_and!; [done|done| |]; intros sel; [rewrite G3, H3|rewrite G4, H4]; tauto.
Qed.

Lemma step_fold {B} (f : pkg_solve_problem -> B -> option pkg_solve_problem) (l : list B) P Q :
  (forall x, x ∈ l -> step (fun pb => f pb x) (P x) (Q x)) ->
  step (fold_opt f l) (fun sel => forall x, x ∈ l -> P x sel) (fun sel => forall x, x ∈ l -> Q x sel).
Proof.
  induction l as [|x l IH]; intros Hf.
  - eapply step_equiv; [apply step_id| |]; intros sel; (split; [intros _ x Hx; by apply elem_of_nil in Hx|done]).
  - cbn [fold_opt]. eapply step_equiv.
    + apply (step_bind (fun pb => f pb x) (fold_opt f l)); [apply Hf; by left|apply IH; intros y Hy; apply Hf; by right].
    + intros sel. by rewrite (elem_cons_forall (fun y => P y sel)).
    + intros sel. by rewrite (elem_cons_forall (fun y => Q y sel)).
Qed.

Lemma step_foldl {B} (g : pkg_solve_problem -> B -> pkg_solve_problem) (l : list B) P :
  (forall x, x ∈ l -> step (fun pb => Some (g pb x)) (P x) (fun _ => True)) ->
  step (fun pb => Some (foldl g pb l)) (fun sel => forall x, x ∈ l -> P x sel) (fun _ => True).
Proof.
  intros Hg. pose proof (step_fold (fun pb x => Some (g pb x)) l P (fun _ _ => True) Hg) as H.
  apply (step_equiv _ _ _ (fun sel => forall x, x ∈ l -> P x sel) (fun _ => True)) in H; [|done|by intros sel].
  intros pb Hpb. destruct (H pb Hpb) as (pb' & H1 & H2). exists pb'. split; [|done]. rewrite <- H1.
  clear. revert pb. induction l as [|x l IH]; intros pb; cbn; [done|]. apply IH.
Qed.

(** *** Rules *)

Lemma frame_lookup pb v i : frame pb -> units !! v = Some i -> exists x, variables pb !! v = Some x /\ v_unit x = i.
Proof.
  intros [<- _ _ _ _ _] H. change (map v_unit (variables pb)) with (v_unit <$> variables pb) in H.
  rewrite list_lookup_fmap in H. apply fmap_Some in H as (x & Hx & ->). by exists x.
Qed.

Lemma item_true_unit pb sel n v i inv : frame pb -> units !! v = Some i ->
  item_true pb sel (mk_sitem n v inv) <-> sel i = (0 <? inv).
Proof.
  intros Hpb Hv. destruct (frame_lookup pb v i Hpb Hv) as (x & Hx & <-). unfold item_true. cbn.
  split; [by intros (y & Hy & H); simplify_eq|by exists x].
Qed.

Lemma rule_true_prepend pb sel r v i inv : frame pb -> units !! v = Some i ->
  rule_true pb sel (rule_prepend r v inv) <-> sel i = (0 <? inv) \/ rule_true pb sel r.
Proof. intros Hpb Hv. unfold rule_true. cbn. rewrite Exists_cons. by rewrite item_true_unit. Qed.

Lemma rule_true_new pb sel s : rule_true pb sel (pkg_solve_rule_new s) <-> False.
Proof. unfold rule_true. cbn. by rewrite Exists_nil. Qed.

Lemma rule_true_chain pb sel r vs chain : frame pb -> stands_for vs chain ->
  rule_true pb sel (foldl (fun rule v => rule_prepend rule v 1) r vs) <->
  (exists k, k ∈ chain /\ sel k = true) \/ rule_true pb sel r.
Proof.
  intros Hpb Hs. revert r. induction Hs as [|v i vs chain Hv _ IH]; intros r; cbn [foldl].
  - split; [by right|]. intros [(k & Hk & _)|]; [by apply elem_of_nil in Hk|done].
  - rewrite IH, (rule_true_prepend pb sel r v i 1 Hpb Hv). cbn. split.
    + intros [(k & Hk & Hs)|[Hs|Hr]]; [left; exists k; by split; [right|]|left; exists i; by split; [left|]|by right].
    + intros [(k & [->|Hk]%elem_of_cons & Hs)|Hr]; [by right; left|left; by exists k|by right; right].
Qed.

Lemma rules_hold_frame pb pb' sel l : map v_unit (variables pb') = map v_unit (variables pb) ->
  Forall (rule_true pb' sel) l <-> Forall (rule_true pb sel) l.
Proof.
  intros Hu. assert (forall it, item_true pb' sel it <-> item_true pb sel it) as Hi.
  { intros it. unfold item_true.
    assert (v_unit <$> variables pb' !! it_var it = v_unit <$> variables pb !! it_var it) as He.
    { rewrite <- !list_lookup_fmap. change (map v_unit (variables pb') !! it_var it = map v_unit (variables pb) !! it_var it).
      by rewrite Hu. }
    destruct (variables pb' !! it_var it) as [x|], (variables pb !! it_var it) as [y|]; try done; cbn in He.
    injection He as He. split; intros (v & Hv & H); simplify_eq; eexists; (split; [done|]); congruence. }
  apply Forall_iff. intros r. unfold rule_true. rewrite !Exists_exists.
  split; intros (it & Hin & H); exists it; (split; [done|by apply Hi]).
Qed.

Lemma rule_ok_new s : rule_ok (pkg_solve_rule_new s).
Proof. constructor. Qed.

Lemma rule_ok_prepend r v inv : is_Some (units !! v) -> inv = 1 \/ inv = -1 -> rule_ok r -> rule_ok (rule_prepend r v inv).
Proof. intros Hv Hinv Hr. by constructor. Qed.

Lemma rule_ok_chain r vs chain : stands_for vs chain -> rule_ok r -> rule_ok (foldl (fun rule v => rule_prepend rule v 1) r vs).
Proof.
  intros Hs. revert r. induction Hs as [|v i vs chain Hv _ IH]; intros r Hr; [done|]. cbn [foldl].
  apply IH, rule_ok_prepend; [by rewrite Hv|by left|done].
Qed.

Lemma step_rule (r : pkg_solve_rule) P : rule_ok r -> (forall pb sel, frame pb -> rule_true pb sel r <-> P sel) ->
  step (fun pb => Some (add_rule pb r)) P (fun _ => True).
Proof.
  intros Hok HP pb Hpb. exists (add_rule pb r). split_and!; [done| |intros sel|intros sel].
  - destruct Hpb. split; try done. by constructor.
  - unfold rules_hold. cbn [rules add_rule]. rewrite Forall_cons, <- (HP pb sel Hpb).
    rewrite (rules_hold_frame pb (add_rule pb r) sel) by done. unfold rule_true at 1.
    change (Exists (item_true (add_rule pb r) sel) (rule_items r)) with (rule_true pb sel r). tauto.
  - unfold assumptions_hold. change (Forall (assumption_true pb sel) (assumptions pb) <->
      Forall (assumption_true pb sel) (assumptions pb) /\ True). tauto.
Qed.

(** *** What each function adds *)

Context (Hw : wf_universe emit u).
Context (Hprov : forall s prs pr, hash_lookup (u_provides u) s = Some prs -> pr ∈ prs -> is_Some (pkg_of u pr)).
Context (Hvt : forall uid,
  match pkg_jobs_universe_find u uid with
  | Some chain => exists vs, hash_lookup vt uid = Some vs /\ stands_for vs chain
  | None => hash_lookup vt uid = None
  end).

Definition dep_ok (i : nat) (d : pkg_dep) (sel : nat -> bool) : Prop :=
  sel i = true -> forall chain, pkg_jobs_universe_find u (dep_uid d) = Some chain -> exists k, k ∈ chain /\ sel k = true.

Definition conflict_ok (i : nat) (p : pkg) (c : pkg_conflict) (sel : nat -> bool) : Prop :=
  sel i = true -> forall chain k q, pkg_jobs_universe_find u (c_uniqueid c) = Some chain -> k ∈ chain ->
    pkg_of u k = Some q -> conflict_skips (c_type c) p q = false -> sel k = false.

Definition shlib_ok (i : nat) (s : cstring) (sel : nat -> bool) : Prop :=
  sel i = true -> forall prs, hash_lookup (u_provides u) s = Some prs -> prs <> [] ->
    exists pr chain k, pr ∈ prs /\ chain_of u pr = Some chain /\ k ∈ chain /\ sel k = true.

(** The requests, as the solver reads them: [rq_skip] is not looked at. *)
Definition add_ok (i : nat) (sel : nat -> bool) : Prop := is_Some (find_req (request_add j) i) -> sel i = true.
Definition delete_ok (i : nat) (sel : nat -> bool) : Prop := is_Some (find_req (request_delete j) i) -> sel i = false.

Lemma find_var_frame pb uid : frame pb -> find_var pb uid = hash_lookup vt uid.
Proof. intros [_ Ht _ _ _ _]. unfold find_var. by rewrite Ht. Qed.

Lemma step_some P Q : (forall sel, P sel) -> (forall sel, Q sel) -> step Some P Q.
Proof. intros HP HQ. eapply step_equiv; [apply step_id| |]; intros sel; cbn; (split; [intros _|done]); [apply HP|apply HQ]. Qed.

Lemma not_true_false b : b <> true -> b = false.
Proof. by destruct b. Qed.

Lemma depend_rule_step var i d : units !! var = Some i ->
  step (fun pb => Some (snd (pkg_solve_add_depend_rule pb var d))) (dep_ok i d) (fun _ => True).
Proof.
  intros Hi pb Hpb. unfold pkg_solve_add_depend_rule. rewrite (find_var_frame pb _ Hpb).
  pose proof (Hvt (dep_uid d)) as Hd. unfold dep_ok.
  destruct (pkg_jobs_universe_find u (dep_uid d)) as [chain|] eqn:Ef.
  - destruct Hd as (vs & -> & Hs). cbn [snd].
    apply (step_rule _ (fun sel => sel i = true -> forall chain', Some chain = Some chain' ->
             exists k, k ∈ chain' /\ sel k = true)); [|..|done].
    { eapply rule_ok_chain; [exact Hs|]. apply rule_ok_prepend; [by rewrite Hi|by right|apply rule_ok_new]. }
    intros pb' sel Hpb'. rewrite (rule_true_chain pb' sel _ vs chain Hpb' Hs).
    rewrite (rule_true_prepend pb' sel _ var i (-1) Hpb' Hi), rule_true_new. cbn. split.
    + intros [H|[Hf|[]]]; [by intros _ ? [= <-]|congruence].
    + intros H. destruct (sel i); [left; by apply H|by right; left].
  - rewrite Hd. cbn [snd]. by apply (step_some (fun sel => sel i = true -> forall chain, None = Some chain -> _)).
Qed.

Lemma pair_rule_step s var i cur k : units !! var = Some i -> units !! cur = Some k ->
  step (fun pb => Some (add_rule pb (rule_prepend (rule_prepend (pkg_solve_rule_new s) var (-1)) cur (-1))))
    (fun sel => sel i = true -> sel k = false) (fun _ => True).
Proof.
  intros Hi Hk. apply step_rule.
  { apply rule_ok_prepend; [by rewrite Hk|by right|]. apply rule_ok_prepend; [by rewrite Hi|by right|apply rule_ok_new]. }
  intros pb sel Hpb.
  rewrite (rule_true_prepend pb sel _ cur k (-1) Hpb Hk), (rule_true_prepend pb sel _ var i (-1) Hpb Hi), rule_true_new.
  cbn. destruct (sel i), (sel k); intuition.
Qed.

(** A loop over the variables of a chain, with the items they stand for. *)
Lemma chain_step (f : pkg_solve_problem -> nat -> option pkg_solve_problem) vs chain P Q : stands_for vs chain ->
  (forall v k, units !! v = Some k -> k ∈ chain -> step (fun pb => f pb v) (P k) (Q k)) ->
  step (fold_opt f vs) (fun sel => forall k, k ∈ chain -> P k sel) (fun sel => forall k, k ∈ chain -> Q k sel).
Proof.
  intros Hs. induction Hs as [|v k vs chain Hv _ IH]; intros Hf.
  - apply step_some; intros sel k Hk; by apply elem_of_nil in Hk.
  - cbn [fold_opt]. eapply step_equiv.
    + apply (step_bind (fun pb => f pb v) (fold_opt f vs)); [apply (Hf v k Hv); by left|].
      apply IH. intros v' k' Hv' Hk'. apply Hf; [done|by right].
    + intros sel. by rewrite (elem_cons_forall (fun y => P y sel)).
    + intros sel. by rewrite (elem_cons_forall (fun y => Q y sel)).
Qed.

Lemma conflict_rule_step p var i c : units !! var = Some i ->
  step (fun pb => '(_, pb) ← pkg_solve_add_conflict_rule j pb p var c; Some pb) (conflict_ok i p c) (fun _ => True).
Proof.
  intros Hi pb Hpb. unfold pkg_solve_add_conflict_rule. rewrite (find_var_frame pb _ Hpb).
  pose proof (Hvt (c_uniqueid c)) as Hc.
  destruct (pkg_jobs_universe_find u (c_uniqueid c)) as [chain|] eqn:Ef.
  - destruct Hc as (vs & -> & Hs).
    destruct (chain_step (fun pb cur => q ← var_pkg j pb cur;
        if conflict_skips (c_type c) p q then Some pb
        else Some (add_rule pb (rule_prepend (rule_prepend (pkg_solve_rule_new "explicit conflict") var (-1)) cur (-1))))
      vs chain (fun k sel => sel i = true -> forall q, pkg_of u k = Some q -> conflict_skips (c_type c) p q = false ->
                 sel k = false) (fun _ _ => True) Hs) with (pb := pb) as (pb' & H1 & H2 & H3 & H4); [|done|].
    + intros v k Hv Hk pb0 Hpb0. unfold var_pkg. destruct (frame_lookup pb0 v k Hpb0 Hv) as (x & -> & Hx).
      cbn [mbind option_bind]. rewrite Hx. destruct (chain_member emit u _ chain k Hw Ef Hk) as (q & Hq & _).
      rewrite Hq. cbn [mbind option_bind]. destruct (conflict_skips (c_type c) p q) eqn:Eq.
      * apply step_some; [|done|done]. intros sel _ q' Hq'. congruence.
      * refine (step_equiv _ _ _ _ _ (pair_rule_step "explicit conflict" var i v k Hi Hv) _ _ pb0 Hpb0); [|done].
        intros sel. split; [|by intros H Hs'; apply (H Hs' q)]. intros H Hs' q' _ _. by apply H.
    + exists pb'. cbn in H1 |- *. rewrite H1. cbn. split_and!; [done|done| |].
      * intros sel. rewrite H3. unfold conflict_ok. rewrite Ef. split.
        -- intros [Hr H]. split; [done|]. intros Hsi ? k q [= <-] Hk Hq Hsk. by eapply H.
        -- intros [Hr H]. split; [done|]. intros k Hk Hsi q Hq Hsk. by eapply H.
      * intros sel. rewrite H4. intuition.
  - rewrite Hc. cbn. apply step_some; [|done|done]. unfold conflict_ok. rewrite Ef. done.
Qed.

Lemma handle_provide_ok pb pr rule cnt : frame pb -> is_Some (pkg_of u pr) ->
  exists rule' cnt' chain, chain_of u pr = Some chain /\
    pkg_solve_handle_provide emit j pb pr rule cnt = Some (rule', cnt') /\ (cnt < cnt')%nat /\
    (rule_ok rule -> rule_ok rule') /\ forall pb' sel, frame pb' -> rule_true pb' sel rule' <->
      (exists k, k ∈ chain /\ sel k = true) \/ rule_true pb' sel rule.
Proof.
  intros Hpb [p Hp]. destruct (chain_of_item emit u pr p Hw Hp) as (chain & uid & Hc & Hi & Hu & Hf).
  unfold pkg_solve_handle_provide. rewrite Hc. cbn [mbind option_bind].
  destruct chain as [|first rest]; [by apply elem_of_nil in Hi|]. cbn [head mbind option_bind].
  destruct (chain_member emit u uid _ first Hw Hf ltac:(by left)) as (q & Hq & Hqu). rewrite Hq. cbn [mbind option_bind].
  rewrite Hqu. cbn [mbind option_bind]. rewrite (find_var_frame pb _ Hpb).
  pose proof (Hvt uid) as Hv. rewrite Hf in Hv. destruct Hv as (vs & -> & Hs). change (default [] (Some vs)) with vs.
  assert (forall vs r n, foldl (fun '(rule, cnt) cur => (rule_prepend rule cur 1, S cnt)) (r, n) vs =
    (foldl (fun rule v => rule_prepend rule v 1) r vs, (n + length vs)%nat)) as Hfold.
  { clear. induction vs as [|v vs IH]; intros r n; cbn [foldl length]; [by rewrite Nat.add_0_r|].
    rewrite IH. by replace (S n + length vs)%nat with (n + S (length vs))%nat by lia. }
  rewrite Hfold. eexists _, _, _. split_and!; [done|done| | |].
  - apply Forall2_length in Hs. cbn in Hs. lia.
  - by eapply rule_ok_chain.
  - intros pb' sel Hpb'. by apply rule_true_chain.
Qed.

Lemma require_rule_step var i s : units !! var = Some i ->
  step (fun pb => '(_, pb) ← pkg_solve_add_require_rule emit j pb var s; Some pb) (shlib_ok i s) (fun _ => True).
Proof.
  intros Hi pb Hpb. unfold pkg_solve_add_require_rule, shlib_ok.
  destruct (hash_lookup (u_provides u) s) as [prs|] eqn:E; [|by apply step_some].
  assert (forall prs0, (forall pr, pr ∈ prs0 -> is_Some (pkg_of u pr)) -> forall r n, exists r' n',
    fold_opt (fun '(rule, cnt) pr => pkg_solve_handle_provide emit j pb pr rule cnt) prs0 (r, n) = Some (r', n') /\
    (n + length prs0 <= n')%nat /\ (prs0 = [] -> r' = r /\ n' = n) /\ (rule_ok r -> rule_ok r') /\
    forall pb' sel, frame pb' -> rule_true pb' sel r' <->
      (exists pr chain k, pr ∈ prs0 /\ chain_of u pr = Some chain /\ k ∈ chain /\ sel k = true) \/ rule_true pb' sel r)
    as Hloop.
  { induction prs0 as [|pr prs0 IH]; intros Hall r n.
    - exists r, n. split_and!; [done|cbn; lia|done|done|]. intros pb' sel _. split; [by right|].
      intros [(pr & ? & ? & Hpr & _)|]; [by apply elem_of_nil in Hpr|done].
    - cbn [fold_opt]. destruct (handle_provide_ok pb pr r n Hpb (Hall pr ltac:(by left))) as (r1 & n1 & chain & Hc & -> & Hn & Hok1 & H1).
      cbn [mbind option_bind]. destruct (IH ltac:(intros; apply Hall; by right) r1 n1) as (r2 & n2 & H2 & Hn2 & _ & Hok2 & H3).
      exists r2, n2. split_and!; [done|cbn; lia|done|by auto|]. intros pb' sel Hpb'. rewrite (H3 pb' sel Hpb'), (H1 pb' sel Hpb').
      split.
      + intros [(pr' & c & k & Hpr' & H)|[(k & Hk & Hsk)|Hr]]; [left|left|by right].
        * exists pr', c, k. by split; [right|].
        * exists pr, chain, k. by split_and!; [left| | |].
      + intros [(pr' & c & k & [->|Hpr']%elem_of_cons & Hc' & H)|Hr]; [right; left| |by right; right].
        * exists k. by rewrite Hc in Hc'; injection Hc' as <-.
        * left. by exists pr', c, k. }
  destruct (Hloop prs ltac:(intros pr Hpr; by eapply Hprov) (rule_prepend (pkg_solve_rule_new "require") var (-1)) 1%nat)
    as (r & n & Hl & Hn & Hnil & Hok & Hr).
  cbn [mbind option_bind] in Hl |- *. rewrite Hl. cbn [mbind option_bind]. destruct (Nat.ltb_spec 1 n) as [Hlt|Hge].
  - refine (step_rule r (fun sel => sel i = true -> forall prs', Some prs = Some prs' -> prs' <> [] ->
      exists pr chain k, pr ∈ prs' /\ chain_of u pr = Some chain /\ k ∈ chain /\ sel k = true) _ _ pb Hpb).
    { apply Hok, rule_ok_prepend; [by rewrite Hi|by right|apply rule_ok_new]. }
    intros pb' sel Hpb'. rewrite (Hr pb' sel Hpb').
    rewrite (rule_true_prepend pb' sel _ var i (-1) Hpb' Hi), rule_true_new. cbn. split.
    + intros [H|[Hf|[]]]; [by intros _ ? [= <-] _|congruence].
    + intros H. destruct (sel i); [left; apply H; try done|by right; left].
      intros ->. destruct (Hnil eq_refl). lia.
  - assert (prs = []) as -> by (destruct prs; [done|cbn in Hn; lia]). apply step_some; [|done|done].
    intros sel _ ? [= <-]. done.
Qed.

(** *** Requests *)

Definition literal_true (sel : nat -> bool) (lit : Z) : Prop :=
  exists k i inv, units !! k = Some i /\ (inv = 1 \/ inv = -1) /\ lit = Z.of_nat (S k) * inv /\ sel i = (0 <? inv).

Lemma assumption_true_frame pb sel lit : frame pb -> assumption_true pb sel lit <-> literal_true sel lit.
Proof.
  intros Hpb. unfold assumption_true, literal_true. split.
  - intros (v & inv & [k Hk]%list_elem_of_lookup_1 & Hinv & -> & Hs).
    exists k, (v_unit v), inv. rewrite (fr_orders _ Hpb k v Hk). split_and!; try done.
    rewrite <- (fr_units _ Hpb). change (map v_unit (variables pb)) with (v_unit <$> variables pb).
    by rewrite list_lookup_fmap, Hk.
  - intros (k & i & inv & Hk & Hinv & -> & Hs). destruct (frame_lookup pb k i Hpb Hk) as (v & Hv & <-).
    exists v, inv. rewrite (fr_orders _ Hpb k v Hv). split_and!; try done. by eapply list_elem_of_lookup_2.
Qed.

Lemma literal_true_unit sel var i inv : units !! var = Some i -> inv = 1 \/ inv = -1 ->
  literal_true sel (Z.of_nat (S var) * inv) <-> sel i = (0 <? inv).
Proof.
  intros Hi Hinv. split; [|by exists var, i, inv]. intros (k & i' & inv' & Hk & Hinv' & He & Hs).
  assert (k = var /\ inv' = inv) as [-> ->] by (destruct Hinv as [-> | ->], Hinv' as [-> | ->]; lia).
  congruence.
Qed.

Lemma frame_unary pb var v inv rc : frame pb -> variables pb !! var = Some v -> asks (v_unit v) inv ->
  frame (mk_problem rc (rules pb) (variables_by_uid pb)
    (<[var := mk_var (v_unit v) (0 <? inv) true (v_uid v) (v_digest v) (v_order v)]> (variables pb))
    (assumptions pb ++ [v_order v * inv]) (nvars pb)).
Proof.
  intros [Hu Ht Ho Hn Hr Ha] Hv Hinv.
  assert (var < length (variables pb))%nat as Hlt by (by eapply lookup_lt_Some).
  split; cbn; try done.
  - rewrite <- Hu. apply list_eq. intros k. change (map v_unit ?l) with (v_unit <$> l). rewrite !list_lookup_fmap.
    destruct (decide (k = var)) as [->|Hne]; [by rewrite list_lookup_insert_eq, Hv|by rewrite list_lookup_insert_ne].
  - intros k w Hk. destruct (decide (k = var)) as [->|Hne].
    + rewrite list_lookup_insert_eq in Hk by done. injection Hk as <-. cbn. by apply Ho.
    + rewrite list_lookup_insert_ne in Hk by done. by apply Ho.
  - intros lit Hlit.
    assert (forall k w, variables pb !! k = Some w -> exists w',
      <[var:=mk_var (v_unit v) (0 <? inv) true (v_uid v) (v_digest v) (v_order v)]> (variables pb) !! k = Some w' /\
      v_unit w' = v_unit w /\ (k <> var -> w' = w) /\ (k = var -> to_install w' = (0 <? inv))) as Hkeep.
    { intros k w Hw'. destruct (decide (k = var)) as [->|Hne].
      - rewrite list_lookup_insert_eq by done. eexists. split_and!; [done|cbn; congruence|by intros ?|by intros _].
      - rewrite list_lookup_insert_ne by done. exists w. by split_and!. }
    assert (request_delete j = [] -> inv = 1) as H1 by (intros Hd; destruct Hinv as [[-> _]|[_ [r Hr']]]; [done|by rewrite Hd in Hr']).
    apply elem_of_app in Hlit as [Hlit| ->%list_elem_of_singleton].
    + destruct (Ha lit Hlit) as (k & w & inv' & Hk & -> & Hq & Hi). destruct (Hkeep k w Hk) as (w' & Hw' & He & Hne & Heq).
      exists k, w', inv'. rewrite He. split_and!; [done|done|done|]. intros Hd.
      destruct (decide (k = var)) as [->|Hne']; [by rewrite Heq, H1|rewrite Hne by done; by apply Hi].
    + destruct (Hkeep var v Hv) as (w' & Hw' & He & _ & Heq). exists var, w', inv. rewrite He.
      split_and!; [done|by rewrite (Ho var v Hv)|done|]. intros Hd. by rewrite Heq, H1.
Qed.

Lemma asks_pm i inv : asks i inv -> inv = 1 \/ inv = -1.
Proof. intros [[-> _]|[-> _]]; auto. Qed.

Lemma unary_rule_step var i inv : units !! var = Some i -> asks i inv ->
  step (fun pb => '(_, pb) ← pkg_solve_add_unary_rule pb var inv; Some pb) (fun _ => True)
    (fun sel => sel i = (0 <? inv)).
Proof.
  intros Hi Hasks pb Hpb. pose proof (asks_pm _ _ Hasks) as Hinv.
  unfold pkg_solve_add_unary_rule. destruct (frame_lookup pb var i Hpb Hi) as (v & Hv & Hvi).
  rewrite Hv. cbn [mbind option_bind]. eexists. split; [reflexivity|].
  match goal with |- frame ?p /\ _ => set (pb' := p) end.
  assert (frame pb') as Hpb' by (apply frame_unary; [done|done|by rewrite Hvi]). split_and!; [done| |].
  - intros sel. unfold rules_hold. change (rules pb') with (rules pb).
    rewrite (rules_hold_frame pb pb' sel); [tauto|]. by rewrite (fr_units _ Hpb), (fr_units _ Hpb').
  - intros sel. unfold assumptions_hold. change (assumptions pb') with (assumptions pb ++ [v_order v * inv]).
    rewrite Forall_app, Forall_singleton. rewrite (fr_orders _ Hpb var v Hv).
    rewrite (assumption_true_frame pb' sel _ Hpb'), (literal_true_unit sel var i inv Hi Hinv).
    assert (Forall (assumption_true pb' sel) (assumptions pb) <-> Forall (assumption_true pb sel) (assumptions pb)) as ->;
      [|done].
    apply Forall_iff. intros lit. by rewrite !assumption_true_frame.
Qed.

(** *** The universe *)

(** What the rules of the variable of item [i] mean. *)
Definition item_rules (i : nat) (sel : nat -> bool) : Prop :=
  forall p ds cs ss, pkg_of u i = Some p -> pkg_deps p = Some ds -> pkg_conflicts p = Some cs ->
    pkg_shlibs_required p = Some ss ->
    (forall d, d ∈ ds -> dep_ok i d sel) /\ (forall c, c ∈ cs -> conflict_ok i p c sel) /\
    (is_local p = false -> forall s, s ∈ ss -> shlib_ok i s sel).

Definition item_requests (i : nat) (sel : nat -> bool) : Prop := add_ok i sel /\ delete_ok i sel.

Lemma request_step reqs var i inv : units !! var = Some i -> (is_Some (find_req reqs i) -> asks i inv) ->
  step (fun pb => match find_req reqs i with
                  | Some _ => '(_, pb) ← pkg_solve_add_unary_rule pb var inv; Some pb
                  | None => Some pb
                  end) (fun _ => True) (fun sel => is_Some (find_req reqs i) -> sel i = (0 <? inv)).
Proof.
  intros Hi Hinv. destruct (find_req reqs i) as [r|].
  - eapply step_equiv; [apply (unary_rule_step var i inv Hi); by apply Hinv|done|]. intros sel. split; [done|]. intros H. apply H. by eexists.
  - apply step_some; [done|]. by intros sel [? ?].
Qed.

Lemma process_variable_step var i p : units !! var = Some i -> pkg_of u i = Some p ->
  step (fun pb => process_variable emit j pb var) (item_rules i) (item_requests i).
Proof.
  intros Hi Hp. pose proof (wu_pkgs _ _ Hw i p Hp) as Hwp.
  destruct (wf_list_sound p PKG_DEPS Hwp) as (ds & Hds & _). destruct (wf_list_sound p PKG_CONFLICTS Hwp) as (cs & Hcs & _).
  destruct (wf_list_sound p PKG_SHLIBS_REQUIRED Hwp) as (ss & Hss & _).
  pose proof (step_bind _ _ _ _ _ _
    (step_foldl (fun pb dep => snd (pkg_solve_add_depend_rule pb var dep)) ds (fun d => dep_ok i d)
      (fun d _ => depend_rule_step var i d Hi))
    (step_bind _ _ _ _ _ _
      (step_fold (fun pb c => '(_, pb) ← pkg_solve_add_conflict_rule j pb p var c; Some pb) cs
        (fun c => conflict_ok i p c) (fun _ _ => True) (fun c _ => conflict_rule_step p var i c Hi))
      (step_bind (fun pb => if is_local p then Some pb else
          fold_opt (fun pb s => '(_, pb) ← pkg_solve_add_require_rule emit j pb var s; Some pb) ss pb) _
        (fun sel => is_local p = false -> forall s, s ∈ ss -> shlib_ok i s sel) (fun _ => True) _ _
        ltac:(destruct (is_local p); [by apply step_some|];
              eapply step_equiv; [apply (step_fold _ ss (fun s => shlib_ok i s) (fun _ _ => True) (fun s _ => require_rule_step var i s Hi))
                |intros sel; cbn; intuition|intros sel; cbn; intuition])
        (step_bind _ _ _ _ _ _ (request_step (request_add j) var i 1 Hi ltac:(by left; split))
                                (request_step (request_delete j) var i (-1) Hi ltac:(by right; split)))))) as H.
  intros pb Hpb. destruct (H pb Hpb) as (pb' & H1 & H2 & H3 & H4). exists pb'. split_and!; [|done| |].
  - unfold process_variable, var_pkg. destruct (frame_lookup pb var i Hpb Hi) as (v & -> & Hv).
    cbn [mbind option_bind]. rewrite Hv, Hp. cbn [mbind option_bind]. rewrite Hds. cbn [mbind option_bind].
    rewrite Hcs. cbn [mbind option_bind]. cbn [mbind option_bind] in H1. rewrite <- H1.
    rewrite Hss. by destruct (is_local p).
  - intros sel. rewrite H3. unfold item_rules. split.
    + intros [Hr (Hd & Hc & Hs & _)]. split; [done|]. intros p' ds' cs' ss' Hp' Hds' Hcs' Hss'. simplify_eq. by split_and!.
    + intros [Hr Hall]. destruct (Hall p ds cs ss Hp Hds Hcs Hss) as (Hd & Hc & Hs). by split_and!.
  - intros sel. rewrite H4. unfold item_requests, add_ok, delete_ok. cbn. intuition.
Qed.

(** The rules of a chain of variables: only the first excludes the others. *)
Definition chain_ok (chain : list nat) (sel : nat -> bool) : Prop :=
  match chain with
  | first :: next => sel first = true -> forall k, k ∈ next -> sel k = false
  | [] => True
  end.

Lemma process_chain_step chain vs added : stands_for vs chain ->
  (forall k, k ∈ chain -> exists p, pkg_of u k = Some p) ->
  step (fun pb => process_chain_from emit j pb vs added)
    (fun sel => (forall k, k ∈ chain -> item_rules k sel) /\ (added = false -> chain_ok chain sel))
    (fun sel => forall k, k ∈ chain -> item_requests k sel).
Proof.
  intros Hs. revert added. induction Hs as [|v k vs chain Hv Hs IH]; intros added Hp.
  - apply step_some; intros sel; [split; [|done]|]; intros k Hk; by apply elem_of_nil in Hk.
  - destruct (Hp k ltac:(by left)) as [p Hk]. assert (forall k', k' ∈ chain -> exists q, pkg_of u k' = Some q) as Hp'
      by (intros k' Hk'; apply Hp; by right).
    cbn [process_chain_from]. destruct (negb added && negb (bool_decide (vs = []))) eqn:E.
    + apply andb_true_iff in E as [->%negb_true_iff E].
      pose proof (step_bind _ _ _ _ _ _ (process_variable_step v k p Hv Hk)
        (step_bind _ _ _ _ _ _ (step_foldl (fun pb curvar => add_rule pb (rule_prepend (rule_prepend
             (pkg_solve_rule_new "upgrade chain") v (-1)) curvar (-1))) vs
           (fun cur sel => forall k', units !! cur = Some k' -> sel k = true -> sel k' = false)
           ltac:(intros cur Hcur; destruct (list_elem_of_lookup_1 _ _ Hcur) as [n Hn];
             destruct (Forall2_lookup_l _ _ _ _ _ Hs Hn) as (k' & _ & Hk');
             eapply step_equiv; [apply (pair_rule_step "upgrade chain" v k cur k' Hv Hk')
               |intros sel; split; [intros H k'' ?; by simplify_eq|intros H; by apply H]|done]))
           (IH true Hp'))) as H.
      eapply step_equiv; [exact H| |].
      * intros sel. cbn beta. rewrite (elem_cons_forall (fun k => item_rules k sel)). unfold chain_ok.
        assert ((forall x, x ∈ vs -> forall k', units !! x = Some k' -> sel k = true -> sel k' = false) <->
          (sel k = true -> forall k', k' ∈ chain -> sel k' = false)) as ->.
        2: { split; [by intros (H1 & H2 & H3 & _)|by intros [[H1 H3] H2]; split_and!; auto]. }
        split.
        -- intros Hx Hsk k' [n Hn]%list_elem_of_lookup_1. destruct (Forall2_lookup_r _ _ _ _ _ Hs Hn) as (x & Hx' & Hk').
           eapply Hx; [by eapply list_elem_of_lookup_2|done|done].
        -- intros Hc x [n Hn]%list_elem_of_lookup_1 k' Hk' Hsk. destruct (Forall2_lookup_l _ _ _ _ _ Hs Hn) as (k'' & Hk'' & Hx).
           apply Hc; [done|]. eapply list_elem_of_lookup_2. replace k' with k'' by congruence. done.
      * intros sel. cbn beta. rewrite (elem_cons_forall (fun k => item_requests k sel)). intuition.
    + eapply step_equiv; [apply (step_bind _ _ _ _ _ _ (process_variable_step v k p Hv Hk) (IH added Hp'))| |].
      * intros sel. cbn beta. rewrite (elem_cons_forall (fun k => item_rules k sel)).
        assert (added = false -> chain = []) as Hnil.
        { intros ->. apply andb_false_iff in E as [E|E]; [done|]. apply negb_false_iff, bool_decide_eq_true in E as ->.
          by inversion Hs. }
        split.
        -- intros [Hr [Hc Ha]]. split; [done|]. intros Hadd. rewrite (Hnil Hadd). intros _ k' Hk'. by apply elem_of_nil in Hk'.
        -- intros [[Hr Hc] Ha]. split_and!; [done|done|]. intros Hadd. by rewrite (Hnil Hadd).
      * intros sel. cbn beta. rewrite (elem_cons_forall (fun k => item_requests k sel)). intuition.
Qed.
End rules.

(** ** The variables *)

Section build.
Context (emit : ucl -> cstring) (j : pkg_jobs).
Abbreviation u := (j_universe j).
Context (Hw : wf_universe emit u).

(** The problem while the variables of the chains [els] are set up. *)
Record built (els : list (cstring * list nat)) (pb : pkg_solve_problem) : Prop := mk_built {
  bu_units : map v_unit (variables pb) = concat (map snd els);
  bu_orders : forall k v, variables pb !! k = Some v -> v_order v = Z.of_nat (S k);
  bu_rules : rules pb = [] /\ assumptions pb = [];
  bu_nvars : nvars pb = nitems u;
  bu_table : wf_table (variables_by_uid pb);
  bu_keys : keys (variables_by_uid pb) = map fst els;
  bu_chains : Forall2 (fun vs el => stands_for (concat (map snd els)) vs el.2) (values (variables_by_uid pb)) els }.

Lemma stands_for_app units more vs chain : stands_for units vs chain -> stands_for (units ++ more) vs chain.
Proof. intros Hs. eapply Forall2_impl; [exact Hs|]. intros v i Hv. by apply lookup_app_l_Some. Qed.

Lemma stands_for_last units i vs chain : stands_for units vs chain ->
  stands_for (units ++ [i]) (vs ++ [length units]) (chain ++ [i]).
Proof.
  intros Hs. apply Forall2_app; [by apply stands_for_app|]. constructor; [|constructor]. by rewrite list_lookup_middle.
Qed.

Lemma built_length els pb : built els pb -> length (variables pb) = length (concat (map snd els)).
Proof. intros Hb. rewrite <- (bu_units _ _ Hb). by rewrite length_map. Qed.

Lemma new_orders pb p i : (forall k v, variables pb !! k = Some v -> v_order v = Z.of_nat (S k)) ->
  forall k v, (variables pb ++ [new_variable emit p i (length (variables pb))]) !! k = Some v -> v_order v = Z.of_nat (S k).
Proof.
  intros Ho k v Hk. apply lookup_app_Some in Hk as [Hk|[Hle Hk]]; [by apply Ho|].
  apply list_lookup_singleton_Some in Hk as [He <-]. cbn. f_equal. lia.
Qed.

(** The first item of a chain. *)
Lemma add_first els pb uid i p : built els pb -> (length (concat (map snd els)) < nitems u)%nat ->
  let n := length (variables pb) in
  built (els ++ [(uid, [i])])
    (mk_problem (rules_count pb) (rules pb) (hash_add (variables_by_uid pb) uid [n])
       (variables pb ++ [new_variable emit p i n]) (assumptions pb) (nvars pb)).
Proof.
  intros Hb Hlt n. pose proof (built_length _ _ Hb) as Hlen. destruct Hb as [Hu Ho Hr Hn Ht Hk Hc].
  assert (concat (map snd (els ++ [(uid, [i])])) = concat (map snd els) ++ [i]) as Hcc
    by (rewrite map_app, concat_app; cbn; done).
  split; cbn [variables rules assumptions nvars variables_by_uid]; try done.
  - by rewrite map_app, Hu, Hcc.
  - by apply new_orders.
  - by apply wf_add.
  - by rewrite keys_add, Hk, map_app.
  - rewrite values_add, Hcc by done. apply Forall2_app.
    + eapply Forall2_impl; [exact Hc|]. intros vs el. by apply stands_for_app.
    + constructor; [|constructor]. cbn. unfold n. rewrite Hlen. apply (stands_for_last _ i [] []). constructor.
Qed.

(** One more item of the last chain. *)
Lemma add_next els pb uid chain i : built (els ++ [(uid, chain)]) pb ->
  (length (concat (map snd els) ++ chain) < nitems u)%nat -> is_Some (pkg_of u i) ->
  exists pb', append_variable emit j pb (length els) i = Some pb' /\ built (els ++ [(uid, chain ++ [i])]) pb'.
Proof.
  intros Hb Hlt [p Hp]. pose proof (built_length _ _ Hb) as Hlen. destruct Hb as [Hu Ho Hr Hn Ht Hk Hc].
  assert (forall c, concat (map snd (els ++ [(uid, c)])) = concat (map snd els) ++ c) as Hcc
    by (intros c; rewrite map_app, concat_app; cbn; by rewrite app_nil_r).
  rewrite Hcc in Hlen, Hu. unfold append_variable. rewrite Hn. rewrite (proj2 (Nat.ltb_lt _ _)) by (by rewrite Hlen). cbn [negb].
  rewrite Hp. cbn [mbind option_bind]. apply Forall2_app_inv_r in Hc as (vss & vs1 & Hc1 & Hc2 & Hv).
  apply Forall2_cons_inv_r in Hc2 as (vs & ? & Hvs & Hnil & ->). inversion Hnil; subst. cbn in Hvs. rewrite Hcc in Hvs.
  assert (length vss = length els) as Hl by (by eapply Forall2_length).
  rewrite hash_get_values, Hv, <- Hl, list_lookup_middle by done. cbn [mbind option_bind].
  eexists. split; [reflexivity|]. split; cbn [variables rules assumptions nvars variables_by_uid]; try done.
  - rewrite map_app, Hu, Hcc. cbn. by rewrite app_assoc.
  - by apply new_orders.
  - by apply wf_update.
  - rewrite elements_update, Hk, !map_app. done.
  - rewrite values_update, Hv. rewrite insert_app_r_alt, Nat.sub_diag by lia. cbn. rewrite Hcc, Hlen.
    apply Forall2_app.
    + eapply Forall2_impl; [exact Hc1|]. intros vs' el H. rewrite Hcc in H. rewrite app_assoc. by apply stands_for_app.
    + constructor; [|constructor]. cbn. rewrite app_assoc. by apply stands_for_last.
Qed.

Lemma add_rest els uid rest : forall pb chain, built (els ++ [(uid, chain)]) pb ->
  (length (concat (map snd els) ++ chain ++ rest) <= nitems u)%nat ->
  (forall i, i ∈ rest -> is_Some (pkg_of u i)) ->
  exists pb', fold_opt (fun pb ucur => append_variable emit j pb (length els) ucur) rest pb = Some pb' /\
    built (els ++ [(uid, chain ++ rest)]) pb'.
Proof.
  induction rest as [|i rest IH]; intros pb chain Hb Hle Hp.
  - exists pb. by rewrite app_nil_r.
  - destruct (add_next els pb uid chain i Hb) as (pb1 & H1 & Hb1).
    + rewrite !length_app in *. cbn in Hle. lia.
    + apply Hp. by left.
    + cbn [fold_opt]. rewrite H1. cbn [mbind option_bind].
      destruct (IH pb1 (chain ++ [i]) Hb1) as (pb2 & H2 & Hb2).
      * rewrite !length_app in *. cbn in *. lia.
      * intros k Hk. apply Hp. by right.
      * exists pb2. split; [done|]. by rewrite <- app_assoc in Hb2.
Qed.

Lemma add_variable_ok els pb uid chain : built els pb -> (length (concat (map snd els) ++ chain) <= nitems u)%nat ->
  chain <> [] -> (forall i, i ∈ chain -> exists p, pkg_of u i = Some p /\ pkg_uid emit p = Some uid) ->
  exists pb', pkg_solve_add_variable emit j pb chain = Some pb' /\ built (els ++ [(uid, chain)]) pb'.
Proof.
  intros Hb Hle Hne Hp. destruct chain as [|i rest]; [done|]. unfold pkg_solve_add_variable.
  destruct (Hp i ltac:(by left)) as (p & Hpi & Hu). rewrite length_app in Hle. cbn in Hle.
  rewrite (bu_nvars _ _ Hb), (built_length _ _ Hb). rewrite (proj2 (Nat.ltb_lt _ _)) by lia. cbn [negb].
  rewrite Hpi. cbn [mbind option_bind]. rewrite Hu. cbn [mbind option_bind].
  assert (length (entries (variables_by_uid pb)) = length els) as ->.
  { pose proof (bu_keys _ _ Hb) as Hk. apply (f_equal length) in Hk. unfold keys in Hk. by rewrite !length_map in Hk. }
  pose proof (add_first els pb uid i p Hb ltac:(lia)) as Hb1. cbn zeta in Hb1. rewrite (built_length _ _ Hb) in Hb1.
  apply (add_rest els uid rest _ [i]); [|rewrite !length_app; cbn; lia|].
  - rewrite <- (bu_nvars _ _ Hb). exact Hb1.
  - intros k Hk. destruct (Hp k ltac:(by right)) as (q & Hq & _). by exists q.
Qed.

Lemma add_variables_ok els2 : forall els1 pb, built els1 pb -> els1 ++ els2 = elements (u_items u) ->
  exists pb', fold_opt (pkg_solve_add_variable emit j) (map snd els2) pb = Some pb' /\
    built (elements (u_items u)) pb'.
Proof.
  induction els2 as [|[uid chain] els2 IH]; intros els1 pb Hb He.
  - exists pb. rewrite app_nil_r in He. subst els1. done.
  - assert ((uid, chain) ∈ elements (u_items u)) as Hin by (rewrite <- He; apply elem_of_app; right; by left).
    destruct (wu_chains _ _ Hw uid chain Hin) as [Hne Hp].
    assert (length (concat (map snd (elements (u_items u)))) = nitems u) as Hlen.
    { rewrite <- values_elements, (wu_nitems _ _ Hw). rewrite (Permutation_length (wu_once _ _ Hw)). by rewrite length_seq. }
    destruct (add_variable_ok els1 pb uid chain Hb) as (pb1 & H1 & Hb1); [|done|done|].
    + rewrite <- Hlen, <- He, map_app, concat_app, !length_app. cbn. rewrite length_app. lia.
    + cbn [map fold_opt snd]. rewrite H1. cbn [mbind option_bind]. apply (IH (els1 ++ [(uid, chain)])); [done|].
      by rewrite <- app_assoc.
Qed.

Lemma built_frame pb : built (elements (u_items u)) pb ->
  frame j (concat (values (u_items u))) (variables_by_uid pb) pb.
Proof.
  intros Hb. destruct Hb as [Hu Ho [Hr Ha] Hn Ht Hk Hc]. rewrite <- values_elements in Hu. split; try done.
  - by rewrite Hn, (wu_nitems _ _ Hw), (Permutation_length (wu_once _ _ Hw)), length_seq.
  - rewrite Hr. constructor.
  - intros lit Hlit. rewrite Ha in Hlit. by apply elem_of_nil in Hlit.
Qed.

Lemma built_vars pb uid : built (elements (u_items u)) pb ->
  match pkg_jobs_universe_find u uid with
  | Some chain => exists vs, hash_lookup (variables_by_uid pb) uid = Some vs /\
      stands_for (concat (values (u_items u))) vs chain
  | None => hash_lookup (variables_by_uid pb) uid = None
  end.
Proof.
  intros Hb. destruct Hb as [Hu Ho Hr Hn Ht Hk Hc]. rewrite <- keys_elements in Hk. rewrite <- values_elements in Hc.
  destruct (pkg_jobs_universe_find u uid) as [chain|] eqn:E.
  - apply (find_elements emit) in E; [|done]. apply list_elem_of_lookup_1 in E as [k E].
    destruct (Forall2_lookup_r _ _ _ _ _ Hc E) as (vs & Hvs & Hs). exists vs. split; [|exact Hs].
    apply hash_lookup_elements; [done|rewrite Hk; apply Hw|]. apply (list_elem_of_lookup_2 _ k).
    apply elements_lookup. rewrite Hk. apply elements_lookup in E as [Hku _]. by split.
  - apply hash_lookup_none; [done|]. rewrite Hk. apply hash_lookup_none; [apply Hw|done].
Qed.
End build.

(** ** The problem that is handed to the solver *)

(** A selection of items that may be installed together. *)
Record consistent (j : pkg_jobs) (sel : nat -> bool) : Prop := mk_consistent {
  co_items : forall i, (i < nitems (j_universe j))%nat -> item_rules j i sel;
  co_chains : forall uid chain, pkg_jobs_universe_find (j_universe j) uid = Some chain -> chain_ok chain sel }.

(** The requests as the solver reads them. *)
Definition requests_met (j : pkg_jobs) (sel : nat -> bool) : Prop :=
  forall i, (i < nitems (j_universe j))%nat -> item_requests j i sel.

(** The problem [pb] stands for the job [j]: a variable for each item, in the
    order of the chains, and clauses and assumptions that mean what they
    should. *)
Record encodes (j : pkg_jobs) (pb : pkg_solve_problem) : Prop := mk_encodes {
  en_frame : frame j (concat (values (u_items (j_universe j)))) (variables_by_uid pb) pb;
  en_table : wf_table (variables_by_uid pb);
  en_chains : Forall2 (stands_for (concat (values (u_items (j_universe j))))) (values (variables_by_uid pb))
    (values (u_items (j_universe j)));
  en_rules : forall sel, rules_hold pb sel <-> consistent j sel;
  en_requests : forall sel, assumptions_hold pb sel <-> requests_met j sel }.

Section encode.
Context (emit : ucl -> cstring) (j : pkg_jobs).
Abbreviation u := (j_universe j).
Context (Hw : wf_universe emit u) (Hprov : provides_ok u).

Lemma chains_of_values chain : chain ∈ values (u_items u) <-> exists uid, pkg_jobs_universe_find u uid = Some chain.
Proof. by apply (chain_in_values emit). Qed.

Lemma built_start : built j [] (mk_problem 0 [] table_empty [] [] (nitems u)).
Proof. split; cbn; try done; try apply wf_empty. Qed.

(** The chains of the universe, processed in order. *)
Lemma process_chains_step vt chains :
  (forall uid, match pkg_jobs_universe_find u uid with
               | Some chain => exists vs, hash_lookup vt uid = Some vs /\ stands_for (concat (values (u_items u))) vs chain
               | None => hash_lookup vt uid = None
               end) ->
  (forall chain, chain ∈ chains -> chain ∈ values (u_items u)) ->
  forall pb, frame j (concat (values (u_items u))) vt pb -> exists pb',
    fold_opt (fun '(r, pb) un =>
      match r with
      | EPKG_OK =>
          first ← head un;
          p ← pkg_of u first;
          uid ← pkg_uid emit p;
          match find_var pb uid with
          | None => Some (EPKG_FATAL, pb)
          | Some var => pkg_solve_process_universe_variable emit j pb var
          end
      | _ => Some (r, pb)
      end) chains (EPKG_OK, pb) = Some (EPKG_OK, pb') /\
    frame j (concat (values (u_items u))) vt pb' /\
    (forall sel, rules_hold pb' sel <-> rules_hold pb sel /\
       forall chain, chain ∈ chains -> (forall k, k ∈ chain -> item_rules j k sel) /\ chain_ok chain sel) /\
    (forall sel, assumptions_hold pb' sel <-> assumptions_hold pb sel /\
       forall chain, chain ∈ chains -> forall k, k ∈ chain -> item_requests j k sel).
Proof.
  intros Hvt. induction chains as [|chain chains IH]; intros Hin pb Hpb.
  - exists pb. split_and!; [done|done| |]; intros sel; (split; [|by intros [? _]]); intros H; (split; [done|]);
      intros c Hc; by apply elem_of_nil in Hc.
  - assert (exists uid, pkg_jobs_universe_find u uid = Some chain) as [uid Hf] by (apply chains_of_values, Hin; by left).
    pose proof Hf as Hne. apply (find_elements emit) in Hne; [|done].
    destruct (wu_chains _ _ Hw _ _ Hne) as [Hn Hp]. destruct chain as [|first rest]; [done|].
    destruct (Hp first ltac:(by left)) as (p & Hpf & Hu). pose proof (Hvt uid) as Hv. rewrite Hf in Hv.
    destruct Hv as (vs & Hvs & Hs).
    destruct (process_chain_step emit j _ vt Hw Hprov Hvt (first :: rest) vs false Hs) with (pb := pb)
      as (pb1 & H1 & H2 & H3 & H4); [intros k Hk; destruct (Hp k Hk) as (q & Hq & _); by exists q|done|].
    destruct (IH ltac:(intros c Hc; apply Hin; by right) pb1 H2) as (pb2 & G1 & G2 & G3 & G4). exists pb2.
    split_and!; [|done| |].
    + cbn [fold_opt head mbind option_bind]. rewrite Hpf. cbn [mbind option_bind]. rewrite Hu. cbn [mbind option_bind].
      rewrite (find_var_frame j _ vt pb uid Hpb), Hvs. unfold pkg_solve_process_universe_variable.
      rewrite H1. cbn [mbind option_bind]. exact G1.
    + intros sel. rewrite G3, H3.
      rewrite (elem_cons_forall (fun c => (forall k, k ∈ c -> item_rules j k sel) /\ chain_ok c sel)). intuition.
    + intros sel. rewrite G4, H4.
      rewrite (elem_cons_forall (fun c => forall k, k ∈ c -> item_requests j k sel)). intuition.
Qed.

Lemma items_in_chains (P : nat -> Prop) :
  (forall chain, chain ∈ values (u_items u) -> forall k, k ∈ chain -> P k) <-> forall i, (i < nitems u)%nat -> P i.
Proof.
  rewrite (wu_nitems _ _ Hw). split; intros H.
  - intros i Hi. destruct (lookup_lt_is_Some_2 (u_store u) i Hi) as [x Hx].
    destruct (chain_of_item emit u i (ui_pkg x) Hw) as (chain & uid & _ & Hin & _ & Hf); [unfold pkg_of; by rewrite Hx|].
    apply (H chain); [|done]. apply chains_of_values. by exists uid.
  - intros chain [uid Hf]%chains_of_values k Hk. apply H.
    destruct (chain_member emit u uid chain k Hw Hf Hk) as (p & Hp & _). by apply pkg_of_lt in Hp.
Qed.

Lemma jobs_to_sat_ok : exists pb, pkg_solve_jobs_to_sat emit j = Some (EPKG_OK, pb) /\ encodes j pb.
Proof.
  destruct (add_variables_ok emit j Hw (elements (u_items u)) [] _ built_start eq_refl) as (pb0 & H0 & Hb).
  pose proof (built_frame emit j Hw pb0 Hb) as Hfr. pose proof (fun uid => built_vars emit j Hw pb0 uid Hb) as Hvt.
  destruct (process_chains_step (variables_by_uid pb0) (values (u_items u)) Hvt ltac:(done) pb0 Hfr)
    as (pb & H1 & H2 & H3 & H4).
  exists pb. split.
  - unfold pkg_solve_jobs_to_sat. rewrite (hash_iter_wf _ (wu_items _ _ Hw)). cbn [mbind option_bind].
    rewrite values_elements at 1. rewrite H0. cbn [mbind option_bind]. exact H1.
  - pose proof (fr_table _ _ _ _ H2) as Ht. destruct Hb as [_ _ [Hr Ha] _ Hwt _ Hc].
    split; rewrite ?Ht; [done|done| | |].
    + rewrite (values_elements (u_items u)). by apply Forall2_fmap_r.
    + intros sel. rewrite H3. unfold rules_hold. rewrite Hr. split.
      * intros [_ H]. split; [apply items_in_chains; intros chain Hin; by apply H|].
        intros uid chain Hf. apply H, chains_of_values. by exists uid.
      * intros [Hi Hch]. split; [constructor|]. intros chain Hin. split.
        -- intros k Hk. revert chain Hin k Hk. by apply items_in_chains.
        -- apply chains_of_values in Hin as [uid Hf]. by eapply Hch.
    + intros sel. rewrite H4. unfold assumptions_hold. rewrite Ha. unfold requests_met.
      rewrite <- (items_in_chains (fun i => item_requests j i sel)). split; [by intros [_ H]|]. intros H. by split; [constructor|].
Qed.
End encode.

(** C17: pkg_solve_jobs_to_sat makes a variable of every item of the universe
    exactly once, and its rules hold under a selection of items exactly when
    the selection is consistent: the dependencies, conflicts and required
    libraries of what is selected are met, and the first item of a chain is not
    selected with another one.  Its assumptions hold exactly when the requests
    are met.  It never fails: no NULL pointer is followed and no assertion
    fails. *)
Theorem jobs_to_sat_encodes (emit : ucl -> cstring) (j : pkg_jobs)
  (Hw : wf_universe emit (j_universe j)) (Hp : provides_ok (j_universe j)) :
  exists pb, pkg_solve_jobs_to_sat emit j = Some (EPKG_OK, pb) /\
    map v_unit (variables pb) ≡ₚ seq 0 (nitems (j_universe j)) /\
    forall sel, (rules_hold pb sel <-> consistent j sel) /\ (assumptions_hold pb sel <-> requests_met j sel).
Proof.
  destruct (jobs_to_sat_ok emit j Hw Hp) as (pb & H & He). exists pb. split_and!; [done| |].
  - rewrite (fr_units _ _ _ _ (en_frame _ _ He)), (wu_nitems _ _ Hw). apply (wu_once _ _ Hw).
  - intros sel. split; [apply (en_rules _ _ He)|apply (en_requests _ _ He)].
Qed.

(** ** What PicoSAT answers *)

(** The truth of a literal under the values of the variables. *)
Definition lit_true (value : Z -> Z) (l : Z) : Prop := if 0 <? l then 0 < value l else value (- l) < 0.

(** PicoSAT is sound and, called without a limit, decides. *)
Record picosat_ok (picosat_sat : list (list Z) -> list Z -> list phase -> sat_result) : Prop := mk_picosat_ok {
  ps_sat : forall cnf asm phases value, picosat_sat cnf asm phases = SATISFIABLE value ->
    Forall (Exists (lit_true value)) cnf /\ Forall (lit_true value) asm;
  ps_unsat : forall cnf asm phases failed, picosat_sat cnf asm phases = UNSATISFIABLE failed ->
    failed ⊆ asm /\ forall value, Forall (Exists (lit_true value)) cnf -> ~ Forall (lit_true value) failed;
  ps_decides : forall cnf asm phases, picosat_sat cnf asm phases <> UNKNOWN }.

(** The items whose variables are set to be installed. *)
Definition selection (pb : pkg_solve_problem) (i : nat) : bool :=
  match find (fun v => Nat.eqb (v_unit v) i) (variables pb) with Some v => to_install v | None => false end.

Section picosat.
Context (emit : ucl -> cstring).
Context (picosat_sat : list (list Z) -> list Z -> list phase -> sat_result) (Hps : picosat_ok picosat_sat).
Context (j : pkg_jobs) (pb : pkg_solve_problem) (Hw : wf_universe emit (j_universe j)) (He : encodes j pb).
Abbreviation u := (j_universe j).
Abbreviation units := (concat (values (u_items u))).
Abbreviation Hfr := (en_frame _ _ He).

Lemma units_nodup : NoDup units.
Proof. apply (wu_nodup _ _ Hw). Qed.

Lemma units_pkg k i : units !! k = Some i -> exists p, pkg_of u i = Some p.
Proof.
  intros Hk. apply list_elem_of_lookup_2 in Hk. rewrite (wu_once _ _ Hw) in Hk. apply elem_of_seq in Hk as [_ Hk].
  destruct (lookup_lt_is_Some_2 (u_store u) i Hk) as [x Hx]. exists (ui_pkg x). unfold pkg_of. by rewrite Hx.
Qed.

Lemma selection_lookup pb' k v : map v_unit (variables pb') = units -> variables pb' !! k = Some v ->
  selection pb' (v_unit v) = to_install v.
Proof.
  intros Hu Hk. unfold selection. pose proof units_nodup as Hn. rewrite <- Hu in Hn. clear Hu.
  revert k Hk Hn. generalize (variables pb'). induction l as [|w l IH]; intros k Hk Hn; [done|].
  cbn in Hn. apply NoDup_cons in Hn as [Hw' Hn]. cbn [find]. destruct k as [|k]; cbn in Hk.
  - injection Hk as ->. by rewrite Nat.eqb_refl.
  - destruct (Nat.eqb_spec (v_unit w) (v_unit v)) as [E|_]; [|by apply (IH k)]. destruct Hw'. rewrite E.
    apply elem_of_map. exists v. split; [done|by eapply list_elem_of_lookup_2].
Qed.

(** A literal and the selection of its item. *)
Lemma lit_true_of value k inv : inv = 1 \/ inv = -1 ->
  lit_true value (Z.of_nat (S k) * inv) -> (0 <? inv) = (0 <? value (Z.of_nat k + 1)).
Proof.
  unfold lit_true. replace (Z.of_nat k + 1) with (Z.of_nat (S k)) by lia. intros [-> | ->] H.
  - rewrite Z.mul_1_r in H. rewrite (proj2 (Z.ltb_lt 0 _)) in H by lia. symmetry. by apply Z.ltb_lt.
  - rewrite (proj2 (Z.ltb_ge 0 _)) in H by lia. replace (- (Z.of_nat (S k) * -1)) with (Z.of_nat (S k)) in H by lia.
    symmetry. apply Z.ltb_ge. lia.
Qed.

(** The values that stand for a selection. *)
Definition value_of (sel : nat -> bool) (l : Z) : Z :=
  match units !! Z.to_nat (l - 1) with Some i => if sel i then 1 else -1 | None => -1 end.

Lemma lit_true_value sel k i inv : inv = 1 \/ inv = -1 -> units !! k = Some i -> sel i = (0 <? inv) ->
  lit_true (value_of sel) (Z.of_nat (S k) * inv).
Proof.
  intros Hinv Hk Hs. assert (value_of sel (Z.of_nat (S k)) = if sel i then 1 else -1) as Hv.
  { unfold value_of. replace (Z.to_nat (Z.of_nat (S k) - 1)) with k by lia. by rewrite Hk. }
  unfold lit_true. destruct Hinv as [-> | ->]; rewrite Hs in Hv; cbn in Hv.
  - rewrite Z.mul_1_r, Hv. by rewrite (proj2 (Z.ltb_lt 0 _)) by lia.
  - rewrite (proj2 (Z.ltb_ge 0 _)) by lia. replace (- (Z.of_nat (S k) * -1)) with (Z.of_nat (S k)) by lia. by rewrite Hv.
Qed.

(** *** The clauses *)

Definition item_clause (it : pkg_solve_item) : Z := Z.of_nat (S (it_var it)) * inverse it.

Lemma item_literal_some it : is_Some (units !! it_var it) -> item_literal pb it = Some (item_clause it).
Proof.
  intros [i Hi]. unfold item_literal. destruct (frame_lookup j units _ pb _ i Hfr Hi) as (v & Hv & _). rewrite Hv.
  cbn [mbind option_bind]. by rewrite (fr_orders _ _ _ _ Hfr _ _ Hv).
Qed.

Lemma clauses_some : clauses pb = Some (map (fun r => map item_clause (rule_items r)) (rules pb)).
Proof.
  unfold clauses. pose proof (fr_rules _ _ _ _ Hfr) as Hr. induction Hr as [|r rs Hr _ IH]; [done|].
  cbn [mapM]. assert (mapM (item_literal pb) (rule_items r) = Some (map item_clause (rule_items r))) as ->.
  { induction Hr as [|it its [Hi _] _ IH']; [done|]. cbn [mapM]. by rewrite (item_literal_some it Hi), IH'. }
  cbn [mbind option_bind]. rewrite IH. done.
Qed.

Lemma phases_some : exists ps, initial_phases j pb = Some ps.
Proof.
  unfold initial_phases. destruct (fold_opt_inv (fun _ : list phase => True)
    (fun ps i => v ← variables pb !! i; p ← pkg_of u (v_unit v);
       let lit := Z.of_nat i + 1 in
       Some (if top_level v then ps else ps ++ [if is_local p then (lit, 1, 1) else (lit, -1, -1)]))
    (seq 0 (nvars pb)) []) as (ps & H & _); [|done|by exists ps].
  intros ps i [_ Hi]%elem_of_seq _. rewrite (fr_nvars _ _ _ _ Hfr) in Hi. cbn in Hi.
  destruct (lookup_lt_is_Some_2 units i Hi) as [x Hx].
  destruct (frame_lookup j units _ pb _ x Hfr Hx) as (v & -> & Hvx). cbn [mbind option_bind]. rewrite Hvx.
  destruct (units_pkg i x Hx) as [p ->]. cbn [mbind option_bind]. by eexists.
Qed.

(** An assignment of the variables. *)
Abbreviation assigned value := (set_variables pb (imap (assign value) (variables pb))).

Lemma assigned_units value : map v_unit (variables (assigned value)) = units.
Proof.
  rewrite <- (fr_units _ _ _ _ Hfr). cbn. apply list_eq. intros k. change (map v_unit ?l) with (v_unit <$> l).
  rewrite !list_lookup_fmap, list_lookup_imap. by destruct (variables pb !! k).
Qed.

Lemma assigned_selection value k i : units !! k = Some i ->
  selection (assigned value) i = (0 <? value (Z.of_nat k + 1)).
Proof.
  intros Hi. destruct (frame_lookup j units _ pb k i Hfr Hi) as (v & Hv & <-).
  apply (selection_lookup (assigned value) k (assign value k v)); [apply assigned_units|].
  cbn. by rewrite list_lookup_imap, Hv.
Qed.

Lemma clause_true value r : rule_ok units r -> Exists (lit_true value) (map item_clause (rule_items r)) ->
  rule_true pb (selection (assigned value)) r.
Proof.
  intros Hr Hx. unfold rule_true. apply Exists_exists in Hx as (l & (it & -> & Hit)%elem_of_map & Hl).
  apply Exists_exists.
  exists it. split; [done|]. unfold rule_ok in Hr. rewrite Forall_forall in Hr. destruct (Hr it Hit) as [[i Hi] Hinv].
  destruct (frame_lookup j units _ pb _ i Hfr Hi) as (v & Hv & Hvi). exists v. split; [done|].
  rewrite Hvi, (assigned_selection value _ i Hi). symmetry. by apply lit_true_of.
Qed.

Lemma clause_value sel r : rule_ok units r -> rule_true pb sel r ->
  Exists (lit_true (value_of sel)) (map item_clause (rule_items r)).
Proof.
  intros Hr Hx. unfold rule_true in Hx. apply Exists_exists in Hx as (it & Hit & (v & Hv & Hs)).
  apply Exists_exists.
  exists (item_clause it). split; [apply elem_of_map; by exists it|].
  unfold rule_ok in Hr. rewrite Forall_forall in Hr. destruct (Hr it Hit) as [[i Hi] Hinv].
  destruct (frame_lookup j units _ pb _ i Hfr Hi) as (w & Hw' & <-). simplify_eq. by apply (lit_true_value sel _ (v_unit v)).
Qed.

Lemma request_literal lit : lit ∈ assumptions pb -> exists k v inv, variables pb !! k = Some v /\
  units !! k = Some (v_unit v) /\ lit = Z.of_nat (S k) * inv /\ (inv = 1 \/ inv = -1) /\ asks j (v_unit v) inv.
Proof.
  intros (k & v & inv & Hk & -> & Ha & _)%(fr_asked _ _ _ _ Hfr). exists k, v, inv. split_and!; try done.
  - rewrite <- (fr_units _ _ _ _ Hfr). change (map v_unit (variables pb)) with (v_unit <$> variables pb).
    by rewrite list_lookup_fmap, Hk.
  - by apply (asks_pm j (v_unit v)).
Qed.

(** *** Both answers *)

Abbreviation cnf := (map (fun r => map item_clause (rule_items r)) (rules pb)).

Lemma sat_selection value : Forall (Exists (lit_true value)) cnf -> Forall (lit_true value) (assumptions pb) ->
  consistent j (selection (assigned value)) /\ requests_met j (selection (assigned value)).
Proof.
  intros Hc Ha. split.
  - apply (en_rules _ _ He). unfold rules_hold. pose proof (fr_rules _ _ _ _ Hfr) as Hr.
    rewrite Forall_forall in Hc; rewrite Forall_forall in Hr. apply Forall_forall. intros r Hin. apply clause_true; [by apply Hr|].
    apply Hc, elem_of_map. by exists r.
  - apply (en_requests _ _ He). unfold assumptions_hold. rewrite Forall_forall in Ha. apply Forall_forall. intros lit Hlit.
    destruct (request_literal lit Hlit) as (k & v & inv & Hv & Hk & -> & Hinv & _).
    exists v, inv. split_and!; [by eapply list_elem_of_lookup_2|done|by rewrite (fr_orders _ _ _ _ Hfr k v Hv)|].
    rewrite (assigned_selection value k _ Hk). symmetry. apply lit_true_of; [done|by apply Ha].
Qed.

Lemma consistent_cnf sel : consistent j sel -> Forall (Exists (lit_true (value_of sel))) cnf.
Proof.
  intros Hc. apply (en_rules _ _ He) in Hc. unfold rules_hold in Hc. pose proof (fr_rules _ _ _ _ Hfr) as Hr.
  rewrite Forall_forall in Hc. rewrite Forall_forall in Hr. apply Forall_forall. intros c (r & -> & Hin)%elem_of_map. apply clause_value; auto.
Qed.

Lemma requests_met_lits sel : requests_met j sel -> Forall (lit_true (value_of sel)) (assumptions pb).
Proof.
  intros Hm. apply (en_requests _ _ He) in Hm. unfold assumptions_hold in Hm. rewrite Forall_forall in Hm. apply Forall_forall. intros lit Hlit.
  destruct (Hm lit Hlit) as (v & inv & [k Hk]%list_elem_of_lookup_1 & Hinv & -> & Hs).
  rewrite (fr_orders _ _ _ _ Hfr k v Hk). apply (lit_true_value sel k (v_unit v)); [done| |done].
  rewrite <- (fr_units _ _ _ _ Hfr). change (map v_unit (variables pb)) with (v_unit <$> variables pb).
  by rewrite list_lookup_fmap, Hk.
Qed.

(** Nothing selected is always consistent. *)
Lemma nothing_consistent : consistent j (fun _ => false).
Proof.
  split.
  - intros i _ p ds cs ss _ _ _ _. by split_and!.
  - intros uid [|first next] _; [done|]. by intros H.
Qed.

(** PicoSAT on the problem. *)
Lemma sat_problem_cases answers :
  (exists value, pkg_solve_sat_problem picosat_sat answers j pb = Some (EPKG_OK, j, assigned value) /\
     consistent j (selection (assigned value)) /\ requests_met j (selection (assigned value))) \/
  (exists failed, pkg_solve_sat_problem picosat_sat answers j pb = ('(r, j) ← drop_requests answers 0 j pb failed; Some (r, j, pb)) /\
     failed ⊆ assumptions pb /\ failed <> [] /\ forall sel, consistent j sel -> ~ requests_met j sel).
Proof.
  unfold pkg_solve_sat_problem. rewrite clauses_some. cbn [mbind option_bind].
  destruct phases_some as [ps ->]. cbn [mbind option_bind].
  destruct (picosat_sat cnf (assumptions pb) ps) as [value|failed|] eqn:E.
  - left. exists value. split; [done|]. apply sat_selection; by eapply ps_sat.
  - right. exists failed. destruct (ps_unsat _ Hps _ _ _ _ E) as [Hf Hno]. split_and!; [done|done| |].
    + intros ->. apply (Hno (value_of (fun _ => false))); [|constructor]. apply consistent_cnf, nothing_consistent.
    + intros sel Hc Hm. apply (Hno (value_of sel)); [by apply consistent_cnf|].
      apply requests_met_lits in Hm. rewrite Forall_forall in Hm. apply Forall_forall. intros l Hl. by apply Hm, Hf.
  - by destruct (ps_decides _ Hps _ _ _ E).
Qed.
End picosat.

(** ** What the jobs do *)

(** The set of installed items after a job. *)
Definition apply_job (s : gset nat) (job : pkg_solved) : gset nat :=
  match s_type job with
  | PKG_SOLVED_INSTALL => {[s_item0 job]} ∪ s
  | PKG_SOLVED_DELETE => s ∖ {[s_item0 job]}
  | PKG_SOLVED_UPGRADE => {[s_item0 job]} ∪ (s ∖ match s_item1 job with Some i => {[i]} | None => ∅ end)
  | PKG_SOLVED_UPGRADE_REMOVE | PKG_SOLVED_FETCH => s
  end.

Definition apply_jobs (jobs : list pkg_solved) (s : gset nat) : gset nat := foldl apply_job s jobs.

Definition local_item (u : universe) (i : nat) : bool :=
  match pkg_of u i with Some p => is_local p | None => false end.

(** What is installed before. *)
Definition installed (u : universe) : gset nat :=
  list_to_set (List.filter (local_item u) (seq 0 (length (u_store u)))).

(** The items of a chain to install and to remove for a selection. *)
Definition adds (u : universe) (sel : nat -> bool) (chain : list nat) : list nat :=
  List.filter (fun i => sel i && negb (local_item u i)) chain.
Definition dels (u : universe) (sel : nat -> bool) (chain : list nat) : list nat :=
  List.filter (fun i => negb (sel i) && local_item u i) chain.

Definition install_type (t : pkg_jobs_t) : pkg_solved_t :=
  match t with PKG_JOBS_FETCH => PKG_SOLVED_FETCH | _ => PKG_SOLVED_INSTALL end.

(** The jobs of a chain. *)
Definition chain_jobs (t : pkg_jobs_t) (add del : list nat) : list pkg_solved :=
  let delete := map (fun d => mk_solved d None PKG_SOLVED_DELETE false) in
  match add with
  | [] => delete del
  | [a] =>
      match last del with
      | None => [mk_solved a None (install_type t) false]
      | Some d => mk_solved a (Some d) PKG_SOLVED_UPGRADE false :: delete (List.filter (fun i => negb (Nat.eqb i d)) del)
      end
  | _ => []
  end.

(** The jobs of a selection. *)
Definition solved_jobs (j : pkg_jobs) (sel : nat -> bool) : list pkg_solved :=
  concat (map (fun c => chain_jobs (j_type j) (adds (j_universe j) sel c) (dels (j_universe j) sel c)) (values (u_items (j_universe j)))).

(** No chain has two packages to install. *)
Definition one_candidate (u : universe) (sel : nat -> bool) : Prop :=
  forall uid chain, pkg_jobs_universe_find u uid = Some chain -> (length (adds u sel chain) <= 1)%nat.

Definition append_jobs (j : pkg_jobs) (l : list pkg_solved) : pkg_jobs :=
  set_jobs j (j_jobs j ++ l) (j_count j + length l).

Lemma append_jobs_nil j : append_jobs j [] = j.
Proof. unfold append_jobs. destruct j. cbn. by rewrite app_nil_r, Nat.add_0_r. Qed.

Lemma append_jobs_one j s : append_job j s = append_jobs j [s].
Proof. unfold append_job, append_jobs. cbn. by rewrite Nat.add_1_r. Qed.

Lemma append_jobs_app j l1 l2 : append_jobs (append_jobs j l1) l2 = append_jobs j (l1 ++ l2).
Proof. unfold append_jobs. cbn. by rewrite <- app_assoc, length_app, Nat.add_assoc. Qed.

Lemma elem_apply_deletes ds s i :
  i ∈ apply_jobs (map (fun d => mk_solved d None PKG_SOLVED_DELETE false) ds) s <-> i ∈ s /\ i ∉ ds.
Proof.
  revert s; induction ds as [|d ds IH]; intros s; cbn.
  - rewrite elem_of_nil. tauto.
  - unfold apply_jobs in IH. rewrite IH. unfold apply_job. cbn. rewrite not_elem_of_cons, elem_of_difference, elem_of_singleton. tauto.
Qed.

(** A chain with at most one candidate gets what is to be added and loses what
    is to be removed. *)
Lemma elem_chain_jobs t add del s i : t <> PKG_JOBS_FETCH -> (length add <= 1)%nat -> (forall a, a ∈ add -> a ∉ del) ->
  i ∈ apply_jobs (chain_jobs t add del) s <-> i ∈ add \/ i ∈ s /\ i ∉ del.
Proof.
  intros Ht Hl Hd. destruct add as [|a [|b add]]; [| |cbn in Hl; lia]; unfold chain_jobs.
  - rewrite elem_apply_deletes, elem_of_nil. tauto.
  - pose proof (Hd a ltac:(by left)) as Ha. destruct (last del) as [d|] eqn:E.
    + apply last_Some in E as [ds ->].
      change (apply_jobs (?x :: ?l) s) with (apply_jobs l (apply_job s x)). rewrite elem_apply_deletes.
      assert (i ∉ List.filter (fun i => negb (Nat.eqb i d)) (ds ++ [d]) <-> (i ∈ ds ++ [d] -> i = d)) as ->.
      { rewrite list_elem_of_In, filter_In, <- list_elem_of_In, negb_true_iff, Nat.eqb_neq.
        destruct (decide (i = d)); tauto. }
      unfold apply_job. cbn. rewrite elem_of_union, elem_of_difference, !elem_of_singleton, list_elem_of_singleton.
      assert (d ∈ ds ++ [d]) as Hin by (apply elem_of_app; right; by left). split.
      * intros [[->|[Hs Hn]] Hi]; [by left|right; split; [done|]]. intros Hx. by apply Hn, Hi.
      * intros [->|[Hs Hn]]; [split; [by left|done]|]. split; [right; split; [done|by intros ->]|done].
    + apply last_None in E as ->. rewrite list_elem_of_singleton, elem_of_nil.
      unfold install_type. destruct t; try done; cbn; unfold apply_job; cbn; rewrite elem_of_union, elem_of_singleton; tauto.
Qed.

Section sat_to_jobs.
Context (emit : ucl -> cstring) (j : pkg_jobs) (pb : pkg_solve_problem) (u : universe).
Context (Hw : wf_universe emit u).
Abbreviation units := (concat (values (u_items u))).
Context (Hunits : map v_unit (variables pb) = units) (Htab : wf_table (variables_by_uid pb)).
Context (Hchains : Forall2 (stands_for units) (values (variables_by_uid pb)) (values (u_items u))).
Abbreviation sel := (selection pb).

Lemma var_item v i : units !! v = Some i -> exists x p, variables pb !! v = Some x /\ v_unit x = i /\
    pkg_of u i = Some p /\ to_install x = sel i /\ is_local p = local_item u i.
Proof.
  intros Hv. assert (exists x, variables pb !! v = Some x /\ v_unit x = i) as (x & Hx & <-).
  { rewrite <- Hunits in Hv. change (map v_unit (variables pb)) with (v_unit <$> variables pb) in Hv.
    rewrite list_lookup_fmap in Hv. apply fmap_Some in Hv as (x & Hx & ->). by exists x. }
  assert (exists p, pkg_of u (v_unit x) = Some p) as [p Hp].
  { apply list_elem_of_lookup_2 in Hv. rewrite (wu_once _ _ Hw) in Hv. apply elem_of_seq in Hv as [_ Hv].
    destruct (lookup_lt_is_Some_2 (u_store u) _ Hv) as [y Hy]. exists (ui_pkg y). unfold pkg_of. by rewrite Hy. }
  exists x, p. split_and!; try done.
  - symmetry. apply (selection_lookup emit (mk_jobs u [] [] [] PKG_JOBS_INSTALL 0 0 0) Hw pb v x Hunits Hx).
  - unfold local_item. by rewrite Hp.
Qed.

Definition add_item (i : nat) : bool := sel i && negb (local_item u i).
Definition del_item (i : nat) : bool := negb (sel i) && local_item u i.

(** The variable [v] stands for [i]. *)
Lemma to_add_item v i : units !! v = Some i -> exists x, variables pb !! v = Some x /\ v_unit x = i /\
    to_add u x = Some (add_item i) /\ to_delete u x = Some (del_item i).
Proof.
  intros (x & p & Hx & Hi & Hp & Hs & Hl)%var_item. exists x. split_and!; [done|done| |].
  - unfold to_add. rewrite Hi, Hp. cbn [mbind option_bind]. by rewrite Hs, Hl.
  - unfold to_delete. rewrite Hi, Hp. cbn [mbind option_bind]. by rewrite Hs, Hl.
Qed.

(** The last variable of a list that stands for an item of the list. *)
Definition last_var (o : option nat) (items : list nat) : Prop :=
  match o with
  | Some v => exists i, last items = Some i /\ units !! v = Some i
  | None => items = []
  end.

Lemma scan_chain_from vs chain : stands_for units vs chain -> forall l0 ds0 a d, 
  last_var a l0 -> last_var d ds0 ->
  exists a' d', fold_opt (fun (acc : option nat * option nat * nat * nat) cur_var =>
    let '(add_var, del_var, seen_add, seen_del) := acc in
    v ← variables pb !! cur_var;
    add ← to_add u v;
    del ← to_delete u v;
    Some (if (add : bool) then (Some cur_var, del_var, S seen_add, seen_del)
          else if (del : bool) then (add_var, Some cur_var, seen_add, S seen_del)
          else (add_var, del_var, seen_add, seen_del))) vs (a, d, length l0, length ds0) =
      Some (a', d', length (l0 ++ adds u sel chain), length (ds0 ++ dels u sel chain)) /\
      last_var a' (l0 ++ adds u sel chain) /\ last_var d' (ds0 ++ dels u sel chain).
Proof.
  unfold last_var. intros Hs. induction Hs as [|v i vs chain Hv _ IH]; intros l0 ds0 a d Ha Hd.
  - exists a, d. cbn [adds dels List.filter]. unfold adds, dels. cbn [List.filter]. by rewrite !app_nil_r.
  - destruct (to_add_item v i Hv) as (x & Hx & _ & Hadd & Hdel). cbn [fold_opt]. rewrite Hx. cbn [mbind option_bind].
    rewrite Hadd. cbn [mbind option_bind]. rewrite Hdel. cbn [mbind option_bind].
    unfold adds, dels. cbn [List.filter]. fold (add_item i) (del_item i).
    change (sel i && negb (local_item u i)) with (add_item i). change (negb (sel i) && local_item u i) with (del_item i).
    fold (adds u sel chain) (dels u sel chain).
    assert (forall (l : list nat) k, S (length l) = length (l ++ [k])) as Hlen by (intros l k; rewrite length_app; cbn; lia).
    assert (add_item i = true -> del_item i = false) as Hex
      by (unfold add_item, del_item; by destruct (sel i), (local_item u i)).
    destruct (add_item i) eqn:Ea; [rewrite (Hex eq_refl)|destruct (del_item i) eqn:Ed].
    + rewrite (Hlen l0 i). destruct (IH (l0 ++ [i]) ds0 (Some v) d) as (a' & d' & H1 & H2 & H3);
        [exists i; by rewrite last_snoc|done|]. rewrite <- app_assoc in *. by exists a', d'.
    + rewrite (Hlen ds0 i). destruct (IH l0 (ds0 ++ [i]) a (Some v)) as (a' & d' & H1 & H2 & H3);
        [done|exists i; by rewrite last_snoc|]. rewrite <- app_assoc in *. by exists a', d'.
    + apply IH; done.
Qed.

Lemma scan_chain_ok vs chain : stands_for units vs chain -> exists a d,
  scan_chain u pb vs = Some (a, d, length (adds u sel chain), length (dels u sel chain)) /\
  last_var a (adds u sel chain) /\ last_var d (dels u sel chain).
Proof. intros Hs. by apply (scan_chain_from vs chain Hs [] [] None None). Qed.

Lemma units_inj v w i : units !! v = Some i -> units !! w = Some i -> v = w.
Proof. intros Hv Hw'. eapply NoDup_lookup; [apply (wu_nodup _ _ Hw)|done|done]. Qed.

Lemma delete_jobs_ok vs chain n d items : stands_for units vs chain -> last_var d items -> forall j0, j_universe j0 = u ->
  delete_jobs j0 pb n d vs = Some (append_jobs j0 (map (fun d => mk_solved d None PKG_SOLVED_DELETE false)
    (List.filter (fun i => negb ((0 <? n)%nat && bool_decide (last items = Some i))) (dels u sel chain)))).
Proof.
  intros Hs Hd. unfold delete_jobs. induction Hs as [|v i vs chain Hv _ IH]; intros j0 Hj.
  - cbn. by rewrite append_jobs_nil.
  - destruct (to_add_item v i Hv) as (x & Hx & Hxi & _ & Hdel). cbn [fold_opt]. rewrite Hx. cbn [mbind option_bind].
    rewrite Hj, Hdel. cbn [mbind option_bind].
    assert (bool_decide (d = Some v) = bool_decide (last items = Some i)) as ->.
    { apply bool_decide_ext. unfold last_var in Hd. destruct d as [w|].
      - destruct Hd as (k & -> & Hw'). split; [intros [= ->]; congruence|intros [= ->]]. by rewrite (units_inj v w i).
      - subst items. done. }
    unfold dels. cbn [List.filter]. change (negb (sel i) && local_item u i) with (del_item i).
    fold (dels u sel chain). destruct (del_item i); cbn [andb].
    + cbn [List.filter]. destruct (negb _); cbn [map]; [|by apply IH].
      rewrite append_jobs_one, Hxi, IH by done. f_equal. by rewrite append_jobs_app.
    + by apply IH.
Qed.

Lemma insert_res_job_ok vs chain j0 : stands_for units vs chain -> j_universe j0 = u ->
  pkg_solve_insert_res_job pb j0 vs =
    Some (append_jobs j0 (chain_jobs (j_type j0) (adds u sel chain) (dels u sel chain))).
Proof.
  intros Hs Hj. unfold pkg_solve_insert_res_job. rewrite Hj.
  destruct (scan_chain_ok vs chain Hs) as (a & d & -> & Ha & Hd). cbn [mbind option_bind].
  pose proof (delete_jobs_ok vs chain (length (adds u sel chain)) d _ Hs Hd) as Hdel.
  unfold last_var in Ha, Hd. destruct (adds u sel chain) as [|x [|y more]]; cbn [length].
  - cbn [Nat.ltb Nat.leb Nat.eqb negb orb]. cbn [length] in Hdel. destruct (dels u sel chain) as [|z ds] eqn:E.
    + cbn. by rewrite append_jobs_nil.
    + cbn [length Nat.eqb negb mbind option_bind]. rewrite (Hdel j0 Hj). do 3 f_equal.
      apply forallb_filter_id, forallb_forall. intros. done.
  - destruct a as [av|]; [|done]. destruct Ha as (i & [= <-] & Hav).
    destruct (to_add_item av x Hav) as (xv & Hxv & Hxi & _ & _).
    cbn [Nat.ltb Nat.leb Nat.eqb negb orb mbind option_bind]. rewrite Hxv. cbn [mbind option_bind]. rewrite Hxi.
    unfold chain_jobs. destruct d as [dv|].
    + destruct Hd as (z & Hz & Hdv). destruct (to_add_item dv z Hdv) as (yv & Hyv & Hyi & _ & _). rewrite Hz.
      assert ((length (dels u sel chain) =? 0)%nat = false) as -> by (destruct (dels u sel chain); done).
      cbn [mbind option_bind]. rewrite Hyv. cbn [mbind option_bind]. rewrite Hyi, append_jobs_one.
      rewrite Hdel by done. rewrite append_jobs_app. do 4 f_equal. rewrite Hz. apply List.filter_ext. intros i.
      cbn. f_equal. destruct (Nat.eqb_spec i z) as [->|Hne]; [by apply bool_decide_eq_true|].
      apply bool_decide_eq_false. congruence.
    + rewrite Hd in Hdel |- *. cbn [length Nat.eqb mbind option_bind last]. rewrite append_jobs_one.
      rewrite Hdel by done. cbn [List.filter map]. rewrite append_jobs_app. done.
  - by rewrite append_jobs_nil.
Qed.

Lemma insert_res_jobs_ok vss chains j0 : Forall2 (stands_for units) vss chains -> j_universe j0 = u ->
  fold_opt (pkg_solve_insert_res_job pb) vss j0 =
    Some (append_jobs j0 (concat (map (fun c => chain_jobs (j_type j0) (adds u sel c) (dels u sel c)) chains))).
Proof.
  intros Hs. revert j0. induction Hs as [|vs chain vss chains Hv _ IH]; intros j0 Hj.
  - cbn. by rewrite append_jobs_nil.
  - cbn [fold_opt]. rewrite (insert_res_job_ok vs chain j0 Hv Hj). cbn [mbind option_bind map concat].
    rewrite IH by done. by rewrite append_jobs_app.
Qed.

Lemma sat_to_jobs_ok : j_universe j = u ->
  pkg_solve_sat_to_jobs pb j = Some (append_jobs j
    (concat (map (fun c => chain_jobs (j_type j) (adds u sel c) (dels u sel c)) (values (u_items u))))).
Proof.
  intros Hj. unfold pkg_solve_sat_to_jobs. rewrite (hash_iter_wf _ Htab). cbn [mbind option_bind].
  by apply insert_res_jobs_ok.
Qed.
End sat_to_jobs.

(** The jobs of disjoint chains. *)
Lemma elem_jobs (u : universe) sel t chains s i : t <> PKG_JOBS_FETCH -> NoDup (concat chains) ->
  (forall chain, chain ∈ chains -> (length (adds u sel chain) <= 1)%nat) ->
  (forall k, k ∈ concat chains -> (k ∈ s <-> local_item u k = true)) ->
  i ∈ apply_jobs (concat (map (fun c => chain_jobs t (adds u sel c) (dels u sel c)) chains)) s <->
  if decide (i ∈ concat chains) then sel i = true else i ∈ s.
Proof.
  intros Ht. revert s. induction chains as [|chain chains IH]; intros s Hn H1 Hs.
  - cbn. rewrite decide_False; [done|apply not_elem_of_nil].
  - cbn [map concat] in *. apply NoDup_app in Hn as (Hc & Hd & Hn).
    unfold apply_jobs. rewrite foldl_app. fold (apply_jobs (chain_jobs t (adds u sel chain) (dels u sel chain)) s).
    set (s1 := apply_jobs (chain_jobs t (adds u sel chain) (dels u sel chain)) s).
    assert (forall k, k ∈ s1 <-> if decide (k ∈ chain) then sel k = true else k ∈ s) as Hs1.
    { intros k. unfold s1. rewrite elem_chain_jobs; [|done|by apply H1; left|].
      - unfold adds, dels. rewrite !list_elem_of_In, !filter_In, <- !list_elem_of_In, !andb_true_iff, !negb_true_iff.
        destruct (decide (k ∈ chain)) as [Hk|Hk]; [|tauto].
        rewrite (Hs k) by (apply elem_of_app; by left). destruct (sel k), (local_item u k); intuition congruence.
      - intros a. unfold adds, dels. rewrite !list_elem_of_In, !filter_In, !andb_true_iff, !negb_true_iff.
        intros [_ [Hs' _]] [_ [Hs'' _]]. congruence. }
    change (i ∈ apply_jobs (concat (map (fun c => chain_jobs t (adds u sel c) (dels u sel c)) chains)) s1 <->
      if decide (i ∈ chain ++ concat chains) then sel i = true else i ∈ s).
    rewrite IH; [|done|intros c Hcc; apply H1; by right|].
    + destruct (decide (i ∈ concat chains)) as [Hi|Hi].
      * rewrite decide_True by (apply elem_of_app; by right). done.
      * rewrite Hs1. destruct (decide (i ∈ chain)) as [Hic|Hic].
        -- rewrite decide_True by (apply elem_of_app; by left). done.
        -- rewrite decide_False; [done|]. rewrite elem_of_app. tauto.
    + intros k Hk. rewrite Hs1, decide_False; [apply Hs, elem_of_app; by right|]. intros Hkc. by apply (Hd k).
Qed.

(** ** The solving loop *)

(** What the variables of a problem cover. *)
Record covers (u : universe) (pb : pkg_solve_problem) : Prop := mk_covers {
  cv_units : map v_unit (variables pb) = concat (values (u_items u));
  cv_table : wf_table (variables_by_uid pb);
  cv_chains : Forall2 (stands_for (concat (values (u_items u)))) (values (variables_by_uid pb)) (values (u_items u)) }.

Lemma encodes_covers j pb value : encodes j pb ->
  covers (j_universe j) (set_variables pb (imap (assign value) (variables pb))).
Proof.
  intros He. split; [by apply assigned_units|apply (en_table _ _ He)|apply (en_chains _ _ He)].
Qed.

Lemma elem_installed (u : universe) k : (k < length (u_store u))%nat -> (k ∈ installed u <-> local_item u k = true).
Proof.
  intros Hk. unfold installed. rewrite elem_of_list_to_set, list_elem_of_In, filter_In, <- list_elem_of_In, elem_of_seq.
  split; [by intros [_ ?]|]. intros H. split; [lia|done].
Qed.

(** The jobs made for a selection reach it. *)
Definition reaches (j j' : pkg_jobs) (sel : nat -> bool) : Prop :=
  j_jobs j = [] -> j_type j <> PKG_JOBS_FETCH -> one_candidate (j_universe j) sel ->
  forall i, (i < nitems (j_universe j))%nat ->
    (i ∈ apply_jobs (j_jobs j') (installed (j_universe j)) <-> sel i = true).

Lemma sat_to_jobs_reaches emit j pb : wf_universe emit (j_universe j) -> covers (j_universe j) pb ->
  let j' := append_jobs j (solved_jobs j (selection pb)) in
  pkg_solve_sat_to_jobs pb j = Some j' /\ reaches j j' (selection pb).
Proof.
  intros Hw [Hu Ht Hc]. split; [by apply (sat_to_jobs_ok emit j pb (j_universe j) Hw Hu Ht Hc)|].
  intros Hj Htype H1 i Hi. cbn [j_jobs append_jobs set_jobs]. rewrite Hj. rewrite (wu_nitems _ _ Hw) in Hi.
  assert (forall k, k ∈ concat (values (u_items (j_universe j))) <-> (k < length (u_store (j_universe j)))%nat) as Hk.
  { intros k. rewrite (wu_once _ _ Hw), elem_of_seq. lia. }
  rewrite app_nil_l. unfold solved_jobs. rewrite elem_jobs; [|done|apply (wu_nodup _ _ Hw)| |].
  - rewrite decide_True by (by apply Hk). done.
  - intros chain [uid Hf]%(chain_in_values emit _ _ Hw). by apply (H1 uid).
  - intros k Hin. apply elem_installed. by apply Hk.
Qed.

(** The assumptions that failed are dropped, with their requests. *)
Lemma drop_requests_ok answers pb failed : forall n j, failed <> [] ->
  (forall lit, lit ∈ failed -> exists k v, lit = Z.of_nat (S k) /\ variables pb !! k = Some v /\ to_install v = true) ->
  exists r reqs', drop_requests answers n j pb failed = Some (r, set_request_add j reqs') /\
    sublist reqs' (request_add j) /\
    (r = EPKG_FATAL \/ r = EPKG_AGAIN /\ (length reqs' < length (request_add j))%nat).
Proof.
  induction failed as [|lit failed IH]; intros n j Hne Hall; [done|].
  destruct (Hall lit ltac:(by left)) as (k & v & -> & Hv & Hi). cbn [drop_requests].
  rewrite (proj2 (Z.leb_le 1 _)) by lia. replace (Z.to_nat (Z.of_nat (S k) - 1)) with k by lia.
  rewrite Hv. cbn [mbind option_bind]. rewrite Hi.
  assert (j = set_request_add j (request_add j)) as Hself by (by destruct j).
  destruct (answers n); [|by exists EPKG_FATAL, (request_add j); rewrite <- Hself; split_and!; [| |left]].
  destruct (find_req (request_add j) (v_unit v)) eqn:E; [|by exists EPKG_FATAL, (request_add j); rewrite <- Hself; split_and!; [| |left]].
  pose proof (del_req_length (v_unit v) (request_add j) ltac:(by rewrite E)) as Hlen.
  pose proof (del_req_sublist (v_unit v) (request_add j)) as Hsub.
  destruct failed as [|lit' failed]; [by eexists EPKG_AGAIN, _; split_and!; [|exact Hsub|right]|].
  destruct (IH (S n) (set_request_add j (del_req (v_unit v) (request_add j))) ltac:(done)) as (r & reqs' & H1 & H2 & H3).
  { intros l Hl. apply Hall. by right. }
  exists r, reqs'. split_and!; [exact H1|by etransitivity|]. cbn [request_add set_request_add] in H3.
  destruct H3 as [->|[-> H3]]; [by left|right; split; [done|lia]].
Qed.

(** It goes on only after the user agreed. *)
Lemma drop_requests_result answers pb failed : forall n j r j', drop_requests answers n j pb failed = Some (r, j') ->
  r = EPKG_FATAL \/ r = EPKG_AGAIN /\ exists k, answers k = true.
Proof.
  induction failed as [|lit failed IH]; intros n j r j'; cbn [drop_requests]; [done|].
  destruct (if 1 <=? lit then _ else None) as [v|]; [|done]. cbn [mbind option_bind].
  destruct (answers n) eqn:En; [|intros [= <- _]; by left].
  destruct (find_req _ _); [|intros [= <- _]; by left].
  destruct failed; [intros [= <- _]; right; split; [done|by exists n]|]. intros H. by eapply IH.
Qed.

(** with a sound and complete PicoSAT, pkg_solve_sat_problem answers
    EPKG_OK exactly when some consistent selection meets the requests, and then
    the variables hold such a selection; the requests stay as they were. *)
Theorem sat_problem_decides (emit : ucl -> cstring) (picosat_sat : list (list Z) -> list Z -> list phase -> sat_result)
  (answers : nat -> bool) (j : pkg_jobs) (Hps : picosat_ok picosat_sat)
  (Hw : wf_universe emit (j_universe j)) (Hp : provides_ok (j_universe j)) :
  exists pb, pkg_solve_jobs_to_sat emit j = Some (EPKG_OK, pb) /\
    ((exists sel, consistent j sel /\ requests_met j sel) <->
     exists j' pb', pkg_solve_sat_problem picosat_sat answers j pb = Some (EPKG_OK, j', pb')) /\
    forall j' pb', pkg_solve_sat_problem picosat_sat answers j pb = Some (EPKG_OK, j', pb') ->
      j' = j /\ consistent j (selection pb') /\ requests_met j (selection pb').
Proof.
  destruct (jobs_to_sat_ok emit j Hw Hp) as (pb & H & He). exists pb. split; [done|].
  destruct (sat_problem_cases emit picosat_sat Hps j pb Hw He answers)
    as [(value & -> & Hc & Hm)|(failed & -> & _ & _ & Hno)].
  - split; [split; [intros _; by eexists _, _|intros _; by eexists]|]. intros j' pb' [= <- <-]. by split_and!.
  - assert (forall j' pb', ('(r, j0) ← drop_requests answers 0 j pb failed; Some (r, j0, pb)) <> Some (EPKG_OK, j', pb')) as Hf.
    { intros j' pb'. destruct (drop_requests answers 0 j pb failed) as [[r j0]|] eqn:E; [|done].
      cbn [mbind option_bind]. intros [= -> _ _]. by destruct (drop_requests_result _ _ _ _ _ _ _ E) as [?|[? _]]. }
    split; [split|].
    + intros (sel & Hc & Hm). by destruct (Hno sel Hc).
    + intros (j' & pb' & Hx). by destruct (Hf j' pb').
    + intros j' pb' Hx. by destruct (Hf j' pb').
Qed.

(** C23: pkg_solve_sat_to_jobs makes jobs that lead from what is installed to
    the selection of the variables, provided no unique id has two remote
    packages selected: afterwards exactly the selected items are installed. *)
Theorem sat_to_jobs_reaches_selection (emit : ucl -> cstring) (j : pkg_jobs) (pb : pkg_solve_problem)
  (Hw : wf_universe emit (j_universe j)) (Hc : covers (j_universe j) pb) (Hj : j_jobs j = [])
  (Ht : j_type j <> PKG_JOBS_FETCH) (H1 : one_candidate (j_universe j) (selection pb)) :
  exists j', pkg_solve_sat_to_jobs pb j = Some j' /\ j_universe j' = j_universe j /\
    request_add j' = request_add j /\ request_delete j' = request_delete j /\ j_count j' = (j_count j + length (j_jobs j'))%nat /\
    forall i, (i < nitems (j_universe j))%nat ->
      (i ∈ apply_jobs (j_jobs j') (installed (j_universe j)) <-> selection pb i = true).
Proof.
  destruct (sat_to_jobs_reaches emit j pb Hw Hc) as (H & Hr). eexists.
  split_and!; try done; [cbn; by rewrite Hj|by apply Hr].
Qed.

Section loop.
Context (emit : ucl -> cstring) (picosat_sat : list (list Z) -> list Z -> list phase -> sat_result).
Context (Hps : picosat_ok picosat_sat) (answers : nat -> nat -> bool).

(** A consistent selection that meets the requests that are left; its jobs, and
    nothing else, are added to the job, and they reach it. *)
Definition solution (j j' : pkg_jobs) : Prop :=
  exists sel, consistent j' sel /\ requests_met j' sel /\ reaches j j' sel /\
    j' = append_jobs (set_request_add j (request_add j')) (solved_jobs j sel).

(** What became of a request: it is left, or it was passed over for another
    candidate or a lock, or the user agreed to drop requests. *)
Definition accounted (j j' : pkg_jobs) : Prop :=
  forall i, i ∈ map rq_item (request_add j) -> is_Some (pkg_of (j_universe j) i) ->
    i ∈ map rq_item (request_add j') \/ passed_over emit (j_universe j) i \/ exists round n, answers round n = true.

(** No consistent selection meets these requests. *)
Definition unsolvable (j : pkg_jobs) (reqs : list pkg_job_request) : Prop :=
  forall sel, consistent (set_request_add j reqs) sel -> ~ requests_met (set_request_add j reqs) sel.

(** A round of the loop: an answer, or fewer requests for a next round. *)
Lemma solve_round fuel round j : solvable emit (j_universe j) -> provides_ok (j_universe j) ->
  NoDup (map rq_item (request_add j)) ->
  exists reqs, sublist reqs (request_add j) /\ NoDup (map rq_item reqs) /\ accounted j (set_request_add j reqs) /\
    let j1 := set_request_add j reqs in
    (exists j', solve_again emit picosat_sat answers (S fuel) round j = Some (EPKG_OK, j') /\ solution j j' /\
       request_add j' = reqs) \/
    (exists pb failed, encodes j1 pb /\ failed ⊆ assumptions pb /\ failed <> [] /\
       (forall sel, consistent j1 sel -> ~ requests_met j1 sel) /\
       forall r j2, drop_requests (answers round) 0 j1 pb failed = Some (r, j2) ->
         solve_again emit picosat_sat answers (S fuel) round j =
         match r with EPKG_FATAL => Some (EPKG_FATAL, j2) | _ => solve_again emit picosat_sat answers fuel (S round) j2 end).
Proof.
  intros Hs Hp Hn. destruct (upgrade_chains_ok emit j Hs Hn) as (reqs & H1 & Hn1 & _).
  destruct (upgrade_chains_sublist emit j _ H1) as (reqs' & E & Hsub).
  assert (reqs' = reqs) as -> by (by injection E as <-). exists reqs. split_and!; [done|done| |].
  { intros i Hi Hp'. destruct (upgrade_chains_left emit j reqs i Hs Hn H1 Hi Hp') as [?|?]; [by left|by right; left]. }
  cbn zeta.
  cbn [solve_again]. rewrite H1. cbn [mbind option_bind]. pose proof (so_wf _ _ Hs) as Hw.
  destruct (jobs_to_sat_ok emit (set_request_add j reqs) Hw Hp) as (pb & H2 & He). rewrite H2. cbn [mbind option_bind].
  destruct (sat_problem_cases emit picosat_sat Hps (set_request_add j reqs) pb Hw He (answers round))
    as [(value & Hsat & Hc & Hm)|(failed & Hsat & Hf & Hne & Hno)].
  - left. rewrite Hsat. cbn [mbind option_bind].
    destruct (sat_to_jobs_reaches emit (set_request_add j reqs) _ Hw (encodes_covers _ pb value He)) as (H3 & H4).
    rewrite H3. cbn [mbind option_bind]. eexists. split_and!; [done| |done]. eexists. split_and!; [| |exact H4|done].
    + destruct Hc. by split.
    + exact Hm.
  - right. exists pb, failed. split_and!; [done|done|done|done|]. intros r j2 Hd. rewrite Hsat, Hd. cbn [mbind option_bind].
    by destruct (drop_requests_result _ _ _ _ _ _ _ Hd) as [-> | [-> _]].
Qed.

(** The failed assumptions of a job that only installs are its requests. *)
Lemma failed_positive j pb failed : encodes j pb -> request_delete j = [] -> failed ⊆ assumptions pb ->
  forall lit, lit ∈ failed -> exists k v, lit = Z.of_nat (S k) /\ variables pb !! k = Some v /\ to_install v = true.
Proof.
  intros He Hd Hf lit Hl. destruct (fr_asked _ _ _ _ (en_frame _ _ He) lit (Hf _ Hl)) as (k & v & inv & Hv & -> & Ha & Hi).
  destruct Ha as [[-> _]|[_ [r Hr]]]; [|by rewrite Hd in Hr].
  exists k, v. split_and!; [lia|done|by apply Hi].
Qed.

Lemma solution_fewer j reqs j' : solution (set_request_add j reqs) j' -> solution j j'.
Proof. intros (sel & Hc & Hm & Hr & He). exists sel. split_and!; [done|done|done|exact He]. Qed.

Lemma solve_again_ok (fuel round : nat) (j : pkg_jobs) (Hs : solvable emit (j_universe j))
  (Hp : provides_ok (j_universe j)) (Hn : NoDup (map rq_item (request_add j))) (Hd : request_delete j = [])
  (Hfuel : (length (request_add j) < fuel)%nat) :
  exists r j', solve_again emit picosat_sat answers fuel round j = Some (r, j') /\
    sublist (request_add j') (request_add j) /\
    (r = EPKG_FATAL /\ j' = set_request_add j (request_add j') /\ (exists reqs, sublist reqs (request_add j) /\ unsolvable j reqs) \/
     r = EPKG_OK /\ accounted j j' /\ solution j j').
Proof.
  revert round j Hs Hp Hn Hd Hfuel. induction fuel as [|fuel IH]; intros round j Hs Hp Hn Hd Hfuel; [lia|].
  destruct (solve_round fuel round j Hs Hp Hn) as (reqs & Hsub & Hn1 & Hacc & [(j' & H1 & H2 & H3)|(pb & failed & He & Hf & Hne & Hno & H)]).
  - exists EPKG_OK, j'. rewrite H3. split_and!; [done|done|right]. split_and!; [done| |done]. intros i. rewrite H3. apply Hacc.
  - destruct (drop_requests_ok (answers round) pb failed 0 (set_request_add j reqs) Hne (failed_positive _ _ _ He Hd Hf))
      as (r & reqs' & Hdrop & Hsub' & Hr).
    cbn [request_add set_request_add] in *. rewrite (H _ _ Hdrop). destruct Hr as [->|[-> Hlen]].
    + eexists _, _. split_and!; [done|cbn [request_add set_request_add]; by transitivity reqs|].
      left. split_and!; [done|done|by exists reqs].
    + assert (exists k, answers round k = true) as [k Hk] by (by destruct (drop_requests_result _ _ _ _ _ _ _ Hdrop) as [?|[_ ?]]).
      apply sublist_length in Hsub as Hle. destruct (IH (S round) (set_request_add j reqs')) as (r & j' & H1 & H2 & H3); try done.
      * cbn [request_add set_request_add]. eapply sublist_NoDup; [exact Hn1|]. by apply (fmap_sublist rq_item).
      * cbn [request_add set_request_add]. lia.
      * cbn [request_add set_request_add] in H2, H3. assert (sublist reqs' (request_add j)) as Hsub2 by (by transitivity reqs).
        exists r, j'. split_and!; [exact H1|by transitivity reqs'|].
        destruct H3 as [(H3 & H4 & rs & Hrs & Hun)|(H3 & _ & H4)]; [left|right].
        -- split_and!; [done|by rewrite H4 at 1|exists rs; split; [by transitivity reqs'|exact Hun]].
        -- split_and!; [done| |by eapply solution_fewer]. intros i _ _. right. right. by exists round, k.
Qed.

(** C19: for a job that installs or upgrades, the solver loop of pkg_jobs_solve
    ends: a round that is not the last drops at least one request, so one more
    round than there are requests is enough.  It never reads outside of the
    variables when it reports failed requests, and answers EPKG_OK or
    EPKG_FATAL.  With EPKG_FATAL no consistent selection meets the requests of
    some round.  With EPKG_OK there is a consistent selection that meets the
    requests that are left, and the jobs are those of this selection.  A request
    that is not left was passed over, or the user agreed to drop requests.  The
    jobs lead from what is installed to the selection only if it has at most one
    candidate of each unique id: the rules do not exclude two, for which no job is
    made ([two_candidates_accepted], [two_candidates_dropped]). *)
Theorem solve_again_ends (fuel round : nat) (j : pkg_jobs) (Hs : solvable emit (j_universe j))
  (Hp : provides_ok (j_universe j)) (Hn : NoDup (map rq_item (request_add j))) (Hd : request_delete j = [])
  (Hfuel : (length (request_add j) < fuel)%nat) :
  exists r j', solve_again emit picosat_sat answers fuel round j = Some (r, j') /\
    sublist (request_add j') (request_add j) /\
    (r = EPKG_FATAL /\ (exists reqs, sublist reqs (request_add j) /\ unsolvable j reqs) \/
     r = EPKG_OK /\ accounted j j' /\ exists sel, consistent j' sel /\ requests_met j' sel /\
       j' = append_jobs (set_request_add j (request_add j')) (solved_jobs j sel) /\
       (j_jobs j = [] -> j_type j <> PKG_JOBS_FETCH -> one_candidate (j_universe j) sel ->
        forall i, (i < nitems (j_universe j))%nat ->
          (i ∈ apply_jobs (j_jobs j') (installed (j_universe j)) <-> sel i = true))).
Proof.
  destruct (solve_again_ok fuel round j Hs Hp Hn Hd Hfuel) as (r & j' & H1 & H2 & H3). exists r, j'. split_and!; [done|done|].
  destruct H3 as [(? & _ & ?)|(? & ? & sel & Hc & Hm & Hr & Hj)]; [by left|right]. split_and!; [done|done|]. exists sel. by split_and!.
Qed.

(** A job that only removes packages is always solved, in one round and
    without a question: selecting nothing is consistent.  The requested
    packages are not selected, and the jobs lead to the selection. *)
Theorem solve_deinstall (fuel round : nat) (j : pkg_jobs) (Hs : solvable emit (j_universe j))
  (Hp : provides_ok (j_universe j)) (Ha : request_add j = []) (Hfuel : (0 < fuel)%nat) :
  exists j', solve_again emit picosat_sat answers fuel round j = Some (EPKG_OK, j') /\ solution j j'.
Proof.
  destruct fuel as [|fuel]; [lia|].
  destruct (solve_round fuel round j Hs Hp) as (reqs & Hsub & _ & _ & [(j' & H1 & H2 & _)|(pb & failed & _ & _ & _ & Hno & _)]).
  - rewrite Ha. constructor.
  - by exists j'.
  - rewrite Ha in Hsub. apply sublist_nil_r in Hsub as ->.
    destruct (Hno (fun _ => false)); [apply nothing_consistent|]. intros i _. split; [|done].
    by intros [r Hr].
Qed.
End loop.

(** ** Chains with several candidates *)

(** when two remote packages of one unique id are selected,
    pkg_solve_insert_res_job makes no job for the chain and
    pkg_solve_sat_to_jobs reports success all the same. *)
Theorem two_candidates_dropped (emit : ucl -> cstring) (pb : pkg_solve_problem) (j : pkg_jobs) (vs chain : list nat)
  (Hw : wf_universe emit (j_universe j)) (Hc : covers (j_universe j) pb)
  (Hs : stands_for (concat (values (u_items (j_universe j)))) vs chain)
  (H2 : (1 < length (adds (j_universe j) (selection pb) chain))%nat) :
  pkg_solve_insert_res_job pb j vs = Some j.
Proof.
  rewrite (insert_res_job_ok emit pb (j_universe j) Hw (cv_units _ _ Hc) vs chain j Hs eq_refl).
  destruct (adds _ _ _) as [|x [|y more]]; cbn in H2; [lia..|]. by rewrite append_jobs_nil.
Qed.

(** ** DIMACS *)

Lemma order_variables_none fuel var ord l : order_variables fuel var ord l = None.
Proof. revert var ord l; induction fuel as [|fuel IH]; intros var ord l; [done|]. cbn. apply IH. Qed.

(** pkg_solve_dimacs_export never ends: PKG_SOLVE_VAR_NEXT is never NULL,
    so the loop that numbers the variables runs past their end. *)
Lemma dimacs_export_diverges (fuel : nat) (pb : pkg_solve_problem) : pkg_solve_dimacs_export fuel pb = None.
Proof. unfold pkg_solve_dimacs_export. by rewrite order_variables_none. Qed.

(** ** Concrete problems *)

(** A solver that tries every assignment. *)
Definition lit_holds (value : Z -> Z) (l : Z) : bool := if 0 <? l then 0 <? value l else value (- l) <? 0.

Fixpoint all_bools (n : nat) : list (list bool) :=
  match n with
  | O => [[]]
  | S n => flat_map (fun bs => [true :: bs; false :: bs]) (all_bools n)
  end.

Definition bools_value (bs : list bool) (l : Z) : Z :=
  match bs !! Z.to_nat (l - 1) with Some true => if 1 <=? l then 1 else -1 | _ => -1 end.

Definition max_var (ls : list Z) : nat := foldr (fun l n => Nat.max (Z.to_nat (Z.abs l)) n) 0%nat ls.

Definition brute_sat (cnf : list (list Z)) (asm : list Z) (phases : list phase) : sat_result :=
  match find (fun bs => forallb (existsb (lit_holds (bools_value bs))) cnf && forallb (lit_holds (bools_value bs)) asm)
          (all_bools (max_var (concat cnf ++ asm))) with
  | Some bs => SATISFIABLE (bools_value bs)
  | None => UNSATISFIABLE asm
  end.

Lemma lit_holds_spec value l : lit_holds value l = true <-> lit_true value l.
Proof. unfold lit_holds, lit_true. destruct (0 <? l); apply Z.ltb_lt. Qed.

Lemma lits_hold value ls : forallb (lit_holds value) ls = true <-> Forall (lit_true value) ls.
Proof.
  rewrite forallb_forall, Forall_forall. split; intros H l Hl; apply lit_holds_spec, H; by apply list_elem_of_In.
Qed.

Lemma cnf_holds value cnf : forallb (existsb (lit_holds value)) cnf = true <-> Forall (Exists (lit_true value)) cnf.
Proof.
  rewrite forallb_forall, Forall_forall. split; intros H c Hc.
  - apply list_elem_of_In, H, existsb_exists in Hc as (l & Hl%list_elem_of_In & Ht%lit_holds_spec).
    apply Exists_exists. by exists l.
  - apply list_elem_of_In, H, Exists_exists in Hc as (l & Hl%list_elem_of_In & Ht%lit_holds_spec).
    apply existsb_exists. by exists l.
Qed.

Lemma all_bools_all bs : bs ∈ all_bools (length bs).
Proof.
  induction bs as [|b bs IH]; cbn; [by left|]. apply list_elem_of_In, in_flat_map. exists bs.
  split; [by apply list_elem_of_In|]. destruct b; cbn; auto.
Qed.

Lemma max_var_le l ls : l ∈ ls -> (Z.to_nat (Z.abs l) <= max_var ls)%nat.
Proof.
  induction ls as [|k ls IH]; intros Hl; [by apply elem_of_nil in Hl|].
  change (max_var (k :: ls)) with (Nat.max (Z.to_nat (Z.abs k)) (max_var ls)).
  apply elem_of_cons in Hl as [->|Hin]; [lia|]. specialize (IH Hin). lia.
Qed.

(** The assignment of the list that agrees with the values. *)
Definition bools_of (value : Z -> Z) (n : nat) : list bool := map (fun k => 0 <? value (Z.of_nat (S k))) (seq 0 n).

Lemma bools_lit value n l : (Z.to_nat (Z.abs l) <= n)%nat -> lit_true value l -> lit_true (bools_value (bools_of value n)) l.
Proof.
  intros Hn. assert (forall k, 0 < k -> (Z.to_nat k <= n)%nat ->
    bools_value (bools_of value n) k = if 0 <? value k then 1 else -1) as Hv.
  { intros k Hk Hkn. unfold bools_value, bools_of. change (map ?f ?s) with (f <$> s).
    rewrite list_lookup_fmap, lookup_seq_lt by lia. cbn [fmap option_fmap option_map].
    replace (Z.of_nat (S (0 + Z.to_nat (k - 1)))) with k by lia. rewrite (proj2 (Z.leb_le 1 k)) by lia.
    by destruct (0 <? value k). }
  unfold lit_true. destruct (Z.ltb_spec 0 l) as [Hl|Hl].
  - intros H. rewrite Hv by lia. by rewrite (proj2 (Z.ltb_lt 0 _)).
  - destruct (decide (l = 0)) as [->|Hne]; [intros _; unfold bools_value; by destruct (_ !! _) as [[]|]|]. intros H. rewrite Hv by lia. by rewrite (proj2 (Z.ltb_ge 0 _)) by lia.
Qed.

Lemma brute_sat_ok : picosat_ok brute_sat.
Proof.
  unfold brute_sat. split; intros cnf asm phases; destruct (find _ _) as [bs|] eqn:E; try done.
  - intros value [= <-]. apply find_some in E as [_ [Hc Ha]%andb_true_iff]. split; [by apply cnf_holds|by apply lits_hold].
  - intros failed [= <-]. split; [done|]. intros value Hc Ha.
    set (n := max_var (concat cnf ++ asm)) in *.
    pose proof (find_none _ _ E (bools_of value n)) as Hno. cbn beta in Hno.
    assert (forallb (existsb (lit_holds (bools_value (bools_of value n)))) cnf &&
      forallb (lit_holds (bools_value (bools_of value n))) asm = true) as Hyes.
    { apply andb_true_iff. split; [apply cnf_holds|apply lits_hold].
      - apply Forall_forall. intros c Hin. rewrite Forall_forall in Hc. apply Hc in Hin as Hx.
        apply Exists_exists in Hx as (l & Hl & Ht). apply Exists_exists. exists l. split; [done|].
        apply bools_lit; [|done]. apply max_var_le, elem_of_app. left. apply list_elem_of_In, in_concat. exists c.
        by split; apply list_elem_of_In.
      - apply Forall_forall. intros l Hl. rewrite Forall_forall in Ha. apply bools_lit; [|by apply Ha].
        apply max_var_le, elem_of_app. by right. }
    rewrite Hyes in Hno. discriminate Hno. apply list_elem_of_In.
    replace n with (length (bools_of value n)) at 2 by (unfold bools_of; by rewrite length_map, length_seq).
    apply all_bools_all.
Qed.

Lemma sample_provides : provides_ok sample_universe.
Proof. intros s prs pr H. discriminate H. Qed.

(** The upgrade of a package to one of its candidates, to both of them, and its
    removal. *)
Definition upgrade_job : pkg_jobs := mk_jobs sample_universe [mk_req 2 false] [] [] PKG_JOBS_UPGRADE 0 0 0.
Definition remove_job : pkg_jobs := mk_jobs sample_universe [] [mk_req 0 false] [] PKG_JOBS_DEINSTALL 0 0 0.

Definition both_job : pkg_jobs := mk_jobs sample_universe [mk_req 1 false; mk_req 2 false] [] [] PKG_JOBS_UPGRADE 0 0 0.

(** The problem of a job. *)
Definition problem_of (j : pkg_jobs) : pkg_solve_problem :=
  match pkg_solve_jobs_to_sat no_emit j with Some (_, pb) => pb | None => mk_problem 0 [] table_empty [] [] 0 end.

Lemma problem_covers j : wf_universe no_emit (j_universe j) -> provides_ok (j_universe j) ->
  covers (j_universe j) (problem_of j).
Proof.
  intros Hw Hp. destruct (jobs_to_sat_ok no_emit j Hw Hp) as (pb & H & He). unfold problem_of. rewrite H.
  split; [apply (fr_units _ _ _ _ (en_frame _ _ He))|apply (en_table _ _ He)|apply (en_chains _ _ He)].
Qed.

Lemma sample_chain uid chain : pkg_jobs_universe_find sample_universe uid = Some chain -> chain = [0; 1; 2]%nat.
Proof.
  intros H. assert (chain ∈ values (u_items sample_universe)) as Hin.
  { apply (chain_in_values no_emit _ _ sample_universe_wf). by exists uid. }
  change (values (u_items sample_universe)) with [[0; 1; 2]%nat] in Hin. by apply list_elem_of_singleton in Hin.
Qed.

Lemma jobs_to_sat_encodes_witness :
  exists pb, pkg_solve_jobs_to_sat no_emit upgrade_job = Some (EPKG_OK, pb) /\
    map v_unit (variables pb) ≡ₚ [0; 1; 2]%nat /\ rules_hold pb (fun _ => false).
Proof.
  destruct (jobs_to_sat_encodes no_emit upgrade_job sample_universe_wf sample_provides) as (pb & H1 & H2 & H3).
  exists pb. split; [exact H1|]. split; [exact H2|]. apply (proj1 (H3 _)), nothing_consistent.
Defined.

Lemma sat_problem_decides_witness :
  exists pb j' pb', pkg_solve_jobs_to_sat no_emit upgrade_job = Some (EPKG_OK, pb) /\
    pkg_solve_sat_problem brute_sat (fun _ => true) upgrade_job pb = Some (EPKG_OK, j', pb') /\
    requests_met upgrade_job (selection pb').
Proof.
  destruct (sat_problem_decides no_emit brute_sat (fun _ => true) upgrade_job brute_sat_ok sample_universe_wf
    sample_provides) as (pb & H1 & _ & H3).
  assert (pb = problem_of upgrade_job) as -> by (unfold problem_of; rewrite H1; reflexivity).
  destruct (pkg_solve_sat_problem brute_sat (fun _ => true) upgrade_job (problem_of upgrade_job)) as [[[r j'] pb']|] eqn:E.
  - assert (r = EPKG_OK) as ->.
    { apply (f_equal (fmap (fun x : pkg_error_t * pkg_jobs * pkg_solve_problem => x.1.1))) in E. vm_compute in E. congruence. }
    exists (problem_of upgrade_job), j', pb'. split; [exact H1|]. split; [exact E|]. apply (H3 j' pb' eq_refl).
  - exfalso. apply (f_equal (fun x => match x with Some _ => true | None => false end)) in E. vm_compute in E. discriminate E.
Defined.

Lemma sat_to_jobs_reaches_selection_witness :
  exists j', pkg_solve_sat_to_jobs (problem_of upgrade_job) upgrade_job = Some j' /\
    2%nat ∈ apply_jobs (j_jobs j') (installed sample_universe) /\ 0%nat ∉ apply_jobs (j_jobs j') (installed sample_universe).
Proof.
  destruct (sat_to_jobs_reaches_selection no_emit upgrade_job (problem_of upgrade_job) sample_universe_wf
    (problem_covers upgrade_job sample_universe_wf sample_provides) eq_refl ltac:(discriminate)
    ltac:(intros uid chain ->%sample_chain; apply Nat.leb_le; vm_compute; reflexivity)) as (j' & H1 & _ & _ & _ & _ & H2).
  exists j'. split; [exact H1|]. split.
  - apply H2; [apply Nat.ltb_lt; reflexivity|vm_compute; reflexivity].
  - rewrite (H2 0%nat); [vm_compute; discriminate|apply Nat.ltb_lt; reflexivity].
Defined.

Lemma solve_again_ends_witness :
  exists j' sel, solve_again no_emit brute_sat (fun _ _ => true) 2 0 upgrade_job = Some (EPKG_OK, j') /\ requests_met j' sel /\
    request_add j' = request_add upgrade_job /\
    (one_candidate sample_universe sel ->
     forall i, (i < nitems sample_universe)%nat -> (i ∈ apply_jobs (j_jobs j') (installed sample_universe) <-> sel i = true)).
Proof.
  destruct (solve_again_ends no_emit brute_sat brute_sat_ok (fun _ _ => true) 2 0 upgrade_job sample_universe_solvable
    sample_provides ltac:(cbn; apply (bool_decide_unpack _); vm_compute; exact I) eq_refl ltac:(cbn; lia)) as (r & j' & H & _ & Hr).
  assert ((fun x => (fst x, request_add (snd x))) <$> solve_again no_emit brute_sat (fun _ _ => true) 2 0 upgrade_job =
    Some (EPKG_OK, request_add upgrade_job)) as Hc by (vm_compute; reflexivity).
  rewrite H in Hc. injection Hc as -> Hreq.
  destruct Hr as [[Hr _]|(_ & _ & sel & _ & Hm & _ & Hout)]; [discriminate Hr|].
  exists j', sel. split; [exact H|]. split; [exact Hm|]. split; [exact Hreq|]. exact (Hout eq_refl ltac:(discriminate)).
Defined.


Lemma solve_deinstall_witness :
  exists j', solve_again no_emit brute_sat (fun _ _ => false) 1 0 remove_job = Some (EPKG_OK, j') /\ solution remove_job j'.
Proof.
  apply (solve_deinstall no_emit brute_sat brute_sat_ok (fun _ _ => false) 1 0 remove_job sample_universe_solvable
    sample_provides eq_refl ltac:(lia)).
Defined.

Lemma two_candidates_dropped_witness :
  pkg_solve_insert_res_job (problem_of both_job) both_job [0; 1; 2]%nat = Some both_job /\
  selection (problem_of both_job) 1 = true /\ selection (problem_of both_job) 2 = true.
Proof.
  split; [|split; vm_compute; reflexivity].
  apply (two_candidates_dropped no_emit (problem_of both_job) both_job [0; 1; 2]%nat [0; 1; 2]%nat sample_universe_wf
    (problem_covers both_job sample_universe_wf sample_provides)).
  - repeat constructor.
  - apply Nat.ltb_lt. vm_compute. reflexivity.
Defined.

(** The rules accept both candidates: only the installed package, the first of
    its chain, excludes them. *)
Lemma two_candidates_accepted : rules_hold (problem_of both_job) (fun i => negb (Nat.eqb i 0)).
Proof.
  assert (rules (problem_of both_job) =
    [mk_rule "upgrade chain" [mk_sitem 2 2 (-1); mk_sitem 1 0 (-1)];
     mk_rule "upgrade chain" [mk_sitem 2 1 (-1); mk_sitem 1 0 (-1)]]) as Hr by (vm_compute; reflexivity).
  assert (v_unit <$> variables (problem_of both_job) !! 0%nat = Some 0%nat) as Hv by (vm_compute; reflexivity).
  apply fmap_Some in Hv as (v & Hv & Hi). unfold rules_hold. rewrite Hr.
  assert (item_true (problem_of both_job) (fun i => negb (Nat.eqb i 0)) (mk_sitem 1 0 (-1))) as Hit
    by (exists v; split; [exact Hv|by rewrite <- Hi]).
  apply Forall_cons; split; [|apply Forall_cons; split; [|by apply Forall_nil]]; apply Exists_exists;
    exists (mk_sitem 1 0 (-1)); (split; [by right; left|exact Hit]).
Qed.
