(* ===== verification/Conflicts.v ===== *)
(** * Conflicts among requests (libpkg/pkg_jobs_conflicts.c)

    [pkg_conflicts_request_resolve] looks, for each package to install, for
    requests it conflicts with, and [pkg_conflicts_request_resolve_chain] marks
    all of such a chain but one to be skipped.  A request is known by its item;
    the elements of a chain are told apart by their addresses.  [None] is a
    NULL pointer that is followed.

    The look-up of a request compares pointers, and is translated with
    pointers: what it is given is the item, not the address of the pointer to
    it.  The registration of conflicts that the database reports is in
    [FileConflicts]. *)
From S2P Require Import Prelude CString CSort UtHash Pkg Version Universe.

(** ** Pointers *)

(** The address of an item, or of its package, which is its first field. *)
Inductive pointer := ItemAt (i : nat) | PkgAt (i : nat).

#[export] Instance pointer_eq_dec : EqDecision pointer.
Proof. solve_decision. Defined.

(** HASH_FIND_PTR(reqs, ptr, found): [key] is the pointer stored at [ptr]. *)
Definition find_ptr (reqs : list pkg_job_request) (key : pointer) : option pkg_job_request :=
  find (fun r => bool_decide (ItemAt (rq_item r) = key)) reqs.

(** What is stored at the address of an item. *)
Definition stored_at (unit : nat) : pointer := PkgAt unit.

(** ** Chains *)

Record pkg_conflict_chain := mk_elt { e_addr : nat; e_req : nat }.

(** LL_PREPEND of a new element. *)
Definition pkg_conflicts_request_add_chain (chain : list pkg_conflict_chain) (req : nat) : list pkg_conflict_chain :=
  mk_elt (length chain) req :: chain.

(** An element with what the comparison reads: the mark and the version. *)
Record compared := mk_compared { x_elt : pkg_conflict_chain; x_skip : bool; x_version : cstring }.

Definition pkg_conflicts_chain_cmp_cb (a b : compared) : Z :=
  if x_skip a || x_skip b then Z.b2z (x_skip a) - Z.b2z (x_skip b)
  else default 0 (pkg_version_cmp (Some (x_version a)) (Some (x_version b))).

(** [elt->req->skip = true] *)
Definition skip_req (reqs : list pkg_job_request) (i : nat) : list pkg_job_request :=
  map (fun r => if Nat.eqb (rq_item r) i then mk_req (rq_item r) true else r) reqs.

Section conflicts.
Context (emit : ucl -> cstring).

Definition compare_data (j : pkg_jobs) (e : pkg_conflict_chain) : option compared :=
  r ← find_req (request_add j) (e_req e);
  p ← pkg_of (j_universe j) (e_req e);
  v ← pkg_version emit p;
  Some (mk_compared e (rq_skip r) v).

(** [slash_pos != NULL && strcmp(slash_pos + 1, name) == 0] *)
Definition pure_origin (name origin : cstring) : bool :=
  match strrchr origin "/" with Some slash_pos => strcmp (tail slash_pos) name =? 0 | None => false end.

(** The first element with a pure origin. *)
Fixpoint find_pure (j : pkg_jobs) (name : cstring) (chain : list pkg_conflict_chain)
  : option (option pkg_conflict_chain) :=
  match chain with
  | [] => Some None
  | elt :: rest =>
      p ← pkg_of (j_universe j) (e_req elt);
      origin ← pkg_get_string emit p PKG_ORIGIN;
      if pure_origin name origin then Some (Some elt) else find_pure j name rest
  end.

(** The last component of the result of [select_elt] is the chain, sorted or
    not. *)
Definition select_elt (j : pkg_jobs) (name : cstring) (chain : list pkg_conflict_chain)
  : option (pkg_conflict_chain * list pkg_conflict_chain) :=
  pure ← find_pure j name chain;
  match pure with
  | Some elt => Some (elt, chain)
  | None =>
      l ← mapM (compare_data j) chain;
      let chain := map x_elt (ll_sort pkg_conflicts_chain_cmp_cb l) in
      selected ← head chain;
      Some (selected, chain)
  end.

Definition pkg_conflicts_request_resolve_chain (j : pkg_jobs) (req : pkg) (chain : list pkg_conflict_chain)
  : option (pkg_error_t * pkg_jobs) :=
  name ← pkg_get_string emit req PKG_NAME;
  '(selected, chain) ← select_elt j name chain;
  Some (EPKG_OK, set_request_add j
    (foldl (fun reqs elt => if Nat.eqb (e_addr elt) (e_addr selected) then reqs else skip_req reqs (e_req elt))
       (request_add j) chain)).

(** The chain of a package: the requests it conflicts with. *)
Definition conflict_chain (j : pkg_jobs) (cs : list pkg_conflict) : list pkg_conflict_chain :=
  foldl (fun chain c =>
    match pkg_jobs_universe_find (j_universe j) (c_uniqueid c) ≫= head with
    | None => chain
    | Some unit =>
        match find_ptr (request_add j) (stored_at unit) with
        | Some found => if rq_skip found then chain else pkg_conflicts_request_add_chain chain (rq_item found)
        | None => chain
        end
    end) [] cs.

(** The body of the loop over the requests, for that of item [i]. *)
Definition resolve_request (j : pkg_jobs) (i : nat) : option (pkg_error_t * pkg_jobs) :=
  req ← find_req (request_add j) i;
  if rq_skip req then Some (EPKG_OK, j)
  else
    p ← pkg_of (j_universe j) i;
    cs ← pkg_conflicts p;
    match conflict_chain j cs with
    | [] => Some (EPKG_OK, j)
    | chain => pkg_conflicts_request_resolve_chain j p (pkg_conflicts_request_add_chain chain i)
    end.

Definition pkg_conflicts_request_resolve (j : pkg_jobs) : option (pkg_error_t * pkg_jobs) :=
  fold_opt (fun '(r, j) i =>
    match r with EPKG_OK => resolve_request j i | _ => Some (EPKG_FATAL, j) end)
    (map rq_item (request_add j)) (EPKG_OK, j).
End conflicts.

(** ** The choice of a chain *)

(** The comparison is that of the marks, then of the versions of what is not
    marked. *)
Definition compared_key (x : compared) : Z * cstring := (Z.b2z (x_skip x), if x_skip x then [] else x_version x).

Lemma chain_cmp_key a b : pkg_conflicts_chain_cmp_cb a b =
  then_cmp (zcmp (fst (compared_key a)) (fst (compared_key b))) (vercmp (snd (compared_key a)) (snd (compared_key b))).
Proof.
  unfold pkg_conflicts_chain_cmp_cb, compared_key. by destruct (x_skip a), (x_skip b).
Qed.

#[export] Instance chain_cmp_comparison : Comparison pkg_conflicts_chain_cmp_cb.
Proof.
  destruct (lex_comparison _ _ (key_comparison (fun x => fst (compared_key x)) zcmp _)
    (key_comparison (fun x => snd (compared_key x)) vercmp _)) as [Ha Ht].
  split; intros *; rewrite !chain_cmp_key; [apply Ha|apply Ht].
Qed.

Section correct.
Context (emit : ucl -> cstring) (j : pkg_jobs).
Abbreviation u := (j_universe j).

(** A chain of different requests that are not skipped, whose packages have an
    origin and a version. *)
Record wf_chain (chain : list pkg_conflict_chain) : Prop := mk_wf_chain {
  ch_addrs : NoDup (map e_addr chain);
  ch_reqs : NoDup (map e_req chain);
  ch_elts : forall e, e ∈ chain -> exists r p, find_req (request_add j) (e_req e) = Some r /\ rq_skip r = false /\
    pkg_of u (e_req e) = Some p /\ is_Some (pkg_get_string emit p PKG_ORIGIN) /\ is_Some (pkg_version emit p) }.

(** The package of an element has a pure origin. *)
Definition pure_elt (name : cstring) (e : pkg_conflict_chain) : Prop :=
  exists p o, pkg_of u (e_req e) = Some p /\ pkg_get_string emit p PKG_ORIGIN = Some o /\ pure_origin name o = true.

(** The version of one element is at most that of another. *)
Definition not_newer (e f : pkg_conflict_chain) : Prop :=
  exists p q v w, pkg_of u (e_req e) = Some p /\ pkg_of u (e_req f) = Some q /\
    pkg_version emit p = Some v /\ pkg_version emit q = Some w /\ vercmp v w <= 0.

Lemma wf_chain_tail e chain : wf_chain (e :: chain) -> wf_chain chain.
Proof.
  intros [H1 H2 H3]. cbn in H1, H2. apply NoDup_cons in H1 as [_ H1]. apply NoDup_cons in H2 as [_ H2].
  split; [done|done|]. intros f Hf. apply H3. by right.
Qed.

Lemma find_pure_spec name chain : wf_chain chain ->
  exists o, find_pure emit j name chain = Some o /\
    match o with
    | Some e => e ∈ chain /\ pure_elt name e
    | None => forall e, e ∈ chain -> ~ pure_elt name e
    end.
Proof.
  induction chain as [|e chain IH]; intros Hc.
  - exists None. split; [done|]. intros e He. by apply elem_of_nil in He.
  - destruct (ch_elts _ Hc e ltac:(by left)) as (r & p & _ & _ & Hp & [o Ho] & _).
    cbn [find_pure]. rewrite Hp. cbn [mbind option_bind]. rewrite Ho. cbn [mbind option_bind].
    destruct (pure_origin name o) eqn:E.
    + exists (Some e). split; [done|]. split; [by left|]. by exists p, o.
    + destruct (IH (wf_chain_tail e chain Hc)) as (s & -> & Hs). exists s. split; [done|]. destruct s as [f|].
      * destruct Hs as [Hf Hp']. split; [by right|done].
      * intros f [->|Hf]%elem_of_cons; [|by apply Hs]. intros (p' & o' & Hp' & Ho' & Ht). congruence.
Qed.

Lemma compare_data_some chain : wf_chain chain -> exists l, mapM (compare_data emit j) chain = Some l /\
  map x_elt l = chain /\
  Forall (fun x => x_skip x = false /\ exists p, pkg_of u (e_req (x_elt x)) = Some p /\ pkg_version emit p = Some (x_version x)) l.
Proof.
  induction chain as [|e chain IH]; intros Hc; [by exists []|].
  destruct (ch_elts _ Hc e ltac:(by left)) as (r & p & Hr & Hs & Hp & _ & [v Hv]).
  destruct (IH (wf_chain_tail e chain Hc)) as (l & Hl & Hm & Ha).
  exists (mk_compared e false v :: l). cbn [mapM].
  assert (compare_data emit j e = Some (mk_compared e false v)) as ->.
  { unfold compare_data. rewrite Hr. cbn [mbind option_bind]. rewrite Hp. cbn [mbind option_bind]. rewrite Hv.
    cbn [mbind option_bind]. by rewrite Hs. }
  rewrite Hl. cbn [map x_elt mbind option_bind]. rewrite Hm.
  split_and!; [done|done|]. constructor; [|done]. split; [done|]. by exists p.
Qed.

Lemma select_spec name chain : wf_chain chain -> chain <> [] ->
  exists selected chain', select_elt emit j name chain = Some (selected, chain') /\ chain' ≡ₚ chain /\ selected ∈ chain /\
    (pure_elt name selected \/
     (forall e, e ∈ chain -> ~ pure_elt name e) /\ forall e, e ∈ chain -> not_newer selected e).
Proof.
  intros Hc Hne. unfold select_elt. destruct (find_pure_spec name chain Hc) as (o & -> & Ho). cbn [mbind option_bind].
  destruct o as [e|]; [destruct Ho as [He Hp]; exists e, chain; split_and!; auto|].
  destruct (compare_data_some chain Hc) as (l & -> & Hm & Ha). cbn [mbind option_bind].
  pose proof (ll_sort_perm pkg_conflicts_chain_cmp_cb l) as Hperm.
  pose proof (ll_sort_sorted pkg_conflicts_chain_cmp_cb l) as Hsort.
  destruct (ll_sort pkg_conflicts_chain_cmp_cb l) as [|x rest].
  { apply Permutation_nil in Hperm as ->. by rewrite <- Hm in Hne. }
  cbn [map head mbind option_bind]. exists (x_elt x), (x_elt x :: map x_elt rest).
  assert (x_elt x :: map x_elt rest ≡ₚ chain) as Hpc.
  { rewrite <- Hm. change (map x_elt (x :: rest) ≡ₚ map x_elt l). by rewrite Hperm. }
  split_and!; [done|done|rewrite <- Hpc; by left|]. right. split; [done|]. intros e He.
  assert (exists y, y ∈ x :: rest /\ x_elt y = e) as (y & Hy & <-).
  { rewrite <- Hm, elem_of_map in He. destruct He as (y & -> & Hy). exists y. split; [by rewrite Hperm|done]. }
  assert (x ∈ l) as Hx by (rewrite <- Hperm; by left).
  assert (y ∈ l) as Hyl by (by rewrite <- Hperm).
  rewrite Forall_forall in Ha. destruct (Ha x Hx) as (Hsx & p & Hp & Hv). destruct (Ha y Hyl) as (Hsy & q & Hq & Hw).
  exists p, q, (x_version x), (x_version y). split_and!; try done.
  assert (pkg_conflicts_chain_cmp_cb x y <= 0) as Hle.
  { apply elem_of_cons in Hy as [->|Hy]; [by rewrite (cmp_refl pkg_conflicts_chain_cmp_cb)|].
    inversion Hsort as [|? ? _ Hf]; subst. rewrite Forall_forall in Hf. by apply Hf. }
  unfold pkg_conflicts_chain_cmp_cb in Hle. rewrite Hsx, Hsy in Hle. cbn [orb] in Hle.
  by rewrite pkg_version_cmp_vercmp in Hle.
Qed.

(** The marks after the loop. *)
Lemma skips_spec (sel : nat) chain reqs :
  foldl (fun reqs elt => if Nat.eqb (e_addr elt) sel then reqs else skip_req reqs (e_req elt)) reqs chain =
  map (fun r => mk_req (rq_item r) (rq_skip r ||
    existsb (fun e => negb (Nat.eqb (e_addr e) sel) && Nat.eqb (rq_item r) (e_req e)) chain)) reqs.
Proof.
  revert reqs; induction chain as [|e chain IH]; intros reqs; cbn [foldl existsb].
  - rewrite <- (map_id reqs) at 1. apply map_ext. intros [i s]. cbn. by rewrite orb_false_r.
  - rewrite IH. destruct (Nat.eqb (e_addr e) sel); cbn [negb andb orb]; [done|].
    unfold skip_req. rewrite map_map. apply map_ext. intros [i s]. cbn. destruct (Nat.eqb i (e_req e)); cbn; [|done].
    by rewrite !orb_true_r.
Qed.

Lemma existsb_other selected chain i : NoDup (map e_addr chain) -> NoDup (map e_req chain) -> selected ∈ chain ->
  existsb (fun e => negb (Nat.eqb (e_addr e) (e_addr selected)) && Nat.eqb i (e_req e)) chain =
  bool_decide (i ∈ map e_req chain /\ i <> e_req selected).
Proof.
  intros Ha Hr Hs. apply eq_true_iff_eq. rewrite existsb_exists, bool_decide_eq_true, elem_of_map. split.
  - intros (e & He%list_elem_of_In & [Hne%negb_true_iff%Nat.eqb_neq ->%Nat.eqb_eq]%andb_true_iff).
    split; [by exists e|]. intros Heq. apply Hne. f_equal.
    apply list_elem_of_lookup_1 in He as [n He], Hs as [m Hs].
    rewrite (NoDup_lookup _ n m (e_req e) Hr) in He; [congruence| |].
    + change (map e_req chain) with (e_req <$> chain). by rewrite list_lookup_fmap, He.
    + change (map e_req chain) with (e_req <$> chain). by rewrite list_lookup_fmap, Hs, Heq.
  - intros [(e & -> & He) Hne]. exists e. split; [by apply list_elem_of_In|]. apply andb_true_iff.
    split; [|by apply Nat.eqb_eq]. apply negb_true_iff, Nat.eqb_neq. intros Heq. apply Hne.
    apply list_elem_of_lookup_1 in He as [n He], Hs as [m Hs].
    rewrite (NoDup_lookup _ n m (e_addr e) Ha) in He; [congruence| |].
    + change (map e_addr chain) with (e_addr <$> chain). by rewrite list_lookup_fmap, He.
    + change (map e_addr chain) with (e_addr <$> chain). by rewrite list_lookup_fmap, Hs, Heq.
Qed.
End correct.

(** pkg_conflicts_request_resolve_chain keeps one request of the chain and
    marks the others to be skipped: one whose package has an origin that ends
    in the name or, when there is none, one of the lowest version, although the
    comment on the comparison says the maximum comes first. *)
Theorem resolve_chain_spec (emit : ucl -> cstring) (j : pkg_jobs) (req : pkg) (name : cstring)
  (chain : list pkg_conflict_chain) (Hc : wf_chain emit j chain) (Hne : chain <> [])
  (Hn : pkg_get_string emit req PKG_NAME = Some name) :
  exists selected, selected ∈ chain /\
    pkg_conflicts_request_resolve_chain emit j req chain = Some (EPKG_OK, set_request_add j
      (map (fun r => mk_req (rq_item r) (rq_skip r ||
         bool_decide (rq_item r ∈ map e_req chain /\ rq_item r <> e_req selected))) (request_add j))) /\
    (pure_elt emit j name selected \/
     (forall e, e ∈ chain -> ~ pure_elt emit j name e) /\ forall e, e ∈ chain -> not_newer emit j selected e).
Proof.
  destruct (select_spec emit j name chain Hc Hne) as (sel & chain' & Hs & Hp & Hin & Hbest).
  exists sel. split_and!; [done| |done]. unfold pkg_conflicts_request_resolve_chain. rewrite Hn. cbn [mbind option_bind].
  rewrite Hs. cbn [mbind option_bind]. rewrite skips_spec. do 3 f_equal. apply map_ext. intros r. do 2 f_equal.
  assert (forall {B} (f : pkg_conflict_chain -> B), map f chain' ≡ₚ map f chain) as Hm by (intros B f; by rewrite Hp).
  rewrite existsb_other.
  - apply bool_decide_ext. by rewrite (Hm _ e_req).
  - rewrite (Hm _ e_addr). apply (ch_addrs _ _ _ Hc).
  - rewrite (Hm _ e_req). apply (ch_reqs _ _ _ Hc).
  - by rewrite Hp.
Qed.

(** ** The look-up of requests *)

Lemma find_ptr_none reqs i : find_ptr reqs (stored_at i) = None.
Proof. unfold find_ptr. induction reqs as [|r reqs IH]; [done|]. cbn [find]. by rewrite bool_decide_eq_false_2. Qed.

Lemma conflict_chain_nil j cs : conflict_chain j cs = [].
Proof.
  unfold conflict_chain. induction cs as [|c cs IH]; [done|]. cbn [foldl].
  destruct (_ ≫= head) as [i|]; [by rewrite find_ptr_none|done].
Qed.

Lemma find_req_member l i : i ∈ map rq_item l -> is_Some (find_req l i).
Proof.
  unfold find_req. induction l as [|r l IH]; cbn; intros Hi; [by apply elem_of_nil in Hi|].
  destruct (Nat.eqb_spec (rq_item r) i) as [|Hne]; [done|]. apply elem_of_cons in Hi as [->|Hi]; [done|by apply IH].
Qed.

Lemma request_resolve_ok (emit : ucl -> cstring) (j : pkg_jobs) (Hw : wf_universe emit (j_universe j))
  (Hr : forall r, r ∈ request_add j -> is_Some (pkg_of (j_universe j) (rq_item r))) :
  pkg_conflicts_request_resolve emit j = Some (EPKG_OK, j).
Proof.
  unfold pkg_conflicts_request_resolve.
  assert (forall items, (forall i, i ∈ items -> i ∈ map rq_item (request_add j)) ->
    fold_opt (fun '(r, j) i => match r with EPKG_OK => resolve_request emit j i | _ => Some (EPKG_FATAL, j) end) items
      (EPKG_OK, j) = Some (EPKG_OK, j)) as H; [|by apply H].
  induction items as [|i items IH]; intros Hin; [done|]. cbn [fold_opt]. unfold resolve_request.
  destruct (find_req_member (request_add j) i (Hin i ltac:(by left))) as [r Hf]. rewrite Hf. cbn [mbind option_bind].
  destruct (rq_skip r); cbn [mbind option_bind]; [apply IH; intros k Hk; apply Hin; by right|].
  destruct (proj1 (elem_of_map _ _ _) (Hin i ltac:(by left))) as (r' & -> & Hr'). destruct (Hr r' Hr') as [p Hp].
  rewrite Hp. cbn [mbind option_bind].
  destruct (wf_list_sound p PKG_CONFLICTS (wu_pkgs _ _ Hw _ p Hp)) as (cs & Hcs & _). rewrite Hcs. cbn [mbind option_bind].
  rewrite conflict_chain_nil. cbn [mbind option_bind]. apply IH. intros k Hk. apply Hin. by right.
Qed.

(** pkg_conflicts_request_resolve never finds a conflict: HASH_FIND_PTR is
    given the item where the address of the pointer to it is expected, so it
    looks for the address of the package among those of the items.  Whatever
    the conflicts, no request is marked to be skipped and EPKG_OK is the
    answer. *)
Theorem request_resolve_finds_nothing (emit : ucl -> cstring) (j : pkg_jobs) (Hw : wf_universe emit (j_universe j))
  (Hr : forall r, r ∈ request_add j -> is_Some (pkg_of (j_universe j) (rq_item r))) :
  pkg_conflicts_request_resolve emit j = Some (EPKG_OK, j).
Proof. by apply request_resolve_ok. Qed.

(** ** Concrete requests *)

(** Two packages that conflict, neither of a pure origin. *)
Definition conflicting_pkg (uid version digest origin other : string) : pkg :=
  set_conflicts (set_fields (pkg_new PKG_REMOTE) (<[str "uniqueid" := UString (str uid)]>
    (<[str "name" := UString (str "foo")]> (<[str "version" := UString (str version)]>
    (<[str "digest" := UString (str digest)]> (<[str "origin" := UString (str origin)]> ∅))))))
    (hash_add table_empty (str other) (mk_conflict (str other) PKG_CONFLICT_REMOTE_REMOTE)).

Definition old_pkg : pkg := conflicting_pkg "foo~misc/foo1" "1.0" "d1" "misc/foo1" "foo~misc/foo2".
Definition new_pkg : pkg := conflicting_pkg "foo~misc/foo2" "2.0" "d2" "misc/foo2" "foo~misc/foo1".

Definition conflicting_job : pkg_jobs :=
  mk_jobs (insert_item (insert_item pkg_jobs_universe_new old_pkg (str "foo~misc/foo1") (str "d1"))
      new_pkg (str "foo~misc/foo2") (str "d2"))
    [mk_req 0 false; mk_req 1 false] [] [] PKG_JOBS_INSTALL 0 0 0.

Lemma wf_conflicting uid version digest origin other : wf_pkg (conflicting_pkg uid version digest origin other).
Proof.
  assert (wf_pkg (set_fields (pkg_new PKG_REMOTE) (<[str "uniqueid" := UString (str uid)]>
    (<[str "name" := UString (str "foo")]> (<[str "version" := UString (str version)]>
    (<[str "digest" := UString (str digest)]> (<[str "origin" := UString (str origin)]> ∅))))))) as Hw
    by (apply wf_set_fields, wf_pkg_new).
  destruct Hw. split; cbn; try done.
  apply (unique_add c_uniqueid table_empty (mk_conflict (str other) PKG_CONFLICT_REMOTE_REMOTE));
    [apply unique_empty|done].
Qed.

Lemma conflicting_wf : wf_universe no_emit (j_universe conflicting_job).
Proof.
  do 2 (apply wf_insert; [|apply wf_conflicting|vm_compute; reflexivity|vm_compute; reflexivity]).
  apply wf_universe_new.
Qed.

(** The older package is kept. *)
Lemma resolve_chain_spec_witness :
  exists selected, selected ∈ [mk_elt 1 1; mk_elt 0 0] /\
    pkg_conflicts_request_resolve_chain no_emit conflicting_job old_pkg [mk_elt 1 1; mk_elt 0 0] =
      Some (EPKG_OK, set_request_add conflicting_job [mk_req 0 false; mk_req 1 true]) /\ e_req selected = 0%nat.
Proof.
  destruct (resolve_chain_spec no_emit conflicting_job old_pkg (str "foo") [mk_elt 1 1; mk_elt 0 0]) as (s & H1 & H2 & _).
  - split.
    + apply (bool_decide_unpack _). vm_compute. exact I.
    + apply (bool_decide_unpack _). vm_compute. exact I.
    + intros e [->|[->|He%elem_of_nil]%elem_of_cons]%elem_of_cons; [| |done].
      * exists (mk_req 1 false), new_pkg. split_and!; try done; vm_compute; by eexists.
      * exists (mk_req 0 false), old_pkg. split_and!; try done; vm_compute; by eexists.
  - done.
  - vm_compute. reflexivity.
  - exists s. split; [exact H1|].
    assert ((fun x : pkg_error_t * pkg_jobs => request_add x.2) <$>
      pkg_conflicts_request_resolve_chain no_emit conflicting_job old_pkg [mk_elt 1 1; mk_elt 0 0] =
      Some [mk_req 0 false; mk_req 1 true]) as Hc by (vm_compute; reflexivity).
    rewrite H2 in Hc |- *. cbn [fmap option_fmap option_map request_add set_request_add snd] in Hc.
    injection Hc as Hc Hb. cbn [map]. apply elem_of_cons in H1 as [->|[->|He%elem_of_nil]%elem_of_cons]; [| |done].
    + vm_compute in Hc. discriminate Hc.
    + split; [reflexivity|reflexivity].
Defined.

Lemma request_resolve_finds_nothing_witness :
  pkg_conflicts_request_resolve no_emit conflicting_job = Some (EPKG_OK, conflicting_job).
Proof.
  apply (request_resolve_finds_nothing no_emit conflicting_job conflicting_wf).
  intros r [->|[->|Hr%elem_of_nil]%elem_of_cons]%elem_of_cons; [by eexists|by eexists|done].
Defined.
