(* ===== verification/Install.v ===== *)
(** * What an installation asks for (libpkg/pkg_jobs.c, pkg_jobs_universe.c)

    The candidates that the repositories have for a pattern are compared with
    what the universe knows (pkg_jobs_process_remote_pkg): a candidate that is
    new, or upgrades what is there, enters the universe with what it brings and
    is requested.  When there is none, a candidate of another name may take the
    place of the installed package (pkg_jobs_universe_change_uid).

    [None] is a failed assertion or a NULL or wild pointer that is followed, or
    that the fuel ran out. *)
From stdpp Require Import pretty.
From S2P Require Import Prelude CString UtHash Pkg Checksum Universe Upgrade UniverseBuild Jobs Conflicts.

(** ** Flags *)

Definition PKG_FLAG_UPGRADES_FOR_INSTALLED : Z := 2 ^ 7.

Definition set_job_flags (j : pkg_jobs) (flags : Z) : pkg_jobs :=
  mk_jobs (j_universe j) (request_add j) (request_delete j) (j_jobs j) (j_type j) flags (j_solved j) (j_count j).

(** Given to the queries of candidates. *)
Definition candidate_flags : Z :=
  flags_or [PKG_LOAD_BASIC; PKG_LOAD_OPTIONS; PKG_LOAD_DEPS; PKG_LOAD_SHLIBS_REQUIRED; PKG_LOAD_SHLIBS_PROVIDED;
    PKG_LOAD_ANNOTATIONS; PKG_LOAD_CONFLICTS].

Section install.
Context (emit : ucl -> cstring) (sha256 : cstring -> list Z)
  (repo_digest_format : cstring -> option pkg_checksum_type_t) `{db : pkgdb}.

(** The user's answer to a question, sqlite3_mprintf's quoting of a string, and
    pkg_open, which reads the package of a file ([None] for an error). *)
Context (yesno : cstring -> bool) (sqlite_quote : cstring -> cstring) (pkg_open : cstring -> option pkg).

Section requests.
Context (fuel : nat).

(** ** The change of a unique id *)

Definition set_dep_uid (d : pkg_dep) (uid : cstring) : pkg_dep :=
  mk_dep (dep_origin d) (dep_name d) (dep_version d) uid (dep_locked d).

(** Every dependency of [p] on [old] becomes one on [new]. *)
Definition rename_deps (old new : cstring) (p : pkg) : option pkg :=
  _ ← pkg_deps p;
  Some (set_deps p (foldl (fun t k =>
    match hash_get t k with
    | Some d => if streq (dep_uid d) old then hash_update t k (set_dep_uid d new) else t
    | None => t
    end) (deps p) (chain (deps p)))).

Definition rename_rdep (old new : cstring) (j : pkg_jobs) (rd : pkg_dep) : option pkg_jobs :=
  '(j, found) ← match head_item (j_universe j) (dep_uid rd) with
                | Some i => Some (j, Some i)
                | None =>
                    let '(j, lp) := pkg_jobs_universe_get_local j (dep_uid rd) 0 in
                    lp ← lp;
                    '(_, j, found) ← process_item emit sha256 repo_digest_format fuel j lp true;
                    Some (j, found)
                end;
  match found with
  | Some i =>
      p ← pkg_of (j_universe j) i;
      p ← rename_deps old new p;
      Some (set_universe j (set_item_pkg (j_universe j) i p))
  | None => Some j
  end.

(** The element of the hash that is the item [unit], the head of its chain. *)
Definition hashed_at (t : table (list nat)) (unit : nat) : option nat :=
  find (fun k => bool_decide (hash_get t k ≫= head = Some unit)) (chain t).

(** What the hash of items becomes.  A chain that moves as a whole keeps its
    links; an item that is appended to another loses them. *)
Definition move_item (t : table (list nat)) (unit : nat) (new_uid : cstring) : option (table (list nat)) :=
  k ← hashed_at t unit;
  moved ← hash_get t k;
  let t := hash_delete t k in
  match hash_find t new_uid with
  | Some f => chain ← hash_get t f; Some (hash_update t f (chain ++ [unit]))
  | None => Some (hash_add t new_uid moved)
  end.

Definition pkg_jobs_universe_change_uid (j : pkg_jobs) (unit : nat) (new_uid : cstring) (update_rdeps : bool)
  : option pkg_jobs :=
  p ← pkg_of (j_universe j) unit;
  old ← pkg_uid emit p;
  j ← (if update_rdeps then rds ← pkg_rdeps p; fold_opt (rename_rdep old new_uid) rds j else Some j);
  let u := j_universe j in
  items ← move_item (u_items u) unit new_uid;
  p ← pkg_of u unit;
  '(_, p) ← pkg_set p PKG_UNIQUEID (ArgString (Some new_uid));
  Some (set_universe j (set_item_pkg
    (mk_univ (u_store u) items (u_seen u) (u_provides u) (mk_replace new_uid old :: uid_replaces u) (nitems u)) unit p)).

(** ** One candidate *)

(** [jit] goes back through the chain from [un] until it is not installed: the
    [prev] links make a ring. *)
Definition back_from (un : nat) (chain : list nat) : list nat :=
  let before := (length chain - length (from_item un chain))%nat in
  rev (take (S before) chain) ++ rev (drop (S before) chain).

(** A package is added although its digest may have been seen. *)
Definition force_add (j : pkg_jobs) (rp : pkg) : option (pkg_jobs * nat) :=
  '(_, u, found) ← pkg_jobs_universe_add_pkg emit sha256 repo_digest_format true (j_universe j) rp true;
  i ← found; Some (set_universe j u, i).

(** The item [i] gets the flag of the item [from]; then its package is given to
    the universe again. *)
Definition inherit_and_process (j : pkg_jobs) (from i : nat) : option (pkg_error_t * pkg_jobs) :=
  fp ← pkg_of (j_universe j) from;
  u ← set_automatic (j_universe j) i (is_automatic emit fp);
  rp ← pkg_of u i;
  '(rc, j, _) ← process_item emit sha256 repo_digest_format fuel (set_universe j u) rp false;
  Some (rc, j).

(** The digest was seen, at item [un]; force. *)
Definition reinstall (j : pkg_jobs) (rp : pkg) (un : nat) : option (pkg_jobs * option nat) :=
  chain ← chain_of (j_universe j) un;
  match first_remote (j_universe j) (from_item un chain) with
  | None =>
      '(j, i) ← force_add j rp;
      '(rc, j) ← inherit_and_process j un i;
      j ← match rc with EPKG_OK => pkg_jobs_add_req j i | _ => Some j end;
      Some (j, Some i)
  | Some jit =>
      q ← pkg_of (j_universe j) jit;
      '(needed, rp) ← pkg_jobs_need_upgrade emit rp (Some q);
      '(j, i) ← (if needed : bool then
                   '(j, i) ← force_add j rp; '(_, j) ← inherit_and_process j un i; Some (j, i)
                 else Some (j, jit));
      j ← match find_ptr (request_add j) (stored_at i) with None => pkg_jobs_add_req j i | Some _ => Some j end;
      Some (j, Some i)
  end.

(** The loop over a chain: the call returns, the candidate upgrades an item, or
    the end is reached. *)
Inductive scan_result := ScanReturn (rc : pkg_error_t) (j : pkg_jobs) | ScanUpgrade (rp : pkg) | ScanEnd (rp : pkg).

Fixpoint scan_known (j : pkg_jobs) (force : bool) (rp : pkg) (l : list nat) : option scan_result :=
  match l with
  | [] => Some (ScanEnd rp)
  | rjit :: l =>
      lp ← pkg_of (j_universe j) rjit;
      '(needed, rp) ← pkg_jobs_need_upgrade emit rp (Some lp);
      if needed : bool then Some (ScanUpgrade rp)
      else if is_local lp then
        if force then scan_known j force rp l else Some (ScanReturn EPKG_INSTALLED j)
      else j ← pkg_jobs_add_req j rjit; Some (ScanReturn EPKG_OK j)
  end.

(** The chain of the unique id, in the universe or from the database of what is
    installed. *)
Definition known_chain (j : pkg_jobs) (uid : cstring) : option (pkg_jobs * list nat) :=
  match pkg_jobs_universe_find (j_universe j) uid with
  | Some chain => Some (j, chain)
  | None =>
      match j_type j with
      | PKG_JOBS_FETCH => Some (j, [])
      | _ =>
          let '(j, lp) := pkg_jobs_universe_get_local j uid 0 in
          match lp with
          | None => Some (j, [])
          | Some lp =>
              '(_, j, un) ← process_item emit sha256 repo_digest_format fuel j lp true;
              match un with
              | None => Some (j, [])
              | Some un => chain ← chain_of (j_universe j) un; Some (j, from_item un chain)
              end
          end
      end
  end.

(** The digest is new. *)
Definition new_digest (j : pkg_jobs) (rp : pkg) (uid : cstring) (force : bool)
  : option (pkg_error_t * pkg_jobs * option nat) :=
  '(j, chain) ← known_chain j uid;
  scanned ← match chain with [] => Some (ScanUpgrade rp) | _ => scan_known j force rp chain end;
  match scanned with
  | ScanReturn rc j => Some (rc, j, None)
  | ScanUpgrade rp =>
      '(rc, j, jit) ← process_item emit sha256 repo_digest_format fuel j rp true;
      match rc with
      | EPKG_OK => i ← jit; j ← pkg_jobs_add_req j i; Some (rc, j, Some i)
      | _ => Some (rc, j, None)
      end
  | ScanEnd rp =>
      '(j, i) ← force_add j rp;
      '(rc, j) ← inherit_and_process j i i;
      match rc with
      | EPKG_OK => j ← pkg_jobs_add_req j i; Some (rc, j, Some i)
      | _ => Some (rc, j, None)
      end
  end.

(** The last component is what is written to [*unit]. *)
Definition pkg_jobs_process_remote_pkg (j : pkg_jobs) (rp : pkg) (force : bool)
  : option (pkg_error_t * pkg_jobs * option nat) :=
  '(rc, rp) ← match pkg_digest emit rp with
              | Some _ => Some (EPKG_OK, rp)
              | None =>
                  '(rc, rp, _) ← pkg_checksum_calculate sha256 emit repo_digest_format rp true; Some (rc, rp)
              end;
  match rc with
  | EPKG_OK =>
      digest ← pkg_digest emit rp;
      match pkg_jobs_universe_seen (j_universe j) digest with
      | Some un =>
          if force then '(j, unit) ← reinstall j rp un; Some (EPKG_OK, j, unit)
          else
            chain ← chain_of (j_universe j) un;
            j ← match first_remote (j_universe j) (back_from un chain) with
                | Some jit => pkg_jobs_add_req j jit
                | None => Some j
                end;
            Some (EPKG_INSTALLED, j, None)
      | None => uid ← pkg_uid emit rp; new_digest j rp uid force
      end
  | _ => Some (EPKG_FATAL, j, None)
  end.

(** ** Candidates for a pattern *)

(** The rows are offered one by one until one is accepted. *)
Fixpoint try_rows (j : pkg_jobs) (uid : cstring) (rows : list pkg) : option (pkg_error_t * pkg_jobs) :=
  match rows with
  | [] => Some (EPKG_FATAL, j)
  | p :: rows =>
      let fuid := pkg_uid emit p in
      if yesno (uid ++ str " has no direct installation candidates, change it to " ++ default (str "(null)") fuid ++
                str "? [Y/n]: ") then
        '(_, p) ← pkg_validate sha256 emit repo_digest_format p;
        j ← match head_item (j_universe j) uid with
            | Some unit => fuid ← fuid; pkg_jobs_universe_change_uid j unit fuid false
            | None => Some j
            end;
        '(rc, j, _) ← pkg_jobs_process_remote_pkg j p false; Some (rc, j)
      else try_rows j uid rows
  end.

Definition pkg_jobs_try_remote_candidate (j : pkg_jobs) (pattern uid : cstring) (m : match_t)
  : option (pkg_error_t * pkg_jobs) :=
  match pkgdb_repo_query (Some pattern) m candidate_flags with
  | None => Some (EPKG_FATAL, j)
  | Some rows => try_rows j uid rows
  end.

(** Without the digits and dots at the end. *)
Fixpoint drop_version (rpos : cstring) : cstring :=
  match rpos with
  | c :: r => if isdigit c || Ascii.eqb c "." then drop_version r else rpos
  | [] => []
  end.

Definition without_version (pos : cstring) : cstring := rev (drop_version (rev pos)).

(** [strchr(pattern, '/')] when something follows: what follows. *)
Definition after_slash (pattern : cstring) : option cstring :=
  match strchr pattern "/" with Some (_ :: (_ :: _) as r) => Some (tail r) | _ => None end.

Definition pkg_jobs_guess_upgrade_candidate (j : pkg_jobs) (pattern : cstring) : option (pkg_error_t * pkg_jobs) :=
  '(rc, j) ← match after_slash pattern with
             | Some pos => pkg_jobs_try_remote_candidate j pos pattern MATCH_EXACT
             | None => Some (EPKG_FATAL, j)
             end;
  match rc with
  | EPKG_OK => Some (EPKG_OK, j)
  | _ =>
      let pos := default pattern (after_slash pattern) in
      let cpy := without_version pos in
      if Nat.eqb (length cpy) (length pos) then Some (EPKG_FATAL, j)
      else
        '(rc, j) ← pkg_jobs_try_remote_candidate j cpy pattern MATCH_EXACT;
        match rc with
        | EPKG_OK => Some (EPKG_OK, j)
        | _ =>
            '(rc, j) ← pkg_jobs_try_remote_candidate j
              (str " WHERE name REGEXP ('^' || " ++ sqlite_quote cpy ++ str " || '[0-9.]*$')") pattern MATCH_CONDITION;
            Some (match rc with EPKG_OK => EPKG_OK | _ => EPKG_FATAL end, j)
        end
  end.

(** The rows of a query are processed until one fails; [found] is whether one
    was added. *)
Fixpoint process_candidates (j : pkg_jobs) (force : bool) (rc : pkg_error_t) (found : bool) (rows : list pkg)
  : option (pkg_error_t * bool * pkg_jobs) :=
  match rows with
  | [] => Some (rc, found, j)
  | p :: rows =>
      '(rc, j, _) ← pkg_jobs_process_remote_pkg j p force;
      match rc with
      | EPKG_FATAL => Some (EPKG_FATAL, found, j)
      | EPKG_OK => process_candidates j force rc true rows
      | _ => process_candidates j force rc found rows
      end
  end.

(** A reverse dependency that is installed is looked for: whether there is one. *)
Fixpoint installed_rdep (j : pkg_jobs) (rds : list pkg_dep) : option (bool * pkg_jobs) :=
  match rds with
  | [] => Some (false, j)
  | rd :: rds =>
      let '(j, rp) := pkg_jobs_universe_get_local j (dep_uid rd) PKG_LOAD_BASIC in
      match rp with
      | Some rp => '(_, j) ← pkg_jobs_universe_process emit sha256 repo_digest_format fuel j rp; Some (true, j)
      | None => installed_rdep j rds
      end
  end.

(** No candidate was found: a package that another needs is left, for others a
    candidate is guessed. *)
Definition without_candidate (j : pkg_jobs) (pattern : option cstring) : option (pkg_error_t * pkg_jobs) :=
  pattern ← pattern;
  let '(j, p) := pkg_jobs_universe_get_local j pattern (flags_or [PKG_LOAD_BASIC; PKG_LOAD_RDEPS]) in
  match p with
  | None => Some (EPKG_FATAL, j)
  | Some p =>
      '(_, j) ← pkg_jobs_universe_process emit sha256 repo_digest_format fuel j p;
      rds ← pkg_rdeps p;
      '(needed, j) ← installed_rdep j rds;
      if needed : bool then Some (EPKG_END, j) else pkg_jobs_guess_upgrade_candidate j pattern
  end.

Definition pkg_jobs_find_upgrade (j : pkg_jobs) (pattern : option cstring) (m : match_t) : option (pkg_error_t * pkg_jobs) :=
  '(rc, found, j) ← process_candidates j (flag_set (j_flags j) PKG_FLAG_FORCE) EPKG_FATAL false
    (default [] (pkgdb_repo_query pattern m candidate_flags));
  match rc with
  | EPKG_INSTALLED => Some (rc, j)
  | _ => if found : bool then Some (rc, j) else without_candidate j pattern
  end.

(** ** The package manager itself *)

Definition pkg_uids : list cstring :=
  map str ["pkg~ports-mgmt/pkg"; "pkg~ports-mgmt/pkg-devel"; "pkg-devel~ports-mgmt/pkg-devel"]%string.

(** The first of the unique ids that is installed. *)
Fixpoint local_pkg (j : pkg_jobs) (uids : list cstring) : pkg_jobs * option (cstring * pkg) :=
  match uids with
  | [] => (j, None)
  | uid :: uids =>
      let '(j, p) := pkg_jobs_universe_get_local j uid 0 in
      match p with Some p => (j, Some (uid, p)) | None => local_pkg j uids end
  end.

Definition new_pkg_version (j : pkg_jobs) : option (bool * pkg_jobs) :=
  let old_flags := j_flags j in
  let j := set_job_flags j (Z.ldiff old_flags (Z.lor PKG_FLAG_FORCE PKG_FLAG_RECURSIVE)) in
  let '(j, found) := local_pkg j pkg_uids in
  match found with
  | None => Some (false, set_job_flags j old_flags)
  | Some (uid, p) =>
      '(_, j) ← pkg_jobs_universe_process emit sha256 repo_digest_format fuel j p;
      '(rc, j) ← pkg_jobs_find_upgrade j (Some uid) MATCH_EXACT;
      Some (bool_decide (rc = EPKG_OK), set_job_flags j old_flags)
  end.

(** ** Patterns *)

Definition pkg_jobs_check_local_pkg (jp : job_pattern) : pkg_error_t :=
  match pkgdb_query (jp_pattern jp) (jp_match jp) (flags_or [PKG_LOAD_BASIC; PKG_LOAD_ANNOTATIONS]) with
  | Some (_ :: _) => EPKG_OK
  | _ => EPKG_FATAL
  end.

(** [unit->jp = jp] *)
Definition set_item_jp (u : universe) (i : nat) (jp : job_pattern) : universe :=
  mk_univ (alter (fun it => mk_ui (ui_pkg it) (Some jp) (ui_priority it)) i (u_store u)) (u_items u) (u_seen u)
    (u_provides u) (uid_replaces u) (nitems u).

(** The last component is what is written to [*got_local].  A package that is not valid is reported
    with a pattern that has no value. *)
Definition pkg_jobs_find_remote_pattern (j : pkg_jobs) (jp : job_pattern)
  : option (pkg_error_t * pkg_jobs * option bool) :=
  if negb (is_file jp) then
    match (match j_type j with PKG_JOBS_UPGRADE => pkg_jobs_check_local_pkg jp | _ => EPKG_OK end) with
    | EPKG_OK => '(rc, j) ← pkg_jobs_find_upgrade j (jp_pattern jp) (jp_match jp); Some (rc, j, Some false)
    | _ => Some (EPKG_FATAL, j, None)
    end
  else
    path ← jp_path jp;
    match pkg_open path with
    | None => Some (EPKG_FATAL, j, None)
    | Some p =>
        '(rc, p) ← pkg_validate sha256 emit repo_digest_format p;
        match rc with
        | EPKG_OK =>
            match (match j_type j with
                   | PKG_JOBS_UPGRADE =>
                       pkg_jobs_check_local_pkg (mk_pattern (pkg_get_string emit p PKG_NAME) None MATCH_EXACT false)
                   | _ => EPKG_OK
                   end) with
            | EPKG_OK =>
                '(rc, j, unit) ← pkg_jobs_process_remote_pkg j (set_type p PKG_FILE) (flag_set (j_flags j) PKG_FLAG_FORCE);
                j ← match rc with
                    | EPKG_OK => i ← unit; _ ← u_store (j_universe j) !! i; Some (set_universe j (set_item_jp (j_universe j) i jp))
                    | _ => Some j
                    end;
                Some (rc, j, Some true)
            | _ => Some (EPKG_FATAL, j, None)
            end
        | _ => None
        end
    end.

(** ** The requests of an installation *)

(** The requested packages are given to the universe again.  (In these jobs
    that requests nothing.) *)
Definition process_requests (j : pkg_jobs) : option pkg_jobs :=
  fold_opt (fun j i =>
    p ← pkg_of (j_universe j) i;
    '(_, j) ← pkg_jobs_universe_process emit sha256 repo_digest_format fuel j p; Some j) (map rq_item (request_add j)) j.

(** The patterns in turn; the last component is [got_local]. *)
Fixpoint find_patterns (j : pkg_jobs) (got_local : option bool) (patterns : list job_pattern)
  : option (pkg_error_t * pkg_jobs * option bool) :=
  match patterns with
  | [] => Some (EPKG_OK, j, got_local)
  | jp :: patterns =>
      '(rc, j, got) ← pkg_jobs_find_remote_pattern j jp;
      match rc with
      | EPKG_FATAL => Some (EPKG_FATAL, j, got)
      | _ => find_patterns j (match got with Some _ => got | None => got_local end) patterns
      end
  end.

(** The rows of one candidate for an upgrade. *)
Definition upgrade_candidate (j : pkg_jobs) (id : Z) : option (pkg_error_t * pkg_jobs) :=
  match pkgdb_query (Some (str " WHERE id=" ++ str (pretty id))) MATCH_CONDITION
          (flags_or [PKG_LOAD_BASIC; PKG_LOAD_OPTIONS; PKG_LOAD_DEPS; PKG_LOAD_SHLIBS_REQUIRED; PKG_LOAD_ANNOTATIONS;
             PKG_LOAD_CONFLICTS]) with
  | None => Some (EPKG_FATAL, j)
  | Some rows =>
      j ← fold_opt (fun j p => '(_, j) ← pkg_jobs_find_upgrade j (pkg_uid emit p) MATCH_EXACT; Some j) rows j;
      Some (EPKG_OK, j)
  end.

(** What is done before the conflicts are resolved. *)
Definition install_requests (patterns : list job_pattern) (j : pkg_jobs) : option (pkg_error_t * pkg_jobs) :=
  if j_solved j =? 0 then
    match patterns with
    | [] =>
        '(candidates, _) ← pkg_jobs_find_install_candidates emit j;
        each upgrade_candidate candidates j
    | _ =>
        '(rc, j, got_local) ← find_patterns j None patterns;
        match rc with
        | EPKG_OK =>
            got_local ← got_local;
            j ← (if got_local : bool then process_requests j else Some j); Some (EPKG_OK, j)
        | _ => Some (rc, j)
        end
    end
  else j ← process_requests j; Some (EPKG_OK, j).

Definition jobs_solve_install_upgrade (patterns : list job_pattern) (j : pkg_jobs) : option (pkg_error_t * pkg_jobs) :=
  '(newer, j) ← (if negb (flag_set (j_flags j) PKG_FLAG_SKIP_INSTALL) && flag_set (j_flags j) PKG_FLAG_PKG_VERSION_TEST
                 then new_pkg_version j else Some (false, j));
  if newer : bool then Some (EPKG_OK, set_solved j (j_solved j + 1))
  else if bool_decide (patterns = []) && bool_decide (j_type j = PKG_JOBS_INSTALL) then Some (EPKG_FATAL, j)
  else
    '(rc, j) ← install_requests patterns j;
    match rc with
    | EPKG_OK =>
        '(rc, j) ← pkg_conflicts_request_resolve emit j;
        match rc with
        | EPKG_OK => j ← pkg_jobs_propagate_automatic emit j; Some (EPKG_OK, set_solved j (j_solved j + 1))
        | _ => Some (EPKG_FATAL, j)
        end
    | _ => Some (rc, j)
    end.

(** ** The requests of a download *)

Definition fetch_row (j : pkg_jobs) (p : pkg) : option pkg_jobs :=
  if pkg_is_locked emit p then Some j
  else '(_, j) ← pkg_jobs_find_upgrade j (pkg_uid emit p) MATCH_EXACT; Some j.

Definition jobs_solve_fetch (patterns : list job_pattern) (j : pkg_jobs) : option (pkg_error_t * pkg_jobs) :=
  if flag_set (j_flags j) PKG_FLAG_UPGRADES_FOR_INSTALLED then
    match pkgdb_query None MATCH_ALL PKG_LOAD_BASIC with
    | None => Some (EPKG_FATAL, j)
    | Some rows => j ← fold_opt fetch_row rows j; Some (EPKG_OK, set_solved j (j_solved j + 1))
    end
  else
    j ← fold_opt (fun j jp => '(_, j) ← pkg_jobs_find_upgrade j (jp_pattern jp) (jp_match jp); Some j) patterns j;
    Some (EPKG_OK, set_solved j (j_solved j + 1)).
End requests.
End install.

(** ** Universes that only gain automatic flags *)

Section flags.
Context (emit : ucl -> cstring).

Inductive flagged : universe -> universe -> Prop :=
  | flagged_refl u : flagged u u
  | flagged_set u i p b u' : pkg_of u i = Some p -> flagged (set_item_pkg u i (with_automatic p b)) u' -> flagged u u'.

#[local] Instance flagged_preorder : PreOrder flagged.
Proof.
  split; [constructor|]. intros u1 u2 u3 H1 H2. induction H1 as [|u i p b u' Hp _ IH]; [done|].
  eapply flagged_set; [exact Hp|by apply IH].
Qed.

(** Nothing else changes. *)
Definition same_but_fields (p q : pkg) : Prop := exists x, q = set_fields p x /\
  forall k, k <> str "automatic" -> x !! k = fields p !! k.

#[local] Instance same_but_fields_preorder : PreOrder same_but_fields.
Proof.
  split.
  - intros p. exists (fields p). split; [by destruct p|done].
  - intros p q r (x & -> & Hx) (y & -> & Hy). exists y. split; [done|]. intros k Hk. rewrite Hy by done. by apply Hx.
Qed.

Lemma with_automatic_same p b : same_but_fields p (with_automatic p b).
Proof. eexists. split; [done|]. intros k Hk. by rewrite lookup_insert_ne. Qed.

Lemma flagged_same u u' : flagged u u' -> u_items u' = u_items u /\ u_seen u' = u_seen u /\ u_provides u' = u_provides u /\
  nitems u' = nitems u /\ length (u_store u') = length (u_store u) /\ uid_replaces u' = uid_replaces u /\
  (forall i p, pkg_of u i = Some p -> exists q, pkg_of u' i = Some q /\ same_but_fields p q) /\
  (forall i q, pkg_of u' i = Some q -> exists p, pkg_of u i = Some p /\ same_but_fields p q).
Proof.
  induction 1 as [u|u i p b u' Hp _ (I1 & I2 & I3 & I4 & I5 & I6 & I7 & I8)].
  { split_and!; try done; intros i p Hp; exists p; (split; [done|reflexivity]). }
  assert (forall k, pkg_of (set_item_pkg u i (with_automatic p b)) k = if decide (k = i) then Some (with_automatic p b) else pkg_of u k) as Hk.
  { intros k. rewrite pkg_of_set_item. case_decide; [subst; by rewrite Hp|done]. }
  rewrite I1, I2, I3, I4, I5, I6. split_and!; try done.
  - cbn. by rewrite length_alter.
  - intros k q Hq. destruct (decide (k = i)) as [->|Hne].
    + destruct (I7 i (with_automatic p b)) as (r & Hr & Hs); [by rewrite Hk, decide_True|]. exists r. split; [done|].
      assert (q = p) as -> by congruence. transitivity (with_automatic p b); [apply with_automatic_same|done].
    + apply I7. by rewrite Hk, decide_False.
  - intros k q Hq. destruct (I8 k q Hq) as (r & Hr & Hs). rewrite Hk in Hr. destruct (decide (k = i)) as [->|Hne]; [|by exists r].
    injection Hr as <-. exists p. split; [done|]. transitivity (with_automatic p b); [apply with_automatic_same|done].
Qed.

(** The attributes of such packages agree. *)
Lemma same_vget p q attr name ty : same_but_fields p q -> pkg_keys !! attr = Some (name, ty) -> name <> str "automatic" ->
  pkg_vget emit q [attr] = pkg_vget emit p [attr].
Proof.
  intros (x & -> & Hx) Hn Hne. cbn [pkg_vget]. by rewrite (vget_set_fields_ne emit p _ attr name ty Hn) by (by apply Hx).
Qed.

Lemma same_local p q : same_but_fields p q -> is_local q = is_local p.
Proof. by intros (x & -> & _). Qed.

Lemma same_uid p q : same_but_fields p q -> pkg_uid emit q = pkg_uid emit p.
Proof. intros H. unfold pkg_uid, pkg_get_string. by rewrite (same_vget p q PKG_UNIQUEID _ _ H eq_refl). Qed.

Lemma same_digest_of p q : same_but_fields p q -> pkg_digest emit q = pkg_digest emit p.
Proof. intros H. unfold pkg_digest, pkg_get_string. by rewrite (same_vget p q PKG_DIGEST _ _ H eq_refl). Qed.

Lemma same_known C p q : same_but_fields p q -> known emit C p -> known emit C q.
Proof.
  intros H [Hw Hi Hv Ha Hr Hn]. pose proof (same_uid _ _ H) as Hu. pose proof (same_digest_of _ _ H) as Hd.
  pose proof (same_local _ _ H) as Hl.
  split; unfold pkg_version, pkg_get_string, pkg_get_object in *.
  - destruct H as (x & -> & _). by destruct Hw; split.
  - by rewrite Hu, Hd, Hl.
  - by rewrite (same_vget p q PKG_VERSION _ _ H eq_refl).
  - by rewrite (same_vget p q PKG_ARCH _ _ H eq_refl).
  - by rewrite (same_vget p q PKG_ANNOTATIONS _ _ H eq_refl).
  - by rewrite (same_vget p q PKG_REPONAME _ _ H eq_refl), Hl.
Qed.

Lemma flagged_wf u u' : flagged u u' -> wf_universe emit u -> wf_universe emit u'.
Proof.
  intros H Hw. destruct (flagged_same u u' H) as (I1 & I2 & I3 & I4 & I5 & _ & I7 & I8). destruct Hw.
  split; rewrite ?I1, ?I2, ?I4, ?I5; try done.
  - intros uid chain Hc. destruct (wu_chains _ _ Hc) as [Hne Hi]. split; [done|]. intros i Hin.
    destruct (Hi i Hin) as (p & Hp & Hu). destruct (I7 i p Hp) as (q & Hq & Hs). exists q. split; [done|].
    by rewrite (same_uid p q).
  - intros i q Hq. destruct (I8 i q Hq) as (p & Hp & x & -> & _). by destruct (wu_pkgs _ _ Hp); split.
  - intros d i Hd. destruct (wu_digests _ _ Hd) as (p & Hp & Hpd). destruct (I7 i p Hp) as (q & Hq & Hs). exists q.
    split; [done|]. by rewrite (same_digest_of p q).
Qed.

Lemma flagged_sound C u u' : flagged u u' -> sound emit C u -> sound emit C u'.
Proof.
  intros H [Hw Hk Hs Hl Hp Hpr]. destruct (flagged_same u u' H) as (I1 & I2 & I3 & I4 & I5 & _ & I7 & I8).
  split; rewrite ?I2, ?I3; try done.
  - by eapply flagged_wf.
  - intros i q Hq. destruct (I8 i q Hq) as (p & Hpi & Hsm). eapply same_known; [exact Hsm|by eapply Hk].
  - intros i q d Hq Hd. destruct (I8 i q Hq) as (p & Hpi & Hsm). apply (Hs i p); [done|]. by rewrite <- (same_digest_of p q).
  - intros i k q r Hq Hr Hlq Hlr Hd. destruct (I8 i q Hq) as (p & Hpi & Hsm), (I8 k r Hr) as (p' & Hpk & Hsm').
    rewrite (same_local p q), (same_digest_of p q) in * by done. rewrite (same_local p' r), (same_digest_of p' r) in * by done. by eapply Hl.
  - intros prs pr Hin1 Hin2. destruct (Hpr prs pr Hin1 Hin2) as [p Hpp]. destruct (I7 pr p Hpp) as (q & Hq & _). by exists q.
Qed.

Lemma set_automatic_flagged u i b u' : set_automatic u i b = Some u' -> flagged u u'.
Proof.
  unfold set_automatic. destruct (pkg_of u i) as [p|] eqn:Hp; [|done]. cbn [mbind option_bind].
  change (pkg_set p PKG_AUTOMATIC (ArgBool b)) with (Some (EPKG_OK, with_automatic p b)). cbn [mbind option_bind].
  intros [= <-]. by eapply flagged_set; [|constructor].
Qed.

Lemma propagate_flagged j j' : pkg_jobs_propagate_automatic emit j = Some j' ->
  flagged (j_universe j) (j_universe j') /\ j' = set_universe j (j_universe j').
Proof.
  unfold pkg_jobs_propagate_automatic. destruct (hash_iter _) as [chains|]; [|done]. cbn [mbind option_bind].
  revert j. induction chains as [|chain chains IH]; intros j; cbn [fold_opt].
  { intros [= <-]. split; [reflexivity|by destruct j]. }
  destruct (propagate_chain emit j chain) as [j1|] eqn:E; [|done]. cbn [mbind option_bind]. intros H.
  destruct (IH j1 H) as [H1 H2].
  assert (flagged (j_universe j) (j_universe j1) /\ j1 = set_universe j (j_universe j1)) as [H3 H4].
  { clear IH H H1 H2. unfold propagate_chain in E.
    assert (forall i b, (u ← set_automatic (j_universe j) i b; Some (set_universe j u)) = Some j1 ->
      flagged (j_universe j) (j_universe j1) /\ j1 = set_universe j (j_universe j1)) as Hset.
    { intros i b. destruct (set_automatic (j_universe j) i b) as [u|] eqn:Eu; [|done]. cbn [mbind option_bind].
      intros [= <-]. split; [by eapply set_automatic_flagged|done]. }
    assert (Some j = Some j1 -> flagged (j_universe j) (j_universe j1) /\ j1 = set_universe j (j_universe j1)) as Hid.
    { intros [= <-]. split; [reflexivity|by destruct j]. }
    destruct chain as [|i [|k chain]]; [done| |].
    - destruct (pkg_of (j_universe j) i) as [p|]; [|done]. cbn [mbind option_bind] in E.
      destruct (find_req _ i), (is_local p), (j_type j); first [by eapply Hset|by apply Hid].
    - destruct (chain_pkgs _ _) as [l|]; [|done]. cbn [mbind option_bind] in E.
      destruct (local_automatic emit l) as [b|]; [|by apply Hid].
      destruct (fold_opt _ l (j_universe j)) as [u|] eqn:Eu; [|done]. cbn [mbind option_bind] in E. injection E as <-.
      split; [|done]. cbn [j_universe set_universe]. clear Hset Hid. revert Eu. generalize (j_universe j).
      induction l as [|[x q] l IH]; intros v; cbn [fold_opt fst snd]; [by intros [= <-]|].
      destruct (is_local q); cbn [mbind option_bind]; [apply IH|].
      destruct (set_automatic v x b) as [w|] eqn:Ew; [|done]. cbn [mbind option_bind]. intros Hf.
      transitivity w; [by eapply set_automatic_flagged|by apply IH]. }
  split; [by transitivity (j_universe j1)|]. rewrite H2, H4. by destruct j.
Qed.
End flags.

(** ** What a candidate does *)

Section correct.
Context (emit : ucl -> cstring) (sha256 : cstring -> list Z)
  (repo_digest_format : cstring -> option pkg_checksum_type_t) `{db : pkgdb}
  (C : catalogue) (Hdb : pkgdb_laws emit C) (fuel : nat).

Abbreviation uid_of := (pkg_uid emit).
Abbreviation digest_of := (pkg_digest emit).

(** The requests are for remote items of the universe, one for each. *)
Record asking (j : pkg_jobs) : Prop := mk_asking {
  as_ready : ready emit C fuel j;
  as_type : IS_DELETE j = false;
  as_stored : forall i, i ∈ map rq_item (request_add j) -> exists p, pkg_of (j_universe j) i = Some p /\ is_local p = false;
  as_nodup : NoDup (map rq_item (request_add j)) }.

Definition with_requests_of (j j' : pkg_jobs) : pkg_jobs := set_request_add j' (request_add j).

(** The universe grows, requests are added, the rest of the job stays; what is
    new brings its dependencies, but for packages that were forced in. *)
Record advances (settles : bool) (j j' : pkg_jobs) : Prop := mk_advances {
  av_grows : grows j (with_requests_of j j');
  av_requests : forall i, i ∈ map rq_item (request_add j) -> i ∈ map rq_item (request_add j');
  av_settled : settles = true -> installs j -> forall i p, (length (u_store (j_universe j)) <= i)%nat ->
    pkg_of (j_universe j') i = Some p -> settled j' p }.

Lemma with_requests_id j : with_requests_of j j = j.
Proof. by destruct j. Qed.

Lemma settled_requests j l p : settled (set_request_add j l) p <-> settled j p.
Proof. done. Qed.

Lemma progress_refl s j : advances s j j.
Proof.
  split; [rewrite with_requests_id; apply grows_refl|done|]. intros _ _ i p Hi Hp. pose proof (pkg_of_lt _ _ _ Hp). lia.
Qed.

Lemma grows_requests j j' l : grows j j' -> grows (set_request_add j l) (set_request_add j' l).
Proof. intros [H1 H2 H3 H4 H5]. split; [exact H1|exact H2|exact H3|exact H4|]. rewrite <- H5. by destruct j. Qed.

Lemma advances_trans s j1 j2 j3 : advances s j1 j2 -> advances s j2 j3 -> advances s j1 j3.
Proof.
  intros [G1 R1 S1] [G2 R2 S2].
  assert (grows (with_requests_of j1 j2) (with_requests_of j1 j3)) as G2' by (apply (grows_requests _ _ (request_add j1)) in G2; exact G2).
  split; [by eapply grows_trans|auto|]. intros Hs Hi i p Hle Hp.
  destruct (decide (length (u_store (j_universe j2)) <= i)%nat) as [Hge|Hlt].
  - apply (S2 Hs) with (i := i); [|done|done]. pose proof (f_equal j_type (gr_job _ _ G1)) as Ht.
    unfold installs in *. cbn in Ht. by rewrite <- Ht.
  - destruct (u_store (j_universe j2) !! i) as [x|] eqn:E; [|apply lookup_ge_None in E; lia].
    assert (pkg_of (j_universe j2) i = Some (ui_pkg x)) as Hp2 by (unfold pkg_of; by rewrite E).
    pose proof (gr_items _ _ G2 i _ Hp2) as Hp'. cbn [j_universe with_requests_of set_request_add] in Hp'.
    assert (p = ui_pkg x) as -> by congruence.
    apply (settled_requests j3 (request_add j1)), (settled_grows _ _ _ G2'), settled_requests. by apply (S1 Hs Hi i).
Qed.

Lemma advances_weaken s j j' : advances s j j' -> advances false j j'.
Proof. intros [H1 H2 _]. by split. Qed.

Lemma step_advances s j j' : step emit C j j' -> advances s j j'.
Proof.
  intros [Hg _ Hs]. destruct (grows_job _ _ Hg) as (_ & _ & Ha & _). split.
  - unfold with_requests_of. rewrite <- Ha. by destruct j'.
  - intros i. by rewrite Ha.
  - intros _. exact Hs.
Qed.

Lemma advances_item s j j' i p : advances s j j' -> pkg_of (j_universe j) i = Some p -> pkg_of (j_universe j') i = Some p.
Proof. intros [Hg _ _]. apply (gr_items _ _ Hg). Qed.

Lemma advances_type s j j' : advances s j j' -> j_type j' = j_type j /\ j_flags j' = j_flags j /\
  request_delete j' = request_delete j /\ j_jobs j' = j_jobs j /\ j_solved j' = j_solved j.
Proof. 
  intros [Hg _ _]. pose proof (gr_job _ _ Hg) as H.
  pose proof (f_equal j_type H). pose proof (f_equal j_flags H). pose proof (f_equal request_delete H).
  pose proof (f_equal j_jobs H). pose proof (f_equal j_solved H). done.
Qed.

(** A universe that grows, with the same requests. *)
Lemma asking_grows j j' : asking j -> grows j j' -> sound emit C (j_universe j') -> asking j'.
Proof.
  intros [[Hs Hn] Ht Hst Hnd] Hg Hs'. destruct (grows_job _ _ Hg) as (Hty & _ & Ha & _). split.
  - split; [done|]. pose proof (unseen_grows C j j' Hg). lia.
  - unfold IS_DELETE in *. by rewrite Hty.
  - intros i. rewrite Ha. intros Hi. destruct (Hst i Hi) as (p & Hp & Hl). exists p. split; [by apply (gr_items _ _ Hg)|done].
  - by rewrite Ha.
Qed.

Lemma asking_step j j' : asking j -> step emit C j j' -> asking j'.
Proof. intros Ha Hst. by eapply asking_grows; [|apply Hst|apply Hst]. Qed.

Lemma find_req_none_notin l i : find_req l i = None -> i ∉ map rq_item l.
Proof.
  intros Hf Hin. apply elem_of_map in Hin as (r & -> & Hr). apply list_elem_of_In, (find_none _ _ Hf) in Hr.
  by rewrite Nat.eqb_refl in Hr.
Qed.

Lemma find_req_some_in l i r : find_req l i = Some r -> i ∈ map rq_item l.
Proof.
  intros Hf. pose proof (find_req_item l i r Hf) as <-. apply find_some in Hf as [Hf _]. apply elem_of_map. exists r.
  split; [done|by apply list_elem_of_In].
Qed.

Lemma add_req_ok s j i p : asking j -> pkg_of (j_universe j) i = Some p -> is_local p = false ->
  exists j', pkg_jobs_add_req j i = Some j' /\ advances s j j' /\ asking j' /\ j_universe j' = j_universe j /\
    i ∈ map rq_item (request_add j').
Proof.
  intros Ha Hp Hl. unfold pkg_jobs_add_req. rewrite Hp. cbn [mbind option_bind]. rewrite (as_type _ Ha), Hl.
  destruct (find_req (request_add j) i) as [r|] eqn:Er.
  - exists j. split_and!; [done|apply progress_refl|done|done|by eapply find_req_some_in].
  - eexists. split; [done|]. assert (forall k, k ∈ map rq_item (request_add j ++ [mk_req i false]) <-> k ∈ map rq_item (request_add j) \/ k = i) as Hk
      by (intros k; rewrite map_app, elem_of_app; cbn; rewrite list_elem_of_singleton; done).
    split_and!; [| |done|by apply Hk; right].
    + split; [|intros k Hin; apply Hk; by left|].
      * replace (with_requests_of j _) with j by (by destruct j). apply grows_refl.
      * intros _ _ k q Hle Hq. pose proof (pkg_of_lt _ _ _ Hq). cbn in *. lia.
    + destruct Ha as [Hr Ht Hst Hnd]. split; [done|done| |].
      * intros k [Hin| ->]%Hk; [by apply Hst|by exists p].
      * cbn [request_add set_request_add]. rewrite map_app. apply NoDup_app. split_and!; [done| |apply NoDup_singleton].
        intros k Hin ->%list_elem_of_singleton. by apply find_req_none_notin in Er.
Qed.

(** *** Packages that are forced in *)

Lemma insert_remote_sound j p uid d : sound emit C (j_universe j) -> known emit C p -> uid_of p = Some uid -> digest_of p = Some d ->
  is_local p = false ->
  let j' := set_universe j (insert_item (j_universe j) p uid d) in
  grows j j' /\ sound emit C (j_universe j') /\ pkg_of (j_universe j') (length (u_store (j_universe j))) = Some p.
Proof.
  intros Hs Hk Hu Hd Hrem j'. destruct (hash_lookup (u_seen (j_universe j)) d) as [x|] eqn:Eseen.
  2:{ destruct (insert_sound emit C j p uid d Hs Hk Hu Hd Eseen) as (H1 & H2 & H3 & _). done. }
  assert (u_seen (j_universe j') = u_seen (j_universe j)) as Hseen by (cbn; by rewrite Eseen).
  assert (forall k, pkg_of (j_universe j') k = if decide (k = length (u_store (j_universe j))) then Some p else pkg_of (j_universe j) k) as Hk'
    by (intros k; apply pkg_of_insert).
  assert (forall k q, pkg_of (j_universe j) k = Some q -> pkg_of (j_universe j') k = Some q) as Hold.
  { intros k q Hq. rewrite Hk', decide_False; [done|]. pose proof (pkg_of_lt _ _ _ Hq). lia. }
  split_and!; [| |by rewrite Hk', decide_True].
  - split; [done|cbn; rewrite length_app; lia|by rewrite Hseen| |by destruct j].
    intros k [c Hc]. unfold in_universe, j'. cbn [j_universe set_universe]. rewrite (insert_find emit) by apply Hs.
    destruct (decide _); [done|]. by exists c.
  - destruct Hs as [Hw Hkn Hsn Hl Hp Hpr]. split.
    + apply wf_insert; [done|apply Hk|done|done].
    + intros i q. rewrite Hk'. destruct (decide _); [by intros [= <-]|apply Hkn].
    + intros i q d'. rewrite Hk', Hseen. destruct (decide _) as [_|_]; [|apply Hsn].
      intros [= <-] Hd'. assert (d' = d) as -> by congruence. by rewrite Eseen.
    + intros i k q r. rewrite !Hk'. destruct (decide _) as [->|_], (decide _) as [->|_]; try done; [| |apply Hl].
      * intros [= <-] _. congruence.
      * intros _ [= <-]. congruence.
    + exact Hp.
    + intros prs pr Hprs Hin. destruct (Hpr prs pr Hprs Hin) as [y Hy]. exists y. by apply Hold.
Qed.

Lemma force_add_ok j p : sound emit C (j_universe j) -> known emit C p -> is_local p = false ->
  exists j' i, force_add emit sha256 repo_digest_format j p = Some (j', i) /\ grows j j' /\ sound emit C (j_universe j') /\
    pkg_of (j_universe j') i = Some p /\ pkg_of (j_universe j) i = None.
Proof.
  intros Hs Hk Hl. destruct (kn_ids _ _ _ Hk) as (uid & d & Hu & Hd & _).
  destruct (insert_remote_sound j p uid d Hs Hk Hu Hd Hl) as (Hg & Hs' & Hp).
  unfold force_add, pkg_jobs_universe_add_pkg. rewrite Hd. cbn [mbind option_bind]. rewrite Hd. cbn [mbind option_bind].
  assert (pkg_of (j_universe j) (length (u_store (j_universe j))) = None) as Hno by (unfold pkg_of; by rewrite lookup_ge_None_2).
  destruct (pkg_jobs_universe_seen _ _); rewrite Hu; cbn [mbind option_bind]; by eexists _, _.
Qed.

(** A package whose digest was seen is not processed again. *)
Lemma process_item_seen j p b d i : asking j -> digest_of p = Some d -> hash_lookup (u_seen (j_universe j)) d = Some i ->
  process_item emit sha256 repo_digest_format fuel j p b = Some (EPKG_OK, j, Some i).
Proof.
  intros [[_ Hn] _ _ _] Hd Hi. destruct fuel as [|f]; [lia|]. cbn [process_item].
  unfold pkg_jobs_universe_add_pkg, pkg_jobs_universe_seen.
  rewrite Hd. cbn [mbind option_bind]. rewrite Hd. cbn [mbind option_bind]. rewrite Hi. cbn [mbind option_bind]. by destruct j.
Qed.

(** The package [p] in the universe, as far as a request is concerned. *)
Definition stands_in (u : universe) (p : pkg) (i : nat) : Prop :=
  exists q, pkg_of u i = Some q /\ is_local q = false /\ uid_of q = uid_of p.

Lemma force_inherit_ok j p : asking j -> known emit C p -> is_local p = false ->
  exists j1 i, force_add emit sha256 repo_digest_format j p = Some (j1, i) /\ pkg_of (j_universe j) i = None /\
    is_Some (pkg_of (j_universe j1) i) /\
    forall from, is_Some (pkg_of (j_universe j1) from) ->
    exists j2, inherit_and_process emit sha256 repo_digest_format fuel j1 from i = Some (EPKG_OK, j2) /\ asking j2 /\
      advances false j j2 /\ u_items (j_universe j2) = u_items (j_universe j1) /\ stands_in (j_universe j2) p i.
Proof.
  intros Ha Hk Hl. destruct (force_add_ok j p (proj1 (as_ready _ Ha)) Hk Hl) as (j1 & i & -> & Hg & Hs & Hp & Hno).
  exists j1, i. split_and!; [done|done|by exists p|]. intros from [fp Hfp]. unfold inherit_and_process.
  pose proof (asking_grows j j1 Ha Hg Hs) as Ha1.
  rewrite Hfp. cbn [mbind option_bind]. rewrite (set_automatic_some _ _ p) by done. cbn [mbind option_bind].
  set (b := is_automatic emit fp). set (u := set_item_pkg (j_universe j1) i (with_automatic p b)).
  assert (flagged (j_universe j1) u) as Hfl by (eapply flagged_set; [exact Hp|constructor]).
  pose proof (with_automatic_same p b) as Hsame.
  assert (pkg_of u i = Some (with_automatic p b)) as Hi by (unfold u; by rewrite pkg_of_set_item, decide_True, Hp).
  rewrite Hi. cbn [mbind option_bind]. set (j2 := set_universe j1 u).
  assert (grows j j2) as Hg2.
  { destruct Hg as [G1 G2 G3 G4 G5]. unfold j2, u. split; cbn [j_universe set_universe u_store u_items u_seen set_item_pkg].
    - intros k q Hq. rewrite pkg_of_set_item, decide_False; [by apply G1|]. intros ->. congruence.
    - by rewrite length_alter.
    - exact G3.
    - exact G4.
    - rewrite <- G5. by destruct j. }
  assert (sound emit C (j_universe j2)) as Hs2 by (by eapply flagged_sound).
  pose proof (asking_grows j j2 Ha Hg2 Hs2) as Ha2.
  destruct (kn_ids _ _ _ Hk) as (uid & d & Hu & Hd & _).
  assert (digest_of (with_automatic p b) = Some d) as Hd' by (by rewrite (same_digest_of emit p)).
  destruct (sd_seen _ _ _ Hs2 i _ d Hi Hd') as [x Hx].
  rewrite (process_item_seen j2 _ false d x Ha2 Hd' Hx). cbn [mbind option_bind]. exists j2. split_and!; [done|done| |done|].
  - destruct (grows_job _ _ Hg2) as (_ & _ & Hadd & _). split; [|by rewrite Hadd|done].
    unfold with_requests_of. rewrite <- Hadd. by destruct j2.
  - exists (with_automatic p b). split_and!; [done| |by apply same_uid]. by rewrite (same_local p).
Qed.

(** The decision, and when it is one for the candidate. *)
Lemma known_upgrade rp lp : known emit C rp -> known emit C lp -> is_local rp = false ->
  exists needed rp', pkg_jobs_need_upgrade emit rp (Some lp) = Some (needed, rp') /\ (needed = true <-> replaces emit rp lp) /\
    known emit C rp' /\ is_local rp' = false /\ uid_of rp' = uid_of rp /\ digest_of rp' = digest_of rp /\
    (needed = false -> rp' = rp).
Proof.
  intros Hr Hl Hrem. destruct (known_need_upgrade emit C rp (Some lp) Hr Hrem Hl) as (b & rp' & H & Hk & Hl' & Hu & Hd & _).
  destruct (need_upgrade_some emit rp lp) as (b' & rp2 & H2 & Hb & Hrp); [apply Hr|apply Hl|by apply (known_wf_comparable emit C)|].
  rewrite H in H2. injection H2 as <- <-. exists b, rp'. split_and!; try done. intros ->. by rewrite Hrp.
Qed.

(** A candidate is dealt with: a candidate with its unique id is requested, or
    the installed package stays because it is not replaced. *)
Definition asked_for (j : pkg_jobs) (rp : pkg) : Prop :=
  exists i, i ∈ map rq_item (request_add j) /\ stands_in (j_universe j) rp i.

Definition offered (j : pkg_jobs) (rp : pkg) : Prop :=
  asked_for j rp \/
  (exists i lp, pkg_of (j_universe j) i = Some lp /\ is_local lp = true /\ uid_of lp = uid_of rp /\ ~ replaces emit rp lp).

Lemma asked_for_advances s j j' rp : advances s j j' -> asked_for j rp -> asked_for j' rp.
Proof.
  intros Hav (i & Hi & q & Hq & H). exists i. split; [by apply (av_requests _ _ _ Hav)|]. exists q. split; [by eapply advances_item|done].
Qed.

Lemma offered_advances s j j' rp : advances s j j' -> offered j rp -> offered j' rp.
Proof.
  intros Hav [H|(i & lp & Hi & H)]; [left; by eapply asked_for_advances|].
  right. exists i, lp. split; [by eapply advances_item|done].
Qed.

Lemma first_remote_cases u chain : match first_remote u chain with
  | Some i => i ∈ chain /\ exists q, pkg_of u i = Some q /\ is_local q = false
  | None => forall i q, i ∈ chain -> pkg_of u i = Some q -> is_local q = true
  end.
Proof.
  unfold first_remote. destruct (find _ chain) as [i|] eqn:E.
  - apply find_some in E as [Hi Hq]. split; [by apply list_elem_of_In|]. destruct (pkg_of u i) as [q|]; [|done].
    exists q. split; [done|]. by apply negb_true_iff.
  - intros i q Hi%list_elem_of_In Hq. apply (find_none _ _ E) in Hi. rewrite Hq in Hi. by apply negb_false_iff.
Qed.

Lemma tail_item_sub i chain k : k ∈ from_item i chain -> k ∈ chain.
Proof.
  induction chain as [|c chain IH]; [done|]. cbn [from_item]. destruct (Nat.eqb i c); [done|]. intros H. right. by apply IH.
Qed.

Lemma back_from_sub i chain k : k ∈ back_from i chain <-> k ∈ chain.
Proof.
  unfold back_from. set (n := (length chain - length (from_item i chain))%nat). clearbody n.
  rewrite elem_of_app, !list_elem_of_In, <- !in_rev, <- !list_elem_of_In.
  rewrite <- (take_drop (S n) chain) at 3. by rewrite elem_of_app.
Qed.

(** The chain of an item: all of its unique id. *)
Lemma item_chain u i p : wf_universe emit u -> pkg_of u i = Some p ->
  exists chain, chain_of u i = Some chain /\ i ∈ chain /\ forall k, k ∈ chain -> exists q, pkg_of u k = Some q /\ uid_of q = uid_of p.
Proof.
  intros Hw Hp. destruct (chain_of_item emit u i p Hw Hp) as (chain & uid & Hc & Hi & Hu & Hf).
  exists chain. split_and!; [done|done|]. intros k Hk. destruct (chain_member emit u uid chain k Hw Hf Hk) as (q & Hq & Hqu).
  exists q. split; [done|congruence].
Qed.

(** An item whose digest is that of [rp] has its unique id. *)
Lemma seen_uid u rp d un : sound emit C u -> known emit C rp -> digest_of rp = Some d -> hash_lookup (u_seen u) d = Some un ->
  exists q, pkg_of u un = Some q /\ uid_of q = uid_of rp.
Proof.
  intros Hs Hk Hd Hun. destruct (wu_digests _ _ (sd_wf _ _ _ Hs) _ _ Hun) as (q & Hq & Hqd). exists q. split; [done|].
  destruct (kn_ids _ _ _ Hk) as (u1 & d1 & Hu1 & Hd1 & Hc1 & _).
  destruct (kn_ids _ _ _ (sd_known _ _ _ Hs _ _ Hq)) as (u2 & d2 & Hu2 & Hd2 & Hc2 & _). congruence.
Qed.

Lemma reinstall_ok j rp d un : asking j -> known emit C rp -> is_local rp = false -> digest_of rp = Some d ->
  hash_lookup (u_seen (j_universe j)) d = Some un ->
  exists j' i, reinstall emit sha256 repo_digest_format fuel j rp un = Some (j', Some i) /\ asking j' /\
    advances false j j' /\ stands_in (j_universe j') rp i /\ i ∈ map rq_item (request_add j').
Proof.
  intros Ha Hk Hl Hd Hun. pose proof (proj1 (as_ready _ Ha)) as Hs.
  destruct (seen_uid _ rp d un Hs Hk Hd Hun) as (q & Hq & Hqu).
  destruct (item_chain _ un q (sd_wf _ _ _ Hs) Hq) as (chain & Hc & _ & Hall).
  unfold reinstall. rewrite Hc. cbn [mbind option_bind].
  destruct (force_inherit_ok j rp Ha Hk Hl) as (j1 & i & Hf & Hno & Hi & Hinh).
  assert (is_Some (pkg_of (j_universe j1) un)) as Hun1.
  { destruct (force_add_ok j rp Hs Hk Hl) as (j1' & i' & Hf' & Hg & _ & _). rewrite Hf in Hf'. injection Hf' as <- <-.
    exists q. by apply (gr_items _ _ Hg). }
  destruct (Hinh un Hun1) as (j2 & H2 & Ha2 & Hav & _ & Hst).
  destruct Hst as (r & Hr & Hrl & Hru).
  destruct (add_req_ok false j2 i r Ha2 Hr Hrl) as (j3 & H3 & Hav3 & Ha3 & Hu3 & Hin).
  pose proof (first_remote_cases (j_universe j) (from_item un chain)) as Hfr.
  destruct (first_remote _ _) as [jit|].
  - destruct Hfr as [Hjit (x & Hx & Hxl)]. destruct (Hall jit (tail_item_sub _ _ _ Hjit)) as (x' & Hx' & Hxu).
    assert (x' = x) as -> by congruence. rewrite Hx. cbn [mbind option_bind].
    destruct (known_upgrade rp x Hk (sd_known _ _ _ Hs _ _ Hx) Hl) as (needed & rp' & -> & _ & Hk' & Hl' & Hu' & Hd' & _).
    cbn [mbind option_bind]. destruct needed.
    + destruct (force_inherit_ok j rp' Ha Hk' Hl') as (j1' & i' & Hf' & _ & _ & Hinh').
      assert (is_Some (pkg_of (j_universe j1') un)) as Hun1'.
      { destruct (force_add_ok j rp' Hs Hk' Hl') as (y & i'' & Hf'' & Hg & _ & _). rewrite Hf' in Hf''. injection Hf'' as <- <-.
        exists q. by apply (gr_items _ _ Hg). }
      rewrite Hf'. cbn [mbind option_bind]. destruct (Hinh' un Hun1') as (j2' & -> & Ha2' & Hav' & _ & r' & Hr' & Hrl' & Hru').
      cbn [mbind option_bind]. rewrite find_ptr_none.
      destruct (add_req_ok false j2' i' r' Ha2' Hr' Hrl') as (j3' & -> & Hav3' & Ha3' & Hu3' & Hin').
      cbn [mbind option_bind]. exists j3', i'. split_and!; [done|done|by eapply advances_trans| |done].
      exists r'. rewrite Hu3'. split_and!; [done|done|congruence].
    + cbn [mbind option_bind]. rewrite find_ptr_none.
      destruct (add_req_ok false j jit x Ha Hx Hxl) as (j3' & -> & Hav3' & Ha3' & Hu3' & Hin').
      cbn [mbind option_bind]. exists j3', jit. split_and!; [done|done|done| |done].
      exists x. rewrite Hu3'. split_and!; [done|done|congruence].
  - rewrite Hf. cbn [mbind option_bind]. rewrite H2. cbn [mbind option_bind]. rewrite H3. cbn [mbind option_bind].
    exists j3, i. split_and!; [done|done|by eapply advances_trans| |done]. exists r. by rewrite Hu3.
Qed.

(** The loop over a chain.  EPKG_OK means that something is requested. *)
Lemma scan_known_ok j force rp chain : asking j -> known emit C rp -> is_local rp = false ->
  (forall k, k ∈ chain -> exists q, pkg_of (j_universe j) k = Some q /\ uid_of q = uid_of rp) ->
  exists r, scan_known emit j force rp chain = Some r /\
    match r with
    | ScanReturn rc j' => asking j' /\ advances true j j' /\ offered j' rp /\
        (rc = EPKG_INSTALLED /\ force = false \/ rc = EPKG_OK /\ asked_for j' rp)
    | ScanUpgrade rp' => known emit C rp' /\ is_local rp' = false /\ uid_of rp' = uid_of rp /\ digest_of rp' = digest_of rp
    | ScanEnd rp' => rp' = rp /\ (chain = [] \/ force = true)
    end.
Proof.
  intros Ha Hk Hl. induction chain as [|k chain IH]; intros Hall.
  { eexists. split; [done|]. split; [done|by left]. }
  apply elem_cons_forall in Hall as [(q & Hq & Hqu) Hall]. cbn [scan_known]. rewrite Hq. cbn [mbind option_bind].
  pose proof (sd_known _ _ _ (proj1 (as_ready _ Ha)) _ _ Hq) as Hkq.
  destruct (known_upgrade rp q Hk Hkq Hl) as (needed & rp' & -> & Hn & Hk' & Hl' & Hu' & Hd' & Hsame).
  cbn [mbind option_bind]. destruct needed.
  - eexists. split; [done|]. done.
  - rewrite (Hsame eq_refl) in *. destruct (is_local q) eqn:Eq.
    + destruct force.
      * destruct (IH Hall) as (r & -> & Hr). exists r. split; [done|]. destruct r; try done. split; [apply Hr|by right].
      * eexists. split; [done|]. split_and!; [done|apply progress_refl| |by left].
        right. exists k, q. split_and!; [done|done|done|]. intros Hrep. apply Hn in Hrep. done.
    + destruct (add_req_ok true j k q Ha Hq Eq) as (j' & -> & Hav & Ha' & Hu2 & Hin). cbn [mbind option_bind].
      assert (asked_for j' rp) as Has by (exists k; split; [done|]; exists q; by rewrite Hu2).
      eexists. split; [done|]. split_and!; [done|done|by left|by right].
Qed.

(** A package that is installed, and comes first, is not replaced by one with
    its digest. *)
Lemma scan_known_head j rp k chain lp rp' : asking j -> known emit C rp -> is_local rp = false ->
  pkg_of (j_universe j) k = Some lp -> is_local lp = true ->
  scan_known emit j false rp (k :: chain) = Some (ScanUpgrade rp') -> digest_of lp <> digest_of rp.
Proof.
  intros Ha Hk Hl Hlp Hloc. cbn [scan_known]. rewrite Hlp. cbn [mbind option_bind].
  pose proof (sd_known _ _ _ (proj1 (as_ready _ Ha)) _ _ Hlp) as Hkl.
  destruct (known_upgrade rp lp Hk Hkl Hl) as (needed & rp1 & -> & Hn & _). cbn [mbind option_bind]. rewrite Hloc.
  destruct needed; [|done]. intros _ He. destruct (kn_ids _ _ _ Hk) as (_ & d & _ & Hd & _).
  apply (same_digest_stays emit rp lp d Hd); [unfold pkg_digest in *; congruence|by apply Hn].
Qed.

Lemma tail_item_head i chain : i ∈ chain -> exists rest, from_item i chain = i :: rest.
Proof.
  induction chain as [|c chain IH]; intros Hi; [by apply elem_of_nil in Hi|]. cbn [from_item].
  destruct (Nat.eqb_spec i c) as [->|Hne]; [by eexists|]. apply elem_of_cons in Hi as [?|?]; [done|by apply IH].
Qed.

(** When the installed package was added it comes first. *)
Lemma known_chain_ok j uid : asking j ->
  exists j' chain, known_chain emit sha256 repo_digest_format fuel j uid = Some (j', chain) /\ asking j' /\ step emit C j j' /\
    (forall k, k ∈ chain -> exists q, pkg_of (j_universe j') k = Some q /\ uid_of q = Some uid) /\
    (j' = j \/ exists k rest lp, chain = k :: rest /\ pkg_of (j_universe j') k = Some lp /\ is_local lp = true).
Proof.
  intros Ha. pose proof (proj1 (as_ready _ Ha)) as Hs. unfold known_chain.
  set (good := fun (j' : pkg_jobs) chain => asking j' /\ step emit C j j' /\
    (forall k, k ∈ chain -> exists q, pkg_of (j_universe j') k = Some q /\ uid_of q = Some uid) /\
    (j' = j \/ exists k rest lp, chain = k :: rest /\ pkg_of (j_universe j') k = Some lp /\ is_local lp = true)).
  assert (good j []) as Hnil.
  { split_and!; [done|by apply step_refl| |by left]. intros k Hk. by apply elem_of_nil in Hk. }
  destruct (pkg_jobs_universe_find (j_universe j) uid) as [chain|] eqn:Ef.
  { exists j, chain. split_and!; [done|done|by apply step_refl| |by left].
    intros k Hk. by apply (chain_member emit _ uid chain k (sd_wf _ _ _ Hs)). }
  assert (forall x, (let '(j0, lp) := pkg_jobs_universe_get_local j uid 0 in
    match lp with
    | None => Some (j0, [])
    | Some lp => '(_, j1, un) ← process_item emit sha256 repo_digest_format fuel j0 lp true;
        match un with None => Some (j1, []) | Some un => chain ← chain_of (j_universe j1) un; Some (j1, from_item un chain) end
    end) = x -> exists j' chain, x = Some (j', chain) /\ good j' chain) as H.
  { intros x <-. rewrite get_local_new by done. destruct (_ ≫= head) as [lp|] eqn:El; [|by exists j, []].
    destruct (query_head emit C Hdb uid _ lp El) as (Hk & Hu & Hloc).
    destruct (process_item_spec emit sha256 repo_digest_format C Hdb fuel j lp true (as_ready _ Ha) Hk)
      as (rc & j1 & i & d & Hp & _ & Hst & Hd & Hi & _). rewrite Hp. cbn [mbind option_bind].
    assert (hash_lookup (u_seen (j_universe j)) d = None) as Hno.
    { destruct (hash_lookup (u_seen (j_universe j)) d) as [y|] eqn:Ey; [|done].
      destruct (seen_in_universe emit C _ lp d y uid Hs Hk Hd Hu Ey) as [c Hc]. congruence. }
    destruct (process_item_inserts emit sha256 repo_digest_format C Hdb fuel j lp true d rc j1 (Some i) (as_ready _ Ha) Hk Hd Hno Hp)
      as (i' & [= <-] & Hq).
    destruct (item_chain _ i lp (sd_wf _ _ _ (st_sound _ _ _ _ Hst)) Hq) as (chain & -> & Hin & Hall). cbn [mbind option_bind].
    exists j1, (from_item i chain). split; [done|]. split_and!; [by eapply asking_step|done| |right].
    - intros k Hk'%tail_item_sub. destruct (Hall k Hk') as (r & Hr & Hru). exists r. split; [done|congruence].
    - destruct (tail_item_head i chain Hin) as [rest ->]. by exists i, rest, lp. }
  destruct (j_type j); try (by eapply H); by exists j, [].
Qed.

Lemma offered_requested j rp i : i ∈ map rq_item (request_add j) -> stands_in (j_universe j) rp i -> offered j rp /\ asked_for j rp.
Proof. intros H1 H2. assert (asked_for j rp) by (by exists i). split; [by left|done]. Qed.

(** What the answer to a candidate means. *)
Definition answer (force : bool) (j : pkg_jobs) (rp : pkg) (rc : pkg_error_t) : Prop :=
  rc = EPKG_FATAL \/ (rc = EPKG_INSTALLED /\ force = false \/ rc = EPKG_OK /\ asked_for j rp) /\ offered j rp.

(** The package that is offered is the one that is installed, by id and digest.
    To force such a package in is not covered by what follows. *)
Definition installed_again (rp : pkg) : Prop := exists uid d, uid_of rp = Some uid /\ digest_of rp = Some d /\ ca_installed C !! uid = Some d.

Lemma local_installed_again u i q rp : sound emit C u -> pkg_of u i = Some q -> is_local q = true -> uid_of q = uid_of rp ->
  digest_of q = digest_of rp -> installed_again rp.
Proof.
  intros Hs Hq Hl Hu Hd. destruct (kn_ids _ _ _ (sd_known _ _ _ Hs _ _ Hq)) as (uid & d & Hu' & Hd' & _ & Hi).
  exists uid, d. split_and!; [congruence|congruence|by apply Hi].
Qed.

(** What the search of the chain may answer. *)
Definition scanned (j : pkg_jobs) (force : bool) (rp : pkg) (chain : list nat) (r : scan_result) : Prop :=
  match r with
  | ScanReturn rc j' => asking j' /\ advances true j j' /\ offered j' rp /\ (rc = EPKG_INSTALLED /\ force = false \/ rc = EPKG_OK /\ asked_for j' rp)
  | ScanUpgrade rp' => known emit C rp' /\ is_local rp' = false /\ uid_of rp' = uid_of rp /\ digest_of rp' = digest_of rp /\
      (chain = [] \/ scan_known emit j force rp chain = Some (ScanUpgrade rp'))
  | ScanEnd rp' => rp' = rp /\ force = true
  end.

Lemma scanned_ok j force rp chain : asking j -> known emit C rp -> is_local rp = false ->
  (forall k, k ∈ chain -> exists q, pkg_of (j_universe j) k = Some q /\ uid_of q = uid_of rp) ->
  exists r, (match chain with [] => Some (ScanUpgrade rp) | _ => scan_known emit j force rp chain end) = Some r /\
    scanned j force rp chain r.
Proof.
  intros Ha Hk Hl Hall. destruct (scan_known_ok j force rp chain Ha Hk Hl Hall) as (r & Hr & Hspec).
  destruct chain as [|c chain]; [exists (ScanUpgrade rp); cbn [scanned]; split_and!; [done..|by left]|]. exists r. split; [done|].
  unfold scanned. destruct r; [done|split_and!; [apply Hspec..|by right]|]. split; [apply Hspec|]. by destruct Hspec as [_ [?|?]].
Qed.

(** The candidate that is processed is there afterwards, as a remote package. *)
Lemma upgrade_remote j j2 rp rp' uid d d' force chain rc i : asking j -> known emit C rp -> is_local rp = false ->
  uid_of rp = Some uid -> digest_of rp = Some d ->
  (force = true -> ~ installed_again rp) ->
  (forall k, k ∈ chain -> exists q, pkg_of (j_universe j) k = Some q /\ uid_of q = Some uid) ->
  (hash_lookup (u_seen (j_universe j)) d = None \/ exists k rest lp, chain = k :: rest /\ pkg_of (j_universe j) k = Some lp /\ is_local lp = true) ->
  scanned j force rp chain (ScanUpgrade rp') ->
  process_item emit sha256 repo_digest_format fuel j rp' true = Some (rc, j2, Some i) -> (rc = EPKG_OK) ->
  sound emit C (j_universe j2) -> digest_of rp' = Some d' -> hash_lookup (u_seen (j_universe j2)) d' = Some i ->
  exists q, pkg_of (j_universe j2) i = Some q /\ is_local q = false /\ uid_of q = uid_of rp.
Proof.
  intros Ha Hk Hl Hu Hd Hforce Hall Hcase (Hk' & Hl' & Hu' & Hd' & Hscan) Hp -> Hs Hdd Hi.
  destruct (wu_digests _ _ (sd_wf _ _ _ Hs) _ _ Hi) as (q & Hq & Hqd). exists q.
  destruct (seen_uid _ rp' d' i Hs Hk' Hdd Hi) as (q' & Hq' & Hqu). assert (q' = q) as -> by congruence.
  split_and!; [done| |congruence]. destruct (is_local q) eqn:Elq; [|done]. exfalso.
  assert (installed_again rp) as Hagain by (eapply (local_installed_again _ i q); [exact Hs|done|done|congruence|congruence]).
  destruct force; [by apply Hforce|]. destruct Hcase as [Hnew|(k & rest & lp & -> & Hlp & Hloc)].
  - assert (d' = d) as -> by congruence.
    destruct (process_item_inserts emit sha256 repo_digest_format C Hdb fuel j rp' true d EPKG_OK j2 (Some i) (as_ready _ Ha) Hk' Hdd Hnew Hp)
      as (i' & [= <-] & Hq2). congruence.
  - destruct Hscan as [|Hscan]; [done|]. apply (scan_known_head j rp k rest lp rp' Ha Hk Hl Hlp Hloc Hscan).
    destruct (Hall k ltac:(by left)) as (lp' & Hlp' & Hlpu). assert (lp' = lp) as -> by congruence.
    destruct (kn_ids _ _ _ (sd_known _ _ _ (proj1 (as_ready _ Ha)) _ _ Hlp)) as (u1 & d1 & Hu1 & Hd1 & _ & Hc1).
    destruct Hagain as (u2 & d2 & Hu2 & Hd2 & Hc2). specialize (Hc1 Hloc). congruence.
Qed.

Lemma new_digest_ok j rp uid d force : asking j -> known emit C rp -> is_local rp = false -> uid_of rp = Some uid ->
  digest_of rp = Some d -> hash_lookup (u_seen (j_universe j)) d = None -> (force = true -> ~ installed_again rp) ->
  exists rc j' unit, new_digest emit sha256 repo_digest_format fuel j rp uid force = Some (rc, j', unit) /\ asking j' /\
    advances (negb force) j j' /\ answer force j' rp rc.
Proof.
  intros Ha Hk Hl Hu Hd Hnew Hforce. unfold new_digest. destruct (known_chain_ok j uid Ha) as (j1 & chain & -> & Ha1 & Hst1 & Hall & Hcase).
  cbn [mbind option_bind]. pose proof (step_advances (negb force) _ _ Hst1) as Hav1.
  destruct (scanned_ok j1 force rp chain Ha1 Hk Hl) as (r & -> & Hr).
  { intros k Hk'. destruct (Hall k Hk') as (q & Hq & Hqu). exists q. split; [done|congruence]. }
  cbn [mbind option_bind]. destruct r as [rc j'|rp'|rp'].
  - destruct Hr as (Ha' & Hav & Hoff & Hrc). exists rc, j', None. split_and!; [done|done| |by right].
    eapply advances_trans; [done|]. destruct force; [by eapply advances_weaken|done].
  - destruct (process_item_spec emit sha256 repo_digest_format C Hdb fuel j1 rp' true (as_ready _ Ha1) (proj1 Hr))
      as (rc & j2 & i & d' & Hp & Hrc & Hst & Hdd & Hi & _). pose proof Hp as Hp'. rewrite Hp. cbn [mbind option_bind].
    pose proof (asking_step _ _ Ha1 Hst) as Ha2. pose proof (step_advances (negb force) _ _ Hst) as Hav2.
    destruct Hrc as [->| ->].
    2:{ exists EPKG_FATAL, j2, None. split_and!; [done|done|by eapply advances_trans|by left]. }
    destruct (upgrade_remote j1 j2 rp rp' uid d d' force chain EPKG_OK i) as (q & Hq & Elq & Hqu); try done.
    { destruct Hcase as [->|?]; [by left|by right]. }
    { apply Hst. }
    destruct (add_req_ok (negb force) j2 i q Ha2 Hq Elq) as (j3 & H3 & Hav3 & Ha3 & Hu3 & Hin).
    cbn [mbind option_bind]. rewrite H3. cbn [mbind option_bind].
    exists EPKG_OK, j3, (Some i). split_and!; [done|done| |].
    + eapply advances_trans; [done|]. by eapply advances_trans.
    + destruct (offered_requested j3 rp i Hin) as [Ho Has]; [exists q; by rewrite Hu3|]. right. split; [by right|done].
  - destruct Hr as [-> ->]. cbn [negb] in *.
    destruct (force_inherit_ok j1 rp Ha1 Hk Hl) as (j2 & i & -> & _ & Hi & Hinh). cbn [mbind option_bind].
    destruct (Hinh i Hi) as (j3 & -> & Ha3 & Hav3 & _ & q & Hq & Hlq & Huq). cbn [mbind option_bind].
    destruct (add_req_ok false j3 i q Ha3 Hq Hlq) as (j4 & -> & Hav4 & Ha4 & Hu4 & Hin). cbn [mbind option_bind].
    exists EPKG_OK, j4, (Some i). split_and!; [done|done| |].
    + eapply advances_trans; [done|]. by eapply advances_trans.
    + destruct (offered_requested j4 rp i Hin) as [Ho Has]; [exists q; by rewrite Hu4|]. right. split; [by right|done].
Qed.

(** *** The whole of it *)

Lemma process_remote_ok j rp force : asking j -> known emit C rp -> is_local rp = false ->
  (force = true -> ~ installed_again rp) ->
  exists rc j' unit, pkg_jobs_process_remote_pkg emit sha256 repo_digest_format fuel j rp force = Some (rc, j', unit) /\
    asking j' /\ advances (negb force) j j' /\ answer force j' rp rc.
Proof.
  intros Ha Hk Hl Hforce. unfold pkg_jobs_process_remote_pkg.
  destruct (kn_ids _ _ _ Hk) as (uid & d & Hu & Hd & _). rewrite Hd. cbn [mbind option_bind]. rewrite Hd. cbn [mbind option_bind].
  unfold pkg_jobs_universe_seen. destruct (hash_lookup (u_seen (j_universe j)) d) as [un|] eqn:Eun.
  2:{ rewrite Hu. cbn [mbind option_bind]. by apply (new_digest_ok j rp uid d). }
  destruct force.
  - destruct (reinstall_ok j rp d un Ha Hk Hl Hd Eun) as (j' & i & -> & Ha' & Hav & Hst & Hin). cbn [mbind option_bind].
    exists EPKG_OK, j', (Some i). split_and!; [done|done|done|]. destruct (offered_requested j' rp i Hin Hst). right. split; [by right|done].
  - pose proof (proj1 (as_ready _ Ha)) as Hs. destruct (seen_uid _ rp d un Hs Hk Hd Eun) as (q & Hq & Hqu).
    destruct (item_chain _ un q (sd_wf _ _ _ Hs) Hq) as (chain & -> & Hun & Hall). cbn [mbind option_bind].
    pose proof (first_remote_cases (j_universe j) (back_from un chain)) as Hfr. destruct (first_remote _ _) as [jit|].
    + destruct Hfr as [Hjit%back_from_sub (x & Hx & Hxl)]. destruct (add_req_ok true j jit x Ha Hx Hxl) as (j' & -> & Hav & Ha' & Hu' & Hin).
      cbn [mbind option_bind]. exists EPKG_INSTALLED, j', None. split_and!; [done|done|done|]. right. split; [by left|].
      destruct (Hall jit Hjit) as (x' & Hx' & Hxu). apply (offered_requested j' rp jit Hin). exists x. rewrite Hu'. split_and!; [done|done|congruence].
    + exists EPKG_INSTALLED, j, None. split_and!; [done|done|apply progress_refl|]. right. split; [by left|]. right. exists un, q.
      destruct (wu_digests _ _ (sd_wf _ _ _ Hs) _ _ Eun) as (q' & Hq' & Hqd). assert (q' = q) as -> by congruence.
      split_and!; [done|by apply (Hfr un q); [apply back_from_sub|]|done|exact (same_digest_stays emit rp q d Hd Hqd)].
Qed.

(** *** The candidates of a pattern *)

Section patterns.
Context (yesno : cstring -> bool) (sqlite_quote : cstring -> cstring) (pkg_open : cstring -> option pkg).

(** The user accepts no other candidate; an installed package of the universe
    has been loaded completely. *)
Context (Hno : forall question, yesno question = false)
  (Hloaded : forall p flag, known emit C p -> is_local p = true -> pkgdb_ensure_loaded p flag = p).

Lemma try_remote_declined j pattern uid m :
  pkg_jobs_try_remote_candidate emit sha256 repo_digest_format yesno fuel j pattern uid m = Some (EPKG_FATAL, j).
Proof.
  unfold pkg_jobs_try_remote_candidate. destruct (pkgdb_repo_query _ _ _) as [rows|]; [|done].
  induction rows as [|p rows IH]; [done|]. cbn [try_rows]. by rewrite Hno.
Qed.

Lemma guess_declined j pattern :
  pkg_jobs_guess_upgrade_candidate emit sha256 repo_digest_format yesno sqlite_quote fuel j pattern = Some (EPKG_FATAL, j).
Proof.
  unfold pkg_jobs_guess_upgrade_candidate. destruct (after_slash pattern) as [pos|]; cbn [default from_option id];
    rewrite ?try_remote_declined; cbn [mbind option_bind]; (destruct (Nat.eqb _ _); [done|]);
    rewrite !try_remote_declined; cbn [mbind option_bind]; by rewrite !try_remote_declined.
Qed.

Lemma get_local_ok j uid flag : asking j -> exists r, pkg_jobs_universe_get_local j uid flag = (j, r) /\
  forall p, r = Some p -> known emit C p /\ is_local p = true /\ uid_of p = Some uid.
Proof.
  intros Ha. pose proof (proj1 (as_ready _ Ha)) as Hs. unfold pkg_jobs_universe_get_local.
  destruct (known_item (j_universe j) uid true) as [[i p]|] eqn:Ek.
  - unfold known_item in Ek. destruct (head_item (j_universe j) uid) as [k|] eqn:Eh; [|done]. cbn in Ek.
    destruct (pkg_of (j_universe j) k) as [q|] eqn:Eq; [|done]. cbn in Ek. destruct (is_local q) eqn:El; [|done].
    injection Ek as -> ->. pose proof (sd_known _ _ _ Hs _ _ Eq) as Hk. unfold load_item. rewrite Hloaded by done.
    rewrite set_item_same by done. exists (Some p). split; [by destruct j|]. intros p' [= <-]. split_and!; [done|done|].
    destruct (head_item_pkg emit _ uid i (sd_wf _ _ _ Hs) Eh) as (q & Hq & Hu). congruence.
  - eexists. split; [done|]. intros p Hp. destruct (query_head emit C Hdb uid _ p Hp) as (? & ? & ?). done.
Qed.

(** A row that may be offered to the universe. *)
Definition candidate (force : bool) (p : pkg) : Prop :=
  known emit C p /\ is_local p = false /\ (force = true -> ~ installed_again p).

Lemma process_candidates_ok force rows : forall j rc found, asking j -> Forall (candidate force) rows ->
  exists rc' found' j', process_candidates emit sha256 repo_digest_format fuel j force rc found rows = Some (rc', found', j') /\
    asking j' /\ advances (negb force) j j' /\
    (rows = [] /\ rc' = rc /\ found' = found \/ rc' = EPKG_FATAL \/
     (rc' = EPKG_INSTALLED \/ rc' = EPKG_OK /\ found' = true /\ Exists (asked_for j') rows) /\ Forall (offered j') rows).
Proof.
  induction rows as [|p rows IH]; intros j rc found Ha Hrows.
  { exists rc, found, j. split_and!; [done|done|apply progress_refl|by left]. }
  apply Forall_cons in Hrows as [(Hk & Hl & Hf) Hrows]. cbn [process_candidates].
  destruct (process_remote_ok j p force Ha Hk Hl Hf) as (rc1 & j1 & unit & -> & Ha1 & Hav1 & Hrc). cbn [mbind option_bind].
  destruct Hrc as [->|[Hrc Hoff]].
  { exists EPKG_FATAL, found, j1. split_and!; [done|done|done|by right; left]. }
  assert (exists rc' found' j', process_candidates emit sha256 repo_digest_format fuel j1 force rc1
      (match rc1 with EPKG_OK => true | _ => found end) rows = Some (rc', found', j') /\
    asking j' /\ advances (negb force) j1 j' /\
    (rows = [] /\ rc' = rc1 /\ found' = (match rc1 with EPKG_OK => true | _ => found end) \/ rc' = EPKG_FATAL \/
     (rc' = EPKG_INSTALLED \/ rc' = EPKG_OK /\ found' = true /\ Exists (asked_for j') rows) /\ Forall (offered j') rows))
    as (rc' & found' & j' & H & Ha' & Hav & Hres) by (by apply IH).
  exists rc', found', j'. split_and!; [by destruct Hrc as [[-> _]|[-> _]]|done|by eapply advances_trans|].
  destruct Hres as [(-> & -> & ->)|[?|[Hrc' Hall]]]; [|by right; left|].
  - right. right. split; [|apply Forall_singleton; by eapply offered_advances].
    destruct Hrc as [[-> _]|[-> Has]]; [by left|right]. split_and!; [done|done|]. apply Exists_cons. left. by eapply asked_for_advances.
  - right. right. split; [|constructor; [by eapply offered_advances|done]].
    destruct Hrc' as [?|(? & ? & ?)]; [by left|right]. split_and!; [done|done|by apply Exists_cons; right].
Qed.

Lemma universe_process_step j p : asking j -> known emit C p ->
  exists rc j', pkg_jobs_universe_process emit sha256 repo_digest_format fuel j p = Some (rc, j') /\ asking j' /\ step emit C j j'.
Proof.
  intros Ha Hk. unfold pkg_jobs_universe_process.
  destruct (process_item_spec emit sha256 repo_digest_format C Hdb fuel j p false (as_ready _ Ha) Hk)
    as (rc & j' & i & d & -> & _ & Hst & _). exists rc, j'. split_and!; [done|by eapply asking_step|done].
Qed.

Lemma installed_rdep_ok s rds : forall j, asking j ->
  exists b j', installed_rdep emit sha256 repo_digest_format fuel j rds = Some (b, j') /\ asking j' /\ advances s j j'.
Proof.
  induction rds as [|rd rds IH]; intros j Ha; cbn [installed_rdep].
  { exists false, j. split_and!; [done|done|apply progress_refl]. }
  destruct (get_local_ok j (dep_uid rd) PKG_LOAD_BASIC Ha) as (r & -> & Hr). destruct r as [rp|]; [|by apply IH].
  destruct (Hr rp eq_refl) as (Hk & _). destruct (universe_process_step j rp Ha Hk) as (rc & j' & -> & Ha' & Hst).
  cbn [mbind option_bind]. exists true, j'. split_and!; [done|done|by apply step_advances].
Qed.

Lemma without_candidate_ok s j pattern : asking j ->
  exists rc j', without_candidate emit sha256 repo_digest_format yesno sqlite_quote fuel j (Some pattern) = Some (rc, j') /\
    asking j' /\ advances s j j' /\ (rc = EPKG_FATAL \/ rc = EPKG_END /\ is_Some (ca_installed C !! pattern)).
Proof.
  intros Ha. unfold without_candidate. cbn [mbind option_bind].
  destruct (get_local_ok j pattern (flags_or [PKG_LOAD_BASIC; PKG_LOAD_RDEPS]) Ha) as (r & -> & Hr). destruct r as [p|].
  2:{ exists EPKG_FATAL, j. split_and!; [done|done|apply progress_refl|by left]. }
  destruct (Hr p eq_refl) as (Hk & Hl & Hu). destruct (universe_process_step j p Ha Hk) as (rc & j1 & -> & Ha1 & Hst).
  assert (is_Some (ca_installed C !! pattern)) as Hinst.
  { destruct (kn_ids _ _ _ Hk) as (uid & d & Hu' & _ & _ & Hi). exists d. assert (uid = pattern) as -> by congruence. by apply Hi. }
  cbn [mbind option_bind]. destruct (wf_list_sound p PKG_RDEPS (kn_wf _ _ _ Hk)) as (rds & Hrds & _). rewrite Hrds. cbn [mbind option_bind].
  destruct (installed_rdep_ok s rds j1 Ha1) as (b & j2 & -> & Ha2 & Hav). cbn [mbind option_bind].
  assert (advances s j j2) as Hav2 by (eapply advances_trans; [by apply step_advances|done]).
  destruct b; [exists EPKG_END, j2; split_and!; try done; by right|]. rewrite guess_declined. exists EPKG_FATAL, j2.
  split_and!; try done; by left.
Qed.

Definition rows_of_pattern (pattern : option cstring) (m : match_t) : list pkg := default [] (pkgdb_repo_query pattern m candidate_flags).

Lemma find_upgrade_ok j pattern m : asking j -> is_Some pattern ->
  Forall (candidate (flag_set (j_flags j) PKG_FLAG_FORCE)) (rows_of_pattern pattern m) ->
  exists rc j', pkg_jobs_find_upgrade emit sha256 repo_digest_format yesno sqlite_quote fuel j pattern m = Some (rc, j') /\
    asking j' /\ advances (negb (flag_set (j_flags j) PKG_FLAG_FORCE)) j j' /\
    (rc = EPKG_FATAL \/ (rc = EPKG_END /\ is_Some (pattern ≫= fun pat => ca_installed C !! pat)) \/
     (rc = EPKG_OK /\ Exists (asked_for j') (rows_of_pattern pattern m) \/ rc = EPKG_INSTALLED) /\ Forall (offered j') (rows_of_pattern pattern m)).
Proof.
  intros Ha [pat ->] Hrows. unfold pkg_jobs_find_upgrade. fold (rows_of_pattern (Some pat) m).
  destruct (process_candidates_ok _ _ j EPKG_FATAL false Ha Hrows) as (rc & found & j1 & -> & Ha1 & Hav1 & Hrc).
  cbn [mbind option_bind].
  destruct Hrc as [(Hnil & -> & ->)|[->|[[->|(-> & -> & Hex)] Hall]]].
  - destruct (without_candidate_ok (negb (flag_set (j_flags j) PKG_FLAG_FORCE)) j1 pat Ha1) as (rc & j2 & -> & Ha2 & Hav2 & Hrc).
    exists rc, j2. split_and!; [done|done|by eapply advances_trans|]. destruct Hrc; tauto.
  - destruct found; [exists EPKG_FATAL, j1; split_and!; try done; by left|].
    destruct (without_candidate_ok (negb (flag_set (j_flags j) PKG_FLAG_FORCE)) j1 pat Ha1) as (rc & j2 & -> & Ha2 & Hav2 & Hrc).
    exists rc, j2. split_and!; [done|done|by eapply advances_trans|]. destruct Hrc; tauto.
  - exists EPKG_INSTALLED, j1. split_and!; try done. right. right. split; [by right|done].
  - exists EPKG_OK, j1. split_and!; try done. right. right. split; [by left|done].
Qed.

(** *** Patterns and conflicts *)

(** A pattern names candidates, not a file. *)
Definition names_candidates (force : bool) (jp : job_pattern) : Prop :=
  is_file jp = false /\ is_Some (jp_pattern jp) /\
  Forall (candidate force) (rows_of_pattern (jp_pattern jp) (jp_match jp)).

(** The candidates of a pattern were dealt with, or it is the unique id of an
    installed package that others need. *)
Definition answered (j : pkg_jobs) (jp : job_pattern) : Prop :=
  Forall (offered j) (rows_of_pattern (jp_pattern jp) (jp_match jp)) \/
  is_Some (jp_pattern jp ≫= fun pat => ca_installed C !! pat).

Lemma answered_advances s j j' jp : advances s j j' -> answered j jp -> answered j' jp.
Proof.
  intros Hav [H|H]; [left|by right]. eapply Forall_impl; [exact H|]. intros p. by apply (offered_advances s).
Qed.

Lemma find_remote_pattern_ok j jp : asking j -> names_candidates (flag_set (j_flags j) PKG_FLAG_FORCE) jp ->
  exists rc j' got, pkg_jobs_find_remote_pattern emit sha256 repo_digest_format yesno sqlite_quote pkg_open fuel j jp =
      Some (rc, j', got) /\ asking j' /\ advances (negb (flag_set (j_flags j) PKG_FLAG_FORCE)) j j' /\
    (rc = EPKG_FATAL \/ rc <> EPKG_FATAL /\ got = Some false /\ answered j' jp).
Proof.
  intros Ha (Hf & Hp & Hrows). unfold pkg_jobs_find_remote_pattern. rewrite Hf. cbn [negb].
  destruct (find_upgrade_ok j (jp_pattern jp) (jp_match jp) Ha Hp Hrows) as (rc & j1 & H & Ha1 & Hav & Hrc).
  assert (exists rc j' got, ('(rc, j) ← pkg_jobs_find_upgrade emit sha256 repo_digest_format yesno sqlite_quote fuel j (jp_pattern jp) (jp_match jp);
      Some (rc, j, Some false)) = Some (rc, j', got) /\ asking j' /\ advances (negb (flag_set (j_flags j) PKG_FLAG_FORCE)) j j' /\
    (rc = EPKG_FATAL \/ rc <> EPKG_FATAL /\ got = Some false /\ answered j' jp)) as Hup.
  { rewrite H. cbn [mbind option_bind]. exists rc, j1, (Some false). split_and!; [done|done|done|].
    destruct Hrc as [->|[[-> ?]|[[[-> _]| ->] Hall]]]; [by left|right..]; (split_and!; [done|done|]); [by right|by left|by left]. }
  destruct (j_type j); try exact Hup. destruct (pkg_jobs_check_local_pkg jp); try exact Hup;
    (exists EPKG_FATAL, j, None; split_and!; [done|done|apply progress_refl|by left]).
Qed.

Lemma find_patterns_ok patterns : forall j got, asking j -> Forall (names_candidates (flag_set (j_flags j) PKG_FLAG_FORCE)) patterns ->
  exists rc j' got', find_patterns emit sha256 repo_digest_format yesno sqlite_quote pkg_open fuel j got patterns =
      Some (rc, j', got') /\ asking j' /\ advances (negb (flag_set (j_flags j) PKG_FLAG_FORCE)) j j' /\
    (rc = EPKG_FATAL \/ rc = EPKG_OK /\ (patterns <> [] -> got' = Some false) /\ (patterns = [] -> got' = got) /\
      Forall (answered j') patterns).
Proof.
  induction patterns as [|jp patterns IH]; intros j got Ha Hp; cbn [find_patterns].
  { exists EPKG_OK, j, got. split_and!; [done|done|apply progress_refl|]. right. by split_and!. }
  apply Forall_cons in Hp as [Hjp Hp].
  destruct (find_remote_pattern_ok j jp Ha Hjp) as (rc & j1 & got1 & -> & Ha1 & Hav1 & Hrc). cbn [mbind option_bind].
  destruct (advances_type _ _ _ Hav1) as (_ & Hfl & _).
  destruct Hrc as [->|(Hrc & -> & Hans)].
  { exists EPKG_FATAL, j1, got1. split_and!; [done|done|done|by left]. }
  destruct (IH j1 (Some false) Ha1) as (rc2 & j2 & got2 & H2 & Ha2 & Hav2 & Hres); [by rewrite Hfl|]. rewrite Hfl in Hav2.
  exists rc2, j2, got2. split_and!; [by destruct rc|done|by eapply advances_trans|].
  destruct Hres as [?|(-> & G1 & G2 & Hall)]; [by left|right]. split_and!; [done| |done|].
  - intros _. destruct patterns; [by apply G2|by apply G1].
  - constructor; [by eapply answered_advances|done].
Qed.

(** The automatic flags change nothing that was said. *)
Lemma replaces_same rp p q : same_but_fields p q -> ~ replaces emit rp p -> ~ replaces emit rp q.
Proof.
  intros H Hrep Hr. apply Hrep. destruct H as (x & -> & Hx). assert (same_but_fields p (set_fields p x)) as Hs by (by exists x).
  unfold replaces, pkg_is_locked, same_digest, version_order, other_repository, build_of, pkg_get_string, pkg_get_bool, pkg_get_object in *.
  rewrite (same_vget emit p _ PKG_LOCKED _ _ Hs eq_refl), (same_vget emit p _ PKG_DIGEST _ _ Hs eq_refl),
    (same_vget emit p _ PKG_VERSION _ _ Hs eq_refl), (same_vget emit p _ PKG_ANNOTATIONS _ _ Hs eq_refl),
    (same_vget emit p _ PKG_ARCH _ _ Hs eq_refl) in Hr by done. exact Hr.
Qed.

Lemma stands_in_flagged u u' rp i : flagged u u' -> stands_in u rp i -> stands_in u' rp i.
Proof.
  intros Hf (q & Hq & Hl & Hu). destruct (flagged_same _ _ Hf) as (_ & _ & _ & _ & _ & _ & H & _).
  destruct (H i q Hq) as (q' & Hq' & Hs). exists q'. split_and!; [done|by rewrite (same_local q)|by rewrite (same_uid emit q)].
Qed.

Lemma offered_flagged j u' rp : flagged (j_universe j) u' -> offered j rp -> offered (set_universe j u') rp.
Proof.
  intros Hf. destruct (flagged_same _ _ Hf) as (_ & H2 & _ & _ & _ & _ & H7 & _).
  intros [(i & Hi & Hst)|(i & lp & Hi & Hl & Hu & Hr)].
  - left. exists i. split; [done|by eapply stands_in_flagged].
  - right. destruct (H7 i lp Hi) as (q & Hq & Hs). exists i, q.
    split_and!; [done|by rewrite (same_local lp)|by rewrite (same_uid emit lp)|by eapply replaces_same].
Qed.

Lemma asking_flagged j u' : flagged (j_universe j) u' -> asking j -> asking (set_universe j u').
Proof.
  intros Hf [[Hs Hn] Ht Hst Hnd]. destruct (flagged_same _ _ Hf) as (_ & H2 & _ & _ & _ & _ & H7 & _).
  split; cbn [j_universe set_universe request_add]; [|done| |done].
  - split; [by eapply flagged_sound|]. cbn [j_universe set_universe]. unfold unseen in *. by rewrite H2.
  - intros i Hi. destruct (Hst i Hi) as (p & Hp & Hl). destruct (H7 i p Hp) as (q & Hq & Hsm). exists q.
    split; [done|by rewrite (same_local p)].
Qed.

Lemma asking_solved j n : asking j -> asking (set_solved j n).
Proof. by intros [H1 H2 H3 H4]; split. Qed.

Lemma settled_flagged j u' p : flagged (j_universe j) u' -> settled j p -> settled (set_universe j u') p.
Proof.
  intros Hf. destruct (flagged_same _ _ Hf) as (H1 & _). intros [H|H]; [left|by right].
  intros d Hd. unfold in_universe, pkg_jobs_universe_find in *. cbn [j_universe set_universe]. rewrite H1. by apply H.
Qed.

(** *** The package manager itself *)

Lemma asking_flags j f : asking j -> asking (set_job_flags j f).
Proof. by intros [H1 H2 H3 H4]; split. Qed.

(** The flags that are taken away for a while change nothing. *)
Lemma advances_flags s j f j' : advances s (set_job_flags j f) j' -> advances s j (set_job_flags j' (j_flags j)).
Proof.
  intros [[G1 G2 G3 G4 G5] Hr Hs]. split; [|exact Hr|exact Hs].
  split; [exact G1|exact G2|exact G3|exact G4|]. destruct j, j'. unfold with_requests_of in *. cbn in *. by injection G5 as <- <- <- <- <- <-.
Qed.

Lemma local_pkg_ok j uids : asking j -> exists found, local_pkg j uids = (j, found) /\
  forall uid p, found = Some (uid, p) -> uid ∈ uids /\ known emit C p /\ is_local p = true /\ uid_of p = Some uid.
Proof.
  intros Ha. induction uids as [|uid uids IH]; cbn [local_pkg]; [by exists None|].
  destruct (get_local_ok j uid 0 Ha) as ([p|] & -> & Hp).
  - exists (Some (uid, p)). split; [done|]. intros u q [= <- <-]. split; [by left|by apply Hp].
  - destruct IH as (found & -> & Hf). exists found. split; [done|]. intros u q H. destruct (Hf u q H) as [? ?]. split; [by right|done].
Qed.

(** An upgrade of the installed package manager is requested. *)
Definition updates_itself (j : pkg_jobs) : Prop :=
  exists uid, uid ∈ pkg_uids /\ is_Some (ca_installed C !! uid) /\ Exists (asked_for j) (rows_of_pattern (Some uid) MATCH_EXACT).

Lemma new_pkg_version_ok j : asking j ->
  exists newer j', new_pkg_version emit sha256 repo_digest_format yesno sqlite_quote fuel j = Some (newer, j') /\ asking j' /\
    advances true j j' /\ (newer = true -> updates_itself j').
Proof.
  intros Ha. unfold new_pkg_version. set (f := Z.ldiff _ _).
  assert (flag_set f PKG_FLAG_FORCE = false) as Hf.
  { unfold f, flag_set. apply negb_false_iff, Z.eqb_eq, Z.bits_inj'. intros n _.
    rewrite Z.land_spec, Z.ldiff_spec, Z.lor_spec, Z.bits_0. by destruct (Z.testbit PKG_FLAG_FORCE n); rewrite ?andb_false_r. }
  clearbody f. pose proof (asking_flags j f Ha) as Ha0. destruct (local_pkg_ok _ pkg_uids Ha0) as ([[uid p]|] & -> & Hfound).
  2:{ exists false, (set_job_flags (set_job_flags j f) (j_flags j)). split_and!; [done|by apply asking_flags|apply (advances_flags _ _ f), progress_refl|done]. }
  destruct (Hfound uid p eq_refl) as (Hin & Hk & Hl & Hu). destruct (universe_process_step _ p Ha0 Hk) as (rc & j1 & -> & Ha1 & Hst).
  cbn [mbind option_bind]. pose proof (step_advances true _ _ Hst) as Hav1. destruct (advances_type _ _ _ Hav1) as (_ & Hfl & _).
  cbn [j_flags set_job_flags] in Hfl.
  destruct (find_upgrade_ok j1 (Some uid) MATCH_EXACT Ha1 ltac:(by eexists)) as (rc2 & j2 & -> & Ha2 & Hav2 & Hrc).
  { rewrite Hfl, Hf. unfold rows_of_pattern. destruct (pkgdb_repo_query _ _ _) as [rows|] eqn:E; [|constructor].
    apply Forall_forall. intros q Hq. destruct (dl_repo_query _ _ Hdb _ _ _ q E Hq) as (? & _ & ?). by split_and!. }
  rewrite Hfl, Hf in Hav2. cbn [negb] in Hav2. cbn [mbind option_bind].
  exists (bool_decide (rc2 = EPKG_OK)), (set_job_flags j2 (j_flags j)).
  split_and!; [done|by apply asking_flags|apply (advances_flags _ _ f); eapply advances_trans; [exact Hav1|exact Hav2]|].
  intros ->%bool_decide_eq_true. exists uid. split; [done|]. destruct Hrc as [?|[[? _]|[[[_ Hex]|?] _]]]; try done. split; [|exact Hex].
  destruct (kn_ids _ _ _ Hk) as (u1 & d & Hu1 & _ & _ & Hi). exists d. assert (u1 = uid) as -> by congruence. by apply Hi.
Qed.

(** *** The requests of an installation *)

(** The job as it is when the packages of the command line were taken. *)
Record fresh (j : pkg_jobs) : Prop := mk_fresh {
  fj_universe : j_universe j = pkg_jobs_universe_new;
  fj_add : request_add j = [];
  fj_delete : request_delete j = [];
  fj_jobs : j_jobs j = [];
  fj_solved : j_solved j = 0;
  fj_type : installs j;
  fj_force : flag_set (j_flags j) PKG_FLAG_FORCE = false }.

Lemma fresh_asking j : fresh j -> (size (dom (ca_uid C)) < fuel)%nat -> asking j.
Proof.
  intros [Hu Ha _ _ _ Ht _] Hf. split.
  - unfold ready. rewrite Hu. split.
    + split; [apply wf_universe_new|done|done|done|apply wf_empty|]. intros prs pr H. by apply elem_of_nil in H.
    + eapply Nat.le_lt_trans; [|exact Hf]. apply subseteq_size. intros x. unfold unseen. rewrite elem_of_filter. by intros [_ ?].
  - unfold IS_DELETE. by destruct Ht as [-> | ->].
  - rewrite Ha. intros i Hi. by apply elem_of_nil in Hi.
  - rewrite Ha. constructor.
Qed.

(** A job with all its requests: the solver can take it. *)
Record requested_all (j j' : pkg_jobs) : Prop := mk_requested_all {
  ra_asking : asking j';
  ra_settled : forall i p, pkg_of (j_universe j') i = Some p -> settled j' p;
  ra_job : j_type j' = j_type j /\ j_flags j' = j_flags j /\ request_delete j' = [] /\ j_jobs j' = [] /\ j_solved j' = 1 }.

(** The test for a newer version of the package manager is made. *)
Definition tests_version (j : pkg_jobs) : bool :=
  negb (flag_set (j_flags j) PKG_FLAG_SKIP_INSTALL) && flag_set (j_flags j) PKG_FLAG_PKG_VERSION_TEST.

(** Only the upgrade of the package manager is requested, or every pattern was
    answered. *)
Definition requests_of (j : pkg_jobs) (patterns : list job_pattern) (j' : pkg_jobs) : Prop :=
  tests_version j = true /\ updates_itself j' \/ Forall (answered j') patterns.

Lemma advanced_settled j j' : fresh j -> advances true j j' -> forall i p, pkg_of (j_universe j') i = Some p -> settled j' p.
Proof.
  intros Hf Hav i p Hp. apply (av_settled _ _ _ Hav eq_refl (fj_type _ Hf) i); [|done]. rewrite (fj_universe _ Hf). cbn. lia.
Qed.

(** The requests of the patterns, with all that is done after them. *)
Lemma pattern_requests_ok patterns j j1 : fresh j -> asking j1 -> advances true j j1 -> patterns <> [] ->
  Forall (names_candidates false) patterns ->
  exists rc j', ('(rc, j) ← install_requests emit sha256 repo_digest_format yesno sqlite_quote pkg_open fuel patterns j1;
    match rc with
    | EPKG_OK =>
        '(rc, j) ← pkg_conflicts_request_resolve emit j;
        match rc with
        | EPKG_OK => j ← pkg_jobs_propagate_automatic emit j; Some (EPKG_OK, set_solved j (j_solved j + 1))
        | _ => Some (EPKG_FATAL, j)
        end
    | _ => Some (rc, j)
    end) = Some (rc, j') /\ j_type j' = j_type j /\ j_jobs j' = [] /\
    (rc = EPKG_FATAL \/ rc = EPKG_OK /\ requested_all j j' /\ Forall (answered j') patterns).
Proof.
  intros Hf Ha Hav0 Hne Hp. destruct (advances_type _ _ _ Hav0) as (_ & F2 & _ & _ & F5). pose proof Hf as [_ _ Hdel Hjobs Hsol _ Hfo].
  unfold install_requests. rewrite F5, Hsol. cbn [Z.eqb].
  destruct (find_patterns_ok patterns j1 None Ha) as (rc & j2 & got & H1 & Ha1 & Hav1 & Hrc); [by rewrite F2, Hfo|]. rewrite F2, Hfo in Hav1. cbn [negb] in Hav1.
  pose proof (advances_trans _ _ _ _ Hav0 Hav1) as Hav. destruct (advances_type _ _ _ Hav) as (T1 & T2 & T3 & T4 & T5).
  assert (exists rc', (match patterns with
    | [] => '(candidates, _) ← pkg_jobs_find_install_candidates emit j1;
        each (upgrade_candidate emit sha256 repo_digest_format yesno sqlite_quote fuel) candidates j1
    | _ => '(rc, j, got_local) ← find_patterns emit sha256 repo_digest_format yesno sqlite_quote pkg_open fuel j1 None patterns;
        match rc with
        | EPKG_OK => got_local ← got_local;
            j ← (if got_local : bool then process_requests emit sha256 repo_digest_format fuel j else Some j); Some (EPKG_OK, j)
        | _ => Some (rc, j)
        end
    end) = Some (rc', j2) /\ (rc' = EPKG_FATAL \/ rc' = EPKG_OK /\ Forall (answered j2) patterns)) as (rc' & Hreq & Hres).
  { destruct patterns as [|jp patterns]; [done|]. rewrite H1. cbn [mbind option_bind].
    destruct Hrc as [->|(-> & Hgot & _ & Hans)]; [exists EPKG_FATAL; split; [done|by left]|].
    rewrite (Hgot ltac:(done)). cbn [mbind option_bind]. exists EPKG_OK. split; [done|by right]. }
  rewrite Hreq. cbn [mbind option_bind].
  destruct Hres as [->|(-> & Hans)]; [exists EPKG_FATAL, j2; split_and!; [done|done|by rewrite T4|by left]|].
  rewrite (request_resolve_ok emit j2).
  2:{ apply Ha1. }
  2:{ intros r Hr. destruct (as_stored _ Ha1 (rq_item r)) as (p & Hpi & _); [apply elem_of_map; by exists r|by exists p]. }
  cbn [mbind option_bind]. destruct (propagate_automatic_ok emit j2) as (u3 & Hj3 & _); [apply Ha1|].
  set (j3 := set_universe j2 u3) in Hj3. rewrite Hj3. cbn [mbind option_bind]. destruct (propagate_flagged emit j2 j3 Hj3) as [Hfl Heq].
  eexists EPKG_OK, _. split; [done|]. rewrite Heq.
  split_and!; [exact T1|by rewrite <- Hjobs|right; split_and!; [done| |]].
  - split.
    + apply asking_solved. exact (asking_flagged _ _ Hfl Ha1).
    + intros i q Hq. destruct (flagged_same _ _ Hfl) as (_ & _ & _ & _ & _ & _ & _ & H8).
      destruct (H8 i q Hq) as (p & Hpi & x & -> & _). exact (settled_flagged _ _ _ Hfl (advanced_settled _ _ Hf Hav i p Hpi)).
    + cbn. rewrite T1, T2, T3, T4, T5, Hsol. done.
  - eapply Forall_impl; [exact Hans|]. intros jp [H|H]; [left|by right]. eapply Forall_impl; [exact H|].
    intros p Hoff. exact (offered_flagged _ _ _ Hfl Hoff).
Qed.

Lemma install_requests_ok patterns j : fresh j -> (size (dom (ca_uid C)) < fuel)%nat -> patterns <> [] ->
  Forall (names_candidates false) patterns ->
  exists rc j', jobs_solve_install_upgrade emit sha256 repo_digest_format yesno sqlite_quote pkg_open fuel patterns j = Some (rc, j') /\
    j_type j' = j_type j /\ j_jobs j' = [] /\ (rc = EPKG_FATAL \/ rc = EPKG_OK /\ requested_all j j' /\ requests_of j patterns j').
Proof.
  intros Hf Hfuel Hne Hp. pose proof (fresh_asking j Hf Hfuel) as Ha. unfold jobs_solve_install_upgrade. fold (tests_version j).
  assert (exists newer j1, (if tests_version j then new_pkg_version emit sha256 repo_digest_format yesno sqlite_quote fuel j else Some (false, j)) = Some (newer, j1) /\
    asking j1 /\ advances true j j1 /\ (newer = true -> tests_version j = true /\ updates_itself j1)) as (newer & j1 & -> & Ha1 & Hav & Hnew).
  { destruct (tests_version j); [|exists false, j; split_and!; [done|done|apply progress_refl|done]].
    destruct (new_pkg_version_ok j Ha) as (newer & j1 & H & Ha1 & Hav & Hn). exists newer, j1. split_and!; [done|done|done|]. intros Hn1. split; [done|by apply Hn]. }
  cbn [mbind option_bind]. destruct newer.
  - destruct (advances_type _ _ _ Hav) as (T1 & T2 & T3 & T4 & T5). pose proof Hf as [_ _ Hdel Hjobs Hsol _ _].
    eexists EPKG_OK, _. split; [done|]. cbn [j_type j_jobs set_solved]. split_and!; [done|congruence|right; split_and!; [done| |by left; apply Hnew]].
    split; [by apply asking_solved|exact (advanced_settled _ _ Hf Hav)|]. cbn. rewrite T1, T2, T3, T4, T5, Hsol. done.
  - rewrite (bool_decide_eq_false_2 (patterns = [])) by done. cbn [andb].
    destruct (pattern_requests_ok patterns j j1 Hf Ha1 Hav Hne Hp) as (rc & j' & H & T1 & T2 & Hrc).
    exists rc, j'. split_and!; [exact H|done|done|]. destruct Hrc as [?|(? & ? & ?)]; [by left|right]. split_and!; [done|done|by right].
Qed.
End patterns.
End correct.

(** ** The change of a unique id *)

Section change.
Context (emit : ucl -> cstring) (sha256 : cstring -> list Z)
  (repo_digest_format : cstring -> option pkg_checksum_type_t) `{db : pkgdb} (fuel : nat).

(** The element of the hash that holds a chain is found by its head. *)
Lemma hashed_at_head u uid unit rest : wf_universe emit u -> pkg_jobs_universe_find u uid = Some (unit :: rest) ->
  exists k, hashed_at (u_items u) unit = Some k /\ hash_find (u_items u) uid = Some k /\ hash_get (u_items u) k = Some (unit :: rest).
Proof.
  intros Hw Hf. pose proof (wu_items _ _ Hw) as Hwt. unfold pkg_jobs_universe_find, hash_lookup in Hf.
  destruct (hash_find (u_items u) uid) as [k|] eqn:Ek; [|done]. cbn in Hf. exists k.
  split_and!; [|done|done]. unfold hashed_at. rewrite (UtHash.wf_chain _ Hwt).
  assert (k < length (entries (u_items u)))%nat as Hlt.
  { destruct (hash_find_some _ _ _ Hwt Ek) as (e & He & _). by eapply lookup_lt_Some. }
  pose proof (find_rev_seq (fun k => bool_decide (hash_get (u_items u) k ≫= head = Some unit)) (length (entries (u_items u)))) as Hfr.
  destruct (find _ _) as [k'|].
  - destruct Hfr as [_ Hk'%bool_decide_eq_true]. f_equal.
    destruct (hash_get (u_items u) k') as [c|] eqn:Ec; [|done]. cbn in Hk'.
    rewrite hash_get_values in Ec, Hf. pose proof (wu_nodup emit u Hw) as Hnd. destruct c as [|x c]; [done|].
    injection Hk' as ->. eapply (concat_disjoint _ k' k unit _ _ Hnd Ec Hf); by left.
  - specialize (Hfr k Hlt). cbn beta in Hfr. rewrite Hf in Hfr. cbn in Hfr. by rewrite bool_decide_eq_true_2 in Hfr.
Qed.

(** A chain is moved, or its head appended to another. *)
Lemma move_item_ok u old unit rest new : wf_universe emit u -> pkg_jobs_universe_find u old = Some (unit :: rest) ->
  exists t, move_item (u_items u) unit new = Some t /\
    forall k, hash_lookup t k =
      if decide (k = new) then
        Some (if decide (new = old) then unit :: rest
              else match pkg_jobs_universe_find u new with Some c => c ++ [unit] | None => unit :: rest end)
      else if decide (k = old) then None else pkg_jobs_universe_find u k.
Proof.
  intros Hw Hf. pose proof (wu_items _ _ Hw) as Hwt. destruct (hashed_at_head u old unit rest Hw Hf) as (n & Hat & Hfind & Hget).
  destruct (hash_find_some _ _ _ Hwt Hfind) as (e & He & Hkey). pose proof (lookup_lt_Some _ _ _ He) as Hlt.
  set (N := length (entries (u_items u))) in *.
  assert (seq 0 N = seq 0 n ++ n :: seq (S n) (N - S n)) as Hseq.
  { replace N with (n + S (N - S n))%nat at 1 by lia. by rewrite seq_app. }
  pose proof (wf_linked _ Hwt) as Hl. fold N in Hl. rewrite Hseq in Hl.
  pose proof (linked_delete _ _ _ _ Hl) as Hd. set (t := hash_delete (u_items u) n) in *.
  assert (forall k, has_key (u_items u) k n = bool_decide (k = old)) as Hhk.
  { intros k. unfold has_key. rewrite He, Hkey. apply bool_decide_ext. split; congruence. }
  assert (forall k, hash_lookup t k = if decide (k = old) then None else pkg_jobs_universe_find u k) as Hlook.
  { intros k. unfold t. rewrite (hash_lookup_delete _ _ n _ k Hl), Hhk.
    - case_bool_decide; case_decide; done.
    - rewrite Hhk. intros x Hx ->%bool_decide_eq_true. unfold has_key.
      destruct (entries (u_items u) !! x) as [e'|] eqn:Ex; [|done]. apply bool_decide_eq_false_2. intros Hk.
      assert (x = n) as ->.
      { eapply (NoDup_lookup (keys (u_items u))); [apply Hw| |]; unfold keys; rewrite list_lookup_fmap.
        - rewrite Ex. cbn. by rewrite Hk.
        - rewrite He. cbn. by rewrite Hkey. }
      apply elem_of_app in Hx as [Hx|Hx]; apply elem_of_seq in Hx; lia. }
  unfold move_item. rewrite Hat. cbn [mbind option_bind]. rewrite Hget. cbn [mbind option_bind]. fold t.
  destruct (hash_find t new) as [f|] eqn:Ef.
  - assert (exists c, hash_get t f = Some c /\ new <> old /\ pkg_jobs_universe_find u new = Some c) as (c & Hc & Hne & Hfn).
    { specialize (Hlook new). unfold hash_lookup in Hlook. rewrite Ef in Hlook. cbn in Hlook.
      destruct (hash_get t f) as [c|] eqn:Ec.
      - exists c. case_decide; [done|]. by split_and!.
      - exfalso. rewrite (hash_find_linked _ _ new Hd) in Ef. apply find_some in Ef as [Hin _].
        apply in_rev, list_elem_of_In in Hin. destruct (lookup_lt_is_Some_2 _ f (linked_lt _ _ f Hd Hin)) as [x Hx].
        unfold hash_get in Ec. rewrite Hx in Ec. discriminate Ec. }
    rewrite Hc. cbn [mbind option_bind]. eexists. split; [done|]. intros k. rewrite (decide_False (P := new = old)), Hfn by done.
    unfold hash_lookup. rewrite hash_find_update. fold (hash_lookup t k). destruct (decide (k = new)) as [->|Hk].
    + rewrite Ef. cbn. rewrite hash_get_values, values_update. apply list_lookup_insert_eq.
      rewrite hash_get_values in Hc. by eapply lookup_lt_Some.
    + rewrite <- Hlook. unfold hash_lookup. destruct (hash_find t k) as [g|] eqn:Eg; [|done]. cbn.
      rewrite !hash_get_values, values_update. apply list_lookup_insert_ne. intros ->.
      rewrite (hash_find_linked _ _ new Hd) in Ef. rewrite (hash_find_linked _ _ k Hd) in Eg.
      apply find_some in Ef as [_ E1]. apply find_some in Eg as [_ E2]. unfold has_key in E1, E2.
      destruct (entries t !! g) as [x|]; [|done]. apply bool_decide_eq_true in E1, E2. congruence.
  - eexists. split; [done|]. intros k. rewrite (hash_lookup_add_linked t _ new _ k Hd), Hlook.
    assert (new = old \/ pkg_jobs_universe_find u new = None) as Hnew.
    { specialize (Hlook new). unfold hash_lookup in Hlook. rewrite Ef in Hlook. cbn in Hlook. case_decide; [by left|by right]. }
    destruct (decide (k = new)) as [->|Hk]; [rewrite bool_decide_eq_true_2 by done|by rewrite bool_decide_eq_false_2].
    destruct (decide (new = old)); [done|]. by destruct Hnew as [| ->].
Qed.

(** pkg_jobs_universe_change_uid renames the installed package at the head of
    a chain.  Under the new id the package is found: as the head of the chain it
    had when the id was unknown, else last in the chain of that id.  In that
    case the rest of its old chain is found under no id any more.  The old id is
    unknown afterwards, every other id has the chain it had, and nothing but the
    unique id of the package changes. *)
Theorem change_uid_spec (j : pkg_jobs) (old new : cstring) (unit : nat) (rest : list nat) (p : pkg)
  (Hw : wf_universe emit (j_universe j)) (Hf : pkg_jobs_universe_find (j_universe j) old = Some (unit :: rest))
  (Hp : pkg_of (j_universe j) unit = Some p) (Hne : new <> old) :
  exists j', pkg_jobs_universe_change_uid emit sha256 repo_digest_format fuel j unit new false = Some j' /\
    pkg_jobs_universe_find (j_universe j') new =
      Some (match pkg_jobs_universe_find (j_universe j) new with Some c => c ++ [unit] | None => unit :: rest end) /\
    pkg_jobs_universe_find (j_universe j') old = None /\
    (forall k, k <> new -> k <> old -> pkg_jobs_universe_find (j_universe j') k = pkg_jobs_universe_find (j_universe j) k) /\
    (pkg_jobs_universe_find (j_universe j) new <> None ->
       forall i k chain, i ∈ rest -> pkg_jobs_universe_find (j_universe j') k = Some chain -> i ∉ chain) /\
    pkg_of (j_universe j') unit = Some (set_fields p (<[str "uniqueid" := UString new]> (fields p))) /\
    (forall i, i <> unit -> pkg_of (j_universe j') i = pkg_of (j_universe j) i) /\
    uid_replaces (j_universe j') = mk_replace new old :: uid_replaces (j_universe j).
Proof.
  destruct (chain_member emit _ old _ unit Hw Hf ltac:(by left)) as (p' & Hp' & Hu). assert (p' = p) as -> by congruence.
  unfold pkg_jobs_universe_change_uid. rewrite Hp. cbn [mbind option_bind]. rewrite Hu. cbn [mbind option_bind].
  destruct (move_item_ok _ old unit rest new Hw Hf) as (t & -> & Hlook). cbn [mbind option_bind]. rewrite Hp. cbn [mbind option_bind].
  change (pkg_set p PKG_UNIQUEID (ArgString (Some new))) with
    (Some (EPKG_OK, set_fields p (<[str "uniqueid" := UString new]> (fields p)))).
  cbn [mbind option_bind]. eexists. split; [done|]. cbn [j_universe set_universe].
  rewrite (decide_False (P := new = old)) in Hlook by done.
  assert (forall k, pkg_jobs_universe_find (set_item_pkg (mk_univ (u_store (j_universe j)) t (u_seen (j_universe j))
    (u_provides (j_universe j)) (mk_replace new old :: uid_replaces (j_universe j)) (nitems (j_universe j))) unit
    (set_fields p (<[str "uniqueid" := UString new]> (fields p)))) k = hash_lookup t k) as Hfind by done.
  split_and!; [| | | | | |done]; repeat setoid_rewrite Hfind.
  - rewrite Hlook. by rewrite decide_True.
  - rewrite Hlook. by rewrite decide_False, decide_True.
  - intros k H1 H2. rewrite Hlook. by rewrite !decide_False.
  - intros Hnew i k chain Hi. rewrite Hlook. destruct (pkg_jobs_universe_find (j_universe j) new) as [c|] eqn:Ec; [|done].
    assert (i ∈ unit :: rest) as Hi' by (by right).
    destruct (chain_member emit _ old _ i Hw Hf Hi') as (q & Hq & Hqu).
    assert (forall uid chain', pkg_jobs_universe_find (j_universe j) uid = Some chain' -> uid <> old -> i ∉ chain') as Hother.
    { intros uid chain' Hfu Hneq Hin. destruct (chain_member emit _ uid _ i Hw Hfu Hin) as (q' & Hq' & Hqu'). congruence. }
    case_decide; [intros [= <-]; rewrite elem_of_app, list_elem_of_singleton; intros [Hin|Heq]|case_decide; [done|]].
    + by eapply Hother.
    + subst i. pose proof (chain_nodup emit _ _ _ Hw Hf) as Hnd. by apply NoDup_cons in Hnd as [? _].
    + intros Hk. by eapply Hother.
  - rewrite pkg_of_set_item, decide_True by done. unfold pkg_of. cbn [u_store]. unfold pkg_of in Hp.
    by destruct (u_store (j_universe j) !! unit).
  - intros i Hi. by rewrite pkg_of_set_item, decide_False.
Qed.
End change.

(** *** Packages that are given to the universe for nothing *)

Section nothing.
Context (emit : ucl -> cstring) (sha256 : cstring -> list Z)
  (repo_digest_format : cstring -> option pkg_checksum_type_t) `{db : pkgdb}
  (C : catalogue) (Hdb : pkgdb_laws emit C) (fuel : nat).

(** A candidate that is forced in beside an installed package it does not
    replace brings nothing along: it is added before it is processed, so its
    digest has been seen, and neither its dependencies nor its conflicts and
    libraries are looked for.  It is requested all the same. *)
Theorem forced_brings_nothing (j : pkg_jobs) (rp lp : pkg) (uid d : cstring) (k : nat) (Ha : asking emit C fuel j)
  (Hk : known emit C rp) (Hl : is_local rp = false) (Hu : pkg_uid emit rp = Some uid) (Hd : pkg_digest emit rp = Some d)
  (Hnew : pkg_jobs_universe_seen (j_universe j) d = None) (Hf : pkg_jobs_universe_find (j_universe j) uid = Some [k])
  (Hlp : pkg_of (j_universe j) k = Some lp) (Hloc : is_local lp = true) (Hrep : ~ replaces emit rp lp) :
  exists j' i, pkg_jobs_process_remote_pkg emit sha256 repo_digest_format fuel j rp true = Some (EPKG_OK, j', Some i) /\
    i ∈ map rq_item (request_add j') /\
    forall other, pkg_jobs_universe_find (j_universe j') other =
      if decide (other = uid) then Some [k; i] else pkg_jobs_universe_find (j_universe j) other.
Proof.
  pose proof (proj1 (as_ready _ _ _ _ Ha)) as Hs. unfold pkg_jobs_process_remote_pkg. rewrite Hd. cbn [mbind option_bind].
  rewrite Hd. cbn [mbind option_bind]. rewrite Hnew, Hu. cbn [mbind option_bind]. unfold new_digest, known_chain. rewrite Hf.
  cbn [mbind option_bind scan_known]. rewrite Hlp. cbn [mbind option_bind].
  destruct (known_upgrade emit C rp lp Hk (sd_known _ _ _ Hs _ _ Hlp) Hl) as (needed & rp' & -> & Hn & _ & _ & _ & _ & Hsame).
  cbn [mbind option_bind]. destruct needed; [destruct Hrep; by apply Hn|]. rewrite (Hsame eq_refl), Hloc. cbn [mbind option_bind].
  destruct (force_inherit_ok emit sha256 repo_digest_format C fuel j rp Ha Hk Hl) as (j1 & i & Hadd & _ & Hi & Hinh).
  assert (j1 = set_universe j (insert_item (j_universe j) rp uid d) /\ i = length (u_store (j_universe j))) as [Hj1 Hil].
  { unfold force_add, pkg_jobs_universe_add_pkg in Hadd. rewrite Hd in Hadd. cbn [mbind option_bind] in Hadd. rewrite Hd in Hadd.
    cbn [mbind option_bind] in Hadd. rewrite Hnew, Hu in Hadd. cbn [mbind option_bind] in Hadd. by injection Hadd as <- <-. }
  rewrite Hadd. cbn [mbind option_bind]. destruct (Hinh i Hi) as (j2 & -> & Ha2 & _ & Hit & q & Hq & Hlq & _). cbn [mbind option_bind].
  destruct (add_req_ok emit C fuel false j2 i q Ha2 Hq Hlq) as (j3 & -> & _ & _ & Hu3 & Hin). cbn [mbind option_bind].
  exists j3, i. split_and!; [done|done|]. intros other. rewrite Hu3. unfold pkg_jobs_universe_find. rewrite Hit, Hj1. cbn [j_universe set_universe].
  change (pkg_jobs_universe_find (insert_item (j_universe j) rp uid d) other =
    if decide (other = uid) then Some [k; i] else pkg_jobs_universe_find (j_universe j) other).
  rewrite (insert_find emit) by apply Hs. case_decide; [|done]. by rewrite Hf, Hil.
Qed.

(** Giving the requested packages to the universe once more changes nothing,
    though it is what is to find the dependencies of the files of the command
    line, and new conflicts when a job is solved again: all have been seen. *)
Theorem process_requests_nothing (j : pkg_jobs) (Ha : asking emit C fuel j) :
  process_requests emit sha256 repo_digest_format fuel j = Some j.
Proof.
  unfold process_requests. pose proof (as_stored _ _ _ _ Ha) as Hst. induction (map rq_item (request_add j)) as [|i l IH]; [done|].
  apply elem_cons_forall in Hst as [(p & Hp & _) Hst]. cbn [fold_opt]. rewrite Hp. cbn [mbind option_bind].
  pose proof (proj1 (as_ready _ _ _ _ Ha)) as Hs. destruct (kn_ids _ _ _ (sd_known _ _ _ Hs _ _ Hp)) as (uid & d & _ & Hd & _).
  destruct (sd_seen _ _ _ Hs _ _ _ Hp Hd) as [x Hx]. unfold pkg_jobs_universe_process.
  rewrite (process_item_seen emit sha256 repo_digest_format C fuel j p false d x Ha Hd Hx). cbn [mbind option_bind]. by apply IH.
Qed.
End nothing.

(** ** Concrete candidates *)

(** Package app takes the unique id of lib, which is in the universe. *)
Lemma change_uid_spec_witness :
  exists j', pkg_jobs_universe_change_uid (db := sample_db []) no_emit (fun _ => []) (fun _ => None) 3 reason_jobs 1
      (str "lib~x/lib") false = Some j' /\
    pkg_jobs_universe_find (j_universe j') (str "lib~x/lib") = Some [0%nat; 1%nat] /\
    pkg_jobs_universe_find (j_universe j') (str "app~x/app") = None.
Proof.
  assert (pkg_of (j_universe reason_jobs) 1 = Some dependent_app) as Hp by (vm_compute; reflexivity).
  destruct (change_uid_spec (db := sample_db []) no_emit (fun _ => []) (fun _ => None) 3 reason_jobs (str "app~x/app") (str "lib~x/lib")
    1 [] dependent_app reason_universe_wf ltac:(vm_compute; reflexivity) Hp ltac:(discriminate)) as (j' & H & Hn & Ho & _).
  exists j'. split; [exact H|]. split; [|exact Ho]. rewrite Hn. vm_compute. reflexivity.
Defined.

(** *** Packages that are given for nothing, concretely *)

(** An older bar that needs foo is forced in beside the one that is installed.
    The database holds nothing more. *)
Definition old_bar : pkg := sample_row PKG_REMOTE "bar" "0.9" "d_bar2" [OpDep (str "foo") (str "x/foo") (str "1.0") false].

Definition bare_db : pkgdb := mk_pkgdb (fun _ _ _ => Some []) (fun _ _ _ => Some []) (fun _ _ => Some []) (fun p _ => p).

Definition bar_catalogue : catalogue := mk_catalogue
  (<[str "d_bar0" := str "bar~x/bar"]> (<[str "d_bar2" := str "bar~x/bar"]> ∅)) (<[str "bar~x/bar" := str "d_bar0"]> ∅).

Definition installed_bar : pkg_jobs :=
  set_universe empty_jobs (insert_item (j_universe empty_jobs) sample_bar (str "bar~x/bar") (str "d_bar0")).

Lemma bare_laws : pkgdb_laws (db := bare_db) no_emit bar_catalogue.
Proof.
  split; [| | |done].
  - intros uid flag rows p [= <-] H. by apply elem_of_nil in H.
  - intros uid flag rows p [= <-] H. by apply elem_of_nil in H.
  - intros lib flag rows [= <-]. by split.
Qed.

Lemma bar_known p : p ∈ [sample_bar; old_bar] -> known no_emit bar_catalogue p.
Proof.
  intros H. repeat (apply elem_of_cons in H as [->|H]); [..|by apply elem_of_nil in H];
    (apply known_sample_row;
     [repeat constructor
     |eexists _, _; split_and!; [vm_compute; reflexivity|vm_compute; reflexivity|vm_compute; reflexivity
       |vm_compute; intros ?; first [discriminate|reflexivity]]
     |vm_compute; reflexivity]).
Qed.

Lemma installed_bar_asking : asking no_emit bar_catalogue 5 installed_bar.
Proof.
  assert (sound no_emit bar_catalogue pkg_jobs_universe_new) as Hs.
  { split; [apply wf_universe_new|done|done|done|apply wf_empty|]. intros prs pr H. by apply elem_of_nil in H. }
  destruct (insert_sound no_emit bar_catalogue empty_jobs sample_bar (str "bar~x/bar") (str "d_bar0") Hs (bar_known _ ltac:(left))
    ltac:(vm_compute; reflexivity) ltac:(vm_compute; reflexivity) ltac:(vm_compute; reflexivity)) as (_ & Hs' & _ & _ & _ & Hn).
  split; [split; [exact Hs'|]|done| |constructor].
  - eapply Nat.lt_trans; [exact Hn|]. vm_compute. lia.
  - intros i H. by apply elem_of_nil in H.
Qed.

Lemma old_bar_no_replacement : ~ replaces no_emit old_bar sample_bar.
Proof.
  assert (version_order no_emit sample_bar old_bar = Some 1) as Hv by (vm_compute; reflexivity).
  intros (_ & _ & [H|[H _]]); rewrite Hv in H; discriminate H.
Qed.

(** Package foo, which the older bar needs, is not in the universe. *)
Lemma forced_brings_nothing_witness :
  exists j' i, pkg_jobs_process_remote_pkg (db := bare_db) no_emit (fun _ => []) (fun _ => None) 5 installed_bar old_bar true =
      Some (EPKG_OK, j', Some i) /\
    i ∈ map rq_item (request_add j') /\
    pkg_jobs_universe_find (j_universe j') (str "foo~x/foo") = None.
Proof.
  destruct (forced_brings_nothing (db := bare_db) no_emit (fun _ => []) (fun _ => None) bar_catalogue 5 installed_bar old_bar
    sample_bar (str "bar~x/bar") (str "d_bar2") 0 installed_bar_asking (bar_known _ ltac:(right; left))
    ltac:(vm_compute; reflexivity) ltac:(vm_compute; reflexivity) ltac:(vm_compute; reflexivity) ltac:(vm_compute; reflexivity)
    ltac:(vm_compute; reflexivity) ltac:(vm_compute; reflexivity) ltac:(vm_compute; reflexivity) old_bar_no_replacement)
    as (j' & i & H & Hin & Hf).
  exists j', i. split; [exact H|]. split; [exact Hin|]. rewrite Hf. vm_compute. reflexivity.
Defined.

(** The older bar is in the universe and requested; foo is still not brought in. *)
Definition requested_bar : pkg_jobs :=
  set_request_add (set_universe installed_bar (insert_item (j_universe installed_bar) old_bar (str "bar~x/bar") (str "d_bar2")))
    [mk_req 1 false].

Lemma requested_bar_asking : asking no_emit bar_catalogue 5 requested_bar.
Proof.
  destruct (insert_sound no_emit bar_catalogue installed_bar old_bar (str "bar~x/bar") (str "d_bar2")
    (proj1 (as_ready _ _ _ _ installed_bar_asking)) (bar_known _ ltac:(right; left))
    ltac:(vm_compute; reflexivity) ltac:(vm_compute; reflexivity) ltac:(vm_compute; reflexivity)) as (_ & Hs & Hp & _ & _ & Hn).
  split; [split; [exact Hs|]|done| |apply NoDup_singleton].
  - eapply Nat.lt_trans; [exact Hn|]. vm_compute. lia.
  - intros i Hi. apply list_elem_of_singleton in Hi as ->. exists old_bar. split; [exact Hp|]. vm_compute. reflexivity.
Qed.

Lemma process_requests_nothing_witness :
  process_requests (db := sample_db [("libz.so", sample_zlib)]) no_emit (fun _ => []) (fun _ => None) 5 requested_bar = Some requested_bar /\
  pkg_jobs_universe_find (j_universe requested_bar) (str "foo~x/foo") = None /\
  pkg_deps old_bar = Some [new_dep (str "foo") (str "x/foo") (str "1.0") false].
Proof.
  split; [|split; vm_compute; reflexivity].
  exact (process_requests_nothing (db := sample_db [("libz.so", sample_zlib)]) no_emit (fun _ => []) (fun _ => None) bar_catalogue 5
    requested_bar requested_bar_asking).
Defined.

(** Without a pattern, a package of no repository is looked for by a null
    unique id. *)
Example find_upgrade_null :
  pkg_jobs_find_upgrade (db := bare_db) no_emit (fun _ => []) (fun _ => None) (fun _ => false) id 5 installed_bar None MATCH_ALL = None.
Proof. vm_compute. reflexivity. Qed.
