(* ===== verification/Installation.v ===== *)
(** * From patterns to ordered installations

    The parts of an installation or upgrade, composed: the candidates of the
    patterns enter the universe and are requested ([Install]), the solver
    selects packages ([Solve]) and the jobs are put in order ([Schedule]). *)
From Stdlib Require Import Permutation.
From S2P Require Import Prelude CString CSort UtHash Pkg Checksum Universe Upgrade UniverseBuild Solve Schedule Jobs Conflicts Install.

(** ** What a list of jobs does, whatever its order *)

Definition added (a : pkg_solved) : list nat :=
  match s_type a with PKG_SOLVED_INSTALL | PKG_SOLVED_UPGRADE => [s_item0 a] | _ => [] end.

Definition removed (a : pkg_solved) : list nat :=
  match s_type a with
  | PKG_SOLVED_DELETE => [s_item0 a]
  | PKG_SOLVED_UPGRADE => option_list (s_item1 a)
  | _ => []
  end.

Definition some_job (f : pkg_solved -> list nat) (l : list pkg_solved) (i : nat) : Prop := exists a, a ∈ l /\ i ∈ f a.

Lemma some_job_cons f a l i : some_job f (a :: l) i <-> i ∈ f a \/ some_job f l i.
Proof.
  unfold some_job. split; [intros (b & [->|Hb]%elem_of_cons & Hi); [by left|right; by exists b]|].
  intros [Hi|(b & Hb & Hi)]; [exists a|exists b]; (split; [by (left + right)|done]).
Qed.

Lemma some_job_perm f l l' i : l ≡ₚ l' -> some_job f l i <-> some_job f l' i.
Proof. intros Hp. unfold some_job. by setoid_rewrite Hp. Qed.

Lemma elem_apply_job a s i : (i ∈ added a -> i ∉ removed a) -> i ∈ apply_job s a <-> i ∈ added a \/ i ∈ s /\ i ∉ removed a.
Proof.
  unfold apply_job, added, removed. destruct (s_type a), (s_item1 a) as [d|]; try change (option_list (Some d)) with [d]; try change (option_list None) with (@nil nat);
    rewrite ?elem_of_union, ?elem_of_difference, ?elem_of_singleton, ?list_elem_of_singleton, ?elem_of_nil, ?elem_of_empty; tauto.
Qed.

(** When no package is both added and removed the order does not matter. *)
Lemma elem_apply_jobs l s i : (some_job added l i -> ~ some_job removed l i) ->
  i ∈ apply_jobs l s <-> some_job added l i \/ i ∈ s /\ ~ some_job removed l i.
Proof.
  revert s. induction l as [|a l IH]; intros s Hd.
  { unfold some_job. cbn. split; [intros Hi; right; split; [done|]|intros [H|[H _]]; [|done]];
      [intros (a & Ha & _)|destruct H as (a & Ha & _)]; by apply elem_of_nil in Ha. }
  change (apply_jobs (a :: l) s) with (apply_jobs l (apply_job s a)). rewrite !some_job_cons in *.
  rewrite IH by tauto. rewrite elem_apply_job by tauto. destruct (decide (i ∈ removed a)); tauto.
Qed.

Lemma splits_some l l' i : splits l l' -> (some_job added l' i <-> some_job added l i) /\ (some_job removed l' i <-> some_job removed l i).
Proof.
  induction 1 as [l|l k a i1 l' Hk Ht H1 _ _ [IHa IHr]]; [done|]. rewrite IHa, IHr. clear IHa IHr.
  assert (forall f, f (mark_deleted a) = f a -> f (upgrade_remove i1) = [] ->
    some_job f (<[k := mark_deleted a]> l ++ [upgrade_remove i1]) i <-> some_job f l i) as H.
  { intros f Hm Hu. unfold some_job. setoid_rewrite elem_of_app. setoid_rewrite list_elem_of_singleton. split.
    - intros (b & [Hb| ->] & Hi); [|rewrite Hu in Hi; by apply elem_of_nil in Hi].
      apply list_elem_of_lookup_1 in Hb as [n Hn]. apply list_lookup_insert_Some in Hn as [(_ & <- & _)|[_ Hn]].
      + exists a. split; [by eapply list_elem_of_lookup_2|by rewrite <- Hm].
      + exists b. split; [by eapply list_elem_of_lookup_2|done].
    - intros (b & Hb & Hi). apply list_elem_of_lookup_1 in Hb as [n Hn]. destruct (decide (n = k)) as [->|Hne].
      + assert (b = a) as -> by congruence. exists (mark_deleted a). split; [left|by rewrite Hm].
        eapply list_elem_of_lookup_2, list_lookup_insert_eq. by eapply lookup_lt_Some.
      + exists b. split; [left|done]. eapply list_elem_of_lookup_2. by rewrite list_lookup_insert_ne. }
  split; apply H; unfold added, removed, mark_deleted, upgrade_remove; cbn; done.
Qed.

(** ** The jobs of a selection *)

(** A package that is installed names conflicts with packages that have a
    candidate.  (The completion of the universe does not see to that.) *)
Definition conflicts_known (u : universe) : Prop :=
  forall i p c, pkg_of u i = Some p -> is_local p = true -> c ∈ values (conflicts p) ->
    exists chain, pkg_jobs_universe_find u (c_uniqueid c) = Some chain /\
      exists k q, k ∈ chain /\ pkg_of u k = Some q /\ is_local q = false.

Lemma chain_jobs_elem t add del a : a ∈ chain_jobs t add del ->
  (s_type a = PKG_SOLVED_DELETE /\ s_item1 a = None /\ s_item0 a ∈ del) \/
  (s_item0 a ∈ add /\ (s_type a = install_type t /\ s_item1 a = None \/
     s_type a = PKG_SOLVED_UPGRADE /\ exists d, s_item1 a = Some d /\ d ∈ del)).
Proof.
  assert (forall ds, a ∈ map (fun d => mk_solved d None PKG_SOLVED_DELETE false) ds ->
    s_type a = PKG_SOLVED_DELETE /\ s_item1 a = None /\ s_item0 a ∈ ds) as Hdel by (intros ds (d & -> & Hd)%elem_of_map; done).
  unfold chain_jobs. destruct add as [|x [|y add]]; [intros Ha; left; by apply Hdel| |intros Ha; by apply elem_of_nil in Ha].
  destruct (last del) as [d|] eqn:El.
  - intros [->|Ha]%elem_of_cons; [right; split; [by left|right; split; [done|]]|].
    + exists d. split; [done|]. apply last_Some in El as [l ->]. rewrite elem_of_app, list_elem_of_singleton. by right.
    + left. apply Hdel in Ha as (H1 & H2 & H3). split_and!; [done|done|]. apply list_elem_of_In, filter_In in H3 as [H3 _].
      by apply list_elem_of_In.
  - intros ->%list_elem_of_singleton. right. split; [by left|by left].
Qed.

Lemma solved_job_cases emit j sel a : wf_universe emit (j_universe j) -> j_type j <> PKG_JOBS_FETCH -> a ∈ solved_jobs j sel ->
  let u := j_universe j in
  is_Some (pkg_of u (s_item0 a)) /\
  (s_type a = PKG_SOLVED_DELETE /\ s_item1 a = None /\ local_item u (s_item0 a) = true \/
   local_item u (s_item0 a) = false /\ (s_type a = PKG_SOLVED_INSTALL /\ s_item1 a = None \/
     s_type a = PKG_SOLVED_UPGRADE /\ exists d, s_item1 a = Some d /\ local_item u d = true)).
Proof.
  intros Hw Ht Ha u. unfold solved_jobs in Ha. apply list_elem_of_In, in_concat in Ha as (l & Hl & Ha).
  apply in_map_iff in Hl as (chain & <- & Hc). apply list_elem_of_In in Ha, Hc.
  apply (chain_in_values emit) in Hc as [uid Hf]; [|done].
  assert (forall f i, i ∈ List.filter f chain -> i ∈ chain /\ f i = true) as Hin.
  { intros f i Hi. apply list_elem_of_In, filter_In in Hi as [Hi ?]. split; [by apply list_elem_of_In|done]. }
  assert (forall i, i ∈ chain -> is_Some (pkg_of u i)) as Hsome.
  { intros i Hi. destruct (chain_member emit _ uid chain i Hw Hf Hi) as (p & Hp & _). by exists p. }
  assert (install_type (j_type j) = PKG_SOLVED_INSTALL) as Hit by (revert Ht; by destruct (j_type j)).
  destruct (chain_jobs_elem _ _ _ _ Ha) as [(H1 & H2 & [H3 H4%andb_true_iff]%Hin)|([H3 H4%andb_true_iff]%Hin & H5)].
  - split; [by apply Hsome|]. left. split_and!; [done|done|apply H4].
  - destruct H4 as [_ H4%negb_true_iff]. split; [by apply Hsome|]. right. split; [done|]. rewrite Hit in H5.
    destruct H5 as [?|(H5 & d & H6 & [_ [_ H7]%andb_true_iff]%Hin)]; [by left|]. right. split; [done|]. by exists d.
Qed.

Lemma local_item_some u i : local_item u i = true -> exists p, pkg_of u i = Some p /\ is_local p = true.
Proof. unfold local_item. destruct (pkg_of u i) as [p|]; [|done]. by exists p. Qed.

Lemma solved_jobs_ok emit j sel : wf_universe emit (j_universe j) -> j_type j <> PKG_JOBS_FETCH -> conflicts_known (j_universe j) ->
  Forall (job_ok (j_universe j)) (solved_jobs j sel).
Proof.
  intros Hw Ht Hck. apply Forall_forall. intros a Ha.
  destruct (solved_job_cases emit j sel a Hw Ht Ha) as [H0 [(H1 & H2 & _)|(_ & [(H1 & H2)|(H1 & d & H2 & H3)])]].
  - split_and!; [done|by rewrite H2|congruence].
  - split_and!; [done|by rewrite H2|congruence].
  - apply local_item_some in H3 as (p & Hp & Hl). split_and!; [done|rewrite H2; intros i [= <-]; by exists p|].
    intros _. exists d, p. split_and!; [done|done|]. intros c Hc. by apply (Hck d p).
Qed.

(** The jobs of a selection may be put in any order, with upgrades split. *)
Lemma solved_jobs_any_order emit j sel l l' s i : wf_universe emit (j_universe j) -> j_type j <> PKG_JOBS_FETCH ->
  splits (solved_jobs j sel) l -> l' ≡ₚ l -> i ∈ apply_jobs l' s <-> i ∈ apply_jobs (solved_jobs j sel) s.
Proof.
  intros Hw Ht Hs Hp. destruct (splits_some _ _ i Hs) as [Hsa Hsr].
  assert (some_job added (solved_jobs j sel) i -> ~ some_job removed (solved_jobs j sel) i) as Hd.
  { assert (some_job added (solved_jobs j sel) i -> local_item (j_universe j) i = false) as H1.
    { intros (a & Ha & Hi). destruct (solved_job_cases emit j sel a Hw Ht Ha) as [_ [(H1 & _)|(H0 & [(H1 & _)|(H1 & _)])]];
        unfold added in Hi; rewrite H1 in Hi; [by apply elem_of_nil in Hi|apply list_elem_of_singleton in Hi; congruence..]. }
    assert (some_job removed (solved_jobs j sel) i -> local_item (j_universe j) i = true) as H2.
    { intros (a & Ha & Hi). destruct (solved_job_cases emit j sel a Hw Ht Ha) as [_ [(H2 & _ & H3)|(_ & [(H2 & _)|(H2 & d & Hd & H3)])]];
        unfold removed in Hi; rewrite H2 in Hi; [apply list_elem_of_singleton in Hi; congruence|by apply elem_of_nil in Hi|].
      rewrite Hd in Hi. apply list_elem_of_singleton in Hi. congruence. }
    intros Ha Hr. rewrite H1 in H2 by done. by specialize (H2 Hr). }
  rewrite !elem_apply_jobs.
  - rewrite !(some_job_perm _ _ _ i Hp), Hsa, Hsr. done.
  - done.
  - rewrite !(some_job_perm _ _ _ i Hp), Hsa, Hsr. done.
Qed.

(** ** The whole installation *)

Section installation.
Context (emit : ucl -> cstring) (sha256 : cstring -> list Z)
  (repo_digest_format : cstring -> option pkg_checksum_type_t) `{db : pkgdb}
  (C : catalogue) (Hdb : pkgdb_laws emit C)
  (yesno : cstring -> bool) (sqlite_quote : cstring -> cstring) (pkg_open : cstring -> option pkg)
  (Hno : forall question, yesno question = false)
  (Hloaded : forall p flag, known emit C p -> is_local p = true -> pkgdb_ensure_loaded p flag = p)
  (picosat_sat : list (list Z) -> list Z -> list phase -> sat_result) (Hps : picosat_ok picosat_sat)
  (answers : nat -> nat -> bool) (fuel : nat).

(** The item [k] is a selected package of this unique id. *)
Definition selected_as (u : universe) (sel : nat -> bool) (uid : cstring) : Prop :=
  exists k q, sel k = true /\ pkg_of u k = Some q /\ pkg_uid emit q = Some uid.

(** A selection of the items of [u] that can be installed: what is selected has
    each dependency selected that is in the universe, all of them are there
    unless no database knows one of them, and it conflicts with nothing that is
    selected. *)
Record installable (j : pkg_jobs) (sel : nat -> bool) : Prop := mk_installable {
  in_deps : forall i p d, sel i = true -> pkg_of (j_universe j) i = Some p -> d ∈ values (deps p) ->
    in_universe (j_universe j) (dep_uid d) -> selected_as (j_universe j) sel (dep_uid d);
  in_known : forall i p, sel i = true -> pkg_of (j_universe j) i = Some p -> settled j p;
  in_conflicts : forall i p c k q, sel i = true -> pkg_of (j_universe j) i = Some p -> c ∈ values (conflicts p) ->
    pkg_of (j_universe j) k = Some q -> pkg_uid emit q = Some (c_uniqueid c) -> conflict_skips (c_type c) p q = false ->
    sel k = false }.

Lemma consistent_installable j sel : wf_universe emit (j_universe j) -> consistent j sel ->
  (forall i p, pkg_of (j_universe j) i = Some p -> settled j p) -> installable j sel.
Proof.
  intros Hw Hc Hset.
  assert (forall i p, pkg_of (j_universe j) i = Some p -> item_rules j i sel /\
    pkg_deps p = Some (values (deps p)) /\ pkg_conflicts p = Some (values (conflicts p)) /\
    pkg_shlibs_required p = Some (values (shlibs_required p))) as Hitem.
  { intros i p Hp. pose proof (wu_pkgs _ _ Hw i p Hp) as Hwp. split.
    - apply (co_items _ _ Hc). rewrite (wu_nitems _ _ Hw). by eapply pkg_of_lt.
    - split_and!; by apply hash_iter_wf, Hwp. }
  split.
  - intros i p d Hi Hp Hd [chain Hf].
    destruct (Hitem i p Hp) as (Hr & H1 & H2 & H3). destruct (Hr p _ _ _ Hp H1 H2 H3) as (Hdep & _).
    destruct (Hdep d Hd Hi chain Hf) as (k & Hk & Hsk).
    destruct (chain_member emit _ _ chain k Hw Hf Hk) as (q & Hq & Hu). by exists k, q.
  - intros i p _ Hp. by apply (Hset i).
  - intros i p c k q Hi Hp Hcon Hq Hu Hskip. destruct (Hitem i p Hp) as (Hr & H1 & H2 & H3).
    destruct (Hr p _ _ _ Hp H1 H2 H3) as (_ & Hconf & _).
    destruct (chain_of_item emit _ k q Hw Hq) as (chain & uid & _ & Hin & Hu' & Hf). assert (uid = c_uniqueid c) as -> by congruence.
    by apply (Hconf c Hcon Hi chain k q).
Qed.

(** The jobs, in the order they are given, lead from what is installed to the
    selection; a package stands after its dependencies unless an item reached
    the recursion limit. *)
Definition carried_out (j1 j2 : pkg_jobs) (sel : nat -> bool) : Prop :=
  exists j3, pkg_jobs_set_priorities j2 = Some j3 /\
    (forall i p, pkg_of (j_universe j1) i = Some p ->
       i ∈ apply_jobs (j_jobs j3) (installed (j_universe j1)) <-> sel i = true) /\
    (saturated (j_universe j3) \/ install_order (j_universe j3) (j_jobs j3)).

Lemma solution_carried_out j1 j2 sel : wf_universe emit (j_universe j1) -> installs j1 -> j_jobs j1 = [] ->
  reaches j1 j2 sel -> j2 = append_jobs (set_request_add j1 (request_add j2)) (solved_jobs j1 sel) ->
  one_candidate (j_universe j1) sel -> conflicts_known (j_universe j1) -> carried_out j1 j2 sel.
Proof.
  intros Hw Hty Hjobs Hr Hj2 H1 Hck.
  assert (j_type j1 <> PKG_JOBS_FETCH) as Ht by (by destruct Hty as [-> | ->]).
  assert (j_universe j2 = j_universe j1) as Hu2 by (by rewrite Hj2).
  assert (j_jobs j2 = solved_jobs j1 sel) as Hl2 by (rewrite Hj2; cbn; by rewrite Hjobs).
  destruct (install_priorities_ok emit j2) as (j3 & l & H3 & _ & Hsp & Hperm & Hord); [by rewrite Hu2| |].
  { rewrite Hu2, Hl2. by apply (solved_jobs_ok emit). }
  exists j3. split_and!; [done| |done].
  intros i p Hp. rewrite <- (Hr Hjobs Ht H1 i) by (rewrite (wu_nitems _ _ Hw); by eapply pkg_of_lt).
  rewrite Hl2 in *. by apply (solved_jobs_any_order emit _ _ l).
Qed.

(** What the solver gives for a job with all its requests: requests of some
    round cannot be met, or a selection that can be installed.  A request is
    selected, unless it was passed over or the user agreed to drop requests. *)
Record solver_outcome (j1 j2 : pkg_jobs) (sel : nat -> bool) : Prop := mk_solver_outcome {
  oc_requests : sublist (request_add j2) (request_add j1);
  oc_jobs : j2 = append_jobs (set_request_add j1 (request_add j2)) (solved_jobs j1 sel);
  oc_installable : installable j1 sel;
  oc_left : forall i, i ∈ map rq_item (request_add j2) -> sel i = true;
  oc_selected : forall i, i ∈ map rq_item (request_add j1) ->
    sel i = true \/ passed_over emit (j_universe j1) i \/ exists round n, answers round n = true;
  oc_carried_out : one_candidate (j_universe j1) sel -> conflicts_known (j_universe j1) -> carried_out j1 j2 sel }.

Definition solved_to (j1 : pkg_jobs) (r : pkg_error_t) (j2 : pkg_jobs) : Prop :=
  r = EPKG_FATAL /\ (exists reqs, sublist reqs (request_add j1) /\ unsolvable j1 reqs) \/
  r = EPKG_OK /\ exists sel, solver_outcome j1 j2 sel.

Lemma requested_solved (again : nat) (j j1 : pkg_jobs) : installs j -> requested_all emit C fuel j j1 ->
  (length (request_add j1) < again)%nat ->
  exists r j2, solve_again emit picosat_sat answers again 0 j1 = Some (r, j2) /\ solved_to j1 r j2 /\
    (r = EPKG_FATAL -> j2 = set_request_add j1 (request_add j2)).
Proof.
  intros Hty [Has Hset (Ht & _ & Hdel & Hjobs & _)] Hagain.
  pose proof (proj1 (as_ready _ _ _ _ Has)) as Hs. pose proof (sd_wf _ _ _ Hs) as Hw.
  destruct (sound_solvable emit C _ Hs) as [Hsol Hprov].
  destruct (solve_again_ok emit picosat_sat Hps answers again 0 j1 Hsol Hprov (as_nodup _ _ _ _ Has) Hdel Hagain)
    as (r & j2 & H2 & Hsub & Hr).
  exists r, j2. split; [done|]. destruct Hr as [(-> & Hj2 & Hun)|(-> & Hacc & sel & Hc & Hm & Hreach & Hj2)]; [split; [by left|done]|].
  split; [right; split; [done|]|done]. exists sel.
  assert (j_universe j2 = j_universe j1) as Hu2 by (by rewrite Hj2).
  assert (installs j1) as Hin by (unfold installs; by rewrite Ht).
  assert (forall i, i ∈ map rq_item (request_add j1) -> exists p, pkg_of (j_universe j1) i = Some p) as Hstored.
  { intros i Hi. destruct (as_stored _ _ _ _ Has i Hi) as (p & Hpi & _). by exists p. }
  assert (forall i, i ∈ map rq_item (request_add j2) -> sel i = true) as Hleft.
  { intros i Hi. assert (i ∈ map rq_item (request_add j1)) as Hi1 by (eapply elem_of_sublist; [exact Hi|by apply (fmap_sublist rq_item)]).
    destruct (Hstored i Hi1) as [p Hpi].
    destruct (Hm i) as [Hadd _]; [rewrite Hu2, (wu_nitems _ _ Hw); by eapply pkg_of_lt|]. apply Hadd. by apply find_req_member. }
  split; [done|exact Hj2| |exact Hleft| |].
  - apply consistent_installable; [done| |done]. rewrite Hj2 in Hc. destruct Hc as [Hc1 Hc2]. split; [exact Hc1|exact Hc2].
  - intros i Hi. destruct (Hacc i Hi) as [Hi2|H]; [by apply Hstored|left; by apply Hleft|by right].
  - intros Hone Hck. by apply solution_carried_out.
Qed.

(** The steps, for any fuel of the solver that is enough. *)
Lemma install_steps (patterns : list job_pattern) (j : pkg_jobs) : fresh j ->
  (size (dom (ca_uid C)) < fuel)%nat -> patterns <> [] -> Forall (names_candidates emit C false) patterns ->
  exists rc j1, jobs_solve_install_upgrade emit sha256 repo_digest_format yesno sqlite_quote pkg_open fuel patterns j = Some (rc, j1) /\
    j_type j1 = j_type j /\ j_jobs j1 = [] /\
    (rc = EPKG_FATAL \/ rc = EPKG_OK /\ requests_of emit C j patterns j1 /\ wf_universe emit (j_universe j1) /\
     forall again, (length (request_add j1) < again)%nat ->
     exists r j2, solve_again emit picosat_sat answers again 0 j1 = Some (r, j2) /\ solved_to j1 r j2 /\
       (r = EPKG_FATAL -> j2 = set_request_add j1 (request_add j2))).
Proof.
  intros Hj Hfuel Hne Hp.
  destruct (install_requests_ok emit sha256 repo_digest_format C Hdb fuel yesno sqlite_quote pkg_open Hno Hloaded patterns j
    Hj Hfuel Hne Hp) as (rc & j1 & H1 & Hty & Hjobs & Hrc). exists rc, j1. split_and!; [done|done|done|].
  destruct Hrc as [?|(-> & Hra & Hrq)]; [by left|right]. split_and!; [done|done| |].
  - exact (sd_wf _ _ _ (proj1 (as_ready _ _ _ _ (ra_asking _ _ _ _ _ Hra)))).
  - intros again Hagain. exact (requested_solved again j j1 (fj_type _ Hj) Hra Hagain).
Qed.

End installation.

(** ** A concrete installation *)

(** Package foo of the sample database needs a newer bar than the one that is
    installed. *)
Definition install_db : pkgdb := sample_db [("libz.so", sample_zlib)].

Definition foo_patterns : list job_pattern := [mk_pattern (Some (str "foo~x/foo")) None MATCH_EXACT false].

Definition declined (question : cstring) : bool := false.

Definition install_front (patterns : list job_pattern) (j : pkg_jobs) : option (pkg_error_t * pkg_jobs) :=
  jobs_solve_install_upgrade (db := install_db) no_emit (fun _ => []) (fun _ => None) declined id (fun _ => None) 5 patterns j.

Definition install_solve (j : pkg_jobs) : option (pkg_error_t * pkg_jobs) :=
  solve_again no_emit brute_sat (fun _ _ => false) (S (length (request_add j))) 0 j.

(** The answers, what is requested at the end, and the order of the jobs. *)
Definition install_run (patterns : list job_pattern) (j : pkg_jobs) : option (pkg_error_t * pkg_error_t * list nat * list nat) :=
  '(rc, j1) ← install_front patterns j; '(r, j2) ← install_solve j1;
  j3 ← pkg_jobs_set_priorities j2;
  Some (rc, r, map rq_item (request_add j2), map s_item0 (j_jobs j3)).

Lemma install_run_inv patterns j rc r reqs order : install_run patterns j = Some (rc, r, reqs, order) ->
  exists j1 j2, install_front patterns j = Some (rc, j1) /\ install_solve j1 = Some (r, j2) /\ map rq_item (request_add j2) = reqs.
Proof.
  unfold install_run. destruct (install_front patterns j) as [[rc' j1]|]; [|done]. cbn [mbind option_bind].
  destruct (install_solve j1) as [[r' j2]|] eqn:E; [|done]. cbn [mbind option_bind].
  destruct (pkg_jobs_set_priorities j2) as [j3|]; [|done]. intros [= <- <- <- <-]. by exists j1, j2.
Qed.

Lemma install_front_eq patterns j : jobs_solve_install_upgrade (db := install_db) no_emit (fun _ => []) (fun _ => None) declined id
  (fun _ => None) 5 patterns j = install_front patterns j.
Proof. reflexivity. Qed.

Lemma install_solve_eq j : solve_again no_emit brute_sat (fun _ _ => false) (S (length (request_add j))) 0 j = install_solve j.
Proof. reflexivity. Qed.

(** The job as the command line makes it, with the test for a newer version of
    the package manager: the sample database has none. *)
Definition cli_jobs : pkg_jobs := mk_jobs pkg_jobs_universe_new [] [] [] PKG_JOBS_INSTALL PKG_FLAG_PKG_VERSION_TEST 0 0.

Lemma install_run_foo : install_run foo_patterns cli_jobs = Some (EPKG_OK, EPKG_OK, [0%nat], [2%nat; 0%nat; 3%nat]).
Proof. vm_compute. reflexivity. Qed.

Lemma cli_fresh : fresh cli_jobs.
Proof. split; try done. by left. Qed.

Lemma cli_tests_version : tests_version cli_jobs = true.
Proof. reflexivity. Qed.

Lemma foo_candidates : Forall (names_candidates (db := install_db) no_emit sample_catalogue false) foo_patterns.
Proof.
  apply Forall_singleton. split_and!; [done|by eexists|].
  cbn [jp_pattern jp_match].
  assert (rows_of_pattern (db := install_db) (Some (str "foo~x/foo")) MATCH_EXACT = [sample_foo]) as -> by (vm_compute; reflexivity).
  apply Forall_singleton. split_and!; [apply sample_known; left|vm_compute; reflexivity|done].
Qed.

Lemma sample_small : (size (dom (ca_uid sample_catalogue)) < 5)%nat.
Proof. vm_compute. lia. Qed.

