(* ===== verification/Deinstall.v ===== *)
(** * Removing packages, from the patterns to the last deletion

    jobs_solve_deinstall, the solver loop of pkg_jobs_solve and
    pkg_jobs_set_priorities one after the other: the packages the patterns
    match go, what is left of the universe has no broken dependency, with
    PKG_FLAG_RECURSIVE the dependents are in the universe, and the deletions are
    in an order in which nothing is deleted before what depends on it. *)
From S2P Require Import Prelude CString CSort UtHash Pkg Checksum Universe Upgrade UniverseBuild Solve Schedule Jobs.

Section deinstall.
Context (emit : ucl -> cstring) (sha256 : cstring -> list Z)
  (repo_digest_format : cstring -> option pkg_checksum_type_t) `{db : pkgdb}
  (C : catalogue) (Hdb : pkgdb_laws emit C).

Abbreviation process := (process_item emit sha256 repo_digest_format).

(** ** The universe of a removal *)

Definition locals (u : universe) : Prop := forall i p, pkg_of u i = Some p -> is_local p = true.

Lemma locals_insert u p uid d : locals u -> is_local p = true -> locals (insert_item u p uid d).
Proof. intros Hu Hp i q. rewrite pkg_of_insert. destruct (decide _); [by intros [= <-]|apply Hu]. Qed.

(** The flags with which reverse dependencies are processed. *)
Definition removal_flags (flags : Z) : Prop :=
  flag_set flags DEPS_FLAG_FORCE_LOCAL = true /\ flag_set flags DEPS_FLAG_MIRROR = false.

Lemma query_local uid flag p : pkgdb_query (Some uid) MATCH_EXACT flag ≫= head = Some p -> is_local p = true.
Proof. intros H. by destruct (query_head emit C Hdb _ _ _ H) as (_ & _ & ?). Qed.

Lemma each_keeps {A} (f : pkg_jobs -> A -> option (pkg_error_t * pkg_jobs)) (I : pkg_jobs -> Prop) l :
  (forall x j rc j', I j -> f j x = Some (rc, j') -> I j') ->
  forall j rc j', I j -> each f l j = Some (rc, j') -> I j'.
Proof.
  intros Hf. induction l as [|x l IH]; intros j rc j' Hj; cbn [each]; [by intros [= _ <-]|].
  destruct (f j x) as [[rc1 j1]|] eqn:E; [|done]. cbn [mbind option_bind]. assert (I j1) as H1 by (by eapply Hf).
  destruct rc1; try (by intros [= _ <-]). by apply IH.
Qed.

(** Only installed packages are brought in when packages are removed. *)
Lemma process_item_locals fuel : forall j p b rc j' r, j_type j = PKG_JOBS_DEINSTALL /\ locals (j_universe j) -> is_local p = true ->
  is_Some (pkg_digest emit p) -> process fuel j p b = Some (rc, j', r) -> j_type j' = PKG_JOBS_DEINSTALL /\ locals (j_universe j').
Proof.
  induction fuel as [|fuel IH]; intros j p b rc j' r Hj Hp [d Hd]; [done|]. cbn [process_item].
  unfold pkg_jobs_universe_add_pkg, pkg_jobs_universe_seen. rewrite Hd. cbn [mbind option_bind]. rewrite Hd. cbn [mbind option_bind].
  destruct (hash_lookup (u_seen (j_universe j)) d) as [un|]; cbn [mbind option_bind]; [by intros [= _ <- _]|].
  destruct (pkg_uid emit p) as [uid|]; [|done]. cbn [mbind option_bind].
  set (j1 := set_universe j (insert_item (j_universe j) p uid d)).
  assert (j_type j1 = PKG_JOBS_DEINSTALL /\ locals (j_universe j1)) as Hj1 by (split; [apply Hj|apply locals_insert; [apply Hj|done]]).
  destruct (process_new _ _ _ _ j1 _) as [[rc1 j2]|] eqn:E; [|done]. cbn [mbind option_bind]. intros [= _ <- _].
  unfold process_new in E. rewrite (proj1 Hj1) in E. destruct (flag_set (j_flags j1) PKG_FLAG_RECURSIVE); [|by injection E as _ <-].
  unfold pkg_jobs_universe_process_deps in E. destruct (pkg_of (j_universe j1) _) as [q|]; [|done]. cbn [mbind option_bind] in E.
  destruct (if flag_set _ DEPS_FLAG_REVERSE then _ else _) as [ds|]; [|done]. cbn [mbind option_bind] in E.
  set (fl := Z.lor _ _) in E. assert (removal_flags fl) as [Hloc Hmir] by (unfold fl, removal_flags; by destruct (flag_set (j_flags j1) PKG_FLAG_FORCE_MISSING)).
  eapply (each_keeps _ (fun j => j_type j = PKG_JOBS_DEINSTALL /\ locals (j_universe j))) in E; [exact E| |exact Hj1].
  clearbody fl. clear E j1 Hj1 rc1. intros x j1 rc1 j3 Hj1. unfold process_dep, remote_dep. rewrite Hloc, Hmir.
  destruct (pkg_jobs_universe_find (j_universe j1) (dep_uid x)) eqn:Ef; [by intros [= _ <-]|]. rewrite get_local_new by done.
  cbn [mbind option_bind]. destruct (pkgdb_query _ _ _ ≫= head) as [np|] eqn:En; [|by intros [= _ <-]].
  destruct (query_head emit C Hdb _ _ _ En) as (Hk & _ & Hl). destruct (process fuel j1 np true) as [[[rc4 j4] un]|] eqn:Er; [|done].
  destruct (kn_ids _ _ _ Hk) as (u1 & d1 & _ & Hd1 & _).
  assert (j_type j4 = PKG_JOBS_DEINSTALL /\ locals (j_universe j4)) as Hj4 by (eapply IH; [exact Hj1|exact Hl|by exists d1|exact Er]).
  cbn [mbind option_bind]. destruct rc4; try (by intros [= _ <-]). destruct un; by intros [= _ <-].
Qed.

(** *** Dependents *)

(** No package of this unique id is installed. *)
Definition not_installed (uid : cstring) : Prop := pkgdb_query (Some uid) MATCH_EXACT deinstall_flags ≫= head = None.

(** What depends on a package is in the universe, unless the databases tell of
    a dependent that is not installed. *)
Definition dependents_loaded (u : universe) (q : pkg) : Prop :=
  (forall d, d ∈ values (rdeps q) -> in_universe u (dep_uid d)) \/ exists d, d ∈ values (rdeps q) /\ not_installed (dep_uid d).

(** This holds of what is new in [j']. *)
Definition loaded_since (j j' : pkg_jobs) : Prop := forall i q, (length (u_store (j_universe j)) <= i)%nat ->
  pkg_of (j_universe j') i = Some q -> dependents_loaded (j_universe j') q.

Lemma dependents_grow j j' q : grows j j' -> dependents_loaded (j_universe j) q -> dependents_loaded (j_universe j') q.
Proof. intros Hg [H|H]; [left|by right]. intros d Hd. by apply (gr_found _ _ Hg), H. Qed.

Lemma loaded_before j j' i q : grows j j' -> (i < length (u_store (j_universe j)))%nat -> pkg_of (j_universe j') i = Some q ->
  pkg_of (j_universe j) i = Some q.
Proof.
  intros Hg Hi Hq. destruct (lookup_lt_is_Some_2 _ _ Hi) as [x Hx].
  assert (pkg_of (j_universe j) i = Some (ui_pkg x)) as Hp by (unfold pkg_of; by rewrite Hx).
  pose proof (gr_items _ _ Hg _ _ Hp). congruence.
Qed.

Lemma loaded_trans j1 j2 j3 : loaded_since j1 j2 -> grows j2 j3 -> loaded_since j2 j3 -> loaded_since j1 j3.
Proof.
  intros H1 Hg H2 i q Hi Hq. destruct (decide (length (u_store (j_universe j2)) <= i)%nat) as [Hle|Hlt]; [by apply (H2 i)|].
  apply (dependents_grow j2); [done|]. apply (H1 i); [done|]. eapply loaded_before; [exact Hg|lia|done].
Qed.

Lemma loaded_refl j : loaded_since j j.
Proof. intros i q Hi Hq. pose proof (pkg_of_lt _ _ _ Hq). lia. Qed.

(** A removal that takes the dependents along. *)
Definition recursive (j : pkg_jobs) : Prop := j_type j = PKG_JOBS_DEINSTALL /\ flag_set (j_flags j) PKG_FLAG_RECURSIVE = true.

Lemma recursive_grows j j' : grows j j' -> recursive j -> recursive j'.
Proof. intros Hg. destruct (grows_job _ _ Hg) as (Ht & Hf & _). unfold recursive. by rewrite Ht, Hf. Qed.

(** The calls for the dependents, with the fuel of the universe. *)
Section dependents.
Context (fuel : nat) (fl : Z) (Hfl : removal_flags fl)
  (Hrec : forall j p b rc j' r, recursive j -> ready emit C fuel j -> known emit C p -> process fuel j p b = Some (rc, j', r) ->
    loaded_since j j').

Lemma process_steps j p b : ready emit C fuel j -> known emit C p ->
  exists rc j' i d, process fuel j p b = Some (rc, j', Some i) /\ okfatal rc /\ UniverseBuild.step emit C j j' /\
    pkg_digest emit p = Some d /\ hash_lookup (u_seen (j_universe j')) d = Some i.
Proof.
  intros Hj Hp. destruct (process_item_spec emit sha256 repo_digest_format C Hdb fuel j p b Hj Hp) as (rc & j' & i & d & H & Hrc & Hst & Hd & Hl & _).
  by exists rc, j', i, d.
Qed.

Lemma process_dependent d j rc j' : recursive j -> ready emit C fuel j -> process_dep emit (process fuel) fl j d = Some (rc, j') ->
  grows j j' /\ ready emit C fuel j' /\ loaded_since j j' /\
  (rc = EPKG_OK /\ in_universe (j_universe j') (dep_uid d) \/ not_installed (dep_uid d)).
Proof.
  intros Hj Hr. destruct Hfl as [Hloc Hmir]. unfold process_dep, remote_dep. rewrite Hloc, Hmir.
  destruct (pkg_jobs_universe_find (j_universe j) (dep_uid d)) as [c|] eqn:Ef.
  { intros [= <- <-]. split_and!; [apply grows_refl|done|apply loaded_refl|]. left. split; [done|by exists c]. }
  rewrite get_local_new by done. cbn [mbind option_bind].
  assert (local_flags j 0 = deinstall_flags) as -> by (unfold local_flags, IS_DELETE; by rewrite (proj1 Hj)).
  destruct (pkgdb_query (Some (dep_uid d)) MATCH_EXACT deinstall_flags ≫= head) as [np|] eqn:En.
  2:{ intros [= <- <-]. split_and!; [apply grows_refl|done|apply loaded_refl|by right]. }
  destruct (query_head emit C Hdb _ _ _ En) as (Hk & Hu & _).
  destruct (rec_found emit C (process fuel) fuel process_steps j np true (dep_uid d) Hr Hk Hu) as (rc2 & j2 & i & Hp & _ & Hst & Hr2 & Hin & _).
  rewrite Hp. cbn [mbind option_bind]. intros H. assert (rc = EPKG_OK /\ j' = j2) as [-> ->] by (destruct rc2; by injection H as <- <-).
  split_and!; [apply Hst|done|by eapply Hrec|by left].
Qed.

Lemma each_dependent l : forall j rc j', recursive j -> ready emit C fuel j ->
  each (process_dep emit (process fuel) fl) l j = Some (rc, j') ->
  grows j j' /\ loaded_since j j' /\
  ((forall d, d ∈ l -> in_universe (j_universe j') (dep_uid d)) \/ exists d, d ∈ l /\ not_installed (dep_uid d)).
Proof.
  induction l as [|d l IH]; intros j rc j' Hj Hr; cbn [each].
  { intros [= _ <-]. split_and!; [apply grows_refl|apply loaded_refl|]. left. intros d Hd. by apply elem_of_nil in Hd. }
  destruct (process_dep _ _ fl j d) as [[rc1 j1]|] eqn:E1; [|done]. cbn [mbind option_bind]. intros H.
  destruct (process_dependent d j rc1 j1 Hj Hr E1) as (Hg & Hr1 & Hl1 & Hd). clear E1.
  destruct rc1; try (injection H as _ <-; split_and!; [done|done|]; right; exists d; split; [by left|]; destruct Hd as [[? _]|?]; done).
  destruct (IH j1 rc j' (recursive_grows _ _ Hg Hj) Hr1 H) as (Hg' & Hl2 & Hd2).
  split_and!; [by eapply grows_trans|by eapply loaded_trans|].
  destruct Hd as [[_ Hin]|Hn]; [|right; exists d; split; [by left|done]]. destruct Hd2 as [Hall|(x & Hx & Hn)].
  - left. intros x [->|Hx]%elem_of_cons; [by apply (gr_found _ _ Hg')|by apply Hall].
  - right. exists x. split; [by right|done].
Qed.
End dependents.

Lemma process_item_dependents fuel : forall j p b rc j' r, recursive j -> ready emit C fuel j -> known emit C p ->
  process fuel j p b = Some (rc, j', r) -> loaded_since j j'.
Proof.
  induction fuel as [|fuel IH]; intros j p b rc j' r Hj Hr Hk; [done|]. intros H.
  destruct (kn_ids _ _ _ Hk) as (uid & d & Hu & Hd & _).
  pose proof (fun Es => process_item_inserts emit sha256 repo_digest_format C Hdb (S fuel) j p b d rc j' r Hr Hk Hd Es H) as Hins.
  revert H. cbn [process_item].
  unfold pkg_jobs_universe_add_pkg, pkg_jobs_universe_seen. rewrite Hd. cbn [mbind option_bind]. rewrite Hd. cbn [mbind option_bind].
  destruct (hash_lookup (u_seen (j_universe j)) d) as [un|] eqn:Es; cbn [mbind option_bind].
  { intros [= _ <- _]. intros i q Hi Hq. pose proof (pkg_of_lt _ _ _ Hq). cbn in *. lia. }
  rewrite Hu. cbn [mbind option_bind]. destruct Hr as [Hs Hn], (Hins eq_refl) as (k & Hrk & Hpk). clear Hins.
  destruct (insert_sound emit C j p uid d Hs Hk Hu Hd Es) as (Hg & Hs1 & Hp1 & Hlen & _ & Hlt).
  set (j1 := set_universe j (insert_item (j_universe j) p uid d)) in *. pose proof (recursive_grows _ _ Hg Hj) as [Ht1 Hf1].
  destruct (process_new _ _ _ _ j1 _) as [[rc1 j2]|] eqn:E; [|done]. cbn [mbind option_bind]. intros [= _ <- <-]. injection Hrk as <-.
  unfold process_new in E. rewrite Ht1, Hf1 in E. unfold pkg_jobs_universe_process_deps in E. rewrite Hp1 in E. cbn [mbind option_bind] in E.
  set (fl := Z.lor _ _) in E. assert (removal_flags fl /\ flag_set fl DEPS_FLAG_REVERSE = true) as [Hrf Hrev]
    by (unfold fl, removal_flags; by destruct (flag_set (j_flags j1) PKG_FLAG_FORCE_MISSING)).
  rewrite Hrev in E. unfold pkg_rdeps in E. rewrite hash_iter_wf in E by apply (kn_wf _ _ _ Hk). cbn [mbind option_bind] in E.
  destruct (each_dependent fuel fl Hrf IH _ j1 rc1 j2 (conj Ht1 Hf1) ltac:(split; [done|lia]) E) as (_ & Hl & Hd1).
  intros i q Hi Hq. destruct (decide (i = length (u_store (j_universe j)))) as [->|Hne].
  - assert (q = p) as -> by congruence. exact Hd1.
  - apply (Hl i); [lia|done].
Qed.

(** ** The requests *)

(** A package of this digest is requested for deletion. *)
Definition asked (j : pkg_jobs) (d : cstring) : Prop :=
  exists i q, delete_asked j i /\ pkg_of (j_universe j) i = Some q /\ pkg_digest emit q = Some d.

(** With PKG_FLAG_RECURSIVE the dependents of every package are loaded. *)
Definition all_loaded (j : pkg_jobs) : Prop := flag_set (j_flags j) PKG_FLAG_RECURSIVE = true ->
  forall i q, pkg_of (j_universe j) i = Some q -> dependents_loaded (j_universe j) q.

Lemma all_loaded_since j j' : grows j j' -> all_loaded j -> (flag_set (j_flags j) PKG_FLAG_RECURSIVE = true -> loaded_since j j') -> all_loaded j'.
Proof.
  intros Hg Hall Hl. destruct (grows_job _ _ Hg) as (_ & Hf & _). unfold all_loaded. rewrite Hf. intros Hrec i q Hq.
  destruct (decide (length (u_store (j_universe j)) <= i)%nat) as [Hle|Hlt]; [by apply (Hl Hrec i)|].
  apply (dependents_grow j); [done|]. apply (Hall Hrec i). eapply loaded_before; [exact Hg|lia|done].
Qed.

(** What holds between two rows. *)
Record removing (fuel : nat) (flags : Z) (j : pkg_jobs) : Prop := mk_removing {
  rm_type : j_type j = PKG_JOBS_DEINSTALL;
  rm_ready : ready emit C fuel j;
  rm_locals : locals (j_universe j);
  rm_stored : forall i, delete_asked j i -> is_Some (pkg_of (j_universe j) i);
  rm_add : request_add j = [];
  rm_jobs : j_jobs j = [];
  rm_flags : j_flags j = flags;
  rm_dependents : all_loaded j }.

(** The row [p] is in the catalogue and installed. *)
Definition installed_row (p : pkg) : Prop := known emit C p /\ is_local p = true.

Lemma asked_grows j j' d : grows j j' -> (forall i, delete_asked j i -> is_Some (pkg_of (j_universe j) i)) -> asked j' d <-> asked j d.
Proof.
  intros Hg Hst. destruct (grows_job _ _ Hg) as (_ & _ & _ & Hreq). unfold asked, delete_asked. rewrite Hreq.
  split; intros (i & q & Hi & Hq & Hd); exists i, q; (split_and!; [done| |done]).
  - destruct (Hst i Hi) as [x Hx]. pose proof (gr_items _ _ Hg _ _ Hx). congruence.
  - by apply (gr_items _ _ Hg).
Qed.

Lemma deinstall_row_ok fuel flags j p : removing fuel flags j -> installed_row p ->
  exists j', deinstall_row emit sha256 repo_digest_format fuel j p = Some j' /\ removing fuel flags j' /\
    forall d, asked j' d <-> asked j d \/ (pkg_is_locked emit p = false /\ pkg_digest emit p = Some d).
Proof.
  intros [Hty Hrd Hloc Hst Hadd Hjobs Hfl Hdep] [Hk Hp]. unfold deinstall_row.
  destruct (process_item_spec emit sha256 repo_digest_format C Hdb fuel j p true Hrd Hk) as (rc & j1 & i & d & H & _ & Hstep & Hd & Hi & _).
  pose proof (st_grows _ _ _ _ Hstep) as Hg. destruct (grows_job _ _ Hg) as (Hty1 & Hfl1 & Hadd1 & Hreq1).
  destruct (process_item_locals _ _ _ _ _ _ _ (conj Hty Hloc) Hp ltac:(by exists d) H) as [_ Hloc1].
  rewrite H. cbn [mbind option_bind].
  assert (j_jobs j1 = j_jobs j) as Hj1 by (by rewrite <- (gr_job _ _ Hg)).
  assert (removing fuel flags j1) as Hrm1.
  { split; [congruence|by eapply ready_step|done| |congruence|congruence|congruence|].
    2:{ apply (all_loaded_since j j1 Hg Hdep). intros Hrec. by eapply process_item_dependents. }
    intros k. unfold delete_asked. rewrite Hreq1.
    intros Hk'. destruct (Hst k Hk') as [x Hx]. exists x. by apply (gr_items _ _ Hg). }
  pose proof (asked_grows _ _ d Hg Hst) as Hasked.
  destruct (pkg_is_locked emit p) eqn:El.
  { exists j1. split_and!; [done|done|]. intros d'. rewrite (asked_grows _ _ _ Hg Hst). intuition congruence. }
  cbn [mbind option_bind]. destruct (wu_digests _ _ (sd_wf _ _ _ (st_sound _ _ _ _ Hstep)) d i Hi) as (q & Hq & Hdq).
  destruct (add_req_delete j1 i q) as (j2 & -> & Hj2 & Hdel); [by unfold IS_DELETE; rewrite Hty1, Hty|done|by eapply Hloc1|].
  assert (j_universe j2 = j_universe j1) as Hu2 by (by rewrite Hj2).
  exists j2. split_and!; [done| |].
  - destruct Hrm1 as [R1 R2 R3 R4 R5 R6 R7 R8].
    split; [by rewrite Hj2|unfold ready; by rewrite Hu2|by rewrite Hu2| |by rewrite Hj2|by rewrite Hj2|by rewrite Hj2|by rewrite Hj2].
    intros k [Hk'| ->]%Hdel; rewrite Hu2; [by apply R4|by exists q].
  - intros d'. rewrite <- (asked_grows _ _ d' Hg Hst). unfold asked. rewrite Hu2. split.
    + intros (k & x & [Hk'| ->]%Hdel & Hx & Hdx); [left; by exists k, x|right]. split; [done|congruence].
    + intros [(k & x & Hk' & Hx & Hdx)|[_ Hd']]; [exists k, x|exists i, q]; (split_and!; [apply Hdel; by (left + right)|done|congruence]).
Qed.

Lemma deinstall_rows_ok fuel flags rows : Forall installed_row rows -> forall j, removing fuel flags j ->
  exists j', fold_opt (deinstall_row emit sha256 repo_digest_format fuel) rows j = Some j' /\ removing fuel flags j' /\
    forall d, asked j' d <-> asked j d \/ exists p, p ∈ rows /\ pkg_is_locked emit p = false /\ pkg_digest emit p = Some d.
Proof.
  induction 1 as [|p rows Hp _ IH]; intros j Hj; cbn [fold_opt].
  { exists j. split_and!; [done|done|]. intros d. split; [by left|]. intros [?|(p & Hp & _)]; [done|]. by apply elem_of_nil in Hp. }
  destruct (deinstall_row_ok fuel flags j p Hj Hp) as (j1 & -> & H1 & Ha1). cbn [mbind option_bind].
  destruct (IH j1 H1) as (j2 & -> & H2 & Ha2). exists j2. split_and!; [done|done|]. intros d. rewrite Ha2, Ha1. split.
  - intros [[?|[? ?]]|(q & Hq & H)]; [by left|right; exists p; split; [by left|done]|right; exists q; split; [by right|done]].
  - intros [?|(q & [->|Hq]%elem_of_cons & H)]; [by left; left|by left; right|right; by exists q].
Qed.

(** An unlocked row of a pattern has this digest. *)
Definition matched (patterns : list job_pattern) (d : cstring) : Prop :=
  exists jp rows p, jp ∈ patterns /\ pkgdb_query (jp_pattern jp) (jp_match jp) deinstall_flags = Some rows /\ p ∈ rows /\
    pkg_is_locked emit p = false /\ pkg_digest emit p = Some d.

Lemma deinstall_patterns_ok fuel flags patterns :
  (forall jp, jp ∈ patterns -> exists rows, pkgdb_query (jp_pattern jp) (jp_match jp) deinstall_flags = Some rows /\ Forall installed_row rows) ->
  forall j, removing fuel flags j ->
  exists j', each (deinstall_pattern emit sha256 repo_digest_format fuel) patterns j = Some (EPKG_OK, j') /\ removing fuel flags j' /\
    forall d, asked j' d <-> asked j d \/ matched patterns d.
Proof.
  induction patterns as [|jp patterns IH]; intros Hq j Hj; cbn [each].
  { exists j. split_and!; [done|done|]. intros d. split; [by left|]. intros [?|(jp & ? & ? & Hjp & _)]; [done|]. by apply elem_of_nil in Hjp. }
  apply elem_cons_forall in Hq as [(rows & Hr & Hrows) Hq].
  assert (deinstall_pattern emit sha256 repo_digest_format fuel j jp =
    (j ← fold_opt (deinstall_row emit sha256 repo_digest_format fuel) rows j; Some (EPKG_OK, j))) as -> by (unfold deinstall_pattern; by rewrite Hr).
  destruct (deinstall_rows_ok fuel flags rows Hrows j Hj) as (j1 & -> & H1 & Ha1). cbn [mbind option_bind].
  destruct (IH Hq j1 H1) as (j2 & -> & H2 & Ha2). exists j2. split_and!; [done|done|]. intros d. rewrite Ha2, Ha1. split.
  - intros [[?|(p & Hp & H)]|(jp' & rows' & p & Hjp & H)]; [by left|right; exists jp, rows, p; split; [by left|done]|].
    right. exists jp', rows', p. split; [by right|done].
  - intros [?|(jp' & rows' & p & [->|Hjp]%elem_of_cons & Hr' & H)]; [by left; left| |right; by exists jp', rows', p].
    left. right. exists p. assert (rows' = rows) as -> by congruence. done.
Qed.

(** ** The whole removal *)

Lemma elem_apply_delete_jobs l s i : Forall (fun a => is_delete a = true) l ->
  i ∈ apply_jobs l s <-> i ∈ s /\ i ∉ map s_item0 l.
Proof.
  intros Hl. revert s; induction Hl as [|a l Ha _ IH]; intros s; [cbn; rewrite elem_of_nil; tauto|].
  change (apply_jobs (a :: l) s) with (apply_jobs l (apply_job s a)). rewrite IH. cbn [map]. rewrite not_elem_of_cons.
  assert (apply_job s a = s ∖ {[s_item0 a]}) as -> by (unfold apply_job, is_delete in *; by destruct (s_type a)).
  rewrite elem_of_difference, elem_of_singleton. tauto.
Qed.

Lemma adds_local u sel uid chain : wf_universe emit u -> locals u -> pkg_jobs_universe_find u uid = Some chain -> adds u sel chain = [].
Proof.
  intros Hw Hl Hf. unfold adds. assert (forall i, i ∈ chain -> local_item u i = true) as H.
  { intros i Hi. destruct (chain_member emit u uid chain i Hw Hf Hi) as (p & Hp & _). unfold local_item. rewrite Hp. by eapply Hl. }
  clear Hf. induction chain as [|i chain IH]; [done|]. apply elem_cons_forall in H as [Hi H]. cbn. rewrite Hi, andb_false_r. by apply IH.
Qed.

(** The jobs of a universe of installed packages are deletions of its items. *)
Lemma solved_jobs_local j sel a : wf_universe emit (j_universe j) -> locals (j_universe j) -> a ∈ solved_jobs j sel ->
  is_delete a = true /\ job_ok (j_universe j) a.
Proof.
  intros Hw Hl Ha. unfold solved_jobs in Ha. apply list_elem_of_In, in_concat in Ha as (l & Hl' & Ha).
  apply in_map_iff in Hl' as (chain & <- & Hc). apply list_elem_of_In in Ha, Hc.
  apply (chain_in_values emit) in Hc as [uid Hf]; [|done]. rewrite (adds_local _ _ _ _ Hw Hl Hf) in Ha. unfold chain_jobs in Ha.
  apply elem_of_map in Ha as (d & -> & Hd). split; [done|]. unfold dels in Hd.
  apply list_elem_of_In, filter_In in Hd as [Hd _]. apply list_elem_of_In in Hd.
  destruct (chain_member emit _ uid chain d Hw Hf Hd) as (p & Hp & _). split_and!; [by exists p|done|done].
Qed.

(** A selected package has a selected one for each dependency in the universe. *)
Lemma selected_dep j sel i q d chain : wf_universe emit (j_universe j) -> consistent j sel -> sel i = true ->
  pkg_of (j_universe j) i = Some q -> d ∈ values (deps q) -> pkg_jobs_universe_find (j_universe j) (dep_uid d) = Some chain ->
  exists k, k ∈ chain /\ sel k = true /\ (k < nitems (j_universe j))%nat.
Proof.
  intros Hw Hc Hi Hq Hd Hf. pose proof (wu_pkgs _ _ Hw _ _ Hq) as Hwq.
  destruct (co_items _ _ Hc i) with (p := q) (ds := values (deps q)) (cs := values (conflicts q)) (ss := values (shlibs_required q))
    as (Hdep & _); [rewrite (wu_nitems _ _ Hw); by eapply pkg_of_lt|done|by apply hash_iter_wf, Hwq..|].
  destruct (Hdep d Hd Hi chain Hf) as (k & Hk & Hsk). exists k. split_and!; [done|done|].
  destruct (chain_member emit _ _ chain k Hw Hf Hk) as (x & Hx & _). rewrite (wu_nitems _ _ Hw). by eapply pkg_of_lt.
Qed.

Context (picosat_sat : list (list Z) -> list Z -> list phase -> sat_result) (Hps : picosat_ok picosat_sat)
  (answers : nat -> nat -> bool).

(** C3: Removing packages.  When the databases answer, the patterns of the
    command line become requests, the solver finds jobs for them in one round
    whatever PicoSAT chooses, and these are put in order.  Every package that a
    pattern matches and that is not locked is in the universe, and is not left
    when the jobs are done.  A package of the universe that is left has for each
    dependency in the universe one that is left.  With PKG_FLAG_RECURSIVE all
    dependents of a package of the universe are in the universe, so that they go
    with it, except where the database names a dependent that is not installed.
    Without it (pkg delete -f) dependents need not be in the universe, and what
    they depend on can go: see [forced_removal].  All jobs are deletions, and one
    comes after those of the packages that depend on it, unless an item reached
    the recursion limit. *)
Theorem deinstall_end_to_end (fuel : nat) (patterns : list job_pattern) (j : pkg_jobs)
  (Hty : j_type j = PKG_JOBS_DEINSTALL) (Hs : sound emit C (j_universe j)) (Hl : locals (j_universe j))
  (Hadd : request_add j = []) (Hdel : request_delete j = []) (Hjobs : j_jobs j = []) (Hdep : all_loaded j)
  (Hfuel : (size (dom (ca_uid C)) < fuel)%nat)
  (Hq : forall jp, jp ∈ patterns -> exists rows, pkgdb_query (jp_pattern jp) (jp_match jp) deinstall_flags = Some rows /\
     Forall installed_row rows) :
  exists j1 j2 j3, jobs_solve_deinstall emit sha256 repo_digest_format fuel patterns j = Some (EPKG_OK, j1) /\
    solve_again emit picosat_sat answers 1 0 j1 = Some (EPKG_OK, j2) /\ pkg_jobs_set_priorities j2 = Some j3 /\
    let u := j_universe j1 in let rest := apply_jobs (j_jobs j3) (installed u) in
    (forall d, matched patterns d -> exists i q, pkg_of u i = Some q /\ pkg_digest emit q = Some d /\ i ∉ rest) /\
    (forall i q d chain, i ∈ rest -> pkg_of u i = Some q -> d ∈ values (deps q) ->
       pkg_jobs_universe_find u (dep_uid d) = Some chain -> exists k, k ∈ chain /\ k ∈ rest) /\
    (flag_set (j_flags j) PKG_FLAG_RECURSIVE = true -> forall i q, pkg_of u i = Some q -> dependents_loaded u q) /\
    (forall i q k x d, pkg_of u i = Some q -> i ∉ rest -> pkg_of u k = Some x -> d ∈ values (deps x) ->
       pkg_uid emit q = Some (dep_uid d) -> k ∉ rest) /\
    Forall (fun a => is_delete a = true) (j_jobs j3) /\
    (saturated (j_universe j3) \/ delete_order (j_universe j3) (j_jobs j3)).
Proof.
  assert (removing fuel (j_flags j) j) as Hrm.
  { split; try done; [split; [done|]|intros i; unfold delete_asked; rewrite Hdel; by intros [? ?]].
    eapply Nat.le_lt_trans; [|exact Hfuel]. apply subseteq_size. intros x. unfold unseen. rewrite elem_of_filter. by intros [_ ?]. }
  destruct (deinstall_patterns_ok fuel (j_flags j) patterns Hq j Hrm) as (j0 & H0 & [R1 [Hs0 _] Hl0 R4 R5 R6 R7 R8] & Hask).
  set (j1 := set_solved j0 1). exists j1.
  destruct (sound_solvable emit C _ Hs0) as [Hsol Hprov]. pose proof (sd_wf _ _ _ Hs0) as Hw.
  destruct (solve_deinstall emit picosat_sat Hps answers 1 0 j1 Hsol Hprov R5 ltac:(lia)) as (j2 & H2 & sel & Hc & Hm & Hr & Hj2).
  exists j2. assert (j_universe j2 = j_universe j0) as Hu2 by (by rewrite Hj2).
  assert (j_jobs j2 = solved_jobs j1 sel) as Hjobs2 by (rewrite Hj2; cbn; by rewrite R6).
  assert (forall a, a ∈ j_jobs j2 -> is_delete a = true /\ job_ok (j_universe j2) a) as Hall
    by (intros a; rewrite Hjobs2, Hu2; by apply (solved_jobs_local j1)).
  destruct (delete_priorities_ok emit j2) as (j3 & H3 & _ & Hp & Hord);
    [by rewrite Hu2|apply Forall_forall; apply Hall|apply Forall_forall; apply Hall|].
  assert (Forall (fun a => is_delete a = true) (j_jobs j3)) as Hdel3 by (apply Forall_forall; intros a Ha; apply Hall; by rewrite <- Hp).
  exists j3. split_and!; [unfold jobs_solve_deinstall; by rewrite H0|done|done|]. cbn zeta.
  assert (forall i, (i < nitems (j_universe j0))%nat -> i ∈ apply_jobs (j_jobs j3) (installed (j_universe j1)) <-> sel i = true) as Hrest.
  { intros i Hi. rewrite <- (Hr R6); [|by unfold j1; cbn [j_type set_solved]; rewrite R1| |done].
    - rewrite !elem_apply_delete_jobs; [|apply Forall_forall; apply Hall|done]. by rewrite (Permutation_map s_item0 Hp).
    - intros uid chain Hf. rewrite (adds_local (j_universe j1) sel uid chain Hw Hl0 Hf). cbn. lia. }
  assert (forall i q d chain, i ∈ apply_jobs (j_jobs j3) (installed (j_universe j1)) -> pkg_of (j_universe j1) i = Some q -> d ∈ values (deps q) ->
    pkg_jobs_universe_find (j_universe j1) (dep_uid d) = Some chain -> exists k, k ∈ chain /\ k ∈ apply_jobs (j_jobs j3) (installed (j_universe j1))) as Hkeep.
  { intros i q d chain Hi Hqi Hd Hf. apply Hrest in Hi; [|rewrite (wu_nitems _ _ Hw); by eapply pkg_of_lt].
    destruct (selected_dep j2 sel i q d chain) as (k & Hk & Hsk & Hlt); try done; try (by rewrite Hu2). exists k. split; [done|].
    apply Hrest; [by rewrite Hu2 in Hlt|done]. }
  split_and!; [|exact Hkeep|by rewrite <- R7| |done|done].
  - intros d Hd. assert (asked j0 d) as (i & q & Hi & Hqi & Hdq) by (apply Hask; by right).
    exists i, q. split_and!; [done|done|]. rewrite Hrest by (rewrite (wu_nitems _ _ Hw); by eapply pkg_of_lt).
    intros Hsel. destruct (Hm i) as [_ Hdo]; [rewrite Hu2, (wu_nitems _ _ Hw); by eapply pkg_of_lt|].
    assert (sel i = false) as Hf; [|congruence]. apply Hdo. rewrite Hj2. exact Hi.
  - intros i q k x d Hqi Hi Hx Hd Huid Hk. destruct (chain_of_item emit _ i q Hw Hqi) as (chain & uid & _ & Hin & Hu & Hf).
    assert (uid = dep_uid d) as -> by congruence. destruct (Hkeep k x d chain Hk Hx Hd Hf) as (m & Hm' & Hrm').
    destruct (chain_member emit _ _ chain m Hw Hf Hm') as (y & Hy & _).
    apply Hi. by rewrite (so_local _ _ Hsol _ chain i m q y Hf Hin Hm' Hqi Hy (Hl0 _ _ Hqi) (Hl0 _ _ Hy)).
Qed.
End deinstall.

(** ** A concrete removal *)

(** Package app depends on lib; lib and what depends on it is to go. *)
Definition removal_rows : list (string * pkg) := [("lib~x/lib", sample_lib); ("app~x/app", sample_app)].

Definition removal_db : pkgdb := mk_pkgdb
  (fun pat _ _ => Some (from_option (rows_of removal_rows) (map snd removal_rows) pat))
  (fun _ _ _ => None) (fun _ _ => None) (fun p _ => p).

Definition removal_catalogue : catalogue := mk_catalogue
  (<[str "d_lib" := str "lib~x/lib"]> (<[str "d_app" := str "app~x/app"]> ∅))
  (<[str "lib~x/lib" := str "d_lib"]> (<[str "app~x/app" := str "d_app"]> ∅)).

Definition lib_jobs : pkg_jobs := mk_jobs pkg_jobs_universe_new [] [] [] PKG_JOBS_DEINSTALL PKG_FLAG_RECURSIVE 0 0.

Definition removal_patterns : list job_pattern := [mk_pattern (Some (str "lib~x/lib")) None MATCH_EXACT false].

Lemma removal_known p : p ∈ [sample_lib; sample_app] -> known no_emit removal_catalogue p.
Proof.
  intros [->| ->%list_elem_of_singleton]%elem_of_cons; [unfold sample_lib|unfold sample_app]; apply known_sample_row.
  1, 4: repeat constructor.
  2, 4: vm_compute; reflexivity.
  all: eexists _, _; split_and!; [vm_compute; reflexivity|vm_compute; reflexivity|vm_compute; reflexivity|intros _; vm_compute; reflexivity].
Qed.

Lemma removal_laws : pkgdb_laws (db := removal_db) no_emit removal_catalogue.
Proof.
  split; [|done..].
  intros uid flag rows p [= <-] (n & -> & Hin)%elem_rows_of.
  repeat (apply elem_of_cons in Hin as [[= -> ->]|Hin]); [..|by apply elem_of_nil in Hin];
    (split; [apply removal_known; set_solver|]; split; vm_compute; reflexivity).
Qed.

Lemma removal_sound : sound no_emit removal_catalogue pkg_jobs_universe_new.
Proof.
  split; [apply wf_universe_new|done|done|done|apply wf_empty|]. intros prs pr H. by apply elem_of_nil in H.
Qed.

Lemma removal_queries jp : jp ∈ removal_patterns ->
  exists rows, pkgdb_query (pkgdb := removal_db) (jp_pattern jp) (jp_match jp) deinstall_flags = Some rows /\
    Forall (installed_row no_emit removal_catalogue) rows.
Proof.
  intros ->%list_elem_of_singleton. exists [sample_lib]. split; [vm_compute; reflexivity|]. apply Forall_singleton.
  split; [apply removal_known; set_solver|vm_compute; reflexivity].
Qed.

(** The three steps in a row: the order of the deletions. *)
Definition removal_run (patterns : list job_pattern) (j : pkg_jobs) : option (list nat) :=
  '(_, j1) ← jobs_solve_deinstall (db := removal_db) no_emit (fun _ => []) (fun _ => None) 3 patterns j;
  '(_, j2) ← solve_again no_emit brute_sat (fun _ _ => false) 1 0 j1;
  j3 ← pkg_jobs_set_priorities j2; Some (map s_item0 (j_jobs j3)).

Lemma removal_order : removal_run removal_patterns lib_jobs = Some [1%nat; 0%nat].
Proof. vm_compute. reflexivity. Qed.

(** With -f, and not -R, only lib goes; app, which depends on it, is not even
    in the universe. *)
Example forced_removal :
  removal_run removal_patterns (mk_jobs pkg_jobs_universe_new [] [] [] PKG_JOBS_DEINSTALL PKG_FLAG_FORCE 0 0) = Some [0%nat].
Proof. vm_compute. reflexivity. Qed.

Lemma lib_loaded : all_loaded (db := removal_db) lib_jobs.
Proof. intros _ i q Hq. apply pkg_of_lt in Hq. cbn in Hq. lia. Qed.

Lemma removal_run_steps patterns j j1 j2 j3 :
  jobs_solve_deinstall (db := removal_db) no_emit (fun _ => []) (fun _ => None) 3 patterns j = Some (EPKG_OK, j1) ->
  solve_again no_emit brute_sat (fun _ _ => false) 1 0 j1 = Some (EPKG_OK, j2) -> pkg_jobs_set_priorities j2 = Some j3 ->
  removal_run patterns j = Some (map s_item0 (j_jobs j3)).
Proof. intros H1 H2 H3. unfold removal_run. rewrite H1. cbn [mbind option_bind]. rewrite H2. cbn [mbind option_bind]. by rewrite H3. Qed.

Lemma removal_small : (size (dom (ca_uid removal_catalogue)) < 3)%nat.
Proof. vm_compute. lia. Qed.

Lemma removal_matched : matched (db := removal_db) no_emit removal_patterns (str "d_lib").
Proof.
  exists (mk_pattern (Some (str "lib~x/lib")) None MATCH_EXACT false), [sample_lib], sample_lib.
  split_and!; [left|vm_compute; reflexivity|left|vm_compute; reflexivity|vm_compute; reflexivity].
Qed.

Lemma deinstall_end_to_end_witness :
  exists j1 j2 j3, jobs_solve_deinstall (db := removal_db) no_emit (fun _ => []) (fun _ => None) 3 removal_patterns lib_jobs =
      Some (EPKG_OK, j1) /\
    solve_again no_emit brute_sat (fun _ _ => false) 1 0 j1 = Some (EPKG_OK, j2) /\ pkg_jobs_set_priorities j2 = Some j3 /\
    map s_item0 (j_jobs j3) = [1%nat; 0%nat] /\ exists i, i ∉ apply_jobs (j_jobs j3) (installed (j_universe j1)).
Proof.
  destruct (deinstall_end_to_end (db := removal_db) no_emit (fun _ => []) (fun _ => None) removal_catalogue removal_laws brute_sat
    brute_sat_ok (fun _ _ => false) 3 removal_patterns lib_jobs eq_refl removal_sound ltac:(done) eq_refl eq_refl eq_refl lib_loaded
    removal_small removal_queries) as (j1 & j2 & j3 & H1 & H2 & H3 & Hm & _).
  exists j1, j2, j3. split; [exact H1|]. split; [exact H2|]. split; [exact H3|].
  pose proof (removal_run_steps _ _ _ _ _ H1 H2 H3) as Hc. rewrite removal_order in Hc. injection Hc as Hc.
  split; [by rewrite <- Hc|].
  destruct (Hm _ removal_matched) as (i & _ & _ & _ & Hi). exists i. exact Hi.
Defined.
