(* ===== verification/Cudf.v ===== *)
(** * The exchange with an external solver (libpkg/pkg_cudf.c)

    A job is written as a CUDF document: a stanza for every package of the
    universe and the request.  What the solver answers is read back into jobs.
    A stanza names a package by its unique id with '@' for '_' and by a number
    among the versions of that id, whose chain is sorted for that (DL_SORT).

    Writing to the solver does not fail, so the functions that write give the
    text; each returns its length.  [None] is a crash: a NULL string. *)
From S2P Require Import Prelude CString CSort Version UtHash Pkg Cprintf Universe UniverseBuild Jobs Solve.

(** ** Text *)

Definition UNDERSCORE : ascii := "_".
Definition AT : ascii := "@".

(** [c] points to the start of what is pending, [p] behind it. *)
Fixpoint print_pending (pending p : cstring) : cstring :=
  match p with
  | [] => rev pending
  | x :: p => if Ascii.eqb x UNDERSCORE then rev pending ++ AT :: print_pending [] p else print_pending (x :: pending) p
  end.

Definition cudf_print_package_name (name : cstring) : cstring := print_pending [] name.

(** A line is broken after column 80. *)
Definition wrap (column : Z) : cstring * Z := if 80 <? column then (NL :: str " ", 0) else ([], column).

Definition separator (has_next : bool) : cstring := if has_next then str ", " else [NL].

Definition cudf_print_element (line : cstring) (has_next : bool) (column : Z) : cstring * Z :=
  let '(nl, column) := wrap column in
  let text := nl ++ cudf_print_package_name line ++ separator has_next in
  (text, column + Z.of_nat (length text)).

Definition cudf_print_conflict (uid : cstring) (ver : Z) (has_next : bool) (column : Z) : cstring * Z :=
  let '(nl, column) := wrap column in
  let text := nl ++ cudf_print_package_name uid ++ str "=" ++ print_dec ver ++ separator has_next in
  (text, column + Z.of_nat (length text)).

(** The elements of a hash. *)
Fixpoint print_elements (l : list cstring) (column : Z) : cstring * Z :=
  match l with
  | [] => ([], column)
  | line :: l =>
      let '(text, column) := cudf_print_element line (match l with [] => false | _ => true end) column in
      let '(rest, column) := print_elements l column in (text ++ rest, column)
  end.

(** ** Packages and requests *)

Definition INT_MIN : Z := - 2 ^ 31.

(** An item that is ignored; [None] for NULL. *)
Definition ignored (u : universe) (i : nat) : option bool := (fun it => ui_priority it =? INT_MIN) <$> u_store u !! i.

(** The other versions of a package. *)
Fixpoint print_versions (u : universe) (uid : cstring) (self : nat) (ver : Z) (l : list nat) (column : Z) : option cstring :=
  match l with
  | [] => Some []
  | i :: l =>
      ig ← ignored u i;
      if negb (Nat.eqb i self) && negb ig then
        let has_next := match l with [] => false | i' :: _ => negb (Nat.eqb i' self) end in
        let '(text, column) := cudf_print_conflict uid ver has_next column in
        rest ← print_versions u uid self (ver + 1) l column; Some (text ++ rest)
      else print_versions u uid self (ver + 1) l column
  end.

(** The second item of a chain counts as a conflict. *)
Definition other_version (u : universe) (chain : list nat) : option bool :=
  match chain with _ :: i :: _ => negb <$> ignored u i | _ => Some false end.

Section emit.
Context (emit : ucl -> cstring).

(** What opens a stanza, and names its package. *)
Definition stanza_head (uid : cstring) (version : Z) : cstring :=
  str "package: " ++ cudf_print_package_name uid ++ NL :: str "version: " ++ print_dec version ++ [NL].

Definition list_line (key : string) (l : list cstring) : cstring :=
  match l with [] => [] | _ => str key ++ (print_elements l 0).1 end.

Definition print_conflicts (u : universe) (self : nat) (uid : cstring) (names : list cstring) (chain : list nat) : option cstring :=
  other ← other_version u chain;
  if match names with [] => false | _ => true end || other then
    let '(text, column) := print_elements names 0 in
    rest ← print_versions u uid self 1 chain column; Some (str "conflicts: " ++ text ++ rest)
  else Some [].

Definition cudf_emit_pkg (u : universe) (i : nat) (version : Z) (conflicts_chain : list nat) : option cstring :=
  pkg ← pkg_of u i;
  uid ← pkg_uid emit pkg;
  ds ← pkg_deps pkg;
  ps ← pkg_provides pkg;
  cs ← pkg_conflicts pkg;
  confs ← print_conflicts u i uid (map c_uniqueid cs) conflicts_chain;
  Some (stanza_head uid version ++ list_line "depends: " (map dep_origin ds) ++ list_line "provides: " ps ++ confs ++
    str "installed: " ++ str (if is_local pkg then "true" else "false") ++ [NL; NL]).

(** The requests of one kind; the last component is [printed]. *)
Fixpoint print_requests (u : universe) (l : list pkg_job_request) (column : Z) (printed : bool) : option (cstring * bool) :=
  match l with
  | [] => Some ([], printed)
  | req :: l =>
      if rq_skip req then print_requests u l column printed
      else
        p ← pkg_of u (rq_item req);
        origin ← pkg_get_string emit p PKG_ORIGIN;
        let '(text, column) := cudf_print_element origin (match l with [] => false | _ => true end) column in
        '(rest, printed) ← print_requests u l column true; Some (text ++ rest, printed)
  end.

Definition request_line (u : universe) (op : cstring) (l : list pkg_job_request) : option cstring :=
  '(text, printed) ← print_requests u l 0 false;
  Some (op ++ str ": " ++ text ++ (if printed : bool then [] else [NL])).

Definition cudf_emit_request_packages (op : cstring) (j : pkg_jobs) : option cstring :=
  add ← request_line (j_universe j) op (request_add j);
  remove ← request_line (j_universe j) (str "remove") (request_delete j);
  Some (add ++ remove).

(** ** The document *)

(** The comparison marks a remote package that is as old as another one. *)
Definition pkg_cudf_version_cmp (a b : nat) (u : universe) : option (Z * universe) :=
  pa ← pkg_of u a;
  pb ← pkg_of u b;
  ret ← pkg_version_cmp (pkg_version emit pa) (pkg_version emit pb);
  Some (ret,
    if ret =? 0 then
      if negb (is_local pa) then set_priority u a INT_MIN
      else if negb (is_local pb) then set_priority u b INT_MIN
      else u
    else u).

(** The stanzas of a chain, numbered as they are written. *)
Fixpoint emit_versions (u : universe) (chain : list nat) (version : Z) (l : list nat) : option cstring :=
  match l with
  | [] => Some []
  | i :: l =>
      ig ← ignored u i;
      if ig : bool then emit_versions u chain version l
      else text ← cudf_emit_pkg u i version chain; rest ← emit_versions u chain (version + 1) l; Some (text ++ rest)
  end.

(** After the sort the hash still points to the item it pointed to, which need
    not be the first: the lists as the sort leaves them are kept by that item. *)
Abbreviation rings := (gmap nat (list nat)).

Definition emit_chain (s : cstring * universe * rings) (chain : list nat) : option (cstring * universe * rings) :=
  let '(out, u, r) := s in
  '(sorted, u) ← dl_sort pkg_cudf_version_cmp chain u;
  text ← emit_versions u sorted 1 sorted;
  it ← head chain;
  Some (out ++ text, u, <[it := sorted]> r).

Definition request_op (t : pkg_jobs_t) : cstring := match t with PKG_JOBS_UPGRADE => str "upgrade" | _ => str "install" end.

Definition pkg_jobs_cudf_emit_file (j : pkg_jobs) (t : pkg_jobs_t) : option (pkg_error_t * cstring * pkg_jobs * rings) :=
  chains ← hash_iter (u_items (j_universe j));
  '(text, u, r) ← fold_opt emit_chain chains (str "preamble: " ++ [NL; NL], j_universe j, ∅);
  let j := set_universe j u in
  req ← cudf_emit_request_packages (request_op t) j;
  Some (EPKG_OK, text ++ str "request: " ++ NL :: req, j, r).
End emit.

(** ** The answer *)

(** '@' is turned back and blanks are dropped; the loop over leading blanks
    drops nothing more. *)
Fixpoint copy_back (s : cstring) : cstring :=
  match s with
  | [] => []
  | c :: s => if isspace c then copy_back s else (if Ascii.eqb c AT then UNDERSCORE else c) :: copy_back s
  end.

Definition cudf_strdup (s : cstring) : cstring := copy_back (drop_space s).

Record pkg_cudf_entry := mk_cudf_entry {
  ce_uid : option cstring; was_installed : bool; ce_installed : bool; ce_version : option cstring }.

Definition pkg_jobs_cudf_insert_res_job (j : pkg_jobs) (it_new : nat) (it_old : option nat) (type : pkg_solved_t) : pkg_jobs :=
  set_jobs j (j_jobs j ++ [mk_solved it_new it_old type false]) (S (j_count j)).

(** The [prev] pointer of an item of a list: that of the first is the last. *)
Fixpoint prev_in (before : nat) (l : list nat) (i : nat) : nat :=
  match l with
  | [] => before
  | k :: l => if Nat.eqb k i then before else prev_in k l i
  end.

Definition prev_of (ring : list nat) (i : nat) : nat := prev_in (List.last ring i) ring i.

(** [cur->next == NULL] *)
Definition is_last (ring : list nat) (i : nat) : bool := bool_decide (last ring = Some i).

Fixpoint find_head (fuel : nat) (ring : list nat) (cur : nat) : option nat :=
  match fuel with
  | O => None
  | S fuel =>
      let head := cur in
      let cur := prev_of ring cur in
      if is_last ring cur then Some head else find_head fuel ring cur
  end.

(** The item with a number, and the number where the search ended. *)
Fixpoint select_version (n ver : Z) (l : list nat) : option nat * Z :=
  match l with
  | [] => (None, n)
  | cur :: l => if n =? ver then (Some cur, n) else select_version (n + 1) ver l
  end.

(** An [unsigned long] as an [int]. *)
Definition to_int (z : Z) : Z := let w := z mod 2 ^ 32 in if w <? 2 ^ 31 then w else w - 2 ^ 32.

Section answer.
Context (emit : ucl -> cstring) (rings : gmap nat (list nat)).

(** The list an item of the hash is in, from its first item on. *)
Definition ring_from (chain : list nat) : option (list nat) :=
  it ← head chain;
  let ring := default chain (rings !! it) in
  h ← find_head (S (length ring)) ring it;
  Some (from_item h ring).

(** The first item that is not the selected one is replaced. *)
Definition schedule_upgrade (j : pkg_jobs) (selected : nat) (ring : list nat) : option pkg_jobs :=
  old ← find (fun cur => negb (Nat.eqb cur selected)) ring;
  po ← pkg_of (j_universe j) old;
  ps ← pkg_of (j_universe j) selected;
  '(_, ps) ← pkg_set ps PKG_OLD_VERSION (ArgString (pkg_version emit po));
  Some (pkg_jobs_cudf_insert_res_job (set_universe j (set_item_pkg (j_universe j) selected ps)) selected (Some old) PKG_SOLVED_UPGRADE).

Definition schedule_single (j : pkg_jobs) (selected : nat) (installed : bool) : option pkg_jobs :=
  ps ← pkg_of (j_universe j) selected;
  Some (if installed && negb (is_local ps) then pkg_jobs_cudf_insert_res_job j selected None PKG_SOLVED_INSTALL
        else if negb installed && is_local ps then pkg_jobs_cudf_insert_res_job j selected None PKG_SOLVED_DELETE
        else j).

Definition pkg_jobs_cudf_add_package (j : pkg_jobs) (entry : pkg_cudf_entry) : option (pkg_error_t * pkg_jobs) :=
  uid ← ce_uid entry;
  match pkg_jobs_universe_find (j_universe j) uid with
  | None => Some (EPKG_FATAL, j)
  | Some chain =>
      version ← ce_version entry;
      let ver := to_int (strtoul version) in
      ring ← ring_from chain;
      match select_version 1 ver ring with
      | (None, _) => Some (EPKG_FATAL, j)
      | (Some selected, n) =>
          j ← (if n =? 1 then schedule_single j selected (ce_installed entry) else schedule_upgrade j selected ring);
          Some (EPKG_OK, j)
      end
  end.

(** *** Lines *)

(** strsep: the field up to the first delimiter and what follows it. *)
Fixpoint strsep (delim s : cstring) : cstring * option cstring :=
  match s with
  | [] => ([], None)
  | c :: s => if bool_decide (c ∈ delim) then ([], Some s) else let '(field, rest) := strsep delim s in (c :: field, rest)
  end.

Definition BLANKS : cstring := [" "; "009"]%char.

(** The last field. *)
Fixpoint last_field (fuel : nat) (begin value : option cstring) : option cstring :=
  match fuel, begin with
  | S fuel, Some s => let '(field, rest) := strsep BLANKS s in last_field fuel rest (Some field)
  | _, _ => value
  end.

Definition no_entry : pkg_cudf_entry := mk_cudf_entry None false false None.

Definition flush (j : pkg_jobs) (e : pkg_cudf_entry) : option (pkg_error_t * pkg_jobs) :=
  match ce_uid e with None => Some (EPKG_OK, j) | Some _ => pkg_jobs_cudf_add_package j e end.

Definition is_true (value : cstring) : bool := strncmp value (str "true") 4 =? 0.

(** One line: the answer other than [EPKG_OK] ends the loop. *)
Definition parse_line (line : cstring) (j : pkg_jobs) (e : pkg_cudf_entry) : option (pkg_error_t * pkg_jobs * pkg_cudf_entry) :=
  let '(param, begin) := strsep (":"%char :: BLANKS) line in
  let value := last_field (S (length line)) begin begin in
  if streq param (str "package") then
    '(rc, j) ← flush j e;
    match rc with
    | EPKG_OK => v ← value; Some (EPKG_OK, j, mk_cudf_entry (Some (cudf_strdup v)) false false None)
    | _ => Some (EPKG_FATAL, j, e)
    end
  else if streq param (str "version") then
    match ce_uid e with
    | None => Some (EPKG_FATAL, j, e)
    | Some _ => v ← value; Some (EPKG_OK, j, mk_cudf_entry (ce_uid e) (was_installed e) (ce_installed e) (Some (cudf_strdup v)))
    end
  else if streq param (str "installed") then
    match ce_uid e with
    | None => Some (EPKG_FATAL, j, e)
    | Some _ => v ← value; Some (EPKG_OK, j, mk_cudf_entry (ce_uid e) (was_installed e) (ce_installed e || is_true v) (ce_version e))
    end
  else if streq param (str "was-installed") then
    match ce_uid e with
    | None => Some (EPKG_FATAL, j, e)
    | Some _ => v ← value; Some (EPKG_OK, j, mk_cudf_entry (ce_uid e) (was_installed e || is_true v) (ce_installed e) (ce_version e))
    end
  else Some (EPKG_OK, j, e).

Fixpoint parse_lines (lines : list cstring) (j : pkg_jobs) (e : pkg_cudf_entry) : option (pkg_error_t * pkg_jobs) :=
  match lines with
  | [] =>
      '(rc, j) ← flush j e;
      match rc with EPKG_OK => Some (EPKG_OK, j) | _ => Some (EPKG_FATAL, j) end
  | line :: lines =>
      '(rc, j, e) ← parse_line (c_str line) j e;
      match rc with EPKG_OK => parse_lines lines j e | _ => Some (rc, j) end
  end.

Definition pkg_jobs_cudf_parse_output (j : pkg_jobs) (text : cstring) : option (pkg_error_t * pkg_jobs) :=
  parse_lines (getlines [] text) j no_entry.
End answer.

(** ** Names *)

Definition to_cudf (c : ascii) : ascii := if Ascii.eqb c UNDERSCORE then AT else c.

Lemma print_pending_map pending p : print_pending pending p = rev pending ++ map to_cudf p.
Proof.
  revert pending; induction p as [|x p IH]; intros pending; cbn [print_pending map]; [by rewrite app_nil_r|].
  unfold to_cudf at 1. destruct (Ascii.eqb x UNDERSCORE); rewrite IH; [done|]. cbn [rev]. by rewrite <- app_assoc.
Qed.

Lemma print_package_name_map name : cudf_print_package_name name = map to_cudf name.
Proof. apply print_pending_map. Qed.

(** A name that comes back: no '@' and no blanks in it. *)
Definition plain_char (c : ascii) : bool := negb (Ascii.eqb c AT || isspace c || Ascii.eqb c NUL).
Definition plain (s : cstring) : bool := forallb plain_char s.

Lemma to_cudf_plain c : plain_char c = true ->
  isspace (to_cudf c) = false /\ (if Ascii.eqb (to_cudf c) AT then UNDERSCORE else to_cudf c) = c /\
  to_cudf c <> NL /\ to_cudf c <> NUL /\ to_cudf c ∉ BLANKS.
Proof.
  assert (forall d, isspace d = false -> d <> NL /\ d ∉ BLANKS) as Hsp.
  { intros d Hd. split; [by intros ->|]. intros [->|[->|H]%elem_of_cons]%elem_of_cons; [done..|]. by apply elem_of_nil in H. }
  intros H. unfold plain_char in H. apply negb_true_iff, orb_false_iff in H as [[Ha Hs]%orb_false_iff Hn].
  apply Ascii.eqb_neq in Ha, Hn. unfold to_cudf. destruct (Ascii.eqb_spec c UNDERSCORE) as [->|Hu].
  - split_and!; try done. by apply Hsp.
  - destruct (Hsp c Hs). split_and!; try done. by destruct (Ascii.eqb_spec c AT).
Qed.

Lemma drop_space_none c s : isspace c = false -> drop_space (c :: s) = c :: s.
Proof. intros H. cbn. by rewrite H. Qed.

Lemma copy_back_name name s : plain name = true -> copy_back (map to_cudf name ++ s) = name ++ copy_back s.
Proof.
  unfold plain. induction name as [|c name IH]; [done|]. cbn [forallb map app copy_back]. intros [Hc Hn]%andb_true_iff.
  destruct (to_cudf_plain c Hc) as (-> & -> & _). by rewrite IH.
Qed.

(** The name of a package survives the exchange. *)
Lemma cudf_name_roundtrip name : plain name = true -> cudf_strdup (cudf_print_package_name name ++ [NL]) = name.
Proof.
  intros Hn. rewrite print_package_name_map. unfold cudf_strdup.
  assert (drop_space (map to_cudf name ++ [NL]) = map to_cudf name ++ [NL] \/ name = []) as [-> | ->]; [|by rewrite copy_back_name, app_nil_r|done].
  destruct name as [|c name]; [by right|left]. cbn [map app]. apply drop_space_none.
  cbn in Hn. apply andb_true_iff in Hn as [Hc _]. apply (to_cudf_plain c Hc).
Qed.

(** ** Lines *)

Lemma strsep_delim delim a d b : Forall (fun c => c ∉ delim) a -> d ∈ delim -> strsep delim (a ++ d :: b) = (a, Some b).
Proof.
  intros Ha Hd. induction Ha as [|c a Hc _ IH]; cbn [app strsep]; [by rewrite bool_decide_eq_true_2|].
  rewrite bool_decide_eq_false_2 by done. by rewrite IH.
Qed.

Lemma strsep_none delim a : Forall (fun c => c ∉ delim) a -> strsep delim a = (a, None).
Proof.
  intros Ha. induction Ha as [|c a Hc _ IH]; cbn [strsep]; [done|]. rewrite bool_decide_eq_false_2 by done. by rewrite IH.
Qed.

(** A field of a stanza: nothing in it ends a field or a line. *)
Definition one_field (v : cstring) : Prop := Forall (fun c => (c ∉ BLANKS) /\ c <> NL /\ c <> NUL) v.

Lemma last_field_value fuel v (x : option cstring) : one_field v -> last_field (S (S (S fuel))) 
  (Some ((" "%char :: v) ++ [NL])) x = Some (v ++ [NL]).
Proof.
  intros Hv. cbn [last_field]. change (strsep BLANKS ((" "%char :: v) ++ [NL])) with (@nil ascii, Some (v ++ [NL])). cbn [last_field].
  rewrite strsep_none; [destruct fuel; reflexivity|]. apply Forall_app. split.
  - eapply Forall_impl; [exact Hv|]. by intros c (? & _).
  - apply Forall_singleton. intros [H|[H|H]%elem_of_cons]%elem_of_cons; [done..|]. by apply elem_of_nil in H.
Qed.

(** ** Stanzas *)

(** A line with a keyword and a value. *)
Definition key_line (key : string) (v : cstring) : cstring := str key ++ ":"%char :: (" "%char :: v) ++ [NL].

Lemma key_line_fields key v : Forall (fun c => c ∉ ":"%char :: BLANKS) (str key) -> one_field v ->
  strsep (":"%char :: BLANKS) (key_line key v) = (str key, Some ((" "%char :: v) ++ [NL])) /\
  forall x, last_field (S (length (key_line key v))) (Some ((" "%char :: v) ++ [NL])) x = Some (v ++ [NL]).
Proof.
  intros Hk Hv. split; [apply strsep_delim; [done|by left]|]. intros x. unfold key_line. rewrite length_app. cbn [length].
  rewrite length_app. cbn [length]. rewrite <- !plus_n_Sm. by apply last_field_value.
Qed.

Lemma key_line_text key v : Forall (fun c => c <> NL /\ c <> NUL) (str key) -> one_field v ->
  c_str (key_line key v) = key_line key v /\ forall rest, getlines [] (key_line key v ++ rest) = key_line key v :: getlines [] rest.
Proof.
  intros Hk Hv. assert (Forall (fun c => c <> NL /\ c <> NUL) (str key ++ ":"%char :: " "%char :: v)) as Hall.
  { apply Forall_app. split; [done|]. repeat constructor; try done. eapply Forall_impl; [exact Hv|]. by intros c (_ & ? & ?). }
  assert (key_line key v = (str key ++ ":"%char :: " "%char :: v) ++ [NL]) as ->
    by (unfold key_line; by rewrite <- app_assoc).
  split.
  - apply c_str_id, Forall_app. split; [|by repeat constructor]. eapply Forall_impl; [exact Hall|]. by intros c [_ ?].
  - intros rest. rewrite <- app_assoc. cbn [app]. rewrite getlines_line; [done|]. eapply Forall_impl; [exact Hall|]. by intros c [? _].
Qed.

(** What the solver answers for a package. *)
Definition bool_text (b : bool) : cstring := str (if b then "true" else "false").

Definition answer_stanza (uid : cstring) (version : Z) (installed : bool) : cstring :=
  stanza_head uid version ++ key_line "installed" (bool_text installed) ++ [NL].

Lemma stanza_head_lines uid version :
  stanza_head uid version = key_line "package" (cudf_print_package_name uid) ++ key_line "version" (print_dec version).
Proof. unfold stanza_head, key_line. cbn. by rewrite <- !app_assoc. Qed.

Lemma name_field uid : plain uid = true -> one_field (cudf_print_package_name uid).
Proof.
  intros Hu. rewrite print_package_name_map. unfold plain in Hu. rewrite forallb_forall in Hu.
  apply Forall_forall. intros c (d & -> & Hd)%list_elem_of_fmap. specialize (Hu d ltac:(by apply list_elem_of_In)).
  destruct (to_cudf_plain d Hu) as (_ & _ & ? & ? & ?). done.
Qed.

Lemma digit_char c : isdigit c = true -> isspace c = false /\ c <> NL /\ c <> NUL /\ (c ∉ BLANKS) /\ c <> AT.
Proof.
  intros H. split_and!; try (by intros ->); [by apply isdigit_not_space|].
  intros [->|[->|Hx]%elem_of_cons]%elem_of_cons; [done..|]. by apply elem_of_nil in Hx.
Qed.

Lemma dec_field v : one_field (print_dec v).
Proof.
  eapply Forall_impl; [apply (print_base_digits 10); lia|]. intros c Hc. destruct (digit_char c Hc) as (_ & ? & ? & ? & _). done.
Qed.

Lemma copy_back_digits v : cudf_strdup (print_dec v ++ [NL]) = print_dec v.
Proof.
  pose proof (print_base_digits 10 v ltac:(lia)) as Hd. fold print_dec in Hd. change (print_base 10 v) with (print_dec v) in Hd.
  assert (forall s, Forall (fun c => isdigit c = true) s -> copy_back (s ++ [NL]) = s) as Hc.
  { intros s Hs. induction Hs as [|c s Hc _ IH]; [done|]. cbn [app copy_back]. destruct (digit_char c Hc) as (-> & _ & _ & _ & Ha).
    destruct (Ascii.eqb_spec c AT); [done|]. by rewrite IH. }
  unfold cudf_strdup. destruct (print_dec v) as [|c s] eqn:E; [done|]. cbn [app]. rewrite drop_space_none.
  - by apply (Hc (c :: s)).
  - inversion Hd as [|? ? Hx]; subst. apply (digit_char c Hx).
Qed.

Lemma strtoul_dec n : 0 <= n <= ULONG_MAX -> strtoul (print_dec n) = n.
Proof.
  intros Hn. unfold strtoul. pose proof (print_base_digits 10 n ltac:(lia)) as Hd. change (print_base 10 n) with (print_dec n) in Hd.
  pose proof (digits_print_dec n [] ltac:(lia) eq_refl) as Hv. rewrite app_nil_r in Hv.
  destruct (print_dec n) as [|c s]; [by injection Hv as <-|].
  inversion Hd as [|? ? Hx]; subst. rewrite drop_space_none by apply (digit_char c Hx).
  assert (read_sign (c :: s) = (false, c :: s)) as ->.
  { unfold read_sign. destruct (Ascii.eqb_spec c "-"%char) as [->|]; [done|]. by destruct (Ascii.eqb_spec c "+"%char) as [->|]. }
  rewrite Hv. cbn [fst]. destruct (Z.ltb_spec ULONG_MAX n); [lia|done].
Qed.

Section exchange.
Context (emit : ucl -> cstring) (rings : gmap nat (list nat)).

Abbreviation parse := (parse_lines emit rings).

Lemma keyword_chars key : key ∈ ["package"; "version"; "installed"]%string ->
  Forall (fun c => c ∉ ":"%char :: BLANKS) (str key) /\ Forall (fun c => c <> NL /\ c <> NUL) (str key).
Proof.
  assert (forall s, forallb (fun c => negb (bool_decide (c ∈ [":"%char; " "%char; "009"%char; NL; NUL]))) s = true ->
    Forall (fun c => c ∉ ":"%char :: BLANKS) s /\ Forall (fun c => c <> NL /\ c <> NUL) s) as H.
  { intros s Hs. rewrite forallb_forall in Hs. split; apply Forall_forall; intros c Hc%list_elem_of_In; specialize (Hs c Hc);
      apply negb_true_iff, bool_decide_eq_false in Hs; unfold BLANKS; rewrite !not_elem_of_cons in *; tauto. }
  intros Hk. apply H. repeat (apply elem_of_cons in Hk as [->|Hk]; [reflexivity|]). by apply elem_of_nil in Hk.
Qed.

Lemma keyword_fields key v : key ∈ ["package"; "version"; "installed"]%string -> one_field v ->
  strsep (":"%char :: BLANKS) (key_line key v) = (str key, Some ((" "%char :: v) ++ [NL])) /\
  forall x, last_field (S (length (key_line key v))) (Some ((" "%char :: v) ++ [NL])) x = Some (v ++ [NL]).
Proof. intros Hk. apply key_line_fields. by apply keyword_chars. Qed.

Lemma keyword_text key v rest : key ∈ ["package"; "version"; "installed"]%string -> one_field v ->
  getlines [] (key_line key v ++ rest) = key_line key v :: getlines [] rest /\ c_str (key_line key v) = key_line key v.
Proof. intros Hk Hv. destruct (key_line_text key v ltac:(by apply keyword_chars) Hv) as [Hc Hl]. by rewrite Hl. Qed.

(** The three lines of a stanza. *)
Lemma parse_package uid j e : plain uid = true ->
  parse_line emit rings (key_line "package" (cudf_print_package_name uid)) j e =
    ('(rc, j) ← flush emit rings j e;
     match rc with EPKG_OK => Some (EPKG_OK, j, mk_cudf_entry (Some uid) false false None) | _ => Some (EPKG_FATAL, j, e) end).
Proof.
  intros Hu. unfold parse_line. destruct (keyword_fields "package" _ ltac:(by left) (name_field uid Hu)) as [-> ->].
  change (streq (str "package") (str "package")) with true. cbv iota beta. cbn [mbind option_bind]. by rewrite cudf_name_roundtrip.
Qed.

Lemma parse_version n j uid b : 
  parse_line emit rings (key_line "version" (print_dec n)) j (mk_cudf_entry (Some uid) false b None) =
    Some (EPKG_OK, j, mk_cudf_entry (Some uid) false b (Some (print_dec n))).
Proof.
  unfold parse_line. destruct (keyword_fields "version" _ ltac:(by right; left) (dec_field n)) as [-> ->].
  change (streq (str "version") (str "package")) with false. change (streq (str "version") (str "version")) with true.
  cbn [ce_uid mbind option_bind ce_installed was_installed]. by rewrite copy_back_digits.
Qed.

Lemma parse_installed b j uid v :
  parse_line emit rings (key_line "installed" (bool_text b)) j (mk_cudf_entry (Some uid) false false v) =
    Some (EPKG_OK, j, mk_cudf_entry (Some uid) false b v).
Proof. destruct b; reflexivity. Qed.

Lemma bool_field b : one_field (bool_text b).
Proof.
  apply Forall_forall. intros c Hc%list_elem_of_In. assert (negb (bool_decide (c ∈ NL :: NUL :: BLANKS)) = true) as H.
  { revert c Hc. apply forallb_forall. by destruct b. }
  apply negb_true_iff, bool_decide_eq_false in H. rewrite !not_elem_of_cons in H. tauto.
Qed.

(** A stanza hands over the package before it. *)
Lemma stanza_step uid n b rest j e : plain uid = true ->
  parse (getlines [] (answer_stanza uid n b ++ rest)) j e =
    ('(rc, j) ← flush emit rings j e;
     match rc with
     | EPKG_OK => parse (getlines [] rest) j (mk_cudf_entry (Some uid) false b (Some (print_dec n)))
     | _ => Some (EPKG_FATAL, j)
     end).
Proof.
  intros Hu. unfold answer_stanza. rewrite stanza_head_lines, <- !app_assoc.
  destruct (keyword_text "package" _ (key_line "version" (print_dec n) ++ key_line "installed" (bool_text b) ++ [NL] ++ rest)
    ltac:(by left) (name_field uid Hu)) as [-> C1].
  destruct (keyword_text "version" _ (key_line "installed" (bool_text b) ++ [NL] ++ rest) ltac:(by right; left) (dec_field n)) as [-> C2].
  destruct (keyword_text "installed" _ ([NL] ++ rest) ltac:(by right; right; left) (bool_field b)) as [-> C3].
  change (getlines [] ([NL] ++ rest)) with ([NL] :: getlines [] rest).
  cbn [parse_lines]. rewrite C1, C2, C3, parse_package by done.
  destruct (flush emit rings j e) as [[rc j1]|]; [|done]. cbn [mbind option_bind].
  destruct rc; cbn [mbind option_bind]; try done.
  rewrite parse_version. cbn [mbind option_bind]. by rewrite parse_installed.
Qed.

(** ** One answer *)

Lemma select_nth l m k i : l !! k = Some i -> select_version m (m + Z.of_nat k) l = (Some i, m + Z.of_nat k).
Proof.
  revert m k; induction l as [|x l IH]; intros m [|k] Hk; try done; cbn [select_version].
  - injection Hk as ->. rewrite Z.add_0_r, Z.eqb_refl. done.
  - destruct (Z.eqb_spec m (m + Z.of_nat (S k))); [lia|]. replace (m + Z.of_nat (S k)) with (m + 1 + Z.of_nat k) by lia. by apply IH.
Qed.

Lemma prev_in_app before l1 x i l2 : i ∉ l1 ++ [x] -> prev_in before (l1 ++ x :: i :: l2) i = x.
Proof.
  revert before; induction l1 as [|y l1 IH]; intros before Hi; cbn [app prev_in].
  - destruct (Nat.eqb_spec x i) as [->|]; [destruct Hi; by left|]. cbn. by rewrite Nat.eqb_refl.
  - cbn in Hi. apply not_elem_of_cons in Hi as [Hy Hi]. destruct (Nat.eqb_spec y i); [done|]. by apply IH.
Qed.

(** Following [prev] leads to the first item. *)
Lemma find_head_ok l1 it l2 h fuel : NoDup (l1 ++ it :: l2) -> head (l1 ++ it :: l2) = Some h -> (length l1 < fuel)%nat ->
  find_head fuel (l1 ++ it :: l2) it = Some h.
Proof.
  revert it l2 fuel; induction l1 as [|x l1 IH] using rev_ind; intros it l2 fuel Hn Hh Hf; (destruct fuel as [|fuel]; [lia|]); cbn [find_head].
  - injection Hh as ->. unfold prev_of. cbn [app prev_in]. rewrite Nat.eqb_refl. unfold is_last.
    rewrite bool_decide_eq_true_2; [done|]. destruct (exists_last (l := h :: l2) ltac:(done)) as (l' & z & ->).
    by rewrite last_snoc, List.last_last.
  - rewrite <- app_assoc in *. cbn [app] in *. rewrite length_app in Hf. cbn in Hf. unfold prev_of.
    assert (it ∉ l1 ++ [x]) as Hit.
    { rewrite cons_middle, app_assoc in Hn. apply NoDup_app in Hn as (_ & Hd & _). intros H. apply (Hd it H). by left. }
    rewrite prev_in_app by done. unfold is_last. rewrite bool_decide_eq_false_2.
    + apply IH; [done|done|lia].
    + intros Hl. apply NoDup_app in Hn as (_ & _ & Hn). apply NoDup_cons in Hn as [Hx _]. apply Hx.
      rewrite last_app_cons, last_cons_cons in Hl. apply last_Some_elem_of in Hl. done.
Qed.

Lemma from_first h ring : from_item h (h :: ring) = h :: ring.
Proof. cbn. by rewrite Nat.eqb_refl. Qed.

Lemma ring_from_ok chain it ring : head chain = Some it -> rings !! it = Some ring -> it ∈ ring -> NoDup ring ->
  ring_from rings chain = Some ring.
Proof.
  intros Hh Hr Hin Hn. unfold ring_from. rewrite Hh. cbn [mbind option_bind]. rewrite Hr. cbn [default from_option id].
  apply list_elem_of_split in Hin as (l1 & l2 & ->). destruct (l1 ++ it :: l2) as [|h rest] eqn:E; [by destruct l1|].
  assert (find_head (S (length (l1 ++ it :: l2))) (l1 ++ it :: l2) it = Some h) as Hf.
  { apply find_head_ok; [by rewrite E|by rewrite E|]. rewrite length_app. cbn. lia. }
  rewrite <- E, Hf. cbn [mbind option_bind]. by rewrite E, from_first.
Qed.

(** *** Versions *)

Definition version_at (u : universe) (i : nat) : cstring := default [] (pkg_of u i ≫= pkg_version emit).

(** The order the sort makes. *)
Definition by_version (u : universe) (a b : nat) : Z := vercmp (version_at u a) (version_at u b).

Definition ring_of (u : universe) (chain : list nat) : list nat := ll_sort (by_version u) chain.

(** The number of an item among the versions of its unique id. *)
Definition numbered (u : universe) (uid : cstring) (i : nat) (n : Z) : Prop :=
  exists chain k, pkg_jobs_universe_find u uid = Some chain /\ ring_of u chain !! k = Some i /\ n = Z.of_nat (S k).

(** The jobs for an answer: the first version is installed or removed, any
    other one replaces the first. *)
Definition answer_jobs (u : universe) (ring : list nat) (i : nat) (b : bool) : list pkg_solved :=
  if bool_decide (head ring = Some i) then
    if b && negb (local_item u i) then [mk_solved i None PKG_SOLVED_INSTALL false]
    else if negb b && local_item u i then [mk_solved i None PKG_SOLVED_DELETE false]
    else []
  else [mk_solved i (head ring) PKG_SOLVED_UPGRADE false].

(** Only the old version of a package that is upgraded changes. *)
Record relabelled (u u' : universe) : Prop := mk_relabelled {
  rl_items : u_items u' = u_items u;
  rl_pkgs : forall i p, pkg_of u i = Some p -> exists p', pkg_of u' i = Some p' /\
    pkg_version emit p' = pkg_version emit p /\ is_local p' = is_local p }.

Lemma relabelled_refl u : relabelled u u.
Proof. split; [done|]. intros i p Hp. by exists p. Qed.

Lemma relabelled_old u u' i p v : relabelled u u' -> pkg_of u' i = Some p ->
  relabelled u (set_item_pkg u' i (set_fields p (<[str "oldversion" := v]> (fields p)))).
Proof.
  intros [Hi Hp] Hpi. split; [done|]. intros k q Hq. destruct (Hp k q Hq) as (q' & Hq' & Hv & Hl).
  rewrite pkg_of_set_item. case_decide as Hk; [|by exists q']. subst k. rewrite Hq'. eexists. split; [done|].
  assert (q' = p) as -> by congruence. split; [|done]. rewrite <- Hv.
  unfold pkg_version, pkg_get_string. rewrite (pkg_vget_insert_ne emit p _ v PKG_VERSION (str "version") UCL_STRING); done.
Qed.

(** The lists the document was made from are those the hash leads to. *)
Record recorded (u : universe) : Prop := mk_recorded {
  rc_wf : wf_universe emit u;
  rc_small : Z.of_nat (length (u_store u)) < 2 ^ 31;
  rc_version : forall i p, pkg_of u i = Some p -> is_Some (pkg_version emit p);
  rc_rings : forall uid chain it, pkg_jobs_universe_find u uid = Some chain -> head chain = Some it ->
    rings !! it = Some (ring_of u chain) }.

Lemma ring_nodup u uid chain : wf_universe emit u -> pkg_jobs_universe_find u uid = Some chain -> NoDup (ring_of u chain).
Proof. intros Hw Hf. unfold ring_of. rewrite ll_sort_perm. by eapply chain_nodup. Qed.

Lemma schedule_upgrade_ok u j i h ring : relabelled u (j_universe j) -> i <> h ->
  (forall k, k ∈ h :: ring -> exists p, pkg_of u k = Some p /\ is_Some (pkg_version emit p)) -> i ∈ h :: ring ->
  exists j', schedule_upgrade emit j i (h :: ring) = Some j' /\ relabelled u (j_universe j') /\
    j_jobs j' = j_jobs j ++ [mk_solved i (Some h) PKG_SOLVED_UPGRADE false].
Proof.
  intros Hr Hne Hall Hi. unfold schedule_upgrade. cbn [find]. destruct (Nat.eqb_spec h i) as [->|_]; [done|]. cbn [negb mbind option_bind].
  destruct (Hall h ltac:(by left)) as (ph & Hph & v & Hv). destruct (Hall i Hi) as (pi & Hpi & _).
  destruct (rl_pkgs _ _ Hr _ _ Hph) as (ph' & -> & Hvh & _). destruct (rl_pkgs _ _ Hr _ _ Hpi) as (pi' & Hpi' & _).
  rewrite Hpi'. cbn [mbind option_bind]. rewrite Hvh, Hv.
  change (pkg_set pi' PKG_OLD_VERSION (ArgString (Some v))) with
    (Some (EPKG_OK, set_fields pi' (<[str "oldversion" := UString v]> (fields pi')))). cbn [mbind option_bind].
  eexists. split; [done|]. split; [|done]. by apply relabelled_old.
Qed.

Lemma schedule_single_ok u j i b ring : relabelled u (j_universe j) -> head ring = Some i -> is_Some (pkg_of u i) ->
  schedule_single j i b = Some (append_jobs j (answer_jobs u ring i b)).
Proof.
  intros Hr Hh [p Hp]. destruct (rl_pkgs _ _ Hr _ _ Hp) as (p' & Hp' & _ & Hl). unfold schedule_single, answer_jobs, local_item.
  rewrite Hp', Hp. cbn [mbind option_bind]. rewrite Hl, bool_decide_eq_true_2 by done.
  destruct b, (is_local p); cbn [andb negb]; rewrite ?append_jobs_nil; try done; unfold append_jobs; by rewrite Nat.add_1_r.
Qed.

Lemma add_answer_ok u j uid i n b : recorded u -> relabelled u (j_universe j) -> numbered u uid i n ->
  exists chain j', pkg_jobs_universe_find u uid = Some chain /\
    flush emit rings j (mk_cudf_entry (Some uid) false b (Some (print_dec n))) = Some (EPKG_OK, j') /\
    relabelled u (j_universe j') /\ j_jobs j' = j_jobs j ++ answer_jobs u (ring_of u chain) i b.
Proof.
  intros [Hw Hsmall Hver Hrings] Hr (chain & k & Hf & Hk & ->). exists chain.
  pose proof (ring_nodup u uid chain Hw Hf) as Hnd. pose proof (ll_sort_perm (by_version u) chain) as Hperm. fold (ring_of u chain) in Hperm.
  assert (forall x, x ∈ ring_of u chain -> exists p, pkg_of u x = Some p /\ is_Some (pkg_version emit p)) as Hall.
  { intros x Hx. rewrite Hperm in Hx. destruct (chain_member emit u uid chain x Hw Hf Hx) as (p & Hp & _). exists p.
    split; [done|by eapply Hver]. }
  assert (exists it rest, chain = it :: rest) as (it & rest & Hc).
  { destruct chain as [|it rest]; [|by eauto]. by rewrite Permutation_nil_r in Hperm; rewrite Hperm in Hk. }
  unfold flush. cbn [ce_uid]. unfold pkg_jobs_cudf_add_package. cbn [ce_uid mbind option_bind ce_version ce_installed].
  assert (pkg_jobs_universe_find (j_universe j) uid = Some chain) as ->
    by (unfold pkg_jobs_universe_find in *; by rewrite (rl_items _ _ Hr)).
  rewrite (ring_from_ok chain it (ring_of u chain)); [|by rewrite Hc|eapply Hrings; [done|by rewrite Hc]|by rewrite Hperm, Hc; left|done].
  cbn [mbind option_bind].
  assert (Z.of_nat (S k) < 2 ^ 31) as Hb.
  { pose proof (lookup_lt_Some _ _ _ Hk) as Hlt. rewrite Hperm in Hlt.
    assert (length chain <= length (u_store u))%nat; [|lia].
    rewrite <- (length_seq (length (u_store u)) 0). apply submseteq_length, NoDup_submseteq; [by eapply chain_nodup|].
    intros x Hx. destruct (chain_member emit u uid chain x Hw Hf Hx) as (p & Hp & _). apply elem_of_seq. apply pkg_of_lt in Hp. lia. }
  rewrite strtoul_dec by (unfold ULONG_MAX; lia).
  assert (to_int (Z.of_nat (S k)) = 1 + Z.of_nat k) as ->.
  { unfold to_int. rewrite Z.mod_small by lia. destruct (Z.ltb_spec (Z.of_nat (S k)) (2 ^ 31)); lia. }
  rewrite (select_nth _ 1 k i Hk). destruct (Hall i ltac:(by eapply list_elem_of_lookup_2)) as (p & Hp & _).
  destruct k as [|k].
  - change (1 + Z.of_nat 0 =? 1) with true. cbv iota. rewrite (schedule_single_ok u j i b (ring_of u chain)).
    + cbn [mbind option_bind]. eexists. split_and!; try done.
    + done.
    + by destruct (ring_of u chain).
    + by exists p.
  - destruct (Z.eqb_spec (1 + Z.of_nat (S k)) 1); [lia|]. destruct (ring_of u chain) as [|h ring] eqn:Er; [done|].
    assert (i <> h) as Hne.
    { intros ->. apply NoDup_cons in Hnd as [Hh _]. apply Hh. by eapply list_elem_of_lookup_2. }
    destruct (schedule_upgrade_ok u j i h ring Hr Hne Hall) as (j' & -> & Hr' & Hj'); [by eapply list_elem_of_lookup_2|].
    cbn [mbind option_bind]. exists j'. split_and!; try done. rewrite Hj'. unfold answer_jobs. cbn [head].
    by rewrite bool_decide_eq_false_2 by congruence.
Qed.

(** ** The whole answer *)

Record answer := mk_answer { an_uid : cstring; an_item : nat; an_version : Z; an_installed : bool }.

Definition answer_text (l : list answer) : cstring :=
  concat (map (fun a => answer_stanza (an_uid a) (an_version a) (an_installed a)) l).

Definition answered_jobs (u : universe) (l : list answer) : list pkg_solved :=
  concat (map (fun a => answer_jobs u (ring_of u (items_of u (an_uid a))) (an_item a) (an_installed a)) l).

Definition sensible (u : universe) (a : answer) : Prop := plain (an_uid a) = true /\ numbered u (an_uid a) (an_item a) (an_version a).

Lemma parse_answers_from u l : recorded u -> Forall (sensible u) l -> forall j j1 e,
  flush emit rings j e = Some (EPKG_OK, j1) -> relabelled u (j_universe j1) ->
  exists j', parse (getlines [] (answer_text l)) j e = Some (EPKG_OK, j') /\ relabelled u (j_universe j') /\
    j_jobs j' = j_jobs j1 ++ answered_jobs u l.
Proof.
  intros Hrec Hall. induction Hall as [|a l [Hpl Hnum] _ IH]; intros j j1 e Hfl Hr.
  - exists j1. cbn. rewrite Hfl. cbn [mbind option_bind]. by rewrite app_nil_r.
  - unfold answer_text. cbn [map concat]. rewrite stanza_step by done. rewrite Hfl. cbn [mbind option_bind].
    destruct (add_answer_ok u j1 _ _ _ (an_installed a) Hrec Hr Hnum) as (chain & j2 & Hf & Hfl2 & Hr2 & Hj2).
    destruct (IH j1 j2 _ Hfl2 Hr2) as (j' & Hp & Hr' & Hj'). exists j'. split_and!; [done|done|].
    rewrite Hj', Hj2, <- app_assoc. unfold answered_jobs at 2. cbn [map concat]. unfold items_of. by rewrite Hf.
Qed.

Lemma parse_answers_ok u l j : recorded u -> Forall (sensible u) l -> relabelled u (j_universe j) ->
  exists j', pkg_jobs_cudf_parse_output emit rings j (answer_text l) = Some (EPKG_OK, j') /\ relabelled u (j_universe j') /\
    j_jobs j' = j_jobs j ++ answered_jobs u l.
Proof. intros Hrec Hall Hr. by apply (parse_answers_from u l Hrec Hall j j no_entry). Qed.
End exchange.

(** ** The document *)

Section document.
Context (emit : ucl -> cstring).

Definition occurs (x text : cstring) : Prop := exists a b, text = a ++ x ++ b.

Lemma occurs_l x a b : occurs x a -> occurs x (a ++ b).
Proof. intros (l & r & ->). exists l, (r ++ b). by rewrite <- !app_assoc. Qed.

Lemma occurs_r x a b : occurs x b -> occurs x (a ++ b).
Proof. intros (l & r & ->). exists (a ++ l), r. by rewrite <- !app_assoc. Qed.

(** A universe that can be written without losing a version: the versions of a
    unique id differ, and no item is ignored. *)
Record writable (u : universe) : Prop := mk_writable {
  wr_wf : wf_universe emit u;
  wr_version : forall i p, pkg_of u i = Some p -> is_Some (pkg_version emit p);
  wr_distinct : forall uid chain i k, pkg_jobs_universe_find u uid = Some chain -> i ∈ chain -> k ∈ chain -> i <> k ->
    by_version emit u i k <> 0;
  wr_kept : forall i it, u_store u !! i = Some it -> ui_priority it <> INT_MIN }.

Lemma not_ignored u i p : writable u -> pkg_of u i = Some p -> ignored u i = Some false.
Proof.
  intros Hw Hp. unfold pkg_of in Hp. apply fmap_Some in Hp as (it & Hi & _). unfold ignored. rewrite Hi. cbn.
  f_equal. apply Z.eqb_neq. by apply (wr_kept u Hw i).
Qed.

Lemma cmp_version_ok u a b pa pb : writable u -> pkg_of u a = Some pa -> pkg_of u b = Some pb -> by_version emit u a b <> 0 ->
  pkg_cudf_version_cmp emit a b u = Some (by_version emit u a b, u).
Proof.
  intros Hw Ha Hb Hne. unfold pkg_cudf_version_cmp. unfold by_version, version_at in *. rewrite Ha, Hb in *. cbn [mbind option_bind] in *.
  destruct (wr_version u Hw _ _ Ha) as [va Hva]. destruct (wr_version u Hw _ _ Hb) as [vb Hvb]. rewrite Hva, Hvb in *. cbn [default from_option id] in *.
  rewrite pkg_version_cmp_vercmp. cbn [mbind option_bind]. by destruct (Z.eqb_spec (vercmp va vb) 0).
Qed.

Lemma sort_chain_ok u uid chain : writable u -> pkg_jobs_universe_find u uid = Some chain ->
  dl_sort (pkg_cudf_version_cmp emit) chain u = Some (ring_of emit u chain, u).
Proof.
  intros Hw Hf. destruct (dl_sort_ok (pkg_cudf_version_cmp emit) (by_version emit u) (fun s => s = u) eq (fun i => i ∈ chain))
    with (l := chain) (s := u) as (s' & H & -> & _); try done.
  - intros x y s Hx Hy Hne ->. destruct (chain_member emit u uid chain x (wr_wf u Hw) Hf Hx) as (px & Hpx & _).
    destruct (chain_member emit u uid chain y (wr_wf u Hw) Hf Hy) as (py & Hpy & _). exists u. split_and!; [|done|done].
    apply (cmp_version_ok u x y px py Hw Hpx Hpy). by apply (wr_distinct u Hw uid chain).
  - by apply (chain_nodup emit u uid chain (wr_wf u Hw)).
  - by apply Forall_forall.
Qed.

Lemma print_versions_ok u uid self l : writable u -> (forall i, i ∈ l -> is_Some (pkg_of u i)) -> forall ver column,
  is_Some (print_versions u uid self ver l column).
Proof.
  intros Hw. induction l as [|i l IH]; intros Hl ver column; [by eexists|]. cbn [print_versions].
  destruct (Hl i ltac:(by left)) as [p Hp]. rewrite (not_ignored u i p Hw Hp). cbn [mbind option_bind].
  destruct (negb (Nat.eqb i self) && negb false).
  - destruct (cudf_print_conflict _ _ _ _) as [text c]. destruct (IH ltac:(intros; apply Hl; by right) (ver + 1) c) as [rest ->]. by eexists.
  - apply IH. intros; apply Hl; by right.
Qed.

(** A stanza starts with the name and the number. *)
Lemma emit_pkg_ok u i p uid version chain : writable u -> pkg_of u i = Some p -> pkg_uid emit p = Some uid ->
  (forall k, k ∈ chain -> is_Some (pkg_of u k)) ->
  exists rest, cudf_emit_pkg emit u i version chain = Some (stanza_head uid version ++ rest).
Proof.
  intros Hw Hp Hu Hc. unfold cudf_emit_pkg. rewrite Hp. cbn [mbind option_bind]. rewrite Hu. cbn [mbind option_bind].
  pose proof (wu_pkgs _ _ (wr_wf u Hw) _ _ Hp) as Hwp. unfold pkg_deps, pkg_provides, pkg_conflicts. rewrite !hash_iter_wf by apply Hwp.
  cbn [mbind option_bind].
  assert (is_Some (print_conflicts u i uid (map c_uniqueid (values (conflicts p))) chain)) as [confs ->]; [|by eexists].
  unfold print_conflicts. assert (is_Some (other_version u chain)) as [o ->].
  { unfold other_version. destruct chain as [|a [|b chain]]; [by eexists..|]. destruct (Hc b ltac:(by right; left)) as [q Hq].
    rewrite (not_ignored u b q Hw Hq). by eexists. }
  cbn [mbind option_bind]. destruct (match map c_uniqueid _ with [] => false | _ => true end || o); [|by eexists].
  destruct (print_elements _ 0) as [text c]. destruct (print_versions_ok u uid i chain Hw Hc 1 c) as [rest ->]. by eexists.
Qed.

Lemma emit_versions_ok u chain uid : writable u -> forall l version,
  (forall k, k ∈ chain -> is_Some (pkg_of u k)) -> (forall i, i ∈ l -> exists p, pkg_of u i = Some p /\ pkg_uid emit p = Some uid) ->
  exists text, emit_versions emit u chain version l = Some text /\
    forall k i, l !! k = Some i -> occurs (stanza_head uid (version + Z.of_nat k)) text.
Proof.
  intros Hw. induction l as [|i l IH]; intros version Hc Hl; [by exists []|]. cbn [emit_versions].
  destruct (Hl i ltac:(by left)) as (p & Hp & Hu). rewrite (not_ignored u i p Hw Hp). cbn [mbind option_bind].
  destruct (emit_pkg_ok u i p uid version chain Hw Hp Hu Hc) as [r ->]. cbn [mbind option_bind].
  destruct (IH (version + 1) Hc) as (text & -> & Ht); [intros; apply Hl; by right|]. cbn [mbind option_bind].
  eexists. split; [done|]. intros [|k] x Hk.
  - rewrite Z.add_0_r. apply occurs_l. exists [], r. done.
  - apply occurs_r. replace (version + Z.of_nat (S k)) with (version + 1 + Z.of_nat k) by lia. by apply (Ht k x).
Qed.

Lemma emit_chain_ok u uid chain t r : writable u -> pkg_jobs_universe_find u uid = Some chain ->
  exists it text, head chain = Some it /\
    emit_chain emit (t, u, r) chain = Some (t ++ text, u, <[it := ring_of emit u chain]> r) /\
    forall k i, ring_of emit u chain !! k = Some i -> occurs (stanza_head uid (1 + Z.of_nat k)) text.
Proof.
  intros Hw Hf. unfold emit_chain. rewrite (sort_chain_ok u uid chain Hw Hf). cbn [mbind option_bind].
  assert (forall i, i ∈ ring_of emit u chain -> exists p, pkg_of u i = Some p /\ pkg_uid emit p = Some uid) as Hall.
  { intros i Hi. unfold ring_of in Hi. rewrite ll_sort_perm in Hi. by apply (chain_member emit u uid chain i (wr_wf u Hw) Hf). }
  destruct (emit_versions_ok u (ring_of emit u chain) uid Hw (ring_of emit u chain) 1) as (text & -> & Ht); [|done|].
  { intros k Hk. destruct (Hall k Hk) as (p & Hp & _). by exists p. }
  cbn [mbind option_bind]. destruct chain as [|it chain].
  - apply (find_elements emit) in Hf; [|apply Hw]. by destruct (wu_chains _ _ (wr_wf u Hw) _ _ Hf).
  - by exists it, text.
Qed.

Lemma emit_chains_ok u chains : writable u -> (forall c, c ∈ chains -> exists uid, pkg_jobs_universe_find u uid = Some c) ->
  NoDup (concat chains) -> forall t r, exists text r', fold_opt (emit_chain emit) chains (t, u, r) = Some (t ++ text, u, r') /\
    (forall c uid, c ∈ chains -> pkg_jobs_universe_find u uid = Some c ->
       (forall it, head c = Some it -> r' !! it = Some (ring_of emit u c)) /\
       forall k i, ring_of emit u c !! k = Some i -> occurs (stanza_head uid (1 + Z.of_nat k)) text) /\
    forall it, it ∉ concat chains -> r' !! it = r !! it.
Proof.
  intros Hw. induction chains as [|c chains IH]; intros Hc Hn t r.
  - exists [], r. cbn. rewrite app_nil_r. split_and!; [done| |done]. intros c uid H. by apply elem_of_nil in H.
  - cbn [concat] in Hn. apply NoDup_app in Hn as (_ & Hd & Hn). destruct (Hc c ltac:(by left)) as [uid Hf].
    destruct (emit_chain_ok u uid c t r Hw Hf) as (it & text & Hh & He & Ht). cbn [fold_opt]. rewrite He. cbn [mbind option_bind].
    destruct (IH ltac:(intros; apply Hc; by right) Hn (t ++ text) (<[it := ring_of emit u c]> r)) as (text' & r' & -> & Hr & Hold).
    assert (it ∈ c) as Hit by (destruct c; [done|]; injection Hh as ->; by left).
    exists (text ++ text'), r'. split_and!; [by rewrite app_assoc| |].
    + intros c' uid' [->|Hin]%elem_of_cons Hf'.
      * assert (uid' = uid) as ->.
        { destruct (chain_member emit u uid' c it (wr_wf u Hw) Hf' Hit) as (p & Hp & Hu).
          destruct (chain_member emit u uid c it (wr_wf u Hw) Hf Hit) as (p' & Hp' & Hu'). congruence. }
        split; [|intros k i Hk; apply occurs_l; by apply (Ht k i)].
        intros it' Hh'. assert (it' = it) as -> by congruence. rewrite Hold by (by apply Hd). by rewrite lookup_insert_eq.
      * destruct (Hr c' uid' Hin Hf') as [H1 H2]. split; [done|]. intros k i Hk. apply occurs_r. by apply (H2 k i).
    + intros x Hx. cbn [concat] in Hx. rewrite elem_of_app in Hx. rewrite Hold by tauto. apply lookup_insert_ne. intros ->. tauto.
Qed.

(** The packages of the requests have an origin. *)
Definition requests_named (u : universe) (l : list pkg_job_request) : Prop :=
  forall r, r ∈ l -> exists p origin, pkg_of u (rq_item r) = Some p /\ pkg_get_string emit p PKG_ORIGIN = Some origin.

Lemma print_requests_ok u l : requests_named u l -> forall column printed, is_Some (print_requests emit u l column printed).
Proof.
  induction l as [|r l IH]; intros Hl column printed; [by eexists|]. cbn [print_requests].
  assert (requests_named u l) as Hl' by (intros x Hx; apply Hl; by right).
  destruct (rq_skip r); [by apply IH|]. destruct (Hl r ltac:(by left)) as (p & o & Hp & Ho). rewrite Hp. cbn [mbind option_bind].
  rewrite Ho. cbn [mbind option_bind]. destruct (cudf_print_element _ _ _) as [text c].
  destruct (IH Hl' c true) as [[rest b] ->]. by eexists.
Qed.

Lemma emit_requests_ok j op : requests_named (j_universe j) (request_add j) -> requests_named (j_universe j) (request_delete j) ->
  is_Some (cudf_emit_request_packages emit op j).
Proof.
  intros H1 H2. unfold cudf_emit_request_packages, request_line.
  destruct (print_requests_ok _ _ H1 0 false) as [[t1 b1] ->]. cbn [mbind option_bind].
  destruct (print_requests_ok _ _ H2 0 false) as [[t2 b2] ->]. by eexists.
Qed.

(** C24: A job is written to an external solver and its answer read back without
    loss, if the versions of a unique id differ: every package of the universe
    has a stanza with its name and number, nothing changes in the job, and an
    answer about packages by these names and numbers is read as the jobs for
    exactly these packages, in order. *)
Theorem cudf_exchange (j : pkg_jobs) (t : pkg_jobs_t) (Hw : writable (j_universe j))
  (Hsmall : Z.of_nat (length (u_store (j_universe j))) < 2 ^ 31)
  (Hadd : requests_named (j_universe j) (request_add j)) (Hdel : requests_named (j_universe j) (request_delete j)) :
  exists text rings, pkg_jobs_cudf_emit_file emit j t = Some (EPKG_OK, text, j, rings) /\
    (forall uid i n, numbered emit (j_universe j) uid i n -> occurs (stanza_head uid n) text) /\
    forall l, Forall (sensible emit (j_universe j)) l ->
      exists j', pkg_jobs_cudf_parse_output emit rings j (answer_text l) = Some (EPKG_OK, j') /\
        j_jobs j' = j_jobs j ++ answered_jobs emit (j_universe j) l.
Proof.
  pose proof (wr_wf _ Hw) as Hwf. unfold pkg_jobs_cudf_emit_file. rewrite hash_iter_wf by apply Hwf. cbn [mbind option_bind].
  destruct (emit_chains_ok (j_universe j) (values (u_items (j_universe j))) Hw) with (t := str "preamble: " ++ [NL; NL]) (r := (∅ : gmap nat (list nat)))
    as (text & r & -> & Hr & _); [by intros c Hc%(chain_in_values emit _ _ Hwf)|by apply (wu_nodup emit)|]. cbn [mbind option_bind].
  assert (set_universe j (j_universe j) = j) as -> by (by destruct j).
  destruct (emit_requests_ok j (request_op t) Hadd Hdel) as [req ->]. cbn [mbind option_bind].
  assert (forall uid c, pkg_jobs_universe_find (j_universe j) uid = Some c -> c ∈ values (u_items (j_universe j))) as Hin.
  { intros uid c Hf. apply (chain_in_values emit _ _ Hwf). by exists uid. }
  eexists _, r. split; [done|]. split.
  - intros uid i n (c & k & Hf & Hk & ->). apply occurs_l, occurs_r.
    destruct (Hr c uid (Hin _ _ Hf) Hf) as [_ H]. replace (Z.of_nat (S k)) with (1 + Z.of_nat k) by lia. by apply (H k i).
  - intros l Hl. destruct (parse_answers_ok emit r (j_universe j) l j) as (j' & H1 & _ & H2); [|done|apply relabelled_refl|by exists j'].
    split; [done|done|apply Hw|]. intros uid c it Hf Hh. by apply (Hr c uid (Hin _ _ Hf) Hf).
Qed.
End document.

(** ** Concrete exchanges *)

(** Package py_bar is installed and has a newer version, which foo needs. *)
Definition old_py_bar : pkg := sample_row PKG_INSTALLED "py_bar" "1.0" "d_bar0" [].
Definition new_py_bar : pkg := sample_row PKG_REMOTE "py_bar" "1.1" "d_bar1" [].
Definition py_foo : pkg := sample_row PKG_REMOTE "foo" "1.0" "d_foo"
  [OpSet [(PKG_ORIGIN, ArgString (Some (str "x/foo")))]; OpDep (str "py_bar") (str "x/py_bar") (str "1.1") false].

Definition cudf_universe : universe :=
  insert_item (insert_item (insert_item pkg_jobs_universe_new old_py_bar (str "py_bar~x/py_bar") (str "d_bar0"))
    new_py_bar (str "py_bar~x/py_bar") (str "d_bar1")) py_foo (str "foo~x/foo") (str "d_foo").

Definition cudf_jobs : pkg_jobs := mk_jobs cudf_universe [mk_req 2 false] [] [] PKG_JOBS_INSTALL 0 0 0.

Lemma cudf_universe_wf : wf_universe no_emit cudf_universe.
Proof.
  do 3 (apply wf_insert; [|apply wf_sample_row; repeat constructor|vm_compute; reflexivity|vm_compute; reflexivity]).
  apply wf_universe_new.
Qed.

Lemma cudf_universe_items i it : u_store cudf_universe !! i = Some it ->
  (i = 0 /\ it = mk_ui old_py_bar None 0 \/ i = 1 /\ it = mk_ui new_py_bar None 0 \/ i = 2 /\ it = mk_ui py_foo None 0)%nat.
Proof.
  assert (u_store cudf_universe = [mk_ui old_py_bar None 0; mk_ui new_py_bar None 0; mk_ui py_foo None 0]) as -> by (vm_compute; reflexivity).
  generalize (mk_ui old_py_bar None 0), (mk_ui new_py_bar None 0), (mk_ui py_foo None 0). intros a b c.
  destruct i as [|[|[|i]]]; [intros [= <-]; tauto..|done].
Qed.

Lemma cudf_universe_chains uid chain : pkg_jobs_universe_find cudf_universe uid = Some chain -> chain = [0; 1]%nat \/ chain = [2]%nat.
Proof.
  intros Hf. assert (chain ∈ values (u_items cudf_universe)) as H.
  { apply (chain_in_values no_emit _ _ cudf_universe_wf). by exists uid. }
  assert (values (u_items cudf_universe) = [[0; 1]; [2]]%nat) as Hv by (vm_compute; reflexivity). rewrite Hv in H.
  apply elem_of_cons in H as [->|H%list_elem_of_singleton]; [by left|by right].
Qed.

Lemma cudf_universe_writable : writable no_emit cudf_universe.
Proof.
  split; [apply cudf_universe_wf| | |].
  - intros i p Hp. unfold pkg_of in Hp. apply fmap_Some in Hp as (it & Hi & ->).
    destruct (cudf_universe_items i it Hi) as [[_ ->]|[[_ ->]|[_ ->]]]; eexists; vm_compute; reflexivity.
  - assert (by_version no_emit cudf_universe 0 1 = -1 /\ by_version no_emit cudf_universe 1 0 = 1) as [H01 H10]
      by (split; vm_compute; reflexivity).
    intros uid chain i k Hf. destruct (cudf_universe_chains uid chain Hf) as [-> | ->]; rewrite !elem_of_cons, !elem_of_nil;
      intros Hi Hk Hne; [|intuition congruence].
    destruct Hi as [->|[->|[]]], Hk as [->|[->|[]]]; [by destruct Hne|rewrite H01; lia|rewrite H10; lia|by destruct Hne].
  - intros i it Hi. destruct (cudf_universe_items i it Hi) as [[_ ->]|[[_ ->]|[_ ->]]]; cbn; unfold INT_MIN; lia.
Qed.

Definition cudf_answers : list answer :=
  [mk_answer (str "py_bar~x/py_bar") 1 2 true; mk_answer (str "foo~x/foo") 2 1 true].

Lemma cudf_answers_sensible : Forall (sensible no_emit cudf_universe) cudf_answers.
Proof.
  apply Forall_cons. split; [|apply Forall_singleton]; (split; [vm_compute; reflexivity|]).
  - exists [0; 1]%nat, 1%nat. split; [|split]; vm_compute; reflexivity.
  - exists [2]%nat, 0%nat. split; [|split]; vm_compute; reflexivity.
Qed.

Lemma cudf_exchange_witness :
  exists text rings j', pkg_jobs_cudf_emit_file no_emit cudf_jobs PKG_JOBS_INSTALL = Some (EPKG_OK, text, cudf_jobs, rings) /\
    occurs (stanza_head (str "py_bar~x/py_bar") 2) text /\
    pkg_jobs_cudf_parse_output no_emit rings cudf_jobs (answer_text cudf_answers) = Some (EPKG_OK, j') /\
    j_jobs j' = [mk_solved 1 (Some 0%nat) PKG_SOLVED_UPGRADE false; mk_solved 2 None PKG_SOLVED_INSTALL false].
Proof.
  destruct (cudf_exchange no_emit cudf_jobs PKG_JOBS_INSTALL cudf_universe_writable) as (text & rings & H & Hocc & Hans).
  - vm_compute. reflexivity.
  - intros r Hr. apply list_elem_of_singleton in Hr as ->. exists py_foo, (str "x/foo"). split; vm_compute; reflexivity.
  - intros r Hr. by apply elem_of_nil in Hr.
  - destruct (Hans cudf_answers cudf_answers_sensible) as (j' & Hp & Hj). exists text, rings, j'.
    split; [exact H|]. split; [apply (Hocc _ 1%nat), (Forall_inv cudf_answers_sensible)|]. split; [exact Hp|]. rewrite Hj. vm_compute. reflexivity.
Defined.

(** The name of a dependency is its origin, which names no package; the
    document of the example says so. *)
Definition cudf_text : option string :=
  (fun x => String.string_of_list_ascii x.1.1.2) <$> pkg_jobs_cudf_emit_file no_emit cudf_jobs PKG_JOBS_INSTALL.

Definition unlines (l : list string) : string := String.concat (String.string_of_list_ascii [NL]) l.

Example dependency_by_origin : cudf_text = Some (unlines
  ["preamble: "; ""; "package: py@bar~x/py@bar"; "version: 1"; "conflicts: py@bar~x/py@bar=2"; "installed: true"; "";
   "package: py@bar~x/py@bar"; "version: 2"; "conflicts: py@bar~x/py@bar=1"; "installed: false"; "";
   "package: foo~x/foo"; "version: 1"; "depends: x/py@bar"; "installed: false"; "";
   "request: "; "install: x/foo"; "remove: "; ""]%string).
Proof. vm_compute. reflexivity. Qed.

(** *** Answers that are misread *)

Definition versions_of (l : list (pkg_t * string * string)) : pkg_jobs :=
  mk_jobs (foldl (fun u v => insert_item u (sample_row v.1.1 "a" v.1.2 v.2 []) (str "a~x/a") (str v.2)) pkg_jobs_universe_new l)
    [] [] [] PKG_JOBS_UPGRADE 0 0 0.

(** The stanzas of a document (version and what is said of conflicts), and the
    jobs for an answer about package a. *)
Definition exchange (j : pkg_jobs) (answer : cstring) : option (pkg_error_t * list pkg_solved) :=
  '(_, _, j, r) ← pkg_jobs_cudf_emit_file no_emit j PKG_JOBS_UPGRADE;
  '(rc, j) ← pkg_jobs_cudf_parse_output no_emit r j answer; Some (rc, j_jobs j).

Definition document (j : pkg_jobs) : option string :=
  (fun x => String.string_of_list_ascii x.1.1.2) <$> pkg_jobs_cudf_emit_file no_emit j PKG_JOBS_UPGRADE.

Definition about_a (version : Z) (installed : bool) : cstring := answer_stanza (str "a~x/a") version installed.

(** A remote package as old as the installed one is not written, and not
    counted; but it counts when the answer is read.  The second version of the
    document is 2.0 (item 2); the answer selects the other 1.0 (item 1). *)
Example ignored_version_selected :
  let j := versions_of [(PKG_INSTALLED, "1.0", "d0"); (PKG_REMOTE, "1.0", "d1"); (PKG_REMOTE, "2.0", "d2")]%string in
  document j = Some (unlines ["preamble: "; ""; "package: a~x/a"; "version: 1"; "installed: true"; "";
    "package: a~x/a"; "version: 2"; "installed: false"; ""; "request: "; "upgrade: "; "remove: "; ""]%string) /\
  exchange j (about_a 2 true) = Some (EPKG_OK, [mk_solved 1 (Some 0%nat) PKG_SOLVED_UPGRADE false]).
Proof. split; vm_compute; reflexivity. Qed.

(** A version that is not the first replaces the first, which need not be
    installed; it does so even if the answer is that it is not installed, and
    if it is what is installed now. *)
Example never_installed_replaced :
  let j := versions_of [(PKG_REMOTE, "1.0", "d1"); (PKG_REMOTE, "2.0", "d2")]%string in
  exchange j (about_a 2 true) = Some (EPKG_OK, [mk_solved 1 (Some 0%nat) PKG_SOLVED_UPGRADE false]) /\
  exchange j (about_a 2 false) = Some (EPKG_OK, [mk_solved 1 (Some 0%nat) PKG_SOLVED_UPGRADE false]) /\
  exchange (versions_of [(PKG_INSTALLED, "2.0", "d0"); (PKG_REMOTE, "1.0", "d1")]%string) (about_a 2 true) =
    Some (EPKG_OK, [mk_solved 0 (Some 1%nat) PKG_SOLVED_UPGRADE false]).
Proof. split_and!; vm_compute; reflexivity. Qed.

(** Of three remote packages as old as the installed one the last is not
    ignored. *)
Example equal_version_kept :
  (fun x => omap (fun it => if ui_priority it =? INT_MIN then None else pkg_digest no_emit (ui_pkg it)) (u_store (j_universe x.1.2))) <$>
    pkg_jobs_cudf_emit_file no_emit (versions_of
      [(PKG_INSTALLED, "1.0", "d0"); (PKG_REMOTE, "1.0", "d1"); (PKG_REMOTE, "1.0", "d2"); (PKG_REMOTE, "1.0", "d3")]%string) PKG_JOBS_UPGRADE =
  Some [str "d0"; str "d3"].
Proof. vm_compute. reflexivity. Qed.

(** A stanza without a version is a NULL string for strtoul. *)
Example missing_version : exchange cudf_jobs (key_line "package" (str "foo~x/foo")) = None.
Proof. vm_compute. reflexivity. Qed.

(** The last of several versions is followed by the line break, unless the one
    after it is the package itself: of three versions the stanza of the second
    has its list of conflicts broken in two lines. *)
Example conflicts_broken :
  document (versions_of [(PKG_INSTALLED, "1.0", "d0"); (PKG_REMOTE, "2.0", "d1"); (PKG_REMOTE, "3.0", "d2")]%string) = Some (unlines
    ["preamble: "; ""; "package: a~x/a"; "version: 1"; "conflicts: a~x/a=2, a~x/a=3"; "installed: true"; "";
     "package: a~x/a"; "version: 2"; "conflicts: a~x/a=1"; "a~x/a=3"; "installed: false"; "";
     "package: a~x/a"; "version: 3"; "conflicts: a~x/a=1, a~x/a=2"; "installed: false"; "";
     "request: "; "upgrade: "; "remove: "; ""]%string).
Proof. vm_compute. reflexivity. Qed.
