(* ===== verification/FileConflicts.v ===== *)
(** * Conflicts between files (libpkg/pkg_jobs_conflicts.c, libpkg/pkgdb.c)

    Before packages are installed their files are compared, with each other and
    with the files of what is installed (pkgdb_integrity_append and
    pkgdb_integrity_check): the paths go into a temporary table in which a path
    occurs once.  For two packages with a path in common a conflict is
    registered in the universe, and the job is solved again.

    A table is the map of its rows by path.  The statements that are executed
    do not fail.  [None] is a NULL pointer that is followed, or fuel that ran
    out in the universe. *)
From S2P Require Import Prelude CString UtHash Pkg Checksum Universe UniverseBuild Jobs Solve.

(** ** Registration *)

Section registration.
Context (emit : ucl -> cstring) (sha256 : cstring -> list Z)
  (repo_digest_format : cstring -> option pkg_checksum_type_t) `{db : pkgdb} (fuel : nat).

(** A conflict of an item with a unique id, if it has none. *)
Definition register_one (u : universe) (i : nat) (uid : cstring) (type : pkg_conflict_type) : option universe :=
  p ← pkg_of u i;
  Some (if found (conflicts p) uid then u
        else set_item_pkg u i (set_conflicts p (hash_add (conflicts p) uid (mk_conflict uid type)))).

Definition pkg_conflicts_register (u : universe) (i1 i2 : nat) (type : pkg_conflict_type) : option universe :=
  p1 ← pkg_of u i1;
  p2 ← pkg_of u i2;
  u1 ← pkg_uid emit p1;
  u2 ← pkg_uid emit p2;
  u ← register_one u i1 u2 type;
  register_one u i2 u1 type.

Definition pkg_conflicts_add_missing (j : pkg_jobs) (uid : cstring) : option (pkg_error_t * pkg_jobs) :=
  let '(j, npkg) := pkg_jobs_universe_get_local j uid 0 in
  '(j, npkg) ← match npkg with Some _ => Some (j, npkg) | None => pkg_jobs_universe_get_remote emit j uid 0 end;
  match npkg with
  | None => Some (EPKG_FATAL, j)
  | Some npkg => pkg_jobs_universe_process emit sha256 repo_digest_format fuel j npkg
  end.

(** The state of the callbacks: the job and [conflicts_registered]. *)
Abbreviation registry := (pkg_jobs * nat)%type.

Definition registered (s : registry) (i1 i2 : nat) (type : pkg_conflict_type) : option registry :=
  u ← pkg_conflicts_register (j_universe (fst s)) i1 i2 type; Some (set_universe (fst s) u, S (snd s)).

(** One pair of items: an installed package and one that is not. *)
Definition register_pair (s : registry) (i1 i2 : nat) : option registry :=
  p1 ← pkg_of (j_universe (fst s)) i1;
  p2 ← pkg_of (j_universe (fst s)) i2;
  if negb (Bool.eqb (is_local p1) (is_local p2)) then registered s i1 i2 PKG_CONFLICT_REMOTE_LOCAL else Some s.

Definition register_chains (o1 o2 : cstring) (s : registry) : option registry :=
  fold_opt (fun s i1 => fold_opt (fun s i2 => register_pair s i1 i2) (items_of (j_universe (fst s)) o2) s)
    (items_of (j_universe (fst s)) o1) s.

Definition pkg_conflicts_add_from_pkgdb_local (o1 o2 : cstring) (s : registry) : option registry :=
  let '(j, n) := s in
  match pkg_jobs_universe_find (j_universe j) o1, pkg_jobs_universe_find (j_universe j) o2 with
  | None, None => Some s
  | None, Some _ =>
      '(rc, j) ← pkg_conflicts_add_missing j o1;
      match rc with EPKG_OK => register_chains o1 o2 (j, n) | _ => Some (j, n) end
  | Some _, None =>
      '(rc, j) ← pkg_conflicts_add_missing j o2;
      match rc with EPKG_OK => register_chains o1 o2 (j, n) | _ => Some (j, n) end
  | Some chain, Some _ =>
      i ← head chain;
      p ← pkg_of (j_universe j) i;
      if found (conflicts p) o2 then Some s else register_chains o1 o2 s
  end.

(** The first item of the chain that is not installed and has no conflict with
    [o1] yet. *)
Fixpoint register_first (s : registry) (i1 : nat) (o1 : cstring) (l : list nat) : option registry :=
  match l with
  | [] => Some s
  | i2 :: l =>
      p2 ← pkg_of (j_universe (fst s)) i2;
      if negb (found (conflicts p2) o1) && negb (is_local p2) then registered s i1 i2 PKG_CONFLICT_REMOTE_REMOTE
      else register_first s i1 o1 l
  end.

Definition register_remote (o1 o2 : cstring) (chain2 : list nat) (s : registry) (i1 : nat) : option registry :=
  p1 ← pkg_of (j_universe (fst s)) i1;
  if negb (is_local p1) && negb (found (conflicts p1) o2) then register_first s i1 o1 chain2 else Some s.

Definition pkg_conflicts_add_from_pkgdb_remote (o1 o2 : cstring) (s : registry) : option registry :=
  let j := fst s in
  match pkg_jobs_universe_find (j_universe j) o1, pkg_jobs_universe_find (j_universe j) o2 with
  | Some chain1, Some chain2 =>
      i ← head chain1;
      p ← pkg_of (j_universe j) i;
      if found (conflicts p) o2 then Some s else fold_opt (register_remote o1 o2 chain2) chain1 s
  | _, _ => Some s
  end.

(** ** The tables *)

(** The temporary table integritycheck, from a path to a unique id. *)
Abbreviation paths := (gmap cstring cstring).

(** One file: the path is inserted, or the package that has it is reported. *)
Definition append_file (puid : cstring) (st : pkg_error_t * paths * registry) (path : cstring)
  : option (pkg_error_t * paths * registry) :=
  let '(ret, t, s) := st in
  match t !! path with
  | None => Some (ret, <[path := puid]> t, s)
  | Some uid => s ← pkg_conflicts_add_from_pkgdb_remote puid uid s; Some (EPKG_CONFLICT, t, s)
  end.

Definition pkgdb_integrity_append (t : paths) (p : pkg) (s : registry) : option (pkg_error_t * paths * registry) :=
  puid ← pkg_uid emit p;
  fs ← pkg_files p;
  fold_opt (append_file puid) (map f_path fs) (EPKG_OK, t, s).

(** The files of what is installed, with the unique id of their package, and
    the order in which the rows of a query come. *)
Context (local_files : gmap cstring cstring) (order_rows : list (cstring * cstring) -> list (cstring * cstring)).

(** Paths that an installed package and one of the table have, with different
    unique ids; a path has one row in either table. *)
Definition shared (t : paths) : list (cstring * cstring) :=
  order_rows (List.filter (fun r => match local_files !! fst r with Some uid => negb (streq uid (snd r)) | None => false end) (map_to_list t)).

Definition check_row (st : pkg_error_t * registry) (r : cstring * cstring) : option (pkg_error_t * registry) :=
  uniqueid ← local_files !! fst r;
  s ← pkg_conflicts_add_from_pkgdb_local uniqueid (snd r) (snd st);
  Some (EPKG_CONFLICT, s).

(** The table is dropped. *)
Definition pkgdb_integrity_check (t : paths) (s : registry) : option (pkg_error_t * paths * registry) :=
  '(ret, s) ← fold_opt check_row (shared t) (EPKG_OK, s);
  Some (ret, ∅, s).

(** ** The jobs *)

(** The package of a job, when its files are to be looked at. *)
Definition job_files (j : pkg_jobs) (ps : pkg_solved) : option (pkg_jobs * option pkg) :=
  match s_type ps with
  | PKG_SOLVED_DELETE | PKG_SOLVED_UPGRADE_REMOVE => Some (j, None)
  | _ =>
      p ← pkg_of (j_universe j) (s_item0 ps);
      match type p with
      | PKG_REMOTE => Some (load_item j (s_item0 ps) p (Z.lor PKG_LOAD_FILES PKG_LOAD_DIRS))
      | PKG_FILE => Some (j, Some p)
      | _ => Some (j, None)
      end
  end.

(** [ret], [added], the table, and the registry. *)
Definition check_job (st : pkg_error_t * nat * paths * registry) (ps : pkg_solved) : option (pkg_error_t * nat * paths * registry) :=
  let '(ret, added, t, s) := st in
  '(j, p) ← job_files (fst s) ps;
  let s := (j, snd s) in
  match p with
  | None => Some (ret, added, t, s)
  | Some p =>
      '(res, t, s) ← pkgdb_integrity_append t p s;
      Some match res with EPKG_OK => (ret, S added, t, s) | _ => (res, added, t, s) end
  end.

Definition pkg_jobs_check_conflicts (t : paths) (s : registry) : option (pkg_error_t * paths * registry) :=
  '(ret, added, t, s) ← fold_opt check_job (j_jobs (fst s)) (EPKG_OK, O, t, s);
  if (0 <? added)%nat then
    '(res, t, s) ← pkgdb_integrity_check t s;
    Some match res with EPKG_OK => (ret, t, s) | _ => (res, t, s) end
  else Some (ret, t, s).
End registration.

(** ** When no conflict is found *)

Section check.
Context (emit : ucl -> cstring) (sha256 : cstring -> list Z)
  (repo_digest_format : cstring -> option pkg_checksum_type_t) `{db : pkgdb} (fuel : nat)
  (local_files : gmap cstring cstring) (order_rows : list (cstring * cstring) -> list (cstring * cstring)).

(** The rows come in some order; a package that is completed with its files is
    still in order and has the same unique id. *)
Context (Horder : forall l, order_rows l ≡ₚ l)
  (Hload : forall p, wf_pkg p -> let q := pkgdb_ensure_loaded p (Z.lor PKG_LOAD_FILES PKG_LOAD_DIRS) in
    wf_pkg q /\ pkg_uid emit q = pkg_uid emit p).

Abbreviation registry := (pkg_jobs * nat)%type.
Abbreviation paths := (gmap cstring cstring).
Abbreviation check := (pkg_jobs_check_conflicts emit sha256 repo_digest_format fuel local_files order_rows).

Definition add_all (puid : cstring) (l : list cstring) (t : paths) : paths := foldl (fun t x => <[x := puid]> t) t l.

Lemma add_all_lookup puid l t x : add_all puid l t !! x = if decide (x ∈ l) then Some puid else t !! x.
Proof.
  unfold add_all. revert t; induction l as [|y l IH]; intros t; cbn [foldl].
  - by rewrite decide_False by apply not_elem_of_nil.
  - rewrite IH. destruct (decide (x ∈ l)) as [Hl|Hl]; [by rewrite decide_True by (by right)|].
    destruct (decide (x = y)) as [->|Hne].
    + by rewrite lookup_insert_eq, decide_True by (by left).
    + rewrite lookup_insert_ne by done. rewrite decide_False; [done|]. by rewrite not_elem_of_cons.
Qed.

(** A path that is there already is a conflict, for good. *)
Lemma append_ok puid l : forall t (s : registry), NoDup l -> (forall x, x ∈ l -> t !! x = None) ->
  fold_opt (append_file emit puid) l (EPKG_OK, t, s) = Some (EPKG_OK, add_all puid l t, s).
Proof.
  induction l as [|x l IH]; intros t s Hn Ht; [done|]. apply NoDup_cons in Hn as [Hx Hn]. cbn [fold_opt append_file].
  rewrite Ht by (by left). cbn [mbind option_bind]. rewrite IH; [done|done|].
  intros y Hy. rewrite lookup_insert_ne by (by intros ->). apply Ht. by right.
Qed.

Lemma append_conflict puid l : forall t (s : registry) r, r <> EPKG_OK ->
  forall t' s', fold_opt (append_file emit puid) l (r, t, s) <> Some (EPKG_OK, t', s').
Proof.
  induction l as [|x l IH]; intros t s r Hr t' s' H; [cbn in H; congruence|]. cbn [fold_opt append_file] in H.
  destruct (t !! x) as [u|].
  - destruct (pkg_conflicts_add_from_pkgdb_remote emit puid u s); [|done]. cbn [mbind option_bind] in H. by eapply IH in H.
  - cbn [mbind option_bind] in H. by eapply IH in H.
Qed.

Lemma append_inv puid l : forall t (s : registry) t' s',
  fold_opt (append_file emit puid) l (EPKG_OK, t, s) = Some (EPKG_OK, t', s') ->
  NoDup l /\ (forall x, x ∈ l -> t !! x = None) /\ t' = add_all puid l t /\ s' = s.
Proof.
  induction l as [|x l IH]; intros t s t' s' H.
  - injection H as <- <-. split_and!; [constructor|by intros x ?%elem_of_nil|done|done].
  - cbn [fold_opt append_file] in H. destruct (t !! x) as [u|] eqn:Ex.
    + destruct (pkg_conflicts_add_from_pkgdb_remote emit puid u s); [|done]. cbn [mbind option_bind] in H.
      by apply append_conflict in H.
    + cbn [mbind option_bind] in H. destruct (IH _ _ _ _ H) as (Hn & Ht & -> & ->).
      assert (x ∉ l) as Hx by (intros Hx; specialize (Ht x Hx); by rewrite lookup_insert_eq in Ht).
      split_and!; [by constructor| |done|done]. intros y [->|Hy]%elem_of_cons; [done|]. specialize (Ht y Hy).
      by rewrite lookup_insert_ne in Ht by (by intros ->).
Qed.

(** The package whose files a job brings, and its paths with its unique id. *)
Definition checked_pkg (u : universe) (ps : pkg_solved) : option pkg :=
  match s_type ps with
  | PKG_SOLVED_DELETE | PKG_SOLVED_UPGRADE_REMOVE => None
  | _ =>
      p ← pkg_of u (s_item0 ps);
      match type p with
      | PKG_REMOTE => Some (pkgdb_ensure_loaded p (Z.lor PKG_LOAD_FILES PKG_LOAD_DIRS))
      | PKG_FILE => Some p
      | _ => None
      end
  end.

Definition job_paths (u : universe) (ps : pkg_solved) : list (cstring * cstring) :=
  match checked_pkg u ps with
  | Some p => map (fun f => (f_path f, default [] (pkg_uid emit p))) (values (files p))
  | None => []
  end.

Definition all_paths (u : universe) (l : list pkg_solved) : list (cstring * cstring) := concat (map (job_paths u) l).

(** Files are loaded into the packages of some items. *)
Record files_loaded (j j' : pkg_jobs) : Prop := mk_files_loaded {
  fl_rest : set_universe j (j_universe j') = j';
  fl_items : u_items (j_universe j') = u_items (j_universe j);
  fl_pkgs : forall i p, pkg_of (j_universe j) i = Some p ->
    pkg_of (j_universe j') i = Some p \/
    type p = PKG_REMOTE /\ pkg_of (j_universe j') i = Some (pkgdb_ensure_loaded p (Z.lor PKG_LOAD_FILES PKG_LOAD_DIRS)) }.

(** The packages of the jobs, each of an item of its own. *)
Record checkable (u : universe) (l : list pkg_solved) : Prop := mk_checkable {
  ck_items : forall ps, ps ∈ l -> exists p, pkg_of u (s_item0 ps) = Some p /\ wf_pkg p /\ is_Some (pkg_uid emit p);
  ck_once : NoDup (map s_item0 l) }.

Lemma job_files_ok j ps : (exists p, pkg_of (j_universe j) (s_item0 ps) = Some p /\ wf_pkg p /\ is_Some (pkg_uid emit p)) ->
  exists j', job_files j ps = Some (j', checked_pkg (j_universe j) ps) /\ set_universe j (j_universe j') = j' /\
    u_items (j_universe j') = u_items (j_universe j) /\
    (forall k, k <> s_item0 ps -> pkg_of (j_universe j') k = pkg_of (j_universe j) k) /\
    (forall p, pkg_of (j_universe j) (s_item0 ps) = Some p -> pkg_of (j_universe j') (s_item0 ps) = Some p \/
       type p = PKG_REMOTE /\ pkg_of (j_universe j') (s_item0 ps) = Some (pkgdb_ensure_loaded p (Z.lor PKG_LOAD_FILES PKG_LOAD_DIRS))).
Proof.
  intros (p & Hp & _). set (q := pkgdb_ensure_loaded p (Z.lor PKG_LOAD_FILES PKG_LOAD_DIRS)).
  assert (job_files j ps = Some (j, checked_pkg (j_universe j) ps) \/
    type p = PKG_REMOTE /\ job_files j ps = Some (set_universe j (set_item_pkg (j_universe j) (s_item0 ps) q), checked_pkg (j_universe j) ps))
    as [-> |(Ht & ->)].
  { unfold job_files, checked_pkg. rewrite Hp. destruct (s_type ps); cbn [mbind option_bind]; try (by left);
      (destruct (type p); try (by left); by right). }
  - exists j. split_and!; try done; [by destruct j|]. by left.
  - eexists. split; [done|]. cbn [j_universe set_universe]. split_and!; [done|done| |].
    + intros k Hk. by rewrite pkg_of_set_item, decide_False.
    + intros p' Hp'. right. assert (p' = p) as -> by congruence. split; [done|]. by rewrite pkg_of_set_item, decide_True, Hp.
Qed.

Definition insert_all (es : list (cstring * cstring)) (t : paths) : paths := foldl (fun t e => <[fst e := snd e]> t) t es.

Lemma add_insert_all uid (fs : list pkg_file) t :
  add_all uid (map f_path fs) t = insert_all (map (fun f => (f_path f, uid)) fs) t.
Proof. unfold add_all, insert_all. revert t; induction fs as [|f fs IH]; intros t; [done|]. cbn. apply IH. Qed.

(** The paths can go into the table. *)
Definition fits (es : list (cstring * cstring)) (t : paths) : Prop :=
  NoDup (map fst es) /\ forall x, x ∈ map fst es -> t !! x = None.

Lemma insert_all_lookup es t x : insert_all es t !! x = None <-> t !! x = None /\ x ∉ map fst es.
Proof.
  unfold insert_all. revert t; induction es as [|e es IH]; intros t; cbn [foldl map].
  - rewrite elem_of_nil. tauto.
  - rewrite IH, not_elem_of_cons. destruct (decide (x = fst e)) as [->|Hne]; [rewrite lookup_insert_eq|rewrite lookup_insert_ne by done]; [|tauto].
    split; [by intros [? _]|]. by intros (_ & ? & _).
Qed.

Lemma fits_app es1 es2 t : fits (es1 ++ es2) t <-> fits es1 t /\ fits es2 (insert_all es1 t).
Proof.
  unfold fits. rewrite map_app, NoDup_app. setoid_rewrite elem_of_app. setoid_rewrite insert_all_lookup. split.
  - intros ((H1 & Hd & H2) & Ht). split_and!; [done|auto|done|]. intros x Hx. split; [auto|]. intros Hx1. by apply (Hd x).
  - intros ((H1 & Ht1) & H2 & Ht2). split_and!; [done| |done|].
    + intros x Hx Hx2. by apply (Ht2 x Hx2).
    + intros x [Hx|Hx]; [auto|]. by apply Ht2.
Qed.

(** One job. *)
Lemma check_job_cases j n ps a t : (exists p, pkg_of (j_universe j) (s_item0 ps) = Some p /\ wf_pkg p /\ is_Some (pkg_uid emit p)) ->
  exists j' a', set_universe j (j_universe j') = j' /\ u_items (j_universe j') = u_items (j_universe j) /\
    (forall k, k <> s_item0 ps -> pkg_of (j_universe j') k = pkg_of (j_universe j) k) /\
    (forall p, pkg_of (j_universe j) (s_item0 ps) = Some p -> pkg_of (j_universe j') (s_item0 ps) = Some p \/
       type p = PKG_REMOTE /\ pkg_of (j_universe j') (s_item0 ps) = Some (pkgdb_ensure_loaded p (Z.lor PKG_LOAD_FILES PKG_LOAD_DIRS))) /\
    (a' = a /\ job_paths (j_universe j) ps = [] \/ a' = S a) /\
    (fits (job_paths (j_universe j) ps) t ->
       check_job emit (EPKG_OK, a, t, (j, n)) ps = Some (EPKG_OK, a', insert_all (job_paths (j_universe j) ps) t, (j', n))) /\
    forall r, check_job emit (EPKG_OK, a, t, (j, n)) ps = Some r -> fst (fst (fst r)) = EPKG_OK -> fits (job_paths (j_universe j) ps) t.
Proof.
  intros Hp. destruct (job_files_ok j ps Hp) as (j' & Hf & H1 & H2 & H3 & H4). destruct Hp as (p & Hp & Hw & Hu).
  unfold check_job. cbn [fst snd]. rewrite Hf. cbn [mbind option_bind]. unfold job_paths.
  destruct (checked_pkg (j_universe j) ps) as [q|] eqn:Ec.
  2:{ exists j', a. split_and!; try done; [by left|]. intros r _ _. split; [constructor|by intros x ?%elem_of_nil]. }
  assert (wf_pkg q /\ pkg_uid emit q = pkg_uid emit p) as [Hwq Huq].
  { unfold checked_pkg in Ec. destruct (Hload p Hw) as [Hl1 Hl2].
    destruct (s_type ps); try done; rewrite Hp in Ec; cbn [mbind option_bind] in Ec; destruct (type p); try done; injection Ec as <-; done. }
  exists j', (S a). destruct Hu as [uid Hu]. unfold pkgdb_integrity_append. rewrite Huq, Hu. cbn [mbind option_bind default from_option id].
  unfold pkg_files. rewrite hash_iter_wf by apply Hwq. cbn [mbind option_bind].
  assert (map fst (map (fun f => (f_path f, uid)) (values (files q))) = map f_path (values (files q))) as Hm by (by rewrite map_map).
  split_and!; try done; [by right| |].
  - intros [Hn Ht]. rewrite Hm in *. rewrite append_ok by done. cbn [mbind option_bind]. by rewrite add_insert_all.
  - intros r. destruct (fold_opt _ _ _) as [[[rc t'] s']|] eqn:Ef; [|done]. cbn [mbind option_bind]. intros [= <-] Hr.
    assert (rc = EPKG_OK) as -> by (by destruct rc). apply append_inv in Ef as (Hn & Ht & _). by split; rewrite Hm.
Qed.

Lemma check_job_fails ps r a t s r' : r <> EPKG_OK -> check_job emit (r, a, t, s) ps = Some r' -> fst (fst (fst r')) <> EPKG_OK.
Proof.
  intros Hr. unfold check_job. destruct (job_files _ ps) as [[j p]|]; [|done]. cbn [mbind option_bind]. destruct p as [p|]; [|by intros [= <-]].
  destruct (pkgdb_integrity_append _ _ _ _) as [[[rc t'] s']|]; [|done]. cbn [mbind option_bind]. intros [= <-]. by destruct rc.
Qed.

Lemma check_jobs_fail l : forall st r, fst (fst (fst st)) <> EPKG_OK -> fold_opt (check_job emit) l st = Some r -> fst (fst (fst r)) <> EPKG_OK.
Proof.
  induction l as [|ps l IH]; intros st r Hst; [by intros [= <-]|]. cbn [fold_opt].
  destruct (check_job emit st ps) as [st'|] eqn:E; [|done]. cbn [mbind option_bind]. apply IH. destruct st as [[[r0 a] t] s]. by eapply check_job_fails.
Qed.

Lemma job_paths_same u u' ps : pkg_of u' (s_item0 ps) = pkg_of u (s_item0 ps) -> job_paths u' ps = job_paths u ps.
Proof. intros H. unfold job_paths, checked_pkg. by rewrite H. Qed.

(** All jobs: the paths fit exactly when there is no conflict. *)
Lemma check_jobs_ok l : forall j n a t, checkable (j_universe j) l ->
  exists j' a', files_loaded j j' /\ (forall k, k ∉ map s_item0 l -> pkg_of (j_universe j') k = pkg_of (j_universe j) k) /\ (a' = O -> a = O /\ all_paths (j_universe j) l = []) /\
    (fits (all_paths (j_universe j) l) t ->
       fold_opt (check_job emit) l (EPKG_OK, a, t, (j, n)) = Some (EPKG_OK, a', insert_all (all_paths (j_universe j) l) t, (j', n))) /\
    forall r, fold_opt (check_job emit) l (EPKG_OK, a, t, (j, n)) = Some r -> fst (fst (fst r)) = EPKG_OK ->
      fits (all_paths (j_universe j) l) t.
Proof.
  induction l as [|ps l IH]; intros j n a t [Hi Hn].
  - exists j, a. split_and!; [split; [by destruct j|done|by left]|done|done|done|]. intros r _ _. split; [constructor|by intros x ?%elem_of_nil].
  - destruct (check_job_cases j n ps a t) as (j1 & a1 & H1 & H2 & H3 & H4 & H5 & H6 & H7); [apply Hi; by left|].
    cbn in Hn. apply NoDup_cons in Hn as [Hps Hn].
    assert (forall q, q ∈ l -> pkg_of (j_universe j1) (s_item0 q) = pkg_of (j_universe j) (s_item0 q)) as Hsame.
    { intros q Hq. apply H3. intros E. apply Hps. rewrite <- E. apply list_elem_of_fmap. by exists q. }
    assert (all_paths (j_universe j1) l = all_paths (j_universe j) l) as Hall.
    { unfold all_paths. f_equal. apply map_ext_in. intros q Hq%list_elem_of_In. by apply job_paths_same, Hsame. }
    destruct (IH j1 n a1 (insert_all (job_paths (j_universe j) ps) t)) as (j' & a' & Hl & Hout & Ha & Hok & Hno).
    { split; [|done]. intros q Hq. rewrite Hsame by done. apply Hi. by right. }
    rewrite Hall in *. change (all_paths (j_universe j) (ps :: l)) with (job_paths (j_universe j) ps ++ all_paths (j_universe j) l).
    exists j', a'. split_and!.
    + destruct Hl as [L1 L2 L3]. split; [rewrite <- L1, <- H1; by destruct j|congruence|]. intros i p Hp.
      destruct (decide (i = s_item0 ps)) as [->|Hne]; [|rewrite <- H3 in Hp by done; by apply L3].
      rewrite (Hout _ Hps). by apply H4.
    + intros k Hk. cbn in Hk. apply not_elem_of_cons in Hk as [Hk1 Hk2]. rewrite (Hout k Hk2). by apply H3.
    + intros Ha0. destruct (Ha Ha0) as [Ha1 Hn0]. rewrite Hn0, app_nil_r. destruct H5 as [[<- Hj]|H5]; [done|lia].
    + intros [Hf1 Hf2]%fits_app. cbn [fold_opt]. rewrite (H6 Hf1). cbn [mbind option_bind]. rewrite (Hok Hf2).
      unfold insert_all. by rewrite foldl_app.
    + intros r Hr Hrc. cbn [fold_opt] in Hr. destruct (check_job emit (EPKG_OK, a, t, (j, n)) ps) as [st|] eqn:E; [|done].
      cbn [mbind option_bind] in Hr. destruct (decide (fst (fst (fst st)) = EPKG_OK)) as [Hs|Hs]; [|by apply check_jobs_fail in Hr].
      pose proof (H7 st eq_refl Hs) as Hf1. pose proof (H6 Hf1) as H8. injection H8 as ->. apply fits_app. split; [done|]. by apply (Hno r).
Qed.

Lemma insert_all_elem es x uid : NoDup (map fst es) -> insert_all es ∅ !! x = Some uid <-> (x, uid) ∈ es.
Proof.
  assert (forall t, NoDup (map fst es) -> insert_all es t !! x = Some uid <-> (x, uid) ∈ es \/ (x ∉ map fst es) /\ t !! x = Some uid) as H.
  { induction es as [|[y v] es IH]; intros t Hn.
    - cbn. rewrite !elem_of_nil. tauto.
    - cbn [map fst] in Hn |- *. apply NoDup_cons in Hn as [Hy Hn]. unfold insert_all. cbn [foldl fst snd]. fold (insert_all es (<[y := v]> t)).
      rewrite IH by done. rewrite elem_of_cons, not_elem_of_cons.
      assert ((x, uid) ∈ es -> x ∈ map fst es) as Hin by (intros Hx; apply list_elem_of_fmap; by exists (x, uid)).
      destruct (decide (x = y)) as [->|Hne].
      + rewrite lookup_insert_eq. split; [intros [?|[_ [= ->]]]; tauto|]. intros [[[= ->]|?]|[[? _] _]]; [by right|by left|done].
      + rewrite lookup_insert_ne by done. split; [intros [?|[? ?]]; tauto|]. intros [[[= ? ?]|?]|[[_ ?] ?]]; [done|by left|by right]. }
  intros Hn. rewrite (H ∅ Hn), lookup_empty. split; [intros [?|[_ ?]]; done|by left].
Qed.

(** No two packages of the jobs have a path in common, and what is installed
    has a path in common only with packages of the same unique id. *)
Definition clash_free (u : universe) (l : list pkg_solved) : Prop :=
  NoDup (map fst (all_paths u l)) /\
  forall path uid owner, (path, uid) ∈ all_paths u l -> local_files !! path = Some owner -> owner = uid.

Lemma shared_nil es : NoDup (map fst es) ->
  shared local_files order_rows (insert_all es ∅) = [] <->
  forall path uid owner, (path, uid) ∈ es -> local_files !! path = Some owner -> owner = uid.
Proof.
  intros Hn. unfold shared. set (rows := List.filter _ _).
  assert (order_rows rows = [] <-> rows = []) as ->.
  { split; intros H; apply Permutation_nil_r; [by rewrite <- (Horder rows), H|by rewrite Horder, H]. }
  assert (forall path uid, (path, uid) ∈ map_to_list (insert_all es ∅) <-> (path, uid) ∈ es) as Hm
    by (intros; by rewrite elem_of_map_to_list, insert_all_elem).
  split.
  - intros H path uid owner Hin Ho. destruct (decide (owner = uid)) as [|Hne]; [done|]. exfalso.
    assert ((path, uid) ∈ rows) as Hr; [|rewrite H in Hr; by apply elem_of_nil in Hr].
    apply list_elem_of_In, filter_In. split; [apply list_elem_of_In; by apply Hm|]. cbn [fst snd]. rewrite Ho, streq_spec.
    by rewrite bool_decide_eq_false_2.
  - intros H. destruct rows as [|[path uid] rest] eqn:E; [done|]. exfalso.
    assert ((path, uid) ∈ rows) as Hr by (rewrite E; by left). unfold rows in Hr.
    apply list_elem_of_In, filter_In in Hr as [Hr%list_elem_of_In Ho]. cbn [fst snd] in Ho.
    destruct (local_files !! path) as [owner|] eqn:Eo; [|done]. rewrite streq_spec in Ho.
    rewrite (H path uid owner (proj1 (Hm _ _) Hr) Eo) in Ho. by rewrite bool_decide_eq_true_2 in Ho.
Qed.

Abbreviation row_check := (check_row emit sha256 repo_digest_format fuel local_files).

Lemma check_row_inv st row st' : row_check st row = Some st' -> fst st' = EPKG_CONFLICT.
Proof.
  unfold check_row. destruct (local_files !! fst row); [|done]. cbn [mbind option_bind].
  destruct (pkg_conflicts_add_from_pkgdb_local _ _ _ _ _ _ _); [|done]. by intros [= <-].
Qed.

Lemma check_rows_inv l st r : fold_opt row_check l st = Some r -> fst r = EPKG_OK -> l = [].
Proof.
  assert (forall l st r, fold_opt row_check l st = Some r -> fst st = EPKG_CONFLICT -> fst r = EPKG_CONFLICT) as Hc.
  { clear. intros l st r H Hst. revert H. apply (fold_opt_keeps (fun st => fst st = EPKG_CONFLICT)); [|done].
    intros a x a' _ _. apply check_row_inv. }
  destruct l as [|row l]; [done|]. cbn [fold_opt]. destruct (row_check st row) as [st'|] eqn:E; [|done]. cbn [mbind option_bind].
  intros H Hr. apply Hc in H; [congruence|]. by eapply check_row_inv.
Qed.

(** The answer is EPKG_OK exactly when there is no clash; then files are loaded
    and nothing else happens. *)
Lemma check_conflicts_ok j n : checkable (j_universe j) (j_jobs j) ->
  (clash_free (j_universe j) (j_jobs j) -> exists j', files_loaded j j' /\ check ∅ (j, n) = Some (EPKG_OK, ∅, (j', n))) /\
  forall t s, check ∅ (j, n) = Some (EPKG_OK, t, s) -> clash_free (j_universe j) (j_jobs j).
Proof.
  intros Hck. destruct (check_jobs_ok (j_jobs j) j n O ∅ Hck) as (j' & a & Hl & _ & Ha & Hok & Hno).
  unfold pkg_jobs_check_conflicts. cbn [fst]. split.
  - intros [Hn Hloc]. exists j'. split; [done|]. rewrite Hok by (split; [done|intros; apply lookup_empty]). cbn [mbind option_bind].
    destruct (Nat.ltb_spec 0 a) as [Hlt|Hge].
    + unfold pkgdb_integrity_check. rewrite (proj2 (shared_nil _ Hn)) by done. done.
    + destruct (Ha ltac:(lia)) as [_ Hnil]. by rewrite Hnil.
  - intros t s. destruct (fold_opt _ _ _) as [[[[r a'] t'] s']|] eqn:E; [|done]. cbn [mbind option_bind]. intros H.
    assert (r = EPKG_OK) as ->.
    { destruct (0 <? a')%nat; [|by injection H as ->]. destruct (pkgdb_integrity_check _ _ _ _ _ _ _ _) as [[[res t1] s1]|] eqn:Ei; [|done].
      cbn [mbind option_bind] in H. destruct res; by injection H. }
    pose proof (Hno _ eq_refl eq_refl) as Hf. destruct Hf as [Hn Hf]. split; [done|].
    pose proof (Hok (conj Hn Hf)) as H8. injection H8 as -> -> ->.
    destruct (Nat.ltb_spec 0 a) as [Hlt|Hge].
    + destruct (pkgdb_integrity_check _ _ _ _ _ _ _ _) as [[[res t1] s1]|] eqn:Ei; [|done]. cbn [mbind option_bind] in H.
      unfold pkgdb_integrity_check in Ei. destruct (fold_opt _ (shared _ _ _) _) as [[ret s2]|] eqn:Es; [|done].
      cbn [mbind option_bind] in Ei. injection Ei as -> <- ->.
      assert (res = EPKG_OK) as -> by (by destruct res; injection H).
      apply check_rows_inv in Es; [|done]. by apply shared_nil.
    + destruct (Ha ltac:(lia)) as [_ Hnil]. rewrite Hnil. intros path uid owner Hin. by apply elem_of_nil in Hin.
Qed.

(** C25: pkg_jobs_check_conflicts answers EPKG_OK exactly when no two packages to
    be installed have a file in common and none has one in common with an
    installed package of another unique id; then no conflict is registered, the
    table is empty again, and the job is what it was but for the files that
    were loaded. *)
Theorem check_conflicts_spec (j : pkg_jobs) (n : nat) (Hck : checkable (j_universe j) (j_jobs j)) :
  (clash_free (j_universe j) (j_jobs j) ->
     exists j', files_loaded j j' /\ check ∅ (j, n) = Some (EPKG_OK, ∅, (j', n))) /\
  forall t s, check ∅ (j, n) = Some (EPKG_OK, t, s) -> clash_free (j_universe j) (j_jobs j).
Proof. by apply check_conflicts_ok. Qed.
End check.

(** ** Registered conflicts *)

Section conflicts.
Context (emit : ucl -> cstring).

Abbreviation registry := (pkg_jobs * nat)%type.

Definition conflict_with (p : pkg) (uid : cstring) : option pkg_conflict := hash_lookup (conflicts p) uid.

Lemma found_conflict p uid : wf_pkg p -> found (conflicts p) uid = false <-> conflict_with p uid = None.
Proof.
  intros Hw. unfold found, conflict_with, hash_lookup. destruct (hash_find (conflicts p) uid) as [i|] eqn:E; [|done].
  split; [done|]. destruct (hash_find_elements _ _ _ (proj1 (proj1 (wf_conflicts _ Hw))) E) as (v & _ & Hl). unfold hash_lookup in Hl.
  rewrite E in Hl. cbn in *. by rewrite Hl.
Qed.

(** Packages gain conflicts, of one kind and between two unique ids. *)
Record noted (ty : pkg_conflict_type) (u u' : universe) : Prop := mk_noted {
  nt_items : u_items u' = u_items u;
  nt_rest : u_seen u' = u_seen u /\ u_provides u' = u_provides u /\ nitems u' = nitems u /\ length (u_store u') = length (u_store u);
  nt_pkgs : forall i p, pkg_of u i = Some p -> exists x, pkg_of u' i = Some (set_conflicts p x) /\ wf_pkg (set_conflicts p x) /\
    forall uid, hash_lookup x uid = conflict_with p uid \/ conflict_with p uid = None /\ hash_lookup x uid = Some (mk_conflict uid ty) }.

Lemma noted_refl ty u : wf_universe emit u -> noted ty u u.
Proof.
  intros Hw. split; [done|done|]. intros i p Hp. exists (conflicts p). pose proof (wu_pkgs _ _ Hw _ _ Hp) as H.
  destruct p. split_and!; [done|done|]. by left.
Qed.

Lemma noted_trans ty u1 u2 u3 : noted ty u1 u2 -> noted ty u2 u3 -> noted ty u1 u3.
Proof.
  intros [I1 (R1 & R2 & R3 & R4) P1] [I2 (S1 & S2 & S3 & S4) P2]. split; [congruence|split_and!; congruence|]. intros i p Hp.
  destruct (P1 i p Hp) as (x & Hx & _ & Hc). destruct (P2 _ _ Hx) as (y & Hy & Hwy & Hd).
  exists y. split; [done|]. split; [done|]. intros uid. specialize (Hc uid). specialize (Hd uid). unfold conflict_with in *. cbn [conflicts set_conflicts] in Hd.
  destruct Hd as [->|[Hd ->]]; [done|]. destruct Hc as [Hc|[Hc Hc']]; [right; split; [congruence|done]|congruence].
Qed.

Lemma noted_wf ty u u' : noted ty u u' -> wf_universe emit u -> wf_universe emit u'.
Proof.
  intros [I (R1 & R2 & R3 & R4) P] [W1 W2 W3 W4 W5 W6 W7 W8].
  assert (forall i p', pkg_of u' i = Some p' -> exists p x, pkg_of u i = Some p /\ p' = set_conflicts p x /\ wf_pkg p') as Hback.
  { intros i p' Hp'. assert (i < length (u_store u))%nat as Hlt by (rewrite <- R4; by eapply pkg_of_lt).
    destruct (lookup_lt_is_Some_2 _ _ Hlt) as [it Hit]. destruct (P i (ui_pkg it)) as (x & Hx & Hwx & _); [unfold pkg_of; by rewrite Hit|].
    exists (ui_pkg it), x. split_and!; [unfold pkg_of; by rewrite Hit|congruence|]. congruence. }
  split; rewrite ?I, ?R1, ?R3, ?R4; try done.
  - intros uid chain Hin. destruct (W3 uid chain Hin) as [Hc Hall]. split; [done|]. intros i Hi. destruct (Hall i Hi) as (p & Hp & Hu).
    destruct (P i p Hp) as (x & Hx & _). exists (set_conflicts p x). split; [done|]. rewrite <- Hu. reflexivity.
  - intros i p' Hp'. destruct (Hback i p' Hp') as (p & x & _ & _ & ?). done.
  - intros d i Hd. destruct (W8 d i Hd) as (p & Hp & Hdp). destruct (P i p Hp) as (x & Hx & _). exists (set_conflicts p x).
    split; [done|]. rewrite <- Hdp. reflexivity.
Qed.

Lemma register_one_ok u i p uid ty : wf_universe emit u -> pkg_of u i = Some p ->
  exists u', register_one u i uid ty = Some u' /\ noted ty u u' /\
    (forall k q, k <> i -> pkg_of u k = Some q -> pkg_of u' k = Some q) /\
    exists p', pkg_of u' i = Some p' /\
      conflict_with p' uid = Some (default (mk_conflict uid ty) (conflict_with p uid)) /\
      forall uid', uid' <> uid -> conflict_with p' uid' = conflict_with p uid'.
Proof.
  intros Hw Hp. pose proof (wu_pkgs _ _ Hw _ _ Hp) as Hwp. unfold register_one. rewrite Hp. cbn [mbind option_bind].
  destruct (found (conflicts p) uid) eqn:Ef.
  - exists u. split_and!; [done|by apply noted_refl|done|]. exists p. split_and!; [done| |done].
    destruct (conflict_with p uid) as [c|] eqn:Ec; [done|]. apply found_conflict in Ec; [|done]. congruence.
  - eexists. split; [done|]. set (x := hash_add (conflicts p) uid (mk_conflict uid ty)).
    pose proof (proj1 (proj1 (wf_conflicts _ Hwp))) as Hwt. pose proof Ef as Ef'. apply found_conflict in Ef'; [|done].
    assert (forall uid', hash_lookup x uid' = if decide (uid' = uid) then Some (mk_conflict uid ty) else conflict_with p uid') as Hx.
    { intros uid'. destruct (decide (uid' = uid)) as [->|Hne]; [by apply hash_lookup_add|by apply hash_lookup_add_ne]. }
    split_and!.
    + split; [done|split_and!; try done; cbn; by rewrite length_alter|]. intros k q Hq. rewrite pkg_of_set_item.
      destruct (decide (k = i)) as [->|Hne].
      * assert (q = p) as -> by congruence. rewrite Hq. exists x. split_and!; [done| |].
        -- destruct Hwp. split; cbn; try done. by apply (unique_add c_uniqueid _ (mk_conflict uid ty)).
        -- intros uid'. rewrite Hx. destruct (decide (uid' = uid)) as [->|]; [right|left]; done.
      * exists (conflicts q). pose proof (wu_pkgs _ _ Hw _ _ Hq). destruct q. split_and!; [done|done|by left].
    + intros k q Hne Hq. by rewrite pkg_of_set_item, decide_False.
    + exists (set_conflicts p x). rewrite pkg_of_set_item, decide_True, Hp by done. split_and!; [done| |].
      * unfold conflict_with at 1. cbn [conflicts set_conflicts]. rewrite Hx, decide_True by done. by rewrite Ef'.
      * intros uid' Hne. unfold conflict_with at 1. cbn [conflicts set_conflicts]. by rewrite Hx, decide_False.
Qed.

Lemma register_ok u i1 i2 p1 p2 o1 o2 ty : wf_universe emit u -> i1 <> i2 -> pkg_of u i1 = Some p1 -> pkg_of u i2 = Some p2 ->
  pkg_uid emit p1 = Some o1 -> pkg_uid emit p2 = Some o2 ->
  exists u' p1' p2', pkg_conflicts_register emit u i1 i2 ty = Some u' /\ noted ty u u' /\
    pkg_of u' i1 = Some p1' /\ conflict_with p1' o2 = Some (default (mk_conflict o2 ty) (conflict_with p1 o2)) /\
    pkg_of u' i2 = Some p2' /\ conflict_with p2' o1 = Some (default (mk_conflict o1 ty) (conflict_with p2 o1)).
Proof.
  intros Hw Hne H1 H2 Hu1 Hu2. unfold pkg_conflicts_register. rewrite H1, H2. cbn [mbind option_bind]. rewrite Hu1, Hu2. cbn [mbind option_bind].
  destruct (register_one_ok u i1 p1 o2 ty Hw H1) as (u1 & -> & Hn1 & Hk1 & p1' & Hp1 & Hc1 & _). cbn [mbind option_bind].
  pose proof (Hk1 i2 p2 ltac:(done) H2) as H2'.
  destruct (register_one_ok u1 i2 p2 o1 ty (noted_wf _ _ _ Hn1 Hw) H2') as (u2 & -> & Hn2 & Hk2 & p2' & Hp2 & Hc2 & _).
  exists u2, p1', p2'. split_and!; [done|by eapply noted_trans|by apply Hk2|done|done|done].
Qed.

Lemma noted_keeps ty u u' i p uid c : noted ty u u' -> pkg_of u i = Some p -> conflict_with p uid = Some c ->
  exists p', pkg_of u' i = Some p' /\ is_local p' = is_local p /\ conflict_with p' uid = Some c.
Proof.
  intros [_ _ P] Hp Hc. destruct (P i p Hp) as (x & Hx & _ & Hl). exists (set_conflicts p x). split_and!; [done|done|].
  destruct (Hl uid) as [H|[H _]]; unfold conflict_with in *; cbn [conflicts set_conflicts]; congruence.
Qed.

Lemma noted_local ty u u' i p' : noted ty u u' -> pkg_of u' i = Some p' -> exists p x, pkg_of u i = Some p /\ p' = set_conflicts p x /\
  forall uid, conflict_with p' uid = conflict_with p uid \/ conflict_with p uid = None /\ conflict_with p' uid = Some (mk_conflict uid ty).
Proof.
  intros [_ (_ & _ & _ & R) P] Hp'. assert (i < length (u_store u))%nat as Hlt by (rewrite <- R; by eapply pkg_of_lt).
  destruct (lookup_lt_is_Some_2 _ _ Hlt) as [it Hit]. assert (pkg_of u i = Some (ui_pkg it)) as Hp by (unfold pkg_of; by rewrite Hit).
  destruct (P i _ Hp) as (x & Hx & _ & Hl). exists (ui_pkg it), x. assert (p' = set_conflicts (ui_pkg it) x) as -> by congruence.
  split_and!; [done|done|]. intros uid. apply (Hl uid).
Qed.

Section remote.
Context (o1 o2 : cstring) (chain1 chain2 : list nat) (u0 : universe) (Hw0 : wf_universe emit u0)
  (Hf1 : pkg_jobs_universe_find u0 o1 = Some chain1) (Hf2 : pkg_jobs_universe_find u0 o2 = Some chain2) (Hne : o1 <> o2)
  (Hno1 : forall i p, i ∈ chain1 -> pkg_of u0 i = Some p -> conflict_with p o2 = None)
  (Hno2 : forall k p, k ∈ chain2 -> pkg_of u0 k = Some p -> conflict_with p o1 = None).

Abbreviation RR := PKG_CONFLICT_REMOTE_REMOTE.

(** An item that is not installed has a conflict with a unique id. *)
Definition has_conflict (u : universe) (uid : cstring) (i : nat) : Prop :=
  forall p, pkg_of u i = Some p -> is_local p = false -> conflict_with p uid = Some (mk_conflict uid RR).

Lemma has_conflict_noted u u' uid i : noted RR u u' -> has_conflict u uid i -> has_conflict u' uid i.
Proof.
  intros Hn H p' Hp' Hl. destruct (noted_local _ _ _ _ _ Hn Hp') as (p & x & Hp & -> & Hc).
  pose proof (H p Hp Hl) as Hcp. destruct (Hc uid) as [->|[? _]]; congruence.
Qed.

Lemma member1 i : i ∈ chain1 -> exists p, pkg_of u0 i = Some p /\ pkg_uid emit p = Some o1.
Proof. by apply (chain_member emit u0 o1 chain1 i Hw0 Hf1). Qed.
Lemma member2 k : k ∈ chain2 -> exists p, pkg_of u0 k = Some p /\ pkg_uid emit p = Some o2.
Proof. by apply (chain_member emit u0 o2 chain2 k Hw0 Hf2). Qed.

Lemma apart i k : i ∈ chain1 -> k ∈ chain2 -> i <> k.
Proof. intros (p & Hp & Hu)%member1 (q & Hq & Hv)%member2 ->. congruence. Qed.

Lemma register_first_ok (l : list nat) i1 : i1 ∈ chain1 -> (forall k, k ∈ l -> k ∈ chain2) -> forall (s : registry),
  noted RR u0 (j_universe (fst s)) ->
  exists s', register_first emit s i1 o1 l = Some s' /\ noted RR (j_universe (fst s)) (j_universe (fst s')) /\
    set_universe (fst s) (j_universe (fst s')) = fst s' /\
    (has_conflict (j_universe (fst s')) o2 i1 \/ forall k, k ∈ l -> has_conflict (j_universe (fst s')) o1 k).
Proof.
  intros Hi. induction l as [|k l IH]; intros Hl s Hn; pose proof (noted_wf _ _ _ Hn Hw0) as Hw.
  - exists s. split_and!; [done|by apply noted_refl|by destruct (fst s)|]. right. intros k Hk. by apply elem_of_nil in Hk.
  - cbn [register_first]. destruct (member2 k ltac:(apply Hl; by left)) as (q0 & Hq0 & Huq).
    destruct (nt_pkgs _ _ _ Hn k q0 Hq0) as (y & Hq & Hwq & Hcq). rewrite Hq. cbn [mbind option_bind].
    assert (has_conflict (j_universe (fst s)) o1 k \/
      found (conflicts (set_conflicts q0 y)) o1 = false /\ is_local (set_conflicts q0 y) = false) as Hk.
    { destruct (is_local (set_conflicts q0 y)) eqn:Elq; [left; intros p Hp Hlp; congruence|].
      destruct (found (conflicts (set_conflicts q0 y)) o1) eqn:Ef; [left|by right]. intros p Hp _.
      assert (p = set_conflicts q0 y) as -> by congruence. destruct (Hcq o1) as [H|[_ H]]; [|exact H].
      rewrite (Hno2 k q0 ltac:(apply Hl; by left) Hq0) in H. apply (found_conflict (set_conflicts q0 y)) in H; [congruence|done]. }
    destruct (negb (found (conflicts (set_conflicts q0 y)) o1) && negb (is_local (set_conflicts q0 y))) eqn:Eb.
    + apply andb_true_iff in Eb as [_ _]. destruct (member1 i1 Hi) as (p0 & Hp0 & Hup).
      destruct (nt_pkgs _ _ _ Hn i1 p0 Hp0) as (x & Hp & Hwp & Hcp).
      destruct (register_ok (j_universe (fst s)) i1 k _ _ o1 o2 RR Hw (apart i1 k Hi ltac:(apply Hl; by left)) Hp Hq Hup Huq)
        as (u' & p1' & p2' & Hreg & Hn' & Hp1' & Hc1 & _).
      unfold registered. rewrite Hreg. cbn [mbind option_bind]. eexists. split; [done|]. cbn [fst j_universe set_universe].
      split_and!; [done|done|]. left. intros p' Hp'' _. assert (p' = p1') as -> by congruence. rewrite Hc1.
      destruct (Hcp o2) as [H|[_ H]]; unfold conflict_with at 1; cbn [conflicts set_conflicts]; rewrite H; [|done].
      by rewrite (Hno1 i1 p0 Hi Hp0).
    + destruct (IH ltac:(intros; apply Hl; by right) s Hn) as (s' & -> & Hn' & Hj & Hd). exists s'. split_and!; [done|done|done|].
      destruct Hd as [Hd|Hd]; [by left|right]. intros k' [->|Hk']%elem_of_cons; [|by apply Hd].
      destruct Hk as [Hk|[H1 H2]]; [by eapply has_conflict_noted|]. by rewrite H1, H2 in Eb.
Qed.

(** Each item of the first chain is told apart from those of the second. *)
Definition kept_apart (u : universe) (i : nat) : Prop := has_conflict u o2 i \/ forall k, k ∈ chain2 -> has_conflict u o1 k.

Lemma kept_apart_noted u u' i : noted RR u u' -> kept_apart u i -> kept_apart u' i.
Proof. intros Hn [H|H]; [left|right; intros k Hk]; eapply has_conflict_noted; eauto. Qed.

Lemma register_all_ok (l : list nat) : (forall i, i ∈ l -> i ∈ chain1) -> forall (s : registry), noted RR u0 (j_universe (fst s)) ->
  exists s', fold_opt (register_remote emit o1 o2 chain2) l s = Some s' /\ noted RR (j_universe (fst s)) (j_universe (fst s')) /\
    set_universe (fst s) (j_universe (fst s')) = fst s' /\ forall i, i ∈ l -> kept_apart (j_universe (fst s')) i.
Proof.
  induction l as [|i l IH]; intros Hl s Hn; pose proof (noted_wf _ _ _ Hn Hw0) as Hw.
  - exists s. split_and!; [done|by apply noted_refl|by destruct (fst s)|]. intros i Hi. by apply elem_of_nil in Hi.
  - cbn [fold_opt].
    assert (exists s1, register_remote emit o1 o2 chain2 s i = Some s1 /\ noted RR (j_universe (fst s)) (j_universe (fst s1)) /\
      set_universe (fst s) (j_universe (fst s1)) = fst s1 /\ kept_apart (j_universe (fst s1)) i) as (s1 & -> & Hn1 & Hj1 & Hk1).
    { unfold register_remote. destruct (member1 i ltac:(apply Hl; by left)) as (p0 & Hp0 & _).
      destruct (nt_pkgs _ _ _ Hn i p0 Hp0) as (x & Hp & Hwp & Hcp). rewrite Hp. cbn [mbind option_bind].
      destruct (negb (is_local (set_conflicts p0 x)) && negb (found (conflicts (set_conflicts p0 x)) o2)) eqn:Eb.
      - by apply (register_first_ok chain2 i ltac:(apply Hl; by left)).
      - exists s. split_and!; [done|by apply noted_refl|by destruct (fst s)|]. left. intros p Hp' Hlp.
        assert (p = set_conflicts p0 x) as -> by congruence. rewrite Hlp in Eb. apply negb_false_iff in Eb.
        destruct (Hcp o2) as [H|[_ H]]; [|exact H]. rewrite (Hno1 i p0 ltac:(apply Hl; by left) Hp0) in H.
        apply (found_conflict (set_conflicts p0 x)) in H; [congruence|done]. }
    cbn [mbind option_bind].
    destruct (IH ltac:(intros; apply Hl; by right) s1 ltac:(by eapply noted_trans)) as (s' & -> & Hn' & Hj' & Hk').
    exists s'. split_and!; [done|by eapply noted_trans|rewrite <- Hj', <- Hj1; by destruct (fst s)|].
    intros i' [->|Hi']%elem_of_cons; [by eapply kept_apart_noted|by apply Hk'].
Qed.
End remote.

(** A selection that is consistent with a conflict between packages that are
    not installed has not both. *)
Lemma conflict_excludes j sel uid i k p q chain : wf_universe emit (j_universe j) -> consistent j sel ->
  pkg_of (j_universe j) i = Some p -> pkg_of (j_universe j) k = Some q -> is_local p = false -> is_local q = false ->
  conflict_with p uid = Some (mk_conflict uid PKG_CONFLICT_REMOTE_REMOTE) ->
  pkg_jobs_universe_find (j_universe j) uid = Some chain -> k ∈ chain -> sel i = true -> sel k = false.
Proof.
  intros Hw Hc Hp Hq Hlp Hlq Hcon Hf Hk Hi. pose proof (wu_pkgs _ _ Hw i p Hp) as Hwp.
  assert (item_rules j i sel) as Hr by (apply (co_items _ _ Hc); rewrite (wu_nitems _ _ Hw); by eapply pkg_of_lt).
  destruct (Hr p (values (deps p)) (values (conflicts p)) (values (shlibs_required p)) Hp) as (_ & Hcs & _);
    [by apply hash_iter_wf, Hwp..|].
  assert (mk_conflict uid PKG_CONFLICT_REMOTE_REMOTE ∈ values (conflicts p)) as Hin.
  { destruct (wf_conflicts _ Hwp) as [[Hwt _] Hnd]. unfold conflict_with in Hcon. apply (hash_lookup_elements _ _ _ Hwt Hnd) in Hcon.
    apply list_elem_of_lookup_1 in Hcon as [m Hm]. apply elements_lookup in Hm as [_ Hm]. by eapply list_elem_of_lookup_2. }
  apply (Hcs _ Hin Hi chain k q Hf Hk Hq). cbn. by rewrite Hlp, Hlq.
Qed.

(** C26: When two packages that are to be installed share a file and no conflict
    is known between their unique ids, one is registered, and no consistent
    selection has a package of one id and a package of the other that are not
    installed yet: the solver cannot choose both again. *)
Theorem remote_conflict_excluded (j : pkg_jobs) (n : nat) (o1 o2 : cstring) (chain1 chain2 : list nat)
  (Hw : wf_universe emit (j_universe j)) (Hne : o1 <> o2)
  (Hf1 : pkg_jobs_universe_find (j_universe j) o1 = Some chain1) (Hf2 : pkg_jobs_universe_find (j_universe j) o2 = Some chain2)
  (Hno1 : forall i p, i ∈ chain1 -> pkg_of (j_universe j) i = Some p -> conflict_with p o2 = None)
  (Hno2 : forall k p, k ∈ chain2 -> pkg_of (j_universe j) k = Some p -> conflict_with p o1 = None) :
  exists j' n', pkg_conflicts_add_from_pkgdb_remote emit o1 o2 (j, n) = Some (j', n') /\ wf_universe emit (j_universe j') /\
    u_items (j_universe j') = u_items (j_universe j) /\
    forall sel, consistent j' sel -> forall i k p q, i ∈ chain1 -> k ∈ chain2 ->
      pkg_of (j_universe j) i = Some p -> pkg_of (j_universe j) k = Some q -> is_local p = false -> is_local q = false ->
      sel i = true -> sel k = false.
Proof.
  unfold pkg_conflicts_add_from_pkgdb_remote. cbn [fst]. rewrite Hf1, Hf2.
  destruct chain1 as [|h chain1].
  { apply (find_elements emit) in Hf1; [|done]. by destruct (wu_chains _ _ Hw _ _ Hf1). }
  cbn [head mbind option_bind]. destruct (chain_member emit _ o1 _ h Hw Hf1 ltac:(by left)) as (ph & Hph & _). rewrite Hph. cbn [mbind option_bind].
  assert (found (conflicts ph) o2 = false) as -> by (apply found_conflict; [by apply (wu_pkgs _ _ Hw h)|by apply (Hno1 h); [left|]]).
  destruct (register_all_ok o1 o2 (h :: chain1) chain2 (j_universe j) Hw Hf1 Hf2 Hne Hno1 Hno2 (h :: chain1) ltac:(done) (j, n)
    ltac:(by apply noted_refl)) as ([j' n'] & -> & Hn & Hj & Hk). cbn [fst] in *.
  exists j', n'. pose proof (noted_wf _ _ _ Hn Hw) as Hw'. split_and!; [done|done|apply Hn|].
  intros sel Hsel i k p q Hi Hk' Hp Hq Hlp Hlq Hs.
  destruct (nt_pkgs _ _ _ Hn i p Hp) as (x & Hp' & _). destruct (nt_pkgs _ _ _ Hn k q Hq) as (y & Hq' & _).
  assert (forall uid, pkg_jobs_universe_find (j_universe j') uid = pkg_jobs_universe_find (j_universe j) uid) as Hfind
    by (intros; unfold pkg_jobs_universe_find; by rewrite (nt_items _ _ _ Hn)).
  destruct (Hk i Hi) as [H|H].
  - apply (conflict_excludes j' sel o2 i k _ _ chain2 Hw' Hsel Hp' Hq' Hlp Hlq); [by apply H|by rewrite Hfind|done|done].
  - destruct (sel k) eqn:Ek; [|done]. exfalso.
    assert (sel i = false); [|congruence].
    apply (conflict_excludes j' sel o1 k i _ _ (h :: chain1) Hw' Hsel Hq' Hp' Hlq Hlp); [by apply (H k)|by rewrite Hfind|done|done].
Qed.
End conflicts.

(** ** Concrete jobs *)

(** Packages left and right, which share a file, and alone, which shares one
    with an old version of itself. *)
Definition file_row (name : string) (files : list string) : pkg :=
  sample_row PKG_REMOTE name "1.0" ("d_" ++ name) (map (fun f => OpFile (str f) None None None 0 true) files).

Definition left_pkg : pkg := file_row "left" ["/bin/left"; "/bin/both"].
Definition right_pkg : pkg := file_row "right" ["/bin/both"].
Definition alone_pkg : pkg := file_row "alone" ["/bin/alone"].

Definition owned_files : gmap cstring cstring := <[str "/bin/alone" := str "alone~x/alone"]> ∅.

Definition file_universe : universe :=
  insert_item (insert_item (insert_item pkg_jobs_universe_new left_pkg (str "left~x/left") (str "d_left"))
    right_pkg (str "right~x/right") (str "d_right")) alone_pkg (str "alone~x/alone") (str "d_alone").

(** A database that has nothing. *)
Definition bare : pkgdb := mk_pkgdb (fun _ _ _ => Some []) (fun _ _ _ => Some []) (fun _ _ => Some []) (fun p _ => p).

Definition file_jobs (items : list nat) : pkg_jobs :=
  mk_jobs file_universe [] [] (map (fun i => mk_solved i None PKG_SOLVED_INSTALL false) items) PKG_JOBS_INSTALL 0 1 (length items).

Lemma file_rows_wf p : p ∈ [left_pkg; right_pkg; alone_pkg] -> wf_pkg p.
Proof.
  assert (forall name files, forallb (fun f => op_fits (OpFile (str f) None None None 0 true)) files = true -> wf_pkg (file_row name files)) as H.
  { intros name files Hf. unfold file_row. apply wf_sample_row, Forall_map, Forall_forall. intros f Hin%list_elem_of_In.
    rewrite forallb_forall in Hf. by apply Hf. }
  intros Hp. repeat (apply elem_of_cons in Hp as [->|Hp]; [apply H; vm_compute; reflexivity|]). by apply elem_of_nil in Hp.
Qed.

Lemma file_universe_wf : wf_universe no_emit file_universe.
Proof.
  do 3 (apply wf_insert; [|apply file_rows_wf; rewrite !elem_of_cons; tauto|vm_compute; reflexivity|vm_compute; reflexivity]).
  apply wf_universe_new.
Qed.

Lemma file_universe_items i : (i < 3)%nat -> exists p, pkg_of file_universe i = Some p /\ wf_pkg p /\ is_Some (pkg_uid no_emit p).
Proof.
  intros Hi. assert (is_Some (pkg_of file_universe i)) as [p Hp].
  { destruct i as [|[|[|i]]]; [eexists; vm_compute; reflexivity..|lia]. }
  exists p. split; [done|]. split; [by apply (wu_pkgs _ _ file_universe_wf i)|].
  destruct (chain_of_item no_emit _ i p file_universe_wf Hp) as (_ & uid & _ & _ & -> & _). by eexists.
Qed.

Lemma file_jobs_checkable l : forallb (fun x => x <? 3)%nat l = true -> NoDup l ->
  checkable no_emit (j_universe (file_jobs l)) (j_jobs (file_jobs l)).
Proof.
  rewrite forallb_forall. intros Hl Hn. split.
  - intros ps (x & -> & Hx%list_elem_of_In)%list_elem_of_fmap. apply file_universe_items. by apply Nat.ltb_lt, Hl.
  - unfold file_jobs. cbn [j_jobs]. rewrite map_map. cbn [s_item0]. by rewrite map_id.
Qed.

Lemma bare_load p : wf_pkg p -> let q := pkgdb_ensure_loaded (pkgdb := bare) p (Z.lor PKG_LOAD_FILES PKG_LOAD_DIRS) in
  wf_pkg q /\ pkg_uid no_emit q = pkg_uid no_emit p.
Proof. done. Qed.

Definition file_check (j : pkg_jobs) : option (pkg_error_t * gmap cstring cstring * (pkg_jobs * nat)) :=
  pkg_jobs_check_conflicts (db := bare) no_emit (fun _ => []) (fun _ => None) 3 owned_files id ∅ (j, 0%nat).

Lemma file_paths_alone : all_paths (db := bare) no_emit (j_universe (file_jobs [0; 2]%nat)) (j_jobs (file_jobs [0; 2]%nat)) =
  [(str "/bin/left", str "left~x/left"); (str "/bin/both", str "left~x/left"); (str "/bin/alone", str "alone~x/alone")].
Proof. vm_compute. reflexivity. Qed.

Lemma file_paths_both : map fst (all_paths (db := bare) no_emit (j_universe (file_jobs [0; 1]%nat)) (j_jobs (file_jobs [0; 1]%nat))) =
  [str "/bin/left"; str "/bin/both"; str "/bin/both"].
Proof. vm_compute. reflexivity. Qed.

(** The packages left and alone can be installed, left and right cannot. *)
Lemma check_conflicts_spec_witness :
  (exists j', file_check (file_jobs [0; 2]%nat) = Some (EPKG_OK, ∅, (j', 0%nat))) /\
  forall t s, file_check (file_jobs [0; 1]%nat) = Some (EPKG_OK, t, s) -> False.
Proof.
  unfold file_check.
  pose proof (check_conflicts_spec (db := bare) no_emit (fun _ => []) (fun _ => None) 3 owned_files id (fun l => Permutation_refl l) bare_load) as Hspec.
  assert (NoDup [0; 2]%nat /\ NoDup [0; 1]%nat) as [N1 N2] by (split; apply (bool_decide_unpack _); vm_compute; exact I).
  split.
  - destruct (proj1 (Hspec (file_jobs [0; 2]%nat) 0%nat (file_jobs_checkable [0; 2]%nat eq_refl N1))) as (j' & _ & H); [|exists j'; exact H].
    unfold clash_free. rewrite file_paths_alone. split; [apply (bool_decide_unpack _); vm_compute; exact I|].
    intros path uid owner Hin Ho. repeat (apply elem_of_cons in Hin as [[= -> ->]|Hin]; [vm_compute in Ho; congruence|]).
    by apply elem_of_nil in Hin.
  - intros t s H. destruct (proj2 (Hspec (file_jobs [0; 1]%nat) 0%nat (file_jobs_checkable [0; 1]%nat eq_refl N2)) t s H) as [Hn _].
    rewrite file_paths_both in Hn. apply (bool_decide_pack _) in Hn. vm_compute in Hn. exact Hn.
Defined.

Lemma remote_conflict_excluded_witness :
  exists j' n', pkg_conflicts_add_from_pkgdb_remote no_emit (str "left~x/left") (str "right~x/right") (file_jobs [0; 1]%nat, 0%nat) = Some (j', n') /\
    forall sel, consistent j' sel -> sel 0%nat = true -> sel 1%nat = false.
Proof.
  assert (forall i p, pkg_of file_universe i = Some p -> forall uid, conflict_with p uid = None) as Hno.
  { intros i p Hp uid.
    assert (Forall (fun it => conflicts (ui_pkg it) = table_empty) (u_store file_universe)) as Hall
      by (repeat (apply Forall_cons; split; [vm_compute; reflexivity|]); apply Forall_nil; exact I).
    unfold pkg_of in Hp. apply fmap_Some in Hp as (it & Hi & ->). rewrite Forall_lookup in Hall. unfold conflict_with.
    by rewrite (Hall i it Hi). }
  assert (pkg_of file_universe 0 = Some left_pkg /\ pkg_of file_universe 1 = Some right_pkg) as [H0 H1] by (split; vm_compute; reflexivity).
  destruct (remote_conflict_excluded no_emit (file_jobs [0; 1]%nat) 0 (str "left~x/left") (str "right~x/right") [0%nat] [1%nat] file_universe_wf
    ltac:(discriminate) ltac:(vm_compute; reflexivity) ltac:(vm_compute; reflexivity)
    (fun i p _ Hp => Hno i p Hp _) (fun i p _ Hp => Hno i p Hp _)) as (j' & n' & H & _ & _ & Hsel).
  exists j', n'. split; [exact H|]. intros sel Hc Hs.
  apply (Hsel sel Hc 0%nat 1%nat left_pkg right_pkg); [by left|by left|exact H0|exact H1|vm_compute; reflexivity|vm_compute; reflexivity|exact Hs].
Defined.

(** A conflict with an installed package hides one between two packages that
    come: once left and right conflict as installed and new, nothing is
    registered for the two new ones. *)
Definition left_installed : pkg :=
  sample_row PKG_INSTALLED "left" "0.9" "d_old" [OpFile (str "/bin/both") None None None 0 true].

Definition upgrade_universe : universe :=
  insert_item (insert_item (insert_item pkg_jobs_universe_new left_installed (str "left~x/left") (str "d_old"))
    left_pkg (str "left~x/left") (str "d_left")) right_pkg (str "right~x/right") (str "d_right").

Definition upgrade_jobs : pkg_jobs :=
  mk_jobs upgrade_universe [] [] [mk_solved 1 (Some 0%nat) PKG_SOLVED_UPGRADE false; mk_solved 2 None PKG_SOLVED_INSTALL false] PKG_JOBS_INSTALL 0 1 2.

Definition item_conflicts (r : option (pkg_jobs * nat)) : option (list nat * nat) :=
  '(j, n) ← r; Some (map (fun it => length (values (conflicts (ui_pkg it)))) (u_store (j_universe j)), n).

Example local_conflict_hides :
  let after := pkg_conflicts_add_from_pkgdb_local (db := bare) no_emit (fun _ => []) (fun _ => None) 3
    (str "left~x/left") (str "right~x/right") (upgrade_jobs, 0%nat) in
  item_conflicts after = Some ([1; 0; 1], 1)%nat /\
  item_conflicts (s ← after; pkg_conflicts_add_from_pkgdb_remote no_emit (str "left~x/left") (str "right~x/right") s) = Some ([1; 0; 1], 1)%nat /\
  item_conflicts (pkg_conflicts_add_from_pkgdb_remote no_emit (str "left~x/left") (str "right~x/right") (upgrade_jobs, 0%nat)) = Some ([0; 1; 1], 1)%nat.
Proof. vm_compute. repeat split. Qed.
