(* ===== verification/KeptJobs.v ===== *)
(** * What is done before the solver leaves the jobs alone

    The requests of a job are made, and the universe is completed, without a
    change of the list of its jobs, whatever the databases and the user answer.
    No law is asked of the databases: this holds of every run. *)
From S2P Require Import Prelude CString UtHash Pkg Checksum Universe Upgrade UniverseBuild Jobs Conflicts Install Solve Cudf.

(** [has_jobs l x]: the jobs of each job in [x] are [l]. *)
Class HasJobs (A : Type) := has_jobs : list pkg_solved -> A -> Prop.

#[export] Instance jobs_any A : HasJobs A | 100 := fun _ _ => True.
#[export] Instance jobs_self : HasJobs pkg_jobs | 0 := fun l j => j_jobs j = l.
#[export] Instance jobs_pair A B `{HasJobs A, HasJobs B} : HasJobs (A * B) | 10 := fun l x =>
  match x with (a, b) => has_jobs l a /\ has_jobs l b end.
#[export] Instance jobs_option A `{HasJobs A} : HasJobs (option A) | 10 := fun l x => match x with Some a => has_jobs l a | None => True end.
#[export] Instance jobs_shlib : HasJobs shlib_state | 0 := fun l st => j_jobs (sh_jobs st) = l.
#[export] Instance jobs_row : HasJobs row_result | 0 := fun l r =>
  match r with RowUnit j _ _ | RowSkip j _ | RowFatal j => j_jobs j = l end.
#[export] Instance jobs_scan : HasJobs scan_result | 0 := fun l r => match r with ScanReturn _ j => j_jobs j = l | _ => True end.

Lemma kept_bind {A B} `{HasJobs A, HasJobs B} l (r : option A) (f : A -> option B) :
  has_jobs l r -> (forall a, has_jobs l a -> has_jobs l (f a)) -> has_jobs l (r ≫= f).
Proof. intros Hr Hf. destruct r as [a|]; [by apply Hf|done]. Qed.

Lemma kept_fold {A B} `{HasJobs A} l (f : A -> B -> option A) (xs : list B) : (forall a x, has_jobs l a -> has_jobs l (f a x)) ->
  forall a, has_jobs l a -> has_jobs l (fold_opt f xs a).
Proof.
  intros Hf. induction xs as [|x xs IH]; intros a Ha; [done|]. cbn [fold_opt]. apply kept_bind; [by apply Hf|done].
Qed.

Lemma jobs_of_any {A} l (x : A) : has_jobs (HasJobs := jobs_any A) l x.
Proof. exact I. Qed.

Lemma jobs_of_job l j : has_jobs l j <-> j_jobs j = l.
Proof. done. Qed.

Lemma jobs_of_pair {A B} `{HasJobs A, HasJobs B} l (a : A) (b : B) : has_jobs l (a, b) <-> has_jobs l a /\ has_jobs l b.
Proof. done. Qed.

Lemma jobs_of_some {A} `{HasJobs A} l (a : A) : has_jobs l (Some a) <-> has_jobs l a.
Proof. done. Qed.

Lemma jobs_of_none {A} `{HasJobs A} l : has_jobs l (None : option A).
Proof. exact I. Qed.

Lemma jobs_of_rows l j held head : has_jobs l (mk_shlib j held head) <-> has_jobs l j.
Proof. done. Qed.

Lemma jobs_of_row l j unit held : (has_jobs l (RowUnit j unit held) <-> has_jobs l j) /\ (has_jobs l (RowSkip j held) <-> has_jobs l j) /\
  (has_jobs l (RowFatal j) <-> has_jobs l j).
Proof. done. Qed.

Lemma jobs_of_scan l rc j rp : (has_jobs l (ScanReturn rc j) <-> has_jobs l j) /\ has_jobs l (ScanUpgrade rp) /\ has_jobs l (ScanEnd rp).
Proof. done. Qed.

Lemma kept_each {A} l (f : pkg_jobs -> A -> option (pkg_error_t * pkg_jobs)) xs :
  (forall j x, has_jobs l j -> has_jobs l (f j x)) -> forall j, has_jobs l j -> has_jobs l (each f xs j).
Proof.
  intros Hf. induction xs as [|x xs IH]; intros j Hj; [done|]. cbn [each]. apply kept_bind; [by apply Hf|].
  intros [rc j'] [_ Hj']. destruct rc; [by apply IH|done..].
Qed.

Create HintDb kept.

#[local] Opaque has_jobs.

(** The jobs of a value are those of its parts. *)
Ltac kept_parts :=
  match goal with
  | H : has_jobs _ (_, _) |- _ => apply jobs_of_pair in H as [? ?]
  | H : has_jobs _ (Some _) |- _ => apply (proj1 (jobs_of_some _ _)) in H
  | H : has_jobs _ (mk_shlib _ _ _) |- _ => apply (proj1 (jobs_of_rows _ _ _ _)) in H
  | H : has_jobs _ (RowUnit _ _ _) |- _ => apply (proj1 (proj1 (jobs_of_row _ _ _ _))) in H
  | H : has_jobs _ (RowSkip _ _) |- _ => apply (proj1 (proj1 (proj2 (jobs_of_row _ _ None _)))) in H
  | H : has_jobs _ (RowFatal _) |- _ => apply (proj1 (proj2 (proj2 (jobs_of_row _ _ None false)))) in H
  | H : has_jobs _ (ScanReturn _ _) |- _ => apply (proj1 (proj1 (jobs_of_scan _ _ _ (pkg_new PKG_NONE)))) in H
  | |- has_jobs _ None => apply jobs_of_none
  | |- has_jobs _ (Some _) => apply jobs_of_some
  | |- has_jobs _ (_, _) => apply jobs_of_pair; split
  | |- has_jobs _ (mk_shlib _ _ _) => apply jobs_of_rows
  | |- has_jobs _ (RowUnit _ _ _) => apply (proj2 (proj1 (jobs_of_row _ _ _ _)))
  | |- has_jobs _ (RowSkip _ _) => apply (proj2 (proj1 (proj2 (jobs_of_row _ _ None _))))
  | |- has_jobs _ (RowFatal _) => apply (proj2 (proj2 (proj2 (jobs_of_row _ _ None false))))
  | |- has_jobs _ (ScanReturn _ _) => apply (proj2 (proj1 (jobs_of_scan _ _ _ (pkg_new PKG_NONE))))
  | |- has_jobs _ (ScanUpgrade _) => apply (jobs_of_scan _ EPKG_OK)
  | |- has_jobs _ (ScanEnd _) => apply (jobs_of_scan _ EPKG_OK)
  | |- @has_jobs _ (jobs_any _) _ _ => apply jobs_of_any
  end.

(** Nothing in a value of this type is a job. *)
Ltac no_jobs :=
  repeat first [kept_parts
  | match goal with
    | |- has_jobs _ ?x => match type of x with prod _ _ => destruct x | option _ => destruct x end
    end].

Ltac kept_step :=
  match goal with
  | |- _ => progress kept_parts
  | H : has_jobs ?l ?x |- _ => is_var x;
      match type of x with prod _ _ => destruct x | option _ => destruct x | row_result => destruct x | scan_result => destruct x | shlib_state => destruct x end
  | |- has_jobs _ (_ ≫= _) => apply kept_bind; [|intros]
  | |- has_jobs _ (fold_opt _ _ _) => apply kept_fold; [intros|]
  | |- has_jobs _ (each _ _ _) => apply kept_each; [intros|]
  | |- has_jobs ?l (match ?x with _ => _ end) =>
      first [assert (has_jobs l x) by (solve [repeat kept_step]); destruct x | destruct x]
  | |- _ => solve [eauto with kept nocore]
  | |- has_jobs _ _ => solve [no_jobs]
  | |- has_jobs _ _ => apply jobs_of_job; cbn; apply jobs_of_job; assumption
  end.

Ltac kept := intros; cbn zeta; repeat kept_step.

Section kept.
Context (emit : ucl -> cstring) (sha256 : cstring -> list Z)
  (repo_digest_format : cstring -> option pkg_checksum_type_t) `{db : pkgdb}
  (yesno : cstring -> bool) (sqlite_quote : cstring -> cstring) (pkg_open : cstring -> option pkg).
Context (l : list pkg_solved).

Lemma kept_self j : j_jobs j = l -> has_jobs l j.
Proof. done. Qed.

Lemma kept_add_req j i : has_jobs l j -> has_jobs l (pkg_jobs_add_req j i).
Proof. intros. unfold pkg_jobs_add_req. kept. Qed.
Hint Resolve kept_add_req : kept.

(** ** Completing the universe *)

Lemma kept_load_item j i p flag : has_jobs l j -> has_jobs l (load_item j i p flag).
Proof. intros. unfold load_item. kept. Qed.
Hint Resolve kept_load_item : kept.

Lemma kept_get_local j uid flag : has_jobs l j -> has_jobs l (pkg_jobs_universe_get_local j uid flag).
Proof. intros. unfold pkg_jobs_universe_get_local. kept. Qed.
Hint Resolve kept_get_local : kept.

Lemma kept_get_remote j uid flag : has_jobs l j -> has_jobs l (pkg_jobs_universe_get_remote emit j uid flag).
Proof. intros. unfold pkg_jobs_universe_get_remote. kept. Qed.
Hint Resolve kept_get_remote : kept.

Section build.
Context (rec : pkg_jobs -> pkg -> bool -> option (pkg_error_t * pkg_jobs * option nat))
  (Hrec : forall j p b, has_jobs l j -> has_jobs l (rec j p b)).

Lemma kept_remote_dep flags j uid np : has_jobs l j -> has_jobs l (remote_dep emit flags j uid np).
Proof. intros. unfold remote_dep. kept. Qed.
Hint Resolve kept_remote_dep : kept.

Lemma kept_process_dep flags j d : has_jobs l j -> has_jobs l (process_dep emit rec flags j d).
Proof. intros. unfold process_dep. kept. Qed.
Hint Resolve kept_process_dep : kept.

Lemma kept_process_deps j i flags : has_jobs l j -> has_jobs l (pkg_jobs_universe_process_deps emit rec j i flags).
Proof. intros. unfold pkg_jobs_universe_process_deps. kept. Qed.
Hint Resolve kept_process_deps : kept.

Lemma kept_process_conflict local j c : has_jobs l j -> has_jobs l (process_conflict emit rec local j c).
Proof. intros. unfold process_conflict. kept. Qed.
Hint Resolve kept_process_conflict : kept.

Lemma kept_process_conflicts j i : has_jobs l j -> has_jobs l (pkg_jobs_universe_process_conflicts emit rec j i).
Proof. intros. unfold pkg_jobs_universe_process_conflicts. kept. Qed.
Hint Resolve kept_process_conflicts : kept.

Lemma kept_add_row j rp drop : has_jobs l j -> has_jobs l (add_row rec j rp drop).
Proof. intros. unfold add_row. kept. Qed.
Hint Resolve kept_add_row : kept.

Lemma kept_local_row j rp uid : has_jobs l j -> has_jobs l (local_row emit sha256 repo_digest_format rec j rp uid).
Proof. intros. unfold local_row. kept. Qed.
Hint Resolve kept_local_row : kept.

Lemma kept_new_row j i rp d : has_jobs l j -> has_jobs l (new_row emit sha256 repo_digest_format rec j i rp d).
Proof. intros. unfold new_row. kept. Qed.
Hint Resolve kept_new_row : kept.

Lemma kept_process_row i shlib st rp : has_jobs l st -> has_jobs l (process_row emit sha256 repo_digest_format rec i shlib st rp).
Proof. intros. unfold process_row. kept. Qed.
Hint Resolve kept_process_row : kept.

Lemma kept_process_rows i shlib rows : forall st, has_jobs l st ->
  has_jobs l (process_rows emit sha256 repo_digest_format rec i shlib rows st).
Proof. induction rows as [|rp rows IH]; intros st Hst; cbn [process_rows]; kept. Qed.
Hint Resolve kept_process_rows : kept.

Lemma kept_process_shlib i j shlib : has_jobs l j -> has_jobs l (process_shlib emit sha256 repo_digest_format rec i j shlib).
Proof. intros. unfold process_shlib. kept. Qed.
Hint Resolve kept_process_shlib : kept.

Lemma kept_process_shlibs j i : has_jobs l j -> has_jobs l (pkg_jobs_universe_process_shlibs emit sha256 repo_digest_format rec j i).
Proof. intros. unfold pkg_jobs_universe_process_shlibs. kept. Qed.
Hint Resolve kept_process_shlibs : kept.

Lemma kept_process_new j i : has_jobs l j -> has_jobs l (process_new emit sha256 repo_digest_format rec j i).
Proof. intros. unfold process_new. kept. Qed.
Hint Resolve kept_process_new : kept.

End build.
Hint Resolve kept_process_new : kept.

Lemma kept_process_item fuel : forall j p b, has_jobs l j -> has_jobs l (process_item emit sha256 repo_digest_format fuel j p b).
Proof. induction fuel as [|fuel IH]; intros; cbn [process_item]; kept. Qed.
Hint Resolve kept_process_item : kept.

Context (fuel depth : nat).

Lemma kept_process j p : has_jobs l j -> has_jobs l (pkg_jobs_universe_process emit sha256 repo_digest_format fuel j p).
Proof. intros. unfold pkg_jobs_universe_process. kept. Qed.
Hint Resolve kept_process : kept.

(** ** Requests *)

Lemma kept_deinstall patterns j : has_jobs l j -> has_jobs l (jobs_solve_deinstall emit sha256 repo_digest_format fuel patterns j).
Proof. intros. unfold jobs_solve_deinstall, deinstall_pattern, deinstall_row. kept. Qed.
Hint Resolve kept_deinstall : kept.

Lemma kept_automatic_rdep j uid : has_jobs l j -> has_jobs l (automatic_rdep emit sha256 repo_digest_format fuel j uid).
Proof. intros. unfold automatic_rdep. kept. Qed.
Hint Resolve kept_automatic_rdep : kept.

Lemma kept_test_rdeps rec ds : (forall j p, has_jobs l j -> has_jobs l (rec j p)) -> forall j, has_jobs l j ->
  has_jobs l (test_rdeps emit sha256 repo_digest_format fuel rec ds j).
Proof. intros Hrec. induction ds as [|d ds IH]; intros; cbn [test_rdeps]; kept. Qed.

Lemma kept_test_automatic : forall j p, has_jobs l j -> has_jobs l (pkg_jobs_test_automatic emit sha256 repo_digest_format fuel depth j p).
Proof. induction depth as [|d IH]; intros; cbn [pkg_jobs_test_automatic]; kept. by apply kept_test_rdeps. Qed.
Hint Resolve kept_test_automatic : kept.

Lemma kept_autoremove j : has_jobs l j -> has_jobs l (jobs_solve_autoremove emit sha256 repo_digest_format fuel depth j).
Proof. intros. unfold jobs_solve_autoremove, autoremove_row, autoremove_unit. kept. Qed.
Hint Resolve kept_autoremove : kept.

Lemma kept_propagate_chain j c : has_jobs l j -> has_jobs l (propagate_chain emit j c).
Proof. intros. unfold propagate_chain. kept. Qed.
Hint Resolve kept_propagate_chain : kept.

Lemma kept_propagate j : has_jobs l j -> has_jobs l (pkg_jobs_propagate_automatic emit j).
Proof. intros. unfold pkg_jobs_propagate_automatic. kept. Qed.
Hint Resolve kept_propagate : kept.

Lemma kept_resolve_request j i : has_jobs l j -> has_jobs l (resolve_request emit j i).
Proof. intros. unfold resolve_request, pkg_conflicts_request_resolve_chain. kept. Qed.
Hint Resolve kept_resolve_request : kept.

Lemma kept_request_resolve j : has_jobs l j -> has_jobs l (pkg_conflicts_request_resolve emit j).
Proof. intros. unfold pkg_conflicts_request_resolve. kept. Qed.
Hint Resolve kept_request_resolve : kept.

(** *** Installations *)

Lemma kept_change_uid j un uid b : has_jobs l j -> has_jobs l (pkg_jobs_universe_change_uid emit sha256 repo_digest_format fuel j un uid b).
Proof. intros. unfold pkg_jobs_universe_change_uid, rename_rdep. kept. Qed.
Hint Resolve kept_change_uid : kept.

Lemma kept_force_add j rp : has_jobs l j -> has_jobs l (force_add emit sha256 repo_digest_format j rp).
Proof. intros. unfold force_add. kept. Qed.
Hint Resolve kept_force_add : kept.

Lemma kept_inherit j from i : has_jobs l j -> has_jobs l (inherit_and_process emit sha256 repo_digest_format fuel j from i).
Proof. intros. unfold inherit_and_process. kept. Qed.
Hint Resolve kept_inherit : kept.

Lemma kept_reinstall j rp un : has_jobs l j -> has_jobs l (reinstall emit sha256 repo_digest_format fuel j rp un).
Proof. intros. unfold reinstall. kept. Qed.
Hint Resolve kept_reinstall : kept.

Lemma kept_scan_known force chain : forall j rp, has_jobs l j -> has_jobs l (scan_known emit j force rp chain).
Proof. induction chain as [|i chain IH]; intros; cbn [scan_known]; kept. Qed.
Hint Resolve kept_scan_known : kept.

Lemma kept_known_chain j uid : has_jobs l j -> has_jobs l (known_chain emit sha256 repo_digest_format fuel j uid).
Proof. intros. unfold known_chain. kept. Qed.
Hint Resolve kept_known_chain : kept.

Lemma kept_new_digest j rp uid force : has_jobs l j -> has_jobs l (new_digest emit sha256 repo_digest_format fuel j rp uid force).
Proof. intros. unfold new_digest. kept. Qed.
Hint Resolve kept_new_digest : kept.

Lemma kept_remote_pkg j rp force : has_jobs l j -> has_jobs l (pkg_jobs_process_remote_pkg emit sha256 repo_digest_format fuel j rp force).
Proof. intros. unfold pkg_jobs_process_remote_pkg. kept. Qed.
Hint Resolve kept_remote_pkg : kept.

Lemma kept_try_rows uid rows : forall j, has_jobs l j -> has_jobs l (try_rows emit sha256 repo_digest_format yesno fuel j uid rows).
Proof. induction rows as [|p rows IH]; intros; cbn [try_rows]; kept. Qed.
Hint Resolve kept_try_rows : kept.

Lemma kept_try_remote j pattern uid m : has_jobs l j -> has_jobs l (pkg_jobs_try_remote_candidate emit sha256 repo_digest_format yesno fuel j pattern uid m).
Proof. intros. unfold pkg_jobs_try_remote_candidate. kept. Qed.
Hint Resolve kept_try_remote : kept.

Lemma kept_guess j pattern : has_jobs l j -> has_jobs l (pkg_jobs_guess_upgrade_candidate emit sha256 repo_digest_format yesno sqlite_quote fuel j pattern).
Proof. intros. unfold pkg_jobs_guess_upgrade_candidate. kept. Qed.
Hint Resolve kept_guess : kept.

Lemma kept_candidates force rows : forall j rc found, has_jobs l j -> has_jobs l (process_candidates emit sha256 repo_digest_format fuel j force rc found rows).
Proof. induction rows as [|p rows IH]; intros; cbn [process_candidates]; kept. Qed.
Hint Resolve kept_candidates : kept.

Lemma kept_installed_rdep rds : forall j, has_jobs l j -> has_jobs l (installed_rdep emit sha256 repo_digest_format fuel j rds).
Proof. induction rds as [|rd rds IH]; intros; cbn [installed_rdep]; kept. Qed.
Hint Resolve kept_installed_rdep : kept.

Lemma kept_without_candidate j pattern : has_jobs l j -> has_jobs l (without_candidate emit sha256 repo_digest_format yesno sqlite_quote fuel j pattern).
Proof. intros. unfold without_candidate. kept. Qed.
Hint Resolve kept_without_candidate : kept.

Lemma kept_find_upgrade j pattern m : has_jobs l j -> has_jobs l (pkg_jobs_find_upgrade emit sha256 repo_digest_format yesno sqlite_quote fuel j pattern m).
Proof. intros. unfold pkg_jobs_find_upgrade. kept. Qed.
Hint Resolve kept_find_upgrade : kept.

Lemma kept_local_pkg uids : forall j, has_jobs l j -> has_jobs l (local_pkg j uids).
Proof. induction uids as [|uid uids IH]; intros; cbn [local_pkg]; kept. Qed.
Hint Resolve kept_local_pkg : kept.

Lemma kept_new_version j : has_jobs l j -> has_jobs l (new_pkg_version emit sha256 repo_digest_format yesno sqlite_quote fuel j).
Proof. intros. unfold new_pkg_version. kept. Qed.
Hint Resolve kept_new_version : kept.

Lemma kept_find_remote j jp : has_jobs l j -> has_jobs l (pkg_jobs_find_remote_pattern emit sha256 repo_digest_format yesno sqlite_quote pkg_open fuel j jp).
Proof. intros. unfold pkg_jobs_find_remote_pattern. kept. Qed.
Hint Resolve kept_find_remote : kept.

Lemma kept_process_requests j : has_jobs l j -> has_jobs l (process_requests emit sha256 repo_digest_format fuel j).
Proof. intros. unfold process_requests. kept. Qed.
Hint Resolve kept_process_requests : kept.

Lemma kept_find_patterns patterns : forall j got, has_jobs l j -> has_jobs l (find_patterns emit sha256 repo_digest_format yesno sqlite_quote pkg_open fuel j got patterns).
Proof. induction patterns as [|jp patterns IH]; intros; cbn [find_patterns]; kept. Qed.
Hint Resolve kept_find_patterns : kept.

Lemma kept_install_requests patterns j : has_jobs l j -> has_jobs l (install_requests emit sha256 repo_digest_format yesno sqlite_quote pkg_open fuel patterns j).
Proof. intros. unfold install_requests, upgrade_candidate. kept. Qed.
Hint Resolve kept_install_requests : kept.

Lemma kept_install_upgrade patterns j : has_jobs l j -> has_jobs l (jobs_solve_install_upgrade emit sha256 repo_digest_format yesno sqlite_quote pkg_open fuel patterns j).
Proof. intros. unfold jobs_solve_install_upgrade. kept. Qed.
Hint Resolve kept_install_upgrade : kept.

Lemma kept_fetch patterns j : has_jobs l j -> has_jobs l (jobs_solve_fetch emit sha256 repo_digest_format yesno sqlite_quote fuel patterns j).
Proof. intros. unfold jobs_solve_fetch, fetch_row. kept. Qed.
Hint Resolve kept_fetch : kept.

(** ** The solvers' input *)

Lemma kept_upgrade_chains j : has_jobs l j -> has_jobs l (pkg_jobs_universe_process_upgrade_chains emit j).
Proof. intros. unfold pkg_jobs_universe_process_upgrade_chains, process_chain. kept. Qed.
Hint Resolve kept_upgrade_chains : kept.

Lemma kept_cudf_emit j t : has_jobs l j -> has_jobs l (pkg_jobs_cudf_emit_file emit j t).
Proof. intros. unfold pkg_jobs_cudf_emit_file. kept. Qed.
Hint Resolve kept_cudf_emit : kept.

End kept.
