(* ===== verification/JobSolve.v ===== *)
(** * Solving a job (libpkg/pkg_jobs.c: pkg_jobs_solve; libpkg/pkg_solve.c)

    pkg_jobs_solve makes the requests of a job, has them solved by the solver
    of its own or by the process of another one, and looks at the files of the
    packages that come ([FileConflicts]): while there are conflicts it solves
    the job again.  pkg_solve_parse_sat_output reads the answer of an external
    SAT solver.

    What the functions do to the database, where it is no answer, is a list of
    statements.  The command of a solver is configured or not; each time its
    process may be started or not, and one that is started is a function from
    what it reads to what it writes.  [None] is
    what it is in the functions that are called, or that the fuel ran out. *)
From S2P Require Import Prelude CString Cprintf Printf UtHash Pkg Checksum Universe UniverseBuild Jobs Solve Install Installation Cudf FileConflicts KeptJobs.

(** ** The answer of an external SAT solver *)

(** HASH_FIND_INT(ordered_variables, &cur_ord, nord) *)
Definition find_order (ordered : list (nat * Z)) (cur_ord : Z) : option nat :=
  fst <$> find (fun vo => snd vo =? cur_ord) ordered.

Definition put_to_install (pb : pkg_solve_problem) (var : nat) (b : bool) : pkg_solve_problem :=
  set_variables pb (alter (fun v => mk_var (v_unit v) b (top_level v) (v_uid v) (v_digest v) (v_order v)) var (variables pb)).

Definition first_char (s : cstring) : ascii := default NUL (head s).

(** The literals of a line up to the first 0.  abs() is that of an int that is
    not the smallest one. *)
Fixpoint parse_literals (fuel : nat) (ordered : list (nat * Z)) (pb : pkg_solve_problem) (begin : option cstring) (done : bool)
  : pkg_solve_problem * bool :=
  match fuel, begin with
  | S fuel, Some s =>
      let '(var_str, begin) := strsep BLANKS s in
      let c := first_char var_str in
      if negb (isdigit c) && negb (Ascii.eqb c "-") then parse_literals fuel ordered pb begin done
      else
        let cur_ord := Z.abs (to_int (fst (strtoll var_str))) in
        if cur_ord =? 0 then (pb, true)
        else
          let pb := match find_order ordered cur_ord with
                    | Some var => put_to_install pb var (negb (Ascii.eqb c "-"))
                    | None => pb
                    end in
          parse_literals fuel ordered pb begin done
  | _, _ => (pb, done)
  end.

(** [got_sat], [done] and the problem. *)
Definition parse_sat_line (ordered : list (nat * Z)) (st : bool * bool * pkg_solve_problem) (line : cstring)
  : bool * bool * pkg_solve_problem :=
  let '(got_sat, done, pb) := st in
  let literals s := let '(pb, done) := parse_literals (S (length s)) ordered pb (Some s) done in (got_sat, done, pb) in
  if strncmp line (str "SAT") 3 =? 0 then (true, done, pb)
  else if got_sat then literals line
  else if strncmp line (str "v ") 2 =? 0 then literals (drop 2 line)
  else st.

Definition parse_sat_lines (ordered : list (nat * Z)) (pb : pkg_solve_problem) (text : cstring) : bool * bool * pkg_solve_problem :=
  foldl (fun st line => parse_sat_line ordered st (c_str line)) (false, false, pb) (getlines [] text).

Definition pkg_solve_parse_sat_output (fuel : nat) (text : cstring) (pb : pkg_solve_problem) (j : pkg_jobs)
  : option (pkg_error_t * pkg_jobs) :=
  ordered ← order_variables fuel None 1 [];
  let '(_, done, pb) := parse_sat_lines ordered pb text in
  if done then j ← pkg_solve_sat_to_jobs pb j; Some (EPKG_OK, j) else Some (EPKG_FATAL, j).

(** ** pkg_jobs_solve *)

(** Statements: the transaction of the solver begins and ends, and a unique id
    is replaced in the table of packages. *)
Inductive statement := BeginSolver | EndSolver | ChangeUid (new_uid old_uid : cstring).

(** The job, its fields conflicts_registered and need_fetch, the temporary
    table and the statements. *)
Record solving := mk_solving {
  sv_job : pkg_jobs;
  conflicts_registered : nat;
  need_fetch : bool;
  integritycheck : gmap cstring cstring;
  statements : list statement }.

Definition with_job (s : solving) (j : pkg_jobs) : solving :=
  mk_solving j (conflicts_registered s) (need_fetch s) (integritycheck s) (statements s).
Definition execute (s : solving) (l : list statement) : solving :=
  mk_solving (sv_job s) (conflicts_registered s) (need_fetch s) (integritycheck s) (statements s ++ l).
Definition set_need_fetch (s : solving) : solving :=
  mk_solving (sv_job s) (conflicts_registered s) true (integritycheck s) (statements s).

Section jobs_solve.
Context (emit : ucl -> cstring) (sha256 : cstring -> list Z)
  (repo_digest_format : cstring -> option pkg_checksum_type_t) `{db : pkgdb}
  (yesno : cstring -> bool) (sqlite_quote : cstring -> cstring) (pkg_open : cstring -> option pkg)
  (picosat_sat : list (list Z) -> list Z -> list phase -> sat_result) (answers : nat -> nat -> nat -> bool).

(** The configured solvers, what each call of process_spawn_pipe starts
    ([None]: -1), and whether pkgdb_ensure_loaded is EPKG_FATAL. *)
Context (CUDF_SOLVER SAT_SOLVER : option cstring) (process_spawn_pipe : nat -> cstring -> option (cstring -> cstring))
  (load_fails : pkg -> Z -> bool).

(** See [FileConflicts]. *)
Context (local_files : gmap cstring cstring) (order_rows : list (cstring * cstring) -> list (cstring * cstring)).

(** Fuel: of the universe, of the reverse dependencies, of the solver, and of
    the numbering of variables. *)
Context (fuel depth again orders : nat) (patterns : list job_pattern).

Definition solve_requests (j : pkg_jobs) : option (pkg_error_t * pkg_jobs) :=
  match j_type j with
  | PKG_JOBS_AUTOREMOVE => jobs_solve_autoremove emit sha256 repo_digest_format fuel depth j
  | PKG_JOBS_DEINSTALL => jobs_solve_deinstall emit sha256 repo_digest_format fuel patterns j
  | PKG_JOBS_UPGRADE | PKG_JOBS_INSTALL =>
      jobs_solve_install_upgrade emit sha256 repo_digest_format yesno sqlite_quote pkg_open fuel patterns j
  | PKG_JOBS_FETCH => jobs_solve_fetch emit sha256 repo_digest_format yesno sqlite_quote fuel patterns j
  end.

(** The answer is [None] when no process was started: pkg_jobs_solve returns.
    [call] numbers the calls of process_spawn_pipe and, below, those of the
    solver of its own, for the answers of the user. *)
Definition solve_cudf (call : nat) (solver : cstring) (j : pkg_jobs) : option (option pkg_error_t * pkg_jobs) :=
  match process_spawn_pipe call solver with
  | None => Some (None, j)
  | Some process =>
      '(ret, text, j, rings) ← pkg_jobs_cudf_emit_file emit j (j_type j);
      match ret with
      | EPKG_OK => '(ret, j) ← pkg_jobs_cudf_parse_output emit rings j (process text); Some (Some ret, j)
      | _ => Some (Some ret, j)
      end
  end.

Definition solve_external (call : nat) (solver : cstring) (j : pkg_jobs) : option (option pkg_error_t * pkg_jobs) :=
  j ← pkg_jobs_universe_process_upgrade_chains emit j;
  '(r, problem) ← pkg_solve_jobs_to_sat emit j;
  match r with
  | EPKG_OK =>
      match process_spawn_pipe call solver with
      | None => Some (None, j)
      | Some process =>
          '(ret, text) ← pkg_solve_dimacs_export orders problem;
          match ret with
          | EPKG_OK => '(ret, j) ← pkg_solve_parse_sat_output orders (process text) problem j; Some (Some ret, j)
          | _ => Some (Some ret, j)
          end
      end
  | _ => Some (Some EPKG_FATAL, set_solved j 0)
  end.

Definition solve_internal (call : nat) (j : pkg_jobs) : option (option pkg_error_t * pkg_jobs) :=
  '(ret, j) ← solve_again emit picosat_sat (answers call) again 0 j;
  Some (Some ret, match ret with EPKG_OK => j | _ => set_solved j 0 end).

Definition select_packages (call : nat) (j : pkg_jobs) : option (option pkg_error_t * pkg_jobs) :=
  match CUDF_SOLVER, SAT_SOLVER with
  | Some solver, _ => solve_cudf call solver j
  | None, Some solver => solve_external call solver j
  | None, None => solve_internal call j
  end.

(** From pkgdb_begin_solver to pkgdb_end_solver. *)
Definition solve_once (s : solving) : option (option pkg_error_t * solving) :=
  let s := execute s [BeginSolver] in
  '(ret, j) ← solve_requests (sv_job s);
  '(ret, j) ← match ret with
              | EPKG_OK => select_packages (length (statements s)) j
              | _ => Some (Some ret, j)
              end;
  match ret with
  | None => Some (None, with_job s j)
  | Some ret =>
      j ← (if bool_decide (j_type j = PKG_JOBS_DEINSTALL) && negb (j_solved j =? 0) then pkg_jobs_set_deinstall_reasons emit j else Some j);
      Some (Some ret, execute (with_job s j) [EndSolver])
  end.

Definition pkg_jobs_apply_replacements (s : solving) : solving :=
  execute s (map (fun r => ChangeUid (new_uid r) (old_uid r)) (uid_replaces (j_universe (sv_job s)))).

(** Whether the files of the packages are there. *)
Fixpoint load_jobs (l : list pkg_solved) (s : solving) : option solving :=
  match l with
  | [] => Some s
  | job :: l =>
      let i := s_item0 job in
      p ← pkg_of (j_universe (sv_job s)) i;
      if negb (bool_decide (type p = PKG_REMOTE)) then load_jobs l s
      else if load_fails p (Z.lor PKG_LOAD_FILES PKG_LOAD_DIRS) then Some (set_need_fetch s)
      else load_jobs l (with_job s (fst (load_item (sv_job s) i p (Z.lor PKG_LOAD_FILES PKG_LOAD_DIRS))))
  end.

Definition check_conflicts (s : solving) : option (pkg_error_t * solving) :=
  '(rc, t, (j, n)) ← pkg_jobs_check_conflicts emit sha256 repo_digest_format fuel local_files order_rows (integritycheck s) (sv_job s, O);
  Some (rc, mk_solving j n (need_fetch s) t (statements s)).

(** The loop; [solve] is pkg_jobs_solve, whose answer is not looked at. *)
Fixpoint check_again (solve : solving -> option (pkg_error_t * solving)) (checks : nat) (has_conflicts : bool) (s : solving)
  : option solving :=
  match checks with
  | O => None
  | S checks =>
      '(rc, s) ← check_conflicts s;
      let next has_conflicts s := if (0 <? conflicts_registered s)%nat then check_again solve checks has_conflicts s else Some s in
      match rc, has_conflicts with
      | EPKG_CONFLICT, _ => '(_, s) ← solve (with_job s (set_jobs (sv_job s) [] 0)); next true s
      | EPKG_OK, false => Some s
      | _, _ => next has_conflicts s
      end
  end.

Fixpoint pkg_jobs_solve (rounds checks : nat) (s : solving) : option (pkg_error_t * solving) :=
  match rounds with
  | O => None
  | S rounds =>
      '(ret, s) ← solve_once s;
      match ret with
      | None => Some (EPKG_FATAL, s)
      | Some EPKG_OK =>
          let s := pkg_jobs_apply_replacements s in
          s ← load_jobs (j_jobs (sv_job s)) s;
          s ← (if (j_solved (sv_job s) =? 1) && negb (need_fetch s) then check_again (pkg_jobs_solve rounds checks) checks false s else Some s);
          Some (EPKG_OK, s)
      | Some ret => Some (ret, s)
      end
  end.

(** ** Transactions *)

(** One begins when none is open, ends when one is, and packages are renamed
    outside of one. *)
Fixpoint transaction (is_open : bool) (l : list statement) : option bool :=
  match l with
  | [] => Some is_open
  | BeginSolver :: l => if is_open then None else transaction true l
  | EndSolver :: l => if is_open then transaction false l else None
  | ChangeUid _ _ :: l => if is_open then None else transaction is_open l
  end.

Definition closed (s : solving) : Prop := transaction false (statements s) = Some false.

Lemma transaction_app o l1 l2 : transaction o (l1 ++ l2) = o' ← transaction o l1; transaction o' l2.
Proof. revert o; induction l1 as [|[| |new old] l1 IH]; intros o; [done|..]; cbn [app transaction]; destruct o; try done; apply IH. Qed.

Lemma replacements_closed s : closed s -> closed (pkg_jobs_apply_replacements s).
Proof.
  unfold closed. cbn [statements execute pkg_jobs_apply_replacements]. intros Hs. rewrite transaction_app, Hs. cbn [mbind option_bind].
  by induction (uid_replaces _) as [|r l IH].
Qed.

Lemma load_jobs_statements l : forall s s', load_jobs l s = Some s' -> statements s' = statements s.
Proof.
  induction l as [|job l IH]; intros s s'; cbn [load_jobs]; [by intros [= <-]|].
  destruct (pkg_of _ _) as [p|]; [|done]. cbn [mbind option_bind]. destruct (negb _); [apply IH|].
  destruct (load_fails _ _); [by intros [= <-]|]. intros H. by rewrite (IH _ _ H).
Qed.

Lemma check_conflicts_statements s rc s' : check_conflicts s = Some (rc, s') -> statements s' = statements s.
Proof.
  unfold check_conflicts. destruct (pkg_jobs_check_conflicts _ _ _ _ _ _ _ _) as [[[rc' t] [j n]]|]; [|done].
  cbn [mbind option_bind]. by intros [= _ <-].
Qed.

Lemma check_nothing s : j_jobs (sv_job s) = [] -> check_conflicts s = Some (EPKG_OK, mk_solving (sv_job s) 0 (need_fetch s) (integritycheck s) (statements s)).
Proof. intros Hj. unfold check_conflicts, pkg_jobs_check_conflicts. cbn [fst]. rewrite Hj. done. Qed.

(** With no jobs the loop does nothing. *)
Lemma check_again_nothing solve checks s s' : j_jobs (sv_job s) = [] -> check_again solve checks true s = Some s' ->
  statements s' = statements s /\ j_jobs (sv_job s') = [].
Proof.
  intros Hj. destruct checks as [|checks]; [done|]. cbn [check_again]. rewrite check_nothing by done.
  cbn [mbind option_bind conflicts_registered Nat.ltb Nat.leb]. by intros [= <-].
Qed.

(** The process of the configured solver was not started. *)
Definition start_failed : Prop :=
  exists call solver, (CUDF_SOLVER = Some solver \/ CUDF_SOLVER = None /\ SAT_SOLVER = Some solver) /\ process_spawn_pipe call solver = None.

(** The last statement begins a transaction. *)
Definition left_open (s : solving) : Prop := exists l, statements s = l ++ [BeginSolver] /\ transaction false l = Some false.

Definition ended (s : solving) : Prop := closed s \/ left_open s /\ start_failed /\ j_jobs (sv_job s) = [].

Lemma solve_requests_jobs j rc j' : solve_requests j = Some (rc, j') -> j_jobs j' = j_jobs j.
Proof.
  intros H. assert (has_jobs (j_jobs j) (solve_requests j)) as Hk; [|rewrite H in Hk; apply Hk]. unfold solve_requests. destruct (j_type j).
  all: first [by apply kept_install_upgrade|by apply kept_deinstall|by apply kept_autoremove|by apply kept_fetch].
Qed.

(** Only a process that is not started makes pkg_jobs_solve return there. *)
Lemma select_packages_cases call j ret j' : select_packages call j = Some (ret, j') ->
  is_Some ret \/ start_failed /\ j_jobs j' = j_jobs j.
Proof.
  unfold select_packages, start_failed. destruct CUDF_SOLVER as [solver|].
  - unfold solve_cudf. destruct (process_spawn_pipe call solver) as [process|] eqn:Es.
    2:{ intros [= _ <-]. right. split; [|done]. exists call, solver. split; [by left|done]. }
    destruct (pkg_jobs_cudf_emit_file _ _ _) as [[[[r text] j1] rings]|]; [|done]. cbn [mbind option_bind]. intros H. left. revert H.
    destruct r; try (by intros [= <- _]). destruct (pkg_jobs_cudf_parse_output _ _ _ _) as [[r j2]|]; [|done]. cbn [mbind option_bind]. by intros [= <- _].
  - destruct SAT_SOLVER as [solver|].
    + unfold solve_external, pkg_solve_dimacs_export. rewrite order_variables_none.
      destruct (pkg_jobs_universe_process_upgrade_chains _ _) as [j1|] eqn:E1; [|done]. cbn [mbind option_bind].
      assert (has_jobs (j_jobs j) (pkg_jobs_universe_process_upgrade_chains emit j)) as Hk by (by apply kept_upgrade_chains).
      rewrite E1 in Hk. destruct (pkg_solve_jobs_to_sat _ _) as [[r pb]|]; [|done]. cbn [mbind option_bind].
      destruct r; try (by intros [= <- _]; left). destruct (process_spawn_pipe call solver) as [process|] eqn:Es; [done|].
      intros [= _ <-]. right. split; [|exact Hk]. exists call, solver. split; [by right|done].
    + unfold solve_internal. destruct (solve_again _ _ _ _ _ _) as [[r j1]|]; [|done]. cbn [mbind option_bind]. intros [= <- _]. by left.
Qed.

Lemma solve_once_cases s ret s' : solve_once s = Some (ret, s') -> closed s ->
  is_Some ret /\ closed s' \/ ret = None /\ left_open s' /\ start_failed /\ j_jobs (sv_job s') = j_jobs (sv_job s).
Proof.
  unfold solve_once. destruct (solve_requests _) as [[rc j]|] eqn:Er; [|done]. cbn [mbind option_bind]. apply solve_requests_jobs in Er.
  destruct (match rc with EPKG_OK => _ | _ => _ end) as [[ret1 j1]|] eqn:E1; [|done]. cbn [mbind option_bind]. intros H Hs.
  assert (is_Some ret1 \/ start_failed /\ j_jobs j1 = j_jobs j) as Hret
    by (destruct rc; first [by eapply select_packages_cases|by injection E1 as <- _; left]).
  destruct ret1 as [r|].
  - left. destruct (if bool_decide _ && _ then _ else _) as [j2|]; [|done]. cbn [mbind option_bind] in H. injection H as <- <-. split; [by eexists|].
    unfold closed in *. cbn [statements execute with_job]. rewrite !transaction_app, Hs. done.
  - right. injection H as <- <-. destruct Hret as [[? ?]|[Hf Hj]]; [done|]. split_and!; [done|by exists (statements s)|done|].
    cbn [sv_job with_job execute] in *. by rewrite Hj, Er.
Qed.

Lemma check_again_ended solve checks : (forall s r s', solve s = Some (r, s') -> closed s -> j_jobs (sv_job s) = [] -> ended s') ->
  forall has s s', check_again solve checks has s = Some s' -> closed s -> ended s'.
Proof.
  intros Hsolve. induction checks as [|checks IH]; intros has s s'; [done|]. cbn [check_again].
  destruct (check_conflicts s) as [[rc s1]|] eqn:Ec; [|done]. cbn [mbind option_bind]. apply check_conflicts_statements in Ec as Es.
  intros H Hs. assert (closed s1) as Hs1 by (unfold closed; by rewrite Es).
  assert (forall b s, (if (0 <? conflicts_registered s)%nat then check_again solve checks b s else Some s) = Some s' -> closed s -> ended s') as Hnext.
  { intros b s2. destruct (0 <? conflicts_registered s2)%nat; [apply IH|intros [= <-]; by left]. }
  destruct rc; try (by apply Hnext in H); [destruct has; [by apply Hnext in H|injection H as <-; by left]|].
  destruct (solve _) as [[r s2]|] eqn:E2; [|done]. cbn [mbind option_bind] in H.
  destruct (Hsolve _ _ _ E2 Hs1 eq_refl) as [Hc|(Ho & Hf & Hj)]; [by apply Hnext in H|].
  destruct (0 <? conflicts_registered s2)%nat; [|injection H as <-; right; by split_and!].
  destruct (check_again_nothing _ _ _ _ Hj H) as [Hst Hj']. right. unfold left_open. rewrite Hst. by split_and!.
Qed.

Lemma pkg_jobs_solve_ended rounds checks : forall s r s', pkg_jobs_solve rounds checks s = Some (r, s') -> closed s ->
  ended s' \/ left_open s' /\ start_failed /\ j_jobs (sv_job s') = j_jobs (sv_job s).
Proof.
  induction rounds as [|rounds IH]; intros s r s'; [done|]. cbn [pkg_jobs_solve].
  destruct (solve_once s) as [[ret s1]|] eqn:E1; [|done]. cbn [mbind option_bind]. intros H Hs.
  destruct (solve_once_cases _ _ _ E1 Hs) as [[[ret' ->] Hs1]|(-> & Ho)]; [left|right; by injection H as _ <-].
  destruct ret'; try (injection H as _ <-; by left).
  destruct (load_jobs _ _) as [s2|] eqn:E2; [|done]. cbn [mbind option_bind] in H.
  assert (closed s2) as Hs2 by (unfold closed; rewrite (load_jobs_statements _ _ _ E2); by apply replacements_closed).
  destruct (_ && _); [|injection H as _ <-; by left].
  destruct (check_again _ _ _ _) as [s3|] eqn:E3; [|done]. cbn [mbind option_bind] in H. injection H as _ <-.
  apply (check_again_ended _ checks) in E3; [done| |done]. intros x rx x' Hx Hcx Hjx.
  destruct (IH x rx x' Hx Hcx) as [?|(? & ? & Hj)]; [done|right]. split_and!; [done|done|congruence].
Qed.

(** C28: pkg_jobs_solve ends every transaction it begins before it begins
    another one and before it renames a package, however often the job is solved
    again; with one exception.  When the process of the configured solver cannot
    be started, it returns at once: the transaction that was begun last stays
    open, and no statement follows.  With the solver of its own there is no such
    process. *)
Theorem transactions_closed (rounds checks : nat) (s s' : solving) (r : pkg_error_t) (Hs : closed s) :
  pkg_jobs_solve rounds checks s = Some (r, s') -> closed s' \/ left_open s' /\ start_failed.
Proof. intros H. destruct (pkg_jobs_solve_ended _ _ _ _ _ H Hs) as [[?|(? & ? & _)]|(? & ? & _)]; [by left|by right..]. Qed.

(** ** A conflict that cannot be solved *)

(** The rest of the loop has no jobs to look at. *)
Lemma next_nothing solve checks s : j_jobs (sv_job s) = [] ->
  exists s', (if (0 <? conflicts_registered s)%nat then check_again solve (S checks) true s else Some s) = Some s' /\ j_jobs (sv_job s') = [] /\
    sv_job s' = sv_job s.
Proof.
  intros Hj. destruct (_ <? _)%nat; [|by exists s]. cbn [check_again]. rewrite check_nothing by done. cbn [mbind option_bind conflicts_registered].
  eexists. split; [reflexivity|]. done.
Qed.

(** When the conflicts between files that are found after a job is solved
    make it unsolvable, pkg_jobs_solve answers EPKG_OK and leaves no jobs:
    the answer of the second run is not looked at. *)
Theorem failure_swallowed (rounds checks : nat) (s s1 s2 s3 s4 : solving) (r : pkg_error_t)
  (H1 : solve_once s = Some (Some EPKG_OK, s1))
  (H2 : load_jobs (j_jobs (sv_job s1)) (pkg_jobs_apply_replacements s1) = Some s2)
  (Hfirst : j_solved (sv_job s2) = 1) (Hfetch : need_fetch s2 = false)
  (H3 : check_conflicts s2 = Some (EPKG_CONFLICT, s3))
  (H4 : pkg_jobs_solve rounds (S (S checks)) (with_job s3 (set_jobs (sv_job s3) [] 0)) = Some (r, s4))
  (Hr : r <> EPKG_OK) (Hnone : j_jobs (sv_job s4) = []) :
  exists s5, pkg_jobs_solve (S rounds) (S (S checks)) s = Some (EPKG_OK, s5) /\ j_jobs (sv_job s5) = [] /\ sv_job s5 = sv_job s4.
Proof.
  cbn [pkg_jobs_solve]. rewrite H1. cbn [mbind option_bind]. change (j_jobs (sv_job (pkg_jobs_apply_replacements s1))) with (j_jobs (sv_job s1)). rewrite H2. cbn [mbind option_bind].
  rewrite Hfirst, Hfetch. cbn [Z.eqb Pos.eqb andb negb]. cbn [check_again]. rewrite H3. cbn [mbind option_bind]. cbn [pkg_jobs_solve] in H4. rewrite H4. cbn [mbind option_bind].
  destruct (next_nothing (pkg_jobs_solve rounds (S (S checks))) checks s4 Hnone) as (s5 & H5 & Hj & He).
  cbn [check_again] in H5. rewrite H5. cbn [mbind option_bind]. by exists s5.
Qed.

(** ** An installation without conflicts *)

(** Loading files keeps what a package is, and is done once; nothing fails. *)
Context (Horder : forall l, order_rows l ≡ₚ l)
  (Hload : forall p, wf_pkg p -> let q := pkgdb_ensure_loaded p (Z.lor PKG_LOAD_FILES PKG_LOAD_DIRS) in
    wf_pkg q /\ pkg_uid emit q = pkg_uid emit p)
  (Honce : forall p, let q := pkgdb_ensure_loaded p (Z.lor PKG_LOAD_FILES PKG_LOAD_DIRS) in
    type q = type p /\ pkgdb_ensure_loaded q (Z.lor PKG_LOAD_FILES PKG_LOAD_DIRS) = q)
  (Hthere : forall p flag, load_fails p flag = false).

Lemma files_loaded_refl j : files_loaded j j.
Proof. split; [by destruct j|done|]. by left. Qed.

Lemma files_loaded_trans j1 j2 j3 : files_loaded j1 j2 -> files_loaded j2 j3 -> files_loaded j1 j3.
Proof.
  intros [A1 A2 A3] [B1 B2 B3]. split; [rewrite <- B1, <- A1; by destruct j1|congruence|]. intros i p Hp.
  destruct (Honce p) as [Ht Hi]. destruct (A3 i p Hp) as [H|[Hr H]].
  - by apply B3.
  - right. split; [done|]. destruct (B3 i _ H) as [H'|[_ H']]; [done|]. by rewrite Hi in H'.
Qed.

Lemma load_item_loaded j i p : pkg_of (j_universe j) i = Some p -> type p = PKG_REMOTE ->
  files_loaded j (fst (load_item j i p (Z.lor PKG_LOAD_FILES PKG_LOAD_DIRS))).
Proof.
  intros Hp Ht. split; [by destruct j|done|]. intros k q Hq. cbn [fst load_item j_universe set_universe]. rewrite pkg_of_set_item.
  destruct (decide (k = i)) as [->|]; [|by left]. assert (q = p) as -> by congruence. right. by rewrite Hq.
Qed.

Lemma files_loaded_item j j' i : files_loaded j j' -> is_Some (pkg_of (j_universe j) i) -> is_Some (pkg_of (j_universe j') i).
Proof. intros H [p Hp]. destruct (fl_pkgs _ _ H i p Hp) as [->|[_ ->]]; by eexists. Qed.

Lemma load_jobs_ok l : forall s, (forall ps, ps ∈ l -> is_Some (pkg_of (j_universe (sv_job s)) (s_item0 ps))) ->
  exists j', load_jobs l s = Some (with_job s j') /\ files_loaded (sv_job s) j'.
Proof.
  induction l as [|job l IH]; intros s Hl.
  { exists (sv_job s). split; [by destruct s|apply files_loaded_refl]. }
  cbn [load_jobs]. destruct (Hl job ltac:(by left)) as [p Hp]. rewrite Hp. cbn [mbind option_bind]. rewrite Hthere.
  destruct (decide (type p = PKG_REMOTE)) as [Ht|Ht].
  - rewrite bool_decide_eq_true_2 by done. cbn [negb]. pose proof (load_item_loaded _ _ _ Hp Ht) as Hf.
    set (s1 := with_job s _) in *. destruct (IH s1) as (j' & H & Hf').
    + intros ps Hps. apply (files_loaded_item (sv_job s)); [exact Hf|]. apply Hl. by right.
    + exists j'. split; [by rewrite H|]. by eapply files_loaded_trans.
  - rewrite bool_decide_eq_false_2 by done. cbn [negb]. apply IH. intros ps Hps. apply Hl. by right.
Qed.

Lemma loaded_paths j j' l : files_loaded j j' -> (forall ps, ps ∈ l -> is_Some (pkg_of (j_universe j) (s_item0 ps))) ->
  all_paths emit (j_universe j') l = all_paths emit (j_universe j) l.
Proof.
  intros Hf Hl. unfold all_paths. f_equal. apply map_ext_in. intros ps Hps%list_elem_of_In. unfold job_paths.
  assert (checked_pkg (j_universe j') ps = checked_pkg (j_universe j) ps) as ->; [|done]. destruct (Hl ps Hps) as [p Hp].
  unfold checked_pkg. destruct (s_type ps); try done; rewrite Hp; (destruct (fl_pkgs _ _ Hf _ _ Hp) as [->|[Ht ->]]; [done|]);
    cbn [mbind option_bind]; destruct (Honce p) as [-> Hi]; by rewrite Ht, Hi.
Qed.

Lemma loaded_clash j j' l : files_loaded j j' -> (forall ps, ps ∈ l -> is_Some (pkg_of (j_universe j) (s_item0 ps))) ->
  clash_free emit local_files (j_universe j) l -> clash_free emit local_files (j_universe j') l.
Proof. intros Hf Hl. unfold clash_free. by rewrite (loaded_paths j j'). Qed.

Lemma loaded_checkable j j' l : files_loaded j j' -> checkable emit (j_universe j) l -> checkable emit (j_universe j') l.
Proof.
  intros Hf [Hi Hn]. split; [|done]. intros ps Hps. destruct (Hi ps Hps) as (p & Hp & Hw & Hu).
  destruct (fl_pkgs _ _ Hf _ _ Hp) as [H|[_ H]]; [by exists p|]. eexists. split; [exact H|].
  destruct (Hload p Hw) as [Hw' Hu']. split; [done|]. by rewrite Hu'.
Qed.

(** A first answer without conflicts is the answer. *)
Lemma solve_first_answer rounds checks s s1 : solve_once s = Some (Some EPKG_OK, s1) ->
  j_solved (sv_job s1) = 1 -> need_fetch s1 = false -> integritycheck s1 = ∅ ->
  checkable emit (j_universe (sv_job s1)) (j_jobs (sv_job s1)) ->
  clash_free emit local_files (j_universe (sv_job s1)) (j_jobs (sv_job s1)) ->
  exists s', pkg_jobs_solve (S rounds) (S checks) s = Some (EPKG_OK, s') /\ files_loaded (sv_job s1) (sv_job s') /\
    conflicts_registered s' = O /\ integritycheck s' = ∅ /\ need_fetch s' = false.
Proof.
  intros H1 Hso Hnf Ht Hck Hcf. cbn [pkg_jobs_solve]. rewrite H1. cbn [mbind option_bind].
  set (sr := pkg_jobs_apply_replacements s1). change (j_jobs (sv_job sr)) with (j_jobs (sv_job s1)).
  assert (forall ps, ps ∈ j_jobs (sv_job s1) -> is_Some (pkg_of (j_universe (sv_job s1)) (s_item0 ps))) as Hsome.
  { intros ps Hps. destruct (ck_items _ _ _ Hck ps Hps) as (p & -> & _). by eexists. }
  destruct (load_jobs_ok (j_jobs (sv_job s1)) sr Hsome) as (j2 & H2 & Hf). rewrite H2. cbn [mbind option_bind].
  change (sv_job sr) with (sv_job s1) in Hf. cbn [sv_job with_job need_fetch sr pkg_jobs_apply_replacements execute].
  assert (j_jobs j2 = j_jobs (sv_job s1) /\ j_solved j2 = j_solved (sv_job s1)) as [Hj2 Hs2] by (rewrite <- (fl_rest _ _ Hf); done).
  rewrite Hs2, Hso, Hnf. cbn [Z.eqb Pos.eqb andb negb check_again].
  destruct (check_conflicts_ok emit sha256 repo_digest_format fuel local_files order_rows Horder Hload j2 O) as [Hok _].
  { rewrite Hj2. by eapply loaded_checkable. }
  destruct Hok as (j3 & Hf3 & H3); [rewrite Hj2; by eapply loaded_clash|].
  unfold check_conflicts. cbn [sv_job with_job integritycheck execute pkg_jobs_apply_replacements sr]. subst sr. cbn [integritycheck pkg_jobs_apply_replacements execute]. rewrite Ht, H3. cbn [mbind option_bind].
  eexists. split; [reflexivity|]. cbn [sv_job conflicts_registered integritycheck need_fetch].
  split_and!; [by eapply files_loaded_trans|done|done|done].
Qed.

(** The jobs of a selection stand for different items. *)
Lemma nodup_concat_sub {A} (ls ls' : list (list A)) : NoDup (concat ls) ->
  Forall2 (fun l l' => (NoDup l -> NoDup l') /\ l' ⊆ l) ls ls' -> NoDup (concat ls').
Proof.
  intros Hn H. assert (forall xs xs', Forall2 (fun l l' => (NoDup l -> NoDup l') /\ l' ⊆ l) xs xs' -> forall x : A, x ∈ concat xs' -> x ∈ concat xs) as Hsub.
  { clear. intros xs xs' H x. induction H as [|l l' ls ls' [_ Hl] _ IH]; [done|]. cbn. rewrite !elem_of_app. intros [?|?]; [left|right]; auto. }
  induction H as [|l l' ls ls' [Hl Hll] Hls IH]; [done|]. cbn [concat] in *. apply NoDup_app in Hn as (H1 & H2 & H3). apply NoDup_app.
  split_and!; [auto| |auto]. intros x Hx Hx'. apply (H2 x); [auto|]. by apply (Hsub _ _ Hls).
Qed.

Lemma nodup_filter (f : nat -> bool) l : NoDup l -> NoDup (List.filter f l).
Proof. intros Hl. apply NoDup_ListNoDup, List.NoDup_filter. by apply NoDup_ListNoDup. Qed.

Lemma filter_sub (f : nat -> bool) l x : x ∈ List.filter f l -> x ∈ l /\ f x = true.
Proof. intros Hx%list_elem_of_In. apply filter_In in Hx as [? ?]. split; [by apply list_elem_of_In|done]. Qed.

Lemma chain_jobs_items t u sel chain : let items := map s_item0 (chain_jobs t (adds u sel chain) (dels u sel chain)) in
  (NoDup chain -> NoDup items) /\ items ⊆ chain.
Proof.
  cbn zeta. assert (forall l, map s_item0 (map (fun d => mk_solved d None PKG_SOLVED_DELETE false) l) = l) as Hdel
    by (intros l; rewrite map_map; apply map_id).
  assert (dels u sel chain ⊆ chain /\ adds u sel chain ⊆ chain) as [Hd Ha] by (split; intros x Hx; by apply filter_sub in Hx as [? _]).
  assert (forall x, x ∈ adds u sel chain -> x ∉ dels u sel chain) as Hdis.
  { intros x Hx Hy. apply filter_sub in Hx as [_ [Hx _]%andb_true_iff]. apply filter_sub in Hy as [_ [Hy _]%andb_true_iff]. by rewrite Hx in Hy. }
  unfold chain_jobs. destruct (adds u sel chain) as [|a [|b adds]].
  - rewrite Hdel. split; [apply nodup_filter|done].
  - assert (a ∈ chain) as Hac by (apply Ha; by left). destruct (last (dels u sel chain)) as [d|]; cbn [map s_item0].
    + rewrite Hdel. split.
      * intros Hn. apply NoDup_cons. split; [|by apply nodup_filter, nodup_filter]. intros [Hx _]%filter_sub. apply (Hdis a); [by left|done].
      * intros x [->|[Hx _]%filter_sub]%elem_of_cons; [done|]. by apply Hd.
    + split; [intros _; apply NoDup_singleton|]. by intros x ->%list_elem_of_singleton.
  - split; [intros _; constructor|]. intros x Hx. by apply elem_of_nil in Hx.
Qed.

Lemma solved_jobs_checkable j sel : wf_universe emit (j_universe j) -> j_type j <> PKG_JOBS_FETCH ->
  checkable emit (j_universe j) (solved_jobs j sel).
Proof.
  intros Hw Ht. split.
  - intros ps Hps. destruct (solved_job_cases emit j sel ps Hw Ht Hps) as [[p Hp] _]. exists p. split_and!; [done|by eapply (wu_pkgs _ _ Hw)|].
    destruct (chain_of_item emit _ _ p Hw Hp) as (chain & uid & _ & _ & Hu & _). by exists uid.
  - unfold solved_jobs. rewrite concat_map, map_map. eapply nodup_concat_sub; [apply (wu_nodup _ _ Hw)|].
    induction (values (u_items (j_universe j))) as [|c l IH]; cbn [map]; constructor; [|done]. apply chain_jobs_items.
Qed.

Lemma solve_once_selected s j1 j2 r : solve_requests (sv_job s) = Some (EPKG_OK, j1) ->
  select_packages (length (statements (execute s [BeginSolver]))) j1 = Some (Some r, j2) -> j_type j2 <> PKG_JOBS_DEINSTALL ->
  solve_once s = Some (Some r, execute (with_job (execute s [BeginSolver]) j2) [EndSolver]).
Proof.
  intros H1 H2 Ht. unfold solve_once. cbn [sv_job execute]. rewrite H1. cbn [mbind option_bind]. rewrite H2. cbn [mbind option_bind].
  by rewrite bool_decide_eq_false_2.
Qed.

Lemma solve_once_no_requests s j : solve_requests (sv_job s) = Some (EPKG_FATAL, j) -> j_type j <> PKG_JOBS_DEINSTALL ->
  solve_once s = Some (Some EPKG_FATAL, execute (with_job (execute s [BeginSolver]) j) [EndSolver]).
Proof.
  intros H1 Ht. unfold solve_once. cbn [sv_job execute]. rewrite H1. cbn [mbind option_bind]. by rewrite bool_decide_eq_false_2.
Qed.

Lemma pkg_jobs_solve_fails rounds checks s s' : solve_once s = Some (Some EPKG_FATAL, s') ->
  pkg_jobs_solve (S rounds) checks s = Some (EPKG_FATAL, s').
Proof. intros H. cbn [pkg_jobs_solve]. by rewrite H. Qed.

Section installation.
Context (C : catalogue) (Hdb : pkgdb_laws emit C) (Hno : forall question, yesno question = false)
  (Hloaded : forall p flag, known emit C p -> is_local p = true -> pkgdb_ensure_loaded p flag = p)
  (Hps : picosat_ok picosat_sat) (Hown : CUDF_SOLVER = None /\ SAT_SOLVER = None).

End installation.
End jobs_solve.

(** ** Concrete jobs *)

(** Nothing is installed; the repository has left and right, which share a
    file. *)
Definition pair_db : pkgdb := mk_pkgdb (fun _ _ _ => Some [])
  (fun uid _ _ => Some (from_option (rows_of [("left~x/left", left_pkg); ("right~x/right", right_pkg)]) [] uid))
  (fun _ _ => Some []) (fun p _ => p).

Definition wanted (name : string) : job_pattern := mk_pattern (Some (str name)) None MATCH_EXACT false.

Definition pair_patterns : list job_pattern := [wanted "left~x/left"; wanted "right~x/right"].

Definition new_job (j : pkg_jobs) : solving := mk_solving j 0 false ∅ [].

Abbreviation solve_in db cudf sat spawn patterns rounds checks s :=
  (pkg_jobs_solve (db := db) no_emit (fun _ => []) (fun _ => None) declined id (fun _ => None) brute_sat (fun _ _ _ => false)
    cudf sat spawn (fun _ _ => false) ∅ id 5 5 5 5 patterns rounds checks s).

(** The answer, the jobs, whether the job is solved, and the statements. *)
Definition outcome (r : option (pkg_error_t * solving)) : option (pkg_error_t * list nat * Z * list statement) :=
  '(rc, s) ← r; Some (rc, map s_item0 (j_jobs (sv_job s)), j_solved (sv_job s), statements s).

Lemma outcome_inv r rc items n l : outcome r = Some (rc, items, n, l) ->
  exists s, r = Some (rc, s) /\ map s_item0 (j_jobs (sv_job s)) = items /\ j_solved (sv_job s) = n /\ statements s = l.
Proof. destruct r as [[rc' s]|]; [|done]. cbn. intros [= <- <- <- <-]. by exists s. Qed.

(** Two packages with a file in common are asked for: the answer is EPKG_OK,
    there are no jobs, and the job is not solved. *)
Lemma pair_outcome spawn : outcome (solve_in pair_db None None spawn pair_patterns 2 2 (new_job empty_jobs)) =
  Some (EPKG_OK, [], 0, [BeginSolver; EndSolver; BeginSolver; EndSolver]).
Proof. vm_compute. reflexivity. Qed.

(** The process of the solver is not started: the transaction stays open. *)
Example transaction_left_open :
  outcome (solve_in pair_db (Some (str "solver")) None (fun _ _ => None) pair_patterns 2 2 (new_job empty_jobs)) = Some (EPKG_FATAL, [], 1, [BeginSolver]).
Proof. vm_compute. reflexivity. Qed.

(** The same packages with origins, without which the document cannot be
    written. *)
Definition ported (name : string) (files : list string) : pkg :=
  sample_row PKG_REMOTE name "1.0" ("d_" ++ name)
    (OpSet [(PKG_ORIGIN, ArgString (Some (str ("x/" ++ name))))] :: map (fun f => OpFile (str f) None None None 0 true) files).

Definition ported_db : pkgdb := mk_pkgdb (fun _ _ _ => Some [])
  (fun uid _ _ => Some (from_option (rows_of [("left~x/left", ported "left" ["/bin/left"; "/bin/both"]); ("right~x/right", ported "right" ["/bin/both"])]) [] uid))
  (fun _ _ => Some []) (fun p _ => p).

(** The answer of the external solver. *)
Definition both_answers : cstring := answer_text [mk_answer (str "left~x/left") 0 1 true; mk_answer (str "right~x/right") 1 1 true].

(** The process is started once, and not when the conflict between the files is
    to be solved: the answer is EPKG_OK, and the transaction stays open. *)
Example second_start_fails :
  outcome (solve_in ported_db (Some (str "solver")) None (fun call _ => if (call =? 1)%nat then Some (fun _ => both_answers) else None) pair_patterns 2 2
    (new_job empty_jobs)) = Some (EPKG_OK, [], 2, [BeginSolver; EndSolver; BeginSolver]).
Proof. vm_compute. reflexivity. Qed.

Lemma transactions_closed_witness :
  exists s', solve_in pair_db (Some (str "solver")) None (fun _ _ => None) pair_patterns 2 2 (new_job empty_jobs) = Some (EPKG_FATAL, s') /\
    statements s' = [BeginSolver] /\ left_open s'.
Proof.
  destruct (outcome_inv _ _ _ _ _ transaction_left_open) as (s' & H & _ & _ & Hst). exists s'. split; [exact H|]. split; [exact Hst|].
  destruct (transactions_closed (db := pair_db) no_emit (fun _ => []) (fun _ => None) declined id (fun _ => None) brute_sat (fun _ _ _ => false)
    (Some (str "solver")) None (fun _ _ => None) (fun _ _ => false) ∅ id 5 5 5 5 pair_patterns 2 2 (new_job empty_jobs) s' EPKG_FATAL eq_refl H)
    as [Hc|[Ho _]]; [|exact Ho]. unfold closed in Hc. rewrite Hst in Hc. discriminate Hc.
Defined.

(** The steps of the first run. *)
Abbreviation pair_first :=
  (solve_once (db := pair_db) no_emit (fun _ => []) (fun _ => None) declined id (fun _ => None) brute_sat (fun _ _ _ => false)
    None None (fun _ _ => None) 5 5 5 5 pair_patterns (new_job empty_jobs)).

Lemma four_steps {R R' A T} (f : option (R * A)) (g : A -> option A) (h k : A -> option (R' * A)) (obs : R -> A -> R' -> R' -> A -> T) out :
  ('(r1, s1) ← f; s2 ← g s1; '(r3, s3) ← h s2; '(r4, s4) ← k s3; Some (obs r1 s2 r3 r4 s4)) = Some out ->
  exists r1 s1 s2 r3 s3 r4 s4, f = Some (r1, s1) /\ g s1 = Some s2 /\ h s2 = Some (r3, s3) /\ k s3 = Some (r4, s4) /\ obs r1 s2 r3 r4 s4 = out.
Proof.
  destruct f as [[r1 s1]|]; [|done]. cbn. destruct (g s1) as [s2|] eqn:E2; [|done]. cbn. destruct (h s2) as [[r3 s3]|] eqn:E3; [|done]. cbn.
  destruct (k s3) as [[r4 s4]|] eqn:E4; [|done]. cbn. intros [= <-]. by exists r1, s1, s2, r3, s3, r4, s4.
Qed.

(** The steps of the first run and the answer of the second. *)
Lemma pair_steps :
  ('(r1, s1) ← pair_first;
   s2 ← load_jobs (db := pair_db) (fun _ _ => false) (j_jobs (sv_job s1)) (pkg_jobs_apply_replacements s1);
   '(r3, s3) ← check_conflicts (db := pair_db) no_emit (fun _ => []) (fun _ => None) ∅ id 5 s2;
   '(r4, s4) ← solve_in pair_db None None (fun _ _ => None) pair_patterns 1%nat 2%nat (with_job s3 (set_jobs (sv_job s3) [] 0));
   Some (r1, j_solved (sv_job s2), need_fetch s2, r3, r4, j_jobs (sv_job s4))) = Some (Some EPKG_OK, 1, false, EPKG_CONFLICT, EPKG_FATAL, []).
Proof. vm_compute. reflexivity. Qed.

Lemma failure_swallowed_witness :
  exists s5, solve_in pair_db None None (fun _ _ => None) pair_patterns 2%nat 2%nat (new_job empty_jobs) = Some (EPKG_OK, s5) /\ j_jobs (sv_job s5) = [].
Proof.
  destruct (four_steps _ (fun s1 => load_jobs (db := pair_db) (fun _ _ => false) (j_jobs (sv_job s1)) (pkg_jobs_apply_replacements s1)) _
    (fun s3 => solve_in pair_db None None (fun _ _ => None) pair_patterns 1%nat 2%nat (with_job s3 (set_jobs (sv_job s3) [] 0)))
    (fun r1 s2 r3 r4 s4 => (r1, j_solved (sv_job s2), need_fetch s2, r3, r4, j_jobs (sv_job s4))) _ pair_steps)
    as (r1 & s1 & s2 & r3 & s3 & r4 & s4 & H1 & H2 & H3 & H4 & Hobs).
  injection Hobs as -> Hso Hnf -> -> Hj.
  destruct (failure_swallowed (db := pair_db) no_emit (fun _ => []) (fun _ => None) declined id (fun _ => None) brute_sat (fun _ _ _ => false)
    None None (fun _ _ => None) (fun _ _ => false) ∅ id 5 5 5 5 pair_patterns 1 0 (new_job empty_jobs) s1 s2 s3 s4 EPKG_FATAL
    H1 H2 Hso Hnf H3 H4 ltac:(discriminate) Hj) as (s5 & H5 & Hj5 & _).
  exists s5. split; [exact H5|exact Hj5].
Defined.

(** The packages of the sample repository have no files. *)
Abbreviation foo_requests :=
  (solve_requests (db := install_db) no_emit (fun _ => []) (fun _ => None) declined id (fun _ => None) 5 5 foo_patterns cli_jobs).

Abbreviation foo_selected j1 :=
  (select_packages no_emit brute_sat (fun _ _ _ => false) None None (fun _ _ => None) 5 5 1 j1).

Lemma two_steps {R R' A B T} (f : option (R * A)) (g : A -> option (R' * B)) (obs : A -> B -> T) out :
  ('(_, x) ← f; '(_, y) ← g x; Some (obs x y)) = Some out -> forall r x, f = Some (r, x) ->
  exists r' y, g x = Some (r', y) /\ obs x y = out.
Proof.
  intros H r x ->. cbn in H. destruct (g x) as [[r' y]|] eqn:E; [|done]. cbn in H. injection H as <-. by exists r', y.
Qed.

Lemma foo_facts : ('(_, j1) ← foo_requests; '(_, j2) ← foo_selected j1;
  Some (length (request_add j1), all_paths (db := install_db) no_emit (j_universe j2) (j_jobs j2))) = Some (1%nat, []).
Proof. vm_compute. reflexivity. Qed.

Lemma foo_outcome : outcome (solve_in install_db None None (fun _ _ => None) foo_patterns 2 2 (new_job cli_jobs)) =
  Some (EPKG_OK, [0%nat; 2%nat; 3%nat], 1, [BeginSolver; EndSolver]).
Proof. vm_compute. reflexivity. Qed.


(** ** The answer of a SAT solver is read as it is written *)

(** A literal, an assignment from a variable on, and the answer in either
    format. *)
Definition literal (n : Z) (b : bool) : cstring := (if b then [] else ["-"%char]) ++ print_dec n.

Fixpoint literals_from (n : Z) (bs : list bool) : cstring :=
  match bs with
  | [] => str "0" ++ [NL]
  | b :: bs => literal n b ++ " "%char :: literals_from (n + 1) bs
  end.

Definition sat_answer (v_lines : bool) (bs : list bool) : cstring :=
  (if v_lines then str "s SATISFIABLE" ++ NL :: str "v " else str "SAT" ++ [NL]) ++ literals_from 1 bs.

(** What the loop over PKG_SOLVE_VAR_NEXT is to build. *)
Definition numbered_variables (n : nat) : list (nat * Z) := map (fun i => (i, Z.of_nat i + 1)) (seq 0 n).

Definition assigned_to (bs : list bool) (i : nat) (v : pkg_solve_variable) : pkg_solve_variable :=
  mk_var (v_unit v) (nth i bs (to_install v)) (top_level v) (v_uid v) (v_digest v) (v_order v).

Lemma find_numbered n i : (i < n)%nat -> find_order (numbered_variables n) (Z.of_nat i + 1) = Some i.
Proof.
  intros Hi. unfold find_order, numbered_variables.
  assert (forall m a, (i < a + m)%nat -> (a <= i)%nat ->
    fst <$> find (fun vo : nat * Z => snd vo =? Z.of_nat i + 1) (map (fun i => (i, Z.of_nat i + 1)) (seq a m)) = Some i) as H.
  { clear. induction m as [|m IH]; intros a H1 H2; [lia|]. cbn [seq map find snd].
    destruct (Z.eqb_spec (Z.of_nat a + 1) (Z.of_nat i + 1)); [cbn; f_equal; lia|]. apply IH; lia. }
  apply H; lia.
Qed.

Lemma print_dec_digit n : 0 < n -> exists c s, print_dec n = c :: s /\ isdigit c = true.
Proof.
  intros Hn. pose proof (print_base_digits 10 n ltac:(lia)) as Hd. change (print_base 10 n) with (print_dec n) in Hd.
  pose proof (digits_print_dec n [] ltac:(lia) eq_refl) as Hv. rewrite app_nil_r in Hv. destruct (print_dec n) as [|c s]; [injection Hv as <-; lia|].
  exists c, s. split; [done|]. by inversion Hd.
Qed.

Lemma strtoll_literal n b : 0 < n <= LLONG_MAX -> fst (strtoll (literal n b)) = if b then n else - n.
Proof.
  intros Hn. pose proof (strtoll_digits (negb b) 0 n [] ltac:(lia) eq_refl) as H. rewrite app_nil_r in H. cbn [replicate app] in H.
  unfold literal. destruct b; cbn [negb] in H; [exact (f_equal fst H)|]. change ["-"%char] with (str "-"). by rewrite H.
Qed.

Lemma literal_field n b : 0 < n -> Forall (fun c => c ∉ BLANKS) (literal n b) /\
  exists c s, literal n b = c :: s /\ (isdigit c || Ascii.eqb c "-" = true) /\ Ascii.eqb c "-" = negb b.
Proof.
  intros Hn. destruct (print_dec_digit n Hn) as (c & s & E & Hc). split.
  - unfold literal. apply Forall_app. split; [destruct b; [done|apply Forall_singleton; by apply (bool_decide_unpack _)]|].
    eapply Forall_impl; [apply dec_field|]. by intros x (? & _).
  - unfold literal. rewrite E. destruct b; cbn [app]; [exists c, s|exists "-"%char, (c :: s)]; (split; [done|]); [|done].
    rewrite Hc. split; [done|]. by destruct (Ascii.eqb_spec c "-"%char) as [->|].
Qed.

Lemma to_int_id n : 0 <= Z.abs n < 2 ^ 31 -> to_int n = n.
Proof.
  intros Hn. unfold to_int. destruct (Z.ltb_spec (n mod 2 ^ 32) (2 ^ 31)) as [H|H].
  - destruct (Z.le_gt_cases 0 n); [rewrite Z.mod_small in *; lia|]. rewrite <- (Z.mod_add n 1), Z.mod_small in * by lia. lia.
  - destruct (Z.le_gt_cases 0 n); [rewrite Z.mod_small in *; lia|]. rewrite <- (Z.mod_add n 1), Z.mod_small in * by lia. lia.
Qed.

(** A literal sets its variable. *)
Lemma parse_literal fuel ordered pb n b rest done : 0 < n < 2 ^ 31 ->
  parse_literals (S fuel) ordered pb (Some (literal n b ++ " "%char :: rest)) done =
  parse_literals fuel ordered (match find_order ordered n with Some var => put_to_install pb var b | None => pb end) (Some rest) done.
Proof.
  intros Hn. destruct (literal_field n b ltac:(lia)) as (Hf & c & s & E & Hc & Hm). cbn [parse_literals].
  rewrite strsep_delim; [|done|by left]. rewrite E. cbn [first_char head default from_option id]. rewrite <- negb_orb, Hc. cbn [negb].
  rewrite <- E, strtoll_literal by (unfold LLONG_MAX; lia).
  assert (Z.abs (to_int (if b then n else - n)) = n) as -> by (rewrite to_int_id; destruct b; lia).
  destruct (Z.eqb_spec n 0); [lia|]. by rewrite Hm, negb_involutive.
Qed.

Definition same_but_assigned (k : nat) (bs : list bool) (pb pb' : pkg_solve_problem) : Prop :=
  set_variables pb (variables pb') = pb' /\ length (variables pb') = length (variables pb) /\
  forall i v, variables pb !! i = Some v -> variables pb' !! i = Some (if (i <? k)%nat then v else assigned_to bs (i - k) v).

Lemma parse_assignment bs : forall k fuel pb done, (length bs < fuel)%nat -> length (variables pb) = (k + length bs)%nat ->
  Z.of_nat (length (variables pb)) < 2 ^ 31 - 1 ->
  exists pb', parse_literals fuel (numbered_variables (length (variables pb))) pb (Some (literals_from (Z.of_nat k + 1) bs)) done = (pb', true) /\
    same_but_assigned k bs pb pb'.
Proof.
  induction bs as [|b bs IH]; intros k fuel pb done Hf Hlen Hmax; (destruct fuel as [|fuel]; [lia|]).
  - cbn [literals_from]. exists pb. split; [done|]. split_and!; [by destruct pb|done|]. intros i v Hi. cbn in Hlen. apply lookup_lt_Some in Hi as Hl.
    destruct (Nat.ltb_spec i k); [done|lia].
  - cbn [literals_from length] in *. rewrite parse_literal by lia. rewrite find_numbered by lia.
    set (pb1 := put_to_install pb k b).
    assert (length (variables pb1) = length (variables pb)) as Hl1 by (cbn; apply length_alter).
    destruct (IH (S k) fuel pb1 done) as (pb' & H & Hs); [lia|lia|lia|]. rewrite Hl1 in H.
    replace (Z.of_nat (S k) + 1) with (Z.of_nat k + 1 + 1) in H by lia. exists pb'. split; [done|].
    destruct Hs as (H1 & H2 & H3). split_and!; [rewrite <- H1; by destruct pb|lia|]. intros i v Hi.
    destruct (decide (i = k)) as [->|Hne].
    + assert (variables pb1 !! k = Some (assigned_to (b :: bs) 0 v)) as Hk by (cbn; by rewrite list_lookup_alter_eq, Hi).
      rewrite (H3 _ _ Hk). rewrite (proj2 (Nat.ltb_lt k (S k))) by lia. rewrite (proj2 (Nat.ltb_ge k k)) by lia. by rewrite Nat.sub_diag.
    + assert (variables pb1 !! i = Some v) as Hk by (cbn; by rewrite list_lookup_alter_ne).
      rewrite (H3 _ _ Hk). destruct (Nat.ltb_spec i k) as [Hlt|Hge]; [by rewrite (proj2 (Nat.ltb_lt i (S k))) by lia|].
      rewrite (proj2 (Nat.ltb_ge i (S k))) by lia. replace (i - k)%nat with (S (i - S k)) by lia. done.
Qed.

Lemma literals_length bs : forall n, (length bs < length (literals_from n bs))%nat.
Proof.
  induction bs as [|b bs IH]; intros n; [cbn; lia|]. cbn [literals_from]. rewrite length_app. cbn [length]. specialize (IH (n + 1)). lia.
Qed.

Lemma assigned_all pb pb' bs : length bs = length (variables pb) -> same_but_assigned 0 bs pb pb' ->
  pb' = set_variables pb (imap (assigned_to bs) (variables pb)).
Proof.
  intros Hl (H1 & H2 & H3). rewrite <- H1. f_equal. apply list_eq. intros i. rewrite list_lookup_imap.
  destruct (variables pb !! i) as [v|] eqn:E; cbn [fmap option_fmap option_map].
  - rewrite (H3 i v E). cbn [Nat.ltb Nat.leb]. by rewrite Nat.sub_0_r.
  - apply lookup_ge_None. rewrite H2. by apply lookup_ge_None.
Qed.

(** No line or string ends within the answer. *)
Definition text_char (c : ascii) : Prop := c <> NL /\ c <> NUL.

Lemma literals_text bs : forall n, exists s, literals_from n bs = s ++ [NL] /\ Forall text_char s.
Proof.
  induction bs as [|b bs IH]; intros n; cbn [literals_from].
  { exists (str "0"). split; [done|]. by repeat constructor. }
  destruct (IH (n + 1)) as (s & -> & Hs). exists (literal n b ++ " "%char :: s). rewrite <- app_assoc. split; [done|].
  apply Forall_app. split; [|by constructor]. unfold literal. apply Forall_app. split; [destruct b; [done|by repeat constructor]|].
  eapply Forall_impl; [apply dec_field|]. by intros c (_ & ? & ?).
Qed.

Lemma one_line s : Forall text_char s -> getlines [] (s ++ [NL]) = [s ++ [NL]] /\ c_str (s ++ [NL]) = s ++ [NL].
Proof.
  intros Hs. split.
  - rewrite (getlines_line [] s []); [done|]. eapply Forall_impl; [exact Hs|]. by intros c [? _].
  - apply c_str_id, Forall_app. split; [|by repeat constructor]. eapply Forall_impl; [exact Hs|]. by intros c [_ ?].
Qed.

Lemma first_literal n bs : 0 < n -> exists c s, literals_from n bs = c :: s /\ Ascii.eqb c "S" = false.
Proof.
  intros Hn. destruct bs as [|b bs]; [by exists "0"%char, [NL]|]. cbn [literals_from].
  destruct (literal_field n b Hn) as (_ & c & s & -> & Hc & _). eexists c, _. split; [done|]. by destruct (Ascii.eqb_spec c "S"%char) as [->|].
Qed.

(** The answer of a SAT solver in either format, with a literal for every
    variable in order, gives each variable its value; it is taken for an answer
    (had the loop that numbers the variables an end: see
    [sat_output_never_read]). *)
Theorem sat_answer_read (v_lines : bool) (bs : list bool) (pb : pkg_solve_problem) (Hl : length bs = length (variables pb))
  (Hmax : Z.of_nat (length (variables pb)) < 2 ^ 31 - 1) :
  parse_sat_lines (numbered_variables (length (variables pb))) pb (sat_answer v_lines bs) =
  (negb v_lines, true, set_variables pb (imap (assigned_to bs) (variables pb))).
Proof.
  destruct (literals_text bs 1) as (s & Es & Hs).
  destruct (parse_assignment bs 0 (S (length (literals_from 1 bs))) pb false) as (pb' & Hp & Ha); [pose proof (literals_length bs 1); lia|done|done|].
  change (Z.of_nat 0 + 1) with 1 in Hp. rewrite <- (assigned_all pb pb' bs Hl Ha). unfold parse_sat_lines, sat_answer.
  destruct v_lines; rewrite <- ?app_assoc; cbn [app].
  - rewrite (getlines_line [] (str "s SATISFIABLE")) by (by repeat constructor).
    assert (Forall text_char (str "v " ++ s)) as Hv by (apply Forall_app; split; [by repeat constructor|done]).
    rewrite Es. rewrite (app_assoc (str "v ")). destruct (one_line _ Hv) as [-> Hc]. cbn [app foldl]. rewrite <- app_assoc in Hc |- *. rewrite Hc.
    rewrite <- Es. set (ordered := numbered_variables _) in *.
    assert (parse_sat_line ordered (false, false, pb) (c_str (rev [] ++ str "s SATISFIABLE" ++ [NL])) = (false, false, pb)) as -> by reflexivity.
    unfold parse_sat_line. change (drop 2 (str "v " ++ literals_from 1 bs)) with (literals_from 1 bs).
    change (strncmp (str "v " ++ literals_from 1 bs) (str "SAT") 3 =? 0) with false.
    change (strncmp (str "v " ++ literals_from 1 bs) (str "v ") 2 =? 0) with true. cbn beta iota zeta. by rewrite Hp.
  - rewrite (getlines_line [] (str "SAT")) by (by repeat constructor).
    rewrite Es. destruct (one_line s Hs) as [-> Hc]. cbn [app foldl]. rewrite Hc, <- Es.
    set (ordered := numbered_variables _) in *.
    assert (parse_sat_line ordered (false, false, pb) (c_str (rev [] ++ str "SAT" ++ [NL])) = (true, false, pb)) as -> by reflexivity.
    unfold parse_sat_line.
    destruct (first_literal 1 bs ltac:(lia)) as (c & r & Er & Hc1).
    assert ((strncmp (literals_from 1 bs) (str "SAT") 3 =? 0) = false) as ->.
    { apply Z.eqb_neq. unfold strncmp. intros H%strcmp_zero. rewrite Er in H. injection H as -> _. done. }
    by rewrite Hp.
Qed.

(** pkg_solve_parse_sat_output does not come that far: the loop before it does
    not end. *)
Lemma sat_output_never_read (fuel : nat) (text : cstring) (pb : pkg_solve_problem) (j : pkg_jobs) :
  pkg_solve_parse_sat_output fuel text pb j = None.
Proof. unfold pkg_solve_parse_sat_output. by rewrite order_variables_none. Qed.

Definition three_variables : pkg_solve_problem :=
  mk_problem 0 [] table_empty (map (fun i => mk_var i false false None None (Z.of_nat i + 1)) (seq 0 3)) [] 3.

Lemma sat_answer_read_witness :
  map to_install (variables (snd (parse_sat_lines (numbered_variables 3) three_variables (str "SAT" ++ NL :: str "1 -2 3 0" ++ [NL])))) = [true; false; true].
Proof.
  assert (str "SAT" ++ NL :: str "1 -2 3 0" ++ [NL] = sat_answer false [true; false; true]) as -> by (vm_compute; reflexivity).
  pose proof (sat_answer_read false [true; false; true] three_variables eq_refl ltac:(vm_compute; reflexivity)) as H.
  change (length (variables three_variables)) with 3%nat in H. rewrite H. reflexivity.
Defined.

(** An answer without a 0, as of a solver that found none, is an error; a
    literal of a line that is not one of an answer is left. *)
Example sat_answer_unsat :
  parse_sat_lines (numbered_variables 3) three_variables (str "UNSAT" ++ [NL]) = (false, false, three_variables) /\
  parse_sat_lines (numbered_variables 3) three_variables (str "1 2 3 0" ++ [NL]) = (false, false, three_variables).
Proof. split; vm_compute; reflexivity. Qed.
