(* ===== verification/Fetch.v ===== *)
(** * Downloads (libpkg/repo/binary/fetch.c, libpkg/fetch.c, libpkg/utils.c)

    A package of a repository is kept in the cache under a name with its
    checksum.  pkg_repo_binary_try_fetch downloads it when it is not there, and
    once more when what is there has not the size or the checksum that the
    repository gives.

    Names are compared as they are written, and directories are not files:
    whether one can be made is a parameter.  A file that is created takes the
    name it is given.  A link is followed when a file is looked at.  [None] is
    a NULL pointer that is followed, a failed assertion, a format that does not
    end, or no more fuel. *)
From S2P Require Import Prelude CString Cprintf Printf PkgPrintf UtHash Pkg Checksum.

(** ** Files *)

Inductive entry := File (content : cstring) | Link (target : cstring).

(** The entries by name, and the addresses that were downloaded so far. *)
Record cache := mk_cache { entries : gmap cstring entry; downloads : list cstring }.

Definition put (c : cache) (name : cstring) (e : entry) : cache := mk_cache (<[name := e]> (entries c)) (downloads c).
Definition unlink (c : cache) (name : cstring) : cache := mk_cache (delete name (entries c)) (downloads c).

Definition SLASH : ascii := "/".
Definition MAXPATHLEN : nat := 1024.
Definition MAXSYMLINKS : nat := 32.

(** dirname(3). *)
Definition drop_slashes (s : cstring) : cstring :=
  (fix go (r : cstring) : cstring := match r with c :: r' => if Ascii.eqb c SLASH then go r' else r | [] => [] end) s.

Fixpoint drop_last (r : cstring) : cstring :=
  match r with c :: r' => if Ascii.eqb c SLASH then r else drop_last r' | [] => [] end.

Definition dirname (s : cstring) : cstring :=
  match s with
  | [] => str "."
  | _ =>
      match drop_slashes (rev s) with
      | [] => str "/"
      | r =>
          match drop_last r with
          | [] => str "."
          | d => match drop_slashes d with [] => str "/" | d => rev d end
          end
      end
  end.

(** What a link stands for. *)
Definition beside (name target : cstring) : cstring :=
  match target with
  | c :: _ => if Ascii.eqb c SLASH then target else rev (drop_last (rev name)) ++ target
  | [] => []
  end.

(** The content of a file that is opened, ELOOP after [MAXSYMLINKS]. *)
Fixpoint follow (links : nat) (es : gmap cstring entry) (name : cstring) : option cstring :=
  match links with
  | O => None
  | S links =>
      match es !! name with
      | Some (File content) => Some content
      | Some (Link target) => follow links es (beside name target)
      | None => None
      end
  end.

Definition content (c : cache) (name : cstring) : option cstring := follow (S MAXSYMLINKS) (entries c) name.

(** "%s" with a NULL pointer. *)
Definition s_arg (s : option cstring) : cstring := default (str "(null)") s.

Definition snprintf (size : nat) (text : cstring) : cstring := take (size - 1) text.

Section fetch.
Context (emit : ucl -> cstring) (strftime : cstring -> Z -> option cstring) (sha256 : cstring -> list Z).

(** mkdir: the directory is there afterwards; open: a file can be read; creat:
    one can be made; symlink, rename.  What a server answers, after the
    downloads before it: a code, and what was written. *)
Context (mkdir unreadable creat : cstring -> bool) (symlink rename : cstring -> cstring -> bool)
  (pkg_fetch_file_to_fd : list cstring -> cstring -> pkg_error_t * cstring).

(** The setting PKG_CACHEDIR. *)
Context (PKG_CACHEDIR : option cstring).

(** The text in the buffer. *)
Definition pkg_snprintf (size : nat) (format : string) (args : list data) : option cstring :=
  '(buf, _) ← pkg_vsnprintf size (pkg_sbuf_vprintf emit strftime (length (str format)) (str format) args); buf.

(** The prefixes of a path that end before a slash, but not the first byte. *)
Fixpoint prefixes (before p : cstring) : list cstring :=
  match p with
  | [] => [rev before]
  | c :: p => if Ascii.eqb c SLASH then rev before :: prefixes (c :: before) p else prefixes (c :: before) p
  end.

Definition mkdirs (path : cstring) : pkg_error_t :=
  let path := take (MAXPATHLEN - 1) path in
  let dirs := match path with
              | c :: p => if Ascii.eqb c SLASH then prefixes [c] p else prefixes [] path
              | [] => prefixes [] []
              end in
  if forallb mkdir dirs then EPKG_OK else EPKG_FATAL.

(** sha256_file: the code and the text. *)
Definition sha256_hash (hash : list Z) : cstring := flat_map hex_byte hash.

Definition sha256_file (c : cache) (path : cstring) : pkg_error_t * cstring :=
  match content c path with
  | Some data => if unreadable path then (EPKG_FATAL, []) else (EPKG_OK, sha256_hash (sha256 data))
  | None => (EPKG_FATAL, [])
  end.

Definition pkg_fetch_file (c : cache) (url dest : cstring) : pkg_error_t * cache :=
  if negb (creat dest) then (EPKG_FATAL, c)
  else
    let '(retcode, written) := pkg_fetch_file_to_fd (downloads c) url in
    let c := put (mk_cache (entries c) (downloads c ++ [url])) dest (File written) in
    (retcode, match retcode with EPKG_OK => c | _ => unlink c dest end).

(** ** The cache *)

(** The code and the name. *)
Definition pkg_repo_binary_get_cached_name (c : cache) (p : pkg) : option (pkg_error_t * cstring) :=
  let short := pkg_snprintf MAXPATHLEN "%S/%n-%v-%z" [DString PKG_CACHEDIR; DPkg p; DPkg p; DPkg p] in
  match pkg_get_string emit p PKG_REPOPATH ≫= (fun repourl => strrchr repourl ".") with
  | Some ext =>
      dest ← short;
      match content c dest with
      | Some _ => Some (EPKG_FATAL, dest)
      | None =>
          dest ← pkg_snprintf MAXPATHLEN "%S/%n-%v-%z%S" [DString PKG_CACHEDIR; DPkg p; DPkg p; DPkg p; DString (Some ext)];
          Some (EPKG_OK, dest)
      end
  | None => dest ← short; Some (EPKG_OK, dest)
  end.

(** The names of the link. *)
Definition link_name (p : pkg) (fname dir : cstring) : option cstring :=
  pkg_snprintf MAXPATHLEN "%S/%n-%v%S" [DString (Some dir); DPkg p; DPkg p; DString (Some (default [] (strrchr fname ".")))].

Definition tmp_name (link_dest : cstring) : cstring := snprintf MAXPATHLEN (link_dest ++ str ".new").

Definition pkg_repo_binary_create_symlink (c : cache) (p : pkg) (fname dir : cstring) : option (pkg_error_t * cache) :=
  link_dest ← link_name p fname dir;
  let link_dest_tmp := tmp_name link_dest in
  let c := unlink c link_dest_tmp in
  slash ← strrchr fname SLASH;
  let dest_fname := tail slash in
  if negb (symlink dest_fname link_dest_tmp) then Some (EPKG_FATAL, c)
  else
    let c := put c link_dest_tmp (Link dest_fname) in
    if negb (rename link_dest_tmp link_dest) then Some (EPKG_FATAL, unlink c link_dest_tmp)
    else Some (EPKG_OK, put (unlink c link_dest_tmp) link_dest (Link dest_fname)).

(** The name a package is kept under. *)
Definition cached_dest (c : cache) (p : pkg) (mirror : bool) (destdir : option cstring) : option cstring :=
  if mirror then
    let cachedir := match destdir with Some _ => destdir | None => PKG_CACHEDIR end in
    Some (snprintf MAXPATHLEN (s_arg cachedir ++ SLASH :: s_arg (pkg_get_string emit p PKG_REPOPATH)))
  else '(_, dest) ← pkg_repo_binary_get_cached_name c p; Some dest.

Definition package_url (packagesite : cstring) (p : pkg) : option cstring :=
  match last packagesite with
  | Some c =>
      if Ascii.eqb c SLASH then pkg_snprintf MAXPATHLEN "%S%R" [DString (Some packagesite); DPkg p]
      else pkg_snprintf MAXPATHLEN "%S/%R" [DString (Some packagesite); DPkg p]
  | None => None
  end.

(** The label cleanup; [path] is the directory that was made. *)
Definition fetch_cleanup (c : cache) (p : pkg) (mirror : bool) (dest : cstring) (path : option cstring) (retcode : pkg_error_t)
  : option (pkg_error_t * pkg * cache) :=
  match retcode, path with
  | EPKG_OK, Some path =>
      if mirror then Some (EPKG_OK, p, c)
      else '(_, c) ← pkg_repo_binary_create_symlink c p dest path; Some (EPKG_OK, p, c)
  | EPKG_OK, None => Some (EPKG_OK, p, c)
  | _, _ => Some (retcode, p, unlink c dest)
  end.

(** The label checksum; [retry] fetches once more. *)
Definition fetch_checksum (retry : cache -> pkg -> option (pkg_error_t * pkg * cache)) (already_tried fetched mirror : bool)
    (c : cache) (p : pkg) (dest : cstring) (path : option cstring) : option (pkg_error_t * pkg * cache) :=
  if match content c dest with
     | Some data => negb (pkg_get_int emit p PKG_PKGSIZE =? Z.of_nat (length data))
     | None => true
     end
  then if already_tried then fetch_cleanup c p mirror dest path EPKG_FATAL else retry (unlink c dest) p
  else
    let '(retcode, cksum) := sha256_file c dest in
    match retcode with
    | EPKG_OK =>
        sum ← pkg_get_string emit p PKG_CKSUM;
        if streq cksum sum then fetch_cleanup c p mirror dest path EPKG_OK
        else if already_tried || fetched then fetch_cleanup c p mirror dest path EPKG_FATAL
        else retry (unlink c dest) p
    | _ => fetch_cleanup c p mirror dest path retcode
    end.

(** [url] is that of the repository.  The package is changed when its file can
    be used where it is. *)
Fixpoint pkg_repo_binary_try_fetch (fuel : nat) (url : option cstring) (c : cache) (p : pkg) (already_tried mirror : bool)
    (destdir : option cstring) : option (pkg_error_t * pkg * cache) :=
  match fuel with
  | O => None
  | S fuel =>
      let retry c p := pkg_repo_binary_try_fetch fuel url c p true mirror destdir in
      if negb (bool_decide (type p = PKG_REMOTE)) then None
      else
        dest ← cached_dest c p mirror destdir;
        match content c dest with
        | Some _ => fetch_checksum retry already_tried false mirror c p dest None
        | None =>
            let path := dirname dest in
            match mkdirs path with
            | EPKG_OK =>
                match url with
                | None | Some [] => fetch_cleanup c p mirror dest (Some path) EPKG_END
                | Some packagesite =>
                    url ← package_url packagesite p;
                    if negb mirror && (strncasecmp packagesite (str "file://") 7 =? 0) then
                      '(_, p) ← pkg_set p PKG_REPOPATH (ArgString (Some (drop 7 url)));
                      Some (EPKG_OK, p, c)
                    else
                      let '(retcode, c) := pkg_fetch_file c url dest in
                      match retcode with
                      | EPKG_OK => fetch_checksum retry already_tried true mirror c p dest (Some path)
                      | _ => fetch_cleanup c p mirror dest (Some path) retcode
                      end
                end
            | rc => fetch_cleanup c p mirror dest (Some path) rc
            end
        end
  end.

Definition pkg_repo_binary_fetch (url : option cstring) (c : cache) (p : pkg) : option (pkg_error_t * pkg * cache) :=
  pkg_repo_binary_try_fetch 2 url c p false false None.

Definition pkg_repo_binary_mirror (url : option cstring) (c : cache) (p : pkg) (destdir : option cstring) : option (pkg_error_t * pkg * cache) :=
  pkg_repo_binary_try_fetch 2 url c p false true destdir.
End fetch.

(** ** What is left in the cache *)

Section verified.
Context (emit : ucl -> cstring) (strftime : cstring -> Z -> option cstring) (sha256 : cstring -> list Z).
Context (mkdir unreadable creat : cstring -> bool) (symlink rename : cstring -> cstring -> bool)
  (pkg_fetch_file_to_fd : list cstring -> cstring -> pkg_error_t * cstring) (PKG_CACHEDIR : option cstring).

Abbreviation try_fetch := (pkg_repo_binary_try_fetch emit strftime sha256 mkdir unreadable creat symlink rename pkg_fetch_file_to_fd PKG_CACHEDIR).
Abbreviation dest_of := (cached_dest emit strftime PKG_CACHEDIR).
Abbreviation cleanup := (fetch_cleanup emit strftime symlink rename).
Abbreviation checksum := (fetch_checksum emit strftime sha256 unreadable symlink rename).

(** A file that has the size and the checksum the repository gives. *)
Definition verified (c : cache) (p : pkg) (dest : cstring) : Prop :=
  exists data, content c dest = Some data /\ pkg_get_int emit p PKG_PKGSIZE = Z.of_nat (length data) /\
    pkg_get_string emit p PKG_CKSUM = Some (sha256_hash (sha256 data)).

(** The links that are made have other names than the file. *)
Definition separate (p : pkg) (dest : cstring) : Prop :=
  forall link, link_name emit strftime p dest (dirname dest) = Some link -> link <> dest /\ tmp_name link <> dest.

(** What a run leaves of the file it is about. *)
Definition left_behind (rc : pkg_error_t) (p : pkg) (c : cache) (dest : cstring) : Prop :=
  match rc with EPKG_OK => verified c p dest | _ => entries c !! dest = None end.

Lemma content_file c name data : entries c !! name = Some (File data) -> content c name = Some data.
Proof. intros H. unfold content. cbn [follow]. by rewrite H. Qed.

Lemma create_symlink_keeps c p fname dir r c' x : pkg_repo_binary_create_symlink emit strftime symlink rename c p fname dir = Some (r, c') ->
  (forall link, link_name emit strftime p fname dir = Some link -> link <> x /\ tmp_name link <> x) -> entries c' !! x = entries c !! x /\ downloads c' = downloads c.
Proof.
  unfold pkg_repo_binary_create_symlink. destruct (link_name _ _ _ _ _) as [link|]; [|done]. cbn [mbind option_bind].
  destruct (strrchr fname SLASH) as [slash|]; [|done]. cbn [mbind option_bind]. intros H Hx. destruct (Hx link eq_refl) as [H1 H2]. clear Hx.
  destruct (negb (symlink _ _)); [injection H as _ <-; cbn; by rewrite lookup_delete_ne|].
  destruct (negb (rename _ _)); injection H as _ <-; cbn; split; try done.
  - rewrite lookup_delete_ne, lookup_insert_ne, lookup_delete_ne by done. done.
  - rewrite lookup_insert_ne, lookup_delete_ne, lookup_insert_ne, lookup_delete_ne by done. done.
Qed.

Lemma unlink_gone c dest : entries (unlink c dest) !! dest = None.
Proof. apply lookup_delete_eq. Qed.

(** The label cleanup after a download that was made, or of an old file. *)
Lemma cleanup_ok c p mirror dest path rc rc' p' c' : cleanup c p mirror dest path rc = Some (rc', p', c') ->
  (rc = EPKG_OK -> verified c p dest) ->
  (path <> None -> path = Some (dirname dest) /\ (rc = EPKG_OK -> exists data, entries c !! dest = Some (File data)) /\ (mirror = false -> separate p dest)) ->
  p' = p /\ downloads c' = downloads c /\ left_behind rc' p' c' dest.
Proof.
  intros H Hv Hpath. unfold fetch_cleanup in H.
  assert (rc <> EPKG_OK -> (rc', p', c') = (rc, p, unlink c dest)) as Hfail by (intros Hrc; destruct rc; try done; by injection H as <- <- <-).
  destruct (decide (rc = EPKG_OK)) as [->|Hrc].
  - specialize (Hv eq_refl). destruct path as [path|]; [|injection H as <- <- <-; by split_and!].
    destruct (Hpath ltac:(done)) as (Hp & Hf & Hs). injection Hp as ->. destruct mirror; [injection H as <- <- <-; by split_and!|].
    destruct (pkg_repo_binary_create_symlink _ _ _ _ _ _ _ _) as [[r c1]|] eqn:E; [|done]. cbn [mbind option_bind] in H. injection H as <- <- <-.
    destruct (create_symlink_keeps _ _ _ _ _ _ dest E (Hs eq_refl)) as [He Hd]. split_and!; [done|done|].
    destruct (Hf eq_refl) as [data Hdata]. destruct Hv as (data' & H1 & H2). rewrite (content_file _ _ _ Hdata) in H1. injection H1 as <-.
    exists data. split; [|done]. apply content_file. by rewrite He.
  - specialize (Hfail Hrc). injection Hfail as -> -> ->. split_and!; [done|done|]. unfold left_behind. destruct rc; try done; apply unlink_gone.
Qed.

(** The label checksum: the file is looked at, or fetched once more. *)
Lemma checksum_cases retry already fetched mirror c p dest path rc p' c' :
  checksum retry already fetched mirror c p dest path = Some (rc, p', c') ->
  (path <> None -> path = Some (dirname dest) /\ (exists data, entries c !! dest = Some (File data)) /\ (mirror = false -> separate p dest)) ->
  p' = p /\ downloads c' = downloads c /\ left_behind rc p' c' dest \/
  already = false /\ retry (unlink c dest) p = Some (rc, p', c').
Proof.
  intros H Hpath. unfold fetch_checksum in H.
  assert (forall rc0, cleanup c p mirror dest path rc0 = Some (rc, p', c') -> (rc0 = EPKG_OK -> verified c p dest) ->
    p' = p /\ downloads c' = downloads c /\ left_behind rc p' c' dest) as Hclean.
  { intros rc0 Hc Hv. eapply cleanup_ok; [exact Hc|exact Hv|]. intros Hne. destruct (Hpath Hne) as (? & ? & ?). by split_and!. }
  destruct (content c dest) as [data|] eqn:Ec.
  2:{ destruct already; [left; by apply (Hclean EPKG_FATAL)|right; by split]. }
  destruct (Z.eqb_spec (pkg_get_int emit p PKG_PKGSIZE) (Z.of_nat (length data))) as [Hs|Hs]; cbn [negb] in H.
  2:{ destruct already; [left; by apply (Hclean EPKG_FATAL)|right; by split]. }
  unfold sha256_file in H. rewrite Ec in H. destruct (unreadable dest); [left; by apply (Hclean EPKG_FATAL)|].
  destruct (pkg_get_string emit p PKG_CKSUM) as [sum|] eqn:Esum; [|done]. cbn [mbind option_bind] in H.
  destruct (streq _ sum) eqn:Eq.
  - left. apply (Hclean EPKG_OK); [done|]. intros _. exists data. split_and!; [done|done|].
    rewrite streq_spec in Eq. apply bool_decide_eq_true in Eq. by rewrite Eq.
  - destruct already; cbn [orb] in H; [left; by apply (Hclean EPKG_FATAL)|].
    destruct fetched; [left; by apply (Hclean EPKG_FATAL)|right; by split].
Qed.

(** One run, up to the one after it. *)
Lemma try_fetch_cases fuel url c p already mirror destdir rc p' c' :
  (forall c0 dest, dest_of c0 p mirror destdir = Some dest -> separate p dest) ->
  try_fetch (S fuel) url c p already mirror destdir = Some (rc, p', c') ->
  (exists dest, dest_of c p mirror destdir = Some dest /\ p' = p /\ (length (downloads c') <= S (length (downloads c)))%nat /\ left_behind rc p' c' dest) \/
  (exists packagesite address, url = Some packagesite /\ mirror = false /\ strncasecmp packagesite (str "file://") 7 = 0 /\
     package_url emit strftime packagesite p = Some address /\ rc = EPKG_OK /\ c' = c /\
     exists r, pkg_set p PKG_REPOPATH (ArgString (Some (drop 7 address))) = Some (r, p')) \/
  already = false /\ exists c1, (length (downloads c1) <= S (length (downloads c)))%nat /\ try_fetch fuel url c1 p true mirror destdir = Some (rc, p', c').
Proof.
  intros Hsep H. cbn [pkg_repo_binary_try_fetch] in H. destruct (negb _); [done|].
  destruct (dest_of c p mirror destdir) as [dest|] eqn:Ed; [|done]. cbn [mbind option_bind] in H. pose proof (Hsep _ _ Ed) as Hs.
  destruct (content c dest) as [data|] eqn:Ec.
  { apply checksum_cases in H; [|done]. destruct H as [(H1 & H2 & H3)|[H1 H2]].
    - left. exists dest. split_and!; [done|done|rewrite H2; lia|done].
    - right. right. split; [done|]. exists (unlink c dest). split; [cbn; lia|done]. }
  assert (forall rc0, rc0 <> EPKG_OK -> cleanup c p mirror dest (Some (dirname dest)) rc0 = Some (rc, p', c') ->
    exists dest', Some dest = Some dest' /\ p' = p /\ (length (downloads c') <= S (length (downloads c)))%nat /\ left_behind rc p' c' dest') as Hclean.
  { intros rc0 Hrc Hc. destruct (cleanup_ok _ _ _ _ _ _ _ _ _ Hc) as (H1 & H2 & H3); [done|by intros _; split_and!|].
    exists dest. split_and!; [done|done|rewrite H2; lia|done]. }
  destruct (mkdirs mkdir (dirname dest)); try (left; eapply Hclean; [|exact H]; done).
  destruct url as [[|ch site]|]; try (left; eapply Hclean; [|exact H]; done).
  destruct (package_url _ _ _ _) as [address|] eqn:Eu; [|done]. cbn [mbind option_bind] in H.
  destruct (negb mirror && _) eqn:Ef.
  { right. left. apply andb_true_iff in Ef as [Em%negb_true_iff Ef%Z.eqb_eq]. destruct (pkg_set _ _ _) as [[r q]|] eqn:Es; [|done].
    cbn [mbind option_bind] in H. injection H as <- <- <-. exists (ch :: site), address. split_and!; try done. by exists r. }
  unfold pkg_fetch_file in H. destruct (creat dest); cbn [negb] in H; [|left; by apply (Hclean EPKG_FATAL)].
  destruct (pkg_fetch_file_to_fd _ _) as [retcode written]. set (c1 := put _ dest (File written)) in H.
  assert (entries c1 !! dest = Some (File written)) as Hw by apply lookup_insert_eq.
  assert (length (downloads c1) = S (length (downloads c))) as Hd by (cbn; rewrite length_app; cbn; lia).
  destruct (decide (retcode = EPKG_OK)) as [->|Hrc].
  - apply checksum_cases in H; [|intros _; split_and!; [done|by exists written|done]]. destruct H as [(H1 & H2 & H3)|[H1 H2]].
    + left. exists dest. split_and!; [done|done|rewrite H2; lia|done].
    + right. right. split; [done|]. exists (unlink c1 dest). split; [cbn in Hd |- *; lia|done].
  - left. assert (cleanup (unlink c1 dest) p mirror dest (Some (dirname dest)) retcode = Some (rc, p', c')) as H' by (destruct retcode; done).
    destruct (cleanup_ok _ _ _ _ _ _ _ _ _ H') as (H1 & H2 & H3); [done|by intros _; split_and!|].
    exists dest. split_and!; [done|done|rewrite H2; cbn in Hd |- *; lia|done].
Qed.

Lemma checksum_retry retry1 retry2 already fetched mirror c p dest path : (already = false -> forall c p, retry1 c p = retry2 c p) ->
  checksum retry1 already fetched mirror c p dest path = checksum retry2 already fetched mirror c p dest path.
Proof.
  intros Hr. unfold fetch_checksum. destruct (match content c dest with Some _ => _ | None => _ end).
  { destruct already; [done|]. by apply Hr. }
  destruct (sha256_file _ _ _ _) as [[] ck]; try done. destruct (pkg_get_string _ _ _) as [sum|]; [|done]. cbn [mbind option_bind].
  destruct (streq ck sum); [done|]. destruct already; [done|]. destruct fetched; [done|]. cbn [orb]. by apply Hr.
Qed.

(** The second run does not start another one. *)
Lemma try_fetch_fuel n m already url c p mirror destdir : (1 <= n)%nat -> (1 <= m)%nat -> (already = false -> 2 <= n /\ 2 <= m)%nat ->
  try_fetch n url c p already mirror destdir = try_fetch m url c p already mirror destdir.
Proof.
  revert n m already c p. assert (forall n m c p, (1 <= n)%nat -> (1 <= m)%nat ->
    try_fetch n url c p true mirror destdir = try_fetch m url c p true mirror destdir) as Hlast.
  { intros [|n] [|m] c p Hn Hm; try lia. cbn [pkg_repo_binary_try_fetch]. destruct (negb _); [done|].
    destruct (dest_of c p mirror destdir) as [dest|]; [|done]. cbn [mbind option_bind]. destruct (content c dest); reflexivity. }
  intros n m [|] c p Hn Hm Ha; [by apply Hlast|]. destruct (Ha eq_refl) as [Hn2 Hm2]. clear Ha.
  destruct n as [|n], m as [|m]; try lia. cbn [pkg_repo_binary_try_fetch]. destruct (negb _); [done|].
  assert (false = false -> forall c p, try_fetch n url c p true mirror destdir = try_fetch m url c p true mirror destdir) as Hr
    by (intros _ c1 p1; apply Hlast; lia).
  destruct (dest_of c p mirror destdir) as [dest|]; [|done]. cbn [mbind option_bind]. destruct (content c dest); [by apply checksum_retry|].
  destruct (mkdirs _ _); try done. destruct url as [[|ch site]|]; try done. destruct (package_url _ _ _ _) as [address|]; [|done].
  cbn [mbind option_bind]. destruct (negb mirror && _); [done|]. destruct (pkg_fetch_file _ _ _ _ _) as [[] c1]; try done. by apply checksum_retry.
Qed.

(** C10: A package that pkg_repo_binary_try_fetch has got is in the cache with
    the size and the SHA-256 that the repository gives, or its file is used
    where it is (a repository of the scheme file, when the package is not
    mirrored), where nothing is verified.  After an error there is no file of
    that name.  It downloads at most twice, and fuel for two runs is enough. *)
Theorem try_fetch_verified (fuel : nat) (url : option cstring) (c : cache) (p : pkg) (mirror : bool) (destdir : option cstring)
  (rc : pkg_error_t) (p' : pkg) (c' : cache)
  (Hsep : forall c0 dest, dest_of c0 p mirror destdir = Some dest -> separate p dest)
  (H : try_fetch (S (S fuel)) url c p false mirror destdir = Some (rc, p', c')) :
  try_fetch 2 url c p false mirror destdir = Some (rc, p', c') /\
  ((exists c0 dest, dest_of c0 p mirror destdir = Some dest /\ p' = p /\ left_behind rc p' c' dest /\
      (length (downloads c') <= S (S (length (downloads c))))%nat) \/
   exists packagesite address r, url = Some packagesite /\ mirror = false /\ strncasecmp packagesite (str "file://") 7 = 0 /\
     package_url emit strftime packagesite p = Some address /\ rc = EPKG_OK /\
     pkg_set p PKG_REPOPATH (ArgString (Some (drop 7 address))) = Some (r, p')).
Proof.
  split.
  - rewrite <- H. symmetry. apply try_fetch_fuel; lia.
  - destruct (try_fetch_cases _ _ _ _ _ _ _ _ _ _ Hsep H) as [(dest & H1 & H2 & H3 & H4)|[(site & a & H1 & H2 & H3 & H4 & H5 & _ & r & H6)|(_ & c1 & Hc1 & H1)]].
    + left. exists c, dest. split_and!; try done. lia.
    + right. by exists site, a, r.
    + destruct (try_fetch_cases _ _ _ _ _ _ _ _ _ _ Hsep H1) as [(dest & D1 & D2 & D3 & D4)|[(site & a & S1 & S2 & S3 & S4 & S5 & _ & r & S6)|(? & _)]]; [| |done].
      * left. exists c1, dest. split_and!; try done. lia.
      * right. by exists site, a, r.
Qed.
End verified.

(** ** A concrete repository *)

(** In place of SHA-256: the first bytes. *)
Definition first_bytes (s : cstring) : list Z := map code (take 2 s).

Definition kept_pkg : pkg := default (pkg_new PKG_REMOTE) (run_ops false
  [OpSet [(PKG_NAME, ArgString (Some (str "foo"))); (PKG_VERSION, ArgString (Some (str "1.0"))); (PKG_CKSUM, ArgString (Some (str "6162")));
          (PKG_REPOPATH, ArgString (Some (str "All/foo-1.0.txz"))); (PKG_PKGSIZE, ArgInt 3)]] (pkg_new PKG_REMOTE)).

Definition cache_dir : option cstring := Some (str "/var/cache/pkg").

(** The server sends "abc", after [bad] downloads that are cut short. *)
Definition server (bad : nat) (before : list cstring) (url : cstring) : pkg_error_t * cstring :=
  (EPKG_OK, if (length before <? bad)%nat then str "ab" else str "abc").

Abbreviation fetch_run bad url es :=
  (pkg_repo_binary_try_fetch (fun _ => []) (fun _ _ => None) first_bytes (fun _ => true) (fun _ => false) (fun _ => true)
    (fun _ _ => true) (fun _ _ => true) (server bad) cache_dir 2 url (mk_cache es []) kept_pkg false false None).

Definition shown (r : option (pkg_error_t * pkg * cache)) : option (pkg_error_t * nat * list (string * entry)) :=
  '(rc, _, c) ← r; Some (rc, length (downloads c), map (fun e => (String.string_of_list_ascii (fst e), snd e)) (map_to_list (entries c))).

(** Downloaded, and linked under the name of the package; once more after a
    download of the wrong size, and no more. *)
Example fetch_first : shown (fetch_run 0%nat (Some (str "http://host/")) ∅) =
  Some (EPKG_OK, 1%nat, [("/var/cache/pkg/foo-1.0-6162.txz", File (str "abc")); ("/var/cache/pkg/foo-1.0.txz", Link (str "foo-1.0-6162.txz"))]%string).
Proof. vm_compute. reflexivity. Qed.

Example fetch_second : shown (fetch_run 1%nat (Some (str "http://host/")) ∅) =
  Some (EPKG_OK, 2%nat, [("/var/cache/pkg/foo-1.0-6162.txz", File (str "abc")); ("/var/cache/pkg/foo-1.0.txz", Link (str "foo-1.0-6162.txz"))]%string).
Proof. vm_compute. reflexivity. Qed.

Example fetch_gives_up : shown (fetch_run 2%nat (Some (str "http://host/")) ∅) = Some (EPKG_FATAL, 2%nat, []).
Proof. vm_compute. reflexivity. Qed.

(** A file that is used where it is is not looked at. *)
Example fetch_in_place : shown (fetch_run 2%nat (Some (str "file:///repo")) ∅) = Some (EPKG_OK, 0%nat, []).
Proof. vm_compute. reflexivity. Qed.

(** The two names of a package that is not mirrored. *)
Lemma cached_dest_names emit strftime cachedir c p destdir dest : cached_dest emit strftime cachedir c p false destdir = Some dest ->
  Some dest = pkg_snprintf emit strftime MAXPATHLEN "%S/%n-%v-%z" [DString cachedir; DPkg p; DPkg p; DPkg p] \/
  exists ext, pkg_get_string emit p PKG_REPOPATH ≫= (fun repourl => strrchr repourl ".") = Some ext /\
    Some dest = pkg_snprintf emit strftime MAXPATHLEN "%S/%n-%v-%z%S" [DString cachedir; DPkg p; DPkg p; DPkg p; DString (Some ext)].
Proof.
  unfold cached_dest, pkg_repo_binary_get_cached_name. destruct (pkg_get_string _ _ _ ≫= _) as [ext|].
  - destruct (pkg_snprintf _ _ _ "%S/%n-%v-%z" _) as [short|]; [|done]. cbn [mbind option_bind]. destruct (content c short).
    + cbn. intros [= <-]. by left.
    + destruct (pkg_snprintf _ _ _ "%S/%n-%v-%z%S" _) as [full|] eqn:E; [|done]. cbn. intros [= <-]. right. by exists ext.
  - destruct (pkg_snprintf _ _ _ _ _) as [short|]; [|done]. cbn. intros [= <-]. by left.
Qed.

Lemma kept_pkg_names c dest : cached_dest (fun _ => []) (fun _ _ => None) cache_dir c kept_pkg false None = Some dest ->
  dest = str "/var/cache/pkg/foo-1.0-6162" \/ dest = str "/var/cache/pkg/foo-1.0-6162.txz".
Proof.
  intros [H|(ext & He & H)]%cached_dest_names.
  - left. assert (pkg_snprintf (fun _ => []) (fun _ _ => None) MAXPATHLEN "%S/%n-%v-%z" [DString cache_dir; DPkg kept_pkg; DPkg kept_pkg; DPkg kept_pkg] =
      Some (str "/var/cache/pkg/foo-1.0-6162")) as E by (vm_compute; reflexivity). rewrite E in H. by injection H.
  - right. assert (pkg_get_string (fun _ => []) kept_pkg PKG_REPOPATH ≫= (fun repourl => strrchr repourl ".") = Some (str ".txz")) as E1 by (vm_compute; reflexivity).
    assert (ext = str ".txz") as -> by congruence.
    assert (pkg_snprintf (fun _ => []) (fun _ _ => None) MAXPATHLEN "%S/%n-%v-%z%S"
      [DString cache_dir; DPkg kept_pkg; DPkg kept_pkg; DPkg kept_pkg; DString (Some (str ".txz"))] =
      Some (str "/var/cache/pkg/foo-1.0-6162.txz")) as E by (vm_compute; reflexivity). rewrite E in H. by injection H.
Qed.

Lemma kept_pkg_separate c dest : cached_dest (fun _ => []) (fun _ _ => None) cache_dir c kept_pkg false None = Some dest ->
  separate (fun _ => []) (fun _ _ => None) kept_pkg dest.
Proof.
  intros Hd link Hl.
  assert (link = str "/var/cache/pkg/foo-1.0.0-6162" \/ link = str "/var/cache/pkg/foo-1.0.txz") as Hlink.
  { destruct (kept_pkg_names _ _ Hd) as [-> | ->]; vm_compute in Hl; injection Hl as <-; [left|right]; vm_compute; reflexivity. }
  destruct (kept_pkg_names _ _ Hd) as [-> | ->], Hlink as [-> | ->]; split; vm_compute; discriminate.
Qed.

Lemma try_fetch_verified_witness :
  exists p' c', fetch_run 1%nat (Some (str "http://host/")) ∅ = Some (EPKG_OK, p', c') /\
    (exists dest, verified (fun _ => []) first_bytes c' kept_pkg dest) /\ (length (downloads c') <= 2)%nat.
Proof.
  pose proof fetch_second as Hs. destruct (fetch_run 1%nat _ _) as [[[rc p'] c']|] eqn:E; [|discriminate Hs]. injection Hs as -> _ _.
  exists p', c'. split; [reflexivity|].
  destruct (try_fetch_verified (fun _ => []) (fun _ _ => None) first_bytes (fun _ => true) (fun _ => false) (fun _ => true)
    (fun _ _ => true) (fun _ _ => true) (server 1) cache_dir 0 (Some (str "http://host/")) (mk_cache ∅ []) kept_pkg false None EPKG_OK p' c'
    kept_pkg_separate E) as [_ [(c0 & dest & _ & -> & Hv & Hd)|(site & a & r & Hu & _ & Hf & _)]].
  - split; [exists dest; exact Hv|exact Hd].
  - exfalso. injection Hu as <-. vm_compute in Hf. discriminate Hf.
Defined.
