(* ===== verification/Apply.v ===== *)
(** * Carrying jobs out (libpkg/pkg_jobs.c: pkg_jobs_fetch, pkg_jobs_execute,
    pkg_jobs_apply)

    The packages of the jobs are fetched when they are not there, the files are
    compared once more, and the jobs are executed in order, in one transaction,
    until one fails.

    What happens to the system is a list of actions, each with its outcome:
    pkg_delete and pkg_add, which work on the file system, are parameters that
    give an outcome after the actions before it.  [None] is a NULL pointer that
    is followed, or fuel that ran out. *)
From S2P Require Import Prelude CString Cprintf Printf PkgPrintf UtHash Pkg Checksum Universe UniverseBuild Schedule Jobs Solve Install Installation Cudf FileConflicts JobSolve Fetch.

(** ** Flags *)

Definition PKG_FLAG_FETCH_MIRROR : Z := 2 ^ 10.
Definition PKG_DELETE_FORCE : Z := 2 ^ 0.
Definition PKG_DELETE_NOSCRIPT : Z := 2 ^ 2.
Definition PKG_DELETE_CONFLICT : Z := 2 ^ 3.
Definition PKG_ADD_UPGRADE : Z := 2 ^ 0.
Definition PKG_ADD_AUTOMATIC : Z := 2 ^ 2.
Definition PKG_ADD_FORCE : Z := 2 ^ 3.
Definition PKG_ADD_NOSCRIPT : Z := 2 ^ 4.
Definition PKG_ADD_FORCE_MISSING : Z := 2 ^ 5.

Definition flag_if (b : bool) (flag : Z) : Z := if b then flag else 0.

(** ** Actions *)

Inductive hook := PRE_FETCH | POST_FETCH | PRE_JOBS (t : pkg_jobs_t) | POST_JOBS (t : pkg_jobs_t).

(** Items stand for their packages. *)
Inductive action :=
  | UpgradeLock (rc : pkg_error_t)
  | ReleaseLock
  | Savepoint
  | RollbackTo
  | Release
  | PkgDelete (item : nat) (flags : Z) (rc : pkg_error_t)
  | PkgAddUpgrade (target : cstring) (flags : Z) (new old : nat) (rc : pkg_error_t)
  | PkgAddFromRemote (target : cstring) (flags : Z) (new : nat) (rc : pkg_error_t)
  | RunHook (h : hook).

Record applying := mk_applying { ap_solving : solving; ap_cache : cache; actions : list action }.

Definition ap_job (s : applying) : pkg_jobs := sv_job (ap_solving s).
Definition ap_universe (s : applying) : universe := j_universe (ap_job s).
Definition set_ap_job (s : applying) (j : pkg_jobs) : applying := mk_applying (with_job (ap_solving s) j) (ap_cache s) (actions s).
Definition set_ap_pkg (s : applying) (i : nat) (p : pkg) : applying := set_ap_job s (set_universe (ap_job s) (set_item_pkg (ap_universe s) i p)).
Definition act (s : applying) (l : list action) : applying := mk_applying (ap_solving s) (ap_cache s) (actions s ++ l).

Section apply.
Context (emit : ucl -> cstring) (strftime : cstring -> Z -> option cstring) (sha256 : cstring -> list Z) `{db : pkgdb}.

(** The repository of a package and its address; see [Fetch]. *)
Context (repo_of : pkg -> option (option cstring)) (mkdir unreadable creat : cstring -> bool) (symlink rename : cstring -> cstring -> bool)
  (pkg_fetch_file_to_fd : list cstring -> cstring -> pkg_error_t * cstring) (PKG_CACHEDIR : option cstring).

(** The result of an action, after those before it. *)
Context (pkgdb_upgrade_lock : list action -> pkg_error_t) (pkg_delete : list action -> pkg -> Z -> pkg_error_t)
  (pkg_add_upgrade : list action -> cstring -> Z -> pkg -> pkg -> pkg_error_t)
  (pkg_add_from_remote : list action -> cstring -> Z -> pkg -> pkg_error_t).

(** ** Repositories (pkg_repo.c) *)

Definition pkg_repo_fetch_package (c : cache) (p : pkg) : option (pkg_error_t * pkg * cache) :=
  match repo_of p with
  | None => Some (EPKG_FATAL, p, c)
  | Some url => pkg_repo_binary_fetch emit strftime sha256 mkdir unreadable creat symlink rename pkg_fetch_file_to_fd PKG_CACHEDIR url c p
  end.

Definition pkg_repo_mirror_package (c : cache) (p : pkg) (destdir : option cstring) : option (pkg_error_t * pkg * cache) :=
  match repo_of p with
  | None => Some (EPKG_FATAL, p, c)
  | Some url => pkg_repo_binary_mirror emit strftime sha256 mkdir unreadable creat symlink rename pkg_fetch_file_to_fd PKG_CACHEDIR url c p destdir
  end.

(** [dest] is what the buffer holds before. *)
Definition pkg_repo_cached_name (c : cache) (p : pkg) (dest : cstring) : option cstring :=
  match repo_of p with
  | None => Some dest
  | Some _ => snd <$> pkg_repo_binary_get_cached_name emit strftime PKG_CACHEDIR c p
  end.

(** ** Fetching *)

(** The destination, the space that statfs finds in a directory that can be
    made, and what is in the buffer cachedpath at first. *)
Context (destdir : option cstring) (statfs : cstring -> option Z) (cachedpath : cstring).

Definition is_removal (ps : pkg_solved) : bool :=
  match s_type ps with PKG_SOLVED_DELETE | PKG_SOLVED_UPGRADE_REMOVE => true | _ => false end.

Definition fetch_dir (mirror : bool) : option cstring :=
  match destdir with Some _ => if mirror then destdir else PKG_CACHEDIR | None => PKG_CACHEDIR end.

(** The package of a job that comes from a repository. *)
Definition remote_pkg (u : universe) (ps : pkg_solved) : option (option pkg) :=
  if is_removal ps then Some None
  else p ← pkg_of u (s_item0 ps); Some (if bool_decide (type p = PKG_REMOTE) then Some p else None).

(** dlsize, which does not overflow, and the buffer. *)
Definition add_size (u : universe) (c : cache) (mirror : bool) (st : Z * cstring) (ps : pkg_solved) : option (Z * cstring) :=
  p ← remote_pkg u ps;
  match p with
  | None => Some st
  | Some p =>
      let '(dlsize, path) := st in
      path ← (if mirror then Some (snprintf MAXPATHLEN (s_arg (fetch_dir mirror) ++ SLASH :: s_arg (pkg_get_string emit p PKG_REPOPATH)))
              else pkg_repo_cached_name c p path);
      let pkgsize := pkg_get_int emit p PKG_PKGSIZE in
      Some (match content c path with None => dlsize + pkgsize | Some data => dlsize + (pkgsize - Z.of_nat (length data)) end, path)
  end.

Definition fetch_job (s : applying) (ps : pkg_solved) : option (pkg_error_t * applying) :=
  let mirror := flag_set (j_flags (ap_job s)) PKG_FLAG_FETCH_MIRROR in
  p ← remote_pkg (ap_universe s) ps;
  match p with
  | None => Some (EPKG_OK, s)
  | Some p =>
      '(rc, p, c) ← (if mirror then pkg_repo_mirror_package (ap_cache s) p (fetch_dir mirror) else pkg_repo_fetch_package (ap_cache s) p);
      let s := set_ap_pkg (mk_applying (ap_solving s) c (actions s)) (s_item0 ps) p in
      Some (match rc with EPKG_OK => EPKG_OK | _ => EPKG_FATAL end, s)
  end.

(** Until one is not EPKG_OK. *)
Fixpoint until_error (f : applying -> pkg_solved -> option (pkg_error_t * applying)) (l : list pkg_solved) (s : applying)
  : option (pkg_error_t * applying) :=
  match l with
  | [] => Some (EPKG_OK, s)
  | ps :: l => '(rc, s) ← f s ps; match rc with EPKG_OK => until_error f l s | _ => Some (rc, s) end
  end.

Definition pkg_jobs_fetch (s : applying) : option (pkg_error_t * applying) :=
  let j := ap_job s in
  let mirror := flag_set (j_flags j) PKG_FLAG_FETCH_MIRROR in
  '(dlsize, _) ← fold_opt (add_size (j_universe j) (ap_cache s) mirror) (j_jobs j) (0, cachedpath);
  if dlsize =? 0 then Some (EPKG_OK, s)
  else
    cachedir ← fetch_dir mirror;
    match statfs cachedir with
    | None => Some (EPKG_FATAL, s)
    | Some available =>
        if available <? dlsize then Some (EPKG_FATAL, s)
        else if flag_set (j_flags j) PKG_FLAG_DRY_RUN then Some (EPKG_OK, s)
        else until_error fetch_job (j_jobs j) s
    end.

(** ** Executing *)

(** The archive of a package, and the package with the name of a repository
    when it is a file. *)
Definition install_target (s : applying) (ps : pkg_solved) (new : pkg) : option (cstring * pkg) :=
  it ← u_store (ap_universe s) !! s_item0 ps;
  match ui_jp it with
  | Some (mk_pattern _ path _ true) =>
      target ← path;
      '(_, new) ← pkg_set new PKG_REPONAME (ArgString (Some (str "local file")));
      Some (target, new)
  | _ =>
      path ← pkg_snprintf emit strftime MAXPATHLEN "%R" [DPkg new];
      target ← (if Ascii.eqb (deref path) SLASH then Some path else pkg_repo_cached_name (ap_cache s) new path);
      Some (target, new)
  end.

Definition add_flags (j : pkg_jobs) (automatic : bool) : Z :=
  flags_or [flag_if (flag_set (j_flags j) PKG_FLAG_FORCE) PKG_ADD_FORCE; flag_if (flag_set (j_flags j) PKG_FLAG_NOSCRIPT) PKG_ADD_NOSCRIPT;
    flag_if (flag_set (j_flags j) PKG_FLAG_FORCE_MISSING) PKG_ADD_FORCE_MISSING; PKG_ADD_UPGRADE;
    flag_if (automatic || flag_set (j_flags j) PKG_FLAG_AUTOMATIC) PKG_ADD_AUTOMATIC].

Definition old_pkg_of (u : universe) (ps : pkg_solved) : option (option pkg) :=
  match s_item1 ps with None => Some None | Some i => p ← pkg_of u i; Some (Some p) end.

Definition pkg_jobs_handle_install (s : applying) (ps : pkg_solved) : option (pkg_error_t * applying) :=
  old ← old_pkg_of (ap_universe s) ps;
  new ← pkg_of (ap_universe s) (s_item0 ps);
  let automatic := pkg_get_bool emit new PKG_AUTOMATIC in
  '(target, new) ← install_target s ps new;
  new ← match old ≫= (fun o => pkg_get_string emit o PKG_VERSION) with
        | Some oldversion => snd <$> pkg_set new PKG_OLD_VERSION (ArgString (Some oldversion))
        | None => Some new
        end;
  let s := set_ap_pkg s (s_item0 ps) new in
  let flags := add_flags (ap_job s) automatic in
  let '(retcode, a) :=
    match old, s_item1 ps with
    | Some o, Some i => let rc := pkg_add_upgrade (actions s) target flags new o in (rc, PkgAddUpgrade target flags (s_item0 ps) i rc)
    | _, _ => let rc := pkg_add_from_remote (actions s) target flags new in (rc, PkgAddFromRemote target flags (s_item0 ps) rc)
    end in
  Some (retcode, act s (a :: match retcode with EPKG_OK => [] | _ => [RollbackTo] end)).

Definition delete_flags (j : pkg_jobs) : Z :=
  Z.lor (flag_if (flag_set (j_flags j) PKG_FLAG_FORCE) PKG_DELETE_FORCE) (flag_if (flag_set (j_flags j) PKG_FLAG_NOSCRIPT) PKG_DELETE_NOSCRIPT).

Definition is_pkg_itself (name : cstring) : bool := streq name (str "pkg") || streq name (str "pkg-devel").

Definition execute_delete (s : applying) (ps : pkg_solved) : option (pkg_error_t * applying) :=
  let flags := delete_flags (ap_job s) in
  p ← pkg_of (ap_universe s) (s_item0 ps);
  name ← (if is_delete ps then pkg_get_string emit p PKG_NAME else Some []);
  if is_delete ps && is_pkg_itself name && negb (flag_set flags PKG_DELETE_FORCE) then Some (EPKG_OK, s)
  else
    let flags := match j_type (ap_job s) with PKG_JOBS_UPGRADE => Z.lor flags PKG_DELETE_CONFLICT | _ => flags end in
    let rc := pkg_delete (actions s) p flags in
    Some (rc, act s [PkgDelete (s_item0 ps) flags rc]).

Definition execute_job (s : applying) (ps : pkg_solved) : option (pkg_error_t * applying) :=
  match s_type ps with
  | PKG_SOLVED_DELETE | PKG_SOLVED_UPGRADE_REMOVE => execute_delete s ps
  | PKG_SOLVED_INSTALL | PKG_SOLVED_UPGRADE => pkg_jobs_handle_install s ps
  | PKG_SOLVED_FETCH => Some (EPKG_FATAL, s)
  end.

Definition pkg_jobs_execute (s : applying) : option (pkg_error_t * applying) :=
  if flag_set (j_flags (ap_job s)) PKG_FLAG_SKIP_INSTALL then Some (EPKG_OK, s)
  else
    let rc := pkgdb_upgrade_lock (actions s) in
    let s := act s [UpgradeLock rc] in
    match rc with
    | EPKG_OK =>
        let s := act s [Savepoint] in
        j ← pkg_jobs_set_priorities (ap_job s);
        let s := set_ap_job s j in
        '(retcode, s) ← until_error execute_job (j_jobs j) s;
        Some (retcode, act s [Release; ReleaseLock])
    | _ => Some (rc, s)
    end.

(** ** Applying *)

(** The check of files and pkg_jobs_solve, see [JobSolve]. *)
Context (check : solving -> option (pkg_error_t * solving)) (solve : solving -> option (pkg_error_t * solving)).

Definition set_ap_solving (s : applying) (v : solving) : applying := mk_applying v (ap_cache s) (actions s).

(** The loop; the answer is [rc], has_conflicts, and the state. *)
Fixpoint apply_checks (checks : nat) (pre : hook) (has_conflicts : bool) (s : applying) : option (pkg_error_t * bool * applying) :=
  match checks with
  | O => None
  | S checks =>
      '(rc, v) ← check (ap_solving s);
      let s := set_ap_solving s v in
      let next rc has_conflicts s :=
        if (0 <? conflicts_registered (ap_solving s))%nat then apply_checks checks pre has_conflicts s else Some (rc, has_conflicts, s) in
      match rc, has_conflicts with
      | EPKG_CONFLICT, _ =>
          '(rc, v) ← solve (with_job (ap_solving s) (set_jobs (ap_job s) [] 0));
          next rc true (set_ap_solving s v)
      | EPKG_OK, false => '(rc, s) ← pkg_jobs_execute (act s [RunHook pre]); Some (rc, false, s)
      | _, _ => next rc has_conflicts s
      end
  end.

(** What is done after the packages were fetched; the second component says
    that pkg_jobs_apply returns. *)
Definition apply_fetched (checks : nat) (pre : hook) (s : applying) : option (pkg_error_t * bool * applying) :=
  if j_solved (ap_job s) =? 1 then
    '(rc, has_conflicts, s) ← apply_checks checks pre false s;
    if has_conflicts : bool then
      s ← (if Nat.eqb (conflicts_registered (ap_solving s)) 0 then j ← pkg_jobs_set_priorities (ap_job s); Some (set_ap_job s j) else Some s);
      Some (EPKG_CONFLICT, true, s)
    else Some (rc, false, s)
  else '(rc, s) ← pkg_jobs_execute (act s [RunHook pre]); Some (rc, false, s).

Definition pkg_jobs_apply (checks : nat) (s : applying) : option (pkg_error_t * applying) :=
  let t := j_type (ap_job s) in
  if j_solved (ap_job s) =? 0 then Some (EPKG_FATAL, s)
  else
    match t with
    | PKG_JOBS_FETCH =>
        '(rc, s) ← pkg_jobs_fetch (act s [RunHook PRE_FETCH]);
        Some (rc, act s [RunHook POST_FETCH])
    | _ =>
        '(rc, returned, s) ←
          (if need_fetch (ap_solving s) then
             '(rc, s) ← pkg_jobs_fetch (act s [RunHook PRE_FETCH]);
             let s := act s [RunHook POST_FETCH] in
             match rc with EPKG_OK => apply_fetched checks (PRE_JOBS t) s | _ => Some (rc, false, s) end
           else '(rc, s) ← pkg_jobs_execute (act s [RunHook (PRE_JOBS t)]); Some (rc, false, s));
        Some (rc, if returned : bool then s else act s [RunHook (POST_JOBS t)])
    end.
End apply.

(** ** One transaction *)

Section execute.
Context (emit : ucl -> cstring) (strftime : cstring -> Z -> option cstring) `{db : pkgdb}.
Context (repo_of : pkg -> option (option cstring)) (PKG_CACHEDIR : option cstring).
Context (pkgdb_upgrade_lock : list action -> pkg_error_t) (pkg_delete : list action -> pkg -> Z -> pkg_error_t)
  (pkg_add_upgrade : list action -> cstring -> Z -> pkg -> pkg -> pkg_error_t)
  (pkg_add_from_remote : list action -> cstring -> Z -> pkg -> pkg_error_t).

Abbreviation run_job := (execute_job emit strftime repo_of PKG_CACHEDIR pkg_delete pkg_add_upgrade pkg_add_from_remote).
Abbreviation execute := (pkg_jobs_execute emit strftime repo_of PKG_CACHEDIR pkgdb_upgrade_lock pkg_delete pkg_add_upgrade pkg_add_from_remote).

(** The outcome of what is done to a package. *)
Definition outcome_of (a : action) : option pkg_error_t :=
  match a with PkgDelete _ _ rc | PkgAddUpgrade _ _ _ _ rc | PkgAddFromRemote _ _ _ rc => Some rc | _ => None end.

Definition adds_pkg (a : action) : bool := match a with PkgAddUpgrade _ _ _ _ _ | PkgAddFromRemote _ _ _ _ => true | _ => false end.

(** What one job does. *)
Lemma execute_job_actions s ps rc s' : run_job s ps = Some (rc, s') ->
  (rc = EPKG_OK /\ actions s' = actions s) \/ (rc = EPKG_FATAL /\ s' = s) \/
  exists a, outcome_of a = Some rc /\
    actions s' = actions s ++ a :: (if adds_pkg a && negb (bool_decide (rc = EPKG_OK)) then [RollbackTo] else []).
Proof.
  assert (forall b, execute_delete emit pkg_delete s b = Some (rc, s') -> (rc = EPKG_OK /\ actions s' = actions s) \/
    exists a, outcome_of a = Some rc /\ actions s' = actions s ++ a :: (if adds_pkg a && negb (bool_decide (rc = EPKG_OK)) then [RollbackTo] else [])) as Hdel.
  { intros b. unfold execute_delete. destruct (pkg_of _ _) as [p|]; [|done]. cbn [mbind option_bind].
    destruct (if is_delete b then _ else _) as [name|]; [|done]. cbn [mbind option_bind]. destruct (_ && _ && _).
    - intros [= <- <-]. by left.
    - intros [= <- <-]. right. eexists (PkgDelete _ _ _). split; [reflexivity|]. done. }
  assert (forall b, pkg_jobs_handle_install emit strftime repo_of PKG_CACHEDIR pkg_add_upgrade pkg_add_from_remote s b = Some (rc, s') ->
    exists a, outcome_of a = Some rc /\ actions s' = actions s ++ a :: (if adds_pkg a && negb (bool_decide (rc = EPKG_OK)) then [RollbackTo] else [])) as Hadd.
  { intros b. unfold pkg_jobs_handle_install. destruct (old_pkg_of _ _) as [old|]; [|done]. cbn [mbind option_bind].
    destruct (pkg_of _ _) as [new|]; [|done]. cbn [mbind option_bind]. destruct (install_target _ _ _ _ _ _ _) as [[target new1]|]; [|done].
    cbn [mbind option_bind]. destruct (match old ≫= _ with Some _ => _ | None => _ end) as [new2|]; [|done]. cbn [mbind option_bind].
    set (s1 := set_ap_pkg _ _ _). assert (actions s1 = actions s) as Ha by done.
    destruct old as [o|], (s_item1 b) as [i|]; intros [= <- <-]; cbn [actions act]; rewrite ?Ha;
      [eexists (PkgAddUpgrade _ _ _ _ _)|eexists (PkgAddFromRemote _ _ _ _)..]; (split; [reflexivity|]); cbn [adds_pkg andb]; f_equal; f_equal;
      first [by destruct (pkg_add_upgrade _ _ _ _ _)|by destruct (pkg_add_from_remote _ _ _ _)]. }
  unfold execute_job. destruct (s_type ps); intros H.
  - right. right. by apply (Hadd ps).
  - destruct (Hdel ps H) as [?|?]; [by left|by right; right].
  - right. right. by apply (Hadd ps).
  - destruct (Hdel ps H) as [?|?]; [by left|by right; right].
  - right. left. by injection H as <- <-.
Qed.

(** What was done to packages before an error, and the error. *)
Definition stopped (rc : pkg_error_t) (l : list action) : Prop :=
  exists ok, Forall (fun a => outcome_of a = Some EPKG_OK) ok /\
    (rc = EPKG_OK /\ l = ok \/ rc = EPKG_FATAL /\ l = ok \/
     exists a, rc <> EPKG_OK /\ outcome_of a = Some rc /\ l = ok ++ a :: (if adds_pkg a then [RollbackTo] else [])).

Lemma until_error_actions l : forall s rc s', until_error run_job l s = Some (rc, s') ->
  exists acts, actions s' = actions s ++ acts /\ stopped rc acts.
Proof.
  induction l as [|ps l IH]; intros s rc s'; cbn [until_error].
  { intros [= <- <-]. exists []. rewrite app_nil_r. split; [done|]. exists []. split; [constructor|by left]. }
  destruct (run_job s ps) as [[rc1 s1]|] eqn:E; [|done]. cbn [mbind option_bind]. intros H.
  destruct (execute_job_actions _ _ _ _ E) as [[-> Ha]|[[-> ->]|(a & Ho & Ha)]].
  - destruct (IH _ _ _ H) as (acts & He & Hs). rewrite Ha in He. by exists acts.
  - injection H as <- <-. exists []. rewrite app_nil_r. split; [done|]. exists []. split; [constructor|by right; left].
  - destruct (decide (rc1 = EPKG_OK)) as [->|Hne].
    + rewrite bool_decide_eq_true_2 in Ha by done. rewrite andb_false_r in Ha. destruct (IH _ _ _ H) as (acts & He & ok & Hok & Hs).
      exists (a :: acts). rewrite He, Ha, <- app_assoc. split; [done|]. exists (a :: ok). split; [by constructor|].
      destruct Hs as [[-> ->]|[[-> ->]|(b & H1 & H2 & ->)]]; [by left|by right; left|right; right]. by exists b.
    + assert (rc = rc1 /\ s' = s1) as [-> ->] by (destruct rc1; try done; by injection H as <- <-).
      exists (a :: if adds_pkg a then [RollbackTo] else []). rewrite Ha, bool_decide_eq_false_2, andb_true_r by done. split; [done|].
      exists []. split; [constructor|]. right. right. by exists a.
Qed.

(** C33: Executing the jobs, whatever the outcome of each action.  Without the
    lock nothing is done.  With it all is done in one transaction, which is
    committed, and the lock released, in every case; the first action on a
    package that fails is the last one, its outcome is the answer, and after it
    the transaction is rolled back to its beginning if it was an installation. *)
Theorem execute_transaction (s s' : applying) (rc : pkg_error_t) (H : execute s = Some (rc, s')) :
  (flag_set (j_flags (ap_job s)) PKG_FLAG_SKIP_INSTALL = true /\ rc = EPKG_OK /\ s' = s) \/
  (rc <> EPKG_OK /\ s' = act s [UpgradeLock rc]) \/
  exists acts, actions s' = actions s ++ [UpgradeLock EPKG_OK; Savepoint] ++ acts ++ [Release; ReleaseLock] /\ stopped rc acts.
Proof.
  unfold pkg_jobs_execute in H. destruct (flag_set _ _); [left; by injection H as <- <-|right].
  set (lock := pkgdb_upgrade_lock (actions s)) in H. destruct (decide (lock = EPKG_OK)) as [E|Hne].
  2:{ left. assert (Some (lock, act s [UpgradeLock lock]) = Some (rc, s')) as H' by (by destruct lock). by injection H' as <- <-. }
  right. rewrite E in H. destruct (pkg_jobs_set_priorities _) as [j|]; [|done]. cbn [mbind option_bind] in H.
  destruct (until_error _ _ _) as [[rc1 s1]|] eqn:Eu; [|done]. cbn [mbind option_bind] in H. injection H as <- <-.
  destruct (until_error_actions _ _ _ _ Eu) as (acts & Ha & Hs). exists acts. split; [|done].
  cbn [actions act set_ap_job] in *. rewrite Ha, <- !app_assoc. done.
Qed.

(** ** What the jobs leave installed *)

(** The items that are installed after an action, and after a job that was
    carried out. *)
Definition perform (s : gset nat) (a : action) : gset nat :=
  match a with
  | PkgDelete i _ EPKG_OK => s ∖ {[i]}
  | PkgAddUpgrade _ _ new old EPKG_OK => {[new]} ∪ (s ∖ {[old]})
  | PkgAddFromRemote _ _ new EPKG_OK => {[new]} ∪ s
  | _ => s
  end.

Definition performed (l : list action) (s : gset nat) : gset nat := foldl perform s l.

Definition carry_out (s : gset nat) (ps : pkg_solved) : gset nat :=
  if is_removal ps then s ∖ {[s_item0 ps]}
  else {[s_item0 ps]} ∪ (s ∖ match s_item1 ps with Some i => {[i]} | None => ∅ end).

(** The action is about the item of the job, and does what the job is for. *)
Definition item_of (a : action) : option nat :=
  match a with PkgDelete i _ _ | PkgAddUpgrade _ _ i _ _ | PkgAddFromRemote _ _ i _ => Some i | _ => None end.

Definition carries_out (a : action) (ps : pkg_solved) : Prop :=
  item_of a = Some (s_item0 ps) /\ forall X, perform X a = carry_out X ps.

Lemma performed_carried acts l X : Forall2 carries_out acts l -> performed acts X = foldl carry_out X l.
Proof. intros H. revert X. induction H as [|a ps acts l [_ Ha] _ IH]; intros X; [done|].
  change (performed (a :: acts) X) with (performed acts (perform X a)). by rewrite Ha, IH.
Qed.

(** Nothing fails. *)
Context (Hlock : forall l, pkgdb_upgrade_lock l = EPKG_OK) (Hdelete : forall l p flags, pkg_delete l p flags = EPKG_OK)
  (Hupgrade : forall l target flags new old, pkg_add_upgrade l target flags new old = EPKG_OK)
  (Hremote : forall l target flags new, pkg_add_from_remote l target flags new = EPKG_OK).

Lemma snprintf_total format args ps : directives (length (str format)) (str format) = Some ps -> forallb PkgPrintf.known ps = true ->
  Forall (directive_ok strftime) ps -> Forall2 (fun d kd => data_kind d = kd /\ data_fit emit d) args (argument_kinds ps) ->
  is_Some (pkg_snprintf emit strftime MAXPATHLEN format args).
Proof.
  intros Hd Hk Hok Ha. unfold pkg_snprintf, pkg_sbuf_vprintf.
  destruct (proj1 (vprintf_loop_typed emit strftime _ _ ps args Hd Hok Ha) Hk) as [text ->]. cbn. by eexists.
Qed.

Lemma snprintf_prints format args kinds : match directives (length (str format)) (str format) with
    | Some ps => forallb PkgPrintf.known ps && forallb (fun p => items_parse p && negb (fmt_code_t_beq (fmt_code p) PP_PKG_INSTALL_TIMESTAMP)) ps &&
        bool_decide (argument_kinds ps = kinds)
    | None => false
    end = true ->
  Forall2 (fun d kd => data_kind d = kd /\ data_fit emit d) args kinds -> is_Some (pkg_snprintf emit strftime MAXPATHLEN format args).
Proof.
  destruct (directives _ _) as [ps|] eqn:Ed; [|done]. intros [[Hk Hok]%andb_true_iff Hkinds%bool_decide_eq_true]%andb_true_iff Ha. subst kinds.
  eapply snprintf_total; [exact Ed|exact Hk| |exact Ha]. rewrite forallb_forall in Hok. apply Forall_forall. intros p Hp%list_elem_of_In.
  specialize (Hok p Hp). apply andb_true_iff in Hok as [Hi Ht]. split; [exact Hi|]. intros Hc. by rewrite Hc in Ht.
Qed.

(** The package of a job can be used: it can be printed, or it has a name, and
    a file has a path. *)
Definition usable (u : universe) (ps : pkg_solved) : Prop :=
  exists it, u_store u !! s_item0 ps = Some it /\ (forall i, s_item1 ps = Some i -> is_Some (pkg_of u i)) /\
    match s_type ps with
    | PKG_SOLVED_DELETE => exists name, pkg_get_string emit (ui_pkg it) PKG_NAME = Some name /\ is_pkg_itself name = false
    | PKG_SOLVED_UPGRADE_REMOVE => True
    | PKG_SOLVED_INSTALL | PKG_SOLVED_UPGRADE =>
        pkg_fit emit (ui_pkg it) /\ forall jp, ui_jp it = Some jp -> is_file jp = true -> is_Some (jp_path jp)
    | PKG_SOLVED_FETCH => False
    end.

Ltac data_fits := repeat (apply Forall_cons; split; [assumption || exact I|]); apply Forall_nil; exact I.

Lemma target_ok s ps it : u_store (ap_universe s) !! s_item0 ps = Some it -> pkg_fit emit (ui_pkg it) ->
  (forall jp, ui_jp it = Some jp -> is_file jp = true -> is_Some (jp_path jp)) ->
  exists target new, install_target emit strftime repo_of PKG_CACHEDIR s ps (ui_pkg it) = Some (target, new).
Proof.
  intros Hit Hfit Hjp. unfold install_target. rewrite Hit. cbn [mbind option_bind].
  assert (exists target, (path ← pkg_snprintf emit strftime MAXPATHLEN "%R" [DPkg (ui_pkg it)];
      target ← (if Ascii.eqb (deref path) SLASH then Some path else pkg_repo_cached_name emit strftime repo_of PKG_CACHEDIR (ap_cache s) (ui_pkg it) path);
      Some (target, ui_pkg it)) = Some (target, ui_pkg it)) as [target Ht].
  { assert (forall format args kinds, match directives (length (str format)) (str format) with
        | Some ps => forallb PkgPrintf.known ps && forallb (fun p => items_parse p && negb (fmt_code_t_beq (fmt_code p) PP_PKG_INSTALL_TIMESTAMP)) ps &&
            bool_decide (argument_kinds ps = kinds)
        | None => false
        end = true -> map data_kind args = kinds -> Forall (data_fit emit) args -> is_Some (pkg_snprintf emit strftime MAXPATHLEN format args)) as Hprint.
    { intros format args kinds Hd <- Ha. eapply snprintf_prints; [exact Hd|]. clear Hd. induction Ha; constructor; [|done]. done. }
    destruct (Hprint "%R"%string [DPkg (ui_pkg it)] [KPkg]) as [path ->]; [vm_compute; reflexivity|done|data_fits|]. cbn [mbind option_bind].
    destruct (Ascii.eqb _ _); [by eexists|]. unfold pkg_repo_cached_name. destruct (repo_of _) as [url|]; [|by eexists].
    unfold pkg_repo_binary_get_cached_name.
    destruct (Hprint "%S/%n-%v-%z"%string [DString PKG_CACHEDIR; DPkg (ui_pkg it); DPkg (ui_pkg it); DPkg (ui_pkg it)] [KString; KPkg; KPkg; KPkg])
      as [short ->]; [vm_compute; reflexivity|done|data_fits|].
    destruct (pkg_get_string emit (ui_pkg it) PKG_REPOPATH ≫= _) as [ext|]; [|by eexists]. cbn [mbind option_bind]. destruct (content _ short); [by eexists|].
    destruct (Hprint "%S/%n-%v-%z%S"%string [DString PKG_CACHEDIR; DPkg (ui_pkg it); DPkg (ui_pkg it); DPkg (ui_pkg it); DString (Some ext)]
      [KString; KPkg; KPkg; KPkg; KString]) as [full ->]; [vm_compute; reflexivity|done|data_fits|]. by eexists. }
  destruct (ui_jp it) as [[pat path m [|]]|]; [|by eexists _, _..].
  destruct (Hjp _ eq_refl eq_refl) as [pth Hp]. cbn in Hp. subst path. cbn [mbind option_bind].
  change (pkg_set (ui_pkg it) PKG_REPONAME (ArgString (Some (str "local file")))) with
    (Some (EPKG_OK, set_fields (ui_pkg it) (<[str "reponame" := UString (str "local file")]> (fields (ui_pkg it))))). by eexists _, _.
Qed.

Lemma set_universe_self s s' u : ap_job s' = set_universe (ap_job s) u -> set_universe (ap_job s) (ap_universe s') = ap_job s'.
Proof. unfold ap_universe. intros ->. done. Qed.

Lemma same_universe s s' : ap_job s' = ap_job s -> set_universe (ap_job s) (ap_universe s') = ap_job s'.
Proof. unfold ap_universe. intros ->. by destruct (ap_job s). Qed.

(** Only the package of one item is written. *)
Definition only_item (s s' : applying) (i : nat) : Prop :=
  set_universe (ap_job s) (ap_universe s') = ap_job s' /\
  (forall k, k <> i -> u_store (ap_universe s') !! k = u_store (ap_universe s) !! k) /\
  forall k, is_Some (pkg_of (ap_universe s) k) -> is_Some (pkg_of (ap_universe s') k).

Lemma only_item_refl s i : only_item s s i.
Proof. split_and!; [|done|done]. unfold ap_universe. by destruct (ap_job s). Qed.

Lemma only_item_set s i p l : only_item s (act (set_ap_pkg s i p) l) i.
Proof.
  split_and!; [by eapply set_universe_self| |].
  - intros k Hk. cbn. by rewrite list_lookup_alter_ne.
  - intros k. change (ap_universe (act (set_ap_pkg s i p) l)) with (set_item_pkg (ap_universe s) i p). rewrite pkg_of_set_item.
    destruct (decide (k = i)); [|done]. by intros [q ->].
Qed.

Lemma execute_job_ok s ps : usable (ap_universe s) ps -> exists s' a, run_job s ps = Some (EPKG_OK, s') /\
  actions s' = actions s ++ [a] /\ only_item s s' (s_item0 ps) /\ carries_out a ps.
Proof.
  intros (it & Hit & H1 & Hty). assert (pkg_of (ap_universe s) (s_item0 ps) = Some (ui_pkg it)) as Hp by (unfold pkg_of; by rewrite Hit).
  assert (is_removal ps = true -> (is_delete ps = true -> exists name, pkg_get_string emit (ui_pkg it) PKG_NAME = Some name /\ is_pkg_itself name = false) ->
    exists s' a, execute_delete emit pkg_delete s ps = Some (EPKG_OK, s') /\ actions s' = actions s ++ [a] /\
      only_item s s' (s_item0 ps) /\ carries_out a ps) as Hdel.
  { intros Hr Hn. unfold execute_delete. rewrite Hp. cbn [mbind option_bind].
    assert (exists name, (if is_delete ps then pkg_get_string emit (ui_pkg it) PKG_NAME else Some []) = Some name /\ is_delete ps && is_pkg_itself name = false) as (name & -> & Hpkg).
    { destruct (is_delete ps); [|by exists []]. destruct (Hn eq_refl) as (name & -> & Hpkg). by exists name. }
    cbn [mbind option_bind]. rewrite Hpkg. cbn [andb]. rewrite Hdelete. eexists _, _. split; [reflexivity|]. split; [reflexivity|]. split.
    - split_and!; [by apply same_universe|done|done].
    - split; [done|]. intros X. unfold carry_out. by rewrite Hr. }
  assert (is_removal ps = false -> pkg_fit emit (ui_pkg it) /\ (forall jp, ui_jp it = Some jp -> is_file jp = true -> is_Some (jp_path jp)) ->
    exists s' a, pkg_jobs_handle_install emit strftime repo_of PKG_CACHEDIR pkg_add_upgrade pkg_add_from_remote s ps = Some (EPKG_OK, s') /\
      actions s' = actions s ++ [a] /\ only_item s s' (s_item0 ps) /\ carries_out a ps) as Hadd.
  { intros Hr [Hfit Hjp]. destruct (target_ok s ps it Hit Hfit Hjp) as (target & new & Ht). unfold pkg_jobs_handle_install.
    assert (exists old, old_pkg_of (ap_universe s) ps = Some old /\ (is_Some old <-> is_Some (s_item1 ps))) as (old & -> & Hold).
    { unfold old_pkg_of. destruct (s_item1 ps) as [i|]; [|by exists None]. destruct (H1 i eq_refl) as [q ->]. exists (Some q).
      split; [done|]. split; by eexists. }
    cbn [mbind option_bind]. rewrite Hp. cbn [mbind option_bind]. rewrite Ht. cbn [mbind option_bind].
    assert (exists new2, (match old ≫= (fun o => pkg_get_string emit o PKG_VERSION) with
      | Some oldversion => snd <$> pkg_set new PKG_OLD_VERSION (ArgString (Some oldversion)) | None => Some new end) = Some new2) as [new2 Hn].
    { destruct (old ≫= _) as [v|]; [|by eexists]. eexists. reflexivity. }
    cbn [mbind option_bind] in Hn |- *. rewrite Hn. cbn [mbind option_bind].
    destruct old as [o|], (s_item1 ps) as [i|] eqn:Ei.
    - rewrite Hupgrade. eexists _, _. split; [reflexivity|]. split; [reflexivity|]. split; [apply only_item_set|]. split; [done|]. intros X. unfold carry_out. by rewrite Hr, Ei.
    - destruct Hold as [Ho _]. destruct (Ho ltac:(by eexists)). done.
    - destruct Hold as [_ Ho]. destruct (Ho ltac:(by eexists)). done.
    - rewrite Hremote. eexists _, _. split; [reflexivity|]. split; [reflexivity|]. split; [apply only_item_set|]. split; [done|]. intros X. unfold carry_out. rewrite Hr, Ei. cbn. by rewrite difference_empty_L. }
  unfold execute_job, is_removal, is_delete in *. destruct (s_type ps).
  - apply Hadd; [done|apply Hty].
  - apply Hdel; [done|]. intros _. exact Hty.
  - apply Hadd; [done|apply Hty].
  - apply Hdel; done.
  - done.
Qed.

(** All jobs, each of an item of its own. *)
Lemma usable_only s s' i ps : only_item s s' i -> s_item0 ps <> i -> usable (ap_universe s) ps -> usable (ap_universe s') ps.
Proof.
  intros (_ & Hk & Hp) Hne (it & Hit & H1 & Hty). exists it. rewrite Hk by done. split_and!; [done| |done].
  intros k Hk1. by apply Hp, H1.
Qed.

Lemma until_error_ok l : forall s, NoDup (map s_item0 l) -> Forall (usable (ap_universe s)) l ->
  exists s' acts, until_error run_job l s = Some (EPKG_OK, s') /\ actions s' = actions s ++ acts /\ Forall2 carries_out acts l.
Proof.
  induction l as [|ps l IH]; intros s Hn Hl; cbn [until_error].
  { exists s, []. rewrite app_nil_r. split_and!; [done|done|constructor]. }
  cbn [map] in Hn. apply NoDup_cons in Hn as [Hps Hn]. apply Forall_cons in Hl as [Hp Hl].
  destruct (execute_job_ok s ps Hp) as (s1 & a & -> & Ha1 & Hu & Hx1). cbn [mbind option_bind].
  destruct (IH s1 Hn) as (s' & acts & -> & Ha & Hx).
  { apply Forall_forall. intros b Hb. apply (usable_only s s1 (s_item0 ps)); [done| |by eapply Forall_forall in Hl].
    intros E. apply Hps. rewrite <- E. apply list_elem_of_fmap. by exists b. }
  exists s', (a :: acts). rewrite Ha, Ha1, <- app_assoc. split_and!; [done|done|by constructor].
Qed.

(** *** Sets *)

Definition gained (a : pkg_solved) : list nat := if is_removal a then [] else [s_item0 a].
Definition gone (a : pkg_solved) : list nat := if is_removal a then [s_item0 a] else option_list (s_item1 a).

Lemma elem_carry_out a X i : (i ∈ gained a -> i ∉ gone a) -> i ∈ carry_out X a <-> i ∈ gained a \/ i ∈ X /\ i ∉ gone a.
Proof.
  unfold carry_out, gained, gone. destruct (is_removal a), (s_item1 a) as [d|];
    try change (option_list (Some d)) with [d]; try change (option_list None) with (@nil nat);
    rewrite ?elem_of_union, ?elem_of_difference, ?elem_of_singleton, ?list_elem_of_singleton, ?elem_of_nil, ?elem_of_empty; tauto.
Qed.

Lemma elem_carried l : forall X i, (some_job gained l i -> ~ some_job gone l i) ->
  i ∈ foldl carry_out X l <-> some_job gained l i \/ i ∈ X /\ ~ some_job gone l i.
Proof.
  induction l as [|a l IH]; intros X i Hd.
  { unfold some_job. cbn. split; [intros Hi; right; split; [done|]|intros [H|[H _]]; [|done]];
      [intros (a & Ha & _)|destruct H as (a & Ha & _)]; by apply elem_of_nil in Ha. }
  cbn [foldl]. rewrite !some_job_cons in *. rewrite IH by tauto. rewrite elem_carry_out by tauto. destruct (decide (i ∈ gone a)); tauto.
Qed.

Lemma some_job_app f l1 l2 i : some_job f (l1 ++ l2) i <-> some_job f l1 i \/ some_job f l2 i.
Proof.
  unfold some_job. setoid_rewrite elem_of_app. split; [intros (a & [?|?] & ?); [left|right]; by exists a|].
  intros [(a & ? & ?)|(a & ? & ?)]; exists a; tauto.
Qed.

(** What an upgrade that is not split will remove. *)
Definition pending_old (a : pkg_solved) : list nat :=
  match s_type a with PKG_SOLVED_UPGRADE => if already_deleted a then [] else option_list (s_item1 a) | _ => [] end.

(** All items a list of jobs is about. *)
Definition touched (l : list pkg_solved) : list nat := map s_item0 l ++ concat (map pending_old l).

Lemma splits_touched l l' : splits l l' -> touched l' ≡ₚ touched l /\
  forall i, (some_job gained l' i <-> some_job gained l i) /\ (some_job gone l' i <-> some_job gone l i).
Proof.
  induction 1 as [|l k a i1 l' Hk Ht H1 Hd _ [IHp IHs]]; [done|]. rewrite insert_take_drop in IHp, IHs by (by eapply lookup_lt_Some).
  pose proof (take_drop_middle l k a Hk) as El. revert IHp IHs El. generalize (take k l) (drop (S k) l). intros l1 l2 IHp IHs El. subst l.
  assert (touched ((l1 ++ mark_deleted a :: l2) ++ [upgrade_remove i1]) ≡ₚ touched (l1 ++ a :: l2)) as Hp.
  { unfold touched. rewrite !map_app, !concat_app. cbn [map concat].
    assert (pending_old a = [i1]) as -> by (unfold pending_old; by rewrite Ht, Hd, H1).
    assert (pending_old (mark_deleted a) = []) as -> by (unfold pending_old, mark_deleted; cbn; by rewrite Ht).
    cbn [s_item0 mark_deleted upgrade_remove app]. change (pending_old (upgrade_remove i1)) with (@nil nat). rewrite !app_nil_r.
    rewrite <- !app_assoc. apply Permutation_app_head. cbn [app]. apply perm_skip. rewrite (app_assoc _ (concat _)).
    solve_Permutation. }
  split; [by rewrite IHp|]. intros i. destruct (IHs i) as [IH1 IH2]. rewrite IH1, IH2.
  rewrite !some_job_app, !some_job_cons.
  assert (forall f, some_job f [] i <-> False) as Hone
    by (intros f; unfold some_job; split; [|done]; intros (b & Hb & _); by apply elem_of_nil in Hb).
  assert (gained (mark_deleted a) = gained a /\ gone (mark_deleted a) = gone a) as [E1 E2] by done.
  assert (gone a = [i1]) as E3 by (unfold gone, is_removal; by rewrite Ht, H1).
  rewrite !Hone, E1, E2, E3. change (gained (upgrade_remove i1)) with (@nil nat). change (gone (upgrade_remove i1)) with [i1].
  rewrite elem_of_nil. tauto.
Qed.

(** *** The jobs of a selection *)

Lemma touched_app l1 l2 : touched (l1 ++ l2) ≡ₚ touched l1 ++ touched l2.
Proof. unfold touched. rewrite !map_app, concat_app. solve_Permutation. Qed.

Lemma touched_concat ls : touched (concat ls) ≡ₚ concat (map touched ls).
Proof. induction ls as [|l ls IH]; [done|]. cbn [concat map]. by rewrite touched_app, IH. Qed.

Lemma touched_deletes l : touched (map (fun d => mk_solved d None PKG_SOLVED_DELETE false) l) = l.
Proof.
  unfold touched. rewrite map_map. cbn. rewrite map_id. induction l as [|d l IH]; [done|]. cbn in *. f_equal. exact IH.
Qed.

Lemma chain_jobs_touched t u sel chain : let l := touched (chain_jobs t (adds u sel chain) (dels u sel chain)) in
  (NoDup chain -> NoDup l) /\ l ⊆ chain.
Proof.
  cbn zeta. assert (forall x, x ∈ dels u sel chain -> x ∈ chain) as Hdc by (by intros x [? _]%filter_sub).
  assert (forall x, x ∈ adds u sel chain -> x ∈ chain /\ x ∉ dels u sel chain) as Hac.
  { intros x [Hx [Hs _]%andb_true_iff]%filter_sub. split; [done|]. intros [_ [Hn _]%andb_true_iff]%filter_sub. by rewrite Hs in Hn. }
  unfold chain_jobs. destruct (adds u sel chain) as [|a [|b adds]].
  - rewrite touched_deletes. split; [apply nodup_filter|exact Hdc].
  - destruct (Hac a ltac:(by left)) as [Ha Hna]. destruct (last (dels u sel chain)) as [d|] eqn:El.
    + set (rest := List.filter _ _).
      assert (touched (mk_solved a (Some d) PKG_SOLVED_UPGRADE false :: map (fun d => mk_solved d None PKG_SOLVED_DELETE false) rest) ≡ₚ a :: d :: rest) as Hp.
      { change (mk_solved a (Some d) PKG_SOLVED_UPGRADE false :: ?l) with ([mk_solved a (Some d) PKG_SOLVED_UPGRADE false] ++ l).
        rewrite touched_app, touched_deletes. done. }
      assert (d ∈ dels u sel chain) as Hd by (apply last_Some in El as [l ->]; apply elem_of_app; right; by left).
      assert (forall x, x ∈ rest -> x ∈ dels u sel chain /\ x <> d) as Hrest.
      { intros x [Hx Hn%negb_true_iff%Nat.eqb_neq]%filter_sub. done. }
      split.
      * intros Hn. rewrite Hp. apply NoDup_cons. split; [|apply NoDup_cons; split].
        -- rewrite elem_of_cons. intros [->|Hx]; [done|]. by apply Hrest in Hx as [? _].
        -- intros Hx. by apply Hrest in Hx as [_ ?].
        -- by apply nodup_filter, nodup_filter.
      * intros x Hx. rewrite Hp in Hx. apply elem_of_cons in Hx as [->|[->|Hx]%elem_of_cons]; [done|by apply Hdc|]. by apply Hdc, Hrest.
    + assert (touched [mk_solved a None (install_type t) false] = [a]) as -> by (by destruct t).
      split; [intros _; apply NoDup_singleton|]. by intros x ->%list_elem_of_singleton.
  - split; [intros _; constructor|]. intros x Hx. by apply elem_of_nil in Hx.
Qed.

Lemma solved_touched j sel : wf_universe emit (j_universe j) -> NoDup (touched (solved_jobs j sel)).
Proof.
  intros Hw. unfold solved_jobs. rewrite touched_concat, map_map. eapply nodup_concat_sub; [apply (wu_nodup _ _ Hw)|].
  induction (values (u_items (j_universe j))) as [|c l IH]; cbn [map]; constructor; [|done]. apply chain_jobs_touched.
Qed.

(** The jobs of a selection, in any order and with upgrades split, reach it. *)
Lemma solved_jobs_carried j sel l l' i p : wf_universe emit (j_universe j) -> j_type j <> PKG_JOBS_FETCH -> one_candidate (j_universe j) sel ->
  splits (solved_jobs j sel) l -> l' ≡ₚ l -> pkg_of (j_universe j) i = Some p ->
  i ∈ foldl carry_out (installed (j_universe j)) l' <-> sel i = true.
Proof.
  intros Hw Ht H1 Hs Hp Hi. destruct (splits_touched _ _ Hs) as [_ Hsome]. destruct (Hsome i) as [Hsg Hsr]. clear Hsome.
  assert (forall a, a ∈ solved_jobs j sel -> forall X, carry_out X a = apply_job X a) as Hsame.
  { intros a Ha X. destruct (solved_job_cases emit j sel a Hw Ht Ha) as [_ [(E1 & E2 & _)|(_ & [(E1 & E2)|(E1 & d & E2 & _)])]];
      unfold carry_out, apply_job, is_removal; rewrite E1, ?E2; try done. by rewrite difference_empty_L. }
  assert (forall X, foldl carry_out X (solved_jobs j sel) = apply_jobs (solved_jobs j sel) X) as Hall.
  { revert Hsame. generalize (solved_jobs j sel). clear. intros l. induction l as [|a l IH]; intros Hl X; [done|]. cbn. rewrite Hl by (by left).
    apply IH. intros b Hb. apply Hl. by right. }
  assert (some_job gained (solved_jobs j sel) i -> ~ some_job gone (solved_jobs j sel) i) as Hd.
  { intros (a & Ha & Hga) (b & Hb & Hgb).
    assert (local_item (j_universe j) i = false) as F.
    { destruct (solved_job_cases emit j sel a Hw Ht Ha) as [_ [(E1 & _)|(F & [(E1 & _)|(E1 & _)])]];
        unfold gained, is_removal in Hga; rewrite E1 in Hga; [by apply elem_of_nil in Hga|apply list_elem_of_singleton in Hga; by subst i..]. }
    assert (local_item (j_universe j) i = true) as F'; [|congruence].
    destruct (solved_job_cases emit j sel b Hw Ht Hb) as [_ [(E1 & _ & F')|(_ & [(E1 & E2)|(E1 & d & E2 & F')])]];
      unfold gone, is_removal in Hgb; rewrite E1, ?E2 in Hgb; [|by apply elem_of_nil in Hgb|]; apply list_elem_of_singleton in Hgb; by subst i. }
  rewrite elem_carried; rewrite !(some_job_perm _ _ _ i Hp), Hsg, Hsr; [|done]. rewrite <- elem_carried by done. rewrite Hall.
  assert (forall k, k ∈ concat (values (u_items (j_universe j))) <-> (k < length (u_store (j_universe j)))%nat) as Hk.
  { intros k. rewrite (wu_once _ _ Hw), elem_of_seq. lia. }
  unfold solved_jobs. rewrite elem_jobs; [|done|apply (wu_nodup _ _ Hw)| |].
  - rewrite decide_True by (by apply Hk; eapply pkg_of_lt). done.
  - intros chain [uid Hf]%(chain_in_values emit _ _ Hw). by apply (H1 uid).
  - intros k Hin. apply elem_installed. by apply Hk.
Qed.

Lemma splits_usable u l l' : (forall i p, pkg_of u i = Some p -> is_Some (u_store u !! i)) -> splits l l' -> Forall (usable u) l -> Forall (usable u) l'.
Proof.
  intros Hst H. induction H as [|l k a i1 l' Hk Ht H1 Hd _ IH]; [done|]. intros Hl. apply IH.
  assert (usable u a) as (it & Hit & Hi & Hty) by (by eapply Forall_lookup_1). apply Forall_app. split.
  - apply Forall_insert; [done|]. exists it. unfold mark_deleted. cbn. rewrite Ht in *. split; [exact Hit|]. split; [exact Hi|exact Hty].
  - apply Forall_singleton. destruct (Hi i1 H1) as [p Hp]. destruct (Hst _ _ Hp) as [x Hx]. exists x. cbn. by split_and!.
Qed.

Lemma usable_repriced u u' ps : repriced u u' -> usable u ps -> usable u' ps.
Proof.
  intros (_ & _ & Hjp & _ & _ & Hp) (it & Hit & H1 & Hty). pose proof (Hp (s_item0 ps)) as Hp0. unfold pkg_of in Hp0. rewrite Hit in Hp0.
  apply fmap_Some in Hp0 as (it' & Hit' & Epkg).
  assert (ui_jp it' = ui_jp it) as Ejp.
  { assert (map ui_jp (u_store u') !! s_item0 ps = map ui_jp (u_store u) !! s_item0 ps) as E by (by rewrite Hjp).
    rewrite !list_lookup_fmap, Hit, Hit' in E. by injection E. }
  exists it'. rewrite <- Epkg, Ejp. split_and!; [done| |done]. intros i Hi. rewrite Hp. by apply H1.
Qed.

(** The packages of a selection can be used: those to be installed can be
    printed, and have a path when they are files, and those that are deleted for
    good have a name, which is not that of pkg itself. *)
Record selection_usable (j : pkg_jobs) (sel : nat -> bool) : Prop := mk_selection_usable {
  su_install : forall i it, u_store (j_universe j) !! i = Some it -> sel i = true -> is_local (ui_pkg it) = false ->
    pkg_fit emit (ui_pkg it) /\ forall jp, ui_jp it = Some jp -> is_file jp = true -> is_Some (jp_path jp);
  su_delete : forall a p, a ∈ solved_jobs j sel -> is_delete a = true -> pkg_of (j_universe j) (s_item0 a) = Some p ->
    exists name, pkg_get_string emit p PKG_NAME = Some name /\ is_pkg_itself name = false }.

Lemma chain_jobs_selected t u sel chain a : a ∈ chain_jobs t (adds u sel chain) (dels u sel chain) ->
  sel (s_item0 a) = negb (is_removal a).
Proof.
  assert (forall l, (forall x, x ∈ l -> sel x = false) -> a ∈ map (fun d => mk_solved d None PKG_SOLVED_DELETE false) l ->
    sel (s_item0 a) = negb (is_removal a)) as Hdel.
  { intros l Hl Ha. apply list_elem_of_fmap in Ha as (d & -> & Hd). cbn. by apply Hl. }
  assert (forall x, x ∈ dels u sel chain -> sel x = false) as Hd by (by intros x [_ [Hn%negb_true_iff _]%andb_true_iff]%filter_sub).
  assert (forall x, x ∈ adds u sel chain -> sel x = true) as Hs by (by intros x [_ [Hn _]%andb_true_iff]%filter_sub).
  unfold chain_jobs. destruct (adds u sel chain) as [|b [|c adds]]; [by apply Hdel| |intros Ha; by apply elem_of_nil in Ha].
  destruct (last (dels u sel chain)) as [d|].
  - intros [->|Ha]%elem_of_cons; [apply Hs; by left|]. eapply Hdel; [|exact Ha]. intros x [Hx _]%filter_sub. by apply Hd.
  - intros ->%list_elem_of_singleton. cbn. rewrite Hs by (by left). unfold is_removal. cbn. by destruct t.
Qed.

Lemma solved_jobs_usable j sel : wf_universe emit (j_universe j) -> j_type j <> PKG_JOBS_FETCH -> selection_usable j sel ->
  Forall (usable (j_universe j)) (solved_jobs j sel).
Proof.
  intros Hw Ht [Hin Hdel]. apply Forall_forall. intros a Ha.
  assert (sel (s_item0 a) = negb (is_removal a)) as Hsel.
  { unfold solved_jobs in Ha. apply list_elem_of_In, in_concat in Ha as (l & Hl & Ha). apply in_map_iff in Hl as (chain & <- & _).
    apply list_elem_of_In in Ha. by apply chain_jobs_selected in Ha. }
  destruct (solved_job_cases emit j sel a Hw Ht Ha) as [[p Hp] Hc]. unfold pkg_of in Hp. apply fmap_Some in Hp as (it & Hit & ->).
  assert (pkg_of (j_universe j) (s_item0 a) = Some (ui_pkg it)) as Hpkg by (unfold pkg_of; by rewrite Hit).
  assert (local_item (j_universe j) (s_item0 a) = is_local (ui_pkg it)) as Hl by (unfold local_item; by rewrite Hpkg).
  exists it. split; [done|]. rewrite Hl in Hc. unfold is_removal in Hsel.
  destruct Hc as [(E1 & E2 & F)|(F & [(E1 & E2)|(E1 & d & E2 & F')])]; rewrite E1 in *; cbn in Hsel; rewrite E2.
  - split; [done|]. apply (Hdel a); [done| |done]. unfold is_delete. by rewrite E1.
  - split; [done|]. by apply (Hin (s_item0 a)).
  - split; [|by apply (Hin (s_item0 a))]. intros i [= <-]. apply local_item_some in F' as (q & Hq & _). by exists q.
Qed.

End execute.

(** ** Files are compared before anything is done *)

Section checked.
Context (emit : ucl -> cstring) (strftime : cstring -> Z -> option cstring) (sha256 : cstring -> list Z)
  (repo_digest_format : cstring -> option pkg_checksum_type_t) `{db : pkgdb}.
Context (repo_of : pkg -> option (option cstring)) (mkdir unreadable creat : cstring -> bool) (symlink rename : cstring -> cstring -> bool)
  (pkg_fetch_file_to_fd : list cstring -> cstring -> pkg_error_t * cstring) (PKG_CACHEDIR : option cstring).
Context (pkgdb_upgrade_lock : list action -> pkg_error_t) (pkg_delete : list action -> pkg -> Z -> pkg_error_t)
  (pkg_add_upgrade : list action -> cstring -> Z -> pkg -> pkg -> pkg_error_t)
  (pkg_add_from_remote : list action -> cstring -> Z -> pkg -> pkg_error_t).
Context (destdir : option cstring) (statfs : cstring -> option Z) (cachedpath : cstring).
Context (local_files : gmap cstring cstring) (order_rows : list (cstring * cstring) -> list (cstring * cstring)) (fuel : nat)
  (solve : solving -> option (pkg_error_t * solving)).
Context (Horder : forall l, order_rows l ≡ₚ l)
  (Hload : forall p, wf_pkg p -> let q := pkgdb_ensure_loaded p (Z.lor PKG_LOAD_FILES PKG_LOAD_DIRS) in
    wf_pkg q /\ pkg_uid emit q = pkg_uid emit p).

Abbreviation execute := (pkg_jobs_execute emit strftime repo_of PKG_CACHEDIR pkgdb_upgrade_lock pkg_delete pkg_add_upgrade pkg_add_from_remote).
Abbreviation check := (JobSolve.check_conflicts emit sha256 repo_digest_format local_files order_rows fuel).
Abbreviation checks_loop := (apply_checks emit strftime repo_of PKG_CACHEDIR pkgdb_upgrade_lock pkg_delete pkg_add_upgrade pkg_add_from_remote check solve).
Abbreviation fetch := (pkg_jobs_fetch emit strftime sha256 repo_of mkdir unreadable creat symlink rename pkg_fetch_file_to_fd PKG_CACHEDIR destdir statfs cachedpath).
Abbreviation apply := (pkg_jobs_apply emit strftime sha256 repo_of mkdir unreadable creat symlink rename pkg_fetch_file_to_fd PKG_CACHEDIR
  pkgdb_upgrade_lock pkg_delete pkg_add_upgrade pkg_add_from_remote destdir statfs cachedpath check solve).

Lemma checks_conflicting checks pre : forall s rc h s', checks_loop checks pre true s = Some (rc, h, s') -> h = true /\ actions s' = actions s.
Proof.
  induction checks as [|checks IH]; intros s rc h s'; cbn [apply_checks]; [done|].
  destruct (check (ap_solving s)) as [[rc1 v]|]; [|done]. cbn [mbind option_bind].
  assert (forall r s1, actions s1 = actions s -> (if (0 <? conflicts_registered (ap_solving s1))%nat then checks_loop checks pre true s1 else Some (r, true, s1)) =
    Some (rc, h, s') -> h = true /\ actions s' = actions s) as Hnext.
  { intros r s1 Ha. destruct (_ <? _)%nat; [intros H; rewrite <- Ha; by eapply IH|by intros [= _ <- <-]]. }
  destruct rc1; try (by apply Hnext). destruct (solve _) as [[rc2 w]|]; [|done]. cbn [mbind option_bind]. by apply Hnext.
Qed.

(** The jobs of [s1] are executed, after their files were compared. *)
Definition executed_after_check (pre : hook) (s : applying) (rc : pkg_error_t) (s' : applying) : Prop :=
  exists s1 v, actions s1 = actions s /\ check (ap_solving s1) = Some (EPKG_OK, v) /\
    execute (act (set_ap_solving s1 v) [RunHook pre]) = Some (rc, s').

Lemma checks_loop_cases checks pre : forall s rc h s', checks_loop checks pre false s = Some (rc, h, s') ->
  actions s' = actions s \/ h = false /\ executed_after_check pre s rc s'.
Proof.
  induction checks as [|checks IH]; intros s rc h s'; cbn [apply_checks]; [done|].
  destruct (check (ap_solving s)) as [[rc1 v]|] eqn:Ec; [|done]. cbn [mbind option_bind].
  assert (forall r b s1, actions s1 = actions s -> (if (0 <? conflicts_registered (ap_solving s1))%nat then checks_loop checks pre b s1 else Some (r, b, s1)) =
    Some (rc, h, s') -> actions s' = actions s \/ h = false /\ executed_after_check pre s rc s') as Hnext.
  { intros r b s1 Ha. destruct (_ <? _)%nat; [|intros [= _ _ <-]; by left]. destruct b.
    - intros [_ H]%checks_conflicting. left. by rewrite H.
    - intros H. apply IH in H as [H|(Hf & s2 & w & Ha2 & H)]; [left; by rewrite H|right]. split; [done|]. exists s2, w. by rewrite Ha2. }
  destruct rc1; try (by apply Hnext).
  - destruct (execute _) as [[rc2 s2]|] eqn:Ee; [|done]. cbn [mbind option_bind]. intros [= <- <- <-]. right. split; [done|].
    exists s, v. by split_and!.
  - destruct (solve _) as [[rc2 w]|]; [|done]. cbn [mbind option_bind]. by apply Hnext.
Qed.

(** Fetching does nothing to the system but to the cache. *)
Lemma fetch_keeps s rc s' : fetch s = Some (rc, s') -> actions s' = actions s /\ j_solved (ap_job s') = j_solved (ap_job s).
Proof.
  assert (forall l s s', until_error (fetch_job emit strftime sha256 repo_of mkdir unreadable creat symlink rename pkg_fetch_file_to_fd PKG_CACHEDIR destdir) l s =
    Some (rc, s') -> actions s' = actions s /\ j_solved (ap_job s') = j_solved (ap_job s)) as Hloop.
  { clear. induction l as [|ps l IH]; intros s s'; cbn [until_error]; [by intros [= <- <-]|].
    destruct (fetch_job _ _ _ _ _ _ _ _ _ _ _ _ s ps) as [[rc1 s1]|] eqn:E; [|done]. cbn [mbind option_bind].
    assert (actions s1 = actions s /\ j_solved (ap_job s1) = j_solved (ap_job s)) as [H1 H2].
    { revert E. unfold fetch_job. destruct (remote_pkg _ _) as [[p|]|]; [|by intros [= <- <-]|done]. cbn [mbind option_bind].
      destruct (if flag_set _ _ then _ else _) as [[[r p'] c']|]; [|done]. cbn [mbind option_bind]. by intros [= <- <-]. }
    rewrite <- H1, <- H2. destruct rc1; try (by intros [= <- <-]). apply IH. }
  unfold pkg_jobs_fetch. destruct (fold_opt _ _ _) as [[dlsize path]|]; [|done]. cbn [mbind option_bind].
  destruct (dlsize =? 0); [by intros [= <- <-]|]. destruct (fetch_dir _ _ _) as [dir|]; [|done]. cbn [mbind option_bind].
  destruct (statfs dir) as [available|]; [|by intros [= <- <-]]. destruct (available <? dlsize); [by intros [= <- <-]|].
  destruct (flag_set _ PKG_FLAG_DRY_RUN); [by intros [= <- <-]|]. apply Hloop.
Qed.

(** C27: pkg_jobs_apply for jobs that were solved once and whose packages were
    not all there.  It runs hooks and does nothing else, or it executes jobs,
    once, right after a check of the files of their packages that found nothing:
    no two of them have a path in common, and none has one in common with an
    installed package of another unique id. *)
Theorem apply_checks_files (checks : nat) (s s' : applying) (rc : pkg_error_t) (Ht : j_type (ap_job s) <> PKG_JOBS_FETCH)
  (Hso : j_solved (ap_job s) = 1) (Hnf : need_fetch (ap_solving s) = true) (H : apply checks s = Some (rc, s')) :
  (exists hooks, actions s' = actions s ++ map RunHook hooks) \/
  exists s1 v s2, actions s1 = actions s ++ [RunHook PRE_FETCH; RunHook POST_FETCH] /\ check (ap_solving s1) = Some (EPKG_OK, v) /\
    (integritycheck (ap_solving s1) = ∅ -> checkable emit (ap_universe s1) (j_jobs (ap_job s1)) ->
     clash_free emit local_files (ap_universe s1) (j_jobs (ap_job s1))) /\
    execute (act (set_ap_solving s1 v) [RunHook (PRE_JOBS (j_type (ap_job s)))]) = Some (rc, s2) /\
    s' = act s2 [RunHook (POST_JOBS (j_type (ap_job s)))].
Proof.
  unfold pkg_jobs_apply in H. rewrite Hso, Hnf in H. cbn [Z.eqb] in H. set (t := j_type (ap_job s)) in *.
  assert (forall A (x y : A), match t with PKG_JOBS_FETCH => x | _ => y end = y) as Hty by (by destruct t).
  assert (('(rc, returned, s) ← ('(rc, s) ← fetch (act s [RunHook PRE_FETCH]);
      match rc with EPKG_OK => apply_fetched emit strftime repo_of PKG_CACHEDIR pkgdb_upgrade_lock pkg_delete pkg_add_upgrade pkg_add_from_remote check solve
        checks (PRE_JOBS t) (act s [RunHook POST_FETCH]) | _ => Some (rc, false, act s [RunHook POST_FETCH]) end);
    Some (rc, if returned : bool then s else act s [RunHook (POST_JOBS t)])) = Some (rc, s')) as H' by (by destruct t). clear H Hty.
  destruct (fetch _) as [[rc1 s1]|] eqn:Ef; [|done]. cbn [mbind option_bind] in H'. destruct (fetch_keeps _ _ _ Ef) as [Ha1 Hso1].
  set (s2 := act s1 [RunHook POST_FETCH]) in *.
  assert (actions s2 = actions s ++ [RunHook PRE_FETCH; RunHook POST_FETCH]) as Ha2 by (unfold s2; cbn [actions act] in *; by rewrite Ha1, <- app_assoc).
  assert (forall s3, actions s3 = actions s2 -> exists hooks, actions (act s3 [RunHook (POST_JOBS t)]) = actions s ++ map RunHook hooks) as Hhooks.
  { intros s3 Ha3. exists [PRE_FETCH; POST_FETCH; POST_JOBS t]. cbn [actions act]. by rewrite Ha3, Ha2, <- app_assoc. }
  assert (Some (rc1, act s2 [RunHook (POST_JOBS t)]) = Some (rc, s') -> exists hooks, actions s' = actions s ++ map RunHook hooks) as Hfail.
  { intros [= _ <-]. by apply Hhooks. }
  destruct rc1; try (left; by apply Hfail). revert H'. unfold apply_fetched. change (j_solved (ap_job s2)) with (j_solved (ap_job s1)). rewrite Hso1.
  change (j_solved (ap_job (act s _))) with (j_solved (ap_job s)). rewrite Hso. cbn [Z.eqb Pos.eqb].
  destruct (checks_loop checks (PRE_JOBS t) false s2) as [[[rc2 h] s3]|] eqn:Ec; [|done]. cbn [mbind option_bind].
  destruct (checks_loop_cases _ _ _ _ _ _ Ec) as [Ha3|(-> & s4 & v & Ha4 & Hchk & He)].
  - left. destruct h.
    + destruct (if Nat.eqb _ _ then _ else _) as [s4|] eqn:E4; [|done]. cbn [mbind option_bind] in *. injection H' as <- <-.
      exists [PRE_FETCH; POST_FETCH]. revert E4. destruct (Nat.eqb _ _); [|intros [= <-]; by rewrite Ha3, Ha2].
      destruct (pkg_jobs_set_priorities _) as [j|]; [|done]. cbn [mbind option_bind]. intros [= <-]. cbn [actions set_ap_job]. by rewrite Ha3, Ha2.
    + cbn [mbind option_bind] in *. injection H' as <- <-. by apply Hhooks.
  - right. cbn [mbind option_bind] in *. injection H' as <- <-. exists s4, v, s3. split_and!; [by rewrite Ha4|done| |done|done].
    intros Ht0 Hck. revert Hchk. unfold JobSolve.check_conflicts. rewrite Ht0. destruct (pkg_jobs_check_conflicts _ _ _ _ _ _ _ _) as [[[r t0] [j0 n0]]|] eqn:E; [|done].
    cbn [mbind option_bind]. intros [= -> _]. eapply (check_conflicts_ok emit sha256 repo_digest_format fuel local_files order_rows Horder Hload); [exact Hck|exact E].
Qed.
End checked.

(** ** Concrete jobs *)

(** Version 1.2 of foo is selected. *)
Definition sel_newest (i : nat) : bool := Nat.eqb i 2.

(** The job that upgrades foo to it. *)
Definition solved_upgrade : pkg_jobs := append_jobs upgrade_job (solved_jobs upgrade_job sel_newest).

Definition idle (j : pkg_jobs) : applying := mk_applying (new_job j) (mk_cache ∅ []) [].

Definition no_repo (_ : pkg) : option (option cstring) := None.

(** pkg_delete and pkg_add fail or not. *)
Abbreviation executed add_rc s :=
  (pkg_jobs_execute no_emit (fun _ _ => None) no_repo None (fun _ => EPKG_OK) (fun _ _ _ => EPKG_OK)
    (fun _ _ _ _ _ => add_rc) (fun _ _ _ _ => add_rc) s).

Definition acted (r : option (pkg_error_t * applying)) : option (pkg_error_t * list action) := '(rc, s) ← r; Some (rc, actions s).

Lemma acted_inv r rc l : acted r = Some (rc, l) -> exists s, r = Some (rc, s) /\ actions s = l.
Proof. destruct r as [[rc' s]|]; [|done]. cbn. intros [= <- <-]. by exists s. Qed.

Lemma upgrade_fails : acted (executed EPKG_FATAL (idle solved_upgrade)) =
  Some (EPKG_FATAL, [UpgradeLock EPKG_OK; Savepoint; PkgAddUpgrade (str "(null)") PKG_ADD_UPGRADE 2 0 EPKG_FATAL; RollbackTo; Release; ReleaseLock]).
Proof. vm_compute. reflexivity. Qed.

Lemma execute_transaction_witness : exists s', executed EPKG_FATAL (idle solved_upgrade) = Some (EPKG_FATAL, s') /\
  exists acts, actions s' = [UpgradeLock EPKG_OK; Savepoint] ++ acts ++ [Release; ReleaseLock] /\ stopped EPKG_FATAL acts.
Proof.
  destruct (acted_inv _ _ _ upgrade_fails) as (s' & H & Ha). exists s'. split; [exact H|].
  destruct (execute_transaction no_emit (fun _ _ => None) no_repo None (fun _ => EPKG_OK) (fun _ _ _ => EPKG_OK)
    (fun _ _ _ _ _ => EPKG_FATAL) (fun _ _ _ _ => EPKG_FATAL) (idle solved_upgrade) s' EPKG_FATAL H) as [(Hf & _)|[(_ & Hs)|(acts & He & Hst)]].
  - discriminate Hf.
  - rewrite Hs in Ha. discriminate Ha.
  - exists acts. split; [exact He|exact Hst].
Defined.

(** Installed packages with a name. *)
Definition named_row (name digest : string) : pkg :=
  sample_row PKG_INSTALLED name "1.0" digest [OpSet [(PKG_NAME, ArgString (Some (str name)))]].

(** Two packages are to be deleted. *)
Definition delete_both : pkg_jobs :=
  mk_jobs (insert_item (insert_item pkg_jobs_universe_new
      (named_row "left" "d0") (str "left~x/left") (str "d0")) (named_row "right" "d1") (str "right~x/right") (str "d1"))
    [] [] [mk_solved 0 None PKG_SOLVED_DELETE false; mk_solved 1 None PKG_SOLVED_DELETE false] PKG_JOBS_DEINSTALL 0 1 2.

(** left is deleted, then right cannot be: nothing is rolled back. *)
Example failed_deletion_committed :
  acted (pkg_jobs_execute no_emit (fun _ _ => None) no_repo None (fun _ => EPKG_OK) (fun l _ _ => if (length l <? 3)%nat then EPKG_OK else EPKG_FATAL)
    (fun _ _ _ _ _ => EPKG_OK) (fun _ _ _ _ => EPKG_OK) (idle delete_both)) =
  Some (EPKG_FATAL, [UpgradeLock EPKG_OK; Savepoint; PkgDelete 0 0 EPKG_OK; PkgDelete 1 0 EPKG_FATAL; Release; ReleaseLock]).
Proof. vm_compute. reflexivity. Qed.

Lemma newest_fit emit : pkg_fit emit (Universe.sample_pkg PKG_REMOTE "foo~misc/foo" "1.2" "d2").
Proof.
  split.
  - intros l. apply wf_list_sound, wf_sample.
  - intros []; vm_compute; discriminate.
  - intros attr o H. exfalso. revert H.
    do 33 (destruct attr as [|attr]; [intros H; vm_compute in H; discriminate H|]). by intros H.
  - intros attr. do 33 (destruct attr as [|attr]; [vm_compute; discriminate|]). done.
Qed.

Lemma upgrade_selection_usable : selection_usable no_emit solved_upgrade sel_newest.
Proof.
  split.
  - intros i it Hit Hi Hl. apply Nat.eqb_eq in Hi. subst i. vm_compute in Hit. injection Hit as <-. split; [apply newest_fit|discriminate].
  - intros a p Ha Hd _. exfalso. change (solved_jobs solved_upgrade sel_newest) with [mk_solved 2 (Some 0%nat) PKG_SOLVED_UPGRADE false] in Ha.
    apply list_elem_of_singleton in Ha as ->. discriminate Hd.
Qed.

Lemma upgrade_conflicts_known : conflicts_known sample_universe.
Proof. intros i p c [[_ ->]|[[_ ->]|[_ ->]]]%sample_universe_pkgs _ Hc; by apply elem_of_nil in Hc. Qed.


(** Packages to be fetched, of which nothing is missing. *)
Definition to_fetch (j : pkg_jobs) : applying := mk_applying (set_need_fetch (new_job j)) (mk_cache ∅ []) [].

Abbreviation applied s :=
  (pkg_jobs_apply no_emit (fun _ _ => None) (fun _ => []) no_repo (fun _ => true) (fun _ => false) (fun _ => true) (fun _ _ => true) (fun _ _ => true)
    (fun _ _ => (EPKG_FATAL, [])) None (fun _ => EPKG_OK) (fun _ _ _ => EPKG_OK) (fun _ _ _ _ _ => EPKG_OK) (fun _ _ _ _ => EPKG_OK)
    None (fun _ => Some 0) [] (JobSolve.check_conflicts (db := bare) no_emit (fun _ => []) (fun _ => None) owned_files id 3)
    (fun v => Some (EPKG_OK, v)) 3 s).

Lemma apply_alone : acted (applied (to_fetch (file_jobs [0; 2]%nat))) =
  Some (EPKG_OK, [RunHook PRE_FETCH; RunHook POST_FETCH; RunHook (PRE_JOBS PKG_JOBS_INSTALL); UpgradeLock EPKG_OK; Savepoint;
    PkgAddFromRemote (str "(null)") PKG_ADD_UPGRADE 0 EPKG_OK; PkgAddFromRemote (str "(null)") PKG_ADD_UPGRADE 2 EPKG_OK; Release; ReleaseLock; RunHook (POST_JOBS PKG_JOBS_INSTALL)]).
Proof. vm_compute. reflexivity. Qed.

(** Two packages that share a file: the answer is EPKG_CONFLICT, and the hook
    after the jobs is not run. *)
Example apply_conflict : acted (applied (to_fetch (file_jobs [0; 1]%nat))) = Some (EPKG_CONFLICT, [RunHook PRE_FETCH; RunHook POST_FETCH]).
Proof. vm_compute. reflexivity. Qed.

Lemma apply_checks_files_witness : exists s', applied (to_fetch (file_jobs [0; 2]%nat)) = Some (EPKG_OK, s') /\
  exists s1 v, JobSolve.check_conflicts (db := bare) no_emit (fun _ => []) (fun _ => None) owned_files id 3 (ap_solving s1) = Some (EPKG_OK, v) /\
    (integritycheck (ap_solving s1) = ∅ -> checkable no_emit (ap_universe s1) (j_jobs (ap_job s1)) ->
     clash_free (db := bare) no_emit owned_files (ap_universe s1) (j_jobs (ap_job s1))).
Proof.
  destruct (acted_inv _ _ _ apply_alone) as (s' & H & Ha). exists s'. split; [exact H|].
  destruct (apply_checks_files (db := bare) no_emit (fun _ _ => None) (fun _ => []) (fun _ => None) no_repo (fun _ => true) (fun _ => false) (fun _ => true)
    (fun _ _ => true) (fun _ _ => true) (fun _ _ => (EPKG_FATAL, [])) None (fun _ => EPKG_OK) (fun _ _ _ => EPKG_OK) (fun _ _ _ _ _ => EPKG_OK)
    (fun _ _ _ _ => EPKG_OK) None (fun _ => Some 0) [] owned_files id 3 (fun v => Some (EPKG_OK, v)) (fun l => Permutation_refl l) bare_load
    3 (to_fetch (file_jobs [0; 2]%nat)) s' EPKG_OK ltac:(discriminate) eq_refl eq_refl H) as [(hooks & Hh)|(s1 & v & s2 & _ & Hc & Hf & _)].
  - exfalso. rewrite Ha in Hh. change (actions (to_fetch _)) with (@nil action) in Hh. cbn [app map] in Hh. do 3 (destruct hooks as [|? hooks]; [discriminate Hh|]; injection Hh as _ Hh).
    destruct hooks; discriminate Hh.
  - exists s1, v. split; [exact Hc|exact Hf].
Defined.

(** A package of 5 bytes is missing; the file of another, of 3 bytes, has 8:
    nothing is to be fetched. *)
Definition sized_pkg (name : string) (size : Z) (path : string) : pkg :=
  default (pkg_new PKG_REMOTE) (run_ops false
    [OpSet [(PKG_NAME, ArgString (Some (str name))); (PKG_VERSION, ArgString (Some (str "1.0"))); (PKG_CKSUM, ArgString (Some (str "61")));
            (PKG_REPOPATH, ArgString (Some (str path))); (PKG_PKGSIZE, ArgInt size)]] (pkg_new PKG_REMOTE)).

Definition fetch_both : pkg_jobs :=
  mk_jobs (mk_univ [mk_ui (sized_pkg "foo" 5 "All/foo-1.0.txz") None 0; mk_ui (sized_pkg "bar" 3 "All/bar-1.0.txz") None 0] table_empty table_empty table_empty [] 2)
    [] [] [mk_solved 0 None PKG_SOLVED_INSTALL false; mk_solved 1 None PKG_SOLVED_INSTALL false] PKG_JOBS_INSTALL 0 1 2.

Definition fetched_urls (files : gmap cstring entry) : option (pkg_error_t * nat) :=
  '(rc, s) ← pkg_jobs_fetch no_emit (fun _ _ => None) (fun _ => []) (fun _ => Some (Some (str "http://host/"))) (fun _ => true) (fun _ => false)
    (fun _ => true) (fun _ _ => true) (fun _ _ => true) (fun _ _ => (EPKG_FATAL, [])) (Some (str "/c")) None (fun _ => Some 100) []
    (mk_applying (new_job fetch_both) (mk_cache files []) []);
  Some (rc, length (downloads (ap_cache s))).

Example missing_is_fetched : fetched_urls ∅ = Some (EPKG_FATAL, 1%nat).
Proof. vm_compute. reflexivity. Qed.

Example sizes_cancel : fetched_urls (<[str "/c/bar-1.0-61.txz" := File (str "12345678")]> ∅) = Some (EPKG_OK, 0%nat).
Proof. vm_compute. reflexivity. Qed.
