(* ===== verification/RepoMeta.v ===== *)
(** * Metadata of a repository (libpkg/pkg_repo_meta.c, libpkg/packing.c)

    What a repository says of its own files: their names and formats, and the
    keys it is signed with.  The text is parsed and validated against a schema
    by libucl: the object that is read, and whether it fits, are parameters.
    [None] is a NULL pointer that is followed. *)
From S2P Require Import Prelude CString UtHash Pkg Checksum Ucl.

(** ** Formats of archives *)

Inductive pkg_formats := TAR | TGZ | TBZ | TXZ.

Definition packing_format_from_string (s : option cstring) : pkg_formats :=
  match s with
  | None => TXZ
  | Some s =>
      if streq s (str "txz") then TXZ
      else if streq s (str "tbz") then TBZ
      else if streq s (str "tgz") then TGZ
      else if streq s (str "tar") then TAR
      else TXZ
  end.

Definition packing_format_to_string (format : pkg_formats) : cstring :=
  match format with TXZ => str "txz" | TBZ => str "tbz" | TGZ => str "tgz" | TAR => str "tar" end.

(** ** Metadata *)

Record pkg_repo_meta_key := mk_meta_key { pubkey : cstring; pubkey_type : cstring; mk_name : cstring }.

Record pkg_repo_meta := mk_meta {
  maintainer : option cstring;
  source : option cstring;
  packing_format : pkg_formats;
  digest_format : pkg_checksum_type_t;
  digests : option cstring;
  digests_archive : option cstring;
  manifests : option cstring;
  manifests_archive : option cstring;
  filesite : option cstring;
  filesite_archive : option cstring;
  m_conflicts : option cstring;
  conflicts_archive : option cstring;
  fulldb : option cstring;
  fulldb_archive : option cstring;
  source_identifier : option cstring;
  revision : Z;
  meta_keys : table pkg_repo_meta_key;
  eol : Z;
  meta_version : Z }.

Definition pkg_repo_meta_set_default : pkg_repo_meta :=
  mk_meta None None TXZ PKG_HASH_TYPE_SHA256_BASE32 (Some (str "digests")) (Some (str "digests")) (Some (str "packagesite.yaml"))
    (Some (str "packagesite")) (Some (str "filesite.yaml")) (Some (str "filesite")) None None None None None 0 table_empty 0 1.

Definition pkg_repo_meta_default : pkg_repo_meta := pkg_repo_meta_set_default.

(** ** Reading *)

Definition object_fields (o : ucl) : list (cstring * ucl) := match o with UObject l => l | _ => [] end.

Definition pkg_repo_meta_parse_cert (obj : ucl) : option pkg_repo_meta_key :=
  let field key := ucl_object_find_key (object_fields obj) (str key) ≫= ucl_object_tostring in
  name ← field "name"; data ← field "data"; ty ← field "type"; Some (mk_meta_key data ty name).

Section load.

(** META_EXTRACT_STRING *)
Definition extract_string (top : list (cstring * ucl)) (key : string) (old : option cstring) : option cstring :=
  match ucl_object_find_key top (str key) with Some (UString s) => Some s | _ => old end.

Definition extract_int (top : list (cstring * ucl)) (key : string) (old : Z) : Z :=
  match ucl_object_find_key top (str key) with Some (UInt z) => z | _ => old end.

(** The objects under a key, one after the other. *)
Definition under (top : list (cstring * ucl)) (key : string) : list ucl :=
  map i_val (match siblings (str key) top with v :: l => ucl_iterate_object (mk_item (Some (str key)) v l) false | [] => [] end).

(** HASH_ADD_STR is used with a pointer: the bytes of a key are those in memory
    from where the pointer is, as many as the name has. *)
Context (key_bytes : pkg_repo_meta_key -> cstring).

Definition pkg_repo_meta_parse (top : list (cstring * ucl)) (version : Z) : option (pkg_error_t * pkg_repo_meta) :=
  let d := pkg_repo_meta_set_default in
  let packing := match ucl_object_find_key top (str "packing_format") with
                 | Some (UString s) => packing_format_from_string (Some s) | _ => packing_format d end in
  let digest := match ucl_object_find_key top (str "digest_format") with
                | Some (UString s) => pkg_checksum_type_from_string s | _ => digest_format d end in
  keys ← fold_opt (fun t cur => cert ← pkg_repo_meta_parse_cert cur; Some (hash_add t (key_bytes cert) cert)) (under top "cert") table_empty;
  Some (EPKG_OK, mk_meta (extract_string top "maintainer" (maintainer d)) (extract_string top "source" (source d)) packing digest
    (extract_string top "digests" (digests d)) (extract_string top "digests_archive" (digests_archive d))
    (extract_string top "manifests" (manifests d)) (extract_string top "manifests_archive" (manifests_archive d))
    (extract_string top "filesite" (filesite d)) (extract_string top "filesite_archive" (filesite_archive d))
    (extract_string top "conflicts" (m_conflicts d)) (extract_string top "conflicts_archive" (conflicts_archive d))
    (extract_string top "fulldb" (fulldb d)) (extract_string top "fulldb_archive" (fulldb_archive d))
    (extract_string top "source_identifier" (source_identifier d)) (extract_int top "revision" (revision d)) keys
    (extract_int top "eol" (eol d)) version).

Definition pkg_repo_meta_version (top : list (cstring * ucl)) : Z :=
  match ucl_object_find_key top (str "version") with Some (UInt z) => (z + 2 ^ 31) mod 2 ^ 32 - 2 ^ 31 | _ => -1 end.

Context (ucl_parser : cstring -> option (list (cstring * ucl))) (ucl_object_validate : list (cstring * ucl) -> bool).

(** The content of the file is given, [None] when it cannot be opened. *)
Definition pkg_repo_meta_load (file : option cstring) : option (pkg_error_t * option pkg_repo_meta) :=
  match file ≫= ucl_parser with
  | None => Some (EPKG_FATAL, None)
  | Some top =>
      let version := pkg_repo_meta_version top in
      if version =? -1 then Some (EPKG_FATAL, None)
      else if version =? 1 then
        if negb (ucl_object_validate top) then Some (EPKG_FATAL, None)
        else '(rc, meta) ← pkg_repo_meta_parse top version; Some (rc, Some meta)
      else Some (EPKG_FATAL, None)
  end.
End load.

(** ** Writing *)

(** META_EXPORT_FIELD *)
Definition export_string (field : option cstring) : option ucl := s ← field; Some (ucl_object_fromstring s).
Definition export_int (field : Z) : option ucl := if field =? 0 then None else Some (UInt field).

Definition meta_exports (meta : pkg_repo_meta) : list (option ucl * string) :=
  [(export_int (meta_version meta), "version"); (export_string (maintainer meta), "maintainer"); (export_string (source meta), "source");
   (export_string (Some (packing_format_to_string (packing_format meta))), "packing_format");
   (export_string (pkg_checksum_type_to_string (digest_format meta)), "digest_format");
   (export_string (digests meta), "digests"); (export_string (manifests meta), "manifests"); (export_string (m_conflicts meta), "conflicts");
   (export_string (fulldb meta), "fulldb"); (export_string (filesite meta), "filesite");
   (export_string (digests_archive meta), "digests_archive"); (export_string (manifests_archive meta), "manifests_archive");
   (export_string (conflicts_archive meta), "conflicts_archive"); (export_string (fulldb_archive meta), "fulldb_archive");
   (export_string (filesite_archive meta), "filesite_archive"); (export_string (source_identifier meta), "source_identifier");
   (export_int (revision meta), "revision"); (export_int (eol meta), "eol")]%string.

Definition pkg_repo_meta_to_ucl (meta : pkg_repo_meta) : list (cstring * ucl) :=
  fold_left (fun result f => ucl_object_insert_key result f.1 (str f.2)) (meta_exports meta) [].

(** META_SPECIAL_FILE *)
Definition special_file (special : bool) (file : cstring) (field : option cstring) : bool :=
  special || match field with None => false | Some f => streq file f end.

Definition pkg_repo_meta_is_special_file (file : cstring) (meta : pkg_repo_meta) : bool :=
  let special := special_file false file (digests_archive meta) in
  let special := special_file special file (manifests_archive meta) in
  let special := special_file special file (filesite_archive meta) in
  let special := special_file special file (conflicts_archive meta) in
  special_file special file (fulldb_archive meta).

(** ** Writing and reading again *)

Lemma exports_omap fs top : fold_left (fun result f => ucl_object_insert_key result f.1 (str f.2)) fs top =
  top ++ omap (fun f : option ucl * string => o ← f.1; Some (str f.2, o)) fs.
Proof.
  revert top. induction fs as [|[o k] fs IH]; intros top; cbn; [by rewrite app_nil_r|].
  rewrite IH. destruct o; cbn; [by rewrite <- app_assoc|done].
Qed.

Lemma str_inj k k' : str k = str k' -> k = k'.
Proof. intros H. rewrite <- (String.string_of_list_ascii_of_string k), <- (String.string_of_list_ascii_of_string k'). by f_equal. Qed.

Lemma find_not_exported fs k : k ∉ map snd fs ->
  ucl_object_find_key (omap (fun f : option ucl * string => o ← f.1; Some (str f.2, o)) fs) (str k) = None.
Proof.
  induction fs as [|[o k'] fs IH]; [done|]. intros [Hne Hk]%not_elem_of_cons. cbn in Hne. destruct o; cbn; [|by apply IH].
  unfold ucl_object_find_key in *. cbn. rewrite bool_decide_eq_false_2 by (intros ?%str_inj; by subst). by apply IH.
Qed.

Lemma find_exported fs k o : NoDup (map snd fs) -> (o, k) ∈ fs ->
  ucl_object_find_key (omap (fun f : option ucl * string => o ← f.1; Some (str f.2, o)) fs) (str k) = o.
Proof.
  induction fs as [|[o' k'] fs IH]; intros Hn Hin; [by apply elem_of_nil in Hin|].
  cbn [map snd] in Hn. apply NoDup_cons in Hn as [Hk Hn]. apply elem_of_cons in Hin as [[= -> ->]|Hin].
  - destruct o'; cbn; [|by apply find_not_exported]. unfold ucl_object_find_key. cbn. by rewrite bool_decide_eq_true_2.
  - assert (k' <> k) as Hne by (intros ->; apply Hk, list_elem_of_fmap; by exists (o, k)).
    destruct o'; cbn; [|by apply IH]. unfold ucl_object_find_key in *. cbn. rewrite bool_decide_eq_false_2 by (intros ?%str_inj; by subst).
    by apply IH.
Qed.

(** Text that UCL need not escape. *)
Definition plain (s : option cstring) : Prop := forall t, s = Some t -> forallb (fun c => negb (json_unsafe c)) t = true.

(** Metadata that can be written: version 1, a known digest, no keys, and the
    names that have a default. *)
Record writable (meta : pkg_repo_meta) : Prop := mk_writable {
  wr_version : meta_version meta = 1;
  wr_digest : digest_format meta <> PKG_HASH_TYPE_UNKNOWN;
  wr_keys : meta_keys meta = table_empty;
  wr_named : Forall is_Some [digests meta; digests_archive meta; manifests meta; manifests_archive meta; filesite meta; filesite_archive meta];
  wr_plain : Forall plain [maintainer meta; source meta; digests meta; digests_archive meta; manifests meta; manifests_archive meta;
    filesite meta; filesite_archive meta; m_conflicts meta; conflicts_archive meta; fulldb meta; fulldb_archive meta; source_identifier meta] }.

Lemma export_plain s : plain s -> export_string s = UString <$> s.
Proof. intros Hs. unfold export_string. destruct s as [t|]; [|done]. cbn. unfold ucl_object_fromstring, ucl_object_fromstring_common. by rewrite escape_safe by by apply Hs. Qed.

Section roundtrip.
Context (key_bytes : pkg_repo_meta_key -> cstring) (meta : pkg_repo_meta).

Lemma exports_names : NoDup (map snd (meta_exports meta)).
Proof. apply (bool_decide_unpack _). vm_compute. exact I. Qed.

Lemma to_ucl_find k o : (o, k) ∈ meta_exports meta -> ucl_object_find_key (pkg_repo_meta_to_ucl meta) (str k) = o.
Proof. intros H. unfold pkg_repo_meta_to_ucl. rewrite exports_omap. apply find_exported; [apply exports_names|done]. Qed.

Ltac in_exports := unfold meta_exports; repeat (apply elem_of_cons; first [left; reflexivity|right]).

Lemma extract_exported k s : (export_string s, k) ∈ meta_exports meta -> plain s -> is_Some s -> forall old,
  extract_string (pkg_repo_meta_to_ucl meta) k old = s.
Proof. intros Hin Hp [t ->] old. unfold extract_string. rewrite (to_ucl_find _ _ Hin), export_plain by done. done. Qed.

Lemma extract_absent k s : (export_string s, k) ∈ meta_exports meta -> plain s ->
  extract_string (pkg_repo_meta_to_ucl meta) k None = s.
Proof. intros Hin Hp. unfold extract_string. rewrite (to_ucl_find _ _ Hin), export_plain by done. by destruct s. Qed.

Lemma extract_exported_int k z : (export_int z, k) ∈ meta_exports meta -> extract_int (pkg_repo_meta_to_ucl meta) k 0 = z.
Proof.
  intros Hin. unfold extract_int. rewrite (to_ucl_find _ _ Hin). unfold export_int. by destruct (Z.eqb_spec z 0) as [->|].
Qed.

Lemma no_certs : under (pkg_repo_meta_to_ucl meta) "cert" = [].
Proof.
  unfold under. rewrite siblings_nil; [done|]. unfold pkg_repo_meta_to_ucl. rewrite exports_omap. cbn [app]. intros Hin.
  apply list_elem_of_fmap in Hin as ([k o] & Hk & Hin). apply list_elem_of_omap in Hin as ([o' k'] & Hin & He). cbn [mbind option_bind fst snd] in He.
  destruct o' as [u|]; [|done]. injection He as <- <-. apply str_inj in Hk. subst k'.
  assert ("cert"%string ∈ map snd (meta_exports meta)) as Hc by (apply list_elem_of_fmap; by exists (Some u, "cert"%string)).
  apply (bool_decide_pack _) in Hc. vm_compute in Hc. exact Hc.
Qed.

(** C32: The metadata of a repository, written as an object and loaded again:
    what is loaded is what was written, when the parser gives the object back
    and the schema accepts it. *)
Theorem repo_meta_roundtrip (ucl_parser : cstring -> option (list (cstring * ucl))) (ucl_object_validate : list (cstring * ucl) -> bool)
  (text : cstring) (Hm : writable meta) (Hp : ucl_parser text = Some (pkg_repo_meta_to_ucl meta))
  (Hv : ucl_object_validate (pkg_repo_meta_to_ucl meta) = true) :
  pkg_repo_meta_load key_bytes ucl_parser ucl_object_validate (Some text) = Some (EPKG_OK, Some meta).
Proof.
  destruct Hm as [Hver Hdig Hkeys Hnamed Hplain]. unfold pkg_repo_meta_load. cbn [mbind option_bind]. rewrite Hp.
  assert (pkg_repo_meta_version (pkg_repo_meta_to_ucl meta) = 1) as ->.
  { unfold pkg_repo_meta_version. rewrite (to_ucl_find "version" (export_int (meta_version meta))) by in_exports. by rewrite Hver. }
  cbn [Z.eqb Pos.eqb]. rewrite Hv. cbn [negb]. unfold pkg_repo_meta_parse. rewrite no_certs. cbn [fold_opt mbind option_bind].
  repeat (apply Forall_cons in Hnamed as [? Hnamed]). repeat (apply Forall_cons in Hplain as [? Hplain]). clear Hnamed Hplain.
  do 3 f_equal.
  assert (export_string (Some (packing_format_to_string (packing_format meta))) = Some (UString (packing_format_to_string (packing_format meta)))) as Epack
    by (destruct (packing_format meta); reflexivity).
  rewrite (to_ucl_find "packing_format" _ ltac:(in_exports)), Epack.
  assert (exists t, pkg_checksum_type_to_string (digest_format meta) = Some t /\ export_string (Some t) = Some (UString t) /\
    pkg_checksum_type_from_string t = digest_format meta) as (t & Et & Ex & Ef).
  { destruct (digest_format meta); [| |done]; eexists; (split; [reflexivity|]); split; reflexivity. }
  rewrite (to_ucl_find "digest_format" _ ltac:(in_exports)), Et, Ex, Ef.
  assert (packing_format_from_string (Some (packing_format_to_string (packing_format meta))) = packing_format meta) as -> by (destruct (packing_format meta); reflexivity).
  cbn [pkg_repo_meta_set_default maintainer source digests digests_archive manifests manifests_archive filesite filesite_archive m_conflicts
    conflicts_archive fulldb fulldb_archive source_identifier revision eol].
  rewrite (extract_absent "maintainer" (maintainer meta)), (extract_absent "source" (source meta)),
    (extract_exported "digests" (digests meta)), (extract_exported "digests_archive" (digests_archive meta)),
    (extract_exported "manifests" (manifests meta)), (extract_exported "manifests_archive" (manifests_archive meta)),
    (extract_exported "filesite" (filesite meta)), (extract_exported "filesite_archive" (filesite_archive meta)),
    (extract_absent "conflicts" (m_conflicts meta)), (extract_absent "conflicts_archive" (conflicts_archive meta)),
    (extract_absent "fulldb" (fulldb meta)), (extract_absent "fulldb_archive" (fulldb_archive meta)),
    (extract_absent "source_identifier" (source_identifier meta)), (extract_exported_int "revision" (revision meta)),
    (extract_exported_int "eol" (eol meta)); try done; try in_exports.
  rewrite <- Hver, <- Hkeys. by destruct meta.
Qed.
End roundtrip.

Lemma repo_meta_roundtrip_witness :
  pkg_repo_meta_load (fun _ => []) (fun _ => Some (pkg_repo_meta_to_ucl pkg_repo_meta_default)) (fun _ => true) (Some (str "text")) =
    Some (EPKG_OK, Some pkg_repo_meta_default).
Proof.
  apply (repo_meta_roundtrip (fun _ => []) pkg_repo_meta_default (fun _ => Some (pkg_repo_meta_to_ucl pkg_repo_meta_default)) (fun _ => true));
    [|reflexivity|reflexivity].
  split; [reflexivity|discriminate|reflexivity| |].
  - repeat (apply Forall_cons; split; [eexists; reflexivity|]). apply Forall_nil; exact I.
  - repeat (apply Forall_cons; split; [intros t; vm_compute; intros Ht; first [discriminate Ht|injection Ht as <-; reflexivity]|]). apply Forall_nil; exact I.
Defined.

(** A file is special when it is one of the archives. *)
Lemma is_special_file_spec file meta : pkg_repo_meta_is_special_file file meta = true <->
  Some file ∈ [digests_archive meta; manifests_archive meta; filesite_archive meta; conflicts_archive meta; fulldb_archive meta].
Proof.
  assert (forall b f, special_file b file f = true <-> b = true \/ Some file = f) as H.
  { intros b f. unfold special_file. rewrite orb_true_iff. destruct f as [f|]; [|by split; intros [?|?]; first [left; done|done]].
    rewrite streq_spec, bool_decide_eq_true. assert (file = f <-> Some file = Some f) as <- by (split; congruence). done. }
  unfold pkg_repo_meta_is_special_file. rewrite !H, !elem_of_cons, elem_of_nil. intuition congruence.
Qed.
