(* ===== verification/RepoSign.v ===== *)
(** * Signatures of a repository (libpkg/pkg_repo.c, libpkg/pkg_repo_create.c,
    libpkg/rsa.c)

    A repository is a set of archives, each with a signature: one "signature"
    made with an RSA key, or for a file "name" the files "name.sig" and
    "name.pub".  A process of its own reads the archive and writes what it finds
    to a socket; the signatures in that text are parsed, the certificates
    compared with the fingerprints that are trusted and revoked, and the file is
    verified.

    The archive is the list of its entries, with [None] for data that cannot be
    read; the socket takes what is written to it.  RSA, the files with
    fingerprints, the file system and the network are parameters.  [None] is a
    byte outside of its buffer that is read, or no more fuel. *)
From S2P Require Import Prelude CString UtHash Pkg Checksum Ucl Fetch RepoMeta.

(** ** The text of the socket *)

Inductive signature_t := SIG_NONE | SIG_PUBKEY | SIG_FINGERPRINT.

#[export] Instance signature_t_eq_dec : EqDecision signature_t.
Proof. solve_decision. Defined.

(** An int in the order of bytes of the machine, which is little-endian. *)
Definition int_bytes (n : nat) : cstring := map chr (le_digits 256 4 (Z.of_nat n)).

Definition int_value (b : cstring) : Z :=
  let v := le_value 256 (map code b) in if v <? 2 ^ 31 then v else v - 2 ^ 32.

Definition archive_entry : Type := cstring * option cstring.

(** The last bytes are compared, where the name has that many. *)
Definition pkg_repo_file_has_ext (path : cstring) (ext : string) : option bool :=
  let n := length path in
  let l := length (str ext) in
  if (n <? l)%nat then None else Some (streq (drop (n - l) path) (str ext)).

(** The name without the extension, in the buffer key. *)
Definition key_name (path : cstring) : cstring := snprintf MAXPATHLEN (take (length path - 4) path).

(** What writev writes. *)
Definition message (t : ascii) (key sig : cstring) : cstring :=
  t :: int_bytes (length key) ++ key ++ int_bytes (length sig) ++ sig.

(** The processes: their exit status, the text, and the data of the file. *)
Fixpoint pkg_repo_meta_extract_signature_fingerprints (fname : cstring) (a : list archive_entry) (rc : pkg_error_t) (out file : cstring)
  : option (pkg_error_t * cstring * cstring) :=
  match a with
  | [] => Some (rc, out, file)
  | (path, data) :: a =>
      sig ← pkg_repo_file_has_ext path ".sig";
      pub ← (if sig then Some false else pkg_repo_file_has_ext path ".pub");
      if sig || pub then
        match data with
        | None => Some (EPKG_FATAL, out, file)
        | Some d => pkg_repo_meta_extract_signature_fingerprints fname a EPKG_OK (out ++ message (chr (if sig then 0 else 1)) (key_name path) d) file
        end
      else if streq path fname then
        match data with
        | None => Some (EPKG_FATAL, out, file)
        | Some d => pkg_repo_meta_extract_signature_fingerprints fname a rc out (file ++ d)
        end
      else pkg_repo_meta_extract_signature_fingerprints fname a rc out file
  end.

Fixpoint pkg_repo_meta_extract_signature_pubkey (need_sig : bool) (fname : cstring) (a : list archive_entry) (rc : pkg_error_t) (out file : cstring)
  : pkg_error_t * cstring * cstring :=
  match a with
  | [] => (rc, out, file)
  | (path, data) :: a =>
      if need_sig && streq path (str "signature") then
        match data with
        | None => (EPKG_FATAL, out, file)
        | Some d => pkg_repo_meta_extract_signature_pubkey need_sig fname a EPKG_OK (out ++ d) file
        end
      else if streq path fname then
        match data with
        | None => (EPKG_FATAL, out, file)
        | Some d => pkg_repo_meta_extract_signature_pubkey need_sig fname a (if need_sig then rc else EPKG_OK) out (file ++ d)
        end
      else pkg_repo_meta_extract_signature_pubkey need_sig fname a rc out file
  end.

(** ** Parsing it *)

(** A signature and a certificate, with their lengths. *)
Record sig_cert := mk_sig_cert { sc_name : cstring; sc_sig : option cstring; sc_cert : option cstring; trusted : bool }.

Inductive fp_parse := fp_parse_type | fp_parse_flen | fp_parse_file | fp_parse_siglen | fp_parse_sig.

(** What [s] points to: an element of the table, or a new one. *)
Inductive sig_ref := Old (i : nat) | New (s : sig_cert).

(** The variables of the loop; [rd_p] is the text from [p] to [end]. *)
Record reading := mk_reading {
  rd_state : fp_parse; rd_p : cstring; rd_type : Z; rd_len : Z; rd_s : option sig_ref; rd_sc : table sig_cert }.

Definition read (n : nat) (p : cstring) : option (cstring * cstring) :=
  if (n <=? length p)%nat then Some (take n p, drop n p) else None.

Definition truncated (p : cstring) (len : Z) : bool := (Z.of_nat (length p) <? len) || (len <=? 0).

Definition set_data (ty : Z) (data : cstring) (s : sig_cert) : sig_cert :=
  if ty =? 0 then mk_sig_cert (sc_name s) (Some data) (sc_cert s) (trusted s)
  else mk_sig_cert (sc_name s) (sc_sig s) (Some data) (trusted s).

Definition store (sc : table sig_cert) (ty : Z) (data : cstring) (s : sig_ref) : option (table sig_cert) :=
  match s with
  | Old i => v ← hash_get sc i; Some (hash_update sc i (set_data ty data v))
  | New v => Some (hash_add sc (sc_name v) (set_data ty data v))
  end.

(** free(s): an element of the table stays linked. *)
Definition freed_element (s : sig_ref) : option nat := match s with Old i => Some i | New _ => None end.

(** A turn; [inl] is an error, with the element of the table that is freed. *)
Definition parse_step (r : reading) : option (pkg_error_t * option nat + reading) :=
  let p := rd_p r in
  match rd_state r with
  | fp_parse_type =>
      '(b, p) ← read 1 p;
      let type := code (deref b) in
      if negb (type =? 0) && negb (type =? 1) then Some (inl (EPKG_FATAL, None))
      else Some (inr (mk_reading fp_parse_flen p type (rd_len r) None (rd_sc r)))
  | fp_parse_flen =>
      if (length p <? 4)%nat then Some (inl (EPKG_FATAL, None))
      else
        '(b, p) ← read 4 p;
        Some (inr (mk_reading fp_parse_file p (rd_type r) (int_value b) None (rd_sc r)))
  | fp_parse_file =>
      let len := rd_len r in
      if truncated p len then Some (inl (EPKG_FATAL, None))
      else if Z.of_nat MAXPATHLEN <=? len then Some (inl (EPKG_FATAL, None))
      else
        '(key, p) ← read (Z.to_nat len) p;
        let s := match hash_find (rd_sc r) key with
                 | Some i => Old i
                 | None => New (mk_sig_cert (c_str (take (MAXPATHLEN - 1) key)) None None false)
                 end in
        Some (inr (mk_reading fp_parse_siglen p (rd_type r) len (Some s) (rd_sc r)))
  | fp_parse_siglen =>
      match rd_s r with
      | None => Some (inl (EPKG_FATAL, None))
      | Some s =>
          if (length p <? 4)%nat then Some (inl (EPKG_FATAL, None))
          else
            '(b, p) ← read 4 p;
            Some (inr (mk_reading fp_parse_sig p (rd_type r) (int_value b) (Some s) (rd_sc r)))
      end
  | fp_parse_sig =>
      match rd_s r with
      | None => Some (inl (EPKG_FATAL, None))
      | Some s =>
          let len := rd_len r in
          if truncated p len then Some (inl (EPKG_FATAL, freed_element s))
          else
            '(sig, p) ← read (Z.to_nat len) p;
            sc ← store (rd_sc r) (rd_type r) sig s;
            Some (inr (mk_reading fp_parse_type p (rd_type r) len (Some s) sc))
      end
  end.

(** Every turn takes a byte, so more turns than bytes are enough.  The last
    component is the element of the table that was freed. *)
Fixpoint parse_loop (fuel : nat) (r : reading) : option (pkg_error_t * table sig_cert * option nat) :=
  match rd_p r, fuel with
  | [], _ => Some (EPKG_OK, rd_sc r, None)
  | _, O => None
  | _, S fuel =>
      next ← parse_step r;
      match next with inl (rc, freed) => Some (rc, rd_sc r, freed) | inr r => parse_loop fuel r end
  end.

Definition pkg_repo_parse_sigkeys (text : cstring) (sc : table sig_cert) : option (pkg_error_t * table sig_cert * option nat) :=
  parse_loop (length text) (mk_reading fp_parse_type text 0 0 None sc).

(** ** Fingerprints *)

Record fingerprint := mk_fingerprint { f_hash : cstring }.

Definition BUFSIZ : nat := 1024.

(** The keys of the repository that the loops over it use: a table that was
    not loaded is empty. *)
Record pkg_repo := mk_repo {
  repo_name : cstring; repo_url : cstring; pubkey_file : option cstring; signature_type : signature_t; fingerprints : cstring;
  trusted_fp : table fingerprint; revoked_fp : table fingerprint; meta : option pkg_repo_meta }.

Definition set_trusted (r : pkg_repo) (t : table fingerprint) : pkg_repo :=
  mk_repo (repo_name r) (repo_url r) (pubkey_file r) (signature_type r) (fingerprints r) t (revoked_fp r) (meta r).
Definition set_revoked (r : pkg_repo) (t : table fingerprint) : pkg_repo :=
  mk_repo (repo_name r) (repo_url r) (pubkey_file r) (signature_type r) (fingerprints r) (trusted_fp r) t (meta r).
Definition set_meta (r : pkg_repo) (m : pkg_repo_meta) : pkg_repo :=
  mk_repo (repo_name r) (repo_url r) (pubkey_file r) (signature_type r) (fingerprints r) (trusted_fp r) (revoked_fp r) (Some m).

(** function and fingerprint: the last of each that is a string. *)
Definition fingerprint_field (fields : option cstring * option cstring) (cur : item) : option cstring * option cstring :=
  match i_val cur, ucl_object_key cur with
  | UString s, Some key =>
      if strcasecmp key (str "function") =? 0 then (Some s, fields.2)
      else if strcasecmp key (str "fingerprint") =? 0 then (fields.1, Some s)
      else fields
  | _, _ => fields
  end.

Definition pkg_repo_parse_fingerprint (obj : ucl) : option fingerprint :=
  let '(function, fp) := fold_left fingerprint_field (ucl_iterate_object (top_item obj) true) (None, None) in
  match fp, function with
  | Some fp, Some function =>
      if strcasecmp function (str "sha256") =? 0 then Some (mk_fingerprint (take (BUFSIZ - 1) fp)) else None
  | _, _ => None
  end.

Section repo.
(** The files of a directory, in order; what libucl reads from a file; stat. *)
Context (opendir : cstring -> option (list cstring)) (ucl_file : cstring -> option ucl) (stat : cstring -> bool).

Definition pkg_repo_load_fingerprint (dir filename : cstring) : option fingerprint :=
  match ucl_file (snprintf MAXPATHLEN (dir ++ SLASH :: filename)) with
  | Some (UObject l) => pkg_repo_parse_fingerprint (UObject l)
  | _ => None
  end.

Definition add_fingerprint (path : cstring) (f : table fingerprint) (name : cstring) : table fingerprint :=
  if streq name (str ".") || streq name (str "..") then f
  else match pkg_repo_load_fingerprint path name with Some finger => hash_add f (f_hash finger) finger | None => f end.

Definition pkg_repo_load_fingerprints_from_path (path : cstring) : pkg_error_t * table fingerprint :=
  match opendir path with
  | None => (EPKG_FATAL, table_empty)
  | Some names => (EPKG_OK, fold_left (add_fingerprint path) names table_empty)
  end.

Definition pkg_repo_load_fingerprints (r : pkg_repo) : pkg_error_t * pkg_repo :=
  let '(rc, t) := pkg_repo_load_fingerprints_from_path (snprintf MAXPATHLEN (fingerprints r ++ str "/trusted")) in
  let r := set_trusted r t in
  match rc with
  | EPKG_OK =>
      if Nat.eqb (hash_count t) 0 then (EPKG_FATAL, r)
      else
        let path := snprintf MAXPATHLEN (fingerprints r ++ str "/revoked") in
        if stat path then
          let '(rc, t) := pkg_repo_load_fingerprints_from_path path in
          (match rc with EPKG_OK => EPKG_OK | _ => EPKG_FATAL end, set_revoked r t)
        else (EPKG_OK, r)
  | _ => (EPKG_FATAL, r)
  end.

(** ** Certificates *)

Context (sha256 : cstring -> list Z).

Definition fingerprint_of (cert : cstring) : cstring := sha256_hash (sha256 cert).

(** The certificate of a signature: its own, or a key of the metadata. *)
Definition cert_of (r : pkg_repo) (s : sig_cert) : option cstring :=
  match sc_sig s, sc_cert s with
  | None, _ => None
  | Some _, Some cert => Some cert
  | Some _, None => m ← meta r; mk ← hash_lookup (meta_keys m) (sc_name s); Some (pubkey mk)
  end.

(** The element at [i], and whether it is good; [None] when the check fails. *)
Definition check_one (r : pkg_repo) (s : sig_cert) : sig_cert * option bool :=
  match cert_of r s with
  | None => (s, None)
  | Some cert =>
      let s := mk_sig_cert (sc_name s) (sc_sig s) (Some cert) false in
      match hash_find (revoked_fp r) (fingerprint_of cert) with
      | Some _ => (s, None)
      | None =>
          match hash_find (trusted_fp r) (fingerprint_of cert) with
          | Some _ => (mk_sig_cert (sc_name s) (sc_sig s) (Some cert) true, Some true)
          | None => (s, Some false)
          end
      end
  end.

(** The elements in order, from [i] on. *)
Fixpoint check_certs (n i : nat) (r : pkg_repo) (sc : table sig_cert) (nbgood : nat) : bool * table sig_cert :=
  match n with
  | O => (negb (Nat.eqb nbgood 0), sc)
  | S n =>
      match hash_get sc i with
      | None => (false, sc)
      | Some s =>
          let '(s, good) := check_one r s in
          let sc := hash_update sc i s in
          match good with
          | None => (false, sc)
          | Some g => check_certs n (S i) r sc (if g then S nbgood else nbgood)
          end
      end
  end.

Definition pkg_repo_check_fingerprint (r : pkg_repo) (sc : table sig_cert) : bool * pkg_repo * table sig_cert :=
  if Nat.eqb (hash_count sc) 0 then (false, r, sc)
  else
    let '(rc, r) := if Nat.eqb (hash_count (trusted_fp r)) 0 then pkg_repo_load_fingerprints r else (EPKG_OK, r) in
    match rc with
    | EPKG_OK => let '(ok, sc) := check_certs (hash_count sc) 0 r sc 0 in (ok, r, sc)
    | _ => (false, r, sc)
    end.

(** ** RSA (rsa.c) *)

(** Keys, public and private; the text of a key; RSA_verify and RSA_sign, with
    the name of the digest and the length that is claimed; and whether a process
    can be started. *)
Context {K PK : Type} (PEM_read_bio_RSA_PUBKEY : cstring -> option K) (RSA_verify : string -> cstring -> cstring -> Z -> K -> bool)
  (RSA_sign : string -> cstring -> PK -> option cstring) (can_fork : bool).

Definition verdict (b : bool) : pkg_error_t := if b then EPKG_OK else EPKG_FATAL.

(** The digest of the text of the digest. *)
Definition rsa_verify_cert_cb (content key sig : cstring) : pkg_error_t :=
  let hash := map chr (sha256 (sha256_hash (sha256 content))) in
  match PEM_read_bio_RSA_PUBKEY key with
  | None => EPKG_FATAL
  | Some rsa => verdict (RSA_verify "sha256" hash sig (Z.of_nat (length sig)) rsa)
  end.

(** The text of the digest, with its NUL. *)
Definition rsa_verify_cb (content key sig : cstring) (siglen : Z) : pkg_error_t :=
  match PEM_read_bio_RSA_PUBKEY key with
  | None => EPKG_FATAL
  | Some rsa => verdict (RSA_verify "sha1" (sha256_hash (sha256 content) ++ [NUL]) sig siglen rsa)
  end.

(** [content] is [None] when the file cannot be opened. *)
Definition rsa_verify_cert (content : option cstring) (key sig : cstring) : pkg_error_t :=
  match content with
  | Some content => if can_fork then rsa_verify_cert_cb content key sig else EPKG_FATAL
  | None => EPKG_FATAL
  end.

(** [sig_len] is an unsigned int; [key] is the content of the file. *)
Definition rsa_verify (content key : option cstring) (sig : cstring) (sig_len : Z) : pkg_error_t :=
  match key, content with
  | Some key, Some content => if can_fork then rsa_verify_cb content key sig (sig_len mod 2 ^ 32) else EPKG_FATAL
  | _, _ => EPKG_FATAL
  end.

Definition rsa_sign (content : cstring) (rsa : PK) : pkg_error_t * cstring :=
  match RSA_sign "sha1" (sha256_hash (sha256 content) ++ [NUL]) rsa with
  | Some sig => (EPKG_OK, sig)
  | None => (EPKG_FATAL, [])
  end.

(** ** Archives *)

(** Where the file goes: the name of a file, which can be opened or not, or a
    descriptor. *)
Inductive destination := ToPath (can_open : bool) | ToFd.

(** The answer, the file, the signatures the caller gets (none when the call
    fails) and the repository. *)
Definition extraction : Type := pkg_error_t * option cstring * table sig_cert * pkg_repo.

(** With the file open. *)
Definition extract_open (a : list archive_entry) (file : cstring) (r : pkg_repo) : option extraction :=
  match signature_type r with
  | SIG_PUBKEY =>
      let '(rc, sig, data) := if can_fork then pkg_repo_meta_extract_signature_pubkey true file a EPKG_FATAL [] [] else (EPKG_FATAL, [], []) in
      let sc := match rc with
                | EPKG_OK => hash_add table_empty (str "signature") (mk_sig_cert (str "signature") (Some sig) None false)
                | _ => table_empty
                end in
      Some (EPKG_OK, Some data, sc, r)
  | SIG_FINGERPRINT =>
      '(rc, text, data) ← (if can_fork then pkg_repo_meta_extract_signature_fingerprints file a EPKG_FATAL [] [] else Some (EPKG_FATAL, [], []));
      match rc with
      | EPKG_OK =>
          if Nat.eqb (length text) 0 then Some (EPKG_FATAL, Some data, table_empty, r)
          else
            '(rc, sc, _) ← pkg_repo_parse_sigkeys text table_empty;
            match rc with
            | EPKG_FATAL => Some (EPKG_FATAL, Some data, table_empty, r)
            | _ =>
                let '(ok, r, sc) := pkg_repo_check_fingerprint r sc in
                Some (verdict ok, Some data, if ok : bool then sc else table_empty, r)
            end
      | _ => Some (EPKG_FATAL, Some data, table_empty, r)
      end
  | SIG_NONE =>
      let '(rc, _, data) := if can_fork then pkg_repo_meta_extract_signature_pubkey false file a EPKG_FATAL [] [] else (EPKG_FATAL, [], []) in
      Some (verdict (bool_decide (rc = EPKG_OK)), Some data, table_empty, r)
  end.

Definition pkg_repo_archive_extract_archive (a : list archive_entry) (file : cstring) (dest : destination) (r : pkg_repo) : option extraction :=
  match dest with
  | ToPath false => Some (EPKG_FATAL, None, table_empty, r)
  | _ => extract_open a file r
  end.

(** A trusted certificate with which the file verifies. *)
Definition good_signature (content : option cstring) (s : sig_cert) : bool :=
  match sc_cert s, sc_sig s with
  | Some cert, Some sig => bool_decide (rsa_verify_cert content cert sig = EPKG_OK) && trusted s
  | _, _ => false
  end.

(** The key of the repository; [None]: cannot be read. *)
Context (file_to_buffer : cstring -> option cstring).

Definition removed_file (dest : destination) (rc : pkg_error_t) (content : option cstring) : option cstring :=
  match rc, dest with EPKG_OK, _ | _, ToFd => content | _, ToPath _ => None end.

Definition pkg_repo_archive_extract_check_archive (a : list archive_entry) (file : cstring) (dest : destination) (r : pkg_repo)
  : option (pkg_error_t * option cstring * pkg_repo) :=
  '(rc, content, sc, r) ← pkg_repo_archive_extract_archive a file dest r;
  match rc with
  | EPKG_OK =>
      rc ← match signature_type r with
           | SIG_PUBKEY =>
               match head (values sc) with
               | None => Some EPKG_FATAL
               | Some s =>
                   sig ← sc_sig s; key ← pubkey_file r;
                   Some (rsa_verify content (file_to_buffer key) sig (Z.of_nat (length sig) - 1))
               end
           | SIG_FINGERPRINT => Some (verdict (existsb (good_signature content) (values sc)))
           | SIG_NONE => Some EPKG_OK
           end;
      let rc := match rc with EPKG_OK => EPKG_OK | _ => EPKG_FATAL end in
      Some (rc, removed_file dest rc content, r)
  | _ => Some (EPKG_FATAL, content, r)
  end.

(** ** Metadata *)

(** Downloads: whether a temporary file can be made, and what libarchive finds
    in what was downloaded; the text of a file as libucl reads it; a schema. *)
Context (mkstemp : bool) (pkg_fetch_file_to_fd : cstring -> pkg_error_t * list archive_entry)
  (key_bytes : pkg_repo_meta_key -> cstring) (ucl_parser : cstring -> option (list (cstring * ucl))) (ucl_object_validate : list (cstring * ucl) -> bool)
  (can_mmap : cstring -> bool).

(** The name of a file that is downloaded has no extension of its own. *)
Definition remote_url (r : pkg_repo) (filename extension : cstring) : cstring :=
  let name := match strrchr filename "." with
              | Some ext => take (Nat.min (MAXPATHLEN - 1) (length filename - length ext)) filename
              | None => filename
              end in
  snprintf MAXPATHLEN (repo_url r ++ SLASH :: name ++ "."%char :: extension).

Definition pkg_repo_fetch_remote_tmp (r : pkg_repo) (filename extension : cstring) : pkg_error_t * option (list archive_entry) :=
  if negb mkstemp then (EPKG_FATAL, None)
  else
    let '(rc, a) := pkg_fetch_file_to_fd (remote_url r filename extension) in
    match rc with EPKG_OK => (EPKG_OK, Some a) | _ => (rc, None) end.

Definition pkg_repo_fetch_remote_extract_tmp (r : pkg_repo) (filename : cstring) (can_make : bool)
  : option (pkg_error_t * option cstring * pkg_repo) :=
  m ← meta r;
  match pkg_repo_fetch_remote_tmp r filename (packing_format_to_string (packing_format m)) with
  | (rc, None) => Some (rc, None, r)
  | (_, Some a) =>
      if negb can_make then Some (EPKG_FATAL, None, r)
      else
        '(rc, content, r) ← pkg_repo_archive_extract_check_archive a filename ToFd r;
        match rc with EPKG_OK => Some (EPKG_OK, content, r) | _ => Some (EPKG_FATAL, None, r) end
  end.

(** The key of a name in the text: the code, and what is written, with a NUL. *)
Definition pkg_repo_meta_extract_pubkey (content name : cstring) : pkg_error_t * cstring :=
  match ucl_parser content with
  | None => (EPKG_FATAL, [])
  | Some top =>
      match siblings (str "cert") top with
      | [] => (EPKG_FATAL, [])
      | _ =>
          let field cur key := ucl_object_find_key (object_fields cur) (str key) ≫= ucl_object_tostring in
          let found := find (fun cur => bool_decide (field cur "name" = Some name) && bool_decide (is_Some (field cur "data"))) (under top "cert") in
          (EPKG_OK, match found ≫= (fun cur => field cur "data") with Some data => data ++ [NUL] | None => [] end)
      end
  end.

(** The certificates of signatures that have none; [None]: the process fails. *)
Fixpoint load_certs (n i : nat) (content : cstring) (sc : table sig_cert) : option (table sig_cert) :=
  match n with
  | O => Some sc
  | S n =>
      s ← hash_get sc i;
      match sc_sig s, default [] (sc_cert s) with
      | Some (_ :: _), [] =>
          if negb can_fork then None
          else
            let '(rc, cert) := pkg_repo_meta_extract_pubkey content (sc_name s) in
            match rc with
            | EPKG_OK => load_certs n (S i) content (hash_update sc i (mk_sig_cert (sc_name s) (sc_sig s) (Some cert) (trusted s)))
            | _ => None
            end
      | _, _ => load_certs n (S i) content sc
      end
  end.

(** The label load_meta: the answer, the file, the repository. *)
Definition load_meta (file : option cstring) (r : pkg_repo) : option (pkg_error_t * option cstring * pkg_repo) :=
  '(rc, nmeta) ← pkg_repo_meta_load key_bytes ucl_parser ucl_object_validate file;
  match rc, nmeta with
  | EPKG_OK, Some m => Some (EPKG_OK, file, set_meta r m)
  | _, _ => Some (rc, file, r)
  end.

(** Of a repository with fingerprints, and of one without signatures. *)
Definition check_meta (content : cstring) (sc : table sig_cert) (r : pkg_repo) : pkg_error_t * pkg_repo :=
  match signature_type r with
  | SIG_FINGERPRINT =>
      match load_certs (hash_count sc) 0 content sc with
      | None => (EPKG_FATAL, r)
      | Some sc =>
          let '(ok, r, sc) := pkg_repo_check_fingerprint r sc in
          if ok then (verdict (existsb (good_signature (Some content)) (values sc)), r) else (EPKG_FATAL, r)
      end
  | _ => (EPKG_OK, r)
  end.

(** [old] is the file that is there, [can_unlink] whether it can be removed and
    [dest] where the new one goes. *)
Definition pkg_repo_fetch_meta (old : option cstring) (can_unlink : bool) (dest : destination) (r : pkg_repo)
  : option (pkg_error_t * option cstring * pkg_repo) :=
  match pkg_repo_fetch_remote_tmp r (str "meta") (str "txz") with
  | (rc, None) => Some (rc, old, r)
  | (_, Some a) =>
      if negb can_unlink then Some (EPKG_FATAL, old, r)
      else
        match signature_type r with
        | SIG_PUBKEY =>
            '(rc, content, r) ← pkg_repo_archive_extract_check_archive a (str "meta") dest r;
            match rc with EPKG_OK => load_meta content r | _ => Some (rc, content, r) end
        | _ =>
            '(rc, content, sc, r) ← pkg_repo_archive_extract_archive a (str "meta") dest r;
            match rc with
            | EPKG_OK =>
                let '(rc, r) := if bool_decide (signature_type r = SIG_FINGERPRINT) && Nat.eqb (hash_count (trusted_fp r)) 0
                                then pkg_repo_load_fingerprints r else (EPKG_OK, r) in
                match rc, content with
                | EPKG_OK, Some text =>
                    if negb (can_mmap text) then Some (EPKG_FATAL, None, r)
                    else
                      let '(rc, r) := check_meta text sc r in
                      match rc with EPKG_OK => load_meta content r | _ => Some (EPKG_FATAL, None, r) end
                | EPKG_OK, None => Some (EPKG_FATAL, None, r)
                | _, _ => Some (EPKG_FATAL, content, r)
                end
            | _ => Some (rc, content, r)
            end
        end
  end.

(** ** Signing (pkg_repo_create.c) *)

(** Where the lines go: [Some true] is the signature. *)
Fixpoint signed_lines (l : list cstring) (buf : option bool) (sig cert : cstring) : cstring * cstring :=
  match l with
  | [] => (sig, cert)
  | line :: l =>
      if streq line (str "SIGNATURE" ++ [NL]) then signed_lines l (Some true) sig cert
      else if streq line (str "CERT" ++ [NL]) then signed_lines l (Some false) sig cert
      else if streq line (str "END" ++ [NL]) then (sig, cert)
      else match buf with
           | None => signed_lines l buf sig cert
           | Some true => signed_lines l buf (sig ++ line) cert
           | Some false => signed_lines l buf sig (cert ++ line)
           end
  end.

(** [command] answers the digest with a text and an exit status. *)
Definition pkg_repo_sign (content : cstring) (command : cstring -> cstring * bool) : option (pkg_error_t * cstring * cstring) :=
  let '(text, failed) := command (sha256_hash (sha256 content) ++ [NL]) in
  let '(sig, cert) := signed_lines (getlines [] text) None [] [] in
  if failed then Some (EPKG_FATAL, sig, cert)
  else
    c ← last sig;
    Some (EPKG_OK, if Ascii.eqb c NL then removelast sig else sig, cert).

(** The archive of a file, which is there. *)
Definition pkg_repo_pack_db (name content : cstring) (rsa : option PK) (command : option (cstring -> cstring * bool))
  : option (pkg_error_t * list archive_entry) :=
  match rsa, command with
  | Some rsa, _ =>
      let '(rc, sig) := rsa_sign content rsa in
      match rc with
      | EPKG_OK => Some (EPKG_OK, [(str "signature", Some (sig ++ [NUL])); (name, Some content)])
      | _ => Some (EPKG_FATAL, [])
      end
  | None, Some command =>
      '(rc, sig, cert) ← pkg_repo_sign content command;
      match rc with
      | EPKG_OK =>
          Some (EPKG_OK, [(snprintf MAXPATHLEN (name ++ str ".sig"), Some sig); (snprintf MAXPATHLEN (name ++ str ".pub"), Some cert); (name, Some content)])
      | _ => Some (EPKG_FATAL, [])
      end
  | None, None => Some (EPKG_OK, [(name, Some content)])
  end.
End repo.

(** ** What is parsed *)

Lemma read_some n p : (n <= length p)%nat -> read n p = Some (take n p, drop n p).
Proof. intros H. unfold read. by rewrite (proj2 (Nat.leb_le _ _) H). Qed.

Lemma not_truncated p len : truncated p len = false -> 0 < len /\ (Z.to_nat len <= length p)%nat.
Proof. unfold truncated. intros [H1%Z.ltb_ge H2%Z.leb_gt]%orb_false_iff. lia. Qed.

(** The table is sound, and so is the pointer to its element. *)
Record sound_reading (r : reading) : Prop := mk_sound_reading {
  sr_table : wf_table (rd_sc r);
  sr_s : forall i, rd_s r = Some (Old i) -> is_Some (hash_get (rd_sc r) i) }.

Lemma hash_get_update {V} (t : table V) i v k : is_Some (hash_get t k) -> is_Some (hash_get (hash_update t i v) k).
Proof.
  rewrite !hash_get_values, values_update. by rewrite !lookup_lt_is_Some, length_insert.
Qed.

Lemma store_ok sc ty data s : wf_table sc -> (forall i, s = Old i -> is_Some (hash_get sc i)) ->
  exists sc', store sc ty data s = Some sc' /\ wf_table sc' /\ forall i, s = Old i -> is_Some (hash_get sc' i).
Proof.
  intros Hw Hs. destruct s as [i|v]; cbn [store].
  - destruct (Hs i eq_refl) as [v Hv]. rewrite Hv. cbn. eexists. split_and!; [done|by apply wf_update|].
    intros k [= <-]. apply hash_get_update. by exists v.
  - eexists. split_and!; [done|by apply wf_add|done].
Qed.

(** A turn reads no byte beyond the end, and takes one. *)
Lemma parse_step_ok r : sound_reading r -> rd_p r <> [] ->
  exists n, parse_step r = Some n /\ ((exists freed, n = inl (EPKG_FATAL, freed) /\ forall i, freed = Some i -> is_Some (hash_get (rd_sc r) i)) \/
    exists r', n = inr r' /\ sound_reading r' /\ (length (rd_p r') < length (rd_p r))%nat).
Proof.
  intros [Hw Hs] Hp. assert (0 < length (rd_p r))%nat as Hlen by (destruct (rd_p r); [done|cbn; lia]).
  unfold parse_step. destruct (rd_state r).
  - rewrite read_some by lia. cbn [mbind option_bind]. destruct (_ && _); [by eexists; split; [done|left; by exists None]|].
    eexists. split; [done|right]. eexists. split; [done|]. split; [by split|]. cbn [rd_p]. rewrite length_drop. lia.
  - destruct (Nat.ltb_spec (length (rd_p r)) 4); [by eexists; split; [done|left; by exists None]|]. rewrite read_some by lia. cbn [mbind option_bind].
    eexists. split; [done|right]. eexists. split; [done|]. split; [by split|]. cbn [rd_p]. rewrite length_drop. lia.
  - destruct (truncated _ _) eqn:Et; [by eexists; split; [done|left; by exists None]|]. apply not_truncated in Et as [Hl1 Hl2].
    destruct (_ <=? _); [by eexists; split; [done|left; by exists None]|]. rewrite read_some by lia. cbn [mbind option_bind].
    eexists. split; [done|right]. eexists. split; [done|]. split; [|cbn [rd_p]; rewrite length_drop; lia]. split; [done|].
    cbn [rd_s rd_sc]. intros i. destruct (hash_find _ _) as [k|] eqn:Ef; [|done]. intros [= <-].
    apply hash_find_some in Ef; [|done]. unfold hash_get. destruct Ef as (e & -> & _). by eexists.
  - destruct (rd_s r) as [s|] eqn:Es; [|by eexists; split; [done|left; by exists None]].
    destruct (Nat.ltb_spec (length (rd_p r)) 4); [by eexists; split; [done|left; by exists None]|]. rewrite read_some by lia. cbn [mbind option_bind].
    eexists. split; [done|right]. eexists. split; [done|]. split; [split; [done|]|cbn [rd_p]; rewrite length_drop; lia]. exact Hs.
  - destruct (rd_s r) as [s|] eqn:Es; [|by eexists; split; [done|left; by exists None]].
    destruct (truncated _ _) eqn:Et.
    { eexists. split; [done|left]. eexists. split; [done|]. destruct s as [k|]; [|done]. intros i [= <-]. by apply Hs. }
    apply not_truncated in Et as [Hl1 Hl2]. rewrite read_some by lia. cbn [mbind option_bind].
    destruct (store_ok (rd_sc r) (rd_type r) (take (Z.to_nat (rd_len r)) (rd_p r)) s Hw) as (sc' & -> & Hw' & Hs'); [by intros i ->; apply Hs|].
    cbn [mbind option_bind]. eexists. split; [done|right]. eexists. split; [done|]. split; [split; [done|]|cbn [rd_p]; rewrite length_drop; lia].
    intros i [= ->]. by apply Hs'.
Qed.

(** What the loop may answer. *)
Definition parsed (rc : pkg_error_t) (sc : table sig_cert) (freed : option nat) : Prop :=
  rc = EPKG_OK /\ freed = None \/ rc = EPKG_FATAL /\ forall i, freed = Some i -> is_Some (hash_get sc i).

Lemma parse_loop_ok fuel : forall r, sound_reading r -> (length (rd_p r) <= fuel)%nat ->
  exists rc sc freed, parse_loop fuel r = Some (rc, sc, freed) /\ wf_table sc /\ parsed rc sc freed /\
    parse_loop (length (rd_p r)) r = Some (rc, sc, freed).
Proof.
  induction fuel as [fuel IH] using lt_wf_ind. intros r Hr Hf. destruct (rd_p r) as [|c p] eqn:Ep.
  { exists EPKG_OK, (rd_sc r), None. assert (forall n, parse_loop n r = Some (EPKG_OK, rd_sc r, None)) as Hn by (intros [|n]; cbn [parse_loop]; by rewrite Ep).
    rewrite !Hn. split_and!; [done|apply Hr|by left|done]. }
  destruct fuel as [|fuel]; [cbn in Hf; lia|].
  assert (forall n, parse_loop (S n) r = (next ← parse_step r; match next with inl (rc, freed) => Some (rc, rd_sc r, freed) | inr r => parse_loop n r end)) as Hn
    by (intros n; cbn [parse_loop]; by rewrite Ep).
  cbn [length]. rewrite !Hn. destruct (parse_step_ok r Hr) as (next & -> & [(freed & -> & Hfr)|(r' & -> & Hr' & Hlt)]); [by rewrite Ep| |].
  - exists EPKG_FATAL, (rd_sc r), freed. split_and!; [done|apply Hr|by right|done].
  - cbn [mbind option_bind]. rewrite Ep in Hlt. cbn [length] in Hlt, Hf.
    destruct (IH fuel ltac:(lia) r' Hr' ltac:(lia)) as (rc & sc & freed & H1 & H2 & H3 & H4).
    destruct (IH (length p) ltac:(lia) r' Hr' ltac:(lia)) as (rc' & sc' & freed' & H1' & _ & _ & H4').
    exists rc, sc, freed. split_and!; [done|done|done|]. congruence.
Qed.

(** C31: Parsing the text of the socket, whatever it is, ends and reads no byte
    beyond its end.  With EPKG_OK the table is sound.  With EPKG_FATAL it is
    sound too, or one of its elements was freed and is still linked: this happens
    when the data of a name that is known is cut short ([freed_in_the_table]), and
    then the table must not be used. *)
Theorem parse_sigkeys_total (text : cstring) (sc : table sig_cert) (Hw : wf_table sc) :
  exists rc sc' freed, pkg_repo_parse_sigkeys text sc = Some (rc, sc', freed) /\
    (rc = EPKG_OK /\ freed = None /\ wf_table sc' \/
     rc = EPKG_FATAL /\ (freed = None /\ wf_table sc' \/ exists i, freed = Some i /\ i ∈ chain sc')).
Proof.
  destruct (parse_loop_ok (length text) (mk_reading fp_parse_type text 0 0 None sc)) as (rc & sc' & freed & H1 & H2 & H3 & _); [by split|done|].
  exists rc, sc', freed. split; [done|]. destruct H3 as [[-> ->]|[-> Hf]]; [by left|right; split; [done|]].
  destruct freed as [i|]; [right|by left]. exists i. split; [done|]. destruct (Hf i eq_refl) as [v Hv].
  rewrite (UtHash.wf_chain _ H2). apply list_elem_of_In, in_rev, list_elem_of_In. rewrite rev_involutive. apply elem_of_seq. rewrite hash_get_values in Hv. apply lookup_lt_Some in Hv.
  unfold values in Hv. rewrite length_map in Hv. lia.
Qed.

(** *** Messages *)

Definition sent : Type := bool * cstring * cstring.

Definition sent_message (m : sent) : cstring := let '(cert, key, data) := m in message (chr (if cert : bool then 1 else 0)) key data.

(** A message that can be sent. *)
Definition sendable (m : sent) : Prop :=
  let '(_, key, data) := m in key <> [] /\ (NUL ∉ key) /\ (length key < MAXPATHLEN)%nat /\ data <> [] /\ Z.of_nat (length data) < 2 ^ 31.

(** What is known of a name after a message. *)
Definition gather (m : sent) (s : option sig_cert) : sig_cert :=
  let '(cert, key, data) := m in set_data (if cert : bool then 1 else 0) data (default (mk_sig_cert key None None false) s).

Lemma int_roundtrip n : Z.of_nat n < 2 ^ 31 -> int_value (int_bytes n) = Z.of_nat n /\ length (int_bytes n) = 4%nat.
Proof.
  intros H. split; [|unfold int_bytes; by rewrite length_map, le_digits_length].
  unfold int_value, int_bytes. rewrite map_map.
  assert (map (fun z => code (chr z)) (le_digits 256 4 (Z.of_nat n)) = le_digits 256 4 (Z.of_nat n)) as ->.
  { rewrite <- (map_id (le_digits 256 4 (Z.of_nat n))) at 2. apply map_ext_Forall. eapply Forall_impl; [apply (le_digits_range 256 4); lia|].
    intros z Hz. by apply code_chr. }
  rewrite le_value_digits by (cbn; lia). by rewrite (proj2 (Z.ltb_lt _ _)).
Qed.

Lemma c_str_clean s : NUL ∉ s -> c_str s = s.
Proof. intros Hs. apply c_str_id, Forall_forall. intros c Hc ->. by apply Hs. Qed.

Lemma gather_lookup sc m sc' : wf_table sc -> sendable m ->
  store sc (if (m.1).1 then 1 else 0) m.2 (match hash_find sc (m.1).2 with Some i => Old i | None => New (mk_sig_cert (c_str (take (MAXPATHLEN - 1) (m.1).2)) None None false) end) = Some sc' ->
  forall k, hash_lookup sc' k = if decide (k = (m.1).2) then Some (gather m (hash_lookup sc k)) else hash_lookup sc k.
Proof.
  destruct m as [[cert key] data]. intros Hw (Hk & Hnul & Hlen & _) H k. cbn [fst snd] in *. unfold gather.
  destruct (hash_find sc key) as [i|] eqn:Ef; cbn [store] in H.
  - destruct (hash_get sc i) as [v|] eqn:Ev; [|done]. cbn in H. injection H as <-. rewrite (hash_lookup_update _ i _ key) by done.
    destruct (decide (k = key)) as [->|Hne]; [rewrite bool_decide_eq_true_2 by done|by rewrite bool_decide_eq_false_2].
    unfold hash_lookup. rewrite Ef. cbn. by rewrite Ev.
  - injection H as <-. cbn [sc_name]. rewrite take_ge by (unfold MAXPATHLEN in *; lia). rewrite c_str_clean by done.
    destruct (decide (k = key)) as [->|Hne]; [|by rewrite hash_lookup_add_ne].
    rewrite hash_lookup_add by done. unfold hash_lookup. by rewrite Ef.
Qed.

Lemma store_keys sc ty data key sc' : wf_table sc -> NoDup (keys sc) -> NUL ∉ key -> (length key < MAXPATHLEN)%nat ->
  store sc ty data (match hash_find sc key with Some i => Old i | None => New (mk_sig_cert (c_str (take (MAXPATHLEN - 1) key)) None None false) end) = Some sc' ->
  NoDup (keys sc').
Proof.
  intros Hw Hn Hnul Hlen H. destruct (hash_find sc key) as [i|] eqn:Ef; cbn [store] in H.
  - destruct (hash_get sc i); [|done]. cbn in H. injection H as <-. by rewrite elements_update.
  - injection H as <-. cbn [sc_name]. rewrite take_ge by (unfold MAXPATHLEN in *; lia). rewrite c_str_clean, keys_add by done.
    apply NoDup_app. split_and!; [done| |apply NoDup_singleton]. intros k Hk ->%list_elem_of_singleton. by apply hash_find_none in Ef.
Qed.

(** One message is parsed in five turns. *)
Lemma parse_message m rest ty len s sc fuel : wf_table sc -> sendable m ->
  exists sc' ty' len' s', parse_loop (5 + fuel) (mk_reading fp_parse_type (sent_message m ++ rest) ty len s sc) =
    parse_loop fuel (mk_reading fp_parse_type rest ty' len' s' sc') /\ wf_table sc' /\ (NoDup (keys sc) -> NoDup (keys sc')) /\
    forall k, hash_lookup sc' k = if decide (k = (m.1).2) then Some (gather m (hash_lookup sc k)) else hash_lookup sc k.
Proof.
  intros Hw Hm. pose proof (gather_lookup sc m) as Hg. destruct m as [[cert key] data]. pose proof Hm as (Hk & Hnul & Hlen & Hd & Hdl). cbn [fst snd] in Hg.
  assert (0 < length key)%nat as Hk0 by (destruct key; [done|cbn; lia]). assert (0 < length data)%nat as Hd0 by (destruct data; [done|cbn; lia]).
  destruct (int_roundtrip (length key)) as [Hv1 Hl1]; [unfold MAXPATHLEN in *; lia|]. destruct (int_roundtrip (length data)) as [Hv2 Hl2]; [done|].
  assert (forall n r q, rd_p r <> [] -> parse_step r = Some (inr q) -> parse_loop (S n) r = parse_loop n q) as Hstep
    by (intros n r q Hp Hs; cbn [parse_loop]; destruct (rd_p r); [done|by rewrite Hs]).
  assert (forall b p, read (length b) (b ++ p) = Some (b, p)) as Hread
    by (intros b p; rewrite read_some by (rewrite length_app; lia); by rewrite take_app_length, drop_app_length).
  assert (forall b p, (0 < length b)%nat -> truncated (b ++ p) (Z.of_nat (length b)) = false) as Htrunc.
  { intros b p Hb. unfold truncated. rewrite length_app. apply orb_false_iff. split; [apply Z.ltb_ge; lia|apply Z.leb_gt; lia]. }
  set (t := if cert : bool then 1 else 0).
  assert (code (chr t) = t /\ negb (t =? 0) && negb (t =? 1) = false) as [Ht Htt] by (subst t; destruct cert; split; reflexivity).
  destruct (store_ok sc t data (match hash_find sc key with Some i => Old i | None => New (mk_sig_cert (c_str (take (MAXPATHLEN - 1) key)) None None false) end) Hw)
    as (sc' & Hst & Hw' & _).
  { intros i. destruct (hash_find sc key) as [k|] eqn:Ef; [|done]. intros [= <-]. apply hash_find_some in Ef; [|done].
    unfold hash_get. destruct Ef as (e & -> & _). by eexists. }
  eexists sc', t, (Z.of_nat (length data)), _. split; [|split; [done|split; [intros Hn; by apply (store_keys sc t data key)|by apply Hg]]].
  cbn [sent_message]. fold t. unfold message. rewrite <- !app_comm_cons, <- !app_assoc. cbn [Nat.add].
  erewrite Hstep; [|done|].
  2:{ unfold parse_step. cbn [rd_state rd_p]. rewrite (Hread [chr t] _ : read 1 (chr t :: _) = _). cbn [mbind option_bind deref hd]. rewrite Ht, Htt. reflexivity. }
  erewrite Hstep; [|by destruct (int_bytes (length key))|].
  2:{ unfold parse_step. cbn [rd_state rd_p rd_sc rd_type rd_len]. rewrite (proj2 (Nat.ltb_ge _ _)) by (rewrite length_app; lia).
      rewrite <- Hl1 at 1. rewrite Hread. cbn [mbind option_bind]. rewrite Hv1. reflexivity. }
  erewrite Hstep; [|by destruct key|].
  2:{ unfold parse_step. cbn [rd_state rd_p rd_sc rd_type rd_len]. rewrite Htrunc by done. rewrite (proj2 (Z.leb_gt _ _)) by lia.
      rewrite Nat2Z.id, Hread. cbn [mbind option_bind]. reflexivity. }
  erewrite Hstep; [|by destruct (int_bytes (length data))|].
  2:{ unfold parse_step. cbn [rd_state rd_p rd_sc rd_type rd_len rd_s]. rewrite (proj2 (Nat.ltb_ge _ _)) by (rewrite length_app; lia).
      rewrite <- Hl2 at 1. rewrite Hread. cbn [mbind option_bind]. rewrite Hv2. reflexivity. }
  apply Hstep; [by destruct data|]. unfold parse_step. cbn [rd_state rd_p rd_sc rd_type rd_len rd_s].
  rewrite Htrunc by done. rewrite Nat2Z.id, Hread. cbn [mbind option_bind]. by rewrite Hst.
Qed.

(** *** What is sent is what is parsed *)

Definition message_of (e : archive_entry) : option sent :=
  let '(path, data) := e in
  d ← data; sig ← pkg_repo_file_has_ext path ".sig"; pub ← pkg_repo_file_has_ext path ".pub";
  if sig : bool then Some (false, key_name path, d) else if pub : bool then Some (true, key_name path, d) else None.

(** An entry that can be read, whose name is long enough, and whose message can
    be sent. *)
Definition readable (e : archive_entry) : Prop :=
  (4 <= length e.1)%nat /\ is_Some e.2 /\ forall m, message_of e = Some m -> sendable m.

(** The data of the entries with a name that are no signatures. *)
Definition file_in (fname : cstring) (a : list archive_entry) : cstring :=
  concat (omap (fun e => match message_of e with Some _ => None | None => if streq e.1 fname then e.2 else None end) a).

Lemma extract_fingerprints_ok fname a : Forall readable a -> forall rc out file,
  pkg_repo_meta_extract_signature_fingerprints fname a rc out file =
    Some (match omap message_of a with [] => rc | _ => EPKG_OK end, out ++ concat (map sent_message (omap message_of a)), file ++ file_in fname a).
Proof.
  induction 1 as [|[path data] a (Hlen & [d Hd] & _) _ IH]; intros rc out file; [unfold file_in; cbn; by rewrite !app_nil_r|].
  cbn [fst snd] in Hlen, Hd. subst data.
  assert (forall ext, length (str ext) = 4%nat -> pkg_repo_file_has_ext path ext = Some (streq (drop (length path - 4) path) (str ext))) as Hext
    by (intros ext He; unfold pkg_repo_file_has_ext; by rewrite He, (proj2 (Nat.ltb_ge _ _))).
  cbn [pkg_repo_meta_extract_signature_fingerprints]. unfold file_in in *. cbn [omap list_omap message_of fst snd].
  rewrite !(Hext ".sig") by done. rewrite !(Hext ".pub") by done. cbn [mbind option_bind].
  destruct (streq _ (str ".sig")); cbn [mbind option_bind orb].
  { rewrite IH. cbn [map concat sent_message]. rewrite <- app_assoc. by destruct (omap message_of a). }
  destruct (streq _ (str ".pub")); cbn [mbind option_bind orb].
  { rewrite IH. cbn [map concat sent_message]. rewrite <- app_assoc. by destruct (omap message_of a). }
  destruct (streq path fname); rewrite IH; [|done]. cbn [concat]. by rewrite <- app_assoc.
Qed.

(** The last data sent for a name: its signature, or its certificate. *)
Definition latest (cert : bool) (key : cstring) (ms : list sent) : option cstring :=
  last (omap (fun m : sent => if bool_decide ((m.1).1 = cert) && bool_decide ((m.1).2 = key) then Some m.2 else None) ms).

Definition collected (key : cstring) (ms : list sent) (s : option sig_cert) : Prop :=
  match s with
  | None => latest false key ms = None /\ latest true key ms = None
  | Some s => sc_name s = key /\ sc_sig s = latest false key ms /\ sc_cert s = latest true key ms /\ (is_Some (sc_sig s) \/ is_Some (sc_cert s))
  end.

Lemma latest_snoc cert key ms m : latest cert key (ms ++ [m]) =
  if bool_decide ((m.1).1 = cert) && bool_decide ((m.1).2 = key) then Some m.2 else latest cert key ms.
Proof.
  unfold latest. rewrite omap_app. cbn. destruct (_ && _); cbn; [by rewrite last_snoc|by rewrite app_nil_r].
Qed.

Lemma collected_snoc key ms m s : collected key ms s ->
  collected key (ms ++ [m]) (if decide (key = (m.1).2) then Some (gather m s) else s).
Proof.
  destruct m as [[cert k] data]. cbn [fst snd]. intros H. case_decide as Hk.
  - subst k. unfold collected. rewrite !latest_snoc. cbn [fst snd]. rewrite !(bool_decide_eq_true_2 (key = key)) by done. rewrite !andb_true_r.
    destruct s as [s|]; unfold collected in H; [destruct H as (Hn & Hs & Hc & _)|destruct H as (Hs & Hc)]; cbn [gather default];
      destruct cert; cbn; rewrite ?Hs, ?Hc; (split_and!; [done..|]); first [by left; eexists|by right; eexists].
  - unfold collected in *. rewrite !latest_snoc. cbn [fst snd]. rewrite !(bool_decide_eq_false_2 (k = key)) by (by intros ->). by rewrite !andb_false_r.
Qed.

Lemma parse_messages ms : Forall sendable ms -> forall done sc ty len s fuel, wf_table sc -> NoDup (keys sc) -> (forall k, collected k done (hash_lookup sc k)) ->
  exists sc' ty' len' s', parse_loop (5 * length ms + fuel) (mk_reading fp_parse_type (concat (map sent_message ms)) ty len s sc) =
    parse_loop fuel (mk_reading fp_parse_type [] ty' len' s' sc') /\ wf_table sc' /\ NoDup (keys sc') /\ forall k, collected k (done ++ ms) (hash_lookup sc' k).
Proof.
  induction 1 as [|m ms Hm _ IH]; intros past sc ty len s fuel Hw Hn Hc.
  { eexists sc, ty, len, s. rewrite app_nil_r. by split_and!. }
  cbn [map concat length]. replace (5 * S (length ms) + fuel)%nat with (5 + (5 * length ms + fuel))%nat by lia.
  destruct (parse_message m (concat (map sent_message ms)) ty len s sc (5 * length ms + fuel) Hw Hm) as (sc1 & ty1 & len1 & s1 & -> & Hw1 & Hn1 & H1).
  destruct (IH (past ++ [m]) sc1 ty1 len1 s1 fuel Hw1 (Hn1 Hn)) as (sc2 & ty2 & len2 & s2 & -> & Hw2 & Hn2 & H2).
  - intros k. rewrite H1. by apply collected_snoc.
  - exists sc2, ty2, len2, s2. split_and!; [done|done|done|]. intros k. specialize (H2 k). by rewrite <- app_assoc in H2.
Qed.

Lemma parse_sigkeys_messages ms : Forall sendable ms -> exists sc,
  pkg_repo_parse_sigkeys (concat (map sent_message ms)) table_empty = Some (EPKG_OK, sc, None) /\ wf_table sc /\ NoDup (keys sc) /\ forall k, collected k ms (hash_lookup sc k).
Proof.
  intros Hm. destruct (parse_messages ms Hm [] table_empty 0 0 None (length (concat (map sent_message ms))) wf_empty) as (sc & ty & len & s & H & Hw & Hn & Hc);
    [constructor|by intros k|].
  exists sc. split_and!; [|done|done|done].
  set (r := mk_reading fp_parse_type (concat (map sent_message ms)) 0 0 None table_empty) in *.
  destruct (parse_loop_ok (5 * length ms + length (rd_p r)) r) as (rc & sc1 & freed & H1 & _ & _ & H2); [by split|lia|].
  unfold pkg_repo_parse_sigkeys. fold r. change (length (concat (map sent_message ms))) with (length (rd_p r)) in *. rewrite H2.
  rewrite H in H1. destruct (length (rd_p r)); cbn [parse_loop rd_p rd_sc] in H1; congruence.
Qed.

Lemma signatures_ok (fname : cstring) (a : list archive_entry) : Forall readable a -> omap message_of a <> [] ->  exists text sc, pkg_repo_meta_extract_signature_fingerprints fname a EPKG_FATAL [] [] = Some (EPKG_OK, text, file_in fname a) /\
    pkg_repo_parse_sigkeys text table_empty = Some (EPKG_OK, sc, None) /\ wf_table sc /\ NoDup (keys sc) /\
    forall key, collected key (omap message_of a) (hash_lookup sc key).
Proof.
  intros Ha Hne.
  destruct (parse_sigkeys_messages (omap message_of a)) as (sc & H & Hw & Hn & Hc).
  { apply Forall_forall. intros m Hm. apply list_elem_of_omap in Hm as (e & He & Hm). eapply Forall_forall in Ha; [|exact He]. by apply Ha. }
  eexists _, sc. rewrite extract_fingerprints_ok by done. split_and!; [|exact H|done|done|done]. by destruct (omap message_of a).
Qed.

(** C30: The signatures of an archive, through the socket: the process ends
    well, with the file, and what is parsed has, for each name, the last
    signature and the last certificate of the archive, and no other name.  The
    names are distinct. *)
Theorem signatures_roundtrip (fname : cstring) (a : list archive_entry) (Ha : Forall readable a) (Hne : omap message_of a <> []) :
  exists text sc, pkg_repo_meta_extract_signature_fingerprints fname a EPKG_FATAL [] [] = Some (EPKG_OK, text, file_in fname a) /\
    pkg_repo_parse_sigkeys text table_empty = Some (EPKG_OK, sc, None) /\ wf_table sc /\ NoDup (keys sc) /\
    forall key, collected key (omap message_of a) (hash_lookup sc key).
Proof. by apply signatures_ok. Qed.

(** ** What is accepted is signed *)

Section verified.
Context (opendir : cstring -> option (list cstring)) (ucl_file : cstring -> option ucl) (stat : cstring -> bool) (sha256 : cstring -> list Z).
Context {K PK : Type} (PEM_read_bio_RSA_PUBKEY : cstring -> option K) (RSA_verify : string -> cstring -> cstring -> Z -> K -> bool)
  (RSA_sign : string -> cstring -> PK -> option cstring) (can_fork : bool) (file_to_buffer : cstring -> option cstring).

Abbreviation extract := (pkg_repo_archive_extract_archive opendir ucl_file stat sha256 can_fork).
Abbreviation extract_check := (pkg_repo_archive_extract_check_archive opendir ucl_file stat sha256 PEM_read_bio_RSA_PUBKEY RSA_verify can_fork file_to_buffer).
Abbreviation check_fingerprint := (pkg_repo_check_fingerprint opendir ucl_file stat sha256).
Abbreviation print := (fingerprint_of sha256).
Abbreviation good := (good_signature sha256 PEM_read_bio_RSA_PUBKEY RSA_verify can_fork).

(** A certificate is not revoked, and is marked when it is trusted. *)
Definition vetted (r : pkg_repo) (s : sig_cert) : Prop :=
  exists sig cert, sc_sig s = Some sig /\ sc_cert s = Some cert /\ hash_find (revoked_fp r) (print cert) = None /\
    (trusted s = true <-> hash_find (trusted_fp r) (print cert) <> None).

(** The text has a signature that the repository's settings accept. *)
Definition accepted (r : pkg_repo) (text : cstring) : Prop :=
  match signature_type r with
  | SIG_NONE => True
  | SIG_PUBKEY => exists path key k sig siglen, pubkey_file r = Some path /\ file_to_buffer path = Some key /\
      PEM_read_bio_RSA_PUBKEY key = Some k /\ RSA_verify "sha1" (sha256_hash (sha256 text) ++ [NUL]) sig siglen k = true
  | SIG_FINGERPRINT => exists cert k sig, hash_find (trusted_fp r) (print cert) <> None /\ hash_find (revoked_fp r) (print cert) = None /\
      PEM_read_bio_RSA_PUBKEY cert = Some k /\
      RSA_verify "sha256" (map chr (sha256 (sha256_hash (sha256 text)))) sig (Z.of_nat (length sig)) k = true
  end.

(** The fingerprints in memory: those that were there, or, when no trusted ones
    were, those a load without error found in the files. *)
Definition fingerprints_of (r r' : pkg_repo) : Prop :=
  if Nat.eqb (hash_count (trusted_fp r)) 0 then
    exists r1, pkg_repo_load_fingerprints opendir ucl_file stat r = (EPKG_OK, r1) /\ trusted_fp r' = trusted_fp r1 /\ revoked_fp r' = revoked_fp r1
  else trusted_fp r' = trusted_fp r /\ revoked_fp r' = revoked_fp r.

(** Only the fingerprints were loaded. *)
Definition same_settings (r r' : pkg_repo) : Prop :=
  signature_type r' = signature_type r /\ pubkey_file r' = pubkey_file r /\ meta r' = meta r.

Lemma check_one_vetted r s s' b : check_one sha256 r s = (s', Some b) -> vetted r s' /\ b = trusted s'.
Proof.
  unfold check_one, cert_of. intros H.
  assert (forall sig cert name, match hash_find (revoked_fp r) (print cert) with
    | Some _ => (mk_sig_cert name (Some sig) (Some cert) false, None)
    | None => match hash_find (trusted_fp r) (print cert) with
              | Some _ => (mk_sig_cert name (Some sig) (Some cert) true, Some true)
              | None => (mk_sig_cert name (Some sig) (Some cert) false, Some false)
              end
    end = (s', Some b) -> vetted r s' /\ b = trusted s') as Hv.
  { intros sig cert name. destruct (hash_find (revoked_fp r) (print cert)) eqn:E; [done|].
    destruct (hash_find (trusted_fp r) (print cert)) eqn:Et; intros [= <- <-]; (split; [|done]); exists sig, cert; cbn; rewrite Et; by split_and!. }
  destruct (sc_sig s) as [sig|] eqn:Es; [|done]. destruct (sc_cert s) as [cert|] eqn:Ec.
  - cbn [sc_name sc_sig] in H. eapply Hv. exact H.
  - destruct (meta r) as [m|]; [|done]. cbn [mbind option_bind] in H. destruct (hash_lookup _ _) as [mk|]; [|done]. cbn [mbind option_bind sc_name sc_sig] in H.
    eapply Hv. exact H.
Qed.

Lemma check_certs_vetted n : forall i r sc nb sc', wf_table sc -> (i + n = length (values sc))%nat -> check_certs sha256 n i r sc nb = (true, sc') ->
  (forall k s, (k < i)%nat -> values sc !! k = Some s -> vetted r s) -> wf_table sc' /\ Forall (vetted r) (values sc').
Proof.
  induction n as [|n IH]; intros i r sc nb sc' Hw Hlen; cbn [check_certs].
  { intros [= _ <-] Hv. split; [done|]. apply Forall_lookup. intros k s Hk. apply (Hv k); [|done]. apply lookup_lt_Some in Hk. lia. }
  destruct (hash_get sc i) as [s|] eqn:Eg; [|done]. destruct (check_one sha256 r s) as [s' [b|]] eqn:E1; [|done]. intros H Hv.
  apply check_one_vetted in E1 as [E1 _]. eapply IH; [by apply wf_update| |exact H|].
  - rewrite values_update, length_insert. lia.
  - intros k v Hk. rewrite values_update. intros Hl. apply list_lookup_insert_Some in Hl as [(_ & <- & _)|[Hne Hl]]; [done|].
    apply (Hv k); [lia|done].
Qed.

Lemma load_fingerprints_settings r rc r' : pkg_repo_load_fingerprints opendir ucl_file stat r = (rc, r') -> same_settings r r'.
Proof.
  unfold pkg_repo_load_fingerprints. destruct (pkg_repo_load_fingerprints_from_path _ _ _) as [rc1 t]. destruct rc1; try (by intros [= _ <-]).
  destruct (Nat.eqb _ 0); [by intros [= _ <-]|]. destruct (stat _); [|by intros [= _ <-]].
  destruct (pkg_repo_load_fingerprints_from_path _ _ _) as [rc2 t2]. by intros [= _ <-].
Qed.

Lemma load_fingerprints_some r r' : pkg_repo_load_fingerprints opendir ucl_file stat r = (EPKG_OK, r') -> hash_count (trusted_fp r') <> O.
Proof.
  unfold pkg_repo_load_fingerprints. destruct (pkg_repo_load_fingerprints_from_path _ _ _) as [rc1 t]. destruct rc1; try done.
  destruct (Nat.eqb_spec (hash_count t) 0) as [|Hn]; [done|]. destruct (stat _); [|by intros [= <-]].
  destruct (pkg_repo_load_fingerprints_from_path _ _ _) as [rc2 t2]. destruct rc2; try done. by intros [= <-].
Qed.

Lemma fingerprints_some r r' : fingerprints_of r r' -> hash_count (trusted_fp r') <> O.
Proof.
  unfold fingerprints_of. destruct (Nat.eqb_spec (hash_count (trusted_fp r)) 0) as [_|Hn]; [|by intros [-> _]].
  intros (r1 & Hl & -> & _). by eapply load_fingerprints_some.
Qed.

(** What is loaded once is kept. *)
Lemma fingerprints_trans r1 r2 r3 : fingerprints_of r1 r2 -> fingerprints_of r2 r3 -> fingerprints_of r1 r3.
Proof.
  intros H1 H2. pose proof (fingerprints_some _ _ H1) as Hn. unfold fingerprints_of in *. apply Nat.eqb_neq in Hn. rewrite Hn in H2.
  destruct H2 as [-> ->]. exact H1.
Qed.

Lemma fingerprints_same r : hash_count (trusted_fp r) <> O -> fingerprints_of r r.
Proof. intros Hn%Nat.eqb_neq. unfold fingerprints_of. by rewrite Hn. Qed.

Lemma check_fingerprint_vetted r sc r' sc' : wf_table sc -> check_fingerprint r sc = (true, r', sc') ->
  same_settings r r' /\ wf_table sc' /\ Forall (vetted r') (values sc') /\ fingerprints_of r r'.
Proof.
  intros Hw. unfold pkg_repo_check_fingerprint. destruct (Nat.eqb (hash_count sc) 0); [done|].
  destruct (if Nat.eqb _ 0 then _ else _) as [rc r1] eqn:El.
  assert (same_settings r r1) as Hs by (destruct (Nat.eqb _ 0); [by eapply load_fingerprints_settings|by injection El as _ <-]).
  destruct rc; try done. destruct (check_certs _ _ _ _ _ _) as [ok sc1] eqn:Ec. intros [= -> <- <-]. split; [done|].
  apply check_certs_vetted in Ec as [Hw1 Hv]; [|done|unfold hash_count; rewrite (wf_items _ Hw); unfold values; by rewrite length_map|lia].
  split_and!; [done|done|]. unfold fingerprints_of. destruct (Nat.eqb _ 0); [by exists r1|by injection El as <-].
Qed.

Lemma good_accepted r text l : signature_type r = SIG_FINGERPRINT -> Forall (vetted r) l -> existsb (good (Some text)) l = true -> accepted r text.
Proof.
  intros Ht Hl (s & Hs & Hg)%existsb_exists. apply list_elem_of_In in Hs. eapply Forall_forall in Hl; [|exact Hs].
  destruct Hl as (sig & cert & H1 & H2 & H3 & H4). unfold good_signature in Hg. rewrite H1, H2 in Hg. apply andb_true_iff in Hg as [Hg Htr].
  apply bool_decide_eq_true in Hg. unfold accepted. rewrite Ht. unfold rsa_verify_cert in Hg. destruct can_fork; [|done]. unfold rsa_verify_cert_cb in Hg.
  destruct (PEM_read_bio_RSA_PUBKEY cert) as [k|] eqn:Ek; [|done]. exists cert, k, sig. split_and!; [by apply H4|done|done|].
  by destruct (RSA_verify _ _ _ _ _).
Qed.

Lemma extract_sound a file dest r content sc r' : extract a file dest r = Some (EPKG_OK, content, sc, r') ->
  same_settings r r' /\ is_Some content /\ wf_table sc /\
  (signature_type r = SIG_FINGERPRINT -> Forall (vetted r') (values sc) /\ fingerprints_of r r').
Proof.
  unfold pkg_repo_archive_extract_archive. intros H0.
  assert (extract_open opendir ucl_file stat sha256 can_fork a file r = Some (EPKG_OK, content, sc, r')) as H by (by destruct dest as [[|]|]).
  clear H0. unfold extract_open in H. destruct (signature_type r) eqn:Et.
  - match type of H with context [let '(_, _) := ?x in _] => destruct x as [[rc t] data] end. injection H as _ <- <- <-. split_and!; [done|by eexists|apply wf_empty|done].
  - match type of H with context [let '(_, _) := ?x in _] => destruct x as [[rc t] data] end. injection H as <- <- <-. split_and!; [done|by eexists| |done].
    destruct rc; first [apply wf_add, wf_empty|apply wf_empty].
  - destruct (if can_fork then _ else _) as [[[rc t] data]|]; [|done]. cbn [mbind option_bind] in H.
    destruct rc; try done. destruct (Nat.eqb _ 0); [done|].
    destruct (parse_loop_ok (length t) (mk_reading fp_parse_type t 0 0 None table_empty)) as (rc & sc1 & freed & Hp & Hw & Hrc & _); [by split; [apply wf_empty|]|done|].
    unfold pkg_repo_parse_sigkeys in H. rewrite Hp in H. cbn [mbind option_bind] in H. destruct Hrc as [[-> _]|[-> _]]; [|done].
    destruct (check_fingerprint r sc1) as [[ok r1] sc2] eqn:Ec. destruct ok; [|done]. injection H as <- <- <-.
    apply check_fingerprint_vetted in Ec as (Hs & Hw2 & Hv & Hf); [|done]. by split_and!.
Qed.

Lemma accepted_settings r r' text : signature_type r = SIG_PUBKEY -> same_settings r r' -> accepted r text -> accepted r' text.
Proof. intros Ht (H1 & H2 & _). unfold accepted. by rewrite H1, Ht, H2. Qed.

Lemma extract_check_sound a file dest r content r' : extract_check a file dest r = Some (EPKG_OK, content, r') ->
  exists text, content = Some text /\ accepted r' text /\ same_settings r r' /\ (signature_type r = SIG_FINGERPRINT -> fingerprints_of r r').
Proof.
  unfold pkg_repo_archive_extract_check_archive. destruct (extract a file dest r) as [[[[rc c] sc] r1]|] eqn:Ee; [|done]. cbn [mbind option_bind].
  destruct rc; try done. apply extract_sound in Ee as (Hs & [text ->] & _ & Hv). pose proof Hs as (Ht & Hk & Hm).
  assert (signature_type r = SIG_FINGERPRINT -> fingerprints_of r r1) as Hfp by (intros H; by apply Hv).
  destruct (signature_type r1) eqn:Et1.
  - intros [= <- <-]. exists text. split_and!; [done| |done|done]. unfold accepted. by rewrite Et1.
  - destruct (head (values sc)) as [s|]; [|by destruct dest]. destruct (sc_sig s) as [sig|]; [|done]. cbn [mbind option_bind].
    destruct (pubkey_file r1) as [path|] eqn:Epath; [|done]. cbn [mbind option_bind].
    destruct (rsa_verify _ _ _ _ _ _ _ _) eqn:Ev; try (by destruct dest). intros [= <- <-]. exists text. split_and!; [done| |done|done].
    unfold rsa_verify in Ev. destruct (file_to_buffer path) as [key|] eqn:Ekey; [|done]. destruct can_fork; [|done].
    unfold rsa_verify_cb in Ev. destruct (PEM_read_bio_RSA_PUBKEY key) as [k|] eqn:Ek; [|done].
    destruct (RSA_verify _ _ _ _ _) eqn:Er; [|done]. unfold accepted. rewrite Et1. by exists path, key, k, sig, ((Z.of_nat (length sig) - 1) mod 2 ^ 32).
  - destruct (existsb (good (Some text)) (values sc)) eqn:Eg; [|by destruct dest]. intros [= <- <-]. exists text. split_and!; [done| |done|done].
    eapply good_accepted; [done| |exact Eg]. apply Hv. congruence.
Qed.

Section fetched.
Context (mkstemp : bool) (pkg_fetch_file_to_fd : cstring -> pkg_error_t * list archive_entry)
  (key_bytes : pkg_repo_meta_key -> cstring) (ucl_parser : cstring -> option (list (cstring * ucl))) (ucl_object_validate : list (cstring * ucl) -> bool)
  (can_mmap : cstring -> bool).

Abbreviation extract_tmp := (pkg_repo_fetch_remote_extract_tmp opendir ucl_file stat sha256 PEM_read_bio_RSA_PUBKEY RSA_verify can_fork file_to_buffer
  mkstemp pkg_fetch_file_to_fd).
Abbreviation fetch_meta := (pkg_repo_fetch_meta opendir ucl_file stat sha256 PEM_read_bio_RSA_PUBKEY RSA_verify can_fork file_to_buffer
  mkstemp pkg_fetch_file_to_fd key_bytes ucl_parser ucl_object_validate can_mmap).
Abbreviation load := (pkg_repo_meta_load key_bytes ucl_parser ucl_object_validate).

Lemma load_meta_sound file r file' r' : load_meta key_bytes ucl_parser ucl_object_validate file r = Some (EPKG_OK, file', r') ->
  file' = file /\ exists m, load file = Some (EPKG_OK, Some m) /\ r' = set_meta r m.
Proof.
  assert (load file <> Some (EPKG_OK, None)) as Hno.
  { unfold pkg_repo_meta_load. destruct (file ≫= ucl_parser) as [top|]; [|done]. destruct (_ =? -1); [done|]. destruct (_ =? 1); [|done].
    destruct (negb _); [done|]. by destruct (pkg_repo_meta_parse _ _ _) as [[rc m]|]. }
  unfold load_meta. destruct (load file) as [[rc [m|]]|]; [| |done]; cbn [mbind option_bind].
  - destruct rc; try done. intros [= <- <-]. split; [done|]. by exists m.
  - destruct rc; try done.
Qed.

Lemma load_certs_wf n : forall i text sc sc', wf_table sc -> load_certs can_fork ucl_parser n i text sc = Some sc' -> wf_table sc'.
Proof.
  induction n as [|n IH]; intros i text sc sc' Hw; cbn [load_certs]; [by intros [= <-]|].
  destruct (hash_get sc i) as [s|]; [|done]. cbn [mbind option_bind]. destruct (sc_sig s) as [[|? ?]|]; [by apply IH| |by apply IH].
  destruct (default [] (sc_cert s)); [|by apply IH]. destruct (negb can_fork); [done|]. destruct (pkg_repo_meta_extract_pubkey _ _ _) as [rc cert].
  destruct rc; try done. apply IH. by apply wf_update.
Qed.

Lemma check_meta_sound text sc r r' : wf_table sc -> check_meta opendir ucl_file stat sha256 PEM_read_bio_RSA_PUBKEY RSA_verify can_fork ucl_parser text sc r =
  (EPKG_OK, r') -> signature_type r <> SIG_PUBKEY -> accepted r' text /\ (signature_type r = SIG_FINGERPRINT -> fingerprints_of r r').
Proof.
  unfold check_meta. intros Hw H Hne. destruct (signature_type r) eqn:Et; [|done|].
  - injection H as <-. unfold accepted. rewrite Et. by split.
  - destruct (load_certs _ _ _ _ _ _) as [sc1|] eqn:El; [|done].
    apply load_certs_wf in El; [|done].
    destruct (check_fingerprint r sc1) as [[ok r1] sc2] eqn:Ec. destruct ok; [|done].
    apply check_fingerprint_vetted in Ec as ((H1 & _) & _ & Hv & Hf); [|done].
    destruct (existsb (good (Some text)) (values sc2)) eqn:Eg; [|done]. injection H as <-. split; [|done]. eapply good_accepted; [|exact Hv|exact Eg]. congruence.
Qed.

Lemma remote_tmp_none r filename extension rc : pkg_repo_fetch_remote_tmp mkstemp pkg_fetch_file_to_fd r filename extension = (rc, None) -> rc <> EPKG_OK.
Proof.
  unfold pkg_repo_fetch_remote_tmp. destruct (negb mkstemp); [by intros [= <-]|]. destruct (pkg_fetch_file_to_fd _) as [rc1 a].
  destruct rc1; by intros [= <-].
Qed.

Lemma extract_tmp_sound r filename can_make content r' : extract_tmp r filename can_make = Some (EPKG_OK, content, r') ->
  exists text, content = Some text /\ accepted r' text /\ same_settings r r' /\ (signature_type r = SIG_FINGERPRINT -> fingerprints_of r r').
Proof.
  unfold pkg_repo_fetch_remote_extract_tmp. destruct (meta r) as [m|]; [|done]. cbn [mbind option_bind].
  destruct (pkg_repo_fetch_remote_tmp _ _ _ _ _) as [rc [a|]] eqn:Er.
  - destruct (negb can_make); [done|]. destruct (extract_check a filename ToFd r) as [[[rc1 c] r1]|] eqn:E; [|done]. cbn [mbind option_bind].
    destruct rc1; try done. intros [= <- <-]. by apply extract_check_sound in E.
  - apply remote_tmp_none in Er. by intros [= ->].
Qed.

Lemma accepted_set_meta r m text : accepted r text -> accepted (set_meta r m) text.
Proof. unfold accepted. by destruct r. Qed.

(** What is asked of the metadata that replace the old. *)
Definition meta_signed (r : pkg_repo) (file : option cstring) (r' : pkg_repo) : Prop :=
  exists text m, file = Some text /\ accepted r' text /\ meta r' = Some m /\ load (Some text) = Some (EPKG_OK, Some m) /\
    (signature_type r = SIG_FINGERPRINT -> fingerprints_of r r').

Lemma load_meta_signed r text r1 file r' : accepted r1 text -> (signature_type r = SIG_FINGERPRINT -> fingerprints_of r r1) ->
  load_meta key_bytes ucl_parser ucl_object_validate (Some text) r1 = Some (EPKG_OK, file, r') -> meta_signed r file r'.
Proof.
  intros Hacc Hf [-> (m & Hm & ->)]%load_meta_sound. exists text, m. split_and!; [done|by apply accepted_set_meta|done|done|]. exact Hf.
Qed.

(** The metadata of a repository that is not signed with a key. *)
Lemma open_meta_sound a dest r file r' : signature_type r <> SIG_PUBKEY ->
  ('(rc, content, sc, r) ← extract a (str "meta") dest r;
      match rc with
      | EPKG_OK =>
          let '(rc, r) := if bool_decide (signature_type r = SIG_FINGERPRINT) && Nat.eqb (hash_count (trusted_fp r)) 0
                          then pkg_repo_load_fingerprints opendir ucl_file stat r else (EPKG_OK, r) in
          match rc, content with
          | EPKG_OK, Some text =>
              if negb (can_mmap text) then Some (EPKG_FATAL, None, r)
              else
                let '(rc, r) := check_meta opendir ucl_file stat sha256 PEM_read_bio_RSA_PUBKEY RSA_verify can_fork ucl_parser text sc r in
                match rc with EPKG_OK => load_meta key_bytes ucl_parser ucl_object_validate content r | _ => Some (EPKG_FATAL, None, r) end
          | EPKG_OK, None => Some (EPKG_FATAL, None, r)
          | _, _ => Some (EPKG_FATAL, content, r)
          end
      | _ => Some (rc, content, r)
      end) = Some (EPKG_OK, file, r') -> meta_signed r file r'.
Proof.
  intros Hne. destruct (extract a (str "meta") dest r) as [[[[rc c] sc] r1]|] eqn:Ee; [|done]. cbn [mbind option_bind]. destruct rc; try done.
  apply extract_sound in Ee as ((Ht & _) & [text ->] & Hw & Hv).
  assert (bool_decide (signature_type r1 = SIG_FINGERPRINT) && Nat.eqb (hash_count (trusted_fp r1)) 0 = false) as ->.
  { case_bool_decide as Hfp; [|done]. apply Nat.eqb_neq. eapply fingerprints_some, Hv. congruence. }
  destruct (negb (can_mmap text)); [done|]. destruct (check_meta _ _ _ _ _ _ _ _ _ _ r1) as [rc3 r3] eqn:Ec. destruct rc3; try done.
  apply check_meta_sound in Ec as [Hacc Hf]; [|done|congruence]. apply load_meta_signed; [done|]. intros Hfp.
  eapply fingerprints_trans; [by apply Hv|]. apply Hf. congruence.
Qed.

Lemma fetch_meta_sound old can_unlink dest r file r' : fetch_meta old can_unlink dest r = Some (EPKG_OK, file, r') -> meta_signed r file r'.
Proof.
  unfold pkg_repo_fetch_meta. destruct (pkg_repo_fetch_remote_tmp _ _ _ _ _) as [rc0 [a|]] eqn:Er; [|apply remote_tmp_none in Er; by intros [= ->]].
  destruct (negb can_unlink); [done|].
  destruct (signature_type r) eqn:Et; [apply open_meta_sound; congruence| |apply open_meta_sound; congruence].
  destruct (extract_check a (str "meta") dest r) as [[[rc c] r1]|] eqn:Ee; [|done]. cbn [mbind option_bind]. destruct rc; try done.
  apply extract_check_sound in Ee as (text & -> & Hacc & _ & Hf). by apply load_meta_signed.
Qed.

(** C11: With signature_type PUBKEY or FINGERPRINTS, what comes from a repository
    and is kept is signed.  A file that pkg_repo_fetch_remote_extract_tmp gives,
    and the metadata that pkg_repo_fetch_meta puts in the place of the old, come
    with a signature that verifies on just this text: with the key of the
    repository, or with a certificate whose fingerprint is in the table of trusted
    ones and not in the table of revoked ones.  The tables are those in memory:
    the ones that were there, or, when no fingerprint was trusted, the ones a
    load of the files without error gave.  A list of revoked fingerprints that was not
    read is empty ([revocation_forgotten]).  With signature_type NONE, the
    default, nothing is checked. *)
Theorem repository_files_signed :
  (forall r filename can_make content r', extract_tmp r filename can_make = Some (EPKG_OK, content, r') ->
     exists text, content = Some text /\ accepted r' text /\ same_settings r r' /\
       (signature_type r = SIG_FINGERPRINT -> fingerprints_of r r')) /\
  (forall old can_unlink dest r file r', fetch_meta old can_unlink dest r = Some (EPKG_OK, file, r') -> meta_signed r file r').
Proof. split; [exact extract_tmp_sound|exact fetch_meta_sound]. Qed.
End fetched.

(** *** What is signed is accepted *)

(** A name of a file in a repository. *)
Record file_name (name : cstring) : Prop := mk_file_name {
  fn_length : (4 <= length name)%nat /\ (length name + 4 < MAXPATHLEN)%nat;
  fn_nul : NUL ∉ name;
  fn_ext : pkg_repo_file_has_ext name ".sig" = Some false /\ pkg_repo_file_has_ext name ".pub" = Some false }.

Definition can_open (dest : destination) : Prop := dest <> ToPath false.

Lemma extract_is_open a file dest r : can_open dest -> extract a file dest r = extract_open opendir ucl_file stat sha256 can_fork a file r.
Proof. unfold can_open. by destruct dest as [[|]|]. Qed.

Lemma extract_pubkey_ok name sig content : name <> str "signature" ->
  pkg_repo_meta_extract_signature_pubkey true name [(str "signature", Some sig); (name, Some content)] EPKG_FATAL [] [] = (EPKG_OK, sig, content).
Proof. intros H. unfold pkg_repo_meta_extract_signature_pubkey. rewrite !streq_refl, (streq_ne _ _ H). done. Qed.

(** The archive that pkg_repo_pack_db makes of a file, signed with an RSA
    key, is accepted by a repository that has the other key, and the file comes
    out as it went in. *)
Theorem signed_archive_accepted (name content : cstring) (rsa : PK) (command : option (cstring -> cstring * bool)) (a : list archive_entry)
  (dest : destination) (r : pkg_repo) (path key : cstring) (k : K) (Hfork : can_fork = true) (Hopen : can_open dest)
  (Hname : name <> str "signature") (Ht : signature_type r = SIG_PUBKEY) (Hpath : pubkey_file r = Some path) (Hfile : file_to_buffer path = Some key)
  (Hk : PEM_read_bio_RSA_PUBKEY key = Some k)
  (Hpair : forall nid m sig rest, RSA_sign nid m rsa = Some sig -> Z.of_nat (length sig) < 2 ^ 32 /\ RSA_verify nid m (sig ++ rest) (Z.of_nat (length sig)) k = true)
  (Hpack : pkg_repo_pack_db sha256 RSA_sign name content (Some rsa) command = Some (EPKG_OK, a)) :
  extract_check a name dest r = Some (EPKG_OK, Some content, r).
Proof.
  unfold pkg_repo_pack_db, rsa_sign in Hpack. destruct (RSA_sign _ _ _) as [sig|] eqn:Es; [|done]. injection Hpack as <-.
  destruct (Hpair _ _ _ [NUL] Es) as [Hlen Hv].
  unfold pkg_repo_archive_extract_check_archive. rewrite extract_is_open by done. unfold extract_open. rewrite Ht, Hfork, extract_pubkey_ok by done.
  cbn [mbind option_bind]. rewrite Ht, values_add by apply wf_empty.
  change (values (@table_empty sig_cert)) with (@nil sig_cert). cbn [app head sc_sig mbind option_bind].
  rewrite Hpath. cbn [mbind option_bind]. rewrite Hfile. unfold rsa_verify, rsa_verify_cb. rewrite Hk.
  rewrite length_app. cbn [length]. replace (Z.of_nat (length sig + 1) - 1) with (Z.of_nat (length sig)) by lia. rewrite Z.mod_small by lia.
  rewrite Hv. by destruct dest.
Qed.

(** *** Certificates *)

(** The signatures of an archive all have a certificate that is not revoked,
    and one of them is good for the file. *)
Record certified (r : pkg_repo) (text : cstring) (ms : list sent) : Prop := mk_certified {
  ce_loaded : hash_count (trusted_fp r) <> O;
  ce_all : forall key, latest false key ms = None /\ latest true key ms = None \/
    exists sig cert, latest false key ms = Some sig /\ latest true key ms = Some cert /\ hash_find (revoked_fp r) (print cert) = None;
  ce_good : exists key sig cert k, latest false key ms = Some sig /\ latest true key ms = Some cert /\
    hash_find (trusted_fp r) (print cert) <> None /\ PEM_read_bio_RSA_PUBKEY cert = Some k /\
    RSA_verify "sha256" (map chr (sha256 (sha256_hash (sha256 text)))) sig (Z.of_nat (length sig)) k = true }.

(** An element of the table as the check leaves it. *)
Definition marked (r : pkg_repo) (s : sig_cert) : sig_cert :=
  mk_sig_cert (sc_name s) (sc_sig s) (sc_cert s)
    (match sc_cert s with Some cert => bool_decide (hash_find (trusted_fp r) (print cert) <> None) | None => false end).

Definition complete (r : pkg_repo) (s : sig_cert) : Prop :=
  exists sig cert, sc_sig s = Some sig /\ sc_cert s = Some cert /\ hash_find (revoked_fp r) (print cert) = None.

Lemma check_one_complete r s : complete r s -> check_one sha256 r s = (marked r s, Some (trusted (marked r s))).
Proof.
  intros (sig & cert & Hs & Hc & Hr). unfold check_one, cert_of, marked. rewrite Hs, Hc. rewrite Hr. cbn [trusted sc_name sc_sig].
  destruct (hash_find (trusted_fp r) (print cert)); [by rewrite bool_decide_eq_true_2|]. by rewrite bool_decide_eq_false_2 by tauto.
Qed.

Lemma check_certs_complete n : forall i r sc nb, (i + n = length (values sc))%nat -> Forall (complete r) (drop i (values sc)) ->
  (0 < nb)%nat \/ Exists (fun s => trusted (marked r s) = true) (drop i (values sc)) ->
  exists sc', check_certs sha256 n i r sc nb = (true, sc') /\ values sc' = take i (values sc) ++ map (marked r) (drop i (values sc)).
Proof.
  induction n as [|n IH]; intros i r sc nb Hlen Hc Hg; cbn [check_certs].
  - exists sc. rewrite (drop_ge (values sc)) in * by lia. rewrite (take_ge (values sc)) by lia. cbn [map]. rewrite app_nil_r.
    split; [|done]. destruct Hg as [Hg|Hg]; [|by apply Exists_nil in Hg]. destruct nb; [lia|done].
  - destruct (lookup_lt_is_Some_2 (values sc) i ltac:(lia)) as [s Hs]. rewrite hash_get_values, Hs.
    pose proof (drop_S _ _ _ Hs) as Hd. rewrite Hd in Hc, Hg. apply Forall_cons in Hc as [Hcs Hc]. rewrite check_one_complete by done.
    assert (values (hash_update sc i (marked r s)) = <[i := marked r s]> (values sc)) as Hv by apply values_update.
    assert (drop (S i) (<[i := marked r s]> (values sc)) = drop (S i) (values sc)) as Hdr by (by rewrite drop_insert_lt by lia).
    destruct (IH (S i) r (hash_update sc i (marked r s)) (if trusted (marked r s) then S nb else nb)) as (sc' & H1 & H2).
    + rewrite Hv, length_insert. lia.
    + by rewrite Hv, Hdr.
    + rewrite Hv, Hdr. destruct Hg as [Hg|[Hg|Hg]%Exists_cons]; [left; destruct (trusted _); lia|left; rewrite Hg; lia|by right].
    + exists sc'. split; [exact H1|]. rewrite H2, Hv, Hdr, Hd. cbn [map].
      rewrite (take_S_r _ _ (marked r s)) by (rewrite list_lookup_insert_eq; [done|lia]). rewrite <- app_assoc. f_equal. rewrite take_insert_ge by lia. done.
Qed.

Lemma certified_values r text a sc : wf_table sc -> NoDup (keys sc) -> (forall key, collected key a (hash_lookup sc key)) -> certified r text a ->
  Forall (complete r) (values sc) /\ exists s, s ∈ values sc /\ trusted (marked r s) = true /\ exists sig cert k, sc_sig s = Some sig /\ sc_cert s = Some cert /\
    PEM_read_bio_RSA_PUBKEY cert = Some k /\ RSA_verify "sha256" (map chr (sha256 (sha256_hash (sha256 text)))) sig (Z.of_nat (length sig)) k = true.
Proof.
  intros Hw Hn Hcol [_ Hall (key & sig & cert & k & Hs & Hc & Ht & Hk & Hv)].
  assert (forall key v, hash_lookup sc key = Some v -> v ∈ values sc) as Hin.
  { intros key' v Hl. apply hash_lookup_elements in Hl; [|done|done]. rewrite values_elements. apply list_elem_of_fmap. by exists (key', v). }
  split.
  - apply Forall_forall. intros v Hv0. rewrite values_elements in Hv0. apply list_elem_of_fmap in Hv0 as ([key' v'] & -> & Hel).
    apply hash_lookup_elements in Hel; [|done|done]. pose proof (Hcol key') as Hck. rewrite Hel in Hck. destruct Hck as (_ & H1 & H2 & H0).
    destruct (Hall key') as [[Hn1 Hn2]|(sig' & cert' & H3 & H4 & H5)].
    + exfalso. rewrite H1, H2, Hn1, Hn2 in H0. by destruct H0 as [[? ?]|[? ?]].
    + exists sig', cert'. cbn [snd]. by rewrite H1, H2.
  - pose proof (Hcol key) as Hck. destruct (hash_lookup sc key) as [v|] eqn:El; [|destruct Hck; congruence]. destruct Hck as (_ & H1 & H2 & _).
    exists v. split; [by eapply Hin|]. split.
    + unfold marked. cbn [trusted]. rewrite H2, Hc. by apply bool_decide_eq_true_2.
    + exists sig, cert, k. rewrite H1, H2. by split_and!.
Qed.

Lemma check_fingerprint_complete r sc : wf_table sc -> values sc <> [] -> hash_count (trusted_fp r) <> O -> Forall (complete r) (values sc) ->
  Exists (fun s => trusted (marked r s) = true) (values sc) ->
  exists sc', check_fingerprint r sc = (true, r, sc') /\ values sc' = map (marked r) (values sc).
Proof.
  intros Hw Hne Hl Hc Hg. unfold pkg_repo_check_fingerprint.
  assert (hash_count sc = length (values sc)) as Hcount by (unfold hash_count; rewrite (wf_items _ Hw); unfold values; by rewrite length_map).
  rewrite Hcount, (proj2 (Nat.eqb_neq _ _)) by (by destruct (values sc)). rewrite (proj2 (Nat.eqb_neq _ _)) by done.
  destruct (check_certs_complete (length (values sc)) 0 r sc 0 eq_refl) as (sc' & H1 & H2); [by rewrite drop_0|right; by rewrite drop_0|].
  rewrite H1. exists sc'. rewrite drop_0 in H2. by split.
Qed.

(** The archive of a repository with fingerprints. *)
Lemma certified_accepted fname a dest r : can_fork = true -> can_open dest -> signature_type r = SIG_FINGERPRINT -> Forall readable a ->
  certified r (file_in fname a) (omap message_of a) -> extract_check a fname dest r = Some (EPKG_OK, Some (file_in fname a), r).
Proof.
  intros Hfork Hopen Ht Ha Hce. pose proof Hce as [Hloaded _ (key & sig & cert & k & Hsig & _)].
  assert (omap message_of a <> []) as Hne by (intros E; rewrite E in Hsig; discriminate Hsig).
  destruct (signatures_ok fname a Ha Hne) as (text & sc & Hx & Hp & Hw & Hn & Hcol).
  destruct (certified_values r _ _ sc Hw Hn Hcol Hce) as [Hcomp (s & Hs & Htr & sig1 & cert1 & k1 & H1 & H2 & H3 & H4)].
  destruct (check_fingerprint_complete r sc Hw) as (sc' & Hcheck & Hv);
    [by intros E; rewrite E in Hs; apply elem_of_nil in Hs|done|done|by apply Exists_exists; exists s|].
  unfold pkg_repo_archive_extract_check_archive. rewrite extract_is_open by done. unfold extract_open. rewrite Ht. rewrite Hfork at 1. rewrite Hx.
  cbn [mbind option_bind]. destruct (Nat.eqb_spec (length text) 0) as [E|_].
  { exfalso. apply nil_length_inv in E. subst text. cbv in Hp. injection Hp as <-. by apply elem_of_nil in Hs. }
  rewrite Hp. cbn [mbind option_bind]. rewrite Hcheck. cbn [verdict mbind option_bind]. rewrite Ht.
  assert (existsb (good (Some (file_in fname a))) (values sc') = true) as ->.
  { apply existsb_exists. exists (marked r s). split.
    - rewrite Hv. apply in_map. by apply list_elem_of_In.
    - unfold good_signature, marked in *. cbn [sc_cert sc_sig trusted] in *. rewrite H1, H2 in *. rewrite Htr, andb_true_r. apply bool_decide_eq_true.
      unfold rsa_verify_cert. rewrite Hfork. unfold rsa_verify_cert_cb. by rewrite H3, H4. }
  by destruct dest.
Qed.

Lemma ext_of name e ext : (length name + 4 < MAXPATHLEN)%nat -> length (str e) = 4%nat -> length (str ext) = 4%nat ->
  pkg_repo_file_has_ext (name ++ str e) ext = Some (streq (str e) (str ext)) /\ key_name (name ++ str e) = name.
Proof.
  intros Hl Hel Hex. unfold pkg_repo_file_has_ext, key_name, snprintf. rewrite length_app, Hel, Hex, (proj2 (Nat.ltb_ge _ _)) by lia.
  replace (length name + 4 - 4)%nat with (length name) by lia. rewrite drop_app_length, take_app_length, take_ge by (unfold MAXPATHLEN in *; lia). done.
Qed.

(** The messages and the file of a signed archive. *)
Lemma packed_archive name sig cert content : file_name name ->
  let a := [(name ++ str ".sig", Some sig); (name ++ str ".pub", Some cert); (name, Some content)] in
  message_of (name ++ str ".sig", Some sig) = Some (false, name, sig) /\ message_of (name ++ str ".pub", Some cert) = Some (true, name, cert) /\
  message_of (name, Some content) = None /\ omap message_of a = [(false, name, sig); (true, name, cert)] /\ file_in name a = content.
Proof.
  intros [[Hl1 Hl2] Hnul [He1 He2]] a.
  assert (message_of (name ++ str ".sig", Some sig) = Some (false, name, sig)) as M1.
  { unfold message_of. destruct (ext_of name ".sig" ".sig" Hl2 eq_refl eq_refl) as [-> ->].
    destruct (ext_of name ".sig" ".pub" Hl2 eq_refl eq_refl) as [-> _]. reflexivity. }
  assert (message_of (name ++ str ".pub", Some cert) = Some (true, name, cert)) as M2.
  { unfold message_of. destruct (ext_of name ".pub" ".sig" Hl2 eq_refl eq_refl) as [-> ->].
    destruct (ext_of name ".pub" ".pub" Hl2 eq_refl eq_refl) as [-> _]. reflexivity. }
  assert (message_of (name, Some content) = None) as M3 by (unfold message_of; by rewrite He1, He2).
  assert (forall {A B} (f : A -> option B) x l, omap f (x :: l) = match f x with Some y => y :: omap f l | None => omap f l end) as Ho by done.
  split_and!; [done|done|done| |].
  - unfold a. by rewrite !Ho, M1, M2, M3.
  - unfold file_in, a. rewrite !Ho, M1, M2, M3. cbn [fst snd]. rewrite streq_refl. cbn [concat]. by rewrite app_nil_r.
Qed.

(** C29: The archive that pkg_repo_pack_db makes of a file with a command that
    signs is accepted by a repository that trusts the certificate and does not
    revoke it, when the signature is one of this certificate, and the file comes
    out as it went in. *)
Theorem certified_archive_accepted (name content sig cert : cstring) (command : cstring -> cstring * bool) (a : list archive_entry)
  (dest : destination) (r : pkg_repo) (k : K) (Hfork : can_fork = true) (Hopen : can_open dest) (Hname : file_name name)
  (Ht : signature_type r = SIG_FINGERPRINT) (Hsign : pkg_repo_sign sha256 content command = Some (EPKG_OK, sig, cert))
  (Hsig : sig <> [] /\ Z.of_nat (length sig) < 2 ^ 31) (Hcert : cert <> [] /\ Z.of_nat (length cert) < 2 ^ 31)
  (Htrust : hash_find (trusted_fp r) (print cert) <> None) (Hrev : hash_find (revoked_fp r) (print cert) = None)
  (Hk : PEM_read_bio_RSA_PUBKEY cert = Some k)
  (Hverify : RSA_verify "sha256" (map chr (sha256 (sha256_hash (sha256 content)))) sig (Z.of_nat (length sig)) k = true)
  (Hloaded : hash_count (trusted_fp r) <> O)
  (Hpack : pkg_repo_pack_db sha256 RSA_sign name content None (Some command) = Some (EPKG_OK, a)) :
  extract_check a name dest r = Some (EPKG_OK, Some content, r).
Proof.
  assert (a = [(snprintf MAXPATHLEN (name ++ str ".sig"), Some sig); (snprintf MAXPATHLEN (name ++ str ".pub"), Some cert); (name, Some content)]) as ->
    by (unfold pkg_repo_pack_db in Hpack; rewrite Hsign in Hpack; cbn [mbind option_bind] in Hpack; congruence).
  pose proof Hname as [[Hl1 Hl2] Hnul _].
  assert (forall e, length (str e) = 4%nat -> snprintf MAXPATHLEN (name ++ str e) = name ++ str e) as Hsn
    by (intros e He; unfold snprintf; rewrite take_ge; [done|rewrite length_app, He; lia]).
  rewrite (Hsn ".sig"%string eq_refl), (Hsn ".pub"%string eq_refl).
  destruct (packed_archive name sig cert content Hname) as (M1 & M2 & M3 & Ho & Hf).
  set (a := [(name ++ str ".sig", Some sig); (name ++ str ".pub", Some cert); (name, Some content)]) in *.
  assert (forall c key, latest c key [(false, name, sig); (true, name, cert)] = if decide (key = name) then Some (if c : bool then cert else sig) else None) as Hlat.
  { intros c key. unfold latest. cbn [omap list_omap fst snd]. destruct (decide (key = name)) as [->|Hne].
    - rewrite !(bool_decide_eq_true_2 (name = name)) by done. by destruct c.
    - rewrite !(bool_decide_eq_false_2 (name = key)) by (by intros ->). by rewrite !andb_false_r. }
  rewrite <- Hf. apply certified_accepted; [done|done|done| |rewrite Hf, Ho; split].
  - assert (name <> []) as Hne by (by intros ->; cbn in Hl1; lia).
    assert (forall b d, d <> [] /\ Z.of_nat (length d) < 2 ^ 31 -> sendable (b, name, d)) as Hsend by (intros b d [Hd Hdl]; split_and!; [done|done|lia|done|done]).
    unfold a. repeat (apply Forall_cons; split; [split_and!; [cbn [fst]; rewrite ?length_app; lia|by eexists|]|]); [..|apply Forall_nil; exact I].
    + rewrite M1. intros m [= <-]. by apply Hsend.
    + rewrite M2. intros m [= <-]. by apply Hsend.
    + by rewrite M3.
  - done.
  - intros key. rewrite !Hlat. destruct (decide (key = name)); [right|by left]. exists sig, cert. by split_and!.
  - exists name, sig, cert, k. rewrite !Hlat, !decide_True by done. by split_and!.
Qed.
End verified.

(** ** A concrete repository *)

(** In place of SHA-256 and RSA: the first bytes. *)
Definition toy_sha256 (s : cstring) : list Z := map code (take 2 s).
Definition toy_key (text : cstring) : option cstring := Some (take 2 text).
Definition toy_sign (_ : string) (m key : cstring) : option cstring := Some (take 8 (key ++ m)).
Definition toy_verify (_ : string) (m sig : cstring) (len : Z) (key : cstring) : bool := bool_decide (take (Z.to_nat len) sig = take 8 (key ++ m)).

Lemma toy_pair k nid m sig rest : toy_sign nid m k = Some sig ->
  Z.of_nat (length sig) < 2 ^ 32 /\ toy_verify nid m (sig ++ rest) (Z.of_nat (length sig)) k = true.
Proof.
  intros [= <-]. split.
  - rewrite length_take. lia.
  - unfold toy_verify. rewrite Nat2Z.id, take_app_length. by apply bool_decide_eq_true_2.
Qed.

(** Certificates K1 is trusted, K2 not; what is revoked, and whether the list
    can be read, varies. *)
Definition toy_dir (revoked : option (list cstring)) (path : cstring) : option (list cstring) :=
  if streq path (str "/fp/trusted") then Some [str "."; str ".."; str "key1"]
  else if streq path (str "/fp/revoked") then revoked else None.

Definition toy_stat (revoked : option (list cstring)) (_ : cstring) : bool := bool_decide (is_Some revoked).

Definition toy_fingerprint (cert : string) : ucl :=
  UObject [(str "function", UString (str "sha256")); (str "fingerprint", UString (sha256_hash (toy_sha256 (str cert))))].

Definition toy_file (path : cstring) : option ucl :=
  if streq path (str "/fp/trusted/key1") || streq path (str "/fp/revoked/key1") then Some (toy_fingerprint "K1") else None.

Definition toy_repo (t : signature_t) : pkg_repo :=
  mk_repo (str "main") (str "http://host") (Some (str "/key")) t (str "/fp") table_empty table_empty (Some pkg_repo_meta_default).

Definition key_files (path : cstring) : option cstring := if streq path (str "/key") then Some (str "K1") else None.

(** The repository, with the fingerprint that is trusted. *)
Definition loaded_repo : pkg_repo := snd (pkg_repo_load_fingerprints (toy_dir None) toy_file (fun _ => false) (toy_repo SIG_FINGERPRINT)).

(** A command that signs with a key. *)
Definition toy_command (key : string) (digest : cstring) : cstring * bool :=
  let m := map chr (toy_sha256 (removelast digest)) in
  (str "SIGNATURE" ++ NL :: take 8 (str key ++ m) ++ NL :: str "CERT" ++ NL :: str key ++ NL :: str "END" ++ [NL], false).

Abbreviation toy_check revoked a name dest r :=
  (pkg_repo_archive_extract_check_archive (toy_dir revoked) toy_file (toy_stat revoked) toy_sha256
    toy_key toy_verify true key_files a name dest r).

(** The signature of a name, then a certificate of the same name whose length
    is more than what is left. *)
Definition cut_certificate : cstring := message (chr 0) (str "meta") (str "s") ++ chr 1 :: int_bytes 4 ++ str "meta" ++ int_bytes 2 ++ str "K".

Example freed_in_the_table :
  (fun x => (x.1.1, chain x.1.2, x.2)) <$> pkg_repo_parse_sigkeys cut_certificate table_empty = Some (EPKG_FATAL, [0%nat], Some 0%nat).
Proof. vm_compute. reflexivity. Qed.

Lemma parse_sigkeys_total_witness : exists rc sc freed, pkg_repo_parse_sigkeys cut_certificate table_empty = Some (rc, sc, freed) /\
  rc = EPKG_FATAL /\ exists i, freed = Some i /\ i ∈ chain sc.
Proof.
  destruct (parse_sigkeys_total cut_certificate table_empty wf_empty) as (rc & sc & freed & H & Hrc). exists rc, sc, freed. split; [exact H|].
  pose proof freed_in_the_table as Hf. rewrite H in Hf. injection Hf as Hf1 _ Hf2. cbn in Hf1, Hf2.
  destruct Hrc as [[Hr _]|[Hr [[Hn _]|Hi]]]; [congruence|congruence|split; [exact Hr|exact Hi]].
Defined.

(** A message that ends after its type or its name is no error. *)
Example cut_message_accepted : fst <$> (fst <$> pkg_repo_parse_sigkeys (chr 0 :: int_bytes 4 ++ str "meta") table_empty) = Some EPKG_OK.
Proof. vm_compute. reflexivity. Qed.

(** A name shorter than an extension: bytes before it are compared. *)
Example short_name_read : pkg_repo_meta_extract_signature_fingerprints (str "meta") [(str "db", Some [])] EPKG_FATAL [] [] = None.
Proof. reflexivity. Qed.

Definition meta_archive : list archive_entry := [(str "meta.sig", Some (str "s")); (str "meta.pub", Some (str "K1")); (str "meta", Some (str "text"))].

Lemma meta_file_name : file_name (str "meta").
Proof. split; [split; apply Nat.leb_le; reflexivity|apply (bool_decide_unpack _); vm_compute; exact I|split; reflexivity]. Qed.

Lemma meta_archive_messages : omap message_of meta_archive = [(false, str "meta", str "s"); (true, str "meta", str "K1")].
Proof. vm_compute. reflexivity. Qed.

Lemma meta_archive_readable : Forall readable meta_archive.
Proof.
  repeat (apply Forall_cons; split; [split; [apply Nat.leb_le; reflexivity|split; [by eexists|]]|]); [..|apply Forall_nil; exact I].
  - intros m Hm. vm_compute in Hm. injection Hm as <-. split_and!; [done|apply (bool_decide_unpack _); vm_compute; exact I|apply Nat.ltb_lt; reflexivity|done|reflexivity].
  - intros m Hm. vm_compute in Hm. injection Hm as <-. split_and!; [done|apply (bool_decide_unpack _); vm_compute; exact I|apply Nat.ltb_lt; reflexivity|done|reflexivity].
  - intros m Hm. vm_compute in Hm. discriminate Hm.
Qed.

Lemma signatures_roundtrip_witness :
  exists text sc s, pkg_repo_meta_extract_signature_fingerprints (str "meta") meta_archive EPKG_FATAL [] [] = Some (EPKG_OK, text, str "text") /\
    pkg_repo_parse_sigkeys text table_empty = Some (EPKG_OK, sc, None) /\ hash_lookup sc (str "meta") = Some s /\ sc_sig s = Some (str "s").
Proof.
  destruct (signatures_roundtrip (str "meta") meta_archive meta_archive_readable ltac:(rewrite meta_archive_messages; discriminate))
    as (text & sc & H1 & H2 & _ & _ & H3).
  specialize (H3 (str "meta")). rewrite meta_archive_messages in H3. unfold collected in H3.
  destruct (hash_lookup sc (str "meta")) as [s|] eqn:E; [|destruct H3 as [H3 _]; vm_compute in H3; discriminate H3].
  exists text, sc, s. split; [exact H1|]. split; [exact H2|]. split; [exact E|]. destruct H3 as (_ & H3 & _). rewrite H3. reflexivity.
Defined.

Lemma signed_archive_accepted_witness :
  exists a, pkg_repo_pack_db toy_sha256 toy_sign (str "digests") (str "text") (Some (str "K1")) None = Some (EPKG_OK, a) /\
    toy_check None a (str "digests") ToFd (toy_repo SIG_PUBKEY) = Some (EPKG_OK, Some (str "text"), toy_repo SIG_PUBKEY).
Proof.
  eexists. split; [reflexivity|].
  refine (signed_archive_accepted (toy_dir None) toy_file (toy_stat None) toy_sha256 toy_key toy_verify toy_sign true key_files (str "digests") (str "text")
    (str "K1") None _ ToFd (toy_repo SIG_PUBKEY) (str "/key") (str "K1") (str "K1") eq_refl _ _ eq_refl eq_refl eq_refl eq_refl (toy_pair _) eq_refl); discriminate.
Defined.

Lemma certified_archive_accepted_witness :
  exists a, pkg_repo_pack_db toy_sha256 toy_sign (str "meta") (str "text") None (Some (toy_command "K1")) = Some (EPKG_OK, a) /\
    toy_check None a (str "meta") (ToPath true) loaded_repo = Some (EPKG_OK, Some (str "text"), loaded_repo).
Proof.
  eexists. split; [vm_compute; reflexivity|].
  refine (certified_archive_accepted (toy_dir None) toy_file (toy_stat None) toy_sha256 toy_key toy_verify toy_sign true key_files (str "meta") (str "text")
    (str "K174") (str "K1" ++ [NL]) (toy_command "K1") _ (ToPath true) loaded_repo (str "K1") eq_refl _ meta_file_name _ _ _ _ _ _ _ _ _ _).
  - discriminate.
  - vm_compute. reflexivity.
  - vm_compute. reflexivity.
  - split; [discriminate|reflexivity].
  - split; [discriminate|reflexivity].
  - vm_compute. discriminate.
  - vm_compute. reflexivity.
  - reflexivity.
  - vm_compute. reflexivity.
  - vm_compute. discriminate.
  - vm_compute. reflexivity.
Defined.

(** *** What is left behind *)

(** A network that gives an archive. *)
Definition toy_network (a : list archive_entry) (_ : cstring) : pkg_error_t * list archive_entry := (EPKG_OK, a).

(** An archive made with a certificate. *)
Definition toy_archive (key : string) : list archive_entry :=
  match pkg_repo_pack_db toy_sha256 toy_sign (str "meta") (str "text") None (Some (toy_command key)) with Some (_, a) => a | None => [] end.

Definition toy_meta : list (cstring * ucl) := [(str "version", UInt 1)].

Abbreviation toy_extract_tmp a r := (pkg_repo_fetch_remote_extract_tmp (toy_dir None) toy_file (toy_stat None) toy_sha256 toy_key toy_verify true key_files
  true (toy_network a) r (str "meta") true).
Abbreviation toy_fetch_meta a r := (pkg_repo_fetch_meta (toy_dir None) toy_file (toy_stat None) toy_sha256 toy_key toy_verify true key_files
  true (toy_network a) (fun _ => []) (fun _ => Some toy_meta) (fun _ => true) (fun _ => true) (Some (str "old")) true (ToPath true) r).

Lemma repository_files_signed_witness :
  toy_extract_tmp (toy_archive "K1") (toy_repo SIG_FINGERPRINT) = Some (EPKG_OK, Some (str "text"), loaded_repo) /\
  accepted toy_sha256 toy_key toy_verify key_files loaded_repo (str "text") /\
  exists text, fst <$> toy_fetch_meta (toy_archive "K1") (toy_repo SIG_FINGERPRINT) = Some (EPKG_OK, text) /\ text = Some (str "text").
Proof.
  split; [vm_compute; reflexivity|]. split.
  - destruct (repository_files_signed (toy_dir None) toy_file (toy_stat None) toy_sha256 toy_key toy_verify true key_files true (toy_network (toy_archive "K1"))
      (fun _ => []) (fun _ => Some toy_meta) (fun _ => true) (fun _ => true)) as [H _].
    destruct (H (toy_repo SIG_FINGERPRINT) (str "meta") true (Some (str "text")) loaded_repo ltac:(vm_compute; reflexivity)) as (text & E & Hacc & _).
    injection E as <-. exact Hacc.
  - eexists. split; vm_compute; reflexivity.
Defined.

(** An archive whose certificate is not trusted is refused, and its metadata is
    left where the old was; the directory of the database is not cleaned. *)
Example rejected_meta_stays : (fun x => fst x) <$> toy_fetch_meta (toy_archive "K2") (toy_repo SIG_FINGERPRINT) = Some (EPKG_FATAL, Some (str "text")).
Proof. vm_compute. reflexivity. Qed.

(** The list of what is revoked cannot be read: the first archive is refused,
    but the trusted fingerprints stay, and the second, signed by a certificate
    that is revoked, is accepted. *)
Definition unreadable : pkg_repo -> option (pkg_error_t * option cstring * pkg_repo) :=
  pkg_repo_archive_extract_check_archive (toy_dir None) toy_file (fun _ => true) toy_sha256 toy_key toy_verify true key_files (toy_archive "K1") (str "meta") ToFd.

Example revocation_forgotten :
  match unreadable (toy_repo SIG_FINGERPRINT) with
  | Some (rc, _, r) => (rc, fst <$> (fst <$> unreadable r)) = (EPKG_FATAL, Some EPKG_OK)
  | None => False
  end.
Proof. vm_compute. reflexivity. Qed.

(** The same archive, when the list can be read. *)
Example revoked_is_refused :
  fst <$> (fst <$> toy_check (Some [str "key1"]) (toy_archive "K1") (str "meta") ToFd (toy_repo SIG_FINGERPRINT)) = Some EPKG_FATAL.
Proof. vm_compute. reflexivity. Qed.
