(* ===== verification/RepoCreate.v ===== *)
(** * Creation of a repository (libpkg/pkg_repo_create.c)

    pkg_create_repo divides the packages of a directory among processes.  Each
    of them appends the manifests of its packages, and their lists of files, to
    files that all share, under a lock, and sends a line for each package
    through a socket of its own to the parent, which polls the sockets, sorts the
    lines and writes the digests.  pkg_finish_repo packs the files.

    The processes run interleaved: a run is a list of events, each a step of one
    process between two points where others can act, or a turn of the parent's
    poll.  What is appended under the lock is one step.  A datagram is sent
    whole.  Archives, the text of libucl and SHA-256 are parameters.  [None] is
    memory outside of a buffer, or never written, that is read. *)
From S2P Require Import Prelude CString CSort UtHash Pkg Cprintf Printf Checksum Ucl Manifest Fetch RepoMeta RepoSign.

(** ** The directory *)

Record ftsent := mk_ftsent { fts_is_file : bool; fts_name : cstring; fts_accpath : cstring; fts_path : cstring; st_size : Z }.

Record pkg_fts_item := mk_fts_item { it_accpath : cstring; it_pkg_path : cstring; it_name : cstring; it_size : Z }.

Fixpoint skip_slashes (s : cstring) : cstring :=
  match s with c :: r => if Ascii.eqb c SLASH then skip_slashes r else s | [] => [] end.

Definition pkg_create_repo_fts_new (fts : ftsent) (root_path : cstring) : pkg_fts_item :=
  mk_fts_item (fts_accpath fts) (skip_slashes (drop (length root_path) (fts_path fts))) (fts_name fts) (st_size fts).

(** A file of the format of the repository that is no file of its own. *)
Definition is_package_file (m : pkg_repo_meta) (fts : ftsent) : bool :=
  fts_is_file fts &&
  match strrchr (fts_name fts) "." with
  | None => false
  | Some ext =>
      let name := take (length (fts_name fts) - length ext) (fts_name fts) in
      streq (drop 1 ext) (packing_format_to_string (packing_format m)) &&
      negb (streq name (str "meta") || pkg_repo_meta_is_special_file name m)
  end.

(** LL_PREPEND *)
Definition read_fts_step (m : pkg_repo_meta) (repopath : cstring) (items : list pkg_fts_item) (fts : ftsent) : list pkg_fts_item :=
  if is_package_file m fts then pkg_create_repo_fts_new fts repopath :: items else items.

Definition pkg_create_repo_read_fts (m : pkg_repo_meta) (repopath : cstring) (fts : list ftsent) : list pkg_fts_item :=
  fold_left (read_fts_step m repopath) fts [].

(** ** The workers' shares *)

(** The loop that starts a worker when [remain_jobs] is 0: the items from
    [fts_start] on, and how many of them. *)
Fixpoint launch (tasks_per_worker remain cur_jobs remain_jobs : Z) (fts_start fts_cur : list pkg_fts_item) : list (list pkg_fts_item) :=
  match fts_cur with
  | [] => []
  | _ :: next =>
      let remain_jobs := remain_jobs - 1 in
      if remain_jobs =? 0 then
        let remain := remain - 1 in
        let jobs := if 0 <? remain then tasks_per_worker + 1 else tasks_per_worker in
        take (Z.to_nat cur_jobs) fts_start :: launch tasks_per_worker remain jobs jobs next next
      else launch tasks_per_worker remain cur_jobs remain_jobs fts_start next
  end.

Definition shares (num_workers : Z) (items : list pkg_fts_item) : list (list pkg_fts_item) :=
  let len := Z.of_nat (length items) in
  let num_workers := Z.min num_workers len in
  let tasks_per_worker := len / num_workers in
  let remain := len mod num_workers in
  let cur_jobs := if 0 <? remain then tasks_per_worker + 1 else tasks_per_worker in
  launch tasks_per_worker remain cur_jobs cur_jobs items items.

(** ** A worker *)

(** A package that is ready to be appended; [r_files] is [None] when the list
    of files cannot be made. *)
Record ready := mk_ready { r_origin : cstring; r_digest : cstring; r_manifest : cstring; r_files : option cstring; r_checksum : cstring }.

(** A file that is no package, a digest that cannot be made, an assertion that
    fails. *)
Inductive prepared := Skipped | Failed | Crashed | Ready (r : ready).

Section worker.
Context (emit_single_json : ucl -> cstring) (emit : ucl_emitter -> ucl -> cstring) (sha256 : cstring -> list Z).
(** The package and the bytes of an archive; whether the lists of files are
    read. *)
Context (pkg_open : cstring -> bool -> option (pkg * cstring)) (read_files : bool).

(** [meta] is [None] for a legacy repository. *)
Definition prepare (meta : option pkg_repo_meta) (cur : pkg_fts_item) : prepared :=
  match pkg_open (it_accpath cur) read_files with
  | None => Skipped
  | Some (p, content) =>
      let checksum := sha256_hash (sha256 content) in
      default Crashed (
        '(_, p) ← pkg_vset p [(PKG_CKSUM, ArgString (Some checksum)); (PKG_REPOPATH, ArgString (Some (it_pkg_path cur))); (PKG_PKGSIZE, ArgInt (it_size cur))];
        let origin := default (str "(null)") (pkg_get_string emit_single_json p PKG_ORIGIN) in
        let files := (fun o => emit UCL_EMIT_JSON_COMPACT o) <$> pkg_emit_filelist emit_single_json p in
        match meta with
        | None =>
            '(text, mdigest) ← pkg_emit_manifest_sbuf emit_single_json emit sha256 p PKG_MANIFEST_EMIT_COMPACT true;
            Some (Ready (mk_ready origin (default [] mdigest) text files checksum))
        | Some m =>
            '(text, _) ← pkg_emit_manifest_sbuf emit_single_json emit sha256 p PKG_MANIFEST_EMIT_COMPACT false;
            '(rc, mdigest) ← pkg_checksum_generate sha256 p PKG_CHECKSUM_SHA256_LEN (digest_format m);
            match rc with
            | EPKG_OK => Some (Ready (mk_ready origin (default [] mdigest) text files checksum))
            | _ => Some Failed
            end
        end)
  end.
End worker.

(** ** The line of a package *)

Record digest_list_entry := mk_entry {
  origin : cstring; digest : option cstring; manifest_pos : Z; files_pos : Z; manifest_length : Z; checksum : option cstring }.

(** [snprintf("%s:%s:%ld:%ld:%ld:%s\n")]; what is sent of the 1024 bytes of
    digestbuf. *)
Definition line_text (o d : cstring) (mpos fpos mlen : Z) (ck : cstring) : cstring :=
  o ++ ":"%char :: d ++ ":"%char :: print_dec mpos ++ ":"%char :: print_dec fpos ++ ":"%char :: print_dec mlen ++ ":"%char :: ck ++ [NL].

Definition datagram (text : cstring) : option cstring :=
  if (length text <? 1024)%nat then Some text
  else if Nat.eqb (length text) 1024 then Some (take 1023 text ++ [NUL])
  else None.

Definition END_MARK : cstring := str "." ++ [NL].

Inductive s_set := s_set_origin | s_set_digest | s_set_mpos | s_set_fpos | s_set_mlen | s_set_checksum.

(** [dig] is [None] where it points to nothing, or to an element of the list. *)
Record pipe_state := mk_pipe { p_state : s_set; p_dig : option digest_list_entry; p_dlist : list digest_list_entry }.

Definition at_colon (s : pipe_state) (text : cstring) : option pipe_state :=
  let dig f := d ← p_dig s; Some (Some (f d)) in
  '(next, d) ←
    match p_state s with
    | s_set_origin => Some (s_set_digest, Some (mk_entry (c_str text) None 0 0 0 None))
    | s_set_digest => d ← dig (fun d => mk_entry (origin d) (Some (c_str text)) (manifest_pos d) (files_pos d) (manifest_length d) (checksum d)); Some (s_set_mpos, d)
    | s_set_mpos => d ← dig (fun d => mk_entry (origin d) (digest d) (strtoll text).1 (files_pos d) (manifest_length d) (checksum d)); Some (s_set_fpos, d)
    | s_set_fpos => d ← dig (fun d => mk_entry (origin d) (digest d) (manifest_pos d) (strtoll text).1 (manifest_length d) (checksum d)); Some (s_set_mlen, d)
    | s_set_mlen => d ← dig (fun d => mk_entry (origin d) (digest d) (manifest_pos d) (files_pos d) (strtoll text).1 (checksum d)); Some (s_set_checksum, d)
    | s_set_checksum => None
    end;
  Some (mk_pipe next d (p_dlist s)).

(** DL_APPEND after the assertions. *)
Definition at_newline (s : pipe_state) (text : cstring) : option pipe_state :=
  d ← p_dig s;
  let d := match p_state s with
           | s_set_mlen => mk_entry (origin d) (digest d) (manifest_pos d) (files_pos d) (strtoll text).1 (checksum d)
           | s_set_checksum => mk_entry (origin d) (digest d) (manifest_pos d) (files_pos d) (manifest_length d) (Some (c_str text))
           | _ => d
           end in
  _ ← digest d;
  Some (mk_pipe s_set_origin None (p_dlist s ++ [d])).

(** The loop over the bytes of a datagram; [text] is what stands from [start],
    reversed.  The answer says that the worker is at its end. *)
Fixpoint read_bytes (buf text : cstring) (s : pipe_state) : option (bool * pipe_state) :=
  match buf with
  | [] => Some (false, s)
  | c :: buf =>
      if Ascii.eqb c ":" then s ← at_colon s (rev text); read_bytes buf [] s
      else if Ascii.eqb c NL then s ← at_newline s (rev text); Some (false, s)
      else if Ascii.eqb c "." then
        match buf with
        | [] => None
        | c' :: _ => if Ascii.eqb c' NL then Some (true, s) else read_bytes buf (c :: text) s
        end
      else read_bytes buf (c :: text) s
  end.

(** The datagrams that are there; then [closed] says whether the other end is. *)
Fixpoint read_grams (grams : list cstring) (closed : bool) (s : pipe_state) : option (pkg_error_t * pipe_state) :=
  match grams with
  | [] => Some (if closed then EPKG_END else EPKG_OK, s)
  | g :: grams =>
      '(ended, s) ← read_bytes (take 1024 g) [] s;
      if ended : bool then Some (EPKG_END, s) else read_grams grams closed s
  end.

Definition pkg_create_repo_read_pipe (grams : list cstring) (closed : bool) (dlist : list digest_list_entry)
  : option (pkg_error_t * list digest_list_entry) :=
  '(rc, s) ← read_grams grams closed (mk_pipe s_set_origin None dlist); Some (rc, p_dlist s).

(** ** The processes *)

(** Where a worker is: before the next package, before the manifest, before the
    list of files, before the line is sent, or gone. *)
Inductive phase := Next | Manifest (r : ready) | Files (r : ready) (mpos : nat) | Send (r : ready) (mpos fpos : nat) | Exited.

(** [wk_queue] are the datagrams on the way to the parent; [wk_open] says that
    the parent's end is open. *)
Record worker := mk_worker { wk_todo : list pkg_fts_item; wk_phase : phase; wk_queue : list cstring; wk_open : bool }.

(** The files that are shared, the workers and the parent's list. *)
Record creation := mk_creation { site : cstring; flist : cstring; workers : list worker; dlist : list digest_list_entry }.

Inductive event := Work (i : nat) | Poll (i : nat).

Section run.
Context (outcome : pkg_fts_item -> prepared) (read_files : bool).

(** A step of a worker: the two files and itself. *)
Definition work (site files : cstring) (w : worker) : option (cstring * cstring * worker) :=
  let go ph := mk_worker (wk_todo w) ph (wk_queue w) (wk_open w) in
  match wk_phase w with
  | Exited => None
  | Next =>
      match wk_todo w with
      | [] => Some (site, files, mk_worker [] Exited (wk_queue w ++ [END_MARK]) (wk_open w))
      | cur :: todo =>
          Some (site, files,
            match outcome cur with
            | Skipped => mk_worker todo Next (wk_queue w) (wk_open w)
            | Failed => mk_worker todo Exited (wk_queue w ++ [END_MARK]) (wk_open w)
            | Crashed => mk_worker todo Exited (wk_queue w) (wk_open w)
            | Ready r => mk_worker todo (Manifest r) (wk_queue w) (wk_open w)
            end)
      end
  | Manifest r => Some (site ++ r_manifest r ++ [NL], files, go (Files r (length site)))
  | Files r mpos =>
      if read_files then
        match r_files r with
        | Some text => Some (site, files ++ text, go (Send r mpos (length files)))
        | None => Some (site, files, go Exited)
        end
      else Some (site, files, go (Send r mpos 0))
  | Send r mpos fpos =>
      g ← datagram (line_text (r_origin r) (r_digest r) (Z.of_nat mpos) (Z.of_nat fpos) (Z.of_nat (length (r_manifest r))) (r_checksum r));
      Some (site, files, mk_worker (wk_todo w) Next (wk_queue w ++ [g]) (wk_open w))
  end.

Definition exited (w : worker) : bool := match wk_phase w with Exited => true | _ => false end.

(** poll reports the socket: there is something to read, or the worker is gone. *)
Definition readable (w : worker) : bool := wk_open w && (negb (Nat.eqb (length (wk_queue w)) 0) || exited w).

Definition poll (dl : list digest_list_entry) (w : worker) : option (list digest_list_entry * worker) :=
  '(rc, dl) ← pkg_create_repo_read_pipe (wk_queue w) (exited w) dl;
  Some (dl, mk_worker (wk_todo w) (wk_phase w) [] (match rc with EPKG_OK => true | _ => false end)).

(** What is no step of this state leaves it as it is. *)
Definition step (s : creation) (e : event) : option creation :=
  match e with
  | Work i =>
      match workers s !! i with
      | Some w =>
          if exited w then Some s
          else '(site, files, w) ← work (site s) (flist s) w; Some (mk_creation site files (<[i := w]> (workers s)) (dlist s))
      | None => Some s
      end
  | Poll i =>
      match workers s !! i with
      | Some w =>
          if readable w then '(dl, w) ← poll (dlist s) w; Some (mk_creation (site s) (flist s) (<[i := w]> (workers s)) dl)
          else Some s
      | None => Some s
      end
  end.

Definition run (s : creation) (schedule : list event) : option creation := fold_opt step schedule s.

Definition start_worker (todo : list pkg_fts_item) : worker := mk_worker todo Next [] true.

Definition start (todo : list (list pkg_fts_item)) : creation := mk_creation [] [] (map start_worker todo) [].

Definition remaining_workers (s : creation) : nat := length (List.filter wk_open (workers s)).
End run.

(** ** The repository *)

Definition pkg_digest_sort_compare_func (d1 d2 : digest_list_entry) : Z := strcmp (origin d1) (origin d2).

Definition digest_line (d : digest_list_entry) : cstring :=
  let text := origin d ++ ":"%char :: default (str "(null)") (digest d) ++ ":"%char :: print_dec (manifest_pos d) ++ ":"%char :: print_dec (files_pos d)
                ++ ":"%char :: print_dec (manifest_length d) in
  match checksum d with Some ck => text ++ ":"%char :: ck ++ [NL] | None => text ++ [NL] end.

(** What is written: the manifests, the lists of files, the digests, and the
    metadata. *)
Record repository := mk_repository { rp_packagesite : cstring; rp_filesite : cstring; rp_digests : cstring; rp_meta : option (list (cstring * ucl)) }.

Section create.
Context (emit_single_json : ucl -> cstring) (emit : ucl_emitter -> ucl -> cstring) (sha256 : cstring -> list Z).
Context (pkg_open : cstring -> bool -> option (pkg * cstring)).

(** [path_is_dir] and [output_is_dir]: the directories are there, or can be made;
    [metafile]: what pkg_repo_meta_load gives for the file, if one is named;
    [tree]: what fts reads; [can_open] and [can_write]: files; [ncpu]: the
    processors, when WORKERS_COUNT says nothing; [can_spawn]: the socket and the
    process of a worker.  The answer is [None] as long as there are workers. *)
Definition pkg_create_repo (path_is_dir output_is_dir : bool) (path : cstring) (metafile : option (option pkg_repo_meta)) (tree : option (list ftsent))
    (can_open : cstring -> bool) (can_write : bool) (filelist legacy : bool) (workers_count ncpu : Z) (can_spawn : nat -> bool) (schedule : list event)
  : option (pkg_error_t * option repository) :=
  if negb path_is_dir || negb output_is_dir then Some (EPKG_FATAL, None)
  else
    match (match metafile with None => Some pkg_repo_meta_default | Some loaded => loaded end) with
    | None => Some (EPKG_FATAL, None)
    | Some m =>
        let num_workers := if workers_count <=? 0 then ncpu else workers_count in
        match tree with
        | None => Some (EPKG_FATAL, None)
        | Some fts =>
            names ← (s ← manifests m; f ← (if filelist then filesite m else Some []); d ← digests m; Some (s, f, d));
            let '(s, f, d) := names in
            if negb (can_open s) || (filelist && negb (can_open f)) || negb (can_open d) then Some (EPKG_FATAL, None)
            else
              match pkg_create_repo_read_fts m path fts with
              | [] => Some (EPKG_FATAL, Some (mk_repository [] [] [] None))
              | items =>
                  let todo := shares num_workers items in
                  if negb (forallb can_spawn (seq 0 (length todo))) then Some (EPKG_FATAL, Some (mk_repository [] [] [] None))
                  else
                    s ← run (prepare emit_single_json emit sha256 pkg_open filelist (if legacy then None else Some m)) filelist (start todo) schedule;
                    if Nat.eqb (remaining_workers s) 0 then
                      let meta := if negb legacy && can_write then Some (pkg_repo_meta_to_ucl m) else None in
                      Some (EPKG_OK, Some (mk_repository (site s) (flist s)
                        (concat (map digest_line (ll_sort pkg_digest_sort_compare_func (dlist s)))) meta))
                    else None
              end
        end
    end.
End create.

(** ** Packing (pkg_finish_repo) *)

Section finish.
Context (sha256 : cstring -> list Z) {PK : Type} (RSA_sign : string -> cstring -> PK -> option cstring).
Context (key_bytes : pkg_repo_meta_key -> cstring) (ucl_parser : cstring -> option (list (cstring * ucl))) (ucl_object_validate : list (cstring * ucl) -> bool).

(** The arguments: none, a key, or signing_command: and a command; [Unknown]
    more than one of another kind. *)
Inductive signing := Unsigned | Key (rsa : PK) | Command (command : cstring -> cstring * bool) | Unknown.

Definition key_of (s : signing) : option PK := match s with Key rsa => Some rsa | _ => None end.
Definition command_of (s : signing) : option (cstring -> cstring * bool) := match s with Command c => Some c | _ => None end.

(** The files of the directory, and the archives made, without their
    extension. *)
Record packing_state := mk_packing { pk_files : gmap cstring cstring; pk_archives : list (cstring * list archive_entry) }.

(** pkg_repo_pack_db, which removes the file; one that is not there is neither
    signed by a key (its digest was never written) nor by a command. *)
Definition pack (s : signing) (name archive path : cstring) (st : packing_state) : option (pkg_error_t * packing_state) :=
  '(rc, a) ←
    match pk_files st !! path with
    | Some content => pkg_repo_pack_db sha256 RSA_sign name content (key_of s) (command_of s)
    | None => match s with Key _ => None | Command _ => Some (EPKG_FATAL, []) | _ => Some (EPKG_OK, []) end
    end;
  Some (rc, mk_packing (delete path (pk_files st)) (match rc with EPKG_OK => pk_archives st ++ [(archive, a)] | _ => pk_archives st end)).

Definition in_dir (output_dir name : cstring) : cstring := snprintf MAXPATHLEN (output_dir ++ SLASH :: name).

(** A file of the repository, named in the metadata. *)
Definition pack_named (s : signing) (output_dir : cstring) (name archive : option cstring) (st : packing_state) : option (pkg_error_t * packing_state) :=
  name ← name; archive ← archive; pack s name (in_dir output_dir archive) (in_dir output_dir name) st.

Definition pkg_finish_repo (output_is_dir : bool) (output_dir : cstring) (s : signing) (filelist : bool) (files : gmap cstring cstring)
  : option (pkg_error_t * packing_state) :=
  let st := mk_packing files [] in
  if negb output_is_dir then Some (EPKG_FATAL, st)
  else
    match s with
    | Unknown => Some (EPKG_FATAL, st)
    | _ =>
        let path := in_dir output_dir (str "meta") in
        let m := pkg_repo_meta_default in
        '(rc, st) ←
          match files !! path with
          | Some text =>
              '(rc, _) ← pkg_repo_meta_load key_bytes ucl_parser ucl_object_validate (Some text);
              match rc with EPKG_OK => pack s (str "meta") path path st | _ => Some (EPKG_FATAL, st) end
          | None => Some (EPKG_OK, st)
          end;
        match rc with
        | EPKG_OK =>
            '(rc, st) ← pack_named s output_dir (manifests m) (manifests_archive m) st;
            match rc with
            | EPKG_OK =>
                '(rc, st) ← (if filelist then pack_named s output_dir (filesite m) (filesite_archive m) st else Some (EPKG_OK, st));
                match rc with
                | EPKG_OK =>
                    '(rc, st) ← pack_named s output_dir (digests m) (digests_archive m) st;
                    Some (match rc with EPKG_OK => EPKG_OK | _ => EPKG_FATAL end, st)
                | _ => Some (EPKG_FATAL, st)
                end
            | _ => Some (EPKG_FATAL, st)
            end
        | _ => Some (EPKG_FATAL, st)
        end
    end.
End finish.

(** ** Lines through the socket *)

Definition plain_byte (c : ascii) : Prop := c <> ":"%char /\ c <> NL /\ c <> NUL.

(** A package with its places in the two files. *)
Definition placed : Type := ready * nat * nat.

Definition placed_line (x : placed) : cstring :=
  let '(r, mpos, fpos) := x in
  line_text (r_origin r) (r_digest r) (Z.of_nat mpos) (Z.of_nat fpos) (Z.of_nat (length (r_manifest r))) (r_checksum r).

Definition entry_of (x : placed) : digest_list_entry :=
  let '(r, mpos, fpos) := x in
  mk_entry (r_origin r) (Some (r_digest r)) (Z.of_nat mpos) (Z.of_nat fpos) (Z.of_nat (length (r_manifest r))) (Some (r_checksum r)).

(** What can be sent in a line. *)
Record sendable_line (r : ready) : Prop := mk_sendable_line {
  sl_origin : Forall plain_byte (r_origin r);
  sl_digest : Forall plain_byte (r_digest r);
  sl_checksum : Forall plain_byte (r_checksum r) /\ "."%char ∉ r_checksum r;
  sl_length : (length (r_origin r) + length (r_digest r) + length (r_checksum r) < 900)%nat }.

Definition small (n : nat) : Prop := Z.of_nat n <= LLONG_MAX.

Lemma plain_c_str s : Forall plain_byte s -> c_str s = s.
Proof. intros Hs. apply c_str_id. eapply Forall_impl; [exact Hs|]. by intros c (_ & _ & ?). Qed.

Lemma digit_plain c : isdigit c = true -> plain_byte c.
Proof. intros H. split_and!; by intros ->. Qed.

Lemma dec_plain v : Forall plain_byte (print_dec v).
Proof. eapply Forall_impl; [exact (print_base_digits 10 v ltac:(lia))|]. apply digit_plain. Qed.

Lemma strtoll_dec n : small n -> (strtoll (print_dec (Z.of_nat n))).1 = Z.of_nat n.
Proof.
  intros Hn. pose proof (strtoll_digits false 0 (Z.of_nat n) [] ltac:(unfold small in Hn; lia) eq_refl) as H.
  cbn [replicate app] in H. rewrite app_nil_r in H. by rewrite H.
Qed.

Lemma itoa_length fuel base : 2 <= base -> forall n acc k, 0 <= n < base ^ Z.of_nat (S k) -> (length (itoa fuel base n acc) <= length acc + S k)%nat.
Proof.
  intros Hb. induction fuel as [|fuel IH]; intros n acc k Hn; cbn [itoa]; [lia|].
  destruct (Z.eqb_spec (n / base) 0) as [|Hq]; [cbn [length]; lia|].
  destruct k as [|k].
  - exfalso. apply Hq. apply Z.div_small. change (Z.of_nat 1) with 1 in Hn. rewrite Z.pow_1_r in Hn. lia.
  - etrans; [apply (IH _ _ k)|cbn [length]; lia]. split; [apply Z.div_pos; lia|].
    apply Z.div_lt_upper_bound; [lia|]. replace (Z.of_nat (S (S k))) with (1 + Z.of_nat (S k)) in Hn by lia. rewrite Z.pow_add_r, Z.pow_1_r in Hn by lia. lia.
Qed.

Lemma dec_length n : small n -> (length (print_dec (Z.of_nat n)) <= 19)%nat.
Proof.
  intros Hn. unfold print_dec, print_base. pose proof (itoa_length (S (Z.to_nat (Z.log2 (Z.of_nat n)))) 10 ltac:(lia) (Z.of_nat n) [] 18) as H.
  cbn [length] in H. apply H. unfold small, LLONG_MAX in Hn. change (10 ^ Z.of_nat 19) with 10000000000000000000. lia.
Qed.

Lemma line_fits r mpos fpos : sendable_line r -> small mpos -> small fpos -> small (length (r_manifest r)) ->
  datagram (placed_line (r, mpos, fpos)) = Some (placed_line (r, mpos, fpos)) /\ (length (placed_line (r, mpos, fpos)) <= 1024)%nat.
Proof.
  intros Hr Hm Hf Hl. pose proof (sl_length _ Hr) as H. assert (length (placed_line (r, mpos, fpos)) < 1024)%nat as Hlt.
  { unfold placed_line, line_text. repeat (rewrite length_app || cbn [length]). pose proof (dec_length _ Hm). pose proof (dec_length _ Hf). pose proof (dec_length _ Hl). lia. }
  unfold datagram. rewrite (proj2 (Nat.ltb_lt _ _) Hlt). split; [done|lia].
Qed.

(** A field and the colon after it. *)
Lemma read_field f : forall buf acc s, Forall plain_byte f -> read_bytes (f ++ ":"%char :: buf) acc s = (s ← at_colon s (rev acc ++ f); read_bytes buf [] s).
Proof.
  induction f as [|c f IH]; intros buf acc s Hf.
  - cbn. by rewrite app_nil_r.
  - apply Forall_cons in Hf as [(H1 & H2 & _) Hf]. cbn [read_bytes app].
    destruct (Ascii.eqb_spec c ":"%char) as [|_]; [done|]. destruct (Ascii.eqb_spec c NL) as [|_]; [done|].
    assert (forall x, x = read_bytes (f ++ ":"%char :: buf) (c :: acc) s -> x = (s ← at_colon s (rev acc ++ c :: f); read_bytes buf [] s)) as Hgo.
    { intros x ->. rewrite IH by done. cbn [rev]. by rewrite <- app_assoc. }
    destruct (Ascii.eqb c "."); [|by apply Hgo].
    destruct (f ++ ":"%char :: buf) as [|c' t] eqn:Et; [by destruct f|].
    assert (c' <> NL) as Hc by (destruct f as [|x f]; injection Et as <- _; [done|by apply Forall_cons in Hf as [(_ & ? & _) _]]).
    destruct (Ascii.eqb_spec c' NL) as [|_]; [done|]. by apply Hgo.
Qed.

(** The last field and the newline. *)
Lemma read_last f : forall acc s, Forall plain_byte f -> "."%char ∉ f -> read_bytes (f ++ [NL]) acc s = (s ← at_newline s (rev acc ++ f); Some (false, s)).
Proof.
  induction f as [|c f IH]; intros acc s Hf Hdot.
  - cbn. by rewrite app_nil_r.
  - apply Forall_cons in Hf as [(H1 & H2 & _) Hf]. apply not_elem_of_cons in Hdot as [Hc Hdot]. cbn [read_bytes app].
    destruct (Ascii.eqb_spec c ":"%char) as [|_]; [done|]. destruct (Ascii.eqb_spec c NL) as [|_]; [done|].
    destruct (Ascii.eqb_spec c "."%char) as [->|_]; [done|]. rewrite IH by done. cbn [rev]. by rewrite <- app_assoc.
Qed.

Lemma read_line r mpos fpos dl : sendable_line r -> small mpos -> small fpos -> small (length (r_manifest r)) ->
  read_bytes (take 1024 (placed_line (r, mpos, fpos))) [] (mk_pipe s_set_origin None dl) =
    Some (false, mk_pipe s_set_origin None (dl ++ [entry_of (r, mpos, fpos)])).
Proof.
  intros Hr Hm Hf Hl. destruct (line_fits r mpos fpos Hr Hm Hf Hl) as [_ Hlen]. rewrite take_ge by done. destruct Hr as [Ho Hd [Hc Hdot] _].
  unfold placed_line, line_text.
  rewrite read_field by done. cbn [at_colon p_state p_dlist mbind option_bind rev app].
  rewrite read_field by done. cbn [at_colon p_state p_dig p_dlist mbind option_bind rev app].
  rewrite read_field by apply dec_plain. cbn [at_colon p_state p_dig p_dlist mbind option_bind rev app].
  rewrite read_field by apply dec_plain. cbn [at_colon p_state p_dig p_dlist mbind option_bind rev app].
  rewrite read_field by apply dec_plain. cbn [at_colon p_state p_dig p_dlist mbind option_bind rev app].
  rewrite read_last by done. cbn [at_newline p_state p_dig p_dlist mbind option_bind rev app origin digest manifest_pos files_pos manifest_length checksum].
  rewrite !strtoll_dec, !plain_c_str by done. reflexivity.
Qed.

Definition readable_line (x : placed) : Prop :=
  let '(r, mpos, fpos) := x in sendable_line r /\ small mpos /\ small fpos /\ small (length (r_manifest r)).

Lemma read_lines l : forall rest closed dl, Forall readable_line l ->
  read_grams (map placed_line l ++ rest) closed (mk_pipe s_set_origin None dl) =
    read_grams rest closed (mk_pipe s_set_origin None (dl ++ map entry_of l)).
Proof.
  induction l as [|[[r mpos] fpos] l IH]; intros rest closed dl Hl; cbn [map app].
  - by rewrite app_nil_r.
  - apply Forall_cons in Hl as [(H1 & H2 & H3 & H4) Hl]. cbn [read_grams]. rewrite read_line by done. cbn [mbind option_bind]. rewrite IH by done. by rewrite <- app_assoc.
Qed.

(** The lines of a worker, and its end. *)
Lemma read_pipe_lines l (ended closed : bool) dl : Forall readable_line l ->
  pkg_create_repo_read_pipe (map placed_line l ++ (if ended then [END_MARK] else [])) closed dl =
    Some (if ended || closed then EPKG_END else EPKG_OK, dl ++ map entry_of l).
Proof. intros Hl. unfold pkg_create_repo_read_pipe. rewrite read_lines by done. by destruct ended, closed. Qed.

(** ** What a run keeps *)

Section runs.
Context (outcome : pkg_fts_item -> prepared) (read_files : bool).

Abbreviation do_step := (step outcome read_files).
Abbreviation do_run := (run outcome read_files).

(** A package whose line will be sent. *)
Definition listable (r : ready) : bool := negb read_files || bool_decide (is_Some (r_files r)).

(** The packages of a share whose lines are sent: up to the first that stops the
    worker. *)
Fixpoint produced (todo : list pkg_fts_item) : list ready :=
  match todo with
  | [] => []
  | cur :: todo =>
      match outcome cur with
      | Skipped => produced todo
      | Ready r => if listable r then r :: produced todo else []
      | Failed | Crashed => []
      end
  end.

(** What a worker has still to send. *)
Definition left_over (w : worker) : list ready :=
  match wk_phase w with
  | Exited => []
  | Next => produced (wk_todo w)
  | Manifest r | Files r _ => if listable r then r :: produced (wk_todo w) else []
  | Send r _ _ => r :: produced (wk_todo w)
  end.

(** The manifest at its place, before a newline. *)
Definition manifest_at (text : cstring) (r : ready) (pos : nat) : Prop :=
  exists before rest, text = before ++ r_manifest r ++ NL :: rest /\ length before = pos.

Definition files_at (text : cstring) (r : ready) (pos : nat) : Prop :=
  if read_files then exists before l rest, r_files r = Some l /\ text = before ++ l ++ rest /\ length before = pos else pos = O.

Definition located (site files : cstring) (x : placed) : Prop := let '(r, mpos, fpos) := x in manifest_at site r mpos /\ files_at files r fpos.

Definition phase_ok (site files : cstring) (ph : phase) : Prop :=
  match ph with
  | Files r mpos => manifest_at site r mpos
  | Send r mpos fpos => located site files (r, mpos, fpos)
  | _ => True
  end.

(** A worker with its share, what was read of it and what is on the way. *)
Definition share_of (g : list pkg_fts_item * list placed * list placed) : list pkg_fts_item := g.1.1.
Definition got (g : list pkg_fts_item * list placed * list placed) : list placed := g.1.2.
Definition sent_of (g : list pkg_fts_item * list placed * list placed) : list placed := g.2.

Record worker_ok (site files : cstring) (g : list pkg_fts_item * list placed * list placed) (w : worker) : Prop := mk_worker_ok {
  wo_all : map (fun x : placed => x.1.1) (got g ++ sent_of g) ++ left_over w = produced (share_of g);
  wo_queue : exists ended : bool, wk_queue w = map placed_line (sent_of g) ++ (if ended then [END_MARK] else []) /\ (ended = true -> exited w = true);
  wo_located : Forall (located site files) (got g ++ sent_of g);
  wo_phase : phase_ok site files (wk_phase w);
  wo_closed : wk_open w = false -> exited w = true /\ sent_of g = [] }.

(** Each worker, and the parent's list. *)
Record creation_ok (todo : list (list pkg_fts_item)) (s : creation) (gs : list (list pkg_fts_item * list placed * list placed)) : Prop := mk_creation_ok {
  co_shares : map share_of gs = todo;
  co_workers : Forall2 (worker_ok (site s) (flist s)) gs (workers s);
  co_dlist : dlist s ≡ₚ concat (map (fun g => map entry_of (got g)) gs) }.

Lemma manifest_at_app text t r pos : manifest_at text r pos -> manifest_at (text ++ t) r pos.
Proof. intros (b & rest & -> & Hl). exists b, (rest ++ t). split; [|done]. by rewrite <- !app_assoc, <- app_comm_cons. Qed.

Lemma files_at_app text t r pos : files_at text r pos -> files_at (text ++ t) r pos.
Proof.
  unfold files_at. destruct read_files; [|done]. intros (b & l & rest & Hr & -> & Hl). exists b, l, (rest ++ t). split_and!; [done| |done]. by rewrite <- !app_assoc.
Qed.

Lemma worker_ok_app site files t u g w : worker_ok site files g w -> worker_ok (site ++ t) (files ++ u) g w.
Proof.
  assert (forall x, located site files x -> located (site ++ t) (files ++ u) x) as Hloc
    by (intros [[r m] f] [H1 H2]; split; [by apply manifest_at_app|by apply files_at_app]).
  intros [H1 H2 H3 H4 H5]. split; [done|done| | |done].
  - eapply Forall_impl; [exact H3|exact Hloc].
  - destruct (wk_phase w); try done; [by apply manifest_at_app|by apply Hloc].
Qed.

Lemma start_ok todo : creation_ok todo (start todo) (map (fun l => (l, [], [])) todo).
Proof.
  split.
  - rewrite map_map. apply map_id.
  - cbn [workers start site flist]. induction todo as [|l todo IH]; [constructor|]. cbn [map]. constructor; [|exact IH].
    split; [done|by exists false|done|done|done].
  - cbn [dlist start]. induction todo as [|l todo IH]; [done|exact IH].
Qed.

(** A step of a worker, of what it has. *)
Lemma work_ok site files g w site' files' w' : worker_ok site files g w -> work outcome read_files site files w = Some (site', files', w') ->
  (forall r m f, wk_phase w = Send r m f -> datagram (placed_line (r, m, f)) = Some (placed_line (r, m, f))) ->
  (exists t u, site' = site ++ t /\ files' = files ++ u) /\ exists g', share_of g' = share_of g /\ got g' = got g /\ worker_ok site' files' g' w'.
Proof.
  intros Hw. pose proof Hw as [Hall (ended & Hq & He) Hloc Hph Hcl]. destruct g as [[share gt] st]. cbn [got sent_of share_of fst snd] in *.
  assert (exited w = false -> ended = false) as Hnend by (destruct ended; [intros E; rewrite (He eq_refl) in E; done|done]).
  assert (exited w = false -> wk_open w = true) as Hopen by (destruct (wk_open w); [done|intros E; destruct (Hcl eq_refl) as [H _]; congruence]).
  unfold work, left_over in *. destruct (wk_phase w) as [|r|r mpos|r mpos fpos|] eqn:Eph; [| | | |done];
    (assert (exited w = false) as Hex by (unfold exited; by rewrite Eph)); specialize (Hnend Hex); specialize (Hopen Hex); subst ended; rewrite app_nil_r in Hq.
  - intros H _. destruct (wk_todo w) as [|cur todo].
    + injection H as <- <- <-. split; [exists [], []; by rewrite !app_nil_r|]. exists (share, gt, st). split_and!; [done|done|].
      split; [exact Hall|exists true; split; [cbn [wk_queue sent_of snd]; by rewrite Hq|done]|done|done|]. intros E. cbn in E. congruence.
    + injection H as <- <- <-. split; [exists [], []; by rewrite !app_nil_r|]. exists (share, gt, st). split_and!; [done|done|].
      cbn [produced] in Hall. unfold got, sent_of, share_of; cbn [fst snd] in *. destruct (outcome cur) as [| | |r].
      * split; [exact Hall|exists false; by rewrite app_nil_r|done|done|intros E; cbn in E; congruence].
      * split; [exact Hall|exists true; split; [cbn [wk_queue sent_of snd]; by rewrite <- Hq|done]|done|done|intros E; cbn in E; congruence].
      * split; [exact Hall|exists false; by rewrite app_nil_r|done|done|intros E; cbn in E; congruence].
      * split; [exact Hall|exists false; by rewrite app_nil_r|done|done|intros E; cbn in E; congruence].
  - intros H _. injection H as <- <- <-. split; [exists (r_manifest r ++ [NL]), []; by rewrite app_nil_r|]. exists (share, gt, st). split_and!; [done|done|].
    pose proof (worker_ok_app site files (r_manifest r ++ [NL]) [] _ _ Hw) as [_ _ Hloc' _ _]. rewrite app_nil_r in Hloc'.
    split; [exact Hall|exists false; by rewrite app_nil_r|exact Hloc'| |intros E; cbn in E; congruence].
    exists site, []. by split.
  - intros H _. unfold listable in Hall. destruct read_files eqn:Erf.
    + cbn [negb orb] in Hall. destruct (r_files r) as [text|] eqn:Efiles.
      * injection H as <- <- <-. rewrite bool_decide_eq_true_2 in Hall by (by eexists).
        split; [exists [], text; by rewrite app_nil_r|]. exists (share, gt, st). split_and!; [done|done|].
        pose proof (worker_ok_app site files [] text _ _ Hw) as [_ _ Hloc' Hph' _]. rewrite app_nil_r in Hloc', Hph'. rewrite Eph in Hph'.
        split; [exact Hall|exists false; by rewrite app_nil_r|exact Hloc'| |intros E; cbn in E; congruence].
        split; [exact Hph'|]. unfold files_at. rewrite Erf. exists files, text, []. by rewrite app_nil_r.
      * injection H as <- <- <-. rewrite bool_decide_eq_false_2 in Hall by (intros [? ?]; done).
        split; [exists [], []; by rewrite !app_nil_r|]. exists (share, gt, st). split_and!; [done|done|].
        split; [exact Hall|exists false; by rewrite app_nil_r|done|done|intros E; cbn in E; congruence].
    + cbn [negb orb] in Hall. injection H as <- <- <-. split; [exists [], []; by rewrite !app_nil_r|]. exists (share, gt, st). split_and!; [done|done|].
      split; [exact Hall|exists false; by rewrite app_nil_r|done| |intros E; cbn in E; congruence].
      split; [exact Hph|]. unfold files_at. by rewrite Erf.
  - intros H Hd. specialize (Hd _ _ _ eq_refl). unfold placed_line in Hd. rewrite Hd in H. cbn [mbind option_bind] in H. injection H as <- <- <-.
    split; [exists [], []; by rewrite !app_nil_r|]. exists (share, gt, st ++ [(r, mpos, fpos)]). split_and!; [done|done|].
    split; unfold got, sent_of, share_of; cbn [fst snd wk_queue wk_phase wk_open].
    + rewrite <- Hall. rewrite !map_app. cbn [map fst]. rewrite <- !app_assoc. done.
    + exists false. rewrite Hq, map_app, app_nil_r. by split.
    + rewrite app_assoc. apply Forall_app. split; [exact Hloc|]. by apply Forall_singleton.
    + done.
    + intros E. congruence.
Qed.
(** *** Room for positions *)

(** What a package adds to the two files. *)
Definition bytes_of (r : ready) : nat := length (r_manifest r) + 1 + length (default [] (r_files r)).

Definition todo_bytes (todo : list pkg_fts_item) : nat :=
  sum_list (map (fun cur => match outcome cur with Ready r => bytes_of r | _ => O end) todo).

Definition pending_bytes (w : worker) : nat :=
  match wk_phase w with
  | Next | Send _ _ _ => todo_bytes (wk_todo w)
  | Manifest r => bytes_of r + todo_bytes (wk_todo w)
  | Files r _ => length (default [] (r_files r)) + todo_bytes (wk_todo w)
  | Exited => O
  end.

Definition all_bytes (s : creation) : nat := length (site s) + length (flist s) + sum_list (map pending_bytes (workers s)).

Lemma work_bytes si fi w si' fi' w' : work outcome read_files si fi w = Some (si', fi', w') ->
  (length si' + length fi' + pending_bytes w' <= length si + length fi + pending_bytes w)%nat.
Proof.
  unfold work, pending_bytes. destruct (wk_phase w) as [|r|r m|r m f|] eqn:E; [| | | |done].
  - destruct (wk_todo w) as [|cur todo] eqn:Et; intros [= <- <- <-]; [cbn; lia|]. unfold todo_bytes. cbn [map sum_list_with id]. destruct (outcome cur); cbn [wk_phase wk_todo]; unfold id; lia.
  - intros [= <- <- <-]. cbn [wk_phase wk_todo]. rewrite !length_app. unfold bytes_of. cbn [length]. lia.
  - destruct read_files; [destruct (r_files r)|]; intros [= <- <- <-]; rewrite ?length_app; cbn -[todo_bytes]; lia.
  - destruct (datagram _); [|done]. intros [= <- <- <-]. cbn -[todo_bytes]. lia.
Qed.

Lemma sum_insert {A} (f : A -> nat) l i x y : l !! i = Some x -> (sum_list (map f (<[i := y]> l)) + f x = sum_list (map f l) + f y)%nat.
Proof.
  assert (forall z l, sum_list (map f (z :: l)) = (f z + sum_list (map f l))%nat) as Hc by done.
  revert i; induction l as [|z l IH]; intros [|i] Hi; [done..| |]; cbn in Hi.
  - injection Hi as <-. change (<[O := y]> (z :: l)) with (y :: l). rewrite !Hc. lia.
  - change (<[S i := y]> (z :: l)) with (z :: <[i := y]> l). rewrite !Hc. specialize (IH i Hi). lia.
Qed.

(** *** Steps *)

Lemma produced_from todo r : r ∈ produced todo -> exists cur, cur ∈ todo /\ outcome cur = Ready r.
Proof.
  induction todo as [|cur todo IH]; cbn [produced]; [by intros ?%elem_of_nil|]. intros H.
  destruct (outcome cur) as [| | |r'] eqn:E; try (by apply elem_of_nil in H).
  - destruct (IH H) as (c & ? & ?). exists c. split; [by right|done].
  - destruct (listable r'); [|by apply elem_of_nil in H]. apply elem_of_cons in H as [->|H]; [exists cur; split; [by left|done]|].
    destruct (IH H) as (c & ? & ?). exists c. split; [by right|done].
Qed.

Lemma located_readable si fi x : located si fi x -> sendable_line x.1.1 -> small (length si + length fi) -> readable_line x.
Proof.
  destruct x as [[r m] f]. intros [(b & rest & -> & <-) Hf] Hs Hsm. cbn [fst] in Hs. unfold readable_line, small in *. repeat (rewrite length_app in Hsm || cbn [length] in Hsm). split_and!; [done|lia| |lia].
  unfold files_at in Hf. destruct read_files; [|subst f; unfold LLONG_MAX; lia]. destruct Hf as (b' & l & rest' & _ & -> & <-). rewrite !length_app in Hsm. lia.
Qed.

Lemma poll_ok si fi g w dl : worker_ok si fi g w -> (forall r, r ∈ produced (share_of g) -> sendable_line r) -> small (length si + length fi) ->
  exists w', poll dl w = Some (dl ++ map entry_of (sent_of g), w') /\ worker_ok si fi (share_of g, got g ++ sent_of g, []) w' /\ pending_bytes w' = pending_bytes w /\
    wk_todo w' = wk_todo w /\ wk_phase w' = wk_phase w /\ wk_queue w' = [] /\ (exited w = true -> wk_open w' = false).
Proof.
  intros [Hall (ended & Hq & He) Hloc Hph Hcl] Hs Hsm. unfold poll. rewrite Hq.
  assert (Forall readable_line (sent_of g)) as Hr.
  { apply Forall_forall. intros x Hx. eapply (located_readable si fi); [|apply Hs|done].
    - eapply Forall_forall; [exact Hloc|]. apply elem_of_app. by right.
    - rewrite <- Hall. apply elem_of_app. left. apply elem_of_map. exists x. split; [done|]. apply elem_of_app. by right. }
  rewrite read_pipe_lines by done. cbn [mbind option_bind]. eexists. split; [done|].
  assert (exited w = true -> ended || exited w = true) as Hx by (intros ->; by rewrite orb_true_r).
  split_and!; [|done..|].
  - split; unfold got, share_of, sent_of; cbn [fst snd wk_queue wk_phase wk_open].
    + by rewrite app_nil_r.
    + by exists false.
    + by rewrite app_nil_r.
    + done.
    + intros Ho. split; [|done]. unfold exited at 1. cbn [wk_phase]. fold (exited w). destruct (exited w); [done|]. destruct ended; [by apply He|done].
  - intros Hxt. cbn [wk_open]. by rewrite Hx.
Qed.

Lemma workers_insert todo s gs i g w g' w' si fi dl :
  creation_ok todo s gs -> gs !! i = Some g -> workers s !! i = Some w -> share_of g' = share_of g ->
  (exists t u, si = site s ++ t /\ fi = flist s ++ u) -> worker_ok si fi g' w' ->
  dl ≡ₚ concat (map (fun g => map entry_of (got g)) (<[i := g']> gs)) ->
  creation_ok todo (mk_creation si fi (<[i := w']> (workers s)) dl) (<[i := g']> gs).
Proof.
  intros [Hsh Hws _] Hg Hwk Hs' (t & u & -> & ->) Hok Hdl. split; [|cbn [workers site flist]|exact Hdl].
  - rewrite <- Hsh, list_fmap_insert, Hs'. apply list_insert_id. rewrite list_lookup_fmap, Hg. done.
  - apply Forall2_insert; [|exact Hok]. eapply Forall2_impl; [exact Hws|]. intros g1 w1. apply worker_ok_app.
Qed.

Lemma concat_insert_same {A B} (f : A -> list B) l i x y : l !! i = Some x -> f y = f x -> map f (<[i := y]> l) = map f l.
Proof. intros Hl Hf. rewrite list_fmap_insert. apply list_insert_id. rewrite list_lookup_fmap, Hl. cbn. by rewrite Hf. Qed.

Lemma concat_insert_app {A B} (f : A -> list B) l i x y t : l !! i = Some x -> f y = f x ++ t -> concat (map f (<[i := y]> l)) ≡ₚ concat (map f l) ++ t.
Proof.
  revert i; induction l as [|z l IH]; intros [|i] Hi Hf; [done..| |]; cbn in Hi.
  - injection Hi as <-. cbn. rewrite Hf. solve_Permutation.
  - cbn. rewrite (IH i Hi Hf). by rewrite app_assoc.
Qed.

Lemma step_ok todo s gs e : creation_ok todo s gs -> (forall l cur r, l ∈ todo -> cur ∈ l -> outcome cur = Ready r -> sendable_line r) -> small (all_bytes s) ->
  exists s' gs', do_step s e = Some s' /\ creation_ok todo s' gs' /\ (all_bytes s' <= all_bytes s)%nat.
Proof.
  intros Hok Hs Hsm. pose proof Hok as [Hsh Hws Hdl].
  assert (forall i g r, gs !! i = Some g -> r ∈ produced (share_of g) -> sendable_line r) as Hsend.
  { intros i g r Hg Hr. apply produced_from in Hr as (cur & Hc & Ho). eapply (Hs (share_of g)); [|exact Hc|exact Ho]. rewrite <- Hsh. apply elem_of_map.
    exists g. split; [done|]. by eapply list_elem_of_lookup_2. }
  assert (small (length (site s) + length (flist s))) as Hsm2 by (unfold all_bytes, small in *; lia).
  destruct e as [i|i]; cbn [step]; (destruct (workers s !! i) as [w|] eqn:Ew; [|by exists s, gs]);
    (destruct (Forall2_lookup_r _ _ _ _ _ Hws Ew) as (g & Hg & Hw)).
  - destruct (exited w) eqn:Ex; [by exists s, gs|].
    assert (forall r m f, wk_phase w = Send r m f -> datagram (placed_line (r, m, f)) = Some (placed_line (r, m, f))) as Hd.
    { intros r m f Eph. pose proof Hw as [Hall _ _ Hph _]. rewrite Eph in Hph. unfold left_over in Hall. rewrite Eph in Hall. cbn [phase_ok] in Hph.
      eapply located_readable in Hph as (H1 & H2 & H3 & H4); [by apply line_fits|apply (Hsend i g); [done|]|done].
      rewrite <- Hall. apply elem_of_app. right. by left. }
    destruct (work outcome read_files (site s) (flist s) w) as [[[si fi] w']|] eqn:Ework.
    + destruct (work_ok _ _ g _ _ _ _ Hw Ework Hd) as (Happ & g' & Hs' & Hgot & Hw'). cbn [mbind option_bind]. eexists _, (<[i := g']> gs). split; [done|]. split.
      * eapply workers_insert; [exact Hok|exact Hg|exact Ew|exact Hs'|exact Happ|exact Hw'|].
        by rewrite (concat_insert_same _ _ _ g) by (done || by rewrite Hgot).
      * unfold all_bytes. cbn [site flist workers]. pose proof (work_bytes _ _ _ _ _ _ Ework). pose proof (sum_insert pending_bytes _ _ _ w' Ew). lia.
    + exfalso. unfold work, exited in *. destruct (wk_phase w) as [|r|r m|r m f|] eqn:Eph; [by destruct (wk_todo w)|done|by destruct read_files; [destruct (r_files r)|]| |done].
      specialize (Hd r m f eq_refl). unfold placed_line in Hd. by rewrite Hd in Ework.
  - destruct (readable w) eqn:Er; [|by exists s, gs].
    destruct (poll_ok _ _ g w (dlist s) Hw (fun r => Hsend i g r Hg) Hsm2) as (w' & -> & Hw' & Hb & _). cbn [mbind option_bind]. eexists _, (<[i := _]> gs). split; [done|]. split.
    + eapply workers_insert; [exact Hok|exact Hg|exact Ew| |exists [], []; by rewrite !app_nil_r|exact Hw'|]; [done|].
      rewrite (concat_insert_app _ _ _ g _ (map entry_of (sent_of g))) by (done || by rewrite <- map_app). by rewrite Hdl.
    + unfold all_bytes. cbn [site flist workers]. pose proof (sum_insert pending_bytes _ _ _ w' Ew). lia.
Qed.

Lemma run_ok todo schedule : forall s gs, creation_ok todo s gs -> (forall l cur r, l ∈ todo -> cur ∈ l -> outcome cur = Ready r -> sendable_line r) -> small (all_bytes s) ->
  exists s' gs', do_run s schedule = Some s' /\ creation_ok todo s' gs' /\ small (all_bytes s').
Proof.
  induction schedule as [|e schedule IH]; intros s gs Hok Hs Hsm; [by exists s, gs|].
  destruct (step_ok todo s gs e Hok Hs Hsm) as (s1 & gs1 & Hst & Hok1 & Hb). cbn [run fold_opt]. unfold run in *. cbn [fold_opt]. rewrite Hst. cbn [mbind option_bind].
  apply IH with gs1; [done|done|unfold small in *; lia].
Qed.
(** *** The end of a run *)

Definition phase_measure (ph : phase) : nat := match ph with Exited => 0 | Next => 2 | Send _ _ _ => 5 | Files _ _ => 6 | Manifest _ => 7 end.

Definition worker_measure (w : worker) : nat :=
  10 * length (wk_todo w) + phase_measure (wk_phase w) + length (wk_queue w) + (if wk_open w then 1 else 0).

Definition measure (s : creation) : nat := sum_list (map worker_measure (workers s)).

Lemma work_measure si fi w si' fi' w' : work outcome read_files si fi w = Some (si', fi', w') -> (worker_measure w' < worker_measure w)%nat.
Proof.
  unfold work, worker_measure. destruct (wk_phase w) as [|r|r m|r m f|] eqn:E; [| | | |done].
  - destruct (wk_todo w) as [|cur todo] eqn:Et; intros [= <- <- <-]; [|destruct (outcome cur)]; cbn [wk_todo wk_phase wk_queue wk_open phase_measure length];
      rewrite ?length_app; cbn [length]; destruct (wk_open w); lia.
  - intros [= <- <- <-]. cbn [wk_todo wk_phase wk_queue wk_open phase_measure]. lia.
  - destruct read_files; [destruct (r_files r)|]; intros [= <- <- <-]; cbn [wk_todo wk_phase wk_queue wk_open phase_measure]; lia.
  - destruct (datagram _); [|done]. intros [= <- <- <-]. cbn [wk_todo wk_phase wk_queue wk_open phase_measure]. rewrite length_app. cbn [length]. lia.
Qed.

Lemma measure_insert s i w w' si fi dl : workers s !! i = Some w -> (worker_measure w' < worker_measure w)%nat ->
  (measure (mk_creation si fi (<[i := w']> (workers s)) dl) < measure s)%nat.
Proof. intros Hw Hlt. unfold measure. cbn [workers]. pose proof (sum_insert worker_measure _ _ _ w' Hw). lia. Qed.

(** What is asked of the packages. *)
Definition all_sendable (todo : list (list pkg_fts_item)) : Prop :=
  forall l cur r, l ∈ todo -> cur ∈ l -> outcome cur = Ready r -> sendable_line r.

Lemma poll_some todo s gs i w : creation_ok todo s gs -> all_sendable todo -> small (all_bytes s) -> workers s !! i = Some w ->
  exists dl w', poll (dlist s) w = Some (dl, w') /\ wk_todo w' = wk_todo w /\ wk_phase w' = wk_phase w /\ wk_queue w' = [] /\ (exited w = true -> wk_open w' = false).
Proof.
  intros [Hsh Hws _] Hs Hsm Hwk. destruct (Forall2_lookup_r _ _ _ _ _ Hws Hwk) as (g & Hg & Hw).
  assert (forall r, r ∈ produced (share_of g) -> sendable_line r) as Hsend.
  { intros r Hr. apply produced_from in Hr as (cur & Hc & Ho). eapply (Hs (share_of g)); [|exact Hc|exact Ho]. rewrite <- Hsh. apply elem_of_map.
    exists g. split; [done|]. by eapply list_elem_of_lookup_2. }
  destruct (poll_ok _ _ g w (dlist s) Hw Hsend) as (w' & H & _ & _ & H1 & H2 & H3 & H4); [unfold all_bytes, small in *; lia|].
  by exists (dlist s ++ map entry_of (sent_of g)), w'.
Qed.

Lemma poll_measure todo s gs i w : creation_ok todo s gs -> all_sendable todo -> small (all_bytes s) -> workers s !! i = Some w -> readable w = true ->
  exists dl w', poll (dlist s) w = Some (dl, w') /\ (worker_measure w' < worker_measure w)%nat.
Proof.
  intros Hok Hs Hsm Hwk Hr. destruct (poll_some todo s gs i w Hok Hs Hsm Hwk) as (dl & w' & Hp & H1 & H2 & H3 & H4). exists dl, w'. split; [done|].
  unfold readable in Hr. apply andb_true_iff in Hr as [Ho Hr]. unfold worker_measure. rewrite H1, H2, H3, Ho. cbn [length].
  destruct (wk_queue w); [|destruct (wk_open w'); cbn [length]; lia]. cbn in Hr. rewrite (H4 Hr). cbn [length]. lia.
Qed.

Lemma step_measure todo s gs e s' : creation_ok todo s gs -> all_sendable todo -> small (all_bytes s) -> do_step s e = Some s' -> s' = s \/ (measure s' < measure s)%nat.
Proof.
  intros Hok Hs Hsm. destruct e as [i|i]; cbn [step]; (destruct (workers s !! i) as [w|] eqn:Ew; [|intros [= ->]; by left]).
  - destruct (exited w); [intros [= ->]; by left|]. destruct (work _ _ _ _ w) as [[[si fi] w']|] eqn:E; [|done]. intros [= <-]. right.
    eapply measure_insert; [exact Ew|]. by eapply work_measure.
  - destruct (readable w) eqn:Er; [|intros [= ->]; by left]. destruct (poll_measure todo s gs i w Hok Hs Hsm Ew Er) as (dl & w' & -> & Hlt).
    intros [= <-]. right. by eapply measure_insert.
Qed.

(** As long as a worker is there, one can move. *)
Lemma step_enabled todo s gs : creation_ok todo s gs -> all_sendable todo -> small (all_bytes s) -> remaining_workers s <> O ->
  exists e s', e ∈ flat_map (fun i => [Work i; Poll i]) (seq 0 (length todo)) /\ do_step s e = Some s' /\ (measure s' < measure s)%nat.
Proof.
  intros Hok Hs Hsm Hr. unfold remaining_workers in Hr.
  assert (exists i w, workers s !! i = Some w /\ wk_open w = true) as (i & w & Hw & Ho).
  { destruct (List.filter wk_open (workers s)) as [|w l] eqn:E; [done|]. assert (In w (List.filter wk_open (workers s))) as Hin by (rewrite E; by left).
    apply filter_In in Hin as [Hin Ho]. apply list_elem_of_In, list_elem_of_lookup in Hin as [i Hi]. by exists i, w. }
  assert ((i < length todo)%nat) as Hi.
  { destruct Hok as [Hsh Hws _]. apply Forall2_length in Hws. rewrite <- Hsh, length_map, Hws. by eapply lookup_lt_Some. }
  assert (forall e, e = Work i \/ e = Poll i -> e ∈ flat_map (fun i => [Work i; Poll i]) (seq 0 (length todo))) as Hin.
  { intros e He. apply list_elem_of_In, in_flat_map. exists i. split; [apply in_seq; lia|]. destruct He as [-> | ->]; cbn; tauto. }
  destruct (exited w) eqn:Ex.
  - assert (readable w = true) as Hrd by (unfold readable; by rewrite Ho, Ex, orb_true_r).
    destruct (poll_measure todo s gs i w Hok Hs Hsm Hw Hrd) as (dl & w' & Hp & Hlt). exists (Poll i). cbn [step]. rewrite Hw, Hrd, Hp. cbn [mbind option_bind].
    eexists. split_and!; [apply Hin; by right|done|by eapply measure_insert].
  - destruct (step_ok todo s gs (Work i) Hok Hs Hsm) as (s' & _ & Hst & _). exists (Work i), s'. split_and!; [apply Hin; by left|done|].
    cbn [step] in Hst. rewrite Hw, Ex in Hst. destruct (work _ _ _ _ w) as [[[si fi] w']|] eqn:E; [|done]. injection Hst as <-.
    eapply measure_insert; [exact Hw|]. by eapply work_measure.
Qed.

Lemma run_app l1 l2 s : do_run s (l1 ++ l2) = s' ← do_run s l1; do_run s' l2.
Proof. apply fold_opt_app. Qed.

(** A run that takes nothing from the measure moves nothing. *)
Lemma run_measure todo schedule : forall s gs s', creation_ok todo s gs -> all_sendable todo -> small (all_bytes s) -> do_run s schedule = Some s' ->
  (measure s' <= measure s)%nat /\ (measure s' = measure s -> s' = s /\ forall e, e ∈ schedule -> do_step s e = Some s).
Proof.
  induction schedule as [|e l IH]; intros s gs s' Hok Hs Hsm H.
  { injection H as <-. split; [done|]. intros _. split; [done|]. by intros e ?%elem_of_nil. }
  destruct (step_ok todo s gs e Hok Hs Hsm) as (s1 & gs1 & Hst & Hok1 & Hb). unfold run in H. cbn [fold_opt] in H. rewrite Hst in H. cbn [mbind option_bind] in H.
  destruct (IH s1 gs1 s' Hok1 Hs ltac:(unfold small in *; lia) H) as [Hle Heq].
  destruct (step_measure todo s gs e s1 Hok Hs Hsm Hst) as [-> |Hlt]; [|split; [lia|lia]].
  split; [done|]. intros E. destruct (Heq E) as [-> Hall]. split; [done|]. intros e' [->|He]%elem_of_cons; [done|by apply Hall].
Qed.

(** Rounds in which each process gets a turn. *)
Definition fair (workers : nat) (round : list event) : Prop := forall e, e ∈ flat_map (fun i => [Work i; Poll i]) (seq 0 workers) -> e ∈ round.

Lemma fair_run_ends todo rounds : forall s gs, creation_ok todo s gs -> all_sendable todo -> small (all_bytes s) -> Forall (fair (length todo)) rounds ->
  (measure s <= length rounds)%nat -> exists s' gs', do_run s (concat rounds) = Some s' /\ creation_ok todo s' gs' /\ remaining_workers s' = O.
Proof.
  induction rounds as [|round rounds IH]; intros s gs Hok Hs Hsm Hf Hm; cbn [concat length] in *.
  - exists s, gs. split_and!; [done|done|]. destruct (decide (remaining_workers s = O)) as [|Hr]; [done|].
    destruct (step_enabled todo s gs Hok Hs Hsm Hr) as (e & s' & _ & _ & Hlt). lia.
  - apply Forall_cons in Hf as [Hround Hf]. destruct (run_ok todo round s gs Hok Hs Hsm) as (s1 & gs1 & Hrun & Hok1 & Hsm1).
    rewrite run_app, Hrun. cbn [mbind option_bind]. destruct (run_measure todo round s gs s1 Hok Hs Hsm Hrun) as [Hle Heq].
    destruct (decide (measure s1 = measure s)) as [E|]; [|apply (IH s1 gs1); [done..|lia]].
    destruct (Heq E) as [-> Hall]. destruct (decide (remaining_workers s = O)) as [Hr|Hr].
    + destruct (run_ok todo (concat rounds) s gs Hok Hs Hsm) as (s2 & gs2 & Hrun2 & Hok2 & Hsm2). exists s2, gs2. split_and!; [done|done|].
      assert (s2 = s) as ->; [|done]. clear - Hok Hs Hsm Hrun2 Hr. revert s2 Hrun2.
      assert (forall e, do_step s e = Some s) as Hstay.
      { intros e. assert (forall i w, workers s !! i = Some w -> wk_open w = false) as Hclosed.
        { intros i w Hw. destruct (wk_open w) eqn:Eo; [|done]. exfalso. unfold remaining_workers in Hr. apply nil_length_inv in Hr.
          assert (In w (List.filter wk_open (workers s))) as Hin by (apply filter_In; split; [apply list_elem_of_In; by eapply list_elem_of_lookup_2|done]).
          rewrite Hr in Hin. done. }
        destruct e as [i|i]; cbn [step]; (destruct (workers s !! i) as [w|] eqn:Ew; [|done]).
        - destruct Hok as [_ Hws _]. destruct (Forall2_lookup_r _ _ _ _ _ Hws Ew) as (g & _ & Hw). destruct (wo_closed _ _ _ _ Hw (Hclosed _ _ Ew)) as [-> _]. done.
        - unfold readable. by rewrite (Hclosed _ _ Ew). }
      induction (concat rounds) as [|e l IHl]; intros s2; [by intros [= <-]|]. unfold run. cbn [fold_opt]. rewrite Hstay. cbn [mbind option_bind]. exact (IHl s2).
    + exfalso. destruct (step_enabled todo s gs Hok Hs Hsm Hr) as (e & s' & He & Hst & Hlt). rewrite (Hall e) in Hst by (by apply Hround). injection Hst as <-. lia.
Qed.
End runs.

(** ** Shares *)

Lemma launch_share t rem cur rj : forall start items pre, start = pre ++ items -> Z.of_nat (length pre + S rj) = cur -> (S rj <= length items)%nat ->
  launch t rem cur (Z.of_nat (S rj)) start items =
    take (Z.to_nat cur) start ::
    let jobs := if 0 <? rem - 1 then t + 1 else t in launch t (rem - 1) jobs jobs (drop (S rj) items) (drop (S rj) items).
Proof.
  induction rj as [|rj IH]; intros start items pre Hst Hcur Hlen; destruct items as [|x items]; cbn [length] in Hlen; try lia; cbn [launch].
  - rewrite (proj2 (Z.eqb_eq _ _)) by lia. done.
  - rewrite (proj2 (Z.eqb_neq _ _)) by lia. replace (Z.of_nat (S (S rj)) - 1) with (Z.of_nat (S rj)) by lia.
    rewrite (IH start items (pre ++ [x])); [done| | |lia].
    + rewrite Hst, <- app_assoc. done.
    + rewrite length_app. cbn [length]. lia.
Qed.

Lemma launch_spec t (Ht : 0 < t) k : forall rem items, rem <= Z.of_nat k -> Z.of_nat (length items) = t * Z.of_nat k + Z.max rem 0 ->
  let jobs := if 0 <? rem then t + 1 else t in
  concat (launch t rem jobs jobs items items) = items /\ length (launch t rem jobs jobs items items) = k /\
  Forall (fun l => Z.of_nat (length l) = t \/ Z.of_nat (length l) = t + 1) (launch t rem jobs jobs items items).
Proof.
  induction k as [|k IH]; intros rem items Hrem Hlen jobs.
  - destruct items; [done|]. cbn [length] in Hlen. lia.
  - assert (exists rj, jobs = Z.of_nat (S rj)) as [rj Hrj] by (exists (Z.to_nat (jobs - 1)); unfold jobs; destruct (0 <? rem); lia).
    assert ((S rj <= length items)%nat) as Hle by (unfold jobs in Hrj; destruct (Z.ltb_spec 0 rem); nia).
    rewrite Hrj. rewrite (launch_share t rem _ rj items items []); [|done|done|done]. rewrite Nat2Z.id. cbv zeta.
    destruct (IH (rem - 1) (drop (S rj) items)) as (H1 & H2 & H3); [lia| |].
    { rewrite length_drop, Nat2Z.inj_sub, Hlen, <- Hrj by done. unfold jobs. destruct (Z.ltb_spec 0 rem); nia. }
    cbn [concat length]. rewrite H1, H2. split_and!; [apply take_drop|done|]. constructor; [|exact H3].
    rewrite length_take, Nat.min_l by done. rewrite <- Hrj. unfold jobs. destruct (0 <? rem); lia.
Qed.

(** The packages are divided among the workers without a gap and without overlap:
    as many shares as there are workers or packages, which differ by at most one
    package. *)
Lemma shares_ok (n : Z) (items : list pkg_fts_item) : 0 < n -> items <> [] ->
  let k := Z.min n (Z.of_nat (length items)) in
  concat (shares n items) = items /\ Z.of_nat (length (shares n items)) = k /\
  Forall (fun l => Z.of_nat (length l) = Z.of_nat (length items) / k \/ Z.of_nat (length l) = Z.of_nat (length items) / k + 1) (shares n items).
Proof.
  intros Hn Hne k. assert (0 < Z.of_nat (length items)) as Hlen by (destruct items; [done|cbn [length]; lia]).
  assert (0 < k <= Z.of_nat (length items)) as Hk by (unfold k; lia).
  assert (0 < Z.of_nat (length items) / k) as Ht by (apply Z.div_str_pos; lia).
  pose proof (Z.mod_pos_bound (Z.of_nat (length items)) k ltac:(lia)) as Hm. pose proof (Z.div_mod (Z.of_nat (length items)) k ltac:(lia)) as Hd.
  destruct (launch_spec (Z.of_nat (length items) / k) Ht (Z.to_nat k) (Z.of_nat (length items) mod k) items) as (H1 & H2 & H3); [lia| |].
  { rewrite Z2Nat.id by lia. lia. }
  unfold shares. fold k. split_and!; [exact H1|rewrite H2; lia|exact H3].
Qed.

(** ** Packages that are ready *)

Lemma hex_digit_plain z : 0 <= z < 16 -> plain_byte (hex_digit z) /\ hex_digit z <> "."%char.
Proof.
  intros Hz. assert (exists n, z = Z.of_nat n /\ (n < 16)%nat) as (n & -> & Hn) by (exists (Z.to_nat z); lia).
  do 16 (destruct n as [|n]; [by split; [split_and!|]|]). lia.
Qed.

Lemma hex_plain l : byte_list l -> Forall plain_byte (flat_map hex_byte l) /\ "."%char ∉ flat_map hex_byte l.
Proof.
  intros Hl. assert (Forall (fun c => plain_byte c /\ c <> "."%char) (flat_map hex_byte l)) as H.
  { induction Hl as [|z l Hz _ IH]; [constructor|]. cbn [flat_map]. apply Forall_app. split; [|exact IH].
    assert (0 <= z / 16 < 16 /\ 0 <= z mod 16 < 16) as [H1 H2] by (split; [split; [apply Z.div_pos; lia|apply Z.div_lt_upper_bound; lia]|apply Z.mod_pos_bound; lia]).
    repeat constructor; by apply hex_digit_plain. }
  split; [by eapply Forall_impl; [exact H|intros c []]|]. intros Hd. eapply Forall_forall in H; [|exact Hd]. by destruct H.
Qed.

Lemma b32_plain z : 0 <= z < 32 -> plain_byte (b32_char z).
Proof.
  intros Hz. assert (exists n, z = Z.of_nat n /\ (n < 32)%nat) as (n & -> & Hn) by (exists (Z.to_nat z); lia).
  do 32 (destruct n as [|n]; [by split_and!|]). lia.
Qed.

Section packages.
Context (emit_single_json : ucl -> cstring) (emit : ucl_emitter -> ucl -> cstring) (sha256 : cstring -> list Z) (Hsha : sha256_ok sha256).
Context (pkg_open : cstring -> bool -> option (pkg * cstring)) (read_files : bool).

Lemma digest_plain p t d : pkg_checksum_generate sha256 p PKG_CHECKSUM_SHA256_LEN t = Some (EPKG_OK, d) ->
  Forall plain_byte (default [] d) /\ (length (default [] d) <= 68)%nat.
Proof.
  unfold pkg_checksum_generate. destruct (checksum_size t) as [hlen|] eqn:Eh; [|done]. destruct (_ <? hlen)%nat; [done|].
  destruct (checksum_entries p ≫= entry_values) as [entries|]; [|done]. cbn [mbind option_bind]. destruct (Nat.eqb _ 0); [done|]. intros H. injection H as <-.
  change (default [] (Some ?x)) with x.
  set (b := pkg_checksum_hash_sha256 sha256 _). assert (length b = SHA256_DIGEST_LENGTH /\ byte_list b) as [Hlb Hb] by apply Hsha.
  assert (t <> PKG_HASH_TYPE_UNKNOWN) as Ht by (by intros ->).
  destruct (checksum_encode_some t b (PKG_CHECKSUM_SHA256_LEN - length (checksum_prefix t)) Ht Hlb Hb) as (s & Hs & Hls & _); [by destruct t; apply Nat.leb_le|].
  change (PKG_CHECKSUM_SHA256_LEN - length (checksum_prefix t))%nat with 70%nat in Hs. cbn -[checksum_encode] . rewrite Hs. cbn [default from_option]. unfold id.
  change (Forall plain_byte (checksum_prefix t ++ s) /\ (length (checksum_prefix t ++ s) <= 68)%nat). split.
  - apply Forall_app. split; [destruct t; [| |done]; by repeat constructor|]. destruct t; [| |done]; cbn [checksum_encode] in Hs.
    + unfold pkg_checksum_encode_base32 in Hs. destruct (_ <? _)%nat; [done|]. injection Hs as <-. rewrite base32_text by done. apply Forall_map.
      eapply Forall_impl; [apply le_digits_range; lia|]. intros z Hz. cbv beta in Hz. by apply b32_plain.
    + unfold pkg_checksum_encode_hex in Hs. destruct (_ <? _)%nat; [done|]. injection Hs as <-. by apply hex_plain.
  - rewrite length_app. assert (length (checksum_prefix t) = 4%nat) as -> by (by destruct t). lia.
Qed.

(** Only the origin can keep a line from being sent. *)
Lemma prepare_sendable m cur r : prepare emit_single_json emit sha256 pkg_open read_files m cur = Ready r ->
  Forall plain_byte (r_origin r) -> (length (r_origin r) < 700)%nat -> sendable_line r.
Proof.
  unfold prepare. destruct (pkg_open _ _) as [[p content]|]; [|done]. intros H Ho Hl.
  assert (forall d, Forall plain_byte (default [] d) /\ (length (default [] d) <= 68)%nat ->
    r_digest r = default [] d -> r_checksum r = sha256_hash (sha256 content) -> sendable_line r) as Hgo.
  { intros d [Hd Hdl] Ed Ec. destruct (Hsha content) as [Hlc Hc]. split; [done|by rewrite Ed|rewrite Ec; by apply hex_plain|].
    rewrite Ed, Ec. unfold sha256_hash. rewrite hex_length, Hlc. unfold SHA256_DIGEST_LENGTH. lia. }
  destruct (pkg_vset _ _) as [[rc p1]|]; [|done]. cbn [mbind option_bind] in H. destruct m as [m|].
  - destruct (pkg_emit_manifest_sbuf _ _ _ _ _ _) as [[text x]|]; [|done]. cbn [mbind option_bind] in H.
    destruct (pkg_checksum_generate _ _ _ _) as [[rc1 d]|] eqn:Ed; [|done]. cbn [mbind option_bind] in H. destruct rc1; try done. injection H as <-.
    apply (Hgo d); [by eapply digest_plain|done|done].
  - unfold pkg_emit_manifest_sbuf, pkg_emit_manifest_generic in H. destruct (emit_manifest _ _ _ _) as [text|]; [|done]. cbn [mbind option_bind] in H. injection H as <-.
    apply (Hgo (Some (pkg_emit_manifest_digest (sha256 text)))); [|done|done]. destruct (Hsha text) as [Hlt Ht]. unfold pkg_emit_manifest_digest. split; [by apply hex_plain|].
    cbn [default from_option]. unfold id. rewrite hex_length, Hlt. unfold SHA256_DIGEST_LENGTH. lia.
Qed.
End packages.

(** ** The repository that is made *)

#[export] Instance pkg_digest_sort_comparison : Comparison pkg_digest_sort_compare_func.
Proof. exact (key_comparison origin strcmp _). Qed.

Lemma entry_line x : digest_line (entry_of x) = placed_line x.
Proof.
  destruct x as [[r m] f]. unfold digest_line, entry_of, placed_line, line_text. cbn [origin digest manifest_pos files_pos manifest_length checksum default from_option].
  unfold id. repeat (rewrite <- app_assoc; cbn [app]). done.
Qed.

(** Every worker is gone: its share was sent and read. *)
Lemma run_listed outcome read_files todo s gs : creation_ok outcome read_files todo s gs -> remaining_workers s = O ->
  exists l, dlist s ≡ₚ map entry_of l /\ map (fun x : placed => x.1.1) l = concat (map (produced outcome read_files) todo) /\ Forall (located read_files (site s) (flist s)) l.
Proof.
  intros [Hsh Hws Hdl] Hr. exists (concat (map got gs)).
  assert (Forall (fun w => wk_open w = false) (workers s)) as Hcl.
  { apply Forall_forall. intros w Hw. destruct (wk_open w) eqn:E; [|done]. unfold remaining_workers in Hr. apply nil_length_inv in Hr.
    assert (In w (List.filter wk_open (workers s))) as Hin by (apply filter_In; split; [by apply list_elem_of_In|done]). by rewrite Hr in Hin. }
  rewrite Hdl. subst todo. clear Hr Hdl. induction Hws as [|g w gs ws Hw Hws IH]; [done|].
  apply Forall_cons in Hcl as [Hc Hcl]. destruct (IH Hcl) as (H1 & H2 & H3). destruct Hw as [Hall _ Hloc _ Hcl1]. destruct (Hcl1 Hc) as [Hex Hsent].
  assert (left_over outcome read_files w = []) as Hleft by (unfold left_over, exited in *; by destruct (wk_phase w)).
  rewrite Hleft, Hsent, !app_nil_r in *. cbn [map concat]. rewrite !map_app. split_and!; [by rewrite H1|by rewrite H2, Hall|by apply Forall_app].
Qed.

Lemma sorted_map_inv {A B} (f : A -> B) (R : A -> A -> Prop) (R' : B -> B -> Prop) l : (forall x y, R' (f x) (f y) -> R x y) ->
  StronglySorted R' (map f l) -> StronglySorted R l.
Proof.
  intros Hf. induction l as [|x l IH]; cbn [map]; intros H; [constructor|]. inversion H as [|? ? Hs Hx]; subst. constructor; [by apply IH|].
  rewrite List.Forall_map in Hx. eapply Forall_impl; [exact Hx|]. intros y. apply Hf.
Qed.

Definition ready_of (outcome : pkg_fts_item -> prepared) (cur : pkg_fts_item) : option ready := match outcome cur with Ready r => Some r | _ => None end.

(** Nothing stops a worker at this package. *)
Definition goes_on (outcome : pkg_fts_item -> prepared) (read_files : bool) (cur : pkg_fts_item) : Prop :=
  match outcome cur with Skipped => True | Ready r => listable read_files r = true | Failed | Crashed => False end.

Lemma produced_all outcome read_files todo : Forall (goes_on outcome read_files) todo -> produced outcome read_files todo = omap (ready_of outcome) todo.
Proof.
  induction 1 as [|cur todo Hc _ IH]; [done|]. cbn [produced omap list_omap]. unfold goes_on in Hc. unfold ready_of at 1. destruct (outcome cur) as [| | |r]; try done.
  rewrite Hc, IH. done.
Qed.

Lemma produced_shares outcome read_files todo : Forall (goes_on outcome read_files) (concat todo) -> concat (map (produced outcome read_files) todo) = omap (ready_of outcome) (concat todo).
Proof.
  induction todo as [|l todo IH]; [done|]. cbn [concat map]. intros [H1 H2]%Forall_app. by rewrite produced_all, IH, omap_app.
Qed.

Lemma start_bytes outcome todo : all_bytes outcome (start todo) = todo_bytes outcome (concat todo).
Proof.
  unfold all_bytes. cbn [site flist workers start length]. rewrite Nat.add_0_l. induction todo as [|l todo IH]; [done|].
  change (sum_list (map (pending_bytes outcome) (map start_worker (l :: todo)))) with (todo_bytes outcome l + sum_list (map (pending_bytes outcome) (map start_worker todo)))%nat.
  rewrite IH. unfold todo_bytes. cbn [concat]. by rewrite map_app, sum_list_with_app.
Qed.

Lemma start_measure todo : measure (start todo) = (10 * length (concat todo) + 3 * length todo)%nat.
Proof.
  unfold measure. cbn [workers start]. induction todo as [|l todo IH]; [done|].
  change (sum_list (map worker_measure (map start_worker (l :: todo)))) with (worker_measure (start_worker l) + sum_list (map worker_measure (map start_worker todo)))%nat.
  rewrite IH. cbn [concat length]. rewrite length_app. unfold worker_measure, start_worker. cbn [wk_todo wk_phase wk_queue wk_open phase_measure length]. lia.
Qed.

Section repository.
Context (emit_single_json : ucl -> cstring) (emit : ucl_emitter -> ucl -> cstring) (sha256 : cstring -> list Z) (Hsha : sha256_ok sha256).
Context (pkg_open : cstring -> bool -> option (pkg * cstring)).
Context (path : cstring) (metafile : option (option pkg_repo_meta)) (m : pkg_repo_meta) (tree : list ftsent) (can_open : cstring -> bool)
  (can_write filelist legacy : bool) (workers_count ncpu : Z) (can_spawn : nat -> bool).
Context (Hm : match metafile with None => Some pkg_repo_meta_default | Some loaded => loaded end = Some m).

Abbreviation outcome := (prepare emit_single_json emit sha256 pkg_open filelist (if legacy then None else Some m)).
Abbreviation items := (pkg_create_repo_read_fts m path tree).
Abbreviation num_workers := (if workers_count <=? 0 then ncpu else workers_count).
Abbreviation create := (pkg_create_repo emit_single_json emit sha256 pkg_open true true path metafile (Some tree) can_open can_write filelist legacy
  workers_count ncpu can_spawn).

Context (Hnum : 0 < num_workers)
  (Horigin : forall cur r, cur ∈ items -> outcome cur = Ready r -> Forall plain_byte (r_origin r) /\ (length (r_origin r) < 700)%nat)
  (Hbytes : small (todo_bytes outcome items)).

Lemma shares_sendable : items <> [] -> all_sendable outcome (shares num_workers items) /\ small (all_bytes outcome (start (shares num_workers items))).
Proof.
  intros Hne. destruct (shares_ok num_workers items Hnum Hne) as (Hc & _ & _). split; [|by rewrite start_bytes, Hc].
  intros l cur r Hl Hcur Ho. assert (cur ∈ items) as Hin by (rewrite <- Hc; apply list_elem_of_In, in_concat; exists l; split; by apply list_elem_of_In).
  destruct (Horigin cur r Hin Ho) as [H1 H2]. by eapply prepare_sendable.
Qed.

Lemma create_runs schedule repo : create schedule = Some (EPKG_OK, Some repo) ->
  items <> [] /\ exists s, run outcome filelist (start (shares num_workers items)) schedule = Some s /\ remaining_workers s = O /\
    rp_packagesite repo = site s /\ rp_filesite repo = flist s /\ rp_digests repo = concat (map digest_line (ll_sort pkg_digest_sort_compare_func (dlist s))).
Proof.
  unfold pkg_create_repo. cbn [negb orb]. rewrite Hm. destruct (_ ← manifests m; _) as [[[sn fn] dn]|]; [|done]. cbn [mbind option_bind].
  destruct (negb (can_open sn) || _ || _); [done|]. destruct items as [|x l] eqn:Ei; [done|]. destruct (negb (forallb _ _)); [done|].
  destruct (run _ _ _ schedule) as [s|] eqn:Er; [|done]. cbn [mbind option_bind]. destruct (Nat.eqb_spec (remaining_workers s) 0) as [Hr|]; [|done].
  intros [= <-]. split; [done|]. by exists s.
Qed.

Lemma create_complete schedule repo : Forall (goes_on outcome filelist) items -> create schedule = Some (EPKG_OK, Some repo) ->
  exists l, map (fun x : placed => x.1.1) l ≡ₚ omap (ready_of outcome) items /\ rp_digests repo = concat (map placed_line l) /\
    StronglySorted (fun x y => strcmp (r_origin x.1.1) (r_origin y.1.1) <= 0) l /\ Forall (located filelist (rp_packagesite repo) (rp_filesite repo)) l.
Proof.
  intros Hgood H. apply create_runs in H as (Hne & s & Hrun & Hr & -> & -> & ->). destruct (shares_sendable Hne) as [Hs Hsm].
  destruct (run_ok outcome filelist _ schedule _ _ (start_ok outcome filelist _) Hs Hsm) as (s' & gs & Hrun' & Hok & _). rewrite Hrun in Hrun'. injection Hrun' as <-.
  destruct (run_listed _ _ _ _ _ Hok Hr) as (l0 & Hperm & Hready & Hloc).
  destruct (shares_ok num_workers items Hnum Hne) as (Hc & _ & _).
  assert (ll_sort pkg_digest_sort_compare_func (dlist s) ≡ₚ map entry_of l0) as Hp by (by rewrite ll_sort_perm).
  apply Permutation_map_inv in Hp as (l & Hl & Hl0). exists l. rewrite Hl. split_and!.
  - rewrite <- Hl0, Hready. rewrite produced_shares by (by rewrite Hc). by rewrite Hc.
  - f_equal. rewrite map_map. apply map_ext, entry_line.
  - eapply (sorted_map_inv entry_of); [|rewrite <- Hl; apply (ll_sort_sorted pkg_digest_sort_compare_func)]. by intros [[r1 m1] f1] [[r2 m2] f2].
  - by rewrite <- Hl0.
Qed.

Lemma create_ends rounds : items <> [] -> is_Some (manifests m) -> is_Some (digests m) -> is_Some (filesite m) -> (forall f, can_open f = true) -> (forall i, can_spawn i = true) ->
  Forall (fair (length (shares num_workers items))) rounds -> (10 * length items + 3 * length (shares num_workers items) <= length rounds)%nat ->
  exists repo, create (concat rounds) = Some (EPKG_OK, Some repo).
Proof.
  intros Hne [mn Hmn] [dg Hdg] [fs Hfs] Hopen Hspawn Hfair Hlen. destruct (shares_sendable Hne) as [Hs Hsm]. destruct (shares_ok num_workers items Hnum Hne) as (Hc & _ & _).
  destruct (fair_run_ends outcome filelist _ rounds _ _ (start_ok outcome filelist _) Hs Hsm Hfair) as (s & gs & Hrun & _ & Hr); [by rewrite start_measure, Hc|].
  unfold pkg_create_repo. cbn [negb orb]. rewrite Hm, Hmn, Hdg, Hfs. cbn [mbind option_bind].
  assert ((if filelist then Some fs else Some []) = Some (if filelist then fs else [])) as -> by (by destruct filelist). cbn [mbind option_bind].
  rewrite !Hopen. cbn [negb orb andb]. rewrite andb_false_r. cbn [orb].
  destruct items as [|x l] eqn:Ei; [done|].
  assert (forallb can_spawn (seq 0 (length (shares num_workers (x :: l)))) = true) as -> by (apply forallb_forall; intros i _; apply Hspawn). cbn [negb].
  rewrite Hrun. cbn [mbind option_bind]. rewrite Hr. cbn [Nat.eqb]. by eexists.
Qed.

(** C12: A repository whose packages can all be read.  Whatever the order in which
    the workers and the parent run, when pkg_create_repo returns, the file of
    digests has a line for each package and no other, in the order of their
    origins, and each line gives the place of the package's manifest, before a
    newline, in the file of the manifests, and of its list of files. *)
Theorem repository_complete (schedule : list event) (repo : repository) (Hgood : Forall (goes_on outcome filelist) items)
  (H : create schedule = Some (EPKG_OK, Some repo)) :
  exists l, map (fun x : placed => x.1.1) l ≡ₚ omap (ready_of outcome) items /\ rp_digests repo = concat (map placed_line l) /\
    StronglySorted (fun x y => strcmp (r_origin x.1.1) (r_origin y.1.1) <= 0) l /\ Forall (located filelist (rp_packagesite repo) (rp_filesite repo)) l.
Proof. by eapply create_complete. Qed.

(** C13: pkg_create_repo returns.  When every process gets a turn in every round,
    no process waits for ever for another, whatever their order in a round: after
    ten rounds for each package and three for each worker no worker is left. *)
Theorem create_repo_returns (rounds : list (list event)) (Hne : items <> []) (Hmeta : is_Some (manifests m) /\ is_Some (digests m) /\ is_Some (filesite m))
  (Hopen : forall f, can_open f = true) (Hspawn : forall i, can_spawn i = true) (Hfair : Forall (fair (length (shares num_workers items))) rounds)
  (Hlen : (10 * length items + 3 * length (shares num_workers items) <= length rounds)%nat) :
  exists repo, create (concat rounds) = Some (EPKG_OK, Some repo).
Proof. destruct Hmeta as (? & ? & ?). by apply create_ends. Qed.
End repository.

Section published.
Context (opendir : cstring -> option (list cstring)) (ucl_file : cstring -> option ucl) (stat : cstring -> bool) (sha256 : cstring -> list Z).
Context {K PK : Type} (PEM_read_bio_RSA_PUBKEY : cstring -> option K) (RSA_verify : string -> cstring -> cstring -> Z -> K -> bool)
  (RSA_sign : string -> cstring -> PK -> option cstring) (file_to_buffer : cstring -> option cstring)
  (pkg_fetch_file_to_fd : cstring -> pkg_error_t * list archive_entry).
Context (key_bytes : pkg_repo_meta_key -> cstring) (ucl_parser : cstring -> option (list (cstring * ucl))) (ucl_object_validate : list (cstring * ucl) -> bool).

Abbreviation finish := (pkg_finish_repo sha256 RSA_sign key_bytes ucl_parser ucl_object_validate).
Abbreviation fetch := (pkg_repo_fetch_remote_extract_tmp opendir ucl_file stat sha256 PEM_read_bio_RSA_PUBKEY RSA_verify true file_to_buffer true pkg_fetch_file_to_fd).

(** An archive of the file, made with the key. *)
Definition packed_with (rsa : PK) (name content : cstring) (a : list archive_entry) : Prop :=
  pkg_repo_pack_db sha256 RSA_sign name content (Some rsa) None = Some (EPKG_OK, a).

Lemma pack_key rsa name archive path st st' : pack sha256 RSA_sign (Key rsa) name archive path st = Some (EPKG_OK, st') ->
  exists content a, pk_files st !! path = Some content /\ packed_with rsa name content a /\ pk_files st' = delete path (pk_files st) /\ pk_archives st' = pk_archives st ++ [(archive, a)].
Proof.
  unfold pack. destruct (pk_files st !! path) as [content|]; [|done]. cbn [key_of command_of]. destruct (pkg_repo_pack_db _ _ _ _ _ _) as [[rc a]|] eqn:E; [|done].
  cbn [mbind option_bind]. intros [= -> <-]. exists content, a. by split_and!.
Qed.

Lemma in_dir_ne output_dir x y : (length output_dir < 1000)%nat -> (length x < 20)%nat -> (length y < 20)%nat -> x <> y -> in_dir output_dir x <> in_dir output_dir y.
Proof.
  intros Ho Hx Hy Hne. unfold in_dir, snprintf. rewrite !take_ge by (rewrite length_app; cbn [length]; unfold MAXPATHLEN; lia). intros H. by apply app_inv_head in H as [= ->].
Qed.

Lemma finish_packs output_dir rsa filelist files st : (length output_dir < 1000)%nat -> finish true output_dir (Key rsa) filelist files = Some (EPKG_OK, st) ->
  forall name archive, (name = str "packagesite.yaml" /\ archive = str "packagesite") \/ (name = str "digests" /\ archive = str "digests") ->
  exists content a, files !! in_dir output_dir name = Some content /\ packed_with rsa name content a /\ (in_dir output_dir archive, a) ∈ pk_archives st.
Proof.
  intros Hlen. unfold pkg_finish_repo. cbn [negb].
  assert (forall x y, (length x < 20)%nat -> (length y < 20)%nat -> x <> y -> forall fs : gmap cstring cstring, delete (in_dir output_dir x) fs !! in_dir output_dir y = fs !! in_dir output_dir y) as Hdel.
  { intros x y Hx Hy Hne fs. apply lookup_delete_ne. by apply in_dir_ne. }
  set (first := match files !! _ with Some _ => _ | None => _ end). destruct first as [[rc1 st1]|] eqn:E1; [|done]. cbn [mbind option_bind]. destruct rc1; try done.
  assert (forall y, (length y < 20)%nat -> str "meta" <> y -> pk_files st1 !! in_dir output_dir y = files !! in_dir output_dir y) as F1.
  { intros y Hy Hne. unfold first in E1. destruct (files !! in_dir output_dir (str "meta")) as [text|]; [|by injection E1 as <-].
    destruct (pkg_repo_meta_load _ _ _ _) as [[rc x]|]; [|done]. cbn [mbind option_bind] in E1. destruct rc; try done.
    apply pack_key in E1 as (c & a & _ & _ & -> & _). cbn [pk_files]. apply Hdel; [apply Nat.ltb_lt; reflexivity|done|done]. }
  clear E1 first. unfold pkg_repo_meta_default, pkg_repo_meta_set_default, pack_named. cbn [manifests manifests_archive filesite filesite_archive digests digests_archive mbind option_bind].
  destruct (pack _ _ _ _ _ _ st1) as [[rc2 st2]|] eqn:E2; [|done]. cbn [mbind option_bind]. destruct rc2; try done. apply pack_key in E2 as (c2 & a2 & G2 & P2 & F2 & A2).
  destruct (if filelist then _ else _) as [[rc3 st3]|] eqn:E3; [|done]. cbn [mbind option_bind]. destruct rc3; try done.
  assert (pk_files st3 !! in_dir output_dir (str "digests") = pk_files st2 !! in_dir output_dir (str "digests") /\ exists l, pk_archives st3 = pk_archives st2 ++ l) as [F3 [l3 A3]].
  { destruct filelist.
    - apply pack_key in E3 as (c & a & _ & _ & -> & ->). split; [|by eexists]. apply Hdel; [apply Nat.ltb_lt; reflexivity..|discriminate].
    - injection E3 as <-. split; [done|]. exists []. by rewrite app_nil_r. }
  destruct (pack _ _ _ _ _ _ st3) as [[rc4 st4]|] eqn:E4; [|done]. cbn [mbind option_bind]. destruct rc4; try done. apply pack_key in E4 as (c4 & a4 & G4 & P4 & _ & A4).
  intros [= <-] name archive [[-> ->]|[-> ->]].
  - exists c2, a2. split_and!; [|exact P2|].
    + rewrite <- G2. symmetry. apply F1; [apply Nat.ltb_lt; reflexivity|discriminate].
    + rewrite A4, A3, A2, !elem_of_app. left. left. right. by left.
  - exists c4, a4. split_and!; [|exact P4|].
    + rewrite <- G4, F3, F2, Hdel; [symmetry; apply F1|..]; first [apply Nat.ltb_lt; reflexivity|discriminate].
    + rewrite A4, elem_of_app. right. by left.
Qed.

(** C14: From pkg repo to pkg update.  When pkg_finish_repo has packed a
    repository with an RSA key and the archives are served under its address,
    pkg_repo_fetch_remote_extract_tmp gives a client that has the other key the
    manifests and the digests as they were. *)
Theorem published_files_fetched (output_dir : cstring) (rsa : PK) (filelist : bool) (files : gmap cstring cstring) (st : packing_state)
  (r : pkg_repo) (m : pkg_repo_meta) (path key : cstring) (k : K) (Hlen : (length output_dir < 1000)%nat)
  (Hfinish : finish true output_dir (Key rsa) filelist files = Some (EPKG_OK, st))
  (Ht : signature_type r = SIG_PUBKEY) (Hpath : pubkey_file r = Some path) (Hfile : file_to_buffer path = Some key) (Hk : PEM_read_bio_RSA_PUBKEY key = Some k)
  (Hpair : forall nid m sig rest, RSA_sign nid m rsa = Some sig -> Z.of_nat (length sig) < 2 ^ 32 /\ RSA_verify nid m (sig ++ rest) (Z.of_nat (length sig)) k = true)
  (Hm : meta r = Some m) (Htxz : packing_format m = TXZ)
  (Hserved : forall name a, (in_dir output_dir name, a) ∈ pk_archives st -> pkg_fetch_file_to_fd (snprintf MAXPATHLEN (repo_url r ++ SLASH :: name ++ str ".txz")) = (EPKG_OK, a)) :
  exists site dig, files !! in_dir output_dir (str "packagesite.yaml") = Some site /\ files !! in_dir output_dir (str "digests") = Some dig /\
    fetch r (str "packagesite.yaml") true = Some (EPKG_OK, Some site, r) /\ fetch r (str "digests") true = Some (EPKG_OK, Some dig, r).
Proof.
  assert (forall name archive content a, name <> str "signature" -> remote_url r name (str "txz") = snprintf MAXPATHLEN (repo_url r ++ SLASH :: archive ++ str ".txz") ->
    packed_with rsa name content a -> (in_dir output_dir archive, a) ∈ pk_archives st -> fetch r name true = Some (EPKG_OK, Some content, r)) as Hfetch.
  { intros name archive content a Hname Hurl Hpack Hin. unfold pkg_repo_fetch_remote_extract_tmp. rewrite Hm. cbn [mbind option_bind]. rewrite Htxz.
    unfold pkg_repo_fetch_remote_tmp. cbn [negb packing_format_to_string]. rewrite Hurl, (Hserved _ _ Hin).
    rewrite (signed_archive_accepted opendir ucl_file stat sha256 PEM_read_bio_RSA_PUBKEY RSA_verify RSA_sign true file_to_buffer name content rsa None a ToFd r path key k
      eq_refl ltac:(discriminate) Hname Ht Hpath Hfile Hk Hpair Hpack). done. }
  destruct (finish_packs _ _ _ _ _ Hlen Hfinish _ _ (or_introl (conj eq_refl eq_refl))) as (site & a1 & H1 & P1 & I1).
  destruct (finish_packs _ _ _ _ _ Hlen Hfinish _ _ (or_intror (conj eq_refl eq_refl))) as (dig & a2 & H2 & P2 & I2).
  exists site, dig. split_and!; [exact H1|exact H2|eapply Hfetch; [discriminate|reflexivity|exact P1|exact I1]|eapply Hfetch; [discriminate|reflexivity|exact P2|exact I2]].
Qed.
End published.

(** ** A concrete repository *)

Definition toy_pkg (name origin : string) : pkg :=
  match pkg_vset (pkg_new PKG_FILE) [(PKG_ORIGIN, ArgString (Some (str origin)))] with Some (_, p) =>
    match pkg_set p PKG_NAME (ArgString (Some (str name))) with Some (_, p) => p | None => p end | None => pkg_new PKG_FILE end.

(** A package that provides something cannot be written. *)
Definition toy_provider : pkg := match pkg_addprovide (toy_pkg "c" "x/c") (str "lib") with Some (_, p) => p | None => toy_pkg "c" "x/c" end.

Definition toy_archives (path : cstring) (_ : bool) : option (pkg * cstring) :=
  if streq path (str "/r/a.txz") then Some (toy_pkg "a" "x/a", str "A")
  else if streq path (str "/r/b.txz") then Some (toy_pkg "b" "x/b", str "B")
  else if streq path (str "/r/b2.txz") then Some (toy_pkg "b2" "x/b", str "C")
  else if streq path (str "/r/c.txz") then Some (toy_provider, str "D")
  else None.

(** The text of a manifest is its first string. *)
Definition toy_text (_ : ucl_emitter) (o : ucl) : cstring := match o with UObject ((_, UString s) :: _) => s | _ => str "{}" end.

Definition toy_hash (_ : cstring) : list Z := replicate 32 7.

Lemma toy_hash_ok : sha256_ok toy_hash.
Proof. intros s. split; [reflexivity|]. repeat constructor; lia. Qed.

Definition toy_tree (names : list string) : list ftsent := map (fun n => mk_ftsent true (str n) (str "/r/" ++ str n) (str "/r/" ++ str n) 10) names.

Abbreviation toy_outcome := (prepare (fun _ => str "{}") toy_text toy_hash toy_archives true (Some pkg_repo_meta_default)).
Abbreviation toy_create names workers schedule :=
  (pkg_create_repo (fun _ => str "{}") toy_text toy_hash toy_archives true true (str "/r") None (Some (toy_tree names)) (fun _ => true) true true false
    workers 1 (fun _ => true) schedule).

Definition toy_round : list event := [Work 1; Work 0; Poll 1; Poll 0].

Definition digests_of (x : option (pkg_error_t * option repository)) : option (pkg_error_t * cstring) :=
  match x with Some (rc, Some repo) => Some (rc, rp_digests repo) | _ => None end.

Definition ab_tree : list string := ["README"; "a.txz"; "digests.txz"; "b.txz"; "meta.txz"; "c.txt"].

Lemma toy_items : pkg_create_repo_read_fts pkg_repo_meta_default (str "/r") (toy_tree ab_tree) =
  [mk_fts_item (str "/r/b.txz") (str "b.txz") (str "b.txz") 10; mk_fts_item (str "/r/a.txz") (str "a.txz") (str "a.txz") 10].
Proof. vm_compute. reflexivity. Qed.

Lemma toy_origins cur r : cur ∈ pkg_create_repo_read_fts pkg_repo_meta_default (str "/r") (toy_tree ab_tree) -> toy_outcome cur = Ready r ->
  Forall plain_byte (r_origin r) /\ (length (r_origin r) < 700)%nat.
Proof.
  rewrite toy_items. intros [->|[->|[]%elem_of_nil]%elem_of_cons]%elem_of_cons H; vm_compute in H; injection H as <-;
    (split; [repeat constructor; discriminate|apply Nat.ltb_lt; reflexivity]).
Qed.

Lemma toy_good : Forall (goes_on toy_outcome true) (pkg_create_repo_read_fts pkg_repo_meta_default (str "/r") (toy_tree ab_tree)).
Proof. rewrite toy_items. repeat constructor. Qed.

Lemma toy_bytes : small (todo_bytes toy_outcome (pkg_create_repo_read_fts pkg_repo_meta_default (str "/r") (toy_tree ab_tree))).
Proof. rewrite toy_items. apply Z.leb_le. vm_compute. reflexivity. Qed.

Lemma repository_complete_witness :
  exists repo l, toy_create ab_tree 4 (concat (replicate 12 toy_round)) = Some (EPKG_OK, Some repo) /\ rp_digests repo = concat (map placed_line l) /\ length l = 2%nat.
Proof.
  eexists. destruct (repository_complete (fun _ => str "{}") toy_text toy_hash toy_hash_ok toy_archives (str "/r") None pkg_repo_meta_default (toy_tree ab_tree)
    (fun _ => true) true true false 4 1 (fun _ => true) eq_refl ltac:(reflexivity) toy_origins toy_bytes (concat (replicate 12 toy_round)) _ toy_good ltac:(vm_compute; reflexivity))
    as (l & H1 & H2 & _). exists l. split; [vm_compute; reflexivity|]. split; [exact H2|].
  apply Permutation_length in H1. rewrite length_map in H1. rewrite H1, toy_items. reflexivity.
Defined.

Lemma create_repo_returns_witness : exists repo, toy_create ab_tree 4 (concat (replicate 26 toy_round)) = Some (EPKG_OK, Some repo).
Proof.
  refine (create_repo_returns (fun _ => str "{}") toy_text toy_hash toy_hash_ok toy_archives (str "/r") None pkg_repo_meta_default (toy_tree ab_tree)
    (fun _ => true) true true false 4 1 (fun _ => true) eq_refl _ toy_origins toy_bytes (replicate 26 toy_round) _ _ (fun _ => eq_refl) (fun _ => eq_refl) _ _).
  - reflexivity.
  - rewrite toy_items. discriminate.
  - split_and!; eexists; reflexivity.
  - apply Forall_replicate. intros e He. rewrite toy_items in He. vm_compute in He. repeat (apply elem_of_cons in He as [->|He]; [apply list_elem_of_In; cbn; tauto|]). by apply elem_of_nil in He.
  - rewrite toy_items. apply Nat.leb_le. reflexivity.
Defined.

(** Two packages of one origin: the order of their lines is the order in which
    the workers came. *)
Example one_origin_two_orders :
  let round0 := [Work 0; Poll 0] in let round1 := [Work 1; Poll 1] in
  digests_of (toy_create ["b.txz"; "b2.txz"] 2 (concat (replicate 8 round0) ++ concat (replicate 8 round1))) <>
  digests_of (toy_create ["b.txz"; "b2.txz"] 2 (concat (replicate 8 round1) ++ concat (replicate 8 round0))).
Proof. vm_compute. discriminate. Qed.

(** The worker of a package that cannot be written dies, and the packages after
    it are missing; the answer is EPKG_OK. *)
Example dead_worker_unnoticed :
  (fun x : pkg_error_t * cstring => (x.1, map (take 4) (getlines [] x.2))) <$> digests_of (toy_create ["b.txz"; "c.txz"; "a.txz"] 1 (concat (replicate 20 [Work 0; Poll 0]))) =
    Some (EPKG_OK, [str "x/a:"]).
Proof. vm_compute. reflexivity. Qed.

(** A colon in the origin moves every field of the line. *)
Example colon_in_origin :
  (fun x => p_dlist x.2) <$> read_bytes (line_text (str "x:a") (str "2$0$d") 5 0 7 (str "07")) [] (mk_pipe s_set_origin None []) = None.
Proof. vm_compute. reflexivity. Qed.

(** *** What is published *)

Definition out_files : gmap cstring cstring := list_to_map [(str "/out/packagesite.yaml", str "manifests"); (str "/out/digests", str "lines")].

Abbreviation toy_finish s files := (pkg_finish_repo toy_sha256 toy_sign (fun _ => []) (fun _ => Some toy_meta) (fun _ => true) true (str "/out") s false files).

(** The archives under the address of the repository. *)
Definition toy_server (l : list (cstring * list archive_entry)) (url : cstring) : pkg_error_t * list archive_entry :=
  match find (fun x : cstring * list archive_entry => streq (str "http://host" ++ drop 4 x.1 ++ str ".txz") url) l with Some (_, a) => (EPKG_OK, a) | None => (EPKG_FATAL, []) end.

Definition out_archives : list (cstring * list archive_entry) :=
  match toy_finish (Key (str "K1")) out_files with Some (_, st) => pk_archives st | None => [] end.

Lemma out_archives_two : exists a1 a2, out_archives = [(str "/out/packagesite", a1); (str "/out/digests", a2)].
Proof. eexists _, _. vm_compute. reflexivity. Qed.

Lemma in_dir_short output_dir x y : in_dir output_dir x = output_dir ++ SLASH :: y -> (length (output_dir ++ SLASH :: y) < 1023)%nat -> x = y.
Proof.
  unfold in_dir, snprintf. intros H Hl. rewrite <- H, length_take in Hl. rewrite take_ge in H by (unfold MAXPATHLEN in *; lia). by apply app_inv_head in H as [= ->].
Qed.

Lemma published_files_fetched_witness :
  pkg_repo_fetch_remote_extract_tmp (toy_dir None) toy_file (toy_stat None) toy_sha256 toy_key toy_verify true key_files true (toy_server out_archives)
    (toy_repo SIG_PUBKEY) (str "digests") true = Some (EPKG_OK, Some (str "lines"), toy_repo SIG_PUBKEY).
Proof.
  destruct (published_files_fetched (toy_dir None) toy_file (toy_stat None) toy_sha256 toy_key toy_verify toy_sign key_files (toy_server out_archives)
    (fun _ => []) (fun _ => Some toy_meta) (fun _ => true) (str "/out") (str "K1") false out_files (mk_packing ∅ out_archives) (toy_repo SIG_PUBKEY) pkg_repo_meta_default
    (str "/key") (str "K1") (str "K1")) as (site & dig & _ & H2 & _ & H4).
  - apply Nat.ltb_lt. reflexivity.
  - vm_compute. reflexivity.
  - reflexivity.
  - reflexivity.
  - reflexivity.
  - reflexivity.
  - apply toy_pair.
  - reflexivity.
  - reflexivity.
  - intros name a Hin. cbn [pk_archives] in Hin. destruct out_archives_two as (a1 & a2 & E). rewrite E in *.
    apply elem_of_cons in Hin as [Hin|Hin]; [|apply elem_of_cons in Hin as [Hin|Hin]; [|by apply elem_of_nil in Hin]];
      pose proof (f_equal fst Hin) as Hn; pose proof (f_equal snd Hin) as Ha; cbn [fst snd] in Hn, Ha; subst a; clear Hin.
    + apply (in_dir_short (str "/out") name (str "packagesite")) in Hn; [subst name; reflexivity|apply Nat.ltb_lt; reflexivity].
    + apply (in_dir_short (str "/out") name (str "digests")) in Hn; [subst name; reflexivity|apply Nat.ltb_lt; reflexivity].
  - vm_compute in H2. injection H2 as <-. exact H4.
Defined.

(** The metadata name another file for the manifests; they are loaded, and the
    default names are used all the same: the manifests are not packed, and
    nothing is said. *)
Definition named_meta : list (cstring * ucl) := [(str "version", UInt 1); (str "manifests", UString (str "site.yaml")); (str "manifests_archive", UString (str "site"))].

Example metadata_ignored :
  match pkg_finish_repo toy_sha256 toy_sign (fun _ => []) (fun _ => Some named_meta) (fun _ => true) true (str "/out") Unsigned false
      (list_to_map [(str "/out/meta", str "text"); (str "/out/site.yaml", str "manifests"); (str "/out/digests", str "lines")]) with
  | Some (rc, st) => rc = EPKG_OK /\ pk_archives st = [(str "/out/meta", [(str "meta", Some (str "text"))]); (str "/out/packagesite", []); (str "/out/digests", [(str "digests", Some (str "lines"))])] /\
      pk_files st !! str "/out/site.yaml" = Some (str "manifests")
  | None => False
  end.
Proof. vm_compute. split_and!; reflexivity. Qed.
